(* ===== verification/_CoqProject ===== *)
-Q . S2P
Prelude.v
Errno.v
Ring.v
Pmm.v
Pages.v
Heap.v
HeapLists.v
HeapInv.v
HeapGrow.v
HeapOps.v
HeapCheck.v
Cow.v
SwapSlots.v
Vmm.v
VmmInv.v
VmmProps.v
VmmSwap.v
Swap.v
Mmap.v
Region.v
RegionTable.v
RegionProps.v
RegionSystem.v
Machine.v
IpFrag.v
Pipe.v
Bcache.v
Date.v
Clock.v
Sha256.v
Chacha20.v
StringLib.v
Shm.v
ShmMaps.v
Localsock.v
Slab.v
Spinlock.v
Mutex.v
Pcache.v
PcacheTable.v
PcacheSystem.v
SwapPressure.v
PcacheCoherent.v
PcacheOrder.v
PcacheProps.v
Sched.v
SchedInv.v
SchedMoves.v
SchedRun.v
SchedStep.v
SchedSleep.v
SchedProps.v
SchedWake.v
