(* ===== verification/Prelude.v ===== *)
(** * A verified model of BashketKernel

    BashketKernel is an x86_64 kernel in C. This library translates the parts of
    it listed here into Rocq functions and proves what they guarantee. It covers
    memory management (everything under [src/mm] but kernel stacks), the scheduler
    and the locks, and around them the kernel's self-contained parts: pipes, local
    sockets, shared memory, reassembly of IPv4 fragments, the disk sector cache,
    the clocks, and the hash, cipher and string functions of [lib].

    ** How the code is translated

    A C integer is a [Z] in the range of its type; where an operation can leave the
    range the cast is written out ([u8] ... [u64] below). An array is a list read
    with [get] and written with [put]; a pointer is its address, 0 is NULL; the
    statics of a file are the fields of a record, and a function that changes them
    takes the record and returns it. Memory the code reads and writes through
    pointers is a function from addresses to words ([Heap], [Vmm]) or bytes
    ([StringLib]). Names are those of the code; a definition that is part of a
    function (a loop body, a part under a lock) has a name of its own.

    A section under a lock is one step ([Spinlock] alone goes below that, to single
    accesses to memory). Where a call releases its lock, or sleeps,
    in the middle, its parts are steps of their own, and a step relation lets the
    parts of different calls interleave in any order ([Pipe], [Bcache],
    [Localsock], [RegionSystem], [PcacheSystem], [Mutex], [Sched]). What comes from outside the
    model is an argument of the step: readings of hardware clocks, whether [kmalloc] finds memory,
    whether a disk transfer succeeds and what a failed one leaves behind, whether a
    range is in use by another call. The theorems hold for all of them.

    A loop is structural recursion on the list or the count it runs over, or on a
    bound above the number of turns possible; where that bound is large (the pages
    of an address space, the blocks of a heap) it is a binary number and the loop is
    [loop] below. The theorems about these functions show that the code's own
    condition ends the loop before the bound does, so that the result is the
    code's: [VmmSwap.vmm_swap_pick_correct], [VmmProps.vmm_user_range_ok_sound],
    [Mmap.user_ranges_correct], [HeapCheck.kmalloc_correct],
    [StringLib.string_functions_correct]. The exception is [Region.region_fault],
    which looks again as often as other threads change the table under it: its bound
    is an argument, and [RegionSystem] has the turns as steps instead.

    ** Memory

    - [Pmm]: the frame allocator, [src/mm/pmm.c]. Allocation and freeing refine
      taking frames from and adding them to a set of free frames; the map the boot
      loader gives becomes that set; a client that frees what it holds never gets a
      frame twice.
    - [Heap], [HeapLists], [HeapInv], [HeapGrow], [HeapOps], [HeapCheck]: [kmalloc]
      and [kfree], [src/mm/heap.c], on a memory of words. The pages below are the
      classes [Pages] and [PagesLaws] of [Pages]; [Machine] proves the laws of the
      frame allocator and page tables modelled here and applies the theorems to a
      concrete machine. They give the exact behaviour of both calls, what a second
      free does, and that under any client the heap stays in order ([kheap_check]
      accepts it) and live allocations are disjoint.
    - [Cow]: frames with several owners, [src/mm/cow.c]. Counts are the number of
      owners as long as these are fewer than 65536; beyond that the count wraps.
    - [SwapSlots], [Swap], [SwapPressure]: the swap disk, [src/mm/swap.c]. Pages go out
      and come back with failing transfers in between, and no address space can tell;
      the calls say exactly how many went. [SwapPressure] has the calls that make room,
      which ask the page cache first: the two share the frames and their counts.
    - [Vmm], [VmmInv], [VmmProps], [VmmSwap]: page tables, [src/mm/vmm.c], as words
      of physical memory. Mapping and unmapping change one page of one space; a
      copy-on-write fault gives the writer a page of its own; a user buffer that
      passes the check may be used as asked, and one that does not may not; the search for a page to swap out ends
      and takes one that may go.
    - [Mmap]: ranges of user memory, [src/mm/mmap.c].
    - [Region], [RegionTable], [RegionProps], [RegionSystem]: memory promised by
      mmap, brk and exec and given on first touch, [src/mm/region.c]. [munmap] is
      specified on every path; [RegionSystem] has all processes and threads of the
      system, with the parts of munmap and of faults interleaved with everything
      else, and shows that regions do not overlap, that the counts of each file are
      its holders, that a fault's file is held as long as it works on it, and that
      the system's total of promised pages is the sum of the promises.
    - [Pcache], [PcacheTable], [PcacheSystem], [PcacheCoherent], [PcacheOrder],
      [PcacheProps]: the page cache, [src/mm/pcache.c], with the calls of
      [src/fs/vfs.c] and [file.c] that read, write and truncate files. In
      [PcacheSystem] the parts of any number of calls interleave with mappings that
      are made, written through and given up; the table, its counts and the frames'
      reference counts stay exact, and only clean pages that nothing maps are
      evicted. [PcacheCoherent] says what every cached byte must be; for the runs
      of [orderly] (the conditions are [fits], [may_store] and [may_unmap]: above
      all, one call at a time changes a file, reads of the disk do not fail, and
      nobody stores to a page and unmaps it between its being written back and
      being marked clean) a file looks the same through mappings, [read] and on
      disk. The last condition is needed: [PcacheProps.writeback_loses_store].
    - [Slab]: object caches, [src/mm/slab.c]. Objects in use are disjoint and given
      out once; a free is accepted for these only, which the header in the page
      decides, as long as nobody else starts a page with the address of the cache.

    ** The scheduler and the locks

    - [Spinlock]: [src/kernel/sync/spinlock.c], with its check of the locking rules.
      A lock has one holder; and as long as the check reports nothing, CPUs never
      wait for each other in a circle.
    - [Mutex]: locks held across sleep and semaphores, [src/kernel/sync/mutex.c] and
      [sem.c]. One owner, exact counts, nobody left asleep who could go on; and a
      task that [sem_wait] lets spin.
    - [Sched]: [src/kernel/sched/sched.c] and [priority.c], with the waiting of
      [process_wait_options] and [process_thread_join] in [src/kernel/proc/process.c].
      Each of up to 32 CPUs has a list of what it has left to do in the scheduler; an
      item is a section under a lock or an access outside one, [perform] says what it
      does, and [step] lets any CPU go on, be called or be interrupted. A context
      switch puts what the task has left to do aside, and takes up what the next one
      had. [SchedInv] has the invariant (with the type system [typed] for what is
      left to do: who may hold the scheduler lock where), [SchedMoves] and [SchedRun]
      the ways tasks move under it, [SchedStep] that every item keeps it, [SchedSleep]
      the same for the lists of timed sleepers. [SchedProps] starts from the state
      [sched_init] makes and concludes: every task is in one place, no stack is used
      by two CPUs, nothing in use is freed, queues and sleepers are exact.
      [SchedWake] shows that [sched_wakeup] leaves nobody asleep and gets through,
      and that the scheduler does not deadlock.

    ** The other parts

    - [Pipe] ([src/fs/pipe.c]): bytes arrive in order in every interleaving, nobody
      sleeps who could go on, and what a write returns. [Ring] is the queue in an
      array it shares with other parts.
    - [Localsock] ([src/fs/localsock.c]): connections are accepted once, in order.
    - [Shm], [ShmMaps] ([src/kernel/ipc/shm.c]): segments, and the page tables they are
      mapped in; frames are counted once for each segment and each entry.
    - [IpFrag] ([src/net/ipfrag.c]): fragments in any order give the datagram; what
      is handed on came from fragments of it; memory is bounded; expiry.
    - [Bcache] ([src/drivers/block/bcache.c]): cached sectors are what the disk
      holds.
    - [Date] ([lib/time/date.c]) and [Clock] ([src/kernel/time/hrtimer.c],
      [walltime.c], [src/drivers/char/rtc.c]): the calendar, and clocks that do not
      run back.
    - [Sha256] against FIPS 180-4, [Chacha20], [StringLib]: [lib/crypto] and
      [lib/string.c].
    - [Errno]: the error numbers they return.

    ** What is not modelled

    The TLB and its shootdowns, interrupts and the assembly stubs; what the
    scheduler does with registers, page tables and the timer, and what signals
    do to the threads of a process (an argument of [Sched]); the locks in the
    other parts, which appear as the atomicity and interleaving of steps; file
    systems and devices, which [Region] knows through the class [files] and
    [Pcache] through what they read and write; drivers, TCP and the rest of
    the network stack, system calls, program loading and user programs. What
    the code prints is left out, except for the reports a theorem is about.

    Some interleavings are left out too. In [Sched] a CPU that is in the middle of a call
    is not interrupted by its own timer between two sections, and a task does not sleep
    between the sections of [task_end]. In [RegionSystem] waiting for the users of a file and
    letting go of it is one step. In [Bcache] one sector is not written twice at a time
    ([bcache.h] leaves that to the callers). In [SwapPressure] nothing comes between the
    parts of [pcache_reclaim]. *)
From stdpp Require Import base tactics numbers list sets relations.
From Stdlib Require Import ZArith Lia.

Open Scope Z_scope.

(** * Machine integers *)

(** The C types [uint8_t] ... [uint64_t] (and [size_t], 64 bits wide on x86_64)
    are integers kept modulo a power of two. Every operation of the code that
    could leave the range is followed by one of these casts. *)
Definition u8  (z : Z) : Z := z mod 0x100.
Definition u16 (z : Z) : Z := z mod 0x10000.
Definition u32 (z : Z) : Z := z mod 0x100000000.
Definition u64 (z : Z) : Z := z mod 0x10000000000000000.

(** A value as [int64_t]: two's complement reading of 64 bits. *)
Definition s64 (z : Z) : Z :=
  let w := u64 z in if w <? 0x8000000000000000 then w else w - 0x10000000000000000.

Declare Scope word_scope.
Delimit Scope word_scope with word.
Notation "a +w b" := (u64 (a + b)) (at level 50, left associativity) : word_scope.
Notation "a -w b" := (u64 (a - b)) (at level 50, left associativity) : word_scope.
Notation "a *w b" := (u64 (a * b)) (at level 40, left associativity) : word_scope.
Open Scope word_scope.


(** Arithmetic with [/] and [mod] by constants. *)
Ltac zlia := Z.to_euclidean_division_equations; lia.

(** Case split on the boolean comparisons of [Z] in the goal or hypotheses. *)
Ltac zbool :=
  repeat match goal with
  | H : (_ =? _) = true |- _ => apply Z.eqb_eq in H
  | H : (_ =? _) = false |- _ => apply Z.eqb_neq in H
  | H : (_ <? _) = true |- _ => apply Z.ltb_lt in H
  | H : (_ <? _) = false |- _ => apply Z.ltb_ge in H
  | H : (_ <=? _) = true |- _ => apply Z.leb_le in H
  | H : (_ <=? _) = false |- _ => apply Z.leb_gt in H
  | H : _ && _ = true |- _ => apply andb_true_iff in H as [? ?]
  | H : _ || _ = false |- _ => apply orb_false_iff in H as [? ?]
  | H : negb _ = true |- _ => apply negb_true_iff in H
  | H : negb _ = false |- _ => apply negb_false_iff in H
  end.

Ltac zcase :=
  match goal with
  | |- context [if ?b then _ else _] => destruct b eqn:?
  end; zbool.

Lemma u8_range z : 0 <= u8 z < 0x100.
Proof. apply Z.mod_pos_bound. lia. Qed.
Lemma u16_range z : 0 <= u16 z < 0x10000.
Proof. apply Z.mod_pos_bound. lia. Qed.
Lemma u32_range z : 0 <= u32 z < 0x100000000.
Proof. apply Z.mod_pos_bound. lia. Qed.
Lemma u64_range z : 0 <= u64 z < 0x10000000000000000.
Proof. apply Z.mod_pos_bound. lia. Qed.
Lemma u8_small z : 0 <= z < 0x100 -> u8 z = z.
Proof. apply Z.mod_small. Qed.
Lemma u16_small z : 0 <= z < 0x10000 -> u16 z = z.
Proof. apply Z.mod_small. Qed.
Lemma u32_small z : 0 <= z < 0x100000000 -> u32 z = z.
Proof. apply Z.mod_small. Qed.
Lemma u64_small z : 0 <= z < 0x10000000000000000 -> u64 z = z.
Proof. apply Z.mod_small. Qed.

(** Facts that [auto with words] may use, and rewriting of array lengths. *)
Create HintDb words.
#[export] Hint Resolve u8_range u16_range u32_range u64_range : words.
#[export] Hint Resolve u8_small u16_small u32_small u64_small : words.

(** Clearing the low [k] bits, the way the code writes it: [w & ~(2^k - 1)]. *)
Lemma land_align (w k : Z) :
  0 <= k -> 0 <= w < 0x10000000000000000 -> Z.land w (u64 (Z.lnot (2 ^ k - 1))) = w - w mod 2 ^ k.
Proof.
  intros Hk Hw. unfold u64. change 0x10000000000000000 with (2 ^ 64). rewrite <- Z.land_ones by lia.
  rewrite (Z.land_comm (Z.lnot _)), Z.land_assoc, Z.land_ones, Z.mod_small by lia.
  replace (2 ^ k - 1) with (Z.ones k) by (rewrite Z.ones_equiv; lia).
  rewrite <- Z.ldiff_land, Z.ldiff_ones_r, Z.shiftl_mul_pow2, Z.shiftr_div_pow2 by lia.
  pose proof (Z.pow_pos_nonneg 2 k). rewrite (Z.mod_eq w (2 ^ k)) by lia. lia.
Qed.

(** [|] of numbers with no bit in common adds them. *)
Lemma lor_shift (a b k : Z) : 0 <= k -> 0 <= a < 2 ^ k -> Z.lor a (b * 2 ^ k) = a + b * 2 ^ k.
Proof.
  intros Hk Ha. assert (Z.land a (b * 2 ^ k) = 0) as E.
  { apply Z.bits_inj'. intros i Hi. rewrite Z.land_spec, Z.bits_0. destruct (Z.ltb_spec i k).
    - rewrite (Z.mul_pow2_bits_low b k i), andb_false_r by done. done.
    - destruct (decide (a = 0)) as [->|]; [by rewrite Z.bits_0|].
      rewrite (Z.bits_above_log2 a i); [done|lia|]. apply Z.log2_lt_pow2; [lia|].
      pose proof (Z.pow_le_mono_r 2 k i). lia. }
  by rewrite <- Z.lxor_lor, Z.add_nocarry_lxor.
Qed.

(** Remove casts of values that are known to be in range. *)
Ltac unwrap :=
  repeat match goal with
  | |- context [u64 ?z] => rewrite (u64_small z) by lia
  | H : context [u64 ?z] |- _ => rewrite (u64_small z) in H by lia
  end.

(** * Counting loops *)

(** How many [i] with [0 <= i < n] satisfy [P]. *)
Fixpoint count_below (P : Z -> bool) (n : nat) : Z :=
  match n with
  | O => 0
  | S n' => count_below P n' + (if P (Z.of_nat n') then 1 else 0)
  end.

Lemma count_below_ext P Q n :
  (forall i, 0 <= i < Z.of_nat n -> P i = Q i) -> count_below P n = count_below Q n.
Proof.
  induction n as [|n IH]; intros H; simpl; [done|].
  rewrite IH by (intros; apply H; lia). rewrite H by lia. done.
Qed.

Lemma count_below_range P n : 0 <= count_below P n <= Z.of_nat n.
Proof. induction n; simpl count_below; [lia|]. destruct (P (Z.of_nat n)); lia. Qed.

(** Turning one element from [false] to [true] adds one to the count. *)
Lemma count_below_flip P Q n k :
  0 <= k < Z.of_nat n -> P k = false -> Q k = true ->
  (forall i, 0 <= i < Z.of_nat n -> i <> k -> P i = Q i) ->
  count_below Q n = count_below P n + 1.
Proof.
  induction n as [|n IH]; intros Hk HP HQ Hext; [lia|]. simpl.
  destruct (decide (k = Z.of_nat n)) as [->|Hne].
  - rewrite HP, HQ, (count_below_ext Q P) by (intros; symmetry; apply Hext; lia). lia.
  - rewrite IH by (try done; try lia; intros; apply Hext; lia).
    rewrite (Hext (Z.of_nat n)) by lia. destruct (Q (Z.of_nat n)); lia.
Qed.

Lemma count_below_pos P n k : 0 <= k < Z.of_nat n -> P k = true -> 1 <= count_below P n.
Proof.
  induction n as [|n IH]; intros Hk HP; [lia|]. simpl.
  destruct (decide (k = Z.of_nat n)) as [->|Hne].
  - rewrite HP. pose proof (count_below_range P n). lia.
  - specialize (IH ltac:(lia) HP). destruct (P (Z.of_nat n)); lia.
Qed.

Lemma count_below_all P n : (forall i, 0 <= i < Z.of_nat n -> P i = true) -> count_below P n = Z.of_nat n.
Proof. induction n as [|n IH]; intros H; simpl count_below; [done|]. rewrite IH, H by (auto with lia || lia). lia. Qed.

Lemma count_below_none P n : (forall i, 0 <= i < Z.of_nat n -> P i = false) -> count_below P n = 0.
Proof. induction n as [|n IH]; intros H; simpl count_below; [done|]. rewrite IH by (intros; apply H; lia). rewrite H by lia. lia. Qed.

(** * Bytes in arrays *)

(** [a[i]] of a C array held as a list; the index is within bounds wherever
    the code reads (the component invariants say so). *)
Definition get (l : list Z) (i : Z) : Z := nth (Z.to_nat i) l 0.
Definition put (l : list Z) (i : Z) (v : Z) : list Z := <[Z.to_nat i := v]> l.

Lemma length_put l i v : length (put l i v) = length l.
Proof. apply length_insert. Qed.
#[export] Hint Rewrite length_put @length_insert @length_replicate @length_app @length_fmap @length_seq @length_take @length_drop : lengths.

Lemma lookup_nth (l : list Z) i : (i < length l)%nat -> l !! i = Some (nth i l 0).
Proof. intros Hi. rewrite nth_lookup. destruct (lookup_lt_is_Some_2 l i Hi) as [x ->]. done. Qed.

Lemma get_replicate n i : get (replicate n 0) i = 0.
Proof.
  unfold get. rewrite nth_lookup. destruct (replicate n 0 !! Z.to_nat i) eqn:E; [|done].
  by apply lookup_replicate in E as [-> _].
Qed.

Lemma get_put l i j v :
  0 <= i < Z.of_nat (length l) -> 0 <= j -> get (put l i v) j = if j =? i then v else get l j.
Proof.
  intros Hi Hj. unfold get, put. rewrite !nth_lookup.
  destruct (Z.eqb_spec j i) as [->|Hne].
  - rewrite list_lookup_insert_eq by lia. done.
  - rewrite list_lookup_insert_ne by lia. done.
Qed.

Lemma filter_all {A} (P : A -> Prop) `{forall x, Decision (P x)} (l : list A) :
  (forall x, x ∈ l -> P x) -> filter P l = l.
Proof.
  induction l as [|a l IH]; intros HP; [done|]. rewrite filter_cons_True by (apply HP; set_solver).
  rewrite IH; [done|]. intros x Hx. apply HP. set_solver.
Qed.
Lemma filter_none {A} (P : A -> Prop) `{forall x, Decision (P x)} (l : list A) :
  (forall x, x ∈ l -> ~ P x) -> filter P l = [].
Proof.
  induction l as [|a l IH]; intros HP; [done|]. rewrite filter_cons_False by (apply HP; set_solver).
  apply IH. intros x Hx. apply HP. set_solver.
Qed.
Lemma filter_ext_in {A} (P Q : A -> Prop) `{forall x, Decision (P x)} `{forall x, Decision (Q x)} (l : list A) :
  (forall x, x ∈ l -> P x <-> Q x) -> filter P l = filter Q l.
Proof.
  induction l as [|x l IH]; intros HPQ; [done|].
  rewrite !filter_cons, IH by (intros; apply HPQ; set_solver).
  pose proof (HPQ x ltac:(set_solver)). repeat case_decide; tauto.
Qed.

(** * Pairwise properties of lists *)

Lemma ForallOrdPairs_app {A} (R : A -> A -> Prop) (l1 l2 : list A) :
  ForallOrdPairs R (l1 ++ l2) <->
  ForallOrdPairs R l1 /\ ForallOrdPairs R l2 /\ (forall x y, x ∈ l1 -> y ∈ l2 -> R x y).
Proof.
  induction l1 as [|a l1 IH]; simpl.
  - split; [intros H; split_and!; [constructor|done|set_solver]|tauto].
  - split.
    + inversion_clear 1 as [|?? Ha Hl]. apply IH in Hl as (H1&H2&H3).
      apply Forall_app in Ha as [Ha1 Ha2]. rewrite Forall_forall in Ha2.
      split_and!; [by constructor|done|]. intros x y Hx Hy.
      apply elem_of_cons in Hx as [->|Hx]; [by apply Ha2|by apply H3].
    + intros (H1&H2&H3). inversion_clear H1 as [|?? Ha Hl]. constructor.
      * apply Forall_app. split; [done|]. apply Forall_forall. intros y Hy. apply H3; set_solver.
      * apply IH. split_and!; [done|done|]. intros x y Hx Hy. apply H3; set_solver.
Qed.

Lemma ForallOrdPairs_remove {A} (R : A -> A -> Prop) (l1 l2 : list A) (x : A) :
  (forall a b, R a b -> R b a) -> ForallOrdPairs R (l1 ++ x :: l2) ->
  ForallOrdPairs R (l1 ++ l2) /\ (forall y, y ∈ l1 ++ l2 -> R x y).
Proof.
  intros Hsym. rewrite !ForallOrdPairs_app. intros (H1&H2&H3).
  inversion_clear H2 as [|?? Hx Hl]. rewrite Forall_forall in Hx. split.
  - split_and!; [done|done|]. intros a b Ha Hb. apply H3; set_solver.
  - intros y Hy. apply elem_of_app in Hy as [Hy|Hy]; [|by apply Hx]. apply Hsym, H3; set_solver.
Qed.

Lemma ForallOrdPairs_impl {A} (R S : A -> A -> Prop) l :
  (forall a b, R a b -> S a b) -> ForallOrdPairs R l -> ForallOrdPairs S l.
Proof. intros HRS. induction 1 as [|x l Hx _ IH]; constructor; [|done]. eapply Forall_impl; [exact Hx|]. intros y. apply HRS. Qed.

Lemma ForallOrdPairs_perm {A} (R : A -> A -> Prop) l l' :
  (forall a b, R a b -> R b a) -> l ≡ₚ l' -> ForallOrdPairs R l -> ForallOrdPairs R l'.
Proof.
  intros Hsym Hp. induction Hp as [|x l l' Hp IH|x y l|l1 l2 l3 _ IH1 _ IH2]; intros Hl; [done| | |by apply IH2, IH1].
  - inversion_clear Hl as [|?? Hx Hl']. constructor; [by rewrite <- Hp|by apply IH].
  - inversion_clear Hl as [|?? Hy Hl']. inversion_clear Hl' as [|?? Hx Hl]. inversion_clear Hy as [|?? Hyx Hyl].
    constructor; [constructor; [by apply Hsym|done]|]. by constructor.
Qed.

Lemma put_get_id l i : 0 <= i < Z.of_nat (length l) -> put l i (get l i) = l.
Proof.
  intros Hi. unfold put, get. apply list_insert_id.
  destruct (lookup_lt_is_Some_2 l (Z.to_nat i)) as [v Hv]; [lia|].
  rewrite Hv, nth_lookup, Hv. done.
Qed.

(** What each element of a list holds, before and after one of them changes. *)
Lemma concat_fmap_insert {A B} (f : A -> list B) (l : list A) i x y : l !! i = Some x ->
  exists rest, concat (f <$> l) ≡ₚ f x ++ rest /\ concat (f <$> <[i := y]> l) ≡ₚ f y ++ rest.
Proof.
  intros Hi. pose proof (lookup_lt_Some _ _ _ Hi). exists (concat (f <$> take i l) ++ concat (f <$> drop (S i) l)).
  rewrite insert_take_drop by done. rewrite <- (take_drop_middle l i x Hi) at 1. rewrite !fmap_app, !concat_app. cbn.
  split; rewrite !app_assoc; f_equiv; apply Permutation_app_comm.
Qed.

Lemma u32_add a b : u32 (u32 a + b) = u32 (a + b).
Proof. unfold u32. apply Zplus_mod_idemp_l. Qed.

Lemma elem_of_concat {A} (x : A) ls : x ∈ concat ls <-> exists l, x ∈ l /\ l ∈ ls.
Proof.
  rewrite list_elem_of_In, in_concat. setoid_rewrite list_elem_of_In. naive_solver.
Qed.

(** An invariant of the steps holds of everything reachable. *)
Lemma rtc_invariant {A} (R : relation A) (I : A -> Prop) s s' :
  (forall x y, I x -> R x y -> I y) -> I s -> rtc R s s' -> I s'.
Proof. intros Hstep Hs Hr. induction Hr; eauto. Qed.

(** * Loops *)

(** At most [n] rounds of [step], which either goes on with a new state ([inl])
    or is done ([inr]). The bound is a binary number, so that a bound far above
    what a run needs costs nothing. *)
Fixpoint loop {A B} (n : positive) (step : A -> A + B) (a : A) : A + B :=
  match n with
  | xH => step a
  | xO n' => match loop n' step a with inl a' => loop n' step a' | r => r end
  | xI n' => match step a with
             | inl a' => match loop n' step a' with inl a'' => loop n' step a'' | r => r end
             | r => r
             end
  end.

(** The same, one round at a time. *)
Fixpoint rounds {A B} (n : nat) (step : A -> A + B) (a : A) : A + B :=
  match n with
  | O => inl a
  | S n' => match step a with inl a' => rounds n' step a' | r => r end
  end.

Lemma rounds_add {A B} (step : A -> A + B) n m a :
  rounds (n + m) step a = match rounds n step a with inl a' => rounds m step a' | r => r end.
Proof. revert a. induction n as [|n IH]; intros a; [done|]. cbn. destruct (step a); [apply IH|done]. Qed.

Lemma loop_rounds {A B} (step : A -> A + B) n a : loop n step a = rounds (Pos.to_nat n) step a.
Proof.
  revert a. induction n as [n IH|n IH|]; intros a; cbn [loop].
  - rewrite Pos2Nat.inj_xI. replace (S (2 * Pos.to_nat n)) with (S (Pos.to_nat n + Pos.to_nat n)) by lia.
    cbn [rounds]. destruct (step a) as [a'|]; [|done]. rewrite rounds_add, IH. destruct (rounds _ step a'); [apply IH|done].
  - rewrite Pos2Nat.inj_xO. replace (2 * Pos.to_nat n)%nat with (Pos.to_nat n + Pos.to_nat n)%nat by lia.
    rewrite rounds_add, IH. destruct (rounds _ step a); [apply IH|done].
  - change (Pos.to_nat 1) with 1%nat. cbn. by destruct (step a).
Qed.

(** A measure that falls in every round bounds the number of rounds. *)
Lemma rounds_done {A B} (I : A -> Prop) (f : A -> nat) (step : A -> A + B) :
  (forall a, I a -> match step a with inl a' => I a' /\ (f a' < f a)%nat | inr _ => True end) ->
  forall n a, I a -> (f a < n)%nat -> exists b, rounds n step a = inr b.
Proof.
  intros Hstep. induction n as [|n IH]; intros a Ha Hf; [lia|]. cbn. specialize (Hstep a Ha).
  destruct (step a) as [a'|b]; [|by exists b]. destruct Hstep. apply IH; [done|lia].
Qed.

(** What holds of the start and survives every round holds of the result. *)
Lemma rounds_invariant {A B} (I : A -> Prop) (Q : B -> Prop) (step : A -> A + B) :
  (forall a, I a -> match step a with inl a' => I a' | inr b => Q b end) ->
  forall n a, I a -> match rounds n step a with inl a' => I a' | inr b => Q b end.
Proof.
  intros Hstep. induction n as [|n IH]; intros a Ha; [done|]. cbn. specialize (Hstep a Ha).
  destruct (step a); [by apply IH|done].
Qed.
