(* ===== verification/Errno.v ===== *)
(** Error numbers, [src/include/kerrno.h]. System calls return them negated. *)
From Stdlib Require Import ZArith.

Open Scope Z_scope.

Definition EPERM : Z := 1.
Definition ENOENT : Z := 2.
Definition ESRCH : Z := 3.
Definition EINTR : Z := 4.
Definition EIO : Z := 5.
Definition ENOMEM : Z := 12.
Definition EACCES : Z := 13.
Definition EFAULT : Z := 14.
Definition EBUSY : Z := 16.
Definition EINVAL : Z := 22.
Definition ENOSPC : Z := 28.
Definition EPIPE : Z := 32.
Definition ECONNREFUSED : Z := 111.
Definition EAGAIN : Z := 11.
