(* ===== verification/Ring.v ===== *)
(** Ring buffers: a queue in an array, with the index of its oldest element and
    a count. Pipes and the queues of local sockets and terminals keep their
    contents this way. *)
From stdpp Require Import base tactics numbers list.
From Stdlib Require Import ZArith Lia.
From S2P Require Import Prelude.

Open Scope Z_scope.

Section Ring.
Context (size : Z) (Hsize : 0 < size).
Implicit Types (buf : list Z) (tail count : Z).

(** The elements from [tail] on, oldest first. *)
Definition ring buf tail count : list Z := (fun i => get buf ((tail + Z.of_nat i) mod size)) <$> seq 0 (Z.to_nat count).

Record ring_ok buf tail count : Prop := {
  ring_size : Z.of_nat (length buf) = size;
  ring_tail : 0 <= tail < size;
  ring_count : 0 <= count <= size
}.

Lemma ring_length buf tail count : 0 <= count -> Z.of_nat (length (ring buf tail count)) = count.
Proof. intros. unfold ring. rewrite length_fmap, length_seq. lia. Qed.

Lemma ring_empty buf tail : ring buf tail 0 = [].
Proof. done. Qed.

(** Taking the oldest element out. *)
Lemma ring_pop buf tail count :
  ring_ok buf tail count -> 0 < count ->
  ring buf tail count = get buf tail :: ring buf ((tail + 1) mod size) (count - 1) /\
  ring_ok buf ((tail + 1) mod size) (count - 1).
Proof.
  intros [H1 H2 H3] Hc. split; [|split; [done|apply Z.mod_pos_bound; lia|lia]].
  unfold ring. replace (Z.to_nat count) with (S (Z.to_nat (count - 1))) by lia. cbn [seq fmap list_fmap]. f_equal.
  - f_equal. cbn. rewrite Z.add_0_r, Z.mod_small by lia. done.
  - rewrite <- fmap_S_seq, <- list_fmap_compose. apply list_fmap_ext. intros i x _. cbn. f_equal.
    rewrite Zplus_mod_idemp_l. f_equal. lia.
Qed.

(** Adding one after the newest. *)
Lemma ring_push buf tail count v :
  ring_ok buf tail count -> count < size ->
  ring (put buf ((tail + count) mod size) v) tail (count + 1) = ring buf tail count ++ [v] /\
  ring_ok (put buf ((tail + count) mod size) v) tail (count + 1).
Proof.
  intros [H1 H2 H3] Hc. pose proof (Z.mod_pos_bound (tail + count) size Hsize).
  split; [|split; [by rewrite length_put|done|lia]].
  unfold ring. replace (Z.to_nat (count + 1)) with (S (Z.to_nat count)) by lia. rewrite seq_S, fmap_app. cbn. f_equal.
  - apply list_fmap_ext. intros i x Hx. apply lookup_seq in Hx as [-> Hi]. rewrite Nat.add_0_l.
    pose proof (Z.mod_pos_bound (tail + Z.of_nat i) size Hsize). rewrite get_put by lia.
    destruct (Z.eqb_spec ((tail + Z.of_nat i) mod size) ((tail + count) mod size)) as [E|E]; [|done]. exfalso.
    pose proof (Z.div_mod (tail + count) size ltac:(lia)) as D1. pose proof (Z.div_mod (tail + Z.of_nat i) size ltac:(lia)) as D2.
    rewrite E in D2. set (a := (tail + count) / size) in *. set (b := (tail + Z.of_nat i) / size) in *.
    set (m := (tail + count) mod size) in *. clearbody a b m. clear H1 H0 E. assert (count - Z.of_nat i = size * (a - b)) by (rewrite Z.mul_sub_distr_l; lia). destruct (Z.le_gt_cases (a - b) 0); nia.
  - f_equal. rewrite Z2Nat.id by lia. rewrite get_put by lia. by rewrite Z.eqb_refl.
Qed.
End Ring.
