(* ===== verification/Pmm.v ===== *)
(** The physical memory manager, [src/mm/pmm.c] and [src/mm/pmm.h]: a bitmap
    with one bit per 4 KiB frame (set: in use), three counters and a hint where
    the next search starts.

    The statics of the file are the fields of [pmm]; the memory [bitmap] points
    to is [bits]. Every public function runs under [pmm_lock], so it is one
    step of the state; [kprintf] is not part of the state, and what
    [pmm_free_frames] reports is returned beside it. The poisoning of freed
    frames under [KERNEL_TESTS] is left out (the shipped kernel is built
    without it). *)
From stdpp Require Import base tactics numbers list gmap sets.
From Stdlib Require Import ZArith Lia.
From S2P Require Import Prelude.

Open Scope Z_scope.

Definition PAGE_SIZE : Z := 4096.

Definition page_align_up (value : Z) : Z :=
  Z.land (u64 (value + PAGE_SIZE - 1)) (u64 (Z.lnot (PAGE_SIZE - 1))).

Definition LIMINE_MEMMAP_USABLE : Z := 0.
Definition LIMINE_MEMMAP_BOOTLOADER_RECLAIMABLE : Z := 5.

Record limine_memmap_entry := mkEntry { entry_base : Z; entry_length : Z; entry_type : Z }.

Record pmm := mkPmm {
  bitmap : Z;               (* the pointer; 0 is NULL *)
  bits : list Z;            (* the bytes it points to *)
  total_frames : Z;
  free_frames : Z;
  used_frames : Z;
  hhdm_off : Z;
  next_free_hint : Z;
  failed_allocations : Z
}.

(** The statics before [pmm_init]. *)
Definition pmm_static : pmm := mkPmm 0 [] 0 0 0 0 1 0.

Definition with_bits (s : pmm) (b : list Z) : pmm :=
  mkPmm (bitmap s) b (total_frames s) (free_frames s) (used_frames s) (hhdm_off s)
        (next_free_hint s) (failed_allocations s).
Definition with_counts (s : pmm) (used free : Z) : pmm :=
  mkPmm (bitmap s) (bits s) (total_frames s) free used (hhdm_off s)
        (next_free_hint s) (failed_allocations s).
Definition with_hint (s : pmm) (h : Z) : pmm :=
  mkPmm (bitmap s) (bits s) (total_frames s) (free_frames s) (used_frames s) (hhdm_off s)
        h (failed_allocations s).
Definition with_failed (s : pmm) (n : Z) : pmm :=
  mkPmm (bitmap s) (bits s) (total_frames s) (free_frames s) (used_frames s) (hhdm_off s)
        (next_free_hint s) n.

(** [bitmap[bit / 8] |= (1 << (bit % 8))] *)
Definition bitmap_set (s : pmm) (bit : Z) : pmm :=
  with_bits s (put (bits s) (bit / 8)
    (u8 (Z.lor (get (bits s) (bit / 8)) (Z.shiftl 1 (bit mod 8))))).

(** [bitmap[bit / 8] &= ~(1 << (bit % 8))] *)
Definition bitmap_clear (s : pmm) (bit : Z) : pmm :=
  with_bits s (put (bits s) (bit / 8)
    (u8 (Z.land (get (bits s) (bit / 8)) (Z.lnot (Z.shiftl 1 (bit mod 8)))))).

Definition bitmap_test (s : pmm) (bit : Z) : bool :=
  negb (Z.land (get (bits s) (bit / 8)) (Z.shiftl 1 (bit mod 8)) =? 0).

Definition entry_is_ram (e : limine_memmap_entry) : bool :=
  (entry_type e =? LIMINE_MEMMAP_USABLE) || (entry_type e =? LIMINE_MEMMAP_BOOTLOADER_RECLAIMABLE).

(** First loop of [pmm_init]: the highest RAM address. *)
Fixpoint highest_ram (entries : list limine_memmap_entry) (highest_addr : Z) : Z :=
  match entries with
  | [] => highest_addr
  | e :: rest =>
      if negb (entry_is_ram e) then highest_ram rest highest_addr
      else let top := u64 (entry_base e + entry_length e) in
           highest_ram rest (if highest_addr <? top then top else highest_addr)
  end.

(** Second loop: the first usable entry that can hold the bitmap. *)
Fixpoint find_bitmap_place (entries : list limine_memmap_entry) (bitmap_size hhdm : Z) : Z :=
  match entries with
  | [] => 0
  | e :: rest =>
      if (entry_type e =? LIMINE_MEMMAP_USABLE) && (bitmap_size <=? entry_length e)
      then u64 (entry_base e + hhdm)
      else find_bitmap_place rest bitmap_size hhdm
  end.

(** One usable entry: frames [start_frame + f], [f] counting up from [f]. *)
Fixpoint free_entry_frames (n : nat) (frame : Z) (s : pmm) : pmm :=
  match n with
  | O => s
  | S n' =>
      let s' :=
        if (frame <? total_frames s) && bitmap_test s frame
        then let s1 := bitmap_clear s frame in
             with_counts s1 (u64 (used_frames s1 - 1)) (u64 (free_frames s1 + 1))
        else s in
      free_entry_frames n' (u64 (frame + 1)) s'
  end.

(** Third loop: mark the usable entries free. *)
Fixpoint free_usable (entries : list limine_memmap_entry) (s : pmm) : pmm :=
  match entries with
  | [] => s
  | e :: rest =>
      free_usable rest
        (if entry_type e =? LIMINE_MEMMAP_USABLE
         then free_entry_frames (Z.to_nat (entry_length e / PAGE_SIZE)) (entry_base e / PAGE_SIZE) s
         else s)
  end.

(** Mark a frame used if it is in range and free (the bitmap's own frames). *)
Fixpoint use_frames (n : nat) (frame : Z) (s : pmm) : pmm :=
  match n with
  | O => s
  | S n' =>
      let s' :=
        if (frame <? total_frames s) && negb (bitmap_test s frame)
        then let s1 := bitmap_set s frame in
             with_counts s1 (u64 (used_frames s1 + 1)) (u64 (free_frames s1 - 1))
        else s in
      use_frames n' (u64 (frame + 1)) s'
  end.

Definition pmm_init (entries : list limine_memmap_entry) (hhdm_offset : Z) (s : pmm) : pmm :=
  let highest_addr := highest_ram entries 0 in
  let total := highest_addr / PAGE_SIZE in
  let bitmap_size := (total + 7) / 8 in
  let place := find_bitmap_place entries bitmap_size hhdm_offset in
  let place := if place =? 0 then bitmap s else place in
  if place =? 0 then
    mkPmm place (bits s) total (free_frames s) (used_frames s) hhdm_offset
          (next_free_hint s) (failed_allocations s)
  else
    let s1 := mkPmm place (replicate (Z.to_nat bitmap_size) 0xFF) total 0 total hhdm_offset
                    (next_free_hint s) (failed_allocations s) in
    let s2 := free_usable entries s1 in
    let bitmap_phys := u64 (place - hhdm_offset) in
    let s3 := use_frames (Z.to_nat ((bitmap_size + PAGE_SIZE - 1) / PAGE_SIZE))
                         (bitmap_phys / PAGE_SIZE) s2 in
    let s4 := if (0 <? total) && negb (bitmap_test s3 0)
              then let s' := bitmap_set s3 0 in
                   with_counts s' (u64 (used_frames s' + 1)) (u64 (free_frames s' - 1))
              else s3 in
    with_hint s4 1.

(** The loop of [find_free_run]: [n] iterations left, at frame [i]. *)
Fixpoint find_free_run_loop (s : pmm) (n : nat) (i consecutive start_frame count : Z) : Z :=
  match n with
  | O => 0
  | S n' =>
      if negb (bitmap_test s i) then
        let start_frame := if consecutive =? 0 then i else start_frame in
        let consecutive := consecutive + 1 in
        if consecutive =? count then start_frame
        else find_free_run_loop s n' (i + 1) consecutive start_frame count
      else find_free_run_loop s n' (i + 1) 0 start_frame count
  end.

Definition find_free_run (s : pmm) (from to count : Z) : Z :=
  find_free_run_loop s (Z.to_nat (to - from)) from 0 0 count.

(** [for (f = 0; f < count; f++) bitmap_set(start_frame + f)] *)
Fixpoint bitmap_set_run (n : nat) (frame : Z) (s : pmm) : pmm :=
  match n with
  | O => s
  | S n' => bitmap_set_run n' (frame + 1) (bitmap_set s frame)
  end.

(** The address (0: NULL) and the new state. *)
Definition pmm_alloc_frames (count : Z) (s : pmm) : Z * pmm :=
  if (count =? 0) || (bitmap s =? 0) then (0, s) else
  let start_frame := find_free_run s (next_free_hint s) (total_frames s) count in
  let start_frame := if start_frame =? 0 then find_free_run s 1 (total_frames s) count
                     else start_frame in
  if start_frame =? 0 then (0, with_failed s (u64 (failed_allocations s + 1)))
  else
    let s1 := bitmap_set_run (Z.to_nat count) start_frame s in
    let s2 := with_counts s1 (u64 (used_frames s1 + count)) (u64 (free_frames s1 - count)) in
    (u64 (start_frame * PAGE_SIZE), with_hint s2 (u64 (start_frame + count))).

Definition pmm_alloc_frame (s : pmm) : Z * pmm := pmm_alloc_frames 1 s.

(** The loop of [pmm_free_frames]; the second component is [bad_frame]. *)
Fixpoint pmm_free_loop (n : nat) (frame : Z) (s : pmm) (bad_frame : Z) : pmm * Z :=
  match n with
  | O => (s, bad_frame)
  | S n' =>
      if (frame =? 0) || (total_frames s <=? frame) || negb (bitmap_test s frame)
      then pmm_free_loop n' (u64 (frame + 1)) s
             (if bad_frame =? 0 then (if frame =? 0 then u64 (-1) else frame) else bad_frame)
      else
        let s1 := bitmap_clear s frame in
        let s2 := with_counts s1 (u64 (used_frames s1 - 1)) (u64 (free_frames s1 + 1)) in
        let s3 := if frame <? next_free_hint s2 then with_hint s2 frame else s2 in
        pmm_free_loop n' (u64 (frame + 1)) s3 bad_frame
  end.

(** The new state and the frame the warning names, if one is printed. *)
Definition pmm_free_frames (phys_addr count : Z) (s : pmm) : pmm * option Z :=
  if (phys_addr =? 0) || (count =? 0) || (bitmap s =? 0) then (s, None) else
  let '(s', bad_frame) := pmm_free_loop (Z.to_nat count) (phys_addr / PAGE_SIZE) s 0 in
  (s', if bad_frame =? 0 then None
       else Some (if bad_frame =? u64 (-1) then 0 else bad_frame)).

Definition pmm_free_frame (phys_addr : Z) (s : pmm) : pmm := fst (pmm_free_frames phys_addr 1 s).

Example pmm_small_machine :
  let s0 := pmm_init [mkEntry 0 0x9000 0; mkEntry 0x9000 0x1000 1; mkEntry 0xA000 0x6000 0]
                     0xFFFF800000000000 pmm_static in
  let '(a, s1) := pmm_alloc_frames 3 s0 in
  let '(b, s2) := pmm_alloc_frames 7 s1 in
  let '(c, s3) := pmm_alloc_frames 6 s2 in
  (free_frames s0, used_frames s0, a, b, c, snd (pmm_free_frames a 3 s3),
   snd (pmm_free_frames a 4 s3), free_frames s3)
  = (14, 2, 0x1000, 0, 0xA000, None, Some 4, 5).
Proof. vm_compute. reflexivity. Qed.

(** * The bitmap as a set of frames *)

Lemma page_align_up_eq v :
  0 <= v < 0xFFFFFFFFFFFFF000 -> page_align_up v = (v + 4095) / 4096 * 4096.
Proof.
  intros Hv. unfold page_align_up, PAGE_SIZE. rewrite u64_small by lia.
  rewrite (land_align _ 12) by lia. change (2 ^ 12) with 4096. zlia.
Qed.

Lemma byte_bit (v k : Z) : 0 <= k -> negb (Z.land v (Z.shiftl 1 k) =? 0) = Z.testbit v k.
Proof.
  intros Hk. rewrite Z.shiftl_1_l.
  destruct (Z.testbit v k) eqn:E.
  - apply negb_true_iff, Z.eqb_neq. intros H0.
    assert (Z.testbit (Z.land v (2 ^ k)) k = true) as H1.
    { rewrite Z.land_spec, E, Z.pow2_bits_true by done. done. }
    rewrite H0, Z.bits_0 in H1. done.
  - apply negb_false_iff, Z.eqb_eq, Z.bits_inj'. intros i Hi.
    rewrite Z.land_spec, Z.bits_0, Z.pow2_bits_eqb by done.
    destruct (Z.eqb_spec k i) as [->|]; [by rewrite E|apply andb_false_r].
Qed.

Lemma u8_testbit v k : 0 <= k < 8 -> Z.testbit (u8 v) k = Z.testbit v k.
Proof. intros. unfold u8. change 0x100 with (2 ^ 8). apply Z.mod_pow2_bits_low. lia. Qed.

Lemma bitmap_test_bit s f : bitmap_test s f = Z.testbit (get (bits s) (f / 8)) (f mod 8).
Proof. apply byte_bit. apply Z.mod_pos_bound. lia. Qed.

(** The bytes that hold bits [0 .. total_frames - 1]. *)
Definition covers (s : pmm) (f : Z) : Prop := 0 <= f /\ f / 8 < Z.of_nat (length (bits s)).

Lemma div_mod_8_inj f g : f / 8 = g / 8 -> f mod 8 = g mod 8 -> f = g.
Proof. intros. zlia. Qed.

Lemma bitmap_test_set s f g :
  covers s f -> 0 <= g -> bitmap_test (bitmap_set s f) g = (g =? f) || bitmap_test s g.
Proof.
  intros [Hf Hl] Hg. rewrite !bitmap_test_bit. simpl.
  rewrite get_put by zlia.
  assert (0 <= g mod 8 < 8) by zlia. assert (0 <= f mod 8 < 8) by zlia.
  destruct (Z.eqb_spec (g / 8) (f / 8)) as [He|Hne].
  - rewrite u8_testbit, Z.lor_spec, Z.shiftl_1_l, Z.pow2_bits_eqb by lia. rewrite <- He.
    destruct (Z.eqb_spec (f mod 8) (g mod 8)) as [Hm|Hm].
    + rewrite (div_mod_8_inj g f) by congruence. rewrite Z.eqb_refl. by rewrite orb_true_r.
    + destruct (Z.eqb_spec g f) as [->|]; [done|]. by rewrite orb_false_r.
  - destruct (Z.eqb_spec g f) as [->|]; done.
Qed.

Lemma bitmap_test_clear s f g :
  covers s f -> 0 <= g -> bitmap_test (bitmap_clear s f) g = negb (g =? f) && bitmap_test s g.
Proof.
  intros [Hf Hl] Hg. rewrite !bitmap_test_bit. simpl.
  rewrite get_put by zlia.
  assert (0 <= g mod 8 < 8) by zlia. assert (0 <= f mod 8 < 8) by zlia.
  destruct (Z.eqb_spec (g / 8) (f / 8)) as [He|Hne].
  - rewrite u8_testbit, Z.land_spec, Z.lnot_spec, Z.shiftl_1_l, Z.pow2_bits_eqb by lia. rewrite <- He.
    destruct (Z.eqb_spec (f mod 8) (g mod 8)) as [Hm|Hm].
    + rewrite (div_mod_8_inj g f) by congruence. rewrite Z.eqb_refl. by rewrite andb_false_r.
    + destruct (Z.eqb_spec g f) as [->|]; [done|]. by rewrite andb_true_r.
  - destruct (Z.eqb_spec g f) as [->|]; done.
Qed.

(** Frames whose bit is clear. *)
Definition free_count (s : pmm) : Z :=
  count_below (fun f => negb (bitmap_test s f)) (Z.to_nat (total_frames s)).

(** The bitmap has the size of the machine and the two counters agree with it. *)
Record counted (s : pmm) : Prop := {
  ct_total : 0 <= total_frames s < 0x10000000000000;
  ct_bits : Z.of_nat (length (bits s)) = (total_frames s + 7) / 8;
  ct_free : free_frames s = free_count s;
  ct_used : used_frames s = total_frames s - free_count s
}.

(** The invariant between calls: besides, frame 0 is in use (so that address 0
    can mean "no frame") and no search starts at it. *)
Record pmm_wf (s : pmm) : Prop := {
  wf_counted : counted s;
  wf_zero : 0 < total_frames s -> bitmap_test s 0 = true;
  wf_hint : 1 <= next_free_hint s
}.

Lemma free_count_range s : counted s -> 0 <= free_count s <= total_frames s.
Proof.
  intros H. pose proof (ct_total s H).
  pose proof (count_below_range (fun f => negb (bitmap_test s f)) (Z.to_nat (total_frames s))).
  unfold free_count. lia.
Qed.

Lemma counted_covers s f : counted s -> 0 <= f < total_frames s -> covers s f.
Proof. intros H Hf. split; [lia|]. rewrite (ct_bits s H). zlia. Qed.

Lemma free_count_change s s' f (b : bool) :
  total_frames s' = total_frames s -> 0 <= f < total_frames s ->
  bitmap_test s f = negb b -> bitmap_test s' f = b ->
  (forall g, 0 <= g < total_frames s -> g <> f -> bitmap_test s' g = bitmap_test s g) ->
  free_count s' = free_count s + (if b then -1 else 1).
Proof.
  intros Ht Hf Hb Hb' Hext. unfold free_count. rewrite Ht. destruct b; simpl in *.
  - rewrite (count_below_flip (fun f => negb (bitmap_test s' f)) (fun f => negb (bitmap_test s f)) _ f);
      try lia; try (by rewrite ?Hb, ?Hb').
    intros i Hi Hne. rewrite Hext by lia. done.
  - rewrite (count_below_flip (fun f => negb (bitmap_test s f)) (fun f => negb (bitmap_test s' f)) _ f);
      try lia; try (by rewrite ?Hb, ?Hb').
    intros i Hi Hne. rewrite Hext by lia. done.
Qed.

(** One frame taken, with its counters. *)
Lemma take_one s f :
  counted s -> 0 <= f < total_frames s -> bitmap_test s f = false ->
  let s1 := bitmap_set s f in
  let s' := with_counts s1 (u64 (used_frames s1 + 1)) (u64 (free_frames s1 - 1)) in
  counted s' /\ (forall g, 0 <= g -> bitmap_test s' g = (g =? f) || bitmap_test s g).
Proof.
  intros Hc Hf Ht s1 s'.
  assert (forall g, 0 <= g -> bitmap_test s' g = (g =? f) || bitmap_test s g) as Hg.
  { intros g Hg. apply bitmap_test_set; [by apply counted_covers|done]. }
  split; [|done].
  assert (free_count s' = free_count s - 1) as Hfc.
  { rewrite (free_count_change s s' f true); [lia|done|done|by rewrite Ht| |].
    - rewrite Hg, Z.eqb_refl by lia. done.
    - intros g Hg' Hne. rewrite Hg by lia. destruct (Z.eqb_spec g f); done. }
  pose proof (free_count_range s Hc). destruct Hc as [H1 H2 H3 H4].
  assert (1 <= free_count s).
  { unfold free_count. apply (count_below_pos _ _ f); [lia|by rewrite Ht]. }
  split; rewrite ?Hfc; simpl; rewrite ?length_put, ?H3, ?H4; try done; rewrite u64_small by lia; lia.
Qed.

(** One frame given back, with its counters. *)
Lemma give_one s f :
  counted s -> 0 <= f < total_frames s -> bitmap_test s f = true ->
  let s1 := bitmap_clear s f in
  let s' := with_counts s1 (u64 (used_frames s1 - 1)) (u64 (free_frames s1 + 1)) in
  counted s' /\ (forall g, 0 <= g -> bitmap_test s' g = negb (g =? f) && bitmap_test s g).
Proof.
  intros Hc Hf Ht s1 s'.
  assert (forall g, 0 <= g -> bitmap_test s' g = negb (g =? f) && bitmap_test s g) as Hg.
  { intros g Hg. apply bitmap_test_clear; [by apply counted_covers|done]. }
  split; [|done].
  assert (free_count s' = free_count s + 1) as Hfc.
  { rewrite (free_count_change s s' f false); [lia|done|done|by rewrite Ht| |].
    - rewrite Hg, Z.eqb_refl by lia. done.
    - intros g Hg' Hne. rewrite Hg by lia. destruct (Z.eqb_spec g f); done. }
  pose proof (free_count_range s Hc). destruct Hc as [H1 H2 H3 H4].
  assert (free_count s' <= total_frames s).
  { pose proof (count_below_range (fun f => negb (bitmap_test s' f)) (Z.to_nat (total_frames s'))) as Hr.
    unfold free_count. simpl total_frames in *. lia. }
  split; rewrite ?Hfc; simpl; rewrite ?length_put, ?H3, ?H4; try done; rewrite u64_small by lia; lia.
Qed.

(** * Searching *)

(** [count] frames from [a] on are all free. *)
Definition free_run (s : pmm) (a count : Z) : Prop :=
  forall g, a <= g < a + count -> bitmap_test s g = false.

(** The loop finds the first run that starts no earlier than the run it is in
    the middle of, or there is none. *)
Lemma find_free_run_loop_spec s count n : forall i consecutive start,
  1 <= count -> 0 <= consecutive < count -> 1 <= i - consecutive ->
  (0 < consecutive -> start = i - consecutive) ->
  (forall g, i - consecutive <= g < i -> bitmap_test s g = false) ->
  let r := find_free_run_loop s n i consecutive start count in
  let lo := i - consecutive in
  let hi := i + Z.of_nat n in
  (r = 0 /\ forall a, lo <= a -> a + count <= hi -> ~ free_run s a count) \/
  (lo <= r /\ r + count <= hi /\ free_run s r count /\
   forall a, lo <= a < r -> ~ free_run s a count).
Proof.
  induction n as [|n IH]; intros i consecutive start Hc Hk Hi Hs Hfree; cbn zeta.
  - left. split; [done|]. intros a H1 H2. simpl in H2. lia.
  - cbn [find_free_run_loop]. destruct (bitmap_test s i) eqn:E; cbn [negb].
    + (* in use: the run is broken *)
      assert (forall a, i - consecutive <= a < i + 1 -> ~ free_run s a count) as Hno.
      { intros a Ha Hr. rewrite (Hr i) in E; [done|lia]. }
      destruct (IH (i + 1) 0 start) as [[H1 H2]|(H1&H2&H3&H4)]; try lia.
      * left. split; [done|]. intros a Ha1 Ha2.
        destruct (decide (a < i + 1)); [apply Hno; lia|apply H2; lia].
      * right. split_and!; try lia; [done|]. intros a Ha.
        destruct (decide (a < i + 1)); [apply Hno; lia|apply H4; lia].
    + set (start' := if consecutive =? 0 then i else start).
      assert (start' = i - consecutive) as Hst.
      { unfold start'. zcase; [lia|]. apply Hs. lia. }
      assert (forall g, i - consecutive <= g < i + 1 -> bitmap_test s g = false) as Hfree'.
      { intros g Hg. destruct (decide (g = i)) as [->|]; [done|]. apply Hfree. lia. }
      zcase.
      * right. rewrite Hst. split_and!; try lia.
        intros g Hg. apply Hfree'. lia.
      * destruct (IH (i + 1) (consecutive + 1) start') as [[H1 H2]|(H1&H2&H3&H4)]; try lia.
        -- intros g Hg. apply Hfree'. lia.
        -- left. split; [done|]. intros a ??. apply H2; lia.
        -- right. split_and!; try lia; [done|]. intros a ?. apply H4; lia.
Qed.

Lemma find_free_run_spec s from to count :
  1 <= from -> 1 <= count ->
  let r := find_free_run s from to count in
  (r = 0 /\ forall a, from <= a -> a + count <= to -> ~ free_run s a count) \/
  (from <= r /\ r + count <= to /\ free_run s r count /\
   forall a, from <= a < r -> ~ free_run s a count).
Proof.
  intros Hf Hc r. unfold r, find_free_run.
  destruct (find_free_run_loop_spec s count (Z.to_nat (to - from)) from 0 0)
    as [[H1 H2]|(H1&H2&H3&H4)]; try lia.
  - left. split; [done|]. intros a ??. apply H2; lia.
  - right. split_and!; try lia; [done|]. intros a ?. apply H4; lia.
Qed.

(** * Allocation *)

Lemma bitmap_set_run_spec n : forall f s,
  (0 <= f) -> (n = O \/ covers s (f + Z.of_nat n - 1)) ->
  let s' := bitmap_set_run n f s in
  length (bits s') = length (bits s) /\ s' = with_bits s (bits s') /\
  (forall g, 0 <= g -> bitmap_test s' g = ((f <=? g) && (g <? f + Z.of_nat n)) || bitmap_test s g).
Proof.
  induction n as [|n IH]; intros f s Hf Hcov; cbn zeta; cbn [bitmap_set_run].
  - split_and!; [done|by destruct s|]. intros g Hg.
    replace ((f <=? g) && (g <? f + Z.of_nat 0)) with false; [done|]. symmetry. apply andb_false_iff.
    destruct (decide (f <= g)); [right; apply Z.ltb_ge; lia|left; apply Z.leb_gt; lia].
  - destruct Hcov as [?|[Hc1 Hc2]]; [lia|].
    assert (covers s f) as Hcf by (split; [lia|zlia]).
    destruct (IH (f + 1) (bitmap_set s f)) as (H1&H2&H3); [lia| |].
    { destruct n; [by left|right]. split; [lia|]. simpl. rewrite length_put. zlia. }
    split_and!.
    + rewrite H1. simpl. by rewrite length_put.
    + rewrite H2. by destruct s.
    + intros g Hg. rewrite H3, bitmap_test_set by done.
      rewrite orb_assoc. f_equal.
      destruct (Z.eqb_spec g f), (Z.leb_spec f g), (Z.leb_spec (f+1) g),
        (Z.ltb_spec g (f + 1 + Z.of_nat n)), (Z.ltb_spec g (f + Z.of_nat (S n))); try done; lia.
Qed.

(** A run of free frames marked in use at once changes the count by its length. *)
Lemma free_count_run n : forall f s s',
  total_frames s' = total_frames s -> 0 <= f -> f + Z.of_nat n <= total_frames s ->
  free_run s f (Z.of_nat n) ->
  (forall g, 0 <= g -> bitmap_test s' g = ((f <=? g) && (g <? f + Z.of_nat n)) || bitmap_test s g) ->
  free_count s' = free_count s - Z.of_nat n.
Proof.
  intros f s s' Ht Hf Hle Hrun Hext.
  unfold free_count. rewrite Ht.
  assert (forall N (P Q : Z -> bool), f + Z.of_nat n <= Z.of_nat N ->
    (forall g, f <= g < f + Z.of_nat n -> P g = true /\ Q g = false) ->
    (forall g, 0 <= g < Z.of_nat N -> ~ (f <= g < f + Z.of_nat n) -> P g = Q g) ->
    count_below Q N = count_below P N - Z.of_nat n) as Hgen.
  { clear -Hf. induction n as [|n IH]; intros N P Q HN H1 H2.
    - rewrite (count_below_ext Q P); [lia|]. intros i Hi. symmetry. apply H2; lia.
    - set (R := fun g => if g =? f + Z.of_nat n then true else Q g).
      assert (count_below R N = count_below Q N + 1) as HR.
      { apply (count_below_flip Q R N (f + Z.of_nat n)); try lia.
        - apply H1; lia.
        - unfold R. by rewrite Z.eqb_refl.
        - intros i Hi Hne. unfold R. destruct (Z.eqb_spec i (f + Z.of_nat n)); done. }
      rewrite (IH N P R) in HR; [lia|lia| |].
      + intros g Hg. unfold R. destruct (Z.eqb_spec g (f + Z.of_nat n)); [lia|]. apply H1; lia.
      + intros g Hg Hn. unfold R. destruct (Z.eqb_spec g (f + Z.of_nat n)); [apply H1; lia|].
        apply H2; lia. }
  apply Hgen; [lia| |].
  - intros g Hg. rewrite Hrun by done. rewrite Hext by lia.
    rewrite (proj2 (Z.leb_le _ _)), (proj2 (Z.ltb_lt _ _)) by lia. done.
  - intros g Hg Hn. rewrite Hext by lia.
    destruct (Z.leb_spec f g), (Z.ltb_spec g (f + Z.of_nat n)); simpl; try done; lia.
Qed.

(** * The contract: a set of free frames *)

(** The frames [f .. f + count - 1]. *)
Definition frame_range (f count : Z) : gset Z := list_to_set (seqZ f count).

Lemma elem_of_frame_range g f count : g ∈ frame_range f count <-> f <= g < f + count.
Proof. unfold frame_range. rewrite elem_of_list_to_set, elem_of_seqZ. lia. Qed.

(** What a request for [count] frames may do to a set of free frames: take any
    run that is free, or fail when there is none. *)
Inductive alloc_spec (free : gset Z) (count : Z) : Z -> gset Z -> Prop :=
| alloc_takes f : 1 <= f -> frame_range f count ⊆ free ->
    alloc_spec free count (f * PAGE_SIZE) (free ∖ frame_range f count)
| alloc_fails : (forall f, ~ frame_range f count ⊆ free) -> alloc_spec free count 0 free.

(** The abstraction: the frames of the machine whose bit is clear. *)
Definition abs (s : pmm) : gset Z :=
  list_to_set (filter (fun f => bitmap_test s f = false) (seqZ 0 (total_frames s))).

Lemma elem_of_abs s f : f ∈ abs s <-> 0 <= f < total_frames s /\ bitmap_test s f = false.
Proof. unfold abs. rewrite elem_of_list_to_set, list_elem_of_filter, elem_of_seqZ. naive_solver lia. Qed.

Lemma frame_range_abs s f count :
  pmm_wf s -> 1 <= count ->
  frame_range f count ⊆ abs s <-> 1 <= f /\ f + count <= total_frames s /\ free_run s f count.
Proof.
  intros Hwf Hc. split.
  - intros Hsub.
    assert (forall g, f <= g < f + count -> 0 <= g < total_frames s /\ bitmap_test s g = false) as Hin.
    { intros g Hg. apply elem_of_abs, Hsub, elem_of_frame_range. done. }
    assert (f <> 0).
    { intros ->. pose proof (Hin 0 ltac:(lia)) as [? H0]. rewrite (wf_zero s Hwf) in H0; [done|lia]. }
    pose proof (Hin f ltac:(lia)). pose proof (Hin (f + count - 1) ltac:(lia)).
    split_and!; [lia|lia|]. intros g Hg. apply Hin. done.
  - intros (H1&H2&H3) g Hg. apply elem_of_frame_range in Hg. apply elem_of_abs.
    split; [lia|]. by apply H3.
Qed.

(** The state after a run has been taken. *)
Lemma take_run s f count :
  pmm_wf s -> 1 <= count -> 1 <= f -> f + count <= total_frames s -> free_run s f count ->
  let s1 := bitmap_set_run (Z.to_nat count) f s in
  let s2 := with_counts s1 (u64 (used_frames s1 + count)) (u64 (free_frames s1 - count)) in
  let s' := with_hint s2 (u64 (f + count)) in
  pmm_wf s' /\ abs s' = abs s ∖ frame_range f count.
Proof.
  intros Hwf Hc Hf Hle Hrun s1 s2 s'.
  destruct Hwf as [Hct Hz Hh]. pose proof (free_count_range s Hct).
  pose proof (ct_total s Hct) as Ht.
  destruct (bitmap_set_run_spec (Z.to_nat count) f s) as (Hl&Hs1&Hb); [lia| |].
  { right. apply counted_covers; [done|lia]. }
  fold s1 in Hl, Hs1, Hb. rewrite Z2Nat.id in Hb by lia.
  assert (total_frames s1 = total_frames s /\ used_frames s1 = used_frames s /\
          free_frames s1 = free_frames s) as (E1&E2&E3) by (by rewrite Hs1).
  assert (free_count s1 = free_count s - count) as Hfc.
  { rewrite (free_count_run (Z.to_nat count) f s s1); rewrite ?Z2Nat.id by lia; try done; lia. }
  assert (0 <= free_count s1).
  { pose proof (count_below_range (fun f => negb (bitmap_test s1 f)) (Z.to_nat (total_frames s1))).
    unfold free_count. lia. }
  split.
  - destruct Hct as [H1 H2 H3 H4]. split; [split|..].
    + simpl. by rewrite E1.
    + simpl. by rewrite E1, Hl.
    + change (free_count s') with (free_count s1). simpl. rewrite E3, Hfc, H3, u64_small; lia.
    + change (free_count s') with (free_count s1). simpl. rewrite E1, E2, Hfc, H4, u64_small; lia.
    + intros _. change (bitmap_test s' 0) with (bitmap_test s1 0).
      rewrite Hb, Hz, orb_true_r by lia. done.
    + simpl. rewrite u64_small; lia.
  - apply set_eq. intros g. rewrite elem_of_difference, !elem_of_abs, elem_of_frame_range.
    change (bitmap_test s' g) with (bitmap_test s1 g). simpl total_frames. rewrite E1.
    split.
    + intros [Hg Ht']. rewrite Hb in Ht' by lia. apply orb_false_iff in Ht' as [Ha Hb'].
      split; [done|]. apply andb_false_iff in Ha. zbool. destruct Ha; zbool; lia.
    + intros [[Hg Ht'] Hn]. split; [done|]. rewrite Hb, Ht', orb_false_r by lia.
      apply andb_false_iff. destruct (decide (f <= g)); [right; apply Z.ltb_ge|left; apply Z.leb_gt]; lia.
Qed.

(** The search from the hint and, failing that, from frame 1. *)
Lemma find_free_run_twice s count :
  pmm_wf s -> 1 <= count ->
  let r1 := find_free_run s (next_free_hint s) (total_frames s) count in
  let r := if r1 =? 0 then find_free_run s 1 (total_frames s) count else r1 in
  (r = 0 /\ forall f, ~ frame_range f count ⊆ abs s) \/
  (1 <= r /\ r + count <= total_frames s /\ free_run s r count).
Proof.
  intros Hwf Hc r1 r. unfold r. pose proof (wf_hint s Hwf).
  destruct (find_free_run_spec s (next_free_hint s) (total_frames s) count) as [[H1 _]|(H1&H2&H3&_)];
    [done|done| |].
  - fold r1 in H1. rewrite H1, Z.eqb_refl.
    destruct (find_free_run_spec s 1 (total_frames s) count) as [[H2 H3]|(H2&H3&H4&_)]; [lia|done| |].
    + left. split; [done|]. intros f Hs. apply frame_range_abs in Hs as (?&?&?); [|done..].
      by eapply H3.
    + right. done.
  - fold r1 in H1, H2, H3. right. destruct (Z.eqb_spec r1 0); [lia|]. split_and!; [lia|done|done].
Qed.

(** * Freeing *)

(** What [pmm_free_frames] refuses to free: frame 0, a frame past the end of
    memory, a frame that is not in use. *)
Definition bad_to_free (s : pmm) (g : Z) : Prop :=
  g = 0 \/ total_frames s <= g \/ bitmap_test s g = false.

#[export] Instance bad_to_free_dec s g : Decision (bad_to_free s g).
Proof. unfold bad_to_free. solve_decision. Defined.

Lemma bad_to_free_test s g :
  (g =? 0) || (total_frames s <=? g) || negb (bitmap_test s g) = bool_decide (bad_to_free s g).
Proof.
  apply eq_bool_prop_intro. rewrite bool_decide_spec. unfold bad_to_free.
  destruct (Z.eqb_spec g 0), (Z.leb_spec (total_frames s) g), (bitmap_test s g); simpl;
    split; intros; try tauto; try done; destruct_or!; done || lia.
Qed.

Lemma give_wf s f :
  pmm_wf s -> ~ bad_to_free s f -> 0 <= f ->
  let s1 := bitmap_clear s f in
  let s2 := with_counts s1 (u64 (used_frames s1 - 1)) (u64 (free_frames s1 + 1)) in
  let s3 := if f <? next_free_hint s2 then with_hint s2 f else s2 in
  pmm_wf s3 /\ total_frames s3 = total_frames s /\
  (forall g, 0 <= g -> bitmap_test s3 g = negb (g =? f) && bitmap_test s g).
Proof.
  intros Hwf Hb Hf s1 s2 s3. unfold bad_to_free in Hb.
  assert (f <> 0 /\ f < total_frames s /\ bitmap_test s f = true) as (Hn&Hlt&Ht).
  { destruct (bitmap_test s f); split_and!; try lia; tauto. }
  destruct Hwf as [Hct Hz Hh].
  destruct (give_one s f Hct ltac:(lia) Ht) as [Hc Hg]. fold s1 in Hc, Hg. fold s2 in Hc, Hg.
  assert (counted s3 /\ (forall g, bitmap_test s3 g = bitmap_test s2 g) /\ total_frames s3 = total_frames s
          /\ 1 <= next_free_hint s3) as (Hc3&Hb3&Ht3&Hh3).
  { unfold s3. zcase; [|done]. split_and!; [|done|done|simpl; lia].
    destruct Hc as [A B C D]. split; done. }
  split_and!; [split| |]; [done| |done|done|].
  - intros _. rewrite Hb3, Hg, Hz by lia. destruct (Z.eqb_spec 0 f); [lia|done].
  - intros g ?. rewrite Hb3. by apply Hg.
Qed.

Lemma abs_union s s' f n :
  total_frames s' = total_frames s -> 0 <= f ->
  (forall g, 0 <= g -> bitmap_test s' g = negb (bool_decide (f <= g < f + n /\ 1 <= g < total_frames s)) && bitmap_test s g) ->
  (0 < total_frames s -> bitmap_test s 0 = true) ->
  abs s' = abs s ∪ (frame_range f n ∩ frame_range 1 (total_frames s - 1)).
Proof.
  intros Ht Hf Hb Hz. apply set_eq. intros g.
  rewrite elem_of_union, elem_of_intersection, !elem_of_abs, !elem_of_frame_range, Ht.
  split.
  - intros [Hg H0]. rewrite Hb in H0 by lia. apply andb_false_iff in H0 as [H0|H0]; [|by left].
    apply negb_false_iff, bool_decide_eq_true in H0. right. lia.
  - intros [[Hg H0]|[H1 H2]]; (split; [lia|]).
    + rewrite Hb, H0, andb_false_r by lia. done.
    + rewrite Hb by lia. rewrite bool_decide_eq_true_2 by lia. done.
Qed.

Lemma pmm_free_loop_spec n : forall frame s bad,
  pmm_wf s -> 0 <= frame -> frame + Z.of_nat n < 0xFFFFFFFFFFFFFFFF ->
  let r := pmm_free_loop n frame s bad in
  let T := total_frames s in
  pmm_wf (fst r) /\ total_frames (fst r) = T /\
  (forall g, 0 <= g -> bitmap_test (fst r) g =
     negb (bool_decide (frame <= g < frame + Z.of_nat n /\ 1 <= g < T)) && bitmap_test s g) /\
  snd r = if bad =? 0
          then match head (filter (bad_to_free s) (seqZ frame (Z.of_nat n))) with
               | Some g => if g =? 0 then 0xFFFFFFFFFFFFFFFF else g
               | None => 0
               end
          else bad.
Proof.
  induction n as [|n IH]; intros frame s bad Hwf Hf Hle; cbn zeta.
  - simpl. split_and!; [done|done| |by zcase].
    intros g Hg. rewrite bool_decide_eq_false_2 by lia. done.
  - cbn [pmm_free_loop]. rewrite bad_to_free_test, u64_small by lia.
    rewrite Nat2Z.inj_succ, seqZ_cons by lia. rewrite Z.pred_succ, <- Z.add_1_r.
    case_bool_decide as Hbad.
    + (* skipped, remembered if it is the first *)
      destruct (IH (frame + 1) s
        (if bad =? 0 then if frame =? 0 then u64 (-1) else frame else bad)) as (A&B&C&D); [done|lia|lia|].
      split_and!; [done|done| |].
      * intros g Hg. rewrite C by done.
        destruct (decide (g = frame)) as [->|Hne].
        -- destruct Hbad as [->|[Hb|Hb]]; [..|by rewrite Hb, !andb_false_r];
           rewrite !bool_decide_eq_false_2 by lia; done.
        -- f_equal. f_equal. apply bool_decide_ext. lia.
      * rewrite D, filter_cons_True by done. simpl head. change (u64 (-1)) with 0xFFFFFFFFFFFFFFFF.
        destruct (Z.eqb_spec bad 0), (Z.eqb_spec frame 0); simpl; try done;
          destruct (Z.eqb_spec frame 0), (Z.eqb_spec bad 0); done.
    + destruct (give_wf s frame Hwf Hbad Hf) as (A&B&C). cbn zeta in A, B, C.
      set (s3 := if frame <? _ then _ else _) in *.
      destruct (IH (frame + 1) s3 bad A) as (A'&B'&C'&D'); [lia|lia|].
      rewrite B in *. split_and!; [done|done| |].
      * intros g Hg. rewrite C', C by done. destruct (Z.eqb_spec g frame) as [->|Hne].
        -- rewrite andb_false_r. unfold bad_to_free in Hbad.
           rewrite bool_decide_eq_true_2 by lia. done.
        -- simpl. f_equal. f_equal. apply bool_decide_ext. lia.
      * rewrite D', filter_cons_False by done. zcase; [|done].
        replace (filter (bad_to_free s3) (seqZ (frame + 1) (Z.of_nat n)))
          with (filter (bad_to_free s) (seqZ (frame + 1) (Z.of_nat n))); [done|].
        apply filter_ext_in. intros g Hg%elem_of_seqZ.
        unfold bad_to_free. rewrite B, C by lia. destruct (Z.eqb_spec g frame); [lia|done].
Qed.

(** * Start-up *)

(** Frame [g] lies in the whole pages of a usable entry. *)
Definition usable_frame (entries : list limine_memmap_entry) (g : Z) : bool :=
  existsb (fun e => (entry_type e =? LIMINE_MEMMAP_USABLE) &&
    (entry_base e / PAGE_SIZE <=? g) && (g <? entry_base e / PAGE_SIZE + entry_length e / PAGE_SIZE)) entries.

(** What Limine promises of an entry: addresses that do not wrap. *)
Definition entry_ok (e : limine_memmap_entry) : Prop :=
  0 <= entry_base e /\ 0 <= entry_length e /\ entry_base e + entry_length e < 0x10000000000000000.

Lemma free_entry_frames_spec n : forall frame s,
  counted s -> 0 <= frame -> frame + Z.of_nat n < 0x10000000000000000 ->
  let s' := free_entry_frames n frame s in
  counted s' /\ total_frames s' = total_frames s /\ bitmap s' = bitmap s /\
  (forall g, 0 <= g < total_frames s ->
     bitmap_test s' g = negb ((frame <=? g) && (g <? frame + Z.of_nat n)) && bitmap_test s g).
Proof.
  induction n as [|n IH]; intros frame s Hc Hf Hle; cbn zeta; cbn [free_entry_frames].
  - split_and!; try done. intros g Hg.
    destruct (Z.leb_spec frame g), (Z.ltb_spec g (frame + Z.of_nat 0)); try done; lia.
  - rewrite u64_small by lia. set (s1 := if (frame <? _) && _ then _ else _).
    assert (counted s1 /\ total_frames s1 = total_frames s /\ bitmap s1 = bitmap s /\
      (forall g, 0 <= g < total_frames s -> bitmap_test s1 g = negb (g =? frame) && bitmap_test s g))
      as (A&B&B'&C).
    { unfold s1. destruct ((frame <? _) && _) eqn:E; zbool.
      - destruct (give_one s frame Hc ltac:(lia)) as [A B]; [done|]. split_and!; try done.
        intros g Hg. apply B. lia.
      - split_and!; try done. intros g Hg. apply andb_false_iff in E.
        destruct (Z.eqb_spec g frame) as [->|]; [|done]. destruct E; zbool; [lia|done]. }
    destruct (IH (frame + 1) s1 A) as (A'&B''&C''&D); [lia|lia|].
    rewrite B in *. split_and!; try congruence; try done.
    intros g Hg. rewrite D, C, andb_assoc by lia. f_equal.
    destruct (Z.eqb_spec g frame), (Z.leb_spec (frame + 1) g), (Z.leb_spec frame g),
      (Z.ltb_spec g (frame + 1 + Z.of_nat n)), (Z.ltb_spec g (frame + Z.of_nat (S n))); try done; lia.
Qed.

Lemma free_usable_spec entries : forall s,
  counted s -> Forall entry_ok entries ->
  let s' := free_usable entries s in
  counted s' /\ total_frames s' = total_frames s /\ bitmap s' = bitmap s /\
  (forall g, 0 <= g < total_frames s ->
     bitmap_test s' g = negb (usable_frame entries g) && bitmap_test s g).
Proof.
  induction entries as [|e rest IH]; intros s Hc Hok; cbn zeta; cbn [free_usable usable_frame existsb].
  - split_and!; done.
  - inversion_clear Hok as [|?? He Hrest]. destruct He as (H1&H2&H3).
    set (s1 := if entry_type e =? _ then _ else _).
    assert (counted s1 /\ total_frames s1 = total_frames s /\ bitmap s1 = bitmap s /\
      (forall g, 0 <= g < total_frames s -> bitmap_test s1 g =
        negb ((entry_type e =? LIMINE_MEMMAP_USABLE) && (entry_base e / PAGE_SIZE <=? g) &&
              (g <? entry_base e / PAGE_SIZE + entry_length e / PAGE_SIZE)) && bitmap_test s g))
      as (A&B&C&D).
    { unfold s1. destruct (entry_type e =? LIMINE_MEMMAP_USABLE); [|by split_and!].
      destruct (free_entry_frames_spec (Z.to_nat (entry_length e / PAGE_SIZE))
        (entry_base e / PAGE_SIZE) s Hc) as (A&B&C&D); unfold PAGE_SIZE in *; try zlia.
      split_and!; try done. intros g Hg. rewrite D by done. rewrite Z2Nat.id by zlia. done. }
    destruct (IH s1 A Hrest) as (A'&B'&C'&D'). rewrite B in *.
    split_and!; try congruence; try done.
    intros g Hg. rewrite D', D by done. unfold usable_frame. rewrite negb_orb.
    rewrite andb_assoc. f_equal. apply andb_comm.
Qed.

Lemma use_frames_spec n : forall frame s,
  counted s -> 0 <= frame -> frame + Z.of_nat n < 0x10000000000000000 ->
  let s' := use_frames n frame s in
  counted s' /\ total_frames s' = total_frames s /\ bitmap s' = bitmap s /\
  (forall g, 0 <= g < total_frames s ->
     bitmap_test s' g = ((frame <=? g) && (g <? frame + Z.of_nat n)) || bitmap_test s g).
Proof.
  induction n as [|n IH]; intros frame s Hc Hf Hle; cbn zeta; cbn [use_frames].
  - split_and!; try done. intros g Hg.
    destruct (Z.leb_spec frame g), (Z.ltb_spec g (frame + Z.of_nat 0)); try done; lia.
  - rewrite u64_small by lia. set (s1 := if (frame <? _) && _ then _ else _).
    assert (counted s1 /\ total_frames s1 = total_frames s /\ bitmap s1 = bitmap s /\
      (forall g, 0 <= g < total_frames s -> bitmap_test s1 g = (g =? frame) || bitmap_test s g))
      as (A&B&B'&C).
    { unfold s1. destruct ((frame <? _) && _) eqn:E; zbool.
      - destruct (take_one s frame Hc ltac:(lia)) as [A B]; [done|]. split_and!; try done.
        intros g Hg. apply B. lia.
      - split_and!; try done. intros g Hg. apply andb_false_iff in E.
        destruct (Z.eqb_spec g frame) as [->|]; [|done]. destruct E as [E|E]; zbool; [lia|by rewrite E]. }
    destruct (IH (frame + 1) s1 A) as (A'&B''&C''&D); [lia|lia|].
    rewrite B in *. split_and!; try congruence; try done.
    intros g Hg. rewrite D, C, orb_assoc by lia. f_equal.
    destruct (Z.eqb_spec g frame), (Z.leb_spec (frame + 1) g), (Z.leb_spec frame g),
      (Z.ltb_spec g (frame + 1 + Z.of_nat n)), (Z.ltb_spec g (frame + Z.of_nat (S n))); try done; lia.
Qed.

Lemma highest_ram_range entries : forall h,
  0 <= h < 0x10000000000000000 -> 0 <= highest_ram entries h < 0x10000000000000000.
Proof.
  induction entries as [|e rest IH]; intros h Hh; [done|]. cbn [highest_ram].
  zcase; [by apply IH|]. apply IH. pose proof (u64_range (entry_base e + entry_length e)). zcase; lia.
Qed.

Lemma find_bitmap_place_spec entries size hhdm :
  find_bitmap_place entries size hhdm = 0 \/
  exists e, e ∈ entries /\ entry_type e = LIMINE_MEMMAP_USABLE /\ size <= entry_length e /\
    find_bitmap_place entries size hhdm = u64 (entry_base e + hhdm).
Proof.
  induction entries as [|e rest IH]; [by left|]. cbn [find_bitmap_place].
  destruct ((entry_type e =? _) && _) eqn:E; zbool.
  - right. exists e. split_and!; [set_solver|done|done|done].
  - destruct IH as [IH|(e'&?&?)]; [by left|]. right. exists e'. split; [set_solver|done].
Qed.

(** All bits set: no frame is free. *)
Lemma fresh_bitmap_test place total hhdm h n g :
  0 <= total -> 0 <= g < total ->
  bitmap_test (mkPmm place (replicate (Z.to_nat ((total + 7) / 8)) 0xFF) total 0 total hhdm h n) g = true.
Proof.
  intros Ht Hg. rewrite bitmap_test_bit. simpl. unfold get.
  rewrite nth_lookup, lookup_replicate_2 by zlia. simpl.
  assert (g mod 8 = 0 \/ g mod 8 = 1 \/ g mod 8 = 2 \/ g mod 8 = 3 \/ g mod 8 = 4 \/ g mod 8 = 5 \/
    g mod 8 = 6 \/ g mod 8 = 7) as Hm by zlia.
  destruct_or! Hm; rewrite Hm; reflexivity.
Qed.

Lemma fresh_bitmap_counted place total hhdm h n :
  0 <= total < 0x10000000000000 ->
  counted (mkPmm place (replicate (Z.to_nat ((total + 7) / 8)) 0xFF) total 0 total hhdm h n).
Proof.
  intros Ht. set (s := mkPmm _ _ _ _ _ _ _ _).
  assert (free_count s = 0) as Hf.
  { apply count_below_none. intros i Hi. simpl in Hi. unfold s.
    rewrite fresh_bitmap_test by lia. done. }
  split; rewrite ?Hf; simpl; rewrite ?length_replicate; try lia. rewrite Z2Nat.id; [done|zlia].
Qed.

(** Reserving frame 0. *)
Lemma reserve_zero s :
  counted s ->
  let s' := if (0 <? total_frames s) && negb (bitmap_test s 0)
            then let s1 := bitmap_set s 0 in
                 with_counts s1 (u64 (used_frames s1 + 1)) (u64 (free_frames s1 - 1))
            else s in
  counted s' /\ total_frames s' = total_frames s /\ bitmap s' = bitmap s /\
  (forall g, 0 <= g < total_frames s -> bitmap_test s' g = (g =? 0) || bitmap_test s g).
Proof.
  intros Hc s'. unfold s'. destruct ((0 <? _) && _) eqn:E; zbool.
  - destruct (take_one s 0 Hc ltac:(lia)) as [A B]; [done|]. split_and!; try done.
    intros g Hg. apply B. lia.
  - split_and!; try done. intros g Hg. apply andb_false_iff in E.
    destruct (Z.eqb_spec g 0) as [->|]; [|done]. destruct E as [E|E]; zbool; [lia|by rewrite E].
Qed.

(** Where [pmm_init] puts the bitmap, and how large it is. *)
Definition init_total (entries : list limine_memmap_entry) : Z := highest_ram entries 0 / PAGE_SIZE.
Definition init_bitmap_size (entries : list limine_memmap_entry) : Z := (init_total entries + 7) / 8.
Definition init_bitmap_phys (entries : list limine_memmap_entry) (hhdm : Z) : Z :=
  u64 (find_bitmap_place entries (init_bitmap_size entries) hhdm - hhdm).

(** Frame [g] holds part of the bitmap itself. *)
Definition bitmap_frame (entries : list limine_memmap_entry) (hhdm g : Z) : bool :=
  (init_bitmap_phys entries hhdm / PAGE_SIZE <=? g) &&
  (g <? init_bitmap_phys entries hhdm / PAGE_SIZE +
        (init_bitmap_size entries + PAGE_SIZE - 1) / PAGE_SIZE).

Lemma pmm_init_spec entries hhdm :
  Forall entry_ok entries ->
  find_bitmap_place entries (init_bitmap_size entries) hhdm <> 0 ->
  let s := pmm_init entries hhdm pmm_static in
  pmm_wf s /\ bitmap s <> 0 /\ total_frames s = init_total entries /\
  (forall g, g ∈ abs s <-> 1 <= g < init_total entries /\ usable_frame entries g = true /\
                          bitmap_frame entries hhdm g = false).
Proof.
  intros Hok Hplace s. unfold s, pmm_init. fold (init_total entries). fold (init_bitmap_size entries).
  set (place := find_bitmap_place entries (init_bitmap_size entries) hhdm) in *.
  destruct (Z.eqb_spec place 0) as [|_]; [done|]. destruct (Z.eqb_spec place 0) as [|_]; [done|].
  set (T := init_total entries).
  assert (0 <= T < 0x10000000000000) as HT.
  { pose proof (highest_ram_range entries 0 ltac:(lia)). unfold T, init_total, PAGE_SIZE. zlia. }
  unfold init_bitmap_size. fold T. cbn [next_free_hint failed_allocations pmm_static].
  pose proof (fresh_bitmap_counted place T hhdm 1 0 HT) as Hc0.
  pose proof (fun g => fresh_bitmap_test place T hhdm 1 0 g (proj1 HT)) as Hb0.
  set (s0 := mkPmm place _ T 0 T hhdm 1 0) in *.
  destruct (free_usable_spec entries s0 Hc0 Hok) as (Hc1&Ht1&Hp1&Hb1). cbn zeta in *.
  set (s1 := free_usable entries s0) in *.
  assert (0 <= init_bitmap_phys entries hhdm < 0x10000000000000000) as Hph by apply u64_range.
  assert (u64 (place - hhdm) = init_bitmap_phys entries hhdm) as -> by done.
  destruct (use_frames_spec (Z.to_nat (((T + 7) / 8 + PAGE_SIZE - 1) / PAGE_SIZE))
    (init_bitmap_phys entries hhdm / PAGE_SIZE) s1 Hc1) as (Hc2&Ht2&Hp2&Hb2); cbn zeta in *.
  { unfold PAGE_SIZE. zlia. } { unfold PAGE_SIZE in *. zlia. }
  set (s2 := use_frames _ _ s1) in *.
  destruct (reserve_zero s2 Hc2) as (Hc3&Ht3&Hp3&Hb3). cbn zeta in *.
  rewrite Ht2, Ht1 in Hc3, Ht3, Hp3, Hb3. change (total_frames s0) with T in *.
  set (s3 := if (0 <? T) && _ then _ else _) in *.
  split_and!.
  - split; [destruct Hc3; by split| |done].
    intros Hpos. change (bitmap_test (with_hint s3 1) 0) with (bitmap_test s3 0). apply Hb3. simpl in Hpos. lia.
  - simpl. rewrite Hp3, Hp2, Hp1. done.
  - done.
  - intros g. rewrite elem_of_abs. change (bitmap_test (with_hint s3 1) g) with (bitmap_test s3 g).
    simpl total_frames. rewrite Ht3.
    assert (0 <= g < T -> bitmap_test s3 g = (g =? 0) || (bitmap_frame entries hhdm g || negb (usable_frame entries g))) as Hbits.
    { intros Hg. rewrite Hb3, Hb2, Hb1, Hb0, andb_true_r by (rewrite ?Ht1; lia).
      f_equal. f_equal. unfold bitmap_frame, init_bitmap_size. fold T.
      rewrite Z2Nat.id by (unfold PAGE_SIZE; zlia). done. }
    split.
    + intros [Hg Hf]. rewrite Hbits in Hf by done. zbool. split_and!; [lia|lia|done|done].
    + intros (Hg&Hu&Hm). split; [lia|]. rewrite Hbits by lia. rewrite Hu, Hm.
      destruct (Z.eqb_spec g 0); [lia|done].
Qed.

(** * The operations meet the contract *)

Lemma pmm_alloc_frames_spec s count :
  pmm_wf s -> bitmap s <> 0 -> 1 <= count ->
  let '(addr, s') := pmm_alloc_frames count s in
  pmm_wf s' /\ bitmap s' = bitmap s /\ total_frames s' = total_frames s /\
  alloc_spec (abs s) count addr (abs s').
Proof.
  intros Hwf Hb Hc. unfold pmm_alloc_frames.
  destruct (Z.eqb_spec count 0); [lia|]. destruct (Z.eqb_spec (bitmap s) 0); [done|]. cbn [orb].
  pose proof (find_free_run_twice s count Hwf Hc) as Hr. cbn zeta in *.
  set (r := if find_free_run s _ _ count =? 0 then _ else _) in *.
  destruct Hr as [[-> Hno]|(H1&H2&H3)].
  - rewrite Z.eqb_refl. split_and!; try done; [|by apply alloc_fails].
    destruct Hwf as [[A B C D] E F]. split; [split|..]; done.
  - destruct (Z.eqb_spec r 0); [lia|].
    pose proof (take_run s r count Hwf Hc H1 H2 H3) as [A B]. cbn zeta in *.
    destruct (bitmap_set_run_spec (Z.to_nat count) r s) as (_&Hs1&_); [lia| |].
    { right. apply counted_covers; [apply Hwf|lia]. }
    split_and!; [done|by rewrite Hs1..|].
    pose proof (ct_total s (wf_counted s Hwf)).
    rewrite B, u64_small by (unfold PAGE_SIZE; lia).
    apply alloc_takes; [done|]. by apply frame_range_abs.
Qed.

Lemma pmm_free_loop_bitmap n : forall frame s bad,
  bitmap (fst (pmm_free_loop n frame s bad)) = bitmap s.
Proof.
  induction n as [|n IH]; intros; [done|]. cbn [pmm_free_loop].
  destruct (_ || _ || _); rewrite IH; [done|]. zcase; done.
Qed.

Lemma pmm_free_frames_spec s addr count :
  pmm_wf s -> bitmap s <> 0 -> 0 < addr -> 1 <= count ->
  addr / PAGE_SIZE + count < 0xFFFFFFFFFFFFFFFF ->
  let f := addr / PAGE_SIZE in
  let '(s', warning) := pmm_free_frames addr count s in
  pmm_wf s' /\ bitmap s' = bitmap s /\ total_frames s' = total_frames s /\
  abs s' = abs s ∪ (frame_range f count ∩ frame_range 1 (total_frames s - 1)) /\
  warning = head (filter (bad_to_free s) (seqZ f count)).
Proof.
  intros Hwf Hb Ha Hc Hle f. unfold pmm_free_frames.
  destruct (Z.eqb_spec addr 0); [lia|]. destruct (Z.eqb_spec count 0); [lia|].
  destruct (Z.eqb_spec (bitmap s) 0); [done|]. cbn [orb]. fold f.
  assert (0 <= f) by (unfold f, PAGE_SIZE; zlia).
  pose proof (pmm_free_loop_spec (Z.to_nat count) f s 0 Hwf) as Hl.
  pose proof (pmm_free_loop_bitmap (Z.to_nat count) f s 0) as Hbm.
  rewrite Z2Nat.id in Hl by lia. destruct Hl as (A&B&C&D); [lia|done|].
  destruct (pmm_free_loop _ _ _ _) as [s' bad]. simpl fst in *. simpl snd in *.
  split_and!; [done|done|done| |].
  - apply abs_union; [done|done|done|apply Hwf].
  - change (u64 (-1)) with 0xFFFFFFFFFFFFFFFF. rewrite D. simpl (0 =? 0).
    destruct (head (filter (bad_to_free s) (seqZ f count))) as [g|] eqn:Hh; [|done]. cbn iota.
    assert (g ∈ seqZ f count) as Hg%elem_of_seqZ.
    { apply head_Some_elem_of in Hh. apply list_elem_of_filter in Hh. apply Hh. }
    destruct (Z.eqb_spec g 0) as [->|]; [done|].
    destruct (Z.eqb_spec g 0); [lia|]. destruct (Z.eqb_spec g 0xFFFFFFFFFFFFFFFF); [lia|done].
Qed.

(** * Clients *)

(** A client of the allocator: the manager's state and the runs (first frame,
    length) it has been given and not returned. It returns what it was given. *)
Inductive client_step : pmm * list (Z * Z) -> pmm * list (Z * Z) -> Prop :=
| client_alloc s held count addr s' :
    1 <= count -> pmm_alloc_frames count s = (addr, s') -> addr <> 0 ->
    client_step (s, held) (s', (addr / PAGE_SIZE, count) :: held)
| client_refused s held count s' :
    1 <= count -> pmm_alloc_frames count s = (0, s') ->
    client_step (s, held) (s', held)
| client_free s held1 f count held2 s' w :
    pmm_free_frames (f * PAGE_SIZE) count s = (s', w) ->
    client_step (s, held1 ++ (f, count) :: held2) (s', held1 ++ held2).

Definition runs_apart (r1 r2 : Z * Z) : Prop := frame_range (fst r1) (snd r1) ## frame_range (fst r2) (snd r2).

Record client_inv (c : pmm * list (Z * Z)) : Prop := {
  ci_wf : pmm_wf (fst c);
  ci_bitmap : bitmap (fst c) <> 0;
  ci_held : forall f count, (f, count) ∈ snd c ->
    1 <= f /\ 1 <= count /\ f + count <= total_frames (fst c) /\ frame_range f count ## abs (fst c);
  ci_apart : ForallOrdPairs runs_apart (snd c)
}.

Lemma client_step_inv c c' : client_step c c' -> client_inv c -> client_inv c'.
Proof.
  intros Hstep [Hwf Hb Hheld Hap]; inversion Hstep as
    [s held count addr s' Hc Ha Hn|s held count s' Hc Ha|s held1 f count held2 s' w Hf]; subst;
    simpl in *.
  - pose proof (pmm_alloc_frames_spec s count Hwf Hb Hc) as Hs. rewrite Ha in Hs.
    destruct Hs as (A&B&C&D).
    inversion D as [f H1 Hsub Haddr Habs|? Haddr]; subst; [|done].
    pose proof Hsub as Hsub'. apply frame_range_abs in Hsub' as (_&Hle&_); [|done..].
    replace (f * PAGE_SIZE / PAGE_SIZE) with f by (unfold PAGE_SIZE; zlia).
    split; simpl; [done|congruence| |].
    + intros g n Hg. apply elem_of_cons in Hg as [[= -> ->]|Hg].
      * split_and!; [done|done|congruence|]. rewrite <- Habs. set_solver.
      * destruct (Hheld g n Hg) as (?&?&?&?). split_and!; [done|done|congruence|]. rewrite <- Habs. set_solver.
    + constructor; [|done]. apply Forall_forall. intros [g n] Hg.
      destruct (Hheld g n Hg) as (?&?&?&?). unfold runs_apart. simpl. set_solver.
  - pose proof (pmm_alloc_frames_spec s count Hwf Hb Hc) as Hs. rewrite Ha in Hs.
    destruct Hs as (A&B&C&D).
    assert (abs s' = abs s) as Habs.
    { inversion D as [f H1 ? Haddr|]; subst; [|done]. unfold PAGE_SIZE in Haddr. lia. }
    split; simpl; [done|congruence| |done].
    intros g n Hg. rewrite C, Habs. by apply Hheld.
  - destruct (Hheld f count ltac:(set_solver)) as (Hf1&Hc1&Hle&Hdis).
    pose proof (ct_total s (wf_counted s Hwf)) as HT.
    assert (f * PAGE_SIZE / PAGE_SIZE = f) as Hdiv by (unfold PAGE_SIZE; zlia).
    pose proof (pmm_free_frames_spec s (f * PAGE_SIZE) count Hwf Hb) as Hs.
    rewrite Hf in Hs. cbn zeta in Hs. rewrite Hdiv in Hs.
    destruct Hs as (A&B&C&D&_); [unfold PAGE_SIZE; lia|done|lia|].
    apply ForallOrdPairs_remove in Hap as [Hap Hx]; [|unfold runs_apart; set_solver].
    split; simpl; [done|congruence| |done].
    intros g n Hg. destruct (Hheld g n ltac:(set_solver)) as (?&?&?&?).
    pose proof (Hx (g, n) Hg) as Hgn. unfold runs_apart in Hgn. simpl in Hgn.
    split_and!; [done|done|congruence|]. rewrite D. set_solver.
Qed.

Lemma client_steps_inv c c' : rtc client_step c c' -> client_inv c -> client_inv c'.
Proof. induction 1; [done|]. intros. eauto using client_step_inv. Qed.

(** * Properties *)

(** C10. [pmm_alloc_frames] meets its contract: it takes a run of [count] frames
    that were all free and returns its address, and it returns NULL only when
    no [count] consecutive frames of the machine are free (the search from the
    hint wraps round, so nothing below the hint is missed); the invariant
    (counters equal to the bitmap, frame 0 in use) is kept. *)
Theorem pmm_alloc_refines (s : pmm) (count : Z) :
  pmm_wf s -> bitmap s <> 0 -> 1 <= count ->
  let '(addr, s') := pmm_alloc_frames count s in
  pmm_wf s' /\ alloc_spec (abs s) count addr (abs s').
Proof.
  intros Hwf Hb Hc. pose proof (pmm_alloc_frames_spec s count Hwf Hb Hc) as H.
  destruct (pmm_alloc_frames count s) as [addr s']. tauto.
Qed.

(** C11. [pmm_free_frames] adds to the free frames exactly the frames of the range
    that exist and are not frame 0, keeps the counters right even when some of
    them were free already (a double free changes nothing), and warns about the
    first frame of the range it could not free, if there is one. *)
Theorem pmm_free_refines (s : pmm) (addr count : Z) :
  pmm_wf s -> bitmap s <> 0 -> 0 < addr -> 1 <= count ->
  addr / PAGE_SIZE + count < 0xFFFFFFFFFFFFFFFF ->
  let f := addr / PAGE_SIZE in
  let '(s', warning) := pmm_free_frames addr count s in
  pmm_wf s' /\
  abs s' = abs s ∪ (frame_range f count ∩ frame_range 1 (total_frames s - 1)) /\
  warning = head (filter (bad_to_free s) (seqZ f count)).
Proof.
  intros Hwf Hb Ha Hc Hle. pose proof (pmm_free_frames_spec s addr count Hwf Hb Ha Hc Hle) as H.
  cbn zeta in *. destruct (pmm_free_frames addr count s) as [s' w]. tauto.
Qed.

(** C21. After [pmm_init] the free frames are exactly the frames of the usable
    memory map entries, without frame 0 and without the frames the bitmap
    itself occupies, and the invariant holds. *)
Theorem pmm_init_refines (entries : list limine_memmap_entry) (hhdm : Z) :
  Forall entry_ok entries ->
  find_bitmap_place entries (init_bitmap_size entries) hhdm <> 0 ->
  let s := pmm_init entries hhdm pmm_static in
  pmm_wf s /\
  (forall g, g ∈ abs s <-> 1 <= g < init_total entries /\ usable_frame entries g = true /\
                          bitmap_frame entries hhdm g = false).
Proof. intros Hok Hp. pose proof (pmm_init_spec entries hhdm Hok Hp). cbn zeta in *. tauto. Qed.

(** Whatever sequence of allocations and frees follows [pmm_init], the runs
    that clients hold are pairwise disjoint: no frame is ever handed out
    twice. *)
Theorem pmm_never_hands_out_twice (entries : list limine_memmap_entry) (hhdm : Z) (s : pmm) (held : list (Z * Z)) :
  Forall entry_ok entries ->
  find_bitmap_place entries (init_bitmap_size entries) hhdm <> 0 ->
  rtc client_step (pmm_init entries hhdm pmm_static, []) (s, held) ->
  ForallOrdPairs runs_apart held /\
  (forall f count, (f, count) ∈ held -> frame_range f count ## abs s).
Proof.
  intros Hok Hp Hrun. apply client_steps_inv in Hrun as [A B C D].
  - split; [done|]. intros f count Hf. by apply C.
  - pose proof (pmm_init_spec entries hhdm Hok Hp) as (A&B&_).
    split; simpl; [done|done|set_solver|constructor].
Qed.

(** A machine of 16 frames, with a reserved hole. *)
Definition small_map : list limine_memmap_entry :=
  [mkEntry 0 0x9000 0; mkEntry 0x9000 0x1000 1; mkEntry 0xA000 0x6000 0].
Definition small_pmm : pmm := pmm_init small_map 0xFFFF800000000000 pmm_static.

Lemma small_map_ok : Forall entry_ok small_map.
Proof. repeat constructor; done. Qed.

Lemma small_pmm_wf : pmm_wf small_pmm.
Proof. split; [split|..]; vm_compute; intuition congruence. Qed.

Lemma small_pmm_ready : bitmap small_pmm <> 0.
Proof. vm_compute. discriminate. Qed.

Lemma pmm_alloc_refines_witness :
  let '(addr, s') := pmm_alloc_frames 3 small_pmm in pmm_wf s' /\ alloc_spec (abs small_pmm) 3 addr (abs s').
Proof. apply (pmm_alloc_refines small_pmm 3); [apply small_pmm_wf|apply small_pmm_ready|lia]. Defined.

Lemma pmm_free_refines_witness :
  let '(s', warning) := pmm_free_frames 0x9000 2 small_pmm in
  pmm_wf s' /\
  abs s' = abs small_pmm ∪ (frame_range 9 2 ∩ frame_range 1 (total_frames small_pmm - 1)) /\
  warning = head (filter (bad_to_free small_pmm) (seqZ 9 2)).
Proof. apply (pmm_free_refines small_pmm 0x9000 2); [apply small_pmm_wf|apply small_pmm_ready|lia|lia|reflexivity]. Defined.

Lemma pmm_init_refines_witness :
  pmm_wf small_pmm /\
  (forall g, g ∈ abs small_pmm <-> 1 <= g < init_total small_map /\ usable_frame small_map g = true /\
     bitmap_frame small_map 0xFFFF800000000000 g = false).
Proof. apply (pmm_init_refines small_map 0xFFFF800000000000); [apply small_map_ok|vm_compute; discriminate]. Defined.

Lemma pmm_never_hands_out_twice_witness :
  ForallOrdPairs runs_apart [(1, 3)] /\
  (forall f count, (f, count) ∈ [(1, 3)] ->
     frame_range f count ## abs (snd (pmm_alloc_frames 3 small_pmm))).
Proof.
  apply (pmm_never_hands_out_twice small_map 0xFFFF800000000000); [apply small_map_ok|vm_compute; discriminate|].
  eapply rtc_l; [|apply rtc_refl].
  apply (client_alloc _ _ 3 0x1000); [lia|vm_compute; reflexivity|lia].
Defined.
