(* ===== verification/Pages.v ===== *)
(** The interface between the kernel heap and the memory below it: the calls
    of [src/mm/heap.c] into the frame allocator ([src/mm/pmm.c]) and the kernel
    page tables ([src/mm/vmm.c]), and what the heap's proofs rely on.

    The heap is verified against [Pages] and [PagesLaws]; [Machine] gives the
    instance built from the models of those two files. *)
From Stdlib Require Import ZArith.
From S2P Require Import Prelude.

Open Scope Z_scope.

(** Operations on the state [P] of frames and kernel page tables. *)
Class Pages (P : Type) := {
  page_alloc : P -> Z * P;            (* pmm_alloc_frame(); 0 is NULL *)
  page_free : Z -> P -> P;            (* pmm_free_frame(phys) *)
  page_map : Z -> Z -> P -> bool * P; (* vmm_map_page(NULL, virt, phys, PRESENT | WRITABLE) *)
  page_phys : P -> Z -> Z;            (* vmm_get_phys(NULL, virt) *)
  page_unmap : Z -> P -> P;           (* vmm_unmap_page(NULL, virt) *)
  frame_word : P -> Z -> Z            (* the word at a physical address *)
}.

(** The laws: frames are a finite resource, and physical addresses have at most
    52 bits. *)
Class PagesLaws (P : Type) `{Pages P} := {
  pages_ok : P -> Prop;
  frames_left : P -> Z;
  frames_left_nonneg : forall p, pages_ok p -> 0 <= frames_left p;
  page_alloc_ok : forall p, pages_ok p -> pages_ok (snd (page_alloc p));
  page_alloc_left : forall p, pages_ok p ->
    frames_left (snd (page_alloc p)) = frames_left p - (if fst (page_alloc p) =? 0 then 0 else 1);
  page_alloc_fails : forall p, pages_ok p -> fst (page_alloc p) = 0 -> frames_left p = 0;
  page_alloc_range : forall p, pages_ok p -> 0 <= fst (page_alloc p) < 0x10000000000000;
  page_phys_range : forall p v, 0 <= page_phys p v < 0x10000000000000;
  page_free_ok : forall p a, pages_ok p -> 0 <= a < 0x10000000000000 -> pages_ok (page_free a p);
  page_free_left : forall p a, pages_ok p -> 0 <= a < 0x10000000000000 ->
    frames_left (page_free a p) <= frames_left p + 1;
  page_map_ok : forall p v a, pages_ok p -> pages_ok (snd (page_map v a p));
  page_map_left : forall p v a, pages_ok p -> frames_left (snd (page_map v a p)) <= frames_left p;
  page_unmap_ok : forall p v, pages_ok p -> pages_ok (page_unmap v p);
  page_unmap_left : forall p v, pages_ok p -> frames_left (page_unmap v p) = frames_left p
}.
