(* ===== verification/Heap.v ===== *)
(** The kernel heap, [src/mm/heap.c] and [src/mm/heap.h]. *)
From stdpp Require Import base tactics numbers list.
From Stdlib Require Import ZArith Lia.
From S2P Require Import Prelude Pmm Pages.

Open Scope Z_scope.

Definition KHEAP_START_VIRT : Z := 0xFFFF900000000000.
Definition KHEAP_INITIAL_SIZE : Z := 1 * 1024 * 1024.
Definition KHEAP_MAX_ALLOC : Z := 2 ^ 30.
Definition KHEAP_TRIM_THRESHOLD : Z := 256 * 1024.
Definition KHEAP_TRIM_KEEP : Z := 64 * 1024.

Definition ALIGNMENT : Z := 16.
Definition ALIGN (size : Z) : Z := Z.land (u64 (size + (ALIGNMENT - 1))) (u64 (Z.lnot (ALIGNMENT - 1))).
Definition HEADER : Z := 16.
Definition FREE_BIT : Z := 1.
Definition MIN_BLOCK : Z := 32.
Definition CLASSES : Z := 48.
Definition GROW_MIN : Z := 64 * 1024.
Definition POISON : Z := 0x6b.
Definition POISON_WORD : Z := 0x6b6b6b6b6b6b6b6b.

(** Memory as the heap sees it: the 64-bit word at each address that is a
    multiple of 8. Everything the heap reads or writes (headers, links, poison)
    is made of such words, because block addresses and sizes are multiples of
    16. *)
Definition write (m : Z -> Z) (a v : Z) : Z -> Z := fun x => if x =? a then v else m x.
Definition fill (m : Z -> Z) (a bytes v : Z) : Z -> Z :=
  fun x => if (a <=? x) && (x <? a + bytes) then v else m x.

(** One byte of such memory (little endian). *)
Definition read_byte (m : Z -> Z) (p : Z) : Z :=
  Z.land (Z.shiftr (m (p - p mod 8)) (8 * (p mod 8))) 0xFF.

Section Heap.
Context {P : Type} `{Pages P}.

Record heap := mkHeap {
  mem : Z -> Z;
  first_block : Z;
  last_block : Z;
  free_lists : list Z;
  heap_end_virt : Z;
  total_allocated_bytes : Z;
  failed_allocations : Z;
  poison_damage : Z;
  poison_damage_fatal : bool;
  pages : P
}.

Definition set_mem (h : heap) (m : Z -> Z) : heap :=
  mkHeap m (first_block h) (last_block h) (free_lists h) (heap_end_virt h)
    (total_allocated_bytes h) (failed_allocations h) (poison_damage h) (poison_damage_fatal h) (pages h).
Definition set_first_block (h : heap) (b : Z) : heap :=
  mkHeap (mem h) b (last_block h) (free_lists h) (heap_end_virt h)
    (total_allocated_bytes h) (failed_allocations h) (poison_damage h) (poison_damage_fatal h) (pages h).
Definition set_last_block (h : heap) (b : Z) : heap :=
  mkHeap (mem h) (first_block h) b (free_lists h) (heap_end_virt h)
    (total_allocated_bytes h) (failed_allocations h) (poison_damage h) (poison_damage_fatal h) (pages h).
Definition set_free_list (h : heap) (k b : Z) : heap :=
  mkHeap (mem h) (first_block h) (last_block h) (put (free_lists h) k b) (heap_end_virt h)
    (total_allocated_bytes h) (failed_allocations h) (poison_damage h) (poison_damage_fatal h) (pages h).
Definition set_end (h : heap) (e : Z) : heap :=
  mkHeap (mem h) (first_block h) (last_block h) (free_lists h) e
    (total_allocated_bytes h) (failed_allocations h) (poison_damage h) (poison_damage_fatal h) (pages h).
Definition set_allocated (h : heap) (n : Z) : heap :=
  mkHeap (mem h) (first_block h) (last_block h) (free_lists h) (heap_end_virt h)
    n (failed_allocations h) (poison_damage h) (poison_damage_fatal h) (pages h).
Definition set_failed (h : heap) (n : Z) : heap :=
  mkHeap (mem h) (first_block h) (last_block h) (free_lists h) (heap_end_virt h)
    (total_allocated_bytes h) n (poison_damage h) (poison_damage_fatal h) (pages h).
Definition set_damage (h : heap) (n : Z) : heap :=
  mkHeap (mem h) (first_block h) (last_block h) (free_lists h) (heap_end_virt h)
    (total_allocated_bytes h) (failed_allocations h) n (poison_damage_fatal h) (pages h).
Definition set_pages (h : heap) (p : P) : heap :=
  mkHeap (mem h) (first_block h) (last_block h) (free_lists h) (heap_end_virt h)
    (total_allocated_bytes h) (failed_allocations h) (poison_damage h) (poison_damage_fatal h) p.

(** The fields of [block_t] and, in the payload of a free block, of
    [free_links_t]: addresses of the words. *)
Definition at_size (b : Z) : Z := b.
Definition at_prev_size (b : Z) : Z := b + 8.
Definition links (b : Z) : Z := b + HEADER.
Definition at_next (b : Z) : Z := links b.
Definition at_prev (b : Z) : Z := links b + 8.

Definition store (h : heap) (a v : Z) : heap := set_mem h (write (mem h) a v).
Definition load (h : heap) (a : Z) : Z := mem h a.

Definition size_of (h : heap) (b : Z) : Z := Z.land (load h (at_size b)) (u64 (Z.lnot FREE_BIT)).
Definition is_free (h : heap) (b : Z) : bool := negb (Z.land (load h (at_size b)) FREE_BIT =? 0).

Definition next_block (h : heap) (b : Z) : Z :=
  if b =? last_block h then 0 else u64 (b + size_of h b).
Definition prev_block (h : heap) (b : Z) : Z :=
  if load h (at_prev_size b) =? 0 then 0 else u64 (b - load h (at_prev_size b)).

Definition poison (h : heap) (from bytes : Z) : heap := set_mem h (fill (mem h) from bytes POISON_WORD).

(** [first_unpoisoned]: bytes up to a word boundary, whole words, then bytes
    again. Each loop returns the position it stopped at; 0 is NULL. *)
Fixpoint scan_bytes_aligned (m : Z -> Z) (n : nat) (p e : Z) : Z * option Z :=
  match n with
  | O => (p, None)
  | S n' =>
      if (p <? e) && negb (Z.land p 7 =? 0) then
        if negb (read_byte m p =? POISON) then (p, Some p)
        else scan_bytes_aligned m n' (p + 1) e
      else (p, None)
  end.

Fixpoint scan_words (m : Z -> Z) (n : nat) (p e : Z) : Z :=
  match n with
  | O => p
  | S n' => if p + 8 <=? e then
              if negb (m p =? POISON_WORD) then p else scan_words m n' (p + 8) e
            else p
  end.

Fixpoint scan_bytes (m : Z -> Z) (n : nat) (p e : Z) : Z :=
  match n with
  | O => 0
  | S n' => if p <? e then
              if negb (read_byte m p =? POISON) then p else scan_bytes m n' (p + 1) e
            else 0
  end.

Definition first_unpoisoned (m : Z -> Z) (from bytes : Z) : Z :=
  let e := from + bytes in
  match scan_bytes_aligned m 8 from e with
  | (_, Some p) => p
  | (p, None) => scan_bytes m 16 (scan_words m (Z.to_nat (bytes / 8 + 1)) p e) e
  end.

(** [63 - __builtin_clzll(size)] is the position of the highest set bit. *)
Definition builtin_clzll (size : Z) : Z := 63 - Z.log2 size.
Definition class_of (size : Z) : Z :=
  let k := 63 - builtin_clzll size in if k <? CLASSES then k else CLASSES - 1.

Definition insert_free (h : heap) (b : Z) : heap :=
  let h := store h (at_size b) (Z.lor (load h (at_size b)) FREE_BIT) in
  let k := class_of (size_of h b) in
  let h := store h (at_prev b) 0 in
  let h := store h (at_next b) (get (free_lists h) k) in
  let h := if get (free_lists h) k =? 0 then h else store h (at_prev (get (free_lists h) k)) b in
  set_free_list h k b.

Definition unlink_free (h : heap) (b : Z) : heap :=
  let k := class_of (size_of h b) in
  let h := if load h (at_prev b) =? 0 then set_free_list h k (load h (at_next b))
           else store h (at_next (load h (at_prev b))) (load h (at_next b)) in
  if load h (at_next b) =? 0 then h
  else store h (at_prev (load h (at_next b))) (load h (at_prev b)).

Definition update_next_prev_size (h : heap) (b : Z) : heap :=
  let n := next_block h b in
  if n =? 0 then h else store h (at_prev_size n) (size_of h b).

Definition split (h : heap) (b need : Z) : heap :=
  let size := size_of h b in
  if size <? need + MIN_BLOCK then h else
  let rest := b + need in
  let h := store h (at_size rest) (size - need) in
  let h := store h (at_prev_size rest) need in
  let h := store h (at_size b) need in
  let h := if last_block h =? b then set_last_block h rest else update_next_prev_size h rest in
  insert_free h rest.

(** ** Pages *)

(** [n] bounds the iterations: the pages of [[new_end, heap_end_virt)]. *)
Fixpoint shrink_heap_loop (n : nat) (h : heap) (new_end : Z) : heap :=
  match n with
  | O => h
  | S n' =>
      if new_end <? heap_end_virt h then
        let h := set_end h (u64 (heap_end_virt h - PAGE_SIZE)) in
        let phys := page_phys (pages h) (heap_end_virt h) in
        let h := set_pages h (page_unmap (heap_end_virt h) (pages h)) in
        let h := if phys =? 0 then h else set_pages h (page_free phys (pages h)) in
        shrink_heap_loop n' h new_end
      else h
  end.

Definition shrink_heap (h : heap) (new_end : Z) : heap :=
  shrink_heap_loop (Z.to_nat ((heap_end_virt h - new_end) / PAGE_SIZE + 1)) h new_end.

(** Mapping a page makes its words those of the frame behind it. *)
Definition map_view (m : Z -> Z) (virt phys : Z) (p : P) : Z -> Z :=
  fun x => if (virt <=? x) && (x <? virt + PAGE_SIZE) then frame_word p (phys + (x - virt)) else m x.

Fixpoint expand_heap_loop (n : nat) (h : heap) (old_end : Z) : bool * heap :=
  match n with
  | O => (true, h)
  | S n' =>
      let '(phys, p) := page_alloc (pages h) in
      let h := set_pages h p in
      if phys =? 0 then (false, shrink_heap h old_end) else
      let '(ok, p) := page_map (heap_end_virt h) phys (pages h) in
      let h := set_pages h p in
      if negb ok then (false, shrink_heap (set_pages h (page_free phys (pages h))) old_end) else
      let h := set_mem h (map_view (mem h) (heap_end_virt h) phys (pages h)) in
      expand_heap_loop n' (set_end h (u64 (heap_end_virt h + PAGE_SIZE))) old_end
  end.

Definition expand_heap (h : heap) (bytes : Z) : bool * heap :=
  let page_count := u64 (bytes + PAGE_SIZE - 1) / PAGE_SIZE in
  expand_heap_loop (Z.to_nat page_count) h (heap_end_virt h).

Definition grow_for (h : heap) (need : Z) : bool * heap :=
  let have := if is_free h (last_block h) then size_of h (last_block h) else 0 in
  let more := u64 (need - have) in
  let more := if more <? GROW_MIN then GROW_MIN else more in
  let old_end := heap_end_virt h in
  let '(ok, h) := expand_heap h more in
  if negb ok then (false, h) else
  let added := u64 (heap_end_virt h - old_end) in
  let h := poison h old_end added in
  if is_free h (last_block h) then
    let h := unlink_free h (last_block h) in
    let h := store h (at_size (last_block h)) (u64 (size_of h (last_block h) + added)) in
    (true, insert_free h (last_block h))
  else
    let fresh := old_end in
    let h := store h (at_size fresh) added in
    let h := store h (at_prev_size fresh) (size_of h (last_block h)) in
    let h := set_last_block h fresh in
    (true, insert_free h fresh).

(** ** kmalloc and kfree *)

Definition kheap_init (h : heap) : heap :=
  let '(ok, h) := expand_heap h KHEAP_INITIAL_SIZE in
  if negb ok then h else
  let h := set_last_block (set_first_block h KHEAP_START_VIRT) KHEAP_START_VIRT in
  let h := store h (at_size (first_block h)) (u64 (heap_end_virt h - KHEAP_START_VIRT)) in
  let h := store h (at_prev_size (first_block h)) 0 in
  let h := insert_free h (first_block h) in
  poison h (links (first_block h) + 16) (u64 (size_of h (first_block h) - MIN_BLOCK)).

(** The search of the class's own list. [n] bounds its length. *)
Fixpoint take_first_fit (n : nat) (h : heap) (b need : Z) : Z :=
  match n with
  | O => 0
  | S n' => if b =? 0 then 0
            else if need <=? size_of h b then b
            else take_first_fit n' h (load h (at_next b)) need
  end.

(** The first block of any larger class. *)
Fixpoint take_larger (n : nat) (h : heap) (j : Z) : Z :=
  match n with
  | O => 0
  | S n' => if j <? CLASSES
            then if get (free_lists h) j =? 0 then take_larger n' h (j + 1) else get (free_lists h) j
            else 0
  end.

(** The list can be no longer than the heap has room for blocks. *)
Definition list_bound (h : heap) : nat :=
  Z.to_nat ((heap_end_virt h - KHEAP_START_VIRT) / MIN_BLOCK + 1).

Definition take_free (h : heap) (need : Z) : Z * heap :=
  let k := class_of need in
  let b := take_first_fit (list_bound h) h (get (free_lists h) k) need in
  if negb (b =? 0) then (b, unlink_free h b) else
  let b := take_larger (Z.to_nat CLASSES) h (k + 1) in
  if negb (b =? 0) then (b, unlink_free h b) else (0, h).

Inductive kmalloc_result :=
| Kmalloc_ptr (p : Z)        (* the pointer; 0 is NULL *)
| Kmalloc_panic.             (* heap memory written after it was freed *)

Definition kmalloc (h : heap) (size : Z) : kmalloc_result * heap :=
  if (size =? 0) || (first_block h =? 0) then (Kmalloc_ptr 0, h) else
  if KHEAP_MAX_ALLOC <? size then (Kmalloc_ptr 0, h) else
  let need := ALIGN size + HEADER in
  let need := if need <? MIN_BLOCK then MIN_BLOCK else need in
  let '(b, h) := take_free h need in
  let '(b, h) :=
    if b =? 0 then
      let '(grown, h) := grow_for h need in
      if grown then take_free h need else (0, h)
    else (b, h) in
  if b =? 0 then (Kmalloc_ptr 0, set_failed h (u64 (failed_allocations h + 1))) else
  let h := store h (at_size b) (size_of h b) in
  let h := split h b need in
  let damage := first_unpoisoned (mem h) (links b + 16) (u64 (size_of h b - MIN_BLOCK)) in
  let h := if damage =? 0 then h else set_damage h (u64 (poison_damage h + 1)) in
  if negb (damage =? 0) && poison_damage_fatal h then (Kmalloc_panic, h) else
  (Kmalloc_ptr (b + HEADER),
   set_allocated h (u64 (total_allocated_bytes h + (size_of h b - HEADER)))).

(** The three parts of [kfree] after the check: absorb a free block that
    follows, be absorbed by a free block that precedes, and hand the pages of a
    large free block at the end back. *)
Definition kfree_merge_next (h : heap) (b : Z) : heap :=
  let n := next_block h b in
  if negb (n =? 0) && is_free h n then
    let h := unlink_free h n in
    let h := if n =? last_block h then set_last_block h b else h in
    let h := store h (at_size b) (u64 (size_of h b + size_of h n)) in
    poison h n MIN_BLOCK
  else h.

Definition kfree_merge_prev (h : heap) (b : Z) : Z * heap :=
  let p := prev_block h b in
  if negb (p =? 0) && is_free h p then
    let h := unlink_free h p in
    let h := if b =? last_block h then set_last_block h p else h in
    let h := store h (at_size p) (u64 (size_of h p + size_of h b)) in
    (p, poison h b MIN_BLOCK)
  else (b, h).

Definition kfree_trim (h : heap) (b : Z) : heap :=
  if (b =? last_block h) && (KHEAP_TRIM_THRESHOLD <=? size_of h b) then
    let payload := b + HEADER in
    let new_end := page_align_up (payload + KHEAP_TRIM_KEEP) in
    let floor := KHEAP_START_VIRT + KHEAP_INITIAL_SIZE in
    let new_end := if new_end <? floor then floor else new_end in
    if new_end <? heap_end_virt h then
      let h := shrink_heap h new_end in
      store h (at_size b) (u64 (heap_end_virt h - b))
    else h
  else h.

(** The second component: the block was free already, and the call only said so. *)
Definition kfree (h : heap) (ptr : Z) : heap * bool :=
  if ptr =? 0 then (h, false) else
  let b := u64 (ptr - HEADER) in
  if is_free h b then (h, true) else
  let h := set_allocated h (u64 (total_allocated_bytes h - (size_of h b - HEADER))) in
  let h := poison h (links b + 16) (u64 (size_of h b - MIN_BLOCK)) in
  let h := kfree_merge_next h b in
  let '(b, h) := kfree_merge_prev h b in
  let h := store h (at_size b) (size_of h b) in
  let h := update_next_prev_size h b in
  let h := kfree_trim h b in
  (insert_free h b, false).

(** ** kheap_check *)

(** The walk over the blocks: [ok] and the counters so far. *)
Fixpoint check_blocks (n : nat) (h : heap) (b prev_size free_blocks in_use_bytes : Z) (prev_free ok : bool)
  : bool * Z * Z :=
  match n with
  | O => (false, free_blocks, in_use_bytes)
  | S n' =>
      if ok && negb (b =? 0) then
        let size := size_of h b in
        let ok := (MIN_BLOCK <=? size) && (size mod ALIGNMENT =? 0) &&
                  (load h (at_prev_size b) =? prev_size) && (u64 (b + size) <=? heap_end_virt h) &&
                  negb (prev_free && is_free h b) in
        let '(ok, free_blocks, in_use_bytes) :=
          if is_free h b
          then (ok && (first_unpoisoned (mem h) (links b + 16) (size - MIN_BLOCK) =? 0),
                free_blocks + 1, in_use_bytes)
          else (ok, free_blocks, u64 (in_use_bytes + (size - HEADER))) in
        let ok := if b =? last_block h then ok && (u64 (b + size) =? heap_end_virt h) else ok in
        check_blocks n' h (next_block h b) size free_blocks in_use_bytes (is_free h b) ok
      else (ok, free_blocks, in_use_bytes)
  end.

Fixpoint check_list (n : nat) (h : heap) (k b prev listed free_blocks : Z) (ok : bool) : bool * Z :=
  match n with
  | O => (false, listed)
  | S n' =>
      if ok && negb (b =? 0) then
        let ok := is_free h b && (class_of (size_of h b) =? k) && (load h (at_prev b) =? prev) in
        let listed := listed + 1 in
        let ok := if free_blocks <? listed then false else ok in
        check_list n' h k (load h (at_next b)) b listed free_blocks ok
      else (ok, listed)
  end.

Fixpoint check_lists (n : nat) (h : heap) (k listed free_blocks : Z) (ok : bool) : bool * Z :=
  match n with
  | O => (ok, listed)
  | S n' =>
      if ok && (k <? CLASSES) then
        let '(ok, listed) := check_list (S (list_bound h)) h k (get (free_lists h) k) 0 listed free_blocks ok in
        check_lists n' h (k + 1) listed free_blocks ok
      else (ok, listed)
  end.

Definition kheap_check (h : heap) : bool :=
  let ok := negb (first_block h =? 0) in
  let '(ok, free_blocks, in_use_bytes) :=
    check_blocks (S (list_bound h)) h (first_block h) 0 0 0 false ok in
  let '(ok, listed) := check_lists (Z.to_nat CLASSES) h 0 0 free_blocks ok in
  ok && (listed =? free_blocks) && (in_use_bytes =? total_allocated_bytes h).

(** The statics before [kheap_init]. *)
Definition heap_static (p : P) : heap :=
  mkHeap (fun _ => 0) 0 0 (replicate (Z.to_nat CLASSES) 0) KHEAP_START_VIRT 0 0 0 true p.

End Heap.

Arguments heap : clear implicits.
