(* ===== verification/HeapLists.v ===== *)
(** The free lists of the kernel heap, [src/mm/heap.c]: blocks linked both ways
    through their own payload. [insert_free] and [unlink_free] keep the lists
    equal to a given set of blocks and write nothing but the links (and, for
    [insert_free], the header) of those blocks. *)
From stdpp Require Import base tactics numbers list sets.
From Stdlib Require Import ZArith Lia.
From S2P Require Import Prelude Pmm Pages Heap.

Open Scope Z_scope.

(** * Words *)

Lemma land_not_one (w : Z) : 0 <= w < 0x10000000000000000 -> Z.land w (u64 (Z.lnot FREE_BIT)) = w - w mod 2.
Proof.
  apply (land_align w 1). lia.
Qed.

Lemma land_one (w : Z) : Z.land w FREE_BIT = w mod 2.
Proof. unfold FREE_BIT. change 1 with (Z.ones 1). rewrite Z.land_ones by lia. done. Qed.

Lemma lor_one (w : Z) : w mod 2 = 0 -> Z.lor w FREE_BIT = w + 1.
Proof.
  intros Hw. unfold FREE_BIT. rewrite Z.add_nocarry_lxor, Z.lxor_lor; [done|..].
  all: change 1 with (Z.ones 1); rewrite Z.land_ones by lia; done.
Qed.

Lemma lor_one_odd (w : Z) : 0 <= w -> w mod 2 = 1 -> Z.lor w FREE_BIT = w.
Proof.
  intros H0 Hw. unfold FREE_BIT. apply Z.bits_inj'. intros i Hi. rewrite Z.lor_spec.
  destruct (decide (i = 0)) as [->|Hne].
  - rewrite Z.bit0_odd, Zodd_mod. rewrite Hw. done.
  - change 1 with (2 ^ 0). rewrite Z.pow2_bits_false by lia. by rewrite orb_false_r.
Qed.

Lemma class_of_log2 s : 0 < s -> class_of s = Z.min (Z.log2 s) 47.
Proof. intros Hs. unfold class_of, builtin_clzll, CLASSES. zcase; lia. Qed.

Lemma class_of_range s : 0 < s -> 0 <= class_of s < 48.
Proof. intros Hs. rewrite class_of_log2 by done. pose proof (Z.log2_nonneg s). lia. Qed.

(** * Doubly linked lists threaded through free blocks *)

(** The blocks [l], in order, linked both ways; [p] precedes the first and [n]
    follows the last. *)
Fixpoint dllseg (m : Z -> Z) (p : Z) (l : list Z) (n : Z) : Prop :=
  match l with
  | [] => True
  | a :: l' => m (at_prev a) = p /\ m (at_next a) = hd n l' /\ dllseg m a l' n
  end.

Definition lastd (p : Z) (l : list Z) : Z := default p (last l).

Lemma lastd_cons p a l : lastd p (a :: l) = lastd a l.
Proof. unfold lastd. destruct l; [done|]. rewrite last_cons_cons. destruct (last (z :: l)) eqn:E; [done|]. apply last_None in E. done. Qed.

Lemma hd_app_Z (n : Z) (l1 l2 : list Z) : hd n (l1 ++ l2) = hd (hd n l2) l1.
Proof. by destruct l1. Qed.

Lemma dllseg_app m l2 n : forall l1 p,
  dllseg m p (l1 ++ l2) n <-> dllseg m p l1 (hd n l2) /\ dllseg m (lastd p l1) l2 n.
Proof.
  induction l1 as [|a l1 IH]; intros p; cbn [app dllseg].
  - unfold lastd. simpl. tauto.
  - rewrite IH, lastd_cons, hd_app_Z. tauto.
Qed.

Lemma dllseg_frame m m' n : forall l p,
  (forall a, a ∈ l -> m' (at_prev a) = m (at_prev a) /\ m' (at_next a) = m (at_next a)) ->
  dllseg m p l n -> dllseg m' p l n.
Proof.
  induction l as [|a l IH]; intros p Hf; [done|]. cbn [dllseg]. intros (H1&H2&H3).
  destruct (Hf a ltac:(set_solver)) as [-> ->]. split_and!; [done|done|]. apply IH; [|done].
  intros b Hb. apply Hf. set_solver.
Qed.

(** Block addresses: multiples of 16, not NULL. *)
Definition addr_ok (a : Z) : Prop := 0 < a /\ a mod 16 = 0.

Ltac unfold_at := unfold at_size, at_prev_size, at_next, at_prev, links, HEADER in *.

Lemma write_eq m a v : write m a v a = v.
Proof. unfold write. by rewrite Z.eqb_refl. Qed.
Lemma write_ne m a v x : x <> a -> write m a v x = m x.
Proof. intros. unfold write. destruct (Z.eqb_spec x a); done. Qed.

(** Redirecting what follows the last block of a list. *)
Lemma dllseg_set_next m l : forall p b n n',
  NoDup (l ++ [b]) -> (forall a, a ∈ l ++ [b] -> addr_ok a) ->
  dllseg m p (l ++ [b]) n -> dllseg (write m (at_next b) n') p (l ++ [b]) n'.
Proof.
  induction l as [|a l IH]; intros p b n n' Hnd Hok; cbn [app dllseg].
  - intros (H1&H2&_). split_and!; [|apply write_eq|done].
    rewrite write_ne; [done|]. unfold_at. lia.
  - intros (H1&H2&H3). inversion_clear Hnd as [|?? Hin Hnd'].
    assert (a <> b) by set_solver.
    destruct (Hok a ltac:(set_solver)) as [_ Ha]. destruct (Hok b ltac:(set_solver)) as [_ Hb].
    split_and!.
    + rewrite write_ne; [done|]. unfold_at. zlia.
    + rewrite write_ne by (unfold_at; lia). rewrite H2. by destruct l.
    + eapply IH; [done| |done]. intros c Hc. apply Hok. set_solver.
Qed.

(** Redirecting what precedes the first block of a list. *)
Lemma dllseg_set_prev m l p p' b n :
  NoDup (b :: l) -> (forall a, a ∈ b :: l -> addr_ok a) ->
  dllseg m p (b :: l) n -> dllseg (write m (at_prev b) p') p' (b :: l) n.
Proof.
  intros Hnd Hok (H1&H2&H3). inversion_clear Hnd as [|?? Hin Hnd'].
  cbn [dllseg]. split_and!; [apply write_eq| |].
  - rewrite write_ne; [done|]. unfold_at. lia.
  - eapply dllseg_frame; [|done]. intros a Ha.
    assert (a <> b) by set_solver.
    destruct (Hok a ltac:(set_solver)) as [_ Ha']. destruct (Hok b ltac:(set_solver)) as [_ Hb].
    rewrite !write_ne by (unfold_at; zlia). done.
Qed.

Lemma link_ne a b : addr_ok a -> addr_ok b -> a <> b ->
  at_next a <> at_next b /\ at_prev a <> at_prev b /\ at_next a <> at_prev b /\ at_prev a <> at_next b.
Proof. intros [_ Ha] [_ Hb] Hne. unfold_at. split_and!; try lia; zlia. Qed.

Lemma lastd_snoc p l a : lastd p (l ++ [a]) = a.
Proof. unfold lastd. by rewrite last_snoc. Qed.

(** Taking [c] out of a list with the two writes of [unlink_free]. *)
Lemma dll_unlink m l1 c l2 :
  NoDup (l1 ++ c :: l2) -> (forall a, a ∈ l1 ++ c :: l2 -> addr_ok a) ->
  dllseg m 0 (l1 ++ c :: l2) 0 ->
  let m1 := if lastd 0 l1 =? 0 then m else write m (at_next (lastd 0 l1)) (hd 0 l2) in
  let m2 := if hd 0 l2 =? 0 then m1 else write m1 (at_prev (hd 0 l2)) (lastd 0 l1) in
  dllseg m2 0 (l1 ++ l2) 0 /\ m1 (at_next c) = hd 0 l2 /\ m1 (at_prev c) = lastd 0 l1 /\ (forall x, (forall a, a ∈ l1 ++ l2 -> x <> at_next a /\ x <> at_prev a) -> m2 x = m x).
Proof.
  intros Hnd Hok Hd m1 m2.
  apply dllseg_app in Hd as [Hd1 Hd2]. cbn [hd] in Hd1. cbn [dllseg] in Hd2.
  destruct Hd2 as (Hprev&Hnext&Hd2).
  apply NoDup_app in Hnd as (Hn1&Hn12&Hn2). apply NoDup_cons in Hn2 as [Hc2 Hn2].
  assert (forall a b, a ∈ l1 -> b ∈ l2 -> a <> b) as Hne12 by set_solver.
  (* after the first write *)
  assert (dllseg m1 0 l1 (hd 0 l2) /\ dllseg m1 c l2 0 /\ m1 (at_next c) = hd 0 l2 /\ m1 (at_prev c) = lastd 0 l1 /\ (forall x, (forall a, a ∈ l1 -> x <> at_next a) -> m1 x = m x)) as (H1&H2&H3&H4&H5).
  { unfold m1. destruct l1 as [|x l1 _] using rev_ind; [done|]. rewrite lastd_snoc in *.
    assert (addr_ok x) as Hx by (apply Hok; set_solver).
    assert (addr_ok c) as Hc by (apply Hok; set_solver).
    assert (x <> c) as Hxc by set_solver.
    destruct (link_ne x c Hx Hc Hxc) as (L1&L2&L3&L4).
    destruct (Z.eqb_spec x 0); [destruct Hx; lia|]. split_and!.
    - eapply dllseg_set_next; [done| |done]. intros a Ha. apply Hok. set_solver.
    - eapply dllseg_frame; [|done]. intros a Ha.
      destruct (link_ne x a Hx) as (M1&M2&M3&M4); [apply Hok; set_solver|apply Hne12; set_solver|].
      rewrite !write_ne by done. done.
    - rewrite write_ne by done. done.
    - rewrite write_ne by done. done.
    - intros y Hy. apply write_ne, Hy. set_solver. }
  unfold m2. destruct l2 as [|y l2]; cbn [hd] in *.
  - rewrite Z.eqb_refl, app_nil_r. split_and!; [done|done|done|].
    intros x Hx. apply H5. intros a Ha. apply Hx. done.
  - assert (addr_ok y) as Hy by (apply Hok; set_solver).
    destruct (Z.eqb_spec y 0); [destruct Hy; lia|]. split_and!; [|done|done|].
    + apply dllseg_app. cbn [hd]. split.
      * eapply dllseg_frame; [|done]. intros a Ha.
        destruct (link_ne a y) as (M1&M2&M3&M4); [apply Hok; set_solver|done|apply Hne12; set_solver|].
        rewrite !write_ne by done. done.
      * eapply dllseg_set_prev; [exact Hn2| |done]. intros a Ha. apply Hok. set_solver.
    + intros x Hx. rewrite write_ne by (apply Hx; set_solver). apply H5. intros a Ha. apply Hx. set_solver.
Qed.

(** * Blocks *)

(** A block of the heap as the proofs see it. *)
Record blk := Blk { ba : Z; bsz : Z; bfree : bool }.

#[export] Instance blk_eq_dec : EqDecision blk.
Proof. solve_decision. Defined.

Definition blk_ok (b : blk) : Prop :=
  addr_ok (ba b) /\ MIN_BLOCK <= bsz b < 0x10000000000000000 /\ bsz b mod 16 = 0.

Definition apart (b c : blk) : Prop := ba b + bsz b <= ba c \/ ba c + bsz c <= ba b.

(** Blocks that do not overlap. *)
Definition blks_ok (F : list blk) : Prop :=
  (forall b, b ∈ F -> blk_ok b) /\ (forall b c, b ∈ F -> c ∈ F -> b = c \/ apart b c).

Lemma blks_ok_sub F G : (forall b, b ∈ G -> b ∈ F) -> blks_ok F -> blks_ok G.
Proof. intros Hs [H1 H2]. split; naive_solver. Qed.

Lemma blks_ok_inj F b c : blks_ok F -> b ∈ F -> c ∈ F -> ba b = ba c -> b = c.
Proof.
  intros [H1 H2] Hb Hc He. destruct (H2 b c Hb Hc) as [|Ha]; [done|].
  destruct (H1 b Hb) as (_&?&_). destruct (H1 c Hc) as (_&?&_). unfold apart, MIN_BLOCK in *. lia.
Qed.

(** [x] is a link word of one of the blocks. *)
Definition link_word (F : list blk) (x : Z) : Prop :=
  exists b, b ∈ F /\ (x = at_next (ba b) \/ x = at_prev (ba b)).

Lemma link_word_app F G x : link_word (F ++ G) x <-> link_word F x \/ link_word G x.
Proof. unfold link_word. set_solver. Qed.
Lemma link_word_cons b F x : link_word (b :: F) x <-> x = at_next (ba b) \/ x = at_prev (ba b) \/ link_word F x.
Proof. unfold link_word. set_solver. Qed.
Lemma link_word_nil x : ~ link_word [] x.
Proof. unfold link_word. set_solver. Qed.

(** The words of a block are no link words of another. *)
Lemma link_outside F b x y :
  blks_ok F -> b ∈ F -> x ∈ F -> x <> b -> ba b <= y < ba b + bsz b ->
  y <> at_next (ba x) /\ y <> at_prev (ba x).
Proof.
  intros [H1 H2] Hb Hx Hne Hy. destruct (H2 b x Hb Hx) as [|Ha]; [congruence|].
  destruct (H1 x Hx) as (_&?&_). unfold apart, MIN_BLOCK in *. unfold_at. lia.
Qed.

(** The free lists hold exactly the blocks [F], each on the list of its class;
    [fls k] is list [k]. *)
Record lists_ok (m : Z -> Z) (fl : list Z) (fls : Z -> list Z) (F : list blk) : Prop := {
  lo_len : length fl = 48%nat;
  lo_head : forall k, 0 <= k < 48 -> get fl k = hd 0 (fls k);
  lo_dll : forall k, 0 <= k < 48 -> dllseg m 0 (fls k) 0;
  lo_nodup : forall k, 0 <= k < 48 -> NoDup (fls k);
  lo_mem : forall k a, 0 <= k < 48 ->
    (a ∈ fls k <-> exists b, b ∈ F /\ ba b = a /\ class_of (bsz b) = k)
}.

Section Lists.
Context {P : Type} `{Pages P}.
Implicit Types (h : heap P) (F : list blk).

Definition set_lists h (m : Z -> Z) (fl : list Z) : heap P :=
  mkHeap m (first_block h) (last_block h) fl (heap_end_virt h) (total_allocated_bytes h)
    (failed_allocations h) (poison_damage h) (poison_damage_fatal h) (pages h).

(** What the header word of a block says. *)
Definition header_is h (b : blk) : Prop :=
  mem h (ba b) = bsz b \/ mem h (ba b) = bsz b + 1.

Lemma size_of_header h b : blk_ok b -> header_is h b -> size_of h (ba b) = bsz b.
Proof.
  intros (_&Hs&Hm) [Hh|Hh]; unfold size_of, load, at_size, MIN_BLOCK in *; rewrite Hh, land_not_one; zlia.
Qed.

Lemma lists_ok_addr m fl fls F k a :
  lists_ok m fl fls F -> blks_ok F -> 0 <= k < 48 -> a ∈ fls k -> addr_ok a.
Proof.
  intros Hl [Hok _] Hk Ha. apply (lo_mem _ _ _ _ Hl) in Ha as (b&Hb&<-&_); [|done]. apply Hok. done.
Qed.

Lemma lists_ok_other m fl fls F j k a b :
  lists_ok m fl fls F -> blks_ok F -> 0 <= j < 48 -> 0 <= k < 48 -> j <> k -> a ∈ fls j -> b ∈ fls k -> a <> b.
Proof.
  intros Hl Hok Hj Hk Hne Ha Hb ->.
  apply (lo_mem _ _ _ _ Hl) in Ha as (x&Hx&Hx1&Hx2); [|done].
  apply (lo_mem _ _ _ _ Hl) in Hb as (y&Hy&Hy1&Hy2); [|done].
  assert (x = y) as -> by (eapply blks_ok_inj; eauto; congruence). congruence.
Qed.

(** Changing list [k] and words of its own members leaves the others alone. *)
Lemma lists_ok_update m m' fl fls F F' k l' :
  lists_ok m fl fls F -> blks_ok F -> 0 <= k < 48 ->
  NoDup l' -> dllseg m' 0 l' 0 ->
  (forall a, a ∈ l' <-> exists b, b ∈ F' /\ ba b = a /\ class_of (bsz b) = k) ->
  (forall j, 0 <= j < 48 -> j <> k -> forall b, class_of (bsz b) = j -> b ∈ F' <-> b ∈ F) ->
  (forall j a, 0 <= j < 48 -> j <> k -> a ∈ fls j -> m' (at_prev a) = m (at_prev a) /\ m' (at_next a) = m (at_next a)) ->
  lists_ok m' (put fl k (hd 0 l')) (fun j => if j =? k then l' else fls j) F'.
Proof.
  intros Hl Hok Hk Hnd Hdll Hmem Hsame Hframe. pose proof (lo_len _ _ _ _ Hl) as Hlen. split.
  - rewrite length_put. done.
  - intros j Hj. rewrite get_put by lia. zcase; [done|]. by apply (lo_head _ _ _ _ Hl).
  - intros j Hj. zcase; [done|]. eapply dllseg_frame; [|by apply (lo_dll _ _ _ _ Hl)].
    intros a Ha. by eapply Hframe.
  - intros j Hj. zcase; [done|]. by apply (lo_nodup _ _ _ _ Hl).
  - intros j a Hj. zcase; [subst; apply Hmem|]. rewrite (lo_mem _ _ _ _ Hl) by done.
    split; intros (b&Hb&Hb1&Hb2); exists b; (split; [|done]); eapply Hsame; eauto.
Qed.

(** What is left on the list of [c]'s class when [c] is taken off it. *)
Lemma unlink_members m fl fls F F' c l1 l2 : lists_ok m fl fls F -> blks_ok F -> c ∈ F -> (forall b, b ∈ F' <-> b ∈ F /\ b <> c) ->
  fls (class_of (bsz c)) = l1 ++ ba c :: l2 -> forall a, a ∈ l1 ++ l2 <-> exists b, b ∈ F' /\ ba b = a /\ class_of (bsz b) = class_of (bsz c).
Proof.
  intros Hl Hok Hc HF' Hsplit a. set (k := class_of (bsz c)) in *.
  assert (0 <= k < 48) as Hk by (apply class_of_range; destruct (proj1 Hok c Hc) as (_&?&_); unfold MIN_BLOCK in *; lia).
  pose proof (lo_nodup _ _ _ _ Hl k Hk) as Hnd. rewrite Hsplit in Hnd. split.
  - intros Ha. assert (a ∈ fls k) as Ha' by (rewrite Hsplit; set_solver).
    apply (lo_mem _ _ _ _ Hl) in Ha' as (b&Hb&Hb1&Hb2); [|done]. exists b. split; [|done].
    apply HF'. split; [done|]. intros ->. rewrite NoDup_app, NoDup_cons in Hnd. set_solver.
  - intros (b&Hb&Hb1&Hb2). apply HF' in Hb as [Hb Hbc].
    assert (a ∈ fls k) as Ha by (apply (lo_mem _ _ _ _ Hl); eauto).
    rewrite Hsplit in Ha. apply elem_of_app in Ha as [Ha|Ha]; [set_solver|].
    apply elem_of_cons in Ha as [->|Ha]; [|set_solver].
    exfalso. apply Hbc. by eapply blks_ok_inj.
Qed.

(** [unlink_free] takes a block off its list and touches only links of blocks
    that stay listed. *)
Lemma unlink_free_spec h fls F F' c :
  lists_ok (mem h) (free_lists h) fls F -> blks_ok F -> c ∈ F -> header_is h c ->
  (forall b, b ∈ F' <-> b ∈ F /\ b <> c) ->
  exists m' fl' fls', unlink_free h (ba c) = set_lists h m' fl' /\ lists_ok m' fl' fls' F' /\
    (forall x, ~ link_word F' x -> m' x = mem h x).
Proof.
  intros Hl Hok Hc Hhd HF'.
  pose proof (proj1 Hok c Hc) as Hcok.
  unfold unlink_free. rewrite size_of_header by done. set (k := class_of (bsz c)).
  assert (0 <= k < 48) as Hk.
  { apply class_of_range. destruct Hcok as (_&?&_). unfold MIN_BLOCK in *. lia. }
  assert (ba c ∈ fls k) as Hin by (apply (lo_mem _ _ _ _ Hl); eauto).
  apply list_elem_of_split in Hin as (l1&l2&Hsplit).
  pose proof (lo_nodup _ _ _ _ Hl k Hk) as Hnd. rewrite Hsplit in Hnd.
  pose proof (lo_dll _ _ _ _ Hl k Hk) as Hd. rewrite Hsplit in Hd.
  pose proof (lo_head _ _ _ _ Hl k Hk) as Hh. rewrite Hsplit in Hh.
  assert (forall a, a ∈ l1 ++ ba c :: l2 -> addr_ok a) as Haddr.
  { intros a Ha. rewrite <- Hsplit in Ha. by eapply lists_ok_addr. }
  pose proof (unlink_members _ _ _ _ _ _ _ _ Hl Hok Hc HF' Hsplit) as Hmem'. fold k in Hmem'.
  assert (forall a, a ∈ l1 ++ l2 -> link_word F' (at_next a) /\ link_word F' (at_prev a)) as Hlw.
  { intros a Ha. apply Hmem' in Ha as (b&Hb&<-&_). split; exists b; auto. }
  assert (NoDup (l1 ++ l2)) as Hnd12.
  { rewrite NoDup_app, NoDup_cons in Hnd. rewrite NoDup_app. set_solver. }
  destruct (dll_unlink (mem h) l1 (ba c) l2) as (Hdll&Hn1&Hp1&Hfr); [done..|].
  apply dllseg_app in Hd as [_ Hd2]. cbn [dllseg] in Hd2. destruct Hd2 as (Hprev&Hnext&_).
  set (m1 := if lastd 0 l1 =? 0 then mem h else _) in *.
  set (m2 := if hd 0 l2 =? 0 then m1 else _) in *.
  exists m2, (put (free_lists h) k (hd 0 (l1 ++ l2))), (fun j => if j =? k then l1 ++ l2 else fls j).
  split_and!.
  - unfold load. rewrite Hprev, Hnext.
    assert (forall h1, mem h1 = m1 -> free_lists h1 = put (free_lists h) k (hd 0 (l1 ++ l2)) ->
      h1 = set_lists h m1 (put (free_lists h) k (hd 0 (l1 ++ l2))) ->
      (if mem h1 (at_next (ba c)) =? 0 then h1
       else store h1 (at_prev (mem h1 (at_next (ba c)))) (mem h1 (at_prev (ba c)))) =
      set_lists h m2 (put (free_lists h) k (hd 0 (l1 ++ l2)))) as Hgo.
    { intros h1 Hm1 Hf1 He. rewrite Hm1, Hn1, Hp1. unfold m2. zcase; [done|].
      rewrite He. done. }
    apply Hgo; unfold m1; destruct l1 as [|x l1 _] using rev_ind; cbn [lastd last default app hd] in *;
      try done; rewrite ?lastd_snoc in *.
    all: assert (addr_ok x) as Hx by (apply Haddr; set_solver);
      destruct (Z.eqb_spec x 0); [destruct Hx; lia|]; try done.
    all: rewrite <- app_assoc in Hh |- *; rewrite hd_app_Z in Hh |- *; cbn [app hd] in Hh |- *.
    all: rewrite <- Hh, put_get_id by (rewrite (lo_len _ _ _ _ Hl); lia); try done.
  - eapply lists_ok_update; try done.
    + intros j Hj Hjk b Hb. rewrite HF'. split; [tauto|]. intros Hb'. split; [done|]. intros ->. done.
    + intros j a Hj Hjk Ha. split; apply Hfr; intros b Hb.
      all: destruct (link_ne a b) as (M1&M2&M3&M4);
        [by eapply lists_ok_addr|apply Haddr; set_solver| |done].
      all: eapply (lists_ok_other _ _ _ _ j k); eauto; rewrite Hsplit; set_solver.
  - intros x Hx. apply Hfr. intros a Ha. destruct (Hlw a Ha) as [L1 L2].
    split; intros ->; apply Hx; done.
Qed.

(** The writes of [insert_free] put a block at the head of a list and touch only links
    of the list. *)
Definition dll_pushed (m : Z -> Z) (a : Z) (l : list Z) : Z -> Z :=
  let m := write (write m (at_prev a) 0) (at_next a) (hd 0 l) in
  if hd 0 l =? 0 then m else write m (at_prev (hd 0 l)) a.
Lemma dll_pushed_frame m a l x : (forall c, c ∈ a :: l -> x <> at_next c /\ x <> at_prev c) -> dll_pushed m a l x = m x.
Proof.
  intros Hx. unfold dll_pushed. destruct (Hx a ltac:(set_solver)). destruct l as [|c l']; cbn [hd]; [by rewrite Z.eqb_refl, !write_ne|].
  destruct (Hx c ltac:(set_solver)). zcase; by rewrite !write_ne.
Qed.
Lemma dll_push m a l : NoDup l -> addr_ok a -> (forall c, c ∈ l -> addr_ok c /\ c <> a) -> dllseg m 0 l 0 -> dllseg (dll_pushed m a l) 0 (a :: l) 0.
Proof.
  intros Hnd Ha Hla Hd. unfold dll_pushed. set (m2 := write (write m (at_prev a) 0) (at_next a) (hd 0 l)).
  assert (m2 (at_prev a) = 0 /\ m2 (at_next a) = hd 0 l) as [P1 P2].
  { unfold m2. split; [|apply write_eq]. rewrite write_ne by (unfold_at; lia). apply write_eq. }
  assert (dllseg m2 0 l 0) as Hd2.
  { eapply dllseg_frame; [|done]. intros c Hc. destruct (Hla c Hc) as [Hc1 Hc2]. destruct (link_ne c a Hc1 Ha Hc2) as (M1&M2&M3&M4).
    unfold m2. by rewrite !write_ne. }
  destruct l as [|c l']; cbn [hd] in *; [rewrite Z.eqb_refl; by cbn [dllseg hd]|].
  destruct (Hla c ltac:(set_solver)) as [Hc1 Hc2]. destruct (Z.eqb_spec c 0); [destruct Hc1; lia|].
  destruct (link_ne a c Ha Hc1 ltac:(done)) as (M1&M2&M3&M4).
  cbn [dllseg hd]. split; [by rewrite write_ne|]. split; [by rewrite write_ne|].
  apply (dllseg_set_prev m2 l' 0); [done| |done]. intros x Hx. by apply Hla.
Qed.

(** [insert_free] puts a block at the head of its class's list. *)
Lemma insert_free_memory h b l : blk_ok b -> header_is h b -> get (free_lists h) (class_of (bsz b)) = hd 0 l ->
  insert_free h (ba b) = set_lists h (dll_pushed (write (mem h) (ba b) (bsz b + 1)) (ba b) l) (put (free_lists h) (class_of (bsz b)) (ba b)).
Proof.
  intros (Ha&Hs&Hm) Hhd Hhead. unfold MIN_BLOCK in *. set (a := ba b) in *.
  assert (Z.lor (mem h a) FREE_BIT = bsz b + 1) as Hlor.
  { destruct Hhd as [Hh|Hh]; fold a in Hh; rewrite Hh; [apply lor_one|apply lor_one_odd]; zlia. }
  assert (Z.land (write (mem h) a (bsz b + 1) a) (u64 (Z.lnot FREE_BIT)) = bsz b) as Hsz by (rewrite write_eq, land_not_one by zlia; zlia).
  unfold insert_free, size_of, load, store, at_size, dll_pushed. cbn [mem set_mem free_lists]. rewrite Hlor, Hsz, Hhead. zcase; done.
Qed.

Lemma insert_free_spec h fls F b :
  lists_ok (mem h) (free_lists h) fls F -> blks_ok (b :: F) -> b ∉ F -> header_is h b ->
  exists m' fl' fls', insert_free h (ba b) = set_lists h m' fl' /\ lists_ok m' fl' fls' (b :: F) /\
    m' (ba b) = bsz b + 1 /\
    (forall x, x <> ba b -> ~ link_word (b :: F) x -> m' x = mem h x).
Proof.
  intros Hl Hok Hnb Hhd.
  assert (blk_ok b) as Hbok by (apply (proj1 Hok); set_solver).
  assert (blks_ok F) as HokF by (eapply blks_ok_sub; [|done]; set_solver).
  set (a := ba b) in *. set (k := class_of (bsz b)). set (m1 := write (mem h) a (bsz b + 1)).
  assert (0 <= k < 48) as Hk by (apply class_of_range; destruct Hbok as (_&?&_); unfold MIN_BLOCK in *; lia).
  assert (addr_ok a) as Ha by apply Hbok.
  (* a block on a list is not [b], and its links are not [b]'s header *)
  assert (forall j c, 0 <= j < 48 -> c ∈ fls j -> addr_ok c /\ c <> a /\ at_prev c <> a /\ at_next c <> a) as Hla.
  { intros j c Hj Hc. split; [by eapply lists_ok_addr|]. apply (lo_mem _ _ _ _ Hl) in Hc as (x&Hx&<-&_); [|done].
    assert (x <> b) as Hxb by congruence. split; [intros E; by apply Hxb, (blks_ok_inj (b :: F)); [|set_solver..|]|].
    destruct (link_outside (b :: F) b x a) as [? ?]; [done|set_solver|set_solver|done|fold a; destruct Hbok as (_&?&_); unfold MIN_BLOCK in *; lia|]. split; congruence. }
  exists (dll_pushed m1 a (fls k)), (put (free_lists h) k (hd 0 (a :: fls k))), (fun j => if j =? k then a :: fls k else fls j).
  split_and!.
  - by apply insert_free_memory; [| |apply (lo_head _ _ _ _ Hl)].
  - eapply lists_ok_update; try done.
    + constructor; [|by apply (lo_nodup _ _ _ _ Hl)]. intros Hin. by apply Hla in Hin as (_&?&_).
    + apply dll_push; [by apply (lo_nodup _ _ _ _ Hl)|done|intros c Hc; by destruct (Hla k c Hk Hc) as (?&?&_)|].
      eapply dllseg_frame; [|by apply (lo_dll _ _ _ _ Hl)]. intros c Hc. destruct (Hla k c Hk Hc) as (_&_&?&?). unfold m1. by rewrite !write_ne.
    + intros c. rewrite elem_of_cons, (lo_mem _ _ _ _ Hl) by done. split.
      * intros [->|(x&Hx&Hx1&Hx2)]; [exists b; split; [set_solver|done]|exists x; split; [set_solver|done]].
      * intros (x&Hx&Hx1&Hx2). apply elem_of_cons in Hx as [->|Hx]; [by left|right; eauto].
    + intros j Hj Hjk c Hc. split; [|set_solver]. intros Hin.
      apply elem_of_cons in Hin as [->|]; [|done]. done.
    + intros j c Hj Hjk Hc. destruct (Hla j c Hj Hc) as (Hc1&Hc2&?&?).
      assert (forall y, y ∈ a :: fls k -> addr_ok y /\ c <> y) as Hy.
      { intros y [->|Hy]%elem_of_cons; [done|]. split; [by apply (Hla k)|]. exact (lists_ok_other _ _ _ _ j k c y Hl HokF Hj Hk Hjk Hc Hy). }
      split; (rewrite dll_pushed_frame; [unfold m1; by rewrite write_ne|]); intros y [Hy1 Hy2]%Hy; by destruct (link_ne c y Hc1 Hy1 Hy2) as (?&?&?&?).
  - rewrite dll_pushed_frame; [apply write_eq|]. intros c [->|Hc]%elem_of_cons; [unfold_at; lia|]. by destruct (Hla k c Hk Hc) as (_&_&?&?).
  - intros x Hxa Hx. rewrite dll_pushed_frame; [unfold m1; by rewrite write_ne|]. intros c Hc.
    assert (exists y, y ∈ b :: F /\ ba y = c) as (y&Hy&<-).
    { apply elem_of_cons in Hc as [->|Hc]; [exists b; set_solver|]. apply (lo_mem _ _ _ _ Hl) in Hc as (y&Hy&<-&_); [|done]. exists y. set_solver. }
    split; intros ->; apply Hx; exists y; auto.
Qed.
End Lists.
