(* ===== verification/HeapInv.v ===== *)
(** The invariant of the kernel heap, [src/mm/heap.c]: the blocks lie one after
    another from [KHEAP_START_VIRT] to [heap_end_virt], each header holds its
    own size and that of the block before it, no two free blocks touch, free
    memory is poisoned, and the lists hold exactly the free blocks.

    [shape] is the invariant between operations; [open] is the same with one
    block held out, which is how [kmalloc] and [kfree] work on the heap: they
    take a block out, resize it, merge it, and put it back. *)
From stdpp Require Import base tactics numbers list sets.
From Stdlib Require Import ZArith Lia.
From S2P Require Import Prelude Pmm Pages Heap HeapLists.

Open Scope Z_scope.

Definition poisoned (m : Z -> Z) (a n : Z) : Prop := forall x, a <= x < a + n -> m x = POISON_WORD.

(** The words of block [b] that the heap relies on; [p] is the size of the
    block before it (0 for the first). *)
Definition block_words (m : Z -> Z) (p : Z) (b : blk) : Prop :=
  m (ba b) = bsz b + (if bfree b then 1 else 0) /\ m (at_prev_size (ba b)) = p /\
  (bfree b = true -> poisoned m (ba b + MIN_BLOCK) (bsz b - MIN_BLOCK)).

(** The blocks [bs] lie in [[a, e)] one after another. *)
Fixpoint seg (m : Z -> Z) (a p : Z) (bs : list blk) (e : Z) : Prop :=
  match bs with
  | [] => a = e
  | b :: bs' => ba b = a /\ blk_ok b /\ block_words m p b /\ seg m (a + bsz b) (bsz b) bs' e
  end.

(** The size of the last block, or [p] if there is none. *)
Fixpoint prev_of (p : Z) (bs : list blk) : Z :=
  match bs with [] => p | b :: bs' => prev_of (bsz b) bs' end.

(** Whether the last block is free ([f] if there is none). *)
Fixpoint free_of (f : bool) (bs : list blk) : bool :=
  match bs with [] => f | b :: bs' => free_of (bfree b) bs' end.

Definition starts_free (bs : list blk) : bool := match bs with [] => false | b :: _ => bfree b end.

(** No two neighbours are free; [f]: what comes before is free. *)
Fixpoint no_adj (f : bool) (bs : list blk) : Prop :=
  match bs with [] => True | b :: bs' => f && bfree b = false /\ no_adj (bfree b) bs' end.

Definition frees (bs : list blk) : list blk := filter (fun b => bfree b = true) bs.

(** Address of the last block. *)
Definition lastb (bs : list blk) : Z := match last bs with Some b => ba b | None => 0 end.

(** Payload bytes in use. *)
Fixpoint used_bytes (bs : list blk) : Z :=
  match bs with [] => 0 | b :: bs' => (if bfree b then 0 else bsz b - HEADER) + used_bytes bs' end.

(** ** Lists of blocks *)

Lemma prev_of_app p l1 l2 : prev_of p (l1 ++ l2) = prev_of (prev_of p l1) l2.
Proof. revert p. induction l1; intros; simpl; auto. Qed.
Lemma free_of_app f l1 l2 : free_of f (l1 ++ l2) = free_of (free_of f l1) l2.
Proof. revert f. induction l1; intros; simpl; auto. Qed.
Lemma no_adj_app l2 : forall l1 f, no_adj f (l1 ++ l2) <-> no_adj f l1 /\ no_adj (free_of f l1) l2.
Proof. induction l1; intros; simpl; [tauto|]. rewrite IHl1. tauto. Qed.
Lemma no_adj_weaken f bs : no_adj f bs -> no_adj false bs.
Proof. destruct bs; simpl; [done|]. tauto. Qed.
Lemma no_adj_strengthen f bs : starts_free bs = false -> no_adj false bs -> no_adj f bs.
Proof. destruct bs; simpl; [done|]. intros ->. rewrite andb_false_r. tauto. Qed.
Lemma no_adj_free bs : no_adj true bs -> starts_free bs = false.
Proof. destruct bs; simpl; [done|]. tauto. Qed.
Lemma frees_app l1 l2 : frees (l1 ++ l2) = frees l1 ++ frees l2.
Proof. apply filter_app. Qed.
Lemma elem_of_frees b bs : b ∈ frees bs <-> b ∈ bs /\ bfree b = true.
Proof. unfold frees. rewrite list_elem_of_filter. tauto. Qed.
Lemma lastb_snoc l b : lastb (l ++ [b]) = ba b.
Proof. unfold lastb. by rewrite last_snoc. Qed.
Lemma lastb_app_cons l1 b l2 : lastb (l1 ++ b :: l2) = lastb (b :: l2).
Proof. unfold lastb. rewrite last_app. by destruct (last (b :: l2)) eqn:E; [|apply last_None in E]. Qed.
Lemma used_bytes_app l1 l2 : used_bytes (l1 ++ l2) = used_bytes l1 + used_bytes l2.
Proof. induction l1; simpl; [done|]. rewrite IHl1. lia. Qed.

(** ** Segments *)

Lemma seg_app m l2 e : forall l1 a p,
  seg m a p (l1 ++ l2) e <-> exists mid, seg m a p l1 mid /\ seg m mid (prev_of p l1) l2 e.
Proof.
  induction l1 as [|b l1 IH]; intros a p; simpl.
  - split; [intros; exists a; done|]. intros (?&<-&?). done.
  - rewrite IH. naive_solver.
Qed.

Lemma seg_le m bs : forall a p e, seg m a p bs e -> a <= e.
Proof.
  induction bs as [|b bs IH]; intros a p e; simpl; [lia|].
  intros (_&(_&?&_)&_&Hs). apply IH in Hs. unfold MIN_BLOCK in *. lia.
Qed.

Lemma seg_bounds m bs : forall a p e b,
  seg m a p bs e -> b ∈ bs -> a <= ba b /\ ba b + bsz b <= e /\ blk_ok b.
Proof.
  induction bs as [|c bs IH]; intros a p e b; [set_solver|]. cbn [seg].
  intros (<-&Hok&_&Hs) Hin. pose proof (seg_le _ _ _ _ _ Hs).
  pose proof Hok as (?&?&?). unfold MIN_BLOCK in *.
  apply elem_of_cons in Hin as [->|Hin]; [split; [lia|split; [lia|done]]|].
  destruct (IH _ _ _ _ Hs Hin) as (?&?&?). split; [lia|split; [lia|done]].
Qed.

Lemma seg_blks_ok m bs : forall a p e, seg m a p bs e -> blks_ok bs.
Proof.
  induction bs as [|c bs IH]; intros a p e; [split; set_solver|]. cbn [seg].
  intros (<-&Hok&_&Hs). destruct (IH _ _ _ Hs) as [H1 H2]. split.
  - intros b Hb. apply elem_of_cons in Hb as [->|Hb]; [done|by apply H1].
  - intros b d Hb Hd. apply elem_of_cons in Hb as [->|Hb]; apply elem_of_cons in Hd as [->|Hd].
    + by left.
    + right. left. by destruct (seg_bounds _ _ _ _ _ _ Hs Hd).
    + right. right. by destruct (seg_bounds _ _ _ _ _ _ Hs Hb).
    + by apply H2.
Qed.

Lemma blks_ok_join l1 b l2 a e m p q :
  seg m a p l1 (ba b) -> blk_ok b -> seg m (ba b + bsz b) q l2 e -> blks_ok (l1 ++ b :: l2).
Proof.
  intros H1 Hb H2. destruct (seg_blks_ok _ _ _ _ _ H1) as [A1 A2]. destruct (seg_blks_ok _ _ _ _ _ H2) as [B1 B2].
  pose proof (fun x => seg_bounds _ _ _ _ _ x H1) as C1. pose proof (fun x => seg_bounds _ _ _ _ _ x H2) as C2.
  assert (0 <= bsz b) by (destruct Hb as (_&?&_); unfold MIN_BLOCK in *; lia).
  split.
  - intros x Hx. apply elem_of_app in Hx as [Hx|Hx]; [by apply A1|].
    apply elem_of_cons in Hx as [->|Hx]; [done|by apply B1].
  - intros x y Hx Hy. apply elem_of_app in Hx as [Hx|Hx]; apply elem_of_app in Hy as [Hy|Hy];
      try (apply elem_of_cons in Hx as [->|Hx]); try (apply elem_of_cons in Hy as [->|Hy]);
      try (by apply A2); try (by apply B2); try (by left); right; unfold apart;
      try (destruct (C1 _ Hx) as (?&?&_)); try (destruct (C2 _ Hx) as (?&?&_));
      try (destruct (C1 _ Hy) as (?&?&_)); try (destruct (C2 _ Hy) as (?&?&_)); lia.
Qed.

(** A segment depends only on the words in it that are no links of its free blocks. *)
Lemma seg_frame m m' bs : forall a p e,
  seg m a p bs e -> (forall x, a <= x < e -> ~ link_word (frees bs) x -> m' x = m x) -> seg m' a p bs e.
Proof.
  induction bs as [|b bs IH]; intros a p e; [done|]. cbn [seg].
  intros (<-&Hok&Hw&Hs) Hfr. pose proof (seg_le _ _ _ _ _ Hs) as Hle.
  destruct Hok as (Ha&Hsz&Hmod). unfold MIN_BLOCK in *.
  assert (forall x, ba b <= x < ba b + bsz b -> x <> at_next (ba b) -> x <> at_prev (ba b) -> m' x = m x) as Hb.
  { intros x Hx N1 N2. apply Hfr; [lia|]. intros (c&Hc&Hc').
    apply elem_of_frees in Hc as [Hc _]. apply elem_of_cons in Hc as [->|Hc]; [destruct Hc'; done|].
    destruct (seg_bounds _ _ _ _ _ _ Hs Hc) as (?&?&(_&?&_)). unfold_at. lia. }
  destruct Hw as (W1&W2&W3). split_and!; try done.
  - unfold block_words, MIN_BLOCK. split_and!.
    + rewrite Hb; [done|lia|unfold_at; lia..].
    + rewrite Hb; [done|unfold_at; lia..].
    + intros Hf x Hx. rewrite Hb; [|lia|unfold_at; lia..]. apply W3; [done|]. unfold MIN_BLOCK. lia.
  - apply (IH _ _ _ Hs). intros x Hx Hn. apply Hfr; [lia|]. intros (c&Hc&Hc'). apply Hn.
    apply elem_of_frees in Hc as [Hc Hcf]. apply elem_of_cons in Hc as [->|Hc].
    + unfold_at. lia.
    + exists c. split; [by apply elem_of_frees|done].
Qed.

Lemma seg_length m bs : forall a p e, seg m a p bs e -> 32 * Z.of_nat (length bs) <= e - a.
Proof.
  induction bs as [|b bs IH]; intros a p e; cbn [seg length]; [lia|].
  intros (_&(_&?&_)&_&Hs). apply IH in Hs. unfold MIN_BLOCK in *. lia.
Qed.

(** The links of free blocks lie in the segment. *)
Lemma seg_links m a p bs e x : seg m a p bs e -> link_word (frees bs) x -> a <= x < e.
Proof.
  intros Hs (c&Hc&Hx). apply elem_of_frees in Hc as [Hc _].
  destruct (seg_bounds _ _ _ _ _ _ Hs Hc) as (?&?&(_&?&_)). unfold MIN_BLOCK in *. unfold_at. lia.
Qed.

(** Two segments with a gap between them, under writes to the gap and to links. *)
Lemma seg_frame2 m m' l1 l2 a p mid1 mid2 q e :
  seg m a p l1 mid1 -> mid1 <= mid2 -> seg m mid2 q l2 e ->
  (forall x, ~ (mid1 <= x < mid2) -> ~ link_word (frees l1 ++ frees l2) x -> m' x = m x) ->
  seg m' a p l1 mid1 /\ seg m' mid2 q l2 e.
Proof.
  intros S1 Hle S2 Hfr. pose proof (seg_le _ _ _ _ _ S1). pose proof (seg_le _ _ _ _ _ S2).
  split; (eapply seg_frame; [done|]); intros x Hx Hn; apply Hfr; try lia; intros [Hc|Hc]%link_word_app; try done.
  - apply (seg_links _ _ _ _ _ _ S2) in Hc. lia.
  - apply (seg_links _ _ _ _ _ _ S1) in Hc. lia.
Qed.

(** * The invariant *)

Section Inv.
Context {P : Type} `{Pages P}.
Implicit Types (h : heap P).

(** The end of the heap stays on a page boundary and far from the end of the
    address space. *)
Definition end_ok h : Prop :=
  (heap_end_virt h - KHEAP_START_VIRT) mod PAGE_SIZE = 0 /\ heap_end_virt h < 0xFFFFFFFF00000000.

Record shape h (bs : list blk) (fls : Z -> list Z) : Prop := {
  sh_seg : seg (mem h) KHEAP_START_VIRT 0 bs (heap_end_virt h);
  sh_lists : lists_ok (mem h) (free_lists h) fls (frees bs);
  sh_adj : no_adj false bs;
  sh_first : first_block h = KHEAP_START_VIRT;
  sh_last : last_block h = lastb bs;
  sh_nonempty : bs <> [];
  sh_end : end_ok h
}.

(** Block [b], between [l1] and [l2], is held out: it is on no list and its
    size may differ from what the header after it says ([q]). *)
Record open h (l1 : list blk) (b : blk) (l2 : list blk) (q : Z) (fls : Z -> list Z) : Prop := {
  op_left : seg (mem h) KHEAP_START_VIRT 0 l1 (ba b);
  op_ok : blk_ok b;
  op_header : header_is h b;
  op_prev : mem h (at_prev_size (ba b)) = prev_of 0 l1;
  op_right : seg (mem h) (ba b + bsz b) q l2 (heap_end_virt h);
  op_lists : lists_ok (mem h) (free_lists h) fls (frees l1 ++ frees l2);
  op_adj1 : no_adj false l1;
  op_adj2 : no_adj false l2;
  op_first : first_block h = KHEAP_START_VIRT;
  op_last : last_block h = lastb (b :: l2);
  op_end : end_ok h
}.

(** Its payload past the links still holds the poison. *)
Definition clean h (b : blk) : Prop := poisoned (mem h) (ba b + MIN_BLOCK) (bsz b - MIN_BLOCK).

Lemma open_blks h l1 b l2 q fls : open h l1 b l2 q fls -> blks_ok (l1 ++ b :: l2).
Proof. intros []. by eapply blks_ok_join. Qed.

Lemma open_ends h l1 b l2 q fls :
  open h l1 b l2 q fls -> KHEAP_START_VIRT <= ba b /\ ba b + bsz b <= heap_end_virt h.
Proof. intros []. split; by eapply seg_le. Qed.

Lemma open_notin h l1 b l2 q fls : open h l1 b l2 q fls -> b ∉ l1 ++ l2.
Proof.
  intros Ho. destruct Ho. assert (0 < bsz b) by (destruct op_ok0 as (_&?&_); unfold MIN_BLOCK in *; lia).
  intros [Hb|Hb]%elem_of_app.
  - destruct (seg_bounds _ _ _ _ _ _ op_left0 Hb) as (?&?&_). lia.
  - destruct (seg_bounds _ _ _ _ _ _ op_right0 Hb) as (?&?&_). lia.
Qed.

(** Whether the block held out counts as free does not matter. *)
Lemma open_flag h l1 b b' l2 q fls :
  ba b = ba b' -> bsz b = bsz b' -> open h l1 b l2 q fls -> open h l1 b' l2 q fls.
Proof.
  intros E1 E2 []. unfold blk_ok, header_is in *. split; unfold blk_ok, header_is; rewrite <- ?E1, <- ?E2; try done.
  rewrite op_last0. unfold lastb. destruct l2; done.
Qed.

(** Writing inside the block held out, or link words of listed blocks, keeps
    the rest of the heap in shape. *)
Lemma open_frame h l1 b l2 q fls (m' : Z -> Z) :
  open h l1 b l2 q fls ->
  (forall x, ~ (ba b <= x < ba b + bsz b) -> ~ link_word (frees l1 ++ frees l2) x -> m' x = mem h x) ->
  seg m' KHEAP_START_VIRT 0 l1 (ba b) /\ seg m' (ba b + bsz b) q l2 (heap_end_virt h).
Proof.
  intros [] Hfr. assert (0 < bsz b) by (destruct op_ok0 as (_&?&_); unfold MIN_BLOCK in *; lia).
  eapply seg_frame2; try done. lia.
Qed.

(** Lists do not notice writes inside a block that is on none of them. *)
Lemma open_lists_frame h l1 b l2 q fls (m' : Z -> Z) :
  open h l1 b l2 q fls ->
  (forall x, ~ (ba b <= x < ba b + bsz b) -> m' x = mem h x) ->
  lists_ok m' (free_lists h) fls (frees l1 ++ frees l2).
Proof.
  intros Ho Hfr. pose proof (open_blks _ _ _ _ _ _ Ho) as Hok.
  pose proof (open_notin _ _ _ _ _ _ Ho) as Hnin. destruct (op_lists _ _ _ _ _ _ Ho) as [A B C D E].
  split; try done. intros k Hk. eapply dllseg_frame; [|by apply C].
  intros a Ha. apply E in Ha as (c&Hc&<-&_); [|done].
  assert (c ∈ l1 ++ l2) as Hc'.
  { apply elem_of_app in Hc as [Hc|Hc]; apply elem_of_frees in Hc; set_solver. }
  assert (c <> b) by (intros ->; done).
  assert (forall y, (y = at_next (ba c) \/ y = at_prev (ba c)) -> ~ (ba b <= y < ba b + bsz b)) as Hy.
  { intros y Hy Hin. destruct (link_outside (l1 ++ b :: l2) b c y) as [? ?];
      [done|set_solver|set_solver|done|done|]. destruct Hy; done. }
  split; apply Hfr, Hy; auto.
Qed.

(** The header and payload of the block held out may be rewritten. *)
Lemma open_write h l1 b l2 q fls (m' : Z -> Z) :
  open h l1 b l2 q fls ->
  (forall x, ~ (ba b <= x < ba b + bsz b) -> m' x = mem h x) ->
  m' (at_prev_size (ba b)) = prev_of 0 l1 ->
  (m' (ba b) = bsz b \/ m' (ba b) = bsz b + 1) ->
  open (set_mem h m') l1 b l2 q fls.
Proof.
  intros Ho Hfr Hp Hh. destruct (open_frame _ _ _ _ _ _ m' Ho) as [S1 S2].
  { intros x Hx _. by apply Hfr. }
  pose proof (open_lists_frame _ _ _ _ _ _ m' Ho Hfr) as Hl. destruct Ho. by split.
Qed.

(** ** Taking a block out and putting it back *)

Lemma shape_split h l1 b l2 fls :
  shape h (l1 ++ b :: l2) fls ->
  exists e, ba b = e /\ seg (mem h) KHEAP_START_VIRT 0 l1 e /\ blk_ok b /\
    block_words (mem h) (prev_of 0 l1) b /\ seg (mem h) (e + bsz b) (bsz b) l2 (heap_end_virt h) /\
    no_adj false l1 /\ free_of false l1 && bfree b = false /\ no_adj (bfree b) l2 /\ last_block h = lastb (b :: l2).
Proof.
  intros []. apply seg_app in sh_seg0 as (e&S1&S2). cbn [seg] in S2. destruct S2 as (<-&?&?&?).
  apply no_adj_app in sh_adj0 as [A1 A2]. cbn [no_adj] in A2. destruct A2 as [A2 A3].
  rewrite lastb_app_cons in sh_last0. exists (ba b). tauto.
Qed.

(** A block in use. *)
Lemma open_used h l1 b l2 fls :
  shape h (l1 ++ b :: l2) fls -> bfree b = false -> open h l1 b l2 (bsz b) fls.
Proof.
  intros Hs Hf. destruct (shape_split _ _ _ _ _ Hs) as (e&<-&S1&Hok&(W1&W2&_)&S2&A1&_&A2&HL).
  destruct Hs. rewrite frees_app in sh_lists0. unfold frees in sh_lists0 at 2.
  rewrite filter_cons_False in sh_lists0 by congruence. rewrite Hf in *.
  split; try done. left. lia.
Qed.

(** A free block, off its list. *)
Lemma open_unlink h l1 c l2 fls :
  shape h (l1 ++ c :: l2) fls -> bfree c = true ->
  exists m' fl' fls', unlink_free h (ba c) = set_lists h m' fl' /\
    open (set_lists h m' fl') l1 c l2 (bsz c) fls' /\ clean (set_lists h m' fl') c /\
    free_of false l1 = false /\ starts_free l2 = false /\
    m' (ba c) = bsz c + 1 /\
    (forall x, ~ link_word (frees l1 ++ frees l2) x -> m' x = mem h x).
Proof.
  intros Hs Hf. destruct (shape_split _ _ _ _ _ Hs) as (e&<-&S1&Hok&(W1&W2&W3)&S2&A1&A0&A2&HL).
  rewrite Hf in *. rewrite andb_true_r in A0.
  assert (blks_ok (l1 ++ c :: l2)) as Hbok by (by eapply blks_ok_join).
  assert (c ∉ l1 ++ l2) as Hnin.
  { assert (0 < bsz c) by (destruct Hok as (_&?&_); unfold MIN_BLOCK in *; lia).
    intros [Hb|Hb]%elem_of_app.
    - destruct (seg_bounds _ _ _ _ _ _ S1 Hb) as (?&?&_). lia.
    - destruct (seg_bounds _ _ _ _ _ _ S2 Hb) as (?&?&_). lia. }
  destruct (unlink_free_spec h fls (frees (l1 ++ c :: l2)) (frees l1 ++ frees l2) c) as (m'&fl'&fls'&Hu&Hl&Hfr).
  - apply Hs.
  - eapply blks_ok_sub; [|done]. intros b Hb. by apply elem_of_frees in Hb as [? _].
  - apply elem_of_frees. split; [set_solver|done].
  - right. done.
  - intros b. rewrite elem_of_app, !elem_of_frees. set_solver.
  - assert (forall x, ba c <= x < ba c + bsz c -> m' x = mem h x) as Hc.
    { intros x Hx. apply Hfr. intros (d&Hd&Hd').
      assert (d ∈ l1 ++ l2) as Hd2.
      { apply elem_of_app in Hd as [Hd|Hd]; apply elem_of_frees in Hd; set_solver. }
      destruct (link_outside (l1 ++ c :: l2) c d x) as [? ?];
        [done|set_solver|set_solver|intros ->; done|done|]. destruct Hd'; done. }
    destruct Hok as (Hc1&Hc2&Hc3). unfold MIN_BLOCK in *.
    exists m', fl', fls'. split_and!; try done; [| |by apply no_adj_free|].
    + destruct Hs. split; try done.
      * eapply seg_frame; [done|]. intros x Hx Hn. apply Hfr. intros (d&[Hd|Hd]%elem_of_app&Hd').
        -- apply Hn. exists d. done.
        -- apply elem_of_frees in Hd as [Hd _].
           destruct (seg_bounds _ _ _ _ _ _ S2 Hd) as (?&?&(_&?&_)). unfold_at. unfold MIN_BLOCK in *. lia.
      * right. simpl. rewrite Hc by lia. done.
      * simpl. rewrite Hc by (unfold_at; lia). done.
      * eapply seg_frame; [done|]. intros x Hx Hn. apply Hfr. intros (d&[Hd|Hd]%elem_of_app&Hd').
        -- apply elem_of_frees in Hd as [Hd _].
           destruct (seg_bounds _ _ _ _ _ _ S1 Hd) as (?&?&(_&?&_)). unfold_at. unfold MIN_BLOCK in *. lia.
        -- apply Hn. exists d. done.
      * by eapply no_adj_weaken.
    + intros x Hx. simpl. unfold MIN_BLOCK in *. rewrite Hc by lia. apply W3; [done|]. unfold MIN_BLOCK. lia.
    + rewrite Hc by lia. done.
Qed.

Lemma close_free h l1 b l2 fls :
  open h l1 b l2 (bsz b) fls -> clean h b -> free_of false l1 = false -> starts_free l2 = false ->
  let b' := Blk (ba b) (bsz b) true in
  exists m' fl' fls', insert_free h (ba b) = set_lists h m' fl' /\
    shape (set_lists h m' fl') (l1 ++ b' :: l2) fls' /\
    (forall x, x <> ba b -> ~ link_word (b' :: frees l1 ++ frees l2) x -> m' x = mem h x).
Proof.
  intros Ho Hcl Hl1 Hl2 b'. pose proof (open_blks _ _ _ _ _ _ Ho) as Hbok.
  pose proof (open_notin _ _ _ _ _ _ Ho) as Hnin.
  assert (blk_ok b) as Hok by apply Ho.
  assert (blks_ok (l1 ++ b' :: l2)) as Hbok'.
  { destruct Ho. apply (blks_ok_join l1 b' l2 KHEAP_START_VIRT (heap_end_virt h) (mem h) 0 (bsz b)); done. }
  assert (forall d, d ∈ frees l1 ++ frees l2 -> d ∈ l1 ++ l2) as Hsub.
  { intros d [Hd|Hd]%elem_of_app; apply elem_of_frees in Hd; set_solver. }
  assert (b' ∉ l1 ++ l2) as Hnin'.
  { intros Hin. apply elem_of_app in Hin as [Hin|Hin]; destruct Ho, Hok as (_&?&_); unfold MIN_BLOCK in *.
    - destruct (seg_bounds _ _ _ _ _ _ op_left0 Hin) as (?&?&_). simpl in *. lia.
    - destruct (seg_bounds _ _ _ _ _ _ op_right0 Hin) as (?&?&_). simpl in *. lia. }
  destruct (insert_free_spec h fls (frees l1 ++ frees l2) b') as (m'&fl'&fls'&Hi&Hl&Hh&Hfr).
  - apply Ho.
  - eapply blks_ok_sub; [|apply Hbok']. intros d Hd. apply elem_of_cons in Hd as [->|Hd]; [set_solver|].
    apply Hsub in Hd. set_solver.
  - intros Hin. apply Hnin', Hsub, Hin.
  - apply Ho.
  - exists m', fl', fls'. split_and!; [done| |done].
    destruct (open_frame _ _ _ _ _ _ m' Ho) as [S1 S2].
    { intros x Hx Hn. destruct Hok as (_&?&_). unfold MIN_BLOCK in *. apply Hfr.
      - intros ->. apply Hx. simpl. lia.
      - intros (d&Hd&Hd'). apply elem_of_cons in Hd as [->|Hd]; [|apply Hn; exists d; done].
        unfold_at. simpl in Hd'. lia. }
    assert (forall x, ba b < x < ba b + bsz b -> x <> at_next (ba b) -> x <> at_prev (ba b) -> m' x = mem h x) as Hb.
    { intros x Hx N1 N2. apply Hfr; [simpl; lia|]. intros (d&Hd&Hd').
      apply elem_of_cons in Hd as [->|Hd]; [destruct Hd'; done|].
      destruct (link_outside (l1 ++ b' :: l2) b' d x) as [? ?]; [done|set_solver| | |simpl; lia|].
      - apply Hsub in Hd. set_solver.
      - intros ->. by apply Hnin', Hsub.
      - destruct Hd'; done. }
    destruct Hok as (Hc1&Hc2&Hc3). unfold MIN_BLOCK in *.
    destruct Ho. split; simpl; try done.
    + apply seg_app. exists (ba b). split; [done|]. cbn [seg]. split_and!; try done.
      unfold block_words. simpl in *. split_and!; [done| |].
      * rewrite Hb; [done|unfold_at; lia..].
      * intros _ x Hx. unfold MIN_BLOCK in *. rewrite Hb; [|unfold_at; lia..]. apply Hcl. unfold MIN_BLOCK. lia.
    + rewrite frees_app. unfold frees at 2. rewrite filter_cons_True by done.
      destruct Hl as [A B C D E]. split; try done.
      intros k a Hk. rewrite E by done. split; intros (d&Hd&?); exists d; (split; [|done]); set_solver.
    + apply no_adj_app. cbn [no_adj]. split_and!; [done|by rewrite Hl1|by apply no_adj_strengthen].
    + rewrite lastb_app_cons. rewrite op_last0. unfold lastb. destruct l2; done.
    + by destruct l1.
Qed.

Lemma close_used h l1 b l2 fls :
  open h l1 b l2 (bsz b) fls -> mem h (ba b) = bsz b ->
  shape h (l1 ++ Blk (ba b) (bsz b) false :: l2) fls.
Proof.
  intros [] Hh. split; try done.
  - apply seg_app. exists (ba b). split; [done|]. cbn [seg]. split_and!; try done.
    split_and!; simpl; [lia|done|done].
  - rewrite frees_app. unfold frees at 2. rewrite filter_cons_False by done. done.
  - apply no_adj_app. cbn [no_adj bfree]. rewrite andb_false_r. done.
  - rewrite lastb_app_cons, op_last0. unfold lastb. destruct l2; done.
  - by destruct l1.
Qed.

(** ** Neighbours *)

Lemma open_last_lt h l1 b n l2 q fls :
  open h l1 b (n :: l2) q fls -> ba b < last_block h.
Proof.
  intros Ho. destruct Ho. destruct op_ok0 as (_&?&_). unfold MIN_BLOCK in *.
  rewrite op_last0. unfold lastb. rewrite last_cons_cons.
  destruct (last (n :: l2)) as [d|] eqn:E; [|by apply last_None in E].
  apply last_Some_elem_of in E. destruct (seg_bounds _ _ _ _ _ _ op_right0 E) as (?&?&_). lia.
Qed.

Lemma open_last_nil h l1 b l2 q fls :
  open h l1 b l2 q fls -> last_block h = ba b -> l2 = [].
Proof. intros Ho HL. destruct l2; [done|]. apply open_last_lt in Ho. lia. Qed.

Lemma open_next_block h l1 b l2 q fls :
  open h l1 b l2 q fls ->
  next_block h (ba b) = match l2 with [] => 0 | n :: _ => ba n end.
Proof.
  intros Ho. unfold next_block. destruct l2 as [|n l2].
  - rewrite (op_last _ _ _ _ _ _ Ho). unfold lastb. simpl. by rewrite Z.eqb_refl.
  - pose proof (open_last_lt _ _ _ _ _ _ _ Ho). pose proof (open_ends _ _ _ _ _ _ Ho) as [E1 E2]. destruct Ho.
    destruct (Z.eqb_spec (ba b) (last_block h)); [lia|].
    rewrite size_of_header by done. cbn [seg] in op_right0. destruct op_right0 as (->&_).
    destruct op_ok0 as (_&Hs&_). unfold MIN_BLOCK, end_ok, KHEAP_START_VIRT in *.
    apply u64_small. destruct op_end0. lia.
Qed.

Lemma open_prev_block h l1 b l2 q fls :
  open h l1 b l2 q fls ->
  prev_block h (ba b) = match last l1 with None => 0 | Some p => ba p end.
Proof.
  intros Ho. pose proof (open_ends _ _ _ _ _ _ Ho) as [E1 E2]. destruct Ho.
  unfold prev_block, load. rewrite op_prev0.
  destruct l1 as [|p l1 _] using rev_ind; [done|]. rewrite last_snoc, prev_of_app. cbn [prev_of].
  apply seg_app in op_left0 as (e&S1&S2). cbn [seg] in S2. destruct S2 as (<-&(Hp1&Hp2&_)&_&E).
  unfold MIN_BLOCK, KHEAP_START_VIRT, end_ok in *. destruct (Z.eqb_spec (bsz p) 0); [lia|].
  rewrite <- E. replace (ba p + bsz p - bsz p) with (ba p) by lia. apply u64_small.
  destruct Hp1. destruct op_end0. destruct op_ok0 as (_&?&_). unfold MIN_BLOCK in *. lia.
Qed.

Lemma seg_is_free h a p b bs e : seg (mem h) a p (b :: bs) e -> is_free h (ba b) = bfree b /\ header_is h b.
Proof.
  cbn [seg]. intros (_&(_&Hs&Hm)&(Hw&_)&_). unfold is_free, load, at_size, header_is. rewrite Hw, land_one.
  destruct (bfree b); split; try (right; lia); try (left; lia).
  - apply negb_true_iff, Z.eqb_neq. zlia.
  - apply negb_false_iff, Z.eqb_eq. zlia.
Qed.

(** The header after the block is brought up to date. *)
Lemma open_update_next h l1 b l2 q fls :
  open h l1 b l2 q fls ->
  exists m', update_next_prev_size h (ba b) = set_mem h m' /\ open (set_mem h m') l1 b l2 (bsz b) fls /\
    (forall x, (forall n, head l2 = Some n -> x <> at_prev_size (ba n)) -> m' x = mem h x).
Proof.
  intros Ho. unfold update_next_prev_size. rewrite (open_next_block _ _ _ _ _ _ Ho).
  destruct l2 as [|n l2].
  - exists (mem h). rewrite Z.eqb_refl. split_and!; [by destruct h| |done]. by destruct Ho.
  - pose proof (open_blks _ _ _ _ _ _ Ho) as Hbok. pose proof (open_notin _ _ _ _ _ _ Ho) as Hnin.
    pose proof (op_right _ _ _ _ _ _ Ho) as Hr. cbn [seg] in Hr. destruct Hr as (Hn&Hnok&Hnw&Hr).
    pose proof Hnok as ((Hn0&Hn1)&Hn2&Hn3). destruct (Z.eqb_spec (ba n) 0); [lia|].
    rewrite size_of_header by apply Ho. unfold MIN_BLOCK in *.
    exists (write (mem h) (at_prev_size (ba n)) (bsz b)). split_and!; [done| |].
    + pose proof (op_ok _ _ _ _ _ _ Ho) as (Hb1&Hb2&Hb3). unfold MIN_BLOCK in *.
      assert (forall x, ~ (ba n <= x < ba n + bsz n) -> write (mem h) (at_prev_size (ba n)) (bsz b) x = mem h x) as Hout.
      { intros x Hx. apply write_ne. unfold_at. lia. }
      destruct Ho. split; try done; simpl.
      * eapply seg_frame; [done|]. intros x Hx _. apply Hout. lia.
      * unfold header_is. simpl. rewrite Hout by lia. done.
      * rewrite Hout by (unfold_at; lia). done.
      * cbn [seg]. split_and!; try done.
        -- destruct Hnw as (W1&W2&W3). unfold block_words, MIN_BLOCK in *. split_and!.
           ++ rewrite write_ne by (unfold_at; lia). done.
           ++ apply write_eq.
           ++ intros Hf x Hx. rewrite write_ne by (unfold_at; lia). by apply W3.
        -- rewrite <- Hn. rewrite <- Hn in Hr. eapply seg_frame; [done|]. intros x Hx _. apply Hout. lia.
      * destruct op_lists0 as [A B C D E]. split; try done. intros k Hk.
        eapply dllseg_frame; [|by apply C]. intros a Ha. apply E in Ha as (c&Hc&<-&_); [|done].
        assert (c ∈ l1 ++ b :: n :: l2) as Hc'.
        { apply elem_of_app in Hc as [Hc|Hc]; apply elem_of_frees in Hc; set_solver. }
        destruct (decide (c = n)) as [->|Hcn].
        -- rewrite !write_ne by (unfold_at; lia). done.
        -- destruct (link_outside (l1 ++ b :: n :: l2) n c (at_prev_size (ba n))) as [? ?];
             [done|set_solver|done|done|unfold_at; lia|].
           rewrite !write_ne by congruence. done.
    + intros x Hx. apply write_ne. by apply Hx.
Qed.

(** ** Merging *)

Definition same_counters h h' : Prop :=
  heap_end_virt h' = heap_end_virt h /\ total_allocated_bytes h' = total_allocated_bytes h /\
  failed_allocations h' = failed_allocations h /\ poison_damage h' = poison_damage h /\
  poison_damage_fatal h' = poison_damage_fatal h /\ pages h' = pages h.

(** Words outside the blocks [l] that are no links of free blocks in [l']. *)
Definition untouched (l l' : list blk) (x : Z) : Prop :=
  (forall b, b ∈ l -> ~ (ba b <= x < ba b + bsz b)) /\ ~ link_word (frees l') x.

(** Two neighbours [c] and [d] held out together, around them [l1] and [l2]. *)
Record open2 h (l1 : list blk) (c d : blk) (l2 : list blk) (q : Z) : Prop := {
  o2_left : seg (mem h) KHEAP_START_VIRT 0 l1 (ba c);
  o2_ok1 : blk_ok c;
  o2_ok2 : blk_ok d;
  o2_header1 : header_is h c;
  o2_header2 : header_is h d;
  o2_next : ba d = ba c + bsz c;
  o2_prev : mem h (at_prev_size (ba c)) = prev_of 0 l1;
  o2_clean1 : clean h c;
  o2_clean2 : clean h d;
  o2_right : seg (mem h) (ba d + bsz d) q l2 (heap_end_virt h);
  o2_adj1 : no_adj false l1;
  o2_adj2 : no_adj false l2;
  o2_first : first_block h = KHEAP_START_VIRT;
  o2_last : last_block h = lastb (d :: l2);
  o2_end : end_ok h
}.

(** What both merges of [kfree] do once the free one is off its list: the lower
    block grows over the upper one, whose header and links become poison. *)
Definition absorb h (c d : Z) : heap P :=
  let h := if d =? last_block h then set_last_block h c else h in
  poison (store h (at_size c) (u64 (size_of h c + size_of h d))) d MIN_BLOCK.

Lemma open2_blks h l1 c d l2 q :
  open2 h l1 c d l2 q -> blks_ok (l1 ++ c :: d :: l2) /\ c ∉ l1 ++ l2 /\ d ∉ l1 ++ l2.
Proof.
  intros []. pose proof o2_ok3 as (_&?&_). pose proof o2_ok4 as (_&?&_). unfold MIN_BLOCK in *.
  pose proof (fun x => seg_bounds _ _ _ _ _ x o2_left0) as C1.
  pose proof (fun x => seg_bounds _ _ _ _ _ x o2_right0) as C2.
  destruct (seg_blks_ok _ _ _ _ _ o2_left0) as [A1 A2]. destruct (seg_blks_ok _ _ _ _ _ o2_right0) as [B1 B2].
  split_and!.
  2,3: intros [Hx|Hx]%elem_of_app; [destruct (C1 _ Hx) as (?&?&_)|destruct (C2 _ Hx) as (?&?&_)]; lia.
  split.
  - intros x Hx. rewrite elem_of_app, !elem_of_cons in Hx. destruct Hx as [Hx|[->|[->|Hx]]]; auto.
  - intros x y Hx Hy. rewrite elem_of_app, !elem_of_cons in Hx, Hy. unfold apart.
    destruct Hx as [Hx|[->|[->|Hx]]]; destruct Hy as [Hy|[->|[->|Hy]]];
      try (by apply A2); try (by apply B2); try (by left); right;
      try (destruct (C1 _ Hx) as (?&?&_)); try (destruct (C2 _ Hx) as (?&?&_));
      try (destruct (C1 _ Hy) as (?&?&_)); try (destruct (C2 _ Hy) as (?&?&_)); lia.
Qed.

(** Link words of the listed blocks are outside the two. *)
Lemma open2_links h l1 c d l2 q x :
  open2 h l1 c d l2 q -> link_word (frees l1 ++ frees l2) x -> ~ (ba c <= x < ba d + bsz d).
Proof.
  intros Ho (b&Hb&Hx) Hin. destruct (open2_blks _ _ _ _ _ _ Ho) as (Hok&Hc&Hd).
  assert (b ∈ l1 ++ l2) as Hb'.
  { apply elem_of_app in Hb as [Hb|Hb]; apply elem_of_frees in Hb; set_solver. }
  destruct Ho. destruct (decide (x < ba d)).
  - destruct (link_outside (l1 ++ c :: d :: l2) c b x) as [? ?];
      [done|set_solver|set_solver|intros ->; done|lia|]. destruct Hx; done.
  - destruct (link_outside (l1 ++ c :: d :: l2) d b x) as [? ?];
      [done|set_solver|set_solver|intros ->; done|lia|]. destruct Hx; done.
Qed.

(** Taking other blocks off their lists does not touch the two. *)
Lemma open2_relist h l1 c d l2 q (m' : Z -> Z) fl' :
  open2 h l1 c d l2 q -> (forall x, ~ link_word (frees l1 ++ frees l2) x -> m' x = mem h x) ->
  open2 (set_lists h m' fl') l1 c d l2 q.
Proof.
  intros Ho Hfr.
  assert (forall x, ba c <= x < ba d + bsz d -> m' x = mem h x) as Hin.
  { intros x Hx. apply Hfr. intros Hl. by apply (open2_links _ _ _ _ _ _ _ Ho) in Hl. }
  destruct Ho. pose proof o2_ok3 as (_&?&_). pose proof o2_ok4 as (_&?&_). unfold MIN_BLOCK in *.
  destruct (seg_frame2 (mem h) m' l1 l2 KHEAP_START_VIRT 0 (ba c) (ba d + bsz d) q (heap_end_virt h)) as [A B];
    [done|lia|done|by intros; apply Hfr|].
  split; try done; unfold header_is, clean, poisoned, MIN_BLOCK in *; simpl.
  - rewrite Hin by lia. done.
  - rewrite Hin by lia. done.
  - rewrite Hin by (unfold_at; lia). done.
  - intros x Hx. rewrite Hin by lia. by apply o2_clean3.
  - intros x Hx. rewrite Hin by lia. by apply o2_clean4.
Qed.

Lemma absorb_mem h l1 c d l2 q :
  open2 h l1 c d l2 q ->
  let h' := absorb h (ba c) (ba d) in
  mem h' (ba c) = bsz c + bsz d /\
  (forall x, ~ (ba c <= x < ba d + bsz d) -> mem h' x = mem h x) /\
  (forall x, ba c < x < ba d + bsz d -> mem h' x = if (ba d <=? x) && (x <? ba d + 32) then POISON_WORD else mem h x).
Proof.
  intros [] h'. pose proof o2_ok3 as ([? _]&?&_). pose proof o2_ok4 as (_&?&_).
  pose proof (seg_le _ _ _ _ _ o2_right0). pose proof o2_end0 as [_ ?].
  unfold h', absorb. set (h1 := if ba d =? last_block h then set_last_block h (ba c) else h).
  assert (mem h1 = mem h) as Hm by (unfold h1; zcase; done).
  rewrite (size_of_header h1 c), (size_of_header h1 d) by (unfold header_is; rewrite ?Hm; done).
  unfold MIN_BLOCK in *. rewrite u64_small by lia. simpl. unfold fill. rewrite Hm. split_and!.
  - destruct (Z.leb_spec (ba d) (ba c)); [lia|]. apply write_eq.
  - intros x Hx. destruct (Z.leb_spec (ba d) x), (Z.ltb_spec x (ba d + 32)); simpl; try lia; apply write_ne; unfold at_size; lia.
  - intros x Hx. zcase; [done|]. apply write_ne. unfold at_size. lia.
Qed.

Lemma absorb_fields h l1 c d l2 q :
  open2 h l1 c d l2 q ->
  let h' := absorb h (ba c) (ba d) in
  free_lists h' = free_lists h /\ first_block h' = first_block h /\ last_block h' = lastb (c :: l2) /\ same_counters h h'.
Proof.
  intros [] h'. unfold h', absorb. destruct l2 as [|n l2].
  - rewrite o2_last0. unfold lastb. simpl. rewrite Z.eqb_refl. done.
  - assert (ba d < lastb (d :: n :: l2)).
    { unfold lastb. rewrite last_cons_cons. destruct (last (n :: l2)) as [e|] eqn:E; [|by apply last_None in E].
      apply last_Some_elem_of in E. destruct (seg_bounds _ _ _ _ _ _ o2_right0 E) as (?&?&_).
      destruct o2_ok4 as (_&?&_). unfold MIN_BLOCK in *. lia. }
    rewrite o2_last0. zcase; [lia|]. split_and!; done.
Qed.

Lemma absorb_spec h l1 c d l2 q fls :
  open2 h l1 c d l2 q -> lists_ok (mem h) (free_lists h) fls (frees l1 ++ frees l2) ->
  let h' := absorb h (ba c) (ba d) in
  let b := Blk (ba c) (bsz c + bsz d) false in
  open h' l1 b l2 q fls /\ clean h' b.
Proof.
  intros Ho Hl h' b. destruct (absorb_mem _ _ _ _ _ _ Ho) as (Hh&Hout&Hin).
  destruct (absorb_fields _ _ _ _ _ _ Ho) as (N1&N2&N3&N4). fold h' in Hh, Hout, Hin, N1, N2, N3, N4.
  pose proof (fun x => open2_links _ _ _ _ _ _ x Ho) as Hlinks.
  destruct Ho, N4 as (C1&_). clearbody h'.
  destruct o2_ok3 as (Hc1&Hc2&Hc3). destruct o2_ok4 as (Hd1&Hd2&Hd3). unfold MIN_BLOCK in *.
  pose proof (seg_le _ _ _ _ _ o2_right0). pose proof (seg_le _ _ _ _ _ o2_left0). destruct o2_end0 as [He1 He2].
  split; [split|]; cbn [b ba bsz bfree].
  - eapply seg_frame; [done|]. intros x Hx _. apply Hout. lia.
  - unfold blk_ok, b, MIN_BLOCK, KHEAP_START_VIRT, PAGE_SIZE in *. cbn [ba bsz]. split; [done|]. split; [lia|zlia].
  - left. done.
  - rewrite Hin by (unfold_at; lia). destruct (Z.leb_spec (ba d) (at_prev_size (ba c))); [unfold_at; lia|done].
  - rewrite C1. replace (ba c + (bsz c + bsz d)) with (ba d + bsz d) by lia.
    eapply seg_frame; [done|]. intros x Hx _. apply Hout. lia.
  - rewrite N1. destruct Hl as [A B C D E]. split; try done. intros k Hk.
    eapply dllseg_frame; [|by apply C]. intros a Ha. apply E in Ha as (e&He&<-&_); [|done].
    split; apply Hout, Hlinks; exists e; auto.
  - done.
  - done.
  - congruence.
  - rewrite N3. unfold lastb. by destruct l2.
  - unfold end_ok. by rewrite C1.
  - intros x Hx. unfold MIN_BLOCK in *. cbn [b ba bsz] in Hx. rewrite Hin by lia. zcase; [done|].
    destruct (decide (x < ba d)); [apply o2_clean3; unfold MIN_BLOCK; lia|].
    apply o2_clean4. unfold MIN_BLOCK. apply andb_false_iff in Heqb0. destruct Heqb0; zbool; lia.
Qed.

(** The block after the one held out, off its list. *)
Lemma open2_next h l1 b n l2 fls :
  open h l1 b (n :: l2) (bsz b) fls -> clean h b -> bfree n = true ->
  exists m' fl' fls', unlink_free h (ba n) = set_lists h m' fl' /\
    open2 (set_lists h m' fl') l1 b n l2 (bsz n) /\ lists_ok m' fl' fls' (frees l1 ++ frees l2) /\
    starts_free l2 = false /\ (forall x, ~ link_word (frees l1 ++ frees l2) x -> m' x = mem h x).
Proof.
  intros Ho Hcl Hf. pose proof (open_blks _ _ _ _ _ _ Ho) as Hbok.
  pose proof (op_right _ _ _ _ _ _ Ho) as Hr. cbn [seg] in Hr. destruct Hr as (Hn&Hnok&Hnw&Hr).
  pose proof (op_ok _ _ _ _ _ _ Ho) as (_&Hb2&_). pose proof Hnok as (_&Hn2&_). unfold MIN_BLOCK in *.
  assert (open2 h l1 b n l2 (bsz n)) as Ho2.
  { pose proof (seg_is_free _ _ _ _ _ _ (op_right _ _ _ _ _ _ Ho)) as [_ Hnh]. destruct Ho.
    destruct op_adj4 as [_ op_adj4]. split; try done.
    - destruct Hnw as (_&_&W). by apply W.
    - by rewrite Hn.
    - by eapply no_adj_weaken. }
  destruct (open2_blks _ _ _ _ _ _ Ho2) as (_&Hb&Hnn).
  destruct (unlink_free_spec h fls (frees l1 ++ frees (n :: l2)) (frees l1 ++ frees l2) n)
    as (m1&fl'&fls'&Hu&Hl&Hfr1).
  - apply Ho.
  - eapply blks_ok_sub; [|done]. intros d [Hd|Hd]%elem_of_app; apply elem_of_frees in Hd as [? _]; set_solver.
  - apply elem_of_app. right. apply elem_of_frees. split; [set_solver|done].
  - apply Ho2.
  - intros d. rewrite !elem_of_app, !elem_of_frees. set_solver.
  - exists m1, fl', fls'. split_and!; try done; [by apply (open2_relist h)|].
    pose proof (op_adj2 _ _ _ _ _ _ Ho) as HA. cbn [no_adj] in HA. apply no_adj_free. rewrite <- Hf. apply HA.
Qed.

(** The block before the one held out, off its list. *)
Lemma open2_prev h l1 p b l2 q fls :
  open h (l1 ++ [p]) b l2 q fls -> clean h b -> bfree p = true ->
  exists m' fl' fls', unlink_free h (ba p) = set_lists h m' fl' /\
    open2 (set_lists h m' fl') l1 p b l2 q /\ lists_ok m' fl' fls' (frees l1 ++ frees l2) /\
    free_of false l1 = false /\ (forall x, ~ link_word (frees l1 ++ frees l2) x -> m' x = mem h x).
Proof.
  intros Ho Hcl Hf. pose proof (open_blks _ _ _ _ _ _ Ho) as Hbok.
  pose proof (op_left _ _ _ _ _ _ Ho) as Hlft. apply seg_app in Hlft as (e&S1&S2).
  cbn [seg] in S2. destruct S2 as (<-&Hpok&Hpw&Hpe).
  pose proof (op_ok _ _ _ _ _ _ Ho) as (_&Hb2&_). pose proof Hpok as (_&Hp2&_). unfold MIN_BLOCK in *.
  pose proof (op_adj1 _ _ _ _ _ _ Ho) as HA. apply no_adj_app in HA as [HA1 HA2]. cbn [no_adj] in HA2.
  destruct Hpw as (W1&W2&W3).
  assert (open2 h l1 p b l2 q) as Ho2.
  { destruct Ho. split; try done.
    - right. rewrite W1, Hf. done.
    - by apply W3. }
  destruct (open2_blks _ _ _ _ _ _ Ho2) as (_&Hp&Hb).
  destruct (unlink_free_spec h fls (frees (l1 ++ [p]) ++ frees l2) (frees l1 ++ frees l2) p)
    as (m1&fl'&fls'&Hu&Hl&Hfr1).
  - apply Ho.
  - eapply blks_ok_sub; [|done]. intros d [Hd|Hd]%elem_of_app; apply elem_of_frees in Hd as [? _]; set_solver.
  - apply elem_of_app. left. apply elem_of_frees. split; [set_solver|done].
  - apply Ho2.
  - intros d. rewrite !elem_of_app, !elem_of_frees. set_solver.
  - exists m1, fl', fls'. split_and!; try done; [by apply (open2_relist h)|].
    destruct HA2 as [HA2 _]. rewrite Hf, andb_true_r in HA2. done.
Qed.

(** Both merges, as far as the rest of the heap can tell: a neighbour that is
    free is absorbed, one that is in use stays. *)
Lemma merge_next h l1 b l2 fls :
  open h l1 b l2 (bsz b) fls -> clean h b ->
  let h' := kfree_merge_next h (ba b) in
  exists ns l2' s q fls', l2 = ns ++ l2' /\ Forall (fun n => bfree n = true) ns /\
    open h' l1 (Blk (ba b) (bsz b + s) false) l2' q fls' /\ clean h' (Blk (ba b) (bsz b + s) false) /\
    starts_free l2' = false /\ same_counters h h' /\
    (forall x, ~ (ba b <= x < ba b + bsz b + s) -> ~ link_word (frees l1 ++ frees l2) x -> mem h' x = mem h x).
Proof.
  intros Ho Hcl. cbn zeta. unfold kfree_merge_next. rewrite (open_next_block _ _ _ _ _ _ Ho).
  assert (forall q, open h l1 b l2 q fls -> open h l1 (Blk (ba b) (bsz b + 0) false) l2 q fls) as Hsame.
  { intros q. apply open_flag; simpl; lia. }
  destruct l2 as [|n l2].
  { exists [], [], 0, (bsz b), fls. rewrite Z.eqb_refl. cbn [negb andb]. split_and!; try done; [by apply Hsame|].
    unfold clean in *. simpl. by rewrite Z.add_0_r. }
  destruct (seg_is_free _ _ _ _ _ _ (op_right _ _ _ _ _ _ Ho)) as [Hfr _]. rewrite Hfr.
  pose proof (op_right _ _ _ _ _ _ Ho) as Hr. cbn [seg] in Hr. destruct Hr as (Hn&((Hn0&_)&_)&_&_).
  destruct (Z.eqb_spec (ba n) 0); [lia|]. cbn [negb andb]. destruct (bfree n) eqn:Hf.
  - destruct (open2_next _ _ _ _ _ _ Ho Hcl Hf) as (m1&fl'&fls'&Hu&Ho2&Hl&Hst&Hfr1). rewrite Hu.
    change (poison _ (ba n) MIN_BLOCK) with (absorb (set_lists h m1 fl') (ba b) (ba n)).
    destruct (absorb_spec _ _ _ _ _ _ _ Ho2 Hl) as [Ho' Hcl'].
    destruct (absorb_mem _ _ _ _ _ _ Ho2) as (_&Hout&_). destruct (absorb_fields _ _ _ _ _ _ Ho2) as (_&_&_&Hc).
    exists [n], l2, (bsz n), (bsz n), fls'. split_and!; try done; [by constructor|].
    intros x Hx Hx'. rewrite Hout by lia. apply Hfr1. intros (d&Hd&Hd'). apply Hx'. exists d. split; [|done].
    rewrite elem_of_app, !elem_of_frees in *. set_solver.
  - exists [], (n :: l2), 0, (bsz b), fls. split_and!; try done; [by apply Hsame|unfold clean in *; simpl; by rewrite Z.add_0_r].
Qed.

Lemma merge_prev h l1 b l2 q fls :
  open h l1 b l2 q fls -> clean h b ->
  let '(b', h') := kfree_merge_prev h (ba b) in
  exists l1' ps s fls', l1 = l1' ++ ps /\ Forall (fun p => bfree p = true) ps /\
    open h' l1' (Blk b' s false) l2 q fls' /\ clean h' (Blk b' s false) /\
    free_of false l1' = false /\ same_counters h h' /\ b' + s = ba b + bsz b /\ (b' = ba b \/ b' + MIN_BLOCK <= ba b) /\
    (forall x, ~ (b' <= x < ba b + bsz b) -> ~ link_word (frees l1 ++ frees l2) x -> mem h' x = mem h x).
Proof.
  intros Ho Hcl. unfold kfree_merge_prev. rewrite (open_prev_block _ _ _ _ _ _ Ho).
  assert (open h l1 (Blk (ba b) (bsz b) false) l2 q fls) as Hsame by (by apply (open_flag _ _ b)).
  destruct l1 as [|p l1 _] using rev_ind.
  { rewrite Z.eqb_refl. cbn [negb andb]. exists [], [], (bsz b), fls. split_and!; try done. by left. }
  rewrite last_snoc.
  pose proof (op_left _ _ _ _ _ _ Ho) as Hlft. apply seg_app in Hlft as (e&S1&S2).
  destruct (seg_is_free _ _ _ _ _ _ S2) as [Hfr _]. rewrite Hfr.
  cbn [seg] in S2. destruct S2 as (<-&((Hp0&_)&Hp2&_)&_&Hpe). unfold MIN_BLOCK in *.
  destruct (Z.eqb_spec (ba p) 0); [lia|]. cbn [negb andb]. destruct (bfree p) eqn:Hf.
  - destruct (open2_prev _ _ _ _ _ _ _ Ho Hcl Hf) as (m1&fl'&fls'&Hu&Ho2&Hl&Hst&Hfr1). rewrite Hu.
    change (poison _ (ba b) MIN_BLOCK) with (absorb (set_lists h m1 fl') (ba p) (ba b)).
    destruct (absorb_spec _ _ _ _ _ _ _ Ho2 Hl) as [Ho' Hcl'].
    destruct (absorb_mem _ _ _ _ _ _ Ho2) as (_&Hout&_). destruct (absorb_fields _ _ _ _ _ _ Ho2) as (_&_&_&Hc).
    exists l1, [p], (bsz p + bsz b), fls'. split_and!; try done; [by constructor|lia|unfold MIN_BLOCK; lia|].
    intros x Hx Hx'. rewrite Hout by lia. apply Hfr1. intros (d&Hd&Hd'). apply Hx'. exists d. split; [|done].
    rewrite elem_of_app, !elem_of_frees in *. set_solver.
  - exists (l1 ++ [p]), [], (bsz b), fls. rewrite app_nil_r. split_and!; try done; [|by left].
    rewrite free_of_app. done.
Qed.
End Inv.
