(* ===== verification/HeapGrow.v ===== *)
(** The kernel heap, continued: pages come and go at the end of the heap
    ([shrink_heap], [expand_heap], [grow_for], the trim at the end of [kfree]). *)
From stdpp Require Import base tactics numbers list sets.
From Stdlib Require Import ZArith Lia.
From S2P Require Import Prelude Pmm Pages Heap HeapLists HeapInv.

Open Scope Z_scope.

Section Grow.
Context {P : Type} `{PagesLaws P}.
Implicit Types (h : heap P).

(** The frames of the machine, [T], cover what is left and the heap's pages, so
    the heap stays below [0xFFFFFFFF00000000] on machines under 111 TiB. *)
Definition funded (T : Z) h : Prop :=
  pages_ok (pages h) /\ KHEAP_START_VIRT <= heap_end_virt h /\
  (heap_end_virt h - KHEAP_START_VIRT) mod PAGE_SIZE = 0 /\
  frames_left (pages h) * PAGE_SIZE + heap_end_virt h - KHEAP_START_VIRT <= T * PAGE_SIZE /\
  T * PAGE_SIZE < 0xFFFFFFFF00000000 - KHEAP_START_VIRT.

Lemma funded_end_ok T h : funded T h -> end_ok h.
Proof.
  intros (Hp&_&Hm&Hf&HT). split; [done|]. pose proof (frames_left_nonneg _ Hp). unfold PAGE_SIZE in *. lia.
Qed.

(** [h'] differs from [h] in its pages, its end and memory at [from] and above. *)
Definition same_below (from : Z) h h' : Prop :=
  first_block h' = first_block h /\ last_block h' = last_block h /\ free_lists h' = free_lists h /\
  total_allocated_bytes h' = total_allocated_bytes h /\ failed_allocations h' = failed_allocations h /\
  poison_damage h' = poison_damage h /\ poison_damage_fatal h' = poison_damage_fatal h /\
  (forall x, x < from -> mem h' x = mem h x).

Lemma same_below_trans from from' h1 h2 h3 :
  same_below from h1 h2 -> same_below from' h2 h3 -> from <= from' -> same_below from h1 h3.
Proof.
  intros (A1&A2&A3&A4&A5&A6&A7&A8) (B1&B2&B3&B4&B5&B6&B7&B8) ?.
  unfold same_below. split_and!; try congruence. intros x Hx. rewrite B8 by lia. by apply A8.
Qed.

(** The statistics of the heap. *)
Definition same_stats h h' : Prop :=
  total_allocated_bytes h' = total_allocated_bytes h /\ failed_allocations h' = failed_allocations h /\
  poison_damage h' = poison_damage h /\ poison_damage_fatal h' = poison_damage_fatal h.

(** The payloads of the blocks in use are as they were. *)
Definition kept (bs : list blk) h h' : Prop :=
  forall u x, u ∈ bs -> bfree u = false -> ba u + HEADER <= x < ba u + bsz u -> mem h' x = mem h x.

Lemma same_stats_trans h1 h2 h3 : same_stats h1 h2 -> same_stats h2 h3 -> same_stats h1 h3.
Proof. unfold same_stats. intuition congruence. Qed.

Lemma kept_trans bs h1 h2 h3 : kept bs h1 h2 -> kept bs h2 h3 -> kept bs h1 h3.
Proof. intros A B u x Hu Hf Hx. rewrite (B u) by done. by apply (A u). Qed.

(** A payload word of a block in use is nobody's link, and in no other block. *)
Lemma kept_intro bs h h' (Q : Z -> Prop) :
  blks_ok bs ->
  (forall u x, u ∈ bs -> bfree u = false -> ba u <= x < ba u + bsz u -> ~ Q x) ->
  (forall x, ~ Q x -> (forall b, b ∈ bs -> x <> at_prev_size (ba b)) -> ~ link_word (frees bs) x ->
     mem h' x = mem h x) ->
  kept bs h h'.
Proof.
  intros Hok Hc Hfr u x Hu Hf Hx. destruct (proj1 Hok u Hu) as (_&Hsz&_). unfold HEADER, MIN_BLOCK in *. apply Hfr.
  - apply (Hc u); [done..|lia].
  - intros b Hb ->. destruct (proj2 Hok u b Hu Hb) as [->|Ha]; unfold_at; [lia|].
    destruct (proj1 Hok b Hb) as (_&?&_). unfold apart, MIN_BLOCK in *. lia.
  - intros (b&Hb&Hx'). apply elem_of_frees in Hb as [Hb Hbf].
    destruct (link_outside bs u b x Hok Hu Hb) as [? ?]; [congruence|lia|]. tauto.
Qed.

(** The loop hands back page after page until the end is [new_end]. *)
Lemma shrink_heap_loop_spec T new_end : forall n h,
  funded T h -> KHEAP_START_VIRT <= new_end -> (new_end - KHEAP_START_VIRT) mod PAGE_SIZE = 0 ->
  heap_end_virt h - new_end <= Z.of_nat n * PAGE_SIZE -> new_end <= heap_end_virt h ->
  let h' := shrink_heap_loop n h new_end in
  funded T h' /\ heap_end_virt h' = new_end /\ mem h' = mem h /\ forall from, same_below from h h'.
Proof.
  induction n as [|n IH]; intros h Hf Hlo Hal Hn Hle; cbn [shrink_heap_loop]; cbn zeta.
  - split_and!; [done|lia|done|]. by intros.
  - zcase; [|split_and!; [done|lia|done|]; by intros].
    pose proof (funded_end_ok _ _ Hf) as [_ Hhi]. destruct Hf as (Hp&Hs&Hm&Hfr&HT).
    assert (heap_end_virt h - PAGE_SIZE >= new_end) as Hge by (unfold PAGE_SIZE in *; zlia).
    rewrite (u64_small (heap_end_virt h - PAGE_SIZE)) by (unfold PAGE_SIZE, KHEAP_START_VIRT in *; lia).
    simpl.
    set (h1 := set_pages (set_end h _) _).
    set (h2 := if _ =? 0 then h1 else _).
    assert (funded T h2 /\ heap_end_virt h2 = heap_end_virt h - PAGE_SIZE /\ mem h2 = mem h /\ (forall from, same_below from h h2)) as (A&B&C&D).
    { pose proof (page_unmap_ok (pages h) (heap_end_virt h - PAGE_SIZE) Hp) as Hu.
      pose proof (page_unmap_left (pages h) (heap_end_virt h - PAGE_SIZE) Hp) as Hul.
      subst h2. destruct (_ =? 0); subst h1; simpl; split_and!; try done.
      - unfold funded; simpl. split_and!; try done; unfold PAGE_SIZE in *; [lia|zlia|lia].
      - pose proof (page_phys_range (pages h) (heap_end_virt h - PAGE_SIZE)) as Hpr.
        pose proof (page_free_left _ (page_phys (pages h) (heap_end_virt h - PAGE_SIZE)) Hu Hpr).
        unfold funded; simpl. split_and!; try done; [by apply page_free_ok| | |];
          unfold PAGE_SIZE in *; [lia|zlia|lia]. }
    clearbody h2. clear h1. destruct (IH h2) as (E1&E2&E3&E4); [done..|unfold PAGE_SIZE in *; lia|lia|].
    split_and!; [done|done|congruence|]. intros from. apply (same_below_trans from from _ h2); [done|done|lia].
Qed.

Lemma shrink_heap_spec T h new_end :
  funded T h -> KHEAP_START_VIRT <= new_end <= heap_end_virt h ->
  (new_end - KHEAP_START_VIRT) mod PAGE_SIZE = 0 ->
  let h' := shrink_heap h new_end in
  funded T h' /\ heap_end_virt h' = new_end /\ mem h' = mem h /\ forall from, same_below from h h'.
Proof.
  intros Hf [? ?] Hal. apply shrink_heap_loop_spec; try done. unfold PAGE_SIZE. zlia.
Qed.

(** Expanding: all of the pages, or none. *)
Lemma expand_heap_loop_spec T old_end : forall n h,
  funded T h -> KHEAP_START_VIRT <= old_end <= heap_end_virt h ->
  (old_end - KHEAP_START_VIRT) mod PAGE_SIZE = 0 ->
  let '(ok, h') := expand_heap_loop n h old_end in
  funded T h' /\ heap_end_virt h' = (if ok then heap_end_virt h + Z.of_nat n * PAGE_SIZE else old_end) /\
  same_below (heap_end_virt h) h h'.
Proof.
  induction n as [|n IH]; intros h Hf Hold Hal; cbn [expand_heap_loop].
  { split_and!; [done|lia|]. by split_and!. }
  pose proof (funded_end_ok _ _ Hf) as [_ Hhi]. destruct Hf as (Hp&Hs&Hm&Hfr&HT).
  pose proof (page_alloc_ok _ Hp) as Ha. pose proof (page_alloc_left _ Hp) as Hal'.
  pose proof (page_alloc_range _ Hp) as Hrg.
  destruct (page_alloc (pages h)) as [phys p] eqn:Epa. simpl in Ha, Hal', Hrg.
  pose proof (frames_left_nonneg _ Ha).
  destruct (phys =? 0).
  - destruct (shrink_heap_spec T (set_pages h p) old_end) as (A&B&C&D); [|done|done|].
    + unfold funded; simpl. split_and!; try done. unfold PAGE_SIZE in *; lia.
    + split_and!; [done|done|]. apply (D (heap_end_virt h)).
  - simpl. pose proof (page_map_ok p (heap_end_virt h) phys Ha) as Hmo.
    pose proof (page_map_left p (heap_end_virt h) phys Ha) as Hml.
    destruct (page_map (heap_end_virt h) phys p) as [ok p'] eqn:Epm. simpl in *.
    pose proof (frames_left_nonneg _ Hmo).
    destruct ok; simpl.
    + rewrite u64_small by (unfold PAGE_SIZE, KHEAP_START_VIRT in *; lia).
      set (h1 := set_end _ _).
      specialize (IH h1). destruct (expand_heap_loop n h1 old_end) as [ok h'].
      assert (heap_end_virt h1 = heap_end_virt h + PAGE_SIZE) as He by done.
      destruct IH as (A&B&C).
      * unfold funded, h1; simpl. split_and!; try done; unfold PAGE_SIZE in *; [lia|zlia|lia].
      * unfold PAGE_SIZE in *. lia.
      * done.
      * split_and!; [done|destruct ok; unfold PAGE_SIZE in *; lia|].
        apply (same_below_trans _ (heap_end_virt h1) _ h1); [|done|unfold PAGE_SIZE in *; lia].
        unfold same_below. split_and!; try done. intros x Hx. unfold h1, map_view. simpl.
        destruct (Z.leb_spec (heap_end_virt h) x); [lia|done].
    + pose proof (page_free_left p' phys Hmo Hrg).
      match goal with |- context [shrink_heap ?X _] => destruct (shrink_heap_spec T X old_end) as (A&B&C&D) end;
        [|done|done|].
      * unfold funded; simpl. split_and!; try done; [by apply page_free_ok|]. unfold PAGE_SIZE in *; lia.
      * split_and!; [done|done|]. apply (D (heap_end_virt h)).
Qed.

(** One of the [n] pages from [virt] on cannot be had: no frame is left for it, or the page
    tables do not take it. *)
Fixpoint no_pages (n : nat) (virt : Z) (p : P) : Prop :=
  match n with
  | O => False
  | S n' =>
      frames_left p = 0 \/
      let '(phys, p) := page_alloc p in
      let '(ok, p) := page_map virt phys p in ok = false \/ no_pages n' (u64 (virt + PAGE_SIZE)) p
  end.

(** Expanding fails for no other reason. *)
Lemma expand_heap_fails old_end : forall n h, pages_ok (pages h) -> fst (expand_heap_loop n h old_end) = false -> no_pages n (heap_end_virt h) (pages h).
Proof.
  induction n as [|n IH]; intros h Hp; cbn [expand_heap_loop no_pages]; [done|]. pose proof (page_alloc_fails _ Hp) as Hf. pose proof (page_alloc_ok _ Hp) as Ha.
  destruct (page_alloc (pages h)) as [phys p]. cbn [fst snd] in *. destruct (Z.eqb_spec phys 0) as [->|_]; [intros _; left; by apply Hf|]. cbn [heap_end_virt pages set_pages].
  pose proof (page_map_ok p (heap_end_virt h) phys Ha) as Hm. destruct (page_map (heap_end_virt h) phys p) as [ok p']. cbn [fst snd] in *.
  destruct ok; [|by right; left]. cbn [negb]. intros E. right. right. by apply IH in E.
Qed.

(** The most that [grow_for] asks for. *)
Definition grow_pages (need : Z) : nat := Z.to_nat ((Z.max GROW_MIN need + PAGE_SIZE - 1) / PAGE_SIZE).

Lemma no_pages_more m n virt p : (m <= n)%nat -> no_pages m virt p -> no_pages n virt p.
Proof.
  revert n virt p. induction m as [|m IH]; intros n virt p Hmn; [done|]. destruct n as [|n]; [lia|]. cbn [no_pages]. intros [|Hm]; [by left|right].
  destruct (page_alloc p) as [phys p1]. destruct (page_map virt phys p1) as [ok p2]. destruct Hm as [|Hm]; [by left|right]. apply IH; [lia|done].
Qed.

Lemma expand_heap_spec T h bytes :
  funded T h -> 0 < bytes < 0x1000000000000 ->
  let '(ok, h') := expand_heap h bytes in
  funded T h' /\ same_below (heap_end_virt h) h h' /\
  heap_end_virt h' = heap_end_virt h + (if ok then page_align_up bytes else 0) /\ bytes <= page_align_up bytes.
Proof.
  intros Hf Hb. pose proof (expand_heap_loop_spec T (heap_end_virt h) (Z.to_nat (u64 (bytes + PAGE_SIZE - 1) / PAGE_SIZE)) h) as HX.
  unfold expand_heap. destruct (expand_heap_loop _ _ _) as [ok h']. destruct HX as (A&B&C); [done|..].
  - destruct Hf as (_&?&_). lia.
  - apply Hf.
  - rewrite u64_small in * by (unfold PAGE_SIZE; lia). rewrite page_align_up_eq by lia.
    split_and!; [done|done|destruct ok; unfold PAGE_SIZE in *; zlia|zlia].
Qed.

(** ** The invariant under writes past the end *)

Lemma lists_ok_below (m m' : Z -> Z) fl fls bs a p e :
  seg m a p bs e -> (forall x, x < e -> m' x = m x) ->
  lists_ok m fl fls (frees bs) -> lists_ok m' fl fls (frees bs).
Proof.
  intros Hs Hm [B1 B2 B3 B4 B5]. split; try done.
  intros k Hk. eapply dllseg_frame; [|by apply B3]. intros c Hc.
  apply B5 in Hc as (b&Hb&<-&_); [|done]. apply elem_of_frees in Hb as [Hb _].
  destruct (seg_bounds _ _ _ _ _ _ Hs Hb) as (?&?&(_&?&_)). unfold MIN_BLOCK in *.
  split; apply Hm; unfold_at; lia.
Qed.

Lemma seg_below (m m' : Z -> Z) bs a p e :
  seg m a p bs e -> (forall x, x < e -> m' x = m x) -> seg m' a p bs e.
Proof. intros Hs Hm. eapply seg_frame; [done|]. intros x Hx _. apply Hm. lia. Qed.

Lemma shape_below h h' bs fls :
  shape h bs fls -> same_below (heap_end_virt h) h h' -> heap_end_virt h' = heap_end_virt h -> shape h' bs fls.
Proof.
  intros [S1 S2 S3 S4 S5 S6 S7] (A1&A2&A3&_&_&_&_&A8) He.
  split; try congruence.
  - rewrite He. by eapply seg_below.
  - rewrite A3. by eapply lists_ok_below.
  - unfold end_ok in *. by rewrite He.
Qed.

(** The last block, held out, takes another size as the end moves. *)
Lemma open_resize h h' l1 b q fls sz :
  open h l1 b [] q fls -> blk_ok (Blk (ba b) sz false) -> end_ok h' -> heap_end_virt h' = ba b + sz ->
  first_block h' = first_block h -> last_block h' = last_block h -> free_lists h' = free_lists h ->
  (forall x, x < ba b \/ x = at_prev_size (ba b) -> mem h' x = mem h x) ->
  header_is h' (Blk (ba b) sz false) ->
  open h' l1 (Blk (ba b) sz false) [] sz fls.
Proof.
  intros [O1 O2 O3 O4 O5 O6 O7 O8 O9 O10 O11] Hok He Hend E1 E2 E3 Hm Hh.
  assert (forall x, x < ba b -> mem h' x = mem h x) as Hm' by auto.
  split; try done; try congruence.
  - by eapply seg_below.
  - simpl. rewrite Hm by tauto. done.
  - rewrite E3. change (frees []) with (@nil blk) in *. rewrite app_nil_r in *. by eapply lists_ok_below.
  - by rewrite E2, O10.
Qed.

(** A new last block, held out, past the old end. *)
Lemma open_append h h' bs fls sz :
  shape h bs fls -> blk_ok (Blk (heap_end_virt h) sz false) -> end_ok h' ->
  heap_end_virt h' = heap_end_virt h + sz ->
  first_block h' = first_block h -> last_block h' = heap_end_virt h -> free_lists h' = free_lists h ->
  (forall x, x < heap_end_virt h -> mem h' x = mem h x) ->
  mem h' (at_prev_size (heap_end_virt h)) = prev_of 0 bs ->
  header_is h' (Blk (heap_end_virt h) sz false) ->
  open h' bs (Blk (heap_end_virt h) sz false) [] sz fls.
Proof.
  intros [S1 S2 S3 S4 S5 S6 S7] Hok He Hend E1 E2 E3 Hm Hp Hh. split; try done; try congruence.
  - by eapply seg_below.
  - rewrite E3. change (frees []) with (@nil blk). rewrite app_nil_r. by eapply lists_ok_below.
Qed.

(** ** The trim at the end of kfree *)

(** Only a block at the very end gives pages back, and it keeps the poison. *)
Lemma kfree_trim_spec T h l1 b l2 fls :
  open h l1 b l2 (bsz b) fls -> clean h b -> funded T h ->
  let h' := kfree_trim h (ba b) in
  exists sz, MIN_BLOCK <= sz <= bsz b /\
    open h' l1 (Blk (ba b) sz false) l2 sz fls /\ clean h' (Blk (ba b) sz false) /\ funded T h' /\
    same_stats h h' /\ (forall x, x <> ba b -> mem h' x = mem h x).
Proof.
  intros Ho Hcl Hf. cbn zeta. pose proof (op_ok _ _ _ _ _ _ Ho) as (Hb1&Hb2&Hb3).
  assert (exists sz, MIN_BLOCK <= sz <= bsz b /\
    open h l1 (Blk (ba b) sz false) l2 sz fls /\ clean h (Blk (ba b) sz false) /\ funded T h /\
    same_stats h h /\ (forall x, x <> ba b -> mem h x = mem h x)) as Hkeep.
  { exists (bsz b). split_and!; try done; [lia|]. by apply (open_flag _ _ b). }
  unfold kfree_trim. rewrite size_of_header by apply Ho.
  destruct (Z.eqb_spec (ba b) (last_block h)) as [Hlast|]; [|done].
  destruct (Z.leb_spec KHEAP_TRIM_THRESHOLD (bsz b)) as [Hbig|]; [|done]. cbn [andb].
  set (floor := KHEAP_START_VIRT + KHEAP_INITIAL_SIZE).
  set (ne := if _ <? floor then _ else _).
  destruct (Z.ltb_spec ne (heap_end_virt h)) as [Hlt|]; [|done].
  pose proof (open_last_nil _ _ _ _ _ _ Ho (eq_sym Hlast)) as ->.
  pose proof (open_ends _ _ _ _ _ _ Ho) as [E1 E2].
  pose proof (funded_end_ok _ _ Hf) as [Hm Hhi].
  assert ((ne - KHEAP_START_VIRT) mod PAGE_SIZE = 0 /\ ba b + 4096 <= ne /\ KHEAP_START_VIRT <= ne) as (N1&N2&N3).
  { unfold ne. rewrite page_align_up_eq by (unfold MIN_BLOCK, HEADER, KHEAP_TRIM_KEEP, KHEAP_START_VIRT in *; lia).
    unfold floor, HEADER, KHEAP_TRIM_KEEP, KHEAP_START_VIRT, KHEAP_INITIAL_SIZE, PAGE_SIZE in *. zcase; zlia. }
  clearbody ne. destruct (shrink_heap_spec T h ne Hf) as (F1&F2&F3&F4); [lia|done|].
  destruct (F4 0) as (G1&G2&G3&G4&G5&G6&G7&_).
  pose proof (op_right _ _ _ _ _ _ Ho) as Hend. cbn [seg] in Hend.
  set (h1 := shrink_heap h ne) in *. rewrite F2.
  assert (0 < ba b) by apply Hb1.
  assert (blk_ok (Blk (ba b) (ne - ba b) false)) as Hok.
  { unfold blk_ok, MIN_BLOCK, PAGE_SIZE, KHEAP_START_VIRT, addr_ok in *. cbn [ba bsz]. zlia. }
  pose proof Hok as (_&Hsz&_). cbn [bsz] in Hsz. unfold MIN_BLOCK in *.
  rewrite u64_small by lia. exists (ne - ba b). simpl.
  assert (forall x, x <> ba b -> write (mem h1) (at_size (ba b)) (ne - ba b) x = mem h x) as Hw.
  { intros x Hx. rewrite write_ne by (unfold_at; lia). by rewrite F3. }
  split_and!; try done; [lia|lia| |].
  - eapply open_resize; try done; simpl; try congruence.
    + by apply (funded_end_ok T).
    + lia.
    + intros x Hx. apply Hw. unfold_at. lia.
    + left. simpl. apply write_eq.
  - intros x Hx. cbn [ba bsz] in *. unfold MIN_BLOCK in *. simpl. rewrite Hw by lia. apply Hcl. unfold MIN_BLOCK. lia.
Qed.

(** ** Growing *)

Lemma shape_snoc h bs fls :
  shape h bs fls -> exists l1 b, bs = l1 ++ [b] /\ last_block h = ba b /\ blk_ok b /\
    is_free h (ba b) = bfree b /\ header_is h b /\ ba b + bsz b = heap_end_virt h.
Proof.
  intros Hs. destruct bs as [|b l1 _] using rev_ind; [by destruct Hs|]. exists l1, b.
  destruct (shape_split _ _ _ _ _ Hs) as (e&E&_&Hok&Hw&S&_&_&_&HL). subst e. cbn [seg] in S.
  pose proof (sh_seg _ _ _ Hs) as Hseg. apply seg_app in Hseg as (e&_&Hseg).
  destruct (seg_is_free _ _ _ _ _ _ Hseg) as [? ?]. unfold lastb in HL. simpl in HL. done.
Qed.

(** Taking a block off its list does not look at the end. *)
Lemma unlink_free_end h e b m fl :
  unlink_free (set_end h e) b = set_lists (set_end h e) m fl -> unlink_free h b = set_lists h m fl.
Proof.
  destruct h as [m0]. unfold unlink_free, set_lists, set_end, set_free_list, store, set_mem, size_of, load. simpl.
  destruct (m0 (at_prev b) =? 0); simpl; destruct (_ =? 0); simpl; intros [= <- <-]; done.
Qed.

(** The two ways the new room becomes a free block at the end. *)
Lemma grow_last T h h1 l1 b fls added :
  shape h (l1 ++ [b]) fls -> bfree b = true -> funded T h1 -> same_below (heap_end_virt h) h h1 ->
  heap_end_virt h1 = heap_end_virt h + added -> 0 < added -> added mod 16 = 0 ->
  let h2 := poison h1 (heap_end_virt h) added in
  let h3 := unlink_free h2 (last_block h2) in
  let h4 := store h3 (at_size (last_block h3)) (u64 (size_of h3 (last_block h3) + added)) in
  let h' := insert_free h4 (last_block h4) in
  exists fls', shape h' (l1 ++ [Blk (ba b) (bsz b + added) true]) fls' /\ funded T h' /\ same_stats h h' /\
    (forall x, ~ (ba b <= x) -> ~ link_word (frees l1) x -> mem h' x = mem h x).
Proof.
  intros Hs Hf Hfu Hsb He Ha0 Ha. cbn zeta.
  destruct (shape_snoc _ _ _ Hs) as (l1'&b'&Heq&HL&Hok&_&Hhd&Hend). apply app_inj_tail in Heq as [<- <-].
  pose proof Hsb as (B1&B2&B3&B4&B5&B6&B7&B8).
  set (e := heap_end_virt h) in *. set (h2 := poison h1 e added).
  assert (shape (set_end h2 e) (l1 ++ [b]) fls) as Hs2.
  { apply (shape_below h); [done| |done]. unfold same_below. simpl. split_and!; try done.
    intros x Hx. unfold fill. destruct (Z.leb_spec e x); [unfold e in *; lia|]. by apply B8. }
  destruct (open_unlink _ _ _ _ _ Hs2 Hf) as (m'&fl'&fls1&Hu&Ho&Hcl&Hl1&Hl2&Hh&Hfr).
  apply unlink_free_end in Hu. pose proof (op_prev _ _ _ _ _ _ Ho) as Hp. pose proof (op_lists _ _ _ _ _ _ Ho) as Hlo.
  assert (last_block h2 = ba b) as HL2 by (simpl; congruence). rewrite HL2, Hu.
  cbn [last_block set_lists store set_mem h2 poison].
  pose proof Hok as ((?&?)&?&?). unfold MIN_BLOCK in *.
  pose proof (funded_end_ok _ _ Hfu) as [_ Hhi]. 
  rewrite B2, HL. rewrite (size_of_header _ b) by (done || (right; done)).
  rewrite u64_small by (unfold e in *; lia).
  set (h4 := store _ _ _). set (nb := Blk (ba b) (bsz b + added) false).
  assert (open h4 l1 nb [] (bsz nb) fls1) as Ho4.
  { apply (open_resize _ _ _ b _ _ _ Ho); simpl; try done; try congruence.
    - unfold blk_ok, MIN_BLOCK, addr_ok. cbn [ba bsz]. unfold e in *. zlia.
    - by apply (funded_end_ok T).
    - unfold e in *; lia.
    - intros x Hx. apply write_ne. unfold_at. lia.
    - left. apply write_eq. }
  assert (clean h4 nb) as Hcl4.
  { intros x Hx. simpl in *. rewrite write_ne by (unfold_at; unfold MIN_BLOCK in *; lia).
    destruct (decide (x < e)) as [Hlt|Hge].
    - apply Hcl. unfold e in *. lia.
    - rewrite Hfr by (rewrite app_nil_r; intros Hn; apply (seg_links _ _ _ _ _ _ (op_left _ _ _ _ _ _ Ho)) in Hn; lia).
      simpl. unfold fill. unfold e in *. zcase; [done|]. zbool. lia. }
  destruct (close_free _ _ _ _ _ Ho4 Hcl4 Hl1 eq_refl) as (m5&fl5&fls5&Hi&Hs5&Hfr5).
  match goal with |- context [shape ?h' _ _] => set (h5 := h') end.
  assert (h5 = set_lists h4 m5 fl5) as -> by exact Hi. exists fls5. split_and!; try done.
  intros x Hx Hn. cbn [mem set_lists]. rewrite Hfr5. unfold h4. cbn [mem set_lists store set_mem].
  rewrite write_ne, Hfr.
  - simpl. unfold fill. destruct (Z.leb_spec e x); [unfold e in *; lia|]. apply B8. unfold e in *. lia.
  - by rewrite app_nil_r.
  - unfold_at. lia.
  - simpl. lia.
  - rewrite app_nil_r, link_word_cons. simpl. unfold_at. intros [|[|]]; [lia|lia|done].
Qed.

Lemma grow_fresh T h h1 bs fls added :
  shape h bs fls -> free_of false bs = false -> funded T h1 -> same_below (heap_end_virt h) h h1 ->
  heap_end_virt h1 = heap_end_virt h + added -> MIN_BLOCK <= added -> added mod 16 = 0 ->
  let h2 := poison h1 (heap_end_virt h) added in
  let h3 := store h2 (at_size (heap_end_virt h)) added in
  let h4 := store h3 (at_prev_size (heap_end_virt h)) (size_of h3 (last_block h3)) in
  let h' := insert_free (set_last_block h4 (heap_end_virt h)) (heap_end_virt h) in
  exists fls', shape h' (bs ++ [Blk (heap_end_virt h) added true]) fls' /\ funded T h' /\ same_stats h h' /\
    (forall x, ~ (heap_end_virt h <= x) -> ~ link_word (frees bs) x -> mem h' x = mem h x).
Proof.
  intros Hs Hf Hfu (B1&B2&B3&B4&B5&B6&B7&B8) He Ha0 Ha. cbn zeta. unfold MIN_BLOCK in *.
  destruct (shape_snoc _ _ _ Hs) as (l1&b&Heq&HL&Hok&_&Hhd&Hend).
  pose proof Hok as ((?&?)&?&?). unfold MIN_BLOCK in *. pose proof (funded_end_ok _ _ Hfu) as [Hal Hhi].
  set (h3 := store _ (at_size _) added). set (h5 := set_last_block _ _). set (nb := Blk (heap_end_virt h) added false).
  assert (size_of h3 (last_block h3) = bsz b) as Hsz.
  { simpl. rewrite B2, HL. apply size_of_header; [done|]. unfold header_is, h3. simpl.
    rewrite write_ne by (unfold_at; lia). unfold fill. destruct (Z.leb_spec (heap_end_virt h) (ba b)); [lia|].
    simpl. rewrite B8 by lia. done. }
  assert (forall x, x < heap_end_virt h -> mem h5 x = mem h x) as Hlow.
  { intros x Hx. simpl. rewrite !write_ne by (unfold_at; lia). unfold fill.
    destruct (Z.leb_spec (heap_end_virt h) x); [lia|]. simpl. by apply B8. }
  assert (open h5 bs nb [] (bsz nb) fls) as Ho.
  { apply (open_append h); simpl; try done.
    - unfold blk_ok, addr_ok, MIN_BLOCK. cbn [ba bsz]. zlia.
    - rewrite write_eq; simpl in Hsz; rewrite Hsz, Heq, prev_of_app. done.
    - left. simpl. rewrite write_ne by (unfold_at; lia). apply write_eq. }
  assert (clean h5 nb) as Hcl.
  { intros x Hx. simpl in *. unfold MIN_BLOCK in *. rewrite !write_ne by (unfold_at; lia).
    unfold fill. zcase; [done|]. zbool. lia. }
  destruct (close_free _ _ _ _ _ Ho Hcl Hf eq_refl) as (m5&fl5&fls5&Hi&Hs5&Hfr5).
  match goal with |- context [shape ?h' _ _] => set (h6 := h') end.
  assert (h6 = set_lists h5 m5 fl5) as -> by exact Hi. exists fls5. split_and!; try done.
  intros x Hx Hn. cbn [mem set_lists]. rewrite Hfr5; [apply Hlow; lia|simpl; lia|].
  rewrite app_nil_r, link_word_cons. simpl. unfold_at. intros [|[|]]; [lia|lia|done].
Qed.

Lemma shape_blks_ok h bs fls : shape h bs fls -> blks_ok bs.
Proof. intros []. split; by eapply seg_blks_ok. Qed.

(** Growing adds a free block that fits at the end, or changes nothing. *)
(** Growing fails only when the pages cannot be had. *)
Lemma grow_for_fails T h bs fls need :
  shape h bs fls -> funded T h -> MIN_BLOCK <= need < 0x100000000 -> (forall b, b ∈ bs -> bfree b = true -> bsz b < need) ->
  fst (grow_for h need) = false -> no_pages (grow_pages need) (heap_end_virt h) (pages h).
Proof.
  intros Hs Hf Hneed Hsmall. destruct (shape_snoc _ _ _ Hs) as (l1&b&->&HL&Hok&Hfree&Hhd&Hend). pose proof Hok as (_&Hbsz&_). unfold MIN_BLOCK in *.
  unfold grow_for. rewrite HL, Hfree, size_of_header by done. cbn zeta. set (more := if _ <? GROW_MIN then _ else _).
  assert (0 < more <= Z.max GROW_MIN need) as Hm.
  { unfold more, GROW_MIN. specialize (Hsmall b ltac:(set_solver)). destruct (bfree b); [specialize (Hsmall eq_refl)|]; rewrite u64_small by lia; zcase; lia. }
  clearbody more. pose proof (expand_heap_fails (heap_end_virt h) (Z.to_nat (u64 (more + PAGE_SIZE - 1) / PAGE_SIZE)) h (proj1 Hf)) as HX. unfold expand_heap.
  destruct (expand_heap_loop _ h _) as [ok h1]. cbn [fst] in HX. destruct ok; cbn [negb]; [match goal with |- context [if ?b then _ else _] => by destruct b end|]. intros _. specialize (HX eq_refl).
  eapply no_pages_more; [|exact HX]. unfold grow_pages. rewrite u64_small by (unfold GROW_MIN, PAGE_SIZE in *; lia). apply Z2Nat.inj_le; unfold GROW_MIN, PAGE_SIZE in *; zlia.
Qed.

Lemma grow_for_spec T h bs fls need :
  shape h bs fls -> funded T h -> MIN_BLOCK <= need < 0x100000000 ->
  (forall b, b ∈ bs -> bfree b = true -> bsz b < need) ->
  let '(ok, h') := grow_for h need in
  funded T h' /\ same_stats h h' /\ kept bs h h' /\
  if ok then exists l1 ls c fls', bs = l1 ++ ls /\ Forall (fun b => bfree b = true) ls /\
               bfree c = true /\ need <= bsz c /\ shape h' (l1 ++ [c]) fls'
  else shape h' bs fls.
Proof.
  intros Hs Hf Hneed Hsmall. pose proof (shape_blks_ok _ _ _ Hs) as Hbok.
  destruct (shape_snoc _ _ _ Hs) as (l1&b&->&HL&Hok&Hfree&Hhd&Hend).
  pose proof Hok as (_&Hbsz&_). unfold MIN_BLOCK in *.
  unfold grow_for. rewrite HL, Hfree, size_of_header by done. cbn zeta.
  set (more := if _ <? GROW_MIN then _ else _).
  assert (0 < more < 0x1000000000000 /\ (if bfree b then need - bsz b <= more else need <= more)) as [Hm Hm'].
  { unfold more, GROW_MIN. specialize (Hsmall b ltac:(set_solver)).
    destruct (bfree b); [specialize (Hsmall eq_refl)|]; rewrite u64_small by lia; zcase; lia. }
  clearbody more. pose proof (expand_heap_spec T h more Hf Hm) as HX.
  destruct (expand_heap h more) as [ok h1]. destruct HX as (F1&F2&F3&F4).
  destruct ok; cbn [negb].
  2: { pose proof F2 as (_&_&_&?&?&?&?&F8). split_and!; try done.
       - intros u x Hu _ Hx. apply F8. destruct (seg_bounds _ _ _ _ _ _ (sh_seg _ _ _ Hs) Hu) as (?&?&_). lia.
       - eapply shape_below; [done..|lia]. }
  assert (page_align_up more mod 4096 = 0) as Hal.
  { rewrite page_align_up_eq by lia. apply Z.mod_mul. done. }
  assert (u64 (heap_end_virt h1 - heap_end_virt h) = page_align_up more) as Hadd.
  { rewrite F3. replace (_ + _ - _) with (page_align_up more) by lia.
    apply u64_small. rewrite page_align_up_eq in * by lia. zlia. }
  rewrite Hadd. set (added := page_align_up more) in *. clearbody added.
  set (h2 := poison h1 (heap_end_virt h) added).
  pose proof F2 as (_&F2L&_&_&_&_&_&F2m).
  assert (last_block h2 = ba b) as HL2 by (simpl; congruence).
  assert (is_free h2 (last_block h2) = bfree b) as Hfree2.
  { rewrite HL2, <- Hfree. unfold is_free, load, at_size. simpl. unfold fill.
    destruct (Z.leb_spec (heap_end_virt h) (ba b)); [lia|]. simpl. rewrite F2m by lia. done. }
  rewrite Hfree2. destruct (bfree b) eqn:Eb.
  - destruct (grow_last T h h1 l1 b fls added) as (fls'&G1&G2&G3&G4); [done..|lia|zlia|].
    fold h2 in G1, G2, G3, G4. split_and!; [done|done| |].
    + apply (kept_intro _ _ _ (fun x => ba b <= x)); [done| |].
      * intros u x [Hu|Hu]%elem_of_app Huf Hx; [|apply list_elem_of_singleton in Hu; congruence].
        destruct (shape_split _ _ _ _ _ Hs) as (e&<-&S1&_). destruct (seg_bounds _ _ _ _ _ _ S1 Hu) as (?&?&_). lia.
      * intros x Hx _ Hn. apply G4; [done|]. intros Hl. apply Hn. rewrite frees_app. apply link_word_app. tauto.
    + eexists l1, [b], _, fls'. split_and!; [done|by constructor| | |exact G1]; simpl; [done|lia].
  - destruct (grow_fresh T h h1 (l1 ++ [b]) fls added) as (fls'&G1&G2&G3&G4); [done| |done..|unfold MIN_BLOCK; lia|zlia|].
    { by rewrite free_of_app. }
    fold h2 in G1, G2, G3, G4. split_and!; [done|done| |].
    + apply (kept_intro _ _ _ (fun x => heap_end_virt h <= x)); [done| |by intros x Hx _; apply G4].
      intros u x Hu Huf Hx. destruct (seg_bounds _ _ _ _ _ _ (sh_seg _ _ _ Hs) Hu) as (?&?&_). lia.
    + eexists (l1 ++ [b]), [], _, fls'. split_and!; [by rewrite app_nil_r|by constructor| | |exact G1]; simpl; [done|lia].
Qed.

End Grow.
