(* ===== verification/HeapOps.v ===== *)
(** The kernel heap, continued: finding and carving a block, [kmalloc],
    [kfree], [kheap_init] and [kheap_check]. *)
From stdpp Require Import base tactics numbers list sets.
From Stdlib Require Import ZArith Lia.
From S2P Require Import Prelude Pmm Pages Heap HeapLists HeapInv HeapGrow.

Open Scope Z_scope.

(** * Poison *)

(** Reading poison back byte by byte. *)
Lemma poison_byte (m : Z -> Z) p : m (p - p mod 8) = POISON_WORD -> read_byte m p = POISON.
Proof.
  intros Hm. unfold read_byte. rewrite Hm. pose proof (Z.mod_pos_bound p 8 ltac:(lia)).
  assert (p mod 8 = 0 \/ p mod 8 = 1 \/ p mod 8 = 2 \/ p mod 8 = 3 \/ p mod 8 = 4 \/ p mod 8 = 5 \/ p mod 8 = 6 \/ p mod 8 = 7)
    as Hc by lia.
  destruct Hc as [->|[->|[->|[->|[->|[->|[->| ->]]]]]]]; reflexivity.
Qed.

Lemma scan_words_poisoned m e : forall n p,
  (forall x, p <= x < e -> m x = POISON_WORD) -> (e - p) mod 8 = 0 -> p <= e -> e - p < 8 * Z.of_nat n ->
  scan_words m n p e = e.
Proof.
  induction n as [|n IH]; intros p Hm Hal Hle Hn; [lia|]. cbn [scan_words]. zcase.
  - rewrite Hm by lia. rewrite Z.eqb_refl. cbn [negb]. apply IH; [|zlia|zlia|lia].
    intros x Hx. apply Hm. lia.
  - zlia.
Qed.

(** A poisoned range of whole words has no other byte in it. *)
Lemma first_unpoisoned_none m from bytes :
  poisoned m from bytes -> from mod 8 = 0 -> bytes mod 8 = 0 -> 0 <= bytes -> first_unpoisoned m from bytes = 0.
Proof.
  intros Hp Hf Hb H0. unfold first_unpoisoned. cbn [scan_bytes_aligned].
  assert (Z.land from 7 =? 0 = true) as ->.
  { apply Z.eqb_eq. change 7 with (Z.ones 3). rewrite Z.land_ones by lia. done. }
  cbn [negb]. rewrite andb_false_r. rewrite scan_words_poisoned; [|exact Hp|zlia|lia|].
  - cbn [scan_bytes]. by rewrite Z.ltb_irrefl.
  - rewrite Nat2Z.inj_succ || idtac. zlia.
Qed.

Section Ops.
Context {P : Type} `{PagesLaws P}.
Implicit Types (h : heap P).

(** * Finding a block *)

Lemma take_first_fit_spec h need (F : list blk) : forall l p n,
  dllseg (mem h) p l 0 -> (length l < n)%nat ->
  (forall a, a ∈ l -> exists b, b ∈ F /\ ba b = a /\ blk_ok b /\ header_is h b) ->
  let r := take_first_fit n h (hd 0 l) need in
  (r = 0 /\ (forall b, b ∈ F -> ba b ∈ l -> (forall c, c ∈ F -> ba c = ba b -> c = b) -> bsz b < need)) \/
  (r <> 0 /\ exists b, b ∈ F /\ ba b = r /\ r ∈ l /\ need <= bsz b).
Proof.
  induction l as [|a l IH]; intros p n Hd Hn Hl; destruct n as [|n]; simpl in Hn; try lia; cbn [take_first_fit hd].
  - left. split; [done|]. set_solver.
  - destruct (Hl a ltac:(set_solver)) as (b&Hb&<-&Hok&Hh). pose proof Hok as ((Hb0&_)&_).
    destruct (Z.eqb_spec (ba b) 0); [lia|]. rewrite size_of_header by done.
    destruct (Z.leb_spec need (bsz b)).
    + right. split; [done|]. exists b. split_and!; [done|done|set_solver|done].
    + cbn [dllseg] in Hd. destruct Hd as (_&Hnx&Hd). unfold load. rewrite Hnx.
      destruct (IH (ba b) n Hd ltac:(lia)) as [[-> Hlt]|(Hne&c&Hc&Hr&Hin&Hge)].
      * intros a' Ha'. apply Hl. set_solver.
      * left. split; [done|]. intros c Hc Hin Hu. apply elem_of_cons in Hin as [Heq|Hin].
        -- assert (b = c) as <- by auto. done.
        -- by apply Hlt.
      * right. split; [done|]. exists c. split_and!; [done|done|set_solver|done].
Qed.

Lemma take_larger_spec h (fls : Z -> list Z) : forall n j,
  (forall k, 0 <= k < 48 -> get (free_lists h) k = hd 0 (fls k)) -> (forall k a, 0 <= k < 48 -> a ∈ fls k -> a <> 0) ->
  0 <= j -> 48 - j <= Z.of_nat n ->
  let r := take_larger n h j in
  (r = 0 /\ forall k, j <= k < 48 -> fls k = []) \/ (r <> 0 /\ exists k, j <= k < 48 /\ r ∈ fls k).
Proof.
  induction n as [|n IH]; intros j Hh Hne Hj Hn; cbn [take_larger]; [left; split; [done|lia]|].
  destruct (Z.ltb_spec j CLASSES) as [Hlt|Hge]; unfold CLASSES in *; [|left; split; [done|lia]].
  rewrite Hh by lia. destruct (fls j) as [|a l] eqn:E; cbn [hd].
  - rewrite Z.eqb_refl. destruct (IH (j + 1) Hh Hne) as [[Hr Hk]|(Hr&k&Hk&Hin)]; [lia|lia| |].
    + left. split; [done|]. intros k Hk'. destruct (decide (k = j)) as [->|]; [done|]. apply Hk. lia.
    + right. split; [done|]. exists k. split; [lia|done].
  - assert (a <> 0) as Ha by (apply (Hne j); [lia|rewrite E; set_solver]).
    destruct (Z.eqb_spec a 0); [lia|]. right. split; [done|]. exists j. split; [lia|]. rewrite E. set_solver.
Qed.

Lemma class_of_mono a b : 0 < a <= b -> class_of a <= class_of b.
Proof. intros ?. rewrite !class_of_log2 by lia. pose proof (Z.log2_le_mono a b). lia. Qed.

Lemma class_of_lt a b : 0 < a -> 0 < b -> class_of a < class_of b -> a < b.
Proof.
  intros ??. rewrite !class_of_log2 by lia. intros Hlt. apply Z.log2_lt_cancel. lia.
Qed.

(** The bound on the length of a list suffices. *)
Lemma list_bound_enough h bs fls k :
  shape h bs fls -> 0 <= k < 48 -> (length (fls k) < list_bound h)%nat.
Proof.
  intros Hs Hk. destruct (sh_lists _ _ _ Hs) as [_ _ _ D E].
  assert (length (fls k) <= length bs)%nat as Hle.
  { rewrite <- (length_map ba bs). apply submseteq_length, NoDup_submseteq; [by apply D|].
    intros a Ha. apply E in Ha as (b&Hb&<-&_); [|done]. apply elem_of_frees in Hb as [Hb _].
    apply list_elem_of_fmap. by exists b. }
  pose proof (seg_length _ _ _ _ _ (sh_seg _ _ _ Hs)). unfold list_bound, MIN_BLOCK. zlia.
Qed.

(** [take_free] takes a block that is large enough off its list; if it finds
    none, every free block is too small. *)
Lemma take_free_spec h bs fls need :
  shape h bs fls -> 0 < need ->
  let '(r, h') := take_free h need in
  (r = 0 /\ h' = h /\ (forall b, b ∈ bs -> bfree b = true -> bsz b < need)) \/
  (r <> 0 /\ h' = unlink_free h r /\
   exists l1 c l2, bs = l1 ++ c :: l2 /\ ba c = r /\ bfree c = true /\ need <= bsz c).
Proof.
  intros Hs Hneed. pose proof (shape_blks_ok _ _ _ Hs) as Hbok. pose proof (class_of_range need Hneed) as Hk.
  pose proof (sh_lists _ _ _ Hs) as [LA LB LC LD LE].
  assert (forall b, b ∈ frees bs -> blk_ok b /\ header_is h b) as Hok.
  { intros b [Hb Hf]%elem_of_frees. split; [by apply Hbok|]. apply list_elem_of_split in Hb as (l1&l2&->).
    destruct (shape_split _ _ _ _ _ Hs) as (e&_&_&_&(W&_)&_). right. by rewrite W, Hf. }
  assert (forall b, b ∈ frees bs -> need <= bsz b -> exists l1 c l2, bs = l1 ++ c :: l2 /\ ba c = ba b /\ bfree c = true /\ need <= bsz c) as Hfin.
  { intros b [Hb Hf]%elem_of_frees Hge. apply list_elem_of_split in Hb as (l1&l2&->). by exists l1, b, l2. }
  unfold take_free. rewrite LB by done.
  pose proof (take_first_fit_spec h need (frees bs) (fls (class_of need)) 0 (list_bound h)) as HF.
  destruct HF as [[HF Hnone]|(HF&b&Hb&Hr&_&Hge)]; [by apply LC|by eapply list_bound_enough| | |].
  { intros a Ha. apply LE in Ha as (b&Hb&<-&_); [|done]. exists b. split_and!; try done; by apply Hok. }
  - rewrite HF, Z.eqb_refl. cbn [negb].
    pose proof (take_larger_spec h fls (Z.to_nat CLASSES) (class_of need + 1)) as HL.
    destruct HL as [[HL Hempty]|(HL&k&Hk'&Hin)]; [done| |lia|unfold CLASSES; lia| |].
    { intros k a Hk' Ha. apply LE in Ha as (b&Hb&<-&_); [|done]. destruct (Hok b Hb) as [((?&_)&_) _]. lia. }
    + rewrite HL, Z.eqb_refl. cbn [negb]. left. split_and!; [done|done|]. intros b Hb Hf.
      assert (b ∈ frees bs) as Hbf by (by apply elem_of_frees). destruct (Hok b Hbf) as [(_&Hsz&_) _].
      unfold MIN_BLOCK in *. destruct (Z.lt_ge_cases (bsz b) need) as [|Hge]; [done|].
      pose proof (class_of_mono need (bsz b) ltac:(lia)) as Hmono. pose proof (class_of_range (bsz b) ltac:(lia)) as Hr.
      destruct (decide (class_of (bsz b) = class_of need)) as [Heq|Hne].
      * apply Hnone; [done|apply LE; [done|by exists b]|]. intros c Hc Hcb.
        apply (blks_ok_inj bs); [done| |done|done]. by apply elem_of_frees in Hc as [? _].
      * specialize (Hempty (class_of (bsz b)) ltac:(lia)).
        assert (ba b ∈ fls (class_of (bsz b))) as Hin by (apply LE; [lia|by exists b]). rewrite Hempty in Hin. by apply not_elem_of_nil in Hin.
    + apply Z.eqb_neq in HL as HL'. rewrite HL'. cbn [negb]. right. split_and!; [done|done|].
      apply LE in Hin as (b&Hb&<-&Hcl); [|lia]. apply Hfin; [done|]. destruct (Hok b Hb) as [(_&Hsz&_) _].
      apply Z.lt_le_incl, class_of_lt; unfold MIN_BLOCK in *; lia.
  - apply Z.eqb_neq in HF as HF'. rewrite HF'. cbn [negb]. right. split_and!; [done|done|]. rewrite <- Hr. by apply Hfin.
Qed.

(** * Carving *)

Lemma frees_snoc_used l a s : frees (l ++ [Blk a s false]) = frees l.
Proof. rewrite frees_app. apply app_nil_r. Qed.

(** The block held out becomes two: one in use and the rest, held out. *)
Lemma open_carve h l1 c l2 q fls need (m' : Z -> Z) :
  open h l1 c l2 q fls -> MIN_BLOCK <= need -> need mod 16 = 0 -> need + MIN_BLOCK <= bsz c ->
  (forall x, ~ (ba c <= x < ba c + bsz c) -> m' x = mem h x) ->
  m' (ba c) = need -> m' (at_prev_size (ba c)) = prev_of 0 l1 ->
  m' (ba c + need) = bsz c - need -> m' (at_prev_size (ba c + need)) = need ->
  let rest := Blk (ba c + need) (bsz c - need) false in
  open (set_last_block (set_mem h m') (lastb (rest :: l2))) (l1 ++ [Blk (ba c) need false]) rest l2 q fls.
Proof.
  intros Ho Hn Hal Hfit Hout W1 W2 W3 W4 rest.
  destruct (open_frame _ _ _ _ _ _ m' Ho) as [S1 S2]; [by intros x Hx _; apply Hout|].
  pose proof (open_lists_frame _ _ _ _ _ _ m' Ho Hout) as Hl. pose proof (open_ends _ _ _ _ _ _ Ho) as [E1 E2].
  destruct Ho as [_ ((?&?)&?&?) _ _ _ _ A1 A2 HF _ He]. unfold MIN_BLOCK in *.
  split; try done; simpl.
  - apply seg_app. exists (ba c). split; [done|]. cbn [seg]. unfold blk_ok, block_words, addr_ok, MIN_BLOCK.
    cbn [ba bsz bfree]. split_and!; try done; lia.
  - unfold rest, blk_ok, addr_ok, MIN_BLOCK. cbn [ba bsz]. zlia.
  - left. done.
  - by rewrite prev_of_app.
  - replace (ba c + need + (bsz c - need)) with (ba c + bsz c) by lia. done.
  - by rewrite frees_snoc_used.
  - apply no_adj_app. simpl. rewrite andb_false_r. done.
Qed.

(** What [split] leaves of a block taken off its list: one in use of at least
    the size asked for, and possibly a free rest. Its payload is still poison. *)
Lemma split_spec h l1 c l2 fls need :
  open h l1 c l2 (bsz c) fls -> clean h c -> starts_free l2 = false ->
  MIN_BLOCK <= need <= bsz c -> need mod 16 = 0 -> mem h (ba c) = bsz c ->
  let h' := split h (ba c) need in
  exists sz rest fls', need <= sz /\ Forall (fun b => bfree b = true) rest /\
    shape h' (l1 ++ Blk (ba c) sz false :: rest ++ l2) fls' /\ clean h' (Blk (ba c) sz false) /\
    same_stats h h' /\ heap_end_virt h' = heap_end_virt h /\ pages h' = pages h /\
    (forall x, ~ (ba c <= x < ba c + bsz c) -> (forall n, n ∈ l2 -> x <> at_prev_size (ba n)) ->
       ~ link_word (frees l1 ++ frees l2) x -> mem h' x = mem h x).
Proof.
  intros Ho Hcl Hl2 Hneed Hal Hh. cbn zeta. unfold split.
  rewrite size_of_header by apply Ho. zcase.
  { exists (bsz c), [], fls. split_and!; try done; [lia|]. by apply close_used. }
  pose proof (op_ok _ _ _ _ _ _ Ho) as ((?&?)&?&?). unfold MIN_BLOCK in *.
  set (h4 := store _ (at_size (ba c)) need). set (rest := Blk (ba c + need) (bsz c - need) false).
  set (h5 := set_last_block h4 (lastb (rest :: l2))).
  assert (forall x, x <> ba c -> x <> ba rest -> x <> at_prev_size (ba rest) -> mem h4 x = mem h x) as Hm4.
  { intros x N1 N2 N3. simpl. rewrite !write_ne by (unfold rest in *; unfold_at; simpl in *; lia). done. }
  assert (open h5 (l1 ++ [Blk (ba c) need false]) rest l2 (bsz c) fls) as Ho5.
  { apply (open_carve h _ _ _ _ _ _ (mem h4) Ho); try done; try (unfold MIN_BLOCK; lia).
    - intros x Hx. apply Hm4; unfold rest; unfold_at; simpl; lia.
    - apply write_eq.
    - rewrite Hm4 by (unfold rest; unfold_at; simpl; lia). apply Ho.
    - simpl. rewrite !write_ne by (unfold_at; lia). apply write_eq.
    - simpl. rewrite write_ne by (unfold_at; lia). apply write_eq. }
  assert ((if last_block h4 =? ba c then set_last_block h4 (ba c + need) else update_next_prev_size h4 (ba c + need))
          = update_next_prev_size h5 (ba rest)) as ->.
  { destruct l2 as [|n l2].
    - unfold update_next_prev_size at 2. rewrite (open_next_block _ _ _ _ _ _ Ho5). simpl.
      rewrite (op_last _ _ _ _ _ _ Ho). unfold lastb. simpl. by rewrite Z.eqb_refl.
    - pose proof (open_last_lt _ _ _ _ _ _ _ Ho). destruct (Z.eqb_spec (last_block h4) (ba c)); [simpl in *; lia|].
      f_equal. unfold h5, lastb. rewrite last_cons_cons. pose proof (op_last _ _ _ _ _ _ Ho) as HL.
      unfold lastb in HL. rewrite last_cons_cons in HL. rewrite <- HL. done. }
  destruct (open_update_next _ _ _ _ _ _ Ho5) as (m6&Hup&Ho6&Hfr6). rewrite Hup.
  assert (forall x, ba c <= x < ba c + bsz c -> m6 x = mem h4 x) as Hin6.
  { intros x Hx. rewrite Hfr6; [done|]. intros n Hn. destruct l2 as [|n' l2]; [done|]. injection Hn as ->.
    pose proof (op_right _ _ _ _ _ _ Ho) as (Hn&_). unfold_at. lia. }
  destruct (close_free _ _ _ _ _ Ho6) as (m7&fl7&fls7&Hi&Hs7&Hfr7); [|by rewrite free_of_app|done|].
  { intros x Hx. simpl in *. unfold MIN_BLOCK in *. rewrite Hin6 by lia.
    rewrite Hm4 by (unfold rest; unfold_at; simpl; lia). apply Hcl. unfold MIN_BLOCK. lia. }
  change (ba c + need) with (ba rest). rewrite Hi. exists need, [Blk (ba rest) (bsz rest) true], fls7.
  rewrite <- app_assoc in Hs7. split_and!; try done; [by repeat constructor| |].
  - intros x Hx. cbn [mem set_lists ba bsz] in *. unfold MIN_BLOCK in *. rewrite Hfr7.
    + cbn [mem set_mem]. rewrite Hin6 by lia. rewrite Hm4 by (unfold rest; unfold_at; simpl; lia).
      apply Hcl. unfold MIN_BLOCK. lia.
    + simpl. lia.
    + rewrite link_word_cons, frees_snoc_used, link_word_app. simpl. unfold_at. intros [|[|[Hl|Hl]]]; [lia|lia|..].
      * apply (seg_links _ _ _ _ _ _ (op_left _ _ _ _ _ _ Ho)) in Hl. lia.
      * apply (seg_links _ _ _ _ _ _ (op_right _ _ _ _ _ _ Ho)) in Hl. lia.
  - intros x Hx Hpn Hnl. cbn [mem set_lists]. rewrite Hfr7.
    + cbn [mem set_mem]. rewrite Hfr6.
      * apply Hm4; unfold rest; unfold_at; simpl; lia.
      * intros n Hn. apply Hpn. destruct l2; [done|]. injection Hn as ->. set_solver.
    + simpl. lia.
    + rewrite link_word_cons, frees_snoc_used. simpl. unfold_at. intros [|[|Hl]]; [lia|lia|done].
Qed.

(** A free block that fits, from its list to the caller. *)
Lemma carve_spec h l1 c l2 fls need :
  shape h (l1 ++ c :: l2) fls -> bfree c = true -> MIN_BLOCK <= need <= bsz c -> need mod 16 = 0 ->
  let h1 := unlink_free h (ba c) in
  let h2 := store h1 (at_size (ba c)) (size_of h1 (ba c)) in
  let h' := split h2 (ba c) need in
  exists sz rest fls', need <= sz /\ Forall (fun b => bfree b = true) rest /\
    shape h' (l1 ++ Blk (ba c) sz false :: rest ++ l2) fls' /\ clean h' (Blk (ba c) sz false) /\
    same_stats h h' /\ heap_end_virt h' = heap_end_virt h /\ pages h' = pages h /\
    kept (l1 ++ c :: l2) h h'.
Proof.
  intros Hs Hf Hneed Hal. cbn zeta. pose proof (shape_blks_ok _ _ _ Hs) as Hbok.
  destruct (open_unlink _ _ _ _ _ Hs Hf) as (m1&fl1&fls1&Hu&Ho&Hcl&Hl1&Hl2&Hh&Hfr). rewrite Hu.
  rewrite size_of_header by apply Ho. pose proof (op_ok _ _ _ _ _ _ Ho) as (_&?&_). unfold MIN_BLOCK in *.
  set (h1 := set_lists h m1 fl1) in *. set (h2 := store h1 (at_size (ba c)) (bsz c)).
  assert (forall x, x <> ba c -> mem h2 x = m1 x) as Hm2 by (intros x Hx; apply write_ne; unfold_at; lia).
  assert (open h2 l1 c l2 (bsz c) fls1) as Ho2.
  { apply open_write; [done|intros x Hx; apply Hm2; lia| |left; apply write_eq].
    rewrite write_ne by (unfold_at; lia). apply Ho. }
  destruct (split_spec h2 l1 c l2 fls1 need Ho2) as (sz&rest&fls'&A1&A2&A3&A4&A5&A6&A7&A8); try done.
  - intros x Hx. rewrite Hm2 by (unfold MIN_BLOCK in *; lia). by apply Hcl.
  - apply write_eq.
  - exists sz, rest, fls'. split_and!; try done.
    apply (kept_intro _ _ _ (fun x => ba c <= x < ba c + bsz c)); [done| |].
    + intros u x Hu' Huf Hx Hx'. destruct (proj2 Hbok u c Hu' ltac:(set_solver)) as [->|Ha]; [congruence|].
      unfold apart in Ha. lia.
    + intros x Hx Hp Hnl. rewrite frees_app in Hnl.
      assert (~ link_word (frees l1 ++ frees l2) x) as Hnl'.
      { intros Hl. apply Hnl. apply link_word_app. apply link_word_app in Hl as [|Hl]; [tauto|]. right.
        unfold frees. rewrite filter_cons_True by done. apply link_word_cons. tauto. }
      rewrite A8; [|done| |done].
      * rewrite Hm2 by (intros ->; lia). by apply Hfr.
      * intros n Hn. apply Hp. set_solver.
Qed.

(** * kmalloc *)

(** The blocks handed out. *)
Definition used (bs : list blk) : list blk := filter (fun b => bfree b = false) bs.

Lemma used_app l1 l2 : used (l1 ++ l2) = used l1 ++ used l2.
Proof. apply filter_app. Qed.

Lemma used_frees l : Forall (fun b => bfree b = true) l -> used l = [] /\ used_bytes l = 0.
Proof.
  induction 1 as [|b l Hb Hl [IH1 IH2]]; [done|]. unfold used. rewrite filter_cons_False by congruence.
  split; [done|]. simpl. rewrite Hb. lia.
Qed.

Lemma kept_used bs bs' h h' : used bs = used bs' -> kept bs h h' -> kept bs' h h'.
Proof.
  intros Hu Hk u x Hin Hf Hx. assert (u ∈ used bs') as Hin' by (by apply list_elem_of_filter).
  rewrite <- Hu in Hin'. apply list_elem_of_filter in Hin' as [_ Hin']. by apply (Hk u).
Qed.

Lemma used_bytes_bound m a p bs e : seg m a p bs e -> 0 <= used_bytes bs <= e - a.
Proof.
  revert a p. induction bs as [|b bs IH]; intros a p; cbn [seg used_bytes]; [lia|].
  intros (_&(_&?&_)&_&Hs). apply IH in Hs. unfold MIN_BLOCK, HEADER in *. destruct (bfree b); lia.
Qed.

(** The heap's invariant, with [bs] the blocks from its start to its end. *)
Definition heap_ok (T : Z) h (bs : list blk) : Prop :=
  (exists fls, shape h bs fls) /\ funded T h /\ total_allocated_bytes h = used_bytes bs.

Lemma ALIGN_eq size : 0 <= size < 0xFFFFFFFFFFFFFFF0 -> ALIGN size = (size + 15) / 16 * 16.
Proof.
  intros Hs. unfold ALIGN, ALIGNMENT. rewrite u64_small by lia. rewrite (land_align _ 4) by lia.
  change (2 ^ 4) with 16. zlia.
Qed.

(** [kmalloc] once a block was taken: the counters and the check of the poison. *)
Lemma kmalloc_finish T h h' l1 c l2 sz rest fls' :
  heap_ok T h (l1 ++ c :: l2) -> bfree c = true ->
  Forall (fun b => bfree b = true) rest ->
  shape h' (l1 ++ Blk (ba c) sz false :: rest ++ l2) fls' -> clean h' (Blk (ba c) sz false) ->
  same_stats h h' -> heap_end_virt h' = heap_end_virt h -> pages h' = pages h ->
  size_of h' (ba c) = sz /\
  first_unpoisoned (mem h') (links (ba c) + 16) (u64 (sz - MIN_BLOCK)) = 0 /\
  let bs' := l1 ++ Blk (ba c) sz false :: rest ++ l2 in
  heap_ok T (set_allocated h' (u64 (total_allocated_bytes h' + (sz - HEADER)))) bs' /\
  used bs' ≡ₚ Blk (ba c) sz false :: used (l1 ++ c :: l2).
Proof.
  intros (_&Hf&Ht) Hcf Hr Hs Hcl (S1&_) He Hp.
  destruct (shape_split _ _ _ _ _ Hs) as (e&Ee&_&Hok&(W&_)&_). simpl in W, Ee.
  pose proof Hok as ((?&?)&?&?). unfold MIN_BLOCK in *. cbn [ba bsz] in *.
  pose proof (used_bytes_bound _ _ _ _ _ (sh_seg _ _ _ Hs)) as Hub. pose proof (sh_end _ _ _ Hs) as [_ Hend].
  destruct (used_frees _ Hr) as [U1 U2].
  assert (used_bytes (l1 ++ Blk (ba c) sz false :: rest ++ l2) = used_bytes (l1 ++ c :: l2) + (sz - HEADER)) as HU.
  { rewrite !used_bytes_app. cbn [used_bytes bfree bsz]. rewrite used_bytes_app, U2, Hcf. lia. }
  split_and!.
  - apply (size_of_header _ (Blk (ba c) sz false)); [done|]. left. simpl. lia.
  - rewrite u64_small by lia. apply first_unpoisoned_none; [|unfold_at; zlia|zlia|lia].
    unfold clean in Hcl. cbn [ba bsz] in Hcl. unfold_at. replace (ba c + 16 + 16) with (ba c + MIN_BLOCK) by (unfold MIN_BLOCK; lia). done.
  - split_and!.
    + exists fls'. destruct Hs. by split.
    + unfold funded in *. simpl. rewrite He, Hp. done.
    + simpl. rewrite S1, Ht, <- HU. apply u64_small. unfold KHEAP_START_VIRT in *. lia.
  - rewrite !used_app. unfold used at 2 4. rewrite filter_cons_True, filter_cons_False by (simpl; congruence).
    fold (used (rest ++ l2)). rewrite used_app, U1. simpl. symmetry. apply Permutation_middle.
Qed.

(** The bytes [kmalloc] looks for. *)
Definition need_of (size : Z) : Z := Z.max MIN_BLOCK (ALIGN size + HEADER).

(** Looking for a block, growing the heap if there is none. *)
Definition obtain h (need : Z) : Z * heap P :=
  let '(b, h) := take_free h need in
  if b =? 0 then let '(grown, h) := grow_for h need in if grown then take_free h need else (0, h) else (b, h).

Lemma obtain_spec T h bs need :
  heap_ok T h bs -> MIN_BLOCK <= need < 0x100000000 ->
  let '(r, h') := obtain h need in
  (r = 0 /\ heap_ok T h' bs /\ kept bs h h' /\ same_stats h h' /\ (forall b, b ∈ bs -> bfree b = true -> bsz b < need) /\ no_pages (grow_pages need) (heap_end_virt h) (pages h)) \/
  (r <> 0 /\ exists h1 l1 c l2, h' = unlink_free h1 (ba c) /\ heap_ok T h1 (l1 ++ c :: l2) /\ r = ba c /\
     bfree c = true /\ need <= bsz c /\ kept bs h h1 /\ same_stats h h1 /\ used (l1 ++ c :: l2) = used bs).
Proof.
  intros [[fls Hs] [Hf Ht]] Hneed. unfold obtain. unfold MIN_BLOCK in Hneed.
  pose proof (take_free_spec h bs fls need Hs ltac:(lia)) as HT. destruct (take_free h need) as [r h1].
  destruct HT as [(->&->&Hsmall)|(Hr&->&l1&c&l2&->&Hc&Hcf&Hfit)].
  2: { apply Z.eqb_neq in Hr as Hr'. rewrite Hr'. right. split; [done|]. exists h, l1, c, l2.
       rewrite Hc. split_and!; try done. by split; [exists fls|]. }
  rewrite Z.eqb_refl. pose proof (grow_for_spec T h bs fls need Hs Hf Hneed Hsmall) as HG. pose proof (grow_for_fails T h bs fls need Hs Hf Hneed Hsmall) as HN.
  destruct (grow_for h need) as [[|] h2]; destruct HG as (F2&S2&K2&HG).
  2: { left. split; [done|]. split; [split_and!; [by exists fls|done|]; destruct S2 as (->&_); done|]. split_and!; try done. by apply HN. }
  destruct HG as (l1&ls&c&fls2&->&Hls&Hcf&Hfit&Hs2).
  pose proof (take_free_spec h2 _ fls2 need Hs2 ltac:(lia)) as HT. destruct (take_free h2 need) as [r h3].
  destruct (used_frees _ Hls) as [U1 U2].
  assert (used (l1 ++ [c]) = used (l1 ++ ls) /\ used_bytes (l1 ++ [c]) = used_bytes (l1 ++ ls)) as [V1 V2].
  { rewrite !used_app, !used_bytes_app, U1, U2. unfold used at 2. rewrite filter_cons_False by congruence.
    simpl. rewrite Hcf. split; [done|lia]. }
  destruct HT as [(_&_&Hsm)|(Hr&->&l3&d&l4&Heq&Hd&Hdf&Hfit')].
  { specialize (Hsm c ltac:(set_solver) Hcf). lia. }
  right. split; [done|]. exists h2, l3, d, l4. rewrite <- Heq, Hd. split_and!; try done.
  split_and!; [by exists fls2|done|]. rewrite V2, <- Ht. apply S2.
Qed.

(** What [kmalloc] does to a heap in order. *)
Lemma kmalloc_spec T h bs size :
  heap_ok T h bs -> 0 <= size < 0x10000000000000000 ->
  let '(r, h') := kmalloc h size in
  exists bs', heap_ok T h' bs' /\ kept bs h h' /\ poison_damage h' = poison_damage h /\
  match r with
  | Kmalloc_panic => False
  | Kmalloc_ptr p =>
      if p =? 0 then
        bs' = bs /\ (size = 0 \/ KHEAP_MAX_ALLOC < size \/
          (failed_allocations h' = u64 (failed_allocations h + 1) /\ (forall b, b ∈ bs -> bfree b = true -> bsz b < need_of size) /\
           no_pages (grow_pages (need_of size)) (heap_end_virt h) (pages h)))
      else exists sz, used bs' ≡ₚ Blk (p - HEADER) sz false :: used bs /\ size <= sz - HEADER /\ p mod 16 = 0
  end.
Proof.
  intros Hok Hsize. unfold kmalloc. pose proof Hok as [[fls Hs] _].
  rewrite (sh_first _ _ _ Hs). rewrite orb_false_r.
  destruct (Z.eqb_spec size 0); [exists bs; simpl; split_and!; auto; done|].
  destruct (Z.ltb_spec KHEAP_MAX_ALLOC size); [exists bs; simpl; split_and!; auto; done|].
  assert ((if ALIGN size + HEADER <? MIN_BLOCK then MIN_BLOCK else ALIGN size + HEADER) = need_of size) as ->.
  { unfold need_of. zcase; lia. }
  assert (size + HEADER <= need_of size /\ MIN_BLOCK <= need_of size < 0x100000000 /\ need_of size mod 16 = 0) as (N1&N2&N3).
  { unfold need_of, KHEAP_MAX_ALLOC, MIN_BLOCK, HEADER in *. rewrite ALIGN_eq by lia. zlia. }
  set (need := need_of size) in *. clearbody need.
  pose proof (obtain_spec T h bs need Hok N2) as HO. unfold obtain in HO. destruct (take_free h need) as [b0 h0].
  destruct (if b0 =? 0 then _ else _) as [r h']. clear b0 h0.
  destruct HO as [(->&Hok'&Hk&(A1&A2&A3&A4)&Hsm&Hg)|(Hr&h1&l1&c&l2&->&Hok1&->&Hcf&Hfit&Hk1&St1&Hus)].
  - rewrite Z.eqb_refl. exists bs. simpl. split_and!; try done; [|right; right; by rewrite A2].
    destruct Hok' as [[fls' []] ?]. split; [by exists fls'|done].
  - apply Z.eqb_neq in Hr as ->. pose proof Hok1 as [[fls1 Hs1] _].
    destruct (carve_spec h1 l1 c l2 fls1 need Hs1 Hcf) as (sz&rest&fls'&B1&B2&B3&B4&B5&B6&B7&B8); [lia|done|].
    set (h2 := split _ (ba c) need) in *. clearbody h2.
    destruct (kmalloc_finish T h1 h2 l1 c l2 sz rest fls' Hok1 Hcf B2 B3 B4 B5 B6 B7) as (C1&C2&C3&C4).
    rewrite C1, C2. cbn [Z.eqb negb andb]. rewrite C1. exists (l1 ++ Blk (ba c) sz false :: rest ++ l2).
    assert (addr_ok (ba c)) as [Hc0 Hc1] by (apply (shape_blks_ok _ _ _ Hs1); set_solver).
    unfold HEADER in *. destruct (Z.eqb_spec (ba c + 16) 0); [lia|].
    split_and!; [done| | |].
    + apply (kept_trans _ _ h1); [done|]. by apply (kept_used (l1 ++ c :: l2)).
    + simpl. destruct St1 as (_&_&<-&_). apply B5.
    + exists sz. replace (ba c + 16 - 16) with (ba c) by lia. rewrite C4, Hus. split_and!; [done|lia|zlia].
Qed.

(** * kfree *)

(** The end of [kfree]: the merged block gets a clean header, its size goes to
    the next one, pages may go back, and it joins its list. *)
Lemma kfree_tail T h l1 b l2 q fls :
  open h l1 b l2 q fls -> clean h b -> free_of false l1 = false -> starts_free l2 = false -> funded T h ->
  let h1 := store h (at_size (ba b)) (size_of h (ba b)) in
  let h2 := update_next_prev_size h1 (ba b) in
  let h3 := kfree_trim h2 (ba b) in
  let h' := insert_free h3 (ba b) in
  exists sz fls', shape h' (l1 ++ Blk (ba b) sz true :: l2) fls' /\ funded T h' /\ same_stats h h' /\
    (forall x, ~ (ba b <= x < ba b + bsz b) -> (forall n, n ∈ l2 -> x <> at_prev_size (ba n)) ->
       ~ link_word (frees l1 ++ frees l2) x -> mem h' x = mem h x).
Proof.
  intros Ho Hcl Hl1 Hl2 Hf. cbn zeta. rewrite size_of_header by apply Ho.
  pose proof (op_ok _ _ _ _ _ _ Ho) as (_&Hsz&_). unfold MIN_BLOCK in *.
  set (h1 := store h (at_size (ba b)) (bsz b)).
  assert (forall x, x <> ba b -> mem h1 x = mem h x) as Hm1 by (intros x Hx; apply write_ne; unfold_at; lia).
  assert (open h1 l1 b l2 q fls) as Ho1.
  { apply open_write; [done|intros x Hx; apply Hm1; lia| |left; apply write_eq].
    rewrite write_ne by (unfold_at; lia). apply Ho. }
  destruct (open_update_next _ _ _ _ _ _ Ho1) as (m2&Hu&Ho2&Hm2). rewrite Hu.
  set (h2 := set_mem h1 m2) in *.
  assert (forall x, ba b <= x < ba b + bsz b -> m2 x = mem h1 x) as Hin.
  { intros x Hx. apply Hm2. intros n Hn. destruct l2 as [|n' l2]; [done|]. injection Hn as ->.
    pose proof (op_right _ _ _ _ _ _ Ho) as (Hn&_). unfold_at. lia. }
  destruct (kfree_trim_spec T h2 l1 b l2 fls Ho2) as (sz&Hsz'&Ho3&Hcl3&Hf3&St3&Hm3).
  { intros x Hx. unfold MIN_BLOCK in *. simpl. rewrite Hin, Hm1 by lia. by apply Hcl. }
  { done. }
  set (h3 := kfree_trim h2 (ba b)) in *. unfold MIN_BLOCK in *.
  destruct (close_free _ _ _ _ _ Ho3 Hcl3 Hl1 Hl2) as (m4&fl4&fls4&Hi&Hs4&Hm4). cbn [ba bsz] in *.
  rewrite Hi. exists sz, fls4. split_and!; try done.
  intros x Hx Hp Hn. cbn [mem set_lists]. rewrite Hm4, Hm3.
  - simpl. rewrite Hm2; [apply Hm1; lia|]. intros n Hn'. apply Hp. destruct l2; [done|]. injection Hn' as ->. set_solver.
  - lia.
  - lia.
  - rewrite link_word_cons. cbn [ba]. unfold_at. intros [|[|]]; [lia|lia|done].
Qed.

(** [a] is the header of a free block or lies in one behind its links, as long
    as it is part of the heap at all. *)
Definition in_free h (bs : list blk) (a : Z) : Prop :=
  exists c, c ∈ bs /\ bfree c = true /\ (ba c = a \/ ba c + MIN_BLOCK <= a) /\
    (a < heap_end_virt h -> a < ba c + bsz c).

(** Where the blocks around the merged one are fixed, so is its size, unless it
    is the last. *)
Lemma tail_in_free h h' l1 a s sz l2 q fls fls' x :
  open h l1 (Blk a s false) l2 q fls -> shape h' (l1 ++ Blk a sz true :: l2) fls' ->
  (a = x \/ a + MIN_BLOCK <= x) -> x < a + s -> in_free h' (l1 ++ Blk a sz true :: l2) x.
Proof.
  intros Ho Hs Ha Hx. exists (Blk a sz true). split_and!; [set_solver|done|done|].
  destruct (shape_split _ _ _ _ _ Hs) as (e&<-&_&_&_&S2&_). pose proof (op_right _ _ _ _ _ _ Ho) as S2'.
  cbn [ba bsz] in *. destruct l2 as [|n l2]; cbn [seg] in *; [lia|].
  destruct S2 as (?&_). destruct S2' as (?&_). lia.
Qed.

(** The merges and the tail together, on a block whose payload is poison. *)
Lemma kfree_merged T h l1 b l2 fls :
  open h l1 b l2 (bsz b) fls -> clean h b -> funded T h ->
  let h1 := kfree_merge_next h (ba b) in
  let '(b2, h2) := kfree_merge_prev h1 (ba b) in
  let h3 := store h2 (at_size b2) (size_of h2 b2) in
  let h' := insert_free (kfree_trim (update_next_prev_size h3 b2) b2) b2 in
  exists bs' fls', shape h' bs' fls' /\ funded T h' /\ same_stats h h' /\ used bs' = used (l1 ++ l2) /\
    used_bytes bs' = used_bytes (l1 ++ l2) /\ kept (l1 ++ l2) h h' /\ in_free h' bs' (ba b).
Proof.
  intros Ho Hcl Hf. cbn zeta. pose proof (open_blks _ _ _ _ _ _ Ho) as Hbok.
  pose proof (op_left _ _ _ _ _ _ Ho) as S1. pose proof (op_right _ _ _ _ _ _ Ho) as S2.
  destruct (merge_next _ _ _ _ _ Ho Hcl) as (ns&l2'&s&q&fls1&->&Hns&Ho1&Hcl1&Hst&(C1&C2&C3&C4&C5&C6)&Hm1).
  set (h1 := kfree_merge_next h (ba b)) in *. clearbody h1.
  pose proof (merge_prev _ _ _ _ _ _ Ho1 Hcl1) as HP. cbn [ba bsz] in HP.
  destruct (kfree_merge_prev h1 (ba b)) as [b2 h2].
  destruct HP as (l1'&ps&s2&fls2&->&Hps&Ho2&Hcl2&Hfr&(D1&D2&D3&D4&D5&D6)&Hend&Hlo&Hm2).
  destruct (kfree_tail T h2 l1' (Blk b2 s2 false) l2' q fls2 Ho2 Hcl2 Hfr Hst) as (sz&fls'&Hs'&Hf'&St'&Hm').
  { unfold funded in *. rewrite D1, C1, D6, C6. done. }
  cbn [ba bsz] in *. destruct (used_frees _ Hns) as [U1 U2]. destruct (used_frees _ Hps) as [V1 V2].
  pose proof (op_ok _ _ _ _ _ _ Ho) as (_&?&_). pose proof (op_ok _ _ _ _ _ _ Ho1) as (_&?&_).
  unfold MIN_BLOCK in *. cbn [ba bsz] in *.
  eexists _, fls'. split_and!; [exact Hs'|done| | | | |eapply tail_in_free; [done..|unfold MIN_BLOCK; lia]].
  - destruct St' as (?&?&?&?). unfold same_stats. split_and!; congruence.
  - rewrite !used_app. unfold used at 2. rewrite filter_cons_False by (simpl; congruence).
    fold (used l2'). rewrite U1, V1, app_nil_r. done.
  - rewrite !used_bytes_app. cbn [used_bytes bfree]. lia.
  - apply (kept_intro _ _ _ (fun x => b2 <= x < b2 + s2)).
    + apply (blks_ok_sub ((l1' ++ ps) ++ b :: ns ++ l2')); [set_solver|done].
    + rewrite Forall_forall in Hns, Hps. intros u x Hu Huf Hx Hx'. rewrite !elem_of_app in Hu.
      destruct Hu as [[Hu|Hu]|[Hu|Hu]].
      * destruct (seg_bounds _ _ _ _ _ _ (op_left _ _ _ _ _ _ Ho2) Hu) as (?&?&_). simpl in *. lia.
      * apply Hps in Hu. congruence.
      * apply Hns in Hu. congruence.
      * destruct (seg_bounds _ _ _ _ _ _ (op_right _ _ _ _ _ _ Ho2) Hu) as (?&?&_). simpl in *. lia.
    + intros x Hx Hp Hn. rewrite !frees_app, !link_word_app in Hn.
      rewrite Hm', Hm2, Hm1; rewrite ?frees_app, ?link_word_app; try tauto; try lia.
      intros n Hn'. apply Hp. set_solver.
Qed.

(** Poisoning what a block held. *)
Lemma poison_payload h l1 b l2 q fls :
  open h l1 b l2 q fls ->
  let h' := poison h (links (ba b) + 16) (u64 (size_of h (ba b) - MIN_BLOCK)) in
  open h' l1 b l2 q fls /\ clean h' b /\ kept (l1 ++ l2) h h'.
Proof.
  intros Ho. pose proof (open_blks _ _ _ _ _ _ Ho) as Hbok. pose proof (open_notin _ _ _ _ _ _ Ho) as Hnin.
  pose proof (op_ok _ _ _ _ _ _ Ho) as (_&?&_). rewrite size_of_header by apply Ho.
  unfold MIN_BLOCK in *. rewrite u64_small by lia. cbn zeta.
  assert (forall x, ~ (ba b + 32 <= x < ba b + bsz b) -> fill (mem h) (links (ba b) + 16) (bsz b - 32) POISON_WORD x = mem h x) as Hout.
  { intros x Hx. unfold fill. unfold_at. zcase; [lia|done]. }
  split_and!.
  - apply open_write; [done| | |].
    + intros x Hx. apply Hout. lia.
    + rewrite Hout by (unfold_at; lia). apply Ho.
    + rewrite Hout by lia. apply Ho.
  - intros x Hx. simpl. unfold fill, MIN_BLOCK in *. unfold_at. zcase; [done|]. zbool. lia.
  - apply (kept_intro _ _ _ (fun x => ba b <= x < ba b + bsz b)).
    + apply (blks_ok_sub (l1 ++ b :: l2)); [set_solver|done].
    + intros u x Hu _ Hx Hx'. destruct (proj2 Hbok u b ltac:(set_solver) ltac:(set_solver)) as [->|Ha]; [done|].
      unfold apart in Ha. lia.
    + intros x Hx _ _. apply Hout. lia.
Qed.

(** Giving a block back. *)
Lemma kfree_spec T h l1 u l2 :
  heap_ok T h (l1 ++ u :: l2) -> bfree u = false ->
  let '(h', twice) := kfree h (ba u + HEADER) in
  twice = false /\ exists bs', heap_ok T h' bs' /\ used bs' = used (l1 ++ l2) /\ kept (l1 ++ l2) h h' /\
    failed_allocations h' = failed_allocations h /\ poison_damage h' = poison_damage h /\ in_free h' bs' (ba u).
Proof.
  intros [[fls Hs] [Hf Ht]] Huf. pose proof (open_used _ _ _ _ _ Hs Huf) as Ho.
  pose proof (op_ok _ _ _ _ _ _ Ho) as ((?&?)&?&?). pose proof (open_ends _ _ _ _ _ _ Ho) as [E1 E2].
  pose proof (op_end _ _ _ _ _ _ Ho) as [_ E3].
  unfold kfree, HEADER, MIN_BLOCK, KHEAP_START_VIRT in *. destruct (Z.eqb_spec (ba u + 16) 0); [lia|].
  replace (ba u + 16 - 16) with (ba u) by lia. rewrite (u64_small (ba u)) by lia.
  pose proof (sh_seg _ _ _ Hs) as Hseg. apply seg_app in Hseg as (e&_&Hseg).
  destruct (seg_is_free _ _ _ _ _ _ Hseg) as [-> _]. rewrite Huf.
  set (h1 := set_allocated _ _). set (h2 := poison h1 _ _).
  destruct (poison_payload h1 l1 u l2 (bsz u) fls) as (Ho2&Hcl2&Hk2); [by destruct Ho|].
  fold h2 in Ho2, Hcl2, Hk2.
  pose proof (kfree_merged T h2 l1 u l2 fls Ho2 Hcl2 Hf) as HM. cbn zeta in HM.
  destruct (kfree_merge_prev _ _) as [b3 h3]. destruct HM as (bs'&fls'&M1&M2&(M3&M4&M5&M6)&M7&M8&M9&M10).
  split; [done|]. exists bs'. split_and!; try done; [|by apply (kept_trans _ _ h2)].
  split_and!; [by exists fls'|done|]. rewrite M3, M8. simpl.
  rewrite Ht, size_of_header by (done || apply Ho). rewrite !used_bytes_app. cbn [used_bytes]. rewrite Huf.
  pose proof (used_bytes_bound _ _ _ _ _ (op_left _ _ _ _ _ _ Ho)).
  pose proof (used_bytes_bound _ _ _ _ _ (op_right _ _ _ _ _ _ Ho)).
  unfold HEADER, KHEAP_START_VIRT in *. rewrite u64_small; lia.
Qed.

End Ops.
