(* ===== verification/HeapCheck.v ===== *)
(** The kernel heap, concluded: [kheap_check] accepts every heap in order,
    [kheap_init] makes one, and what any sequence of calls and client writes
    guarantees. *)
From stdpp Require Import base tactics numbers list sets relations.
From Stdlib Require Import ZArith Lia.
From S2P Require Import Prelude Pmm Pages Heap HeapLists HeapInv HeapGrow HeapOps.

Open Scope Z_scope.

Section Check.
Context {P : Type} `{PagesLaws P}.
Implicit Types (h : heap P).

(** * kheap_check *)

Lemma shape_block h l1 b l2 fls :
  shape h (l1 ++ b :: l2) fls ->
  blk_ok b /\ size_of h (ba b) = bsz b /\ is_free h (ba b) = bfree b /\ mem h (at_prev_size (ba b)) = prev_of 0 l1 /\
  (bfree b = true -> poisoned (mem h) (ba b + MIN_BLOCK) (bsz b - MIN_BLOCK)) /\
  KHEAP_START_VIRT <= ba b /\ ba b + bsz b <= heap_end_virt h < 0xFFFFFFFF00000000 /\
  next_block h (ba b) = (match l2 with [] => 0 | n :: _ => ba n end) /\
  (ba b =? last_block h) = (match l2 with [] => true | _ => false end) /\
  (l2 = [] -> ba b + bsz b = heap_end_virt h) /\ free_of false l1 && bfree b = false.
Proof.
  intros Hs. destruct (shape_split _ _ _ _ _ Hs) as (e&<-&S1&Hok&(W1&W2&W3)&S2&_&A2&_&HL).
  pose proof (sh_seg _ _ _ Hs) as Hseg. apply seg_app in Hseg as (e&_&Hseg).
  destruct (seg_is_free _ _ _ _ _ _ Hseg) as [Hfr Hhd].
  pose proof (seg_le _ _ _ _ _ S1). pose proof (seg_le _ _ _ _ _ S2). pose proof (sh_end _ _ _ Hs) as [_ Hend].
  pose proof Hok as (?&?&?). unfold MIN_BLOCK in *.
  assert (size_of h (ba b) = bsz b) as Hsz by (by apply size_of_header).
  assert ((ba b =? last_block h) = match l2 with [] => true | _ => false end) as Hlast.
  { destruct l2 as [|n l2]; rewrite HL; [apply Z.eqb_refl|]. apply Z.eqb_neq. unfold lastb. rewrite last_cons_cons.
    destruct (last (n :: l2)) as [d|] eqn:E; [|by apply last_None in E].
    apply last_Some_elem_of in E. destruct (seg_bounds _ _ _ _ _ _ S2 E) as (?&?&_). lia. }
  split_and!; try done; [|by intros ->].
  unfold next_block. rewrite Hlast. destruct l2 as [|n l2]; [done|]. rewrite Hsz. destruct S2 as (->&_).
  apply u64_small. unfold KHEAP_START_VIRT in *. lia.
Qed.

Lemma check_blocks_ok h fls : forall l2 l1 n,
  shape h (l1 ++ l2) fls -> (length l2 < n)%nat ->
  check_blocks n h (match l2 with [] => 0 | b :: _ => ba b end) (prev_of 0 l1) (Z.of_nat (length (frees l1)))
    (used_bytes l1) (free_of false l1) true =
  (true, Z.of_nat (length (frees (l1 ++ l2))), used_bytes (l1 ++ l2)).
Proof.
  induction l2 as [|b l2 IH]; intros l1 n Hs Hn; destruct n as [|n]; simpl in Hn; try lia; cbn [check_blocks].
  { by rewrite app_nil_r. }
  destruct (shape_block _ _ _ _ _ Hs) as (Hok&Hsz&Hfr&Hp&Hpo&Hlo&Hhi&Hnx&Hlast&Hend&Hadj).
  pose proof Hok as ((?&?)&?&?). unfold MIN_BLOCK in *. destruct (Z.eqb_spec (ba b) 0); [lia|]. cbn [andb negb].
  pose proof (used_bytes_bound _ _ _ _ _ (sh_seg _ _ _ Hs)) as Hub. rewrite used_bytes_app in Hub. cbn [used_bytes] in Hub.
  assert (0 <= used_bytes l1 /\ 0 <= used_bytes l2) as [Hub1 Hub2].
  { destruct (shape_split _ _ _ _ _ Hs) as (e&_&S1&_&_&S2&_). apply used_bytes_bound in S1, S2. lia. }
  replace (l1 ++ b :: l2) with ((l1 ++ [b]) ++ l2) in * by (by rewrite <- app_assoc).
  specialize (IH (l1 ++ [b]) n Hs ltac:(lia)).
  rewrite prev_of_app, free_of_app, frees_app, length_app, used_bytes_app in IH. cbn [prev_of free_of used_bytes] in IH.
  rewrite Hfr, Hsz, Hlast, Hnx. unfold load. rewrite Hp, Z.eqb_refl, Hadj.
  unfold ALIGNMENT, KHEAP_START_VIRT, HEADER in *. rewrite (u64_small (ba b + bsz b)) by lia.
  replace (32 <=? bsz b) with true by (symmetry; apply Z.leb_le; lia).
  replace (bsz b mod 16 =? 0) with true by (symmetry; apply Z.eqb_eq; lia).
  replace (ba b + bsz b <=? heap_end_virt h) with true by (symmetry; apply Z.leb_le; lia).
  assert ((match l2 with [] => true | _ => false end = true) -> (ba b + bsz b =? heap_end_virt h) = true) as Hend'.
  { destruct l2; [|done]. intros _. apply Z.eqb_eq. auto. }
  cbn [andb negb]. destruct (bfree b) eqn:Ef.
  - rewrite first_unpoisoned_none; [|unfold_at; replace (ba b + 16 + 16) with (ba b + 32) by lia; by apply Hpo|unfold_at; zlia|zlia|lia].
    rewrite <- IH. unfold frees at 3. rewrite filter_cons_True, filter_nil by done. cbn [length].
    f_equal; [lia|lia|]. destruct l2; [|done]. by rewrite Hend'.
  - rewrite <- IH. unfold frees at 3. rewrite filter_cons_False, filter_nil by congruence. cbn [length].
    rewrite u64_small by (unfold HEADER in *; lia).
    f_equal; [lia|lia|]. destruct l2; [|done]. by rewrite Hend'.
Qed.

(** Walking one list: every entry is free and in its class, and there are no
    more of them than free blocks were counted. *)
Lemma check_list_ok h (F : list blk) k fb : forall l p n listed,
  dllseg (mem h) p l 0 -> (length l < n)%nat ->
  (forall a, a ∈ l -> a <> 0 /\ exists b, b ∈ F /\ ba b = a /\ class_of (bsz b) = k /\
     size_of h (ba b) = bsz b /\ is_free h (ba b) = true) ->
  listed + Z.of_nat (length l) <= fb ->
  check_list n h k (hd 0 l) p listed fb true = (true, listed + Z.of_nat (length l)).
Proof.
  induction l as [|a l IH]; intros p n listed Hd Hn Hl Hle; destruct n as [|n]; simpl in Hn; try lia;
    cbn [check_list hd length] in *.
  - by rewrite Z.add_0_r.
  - destruct (Hl a ltac:(set_solver)) as (Ha&b&Hb&<-&Hk&Hsz&Hfr). destruct (Z.eqb_spec (ba b) 0); [done|].
    cbn [dllseg] in Hd. destruct Hd as (Hp&Hnx&Hd). cbn [andb negb]. unfold load.
    rewrite Hfr, Hsz, Hk, Hp, Hnx, !Z.eqb_refl. cbn [andb]. destruct (Z.ltb_spec fb (listed + 1)); [lia|].
    rewrite (IH (ba b)); [f_equal; lia|done|lia| |lia]. intros a' Ha'. apply Hl. set_solver.
Qed.

(** Free blocks below class [j], and the blocks of class [j]. *)
Lemma below_succ (F : list blk) j :
  length (filter (fun b => class_of (bsz b) < j + 1) F) =
  (length (filter (fun b => class_of (bsz b) < j)%Z F) + length (filter (fun b => class_of (bsz b) = j) F))%nat.
Proof.
  induction F as [|b F IH]; [done|]. rewrite !filter_cons.
  repeat case_decide; simpl; rewrite IH; lia.
Qed.

Lemma fls_length m fl fls F k :
  lists_ok m fl fls F -> blks_ok F -> NoDup F -> 0 <= k < 48 ->
  length (fls k) = length (filter (fun b => class_of (bsz b) = k) F).
Proof.
  intros Hl Hok Hnd Hk. rewrite <- (length_map ba (filter _ F)). apply Permutation_length, NoDup_Permutation.
  - by eapply lo_nodup.
  - apply NoDup_fmap_2_strong; [|by apply NoDup_filter].
    intros x y [_ Hx]%list_elem_of_filter [_ Hy]%list_elem_of_filter. by apply (blks_ok_inj F).
  - intros a. rewrite (lo_mem _ _ _ _ Hl) by done. rewrite list_elem_of_fmap. split.
    + intros (b&?&?&?). exists b. split; [done|]. by apply list_elem_of_filter.
    + intros (b&->&[? ?]%list_elem_of_filter). by exists b.
Qed.

Lemma seg_NoDup m bs : forall a p e, seg m a p bs e -> NoDup bs.
Proof.
  induction bs as [|b bs IH]; intros a p e; [constructor|]. cbn [seg]. intros (<-&(_&?&_)&_&Hs). constructor; [|by eapply IH].
  intros Hb. destruct (seg_bounds _ _ _ _ _ _ Hs Hb) as (?&?&_). unfold MIN_BLOCK in *. lia.
Qed.

Lemma check_lists_ok h bs fls : forall n j,
  shape h bs fls -> 0 <= j -> 48 - j <= Z.of_nat n -> j <= 48 ->
  let F := frees bs in
  check_lists n h j (Z.of_nat (length (filter (fun b => class_of (bsz b) < j) F))) (Z.of_nat (length F)) true =
  (true, Z.of_nat (length F)).
Proof.
  intros n j Hs. pose proof (sh_lists _ _ _ Hs) as Hl. pose proof (shape_blks_ok _ _ _ Hs) as Hbok.
  assert (blks_ok (frees bs)) as HbF.
  { apply (blks_ok_sub bs); [|done]. intros b Hb. by apply elem_of_frees in Hb as [? _]. }
  assert (NoDup (frees bs)) as Hnd by (apply NoDup_filter; eapply seg_NoDup, Hs).
  assert (forall b, b ∈ frees bs -> 0 < bsz b) as Hpos.
  { intros b Hb. destruct (proj1 HbF b Hb) as (_&?&_). unfold MIN_BLOCK in *. lia. }
  assert (filter (fun b => class_of (bsz b) < 48) (frees bs) = frees bs) as Hall.
  { apply filter_all. intros b Hb. apply class_of_range. by apply Hpos. }
  revert j. induction n as [|n IH]; intros j Hj Hn Hj48; cbn zeta; cbn [check_lists].
  - assert (j = 48) as -> by lia. by rewrite Hall.
  - destruct (Z.ltb_spec j CLASSES) as [Hlt|]; unfold CLASSES in *; cbn [andb].
    + rewrite (lo_head _ _ _ _ Hl) by lia.
      rewrite (check_list_ok h (frees bs)); [|by apply Hl|pose proof (list_bound_enough h bs fls j Hs ltac:(lia)); lia| |].
      * rewrite (fls_length _ _ _ _ _ Hl) by (done || lia). rewrite <- Nat2Z.inj_add, <- below_succ. apply IH; lia.
      * intros a Ha. pose proof (lists_ok_addr _ _ _ _ j _ Hl HbF ltac:(lia) Ha) as [? _]. split; [lia|].
        apply (lo_mem _ _ _ _ Hl) in Ha as (b&Hb&<-&Hk); [|lia]. exists b. split_and!; try done.
        all: apply elem_of_frees in Hb as [Hb Hf]; apply list_elem_of_split in Hb as (l1&l2&->);
          destruct (shape_block _ _ _ _ _ Hs) as (_&?&?&_); congruence.
      * rewrite (fls_length _ _ _ _ _ Hl) by (done || lia). rewrite <- Nat2Z.inj_add, <- below_succ.
        apply Nat2Z.inj_le, length_filter.
    + assert (j = 48) as -> by lia. by rewrite Hall.
Qed.

(** The check finds nothing wrong with a heap in order. *)
Lemma kheap_check_shape T h bs : heap_ok T h bs -> kheap_check h = true.
Proof.
  intros [[fls Hs] [_ Ht]]. unfold kheap_check.
  pose proof (sh_seg _ _ _ Hs) as Hseg. pose proof (seg_length _ _ _ _ _ Hseg) as Hlen.
  assert (match bs with [] => 0 | b :: _ => ba b end = KHEAP_START_VIRT) as Hb.
  { pose proof (sh_nonempty _ _ _ Hs). destruct bs; [done|]. by destruct Hseg. }
  rewrite (sh_first _ _ _ Hs).
  pose proof (check_blocks_ok h fls bs [] (S (list_bound h)) Hs) as HB. cbn [app prev_of free_of used_bytes] in HB.
  rewrite Hb in HB. change (Z.of_nat (length (frees []))) with 0 in HB.
  change (negb (KHEAP_START_VIRT =? 0)) with true. rewrite HB by (unfold list_bound, MIN_BLOCK; zlia).
  pose proof (check_lists_ok h bs fls (Z.to_nat CLASSES) 0 Hs) as HL. cbn zeta in HL.
  rewrite (filter_none (fun b => class_of (bsz b) < 0)) in HL.
  - change (Z.of_nat (length [])) with 0 in HL. rewrite HL by (unfold CLASSES; lia). by rewrite Ht, !Z.eqb_refl.
  - intros c [Hc _]%elem_of_frees. destruct (shape_blks_ok _ _ _ Hs) as [Hok _]. destruct (Hok c Hc) as (_&?&_).
    pose proof (class_of_range (bsz c)). unfold MIN_BLOCK in *. lia.
Qed.

(** * kheap_init *)

Lemma lists_ok_empty (m : Z -> Z) : lists_ok m (replicate (Z.to_nat CLASSES) 0) (fun _ => []) [].
Proof.
  split; try done.
  - intros k Hk. apply get_replicate.
  - intros. constructor.
  - intros k a Hk. split; [|intros (b&Hb&_)]; by intros ?%not_elem_of_nil || (by apply not_elem_of_nil in Hb).
Qed.

(** With the pages for it, the first block is everything there is. *)
Lemma kheap_init_spec T p :
  pages_ok p -> frames_left p <= T -> T * PAGE_SIZE < 0xFFFFFFFF00000000 - KHEAP_START_VIRT ->
  let h := kheap_init (heap_static p) in
  first_block h = 0 \/ (heap_ok T h [Blk KHEAP_START_VIRT KHEAP_INITIAL_SIZE true] /\ poison_damage h = 0).
Proof.
  intros Hp Hl HT. cbn zeta. unfold kheap_init.
  assert (funded T (heap_static p)) as Hf.
  { unfold funded. simpl. split_and!; try done. unfold PAGE_SIZE in *. lia. }
  pose proof (expand_heap_spec T _ KHEAP_INITIAL_SIZE Hf) as HX.
  destruct (expand_heap (heap_static p) KHEAP_INITIAL_SIZE) as [ok h]. destruct HX as (Hf'&(A1&A2&A3&A4&A5&A6&A7&A8)&He&_).
  { unfold KHEAP_INITIAL_SIZE. lia. }
  destruct ok; cbn [negb]; [right|by left].
  simpl in A3, A4, He. rewrite page_align_up_eq in He by (unfold KHEAP_INITIAL_SIZE; lia).
  change ((KHEAP_INITIAL_SIZE + 4095) / 4096 * 4096) with KHEAP_INITIAL_SIZE in He.
  cbn [first_block set_last_block set_first_block store set_mem heap_end_virt]. rewrite He.
  replace (KHEAP_START_VIRT + KHEAP_INITIAL_SIZE - KHEAP_START_VIRT) with KHEAP_INITIAL_SIZE by lia.
  rewrite (u64_small KHEAP_INITIAL_SIZE) by (unfold KHEAP_INITIAL_SIZE; lia).
  set (b := Blk KHEAP_START_VIRT KHEAP_INITIAL_SIZE true).
  set (h1 := store _ (at_prev_size _) 0).
  assert (blks_ok [b]) as Hbok.
  { split; [|set_solver]. intros c ->%list_elem_of_singleton. unfold blk_ok, addr_ok, MIN_BLOCK. simpl.
    unfold KHEAP_START_VIRT, KHEAP_INITIAL_SIZE. zlia. }
  destruct (insert_free_spec h1 (fun _ => []) [] b) as (m2&fl2&fls2&Hi&Hlo&Hh&Hfr); [|done|set_solver| |].
  { simpl. rewrite A3. apply lists_ok_empty. }
  { left. simpl. rewrite write_ne by (unfold_at; lia). apply write_eq. }
  change (ba b) with KHEAP_START_VIRT in *. rewrite Hi.
  assert (size_of (set_lists h1 m2 fl2) KHEAP_START_VIRT = KHEAP_INITIAL_SIZE) as Hsz.
  { apply (size_of_header _ b); [by apply Hbok; set_solver|by right]. }
  cbn [first_block set_lists h1 store set_mem set_last_block set_first_block] in *. rewrite Hsz.
  change (u64 (KHEAP_INITIAL_SIZE - MIN_BLOCK)) with (KHEAP_INITIAL_SIZE - MIN_BLOCK).
  assert (forall x, x < KHEAP_START_VIRT + 32 ->
    fill m2 (links KHEAP_START_VIRT + 16) (KHEAP_INITIAL_SIZE - MIN_BLOCK) POISON_WORD x = m2 x) as Hlow.
  { intros x Hx. unfold fill. unfold_at. zcase; [lia|done]. }
  split; [|exact A6]. split_and!; [|done|by simpl; rewrite A4]. exists fls2. split; simpl; try done.
  - cbn [seg]. split; [done|]. split; [by apply Hbok; set_solver|]. split; [|by rewrite He].
    unfold block_words. cbn [ba bsz bfree b]. split_and!.
    + rewrite Hlow by lia. done.
    + rewrite Hlow by (unfold_at; lia). rewrite Hfr; [apply write_eq|unfold_at; lia|].
      rewrite link_word_cons. simpl. unfold_at. intros [|[|?%link_word_nil]]; [lia|lia|done].
    + intros _ x Hx. unfold fill, MIN_BLOCK in *. unfold_at. zcase; [done|]. zbool. lia.
  - destruct Hlo as [B1 B2 B3 B4 B5]. split; try done. intros k Hk. eapply dllseg_frame; [|by apply B3].
    intros a Ha. apply B5 in Ha as (c&->%list_elem_of_singleton&<-&_); [|done]. simpl.
    split; apply Hlow; unfold_at; lia.
  - by apply (funded_end_ok T).
Qed.

(** * Lemmas on blocks in use *)

Lemma used_bytes_used bs : used_bytes bs = used_bytes (used bs).
Proof.
  induction bs as [|b bs IH]; [done|]. unfold used. simpl. rewrite filter_cons. destruct (bfree b) eqn:E.
  - rewrite decide_False by congruence. done.
  - rewrite decide_True by done. simpl. rewrite E, IH. done.
Qed.

#[global] Instance used_bytes_proper : Proper ((≡ₚ) ==> eq) used_bytes.
Proof. intros l l' Hp. induction Hp; simpl; try lia. Qed.

Lemma used_bytes_perm bs l : used bs ≡ₚ l -> used_bytes bs = used_bytes l.
Proof. intros Hp. rewrite used_bytes_used. by rewrite Hp. Qed.

(** Poison has the free bit set. *)
Lemma in_free_is_free h bs fls a :
  shape h bs fls -> in_free h bs a -> a < heap_end_virt h -> is_free h a = true.
Proof.
  intros Hs (c&Hc&Hcf&Ha&Hin) Hlt. specialize (Hin Hlt). apply list_elem_of_split in Hc as (l1&l2&->).
  destruct (shape_block _ _ _ _ _ Hs) as (_&_&Hfr&_&Hpo&_). destruct Ha as [<-|Ha]; [congruence|].
  unfold is_free, load, at_size. rewrite (Hpo Hcf a) by lia. done.
Qed.

(** * Clients *)

(** The owner of a block writes to it. *)
Lemma heap_ok_write T h bs u a v :
  heap_ok T h bs -> u ∈ bs -> bfree u = false -> ba u + HEADER <= a < ba u + bsz u -> heap_ok T (store h a v) bs.
Proof.
  intros [[fls Hs] Hr] Hu Huf Ha. apply list_elem_of_split in Hu as (l1&l2&->).
  pose proof (open_used _ _ _ _ _ Hs Huf) as Ho.
  destruct (shape_block _ _ _ _ _ Hs) as (_&_&_&Hp&_). destruct (shape_split _ _ _ _ _ Hs) as (e&_&_&_&(W&_)&_).
  rewrite Huf in W. unfold HEADER in *. split; [|done]. exists fls.
  assert (Blk (ba u) (bsz u) false = u) as <- by (destruct u; simpl in *; by subst).
  apply close_used; simpl.
  - apply open_write; [by destruct u| | |].
    + intros x Hx. apply write_ne. simpl in *. lia.
    + rewrite write_ne by (unfold_at; simpl in *; lia). done.
    + left. rewrite write_ne by (simpl; lia). simpl. lia.
  - rewrite write_ne by lia. lia.
Qed.

(** What the rest of the kernel does with its heap: it allocates, it gives back
    what it holds, and it writes to words of what it holds. [live] lists the
    pointers it holds with the sizes it asked for. *)
Inductive heap_step : heap P * list (Z * Z) -> heap P * list (Z * Z) -> Prop :=
| step_kmalloc h live size p h' :
    0 <= size < 0x10000000000000000 -> kmalloc h size = (Kmalloc_ptr p, h') ->
    heap_step (h, live) (h', if p =? 0 then live else (p, size) :: live)
| step_kfree h l1 p s l2 h' twice :
    kfree h p = (h', twice) -> heap_step (h, l1 ++ (p, s) :: l2) (h', l1 ++ l2)
| step_write h live p s a v :
    (p, s) ∈ live -> p <= a < p + s -> heap_step (h, live) (store h a v, live).

Definition holds (u : blk) (ps : Z * Z) : Prop := ba u + HEADER = ps.1 /\ ps.2 <= bsz u - HEADER.

Definition client_ok (T : Z) (s : heap P * list (Z * Z)) : Prop :=
  exists bs us, heap_ok T s.1 bs /\ used bs ≡ₚ us /\ Forall2 holds us s.2 /\ poison_damage s.1 = 0.

Lemma client_step_ok T s s' : client_ok T s -> heap_step s s' -> client_ok T s'.
Proof.
  intros (bs&us&Hok&Hus&Hall&Hd) Hst. destruct Hst as [h live size p h' Hsz Hk|h l1 p s l2 h' tw Hk|h live p s a v Hin Ha]; simpl in *.
  - pose proof (kmalloc_spec T h bs size Hok Hsz) as HS. rewrite Hk in HS.
    destruct HS as (bs'&Hok'&_&Hd'&Hp). destruct (Z.eqb_spec p 0).
    + destruct Hp as [-> _]. exists bs, us. simpl. split_and!; try done. congruence.
    + destruct Hp as (sz&Hu&Hle&_). exists bs', (Blk (p - HEADER) sz false :: us). simpl. split_and!; try done.
      * by rewrite Hu, Hus.
      * constructor; [|done]. split; simpl; lia.
      * congruence.
  - apply Forall2_app_inv_r in Hall as (u1&u2'&H1&H2&->). inversion H2 as [|u ps u2 l2' Hh H2' E1 E2]. subst.
    destruct Hh as [Hh1 Hh2]. simpl in *.
    assert (u ∈ bs /\ bfree u = false) as [Hu Huf].
    { assert (u ∈ used bs) as Hu by (rewrite Hus; set_solver). by apply list_elem_of_filter in Hu as [? ?]. }
    apply list_elem_of_split in Hu as (b1&b2&->).
    pose proof (kfree_spec T h b1 u b2 Hok Huf) as HS. rewrite Hh1, Hk in HS.
    destruct HS as (_&bs'&Hok'&Hu'&_&_&Hd'&_). exists bs', (u1 ++ u2). simpl. split_and!; try done.
    + rewrite Hu'. rewrite used_app in *. unfold used in Hus at 2. rewrite filter_cons_True in Hus by done.
      apply (Permutation_cons_inv (a := u)). rewrite Permutation_middle. rewrite Hus. by rewrite Permutation_middle.
    + by apply Forall2_app.
    + congruence.
  - assert (exists u, u ∈ us /\ holds u (p, s)) as (u&Hu&Hh).
    { apply list_elem_of_lookup in Hin as [i Hi]. destruct (Forall2_lookup_r _ _ _ _ _ Hall Hi) as (u&?&?).
      exists u. split; [by eapply list_elem_of_lookup_2|done]. }
    rewrite <- Hus in Hu. apply list_elem_of_filter in Hu as [Huf Hu]. destruct Hh. simpl in *.
    exists bs, us. simpl. split_and!; try done. apply (heap_ok_write T h bs u); try done. lia.
Qed.

Lemma apart_pairs (us : list blk) :
  (forall u v, u ∈ us -> v ∈ us -> u = v \/ apart u v) -> NoDup us -> ForallOrdPairs apart us.
Proof.
  intros Hap Hnd. induction Hnd as [|u us Hu Hnd IH]; constructor.
  - apply Forall_forall. intros v Hv. destruct (Hap u v) as [->|]; [set_solver|set_solver|done|done].
  - apply IH. intros v w Hv Hw. apply Hap; set_solver.
Qed.

Lemma holds_disjoint us live :
  Forall2 holds us live -> ForallOrdPairs apart us ->
  ForallOrdPairs (fun '(q, s) '(q', s') => q + s <= q' \/ q' + s' <= q) live.
Proof.
  intros Hall. induction Hall as [|u [q s] us live [Hu1 Hu2] Hall IH]; intros Hap; [constructor|].
  inversion Hap as [|?? Hfa Hap' E]. subst. constructor; [|by apply IH]. clear IH Hap Hap'.
  induction Hall as [|v [q' s'] us live [Hv1 Hv2] Hall IH]; [constructor|].
  apply Forall_cons in Hfa as [Hap Hfa]. constructor; [|by apply IH].
  unfold apart, HEADER in *. simpl in *. lia.
Qed.

(** * The properties *)

(** C6. On a heap in order [kmalloc] returns a block of its own: 16-byte
    aligned, at least as large as asked for, inside the heap and apart from
    every block handed out before, whose payloads keep their contents. It
    returns NULL only for size 0, for more than [KHEAP_MAX_ALLOC], or when every
    free block is smaller than the request with its header and, of the pages at the
    heap's end that would hold it (64 KB at least), there is one for which no frame is
    left or which the page tables do not take; then the blocks in use are the
    same. It never mistakes its own bookkeeping for damaged memory. *)
Theorem kmalloc_correct T h bs size :
  heap_ok T h bs -> 0 <= size < 0x10000000000000000 ->
  let '(r, h') := kmalloc h size in
  exists bs', heap_ok T h' bs' /\ kept bs h h' /\ poison_damage h' = poison_damage h /\
  match r with
  | Kmalloc_panic => False
  | Kmalloc_ptr p =>
      if p =? 0 then
        used bs' = used bs /\ (size = 0 \/ KHEAP_MAX_ALLOC < size \/
          (failed_allocations h' = u64 (failed_allocations h + 1) /\ (forall b, b ∈ bs -> bfree b = true -> bsz b < need_of size) /\
           no_pages (grow_pages (need_of size)) (heap_end_virt h) (pages h)))
      else exists b, used bs' ≡ₚ b :: used bs /\ ba b + HEADER = p /\ p mod 16 = 0 /\ size <= bsz b - HEADER /\
             KHEAP_START_VIRT <= ba b /\ ba b + bsz b <= heap_end_virt h' /\
             (forall u, u ∈ used bs -> apart u b)
  end.
Proof.
  intros Hok Hsz. pose proof (kmalloc_spec T h bs size Hok Hsz) as HS. destruct (kmalloc h size) as [[p|] h'].
  2: { destruct HS as (?&?&?&?&[]). }
  destruct HS as (bs'&Hok'&Hk&Hd&Hp). exists bs'. split_and!; try done. destruct (p =? 0).
  - by destruct Hp as [-> ?].
  - destruct Hp as (sz&Hu&Hle&Hal). pose proof Hok' as [[fls Hs] _]. set (b := Blk (p - HEADER) sz false) in *.
    assert (b ∈ bs') as Hb.
    { assert (b ∈ used bs') as Hb by (rewrite Hu; set_solver). by apply list_elem_of_filter in Hb as [_ ?]. }
    destruct (seg_bounds _ _ _ _ _ _ (sh_seg _ _ _ Hs) Hb) as (?&?&?).
    exists b. split_and!; try done; [simpl; lia|]. intros u Hin.
    assert (NoDup (used bs')) as Hnd by (apply NoDup_filter; eapply seg_NoDup, Hs).
    rewrite Hu in Hnd. apply NoDup_cons in Hnd as [Hnb _].
    destruct (proj2 (shape_blks_ok _ _ _ Hs) u b) as [->|]; [|done|done|done].
    assert (u ∈ used bs') as Hu' by (rewrite Hu; set_solver). by apply list_elem_of_filter in Hu' as [_ ?].
Qed.

(** C7. [kfree] of a block in use takes exactly that block out of use: the heap
    stays in order, every other block keeps its place, its size and its
    contents, and the statistics follow. *)
Theorem kfree_correct T h bs u :
  heap_ok T h bs -> u ∈ used bs ->
  let '(h', twice) := kfree h (ba u + HEADER) in
  twice = false /\ exists bs', heap_ok T h' bs' /\ used bs ≡ₚ u :: used bs' /\ kept bs' h h' /\
    total_allocated_bytes h' = total_allocated_bytes h - (bsz u - HEADER) /\
    failed_allocations h' = failed_allocations h /\ poison_damage h' = poison_damage h.
Proof.
  intros Hok [Huf Hu]%list_elem_of_filter. apply list_elem_of_split in Hu as (l1&l2&->).
  pose proof (kfree_spec T h l1 u l2 Hok Huf) as HS. destruct (kfree h (ba u + HEADER)) as [h' tw].
  destruct HS as (Htw&bs'&Hok'&Hus&Hk&Hf&Hd&_). split; [done|]. exists bs'.
  assert (used (l1 ++ u :: l2) ≡ₚ u :: used bs') as Hperm.
  { rewrite Hus, !used_app. unfold used at 2. rewrite filter_cons_True by done. symmetry. apply Permutation_middle. }
  split_and!; try done.
  - by apply (kept_used (l1 ++ l2)).
  - destruct Hok as (_&_&->). destruct Hok' as (_&_&->).
    rewrite (used_bytes_perm _ _ Hperm), (used_bytes_used bs'). simpl. rewrite Huf. lia.
Qed.

(** Freeing a pointer a second time is noticed and changes nothing, as long
    as its header is still part of the heap; also when the block was merged into
    a neighbour meanwhile, because poison reads as the header of a free block. *)
Theorem kfree_twice T h bs u :
  heap_ok T h bs -> u ∈ used bs ->
  let h' := fst (kfree h (ba u + HEADER)) in
  ba u < heap_end_virt h' -> kfree h' (ba u + HEADER) = (h', true).
Proof.
  intros Hok [Huf Hu]%list_elem_of_filter. apply list_elem_of_split in Hu as (l1&l2&->).
  pose proof (kfree_spec T h l1 u l2 Hok Huf) as HS. cbn zeta. destruct (kfree h (ba u + HEADER)) as [h' tw].
  destruct HS as (_&bs'&[[fls' Hs'] _]&_&_&_&_&Hin). cbn [fst]. intros Hlt.
  pose proof Hok as [[fls Hs] _]. destruct (shape_block _ _ _ _ _ Hs) as (((?&?)&?)&_&_&_&_&?&?&_).
  unfold kfree, HEADER, MIN_BLOCK, KHEAP_START_VIRT in *. destruct (Z.eqb_spec (ba u + 16) 0); [lia|].
  replace (ba u + 16 - 16) with (ba u) by lia. rewrite u64_small by lia.
  rewrite (in_free_is_free h' bs' fls' (ba u)); done.
Qed.

(** C8. Whatever sequence of calls and writes into live allocations follows
    [kheap_init]: [kheap_check] reports no corruption and no poison damage has
    been seen, live allocations are aligned, lie in the heap and never overlap,
    and the next [kmalloc] cannot panic. *)
Theorem heap_client_safe T p h live :
  pages_ok p -> frames_left p <= T -> T * PAGE_SIZE < 0xFFFFFFFF00000000 - KHEAP_START_VIRT ->
  first_block (kheap_init (heap_static p)) <> 0 ->
  rtc heap_step (kheap_init (heap_static p), []) (h, live) ->
  kheap_check h = true /\ poison_damage h = 0 /\
  Forall (fun '(q, s) => q mod 16 = 0 /\ KHEAP_START_VIRT < q /\ q + s <= heap_end_virt h) live /\
  ForallOrdPairs (fun '(q, s) '(q', s') => q + s <= q' \/ q' + s' <= q) live /\
  forall size, 0 <= size < 0x10000000000000000 -> fst (kmalloc h size) <> Kmalloc_panic.
Proof.
  intros Hp Hl HT Hne Hsteps. destruct (kheap_init_spec T p Hp Hl HT) as [|[Hinit Hd0]]; [done|].
  assert (client_ok T (h, live)) as (bs&us&Hok&Hus&Hall&Hd).
  { apply (rtc_invariant heap_step _ (kheap_init (heap_static p), [])); [apply client_step_ok| |done].
    eexists _, []. split_and!; [exact Hinit|done|constructor|done]. }
  simpl in *. pose proof Hok as [[fls Hs] _]. destruct (shape_blks_ok _ _ _ Hs) as [Hb1 Hb2].
  assert (forall u, u ∈ us -> u ∈ bs) as Hin.
  { intros u Hu. rewrite <- Hus in Hu. by apply list_elem_of_filter in Hu as [_ ?]. }
  split_and!; [by eapply kheap_check_shape|done| | |].
  - apply Forall_forall. intros [q s] Hq. apply list_elem_of_lookup in Hq as [i Hi].
    destruct (Forall2_lookup_r _ _ _ _ _ Hall Hi) as (u&Hu&Hq1&Hq2). simpl in *.
    apply list_elem_of_lookup_2, Hin in Hu. destruct (seg_bounds _ _ _ _ _ _ (sh_seg _ _ _ Hs) Hu) as (?&?&((?&?)&?&?)).
    unfold HEADER, MIN_BLOCK in *. split_and!; [zlia|lia|lia].
  - apply (holds_disjoint us); [done|]. apply apart_pairs; [by intros u v Hu Hv; apply Hb2; apply Hin|].
    rewrite <- Hus. apply NoDup_filter. eapply seg_NoDup, Hs.
  - intros size Hsz. pose proof (kmalloc_spec T h bs size Hok Hsz) as HK. destruct (kmalloc h size) as [[q|] h']; [done|].
    by destruct HK as (?&?&?&?&[]).
Qed.

End Check.
