(* ===== verification/Cow.v ===== *)
(** Physical frames with several owners, [src/mm/cow.c] and [src/mm/cow.h]:
    the counts behind copy-on-write, shared memory and the page cache.

    The calls of this file take [cow_lock] around each access to the table and
    the frame allocator's own lock inside [pmm_free_frame]; each is one step
    here. *)
From stdpp Require Import base tactics numbers list sets gmap relations.
From Stdlib Require Import ZArith Lia.
From S2P Require Import Prelude Pmm.

Open Scope Z_scope.

(** [extra_owners] is NULL before [cow_init]. *)
Record cow := mkCow {
  frames : pmm;
  extra_owners : option (list Z);
  tracked_frames : Z
}.

Definition set_frames (c : cow) (p : pmm) : cow := mkCow p (extra_owners c) (tracked_frames c).
Definition set_extra (c : cow) (f v : Z) : cow :=
  mkCow (frames c) (match extra_owners c with Some l => Some (put l f v) | None => None end) (tracked_frames c).

(** [None] is the panic. *)
Definition cow_init (c : cow) : option cow :=
  let tracked := total_frames (frames c) in
  let bytes := u64 (tracked * 2) in
  let pages := u64 (bytes + PAGE_SIZE - 1) / PAGE_SIZE in
  let '(phys, p) := pmm_alloc_frames pages (frames c) in
  if phys =? 0 then None
  else Some (mkCow p (Some (replicate (Z.to_nat (pages * PAGE_SIZE / 2)) 0)) tracked).

Definition extra (c : cow) (f : Z) : Z := match extra_owners c with Some l => get l f | None => 0 end.

(** [!extra_owners || frame >= tracked_frames] *)
Definition untracked (c : cow) (f : Z) : bool :=
  match extra_owners c with None => true | Some _ => tracked_frames c <=? f end.

Definition pmm_ref_frame (phys : Z) (c : cow) : cow :=
  let frame := phys / PAGE_SIZE in
  if untracked c frame then c else set_extra c frame (u16 (extra c frame + 1)).

Definition pmm_unref_frame (phys : Z) (c : cow) : cow :=
  if phys =? 0 then c else
  let frame := phys / PAGE_SIZE in
  if negb (untracked c frame) && (0 <? extra c frame)
  then set_extra c frame (extra c frame - 1)
  else set_frames c (pmm_free_frame phys (frames c)).

Definition pmm_frame_shared_hint (phys : Z) (c : cow) : bool :=
  let frame := phys / PAGE_SIZE in
  if untracked c frame then false else 0 <? extra c frame.

Definition pmm_get_frame_ref (phys : Z) (c : cow) : Z :=
  let frame := phys / PAGE_SIZE in
  if untracked c frame then 1 else u32 (extra c frame + 1).

(** Allocation goes straight to the frame allocator. *)
Definition alloc_frame (c : cow) : Z * cow :=
  let '(phys, p) := pmm_alloc_frame (frames c) in (phys, set_frames c p).

Definition free_frame (phys : Z) (c : cow) : cow := set_frames c (pmm_free_frame phys (frames c)).

(** * Invariant *)

Record cow_ok (c : cow) : Prop := {
  co_wf : pmm_wf (frames c);
  co_bitmap : bitmap (frames c) <> 0;
  co_tracked : tracked_frames c = total_frames (frames c);
  co_table : exists l, extra_owners c = Some l /\ tracked_frames c <= Z.of_nat (length l);
  co_range : forall f, 0 <= f -> 0 <= extra c f < 0x10000;
  co_free : forall f, f ∈ abs (frames c) -> extra c f = 0
}.

(** How many owners a frame has: none if it is free. *)
Definition owners (c : cow) (f : Z) : Z := if bool_decide (f ∈ abs (frames c)) then 0 else extra c f + 1.

Lemma untracked_false c f : cow_ok c -> 0 <= f < total_frames (frames c) -> untracked c f = false.
Proof.
  intros Hc Hf. unfold untracked. destruct (co_table c Hc) as (l&->&_).
  apply Z.leb_gt. rewrite (co_tracked c Hc). lia.
Qed.

Lemma extra_set c f g v :
  cow_ok c -> 0 <= f < total_frames (frames c) -> 0 <= g -> extra (set_extra c f v) g = if g =? f then v else extra c g.
Proof.
  intros Hc Hf Hg. destruct (co_table c Hc) as (l&Hl&Hlen). rewrite (co_tracked c Hc) in Hlen.
  unfold extra, set_extra. simpl. rewrite Hl. by rewrite get_put by lia.
Qed.

Lemma set_extra_ok c f v :
  cow_ok c -> 0 <= f < total_frames (frames c) -> f ∉ abs (frames c) -> 0 <= v < 0x10000 -> cow_ok (set_extra c f v).
Proof.
  intros Hc Hf Hu Hv. pose proof (fun g => extra_set c f g v Hc Hf) as He. destruct Hc as [A B C D E F]. split; try done.
  - destruct D as (l&Hl&Hlen). exists (put l f v). simpl. rewrite Hl, length_put. done.
  - intros g Hg. rewrite He by done. destruct (Z.eqb_spec g f); [done|]. by apply E.
  - intros g Hg. simpl in Hg. pose proof Hg as Hg'. apply elem_of_abs in Hg' as [? _]. rewrite He by lia.
    destruct (Z.eqb_spec g f) as [->|]; [done|]. by apply F.
Qed.

(** One frame at a time. *)
Lemma pmm_free_frame_one p f :
  pmm_wf p -> bitmap p <> 0 -> 1 <= f < total_frames p ->
  let p' := pmm_free_frame (f * PAGE_SIZE) p in
  pmm_wf p' /\ bitmap p' = bitmap p /\ total_frames p' = total_frames p /\ abs p' = abs p ∪ {[f]}.
Proof.
  intros Hwf Hb Hf. pose proof (ct_total p (wf_counted p Hwf)) as HT.
  pose proof (pmm_free_frames_spec p (f * PAGE_SIZE) 1 Hwf Hb) as Hs. cbn zeta in *.
  replace (f * PAGE_SIZE / PAGE_SIZE) with f in Hs by (unfold PAGE_SIZE; zlia).
  unfold pmm_free_frame. destruct (pmm_free_frames (f * PAGE_SIZE) 1 p) as [p' w]. simpl.
  destruct Hs as (A&B&C&D&_); [unfold PAGE_SIZE; lia|lia|lia|].
  split_and!; try done. rewrite D. f_equal. apply set_eq. intros g.
  rewrite elem_of_intersection, !elem_of_frame_range, elem_of_singleton. lia.
Qed.

Lemma alloc_frame_spec c :
  cow_ok c ->
  let '(phys, c') := alloc_frame c in
  cow_ok c' /\ total_frames (frames c') = total_frames (frames c) /\ extra_owners c' = extra_owners c /\
  ((phys = 0 /\ abs (frames c') = abs (frames c) /\ abs (frames c) = ∅) \/
   (exists f, phys = f * PAGE_SIZE /\ 1 <= f < total_frames (frames c) /\ f ∈ abs (frames c) /\
      abs (frames c') = abs (frames c) ∖ {[f]})).
Proof.
  intros Hc. pose proof Hc as [A B C D E F]. unfold alloc_frame, pmm_alloc_frame.
  pose proof (pmm_alloc_frames_spec (frames c) 1 A B ltac:(lia)) as Hs.
  destruct (pmm_alloc_frames 1 (frames c)) as [phys p]. destruct Hs as (S1&S2&S3&S4).
  assert (forall f, frame_range f 1 = {[f]}) as Hone.
  { intros f. apply set_eq. intros g. rewrite elem_of_frame_range, elem_of_singleton. lia. }
  assert (abs p ⊆ abs (frames c)) as Hsub by (inversion S4; set_solver).
  split_and!; try done.
  - split; simpl; try done; [congruence|congruence|]. intros f Hf. apply F. by apply Hsub.
  - simpl. inversion S4 as [f H1 Hin Hphys Habs|Hno Hphys Habs]; subst; rewrite ?Hone in *.
    + right. exists f. split_and!; try done. assert (f ∈ abs (frames c)) as [? _]%elem_of_abs by set_solver. lia.
      set_solver.
    + left. split_and!; try done. apply set_eq. intros f. split; [|set_solver]. intros Hf. destruct (Hno f). rewrite Hone. set_solver.
Qed.

Lemma ref_frame_spec c f :
  cow_ok c -> 0 <= f < total_frames (frames c) -> f ∉ abs (frames c) -> owners c f < 0x10000 ->
  let c' := pmm_ref_frame (f * PAGE_SIZE) c in
  cow_ok c' /\ frames c' = frames c /\ owners c' f = owners c f + 1 /\ (forall g, 0 <= g -> g <> f -> owners c' g = owners c g).
Proof.
  intros Hc Hf Hu Ho. cbn zeta. unfold pmm_ref_frame. replace (f * PAGE_SIZE / PAGE_SIZE) with f by (unfold PAGE_SIZE; zlia).
  rewrite untracked_false by done. unfold owners in *. rewrite bool_decide_false in Ho by done.
  pose proof (co_range c Hc f ltac:(lia)). rewrite u16_small by lia.
  split_and!; [by apply set_extra_ok; [..|lia]|done| |].
  - simpl. rewrite !bool_decide_false by done. rewrite extra_set by (done || lia). rewrite Z.eqb_refl. lia.
  - intros g Hg Hne. simpl. rewrite extra_set by (done || lia). destruct (Z.eqb_spec g f); [done|]. done.
Qed.

Lemma unref_frame_spec c f :
  cow_ok c -> 1 <= f < total_frames (frames c) -> f ∉ abs (frames c) ->
  let c' := pmm_unref_frame (f * PAGE_SIZE) c in
  cow_ok c' /\ total_frames (frames c') = total_frames (frames c) /\ owners c' f = owners c f - 1 /\
  (forall g, 0 <= g -> g <> f -> owners c' g = owners c g).
Proof.
  intros Hc Hf Hu. cbn zeta. unfold pmm_unref_frame. replace (f * PAGE_SIZE / PAGE_SIZE) with f by (unfold PAGE_SIZE; zlia).
  destruct (Z.eqb_spec (f * PAGE_SIZE) 0); [unfold PAGE_SIZE in *; lia|]. rewrite untracked_false by (done || lia).
  pose proof (co_range c Hc f ltac:(lia)). cbn [negb andb]. unfold owners. rewrite (bool_decide_false (f ∈ abs (frames c))) by done.
  zcase.
  - split_and!; [apply set_extra_ok; [done|lia|done|lia]|done| |].
    + simpl. rewrite bool_decide_false by done. rewrite extra_set by (done || lia). rewrite Z.eqb_refl. lia.
    + intros g Hg Hne. simpl. rewrite extra_set by (done || lia). destruct (Z.eqb_spec g f); [done|]. done.
  - pose proof Hc as [A B C D E F]. destruct (pmm_free_frame_one (frames c) f A B Hf) as (P1&P2&P3&P4).
    split_and!.
    + split; simpl; try done; [congruence|congruence|]. intros g. rewrite P4. intros [Hg|Hg]%elem_of_union; [by apply F|].
      apply elem_of_singleton in Hg as ->. change (extra c f = 0). lia.
    + done.
    + simpl. rewrite P4. rewrite bool_decide_true by set_solver. lia.
    + intros g Hg Hne. simpl. rewrite P4. change (extra (set_frames c _) g) with (extra c g).
      destruct (decide (g ∈ abs (frames c))) as [Hin|Hin].
      * rewrite !bool_decide_true by set_solver. done.
      * rewrite !bool_decide_false by set_solver. done.
Qed.

Lemma get_frame_ref_owners c f :
  cow_ok c -> 0 <= f < total_frames (frames c) -> f ∉ abs (frames c) -> pmm_get_frame_ref (f * PAGE_SIZE) c = owners c f.
Proof.
  intros Hc Hf Hu. unfold pmm_get_frame_ref, owners. replace (f * PAGE_SIZE / PAGE_SIZE) with f by (unfold PAGE_SIZE; zlia).
  rewrite untracked_false by done. rewrite bool_decide_false by done. pose proof (co_range c Hc f ltac:(lia)).
  apply u32_small. lia.
Qed.

(** [cow_init] sets the table up. *)
Lemma cow_init_ok c c' :
  pmm_wf (frames c) -> bitmap (frames c) <> 0 -> 0 < total_frames (frames c) -> cow_init c = Some c' -> cow_ok c'.
Proof.
  intros Hwf Hb Hpos. unfold cow_init. pose proof (ct_total _ (wf_counted _ Hwf)) as HT.
  set (pages := u64 (u64 (total_frames (frames c) * 2) + PAGE_SIZE - 1) / PAGE_SIZE).
  assert (1 <= pages /\ total_frames (frames c) <= pages * PAGE_SIZE / 2) as [Hp1 Hp2].
  { unfold pages, PAGE_SIZE. rewrite (u64_small (_ * 2)) by lia. rewrite u64_small by lia. zlia. }
  clearbody pages. pose proof (pmm_alloc_frames_spec (frames c) pages Hwf Hb Hp1) as Hs.
  destruct (pmm_alloc_frames pages (frames c)) as [phys p]. destruct Hs as (A&B&C&_).
  destruct (phys =? 0); [done|]. intros [= <-].
  split; simpl; try done; try congruence.
  - eexists. split; [done|]. rewrite length_replicate. lia.
  - intros f Hf. unfold extra. simpl. rewrite get_replicate. lia.
  - intros f Hf. unfold extra. simpl. apply get_replicate.
Qed.

(** The offset of the direct map never changes. *)
Lemma bitmap_set_run_hhdm n : forall f p, hhdm_off (bitmap_set_run n f p) = hhdm_off p.
Proof. induction n as [|n IH]; intros f p; [done|]. cbn. by rewrite IH. Qed.
Lemma alloc_frame_hhdm c : hhdm_off (frames (snd (alloc_frame c))) = hhdm_off (frames c).
Proof.
  unfold alloc_frame, pmm_alloc_frame, pmm_alloc_frames. repeat case_match; simplify_eq; simpl; try done;
    by rewrite bitmap_set_run_hhdm.
Qed.
Lemma free_loop_hhdm n : forall f p b, hhdm_off (fst (pmm_free_loop n f p b)) = hhdm_off p.
Proof.
  induction n as [|n IH]; intros f p b; [done|]. cbn [pmm_free_loop].
  destruct (_ || _); rewrite IH; [done|]. by destruct (_ <? _).
Qed.
Lemma free_frame_hhdm phys c : hhdm_off (frames (free_frame phys c)) = hhdm_off (frames c).
Proof.
  unfold free_frame. simpl. unfold pmm_free_frame, pmm_free_frames. destruct (_ || _); [done|].
  pose proof (free_loop_hhdm (Z.to_nat 1) (phys / PAGE_SIZE) (frames c) 0). destruct (pmm_free_loop _ _ _ _). done.
Qed.
Lemma unref_hhdm phys c : hhdm_off (frames (pmm_unref_frame phys c)) = hhdm_off (frames c).
Proof. unfold pmm_unref_frame. destruct (phys =? 0); [done|]. destruct (_ && _); [done|]. apply free_frame_hhdm. Qed.

(** * Holders *)

(** References held to frame [f]. *)
Definition refs (held : list Z) (f : Z) : Z := Z.of_nat (count_occ Z.eq_dec held f).

(** What the users of this file do: take a fresh frame, become another owner of
    a frame somebody holds and that has fewer than 65536 owners, give up a reference.
    [held] lists the references, one entry each. *)
Inductive ref_step : cow * list Z -> cow * list Z -> Prop :=
| ref_alloc c held phys c' :
    alloc_frame c = (phys, c') -> phys <> 0 -> ref_step (c, held) (c', (phys / PAGE_SIZE) :: held)
| ref_share c held f :
    f ∈ held -> refs held f < 0x10000 ->
    ref_step (c, held) (pmm_ref_frame (f * PAGE_SIZE) c, f :: held)
| ref_drop c l1 f l2 :
    ref_step (c, l1 ++ f :: l2) (pmm_unref_frame (f * PAGE_SIZE) c, l1 ++ l2).

Definition refs_ok (s : cow * list Z) : Prop :=
  cow_ok s.1 /\ forall f, f ∈ s.2 -> 1 <= f < total_frames (frames s.1) /\ owners s.1 f = refs s.2 f.

(** The frame numbers of physical addresses. *)
Definition fno (l : list Z) : list Z := (fun p => p / PAGE_SIZE) <$> l.
Definition aligned (l : list Z) : Prop := Forall (fun p => p = p / PAGE_SIZE * PAGE_SIZE) l.

Lemma refs_cons held f g : refs (f :: held) g = (if g =? f then 1 else 0) + refs held g.
Proof. unfold refs. cbn [count_occ]. destruct (Z.eq_dec f g), (Z.eqb_spec g f); congruence || lia. Qed.

Lemma refs_pos held f : f ∈ held -> 1 <= refs held f.
Proof. intros Hf. apply list_elem_of_In, (count_occ_In Z.eq_dec) in Hf. unfold refs. lia. Qed.

Lemma refs_zero held f : f ∉ held -> refs held f = 0.
Proof.
  intros Hf. unfold refs. rewrite (proj1 (count_occ_not_In Z.eq_dec held f)); [done|]. by intros ?%list_elem_of_In.
Qed.

Lemma refs_middle l1 f l2 g : refs (l1 ++ f :: l2) g = (if g =? f then 1 else 0) + refs (l1 ++ l2) g.
Proof.
  unfold refs. rewrite !count_occ_app. cbn [count_occ]. destruct (Z.eq_dec f g), (Z.eqb_spec g f); congruence || lia.
Qed.

Lemma owners_used c f : 1 <= owners c f -> f ∉ abs (frames c).
Proof. unfold owners. intros Ho Hf. rewrite bool_decide_true in Ho by done. lia. Qed.

Lemma ref_step_ok s s' : refs_ok s -> ref_step s s' -> refs_ok s'.
Proof.
  intros [Hc Hh] Hs. destruct Hs as [c held phys c' Ha Hne|c held f Hf Hlen|c l1 f l2]; simpl in *.
  - pose proof (alloc_frame_spec c Hc) as HA. rewrite Ha in HA. destruct HA as (A1&A2&A3&[(->&_)|(f&->&Hr&Hfree&Habs)]); [done|].
    replace (f * PAGE_SIZE / PAGE_SIZE) with f by (unfold PAGE_SIZE; zlia). split; simpl; [done|].
    assert (f ∉ held) as Hnew.
    { intros Hin. destruct (Hh f Hin) as [_ Ho]. apply refs_pos in Hin. by apply (owners_used c f); [lia|]. }
    intros g Hg. rewrite refs_cons. unfold owners. rewrite Habs, A2. unfold extra. rewrite A3. fold (extra c g).
    destruct (Z.eqb_spec g f) as [->|Hgf].
    + rewrite bool_decide_false by set_solver. rewrite refs_zero by done. rewrite (co_free c Hc f Hfree). split; [done|lia].
    + destruct (Hh g ltac:(set_solver)) as [? Ho]. split; [done|]. rewrite <- Ho. unfold owners.
      rewrite (bool_decide_ext _ (g ∈ abs (frames c))) by set_solver. lia.
  - destruct (Hh f Hf) as [Hr Ho]. pose proof (refs_pos held f Hf).
    destruct (ref_frame_spec c f Hc) as (A1&A2&A3&A4); [lia|apply owners_used; lia|lia|].
    split; simpl; [done|]. intros g Hg. rewrite A2, refs_cons. destruct (Z.eqb_spec g f) as [->|Hgf]; [split; [done|lia]|].
    destruct (Hh g ltac:(set_solver)) as [? Ho']. split; [done|]. rewrite A4 by (done || lia). lia.
  - destruct (Hh f ltac:(set_solver)) as [Hr Ho]. pose proof (refs_pos (l1 ++ f :: l2) f ltac:(set_solver)).
    destruct (unref_frame_spec c f Hc) as (A1&A2&A3&A4); [lia|apply owners_used; lia|].
    split; simpl; [done|]. intros g Hg. destruct (Hh g ltac:(set_solver)) as [? Ho']. rewrite refs_middle in Ho'.
    rewrite A2. split; [done|]. destruct (Z.eqb_spec g f) as [->|Hgf]; [lia|]. rewrite A4 by (done || lia). lia.
Qed.

(** The order of the references does not matter, and what happens to frames
    nobody here holds does not either. *)
Lemma refs_perm h h' f : h ≡ₚ h' -> refs h f = refs h' f.
Proof. intros Hp. unfold refs. by rewrite (proj1 (Permutation_count_occ Z.eq_dec h h') Hp f). Qed.

Lemma refs_ok_perm c h h' : h ≡ₚ h' -> refs_ok (c, h) -> refs_ok (c, h').
Proof. intros Hp [Hc Hh]. split; [done|]. cbn in *. intros f. rewrite <- Hp at 1. rewrite <- (refs_perm h h' f Hp). apply Hh. Qed.

Lemma refs_ok_same c c' h : cow_ok c' -> total_frames (frames c') = total_frames (frames c) ->
  (forall f, f ∈ h -> owners c' f = owners c f) -> refs_ok (c, h) -> refs_ok (c', h).
Proof. intros Hc' Ht Ho [Hc Hh]. split; [done|]. cbn in *. intros f Hf. rewrite Ht, Ho by done. by apply Hh. Qed.

Lemma refs_ok_forget c f h : refs_ok (c, f :: h) -> f ∉ h -> refs_ok (c, h).
Proof.
  intros [Hc Hh] Hf. split; [done|]. cbn in *. intros g Hg. destruct (Hh g) as [Hr Ho]; [set_solver|].
  rewrite refs_cons in Ho. destruct (Z.eqb_spec g f) as [->|]; [done|]. done.
Qed.

Lemma refs_ok_owned c h f : refs_ok (c, h) -> f ∈ h -> 1 <= f < total_frames (frames c) /\ 1 <= owners c f /\ f ∉ abs (frames c).
Proof. intros [Hc Hh] Hf. destruct (Hh f Hf) as [Hr Ho]. cbn in *. pose proof (refs_pos h f Hf). split_and!; [lia|lia|lia|]. apply owners_used. lia. Qed.

Lemma alloc_frame_owners c : cow_ok c ->
  let '(phys, c') := alloc_frame c in
  cow_ok c' /\ total_frames (frames c') = total_frames (frames c) /\
  ((phys = 0 /\ forall g, owners c' g = owners c g) \/
   (exists f, phys = f * PAGE_SIZE /\ 1 <= f < total_frames (frames c) /\ owners c f = 0 /\ owners c' f = 1 /\
      forall g, g <> f -> owners c' g = owners c g)).
Proof.
  intros Hc. pose proof (alloc_frame_spec c Hc) as HA. destruct (alloc_frame c) as [phys c']. destruct HA as (A1&A2&A3&HA).
  split_and!; [done|done|]. assert (forall g, extra c' g = extra c g) as He by (intros g; unfold extra; by rewrite A3).
  destruct HA as [(->&Hs&_)|(f&->&Hr&Hf&Hs)].
  - left. split; [done|]. intros g. unfold owners. by rewrite Hs, He.
  - right. exists f. unfold owners. rewrite Hs, He. rewrite bool_decide_true by done. rewrite bool_decide_false by set_solver.
    rewrite (co_free c Hc f Hf). split_and!; [done|lia|lia|done|lia|]. intros g Hg. rewrite He.
    by rewrite (bool_decide_ext (g ∈ abs (frames c) ∖ {[f]}) (g ∈ abs (frames c))) by set_solver.
Qed.

(** A fresh frame for somebody else. *)
Lemma refs_ok_alloc c h phys c' : refs_ok (c, h) -> alloc_frame c = (phys, c') -> refs_ok (c', h).
Proof.
  intros Hr Ha. pose proof (alloc_frame_owners c (proj1 Hr)) as HA. rewrite Ha in HA. destruct HA as (A1&A2&HA).
  eapply refs_ok_same; [done|exact A2| |exact Hr]. intros g Hg.
  destruct HA as [(_&Hs)|(f&_&_&Hf&_&Hs)]; [done|]. apply Hs. intros ->. destruct (refs_ok_owned _ _ _ Hr Hg). lia.
Qed.

Lemma refs_drop c f h : refs_ok (c, f :: h) ->
  let c' := pmm_unref_frame (f * PAGE_SIZE) c in
  refs_ok (c', h) /\ owners c' f = owners c f - 1 /\ forall g, 0 <= g -> g <> f -> owners c' g = owners c g.
Proof.
  intros Hr. pose proof (ref_step_ok _ _ Hr (ref_drop c [] f h)) as Hr'. cbn zeta. split; [done|].
  destruct (refs_ok_owned _ _ f Hr) as (H1&H2&H3); [set_solver|]. by destruct (unref_frame_spec c f (proj1 Hr) H1 H3) as (_&_&?&?).
Qed.

Lemma refs_add c f h : refs_ok (c, h) -> f ∈ h -> owners c f < 0x10000 ->
  let c' := pmm_ref_frame (f * PAGE_SIZE) c in
  refs_ok (c', f :: h) /\ owners c' f = owners c f + 1 /\ forall g, 0 <= g -> g <> f -> owners c' g = owners c g.
Proof.
  intros Hr Hf Ho. destruct (refs_ok_owned _ _ f Hr Hf) as (H1&H2&H3). cbn zeta.
  destruct (ref_frame_spec c f (proj1 Hr)) as (A1&A2&A3&A4); [lia|done|done|]. split; [|done].
  split; [done|]. cbn. intros g Hg. rewrite A2, refs_cons. destruct (Z.eqb_spec g f) as [->|Hgf].
  - destruct (proj2 Hr f Hf) as [_ Ho']. cbn in Ho'. rewrite A3. split; [done|lia].
  - destruct (proj2 Hr g) as [? Ho']; [set_solver|]. cbn in *. rewrite A4 by (done || lia). split; [done|lia].
Qed.

(** Freeing a frame with one owner is giving up the last reference. *)
Lemma free_is_unref c f : cow_ok c -> 1 <= f < total_frames (frames c) -> owners c f = 1 ->
  free_frame (f * PAGE_SIZE) c = pmm_unref_frame (f * PAGE_SIZE) c.
Proof.
  intros Hc Hf Ho. unfold pmm_unref_frame, free_frame. destruct (Z.eqb_spec (f * PAGE_SIZE) 0); [unfold PAGE_SIZE in *; lia|].
  replace (f * PAGE_SIZE / PAGE_SIZE) with f by (unfold PAGE_SIZE; zlia). rewrite untracked_false by (done || lia).
  unfold owners in Ho. case_bool_decide; [lia|]. rewrite (proj2 (Z.ltb_ge 0 (extra c f))) by lia. done.
Qed.

(** * Properties *)

(** C22. A frame is never free while a reference to it is held, its count is the
    number of references held, and giving up the last one frees it: for any
    sequence of allocations, sharing and releases in which no frame that has 65536
    owners gets another. *)
Theorem cow_counts_references (c0 c : cow) (held : list Z) :
  cow_ok c0 -> rtc ref_step (c0, []) (c, held) ->
  (forall f, f ∈ held -> f ∉ abs (frames c) /\ pmm_get_frame_ref (f * PAGE_SIZE) c = refs held f) /\
  (forall l1 f l2, held = l1 ++ f :: l2 -> f ∉ l1 ++ l2 -> f ∈ abs (frames (pmm_unref_frame (f * PAGE_SIZE) c))).
Proof.
  intros Hc Hr. assert (refs_ok (c, held)) as [Hok Hh].
  { apply (rtc_invariant ref_step _ (c0, [])); [apply ref_step_ok| |done]. split; [done|]. simpl. set_solver. }
  simpl in *. split.
  - intros f Hf. destruct (Hh f Hf) as [? Ho]. pose proof (refs_pos held f Hf).
    assert (f ∉ abs (frames c)) by (apply owners_used; lia). split; [done|]. rewrite get_frame_ref_owners by (done || lia). done.
  - intros l1 f l2 -> Hlast. destruct (Hh f ltac:(set_solver)) as [Hf Ho]. rewrite refs_middle, Z.eqb_refl, refs_zero in Ho by done.
    destruct (unref_frame_spec c f Hok) as (A1&A2&A3&A4); [lia|apply owners_used; lia|].
    unfold owners in A3 at 1. destruct (bool_decide _) eqn:E; [by apply bool_decide_eq_true in E|].
    pose proof (co_range _ A1 f ltac:(lia)). lia.
Qed.

(** C23. The bound is needed: the count is 16 bits wide and does not saturate,
    so the 65537th owner makes it read as a single owner again. *)
Theorem cow_count_wraps (c : cow) (f : Z) :
  cow_ok c -> 1 <= f < total_frames (frames c) -> f ∉ abs (frames c) -> owners c f = 0x10000 ->
  let c' := pmm_ref_frame (f * PAGE_SIZE) c in
  pmm_get_frame_ref (f * PAGE_SIZE) c' = 1 /\ f ∈ abs (frames (pmm_unref_frame (f * PAGE_SIZE) c')).
Proof.
  intros Hc Hf Hu Ho. cbn zeta. unfold owners in Ho. rewrite bool_decide_false in Ho by done.
  assert (pmm_ref_frame (f * PAGE_SIZE) c = set_extra c f 0) as ->.
  { unfold pmm_ref_frame. replace (f * PAGE_SIZE / PAGE_SIZE) with f by (unfold PAGE_SIZE; zlia).
    rewrite untracked_false by (done || lia). rewrite Ho. done. }
  assert (cow_ok (set_extra c f 0)) as Hok by (apply set_extra_ok; done || lia).
  assert (owners (set_extra c f 0) f = 1) as H1.
  { unfold owners. simpl. rewrite bool_decide_false by done. rewrite extra_set by (done || lia). by rewrite Z.eqb_refl. }
  split; [rewrite get_frame_ref_owners by (done || (simpl; lia)); done|].
  destruct (unref_frame_spec (set_extra c f 0) f Hok) as (A1&A2&A3&A4); [done..|].
  rewrite H1 in A3. unfold owners in A3. destruct (bool_decide _) eqn:E; [by apply bool_decide_eq_true in E|].
  pose proof (co_range _ A1 f ltac:(lia)). lia.
Qed.

(** * Witnesses *)

Definition small_cow : cow := default (mkCow small_pmm None 0) (cow_init (mkCow small_pmm None 0)).

Lemma small_cow_ok : cow_ok small_cow.
Proof.
  apply (cow_init_ok (mkCow small_pmm None 0)); [apply small_pmm_wf|apply small_pmm_ready|vm_compute; done|].
  vm_compute. reflexivity.
Qed.

Lemma cow_counts_references_witness :
  let c := snd (alloc_frame small_cow) in
  (forall f, f ∈ [2] -> f ∉ abs (frames c) /\ pmm_get_frame_ref (f * PAGE_SIZE) c = refs [2] f) /\
  (forall l1 f l2, [2] = l1 ++ f :: l2 -> f ∉ l1 ++ l2 -> f ∈ abs (frames (pmm_unref_frame (f * PAGE_SIZE) c))).
Proof.
  apply (cow_counts_references small_cow); [apply small_cow_ok|].
  eapply rtc_l; [|apply rtc_refl]. apply (ref_alloc small_cow [] (2 * 4096)); [vm_compute; reflexivity|lia].
Defined.

Lemma cow_count_wraps_witness :
  let c' := pmm_ref_frame (1 * PAGE_SIZE) (set_extra small_cow 1 0xFFFF) in
  pmm_get_frame_ref (1 * PAGE_SIZE) c' = 1 /\ 1 ∈ abs (frames (pmm_unref_frame (1 * PAGE_SIZE) c')).
Proof.
  apply (cow_count_wraps (set_extra small_cow 1 0xFFFF) 1).
  - apply set_extra_ok; [apply small_cow_ok|vm_compute; intuition congruence|vm_compute; intuition congruence|lia].
  - vm_compute. intuition congruence.
  - vm_compute. intuition congruence.
  - vm_compute. reflexivity.
Defined.
