(* ===== verification/SwapSlots.v ===== *)
(** The slot table of the swap disk and the header [mkswap] writes: the first
    half of [src/mm/swap.c]. Paging out and in is modelled in [Swap]. *)
From stdpp Require Import base tactics numbers list sets.
From Stdlib Require Import ZArith Lia.
From S2P Require Import Prelude Pmm.

Open Scope Z_scope.

(** * The header *)

Definition HEADER_VERSION : Z := 1024.
Definition HEADER_LAST_PAGE : Z := 1028.
Definition HEADER_BAD_PAGES : Z := 1032.
(** "SWAPSPACE2" *)
Definition SIGNATURE : list Z := [83; 87; 65; 80; 83; 80; 65; 67; 69; 50].
Definition SIGNATURE_LENGTH : Z := 10.
Definition MAX_SLOTS : Z := Z.shiftl 1 20.

Definition get32 (page : list Z) (p : Z) : Z :=
  Z.lor (Z.lor (Z.lor (get page p) (u32 (Z.shiftl (get page (p + 1)) 8)))
    (u32 (Z.shiftl (get page (p + 2)) 16))) (u32 (Z.shiftl (get page (p + 3)) 24)).

(** The number of slots, if the page is a header the kernel accepts. *)
Definition swap_parse_header (page : list Z) (disk_pages : Z) : option Z :=
  if negb (bool_decide (take 10 (drop (Z.to_nat (PAGE_SIZE - SIGNATURE_LENGTH)) page) = SIGNATURE)) then None else
  if negb (get32 page HEADER_VERSION =? 1) then None else
  if negb (get32 page HEADER_BAD_PAGES =? 0) then None else
  let last_page := get32 page HEADER_LAST_PAGE in
  if (last_page =? 0) || (disk_pages <=? last_page) then None
  else Some (if MAX_SLOTS <? last_page then MAX_SLOTS else last_page).

(** * Slots *)

Record slots := mkSlots {
  active : bool;
  slot_count : Z;
  slot_owners : list Z;
  slots_free : Z;
  search_from : Z
}.

Definition slots_static : slots := mkSlots false 0 [] 0 1.

(** What [swap_init] sets up for a disk of [n] slots. *)
Definition swap_start (n : Z) : slots := mkSlots true n (replicate (Z.to_nat (n + 1)) 0) n 1.

Definition set_owners (s : slots) (o : list Z) (free : Z) : slots :=
  mkSlots (active s) (slot_count s) o free (search_from s).
Definition set_search (s : slots) (from : Z) : slots :=
  mkSlots (active s) (slot_count s) (slot_owners s) (slots_free s) from.

(** [search_from == slot_count ? 1 : search_from + 1] *)
Definition next_slot (s : slots) (slot : Z) : Z := if slot =? slot_count s then 1 else u32 (slot + 1).

(** The loop of [slot_alloc]; [n] is [slot_count - tried]. *)
Fixpoint slot_search (n : nat) (s : slots) : Z * slots :=
  match n with
  | O => (0, s)
  | S n' =>
      let slot := search_from s in
      let s := set_search s (next_slot s slot) in
      if get (slot_owners s) slot =? 0 then (slot, s) else slot_search n' s
  end.

Definition slot_alloc (s : slots) : Z * slots :=
  let '(found, s) := slot_search (Z.to_nat (slot_count s)) s in
  if found =? 0 then (0, s)
  else (found, set_owners s (put (slot_owners s) found 1) (u32 (slots_free s - 1))).

Definition bad_slot (s : slots) (slot : Z) : bool := negb (active s) || (slot =? 0) || (slot_count s <? slot).

Definition swap_slot_ref (slot : Z) (s : slots) : slots :=
  if bad_slot s slot then s else
  let n := get (slot_owners s) slot in
  if negb (n =? 0) && negb (n =? 0xFFFF)
  then set_owners s (put (slot_owners s) slot (n + 1)) (slots_free s) else s.

Definition swap_slot_unref (slot : Z) (s : slots) : slots :=
  if bad_slot s slot then s else
  let n := get (slot_owners s) slot in
  if negb (n =? 0)
  then set_owners s (put (slot_owners s) slot (n - 1)) (if n - 1 =? 0 then u32 (slots_free s + 1) else slots_free s)
  else s.

(** * Invariant *)

(** Slot [i] is free. *)
Definition slot_free (s : slots) (i : Z) : bool := (1 <=? i) && (get (slot_owners s) i =? 0).

Record slots_ok (s : slots) : Prop := {
  so_active : active s = true;
  so_count : 1 <= slot_count s <= 0x100000;
  so_len : Z.of_nat (length (slot_owners s)) = slot_count s + 1;
  so_range : forall i, 0 <= i -> 0 <= get (slot_owners s) i < 0x10000;
  so_free : slots_free s = count_below (slot_free s) (Z.to_nat (slot_count s + 1));
  so_from : 1 <= search_from s <= slot_count s
}.

Lemma set_search_ok s f : slots_ok s -> 1 <= f <= slot_count s -> slots_ok (set_search s f).
Proof. intros [] Hf. by split. Qed.

Lemma next_slot_range s i : slots_ok s -> 1 <= i <= slot_count s -> 1 <= next_slot s i <= slot_count s.
Proof.
  intros Hs Hi. pose proof (so_count s Hs). unfold next_slot. destruct (Z.eqb_spec i (slot_count s)); [lia|].
  rewrite u32_small; lia.
Qed.

(** Going round: one step brings slot [j] one closer. *)
Lemma next_slot_distance s i j :
  slots_ok s -> 1 <= i <= slot_count s -> 1 <= j <= slot_count s -> j <> i ->
  (j - next_slot s i) mod slot_count s = (j - i) mod slot_count s - 1.
Proof.
  intros Hs Hi Hj Hne. pose proof (so_count s Hs). unfold next_slot.
  assert (forall x, 0 <= x < slot_count s -> x mod slot_count s = x) as Hsm by (intros; by apply Z.mod_small).
  assert (forall x, - slot_count s <= x < 0 -> x mod slot_count s = x + slot_count s) as Hneg.
  { intros x Hx. symmetry. apply (Z.mod_unique_pos _ _ (-1)); lia. }
  destruct (Z.eqb_spec i (slot_count s)) as [->|].
  - rewrite Hsm, Hneg by lia. lia.
  - rewrite u32_small by lia. destruct (Z.lt_ge_cases j i).
    + rewrite !Hneg by lia. lia.
    + rewrite !Hsm by lia. lia.
Qed.

Lemma slot_search_spec : forall n s,
  slots_ok s ->
  let '(found, s') := slot_search n s in
  slots_ok s' /\ slot_count s' = slot_count s /\ slot_owners s' = slot_owners s /\
  ((found = 0 /\ forall j, 1 <= j <= slot_count s -> (j - search_from s) mod slot_count s < Z.of_nat n ->
      get (slot_owners s) j <> 0) \/
   (1 <= found <= slot_count s /\ get (slot_owners s) found = 0)).
Proof.
  induction n as [|n IH]; intros s Hs; cbn [slot_search].
  - split_and!; try done. left. split; [done|]. intros j Hj Hd. pose proof (Z.mod_pos_bound (j - search_from s) (slot_count s)). lia.
  - pose proof (so_from s Hs) as Hf. pose proof (next_slot_range s _ Hs Hf) as Hn.
    pose proof (set_search_ok s _ Hs Hn) as Hs1.
    set (s1 := set_search s (next_slot s (search_from s))) in *.
    change (slot_owners s1) with (slot_owners s). destruct (Z.eqb_spec (get (slot_owners s) (search_from s)) 0) as [H0|H0].
    + split_and!; try done. by right.
    + specialize (IH s1 Hs1). destruct (slot_search n s1) as [found s']. destruct IH as (A&B&C&D).
      split_and!; try done. destruct D as [[-> Hall]|]; [left|by right]. split; [done|]. intros j Hj Hd.
      destruct (decide (j = search_from s)) as [->|Hne]; [done|]. apply Hall; [done|]. simpl.
      rewrite next_slot_distance by done. lia.
Qed.

(** Changing the owners of one slot. *)
Lemma set_owners_ok s slot v free :
  slots_ok s -> 1 <= slot <= slot_count s -> 0 <= v < 0x10000 ->
  free = slots_free s + (if v =? 0 then 1 else 0) - (if get (slot_owners s) slot =? 0 then 1 else 0) ->
  slots_ok (set_owners s (put (slot_owners s) slot v) free) /\
  (forall j, 0 <= j -> get (put (slot_owners s) slot v) j = if j =? slot then v else get (slot_owners s) j).
Proof.
  intros [A B C D E F] Hs Hv Hfree.
  assert (forall j, 0 <= j -> get (put (slot_owners s) slot v) j = if j =? slot then v else get (slot_owners s) j) as Hg.
  { intros j Hj. apply get_put; lia. }
  split; [|done]. split; try done; simpl.
  - by rewrite length_put.
  - intros i Hi. rewrite Hg by done. destruct (i =? slot); [done|by apply D].
  - rewrite Hfree, E. set (s' := set_owners s _ _).
    assert (forall i, 0 <= i -> i <> slot -> slot_free s' i = slot_free s i) as Hother.
    { intros i Hi Hne. unfold slot_free. simpl. rewrite Hg by done. by destruct (Z.eqb_spec i slot). }
    assert (slot_free s slot = (get (slot_owners s) slot =? 0)) as E1.
    { unfold slot_free. destruct (Z.leb_spec 1 slot); [done|lia]. }
    assert (slot_free s' slot = (v =? 0)) as E2.
    { unfold slot_free. simpl. rewrite Hg, Z.eqb_refl by lia. destruct (Z.leb_spec 1 slot); [done|lia]. }
    destruct (get (slot_owners s) slot =? 0) eqn:Eo, (v =? 0) eqn:Ev.
    + rewrite (count_below_ext (slot_free s') (slot_free s)); [lia|]. intros i Hi.
      destruct (decide (i = slot)) as [->|]; [congruence|apply Hother; lia].
    + rewrite (count_below_flip (slot_free s') (slot_free s) _ slot); [lia|lia|done|done|]. intros i Hi Hne. apply Hother; lia.
    + rewrite (count_below_flip (slot_free s) (slot_free s') _ slot); [lia|lia|done|done|]. intros i Hi Hne. symmetry. apply Hother; lia.
    + rewrite (count_below_ext (slot_free s') (slot_free s)); [lia|]. intros i Hi.
      destruct (decide (i = slot)) as [->|]; [congruence|apply Hother; lia].
Qed.

Lemma slots_free_range s : slots_ok s -> 0 <= slots_free s <= slot_count s + 1.
Proof.
  intros Hs. rewrite (so_free s Hs). pose proof (so_count s Hs).
  pose proof (count_below_range (slot_free s) (Z.to_nat (slot_count s + 1))). lia.
Qed.

Lemma slots_free_pos s i : slots_ok s -> 1 <= i <= slot_count s -> get (slot_owners s) i = 0 -> 1 <= slots_free s.
Proof.
  intros Hs Hi H0. rewrite (so_free s Hs). apply (count_below_pos _ _ i); [lia|]. unfold slot_free.
  rewrite H0. destruct (Z.leb_spec 1 i); [done|lia].
Qed.

Lemma slots_free_lt s i :
  slots_ok s -> 1 <= i <= slot_count s -> get (slot_owners s) i <> 0 -> slots_free s <= slot_count s.
Proof.
  intros Hs Hi Hne. rewrite (so_free s Hs). pose proof (so_count s Hs).
  assert (count_below (slot_free s) (Z.to_nat (slot_count s + 1)) + 1 <= Z.of_nat (Z.to_nat (slot_count s + 1))); [|lia].
  rewrite <- (count_below_flip (slot_free s) (fun j => if j =? 0 then true else slot_free s j) _ 0); [|lia|done|done|].
  - pose proof (count_below_range (fun j => if j =? 0 then true else slot_free s j) (Z.to_nat (slot_count s + 1))). lia.
  - intros j Hj Hj0. by destruct (Z.eqb_spec j 0).
Qed.

(** A header the kernel accepts gives a table in order. *)
Lemma swap_start_ok page disk_pages n :
  swap_parse_header page disk_pages = Some n -> 0 <= get32 page HEADER_LAST_PAGE -> slots_ok (swap_start n).
Proof.
  unfold swap_parse_header. intros Hp H0. assert (1 <= n <= 0x100000) as Hn.
  { change MAX_SLOTS with 0x100000 in Hp. repeat case_match; simplify_eq; zbool; lia. }
  split; simpl; try done; try lia.
  - rewrite length_replicate. lia.
  - intros i Hi. rewrite get_replicate. lia.
  - replace (Z.to_nat (n + 1)) with (S (Z.to_nat n)) by lia.
    rewrite (count_below_ext _ (fun i => 1 <=? i)).
    + assert (forall m, count_below (fun i => 1 <=? i) (S m) = Z.of_nat m) as Hc; [|rewrite Hc; lia].
      induction m as [|m IH]; [done|]. cbn [count_below] in *. destruct (Z.leb_spec 1 (Z.of_nat (S m))); lia.
    + intros i Hi. unfold slot_free. simpl. rewrite get_replicate. by rewrite andb_true_r.
Qed.

Lemma slot_alloc_spec (s : slots) :
  slots_ok s ->
  let '(slot, s') := slot_alloc s in
  slots_ok s' /\ slot_count s' = slot_count s /\
  (if slot =? 0 then slots_free s = 0 /\ slot_owners s' = slot_owners s
   else 1 <= slot <= slot_count s /\ get (slot_owners s) slot = 0 /\ slots_free s' = slots_free s - 1 /\
        forall j, 0 <= j -> get (slot_owners s') j = if j =? slot then 1 else get (slot_owners s) j).
Proof.
  intros Hs. unfold slot_alloc. pose proof (slot_search_spec (Z.to_nat (slot_count s)) s Hs) as HS.
  destruct (slot_search _ s) as [found s1]. destruct HS as (Hs1&Hc&Ho&[[-> Hall]|[Hr H0]]).
  - rewrite !Z.eqb_refl. cbn match. split_and!; try done. rewrite (so_free s Hs). apply count_below_none. intros i Hi.
    unfold slot_free. destruct (Z.leb_spec 1 i); [|done]. pose proof (so_count s Hs).
    apply Z.eqb_neq, Hall; [lia|]. pose proof (Z.mod_pos_bound (i - search_from s) (slot_count s)). lia.
  - destruct (Z.eqb_spec found 0); [lia|]. destruct (Z.eqb_spec found 0); [lia|].
    assert (slots_free s1 = slots_free s) as Hf1.
    { rewrite (so_free s1 Hs1), (so_free s Hs), Hc. apply count_below_ext. intros i Hi. unfold slot_free. by rewrite Ho. }
    pose proof (slots_free_pos s found Hs Hr H0). pose proof (slots_free_range s Hs). pose proof (so_count s Hs).
    rewrite Hf1, u32_small by lia. rewrite <- Hc in Hr.
    destruct (set_owners_ok s1 found 1 (slots_free s - 1) Hs1 Hr) as [A B]; [lia|rewrite Ho, H0, Hf1; simpl; lia|].
    split_and!; try done; [lia|lia|]. intros j Hj. simpl. rewrite B by done. by rewrite Ho.
Qed.

(** Another reference adds one owner while the count is below 0xFFFF, giving one up
    takes one away, and numbers outside the table are ignored. *)
Lemma slot_refs_spec (s : slots) (slot : Z) :
  slots_ok s -> 0 <= slot < 0x100000000 ->
  let up := swap_slot_ref slot s in
  let down := swap_slot_unref slot s in
  slots_ok up /\ slots_ok down /\
  (if (1 <=? slot) && (slot <=? slot_count s) && negb (get (slot_owners s) slot =? 0) then
     (get (slot_owners s) slot < 0xFFFF -> get (slot_owners up) slot = get (slot_owners s) slot + 1) /\
     get (slot_owners down) slot = get (slot_owners s) slot - 1 /\
     slots_free down = slots_free s + (if get (slot_owners s) slot =? 1 then 1 else 0) /\
     (forall j, 0 <= j -> j <> slot -> get (slot_owners up) j = get (slot_owners s) j /\
                                        get (slot_owners down) j = get (slot_owners s) j)
   else up = s /\ down = s).
Proof.
  intros Hs Hr. cbn zeta. unfold swap_slot_ref, swap_slot_unref, bad_slot. rewrite (so_active s Hs). cbn [negb orb].
  destruct (Z.eqb_spec slot 0) as [->|Hne]; [done|]. destruct (Z.leb_spec 1 slot) as [H1|]; [|lia].
  destruct (Z.leb_spec slot (slot_count s)) as [H2|H2]; destruct (Z.ltb_spec (slot_count s) slot); try lia; [|done].
  cbn [orb andb]. destruct (Z.eqb_spec (get (slot_owners s) slot) 0) as [H0|H0]; [done|]. cbn [negb andb].
  pose proof (so_range s Hs slot ltac:(lia)) as Hn. pose proof (slots_free_range s Hs). pose proof (so_count s Hs).
  pose proof (slots_free_lt s slot Hs (conj H1 H2) H0).
  set (n := get (slot_owners s) slot) in *.
  destruct (set_owners_ok s slot (n - 1) (if n - 1 =? 0 then u32 (slots_free s + 1) else slots_free s) Hs (conj H1 H2)) as [D1 D2]; [lia| |].
  { fold n. destruct (Z.eqb_spec n 0); [lia|]. destruct (n - 1 =? 0); [rewrite u32_small by lia|]; lia. }
  assert (slots_ok (set_owners s (put (slot_owners s) slot (n + 1)) (slots_free s)) \/ n = 0xFFFF) as Hup.
  { destruct (decide (n = 0xFFFF)); [by right|left].
    apply (set_owners_ok s slot (n + 1) (slots_free s) Hs (conj H1 H2)); [lia|]. fold n.
    destruct (Z.eqb_spec n 0); [lia|]. destruct (Z.eqb_spec (n + 1) 0); lia. }
  split_and!; try done.
  - destruct (Z.eqb_spec n 0xFFFF); [done|]. by destruct Hup.
  - intros Hlt. destruct (Z.eqb_spec n 0xFFFF); [lia|]. simpl. rewrite get_put by (rewrite ?(so_len s Hs); lia). by rewrite Z.eqb_refl.
  - simpl. rewrite D2, Z.eqb_refl by lia. done.
  - simpl. destruct (Z.eqb_spec (n - 1) 0), (Z.eqb_spec n 1); try lia. rewrite u32_small; lia.
  - intros j Hj Hjs. split; [|simpl; rewrite D2 by done; by destruct (Z.eqb_spec j slot)].
    destruct (Z.eqb_spec n 0xFFFF); [done|]. simpl. rewrite get_put by (rewrite ?(so_len s Hs); lia). by destruct (Z.eqb_spec j slot).
Qed.

(** * Example *)

Lemma start3_ok : slots_ok (swap_start 3).
Proof.
  split; try done; try (simpl; lia).
  intros i Hi. unfold swap_start, slot_owners. rewrite get_replicate. lia.
Qed.
