(* ===== verification/Vmm.v ===== *)
(** Page tables, [src/mm/vmm.c] and [src/mm/vmm.h].

    The tables are words of physical memory reached through the direct map:
    [ram] is that memory, a 64-bit word at each address that is a multiple of 8,
    and a table is its address in the direct map, as in the code (0 is NULL).
    Edits happen under [vmm_lock]; each critical section is one step here. The
    TLB ([invlpg], shootdowns) is not modelled: lookups go to the tables. *)
From stdpp Require Import base tactics numbers list sets.
From Stdlib Require Import ZArith Lia.
From S2P Require Import Prelude Pmm Cow SwapSlots.

Open Scope Z_scope.

Definition VMM_PRESENT : Z := Z.shiftl 1 0.
Definition VMM_WRITABLE : Z := Z.shiftl 1 1.
Definition VMM_USER : Z := Z.shiftl 1 2.
Definition VMM_WRITE_THRU : Z := Z.shiftl 1 3.
Definition VMM_CACHE_DIS : Z := Z.shiftl 1 4.
Definition VMM_ACCESSED : Z := Z.shiftl 1 5.
Definition VMM_DIRTY : Z := Z.shiftl 1 6.
Definition VMM_HUGE : Z := Z.shiftl 1 7.
Definition VMM_GLOBAL : Z := Z.shiftl 1 8.
Definition VMM_COW : Z := Z.shiftl 1 9.
Definition VMM_SHARED : Z := Z.shiftl 1 10.
Definition VMM_SWAPPED : Z := Z.shiftl 1 11.
Definition VMM_DEVICE : Z := Z.shiftl 1 52.
Definition VMM_NO_EXECUTE : Z := Z.shiftl 1 63.
Definition PTE_ADDR_MASK : Z := 0x000FFFFFFFFFF000.
Definition USER_SPACE_END : Z := 0x0000800000000000.
Definition DEVICE_REGION_BASE : Z := 0xFFFFC00000000000.
Definition KERNEL_SPACE_START : Z := 0xFFFF800000000000.

(** [e & flag] as a condition, and [e & ~bits]. *)
Definition has (e flag : Z) : bool := negb (Z.land e flag =? 0).
Definition clear (e bits : Z) : Z := Z.land e (u64 (Z.lnot bits)).

Record vmm := mkVmm {
  owned : cow;            (* the frame allocator and the sharing counts *)
  swap_slots : slots;
  ram : Z -> Z;
  kernel_pml4 : Z;
  next_device : Z         (* [next_free] of [vmm_map_device] *)
}.

Definition set_owned (s : vmm) (c : cow) : vmm := mkVmm c (swap_slots s) (ram s) (kernel_pml4 s) (next_device s).
Definition set_slots (s : vmm) (l : slots) : vmm := mkVmm (owned s) l (ram s) (kernel_pml4 s) (next_device s).
Definition set_ram (s : vmm) (m : Z -> Z) : vmm := mkVmm (owned s) (swap_slots s) m (kernel_pml4 s) (next_device s).

Definition hhdm (s : vmm) : Z := hhdm_off (frames (owned s)).

(** [table[index]] *)
Definition slot_at (table index : Z) : Z := table + 8 * index.
Definition entry (s : vmm) (table index : Z) : Z := ram s (slot_at table index).
Definition write_word (m : Z -> Z) (a v : Z) : Z -> Z := fun x => if x =? a then v else m x.
Definition set_entry (s : vmm) (table index v : Z) : vmm := set_ram s (write_word (ram s) (slot_at table index) v).
Definition fill_page (m : Z -> Z) (a v : Z) : Z -> Z :=
  fun x => if (a <=? x) && (x <? a + PAGE_SIZE) then v else m x.
Definition copy_page (m : Z -> Z) (to from : Z) : Z -> Z :=
  fun x => if (to <=? x) && (x <? to + PAGE_SIZE) then m (from + (x - to)) else m x.

Definition vmm_alloc_frame (s : vmm) : Z * vmm :=
  let '(phys, c) := alloc_frame (owned s) in (phys, set_owned s c).
Definition vmm_free_frame (phys : Z) (s : vmm) : vmm := set_owned s (free_frame phys (owned s)).
Definition vmm_unref_frame (phys : Z) (s : vmm) : vmm := set_owned s (pmm_unref_frame phys (owned s)).
Definition vmm_ref_frame (phys : Z) (s : vmm) : vmm := set_owned s (pmm_ref_frame phys (owned s)).

(** * Walking *)

Definition get_next_level (s : vmm) (table index : Z) (allocate : bool) (flags : Z) : Z * vmm :=
  let e := entry s table index in
  if has e VMM_PRESENT && has e VMM_HUGE then (0, s) else
  if has e VMM_PRESENT && negb (has e VMM_HUGE) then
    let s := if has flags VMM_USER then set_entry s table index (Z.lor e VMM_USER) else s in
    let phys := Z.land (entry s table index) PTE_ADDR_MASK in
    (u64 (phys + hhdm s), s)
  else if negb allocate then (0, s) else
  let '(frame, s) := vmm_alloc_frame s in
  if frame =? 0 then (0, s) else
  let table_virt := u64 (frame + hhdm s) in
  let s := set_ram s (fill_page (ram s) table_virt 0) in
  let entry_flags := Z.lor VMM_PRESENT VMM_WRITABLE in
  let entry_flags := if has flags VMM_USER then Z.lor entry_flags VMM_USER else entry_flags in
  (table_virt, set_entry s table index (Z.lor frame entry_flags)).

Definition pml4_index (virt : Z) : Z := Z.land (Z.shiftr virt 39) 0x1FF.
Definition pdpt_index (virt : Z) : Z := Z.land (Z.shiftr virt 30) 0x1FF.
Definition pd_index (virt : Z) : Z := Z.land (Z.shiftr virt 21) 0x1FF.
Definition pt_index (virt : Z) : Z := Z.land (Z.shiftr virt 12) 0x1FF.

(** [x ? get_next_level(x, ...) : NULL] *)
Definition then_level (r : Z * vmm) (index : Z) (allocate : bool) (flags : Z) : Z * vmm :=
  let '(t, s) := r in if t =? 0 then (0, s) else get_next_level s t index allocate flags.

(** The three levels down to the page table that holds [virt]'s entry. *)
Definition walk_levels (s : vmm) (pml4 virt : Z) (allocate : bool) (flags : Z) : Z * vmm :=
  then_level (then_level (get_next_level s pml4 (pml4_index virt) allocate flags)
    (pdpt_index virt) allocate flags) (pd_index virt) allocate flags.

(** Address of the entry, 0 if a level is missing. Looking changes nothing, as
    no flag asks for it. *)
Definition walk_to_pte (s : vmm) (pml4 virt : Z) : Z :=
  let pt := fst (walk_levels s pml4 virt false 0) in
  if pt =? 0 then 0 else slot_at pt (pt_index virt).

Definition set_raw_entry (s : vmm) (pml4 virt e : Z) : bool * vmm :=
  let '(pt, s) := walk_levels s pml4 virt true VMM_USER in
  if pt =? 0 then (false, s) else (true, set_entry s pt (pt_index virt) e).

(** [pml4 == NULL] means the kernel's. *)
Definition or_kernel (s : vmm) (pml4 : Z) : Z := if pml4 =? 0 then kernel_pml4 s else pml4.

Definition vmm_map_page (s : vmm) (pml4 virt phys flags : Z) : bool * vmm :=
  let pml4 := or_kernel s pml4 in
  let '(pt, s) := walk_levels s pml4 virt true flags in
  if pt =? 0 then (false, s)
  else (true, set_entry s pt (pt_index virt) (Z.lor (Z.lor (Z.land phys PTE_ADDR_MASK) flags) VMM_PRESENT)).

Definition vmm_unmap_page (s : vmm) (pml4 virt : Z) : bool * vmm :=
  let pml4 := or_kernel s pml4 in
  let '(pt, s) := walk_levels s pml4 virt false 0 in
  if negb (pt =? 0) && has (entry s pt (pt_index virt)) VMM_PRESENT
  then (true, set_entry s pt (pt_index virt) 0) else (false, s).

Definition vmm_get_phys (s : vmm) (pml4 virt : Z) : Z :=
  let pml4 := or_kernel s pml4 in
  let pt := fst (walk_levels s pml4 virt false 0) in
  if negb (pt =? 0) && has (entry s pt (pt_index virt)) VMM_PRESENT
  then Z.land (entry s pt (pt_index virt)) PTE_ADDR_MASK else 0.

Definition vmm_get_pte (s : vmm) (pml4 virt : Z) : Z :=
  let pml4 := or_kernel s pml4 in
  let pte := walk_to_pte s pml4 virt in
  if pte =? 0 then 0 else ram s pte.

Definition page_of (virt : Z) : Z := Z.land virt (u64 (Z.lnot (PAGE_SIZE - 1))).

(** * Address spaces *)

(** The loop of [vmm_init] over the kernel half; [None] is the panic. *)
Fixpoint vmm_init_loop (n : nat) (i : Z) (s : vmm) : option vmm :=
  match n with
  | O => Some s
  | S n' =>
      if has (entry s (kernel_pml4 s) i) VMM_PRESENT then vmm_init_loop n' (i + 1) s else
      let '(frame, s) := vmm_alloc_frame s in
      if frame =? 0 then None else
      let table := u64 (frame + hhdm s) in
      let s := set_ram s (fill_page (ram s) table 0) in
      let s := set_entry s (kernel_pml4 s) i (Z.lor (Z.lor frame VMM_PRESENT) VMM_WRITABLE) in
      vmm_init_loop n' (i + 1) s
  end.

Definition vmm_init (s : vmm) (cr3 : Z) : option vmm :=
  let k := u64 (Z.land cr3 PTE_ADDR_MASK + hhdm s) in
  vmm_init_loop 256 256 (mkVmm (owned s) (swap_slots s) (ram s) k (next_device s)).

Definition vmm_get_kernel_pml4_phys (s : vmm) : Z := u64 (kernel_pml4 s - hhdm s).
Definition vmm_space_from_phys (s : vmm) (pml4_phys : Z) : Z := u64 (pml4_phys + hhdm s).

(** [for i in 256..511: pml4[i] = kernel_pml4[i]] *)
Fixpoint share_kernel_half (n : nat) (i pml4 : Z) (s : vmm) : vmm :=
  match n with
  | O => s
  | S n' => share_kernel_half n' (i + 1) pml4 (set_entry s pml4 i (entry s (kernel_pml4 s) i))
  end.

Fixpoint clear_user_half (n : nat) (i pml4 : Z) (s : vmm) : vmm :=
  match n with
  | O => s
  | S n' => clear_user_half n' (i + 1) pml4 (set_entry s pml4 i 0)
  end.

Definition vmm_create_address_space (s : vmm) : Z * vmm :=
  let '(frame, s) := vmm_alloc_frame s in
  if frame =? 0 then (0, s) else
  let pml4 := u64 (frame + hhdm s) in
  (pml4, share_kernel_half 256 256 pml4 (clear_user_half 256 0 pml4 s)).

Definition vmm_pte_swapped (pte : Z) : bool := negb (has pte VMM_PRESENT) && has pte VMM_SWAPPED.
Definition vmm_pte_swap_slot (pte : Z) : Z := u32 (Z.shiftr (Z.land pte PTE_ADDR_MASK) 12).

(** The loop over the 512 entries of one table, given what to do with an entry
    that is present and one that is not. *)
Fixpoint each_entry (n : nat) (i table : Z) (f : Z -> vmm -> vmm) (s : vmm) : vmm :=
  match n with
  | O => s
  | S n' => each_entry n' (i + 1) table f (f (entry s table i) s)
  end.

Fixpoint free_table (level : nat) (table : Z) (s : vmm) : vmm :=
  match level with
  | O => s
  | S below =>
      each_entry 512 0 table (fun e s =>
        if negb (has e VMM_PRESENT) then
          if Nat.eqb level 1 && vmm_pte_swapped e
          then set_slots s (swap_slot_unref (vmm_pte_swap_slot e) (swap_slots s)) else s
        else
          let frame := Z.land e PTE_ADDR_MASK in
          if negb (Nat.eqb level 1) && negb (has e VMM_HUGE) then
            vmm_free_frame frame (free_table below (u64 (frame + hhdm s)) s)
          else if Nat.eqb level 1 && negb (has e VMM_DEVICE) then vmm_unref_frame frame s
          else s) s
  end.

Definition vmm_destroy_address_space (s : vmm) (pml4 : Z) : vmm :=
  if (pml4 =? 0) || (pml4 =? kernel_pml4 s) then s else
  let h := hhdm s in
  let s := each_entry 256 0 pml4 (fun e s =>
    if negb (has e VMM_PRESENT) then s else
    let pdpt := Z.land e PTE_ADDR_MASK in
    vmm_free_frame pdpt (free_table 3 (u64 (pdpt + h)) s)) s in
  vmm_free_frame (u64 (pml4 - h)) s.

(** [vmm_count_user_pages]: the pages present and, of those, the ones with
    another owner. Four nested loops over entries. *)
Fixpoint count_entries (n : nat) (i table : Z) (s : vmm) (f : Z -> Z * Z) : Z * Z :=
  match n with
  | O => (0, 0)
  | S n' =>
      let '(p, w) := f (entry s table i) in
      let '(p', w') := count_entries n' (i + 1) table s f in (p + p', w + w')
  end.

Definition vmm_count_user_pages (s : vmm) (pml4 : Z) : Z * Z :=
  let below e := u64 (Z.land e PTE_ADDR_MASK + hhdm s) in
  count_entries 256 0 pml4 s (fun e4 =>
    if negb (has e4 VMM_PRESENT) then (0, 0) else
    count_entries 512 0 (below e4) s (fun e3 =>
      if negb (has e3 VMM_PRESENT) || has e3 VMM_HUGE then (0, 0) else
      count_entries 512 0 (below e3) s (fun e2 =>
        if negb (has e2 VMM_PRESENT) || has e2 VMM_HUGE then (0, 0) else
        count_entries 512 0 (below e2) s (fun pte =>
          if negb (Z.land pte (Z.lor VMM_PRESENT VMM_USER) =? Z.lor VMM_PRESENT VMM_USER) then (0, 0)
          else (1, if pmm_frame_shared_hint (Z.land pte PTE_ADDR_MASK) (owned s) then 1 else 0))))).

(** * Swapped-out pages *)

Record vmm_range_t := mkRange { range_start : Z; range_end : Z }.

Definition page_is_kept (v : Z) (keep : list vmm_range_t) : bool :=
  existsb (fun r => (v <? range_end r) && (range_start r <? u64 (v + PAGE_SIZE))) keep.

(** The scan is at [v], in the page table [pt] (0: between tables). *)
Record scan := mkScan { scan_v : Z; scan_pt : Z; scan_st : vmm }.

(** One round: of the outer loop, which finds the page table or steps over a
    stretch without one, or of the inner loop, which looks at one entry. The
    result is the page and the frame it had, if one was found. *)
Definition swap_scan_step (pml4 to slot : Z) (keep : list vmm_range_t) (c : scan) : scan + option (Z * Z) * vmm :=
  let s := scan_st c in
  let v := scan_v c in
  if scan_pt c =? 0 then
    if negb (v <? to) then inr (None, s) else
    let past bits := u64 (Z.lor v (Z.shiftl 1 bits - 1) + 1) in
    let e4 := entry s pml4 (pml4_index v) in
    if negb (has e4 VMM_PRESENT) then inl (mkScan (past 39) 0 s) else
    let e3 := entry s (u64 (Z.land e4 PTE_ADDR_MASK + hhdm s)) (pdpt_index v) in
    if negb (has e3 VMM_PRESENT) || has e3 VMM_HUGE then inl (mkScan (past 30) 0 s) else
    let e2 := entry s (u64 (Z.land e3 PTE_ADDR_MASK + hhdm s)) (pd_index v) in
    if negb (has e2 VMM_PRESENT) || has e2 VMM_HUGE then inl (mkScan (past 21) 0 s) else
    inl (mkScan v (u64 (Z.land e2 PTE_ADDR_MASK + hhdm s)) s)
  else
    let e := entry s (scan_pt c) (pt_index v) in
    let frame := Z.land e PTE_ADDR_MASK in
    let next s :=
      let v := u64 (v + PAGE_SIZE) in
      inl (mkScan v (if negb (Z.land v (Z.shiftl 1 21 - 1) =? 0) && (v <? to) then scan_pt c else 0) s) in
    if has e VMM_PRESENT && has e VMM_USER && negb (has e VMM_SHARED) &&
       (pmm_get_frame_ref frame (owned s) =? 1) && negb (page_is_kept v keep) then
      if has e VMM_ACCESSED then next (set_entry s (scan_pt c) (pt_index v) (clear e VMM_ACCESSED))
      else
        let e' := Z.lor (Z.lor (clear e (Z.lor (Z.lor VMM_PRESENT PTE_ADDR_MASK) VMM_DIRTY)) VMM_SWAPPED)
                        (u64 (Z.shiftl slot 12)) in
        inr (Some (v, frame), set_entry s (scan_pt c) (pt_index v) e')
    else next s.

(** The bound: every page of the range takes at most two rounds. *)
Definition swap_scan (s : vmm) (pml4 from to slot : Z) (keep : list vmm_range_t) : option (Z * Z) * vmm :=
  match loop (Z.to_pos (2 * ((to - page_of from) / PAGE_SIZE) + 3)) (swap_scan_step pml4 to slot keep)
             (mkScan (page_of from) 0 s) with
  | inr r => r
  | inl c => (None, scan_st c)
  end.

(** The page, its frame and the new cursor. *)
Definition vmm_swap_pick (s : vmm) (pml4 cursor slot : Z) (keep : list vmm_range_t) : option (Z * Z * Z) * vmm :=
  if (pml4 =? 0) || (pml4 =? kernel_pml4 s) then (None, s) else
  let start := if cursor <? USER_SPACE_END then cursor else 0 in
  let or_else (r : option (Z * Z) * vmm) from :=
    match r with (Some _, _) => r | (None, s) => swap_scan s pml4 from USER_SPACE_END slot keep end in
  match or_else (or_else (swap_scan s pml4 start USER_SPACE_END slot keep) 0) 0 with
  | (Some (virt, frame), s) => (Some (virt, frame, u64 (virt + PAGE_SIZE)), s)
  | (None, s) => (None, s)
  end.

Definition vmm_swap_install (s : vmm) (pml4 virt frame : Z) : bool * vmm :=
  if (pml4 =? 0) || (USER_SPACE_END <=? virt) then (false, s) else
  let virt := page_of virt in
  let pte := walk_to_pte s pml4 virt in
  if negb (pte =? 0) && vmm_pte_swapped (ram s pte) then
    let e := Z.lor (Z.lor (Z.lor (clear (ram s pte) (Z.lor PTE_ADDR_MASK VMM_SWAPPED)) (Z.land frame PTE_ADDR_MASK))
                          VMM_PRESENT) VMM_ACCESSED in
    (true, set_ram s (write_word (ram s) pte e))
  else (false, s).

Definition vmm_swap_discard (s : vmm) (pml4 virt : Z) : bool * vmm :=
  if (pml4 =? 0) || (USER_SPACE_END <=? virt) then (false, s) else
  let pte := walk_to_pte s pml4 virt in
  if negb (pte =? 0) && vmm_pte_swapped (ram s pte) then
    let slot := vmm_pte_swap_slot (ram s pte) in
    let s := set_ram s (write_word (ram s) pte 0) in
    (true, set_slots s (swap_slot_unref slot (swap_slots s)))
  else (false, s).

(** * Fork and copy-on-write *)

(** [((uint64_t)i4 << 39) | ...] *)
Definition address_of (i4 i3 i2 i1 : Z) : Z :=
  Z.lor (Z.lor (Z.lor (u64 (Z.shiftl i4 39)) (u64 (Z.shiftl i3 30))) (u64 (Z.shiftl i2 21))) (u64 (Z.shiftl i1 12)).

(** The body of the innermost loop: one entry of the parent's page table. *)
Definition clone_entry (dst pt i4 i3 i2 i1 : Z) (s : vmm) : bool * vmm :=
  let pte := entry s pt i1 in
  let virt := address_of i4 i3 i2 i1 in
  if vmm_pte_swapped pte then
    let '(ok, s) := set_raw_entry s dst virt pte in
    if negb ok then (false, s)
    else (true, set_slots s (swap_slot_ref (vmm_pte_swap_slot pte) (swap_slots s)))
  else if negb (has pte VMM_PRESENT) then (true, s) else
  let mark := has pte VMM_WRITABLE && negb (has pte VMM_SHARED) in
  let pte := if mark then Z.lor (clear pte VMM_WRITABLE) VMM_COW else pte in
  let s := if mark then set_entry s pt i1 pte else s in
  let device := has pte VMM_DEVICE in
  let phys := Z.land pte PTE_ADDR_MASK in
  let s := if device then s else vmm_ref_frame phys s in
  let flags := Z.land pte (Z.lor (Z.lor (Z.lor (Z.lor (Z.lor VMM_USER VMM_COW) VMM_NO_EXECUTE) VMM_SHARED) VMM_WRITABLE) VMM_DEVICE) in
  let '(ok, s) := vmm_map_page s dst virt phys (Z.lor flags VMM_PRESENT) in
  if ok then (true, s) else (false, if device then s else vmm_unref_frame phys s).

(** [for (i = 0; i < n && ok; i++)] over the entries of a table. *)
Fixpoint clone_loop (n : nat) (i : Z) (body : Z -> vmm -> bool * vmm) (s : vmm) : bool * vmm :=
  match n with
  | O => (true, s)
  | S n' => let '(ok, s) := body i s in if ok then clone_loop n' (i + 1) body s else (false, s)
  end.

Definition vmm_clone_user_space (s : vmm) (dst src : Z) : bool * vmm :=
  if (dst =? 0) || (src =? 0) then (false, s) else
  let below e (s : vmm) := u64 (Z.land e PTE_ADDR_MASK + hhdm s) in
  clone_loop 256 0 (fun i4 s =>
    if negb (has (entry s src i4) VMM_PRESENT) then (true, s) else
    let pdpt := below (entry s src i4) s in
    clone_loop 512 0 (fun i3 s =>
      if negb (has (entry s pdpt i3) VMM_PRESENT) || has (entry s pdpt i3) VMM_HUGE then (true, s) else
      let pd := below (entry s pdpt i3) s in
      clone_loop 512 0 (fun i2 s =>
        if negb (has (entry s pd i2) VMM_PRESENT) || has (entry s pd i2) VMM_HUGE then (true, s) else
        let pt := below (entry s pd i2) s in
        clone_loop 512 0 (clone_entry dst pt i4 i3 i2) s) s) s) s.

Definition vmm_handle_cow_fault (s : vmm) (pml4 virt : Z) : bool * vmm :=
  if (pml4 =? 0) || (USER_SPACE_END <=? virt) then (false, s) else
  let virt := page_of virt in
  let pte := walk_to_pte s pml4 virt in
  if negb (pte =? 0) && has (ram s pte) VMM_PRESENT && has (ram s pte) VMM_COW then
    let old_phys := Z.land (ram s pte) PTE_ADDR_MASK in
    let flags := Z.lor (clear (ram s pte) (Z.lor PTE_ADDR_MASK VMM_COW)) VMM_WRITABLE in
    if pmm_get_frame_ref old_phys (owned s) =? 1 then
      (true, set_ram s (write_word (ram s) pte (Z.lor old_phys flags)))
    else
      let '(copy, s) := vmm_alloc_frame s in
      if copy =? 0 then (false, s) else
      let s := set_ram s (copy_page (ram s) (u64 (copy + hhdm s)) (u64 (old_phys + hhdm s))) in
      let s := set_ram s (write_word (ram s) pte (Z.lor copy flags)) in
      (true, if old_phys =? 0 then s else vmm_unref_frame old_phys s)
  else (false, s).

(** * User memory *)

(** The page's address in the direct map, 0 on failure. *)
Definition vmm_alloc_user_page (s : vmm) (pml4 virt flags : Z) : Z * vmm :=
  if (pml4 =? 0) || (USER_SPACE_END <=? virt) then (0, s) else
  let virt := page_of virt in
  let '(frame, s) := vmm_alloc_frame s in
  if frame =? 0 then (0, s) else
  let kernel_view := u64 (frame + hhdm s) in
  let s := set_ram s (fill_page (ram s) kernel_view 0) in
  let '(ok, s) := vmm_map_page s pml4 virt frame (Z.lor (Z.lor flags VMM_PRESENT) VMM_USER) in
  if ok then (kernel_view, s) else (0, vmm_free_frame frame s).

(** One page of [vmm_user_range_ok]. *)
Definition range_step (pml4 last : Z) (write : bool) (c : Z * vmm) : (Z * vmm) + bool * vmm :=
  let '(page, s) := c in
  if negb (page <? last) then inr (true, s) else
  let pte := vmm_get_pte s pml4 page in
  if negb (has pte VMM_PRESENT) || negb (has pte VMM_USER) then inr (false, s) else
  if write && negb (has pte (Z.lor VMM_WRITABLE VMM_COW)) then inr (false, s) else
  let '(ok, s) := if write && has pte VMM_COW then vmm_handle_cow_fault s pml4 page else (true, s) in
  if negb ok then inr (false, s) else inl (u64 (page + PAGE_SIZE), s).

Definition vmm_user_range_ok (s : vmm) (pml4 addr len : Z) (write : bool) : bool * vmm :=
  if pml4 =? 0 then (false, s) else
  if len =? 0 then (true, s) else
  let last := u64 (addr + len) in
  if (last <? addr) || (USER_SPACE_END <? last) then (false, s) else
  match loop (Z.to_pos (len / PAGE_SIZE + 3)) (range_step pml4 last write) (page_of addr, s) with
  | inr r => r
  | inl (_, s) => (false, s)
  end.

(** Bytes of the words in [ram] (little endian). *)
Definition write_byte (m : Z -> Z) (p v : Z) : Z -> Z :=
  let a := p - p mod 8 in
  let sh := 8 * (p mod 8) in
  write_word m a (Z.lor (Z.land (m a) (u64 (Z.lnot (Z.shiftl 0xFF sh)))) (Z.shiftl v sh)).

Fixpoint write_bytes (m : Z -> Z) (p : Z) (bytes : list Z) : Z -> Z :=
  match bytes with
  | [] => m
  | b :: rest => write_bytes (write_byte m p b) (p + 1) rest
  end.

(** One chunk of [vmm_copy_to_space]: the bytes done so far. *)
Definition copy_step (pml4 dest : Z) (src : list Z) (c : Z * vmm) : (Z * vmm) + Z * vmm :=
  let '(n, s) := c in
  let len := Z.of_nat (length src) in
  if negb (n <? len) then inr (n, s) else
  let virt := u64 (dest + n) in
  let phys := vmm_get_phys s pml4 (page_of virt) in
  if phys =? 0 then inr (n, s) else
  let page_off := Z.land virt (PAGE_SIZE - 1) in
  let chunk := PAGE_SIZE - page_off in
  let chunk := if len - n <? chunk then len - n else chunk in
  let bytes := take (Z.to_nat chunk) (drop (Z.to_nat n) src) in
  inl (n + chunk, set_ram s (write_bytes (ram s) (u64 (phys + hhdm s + page_off)) bytes)).

Definition vmm_copy_to_space (s : vmm) (pml4 dest : Z) (src : list Z) : Z * vmm :=
  match loop (Z.to_pos (Z.of_nat (length src) + 1)) (copy_step pml4 dest src) (0, s) with
  | inr r => r
  | inl (n, s) => (n, s)
  end.

(** * Devices *)

Fixpoint map_device_loop (n : nat) (virt phys : Z) (s : vmm) : bool * vmm :=
  match n with
  | O => (true, s)
  | S n' =>
      let flags := Z.lor (Z.lor (Z.lor (Z.lor VMM_PRESENT VMM_WRITABLE) VMM_CACHE_DIS) VMM_WRITE_THRU) VMM_NO_EXECUTE in
      let '(ok, s) := vmm_map_page s 0 virt phys flags in
      if ok then map_device_loop n' (u64 (virt + PAGE_SIZE)) (u64 (phys + PAGE_SIZE)) s else (false, s)
  end.

Definition vmm_map_device (s : vmm) (phys length : Z) : Z * vmm :=
  if length =? 0 then (0, s) else
  let first := page_of phys in
  let n := u64 (phys + length - first + PAGE_SIZE - 1) / PAGE_SIZE in
  let virt := next_device s in
  let s := mkVmm (owned s) (swap_slots s) (ram s) (kernel_pml4 s) (u64 (virt + u64 ((n + 1) * PAGE_SIZE))) in
  let '(ok, s) := map_device_loop (Z.to_nat n) virt first s in
  if ok then (u64 (virt + (phys - first)), s) else (0, s).
