(* ===== verification/VmmInv.v ===== *)
(** The invariant of the page tables and what mapping, unmapping and looking up
    a page do to it. *)
From stdpp Require Import base tactics numbers list sets gmap.
From Stdlib Require Import ZArith Lia.
From S2P Require Import Prelude Pmm Cow SwapSlots Vmm.

Open Scope Z_scope.

(** * Bits *)

Lemma land_bit (e k : Z) : 0 <= k -> has e (Z.shiftl 1 k) = Z.testbit e k.
Proof. intros Hk. unfold has. by rewrite byte_bit by done. Qed.

Lemma has_testbit e k flag : flag = Z.shiftl 1 k -> 0 <= k -> has e flag = Z.testbit e k.
Proof. intros ->. apply land_bit. Qed.

Lemma testbit_shiftl1 k i : 0 <= k -> 0 <= i -> Z.testbit (Z.shiftl 1 k) i = (i =? k).
Proof.
  intros Hk Hi. rewrite Z.shiftl_1_l. destruct (Z.eqb_spec i k) as [->|Hne].
  - by apply Z.pow2_bits_true.
  - by apply Z.pow2_bits_false.
Qed.

(** The address field: bits 12 to 51. *)
Lemma mask_testbit i : 0 <= i -> Z.testbit PTE_ADDR_MASK i = (12 <=? i) && (i <? 52).
Proof.
  intros Hi. change PTE_ADDR_MASK with (Z.shiftl (Z.ones 40) 12). rewrite Z.shiftl_spec by done.
  destruct (Z.leb_spec 12 i).
  - rewrite Z.testbit_ones by lia. destruct (Z.ltb_spec i 52), (Z.leb_spec 0 (i - 12)), (Z.ltb_spec (i - 12) 40); simpl; lia || done.
  - by rewrite Z.testbit_neg_r by lia.
Qed.

Lemma mask_range e : 0 <= Z.land e PTE_ADDR_MASK < 0x10000000000000.
Proof.
  assert (Z.land e PTE_ADDR_MASK = Z.land (Z.land e PTE_ADDR_MASK) (Z.ones 52)) as ->.
  { rewrite <- Z.land_assoc. f_equal. }
  rewrite Z.land_ones by lia. apply Z.mod_pos_bound. lia.
Qed.

(** A frame address with flags outside the address field. *)
Lemma mask_frame f flags :
  0 <= f < 0x10000000000 -> Z.land flags PTE_ADDR_MASK = 0 -> Z.land (Z.lor (f * PAGE_SIZE) flags) PTE_ADDR_MASK = f * PAGE_SIZE.
Proof.
  intros Hf Hfl. rewrite Z.land_lor_distr_l, Hfl, Z.lor_0_r. change PTE_ADDR_MASK with (Z.shiftl (Z.ones 40) 12).
  replace (f * PAGE_SIZE) with (Z.shiftl f 12) by (rewrite Z.shiftl_mul_pow2 by lia; reflexivity).
  rewrite <- Z.shiftl_land. f_equal. rewrite Z.land_ones by lia. apply Z.mod_small. lia.
Qed.

(** An index into a table. *)
Definition index_ok (i : Z) : Prop := 0 <= i < 512.

Lemma index_range v k : index_ok (Z.land (Z.shiftr v k) 0x1FF).
Proof. unfold index_ok. change 0x1FF with (Z.ones 9). rewrite Z.land_ones by lia. apply Z.mod_pos_bound. lia. Qed.

(** * Looking *)

(** What an entry of an upper table leads to, 0 if nowhere. *)
Definition below (s : vmm) (t i : Z) : Z :=
  let e := entry s t i in
  if has e VMM_PRESENT && negb (has e VMM_HUGE) then u64 (Z.land e PTE_ADDR_MASK + hhdm s) else 0.

Lemma look_below s t i : get_next_level s t i false 0 = (below s t i, s).
Proof.
  unfold get_next_level, below. destruct (has _ VMM_PRESENT), (has _ VMM_HUGE); done.
Qed.

(** Down from table [t] along a path of indices. *)
Fixpoint descend (s : vmm) (t : Z) (path : list Z) : Z :=
  match path with
  | [] => t
  | i :: path' => let t' := below s t i in if t' =? 0 then 0 else descend s t' path'
  end.

Definition path_of (virt : Z) : list Z := [pml4_index virt; pdpt_index virt; pd_index virt].

(** The entry found along a path, 0 if a level is missing. *)
Definition entry_at (s : vmm) (t : Z) (path : list Z) (i : Z) : Z :=
  let pt := descend s t path in if pt =? 0 then 0 else entry s pt i.

Lemma walk_look s pml4 virt : walk_levels s pml4 virt false 0 = (descend s pml4 (path_of virt), s).
Proof.
  unfold walk_levels, then_level, path_of. rewrite look_below. cbn [descend].
  destruct (Z.eqb_spec (below s pml4 (pml4_index virt)) 0); [done|]. rewrite look_below.
  destruct (Z.eqb_spec (below s (below s pml4 (pml4_index virt)) (pdpt_index virt)) 0); [done|]. rewrite look_below.
  destruct (Z.eqb_spec (below s (below s (below s pml4 (pml4_index virt)) (pdpt_index virt)) (pd_index virt)) 0) as [->|]; done.
Qed.

(** * The invariant *)

(** Where a table belongs: the address space it is part of (0 for the kernel
    half, which they share) and the indices that lead to it from the top. *)
Notation place := (Z * list Z)%type.

Definition child (t : Z) (p : place) (i : Z) : place :=
  match snd p with
  | [] => (if i <? 256 then t else 0, [i])
  | path => (fst p, path ++ [i])
  end.

Definition frame_table (s : vmm) (t f : Z) : Prop :=
  t = f * PAGE_SIZE + hhdm s /\ 1 <= f < total_frames (frames (owned s)).

Record tables (s : vmm) (pl : gmap Z place) : Prop := {
  tb_frame : forall t p, pl !! t = Some p -> exists f, frame_table s t f /\ f ∉ abs (frames (owned s));
  tb_root : forall t o, pl !! t = Some (o, []) -> o = t;
  tb_child : forall t p i, pl !! t = Some p -> (length (snd p) < 3)%nat -> index_ok i -> below s t i <> 0 ->
    pl !! below s t i = Some (child t p i);
  tb_hhdm : hhdm s mod PAGE_SIZE = 0 /\ 0 < hhdm s /\ hhdm s + total_frames (frames (owned s)) * PAGE_SIZE < 0x10000000000000000;
  tb_phys : total_frames (frames (owned s)) <= 0x10000000000;
  tb_cow : cow_ok (owned s)
}.

Lemma frame_table_addr s t f :
  hhdm s mod PAGE_SIZE = 0 /\ 0 < hhdm s /\ hhdm s + total_frames (frames (owned s)) * PAGE_SIZE < 0x10000000000000000 ->
  frame_table s t f -> 0 < t < 0x10000000000000000 - PAGE_SIZE /\ t mod PAGE_SIZE = 0.
Proof. intros (H1&H2&H3) [-> Hf]. unfold PAGE_SIZE in *. split; [lia|zlia]. Qed.

Lemma table_addr s pl t p : tables s pl -> pl !! t = Some p -> 0 < t /\ t mod PAGE_SIZE = 0.
Proof.
  intros Ht Hp. destruct (tb_frame _ _ Ht _ _ Hp) as (f&Hf&_).
  destruct (frame_table_addr s t f (tb_hhdm _ _ Ht) Hf). lia.
Qed.

(** Entries of different tables, or at different indices, are different words. *)
Lemma slot_at_inj t t' i i' :
  t mod PAGE_SIZE = 0 -> t' mod PAGE_SIZE = 0 -> index_ok i -> index_ok i' ->
  slot_at t i = slot_at t' i' -> t = t' /\ i = i'.
Proof. unfold slot_at, index_ok, PAGE_SIZE. intros. assert (t = t') by zlia. lia. Qed.

(** Walking from a table of the structure stays in it. *)
Lemma descend_place s pl : tables s pl -> forall path t p,
  pl !! t = Some p -> (length (snd p) + length path <= 3)%nat -> Forall index_ok path -> descend s t path <> 0 ->
  exists o, pl !! descend s t path = Some (o, snd p ++ path) /\
    (snd p <> [] -> o = fst p) /\ (path = [] -> o = fst p) /\
    (snd p = [] -> match path with [] => True | i :: _ => o = if i <? 256 then t else 0 end).
Proof.
  intros Ht. induction path as [|i path IH]; intros t [o q] Hp Hlen Hidx Hne; cbn [descend] in *.
  - exists o. rewrite app_nil_r. done.
  - apply Forall_cons in Hidx as [Hi Hidx]. simpl in Hlen. destruct (Z.eqb_spec (below s t i) 0) as [E|E]; [done|].
    pose proof (tb_child _ _ Ht _ _ _ Hp ltac:(simpl; lia) Hi E) as Hc.
    destruct (IH _ _ Hc) as (o'&H1&H2&_); [|done|done|].
    { unfold child. destruct q; simpl in *; [lia|]. rewrite length_app. simpl. lia. }
    assert (snd (child t (o, q) i) = q ++ [i] /\ snd (child t (o, q) i) <> []) as [Hs Hn].
    { unfold child. destruct q; simpl; [done|]. split; [done|]. by destruct q. }
    rewrite Hs, <- app_assoc in H1. simpl in H1. exists o'. split; [done|]. specialize (H2 Hn). rewrite H2.
    unfold child. destruct q; simpl; split_and!; done.
Qed.

(** * What a change of memory does to lookups *)

Lemma entry_at_cons s t i path j :
  entry_at s t (i :: path) j = if below s t i =? 0 then 0 else entry_at s (below s t i) path j.
Proof. unfold entry_at. cbn [descend]. by destruct (below s t i =? 0). Qed.

Lemma below_zero s t i : entry s t i = 0 -> below s t i = 0.
Proof. intros E. unfold below. by rewrite E. Qed.

(** An empty top table is a structure of its own. *)
Lemma one_table s f :
  let root := f * PAGE_SIZE + hhdm s in
  1 <= f < total_frames (frames (owned s)) -> f ∉ abs (frames (owned s)) -> (forall i, entry s root i = 0) ->
  hhdm s mod PAGE_SIZE = 0 /\ 0 < hhdm s /\ hhdm s + total_frames (frames (owned s)) * PAGE_SIZE < 0x10000000000000000 ->
  total_frames (frames (owned s)) <= 0x10000000000 -> cow_ok (owned s) ->
  tables s {[root := (root, [])]}.
Proof.
  intros root Hf Hfree Hz Hh Hp Hc. split; try done.
  - intros t p [<- <-]%lookup_singleton_Some. exists f. done.
  - intros t o [<- [= <-]]%lookup_singleton_Some. done.
  - intros t p i [<- <-]%lookup_singleton_Some _ _ Hb. exfalso. by apply Hb, below_zero.
Qed.

(** Nothing is found below an empty table. *)
Lemma entry_at_empty s t path j :
  (forall i, index_ok i -> entry s t i = 0) -> Forall index_ok path -> index_ok j -> entry_at s t path j = 0.
Proof.
  intros Hz Hp Hj. destruct path as [|i path].
  - unfold entry_at. cbn [descend]. rewrite Hz by done. by destruct (t =? 0).
  - apply Forall_cons in Hp as [Hi _]. rewrite entry_at_cons, below_zero by auto. done.
Qed.

(** Lookups agree if upper entries lead to the same tables, except where an
    entry that led nowhere now leads to an empty table, and the entries of page
    tables are the same. *)
Lemma entry_at_agree s s' pl :
  tables s pl ->
  (forall t p i, pl !! t = Some p -> (length (snd p) < 3)%nat -> index_ok i ->
     below s' t i = below s t i \/
     (below s t i = 0 /\ forall j, index_ok j -> entry s' (below s' t i) j = 0)) ->
  (forall t p i, pl !! t = Some p -> length (snd p) = 3%nat -> index_ok i -> entry s' t i = entry s t i) ->
  forall path t p j, pl !! t = Some p -> (length (snd p) + length path = 3)%nat -> Forall index_ok path -> index_ok j ->
    entry_at s' t path j = entry_at s t path j.
Proof.
  intros Ht Hup Hpt. induction path as [|i path IH]; intros t p j Hp Hlen Hpath Hj.
  - unfold entry_at. cbn [descend]. rewrite (Hpt _ _ _ Hp) by (simpl in *; done || lia). done.
  - apply Forall_cons in Hpath as [Hi Hpath]. rewrite !entry_at_cons. simpl in Hlen.
    destruct (Hup t p i Hp ltac:(lia) Hi) as [E|[E Hz]].
    + rewrite E. destruct (Z.eqb_spec (below s t i) 0) as [|Hne]; [done|].
      apply (IH _ (child t p i)); [by apply (tb_child _ _ Ht); [|lia|..]| |done|done].
      destruct p as [o [|q1 q]]; unfold child; simpl in *; [lia|]. rewrite length_app. simpl. lia.
    + rewrite E, Z.eqb_refl. destruct (below s' t i =? 0); [done|]. by apply entry_at_empty.
Qed.

(** Writing one entry of a table. *)
Lemma entry_set s pl t i t' i' v p :
  tables s pl -> pl !! t = Some p -> index_ok i -> index_ok i' -> t' mod PAGE_SIZE = 0 ->
  entry (set_entry s t i v) t' i' = if (t' =? t) && (i' =? i) then v else entry s t' i'.
Proof.
  intros Ht Hp Hi Hi' Hal. destruct (table_addr _ _ _ _ Ht Hp) as [_ Hal'].
  unfold entry, set_entry, write_word. simpl. destruct (Z.eqb_spec (slot_at t' i') (slot_at t i)) as [E|E].
  - apply slot_at_inj in E as [-> ->]; [|done..]. by rewrite !Z.eqb_refl.
  - destruct (Z.eqb_spec t' t) as [->|], (Z.eqb_spec i' i) as [->|]; done.
Qed.

Lemma below_set s pl t i t' i' v p :
  tables s pl -> pl !! t = Some p -> index_ok i -> index_ok i' -> t' mod PAGE_SIZE = 0 -> ~ (t' = t /\ i' = i) ->
  below (set_entry s t i v) t' i' = below s t' i'.
Proof.
  intros Ht Hp Hi Hi' Hal Hne. unfold below. rewrite (entry_set s pl t i t' i' v p) by done.
  destruct (Z.eqb_spec t' t), (Z.eqb_spec i' i); [tauto|done..].
Qed.

(** A new value for an entry of a page table keeps the structure. *)
Lemma set_leaf_tables s pl t i v o path :
  tables s pl -> pl !! t = Some (o, path) -> length path = 3%nat -> index_ok i -> tables (set_entry s t i v) pl.
Proof.
  intros Ht Hp Hlen Hi. destruct Ht as [A B C D E F] eqn:HT. split; try done.
  intros t' p' i' Hp' Hlen' Hi'. destruct (table_addr _ _ _ _ Ht Hp') as [_ Hal].
  rewrite (below_set s pl t i t' i' v (o, path)) by (done || (intros [-> ->]; simplify_eq; simpl in *; lia)).
  by apply C.
Qed.

(** An entry that keeps its address and its present and huge bits. *)
Lemma set_same_tables s pl t i v p :
  tables s pl -> pl !! t = Some p -> index_ok i ->
  below (set_entry s t i v) t i = below s t i -> tables (set_entry s t i v) pl.
Proof.
  intros Ht Hp Hi Hb. destruct Ht as [A B C D E F] eqn:HT. split; try done.
  intros t' p' i' Hp' Hlen' Hi'. destruct (table_addr _ _ _ _ Ht Hp') as [_ Hal].
  destruct (decide (t' = t /\ i' = i)) as [[-> ->]|Hne]; [rewrite Hb; by apply C|].
  rewrite (below_set s pl t i t' i' v p) by done. by apply C.
Qed.

(** * Making the next level *)

(** States that show the same pages through every address space of [pl]. *)
Definition same_view (s s' : vmm) (pl : gmap Z place) : Prop :=
  forall t p path j, pl !! t = Some p -> (length (snd p) + length path = 3)%nat -> Forall index_ok path -> index_ok j ->
    entry_at s' t path j = entry_at s t path j.

Definition same_setup (s s' : vmm) : Prop :=
  hhdm s' = hhdm s /\ kernel_pml4 s' = kernel_pml4 s /\
  total_frames (frames (owned s')) = total_frames (frames (owned s)) /\ swap_slots s' = swap_slots s /\
  next_device s' = next_device s.

(** Tables that were there are still where they were. *)
Definition keeps (s s' : vmm) (pl : gmap Z place) : Prop :=
  forall t p i, pl !! t = Some p -> (length (snd p) < 3)%nat -> index_ok i -> below s t i <> 0 -> below s' t i = below s t i.

(** Frames in use stay in use. *)
Definition stay_used (s s' : vmm) : Prop :=
  total_frames (frames (owned s')) = total_frames (frames (owned s)) /\ hhdm s' = hhdm s /\
  forall k, 0 <= k -> k ∉ abs (frames (owned s)) -> k ∉ abs (frames (owned s')).

(** Only frames that were free have become tables. *)
Definition fresh_only (s : vmm) (pl pl' : gmap Z place) : Prop :=
  forall k, 0 <= k -> k ∉ abs (frames (owned s)) ->
    pl !! (k * PAGE_SIZE + hhdm s) = None -> pl' !! (k * PAGE_SIZE + hhdm s) = None.

Lemma stay_used_trans s1 s2 s3 : stay_used s1 s2 -> stay_used s2 s3 -> stay_used s1 s3.
Proof. intros (A1&A2&A3) (B1&B2&B3). split_and!; [congruence|congruence|]. intros k Hk Hu. by apply B3, A3. Qed.

Lemma fresh_only_trans s1 s2 pl1 pl2 pl3 :
  stay_used s1 s2 -> fresh_only s1 pl1 pl2 -> fresh_only s2 pl2 pl3 -> fresh_only s1 pl1 pl3.
Proof.
  intros (_&Hh&Hu) H1 H2 k Hk Hku Hn. rewrite <- Hh. apply H2; [done|by apply Hu|]. rewrite Hh. by apply H1.
Qed.

(** The USER bit of an upper entry is nothing lookups see. *)
Lemma below_lor_user s pl t i p :
  tables s pl -> pl !! t = Some p -> index_ok i ->
  below (set_entry s t i (Z.lor (entry s t i) VMM_USER)) t i = below s t i.
Proof.
  intros Ht Hp Hi. destruct (table_addr _ _ _ _ Ht Hp) as [_ Hal]. unfold below.
  rewrite (entry_set s pl t i t i _ p), !Z.eqb_refl by done. cbn [andb].
  rewrite !(has_testbit _ 0 VMM_PRESENT), !(has_testbit _ 7 VMM_HUGE), !Z.lor_spec by done.
  change (Z.testbit VMM_USER 0) with false. change (Z.testbit VMM_USER 7) with false. rewrite !orb_false_r.
  rewrite Z.land_lor_distr_l. change (Z.land VMM_USER PTE_ADDR_MASK) with 0. rewrite Z.lor_0_r. done.
Qed.

(** A frame from the allocator is no table of the structure. *)
Lemma alloc_tables s pl :
  tables s pl ->
  let '(frame, s1) := vmm_alloc_frame s in
  tables s1 pl /\ same_setup s s1 /\ stay_used s s1 /\ ram s1 = ram s /\
  (frame = 0 \/ exists f, frame = f * PAGE_SIZE /\ frame_table s (f * PAGE_SIZE + hhdm s) f /\
     f ∈ abs (frames (owned s)) /\ f ∉ abs (frames (owned s1)) /\ pl !! (f * PAGE_SIZE + hhdm s) = None).
Proof.
  intros Ht. unfold vmm_alloc_frame. pose proof (alloc_frame_spec (owned s) (tb_cow _ _ Ht)) as HA.
  pose proof (alloc_frame_hhdm (owned s)) as Hh. destruct (alloc_frame (owned s)) as [frame c].
  destruct HA as (A1&A2&A3&A4). simpl in Hh.
  assert (abs (frames c) ⊆ abs (frames (owned s))) as Hsub by (destruct A4 as [(_&->&_)|(f&_&_&_&->)]; set_solver).
  assert (same_setup s (set_owned s c)) as Hsu by (unfold same_setup, hhdm; simpl; done).
  assert (forall t i, below (set_owned s c) t i = below s t i) as Hb.
  { intros t i. unfold below, hhdm. simpl. rewrite Hh. done. }
  destruct Ht as [B1 B2 B3 B4 B5 B6]. split_and!; try done.
  - split; try done.
    + intros t p Hp. destruct (B1 t p Hp) as (f&[-> Hf]&Hn). exists f. split; [|set_solver].
      unfold frame_table, hhdm. simpl. rewrite Hh, A2. done.
    + intros t p i. rewrite Hb. apply B3.
    + unfold hhdm. simpl. rewrite Hh, A2. done.
    + simpl. by rewrite A2.
  - split_and!; [done|done|]. simpl. set_solver.
  - destruct A4 as [(->&_)|(f&->&Hf&Hin&Habs)]; [by left|right]. exists f. split_and!; try done; [simpl; set_solver|].
    destruct (pl !! (f * PAGE_SIZE + hhdm s)) as [p|] eqn:E; [|done].
    destruct (B1 _ _ E) as (f'&[Heq _]&Hn). assert (f' = f) as -> by (unfold PAGE_SIZE in *; lia). done.
Qed.

(** A fresh, empty table below an entry that led nowhere. *)
Lemma new_table s pl t p i f fl :
  tables s pl -> pl !! t = Some p -> (length (snd p) < 3)%nat -> index_ok i -> below s t i = 0 ->
  frame_table s (f * PAGE_SIZE + hhdm s) f -> f ∉ abs (frames (owned s)) ->
  pl !! (f * PAGE_SIZE + hhdm s) = None ->
  Z.land fl PTE_ADDR_MASK = 0 -> Z.testbit fl 0 = true -> Z.testbit fl 7 = false ->
  let t' := f * PAGE_SIZE + hhdm s in
  let s' := set_entry (set_ram s (fill_page (ram s) t' 0)) t i (Z.lor (f * PAGE_SIZE) fl) in
  let pl' := <[t' := child t p i]> pl in
  tables s' pl' /\ same_view s s' pl /\ keeps s s' pl /\ below s' t i = t' /\ pl' !! t' = Some (child t p i) /\ pl ⊆ pl'.
Proof.
  intros Ht Hp Hlen Hi Hb0 Hft Hfree Hnone Hmask Hpres Hhuge. cbn zeta. set (t' := f * PAGE_SIZE + hhdm s) in *.
  set (s1 := set_ram s (fill_page (ram s) t' 0)). set (s' := set_entry s1 t i _). set (pl' := <[t' := child t p i]> pl).
  destruct (table_addr _ _ _ _ Ht Hp) as [_ Hal]. destruct (frame_table_addr _ _ _ (tb_hhdm _ _ Ht) Hft) as [Hr' Hal'].
  assert (t <> t') as Htt by congruence.
  assert (forall x j, x mod PAGE_SIZE = 0 -> index_ok j -> entry s' x j =
    if (x =? t) && (j =? i) then Z.lor (f * PAGE_SIZE) fl else if x =? t' then 0 else entry s x j) as He.
  { intros x j Hx Hj. unfold s', entry, set_entry, write_word, s1, fill_page. simpl.
    destruct (Z.eqb_spec (slot_at x j) (slot_at t i)) as [E|E].
    - apply slot_at_inj in E as [-> ->]; [|done..]. by rewrite !Z.eqb_refl.
    - assert ((x =? t) && (j =? i) = false) as ->.
      { destruct (Z.eqb_spec x t) as [->|], (Z.eqb_spec j i) as [->|]; done. }
      destruct (Z.eqb_spec x t') as [->|Hne]; unfold slot_at, index_ok, PAGE_SIZE in *.
      + destruct (Z.leb_spec t' (t' + 8 * j)), (Z.ltb_spec (t' + 8 * j) (t' + 4096)); simpl; lia || done.
      + destruct (Z.leb_spec t' (x + 8 * j)), (Z.ltb_spec (x + 8 * j) (t' + 4096)); simpl; try done. zlia. }
  assert (below s' t i = t') as Hbt.
  { unfold below. rewrite He, !Z.eqb_refl by done. cbn [andb].
    rewrite (has_testbit _ 0 VMM_PRESENT), (has_testbit _ 7 VMM_HUGE), !Z.lor_spec, Hpres, Hhuge by done.
    replace (Z.testbit (f * PAGE_SIZE) 7) with false.
    2: { change PAGE_SIZE with (2 ^ 12). by rewrite Z.mul_pow2_bits_low by lia. }
    rewrite orb_true_r. cbn [orb andb negb]. pose proof (tb_phys _ _ Ht). destruct Hft as [_ Hf].
    rewrite mask_frame by (done || lia). change (hhdm s') with (hhdm s). apply u64_small. unfold t', PAGE_SIZE in *. lia. }
  assert (forall x j, x mod PAGE_SIZE = 0 -> index_ok j -> x <> t' -> ~ (x = t /\ j = i) -> below s' x j = below s x j) as Hbo.
  { intros x j Hx Hj Hn1 Hn2. unfold below. rewrite He by done.
    assert ((x =? t) && (j =? i) = false) as ->.
    { destruct (Z.eqb_spec x t), (Z.eqb_spec j i); try done. tauto. }
    destruct (Z.eqb_spec x t'); [done|]. done. }
  assert (forall j, index_ok j -> entry s' t' j = 0) as Hz.
  { intros j Hj. rewrite He by done. destruct (Z.eqb_spec t' t); [done|]. cbn [andb]. by rewrite Z.eqb_refl. }
  split_and!.
  - destruct Ht as [B1 B2 B3 B4 B5 B6] eqn:HT. split; try done.
    + intros x q [[<- <-]|[Hne Hq]]%lookup_insert_Some; [by exists f|]. by apply (B1 x q).
    + intros x o [[<- Hq]|[Hne Hq]]%lookup_insert_Some; [|by apply B2]. unfold child in Hq. destruct (snd p) as [|a [|b l]]; discriminate.
    + intros x q j [[<- <-]|[Hne Hq]]%lookup_insert_Some Hl Hj Hbn; [by rewrite below_zero in Hbn by auto|].
      destruct (table_addr _ _ _ _ Ht Hq) as [_ Hax]. destruct (decide (x = t /\ j = i)) as [[-> ->]|Hn].
      * rewrite Hbt. assert (q = p) as -> by congruence. apply lookup_insert_eq.
      * rewrite Hbo in Hbn |- * by (done || congruence). unfold pl'. rewrite lookup_insert_ne; [by apply B3|].
        intros Hx. pose proof (B3 x q j Hq Hl Hj Hbn) as Hc. congruence.
  - intros x q path j Hq Hl Hpath Hj. apply (entry_at_agree s s' pl Ht) with (p := q); try done.
    + intros y r k Hr Hlr Hk. destruct (table_addr _ _ _ _ Ht Hr) as [_ Hay]. destruct (decide (y = t /\ k = i)) as [[-> ->]|Hn].
      * right. rewrite Hbt. done.
      * left. apply Hbo; done || congruence.
    + intros y r k Hr Hlr Hk. destruct (table_addr _ _ _ _ Ht Hr) as [_ Hay]. rewrite He by done.
      destruct (Z.eqb_spec y t) as [->|]; [assert (r = p) by congruence; subst; lia|]. cbn [andb].
      destruct (Z.eqb_spec y t'); [congruence|done].
  - intros x q k Hq _ Hk Hne. destruct (table_addr _ _ _ _ Ht Hq) as [_ Hax]. apply Hbo; try done; [congruence|].
    intros [-> ->]. done.
  - done.
  - apply lookup_insert_eq.
  - by apply insert_subseteq.
Qed.

(** [get_next_level] with [allocate]: the table one level down, made if need be. *)
Lemma next_level_spec s pl t p i flags :
  tables s pl -> pl !! t = Some p -> (length (snd p) < 3)%nat -> index_ok i ->
  let '(t', s') := get_next_level s t i true flags in
  exists pl', tables s' pl' /\ pl ⊆ pl' /\ same_view s s' pl /\ keeps s s' pl /\ same_setup s s' /\
    stay_used s s' /\ fresh_only s pl pl' /\
    (t' <> 0 -> below s' t i = t' /\ pl' !! t' = Some (child t p i)).
Proof.
  intros Ht Hp Hlen Hi. unfold get_next_level. set (e := entry s t i). assert (fresh_only s pl pl) as Hfr0 by (by intros k).
  destruct (has e VMM_PRESENT) eqn:Hpr; [destruct (has e VMM_HUGE) eqn:Hhu|]; cbn [andb negb].
  - exists pl. split_and!; try done.
  - assert (below s t i = u64 (Z.land e PTE_ADDR_MASK + hhdm s)) as Hb by (unfold below; fold e; by rewrite Hpr, Hhu).
    destruct (has flags VMM_USER).
    + set (s' := set_entry s t i (Z.lor e VMM_USER)).
      assert (below s' t i = below s t i) as Hb' by (by apply (below_lor_user s pl t i p)).
      destruct (table_addr _ _ _ _ Ht Hp) as [_ Hal].
      assert (Z.land (entry s' t i) PTE_ADDR_MASK = Z.land e PTE_ADDR_MASK) as ->.
      { unfold s'. rewrite (entry_set s pl t i t i _ p), !Z.eqb_refl by done. cbn [andb]. rewrite Z.land_lor_distr_l.
        change (Z.land VMM_USER PTE_ADDR_MASK) with 0. apply Z.lor_0_r. }
      change (hhdm s') with (hhdm s). rewrite <- Hb. exists pl. split_and!; try done.
      * by apply (set_same_tables s pl t i _ p).
      * intros x q path j Hq Hl Hpath Hj. apply (entry_at_agree s s' pl Ht) with (p := q); try done.
        -- intros y r k Hr _ Hk. left. destruct (table_addr _ _ _ _ Ht Hr) as [_ Hay].
           destruct (decide (y = t /\ k = i)) as [[-> ->]|Hn]; [done|]. by apply (below_set s pl t i y k _ p).
        -- intros y r k Hr Hlr Hk. destruct (table_addr _ _ _ _ Ht Hr) as [_ Hay].
           unfold s'. rewrite (entry_set s pl t i y k _ p) by done.
           destruct (Z.eqb_spec y t) as [->|]; [assert (r = p) by congruence; subst; lia|done].
      * intros x q k Hq _ Hk _. destruct (table_addr _ _ _ _ Ht Hq) as [_ Hax].
        destruct (decide (x = t /\ k = i)) as [[-> ->]|Hn]; [done|]. by apply (below_set s pl t i x k _ p).
      * intros Hne. split; [done|]. by apply (tb_child _ _ Ht).
    + fold e. rewrite <- Hb. exists pl. split_and!; try done. intros Hne. split; [done|]. by apply (tb_child _ _ Ht).
  - assert (below s t i = 0) as Hb by (unfold below; fold e; by rewrite Hpr).
    pose proof (alloc_tables s pl Ht) as HA. destruct (vmm_alloc_frame s) as [frame s1].
    destruct HA as (A1&A2&ASt&A3&A4). pose proof A2 as (Hh&Hk&Htot&Hsl&Hnd).
    assert (forall x j, entry s1 x j = entry s x j) as He1 by (intros; unfold entry; by rewrite A3).
    assert (forall x j, below s1 x j = below s x j) as Hb1 by (intros; unfold below; by rewrite He1, Hh).
    assert (forall x path j, entry_at s1 x path j = entry_at s x path j) as Hv1.
    { intros x path. revert x. induction path as [|k path IH]; intros x j; [unfold entry_at; cbn [descend]; by rewrite He1|].
      rewrite !entry_at_cons, Hb1. destruct (below s x k =? 0); [done|apply IH]. }
    destruct A4 as [->|(f&->&Hft&Hin&Hnf&Hnone)].
    + rewrite Z.eqb_refl. exists pl. split_and!; try done; [intros x q path j _ _ _ _; apply Hv1|by intros x q k _ _ _ _].
    + destruct Hft as [_ Hf]. destruct (Z.eqb_spec (f * PAGE_SIZE) 0); [unfold PAGE_SIZE in *; lia|].
      pose proof (tb_hhdm _ _ Ht) as (_&?&?).
      rewrite (u64_small (f * PAGE_SIZE + hhdm s1)) by (rewrite Hh; unfold PAGE_SIZE in *; lia). rewrite Hh.
      set (fl := if has flags VMM_USER then _ else _).
      assert (Z.land fl PTE_ADDR_MASK = 0 /\ Z.testbit fl 0 = true /\ Z.testbit fl 7 = false) as (F1&F2&F3).
      { unfold fl. by destruct (has flags VMM_USER). }
      destruct (new_table s1 pl t p i f fl A1 Hp Hlen Hi) as (N1&N2&NK&N3&N4&N5); rewrite ?Hb1, ?Hh in *; try done.
      { split; [by rewrite Hh|by rewrite Htot]. }
      eexists. split_and!; [exact N1|exact N5| | | |exact ASt| |intros _; split; [exact N3|exact N4]].
      * intros x q path j Hq Hl Hpath Hj. rewrite N2 by done. apply Hv1.
      * intros x q k Hq Hlq Hix Hne. rewrite (NK x q k) by (done || by rewrite Hb1). apply Hb1.
      * unfold same_setup in *. simpl. done.
      * intros k Hk0 Hku Hkn. rewrite lookup_insert_ne; [done|]. intros E. assert (k = f) as -> by (unfold PAGE_SIZE in *; lia). done.
Qed.

(** * The walk that makes tables *)

Lemma same_setup_trans s1 s2 s3 : same_setup s1 s2 -> same_setup s2 s3 -> same_setup s1 s3.
Proof. unfold same_setup. intuition congruence. Qed.

Lemma same_view_trans s1 s2 s3 pl pl' : pl ⊆ pl' -> same_view s1 s2 pl -> same_view s2 s3 pl' -> same_view s1 s3 pl.
Proof.
  intros Hsub H1 H2 t p path j Hp Hl Hpath Hj. rewrite (H2 t p) by (done || by eapply lookup_weaken). by apply (H1 t p).
Qed.

Lemma keeps_trans s1 s2 s3 pl pl' : pl ⊆ pl' -> keeps s1 s2 pl -> keeps s2 s3 pl' -> keeps s1 s3 pl.
Proof.
  intros Hsub H1 H2 t p i Hp Hl Hi Hne. pose proof (H1 t p i Hp Hl Hi Hne) as E. rewrite <- E. apply (H2 t p); try done; [|congruence].
  by eapply lookup_weaken.
Qed.

(** Going down further along a path, making what is missing. *)
Fixpoint make_levels (s : vmm) (t : Z) (path : list Z) (flags : Z) : Z * vmm :=
  match path with
  | [] => (t, s)
  | i :: path' => let '(t', s) := get_next_level s t i true flags in
                  if t' =? 0 then (0, s) else make_levels s t' path' flags
  end.

Lemma walk_make s pml4 virt flags : walk_levels s pml4 virt true flags = make_levels s pml4 (path_of virt) flags.
Proof.
  unfold walk_levels, then_level, path_of. cbn [make_levels].
  destruct (get_next_level s pml4 _ true flags) as [t1 s1]. destruct (t1 =? 0); [done|].
  destruct (get_next_level s1 t1 _ true flags) as [t2 s2]. destruct (t2 =? 0); [done|].
  destruct (get_next_level s2 t2 _ true flags) as [t3 s3]. by destruct (Z.eqb_spec t3 0) as [->|].
Qed.

Lemma make_levels_spec flags : forall path s pl t p,
  tables s pl -> pl !! t = Some p -> (length (snd p) + length path = 3)%nat -> Forall index_ok path ->
  let '(pt, s') := make_levels s t path flags in
  exists pl', tables s' pl' /\ pl ⊆ pl' /\ same_view s s' pl /\ keeps s s' pl /\ same_setup s s' /\
    stay_used s s' /\ fresh_only s pl pl' /\
    (pt <> 0 -> descend s' t path = pt).
Proof.
  induction path as [|i path IH]; intros s pl t p Ht Hp Hlen Hpath; cbn [make_levels].
  { exists pl. split_and!; try done. by intros k. }
  apply Forall_cons in Hpath as [Hi Hpath]. simpl in Hlen.
  pose proof (next_level_spec s pl t p i flags Ht Hp ltac:(lia) Hi) as HN.
  destruct (get_next_level s t i true flags) as [t1 s1]. destruct HN as (pl1&T1&Sub1&V1&K1&Su1&St1&Fr1&Hb1).
  destruct (Z.eqb_spec t1 0) as [->|Hne]; [by exists pl1; split_and!|].
  destruct (Hb1 Hne) as [Hb Hp1].
  assert (length (snd (child t p i)) = S (length (snd p))) as Hcl.
  { unfold child. destruct p as [o [|a q]]; simpl; [done|]. rewrite length_app. simpl. lia. }
  specialize (IH s1 pl1 t1 (child t p i) T1 Hp1 ltac:(lia) Hpath).
  destruct (make_levels s1 t1 path flags) as [pt s2]. destruct IH as (pl2&T2&Sub2&V2&K2&Su2&St2&Fr2&Hd).
  exists pl2. split_and!; try done; [by etrans|by eapply same_view_trans|by eapply keeps_trans|by eapply same_setup_trans
    |by eapply stay_used_trans|by eapply fresh_only_trans|].
  intros Hpt. cbn [descend]. rewrite (K2 t p i); [|by eapply lookup_weaken|lia|done|congruence]. rewrite Hb.
  destruct (Z.eqb_spec t1 0); [done|]. by apply Hd.
Qed.

(** * Lookups of pages *)

Lemma path_of_ok virt : Forall index_ok (path_of virt).
Proof. repeat constructor; apply index_range. Qed.

Lemma descend_pos s t path : path <> [] -> 0 <= descend s t path.
Proof.
  revert t. induction path as [|i path IH]; intros t Hne; [done|]. cbn [descend].
  assert (0 <= below s t i) as Hb.
  { unfold below. destruct (_ && _); [|done]. pose proof (u64_range (Z.land (entry s t i) PTE_ADDR_MASK + hhdm s)). lia. }
  destruct (below s t i =? 0); [done|]. destruct path; [done|]. by apply IH.
Qed.

Lemma get_pte_entry s root virt :
  root <> 0 -> vmm_get_pte s root virt = entry_at s root (path_of virt) (pt_index virt).
Proof.
  intros Hr. unfold vmm_get_pte, or_kernel, walk_to_pte, entry_at. apply Z.eqb_neq in Hr as ->.
  rewrite walk_look. cbn [fst]. pose proof (descend_pos s root (path_of virt) ltac:(done)).
  destruct (Z.eqb_spec (descend s root (path_of virt)) 0); [done|].
  pose proof (index_range virt 12) as [? _]. fold (pt_index virt) in *.
  destruct (Z.eqb_spec (slot_at (descend s root (path_of virt)) (pt_index virt)) 0); [unfold slot_at in *; lia|done].
Qed.

Lemma get_phys_entry s root virt :
  root <> 0 ->
  vmm_get_phys s root virt =
    let e := vmm_get_pte s root virt in if has e VMM_PRESENT then Z.land e PTE_ADDR_MASK else 0.
Proof.
  intros Hr. rewrite get_pte_entry by done. unfold vmm_get_phys, or_kernel, entry_at. apply Z.eqb_neq in Hr as ->.
  rewrite walk_look. cbn [fst]. by destruct (descend s root (path_of virt) =? 0).
Qed.

(** Two addresses seen through two address spaces may share a table entry only
    if they are the same page, and in the user half only in the same space. *)
Definition same_slot (root virt root' virt' : Z) : Prop :=
  path_of virt = path_of virt' /\ pt_index virt = pt_index virt' /\ (root = root' \/ 256 <= pml4_index virt).

Definition is_root (pl : gmap Z place) (root : Z) : Prop := pl !! root = Some (root, []).

Lemma set_leaf_descend s pl pt o q i v :
  tables s pl -> pl !! pt = Some (o, q) -> length q = 3%nat -> index_ok i ->
  forall path t p, pl !! t = Some p -> (length (snd p) + length path <= 3)%nat -> Forall index_ok path ->
    descend (set_entry s pt i v) t path = descend s t path.
Proof.
  intros Ht Hpt Hq Hi. induction path as [|k path IH]; intros t p Hp Hlen Hpath; [done|]. cbn [descend].
  apply Forall_cons in Hpath as [Hk Hpath]. simpl in Hlen. destruct (table_addr _ _ _ _ Ht Hp) as [_ Hal].
  rewrite (below_set s pl pt i t k v (o, q)) by (done || (intros [-> ->]; simplify_eq; simpl in *; lia)).
  destruct (Z.eqb_spec (below s t k) 0); [done|].
  apply (IH _ (child t p k)); [by apply (tb_child _ _ Ht); [|lia|..]| |done].
  unfold child. destruct p as [? [|a l]]; simpl in *; [lia|]. rewrite length_app. simpl. lia.
Qed.

(** Writing the entry of one page. *)
Lemma set_page_entry s pl root virt v :
  tables s pl -> is_root pl root -> let pt := descend s root (path_of virt) in pt <> 0 ->
  let s' := set_entry s pt (pt_index virt) v in
  tables s' pl /\ vmm_get_pte s' root virt = v /\
  (forall root' virt', is_root pl root' -> ~ same_slot root virt root' virt' ->
     vmm_get_pte s' root' virt' = vmm_get_pte s root' virt').
Proof.
  intros Ht Hroot pt Hpt s'. pose proof (index_range virt 12) as Hi. fold (pt_index virt) in Hi.
  destruct (descend_place s pl Ht (path_of virt) root (root, []) Hroot ltac:(simpl; lia) (path_of_ok virt) Hpt)
    as (o&Hp&_&_&Ho). cbn [snd app] in Hp. fold pt in Hp. specialize (Ho eq_refl). cbn [path_of] in Ho.
  assert (forall r virt', is_root pl r -> vmm_get_pte s' r virt' =
    let pt' := descend s r (path_of virt') in
    if pt' =? 0 then 0 else if (pt' =? pt) && (pt_index virt' =? pt_index virt) then v else entry s pt' (pt_index virt')) as Hget.
  { intros r virt' Hr. destruct (table_addr _ _ _ _ Ht Hr) as [Hr0 _]. rewrite get_pte_entry by lia. unfold entry_at, s'.
    rewrite (set_leaf_descend s pl pt o (path_of virt) (pt_index virt) v Ht Hp eq_refl Hi (path_of virt') r (r, []) Hr);
      [|simpl; lia|apply path_of_ok].
    cbn zeta. destruct (Z.eqb_spec (descend s r (path_of virt')) 0); [done|].
    destruct (descend_place s pl Ht (path_of virt') r (r, []) Hr ltac:(simpl; lia) (path_of_ok virt')) as (o'&Hp'&_); [done|].
    destruct (table_addr _ _ _ _ Ht Hp') as [_ Hal]. apply (entry_set s pl pt _ _ _ v (o, path_of virt)); try done. apply index_range. }
  split_and!.
  - by apply (set_leaf_tables s pl pt _ v o (path_of virt)).
  - rewrite Hget by done. cbn zeta. fold pt. apply Z.eqb_neq in Hpt as ->. by rewrite !Z.eqb_refl.
  - intros root' virt' Hr' Hns. destruct (table_addr _ _ _ _ Ht Hr') as [Hr0 _].
    rewrite Hget, get_pte_entry by (done || lia). unfold entry_at. cbn zeta.
    destruct (Z.eqb_spec (descend s root' (path_of virt')) 0) as [|Hne]; [done|].
    destruct (Z.eqb_spec (descend s root' (path_of virt')) pt) as [E|], (Z.eqb_spec (pt_index virt') (pt_index virt)) as [Ei|]; try done.
    destruct (descend_place s pl Ht (path_of virt') root' (root', []) Hr' ltac:(simpl; lia) (path_of_ok virt') Hne)
      as (o'&Hp'&_&_&Ho'). cbn [snd app] in Hp'. specialize (Ho' eq_refl). cbn [path_of] in Ho'. rewrite E in Hp'.
    assert (path_of virt' = path_of virt /\ o' = o) as [Hpath Hoo] by (split; congruence).
    exfalso. apply Hns. unfold same_slot. split_and!; [done|done|].
    assert (pml4_index virt' = pml4_index virt) as E4 by (unfold path_of in Hpath; congruence). rewrite E4 in Ho'.
    destruct (Z.ltb_spec (pml4_index virt) 256); [left; congruence|right; lia].
Qed.

Lemma pl_root_weaken pl pl' root : pl ⊆ pl' -> is_root pl root -> is_root pl' root.
Proof. intros Hs Hr. by eapply lookup_weaken. Qed.

Lemma same_view_pte s s' pl root virt :
  tables s pl -> same_view s s' pl -> is_root pl root -> vmm_get_pte s' root virt = vmm_get_pte s root virt.
Proof.
  intros Ht Hv Hr. destruct (table_addr _ _ _ _ Ht Hr) as [Hr0 _]. rewrite !get_pte_entry by lia.
  apply (Hv root (root, [])); [done|done|apply path_of_ok|apply index_range].
Qed.

(** [vmm_map_page], for an address space of its own or the kernel's. *)
Lemma map_page_spec s pl root virt phys flags :
  tables s pl -> is_root pl root ->
  let '(ok, s') := vmm_map_page s root virt phys flags in
  exists pl', tables s' pl' /\ pl ⊆ pl' /\ same_setup s s' /\ stay_used s s' /\ fresh_only s pl pl' /\
    (ok = true -> vmm_get_pte s' root virt = Z.lor (Z.lor (Z.land phys PTE_ADDR_MASK) flags) VMM_PRESENT) /\
    (forall root' virt', is_root pl root' -> ok = false \/ ~ same_slot root virt root' virt' ->
       vmm_get_pte s' root' virt' = vmm_get_pte s root' virt').
Proof.
  intros Ht Hr. destruct (table_addr _ _ _ _ Ht Hr) as [Hr0 _]. unfold vmm_map_page, or_kernel.
  destruct (Z.eqb_spec root 0); [lia|]. rewrite walk_make.
  pose proof (make_levels_spec flags (path_of virt) s pl root (root, []) Ht Hr eq_refl (path_of_ok virt)) as HM.
  destruct (make_levels s root (path_of virt) flags) as [pt s1]. destruct HM as (pl1&T1&Sub&V1&_&Su1&St1&Fr1&Hd).
  destruct (Z.eqb_spec pt 0) as [->|Hpt].
  - exists pl1. split_and!; try done. intros root' virt' Hr' _. by apply (same_view_pte s s1 pl).
  - specialize (Hd Hpt). rewrite <- Hd in Hpt |- *.
    destruct (set_page_entry s1 pl1 root virt (Z.lor (Z.lor (Z.land phys PTE_ADDR_MASK) flags) VMM_PRESENT) T1
      (pl_root_weaken _ _ _ Sub Hr) Hpt) as (A&B&C).
    exists pl1. split_and!; try done. intros root' virt' Hr' [|Hns]; [done|].
    rewrite C by (done || by apply (pl_root_weaken pl)). by apply (same_view_pte s s1 pl).
Qed.
