(* ===== verification/VmmProps.v ===== *)
(** What mapping, unmapping, copy-on-write faults and the check of user buffers
    guarantee. *)
From stdpp Require Import base tactics numbers list sets gmap.
From Stdlib Require Import ZArith Lia.
From S2P Require Import Prelude Pmm Cow SwapSlots Vmm VmmInv.

Open Scope Z_scope.

(** * Pages of addresses *)

Lemma page_of_eq v : 0 <= v < 0x10000000000000000 -> page_of v = v - v mod 4096.
Proof. intros Hv. unfold page_of, PAGE_SIZE. by rewrite (land_align _ 12) by lia. Qed.

Lemma shiftr_page v k : 12 <= k -> 0 <= v < 0x10000000000000000 -> Z.shiftr (page_of v) k = Z.shiftr v k.
Proof.
  intros Hk Hv. rewrite page_of_eq by done. rewrite !Z.shiftr_div_pow2 by lia.
  replace k with (12 + (k - 12)) by lia. rewrite Z.pow_add_r, <- !Z.div_div by (try apply Z.pow_nonzero; lia).
  f_equal. change (2 ^ 12) with 4096. zlia.
Qed.

Lemma page_of_indices v :
  0 <= v < 0x10000000000000000 -> path_of (page_of v) = path_of v /\ pt_index (page_of v) = pt_index v.
Proof.
  intros Hv. unfold path_of, pml4_index, pdpt_index, pd_index, pt_index. rewrite !shiftr_page by (done || lia). done.
Qed.

Lemma get_pte_page s root v :
  root <> 0 -> 0 <= v < 0x10000000000000000 -> vmm_get_pte s root (page_of v) = vmm_get_pte s root v.
Proof. intros Hr Hv. destruct (page_of_indices v Hv) as [E1 E2]. by rewrite !get_pte_entry, E1, E2 by done. Qed.

(** In the user half the indices determine the page. *)
Lemma user_indices v v' :
  0 <= v < USER_SPACE_END -> 0 <= v' < USER_SPACE_END -> path_of v = path_of v' -> pt_index v = pt_index v' ->
  page_of v = page_of v'.
Proof.
  unfold USER_SPACE_END. intros Hv Hv' Hp Hi. rewrite !page_of_eq by lia.
  unfold path_of, pml4_index, pdpt_index, pd_index, pt_index in *. injection Hp as H4 H3 H2.
  change 0x1FF with (Z.ones 9) in *. rewrite !Z.land_ones, !Z.shiftr_div_pow2 in * by lia.
  change (2 ^ 9) with 512 in *. change (2 ^ 39) with 549755813888 in *. change (2 ^ 30) with 1073741824 in *.
  change (2 ^ 21) with 2097152 in *. change (2 ^ 12) with 4096 in *. zlia.
Qed.

Lemma user_index_low v : 0 <= v < USER_SPACE_END -> pml4_index v < 256.
Proof.
  unfold USER_SPACE_END, pml4_index. intros Hv. change 0x1FF with (Z.ones 9).
  rewrite Z.land_ones, Z.shiftr_div_pow2 by lia. change (2 ^ 39) with 549755813888. change (2 ^ 9) with 512. zlia.
Qed.

(** * Memory outside the tables *)

(** Writing to a page that is no table changes no table. *)
Lemma data_tables s pl t' (m' : Z -> Z) :
  tables s pl -> t' mod PAGE_SIZE = 0 -> pl !! t' = None ->
  (forall x, ~ (t' <= x < t' + PAGE_SIZE) -> m' x = ram s x) ->
  tables (set_ram s m') pl /\ same_view s (set_ram s m') pl /\
  (forall root virt, is_root pl root -> descend (set_ram s m') root (path_of virt) = descend s root (path_of virt)).
Proof.
  intros Ht Hal Hnone Hm.
  assert (forall t p i, pl !! t = Some p -> index_ok i -> entry (set_ram s m') t i = entry s t i) as He.
  { intros t p i Hp Hi. destruct (table_addr _ _ _ _ Ht Hp) as [_ Hal']. unfold entry. simpl. apply Hm.
    assert (t <> t') by congruence. unfold slot_at, index_ok, PAGE_SIZE in *. zlia. }
  assert (forall t p i, pl !! t = Some p -> index_ok i -> below (set_ram s m') t i = below s t i) as Hb.
  { intros t p i Hp Hi. unfold below. by rewrite (He t p i). }
  split_and!.
  - destruct Ht as [A B C D E F]. split; try done. intros t p i Hp Hl Hi. rewrite (Hb t p i) by done. by apply C.
  - intros t p path j Hp Hl Hpath Hj. apply (entry_at_agree s _ pl Ht) with (p := p); try done.
    + intros x q k Hq _ Hk. left. by apply (Hb x q).
    + intros x q k Hq _ Hk. by apply (He x q).
  - intros root virt Hr. assert (forall path t p, pl !! t = Some p -> (length (snd p) + length path <= 3)%nat ->
      Forall index_ok path -> descend (set_ram s m') t path = descend s t path) as Hd.
    { induction path as [|k path IH]; intros t p Hp Hl Hpath; [done|]. apply Forall_cons in Hpath as [Hk Hpath].
      cbn [descend]. simpl in Hl. rewrite (Hb t p k) by done. destruct (Z.eqb_spec (below s t k) 0); [done|].
      apply (IH _ (child t p k)); [by apply (tb_child _ _ Ht); [|lia|..]| |done].
      unfold child. destruct p as [? [|a l]]; simpl in *; [lia|]. rewrite length_app. simpl. lia. }
    by apply (Hd (path_of virt) root (root, [])); [|simpl; lia|apply path_of_ok].
Qed.

Lemma descend_ext s s' t path : ram s' = ram s -> hhdm s' = hhdm s -> descend s' t path = descend s t path.
Proof.
  intros Hr Hh. revert t. induction path as [|k path IH]; intros t; [done|]. cbn [descend].
  assert (below s' t k = below s t k) as -> by (unfold below, entry; by rewrite Hr, Hh).
  destruct (below s t k =? 0); [done|apply IH].
Qed.

(** A state with the same memory and direct map shows the same pages. *)
Lemma entry_at_ext s s' t path j :
  ram s' = ram s -> hhdm s' = hhdm s -> entry_at s' t path j = entry_at s t path j.
Proof.
  intros Hr Hh. revert t. induction path as [|k path IH]; intros t.
  - unfold entry_at, entry. cbn [descend]. by rewrite Hr.
  - rewrite !entry_at_cons. assert (below s' t k = below s t k) as -> by (unfold below, entry; by rewrite Hr, Hh).
    destruct (below s t k =? 0); [done|apply IH].
Qed.

Lemma pte_ext s s' root virt :
  root <> 0 -> ram s' = ram s -> hhdm s' = hhdm s -> vmm_get_pte s' root virt = vmm_get_pte s root virt.
Proof. intros. rewrite !get_pte_entry by done. by apply entry_at_ext. Qed.

(** Giving up a reference to a frame that is no table. *)
Lemma unref_tables s pl f :
  tables s pl -> 1 <= f < total_frames (frames (owned s)) -> f ∉ abs (frames (owned s)) ->
  pl !! (f * PAGE_SIZE + hhdm s) = None -> tables (vmm_unref_frame (f * PAGE_SIZE) s) pl.
Proof.
  intros Ht Hf Hu Hnone. destruct (unref_frame_spec (owned s) f (tb_cow _ _ Ht) Hf Hu) as (A1&A2&A3&A4).
  pose proof (unref_hhdm (f * PAGE_SIZE) (owned s)) as Hh.
  destruct Ht as [B1 B2 B3 B4 B5 B6]. set (s' := vmm_unref_frame (f * PAGE_SIZE) s).
  assert (hhdm s' = hhdm s) as Hh' by exact Hh.
  assert (total_frames (frames (owned s')) = total_frames (frames (owned s))) as Htot by exact A2.
  assert (forall t i, below s' t i = below s t i) as Hb by (intros; unfold below; by rewrite Hh').
  split; try done.
  - intros t p Hp. destruct (B1 t p Hp) as (g&[-> Hg]&Hng). exists g. split; [split; [by rewrite Hh'|by rewrite Htot]|].
    assert (g <> f) by (intros ->; congruence). simpl. apply owners_used. rewrite A4 by (done || lia).
    unfold owners. rewrite bool_decide_false by done. pose proof (co_range _ B6 g ltac:(lia)). lia.
  - intros t p i. rewrite Hb. apply B3.
  - by rewrite Hh', Htot.
  - by rewrite Htot.
Qed.

(** * Copy-on-write *)

Lemma clear_testbit e bits i : 0 <= i < 64 -> Z.testbit (clear e bits) i = Z.testbit e i && negb (Z.testbit bits i).
Proof.
  intros Hi. unfold clear. rewrite Z.land_spec. f_equal. unfold u64. change 0x10000000000000000 with (2 ^ 64).
  rewrite Z.mod_pow2_bits_low by lia. apply Z.lnot_spec; lia.
Qed.

Lemma frame_masked f : 0 <= f < 0x10000000000 -> Z.land (f * PAGE_SIZE) PTE_ADDR_MASK = f * PAGE_SIZE.
Proof. intros Hf. rewrite <- (Z.lor_0_r (f * PAGE_SIZE)) at 1. by apply mask_frame. Qed.

(** The entry a resolved fault leaves: frame [phys], writable, not marked. *)
Lemma cow_entry_bits e phys :
  has e VMM_PRESENT = true -> 0 <= phys -> phys mod PAGE_SIZE = 0 -> Z.land phys PTE_ADDR_MASK = phys ->
  let e' := Z.lor phys (Z.lor (clear e (Z.lor PTE_ADDR_MASK VMM_COW)) VMM_WRITABLE) in
  has e' VMM_PRESENT = true /\ has e' VMM_WRITABLE = true /\ has e' VMM_COW = false /\
  has e' VMM_USER = has e VMM_USER /\ Z.land e' PTE_ADDR_MASK = phys.
Proof.
  intros Hp Hphys Hal Hmask. cbn zeta.
  assert (forall i, 0 <= i < 12 -> Z.testbit phys i = false) as Hlow.
  { intros i Hi. rewrite <- Hmask, Z.land_spec, mask_testbit by lia. destruct (Z.leb_spec 12 i); [lia|]. by rewrite andb_false_r. }
  rewrite (has_testbit _ 0 VMM_PRESENT), (has_testbit _ 1 VMM_WRITABLE), (has_testbit _ 9 VMM_COW), !(has_testbit _ 2 VMM_USER) in * by done.
  rewrite !Z.lor_spec, !clear_testbit, !Z.lor_spec, !Hlow by lia. rewrite (has_testbit _ 0 VMM_PRESENT) in Hp by done.
  rewrite Hp. split_and!; try done.
  - by destruct (Z.testbit e 1).
  - by destruct (Z.testbit e 9).
  - by destruct (Z.testbit e 2).
  - rewrite !Z.land_lor_distr_l, Hmask. change (Z.land VMM_WRITABLE PTE_ADDR_MASK) with 0. rewrite Z.lor_0_r.
    assert (Z.land (clear e (Z.lor PTE_ADDR_MASK VMM_COW)) PTE_ADDR_MASK = 0) as ->; [|apply Z.lor_0_r].
    apply Z.bits_inj'. intros i Hi. rewrite Z.land_spec, mask_testbit, Z.bits_0 by done.
    destruct (Z.leb_spec 12 i), (Z.ltb_spec i 52); rewrite ?andb_false_r; try done.
    rewrite clear_testbit, Z.lor_spec, mask_testbit by lia.
    destruct (Z.leb_spec 12 i), (Z.ltb_spec i 52); lia || by rewrite andb_false_r.
Qed.

(** The frame an entry maps is a frame in use that is no page table. *)
Definition maps_data (s : vmm) (pl : gmap Z place) (e : Z) : Prop :=
  exists f, Z.land e PTE_ADDR_MASK = f * PAGE_SIZE /\ 1 <= f < total_frames (frames (owned s)) /\
    f ∉ abs (frames (owned s)) /\ pl !! (f * PAGE_SIZE + hhdm s) = None.

(** What a resolved fault has done to the page: [e] was its entry in [s], and
    [e'] is its entry in [s']. *)
Definition private_copy (s s' : vmm) (e e' : Z) : Prop :=
  let old := Z.land e PTE_ADDR_MASK in
  let new := Z.land e' PTE_ADDR_MASK in
  has e' VMM_PRESENT = true /\ has e' VMM_WRITABLE = true /\ has e' VMM_COW = false /\
  has e' VMM_USER = has e VMM_USER /\ pmm_get_frame_ref new (owned s') = 1 /\
  (forall off, 0 <= off < PAGE_SIZE -> ram s' (new + hhdm s + off) = ram s (old + hhdm s + off)) /\
  (new = old \/ (pmm_get_frame_ref old (owned s') = pmm_get_frame_ref old (owned s) - 1 /\
     forall off, 0 <= off < PAGE_SIZE -> ram s' (old + hhdm s + off) = ram s (old + hhdm s + off))).

(** No entry of a table lies in a data page. *)
Lemma data_not_slot s pl t p i f off :
  tables s pl -> pl !! t = Some p -> index_ok i -> pl !! (f * PAGE_SIZE + hhdm s) = None -> 0 <= off < PAGE_SIZE ->
  f * PAGE_SIZE + hhdm s + off <> slot_at t i.
Proof.
  intros Ht Hp Hi Hnone Hoff E. destruct (tb_frame _ _ Ht _ _ Hp) as (g&[Hg _]&_).
  rewrite Hg in E. assert (g = f) as -> by (unfold slot_at, index_ok, PAGE_SIZE in *; zlia). congruence.
Qed.

(** A page that has an entry has a page table. *)
Lemma present_descend s root virt :
  root <> 0 -> has (vmm_get_pte s root virt) VMM_PRESENT = true -> descend s root (path_of virt) <> 0.
Proof.
  intros Hr Hp E. rewrite get_pte_entry in Hp by done. unfold entry_at in Hp. by rewrite E in Hp.
Qed.

(** The last owner keeps the frame. *)
Lemma cow_take_over s pl root virt :
  tables s pl -> is_root pl root -> 0 <= virt < 0x10000000000000000 ->
  let e := vmm_get_pte s root virt in let old := Z.land e PTE_ADDR_MASK in
  has e VMM_PRESENT = true -> maps_data s pl e -> pmm_get_frame_ref old (owned s) = 1 ->
  let v := Z.lor old (Z.lor (clear e (Z.lor PTE_ADDR_MASK VMM_COW)) VMM_WRITABLE) in
  let s' := set_entry s (descend s root (path_of virt)) (pt_index virt) v in
  tables s' pl /\ stay_used s s' /\ private_copy s s' e (vmm_get_pte s' root virt) /\
  (forall root' virt', is_root pl root' -> ~ same_slot root virt root' virt' ->
     vmm_get_pte s' root' virt' = vmm_get_pte s root' virt').
Proof.
  intros Ht Hr Hv e old Hp (f&Hold&Hf&Hu&Hnone) Href v s'.
  destruct (table_addr _ _ _ _ Ht Hr) as [Hr0 _].
  pose proof (present_descend s root virt ltac:(lia) Hp) as Hpt.
  destruct (set_page_entry s pl root virt v Ht Hr Hpt) as (A&B&C). fold s' in A, B, C.
  destruct (cow_entry_bits e old Hp) as (B1&B2&B3&B4&B5); fold old in Hold.
  { rewrite Hold. unfold PAGE_SIZE. lia. }
  { rewrite Hold. unfold PAGE_SIZE. zlia. }
  { unfold old. rewrite <- Z.land_assoc. f_equal. }
  split_and!; [done|done| |done]. rewrite B. unfold private_copy. cbn zeta. fold old. fold v in B1, B2, B3, B4, B5. rewrite B5.
  split_and!; try done; [|by left]. intros off Hoff. change (ram s') with (write_word (ram s) (slot_at (descend s root (path_of virt)) (pt_index virt)) v). unfold write_word.
  destruct (descend_place s pl Ht (path_of virt) root (root, []) Hr ltac:(simpl; lia) (path_of_ok virt) Hpt) as (o&Hplace&_).
  pose proof (data_not_slot s pl _ _ (pt_index virt) f off Ht Hplace (index_range virt 12) Hnone Hoff) as Hne.
  rewrite <- Hold in Hne. apply Z.eqb_neq in Hne as ->. done.
Qed.

(** Owners of frames as one is allocated. *)
Lemma alloc_owners s pl :
  tables s pl ->
  let '(frame, s1) := vmm_alloc_frame s in
  frame <> 0 -> exists f, frame = f * PAGE_SIZE /\ 1 <= f < total_frames (frames (owned s)) /\
    f ∈ abs (frames (owned s)) /\ owners (owned s1) f = 1 /\ (forall g, g <> f -> owners (owned s1) g = owners (owned s) g).
Proof.
  intros Ht. unfold vmm_alloc_frame. pose proof (alloc_frame_spec (owned s) (tb_cow _ _ Ht)) as HA.
  destruct (alloc_frame (owned s)) as [frame c]. destruct HA as (A1&A2&A3&[(->&_)|(f&->&Hf&Hin&Habs)]); [done|]. intros _.
  exists f. split_and!; try done; [lia|lia|..]; simpl.
  - unfold owners, extra. rewrite A3, Habs. fold (extra (owned s) f). rewrite bool_decide_false by set_solver.
    rewrite (co_free _ (tb_cow _ _ Ht) f Hin). done.
  - intros g Hg. unfold owners, extra. rewrite A3, Habs. rewrite (bool_decide_ext _ (g ∈ abs (frames (owned s)))) by set_solver. done.
Qed.

Lemma frame_ref_owners s pl f :
  tables s pl -> 1 <= f < total_frames (frames (owned s)) -> f ∉ abs (frames (owned s)) ->
  pmm_get_frame_ref (f * PAGE_SIZE) (owned s) = owners (owned s) f.
Proof. intros Ht Hf Hu. apply get_frame_ref_owners; [apply Ht|lia|done]. Qed.

(** The reference to the old frame is given up last. *)
Lemma cow_release s s3 pl root virt e v f g :
  tables s pl -> tables s3 pl -> is_root pl root -> hhdm s3 = hhdm s ->
  total_frames (frames (owned s3)) = total_frames (frames (owned s)) ->
  Z.land e PTE_ADDR_MASK = f * PAGE_SIZE -> Z.land v PTE_ADDR_MASK = g * PAGE_SIZE ->
  1 <= f < total_frames (frames (owned s)) -> 1 <= g < total_frames (frames (owned s)) -> f <> g ->
  f ∉ abs (frames (owned s)) -> f ∉ abs (frames (owned s3)) -> pl !! (f * PAGE_SIZE + hhdm s3) = None ->
  owners (owned s3) f = owners (owned s) f -> owners (owned s) f <> 1 -> owners (owned s3) g = 1 ->
  has v VMM_PRESENT = true -> has v VMM_WRITABLE = true -> has v VMM_COW = false -> has v VMM_USER = has e VMM_USER ->
  vmm_get_pte s3 root virt = v ->
  (forall off, 0 <= off < PAGE_SIZE -> ram s3 (g * PAGE_SIZE + hhdm s + off) = ram s (f * PAGE_SIZE + hhdm s + off)) ->
  (forall off, 0 <= off < PAGE_SIZE -> ram s3 (f * PAGE_SIZE + hhdm s + off) = ram s (f * PAGE_SIZE + hhdm s + off)) ->
  (forall root' virt', is_root pl root' -> ~ same_slot root virt root' virt' ->
     vmm_get_pte s3 root' virt' = vmm_get_pte s root' virt') ->
  (forall k, 0 <= k -> k ∉ abs (frames (owned s)) -> k ∉ abs (frames (owned s3))) ->
  let s' := vmm_unref_frame (f * PAGE_SIZE) s3 in
  tables s' pl /\ stay_used s s' /\ private_copy s s' e (vmm_get_pte s' root virt) /\
  (forall root' virt', is_root pl root' -> ~ same_slot root virt root' virt' ->
     vmm_get_pte s' root' virt' = vmm_get_pte s root' virt').
Proof.
  intros Ht T3 Hr Hh Htot He Hv Hf Hg Hfg Hu Hu3 Hnone HoF HoN HoG P1 P2 P3 P4 Hpte Hnew Hold Hoth Hst s'.
  destruct (table_addr _ _ _ _ Ht Hr) as [Hr0 _].
  assert (tables s' pl) as T4 by (apply unref_tables; [done|lia|done|done]).
  destruct (unref_frame_spec (owned s3) f (tb_cow _ _ T3)) as (A1&A2&A3&A4); [lia|done|].
  assert (hhdm s' = hhdm s3) as Hh' by apply unref_hhdm.
  assert (forall r x, is_root pl r -> vmm_get_pte s' r x = vmm_get_pte s3 r x) as Hsame.
  { intros r x Hrr. apply pte_ext; [|done|done]. destruct (table_addr _ _ _ _ Ht Hrr). lia. }
  assert (1 <= owners (owned s) f) as Ho1.
  { unfold owners. rewrite bool_decide_false by done. pose proof (co_range _ (tb_cow _ _ Ht) f ltac:(lia)). lia. }
  assert (forall k, 1 <= k < total_frames (frames (owned s)) -> 1 <= owners (owned s') k ->
    pmm_get_frame_ref (k * PAGE_SIZE) (owned s') = owners (owned s') k) as Href.
  { intros k Hk Hok. apply (frame_ref_owners s' pl); [done| |by apply owners_used]. change (owned s') with (pmm_unref_frame (f * PAGE_SIZE) (owned s3)). lia. }
  change (owned s') with (pmm_unref_frame (f * PAGE_SIZE) (owned s3)) in Href.
  split_and!; [done| | |intros; rewrite Hsame by done; by apply Hoth].
  { split_and!; [change (owned s') with (pmm_unref_frame (f * PAGE_SIZE) (owned s3)); lia|by rewrite Hh'|]. intros k Hk Hku.
    destruct (decide (k = f)) as [->|Hkf]; apply owners_used; [change (owned s') with (pmm_unref_frame (f * PAGE_SIZE) (owned s3)); lia|].
    change (owned s') with (pmm_unref_frame (f * PAGE_SIZE) (owned s3)). rewrite A4 by done. specialize (Hst k Hk Hku).
    unfold owners. rewrite bool_decide_false by done. pose proof (co_range _ (tb_cow _ _ T3) k Hk). lia. }
  rewrite Hsame, Hpte by done. unfold private_copy. cbn zeta. rewrite He, Hv.
  change (owned s') with (pmm_unref_frame (f * PAGE_SIZE) (owned s3)). change (ram s') with (ram s3).
  split_and!; try done.
  - rewrite Href by (done || rewrite A4 by lia; lia). rewrite A4 by lia. done.
  - right. split; [|done]. rewrite Href by (done || lia). rewrite (frame_ref_owners s pl) by done. lia.
Qed.

(** With other owners left, the writer gets a copy. *)
Lemma cow_copy s pl root virt copy s1 :
  tables s pl -> is_root pl root -> 0 <= virt < 0x10000000000000000 ->
  let e := vmm_get_pte s root virt in let old := Z.land e PTE_ADDR_MASK in
  has e VMM_PRESENT = true -> maps_data s pl e -> pmm_get_frame_ref old (owned s) <> 1 ->
  vmm_alloc_frame s = (copy, s1) -> copy <> 0 ->
  let v := Z.lor copy (Z.lor (clear e (Z.lor PTE_ADDR_MASK VMM_COW)) VMM_WRITABLE) in
  let s2 := set_ram s1 (copy_page (ram s1) (u64 (copy + hhdm s1)) (u64 (old + hhdm s1))) in
  let s' := vmm_unref_frame old (set_entry s2 (descend s root (path_of virt)) (pt_index virt) v) in
  tables s' pl /\ stay_used s s' /\ private_copy s s' e (vmm_get_pte s' root virt) /\
  (forall root' virt', is_root pl root' -> ~ same_slot root virt root' virt' ->
     vmm_get_pte s' root' virt' = vmm_get_pte s root' virt').
Proof.
  intros Ht Hr Hv e old Hp (f&Hold&Hf&Hu&Hnone) Href Hal Hne. cbn zeta.
  destruct (table_addr _ _ _ _ Ht Hr) as [Hr0 _]. fold old in Hold.
  pose proof (alloc_tables s pl Ht) as HA. rewrite Hal in HA. destruct HA as (T1&(Hh&_&Htot&_)&_&Hram&[|(g&Hg&[_ Hgr]&_&Hgu&Hgn)]); [done|].
  pose proof (alloc_owners s pl Ht) as HO. rewrite Hal in HO. destruct (HO Hne) as (g'&Hg'&_&Hgin&Ho1&Ho2).
  assert (g' = g) as -> by (unfold PAGE_SIZE in *; lia). clear Hg' HO.
  pose proof (tb_hhdm _ _ Ht) as (Hhm&Hh0&Hhi). assert (f <> g) as Hfg by (intros ->; done).
  assert (forall k, 1 <= k < total_frames (frames (owned s)) -> u64 (k * PAGE_SIZE + hhdm s) = k * PAGE_SIZE + hhdm s) as Hsm.
  { intros k Hk. apply u64_small. unfold PAGE_SIZE in *. lia. }
  rewrite Hh, Hold, Hg, !Hsm by done. assert (Z.land e PTE_ADDR_MASK = f * PAGE_SIZE) as He by exact Hold.
  clearbody old. subst old copy.
  set (v := Z.lor (g * PAGE_SIZE) _). set (tn := g * PAGE_SIZE + hhdm s) in *. set (to := f * PAGE_SIZE + hhdm s) in *.
  set (s2 := set_ram s1 _). set (pt := descend s root (path_of virt)). set (s3 := set_entry s2 pt (pt_index virt) v).
  assert (tn mod PAGE_SIZE = 0 /\ to mod PAGE_SIZE = 0) as [Hn0 Hto0] by (unfold tn, to, PAGE_SIZE in *; split; zlia).
  assert (forall x, ~ (tn <= x < tn + PAGE_SIZE) -> ram s2 x = ram s x) as Hout.
  { intros x Hx. simpl. unfold copy_page. rewrite Hram. destruct (Z.leb_spec tn x), (Z.ltb_spec x (tn + PAGE_SIZE)); done || lia. }
  destruct (data_tables s1 pl tn (ram s2) T1 Hn0 Hgn) as (T2&V2&D2).
  { intros x Hx. rewrite Hout by done. by rewrite Hram. }
  change (set_ram s1 (ram s2)) with s2 in T2, V2, D2.
  pose proof (present_descend s root virt ltac:(lia) Hp) as Hpt. fold pt in Hpt.
  assert (descend s2 root (path_of virt) = pt) as Hd by (rewrite D2 by done; by apply descend_ext).
  destruct (set_page_entry s2 pl root virt v T2 Hr) as (T3&B3&C3); [by rewrite Hd|]. rewrite Hd in T3, B3, C3. fold s3 in T3, B3, C3.
  assert (owners (owned s3) f = owners (owned s) f) as HoF by (apply Ho2; done).
  assert (1 <= owners (owned s) f /\ owners (owned s) f <> 1) as [HoP HoN].
  { rewrite (frame_ref_owners s pl) in Href by done. split; [|done]. unfold owners. rewrite bool_decide_false by done.
    pose proof (co_range _ (tb_cow _ _ Ht) f ltac:(lia)). lia. }
  assert (f ∉ abs (frames (owned s3))) as Hu3 by (apply owners_used; lia).
  assert (total_frames (frames (owned s3)) = total_frames (frames (owned s))) as Ht3 by exact Htot.
  assert (hhdm s3 = hhdm s) as Hh3 by exact Hh. assert (owners (owned s3) g = 1) as Ho3 by exact Ho1.
  assert (forall k off, pl !! (k * PAGE_SIZE + hhdm s) = None -> 0 <= off < PAGE_SIZE ->
    ram s3 (k * PAGE_SIZE + hhdm s + off) = ram s2 (k * PAGE_SIZE + hhdm s + off)) as Hkeep.
  { intros k off Hk Hoff. destruct (descend_place s2 pl T2 (path_of virt) root (root, []) Hr ltac:(simpl; lia) (path_of_ok virt)) as (o&Hplace&_); [by rewrite Hd|].
    rewrite Hd in Hplace. assert (hhdm s2 = hhdm s) as Hh2 by exact Hh. rewrite <- Hh2 in Hk |- *.
    pose proof (data_not_slot s2 pl pt _ (pt_index virt) k off T2 Hplace (index_range virt 12) Hk Hoff) as Hns.
    unfold s3. simpl. unfold write_word. apply Z.eqb_neq in Hns as ->. done. }
  destruct (cow_entry_bits e (g * PAGE_SIZE) Hp) as (B1&B2&B4&B5&B6);
    [unfold PAGE_SIZE; lia|by apply Z.mod_mul|apply frame_masked; pose proof (tb_phys _ _ Ht); lia|].
  fold v in B1, B2, B4, B5, B6.
  apply (cow_release s s3 pl root virt e v f g); try done.
  - by rewrite Hh3.
  - intros off Hoff. fold tn. unfold tn at 1. rewrite Hkeep by done. fold tn. fold to.
    simpl. unfold copy_page. rewrite Hram. destruct (Z.leb_spec tn (tn + off)), (Z.ltb_spec (tn + off) (tn + PAGE_SIZE)); try lia.
    simpl. f_equal. lia.
  - intros off Hoff. rewrite Hkeep by done. apply Hout. clear - Hfg Hoff. unfold tn, PAGE_SIZE in *. lia.
  - intros root' virt' Hr' Hns. rewrite C3 by done. rewrite (same_view_pte s1 s2 pl root' virt') by done.
    apply pte_ext; [|done|done]. destruct (table_addr _ _ _ _ Ht Hr'). lia.
  - intros k Hk Hku. apply owners_used. change (owned s3) with (owned s1).
    destruct (decide (k = g)) as [->|]; [lia|]. rewrite Ho2 by done. unfold owners. rewrite bool_decide_false by done.
    pose proof (co_range _ (tb_cow _ _ Ht) k Hk). lia.
Qed.

Lemma walk_pte_slot s root virt :
  walk_to_pte s root virt = let pt := descend s root (path_of virt) in if pt =? 0 then 0 else slot_at pt (pt_index virt).
Proof. unfold walk_to_pte. by rewrite walk_look. Qed.

(** All of [vmm_handle_cow_fault]. *)
Lemma cow_fault_spec s pl root virt :
  tables s pl -> is_root pl root -> 0 <= virt < 0x10000000000000000 ->
  let e := vmm_get_pte s root virt in
  (has e VMM_PRESENT = true -> has e VMM_COW = true -> maps_data s pl e) ->
  let '(ok, s') := vmm_handle_cow_fault s root virt in
  tables s' pl /\ stay_used s s' /\
  (if ok then virt < USER_SPACE_END /\ private_copy s s' e (vmm_get_pte s' root virt)
   else forall root' virt', is_root pl root' -> vmm_get_pte s' root' virt' = vmm_get_pte s root' virt') /\
  (forall root' virt', is_root pl root' -> ~ same_slot root virt root' virt' ->
     vmm_get_pte s' root' virt' = vmm_get_pte s root' virt').
Proof.
  intros Ht Hr Hv e Hdata. destruct (table_addr _ _ _ _ Ht Hr) as [Hr0 _]. unfold vmm_handle_cow_fault.
  destruct (Z.eqb_spec root 0); [lia|]. cbn [orb].
  assert (stay_used s s) as Hst by done.
  destruct (Z.leb_spec USER_SPACE_END virt); [done|].
  rewrite walk_pte_slot. destruct (page_of_indices virt Hv) as [-> ->]. cbn zeta.
  assert (e = entry_at s root (path_of virt) (pt_index virt)) as He by (apply get_pte_entry; lia).
  unfold entry_at in He. set (pt := descend s root (path_of virt)) in *.
  destruct (Z.eqb_spec pt 0) as [E|Hpt]; [done|].
  destruct (descend_place s pl Ht (path_of virt) root (root, []) Hr ltac:(simpl; lia) (path_of_ok virt) Hpt) as (o&Hplace&_).
  destruct (table_addr _ _ _ _ Ht Hplace) as [Hpt0 _]. fold pt in Hpt0. pose proof (index_range virt 12) as [? _]. fold (pt_index virt) in *.
  destruct (Z.eqb_spec (slot_at pt (pt_index virt)) 0); [unfold slot_at in *; lia|]. cbn [negb andb].
  change (ram s (slot_at pt (pt_index virt))) with (entry s pt (pt_index virt)). rewrite <- He.
  destruct (has e VMM_PRESENT) eqn:Hp; [|done]. destruct (has e VMM_COW) eqn:Hc; [|done]. cbn [andb].
  specialize (Hdata eq_refl eq_refl).
  destruct (Z.eqb_spec (pmm_get_frame_ref (Z.land e PTE_ADDR_MASK) (owned s)) 1) as [H1|H1].
  - destruct (cow_take_over s pl root virt Ht Hr Hv Hp Hdata H1) as (A&B&C&D). done.
  - destruct (vmm_alloc_frame s) as [copy s1] eqn:Hal. destruct (Z.eqb_spec copy 0) as [->|Hne].
    + pose proof (alloc_tables s pl Ht) as HA. rewrite Hal in HA. destruct HA as (A1&(A2&_&A3&_)&_&A4&_).
      assert (forall r x, is_root pl r -> vmm_get_pte s1 r x = vmm_get_pte s r x) as Hsame.
      { intros r x Hrr. apply pte_ext; [|done|done]. destruct (table_addr _ _ _ _ Ht Hrr). lia. }
      split_and!; [done| |done|intros; by apply Hsame]. split_and!; [done|done|].
      pose proof (alloc_frame_spec (owned s) (tb_cow _ _ Ht)) as HF. unfold vmm_alloc_frame in Hal.
      destruct (alloc_frame (owned s)) as [fr c]. injection Hal as -> <-. destruct HF as (_&_&_&[(_&HF&_)|(g&Hg&?&_)]); [|unfold PAGE_SIZE in *; lia].
      simpl. by rewrite HF.
    + destruct (Z.eqb_spec (Z.land e PTE_ADDR_MASK) 0) as [E0|_].
      { destruct Hdata as (f&Hf&?&_). unfold PAGE_SIZE in *. lia. }
      destruct (cow_copy s pl root virt copy s1 Ht Hr Hv Hp Hdata H1 Hal Hne) as (A&B&C&D). done.
Qed.

(** The fault of a marked page fails only when no frame is free. *)
Lemma cow_fault_fails s pl root virt s' :
  tables s pl -> is_root pl root -> 0 <= virt < USER_SPACE_END ->
  has (vmm_get_pte s root virt) VMM_PRESENT = true -> has (vmm_get_pte s root virt) VMM_COW = true ->
  vmm_handle_cow_fault s root virt = (false, s') -> abs (frames (owned s')) = ∅.
Proof.
  intros Ht Hr Hv. destruct (table_addr _ _ _ _ Ht Hr) as [Hr0 _]. unfold vmm_handle_cow_fault, USER_SPACE_END in *.
  destruct (Z.eqb_spec root 0); [lia|]. destruct (Z.leb_spec 0x800000000000 virt); [lia|]. cbn [orb].
  rewrite walk_pte_slot, get_pte_entry by lia. destruct (page_of_indices virt ltac:(lia)) as [-> ->]. unfold entry_at. cbn zeta.
  destruct (Z.eqb_spec (descend s root (path_of virt)) 0) as [E|Hpt]; [done|].
  destruct (descend_place s pl Ht (path_of virt) root (root, []) Hr ltac:(simpl; lia) (path_of_ok virt) Hpt) as (o&Hplace&_).
  destruct (table_addr _ _ _ _ Ht Hplace) as [Hpt0 _]. pose proof (index_range virt 12) as [? _]. fold (pt_index virt) in *.
  set (pt := descend s root (path_of virt)) in *. destruct (Z.eqb_spec (slot_at pt (pt_index virt)) 0); [unfold slot_at in *; lia|]. cbn [negb andb].
  change (ram s (slot_at pt (pt_index virt))) with (entry s pt (pt_index virt)). intros -> ->. cbn [andb].
  destruct (_ =? 1); [done|]. unfold vmm_alloc_frame. pose proof (alloc_frame_spec (owned s) (tb_cow _ _ Ht)) as HF.
  destruct (alloc_frame (owned s)) as [fr c]. destruct (fr =? 0) eqn:E; intros [= <-]. cbn [owned set_owned].
  destruct HF as (_&_&_&[(_&HF&HE)|(g&Hg&?&_)]); [by rewrite HF|]. apply Z.eqb_eq in E. unfold PAGE_SIZE in *. lia.
Qed.

(** * Buffers of system calls *)

Lemma has_lor e a b : has e (Z.lor a b) = has e a || has e b.
Proof.
  unfold has. rewrite Z.land_lor_distr_r. destruct (Z.eqb_spec (Z.lor (Z.land e a) (Z.land e b)) 0) as [E|E].
  - apply Z.lor_eq_0_iff in E as [-> ->]. done.
  - destruct (Z.eqb_spec (Z.land e a) 0) as [E1|], (Z.eqb_spec (Z.land e b) 0) as [E2|]; try done. by rewrite E1, E2 in E.
Qed.

(** The page of [x] may be used: read, and written if [write]. *)
Definition granted (s : vmm) (root : Z) (write : bool) (x : Z) : Prop :=
  let e := vmm_get_pte s root x in
  has e VMM_PRESENT = true /\ has e VMM_USER = true /\
  (write = true -> has e VMM_WRITABLE = true /\ has e VMM_COW = false).

Lemma has_lor_l a b flag : has (Z.lor a b) flag = has a flag || has b flag.
Proof. unfold has. rewrite !(Z.land_comm _ flag). apply (has_lor flag). Qed.

(** Why a byte may not be used: its page is not there, is no user page, or is to be written
    and is neither writable nor marked copy-on-write; or it is marked and there is no
    memory for a copy of it. *)
Definition refused (s s' : vmm) (root : Z) (write : bool) (x : Z) : Prop :=
  let e := vmm_get_pte s root x in
  has e VMM_PRESENT = false \/ has e VMM_USER = false \/
  (write = true /\ ((has e VMM_WRITABLE = false /\ has e VMM_COW = false) \/ (has e VMM_COW = true /\ abs (frames (owned s')) = ∅))).

(** Copy-on-write pages of the space map data. *)
Definition cow_data (s : vmm) (pl : gmap Z place) (root : Z) : Prop :=
  forall x, 0 <= x < USER_SPACE_END ->
    let e := vmm_get_pte s root x in has e VMM_PRESENT = true -> has e VMM_COW = true -> maps_data s pl e.

Lemma user_not_same root x y :
  0 <= x < USER_SPACE_END -> 0 <= y < USER_SPACE_END -> page_of x <> page_of y -> ~ same_slot root x root y.
Proof. intros Hx Hy Hne (H1&H2&_). by apply Hne, user_indices. Qed.

Lemma same_page_pte s root x y :
  root <> 0 -> 0 <= x < USER_SPACE_END -> 0 <= y < USER_SPACE_END -> page_of x = page_of y ->
  vmm_get_pte s root x = vmm_get_pte s root y.
Proof.
  unfold USER_SPACE_END. intros Hr Hx Hy E. rewrite <- (get_pte_page s root x), <- (get_pte_page s root y) by (done || lia). by rewrite E.
Qed.

(** One page: what was granted before stays granted, and so is this page. *)
Lemma range_page s pl root write start page :
  tables s pl -> is_root pl root -> 0 <= start <= page -> page < USER_SPACE_END -> page mod 4096 = 0 ->
  cow_data s pl root -> (forall x, start <= x < page -> granted s root write x) ->
  forall last, page < last ->
  match range_step root last write (page, s) with
  | inl (page', s') => page' = page + 4096 /\ tables s' pl /\ stay_used s s' /\ cow_data s' pl root /\
      (forall x, start <= x < page' -> x < USER_SPACE_END -> granted s' root write x) /\
      (forall x, page' <= x < USER_SPACE_END -> vmm_get_pte s' root x = vmm_get_pte s root x)
  | inr (ok, s') => ok = false /\ tables s' pl /\ stay_used s s' /\ refused s s' root write page
  end.
Proof.
  intros Ht Hr Hstart Hpage Hal Hcd Hgr last Hlast. destruct (table_addr _ _ _ _ Ht Hr) as [Hr0 _].
  unfold range_step, refused. destruct (Z.ltb_spec page last); [|lia]. cbn [negb].
  set (e := vmm_get_pte s root page). destruct (has e VMM_PRESENT) eqn:Hp; [|split_and!; try done; by left]. destruct (has e VMM_USER) eqn:Hu; [|split_and!; try done; right; by left]. cbn [negb orb].
  assert (page_of page = page) as Hpp by (rewrite page_of_eq by (unfold USER_SPACE_END in *; lia); lia).
  assert (forall x, page <= x < page + 4096 -> page_of x = page) as Hin.
  { intros x Hx. rewrite page_of_eq by (unfold USER_SPACE_END in *; lia). zlia. }
  assert (u64 (page + PAGE_SIZE) = page + 4096) as Hnext by (apply u64_small; unfold USER_SPACE_END, PAGE_SIZE in *; lia).
  assert (forall x, 0 <= x < USER_SPACE_END -> x < page \/ page + 4096 <= x -> page_of x <> page) as Hout.
  { intros x Hx Hor. rewrite page_of_eq by (unfold USER_SPACE_END in *; lia). pose proof (Z.mod_pos_bound x 4096). lia. }
  destruct (write && negb (has e (Z.lor VMM_WRITABLE VMM_COW))) eqn:Hw.
  { apply andb_true_iff in Hw as [-> Hw]. apply negb_true_iff in Hw. rewrite has_lor, orb_false_iff in Hw. split_and!; try done. right. right. split; [done|by left]. }
  destruct (write && has e VMM_COW) eqn:Hwc.
  - apply andb_true_iff in Hwc as [-> Hc].
    pose proof (cow_fault_spec s pl root page Ht Hr ltac:(unfold USER_SPACE_END in *; lia) (Hcd page ltac:(lia))) as HF.
    destruct (vmm_handle_cow_fault s root page) as [[|] s'] eqn:EF.
    2:{ destruct HF as (?&?&_). cbn [negb]. split_and!; try done. right. right. split; [done|]. right. split; [done|]. apply (cow_fault_fails s pl root page s' Ht Hr); done || lia. }
    destruct HF as (T'&St'&[_ (P1&P2&P3&P4&_)]&Hoth). cbn [negb]. split_and!; try done.
    + intros x Hx. cbn zeta. destruct (decide (page_of x = page)) as [E|E].
      * rewrite (same_page_pte s' root x page) by (done || lia || congruence). congruence.
      * rewrite Hoth by (done || apply user_not_same; done || lia || congruence). intros Hp' Hc'.
        destruct (Hcd x Hx Hp' Hc') as (f&F1&F2&F3&F4). destruct St' as (S1&S2&S3). exists f.
        rewrite S1, S2. split_and!; try done; [lia|lia|]. apply S3; [lia|done].
    + intros x Hx HxE. unfold granted. cbn zeta. destruct (decide (page <= x)) as [Hge|Hlt].
      * rewrite (same_page_pte s' root x page) by (done || lia || rewrite Hpp; apply Hin; lia). split_and!; [done|by rewrite P4|done].
      * rewrite Hoth; [apply Hgr; lia|done|]. apply user_not_same; [lia|lia|]. rewrite Hpp. symmetry. apply Hout; lia.
    + intros x Hx. rewrite Hoth; [done|done|]. apply user_not_same; [lia|lia|]. rewrite Hpp. symmetry. apply Hout; lia.
  - cbn [negb]. split_and!; try done. intros x Hx HxE. destruct (decide (page <= x)) as [Hge|Hlt]; [|apply Hgr; lia].
    unfold granted. rewrite (same_page_pte s root x page) by (done || lia || rewrite Hpp; apply Hin; lia). fold e.
    split_and!; try done. intros ->. cbn [andb] in *. split; [|done]. apply negb_false_iff in Hw.
    rewrite has_lor, Hwc, orb_false_r in Hw. done.
Qed.

(** The loop: it finishes; a buffer it accepts may be used throughout, and one that it does
    not accept has a page that may not. *)
Lemma range_loop pl root write start last : forall n page s,
  is_root pl root -> tables s pl -> 0 <= start <= page -> last <= USER_SPACE_END -> page mod 4096 = 0 ->
  last - page <= 4096 * Z.of_nat n - 4096 -> (1 <= n)%nat ->
  cow_data s pl root -> (forall x, start <= x < page -> x < USER_SPACE_END -> granted s root write x) ->
  exists ok s', rounds n (range_step root last write) (page, s) = inr (ok, s') /\ tables s' pl /\ stay_used s s' /\
    (ok = true -> forall x, start <= x < last -> granted s' root write x) /\
    (ok = false -> exists x, page <= x < last /\ x mod 4096 = 0 /\ refused s s' root write x).
Proof.
  induction n as [|n IH]; intros page s Hr Ht Hstart Hend Hal Hn Hn1 Hcd Hgr; cbn [rounds]; [lia|].
  destruct (Z.lt_ge_cases page last) as [Hlt|Hge].
  - pose proof (range_page s pl root write start page Ht Hr Hstart ltac:(lia) Hal Hcd ltac:(intros; apply Hgr; lia) last Hlt) as HP.
    destruct (range_step root last write (page, s)) as [[page' s']|[ok s']].
    + destruct HP as (->&T'&St'&Cd'&Gr'&Ahead). destruct (IH (page + 4096) s' Hr T') as (ok&s''&E&T''&St''&G&B); try done; [lia|zlia|lia|lia|].
      exists ok, s''. split_and!; try done; [by eapply stay_used_trans|]. intros Hok. destruct (B Hok) as (x&Hx&Hm&Hre). exists x. split; [lia|]. split; [done|].
      unfold refused in *. by rewrite Ahead in Hre by lia.
    + destruct HP as (->&T'&St'&Hre). exists false, s'. split_and!; try done. intros _. exists page. split; [lia|done].
  - unfold range_step. destruct (Z.ltb_spec page last); [lia|]. cbn [negb]. exists true, s. split_and!; try done.
    intros _ x Hx. apply Hgr; lia.
Qed.

(** * Properties *)

(** C24. [vmm_map_page] maps exactly one page. If it succeeds, the page's entry
    is the frame with the flags asked for (so [vmm_get_phys] returns the frame);
    whether or not it succeeds, the entry of every other page in every address
    space is as before, and so is the tables' structure. Frames in use stay in
    use, and only frames that were free have become tables. *)
Theorem vmm_map_page_correct (s : vmm) (pl : gmap Z place) (root virt phys flags : Z) :
  tables s pl -> is_root pl root ->
  let '(ok, s') := vmm_map_page s root virt phys flags in
  exists pl', tables s' pl' /\ pl ⊆ pl' /\ stay_used s s' /\ fresh_only s pl pl' /\
    (ok = true ->
       vmm_get_pte s' root virt = Z.lor (Z.lor (Z.land phys PTE_ADDR_MASK) flags) VMM_PRESENT /\
       (Z.land flags PTE_ADDR_MASK = 0 -> vmm_get_phys s' root virt = Z.land phys PTE_ADDR_MASK)) /\
    (forall root' virt', is_root pl root' -> ok = false \/ ~ same_slot root virt root' virt' ->
       vmm_get_pte s' root' virt' = vmm_get_pte s root' virt').
Proof.
  intros Ht Hr. pose proof (map_page_spec s pl root virt phys flags Ht Hr) as HM. destruct (table_addr _ _ _ _ Ht Hr) as [Hr0 _].
  destruct (vmm_map_page s root virt phys flags) as [ok s']. destruct HM as (pl'&A&B&_&C&D&E&F).
  exists pl'. split_and!; try done. intros Hok. specialize (E Hok). split; [done|]. intros Hfl.
  rewrite get_phys_entry by lia. cbn zeta. rewrite E, !has_lor_l, !Z.land_lor_distr_l, Hfl.
  change (has VMM_PRESENT VMM_PRESENT) with true. rewrite orb_true_r, <- Z.land_assoc, Z.land_diag.
  change (Z.land VMM_PRESENT PTE_ADDR_MASK) with 0. by rewrite !Z.lor_0_r.
Qed.

(** C9. A copy-on-write fault that is resolved leaves the writer a page of its
    own: writable, no longer marked, with the contents it had, in a frame with
    one owner. If others shared the old frame it keeps its contents and loses
    one owner; no entry of any other page changes. A fault that is not resolved
    (no user address, not a marked page, no memory) changes no entry at all. *)
Theorem cow_fault_private (s : vmm) (pl : gmap Z place) (root virt : Z) :
  tables s pl -> is_root pl root -> 0 <= virt < 0x10000000000000000 ->
  let e := vmm_get_pte s root virt in
  (has e VMM_PRESENT = true -> has e VMM_COW = true -> maps_data s pl e) ->
  let '(ok, s') := vmm_handle_cow_fault s root virt in
  tables s' pl /\ stay_used s s' /\
  (if ok then virt < USER_SPACE_END /\ private_copy s s' e (vmm_get_pte s' root virt)
   else forall root' virt', is_root pl root' -> vmm_get_pte s' root' virt' = vmm_get_pte s root' virt') /\
  (forall root' virt', is_root pl root' -> ~ same_slot root virt root' virt' ->
     vmm_get_pte s' root' virt' = vmm_get_pte s root' virt').
Proof. apply cow_fault_spec. Qed.

(** C25. [vmm_user_range_ok] accepts a buffer exactly when it may be used. If it accepts
    one that is not empty, the buffer ends below [USER_SPACE_END] without wrapping
    round, and every page of it is present and a user page, and if it is to be
    written, writable and not shared with anyone through copy-on-write any more. It
    refuses one only if it goes beyond [USER_SPACE_END] or has a byte whose page, as
    the page table was before, is absent, is no user page or cannot be written, or had
    to be copied when no frame was free. *)
Theorem vmm_user_range_ok_sound (s : vmm) (pl : gmap Z place) (root addr len : Z) (write : bool) :
  tables s pl -> is_root pl root -> cow_data s pl root ->
  0 <= addr < 0x10000000000000000 -> 0 <= len < 0x10000000000000000 ->
  let '(ok, s') := vmm_user_range_ok s root addr len write in
  tables s' pl /\ stay_used s s' /\
  (ok = true -> len = 0 \/ (addr + len <= USER_SPACE_END /\
     forall x, addr <= x < addr + len -> granted s' root write x)) /\
  (ok = false -> len <> 0 /\ (USER_SPACE_END < addr + len \/ exists x, addr <= x < addr + len /\ refused s s' root write x)).
Proof.
  intros Ht Hr Hcd Ha Hl. destruct (table_addr _ _ _ _ Ht Hr) as [Hr0 _]. unfold vmm_user_range_ok.
  destruct (Z.eqb_spec root 0); [lia|]. assert (stay_used s s) as Hst by done.
  destruct (Z.eqb_spec len 0); [split_and!; try done; by left|].
  set (last := u64 (addr + len)). assert (last = addr + len \/ last < addr /\ USER_SPACE_END < addr + len) as Hlast.
  { unfold last, u64, USER_SPACE_END in *. zlia. }
  destruct (Z.ltb_spec last addr) as [|Hge]; [cbn [orb]; split_and!; try done; intros _; split; [done|left; lia]|].
  destruct Hlast as [Hlast|]; [|lia].
  destruct (Z.ltb_spec USER_SPACE_END last) as [|Hle]; [cbn [orb]; split_and!; try done; intros _; split; [done|left; lia]|]. cbn [orb].
  rewrite loop_rounds. pose proof (page_of_eq addr Ha) as Hpo. pose proof (Z.mod_pos_bound addr 4096). pose proof (Z.mod_le addr 4096).
  destruct (range_loop pl root write (page_of addr) last (Pos.to_nat (Z.to_pos (len / PAGE_SIZE + 3))) (page_of addr) s)
    as (ok&s'&->&T'&St'&G&B); try done.
  - lia.
  - rewrite Hpo. zlia.
  - rewrite positive_nat_Z, Z2Pos.id by (unfold PAGE_SIZE; zlia). unfold PAGE_SIZE. zlia.
  - lia.
  - intros x Hx. lia.
  - split_and!; try done; [intros Hok; right; split; [lia|]; intros x Hx; apply G; [done|lia]|].
    intros Hok. split; [done|]. right. destruct (B Hok) as (x&Hx&Hm&Hre). exists (Z.max x addr). split; [lia|]. unfold refused in *.
    by rewrite (same_page_pte s root _ x) by (unfold USER_SPACE_END in *; rewrite ?page_of_eq by lia; zlia).
Qed.

(** * Witnesses *)

(** The small machine with the sharing table set up and one frame taken as the
    top table of an address space; all memory is zero. *)
Definition small_root : Z := fst (alloc_frame small_cow) + 0xFFFF800000000000.
Definition small_vmm : vmm := mkVmm (snd (alloc_frame small_cow)) slots_static (fun _ => 0) small_root DEVICE_REGION_BASE.
Definition small_places : gmap Z place := {[ small_root := (small_root, []) ]}.

Lemma small_alloc : alloc_frame small_cow = (2 * PAGE_SIZE, snd (alloc_frame small_cow)).
Proof. vm_compute. reflexivity. Qed.

Lemma small_tables : tables small_vmm small_places.
Proof.
  pose proof (alloc_frame_spec small_cow small_cow_ok) as HA. rewrite small_alloc in HA.
  destruct HA as (A1&_&_&[(A&_)|(f&Hf&_&_&Habs)]); [discriminate A|].
  assert (f = 2) as -> by (unfold PAGE_SIZE in Hf; lia). clear Hf. apply (one_table small_vmm 2).
  - vm_compute. intuition congruence.
  - unfold small_vmm. cbn [owned]. rewrite Habs. apply not_elem_of_difference. right. by apply elem_of_singleton.
  - intros i. reflexivity.
  - vm_compute. intuition congruence.
  - vm_compute. intuition congruence.
  - exact A1.
Qed.

Lemma small_is_root : is_root small_places small_root.
Proof. apply lookup_singleton_eq. Qed.

Lemma vmm_map_page_correct_witness :
  exists pl', tables (snd (vmm_map_page small_vmm small_root 0x400000 0x5000 6)) pl' /\
    vmm_get_phys (snd (vmm_map_page small_vmm small_root 0x400000 0x5000 6)) small_root 0x400000 = 0x5000.
Proof.
  pose proof (vmm_map_page_correct small_vmm small_places small_root 0x400000 0x5000 6 small_tables small_is_root) as H.
  assert (fst (vmm_map_page small_vmm small_root 0x400000 0x5000 6) = true) as E by (vm_compute; reflexivity).
  destruct (vmm_map_page small_vmm small_root 0x400000 0x5000 6) as [ok s']. simpl in E. subst ok.
  destruct H as (pl'&A&_&_&_&B&_). exists pl'. split; [exact A|]. apply (B eq_refl). reflexivity.
Defined.

(** The same machine after frame 1 is mapped at 4 MiB as a copy-on-write page. *)
Definition shared_flags : Z := Z.lor VMM_USER VMM_COW.
Definition shared_vmm : vmm := snd (vmm_map_page small_vmm small_root 0x400000 0x1000 shared_flags).

Lemma small_maps : fst (vmm_map_page small_vmm small_root 0x400000 0x1000 shared_flags) = true.
Proof. vm_compute. reflexivity. Qed.

Lemma small_pte_zero x : vmm_get_pte small_vmm small_root x = 0.
Proof. unfold vmm_get_pte. destruct (_ =? 0); reflexivity. Qed.

Lemma small_frame_one : 1 ∉ abs (frames (owned small_vmm)) /\ small_places !! (1 * PAGE_SIZE + hhdm small_vmm) = None.
Proof. split; vm_compute; intuition congruence. Qed.

Lemma shared_tables : exists pl, tables shared_vmm pl /\ is_root pl small_root /\ cow_data shared_vmm pl small_root.
Proof.
  pose proof (map_page_spec small_vmm small_places small_root 0x400000 0x1000 shared_flags small_tables small_is_root) as H.
  pose proof small_maps as Hok. unfold shared_vmm.
  destruct (vmm_map_page small_vmm small_root 0x400000 0x1000 shared_flags) as [ok s']. cbn [fst] in Hok. cbn [snd]. subst ok.
  destruct H as (pl&T&Hsub&_&(S1&S2&S3)&Hfresh&Hpte&Hoth). specialize (Hpte eq_refl). destruct small_frame_one as [Hu Hn].
  exists pl. split; [exact T|]. split; [eapply lookup_weaken; [apply small_is_root|exact Hsub]|].
  intros x Hx e. unfold e. destruct (decide (page_of x = page_of 0x400000)) as [E|E].
  - rewrite (same_page_pte s' small_root x 0x400000), Hpte by (exact E || exact Hx || (vm_compute; intuition congruence)). intros _ _.
    exists 1. rewrite S1, S2. split; [reflexivity|]. split; [vm_compute; intuition congruence|].
    split; [apply S3; [lia|exact Hu]|apply Hfresh; [lia|exact Hu|exact Hn]].
  - rewrite Hoth; [rewrite small_pte_zero; discriminate|apply small_is_root|right].
    apply user_not_same; [unfold USER_SPACE_END; lia|exact Hx|congruence].
Qed.

Lemma cow_fault_private_witness :
  fst (vmm_handle_cow_fault shared_vmm small_root 0x400123) = true /\
  private_copy shared_vmm (snd (vmm_handle_cow_fault shared_vmm small_root 0x400123))
    (vmm_get_pte shared_vmm small_root 0x400123)
    (vmm_get_pte (snd (vmm_handle_cow_fault shared_vmm small_root 0x400123)) small_root 0x400123).
Proof.
  destruct shared_tables as (pl&T&R&C).
  pose proof (cow_fault_private shared_vmm pl small_root 0x400123 T R ltac:(lia) (C 0x400123 ltac:(unfold USER_SPACE_END; lia))) as H.
  assert (fst (vmm_handle_cow_fault shared_vmm small_root 0x400123) = true) as E by (vm_compute; reflexivity).
  destruct (vmm_handle_cow_fault shared_vmm small_root 0x400123) as [ok s']. cbn [fst snd] in *. subst ok.
  destruct H as (_&_&[_ H]&_). split; [reflexivity|exact H].
Defined.

Lemma vmm_user_range_ok_sound_witness :
  fst (vmm_user_range_ok shared_vmm small_root 0x400123 100 true) = true /\
  granted (snd (vmm_user_range_ok shared_vmm small_root 0x400123 100 true)) small_root true 0x400150.
Proof.
  destruct shared_tables as (pl&T&R&C).
  pose proof (vmm_user_range_ok_sound shared_vmm pl small_root 0x400123 100 true T R C ltac:(lia) ltac:(lia)) as H.
  assert (fst (vmm_user_range_ok shared_vmm small_root 0x400123 100 true) = true) as E by (vm_compute; reflexivity).
  destruct (vmm_user_range_ok shared_vmm small_root 0x400123 100 true) as [ok s']. cbn [fst snd] in *. subst ok.
  destruct H as (_&_&H&_). destruct (H eq_refl) as [Hz|[_ G]]; [discriminate Hz|]. split; [reflexivity|apply G; lia].
Defined.
