(* ===== verification/VmmSwap.v ===== *)
(** Choosing a page to swap out and putting one back: what [vmm_swap_pick] and
    [vmm_swap_install] do to the page tables. *)
From stdpp Require Import base tactics numbers list sets gmap.
From Stdlib Require Import ZArith Lia.
From S2P Require Import Prelude Pmm Cow SwapSlots Vmm VmmInv VmmProps.

Open Scope Z_scope.

(** * Writing the entry of a page *)

(** The upper levels, and memory that holds no table, are as before. *)
Definition upper_same (s s' : vmm) (pl : gmap Z place) : Prop :=
  forall t p i, pl !! t = Some p -> (length (snd p) < 3)%nat -> index_ok i -> entry s' t i = entry s t i.

Definition data_same (s s' : vmm) (pl : gmap Z place) : Prop :=
  forall f off, pl !! (f * PAGE_SIZE + hhdm s) = None -> 0 <= off < PAGE_SIZE ->
    ram s' (f * PAGE_SIZE + hhdm s + off) = ram s (f * PAGE_SIZE + hhdm s + off).

Lemma set_page_leaf s pl root x v :
  tables s pl -> is_root pl root -> let pt := descend s root (path_of x) in pt <> 0 ->
  let s' := set_entry s pt (pt_index x) v in
  tables s' pl /\ vmm_get_pte s' root x = v /\
  (forall root' x', is_root pl root' -> ~ same_slot root x root' x' -> vmm_get_pte s' root' x' = vmm_get_pte s root' x') /\
  upper_same s s' pl /\ data_same s s' pl /\
  (forall root' x', is_root pl root' -> descend s' root' (path_of x') = descend s root' (path_of x')).
Proof.
  intros Ht Hr pt Hpt s'. destruct (set_page_entry s pl root x v Ht Hr Hpt) as (A&B&C).
  destruct (descend_place s pl Ht (path_of x) root (root, []) Hr ltac:(simpl; lia) (path_of_ok x) Hpt) as (o&Hp&_). cbn [snd app] in Hp. fold pt in Hp.
  pose proof (index_range x 12) as Hi. fold (pt_index x) in Hi. split_and!; try done.
  - intros t p i Htp Hlen Hix. destruct (table_addr _ _ _ _ Ht Htp) as [_ Hal]. unfold s'.
    rewrite (entry_set s pl pt (pt_index x) t i v (o, path_of x)) by done.
    destruct (Z.eqb_spec t pt) as [->|]; [|done]. rewrite Hp in Htp. simplify_eq. simpl in Hlen. lia.
  - intros f off Hf Hoff. unfold s'. simpl. unfold write_word.
    pose proof (data_not_slot s pl pt _ (pt_index x) f off Ht Hp Hi Hf Hoff) as Hne. apply Z.eqb_neq in Hne as ->. done.
  - intros root' x' Hr'. apply (set_leaf_descend s pl pt o (path_of x) (pt_index x) v Ht Hp eq_refl Hi (path_of x') root' (root', []) Hr');
      [simpl; lia|apply path_of_ok].
Qed.

(** * Accessed bits *)

Lemma cleared_accessed e : has (clear e VMM_ACCESSED) VMM_ACCESSED = false.
Proof. unfold has, clear. rewrite <- Z.land_assoc. change (Z.land (u64 (Z.lnot VMM_ACCESSED)) VMM_ACCESSED) with 0. by rewrite Z.land_0_r. Qed.

(** The accessed bit may have been cleared; nothing else differs. *)
Definition aged (e e' : Z) : Prop :=
  clear e' VMM_ACCESSED = clear e VMM_ACCESSED /\ (has e' VMM_ACCESSED = true -> has e VMM_ACCESSED = true).

Lemma aged_clear e : aged e (clear e VMM_ACCESSED).
Proof. split; [unfold clear; by rewrite <- Z.land_assoc, Z.land_diag|]. by rewrite cleared_accessed. Qed.

Lemma aged_land e e' m : aged e e' -> Z.land (u64 (Z.lnot VMM_ACCESSED)) m = m -> Z.land e' m = Z.land e m.
Proof. unfold aged, clear. intros [He _] Hm. rewrite <- Hm, !Z.land_assoc. by rewrite He. Qed.

Lemma aged_has e e' flag : aged e e' -> Z.land (u64 (Z.lnot VMM_ACCESSED)) flag = flag -> has e' flag = has e flag.
Proof. intros He Hm. unfold has. by rewrite (aged_land e e' flag). Qed.

(** What a search that clears accessed bits leaves as it was. *)
Record only_aged (pl : gmap Z place) (s s' : vmm) : Prop := {
  oa_tables : tables s' pl;
  oa_rest : owned s' = owned s /\ swap_slots s' = swap_slots s /\ kernel_pml4 s' = kernel_pml4 s;
  oa_upper : upper_same s s' pl;
  oa_data : data_same s s' pl;
  oa_descend : forall root x, is_root pl root -> descend s' root (path_of x) = descend s root (path_of x);
  oa_pte : forall root x, is_root pl root -> aged (vmm_get_pte s root x) (vmm_get_pte s' root x) }.

Lemma only_aged_refl pl s : tables s pl -> only_aged pl s s.
Proof. intros Ht. by split. Qed.

Lemma hhdm_owned s s' : owned s' = owned s -> hhdm s' = hhdm s.
Proof. unfold hhdm. by intros ->. Qed.

Lemma only_aged_trans pl s1 s2 s3 : only_aged pl s1 s2 -> only_aged pl s2 s3 -> only_aged pl s1 s3.
Proof.
  intros [A1 (A2&A3&A4) A5 A6 A7 A8] [B1 (B2&B3&B4) B5 B6 B7 B8]. split; [done|split_and!; congruence|..].
  - intros t p i H1 H2 H3. rewrite (B5 t p i), (A5 t p i) by done. done.
  - intros f off H1 H2. pose proof (hhdm_owned _ _ A2) as Hh. specialize (B6 f off). rewrite Hh in B6. rewrite B6, A6 by done. done.
  - intros root x Hr. by rewrite B7, A7.
  - intros root x Hr. destruct (A8 root x Hr) as [P1 P2], (B8 root x Hr) as [Q1 Q2]. split; [congruence|auto].
Qed.

(** Writing the entry of a user page, seen from everywhere. *)
Lemma pte_set s pl root x v root' x' :
  tables s pl -> is_root pl root -> is_root pl root' -> 0 <= x < USER_SPACE_END -> descend s root (path_of x) <> 0 ->
  let s' := set_entry s (descend s root (path_of x)) (pt_index x) v in
  (root' = root /\ path_of x' = path_of x /\ pt_index x' = pt_index x /\ vmm_get_pte s' root' x' = v) \/
  (~ same_slot root x root' x' /\ vmm_get_pte s' root' x' = vmm_get_pte s root' x').
Proof.
  intros Ht Hr Hr' Hx Hpt. cbn zeta. destruct (set_page_leaf s pl root x v Ht Hr Hpt) as (A&B&C&_).
  destruct (decide (root' = root /\ path_of x' = path_of x /\ pt_index x' = pt_index x)) as [(->&E1&E2)|Hne].
  - left. split_and!; try done. destruct (table_addr _ _ _ _ Ht Hr) as [Hr0 _].
    rewrite get_pte_entry in * by lia. by rewrite E1, E2.
  - right. assert (~ same_slot root x root' x') as Hns.
    { intros (H1&H2&[->|H3]); [apply Hne; split_and!; congruence|]. pose proof (user_index_low x Hx). lia. }
    split; [done|by apply C].
Qed.

Lemma age_page s pl root x : tables s pl -> is_root pl root -> 0 <= x < USER_SPACE_END -> descend s root (path_of x) <> 0 ->
  only_aged pl s (set_entry s (descend s root (path_of x)) (pt_index x) (clear (vmm_get_pte s root x) VMM_ACCESSED)).
Proof.
  intros Ht Hr Hx Hpt. destruct (set_page_leaf s pl root x (clear (vmm_get_pte s root x) VMM_ACCESSED) Ht Hr Hpt) as (A&B&C&D&E&F).
  split; try done. intros root' x' Hr'. destruct (pte_set s pl root x (clear (vmm_get_pte s root x) VMM_ACCESSED) root' x' Ht Hr Hr' Hx Hpt)
    as [(->&E1&E2&->)|[_ ->]]; [|done].
  destruct (table_addr _ _ _ _ Ht Hr) as [Hr0 _]. rewrite !get_pte_entry, E1, E2 by lia. apply aged_clear.
Qed.

(** * The search *)

(** A page that may go. *)
Definition may_go (s : vmm) (root : Z) (keep : list vmm_range_t) (x : Z) : bool :=
  let e := vmm_get_pte s root x in
  has e VMM_PRESENT && has e VMM_USER && negb (has e VMM_SHARED) &&
  (pmm_get_frame_ref (Z.land e PTE_ADDR_MASK) (owned s) =? 1) && negb (page_is_kept x keep).

Lemma may_go_aged pl s s' root keep x : only_aged pl s s' -> is_root pl root -> may_go s' root keep x = may_go s root keep x.
Proof.
  intros K Hr. unfold may_go. pose proof (oa_pte _ _ _ K root x Hr) as Ha. destruct (oa_rest _ _ _ K) as (->&_&_).
  by rewrite !(aged_has _ _ _ Ha), (aged_land _ _ _ Ha) by done.
Qed.

(** The upper levels hold nothing but tables. *)
Record walkable (s : vmm) (pl : gmap Z place) (root : Z) : Prop := {
  wk_top : forall i, index_ok i -> has (entry s root i) VMM_HUGE = false;
  wk_next : forall t p i, pl !! t = Some p -> (length (snd p) < 3)%nat -> index_ok i -> has (entry s t i) VMM_PRESENT = true ->
    u64 (Z.land (entry s t i) PTE_ADDR_MASK + hhdm s) <> 0 }.

Lemma walkable_same s s' pl root : is_root pl root -> upper_same s s' pl -> hhdm s' = hhdm s -> walkable s pl root -> walkable s' pl root.
Proof.
  intros Hr Hu Hh [W1 W2]. split.
  - intros i Hi. rewrite (Hu root (root, []) i Hr) by (done || simpl; lia). by apply W1.
  - intros t p i H1 H2 H3. rewrite (Hu t p i), Hh by done. by apply (W2 t p i).
Qed.

(** Stepping over a stretch of 2^k bytes. *)
Lemma lor_ones v k : 0 <= k -> 0 <= v -> Z.lor v (Z.shiftl 1 k - 1) + 1 = (v / 2 ^ k + 1) * 2 ^ k.
Proof.
  intros Hk Hv. rewrite Z.shiftl_1_l. replace (2 ^ k - 1) with (Z.ones k) by (rewrite Z.ones_equiv; lia).
  pose proof (Z.pow_pos_nonneg 2 k ltac:(lia) Hk). assert (Z.lor v (Z.ones k) = Z.lor (Z.ones k) (v / 2 ^ k * 2 ^ k)) as ->.
  { apply Z.bits_inj'. intros i Hi. rewrite !Z.lor_spec, Z.testbit_ones_nonneg by lia. destruct (Z.ltb_spec i k); [by rewrite orb_true_r|].
    rewrite orb_false_r. cbn [orb]. rewrite Z.mul_pow2_bits, <- Z.shiftr_div_pow2, Z.shiftr_spec by lia. f_equal. lia. }
  rewrite lor_shift by (rewrite ?Z.ones_equiv; lia). rewrite Z.ones_equiv. lia.
Qed.

Lemma past_spec v k : 12 <= k <= 39 -> 0 <= v < USER_SPACE_END ->
  let v' := u64 (Z.lor v (Z.shiftl 1 k - 1) + 1) in
  v < v' <= USER_SPACE_END /\ v' mod PAGE_SIZE = 0 /\ forall x, v <= x < v' -> Z.shiftr x k = Z.shiftr v k.
Proof.
  intros Hk Hv. cbn zeta. rewrite lor_ones by lia. pose proof (Z.pow_pos_nonneg 2 k ltac:(lia) ltac:(lia)) as Hp.
  assert (USER_SPACE_END = 2 ^ (47 - k) * 2 ^ k) as HU by (rewrite <- Z.pow_add_r by lia; by replace (47 - k + k) with 47 by lia).
  assert (2 ^ k = 2 ^ (k - 12) * PAGE_SIZE) as HP by (change PAGE_SIZE with (2 ^ 12); rewrite <- Z.pow_add_r by lia; f_equal; lia).
  pose proof (Z.div_mod v (2 ^ k) ltac:(lia)). pose proof (Z.mod_pos_bound v (2 ^ k) Hp).
  assert (v / 2 ^ k < 2 ^ (47 - k)) as Hq by (apply Z.div_lt_upper_bound; lia).
  assert ((v / 2 ^ k + 1) * 2 ^ k <= USER_SPACE_END) as Hle by (rewrite HU; apply Z.mul_le_mono_nonneg_r; lia).
  assert (0 <= v / 2 ^ k) by (apply Z.div_pos; lia). rewrite u64_small by (unfold USER_SPACE_END in *; nia). split_and!; [nia|done| |].
  - rewrite HP at 2. rewrite Z.mul_assoc. by apply Z.mod_mul.
  - intros x Hx. rewrite !Z.shiftr_div_pow2 by lia. symmetry. apply (Z.div_unique_pos x (2 ^ k) _ (x - 2 ^ k * (v / 2 ^ k))); lia.
Qed.

(** Equal high bits, equal indices. *)
Lemma shiftr_more x v j k : 0 <= j -> j <= k -> Z.shiftr x j = Z.shiftr v j -> Z.shiftr x k = Z.shiftr v k.
Proof. intros Hj Hk He. replace k with (j + (k - j)) by lia. by rewrite <- !Z.shiftr_shiftr, He by lia. Qed.

Lemma no_table_pte s root x : root <> 0 -> descend s root (path_of x) = 0 -> vmm_get_pte s root x = 0.
Proof. intros Hr E. rewrite get_pte_entry by done. unfold entry_at. by rewrite E. Qed.

Lemma no_table_stays s root keep x : root <> 0 -> descend s root (path_of x) = 0 -> may_go s root keep x = false.
Proof. intros Hr E. unfold may_go. by rewrite no_table_pte by done. Qed.

(** One look at the upper levels finds the page table, or a stretch without one. *)
Lemma find_table s pl root v :
  tables s pl -> is_root pl root -> walkable s pl root -> 0 <= v < USER_SPACE_END -> v mod PAGE_SIZE = 0 ->
  let e4 := entry s root (pml4_index v) in
  let e3 := entry s (u64 (Z.land e4 PTE_ADDR_MASK + hhdm s)) (pdpt_index v) in
  let e2 := entry s (u64 (Z.land e3 PTE_ADDR_MASK + hhdm s)) (pd_index v) in
  let past bits := u64 (Z.lor v (Z.shiftl 1 bits - 1) + 1) in
  let skipped bits := forall x, v <= x < past bits -> descend s root (path_of x) = 0 in
  if negb (has e4 VMM_PRESENT) then skipped 39
  else if negb (has e3 VMM_PRESENT) || has e3 VMM_HUGE then skipped 30
  else if negb (has e2 VMM_PRESENT) || has e2 VMM_HUGE then skipped 21
  else u64 (Z.land e2 PTE_ADDR_MASK + hhdm s) <> 0 /\ u64 (Z.land e2 PTE_ADDR_MASK + hhdm s) = descend s root (path_of v).
Proof.
  intros Ht Hr [W1 W2] Hv Hal e4 e3 e2 past skipped.
  assert (forall k x, 12 <= k <= 39 -> v <= x < past k -> Z.shiftr x k = Z.shiftr v k) as Hidx.
  { intros k x Hk. by apply (past_spec v k Hk Hv). }
  assert (index_ok (pml4_index v) /\ index_ok (pdpt_index v) /\ index_ok (pd_index v)) as (I4&I3&I2) by (split_and!; apply index_range).
  pose proof (W1 _ I4) as H4. fold e4 in H4.
  assert (below s root (pml4_index v) = if has e4 VMM_PRESENT then u64 (Z.land e4 PTE_ADDR_MASK + hhdm s) else 0) as B4.
  { unfold below. fold e4. by rewrite H4, andb_true_r. }
  destruct (has e4 VMM_PRESENT) eqn:P4; cbn [negb].
  2: { intros x Hx. unfold path_of, pml4_index. rewrite (Hidx 39 x) by (done || lia). fold (pml4_index v). cbn [descend]. by rewrite B4. }
  pose proof (W2 root (root, []) (pml4_index v) Hr ltac:(simpl; lia) I4 P4) as N4. fold e4 in N4. set (t3 := u64 (Z.land e4 PTE_ADDR_MASK + hhdm s)) in *.
  pose proof (tb_child _ _ Ht root (root, []) (pml4_index v) Hr ltac:(simpl; lia) I4 ltac:(by rewrite B4)) as C3. rewrite B4 in C3. cbn [child snd] in C3.
  assert (below s t3 (pdpt_index v) = if has e3 VMM_PRESENT && negb (has e3 VMM_HUGE) then u64 (Z.land e3 PTE_ADDR_MASK + hhdm s) else 0) as B3 by done.
  assert (forall k x, 12 <= k <= 30 -> v <= x < past k -> pml4_index x = pml4_index v) as Hx4.
  { intros k x Hk Hx. unfold pml4_index. by rewrite (shiftr_more x v k 39) by (lia || by apply Hidx; lia). }
  destruct (negb (has e3 VMM_PRESENT) || has e3 VMM_HUGE) eqn:P3.
  { intros x Hx. unfold path_of, pdpt_index. rewrite (Hidx 30 x), (Hx4 30 x) by (done || lia). fold (pdpt_index v). cbn [descend].
    rewrite B4. destruct (t3 =? 0); [done|]. rewrite B3. by destruct (has e3 VMM_PRESENT), (has e3 VMM_HUGE). }
  apply orb_false_iff in P3 as [P3%negb_false_iff H3]. rewrite P3, H3 in B3. cbn [andb negb] in B3.
  pose proof (W2 t3 _ (pdpt_index v) C3 ltac:(simpl; lia) I3 P3) as N3. fold e3 in N3. set (t2 := u64 (Z.land e3 PTE_ADDR_MASK + hhdm s)) in *.
  pose proof (tb_child _ _ Ht t3 _ (pdpt_index v) C3 ltac:(simpl; lia) I3 ltac:(by rewrite B3)) as C2. rewrite B3 in C2. cbn [child snd fst app] in C2.
  assert (below s t2 (pd_index v) = if has e2 VMM_PRESENT && negb (has e2 VMM_HUGE) then u64 (Z.land e2 PTE_ADDR_MASK + hhdm s) else 0) as B2 by done.
  destruct (negb (has e2 VMM_PRESENT) || has e2 VMM_HUGE) eqn:P2.
  { intros x Hx. assert (pdpt_index x = pdpt_index v) as Hx3.
    { unfold pdpt_index. by rewrite (shiftr_more x v 21 30) by (lia || by apply Hidx; lia). }
    unfold path_of, pd_index. rewrite (Hidx 21 x), (Hx4 21 x), Hx3 by (done || lia). fold (pd_index v). cbn [descend].
    rewrite B4. destruct (t3 =? 0); [done|]. rewrite B3. destruct (t2 =? 0); [done|]. rewrite B2. by destruct (has e2 VMM_PRESENT), (has e2 VMM_HUGE). }
  apply orb_false_iff in P2 as [P2%negb_false_iff H2]. rewrite P2, H2 in B2. cbn [andb negb] in B2.
  pose proof (W2 t2 _ (pd_index v) C2 ltac:(simpl; lia) I2 P2) as N2. fold e2 in N2. split; [done|].
  unfold path_of. cbn [descend]. rewrite B4, (proj2 (Z.eqb_neq t3 0)), B3, (proj2 (Z.eqb_neq t2 0)), B2 by done.
  by rewrite (proj2 (Z.eqb_neq _ 0)) by done.
Qed.

(** The entry of a page that is taken. *)
Definition out_entry (e slot : Z) : Z :=
  Z.lor (Z.lor (clear e (Z.lor (Z.lor VMM_PRESENT PTE_ADDR_MASK) VMM_DIRTY)) VMM_SWAPPED) (u64 (Z.shiftl slot 12)).

Section search.
Context (pl : gmap Z place) (root slot : Z) (keep : list vmm_range_t) (s0 : vmm) (from : Z).
Hypothesis Hr : is_root pl root.
Hypothesis Hw : walkable s0 pl root.
Hypothesis H0 : 0 <= from.

(** The search has reached [scan_v c]. *)
Record scan_ok (c : scan) : Prop := {
  sc_aged : only_aged pl s0 (scan_st c);
  sc_v : from <= scan_v c <= USER_SPACE_END /\ scan_v c mod PAGE_SIZE = 0;
  sc_pt : scan_pt c <> 0 -> scan_v c < USER_SPACE_END /\ scan_pt c = descend (scan_st c) root (path_of (scan_v c));
  sc_seen : forall x, from <= x < scan_v c -> x mod PAGE_SIZE = 0 -> may_go s0 root keep x = true ->
    has (vmm_get_pte s0 root x) VMM_ACCESSED = true /\ has (vmm_get_pte (scan_st c) root x) VMM_ACCESSED = false;
  sc_rest : forall x, 0 <= x < USER_SPACE_END -> x mod PAGE_SIZE = 0 -> x < from \/ scan_v c <= x -> vmm_get_pte (scan_st c) root x = vmm_get_pte s0 root x }.

(** A page was found: [s1] is the state in which it was looked at. *)
Definition picked (x frame : Z) (s' : vmm) : Prop :=
  exists s1, only_aged pl s0 s1 /\ from <= x < USER_SPACE_END /\ x mod PAGE_SIZE = 0 /\ may_go s0 root keep x = true /\
    let e := vmm_get_pte s1 root x in
    has e VMM_ACCESSED = false /\ frame = Z.land e PTE_ADDR_MASK /\ descend s1 root (path_of x) <> 0 /\
    s' = set_entry s1 (descend s1 root (path_of x)) (pt_index x) (out_entry e slot).

(** Every page before [to] that may go had been used, and now counts as unused. *)
Definition seen_before (to : Z) (s' : vmm) : Prop :=
  forall x, from <= x < to -> x mod PAGE_SIZE = 0 -> may_go s0 root keep x = true ->
    has (vmm_get_pte s0 root x) VMM_ACCESSED = true /\ has (vmm_get_pte s' root x) VMM_ACCESSED = false.

(** The page found had not been used, unlike those before it. *)
Definition found (x frame : Z) (s' : vmm) : Prop :=
  picked x frame s' /\ has (vmm_get_pte s0 root x) VMM_ACCESSED = false /\ seen_before x s'.

(** Nothing was found. *)
Definition passed_over (s' : vmm) : Prop :=
  only_aged pl s0 s' /\ seen_before USER_SPACE_END s' /\
  forall x, 0 <= x < from -> x < USER_SPACE_END -> x mod PAGE_SIZE = 0 -> vmm_get_pte s' root x = vmm_get_pte s0 root x.

Definition scan_measure (c : scan) : nat :=
  Z.to_nat (2 * ((USER_SPACE_END - scan_v c) / PAGE_SIZE) + (if scan_pt c =? 0 then 1 else 0)).

(** The next page: in the same table, unless it starts a stretch of 2 MB. *)
Lemma next_page c s' :
  scan_ok c -> scan_pt c <> 0 -> only_aged pl (scan_st c) s' ->
  (may_go s0 root keep (scan_v c) = true ->
     has (vmm_get_pte s0 root (scan_v c)) VMM_ACCESSED = true /\ has (vmm_get_pte s' root (scan_v c)) VMM_ACCESSED = false) ->
  (forall x, x <> scan_v c -> 0 <= x < USER_SPACE_END -> x mod PAGE_SIZE = 0 -> vmm_get_pte s' root x = vmm_get_pte (scan_st c) root x) ->
  let v := u64 (scan_v c + PAGE_SIZE) in
  let c' := mkScan v (if negb (Z.land v (Z.shiftl 1 21 - 1) =? 0) && (v <? USER_SPACE_END) then scan_pt c else 0) s' in
  scan_ok c' /\ (scan_measure c' < scan_measure c)%nat.
Proof.
  intros [K1 [K2 K2'] K3 K4 K5] Hpt Ha Hthis Hothers. cbn zeta. destruct (K3 Hpt) as [Hlt Hd].
  rewrite u64_small by (unfold USER_SPACE_END, PAGE_SIZE in *; lia). set (v := scan_v c) in *.
  assert (v + PAGE_SIZE <= USER_SPACE_END) by (unfold USER_SPACE_END, PAGE_SIZE in *; zlia).
  set (pt' := if negb (Z.land (v + PAGE_SIZE) (Z.shiftl 1 21 - 1) =? 0) && (v + PAGE_SIZE <? USER_SPACE_END) then scan_pt c else 0). split.
  - split; cbn [scan_v scan_pt scan_st].
    + by eapply only_aged_trans.
    + unfold USER_SPACE_END, PAGE_SIZE in *. split; zlia.
    + unfold pt'. destruct (_ && _) eqn:E; [|done]. intros _. apply andb_true_iff in E as [E1%negb_true_iff E2%Z.ltb_lt]. split; [done|].
      rewrite (oa_descend _ _ _ Ha), Hd by done. f_equal. apply Z.eqb_neq in E1. rewrite Z.shiftl_1_l in E1.
      replace (2 ^ 21 - 1) with (Z.ones 21) in E1 by done. rewrite Z.land_ones in E1 by lia.
      assert (Z.shiftr (v + PAGE_SIZE) 21 = Z.shiftr v 21) as Es.
      { rewrite !Z.shiftr_div_pow2 by lia. change (2 ^ 21) with 2097152 in *. unfold PAGE_SIZE in *. zlia. }
      unfold path_of, pml4_index, pdpt_index, pd_index.
      by rewrite Es, (shiftr_more (v + PAGE_SIZE) v 21 30), (shiftr_more (v + PAGE_SIZE) v 21 39) by (done || lia).
    + intros x Hx Hxa Hgo. destruct (decide (x = v)) as [->|Hne]; [by apply Hthis|].
      rewrite Hothers by (done || lia). apply K4; [|done|done]. unfold PAGE_SIZE in *. zlia.
    + intros x Hx Hxa Hor. fold v in K5. unfold PAGE_SIZE in Hor. rewrite Hothers by (done || lia). apply K5; [done|done|lia].
  - unfold scan_measure. cbn [scan_v scan_pt]. fold v. rewrite (proj2 (Z.eqb_neq (scan_pt c) 0)) by done.
    replace (USER_SPACE_END - (v + PAGE_SIZE)) with (USER_SPACE_END - v - 1 * PAGE_SIZE) by lia.
    assert ((USER_SPACE_END - v - 1 * PAGE_SIZE) / PAGE_SIZE = (USER_SPACE_END - v) / PAGE_SIZE - 1) as -> by (unfold PAGE_SIZE; zlia).
    assert (1 <= (USER_SPACE_END - v) / PAGE_SIZE) by (apply Z.div_le_lower_bound; unfold PAGE_SIZE in *; lia).
    destruct (pt' =? 0); lia.
Qed.

(** A stretch without pages. *)
Lemma next_stretch c k : scan_ok c -> scan_pt c = 0 -> scan_v c < USER_SPACE_END -> 12 <= k <= 39 ->
  let v := u64 (Z.lor (scan_v c) (Z.shiftl 1 k - 1) + 1) in
  (forall x, scan_v c <= x < v -> descend (scan_st c) root (path_of x) = 0) ->
  scan_ok (mkScan v 0 (scan_st c)) /\ (scan_measure (mkScan v 0 (scan_st c)) < scan_measure c)%nat.
Proof.
  intros [K1 [K2 K2'] K3 K4 K5] Hpt Hlt Hk. cbn zeta. destruct (past_spec (scan_v c) k Hk ltac:(lia)) as (P1&P2&_).
  set (v := u64 _) in *. intros Hnone. destruct (table_addr _ _ _ _ (oa_tables _ _ _ K1) Hr) as [Hr0 _]. split.
  - split; cbn [scan_v scan_pt scan_st]; try done; [lia| |intros x Hx Hxa Hor; apply K5; [done|done|lia]]. intros x Hx Hxa Hgo.
    destruct (Z.lt_ge_cases x (scan_v c)); [apply K4; [lia|done|done]|].
    rewrite <- (may_go_aged _ _ _ _ _ _ K1 Hr), no_table_stays in Hgo; [done|lia|apply Hnone; lia].
  - unfold scan_measure. cbn [scan_v scan_pt]. rewrite Hpt. cbn [Z.eqb].
    assert ((USER_SPACE_END - v) / PAGE_SIZE < (USER_SPACE_END - scan_v c) / PAGE_SIZE) by (unfold USER_SPACE_END, PAGE_SIZE in *; zlia).
    assert (0 <= (USER_SPACE_END - v) / PAGE_SIZE) by (apply Z.div_pos; unfold PAGE_SIZE; lia). lia.
Qed.

Lemma scan_step_ok c : scan_ok c ->
  match swap_scan_step root USER_SPACE_END slot keep c with
  | inl c' => scan_ok c' /\ (scan_measure c' < scan_measure c)%nat
  | inr (Some (x, frame), s') => found x frame s'
  | inr (None, s') => passed_over s'
  end.
Proof.
  intros K. pose proof K as [K1 [K2 K2'] K3 K4 K5]. unfold swap_scan_step. pose proof (oa_tables _ _ _ K1) as Ht.
  destruct (oa_rest _ _ _ K1) as (R1&_&_). destruct (table_addr _ _ _ _ Ht Hr) as [Hr0 _].
  pose proof (walkable_same _ _ _ _ Hr (oa_upper _ _ _ K1) (hhdm_owned _ _ R1) Hw) as Hw'.
  destruct (Z.eqb_spec (scan_pt c) 0) as [E|E].
  - destruct (Z.ltb_spec (scan_v c) USER_SPACE_END) as [Hlt|Hge]; cbn [negb].
    + pose proof (find_table (scan_st c) pl root (scan_v c) Ht Hr Hw' ltac:(lia) K2') as HF. cbn zeta in HF.
      destruct (negb (has (entry _ root _) VMM_PRESENT)); [apply next_stretch; (done || lia)|].
      destruct (_ || _); [apply next_stretch; (done || lia)|]. destruct (_ || _); [apply next_stretch; (done || lia)|].
      destruct HF as [F1 F2]. set (pt := u64 _) in *. split.
      * by split.
      * unfold scan_measure. cbn [scan_v scan_pt]. rewrite E, (proj2 (Z.eqb_neq pt 0)) by done. cbn [Z.eqb].
        assert (0 <= (USER_SPACE_END - scan_v c) / PAGE_SIZE) by (apply Z.div_pos; unfold PAGE_SIZE; lia). lia.
    + split; [done|]. split; [intros x Hx; apply K4; lia|]. intros x Hx Hxe Hxa. apply K5; [lia|done|lia].
  - destruct (K3 E) as [Hlt Hd]. assert (entry (scan_st c) (scan_pt c) (pt_index (scan_v c)) = vmm_get_pte (scan_st c) root (scan_v c)) as ->.
    { rewrite get_pte_entry by lia. unfold entry_at. rewrite <- Hd. by rewrite (proj2 (Z.eqb_neq _ 0)) by done. }
    set (e := vmm_get_pte (scan_st c) root (scan_v c)).
    match goal with |- context [if ?b && negb (page_is_kept _ _) then _ else _] =>
      change (b && negb (page_is_kept (scan_v c) keep)) with (may_go (scan_st c) root keep (scan_v c)) end.
    rewrite (may_go_aged _ _ _ _ _ _ K1 Hr). destruct (may_go s0 root keep (scan_v c)) eqn:Hgo; [destruct (has e VMM_ACCESSED) eqn:Hacc|].
    + apply next_page; try done.
      * rewrite Hd. apply age_page; [done|done|lia|by rewrite <- Hd].
      * intros _. split; [by apply (oa_pte _ _ _ K1 root (scan_v c) Hr)|]. rewrite Hd.
        destruct (set_page_leaf (scan_st c) pl root (scan_v c) (clear e VMM_ACCESSED) Ht Hr ltac:(by rewrite <- Hd)) as (_&->&_). apply cleared_accessed.
      * intros x Hne Hx Hxa. rewrite Hd.
        destruct (set_page_leaf (scan_st c) pl root (scan_v c) (clear e VMM_ACCESSED) Ht Hr ltac:(by rewrite <- Hd)) as (_&_&C&_). apply C; [done|].
        apply user_not_same; [lia|done|]. rewrite !page_of_eq by (unfold USER_SPACE_END in *; lia). change 4096 with PAGE_SIZE. lia.
    + split; [|split].
      * exists (scan_st c). split; [done|]. split; [lia|]. split; [done|]. split; [done|]. cbn zeta. rewrite <- Hd. done.
      * rewrite <- (K5 (scan_v c)); [done|lia|done|lia].
      * intros x Hx Hxa Hmg. destruct (K4 x Hx Hxa Hmg) as [Hu Hn]. split; [done|]. rewrite Hd.
        destruct (set_page_leaf (scan_st c) pl root (scan_v c) (out_entry e slot) Ht Hr ltac:(by rewrite <- Hd)) as (_&_&C&_). fold (out_entry e slot). rewrite C; [done|done|].
        apply user_not_same; [lia|lia|]. rewrite !page_of_eq by (unfold USER_SPACE_END in *; lia). change 4096 with PAGE_SIZE. lia.
    + apply next_page; try done. by rewrite Hgo.
Qed.

(** The search finishes within its bound. *)
Lemma swap_scan_ends : tables s0 pl -> from < 0x10000000000000000 -> from mod PAGE_SIZE = 0 -> from <= USER_SPACE_END ->
  exists r, (forall n, (Pos.to_nat (Z.to_pos (2 * ((USER_SPACE_END - from) / PAGE_SIZE) + 3)) <= n)%nat ->
      rounds n (swap_scan_step root USER_SPACE_END slot keep) (mkScan from 0 s0) = inr r) /\
    swap_scan s0 root from USER_SPACE_END slot keep = r /\
    match r with (Some (x, frame), s') => found x frame s' | (None, s') => passed_over s' end.
Proof.
  intros Ht Hf Ha Hle. assert (scan_ok (mkScan from 0 s0)) as K.
  { split; cbn [scan_v scan_pt scan_st]; try done. intros; lia. }
  assert (forall n, (Pos.to_nat (Z.to_pos (2 * ((USER_SPACE_END - from) / PAGE_SIZE) + 3)) <= n)%nat ->
    exists r, rounds n (swap_scan_step root USER_SPACE_END slot keep) (mkScan from 0 s0) = inr r) as Hends.
  { intros n Hn. apply (rounds_done scan_ok scan_measure); [|done|].
    - intros c Kc. pose proof (scan_step_ok c Kc) as HS. by destruct (swap_scan_step _ _ _ _ c) as [c'|[[[x f]|] s']].
    - unfold scan_measure. cbn [scan_v scan_pt Z.eqb]. assert (0 <= (USER_SPACE_END - from) / PAGE_SIZE) by (apply Z.div_pos; unfold PAGE_SIZE; lia). lia. }
  assert (forall n, match rounds n (swap_scan_step root USER_SPACE_END slot keep) (mkScan from 0 s0) with
    | inl c => scan_ok c | inr (Some (x, frame), s') => found x frame s' | inr (None, s') => passed_over s' end) as Hinv.
  { intros n. pose proof (rounds_invariant scan_ok (fun r => match r with (Some (x, frame), s') => found x frame s' | (None, s') => passed_over s' end)
      (swap_scan_step root USER_SPACE_END slot keep)) as HI. specialize (HI ltac:(intros c Kc; pose proof (scan_step_ok c Kc) as HS;
      by destruct (swap_scan_step _ _ _ _ c) as [c'|[[[x f]|] s']]; [destruct HS|..]) n _ K). by destruct (rounds _ _ _) as [c|[[[x f]|] s']]. }
  set (b := Z.to_pos _) in *. destruct (Hends (Pos.to_nat b) ltac:(lia)) as [r Hb]. exists r. split_and!.
  - intros n Hn. replace n with (Pos.to_nat b + (n - Pos.to_nat b))%nat by lia. by rewrite rounds_add, Hb.
  - unfold swap_scan. rewrite page_of_eq by lia. change 4096 with PAGE_SIZE. rewrite Ha, Z.sub_0_r. fold b. by rewrite loop_rounds, Hb.
  - specialize (Hinv (Pos.to_nat b)). rewrite Hb in Hinv. done.
Qed.
End search.

(** * The entries of pages out and in *)

(** All bits but those that say where the page is, and whether it was used. *)
Definition RIGHTS : Z := u64 (Z.lnot (Z.lor (Z.lor (Z.lor (Z.lor VMM_PRESENT PTE_ADDR_MASK) VMM_DIRTY) VMM_ACCESSED) VMM_SWAPPED)).

Definition in_entry (e frame : Z) : Z :=
  Z.lor (Z.lor (Z.lor (clear e (Z.lor PTE_ADDR_MASK VMM_SWAPPED)) (Z.land frame PTE_ADDR_MASK)) VMM_PRESENT) VMM_ACCESSED.

Lemma land_frame f m : 0 <= f < 0x10000000000 -> Z.land PTE_ADDR_MASK m = 0 -> Z.land (f * PAGE_SIZE) m = 0.
Proof. intros Hf Hm. by rewrite <- (frame_masked f), <- Z.land_assoc, Hm, Z.land_0_r by done. Qed.

Lemma land_clear e bits m m' : Z.land (u64 (Z.lnot bits)) m = m' -> Z.land (clear e bits) m = Z.land e m'.
Proof. intros <-. unfold clear. by rewrite Z.land_assoc. Qed.

Lemma slot_field slot : 0 <= slot < 0x100000000 -> u64 (Z.shiftl slot 12) = slot * PAGE_SIZE.
Proof. intros Hs. rewrite Z.shiftl_mul_pow2 by lia. change (2 ^ 12) with PAGE_SIZE. apply u64_small. unfold PAGE_SIZE. lia. Qed.

Lemma out_entry_land e slot m m' : 0 <= slot < 0x100000000 ->
  Z.land (u64 (Z.lnot (Z.lor (Z.lor VMM_PRESENT PTE_ADDR_MASK) VMM_DIRTY))) m = m' -> Z.land PTE_ADDR_MASK m = 0 ->
  Z.land (out_entry e slot) m = Z.lor (Z.land e m') (Z.land VMM_SWAPPED m).
Proof.
  intros Hs H1 H2. unfold out_entry. rewrite slot_field, !Z.land_lor_distr_l, (land_clear _ _ _ _ H1), (land_frame slot m) by (done || lia). by rewrite Z.lor_0_r.
Qed.

Lemma out_entry_spec e slot : 0 <= slot < 0x100000000 ->
  let e' := out_entry e slot in
  has e' VMM_PRESENT = false /\ vmm_pte_swapped e' = true /\ vmm_pte_swap_slot e' = slot /\ Z.land e' RIGHTS = Z.land e RIGHTS.
Proof.
  intros Hs. cbn zeta. assert (has (out_entry e slot) VMM_PRESENT = false) as Hp.
  { unfold has. by rewrite (out_entry_land e slot VMM_PRESENT 0), Z.land_0_r by done. }
  split_and!; [done| | |].
  - unfold vmm_pte_swapped. rewrite Hp. unfold has. rewrite (out_entry_land e slot VMM_SWAPPED VMM_SWAPPED) by done.
    cbn [negb andb]. apply negb_true_iff, Z.eqb_neq. intros E%Z.lor_eq_0_iff. by destruct E.
  - unfold vmm_pte_swap_slot, out_entry. rewrite slot_field, !Z.land_lor_distr_l, (land_clear _ _ PTE_ADDR_MASK 0) by done.
    rewrite frame_masked, Z.land_0_r by lia. change (Z.land VMM_SWAPPED PTE_ADDR_MASK) with 0. rewrite !Z.lor_0_l.
    rewrite Z.shiftr_div_pow2 by lia. change (2 ^ 12) with PAGE_SIZE. rewrite Z.div_mul by done. by apply u32_small.
  - rewrite (out_entry_land e slot RIGHTS RIGHTS) by done. change (Z.land VMM_SWAPPED RIGHTS) with 0. by rewrite Z.lor_0_r.
Qed.

Lemma in_entry_land e f m m' : 0 <= f < 0x10000000000 ->
  Z.land (u64 (Z.lnot (Z.lor PTE_ADDR_MASK VMM_SWAPPED))) m = m' -> Z.land PTE_ADDR_MASK m = 0 ->
  Z.land (in_entry e (f * PAGE_SIZE)) m = Z.lor (Z.lor (Z.land e m') (Z.land VMM_PRESENT m)) (Z.land VMM_ACCESSED m).
Proof.
  intros Hf H1 H2. unfold in_entry. rewrite frame_masked, !Z.land_lor_distr_l, (land_clear _ _ _ _ H1), (land_frame f m) by done. by rewrite Z.lor_0_r.
Qed.

Lemma in_entry_spec e f : 0 <= f < 0x10000000000 ->
  let e' := in_entry e (f * PAGE_SIZE) in
  has e' VMM_PRESENT = true /\ Z.land e' PTE_ADDR_MASK = f * PAGE_SIZE /\ Z.land e' RIGHTS = Z.land e RIGHTS.
Proof.
  intros Hf. cbn zeta. split_and!.
  - unfold has. rewrite (in_entry_land e f VMM_PRESENT VMM_PRESENT) by done. apply negb_true_iff, Z.eqb_neq.
    intros E%Z.lor_eq_0_iff. destruct E as [E%Z.lor_eq_0_iff _]. by destruct E.
  - unfold in_entry. rewrite !Z.land_lor_distr_l, (land_clear _ _ PTE_ADDR_MASK 0), frame_masked, Z.land_0_r by done.
    change (Z.land VMM_PRESENT PTE_ADDR_MASK) with 0. change (Z.land VMM_ACCESSED PTE_ADDR_MASK) with 0.
    rewrite !Z.lor_0_r, Z.lor_0_l. by apply frame_masked.
  - rewrite (in_entry_land e f RIGHTS RIGHTS) by done. change (Z.land VMM_PRESENT RIGHTS) with 0.
    change (Z.land VMM_ACCESSED RIGHTS) with 0. by rewrite !Z.lor_0_r.
Qed.

(** * The whole search *)

Lemma picked_aged pl root slot keep s s1 from x frame s' :
  is_root pl root -> only_aged pl s s1 -> picked pl root slot keep s1 from x frame s' -> 0 <= from -> picked pl root slot keep s 0 x frame s'.
Proof.
  intros Hr Ha (s2&P1&P2&P3&P4&P5) H0. exists s2. split; [by eapply only_aged_trans|]. split; [lia|]. split; [done|].
  split; [|done]. by rewrite <- (may_go_aged _ _ _ _ _ _ Ha Hr).
Qed.

Lemma swap_scan_page s root from slot keep : 0 <= from < 0x10000000000000000 ->
  swap_scan s root from USER_SPACE_END slot keep = swap_scan s root (page_of from) USER_SPACE_END slot keep.
Proof.
  intros Hf. unfold swap_scan. assert (page_of (page_of from) = page_of from) as ->; [|done].
  rewrite (page_of_eq from) by done. pose proof (Z.mod_pos_bound from 4096). pose proof (Z.mod_le from 4096). rewrite page_of_eq by lia. zlia.
Qed.

Lemma picked_pte pl root slot keep s from x frame s' y : is_root pl root -> 0 <= from -> picked pl root slot keep s from x frame s' ->
  0 <= y < USER_SPACE_END -> y mod PAGE_SIZE = 0 -> y <> x -> aged (vmm_get_pte s root y) (vmm_get_pte s' root y).
Proof.
  intros Hr H0 (s1&P1&P2&P3&P4&P5&P6&P7&->) Hy Hya Hne. destruct (set_page_leaf s1 pl root x (out_entry (vmm_get_pte s1 root x) slot) (oa_tables _ _ _ P1) Hr P7) as (_&_&C&_).
  rewrite C; [by apply (oa_pte _ _ _ P1)|done|]. apply user_not_same; [lia|done|]. rewrite !page_of_eq by (unfold USER_SPACE_END in *; lia). change 4096 with PAGE_SIZE. lia.
Qed.

(** How far [x] is from where the hand starts. *)
Definition from_hand (start x : Z) : Z := if start <=? x then x - start else x - start + USER_SPACE_END.

(** The page taken is the first in the hand's way that had not been used, and those before
    it now count as unused; if all had been used, it is the first in its way. *)
Definition second_chance (s s' : vmm) (root : Z) (keep : list vmm_range_t) (start x : Z) : Prop :=
  let used s y := has (vmm_get_pte s root y) VMM_ACCESSED in
  forall y, 0 <= y < USER_SPACE_END -> y mod PAGE_SIZE = 0 -> may_go s root keep y = true ->
    (used s x = false -> from_hand start y < from_hand start x -> used s y = true /\ used s' y = false) /\
    (used s x = true -> used s y = true /\ from_hand start x <= from_hand start y).

Section rounds.
  Context (pl : gmap Z place) (root slot : Z) (keep : list vmm_range_t) (s : vmm) (start : Z).
  Context (Hr : is_root pl root) (Hs : 0 <= start < USER_SPACE_END).

Lemma picked_place s1 from x frame s' : 0 <= from -> only_aged pl s s1 -> picked pl root slot keep s1 from x frame s' ->
  0 <= x < USER_SPACE_END /\ x mod PAGE_SIZE = 0 /\ may_go s root keep x = true.
Proof. intros H0 Ha (s2&P1&P2&P3&P4&_). rewrite (may_go_aged _ _ _ _ _ _ Ha Hr) in P4. split; [lia|done]. Qed.

Ltac hand := unfold from_hand in *; repeat match goal with |- context [start <=? ?z] => destruct (Z.leb_spec start z) | H : context [start <=? ?z] |- _ => destruct (Z.leb_spec start z) end; try lia.

Lemma first_round x frame s' : tables s pl -> found pl root slot keep s start x frame s' -> second_chance s s' root keep start x.
Proof.
  intros Ht (Hp&Hn&Hb). pose proof Hp as (_&_&Hx&_). intros y Hy Hya Hgo. cbn zeta. rewrite Hn. split; [|done]. intros _ Hd. apply Hb; [|done|done]. hand.
Qed.

Lemma second_round s1 x frame s' : passed_over pl root keep s start s1 -> found pl root slot keep s1 0 x frame s' -> second_chance s s' root keep start x.
Proof.
  intros (A1&B1&C1) (Hp&Hn&Hb). destruct (picked_place s1 0 x frame s' ltac:(lia) A1 Hp) as (Hx&Hxa&Hxgo). intros y Hy Hya Hgo. cbn zeta.
  assert (y < x -> has (vmm_get_pte s1 root y) VMM_ACCESSED = true /\ has (vmm_get_pte s' root y) VMM_ACCESSED = false) as Hlow.
  { intros Hyx. apply Hb; [lia|done|]. by rewrite (may_go_aged _ _ _ _ _ _ A1 Hr). }
  assert (has (vmm_get_pte s1 root y) VMM_ACCESSED = true -> has (vmm_get_pte s root y) VMM_ACCESSED = true) as Hold by apply (oa_pte _ _ _ A1 root y Hr).
  split.
  - intros Hu Hd. destruct (Z.lt_ge_cases x start) as [Hlt|Hge]; [|destruct (B1 x ltac:(lia) Hxa Hxgo); congruence].
    destruct (Z.lt_ge_cases y x) as [Hyx|Hyx]; [destruct (Hlow Hyx); auto|]. destruct (B1 y) as [H1 H2]; [hand|done|done|]. split; [done|].
    destruct (has (vmm_get_pte s' root y) VMM_ACCESSED) eqn:E; [|done].
    assert (y <> x) as Hne by (intros ->; lia). rewrite <- H2. symmetry. by apply (picked_pte pl root slot keep s1 0 x frame s' y Hr ltac:(lia) Hp Hy Hya Hne).
  - intros Hu. destruct (Z.lt_ge_cases x start) as [Hlt|Hge]; [rewrite C1 in Hn by (done || lia); congruence|].
    destruct (Z.lt_ge_cases y start) as [Hys|Hys]; [split; [by apply Hold, Hlow; lia|hand]|]. destruct (B1 y ltac:(lia) Hya Hgo) as [H1 H2]. split; [done|].
    destruct (Z.lt_ge_cases y x) as [Hyx|Hyx]; [destruct (Hlow Hyx); congruence|hand].
Qed.

Lemma third_round s1 s2 x frame s' : passed_over pl root keep s start s1 -> passed_over pl root keep s1 0 s2 -> found pl root slot keep s2 0 x frame s' ->
  second_chance s s' root keep start x.
Proof.
  intros (A1&B1&_) (A2&B2&_) (Hp&_&Hb). pose proof (only_aged_trans _ _ _ _ A1 A2) as A12. destruct (picked_place s2 0 x frame s' ltac:(lia) A12 Hp) as (Hx&Hxa&Hxgo).
  assert (forall y, 0 <= y < USER_SPACE_END -> y mod PAGE_SIZE = 0 -> may_go s root keep y = true ->
    y < start /\ x <= y /\ has (vmm_get_pte s root y) VMM_ACCESSED = true) as Hall.
  { intros y Hy Hya Hgo. destruct (B2 y Hy Hya) as [U1 U2]; [by rewrite (may_go_aged _ _ _ _ _ _ A1 Hr)|]. split; [|split].
    - destruct (Z.lt_ge_cases y start); [done|]. destruct (B1 y) as [_ N]; [lia|done|done|congruence].
    - destruct (Z.lt_ge_cases y x); [|done]. destruct (Hb y) as [N _]; [lia|done|by rewrite (may_go_aged _ _ _ _ _ _ A12 Hr)|congruence].
    - by apply (oa_pte _ _ _ A1 root y Hr). }
  destruct (Hall x Hx Hxa Hxgo) as (Hxs&_&Hxu). intros y Hy Hya Hgo. cbn zeta. rewrite Hxu. destruct (Hall y Hy Hya Hgo) as (H1&H2&H3). split; [done|]. intros _. split; [done|]. hand.
Qed.
End rounds.

(** Where the hand starts. *)
Definition hand_at (cursor : Z) : Z := page_of (if cursor <? USER_SPACE_END then cursor else 0).

Lemma swap_pick_spec s pl root cursor slot keep :
  tables s pl -> is_root pl root -> walkable s pl root -> root <> kernel_pml4 s -> 0 <= cursor < 0x10000000000000000 ->
  match vmm_swap_pick s root cursor slot keep with
  | (Some (x, frame, cursor'), s') => picked pl root slot keep s 0 x frame s' /\ cursor' = x + PAGE_SIZE /\ second_chance s s' root keep (hand_at cursor) x
  | (None, s') => only_aged pl s s' /\ forall x, 0 <= x < USER_SPACE_END -> x mod PAGE_SIZE = 0 -> may_go s root keep x = false
  end.
Proof.
  intros Ht Hr Hw Hk Hc. unfold vmm_swap_pick. destruct (table_addr _ _ _ _ Ht Hr) as [Hr0 _].
  rewrite (proj2 (Z.eqb_neq root 0)), (proj2 (Z.eqb_neq root _)) by (done || lia). cbn [orb].
  assert (forall s2 from, only_aged pl s s2 -> 0 <= from < USER_SPACE_END ->
    match swap_scan s2 root from USER_SPACE_END slot keep with
    | (Some (x, frame), s') => picked pl root slot keep s 0 x frame s' /\ found pl root slot keep s2 (page_of from) x frame s'
    | (None, s') => passed_over pl root keep s2 (page_of from) s' /\ only_aged pl s s' end) as Hscan.
  { intros s2 from Ha Hf. rewrite swap_scan_page by (unfold USER_SPACE_END in *; lia).
    assert (0 <= page_of from <= from /\ page_of from mod PAGE_SIZE = 0) as [P1 P2].
    { rewrite page_of_eq by (unfold USER_SPACE_END in *; lia). unfold PAGE_SIZE. zlia. }
    pose proof (walkable_same _ _ _ _ Hr (oa_upper _ _ _ Ha) (hhdm_owned _ _ (proj1 (oa_rest _ _ _ Ha))) Hw) as Hw2.
    destruct (swap_scan_ends pl root slot keep s2 (page_of from) Hr Hw2 ltac:(lia) (oa_tables _ _ _ Ha)) as (r&_&->&HR);
      [unfold USER_SPACE_END in *; lia|done|lia|]. destruct r as [[[x frame]|] s'].
    - split; [|done]. apply (picked_aged pl root slot keep s s2 (page_of from)); (apply HR || done || lia).
    - split; [done|]. destruct HR as [HR _]. by eapply only_aged_trans. }
  unfold hand_at. set (start := if cursor <? USER_SPACE_END then cursor else 0).
  assert (0 <= start < USER_SPACE_END) as Hstart by (unfold start; destruct (Z.ltb_spec cursor USER_SPACE_END); unfold USER_SPACE_END in *; lia).
  assert (0 <= page_of start < USER_SPACE_END) as Hps by (rewrite page_of_eq by (unfold USER_SPACE_END in *; lia); zlia).
  assert (0 <= 0 < USER_SPACE_END) as H0 by (unfold USER_SPACE_END; lia).
  assert (forall x frame s', picked pl root slot keep s 0 x frame s' -> u64 (x + PAGE_SIZE) = x + PAGE_SIZE) as Hu.
  { intros x frame s' (s2&_&P&_). apply u64_small. unfold USER_SPACE_END, PAGE_SIZE in *. lia. }
  pose proof (Hscan s start (only_aged_refl pl s Ht) Hstart) as S1. destruct (swap_scan s root start _ _ _) as [[[x frame]|] s1].
  { destruct S1 as [S1 F1]. split; [done|]. split; [by eapply Hu|]. by eapply first_round. }
  destruct S1 as [Q1 A1]. pose proof (Hscan s1 0 A1 H0) as S2. destruct (swap_scan s1 root 0 _ _ _) as [[[x frame]|] s2].
  { destruct S2 as [S2 F2]. split; [done|]. split; [by eapply Hu|]. by eapply second_round. }
  destruct S2 as [Q2 A2]. pose proof (Hscan s2 0 A2 H0) as S3. change (page_of 0) with 0 in Q2, S3. destruct (swap_scan s2 root 0 _ _ _) as [[[x frame]|] s3].
  { destruct S3 as [S3 F3]. split; [done|]. split; [by eapply Hu|]. by eapply third_round. }
  destruct S3 as [(_&Q3&_) A3]. destruct Q2 as (_&Q2&_). split; [done|]. intros x Hx Hxa. destruct (may_go s root keep x) eqn:Hgo; [|done]. exfalso.
  destruct (Q2 x Hx Hxa) as [_ N2]; [by rewrite (may_go_aged _ _ _ _ _ _ A1 Hr)|].
  destruct (Q3 x Hx Hxa) as [N3 _]; [by rewrite (may_go_aged _ _ _ _ _ _ A2 Hr)|]. congruence.
Qed.

(** * Properties *)

(** C26. [vmm_swap_pick] finds a page to swap out whenever there is one. Each of its
    searches ends within the bound given (2 rounds a page) whatever accessed bits
    the ones before have cleared. A page it takes is the caller's alone (a present
    user page of this address space, not shared, in a frame with one owner and in
    no range to be kept). It is chosen by second chance: of the pages that may go it is
    the first in the hand's way whose accessed bit was clear, and those the hand
    passed on its way to it had their bit set and have it clear now; only if all had
    it set is it one that had, the first in the way. Its entry now names the slot and
    keeps its rights, and no other entry differs in more than its accessed bit, which
    is at most cleared. If it takes none, there is no page that may go. *)
Theorem vmm_swap_pick_correct s pl root cursor slot keep :
  tables s pl -> is_root pl root -> walkable s pl root -> root <> kernel_pml4 s -> 0 <= cursor < 0x10000000000000000 -> 0 <= slot < 0x100000000 ->
  (forall s1 from, only_aged pl s s1 -> 0 <= from <= USER_SPACE_END -> from mod PAGE_SIZE = 0 ->
     exists r, (forall n, (Pos.to_nat (Z.to_pos (2 * ((USER_SPACE_END - from) / PAGE_SIZE) + 3)) <= n)%nat ->
         rounds n (swap_scan_step root USER_SPACE_END slot keep) (mkScan from 0 s1) = inr r) /\
       swap_scan s1 root from USER_SPACE_END slot keep = r) /\
  match vmm_swap_pick s root cursor slot keep with
  | (Some (x, frame, cursor'), s') =>
      0 <= x < USER_SPACE_END /\ x mod PAGE_SIZE = 0 /\ cursor' = x + PAGE_SIZE /\ may_go s root keep x = true /\ second_chance s s' root keep (hand_at cursor) x /\
      let e := vmm_get_pte s root x in let e' := vmm_get_pte s' root x in
      frame = Z.land e PTE_ADDR_MASK /\ vmm_pte_swapped e' = true /\ vmm_pte_swap_slot e' = slot /\ Z.land e' RIGHTS = Z.land e RIGHTS /\
      tables s' pl /\ forall root' x', is_root pl root' -> ~ same_slot root x root' x' -> aged (vmm_get_pte s root' x') (vmm_get_pte s' root' x')
  | (None, s') => only_aged pl s s' /\ forall x, 0 <= x < USER_SPACE_END -> x mod PAGE_SIZE = 0 -> may_go s root keep x = false
  end.
Proof.
  intros Ht Hr Hw Hk Hc Hs. split.
  - intros s1 from Ha Hf Hfa. pose proof (walkable_same _ _ _ _ Hr (oa_upper _ _ _ Ha) (hhdm_owned _ _ (proj1 (oa_rest _ _ _ Ha))) Hw) as Hw1.
    destruct (swap_scan_ends pl root slot keep s1 from Hr Hw1 ltac:(lia) (oa_tables _ _ _ Ha)) as (r&H1&H2&_);
      [unfold USER_SPACE_END in *; lia|done|lia|by exists r].
  - pose proof (swap_pick_spec s pl root cursor slot keep Ht Hr Hw Hk Hc) as HP.
    destruct (vmm_swap_pick s root cursor slot keep) as [[[[x frame] cursor']|] s']; [|done].
    destruct HP as ((s1&P1&P2&P3&P4&P5&P6&P7&->)&->&Hsc). pose proof (oa_pte _ _ _ P1 root x Hr) as Ha.
    set (e1 := vmm_get_pte s1 root x) in *. destruct (set_page_leaf s1 pl root x (out_entry e1 slot) (oa_tables _ _ _ P1) Hr P7) as (L1&L2&L3&_).
    destruct (out_entry_spec e1 slot Hs) as (_&O2&O3&O4). split; [done|]. split; [done|]. split; [done|]. split; [done|]. split; [done|]. cbn zeta.
    rewrite L2. split; [by rewrite P6, (aged_land _ _ _ Ha)|]. split; [done|]. split; [done|].
    split; [by rewrite O4, (aged_land _ _ _ Ha)|]. split; [done|]. intros root' x' Hr' Hns. rewrite L3 by done. by apply (oa_pte _ _ _ P1).
Qed.

(** ** Example: frame 1 mapped at 4 MiB *)

Definition four_taken : cow := snd (alloc_frame (snd (alloc_frame (snd (alloc_frame (snd (alloc_frame small_cow))))))).
Definition tab (k : Z) : Z := 0xFFFF800000000000 + k * 0x1000.
Definition page_ram : Z -> Z := fun x =>
  if x =? tab 2 then 0x3007 else if x =? tab 3 then 0x4007 else if x =? tab 4 + 16 then 0x5007 else if x =? tab 5 then 0x1007 else 0.
Definition page_vmm : vmm := mkVmm four_taken (swap_start 3) page_ram 0 DEVICE_REGION_BASE.
Definition page_places : gmap Z place :=
  <[tab 2 := (tab 2, [])]> (<[tab 3 := (tab 2, [0])]> (<[tab 4 := (tab 2, [0; 0])]> {[tab 5 := (tab 2, [0; 0; 2])]})).

Lemma four_taken_ok : cow_ok four_taken.
Proof.
  assert (forall c, cow_ok c -> cow_ok (snd (alloc_frame c))) as Ha.
  { intros c Hc. pose proof (alloc_frame_owners c Hc) as H. destruct (alloc_frame c). by destruct H. }
  unfold four_taken. do 4 apply Ha. apply small_cow_ok.
Qed.

Lemma page_places_cases t p : page_places !! t = Some p ->
  (t = tab 2 /\ p = (tab 2, [])) \/ (t = tab 3 /\ p = (tab 2, [0])) \/ (t = tab 4 /\ p = (tab 2, [0; 0])) \/ (t = tab 5 /\ p = (tab 2, [0; 0; 2])).
Proof.
  unfold page_places. rewrite !lookup_insert_Some, lookup_singleton_Some. intuition congruence.
Qed.

(** Entries of the tables: one in each leads on. *)
Lemma page_entry k i : 2 <= k <= 5 -> index_ok i ->
  entry page_vmm (tab k) i = if (k =? 2) && (i =? 0) then 0x3007 else if (k =? 3) && (i =? 0) then 0x4007
    else if (k =? 4) && (i =? 2) then 0x5007 else if (k =? 5) && (i =? 0) then 0x1007 else 0.
Proof.
  intros Hk Hi. unfold index_ok in Hi. change (entry page_vmm (tab k) i) with (page_ram (tab k + 8 * i)). unfold page_ram, tab.
  repeat match goal with |- context [?a =? ?b] => destruct (Z.eqb_spec a b) end; cbn [andb]; lia.
Qed.

Lemma page_below k i : 2 <= k <= 4 -> index_ok i -> below page_vmm (tab k) i = if i =? (if k =? 4 then 2 else 0) then tab (k + 1) else 0.
Proof.
  intros Hk Hi. unfold below. rewrite page_entry by (done || lia). assert (k = 2 \/ k = 3 \/ k = 4) as [->|[->| ->]] by lia; cbn [Z.eqb Pos.eqb andb];
    [destruct (i =? 0)|destruct (i =? 0)|destruct (i =? 2)]; done.
Qed.

Lemma page_frames f : In f [1; 2; 3; 4; 5] -> f ∉ abs (frames four_taken).
Proof.
  assert (Forall (fun f => f ∉ abs (frames four_taken)) [1; 2; 3; 4; 5]) as H by (apply (bool_decide_unpack _); vm_compute; exact I).
  rewrite Forall_forall in H. intros Hf. apply H. by apply list_elem_of_In.
Qed.

Lemma page_tables : tables page_vmm page_places.
Proof.
  assert (hhdm page_vmm = tab 0 /\ total_frames (frames (owned page_vmm)) = 16) as [Hh Ht] by (vm_compute; split; reflexivity).
  split; rewrite ?Hh, ?Ht.
  - intros t p Hp. assert (exists k, t = tab k /\ 2 <= k <= 5) as (k&->&Hk) 
      by (apply page_places_cases in Hp as [[-> _]|[[-> _]|[[-> _]|[-> _]]]]; eexists; (split; [reflexivity|lia])).
    exists k. split; [split; [rewrite Hh; unfold tab, PAGE_SIZE; lia|rewrite Ht; lia]|]. apply page_frames. cbn. lia.
  - intros t o Hp. apply page_places_cases in Hp as [[-> [= ->]]|[[_ H]|[[_ H]|[_ H]]]]; [reflexivity|discriminate H..].
  - intros t p i Hp Hl Hi Hb. apply page_places_cases in Hp as [[-> ->]|[[-> ->]|[[-> ->]|[_ ->]]]]; [..|simpl in Hl; lia].
    + rewrite (page_below 2 i ltac:(lia) Hi) in Hb |- *. revert Hb. cbn [Z.eqb Pos.eqb]. destruct (Z.eqb_spec i 0) as [->|]; [intros _; vm_compute; reflexivity|intros []; reflexivity].
    + rewrite (page_below 3 i ltac:(lia) Hi) in Hb |- *. revert Hb. cbn [Z.eqb Pos.eqb]. destruct (Z.eqb_spec i 0) as [->|]; [intros _; vm_compute; reflexivity|intros []; reflexivity].
    + rewrite (page_below 4 i ltac:(lia) Hi) in Hb |- *. revert Hb. cbn [Z.eqb Pos.eqb]. destruct (Z.eqb_spec i 2) as [->|]; [intros _; vm_compute; reflexivity|intros []; reflexivity].
  - vm_compute. intuition congruence.
  - vm_compute. congruence.
  - apply four_taken_ok.
Qed.

Lemma page_root root : is_root page_places root -> root = tab 2.
Proof. intros H. apply page_places_cases in H as [[-> _]|[[_ H]|[[_ H]|[_ H]]]]; [reflexivity|discriminate H..]. Qed.

Lemma page_walkable : walkable page_vmm page_places (tab 2).
Proof.
  split.
  - intros i Hi. rewrite (page_entry 2 i ltac:(lia) Hi). cbn [Z.eqb Pos.eqb andb]. destruct (i =? 0); reflexivity.
  - intros t p i Hp Hl Hi. apply page_places_cases in Hp as [[-> ->]|[[-> ->]|[[-> ->]|[_ ->]]]]; [..|simpl in Hl; lia].
    + rewrite (page_entry 2 i ltac:(lia) Hi). cbn [Z.eqb Pos.eqb andb]. destruct (i =? 0); [intros _ H; vm_compute in H; discriminate H|intros H; vm_compute in H; discriminate H].
    + rewrite (page_entry 3 i ltac:(lia) Hi). cbn [Z.eqb Pos.eqb andb]. destruct (i =? 0); [intros _ H; vm_compute in H; discriminate H|intros H; vm_compute in H; discriminate H].
    + rewrite (page_entry 4 i ltac:(lia) Hi). cbn [Z.eqb Pos.eqb andb]. destruct (i =? 2); [intros _ H; vm_compute in H; discriminate H|intros H; vm_compute in H; discriminate H].
Qed.

Lemma page_pte x : 0 <= x < USER_SPACE_END -> vmm_get_pte page_vmm (tab 2) x = if page_of x =? 0x400000 then 0x1007 else 0.
Proof.
  intros Hx. rewrite get_pte_entry by done. unfold entry_at, path_of. cbn [descend].
  pose proof (index_range x 39) as I4. pose proof (index_range x 30) as I3. pose proof (index_range x 21) as I2. pose proof (index_range x 12) as I1.
  fold (pml4_index x) in I4. fold (pdpt_index x) in I3. fold (pd_index x) in I2. fold (pt_index x) in I1.
  assert (page_of x = 0x400000 <-> pml4_index x = 0 /\ pdpt_index x = 0 /\ pd_index x = 2 /\ pt_index x = 0) as Hiff.
  { destruct (page_of_indices x ltac:(unfold USER_SPACE_END in *; lia)) as [P1 P2]. split.
    - intros E. rewrite E in P1, P2. unfold path_of in P1. injection P1 as Q4 Q3 Q2. rewrite <- Q4, <- Q3, <- Q2, <- P2. split_and!; reflexivity.
    - intros (E4&E3&E2&E1). change 0x400000 with (page_of 0x400000). apply user_indices; [done|unfold USER_SPACE_END; lia| |].
      + unfold path_of. rewrite E4, E3, E2. reflexivity.
      + rewrite E1. reflexivity. }
  rewrite (page_below 2) by (done || lia). cbn [Z.eqb Pos.eqb Z.add Pos.add Pos.succ].
  destruct (Z.eqb_spec (page_of x) 0x400000) as [E|E].
  - destruct (proj1 Hiff E) as (E4&E3&E2&E1). rewrite E4, E3, E2, E1. vm_compute. reflexivity.
  - destruct (Z.eqb_spec (pml4_index x) 0) as [E4|]; [|reflexivity]. change (tab 3 =? 0) with false. cbn match.
    rewrite (page_below 3) by (done || lia). cbn [Z.eqb Pos.eqb Z.add Pos.add Pos.succ].
    destruct (Z.eqb_spec (pdpt_index x) 0) as [E3|]; [|reflexivity]. change (tab 4 =? 0) with false. cbn match.
    rewrite (page_below 4) by (done || lia). cbn [Z.eqb Pos.eqb Z.add Pos.add Pos.succ].
    destruct (Z.eqb_spec (pd_index x) 2) as [E2|]; [|reflexivity]. change (tab 5 =? 0) with false. cbn match.
    rewrite (page_entry 5) by (done || lia). cbn [Z.eqb Pos.eqb andb]. destruct (Z.eqb_spec (pt_index x) 0) as [E1|]; [|reflexivity].
    destruct E. by apply Hiff.
Qed.

Lemma vmm_swap_pick_correct_witness :
  match vmm_swap_pick page_vmm (tab 2) 0 1 [] with (Some (x, frame, cursor), s') => x mod PAGE_SIZE = 0 /\ tables s' page_places | (None, _) => False end.
Proof.
  pose proof (vmm_swap_pick_correct page_vmm page_places (tab 2) 0 1 [] page_tables eq_refl page_walkable ltac:(discriminate) ltac:(lia) ltac:(lia)) as [_ H].
  assert (match fst (vmm_swap_pick page_vmm (tab 2) 0 1 []) with Some _ => True | None => False end) as Hs by (vm_compute; exact I).
  destruct (vmm_swap_pick page_vmm (tab 2) 0 1 []) as [[[[x frame] cursor]|] s']; [|exact Hs].
  cbn zeta in H. destruct H as (_&Ha&_&_&_&_&_&_&_&T&_). exact (conj Ha T).
Defined.
