(* ===== verification/Swap.v ===== *)
(** Swapping pages out to disk and back: the second half of [src/mm/swap.c]. The
    disk is the words it holds, by byte address; whether a transfer succeeds, and
    what a failed one leaves behind, are arguments. [swap_mutex] is held from
    choosing a page until it is written, and from looking a page up until it is
    back, so each of these is one step. Who asks for room, and the page cache beside it, are
    in [SwapPressure]. *)
From stdpp Require Import base tactics numbers list sets gmap relations.
From Stdlib Require Import ZArith Lia.
From S2P Require Import Prelude Pmm Cow SwapSlots Vmm VmmInv VmmProps VmmSwap.

Open Scope Z_scope.

Definition VIRTIO_BLK_SECTOR_SIZE : Z := 512.
Definition SECTORS_PER_PAGE : Z := PAGE_SIZE / VIRTIO_BLK_SECTOR_SIZE.
Definition SWAP_LOW_FRAMES : Z := 256.
Definition SWAP_HIGH_FRAMES : Z := 320.
Definition FRAME_WAIT_TICKS : Z := 25.

Record swapper := mkSwap { vm : vmm; disk : Z -> Z; pages_out : Z; pages_in : Z }.
Definition with_vm (st : swapper) (v : vmm) : swapper := mkSwap v (disk st) (pages_out st) (pages_in st).
Definition is_active (st : swapper) : bool := active (swap_slots (vm st)).

(** How a transfer goes: if it fails, the target may hold anything. *)
Record io := mkIo { io_ok : bool; io_junk : Z -> Z }.

Definition transfer (r : io) (to from size : Z) (target source : Z -> Z) : Z -> Z :=
  fun x => if (to <=? x) && (x <? to + size) then (if io_ok r then source (from + (x - to)) else io_junk r x) else target x.

Definition virtio_blk_write_dev (r : io) (sector addr count : Z) (st : swapper) : bool * swapper :=
  (io_ok r, mkSwap (vm st) (transfer r (sector * VIRTIO_BLK_SECTOR_SIZE) addr (count * VIRTIO_BLK_SECTOR_SIZE) (disk st) (ram (vm st)))
                   (pages_out st) (pages_in st)).
Definition virtio_blk_read_dev (r : io) (sector addr count : Z) (st : swapper) : bool * swapper :=
  (io_ok r, with_vm st (set_ram (vm st) (transfer r addr (sector * VIRTIO_BLK_SECTOR_SIZE) (count * VIRTIO_BLK_SECTOR_SIZE) (ram (vm st)) (disk st)))).

(** The disk [disk] of [disks], whose first page reads as [header] (or not at all);
    [memory]: [kmalloc] finds some for the table. *)
Definition swap_init (disk disks : Z) (header : option (list Z)) (capacity : Z) (memory : bool) (s : slots) : Z * slots :=
  if active s || (disks <=? disk) then (-1, s)
  else match header with
  | None => (-1, s)
  | Some page =>
      match swap_parse_header page (capacity / SECTORS_PER_PAGE) with
      | None => (-1, s)
      | Some n => if memory then (0, mkSlots true n (replicate (Z.to_nat (n + 1)) 0) n (search_from s)) else (-1, s)
      end
  end.

Definition swap_total_pages (s : slots) : Z := if active s then slot_count s else 0.
Definition swap_free_pages (s : slots) : Z := if active s then slots_free s else 0.

Definition drop_slot (slot : Z) (v : vmm) : vmm := set_slots v (swap_slot_unref slot (swap_slots v)).

(** One round of the loop: whether a page went out, and the cursor. *)
Definition swap_out_round (r : io) (space cursor : Z) (keep : list vmm_range_t) (st : swapper) : bool * Z * swapper :=
  let '(slot, sl) := slot_alloc (swap_slots (vm st)) in
  let v := set_slots (vm st) sl in
  if slot =? 0 then (false, cursor, with_vm st v)
  else match vmm_swap_pick v space cursor slot keep with
  | (None, v) => (false, cursor, with_vm st (drop_slot slot v))
  | (Some (virt, frame, cursor), v) =>
      match virtio_blk_write_dev r (slot * SECTORS_PER_PAGE) (u64 (frame + hhdm v)) SECTORS_PER_PAGE (with_vm st v) with
      | (false, st) => (false, cursor, with_vm st (drop_slot slot (snd (vmm_swap_install (vm st) space virt frame))))
      | (true, st) => (true, cursor, mkSwap (vmm_unref_frame frame (vm st)) (disk st) (u64 (pages_out st + 1)) (pages_in st))
      end
  end.

Fixpoint swap_out_loop (want : nat) (done : Z) (ios : Z -> io) (space cursor : Z) (keep : list vmm_range_t) (st : swapper) : Z * Z * swapper :=
  match want with
  | O => (done, cursor, st)
  | S want' => match swap_out_round (ios done) space cursor keep st with
               | (true, cursor, st) => swap_out_loop want' (done + 1) ios space cursor keep st
               | (false, cursor, st) => (done, cursor, st)
               end
  end.

(** How many went, and the cursor; [ios] says how each transfer goes. *)
Definition swap_out_keeping (ios : Z -> io) (space cursor want : Z) (keep : list vmm_range_t) (st : swapper) : Z * Z * swapper :=
  if negb (is_active st) || (space =? 0) then (0, cursor, st)
  else swap_out_loop (Z.to_nat want) 0 ios space cursor keep st.

Definition swap_out (ios : Z -> io) (space cursor want : Z) (st : swapper) : Z * Z * swapper :=
  swap_out_keeping ios space cursor want [] st.

(** [before]: the address space as it was before waiting for [swap_mutex]. *)
Definition swap_in (before : vmm) (r : io) (space virt : Z) (st : swapper) : Z * swapper :=
  if negb (is_active st) || (space =? 0) then (0, st)
  else
    let virt := page_of virt in
    if negb (vmm_pte_swapped (vmm_get_pte before space virt)) then (0, st)
    else
      let pte := vmm_get_pte (vm st) space virt in
      if negb (vmm_pte_swapped pte) then (1, st)
      else
        let slot := vmm_pte_swap_slot pte in
        let '(frame, v) := if (1 <=? slot) && (slot <=? slot_count (swap_slots (vm st))) then vmm_alloc_frame (vm st) else (0, vm st) in
        if frame =? 0 then (-1, with_vm st v)
        else
          let '(ok, st) := virtio_blk_read_dev r (slot * SECTORS_PER_PAGE) (u64 (frame + hhdm v)) SECTORS_PER_PAGE (with_vm st v) in
          let '(ok, v) := if ok then vmm_swap_install (vm st) space virt frame else (false, vm st) in
          if ok then (1, mkSwap (drop_slot slot v) (disk st) (pages_out st) (u64 (pages_in st + 1)))
          else (-1, with_vm st (vmm_free_frame frame v)).

(** * When pages go *)

(** The current task and what its process keeps for swapping; [keep_ranges] is what
    [process_keep_ranges] returns, [None] if there were more than could be recorded. *)
Record task := mkTask {
  is_user : bool; call_ranges_full : bool; pml4_phys : Z; keep_ranges : option (list vmm_range_t); swap_cursor : Z; swap_retry_below : Z }.
Definition set_cursor (t : task) (c : Z) : task :=
  mkTask (is_user t) (call_ranges_full t) (pml4_phys t) (keep_ranges t) c (swap_retry_below t).
Definition set_retry (t : task) (n : Z) : task :=
  mkTask (is_user t) (call_ranges_full t) (pml4_phys t) (keep_ranges t) (swap_cursor t) n.

Definition give_pages_up (ios : Z -> io) (t : task) (want : Z) (st : swapper) : Z * task * swapper :=
  match keep_ranges t with
  | Some keep =>
      let '(done, cursor, st) := swap_out_keeping ios (vmm_space_from_phys (vm st) (pml4_phys t)) (swap_cursor t) want keep st in
      (done, set_cursor t cursor, st)
  | None => (0, t, st)
  end.

Definition free_now (st : swapper) : Z := free_frames (frames (owned (vm st))).

Definition swap_make_room_for_call (ios : Z -> io) (t : task) (st : swapper) : Z * task * swapper :=
  if negb (is_active st) || negb (is_user t) || call_ranges_full t then (0, t, st)
  else give_pages_up ios t (if free_now st <? SWAP_HIGH_FRAMES then SWAP_HIGH_FRAMES - free_now st else 1) st.

(** * What a process sees *)

(** Where a page is, by its entry. *)
Inductive location := InFrame (f : Z) | OnDevice (f : Z) | InSlot (j : Z).
#[export] Instance location_eq_dec : EqDecision location.
Proof. solve_decision. Defined.

Definition where_is (e : Z) : option location :=
  if has e VMM_PRESENT then
    Some (if has e VMM_DEVICE then OnDevice (Z.land e PTE_ADDR_MASK / PAGE_SIZE) else InFrame (Z.land e PTE_ADDR_MASK / PAGE_SIZE))
  else if vmm_pte_swapped e then Some (InSlot (vmm_pte_swap_slot e)) else None.

Definition word_at (st : swapper) (w : location) (off : Z) : Z :=
  match w with
  | InFrame f | OnDevice f => ram (vm st) (f * PAGE_SIZE + hhdm (vm st) + off)
  | InSlot j => disk st (j * PAGE_SIZE + off)
  end.

(** A word of the page at [x] of an address space, wherever it is now. *)
Definition page_word (st : swapper) (root x off : Z) : option Z :=
  (fun w => word_at st w off) <$> where_is (vmm_get_pte (vm st) root x).

(** Both states show the same pages with the same rights. *)
Definition shows_same (pl : gmap Z place) (st st' : swapper) : Prop :=
  forall root x, is_root pl root -> 0 <= x < USER_SPACE_END -> x mod PAGE_SIZE = 0 ->
    (forall off, 0 <= off < PAGE_SIZE -> page_word st' root x off = page_word st root x off) /\
    Z.land (vmm_get_pte (vm st') root x) RIGHTS = Z.land (vmm_get_pte (vm st) root x) RIGHTS.

#[export] Instance shows_same_preorder pl : PreOrder (shows_same pl).
Proof.
  split; [by intros st root x|]. intros s1 s2 s3 H12 H23 root x Hr Hx Ha. destruct (H12 root x Hr Hx Ha) as [A1 A2], (H23 root x Hr Hx Ha) as [B1 B2].
  split; [|congruence]. intros off Hoff. by rewrite B1, A1.
Qed.

(** * Invariant *)

(** How many pages are at [w]. *)
Definition uses (pg : gmap (Z * Z) location) (w : location) : Z := Z.of_nat (size (filter (fun kv => kv.2 = w) pg)).

Lemma uses_delete pg k w : uses pg w = uses (delete k pg) w + (if decide (pg !! k = Some w) then 1 else 0).
Proof.
  unfold uses. destruct (pg !! k) as [w'|] eqn:E; [|rewrite delete_id by done; rewrite decide_False by done; lia].
  rewrite <- (insert_delete_id pg k w' E) at 1. rewrite map_filter_insert. cbn [snd].
  case_decide as H1; case_decide as H2; try congruence.
  - rewrite map_size_insert_None; [lia|]. apply map_lookup_filter_None_2. left. apply lookup_delete_eq.
  - by rewrite delete_delete_eq, Z.add_0_r.
Qed.

Lemma uses_insert pg k w w' :
  uses (<[k := w]> pg) w' = uses pg w' + (if decide (w = w') then 1 else 0) - (if decide (pg !! k = Some w') then 1 else 0).
Proof.
  rewrite (uses_delete (<[k := w]> pg) k w'), (uses_delete pg k w'), delete_insert_eq, lookup_insert_eq.
  repeat case_decide; simplify_eq; congruence || lia.
Qed.

Lemma uses_pos pg k w : pg !! k = Some w -> 1 <= uses pg w.
Proof. intros E. rewrite (uses_delete pg k w), decide_True by done. unfold uses. lia. Qed.

Lemma uses_two pg k k' w : pg !! k = Some w -> pg !! k' = Some w -> k <> k' -> 2 <= uses pg w.
Proof.
  intros E E' Hne. rewrite (uses_delete pg k w), decide_True by done. pose proof (uses_pos (delete k pg) k' w).
  rewrite lookup_delete_ne in H by done. specialize (H E'). lia.
Qed.

Lemma uses_some pg w : 0 < uses pg w -> exists k, pg !! k = Some w.
Proof.
  unfold uses. intros Hs. destruct (map_choose (filter (fun kv => kv.2 = w) pg)) as (k&w'&Hk).
  { intros E. rewrite E, map_size_empty in Hs. lia. }
  apply map_lookup_filter_Some in Hk as [Hk Hw]. cbn in Hw. subst w'. by exists k.
Qed.

(** The pages of all address spaces, [pg], and what keeps their memory: a frame or
    a slot has at least as many owners as pages in it. *)
Record swap_inv (pl : gmap Z place) (pg : gmap (Z * Z) location) (st : swapper) : Prop := {
  sw_tables : tables (vm st) pl;
  sw_slots : slots_ok (swap_slots (vm st));
  sw_walk : forall root, is_root pl root -> walkable (vm st) pl root;
  sw_map : forall root x, is_root pl root -> 0 <= x < USER_SPACE_END -> x mod PAGE_SIZE = 0 ->
    where_is (vmm_get_pte (vm st) root x) = pg !! (root, x);
  sw_device : forall root x, is_root pl root -> 0 <= x < USER_SPACE_END -> x mod PAGE_SIZE = 0 ->
    has (vmm_get_pte (vm st) root x) VMM_DEVICE = true ->
    has (vmm_get_pte (vm st) root x) VMM_SHARED = true /\ vmm_pte_swapped (vmm_get_pte (vm st) root x) = false;
  sw_frame : forall k f, pg !! k = Some (InFrame f) -> 1 <= f < total_frames (frames (owned (vm st)));
  sw_memory : forall k f, pg !! k = Some (InFrame f) \/ pg !! k = Some (OnDevice f) ->
    0 <= f /\ f ∉ abs (frames (owned (vm st))) /\ pl !! (f * PAGE_SIZE + hhdm (vm st)) = None;
  sw_apart : forall k k' f, pg !! k = Some (InFrame f) -> pg !! k' <> Some (OnDevice f);
  sw_owners : forall f, 0 <= f -> uses pg (InFrame f) <= owners (owned (vm st)) f;
  sw_slot : forall k j, pg !! k = Some (InSlot j) -> 1 <= j <= slot_count (swap_slots (vm st));
  sw_slot_owners : forall j, 0 <= j -> uses pg (InSlot j) <= get (slot_owners (swap_slots (vm st))) j }.

Lemma pte_slots pl v sl root x : tables v pl -> is_root pl root -> vmm_get_pte (set_slots v sl) root x = vmm_get_pte v root x.
Proof. intros Ht Hr. destruct (table_addr _ _ _ _ Ht Hr). apply pte_ext; [lia|done|done]. Qed.

(** Only slots differ, and those in use keep their owners. *)
Lemma inv_slots pl pg st sl : swap_inv pl pg st -> slots_ok sl -> slot_count sl = slot_count (swap_slots (vm st)) ->
  (forall j, 0 <= j -> uses pg (InSlot j) <= get (slot_owners sl) j) ->
  swap_inv pl pg (with_vm st (set_slots (vm st) sl)).
Proof.
  intros [K1 K2 K3 K4 K5 K6 K7 Ka K8 K9 K10] Hs Hc Ho. split; try done.
  - by destruct K1.
  - intros root Hr. by destruct (K3 root Hr).
  - intros root x Hr. cbn [vm with_vm]. rewrite (pte_slots pl); [by apply K4|done|done].
  - intros root x Hr. cbn [vm with_vm]. rewrite (pte_slots pl); [by apply K5|done|done].
  - intros k j. cbn. rewrite Hc. apply K9.
Qed.

Lemma shows_slots pl st sl : tables (vm st) pl -> shows_same pl st (with_vm st (set_slots (vm st) sl)).
Proof. intros Ht root x Hr Hx Hxa. unfold page_word. cbn [vm with_vm]. by rewrite (pte_slots pl). Qed.

Lemma where_aged e e' : aged e e' -> where_is e' = where_is e.
Proof.
  intros Ha. unfold where_is, vmm_pte_swapped, vmm_pte_swap_slot. by rewrite !(aged_has e e'), !(aged_land e e') by done.
Qed.

(** Accessed bits. *)
Lemma inv_aged pl pg st v : swap_inv pl pg st -> only_aged pl (vm st) v -> swap_inv pl pg (with_vm st v) /\ shows_same pl st (with_vm st v).
Proof.
  intros [K1 K2 K3 K4 K5 K6 K7 Ka K8 K9 K10] Ha. destruct (oa_rest _ _ _ Ha) as (R1&R2&R3). pose proof (hhdm_owned _ _ R1) as Hh. split.
  - split; cbn [vm with_vm]; rewrite ?R1, ?R2, ?Hh; try done.
    + apply (oa_tables _ _ _ Ha).
    + intros root Hr. apply (walkable_same (vm st)); [done|apply (oa_upper _ _ _ Ha)|done|by apply K3].
    + intros root x Hr Hx Hxa. rewrite (where_aged _ _ (oa_pte _ _ _ Ha root x Hr)). by apply K4.
    + intros root x Hr Hx Hxa. unfold vmm_pte_swapped. rewrite !(aged_has _ _ _ (oa_pte _ _ _ Ha root x Hr)) by done. by apply K5.
  - intros root x Hr Hx Hxa. pose proof (oa_pte _ _ _ Ha root x Hr) as He. split; [|by apply (aged_land _ _ _ He)].
    intros off Hoff. unfold page_word. cbn [vm with_vm]. rewrite (where_aged _ _ He), (K4 root x Hr Hx Hxa).
    destruct (pg !! (root, x)) as [[f|f|j]|] eqn:E; try done; cbn; f_equal; rewrite Hh; apply (oa_data _ _ _ Ha); try done; eapply (K7 (root, x)); auto.
Qed.

Lemma rights_has e e' flag : Z.land e' RIGHTS = Z.land e RIGHTS -> Z.land RIGHTS flag = flag -> has e' flag = has e flag.
Proof. intros He Hf. unfold has. rewrite <- Hf, !Z.land_assoc. by rewrite He. Qed.

(** One page moves from [w] to [w'] and keeps its contents and rights; all others
    stay where and as they are. *)
Lemma relocate pl pg st st' root x w w' :
  let pg' := <[(root, x) := w']> pg in
  swap_inv pl pg st -> is_root pl root -> 0 <= x < USER_SPACE_END -> x mod PAGE_SIZE = 0 -> pg !! (root, x) = Some w ->
  tables (vm st') pl -> slots_ok (swap_slots (vm st')) -> upper_same (vm st) (vm st') pl ->
  hhdm (vm st') = hhdm (vm st) /\ total_frames (frames (owned (vm st'))) = total_frames (frames (owned (vm st))) /\
    slot_count (swap_slots (vm st')) = slot_count (swap_slots (vm st)) ->
  (forall root' x', is_root pl root' -> ~ same_slot root x root' x' -> vmm_get_pte (vm st') root' x' = vmm_get_pte (vm st) root' x') ->
  where_is (vmm_get_pte (vm st') root x) = Some w' ->
  Z.land (vmm_get_pte (vm st') root x) RIGHTS = Z.land (vmm_get_pte (vm st) root x) RIGHTS ->
  has (vmm_get_pte (vm st) root x) VMM_DEVICE = false ->
  match w' with
  | InFrame f => 1 <= f < total_frames (frames (owned (vm st))) /\ f ∉ abs (frames (owned (vm st'))) /\ pl !! (f * PAGE_SIZE + hhdm (vm st)) = None /\
      forall k, pg !! k <> Some (OnDevice f)
  | OnDevice _ => False
  | InSlot j => 1 <= j <= slot_count (swap_slots (vm st))
  end ->
  (forall f, 0 <= f -> uses pg' (InFrame f) <= owners (owned (vm st')) f) ->
  (forall j, 0 <= j -> uses pg' (InSlot j) <= get (slot_owners (swap_slots (vm st'))) j) ->
  (forall k f, k <> (root, x) -> pg !! k = Some (InFrame f) \/ pg !! k = Some (OnDevice f) -> f ∉ abs (frames (owned (vm st')))) ->
  (forall off, 0 <= off < PAGE_SIZE -> word_at st' w' off = word_at st w off) ->
  (forall k w0 off, k <> (root, x) -> pg !! k = Some w0 -> 0 <= off < PAGE_SIZE -> word_at st' w0 off = word_at st w0 off) ->
  swap_inv pl pg' st' /\ shows_same pl st st'.
Proof.
  intros pg' [K1 K2 K3 K4 K5 K6 K7 Ka K8 K9 K10] Hr Hx Hxa Hw T S U (Hh&Ht&Hc) Hpte Hnew Hri Hdev Hw' Ho Hso Hab Hc1 Hc2.
  assert (forall root' x', is_root pl root' -> 0 <= x' < USER_SPACE_END -> x' mod PAGE_SIZE = 0 -> (root', x') <> (root, x) ->
    ~ same_slot root x root' x') as Hns.
  { intros root' x' Hr' Hx' Hxa' Hne (H1&H2&[->|H3]); [|pose proof (user_index_low x Hx); lia]. apply Hne. f_equal.
    pose proof (user_indices x x' Hx Hx' H1 H2) as He. rewrite !page_of_eq in He by (unfold USER_SPACE_END in *; lia). unfold PAGE_SIZE in *. lia. }
  assert (forall k, k <> (root, x) -> pg' !! k = pg !! k) as Hpg by (intros k Hk; by apply lookup_insert_ne).
  split.
  - split; try done.
    + intros r Hr'. apply (walkable_same (vm st)); [done..|by apply K3].
    + intros r y Hr' Hy Hya. destruct (decide ((r, y) = (root, x))) as [[= -> ->]|Hne]; [by unfold pg'; rewrite lookup_insert_eq|].
      rewrite Hpte, Hpg by (done || by apply Hns). by apply K4.
    + intros r y Hr' Hy Hya. destruct (decide ((r, y) = (root, x))) as [[= -> ->]|Hne].
      * by rewrite (rights_has _ _ VMM_DEVICE Hri), Hdev by done.
      * rewrite Hpte by (done || by apply Hns). by apply K5.
    + intros k f E. rewrite Ht. destruct (decide (k = (root, x))) as [->|Hne]; [|rewrite Hpg in E by done; by eapply K6].
      unfold pg' in E. rewrite lookup_insert_eq in E. simplify_eq. apply Hw'.
    + intros k f E. rewrite Hh. destruct (decide (k = (root, x))) as [->|Hne].
      * unfold pg' in E. rewrite lookup_insert_eq in E. destruct E; simplify_eq; [|done]. destruct Hw' as (H1&H2&H3&_). split; [lia|done].
      * rewrite !Hpg in E by done. destruct (K7 k f E) as (H1&H2&H3). split_and!; [done|by eapply Hab|done].
    + intros k k' f E E'. destruct (decide (k = (root, x))) as [->|Hne]; [|rewrite Hpg in E by done];
        (destruct (decide (k' = (root, x))) as [->|Hne']; [|rewrite Hpg in E' by done]); unfold pg' in *; rewrite ?lookup_insert_eq in *; simplify_eq; try done.
      * destruct Hw' as (_&_&_&Hw'). by apply (Hw' k').
      * by apply (Ka k k' f).
    + intros k j E. rewrite Hc. destruct (decide (k = (root, x))) as [->|Hne]; [|rewrite Hpg in E by done; by eapply K9].
      unfold pg' in E. rewrite lookup_insert_eq in E. by simplify_eq.
  - intros r y Hr' Hy Hya. destruct (decide ((r, y) = (root, x))) as [[= -> ->]|Hne].
    + split; [|done]. intros off Hoff. unfold page_word. rewrite Hnew, K4, Hw by done. cbn. f_equal. by apply Hc1.
    + rewrite Hpte by (done || by apply Hns). split; [|done]. intros off Hoff. unfold page_word. rewrite Hpte by (done || by apply Hns).
      rewrite K4 by done. destruct (pg !! (r, y)) as [w0|] eqn:E; [|done]. cbn. f_equal. by apply (Hc2 (r, y)).
Qed.

(** Nothing changes for the pages. *)
Lemma background pl pg st st' :
  swap_inv pl pg st -> tables (vm st') pl -> swap_slots (vm st') = swap_slots (vm st) -> upper_same (vm st) (vm st') pl ->
  hhdm (vm st') = hhdm (vm st) /\ total_frames (frames (owned (vm st'))) = total_frames (frames (owned (vm st))) ->
  (forall root x, is_root pl root -> vmm_get_pte (vm st') root x = vmm_get_pte (vm st) root x) ->
  (forall k f, pg !! k = Some (InFrame f) \/ pg !! k = Some (OnDevice f) -> owners (owned (vm st')) f = owners (owned (vm st)) f) ->
  (forall k w off, pg !! k = Some w -> 0 <= off < PAGE_SIZE -> word_at st' w off = word_at st w off) ->
  swap_inv pl pg st' /\ shows_same pl st st'.
Proof.
  intros [K1 K2 K3 K4 K5 K6 K7 Ka K8 K9 K10] T S U (Hh&Ht) Hpte Ho Hw.
  split.
  - split; rewrite ?S, ?Hh, ?Ht; try done.
    + intros r Hr'. apply (walkable_same (vm st)); [done..|by apply K3].
    + intros r y Hr' Hy Hya. rewrite Hpte by done. by apply K4.
    + intros r y Hr' Hy Hya. rewrite Hpte by done. by apply K5.
    + intros k f E. destruct (K7 k f E) as (H1&H2&H3). split_and!; [done| |done]. apply owners_used. rewrite (Ho k f E).
      unfold owners. rewrite bool_decide_false by done. pose proof (co_range _ (tb_cow _ _ K1) f H1). lia.
    + intros f Hf. destruct (decide (uses pg (InFrame f) = 0)) as [E|E].
      * rewrite E. unfold owners. pose proof (co_range _ (tb_cow _ _ T) f Hf). case_bool_decide; lia.
      * destruct (uses_some pg (InFrame f)) as [k Hk]; [unfold uses in *; lia|]. rewrite (Ho k f) by auto. by apply K8.
  - intros r y Hr' Hy Hya. rewrite Hpte by done. split; [|done]. intros off Hoff. unfold page_word. rewrite Hpte, K4 by done.
    destruct (pg !! (r, y)) as [w0|] eqn:E; [|done]. cbn. f_equal. by apply (Hw (r, y)).
Qed.

(** * Slots *)

Lemma slot_unref_at sl slot : slots_ok sl -> 1 <= slot <= slot_count sl -> 1 <= get (slot_owners sl) slot ->
  slots_ok (swap_slot_unref slot sl) /\ slot_count (swap_slot_unref slot sl) = slot_count sl /\
  forall j, 0 <= j -> get (slot_owners (swap_slot_unref slot sl)) j = get (slot_owners sl) j - (if j =? slot then 1 else 0).
Proof.
  intros Hs Hr Hn. pose proof (so_count sl Hs). destruct (slot_refs_spec sl slot Hs ltac:(lia)) as (_&A&B). split; [done|]. split.
  - unfold swap_slot_unref. destruct (bad_slot sl slot); [done|]. by destruct (negb _).
  - rewrite (proj2 (Z.leb_le 1 slot)), (proj2 (Z.leb_le slot _)), (proj2 (Z.eqb_neq _ 0)) in B by lia. cbn [andb negb] in B.
    destruct B as (_&B1&_&B2). intros j Hj. destruct (Z.eqb_spec j slot) as [->|Hne]; [done|]. rewrite (proj2 (B2 j Hj Hne)). lia.
Qed.

Lemma slots_free_same sl sl' : slots_ok sl -> slots_ok sl' -> slot_count sl' = slot_count sl -> slot_owners sl' = slot_owners sl ->
  slots_free sl = 0 -> slots_free sl' = 0.
Proof.
  intros K K' Hc Ho <-. rewrite (so_free _ K'), (so_free _ K), Hc. apply count_below_ext. intros i Hi. unfold slot_free. by rewrite Ho.
Qed.

Lemma mask_div e : Z.land e PTE_ADDR_MASK = Z.land e PTE_ADDR_MASK / PAGE_SIZE * PAGE_SIZE.
Proof.
  assert (Z.land e PTE_ADDR_MASK mod PAGE_SIZE = 0) as Hm.
  { change PAGE_SIZE with (2 ^ 12). rewrite <- Z.land_ones by lia. rewrite <- Z.land_assoc. change (Z.land PTE_ADDR_MASK (Z.ones 12)) with 0. apply Z.land_0_r. }
  unfold PAGE_SIZE in *. zlia.
Qed.

(** * One page out *)

Lemma install_spec v pl root x frame : tables v pl -> is_root pl root -> 0 <= x < USER_SPACE_END -> x mod PAGE_SIZE = 0 ->
  vmm_pte_swapped (vmm_get_pte v root x) = true ->
  descend v root (path_of x) <> 0 /\
  vmm_swap_install v root x frame = (true, set_entry v (descend v root (path_of x)) (pt_index x) (in_entry (vmm_get_pte v root x) frame)).
Proof.
  intros Ht Hr Hx Hxa Hs. destruct (table_addr _ _ _ _ Ht Hr) as [Hr0 _]. rewrite get_pte_entry in Hs |- * by lia.
  unfold vmm_swap_install. rewrite (proj2 (Z.eqb_neq root 0)), (proj2 (Z.leb_gt USER_SPACE_END x)) by lia. cbn [orb].
  assert (page_of x = x) as -> by (rewrite page_of_eq by (unfold USER_SPACE_END in *; lia); change 4096 with PAGE_SIZE; lia).
  rewrite walk_pte_slot. cbn zeta. unfold entry_at in *. destruct (Z.eqb_spec (descend v root (path_of x)) 0) as [E|Hpt]; [done|]. split; [done|].
  destruct (descend_place v pl Ht (path_of x) root (root, []) Hr ltac:(simpl; lia) (path_of_ok x) Hpt) as (o&Hp&_).
  destruct (table_addr _ _ _ _ Ht Hp) as [Hpt0 _]. pose proof (index_range x 12) as [? _]. fold (pt_index x) in *.
  rewrite (proj2 (Z.eqb_neq (slot_at _ _) 0)) by (unfold slot_at; lia). unfold entry in Hs. rewrite Hs. done.
Qed.

Lemma install_rest v root x frame : let v' := snd (vmm_swap_install v root x frame) in
  kernel_pml4 v' = kernel_pml4 v /\ owned v' = owned v /\ swap_slots v' = swap_slots v.
Proof. unfold vmm_swap_install. destruct (_ || _); [done|]. by destruct (_ && _). Qed.

(** A page that may go is alone in its frame. *)
Lemma may_go_alone pl pg st root x keep : swap_inv pl pg st -> is_root pl root -> 0 <= x < USER_SPACE_END -> x mod PAGE_SIZE = 0 ->
  may_go (vm st) root keep x = true ->
  exists f, Z.land (vmm_get_pte (vm st) root x) PTE_ADDR_MASK = f * PAGE_SIZE /\ pg !! (root, x) = Some (InFrame f) /\
    1 <= f < total_frames (frames (owned (vm st))) /\ f ∉ abs (frames (owned (vm st))) /\ pl !! (f * PAGE_SIZE + hhdm (vm st)) = None /\
    owners (owned (vm st)) f = 1 /\ has (vmm_get_pte (vm st) root x) VMM_DEVICE = false /\ forall k, k <> (root, x) -> pg !! k <> Some (InFrame f).
Proof.
  intros K Hr Hx Hxa Hg. unfold may_go in Hg. set (e := vmm_get_pte (vm st) root x) in *. rewrite !andb_true_iff, !negb_true_iff, Z.eqb_eq in Hg.
  destruct Hg as ((((G1&G2)&G3)&G4)&_). assert (has e VMM_DEVICE = false) as Hd.
  { destruct (has e VMM_DEVICE) eqn:E; [|done]. destruct (sw_device _ _ _ K root x Hr Hx Hxa E) as [Hs _]. fold e in Hs. congruence. }
  pose proof (sw_map _ _ _ K root x Hr Hx Hxa) as Hm. fold e in Hm. unfold where_is in Hm. rewrite G1, Hd in Hm. symmetry in Hm.
  set (f := Z.land e PTE_ADDR_MASK / PAGE_SIZE) in *. exists f. rewrite (mask_div e) in G4 |- *. fold f in G4 |- *.
  pose proof (sw_frame _ _ _ K _ _ Hm) as Hf. destruct (sw_memory _ _ _ K _ _ (or_introl Hm)) as (_&Hu&Hn).
  rewrite (frame_ref_owners (vm st) pl f (sw_tables _ _ _ K) Hf Hu) in G4. split_and!; try done; [lia|lia|].
  intros k Hk E. pose proof (uses_two pg (root, x) k (InFrame f) Hm E (not_eq_sym Hk)). pose proof (sw_owners _ _ _ K f ltac:(lia)). lia.
Qed.

Lemma used_owners c f : cow_ok c -> 0 <= f -> f ∉ abs (frames c) <-> 1 <= owners c f.
Proof.
  intros Hc Hf. split; [|apply owners_used]. intros Hn. unfold owners. rewrite bool_decide_false by done. pose proof (co_range c Hc f Hf). lia.
Qed.

Lemma page_transfer r j addr target source x :
  transfer r (j * SECTORS_PER_PAGE * VIRTIO_BLK_SECTOR_SIZE) addr (SECTORS_PER_PAGE * VIRTIO_BLK_SECTOR_SIZE) target source x =
  transfer r (j * PAGE_SIZE) addr PAGE_SIZE target source x.
Proof. change (SECTORS_PER_PAGE) with 8. unfold VIRTIO_BLK_SECTOR_SIZE, PAGE_SIZE. f_equal; lia. Qed.

Lemma page_transfer_from r to j target source x :
  transfer r to (j * SECTORS_PER_PAGE * VIRTIO_BLK_SECTOR_SIZE) (SECTORS_PER_PAGE * VIRTIO_BLK_SECTOR_SIZE) target source x =
  transfer r to (j * PAGE_SIZE) PAGE_SIZE target source x.
Proof. change (SECTORS_PER_PAGE) with 8. unfold VIRTIO_BLK_SECTOR_SIZE, PAGE_SIZE. f_equal; lia. Qed.

Lemma transfer_in r to from size target source off : 0 <= off < size -> io_ok r = true -> transfer r to from size target source (to + off) = source (from + off).
Proof.
  intros Ho Hr. unfold transfer. rewrite (proj2 (Z.leb_le _ _)), (proj2 (Z.ltb_lt _ _)), Hr by lia. cbn. f_equal. lia.
Qed.

Lemma transfer_out r to from size target source x : ~ (to <= x < to + size) -> transfer r to from size target source x = target x.
Proof. intros Hx. unfold transfer. destruct (Z.leb_spec to x), (Z.ltb_spec x (to + size)); lia || done. Qed.

(** The page [x] of [root] goes to [slot], which no page uses: the entry is in
    place, and the disk has been told to write. *)
Section out.
Context (pl : gmap Z place) (pg : gmap (Z * Z) location) (st : swapper) (r : io) (root x slot : Z) (keep : list vmm_range_t).
Hypothesis K : swap_inv pl pg st.
Hypothesis Hr : is_root pl root.
Hypothesis Hx : 0 <= x < USER_SPACE_END.
Hypothesis Hxa : x mod PAGE_SIZE = 0.
Hypothesis Hgo : may_go (vm st) root keep x = true.
Hypothesis Hslot : 1 <= slot <= slot_count (swap_slots (vm st)).
Hypothesis Hfree : uses pg (InSlot slot) = 0.
Hypothesis Hone : get (slot_owners (swap_slots (vm st))) slot = 1.
Hypothesis Hpt : descend (vm st) root (path_of x) <> 0.

Let e := vmm_get_pte (vm st) root x.
Let v := set_entry (vm st) (descend (vm st) root (path_of x)) (pt_index x) (out_entry e slot).
Let frame := Z.land e PTE_ADDR_MASK.
Let d := transfer r (slot * SECTORS_PER_PAGE * VIRTIO_BLK_SECTOR_SIZE) (u64 (frame + hhdm v)) (SECTORS_PER_PAGE * VIRTIO_BLK_SECTOR_SIZE) (disk st) (ram v).

Lemma other_words v' f k w0 off : pg !! (root, x) = Some (InFrame f) -> hhdm v' = hhdm (vm st) -> data_same (vm st) v' pl ->
  pg !! k = Some w0 -> 0 <= off < PAGE_SIZE -> forall n m, word_at (mkSwap v' d n m) w0 off = word_at st w0 off.
Proof.
  intros Hm Hh Hd Hk Hoff n m. destruct w0 as [g|g|j]; cbn [word_at vm disk].
  - rewrite Hh. apply Hd; [|done]. by apply (sw_memory _ _ _ K k g (or_introl Hk)).
  - rewrite Hh. apply Hd; [|done]. by apply (sw_memory _ _ _ K k g (or_intror Hk)).
  - unfold d. rewrite page_transfer. apply transfer_out. assert (j <> slot) by (intros ->; pose proof (uses_pos pg k _ Hk); lia).
    unfold PAGE_SIZE in *. nia.
Qed.

Lemma page_out_written : io_ok r = true -> forall n m,
  swap_inv pl (<[(root, x) := InSlot slot]> pg) (mkSwap (vmm_unref_frame frame v) d n m) /\ shows_same pl st (mkSwap (vmm_unref_frame frame v) d n m).
Proof.
  intros Hok n m. destruct (may_go_alone pl pg st root x keep K Hr Hx Hxa Hgo) as (f&F1&F2&F3&F4&F5&F6&F7&F8). fold e in F1, F7.
  unfold frame in *. rewrite F1 in *. pose proof (sw_tables _ _ _ K) as Ht. pose proof (so_count _ (sw_slots _ _ _ K)).
  destruct (set_page_leaf (vm st) pl root x (out_entry e slot) Ht Hr Hpt) as (L1&L2&L3&L4&L5&L6). fold v in L1, L2, L3, L4, L5, L6.
  destruct (out_entry_spec e slot ltac:(lia)) as (O1&O2&O3&O4).
  assert (hhdm v = hhdm (vm st)) as Hhv by done. pose proof (unref_hhdm (f * PAGE_SIZE) (owned v)) as Hh'.
  destruct (unref_frame_spec (owned v) f (tb_cow _ _ L1) F3 F4) as (U1&U2&U3&U4).
  assert (forall r' y, is_root pl r' -> vmm_get_pte (vmm_unref_frame (f * PAGE_SIZE) v) r' y = vmm_get_pte v r' y) as Hpe.
  { intros r' y Hr'. destruct (table_addr _ _ _ _ Ht Hr'). apply pte_ext; [lia|done|done]. }
  apply (relocate pl pg st _ root x (InFrame f) (InSlot slot)); try done; cbn [vm].
  - by apply unref_tables.
  - by apply (sw_slots _ _ _ K).
  - intros r' y Hr' Hns. rewrite Hpe by done. by apply L3.
  - rewrite Hpe, L2 by done. unfold where_is. by rewrite O1, O2, O3.
  - rewrite Hpe, L2 by done. done.
  - intros g Hg. rewrite uses_insert, F2. pose proof (sw_owners _ _ _ K g Hg). destruct (decide (g = f)) as [->|Hgf].
    + change (owners (pmm_unref_frame (f * PAGE_SIZE) (owned v)) f) with (owners (pmm_unref_frame (f * PAGE_SIZE) (owned v)) f).
      rewrite (decide_False (P := InSlot slot = InFrame f)), decide_True by done. cbn [owned vmm_unref_frame set_owned]. change (owned v) with (owned (vm st)) in *. lia.
    + rewrite !decide_False by congruence. cbn [owned vmm_unref_frame set_owned]. rewrite U4 by done. change (owned v) with (owned (vm st)). lia.
  - intros j Hj. rewrite uses_insert, F2. rewrite (decide_False (P := Some _ = Some _)) by done. cbn [swap_slots vmm_unref_frame set_owned].
    change (swap_slots v) with (swap_slots (vm st)). destruct (decide (InSlot slot = InSlot j)) as [[= <-]|]; [lia|]. pose proof (sw_slot_owners _ _ _ K j Hj). lia.
  - intros k g Hk Hkg. destruct (sw_memory _ _ _ K k g Hkg) as (G1&G2&_). assert (g <> f) as Hgf.
    { intros ->. destruct Hkg as [Hkg|Hkg]; [by apply (F8 k)|by apply (sw_apart _ _ _ K (root, x) k f)]. }
    cbn [owned vmm_unref_frame set_owned]. apply used_owners; [done|done|]. rewrite U4 by done. apply used_owners; [apply L1|done|done].
  - intros off Hoff. cbn [word_at disk]. unfold d. rewrite page_transfer, transfer_in by done. rewrite Hhv, F1.
    rewrite u64_small by (destruct (tb_hhdm _ _ Ht) as (?&?&?); unfold PAGE_SIZE in *; lia). by apply L5.
  - intros k w0 off Hk Hw Hoff. by apply (other_words _ f k).
Qed.

Lemma page_out_failed n m :
  let st' := mkSwap (drop_slot slot (snd (vmm_swap_install v root x frame))) d n m in
  swap_inv pl (<[(root, x) := InFrame (frame / PAGE_SIZE)]> pg) st' /\ shows_same pl st st'.
Proof.
  destruct (may_go_alone pl pg st root x keep K Hr Hx Hxa Hgo) as (f&F1&F2&F3&F4&F5&F6&F7&F8). fold e in F1, F7.
  cbn zeta. unfold frame in *. rewrite F1 in *. rewrite Z.div_mul by done. pose proof (sw_tables _ _ _ K) as Ht. pose proof (so_count _ (sw_slots _ _ _ K)).
  destruct (set_page_leaf (vm st) pl root x (out_entry e slot) Ht Hr Hpt) as (L1&L2&L3&L4&L5&L6). fold v in L1, L2, L3, L4, L5, L6.
  destruct (out_entry_spec e slot ltac:(lia)) as (O1&O2&O3&O4).
  destruct (install_spec v pl root x (f * PAGE_SIZE) L1 Hr Hx Hxa ltac:(by rewrite L2)) as (I1&->). rewrite L2. cbn [snd].
  set (e2 := in_entry (out_entry e slot) (f * PAGE_SIZE)). set (v2 := set_entry v _ _ e2).
  destruct (set_page_leaf v pl root x e2 L1 Hr I1) as (M1&M2&M3&M4&M5&M6). fold v2 in M1, M2, M3, M4, M5, M6.
  pose proof (tb_phys _ _ Ht). destruct (in_entry_spec (out_entry e slot) f ltac:(lia)) as (J1&J2&J3). fold e2 in J1, J2, J3.
  destruct (slot_unref_at (swap_slots (vm st)) slot (sw_slots _ _ _ K) Hslot ltac:(lia)) as (S1&S2&S3).
  assert (data_same (vm st) v2 pl) as Hdata by (intros g off H1 H2; transitivity (ram v (g * PAGE_SIZE + hhdm (vm st) + off)); [by apply (M5 g off)|by apply L5]).
  apply (relocate pl pg st _ root x (InFrame f) (InFrame f)); try done; cbn [vm].
  - by destruct M1.
  - intros t p i H1 H2 H3. change (entry (drop_slot slot v2) t i) with (entry v2 t i). rewrite (M4 t p i) by done. by apply (L4 t p i).
  - intros r' y Hr' Hns. unfold drop_slot. rewrite (pte_slots pl) by done. rewrite M3 by done. by apply L3.
  - unfold drop_slot. rewrite (pte_slots pl), M2 by done. unfold where_is. rewrite J1, J2, Z.div_mul by done.
    rewrite (rights_has _ _ VMM_DEVICE J3), (rights_has _ _ VMM_DEVICE O4), F7 by done. done.
  - unfold drop_slot. rewrite (pte_slots pl), M2 by done. by rewrite J3, O4.
  - split_and!; try done; [lia|lia|]. intros k. by apply (sw_apart _ _ _ K (root, x)).
  - intros g Hg. rewrite insert_id by done. by apply (sw_owners _ _ _ K).
  - intros j Hj. rewrite insert_id by done. cbn [swap_slots drop_slot set_slots]. change (swap_slots v2) with (swap_slots (vm st)). rewrite S3 by done.
    destruct (Z.eqb_spec j slot) as [->|]; [lia|]. pose proof (sw_slot_owners _ _ _ K j Hj). lia.
  - intros k g Hk Hkg. by apply (sw_memory _ _ _ K k g).
  - intros off Hoff. cbn [word_at vm]. by apply Hdata.
  - intros k w0 off Hk Hw Hoff. by apply (other_words _ f k).
Qed.
End out.

(** * What a step keeps *)

(** Beside the invariant and what processes see: frames and slots have as many owners
    other than pages as they had, and pages of devices do not come about. *)
Record carried (pl : gmap Z place) (pg pg' : gmap (Z * Z) location) (st st' : swapper) : Prop := {
  ca_inv : swap_inv pl pg' st';
  ca_shows : shows_same pl st st';
  ca_kernel : kernel_pml4 (vm st') = kernel_pml4 (vm st);
  ca_setup : hhdm (vm st') = hhdm (vm st) /\ total_frames (frames (owned (vm st'))) = total_frames (frames (owned (vm st)));
  ca_frames : forall f, 0 <= f -> owners (owned (vm st')) f - uses pg' (InFrame f) = owners (owned (vm st)) f - uses pg (InFrame f);
  ca_slots : forall j, 0 <= j -> get (slot_owners (swap_slots (vm st'))) j - uses pg' (InSlot j) =
    get (slot_owners (swap_slots (vm st))) j - uses pg (InSlot j);
  ca_device : forall k f, pg' !! k = Some (OnDevice f) -> pg !! k = Some (OnDevice f) }.

Lemma carried_refl pl pg st : swap_inv pl pg st -> carried pl pg pg st st.
Proof. by split. Qed.

Lemma carried_trans pl pg pg1 pg2 st st1 st2 : carried pl pg pg1 st st1 -> carried pl pg1 pg2 st1 st2 -> carried pl pg pg2 st st2.
Proof.
  intros [A1 A2 A3 [A4 A5] A6 A7 A8] [B1 B2 B3 [B4 B5] B6 B7 B8]. split; [done|by etransitivity|congruence|split; congruence|..].
  - intros f Hf. by rewrite B6, A6.
  - intros j Hj. by rewrite B7, A7.
  - auto.
Qed.

(** The pages [xs] of [root], and no others, went from memory to the disk, and their
    frames are free. *)
Record went_out (root : Z) (xs : list Z) (pg pg' : gmap (Z * Z) location) (st st' : swapper) : Prop := {
  wo_nodup : NoDup xs;
  wo_pages : forall x, x ∈ xs -> 0 <= x < USER_SPACE_END /\ x mod PAGE_SIZE = 0 /\
    exists f j, pg !! (root, x) = Some (InFrame f) /\ pg' !! (root, x) = Some (InSlot j);
  wo_others : forall r x, r <> root \/ x ∉ xs -> pg' !! (r, x) = pg !! (r, x);
  wo_free : free_now st' = free_now st + Z.of_nat (length xs);
  wo_out : u64 (pages_out st') = u64 (pages_out st + Z.of_nat (length xs)) }.

Lemma went_nothing root pg st st' : owned (vm st') = owned (vm st) -> pages_out st' = pages_out st -> went_out root [] pg pg st st'.
Proof. intros Ho Hp. split; [constructor|set_solver|done|unfold free_now; rewrite Ho; cbn; lia|]. by rewrite Hp, Z.add_0_r. Qed.

Lemma went_more root xs ys pg pg1 pg2 st st1 st2 : went_out root xs pg pg1 st st1 -> went_out root ys pg1 pg2 st1 st2 ->
  went_out root (xs ++ ys) pg pg2 st st2.
Proof.
  intros [A1 A2 A3 A4 A5] [B1 B2 B3 B4 B5].
  assert (forall x, x ∈ xs -> x ∉ ys) as Hd.
  { intros x Hx Hy. destruct (A2 x Hx) as (_&_&f&j&_&E1). destruct (B2 x Hy) as (_&_&f'&j'&E2&_). congruence. }
  split.
  - by apply NoDup_app.
  - intros x [Hx|Hx]%elem_of_app.
    + destruct (A2 x Hx) as (?&?&f&j&?&?). split; [done|]. split; [done|]. exists f, j. split; [done|]. rewrite B3; [done|right; by apply Hd].
    + destruct (B2 x Hx) as (?&?&f&j&?&?). split; [done|]. split; [done|]. exists f, j. split; [|done]. rewrite <- A3; [done|right; intros Hx'; by apply (Hd x)].
  - intros r x Hr. rewrite B3, A3 by (rewrite elem_of_app in Hr; tauto). done.
  - rewrite length_app. lia.
  - rewrite length_app, Nat2Z.inj_add, Z.add_assoc. rewrite B5. unfold u64 in *. rewrite Zplus_mod, A5, <- Zplus_mod. done.
Qed.

(** One frame is given back. *)
Lemma one_freed c c' f : cow_ok c -> cow_ok c' -> total_frames (frames c') = total_frames (frames c) -> 1 <= f < total_frames (frames c) ->
  owners c f = 1 -> owners c' f = 0 -> (forall g, 0 <= g -> g <> f -> owners c' g = owners c g) ->
  free_frames (frames c') = free_frames (frames c) + 1.
Proof.
  intros Hc Hc' Ht Hf H1 H0 Hg. rewrite (ct_free _ (wf_counted _ (co_wf _ Hc))), (ct_free _ (wf_counted _ (co_wf _ Hc'))). unfold free_count. rewrite Ht.
  assert (forall c g, cow_ok c -> 0 <= g < total_frames (frames c) -> bitmap_test (frames c) g = false <-> owners c g = 0) as Hb.
  { intros c0 g K Hr. unfold owners. pose proof (co_range c0 K g ltac:(lia)). case_bool_decide as Hin; rewrite elem_of_abs in Hin; split; intros; try lia; [tauto|].
    destruct Hin. done. }
  apply (count_below_flip _ _ _ f); [lia| | |].
  - apply negb_false_iff, not_false_iff_true. intros E. apply Hb in E; [lia|done|lia].
  - apply negb_true_iff. apply Hb; [done|lia|done].
  - intros g Hr Hne. f_equal. apply eq_true_iff_eq. rewrite <- !not_false_iff_true, !Hb by (done || lia). rewrite Hg by lia. done.
Qed.

Lemma drop_unused pl pg st v slot : swap_inv pl pg (with_vm st v) -> 1 <= slot <= slot_count (swap_slots v) -> uses pg (InSlot slot) = 0 ->
  get (slot_owners (swap_slots v)) slot = 1 -> swap_inv pl pg (with_vm st (drop_slot slot v)) /\ shows_same pl (with_vm st v) (with_vm st (drop_slot slot v)).
Proof.
  intros K Hs Hu Ho. destruct (slot_unref_at (swap_slots v) slot (sw_slots _ _ _ K) Hs ltac:(lia)) as (S1&S2&S3).
  split; [|by apply (shows_slots pl (with_vm st v)), (sw_tables _ _ _ K)]. apply (inv_slots pl pg (with_vm st v)); try done.
  intros j Hj. rewrite S3 by done. pose proof (sw_slot_owners _ _ _ K j Hj). cbn [vm with_vm] in *. destruct (Z.eqb_spec j slot) as [->|]; lia.
Qed.

(** One page moved, and its old and new place changed owners with it. *)
Lemma carried_move pl pg st st' k w w' : let pg' := <[k := w']> pg in
  swap_inv pl pg' st' -> shows_same pl st st' -> kernel_pml4 (vm st') = kernel_pml4 (vm st) ->
  hhdm (vm st') = hhdm (vm st) -> total_frames (frames (owned (vm st'))) = total_frames (frames (owned (vm st))) ->
  pg !! k = Some w -> (forall f, w' <> OnDevice f) ->
  (forall f, 0 <= f -> owners (owned (vm st')) f = owners (owned (vm st)) f + (if decide (w' = InFrame f) then 1 else 0) - (if decide (w = InFrame f) then 1 else 0)) ->
  (forall j, 0 <= j -> get (slot_owners (swap_slots (vm st'))) j =
     get (slot_owners (swap_slots (vm st))) j + (if decide (w' = InSlot j) then 1 else 0) - (if decide (w = InSlot j) then 1 else 0)) ->
  carried pl pg pg' st st'.
Proof.
  intros pg' K S Hk Hh Ht Hw Hd Ho Hs.
  assert (forall w0, uses pg' w0 = uses pg w0 + (if decide (w' = w0) then 1 else 0) - (if decide (w = w0) then 1 else 0)) as Hu.
  { intros w0. unfold pg'. rewrite uses_insert, Hw. repeat case_decide; congruence || lia. }
  split; try done.
  - intros f Hf. rewrite Ho, Hu by done. lia.
  - intros j Hj. rewrite Hs, Hu by done. lia.
  - intros k' f E. destruct (decide (k' = k)) as [->|Hne]; unfold pg' in E; [|by rewrite lookup_insert_ne in E].
    rewrite lookup_insert_eq in E. injection E as E. by destruct (Hd f).
Qed.

(** What [slot_alloc] does, and undone. *)
Lemma slot_taken sl slot sl' : slots_ok sl -> slot_alloc sl = (slot, sl') -> slot <> 0 ->
  slots_ok sl' /\ slot_count sl' = slot_count sl /\ 1 <= slot <= slot_count sl' /\ get (slot_owners sl) slot = 0 /\ get (slot_owners sl') slot = 1 /\
  (forall j, 0 <= j -> get (slot_owners sl') j = get (slot_owners sl) j + (if j =? slot then 1 else 0)) /\
  (forall j, 0 <= j -> get (slot_owners (swap_slot_unref slot sl')) j = get (slot_owners sl) j).
Proof.
  intros Hs E Hne. pose proof (slot_alloc_spec sl Hs) as HS. rewrite E in HS. destruct HS as (S1&S2&S3).
  rewrite (proj2 (Z.eqb_neq slot 0)) in S3 by done. destruct S3 as (S3&S4&_&S5). pose proof (S5 slot ltac:(lia)) as H1. rewrite Z.eqb_refl in H1.
  assert (forall j, 0 <= j -> get (slot_owners sl') j = get (slot_owners sl) j + (if j =? slot then 1 else 0)) as Hj.
  { intros j Hj. rewrite S5 by done. destruct (Z.eqb_spec j slot) as [->|]; lia. }
  destruct (slot_unref_at sl' slot S1) as (_&_&U); [lia|lia|]. split_and!; try done; [lia|lia|].
  intros j Hj0. rewrite U, Hj by done. destruct (j =? slot); lia.
Qed.

(** The slot was taken in vain. *)
Lemma carried_in_vain pl pg st st' slot sl : swap_inv pl pg st' -> shows_same pl st st' -> kernel_pml4 (vm st') = kernel_pml4 (vm st) ->
  owned (vm st') = owned (vm st) -> swap_slots (vm st') = swap_slot_unref slot sl ->
  (forall j, 0 <= j -> get (slot_owners (swap_slot_unref slot sl)) j = get (slot_owners (swap_slots (vm st))) j) -> carried pl pg pg st st'.
Proof.
  intros K S Hk Ho Hs Hj. split; try done.
  - by rewrite (hhdm_owned _ _ Ho), Ho.
  - intros f Hf. by rewrite Ho.
  - intros j Hj0. by rewrite Hs, Hj.
Qed.

(** Why a round did not send a page out. *)
Definition nothing_goes (root : Z) (keep : list vmm_range_t) (st : swapper) : Prop :=
  slots_free (swap_slots (vm st)) = 0 \/ forall x, 0 <= x < USER_SPACE_END -> x mod PAGE_SIZE = 0 -> may_go (vm st) root keep x = false.

Lemma page_out_carried pl pg st r root x slot keep sl s1 :
  swap_inv pl pg st -> is_root pl root -> 0 <= x < USER_SPACE_END -> x mod PAGE_SIZE = 0 ->
  slot_alloc (swap_slots (vm st)) = (slot, sl) -> slot <> 0 -> only_aged pl (set_slots (vm st) sl) s1 ->
  swap_inv pl pg (with_vm st s1) -> shows_same pl st (with_vm st s1) -> may_go s1 root keep x = true -> descend s1 root (path_of x) <> 0 ->
  let e := vmm_get_pte s1 root x in
  let v := set_entry s1 (descend s1 root (path_of x)) (pt_index x) (out_entry e slot) in
  let frame := Z.land e PTE_ADDR_MASK in
  let d := transfer r (slot * SECTORS_PER_PAGE * VIRTIO_BLK_SECTOR_SIZE) (u64 (frame + hhdm v)) (SECTORS_PER_PAGE * VIRTIO_BLK_SECTOR_SIZE) (disk st) (ram v) in
  if io_ok r then
    let st' := mkSwap (vmm_unref_frame frame v) d (u64 (pages_out st + 1)) (pages_in st) in
    let pg' := <[(root, x) := InSlot slot]> pg in carried pl pg pg' st st' /\ went_out root [x] pg pg' st st'
  else
    let st' := mkSwap (drop_slot slot (snd (vmm_swap_install v root x frame))) d (pages_out st) (pages_in st) in
    carried pl pg pg st st' /\ went_out root [] pg pg st st'.
Proof.
  intros K Hr Hx Hxa E Hne Ha K1 H1 Hgo Hpt e v frame d. destruct (slot_taken _ _ _ (sw_slots _ _ _ K) E Hne) as (S1&S2&S3&S4&S5&S6&S7).
  destruct (oa_rest _ _ _ Ha) as (R1&R2&R3). cbn [owned swap_slots kernel_pml4 set_slots] in R1, R2, R3. pose proof (hhdm_owned (vm st) s1 R1) as Rh.
  assert (uses pg (InSlot slot) = 0) as Hu by (pose proof (sw_slot_owners _ _ _ K slot ltac:(lia)); unfold uses in *; lia).
  destruct (may_go_alone pl pg (with_vm st s1) root x keep K1 Hr Hx Hxa Hgo) as (f&F1&F2&F3&F4&F5&F6&F7&F8). cbn [vm with_vm] in *.
  destruct (io_ok r) eqn:Hio; cbn zeta.
  - destruct (page_out_written pl pg (with_vm st s1) r root x slot keep K1 Hr Hx Hxa Hgo ltac:(by cbn; rewrite R2) Hu ltac:(by cbn; rewrite R2) Hpt Hio
      (u64 (pages_out st + 1)) (pages_in st)) as [K3 H3]. cbn [vm with_vm disk] in K3, H3. fold e v frame d in K3, H3.
    destruct (unref_frame_spec (owned s1) f (tb_cow _ _ (sw_tables _ _ _ K1)) F3 F4) as (U1&U2&U3&U4). rewrite R1 in U1, U2, U3, U4, F3, F4, F6.
    assert (owned (vmm_unref_frame frame v) = pmm_unref_frame (f * PAGE_SIZE) (owned (vm st))) as Eo.
    { unfold frame, e. rewrite F1. cbn. by rewrite R1. }
    split.
    + eapply carried_move; [exact K3|by etransitivity|exact R3| |cbn [vm]; by rewrite Eo|exact F2|done|..]; cbn [vm].
      * rewrite <- Rh. unfold hhdm. rewrite Eo, R1. apply unref_hhdm.
      * intros g Hg. rewrite Eo, (decide_False (P := InSlot slot = _)) by done. destruct (decide (g = f)) as [->|Hgf].
        -- rewrite decide_True by done. lia.
        -- rewrite U4, decide_False by congruence. lia.
      * intros j Hj. cbn [swap_slots vmm_unref_frame set_owned]. change (swap_slots v) with (swap_slots s1). rewrite R2, S6 by done.
        rewrite (decide_False (P := InFrame f = _)) by done. destruct (Z.eqb_spec j slot) as [->|]; [rewrite decide_True by done|rewrite decide_False by congruence]; lia.
    + split; cbn [length].
      * apply NoDup_singleton.
      * intros y ->%list_elem_of_singleton. split; [done|]. split; [done|]. exists f, slot. by rewrite lookup_insert_eq.
      * intros r' y Hy. apply lookup_insert_ne. intros [= -> ->]. destruct Hy; [done|]. set_solver.
      * unfold free_now. cbn [vm]. rewrite Eo. apply (one_freed _ _ f); try done; [apply (sw_tables _ _ _ K)|lia].
      * cbn [pages_out]. unfold u64. by rewrite Zmod_mod.
  - destruct (page_out_failed pl pg (with_vm st s1) r root x slot keep K1 Hr Hx Hxa Hgo ltac:(by cbn; rewrite R2) Hu ltac:(by cbn; rewrite R2) Hpt
      (pages_out st) (pages_in st)) as [K3 H3]. cbn [vm with_vm disk] in K3, H3. fold e v frame d in K3, H3.
    rewrite insert_id in K3. 2: { rewrite F2. unfold frame, e. by rewrite F1, Z.div_mul. }
    destruct (install_rest v root x frame) as (I1&I2&I3). change (owned v) with (owned s1) in I2. change (swap_slots v) with (swap_slots s1) in I3. split.
    + eapply (carried_in_vain pl pg st _ slot sl); [exact K3|by etransitivity|cbn [vm drop_slot set_slots kernel_pml4]; by rewrite I1|cbn [vm drop_slot set_slots owned]; by rewrite I2, R1| |done].
      cbn [vm drop_slot set_slots swap_slots]. by rewrite I3, R2.
    + apply went_nothing; [|done]. cbn [vm drop_slot set_slots owned]. by rewrite I2, R1.
Qed.

Lemma swap_out_round_ok pl pg st r root cursor keep :
  swap_inv pl pg st -> is_root pl root -> root <> kernel_pml4 (vm st) -> 0 <= cursor < 0x10000000000000000 ->
  let '(went, cursor', st') := swap_out_round r root cursor keep st in
  (exists pg' xs, carried pl pg pg' st st' /\ went_out root xs pg pg' st st' /\ length xs = if went then 1%nat else 0%nat) /\
  0 <= cursor' < 0x10000000000000000 /\ (went = false -> io_ok r = true -> nothing_goes root keep st').
Proof.
  intros K Hr Hk Hc. unfold swap_out_round. pose proof (slot_alloc_spec _ (sw_slots _ _ _ K)) as HS.
  destruct (slot_alloc (swap_slots (vm st))) as [slot sl] eqn:E. destruct HS as (S1&S2&S3).
  assert (swap_inv pl pg (with_vm st (set_slots (vm st) sl))) as K1.
  { apply inv_slots; try done. intros j Hj. pose proof (sw_slot_owners _ _ _ K j Hj). destruct (slot =? 0); [by rewrite (proj2 S3)|].
    destruct S3 as (_&S4&_&S5). rewrite S5 by done. destruct (Z.eqb_spec j slot) as [->|]; lia. }
  pose proof (shows_slots pl st sl (sw_tables _ _ _ K)) as H1. destruct (Z.eqb_spec slot 0) as [->|Hne].
  { destruct S3 as [S3 S3']. split; [|split; [done|intros _ _; left; apply (slots_free_same (swap_slots (vm st))); [apply (sw_slots _ _ _ K)|done..]]].
    exists pg, []. split; [|by split; [apply went_nothing|]]. split; try done. intros j Hj. cbn. by rewrite S3'. }
  clear S3. destruct (slot_taken _ _ _ (sw_slots _ _ _ K) E Hne) as (_&_&T3&T4&T5&T6&T7).
  assert (uses pg (InSlot slot) = 0) as Hu by (pose proof (sw_slot_owners _ _ _ K slot ltac:(lia)); unfold uses in *; lia).
  pose proof (swap_pick_spec (set_slots (vm st) sl) pl root cursor slot keep (sw_tables _ _ _ K1) Hr (sw_walk _ _ _ K1 root Hr) Hk Hc) as HP.
  destruct (vmm_swap_pick (set_slots (vm st) sl) root cursor slot keep) as [[[[x frame] cursor']|] v].
  - destruct HP as ((s1&A1&P2&P3&P4&P5&P6&P7&->)&->&_). destruct (inv_aged pl pg _ s1 K1 A1) as [K2 H2].
    change (with_vm (with_vm st (set_slots (vm st) sl)) s1) with (with_vm st s1) in K2, H2.
    assert (may_go s1 root keep x = true) as Hgo by (by rewrite (may_go_aged _ _ _ _ _ _ A1 Hr)).
    pose proof (page_out_carried pl pg st r root x slot keep sl s1 K Hr P2 P3 E Hne A1 K2 ltac:(by etransitivity) Hgo P7) as HO. cbn zeta in HO. rewrite <- P6 in HO.
    assert (0 <= x + PAGE_SIZE < 0x10000000000000000) as Hb by (unfold USER_SPACE_END, PAGE_SIZE in *; lia).
    unfold virtio_blk_write_dev. cbn [vm with_vm disk pages_out pages_in]. destruct (io_ok r); destruct HO as [O1 O2]; (split; [|split; [exact Hb|done]]).
    + by eexists _, [x].
    + by exists pg, [].
  - destruct HP as [A1 A2]. destruct (inv_aged pl pg _ v K1 A1) as [K2 H2]. destruct (oa_rest _ _ _ A1) as (R1&R2&R3). cbn [owned swap_slots set_slots] in R1, R2.
    destruct (drop_unused pl pg st v slot K2) as [K3 H3]; [by rewrite R2|done|by rewrite R2|]. split; [|split; [done|]].
    + exists pg, []. split; [|by split; [apply went_nothing|]]. eapply (carried_in_vain pl pg st _ slot sl); try done; [|cbn; by rewrite R2].
      etransitivity; [exact H1|]. etransitivity; [exact H2|exact H3].
    + intros _ _. right. intros x Hx Hxa. rewrite <- (A2 x Hx Hxa), <- (may_go_aged _ _ _ root keep x A1 Hr). unfold may_go. cbn [vm with_vm].
      unfold drop_slot. by rewrite (pte_slots pl) by (done || apply (oa_tables _ _ _ A1)).
Qed.

Lemma swap_out_loop_ok pl root keep ios : is_root pl root -> forall want done cursor pg st,
  swap_inv pl pg st -> root <> kernel_pml4 (vm st) -> 0 <= cursor < 0x10000000000000000 ->
  let '(n, cursor', st') := swap_out_loop want done ios root cursor keep st in
  (exists pg' xs, carried pl pg pg' st st' /\ went_out root xs pg pg' st st' /\ n = done + Z.of_nat (length xs)) /\
  0 <= cursor' < 0x10000000000000000 /\ n <= done + Z.of_nat want /\
  (n < done + Z.of_nat want -> (forall i, io_ok (ios i) = true) -> nothing_goes root keep st').
Proof.
  intros Hr. induction want as [|want IH]; intros done cursor pg st K Hk Hc; cbn [swap_out_loop].
  { split; [|split_and!; try done; lia]. exists pg, []. split; [by apply carried_refl|]. split; [by apply went_nothing|]. cbn. lia. }
  pose proof (swap_out_round_ok pl pg st (ios done) root cursor keep K Hr Hk Hc) as HR.
  destruct (swap_out_round _ _ _ _ st) as [[[|] cursor1] st1]; destruct HR as ((pg1&xs&R1&R2&R3)&R4&R5).
  - specialize (IH (done + 1) cursor1 pg1 st1 (ca_inv _ _ _ _ _ R1) ltac:(by rewrite (ca_kernel _ _ _ _ _ R1)) R4).
    destruct (swap_out_loop _ _ _ _ _ _ _) as [[n cursor'] st']. destruct IH as ((pg2&ys&I1&I2&I3)&I4&I5&I6).
    split; [|split; [done|split; [lia|intros; apply I6; [lia|done]]]].
    exists pg2, (xs ++ ys). split; [by eapply carried_trans|]. split; [by eapply went_more|]. rewrite length_app, R3. lia.
  - split; [|split; [done|split; [lia|by intros _ Hio; apply R5]]]. exists pg1, xs. split; [done|]. split; [done|]. rewrite R3. lia.
Qed.

(** * One page in *)

(** Frame [f] has been taken, in [v], for the page [x] of [root], which is in [slot]. *)
Section into.
Context (pl : gmap Z place) (pg : gmap (Z * Z) location) (st : swapper) (r : io) (root x slot f : Z) (v : vmm).
Hypothesis K : swap_inv pl pg st.
Hypothesis Hr : is_root pl root.
Hypothesis Hx : 0 <= x < USER_SPACE_END.
Hypothesis Hxa : x mod PAGE_SIZE = 0.
Hypothesis Hm : pg !! (root, x) = Some (InSlot slot).
Hypothesis Hsw : vmm_pte_swapped (vmm_get_pte (vm st) root x) = true.
Hypothesis Tv : tables v pl.
Hypothesis Hv : hhdm v = hhdm (vm st) /\ total_frames (frames (owned v)) = total_frames (frames (owned (vm st))) /\ swap_slots v = swap_slots (vm st) /\ ram v = ram (vm st).
Hypothesis Hf : 1 <= f < total_frames (frames (owned (vm st))).
Hypothesis Hfree : f ∈ abs (frames (owned (vm st))).
Hypothesis Hnone : pl !! (f * PAGE_SIZE + hhdm (vm st)) = None.
Hypothesis Hof : owners (owned v) f = 1.
Hypothesis Hog : forall g, g <> f -> owners (owned v) g = owners (owned (vm st)) g.

Let t := f * PAGE_SIZE + hhdm (vm st).
Let v1 := set_ram v (transfer r t (slot * SECTORS_PER_PAGE * VIRTIO_BLK_SECTOR_SIZE) (SECTORS_PER_PAGE * VIRTIO_BLK_SECTOR_SIZE) (ram v) (disk st)).

Lemma read_outside y : ~ (t <= y < t + PAGE_SIZE) -> ram v1 y = ram (vm st) y.
Proof. intros Hy. destruct Hv as (_&_&_&<-). apply transfer_out. exact Hy. Qed.

Lemma read_tables : tables v1 pl /\ upper_same (vm st) v1 pl /\
  (forall root' y, is_root pl root' -> vmm_get_pte v1 root' y = vmm_get_pte (vm st) root' y).
Proof.
  destruct (tb_hhdm _ _ (sw_tables _ _ _ K)) as (Hhm&_&_). destruct Hv as (Hh&_&_&Hram).
  destruct (data_tables v pl t (ram v1) Tv) as (T1&V1&_); [unfold t, PAGE_SIZE in *; zlia|done|intros y Hy; by rewrite read_outside, Hram|].
  split; [done|]. split.
  - intros t' p i Hp _ Hi. unfold entry. apply read_outside. destruct (tb_frame _ _ (sw_tables _ _ _ K) _ _ Hp) as (g&[Hg _]&_).
    assert (g <> f) by (intros ->; unfold t in *; congruence). unfold t, slot_at, index_ok, PAGE_SIZE in *. lia.
  - intros root' y Hr'. rewrite (same_view_pte v v1 pl) by done. destruct (table_addr _ _ _ _ Tv Hr'). apply pte_ext; [lia|done|done].
Qed.

(** The pages of others are elsewhere. *)
Lemma read_words k w0 off v2 n m : pg !! k = Some w0 -> 0 <= off < PAGE_SIZE -> hhdm v2 = hhdm (vm st) -> data_same v1 v2 pl ->
  word_at (mkSwap v2 (disk st) n m) w0 off = word_at st w0 off.
Proof.
  intros Hk Hoff Hh2 Hd. destruct Hv as (Hh&_). assert (hhdm v1 = hhdm (vm st)) as Hh1 by done.
  assert (forall g, pg !! k = Some (InFrame g) \/ pg !! k = Some (OnDevice g) ->
    ram v2 (g * PAGE_SIZE + hhdm v2 + off) = ram (vm st) (g * PAGE_SIZE + hhdm (vm st) + off)) as Hg.
  { intros g Hkg. destruct (sw_memory _ _ _ K k g Hkg) as (G1&G2&G3). assert (g <> f) by congruence. rewrite Hh2. rewrite <- Hh1 in G3 |- * at 1.
    rewrite (Hd g off G3 Hoff), Hh1. apply read_outside. unfold t, PAGE_SIZE in *. lia. }
  destruct w0 as [g|g|j]; cbn [word_at vm disk]; [apply Hg; auto|apply Hg; auto|done].
Qed.

Lemma page_in_read n m : io_ok r = true ->
  exists v2, vmm_swap_install v1 root x (f * PAGE_SIZE) = (true, v2) /\ (kernel_pml4 v2 = kernel_pml4 v /\ owned v2 = owned v /\ swap_slots v2 = swap_slots v) /\
    vmm_pte_swapped (vmm_get_pte (drop_slot slot v2) root x) = false /\
    swap_inv pl (<[(root, x) := InFrame f]> pg) (mkSwap (drop_slot slot v2) (disk st) n m) /\ shows_same pl st (mkSwap (drop_slot slot v2) (disk st) n m).
Proof.
  intros Hok. destruct read_tables as (T1&U1&P1). set (e := vmm_get_pte (vm st) root x) in *.
  destruct (install_spec v1 pl root x (f * PAGE_SIZE) T1 Hr Hx Hxa ltac:(by rewrite P1)) as (I1&I2). rewrite (P1 root x Hr) in I2. fold e in I2.
  set (e2 := in_entry e (f * PAGE_SIZE)) in *. set (v2 := set_entry v1 _ _ e2) in *. exists v2. split; [done|]. split; [done|].
  destruct (set_page_leaf v1 pl root x e2 T1 Hr I1) as (M1&M2&M3&M4&M5&M6). fold v2 in M1, M2, M3, M4, M5, M6.
  destruct Hv as (Hh&Htot&Hsl&Hram). pose proof (tb_phys _ _ (sw_tables _ _ _ K)).
  destruct (in_entry_spec e f ltac:(lia)) as (J1&J2&J3). fold e2 in J1, J2, J3.
  pose proof (sw_slot _ _ _ K _ _ Hm) as Hs. pose proof (uses_pos pg _ _ Hm) as Hu. pose proof (sw_slot_owners _ _ _ K slot ltac:(lia)) as Hso.
  destruct (slot_unref_at (swap_slots (vm st)) slot (sw_slots _ _ _ K) Hs ltac:(lia)) as (S1&S2&S3).
  assert (swap_slots (drop_slot slot v2) = swap_slot_unref slot (swap_slots (vm st))) as Hsl2 by (rewrite <- Hsl; done).
  assert (forall r' y, is_root pl r' -> vmm_get_pte (drop_slot slot v2) r' y = vmm_get_pte v2 r' y) as Hps.
  { intros r' y Hr'. unfold drop_slot. by rewrite (pte_slots pl). }
  assert (has e VMM_DEVICE = false) as Hdev.
  { destruct (has e VMM_DEVICE) eqn:E; [|done]. destruct (sw_device _ _ _ K root x Hr Hx Hxa E) as [_ Hn]. fold e in Hn. congruence. }
  split; [rewrite Hps, M2 by done; unfold vmm_pte_swapped; by rewrite J1|].
  apply (relocate pl pg st _ root x (InSlot slot) (InFrame f)); try done; cbn [vm].
  - by destruct M1.
  - by rewrite Hsl2.
  - intros t' p i H1 H2 H3. change (entry (drop_slot slot v2) t' i) with (entry v2 t' i). rewrite (M4 t' p i) by done. by apply (U1 t' p i).
  - split_and!; [done|done|by rewrite Hsl2].
  - intros r' y Hr' Hns. rewrite Hps by done. rewrite M3 by done. by apply P1.
  - rewrite Hps, M2 by done. unfold where_is. rewrite J1, J2, Z.div_mul, (rights_has _ _ VMM_DEVICE J3), Hdev by done. done.
  - rewrite Hps, M2 by done. done.
  - split_and!; [lia|lia|apply owners_used; change (owned (drop_slot slot v2)) with (owned v); lia|done|].
    intros k Hk. by destruct (sw_memory _ _ _ K k f (or_intror Hk)) as (_&?&_).
  - intros g Hg. rewrite uses_insert, Hm, (decide_False (P := Some _ = Some _)) by done. change (owned (drop_slot slot v2)) with (owned v).
    pose proof (sw_owners _ _ _ K g Hg) as Hgo. destruct (decide (g = f)) as [->|Hgf].
    + rewrite decide_True by done. unfold owners in Hgo. rewrite bool_decide_true in Hgo by done. lia.
    + rewrite decide_False, Hog by congruence. lia.
  - intros j Hj. rewrite uses_insert, Hm, Hsl2, S3 by done. rewrite (decide_False (P := InFrame f = _)) by done. pose proof (sw_slot_owners _ _ _ K j Hj).
    destruct (Z.eqb_spec j slot) as [->|]; [rewrite decide_True by done; lia|rewrite decide_False by congruence; lia].
  - intros k g Hk Hkg. destruct (sw_memory _ _ _ K k g Hkg) as (G1&G2&_). change (owned (drop_slot slot v2)) with (owned v).
    apply owners_used. rewrite Hog by congruence. apply used_owners; [apply (sw_tables _ _ _ K)|done|done].
  - intros off Hoff. cbn [word_at vm disk]. change (ram (drop_slot slot v2)) with (ram v2). change (hhdm (drop_slot slot v2)) with (hhdm v1).
    assert (hhdm v1 = hhdm (vm st)) as Hh1 by done. rewrite M5 by (rewrite ?Hh1; done). rewrite Hh1. fold t. cbn [ram v1 set_ram].
    rewrite page_transfer_from, transfer_in by done. done.
  - intros k w0 off Hk Hw Hoff. by apply (read_words k).
Qed.

Lemma page_in_failed n m :
  let st' := mkSwap (vmm_free_frame (f * PAGE_SIZE) v1) (disk st) n m in
  swap_inv pl pg st' /\ shows_same pl st st'.
Proof.
  destruct read_tables as (T1&U1&P1). destruct Hv as (Hh&Htot&Hsl&Hram). cbn zeta. unfold vmm_free_frame. change (owned v1) with (owned v).
  rewrite free_is_unref by (done || apply Tv || lia). assert (f ∉ abs (frames (owned v))) as Hu by (apply owners_used; lia).
  destruct (unref_frame_spec (owned v) f (tb_cow _ _ Tv) ltac:(lia) Hu) as (A1&A2&A3&A4).
  pose proof (unref_hhdm (f * PAGE_SIZE) (owned v)) as Hh'. change (set_owned v1 (pmm_unref_frame (f * PAGE_SIZE) (owned v))) with (vmm_unref_frame (f * PAGE_SIZE) v1).
  assert (hhdm (vmm_unref_frame (f * PAGE_SIZE) v1) = hhdm (vm st)) as Hh2 by (etransitivity; [exact Hh'|exact Hh]).
  apply background; try done; cbn [vm].
  - apply unref_tables; [done|change (owned v1) with (owned v); lia|done|]. change (hhdm v1) with (hhdm v). by rewrite Hh.
  - split; [done|]. etransitivity; [exact A2|done].
  - intros r' y Hr'. rewrite <- (P1 r' y Hr'). destruct (table_addr _ _ _ _ T1 Hr'). apply pte_ext; [lia|done|exact Hh'].
  - intros k g Hkg. destruct (sw_memory _ _ _ K k g Hkg) as (G1&G2&_).
    change (owned (vmm_unref_frame (f * PAGE_SIZE) v1)) with (pmm_unref_frame (f * PAGE_SIZE) (owned v)). rewrite A4, Hog by congruence. done.
  - intros k w0 off Hk Hoff. by apply (read_words k).
Qed.
End into.

Lemma swap_in_ok pl pg st before r root x :
  swap_inv pl pg st -> is_root pl root -> 0 <= x < USER_SPACE_END ->
  let '(res, st') := swap_in before r root x st in
  exists pg', carried pl pg pg' st st' /\ (forall k, k <> (root, page_of x) -> pg' !! k = pg !! k) /\
  ((res = 0 /\ vmm_pte_swapped (vmm_get_pte before root (page_of x)) = false) \/
   (res = 1 /\ vmm_pte_swapped (vmm_get_pte (vm st') root (page_of x)) = false) \/
   (res = -1 /\ (io_ok r = false \/ abs (frames (owned (vm st))) = ∅))).
Proof.
  intros K Hr Hx0. unfold swap_in, is_active. rewrite (so_active _ (sw_slots _ _ _ K)). cbn [negb orb].
  pose proof (sw_tables _ _ _ K) as Ht. destruct (table_addr _ _ _ _ Ht Hr) as [Hr0 _]. rewrite (proj2 (Z.eqb_neq root 0)) by lia.
  assert (0 <= page_of x < USER_SPACE_END /\ page_of x mod PAGE_SIZE = 0) as [Hx Hxa].
  { rewrite page_of_eq by (unfold USER_SPACE_END in *; lia). unfold PAGE_SIZE. zlia. }
  set (y := page_of x) in *. pose proof (carried_refl pl pg st K) as K'.
  destruct (vmm_pte_swapped (vmm_get_pte before root y)) eqn:Eb; cbn [negb]; [|by exists pg; split; [|split; [|left]]].
  set (e := vmm_get_pte (vm st) root y). destruct (vmm_pte_swapped e) eqn:Ee; cbn [negb]; [|by exists pg; split; [|split; [|right; left]]].
  assert (pg !! (root, y) = Some (InSlot (vmm_pte_swap_slot e))) as Hm.
  { rewrite <- (sw_map _ _ _ K) by done. fold e. unfold where_is. pose proof Ee as Ee'. unfold vmm_pte_swapped in Ee'.
    apply andb_true_iff in Ee' as [Ep%negb_true_iff _]. by rewrite Ep, Ee. }
  set (slot := vmm_pte_swap_slot e) in *. pose proof (sw_slot _ _ _ K _ _ Hm) as Hs.
  rewrite (proj2 (Z.leb_le 1 slot)), (proj2 (Z.leb_le slot _)) by lia. cbn [andb].
  pose proof (alloc_tables (vm st) pl Ht) as HA. pose proof (alloc_owners (vm st) pl Ht) as HO. pose proof (alloc_frame_owners (owned (vm st)) (tb_cow _ _ Ht)) as HB.
  pose proof (alloc_frame_spec (owned (vm st)) (tb_cow _ _ Ht)) as HC.
  unfold vmm_alloc_frame in *. destruct (alloc_frame (owned (vm st))) as [frame c]. set (v := set_owned (vm st) c) in *.
  destruct HA as (T1&(Hh&Hk&Htot&Hsl&_)&_&Hram&HA). destruct HB as (_&_&HB).
  assert (forall r' z, is_root pl r' -> vmm_get_pte v r' z = vmm_get_pte (vm st) r' z) as Hpv.
  { intros r' z Hr'. destruct (table_addr _ _ _ _ Ht Hr'). apply pte_ext; [lia|done|done]. }
  destruct (Z.eqb_spec frame 0) as [->|Hf0].
  { destruct HB as [(_&HB)|(f&Hf&?&_)]; [|unfold PAGE_SIZE in *; lia]. destruct HC as (_&_&_&[(_&_&HC)|(f&Hf&?&_)]); [|unfold PAGE_SIZE in *; lia].
    destruct (background pl pg st (with_vm st v)) as [B1 B2]; try done.
    - intros k w off _ Hoff. destruct w; cbn; by rewrite ?Hh.
    - exists pg. split; [|split; [done|right; right; split; [done|by right]]]. split; try done. intros g _. cbn. by rewrite HB. }
  destruct HA as [HA|(f&->&[_ F1]&F2&F3&F4)]; [done|]. clear HC. destruct (HO Hf0) as (f'&Hf'&_&_&O1&O2). assert (f' = f) as -> by (unfold PAGE_SIZE in *; lia). clear HO HB Hf'.
  destruct (tb_hhdm _ _ Ht) as (Hhm&Hhp&Hht). unfold virtio_blk_read_dev. cbn [vm with_vm disk]. rewrite Hh, u64_small by (unfold PAGE_SIZE in *; lia).
  assert (hhdm v = hhdm (vm st) /\ total_frames (frames (owned v)) = total_frames (frames (owned (vm st))) /\ swap_slots v = swap_slots (vm st) /\ ram v = ram (vm st)) as Hv by done.
  destruct (io_ok r) eqn:Hio.
  - destruct (page_in_read pl pg st r root y slot f v K Hr Hx Hxa Hm Ee T1 Hv F1 F2 F4 O1 O2 (pages_out st) (u64 (pages_in st + 1)) Hio) as (v2&->&I1&I2&I3&I4).
    cbn [pages_out pages_in disk vm with_vm]. destruct I1 as (I1&I1'&I1''). eexists. split; [|split; [intros k Hk'; by apply lookup_insert_ne|right; by left]].
    destruct (slot_unref_at (swap_slots (vm st)) slot (sw_slots _ _ _ K) Hs) as (_&_&U3); [pose proof (uses_pos pg _ _ Hm); pose proof (sw_slot_owners _ _ _ K slot ltac:(lia)); lia|].
    eapply carried_move; [exact I3|done|exact I1| | |exact Hm|done|..]; cbn [vm drop_slot set_slots owned swap_slots].
    + etransitivity; [exact (hhdm_owned _ _ I1')|done].
    + by rewrite I1'.
    + intros g Hg. rewrite I1', (decide_False (P := InSlot slot = InFrame g)) by done. destruct (decide (g = f)) as [->|Hgf].
      * rewrite decide_True by done. unfold owners at 2. rewrite bool_decide_true by done. lia.
      * rewrite O2, decide_False by congruence. lia.
    + intros j Hj. rewrite I1'', Hsl, U3 by done. rewrite (decide_False (P := InFrame f = _)) by done.
      destruct (Z.eqb_spec j slot) as [->|]; [rewrite decide_True by done|rewrite decide_False by congruence]; lia.
  - destruct (page_in_failed pl pg st r y slot f v K Hx T1 Hv F1 F2 F4 O1 O2 (pages_out st) (pages_in st)) as (I1&I2).
    exists pg. split; [|split; [done|right; right; split; [done|by left]]].
    match goal with |- carried _ _ _ _ ?s => set (st2 := s) in * end.
    assert (owned (vm st2) = pmm_unref_frame (f * PAGE_SIZE) (owned v)) as Eo by (apply free_is_unref; [apply T1|lia|done]).
    destruct (unref_frame_spec (owned v) f (tb_cow _ _ T1) ltac:(lia) ltac:(apply owners_used; lia)) as (U1&U2&U3&U4).
    split; [done|done|done| | |done|done].
    + split; [|rewrite Eo; congruence]. unfold hhdm. rewrite Eo, unref_hhdm. done.
    + intros g Hg. rewrite Eo. destruct (decide (g = f)) as [->|Hgf]; [|by rewrite U4, O2].
      unfold owners at 2. rewrite bool_decide_true by done. lia.
Qed.

(** * Whole calls *)

(** The task's address space is its own. *)
Definition task_ok (pl : gmap Z place) (t : task) (st : swapper) : Prop :=
  is_root pl (vmm_space_from_phys (vm st) (pml4_phys t)) /\ vmm_space_from_phys (vm st) (pml4_phys t) <> kernel_pml4 (vm st) /\
  0 <= swap_cursor t < 0x10000000000000000.

Lemma swap_out_ok pl pg ios root cursor want keep st : swap_inv pl pg st -> is_root pl root -> root <> kernel_pml4 (vm st) -> 0 <= cursor < 0x10000000000000000 ->
  let '(n, cursor', st') := swap_out_keeping ios root cursor want keep st in
  (exists pg' xs, carried pl pg pg' st st' /\ went_out root xs pg pg' st st' /\ n = Z.of_nat (length xs)) /\
  0 <= cursor' < 0x10000000000000000 /\ n <= Z.max 0 want /\ (n < want -> (forall i, io_ok (ios i) = true) -> nothing_goes root keep st').
Proof.
  intros K Hr Hk Hc. unfold swap_out_keeping, is_active. rewrite (so_active _ (sw_slots _ _ _ K)).
  destruct (table_addr _ _ _ _ (sw_tables _ _ _ K) Hr) as [Hr0 _]. rewrite (proj2 (Z.eqb_neq root 0)) by lia. cbn [negb orb].
  pose proof (swap_out_loop_ok pl root keep ios Hr (Z.to_nat want) 0 cursor pg st K Hk Hc) as HL.
  destruct (swap_out_loop _ _ _ _ _ _ _) as [[n c] st']. destruct HL as (L1&L2&L3&L4). split; [done|]. split; [done|]. split; [lia|]. intros. apply L4; [lia|done].
Qed.

Lemma give_pages_up_ok pl pg ios t want st : swap_inv pl pg st -> task_ok pl t st ->
  let '(n, t', st') := give_pages_up ios t want st in
  (exists pg' xs, carried pl pg pg' st st' /\ went_out (vmm_space_from_phys (vm st) (pml4_phys t)) xs pg pg' st st' /\ n = Z.of_nat (length xs)) /\
  0 <= swap_cursor t' < 0x10000000000000000.
Proof.
  intros K (T1&T2&T3). unfold give_pages_up. destruct (keep_ranges t) as [keep|].
  - pose proof (swap_out_ok pl pg ios _ (swap_cursor t) want keep st K T1 T2 T3) as HO.
    destruct (swap_out_keeping _ _ _ _ _ _) as [[n c] st']. by destruct HO as (O1&O2&_).
  - split; [|done]. exists pg, []. split; [by apply carried_refl|]. split; [by apply went_nothing|done].
Qed.

Lemma call_ok pl pg ios t st : swap_inv pl pg st -> task_ok pl t st ->
  let '(n, t', st') := swap_make_room_for_call ios t st in
  (exists pg' xs, carried pl pg pg' st st' /\ went_out (vmm_space_from_phys (vm st) (pml4_phys t)) xs pg pg' st st' /\ n = Z.of_nat (length xs)) /\
  0 <= swap_cursor t' < 0x10000000000000000.
Proof.
  intros K T. unfold swap_make_room_for_call. destruct (_ || _); [|by apply give_pages_up_ok].
  split; [|apply T]. exists pg, []. split; [by apply carried_refl|]. split; [by apply went_nothing|done].
Qed.

(** ** Example: the page of [VmmSwap] goes out *)

Notation example_st := (mkSwap page_vmm (fun _ => 0) 0 0).
Notation good_io := (mkIo true (fun _ => 0)).

Lemma example_swap_inv : swap_inv page_places {[(tab 2, 0x400000) := InFrame 1]} example_st.
Proof.
  split.
  - exact page_tables.
  - exact start3_ok.
  - intros root ->%page_root. exact page_walkable.
  - intros root x ->%page_root Hx Hxa. cbn [vm]. rewrite page_pte by done.
    rewrite page_of_eq by (unfold USER_SPACE_END in *; lia). change 4096 with PAGE_SIZE. rewrite Hxa, Z.sub_0_r.
    destruct (Z.eqb_spec x 0x400000) as [->|Hne]; [rewrite lookup_singleton_eq; vm_compute; reflexivity|].
    rewrite lookup_singleton_ne by congruence. vm_compute. reflexivity.
  - intros root x ->%page_root Hx Hxa. cbn [vm]. rewrite page_pte by done. destruct (_ =? _); intros H; vm_compute in H; discriminate H.
  - intros k f [_ [= <-]]%lookup_singleton_Some. vm_compute. intuition congruence.
  - intros k f [[_ [= <-]]%lookup_singleton_Some|[_ [=]]%lookup_singleton_Some]. split; [lia|]. split; [apply page_frames; cbn; lia|vm_compute; reflexivity].
  - intros k k' f _ [_ [=]]%lookup_singleton_Some.
  - intros f Hf. unfold uses. rewrite map_filter_singleton. cbn [snd]. case_decide as E; [|rewrite map_size_empty; unfold owners;
      case_bool_decide; pose proof (co_range _ four_taken_ok f Hf); cbn [owned vm page_vmm]; lia].
    rewrite map_size_singleton. injection E as <-. vm_compute. congruence.
  - intros k j [_ [=]]%lookup_singleton_Some.
  - intros j Hj. unfold uses. rewrite map_filter_singleton. cbn [snd]. case_decide; [congruence|]. rewrite map_size_empty. apply (so_range _ start3_ok j Hj).
Qed.

