(* ===== verification/Mmap.v ===== *)
(** Anonymous mappings, [src/mm/mmap.c]: giving a range of an address space zeroed
    pages, and taking whatever is in a range away. [process_tlb_sync] is not
    modelled (lookups go to the tables). *)
From stdpp Require Import base tactics numbers list sets gmap.
From Stdlib Require Import ZArith Lia.
From S2P Require Import Prelude Pmm Cow SwapSlots Vmm VmmInv VmmProps VmmSwap Swap.

Open Scope Z_scope.

Definition PROT_READ : Z := 1.
Definition PROT_WRITE : Z := 2.
Definition PROT_EXEC : Z := 4.
Definition USER_MMAP_END : Z := 0x00007F0000000000.
Definition BATCH : Z := 32.

(** [for (page = start; page < end; page += PAGE_SIZE)]; the body goes on ([inl])
    or returns ([inr]). The bound is never reached. *)
Definition page_step {A B} (body : Z -> A -> A + B) (last : Z) (c : Z * A) : Z * A + (A + B) :=
  let '(page, a) := c in
  if page <? last then match body page a with inl a => inl (u64 (page + PAGE_SIZE), a) | inr b => inr (inr b) end
  else inr (inl a).
Definition for_pages {A B} (body : Z -> A -> A + B) (start last : Z) (a : A) : A + B :=
  match loop (Z.to_pos ((last - start) / PAGE_SIZE + 2)) (page_step body last) (start, a) with
  | inr r => r
  | inl (_, a) => inl a
  end.

Definition prot_to_pte_flags (prot : Z) : Z :=
  let flags := Z.lor VMM_PRESENT VMM_USER in
  let flags := if has prot PROT_WRITE then Z.lor flags VMM_WRITABLE else flags in
  if negb (has prot PROT_EXEC) then Z.lor flags VMM_NO_EXECUTE else flags.

Definition release_frames (held : list Z) (s : vmm) : vmm := fold_left (fun s f => vmm_unref_frame f s) held s.

(** The page leaves the tables; [held] are the frames to be given back. *)
Definition unmap_one (pml4 page : Z) (c : list Z * vmm) : list Z * vmm + Z :=
  let '(held, s) := c in
  let phys := vmm_get_phys s pml4 page in
  if negb (phys =? 0) then
    let dev := has (vmm_get_pte s pml4 page) VMM_DEVICE in
    let s := snd (vmm_unmap_page s pml4 page) in
    let held := if dev then held else held ++ [phys] in
    if Z.of_nat (length held) =? BATCH then inl ([], release_frames held s) else inl (held, s)
  else inl (held, snd (vmm_swap_discard s pml4 page)).

Definition bad_range (pml4 addr length : Z) : bool :=
  (pml4 =? 0) || (length =? 0) || has addr (PAGE_SIZE - 1) || (USER_SPACE_END <=? addr) || (USER_SPACE_END - addr <? length).

Definition user_unmap_range (s : vmm) (pml4 addr length : Z) : Z * vmm :=
  if bad_range pml4 addr length then (-1, s)
  else match for_pages (unmap_one pml4) addr (u64 (addr + page_align_up length)) ([], s) with
  | inl (held, s) => (0, release_frames held s)
  | inr _ => (-1, s)
  end.

(** [inr]: no memory for the page. *)
Definition map_one (pml4 flags page : Z) (s : vmm) : vmm + Z * vmm :=
  if has (vmm_get_pte s pml4 page) VMM_PRESENT then inl s
  else match vmm_alloc_user_page s pml4 page flags with
  | (view, s) => if view =? 0 then inr (page, s) else inl s
  end.

Definition user_map_range (s : vmm) (pml4 addr length prot : Z) : Z * vmm :=
  if (addr <? PAGE_SIZE) || bad_range pml4 addr length then (-1, s)
  else match for_pages (map_one pml4 (prot_to_pte_flags prot)) addr (u64 (addr + page_align_up length)) s with
  | inl s => (0, s)
  | inr (page, s) => (-1, if addr <? page then snd (user_unmap_range s pml4 addr (page - addr)) else s)
  end.

Definition share_one (pml4 page : Z) (s : vmm) : vmm + Z :=
  let pte := vmm_get_pte s pml4 page in
  let kept := Z.lor (Z.lor (Z.lor VMM_PRESENT VMM_USER) VMM_WRITABLE) VMM_NO_EXECUTE in
  inl (snd (vmm_map_page s pml4 page (Z.land pte PTE_ADDR_MASK) (Z.lor (Z.land pte kept) VMM_SHARED))).

(** The address (0: failed), the next free address and the state. *)
Definition user_mmap_anon_flags (s : vmm) (pml4 next_addr length prot : Z) (shared : bool) : Z * Z * vmm :=
  if (pml4 =? 0) || (length =? 0) then (0, next_addr, s)
  else
    let size := page_align_up length in
    if size <? length then (0, next_addr, s)
    else if (USER_MMAP_END <=? next_addr) || (USER_MMAP_END - next_addr <? size) then (0, next_addr, s)
    else match user_map_range s pml4 next_addr size prot with
    | (r, s) =>
        if negb (r =? 0) then (0, next_addr, s)
        else
          let s := if shared then match for_pages (share_one pml4) next_addr (u64 (next_addr + size)) s with inl s => s | inr _ => s end else s in
          (next_addr, u64 (next_addr + size), s)
    end.

(** * The loop *)

Section loop.
Context {A B : Type} (body : Z -> A -> A + B) (P : Z -> A -> Prop) (Q : B -> Prop) (start last : Z).
Hypothesis Hstart : 0 <= start <= last.
Hypothesis Hlast : last < 0x8000000000000000.
Hypothesis Haligned : (last - start) mod PAGE_SIZE = 0.
Hypothesis Hbody : forall page a, start <= page < last -> (page - start) mod PAGE_SIZE = 0 -> P page a ->
  match body page a with inl a' => P (page + PAGE_SIZE) a' | inr b => Q b end.

Lemma page_rounds n : forall page a, start <= page <= last -> (page - start) mod PAGE_SIZE = 0 -> last - page < PAGE_SIZE * Z.of_nat n -> P page a ->
  exists r, rounds n (page_step body last) (page, a) = inr r /\ match r with inl a => P last a | inr b => Q b end.
Proof.
  induction n as [|n IH]; intros page a Hp Hpa Hn HP; [unfold PAGE_SIZE in *; lia|]. cbn [rounds page_step].
  destruct (Z.ltb_spec page last) as [Hlt|Hge]; [|exists (inl a); assert (page = last) as <- by lia; done].
  pose proof (Hbody page a ltac:(lia) Hpa HP) as Hb. destruct (body page a) as [a'|b]; [|by exists (inr b)].
  unfold PAGE_SIZE in *. assert (page + 4096 <= last) by zlia. rewrite u64_small by lia. apply IH; [lia|zlia|lia|done].
Qed.

Lemma for_pages_ind a : P start a -> match for_pages body start last a with inl a => P last a | inr b => Q b end.
Proof.
  intros HP. unfold for_pages. rewrite loop_rounds.
  assert (0 <= (last - start) / PAGE_SIZE /\ last - start = (last - start) / PAGE_SIZE * PAGE_SIZE) as [H1 H2] by (unfold PAGE_SIZE in *; zlia).
  destruct (page_rounds (Pos.to_nat (Z.to_pos ((last - start) / PAGE_SIZE + 2))) start a) as (r&->&Hr); [lia|by rewrite Z.sub_diag| |done|done].
  rewrite positive_nat_Z, Z2Pos.id by lia. unfold PAGE_SIZE in *. lia.
Qed.
End loop.

(** * Pages and what they hold *)

(** The pages of the address spaces [rs], [pg], and what keeps their memory: a frame has
    an owner for each page in it, and for each time it is in [held]. *)
Record pages_ok (rs : gset Z) (pl : gmap Z place) (pg : gmap (Z * Z) location) (held : list Z) (s : vmm) : Prop := {
  pk_tables : tables s pl;
  pk_roots : forall root, root ∈ rs -> is_root pl root;
  pk_map : forall root x, root ∈ rs -> 0 <= x < USER_SPACE_END -> x mod PAGE_SIZE = 0 ->
    where_is (vmm_get_pte s root x) = pg !! (root, x);
  pk_frame : forall k f, pg !! k = Some (InFrame f) -> 1 <= f < total_frames (frames (owned s)) /\ pl !! (f * PAGE_SIZE + hhdm s) = None;
  pk_held : forall f, f ∈ held -> 1 <= f < total_frames (frames (owned s)) /\ pl !! (f * PAGE_SIZE + hhdm s) = None;
  pk_device : forall k f, pg !! k = Some (OnDevice f) -> f <> 0;
  pk_owners : forall f, 0 <= f -> uses pg (InFrame f) + refs held f <= owners (owned s) f;
  pk_slot : forall k j, pg !! k = Some (InSlot j) -> slots_ok (swap_slots s) /\ 1 <= j <= slot_count (swap_slots s);
  pk_slot_owners : forall j, 0 <= j -> uses pg (InSlot j) <= get (slot_owners (swap_slots s)) j }.

(** What is in the swapper's invariant already. *)
Lemma swap_inv_pages rs pl pg st : swap_inv pl pg st -> (forall root, root ∈ rs -> is_root pl root) -> (forall k, pg !! k <> Some (OnDevice 0)) -> pages_ok rs pl pg [] (vm st).
Proof.
  intros [K1 K2 K3 K4 K5 K6 K7 Ka K8 K9 K10] Hrs Hd. split; try done.
  - intros root x Hr. by apply K4, Hrs.
  - intros k f E. split; [by eapply K6|]. by eapply (K7 k f (or_introl E)).
  - set_solver.
  - intros k f E ->. by apply (Hd k).
  - intros f Hf. cbn. rewrite Z.add_0_r. by apply K8.
  - intros k j E. split; [done|by eapply K9].
Qed.

(** What one page had is accounted for: [w] went from the pages into [held] or was given back. *)
Record accounted (w : option location) (held held' : list Z) (s s' : vmm) : Prop := {
  ac_frames : forall f, 0 <= f ->
    owners (owned s') f - refs held' f = owners (owned s) f - refs held f - (if decide (w = Some (InFrame f)) then 1 else 0);
  ac_slots : forall j, 0 <= j ->
    get (slot_owners (swap_slots s')) j = get (slot_owners (swap_slots s)) j - (if decide (w = Some (InSlot j)) then 1 else 0) }.

Lemma refs_app l1 l2 f : refs (l1 ++ l2) f = refs l1 f + refs l2 f.
Proof. unfold refs. rewrite count_occ_app. lia. Qed.
Lemma refs_nil f : refs [] f = 0.
Proof. done. Qed.

Definition same_ptes (pl : gmap Z place) (s s' : vmm) : Prop :=
  forall root x, is_root pl root -> vmm_get_pte s' root x = vmm_get_pte s root x.

(** Frames that were held are given back. *)
Lemma release_ok rs pl pg l : forall held s, pages_ok rs pl pg (fno l ++ held) s -> aligned l ->
  pages_ok rs pl pg held (release_frames l s) /\ accounted None (fno l ++ held) held s (release_frames l s) /\
  same_ptes pl s (release_frames l s) /\ ram (release_frames l s) = ram s /\
  hhdm (release_frames l s) = hhdm s /\ total_frames (frames (owned (release_frames l s))) = total_frames (frames (owned s)).
Proof.
  induction l as [|p l IH]; intros held s K Ha.
  { split_and!; try done. split; intros; rewrite decide_False by done; cbn; lia. }
  apply Forall_cons in Ha as [Hp Ha]. change (fno (p :: l)) with (p / PAGE_SIZE :: fno l) in *. cbn [app] in *. set (g := p / PAGE_SIZE) in *. set (rest := fno l ++ held) in *.
  change (release_frames (p :: l) s) with (release_frames l (vmm_unref_frame p s)). rewrite Hp.
  destruct (pk_held _ _ _ _ _ K g) as [Hg Hgn]; [set_solver|]. pose proof (pk_owners _ _ _ _ _ K g ltac:(lia)) as Hog. rewrite refs_cons, Z.eqb_refl in Hog.
  assert (0 <= uses pg (InFrame g) /\ 0 <= refs rest g) as [? ?] by (unfold uses, refs; lia).
  assert (g ∉ abs (frames (owned s))) as Hu by (apply owners_used; lia).
  destruct (unref_frame_spec (owned s) g (tb_cow _ _ (pk_tables _ _ _ _ _ K)) Hg Hu) as (U1&U2&U3&U4).
  set (s1 := vmm_unref_frame (g * PAGE_SIZE) s) in *. change (pmm_unref_frame (g * PAGE_SIZE) (owned s)) with (owned s1) in *.
  assert (hhdm s1 = hhdm s) as Hh by apply unref_hhdm.
  assert (same_ptes pl s s1) as Hpte. { intros r x Hr. destruct (table_addr _ _ _ _ (pk_tables _ _ _ _ _ K) Hr). apply pte_ext; [lia|done|done]. }
  assert (forall f, 0 <= f -> owners (owned s1) f = owners (owned s) f - (if f =? g then 1 else 0)) as Ho.
  { intros f Hf. destruct (Z.eqb_spec f g) as [->|Hne]; [done|]. rewrite U4 by done. lia. }
  assert (pages_ok rs pl pg rest s1) as K1.
  { destruct K as [T1 Trs T2 T3 T4 T5 T6 T7 T8]. split; rewrite ?U2, ?Hh; try done.
    - by apply unref_tables.
    - intros r x Hr. rewrite Hpte by by apply Trs. by apply T2.
    - intros f Hf. apply T4. set_solver.
    - intros f Hf. rewrite Ho by done. specialize (T6 f Hf). rewrite refs_cons in T6. destruct (f =? g); lia. }
  destruct (IH held s1 K1 Ha) as (I1&[I2 I3]&I4&I5&I6&I7). split_and!; [done| | |by rewrite I5|by rewrite I6|by rewrite I7].
  - split; [|done]. intros f Hf. rewrite I2 by done. rewrite refs_cons, Ho by done. fold rest. destruct (f =? g); lia.
  - intros r x Hr. rewrite I4, Hpte by done. done.
Qed.

Lemma user_slots pl root x root' x' : is_root pl root -> is_root pl root' -> 0 <= x < USER_SPACE_END -> x mod PAGE_SIZE = 0 ->
  0 <= x' < USER_SPACE_END -> x' mod PAGE_SIZE = 0 -> (root', x') <> (root, x) -> ~ same_slot root x root' x'.
Proof.
  intros Hr Hr' Hx Hxa Hx' Hxa' Hne (H1&H2&[->|H3]); [|pose proof (user_index_low x Hx); lia]. apply Hne. f_equal.
  pose proof (user_indices x x' Hx Hx' H1 H2) as He. rewrite !page_of_eq in He by (unfold USER_SPACE_END in *; lia). unfold PAGE_SIZE in *. lia.
Qed.

(** All entries but that of [x] are the same, and so is all memory but the tables. *)
Record only_page (pl : gmap Z place) (root x : Z) (s s' : vmm) : Prop := {
  op_tables : tables s' pl;
  op_pte : forall root' x', is_root pl root' -> 0 <= x' < USER_SPACE_END -> x' mod PAGE_SIZE = 0 -> (root', x') <> (root, x) ->
    vmm_get_pte s' root' x' = vmm_get_pte s root' x';
  op_data : data_same s s' pl;
  op_setup : hhdm s' = hhdm s /\ total_frames (frames (owned s')) = total_frames (frames (owned s)) }.

Lemma page_gone rs pl pg held held' s s' root x :
  pages_ok rs pl pg held s -> only_page pl root x s s' -> where_is (vmm_get_pte s' root x) = None ->
  accounted (pg !! (root, x)) held held' s s' ->
  (forall f, f ∈ held' -> f ∈ held \/ pg !! (root, x) = Some (InFrame f)) ->
  (slots_ok (swap_slots s) -> slots_ok (swap_slots s')) /\ slot_count (swap_slots s') = slot_count (swap_slots s) ->
  pages_ok rs pl (delete (root, x) pg) held' s'.
Proof.
  intros [T1 Trs T2 T3 T4 T5 T6 T7 T8] [O1 O2 O3 (Hh&Ht)] Hw [A1 A2] Hheld (Hs&Hc).
  assert (forall k w, delete (root, x) pg !! k = Some w -> pg !! k = Some w) as Hd by (by intros k w [_ ?]%lookup_delete_Some).
  split; rewrite ?Hh, ?Ht; try done.
  - intros r y Hr' Hy Hya. destruct (decide ((r, y) = (root, x))) as [[= -> ->]|Hne]; [by rewrite lookup_delete_eq|].
    rewrite lookup_delete_ne by done. rewrite O2 by (done || by apply Trs). by apply T2.
  - intros k f E. by eapply T3, Hd.
  - intros f Hf. destruct (Hheld f Hf) as [?|E]; [by apply T4|by eapply T3].
  - intros k f E. by eapply T5, Hd.
  - intros f Hf. specialize (T6 f Hf). specialize (A1 f Hf). rewrite (uses_delete pg (root, x)) in T6. repeat case_decide; try done; lia.
  - intros k j E. destruct (T7 k j (Hd _ _ E)). rewrite Hc. auto.
  - intros j Hj. rewrite A2 by done. specialize (T8 j Hj). rewrite (uses_delete pg (root, x)) in T8. repeat case_decide; try done; lia.
Qed.

(** An entry is cleared. *)
Lemma clear_entry_ok pl s root x :
  tables s pl -> is_root pl root -> 0 <= x < USER_SPACE_END -> x mod PAGE_SIZE = 0 -> descend s root (path_of x) <> 0 ->
  let s' := set_entry s (descend s root (path_of x)) (pt_index x) 0 in
  only_page pl root x s s' /\ vmm_get_pte s' root x = 0.
Proof.
  intros Ht Hr Hx Hxa Hpt. destruct (set_page_leaf s pl root x 0 Ht Hr Hpt) as (L1&L2&L3&L4&L5&L6). split; [|done].
  split; try done. intros r y Hr' Hy Hya Hne. apply L3; [done|]. by apply (user_slots pl).
Qed.

Lemma unmap_present pl s root x : tables s pl -> is_root pl root -> has (vmm_get_pte s root x) VMM_PRESENT = true ->
  descend s root (path_of x) <> 0 /\ snd (vmm_unmap_page s root x) = set_entry s (descend s root (path_of x)) (pt_index x) 0.
Proof.
  intros Ht Hr Hp. destruct (table_addr _ _ _ _ Ht Hr) as [Hr0 _]. pose proof (present_descend s root x ltac:(lia) Hp) as Hpt. split; [done|].
  rewrite get_pte_entry in Hp by lia. unfold entry_at in Hp. rewrite (proj2 (Z.eqb_neq _ 0) Hpt) in Hp.
  unfold vmm_unmap_page, or_kernel. rewrite (proj2 (Z.eqb_neq root 0)), walk_look by lia. by rewrite (proj2 (Z.eqb_neq _ 0) Hpt), Hp.
Qed.

Lemma discard_spec pl s root x : tables s pl -> is_root pl root -> 0 <= x < USER_SPACE_END ->
  let e := vmm_get_pte s root x in
  if vmm_pte_swapped e then
    descend s root (path_of x) <> 0 /\
    snd (vmm_swap_discard s root x) =
      (let s := set_entry s (descend s root (path_of x)) (pt_index x) 0 in set_slots s (swap_slot_unref (vmm_pte_swap_slot e) (swap_slots s)))
  else snd (vmm_swap_discard s root x) = s.
Proof.
  intros Ht Hr Hx. destruct (table_addr _ _ _ _ Ht Hr) as [Hr0 _]. cbn zeta. rewrite get_pte_entry by lia.
  unfold vmm_swap_discard. rewrite (proj2 (Z.eqb_neq root 0)), (proj2 (Z.leb_gt USER_SPACE_END x)) by lia. cbn [orb].
  rewrite walk_pte_slot. cbn zeta. unfold entry_at. destruct (Z.eqb_spec (descend s root (path_of x)) 0) as [E|Hpt]; [done|].
  destruct (descend_place s pl Ht (path_of x) root (root, []) Hr ltac:(simpl; lia) (path_of_ok x) Hpt) as (o&Hp&_).
  destruct (table_addr _ _ _ _ Ht Hp) as [Hpt0 _]. pose proof (index_range x 12) as [? _]. fold (pt_index x) in *.
  rewrite (proj2 (Z.eqb_neq (slot_at _ _) 0)) by (unfold slot_at; lia). unfold entry. cbn [negb andb].
  by destruct (vmm_pte_swapped (ram s (slot_at (descend s root (path_of x)) (pt_index x)))).
Qed.

Section one.
Context (rs : gset Z) (pl : gmap Z place) (pg : gmap (Z * Z) location) (held : list Z) (s : vmm) (root x : Z).
Hypothesis K : pages_ok rs pl pg (fno held) s.
Hypothesis Hal : aligned held.
Hypothesis Hin : root ∈ rs.
Hypothesis Hx : 0 <= x < USER_SPACE_END.
Hypothesis Hxa : x mod PAGE_SIZE = 0.
Let Hr : is_root pl root := pk_roots _ _ _ _ _ K root Hin.

(** The page is gone, and what it had is in [held'] or was given back. *)
Definition page_dropped (held' : list Z) (s' : vmm) : Prop :=
  aligned held' /\ pages_ok rs pl (delete (root, x) pg) (fno held') s' /\ accounted (pg !! (root, x)) (fno held) (fno held') s s' /\
  where_is (vmm_get_pte s' root x) = None /\ only_page pl root x s s'.

Lemma present_cases : has (vmm_get_pte s root x) VMM_PRESENT = true ->
  let f := Z.land (vmm_get_pte s root x) PTE_ADDR_MASK / PAGE_SIZE in
  f <> 0 /\ pg !! (root, x) = Some (if has (vmm_get_pte s root x) VMM_DEVICE then OnDevice f else InFrame f).
Proof.
  intros Hp. pose proof (pk_map _ _ _ _ _ K root x Hin Hx Hxa) as Hm. unfold where_is in Hm. rewrite Hp in Hm. symmetry in Hm. cbn zeta.
  split; [|by destruct (has _ VMM_DEVICE)]. destruct (has _ VMM_DEVICE); [by eapply (pk_device _ _ _ _ _ K)|].
  destruct (pk_frame _ _ _ _ _ K _ _ Hm). lia.
Qed.

Lemma drop_present : has (vmm_get_pte s root x) VMM_PRESENT = true ->
  page_dropped (if has (vmm_get_pte s root x) VMM_DEVICE then held else held ++ [Z.land (vmm_get_pte s root x) PTE_ADDR_MASK])
    (snd (vmm_unmap_page s root x)).
Proof.
  intros Hp. destruct (present_cases Hp) as [Hf Hm]. destruct (unmap_present pl s root x (pk_tables _ _ _ _ _ K) Hr Hp) as [Hpt ->].
  destruct (clear_entry_ok pl s root x (pk_tables _ _ _ _ _ K) Hr Hx Hxa Hpt) as [O E]. set (s' := set_entry _ _ _ _) in *.
  set (e := vmm_get_pte s root x) in *. set (f := Z.land e PTE_ADDR_MASK / PAGE_SIZE) in *. set (held' := if has e VMM_DEVICE then _ else _).
  assert (fno held' = if has e VMM_DEVICE then fno held else fno held ++ [f]) as Hfno by (unfold held'; destruct (has e VMM_DEVICE); [done|]; unfold fno; by rewrite fmap_app).
  assert (accounted (pg !! (root, x)) (fno held) (fno held') s s') as Ha.
  { rewrite Hfno, Hm. split; intros g Hg; change (owned s') with (owned s); change (swap_slots s') with (swap_slots s);
      destruct (has e VMM_DEVICE); rewrite ?refs_app, ?refs_cons, ?refs_nil; try (rewrite decide_False by done; lia).
    destruct (Z.eqb_spec g f) as [->|Hne]; [rewrite decide_True by done|rewrite decide_False by congruence]; lia. }
  split_and!; [| |done|by rewrite E|done].
  - unfold held'. destruct (has e VMM_DEVICE); [done|]. apply Forall_app_2; [done|]. constructor; [apply mask_div|done].
  - apply (page_gone rs pl pg (fno held) _ s); try done; [by rewrite E|]. intros g. rewrite Hfno, Hm. destruct (has e VMM_DEVICE); [by left|].
    rewrite elem_of_app, list_elem_of_singleton. intros [?| ->]; [by left|by right].
Qed.

Lemma drop_absent : has (vmm_get_pte s root x) VMM_PRESENT = false -> page_dropped held (snd (vmm_swap_discard s root x)).
Proof.
  intros Hp. pose proof (pk_map _ _ _ _ _ K root x Hin Hx Hxa) as Hm. unfold where_is in Hm. rewrite Hp in Hm.
  pose proof (discard_spec pl s root x (pk_tables _ _ _ _ _ K) Hr Hx) as Hd. cbn zeta in Hd. set (e := vmm_get_pte s root x) in *.
  destruct (vmm_pte_swapped e) eqn:Hsw.
  - destruct Hd as [Hpt ->]. symmetry in Hm. set (j := vmm_pte_swap_slot e) in *. destruct (pk_slot _ _ _ _ _ K _ _ Hm) as [Hs Hj].
    destruct (clear_entry_ok pl s root x (pk_tables _ _ _ _ _ K) Hr Hx Hxa Hpt) as [O E]. set (s1 := set_entry _ _ _ _) in *.
    change (swap_slots s1) with (swap_slots s). pose proof (pk_slot_owners _ _ _ _ _ K j ltac:(lia)). pose proof (uses_pos _ _ _ Hm).
    destruct (slot_unref_at (swap_slots s) j Hs Hj ltac:(lia)) as (U1&U2&U3). set (s2 := set_slots s1 _).
    assert (same_ptes pl s1 s2) as Hpte. { intros r y Hr'. apply (pte_slots pl); [apply O|done]. }
    assert (only_page pl root x s s2) as O2.
    { destruct O as [O1 O2 O3 O4]. split; [by destruct O1| |done|done]. intros r y Hr' Hy Hya Hne. rewrite Hpte by done. by apply O2. }
    assert (where_is (vmm_get_pte s2 root x) = None) as W by (rewrite Hpte by done; by rewrite E).
    assert (accounted (pg !! (root, x)) (fno held) (fno held) s s2) as Ha.
    { rewrite Hm. split; intros g Hg; cbn; [rewrite decide_False by done; lia|]. rewrite U3 by done.
      destruct (Z.eqb_spec g j) as [->|Hne]; [by rewrite decide_True|by rewrite decide_False by congruence]. }
    split_and!; try done. apply (page_gone rs pl pg (fno held) _ s); try done. by left.
  - rewrite Hd. symmetry in Hm. split_and!; try done.
    + by rewrite delete_id.
    + split; intros; rewrite Hm, decide_False by done; lia.
    + unfold where_is. fold e. by rewrite Hp, Hsw.
    + split; try done. apply K.
Qed.

(** [unmap_one] on a page of user space. *)
Lemma unmap_one_ok : exists held' s', unmap_one root x (held, s) = inl (held', s') /\ page_dropped held' s'.
Proof.
  destruct (table_addr _ _ _ _ (pk_tables _ _ _ _ _ K) Hr) as [Hr0 _]. unfold unmap_one. rewrite get_phys_entry by lia. cbn zeta.
  destruct (has (vmm_get_pte s root x) VMM_PRESENT) eqn:Hp; [|eexists _, _; split; [done|by apply drop_absent]].
  destruct (present_cases Hp) as [Hf _]. rewrite (proj2 (Z.eqb_neq _ 0)) by (intros E; apply Hf; by rewrite E). cbn [negb].
  pose proof (drop_present Hp) as D. set (held1 := if has _ VMM_DEVICE then _ else _) in *. set (s1 := snd (vmm_unmap_page s root x)) in *.
  destruct (_ =? BATCH); [|by eexists _, _].
  destruct D as (D1&D2&D3&D4&D5). rewrite <- (app_nil_r (fno held1)) in D2. destruct (release_ok rs pl _ held1 [] s1 D2 D1) as (R1&R2&R3&R4&R5&R6).
  rewrite app_nil_r in R2. eexists _, _. split; [done|]. split_and!; [constructor|done| |by rewrite R3|].
  - destruct D3 as [A1 A2], R2 as [B1 B2]. split; intros g Hg.
    + rewrite B1, decide_False by done. rewrite A1 by done. lia.
    + rewrite B2, decide_False by done. rewrite A2 by done. lia.
  - destruct D5 as [O1 O2 O3 (O4&O5)]. split; [apply R1| | |].
    + intros r y Hr' Hy Hya Hne. rewrite R3 by done. by apply O2.
    + intros f off. rewrite R4. apply O3.
    + by rewrite R5, R6.
Qed.
End one.

(** * A range of pages *)

(** [pg] without the pages of [root] in a range. *)
Definition without (root start last : Z) (pg : gmap (Z * Z) location) : gmap (Z * Z) location :=
  filter (fun kv => ~ (kv.1.1 = root /\ start <= kv.1.2 < last /\ kv.1.2 mod PAGE_SIZE = 0)) pg.

Lemma without_lookup root start last pg r x :
  without root start last pg !! (r, x) = if decide (r = root /\ start <= x < last /\ x mod PAGE_SIZE = 0) then None else pg !! (r, x).
Proof.
  unfold without. rewrite map_lookup_filter. case_decide as H; destruct (pg !! (r, x)) as [w|]; cbn; try done.
  - rewrite option_guard_False; [done|]. cbn. intros H'. by apply H'.
  - by rewrite option_guard_True.
Qed.

Lemma without_nil root start pg : without root start start pg = pg.
Proof. apply map_filter_id. intros k w _. cbn. lia. Qed.

Lemma without_next root start page pg : start <= page -> page mod PAGE_SIZE = 0 ->
  without root start (page + PAGE_SIZE) pg = delete (root, page) (without root start page pg).
Proof.
  intros Hp Ha. apply map_eq. intros [r x]. rewrite without_lookup. destruct (decide ((r, x) = (root, page))) as [[= -> ->]|Hne].
  - rewrite lookup_delete_eq, decide_True; [done|]. unfold PAGE_SIZE in *. lia.
  - rewrite lookup_delete_ne, without_lookup by done. unfold PAGE_SIZE in *.
    repeat case_decide; try done; exfalso; [|lia].
    destruct (decide (x = page)) as [->|]; [|zlia]. apply Hne. f_equal. tauto.
Qed.

(** What is left when the range [start, last) of [root] is gone. *)
Record range_gone (rs : gset Z) (pl : gmap Z place) (pg : gmap (Z * Z) location) (root start last : Z) (held : list Z) (s s' : vmm) : Prop := {
  rg_pages : pages_ok rs pl (without root start last pg) (fno held) s';
  rg_same : forall r x, is_root pl r -> 0 <= x < USER_SPACE_END -> x mod PAGE_SIZE = 0 -> ~ (r = root /\ start <= x < last) ->
    vmm_get_pte s' r x = vmm_get_pte s r x;
  rg_gone : forall x, start <= x < last -> x < USER_SPACE_END -> x mod PAGE_SIZE = 0 -> where_is (vmm_get_pte s' root x) = None;
  rg_data : data_same s s' pl;
  rg_setup : hhdm s' = hhdm s /\ total_frames (frames (owned s')) = total_frames (frames (owned s));
  rg_frames : forall f, 0 <= f ->
    owners (owned s') f - refs (fno held) f = owners (owned s) f - (uses pg (InFrame f) - uses (without root start last pg) (InFrame f));
  rg_slots : forall j, 0 <= j ->
    get (slot_owners (swap_slots s')) j = get (slot_owners (swap_slots s)) j - (uses pg (InSlot j) - uses (without root start last pg) (InSlot j)) }.

Lemma range_next rs pl pg root start page held s s1 held2 s2 :
  is_root pl root -> 0 <= start <= page -> page < USER_SPACE_END -> page mod PAGE_SIZE = 0 ->
  range_gone rs pl pg root start page held s s1 ->
  page_dropped rs pl (without root start page pg) held s1 root page held2 s2 ->
  range_gone rs pl pg root start (page + PAGE_SIZE) held2 s s2.
Proof.
  intros Hr Hs Hp Ha [G1 G2 G3 G4 (G5&G6) G7 G8] (D1&D2&[D3 D4]&D5&[D6 D7 D8 (D9&D10)]).
  split; rewrite ?without_next by (done || lia); try done.
  - intros r x Hr' Hx Hxa Hn. rewrite D7; [apply G2; try done|try done..].
    + intros [? ?]. apply Hn. unfold PAGE_SIZE in *. lia.
    + intros [= -> ->]. apply Hn. unfold PAGE_SIZE. lia.
  - intros x Hx Hxu Hxa. destruct (decide (x = page)) as [->|Hne]; [done|]. assert (start <= x < page) by (unfold PAGE_SIZE in *; zlia).
    rewrite D7; [by apply G3|done|lia|done|congruence].
  - intros f off Hn Ho. rewrite <- G5, D8, G5 by (done || by rewrite G5). by apply G4.
  - by rewrite D9, D10.
  - intros f Hf. rewrite D3, G7 by done. rewrite (uses_delete (without root start page pg) (root, page)). lia.
  - intros j Hj. rewrite D4, G8 by done. rewrite (uses_delete (without root start page pg) (root, page)). lia.
Qed.

Lemma good_range root addr length : 0 <= addr -> bad_range root addr length = false ->
  addr mod PAGE_SIZE = 0 /\ 0 <> length /\ addr < USER_SPACE_END /\ length <= USER_SPACE_END - addr.
Proof.
  unfold bad_range. rewrite !orb_false_iff, !Z.eqb_neq, Z.leb_gt, Z.ltb_ge. intros Ha ((((_&Hl0)&Hal)&Hau)&Hlu). split_and!; try lia.
  unfold has in Hal. apply negb_false_iff, Z.eqb_eq in Hal. change (PAGE_SIZE - 1) with (Z.ones 12) in Hal. by rewrite Z.land_ones in Hal by lia.
Qed.

Lemma range_end addr length : 0 <= addr -> addr mod PAGE_SIZE = 0 -> 0 <= length -> length <= USER_SPACE_END - addr ->
  let last := addr + page_align_up length in
  addr <= last <= USER_SPACE_END /\ (last - addr) mod PAGE_SIZE = 0 /\ addr + length <= last /\ last < addr + length + PAGE_SIZE.
Proof.
  intros Ha Hal Hl Hlu. cbn zeta. rewrite page_align_up_eq by (unfold USER_SPACE_END in *; lia). unfold USER_SPACE_END, PAGE_SIZE in *. split_and!; zlia.
Qed.

Lemma unmap_range_spec rs pl pg s root addr length :
  pages_ok rs pl pg [] s -> root ∈ rs -> 0 <= addr < 0x10000000000000000 -> 0 <= length < 0x10000000000000000 ->
  let last := addr + page_align_up length in
  let '(r, s') := user_unmap_range s root addr length in
  if bad_range root addr length then r = -1 /\ s' = s else r = 0 /\ last <= USER_SPACE_END /\ range_gone rs pl pg root addr last [] s s'.
Proof.
  intros K Hin Ha Hl last. pose proof (pk_roots _ _ _ _ _ K root Hin) as Hr. destruct (table_addr _ _ _ _ (pk_tables _ _ _ _ _ K) Hr) as [Hr0 _]. unfold user_unmap_range.
  destruct (bad_range root addr length) eqn:Hb; [done|]. destruct (good_range _ _ _ (proj1 Ha) Hb) as (Hal'&Hl0&Hau&Hlu).
  destruct (range_end addr length (proj1 Ha) Hal' (proj1 Hl) Hlu) as ((H3&H1)&H2&_). fold last in H1, H2, H3.
  fold last. rewrite u64_small by (unfold USER_SPACE_END in *; lia).
  pose proof (for_pages_ind (unmap_one root) (fun page c => aligned c.1 /\ range_gone rs pl pg root addr page c.1 s c.2) (fun _ => False)
    addr last ltac:(lia) ltac:(unfold USER_SPACE_END in *; lia) H2) as HF.
  specialize (HF ltac:(intros page [held s1] Hp Hpa [G0 G]; cbn [fst snd] in *;
    assert (page mod PAGE_SIZE = 0) as Hpm by (unfold PAGE_SIZE in *; zlia);
    destruct (unmap_one_ok rs pl (without root addr page pg) held s1 root page (rg_pages _ _ _ _ _ _ _ _ _ G) G0 Hin ltac:(lia) Hpm) as (held2&s2&->&D);
    split; [apply D|]; eapply range_next; try done; lia)).
  specialize (HF ([], s) ltac:(split; [by apply Forall_nil_2|]; split; cbn [fst snd]; rewrite ?without_nil; try done; intros; rewrite ?refs_nil; lia)).
  destruct (for_pages _ _ _ _) as [[held s1]|]; [|done]. cbn [fst snd] in HF. destruct HF as [G0 [G1 G2 G3 G4 (G5&G6) G7 G8]]. split; [done|]. split; [done|].
  rewrite <- (app_nil_r (fno held)) in G1. destruct (release_ok rs pl _ held [] s1 G1 G0) as (R1&[R2 R2']&R3&R4&R5&R6). rewrite app_nil_r in R2.
  split; try done.
  - intros r x Hr' Hx Hxa Hn. rewrite R3 by done. by apply G2.
  - intros x Hx Hxu Hxa. rewrite R3 by done. by apply G3.
  - intros f off. rewrite R4. apply G4.
  - by rewrite R5, R6.
  - intros f Hf. rewrite R2, decide_False by done. rewrite G7 by done. lia.
  - intros j Hj. rewrite R2', decide_False by done. rewrite G8 by done. lia.
Qed.

(** * New pages *)

(** Frames in use keep their owners and, if they are no tables, their contents. *)
Definition used_same (pl : gmap Z place) (s s' : vmm) : Prop :=
  forall f, 0 <= f -> f ∉ abs (frames (owned s)) ->
    owners (owned s') f = owners (owned s) f /\
    (pl !! (f * PAGE_SIZE + hhdm s) = None -> forall off, 0 <= off < PAGE_SIZE ->
       ram s' (f * PAGE_SIZE + hhdm s + off) = ram s (f * PAGE_SIZE + hhdm s + off)).

Lemma used_same_trans pl pl' s1 s2 s3 : stay_used s1 s2 -> fresh_only s1 pl pl' ->
  used_same pl s1 s2 -> used_same pl' s2 s3 -> used_same pl s1 s3.
Proof.
  intros (Ht&Hh&Hst) Hfr H12 H23 f Hf Hu. destruct (H12 f Hf Hu) as [A1 A2], (H23 f Hf (Hst f Hf Hu)) as [B1 B2].
  split; [congruence|]. intros Hn off Ho. rewrite <- A2 by done. rewrite Hh in B2. apply B2; [|done]. by apply Hfr.
Qed.

Lemma write_word_other m a v x : x <> a -> write_word m a v x = m x.
Proof. intros Hx. unfold write_word. by rewrite (proj2 (Z.eqb_neq _ _) Hx). Qed.

Lemma set_entry_used pl s t p i v : tables s pl -> pl !! t = Some p -> index_ok i -> used_same pl s (set_entry s t i v).
Proof.
  intros Ht Hp Hi f Hf Hu. split; [done|]. intros Hn off Ho. cbn. apply write_word_other. by apply (data_not_slot s pl t p).
Qed.

Lemma fill_other m a v x : ~ (a <= x < a + PAGE_SIZE) -> fill_page m a v x = m x.
Proof. intros Hx. unfold fill_page. destruct (Z.leb_spec a x), (Z.ltb_spec x (a + PAGE_SIZE)); lia || done. Qed.

(** A frame is taken and zeroed. *)
Lemma alloc_zero_used s pl frame s1 : tables s pl -> vmm_alloc_frame s = (frame, s1) ->
  used_same pl s s1 /\ (frame <> 0 -> used_same pl s (set_ram s1 (fill_page (ram s1) (u64 (frame + hhdm s)) 0))).
Proof.
  intros Ht Ea. pose proof (alloc_owners s pl Ht) as HO. pose proof (alloc_tables s pl Ht) as HA. rewrite Ea in HO, HA.
  destruct HA as (A1&A2&A3&A4&A5). pose proof (alloc_frame_owners (owned s) (tb_cow _ _ Ht)) as HF.
  unfold vmm_alloc_frame in Ea. destruct (alloc_frame (owned s)) as [fr c] eqn:E. simplify_eq. destruct HF as (_&_&HF).
  assert (used_same pl s (set_owned s c)) as H1.
  { intros f Hf Hu. split; [|done]. cbn. destruct HF as [(_&HF)|(g&_&_&Hg&_&HF)]; [apply HF|]. apply HF. intros ->.
    apply (used_owners _ _ (tb_cow _ _ Ht) Hf) in Hu. lia. }
  split; [done|]. intros Hne. destruct (HO Hne) as (g&->&Hg&Hin&_). intros f Hf Hu. destruct (H1 f Hf Hu) as [B1 _]. split; [done|].
  intros Hn off Ho. cbn. apply fill_other. pose proof (tb_hhdm _ _ Ht) as (?&?&?). rewrite u64_small by (unfold PAGE_SIZE in *; lia).
  assert (f <> g) by (intros ->; done). unfold PAGE_SIZE in *. lia.
Qed.

Lemma next_level_used s pl t p i flags : tables s pl -> pl !! t = Some p -> index_ok i ->
  used_same pl s (get_next_level s t i true flags).2.
Proof.
  intros Ht Hp Hi. unfold get_next_level. destruct (_ && _); [by intros f|]. destruct (_ && _).
  { destruct (has flags VMM_USER); [by eapply set_entry_used|by intros f]. }
  cbn [negb]. pose proof (alloc_tables s pl Ht) as HA. destruct (vmm_alloc_frame s) as [frame s1] eqn:Ea.
  destruct HA as (A1&(Hh&_)&A3&A4&A5). destruct (alloc_zero_used s pl frame s1 Ht Ea) as [U1 U2].
  destruct (Z.eqb_spec frame 0) as [|Hne]; [done|]. cbn [snd]. rewrite Hh. destruct A5 as [|(f&->&[_ Hft]&Hin&Hnin&Hn)]; [done|].
  eapply used_same_trans; [| |by apply U2|]; [done|by intros k|].
  apply (set_entry_used pl _ t p); [|done|done]. eapply data_tables; [done| |exact Hn|].
  - pose proof (tb_hhdm _ _ Ht) as (?&?&?). unfold PAGE_SIZE in *. zlia.
  - intros x Hx. pose proof (tb_hhdm _ _ Ht) as (?&?&?). rewrite u64_small by (unfold PAGE_SIZE in *; lia). by apply fill_other.
Qed.

Lemma make_levels_used flags : forall path s pl t p, tables s pl -> pl !! t = Some p -> (length (snd p) + length path = 3)%nat ->
  Forall index_ok path -> used_same pl s (make_levels s t path flags).2.
Proof.
  induction path as [|i path IH]; intros s pl t p Ht Hp Hl Hpath; cbn [make_levels]; [by intros f|].
  apply Forall_cons in Hpath as [Hi Hpath]. cbn [length] in Hl. pose proof (next_level_used s pl t p i flags Ht Hp Hi) as U1.
  pose proof (next_level_spec s pl t p i flags Ht Hp ltac:(lia) Hi) as HN. destruct (get_next_level s t i true flags) as [t1 s1].
  destruct HN as (pl1&T1&_&_&_&_&St1&Fr1&Hb1). destruct (Z.eqb_spec t1 0) as [->|Hne]; [done|].
  eapply used_same_trans; [exact St1|exact Fr1|exact U1|]. destruct (Hb1 Hne) as [_ Hp1]. eapply IH; [done|exact Hp1| |done].
  unfold child. destruct p as [o [|a q]]; simpl in *; [lia|]. rewrite length_app. simpl. lia.
Qed.

Lemma map_page_used s pl root x phys flags : tables s pl -> is_root pl root -> used_same pl s (vmm_map_page s root x phys flags).2.
Proof.
  intros Ht Hr. destruct (table_addr _ _ _ _ Ht Hr) as [Hr0 _]. unfold vmm_map_page, or_kernel. destruct (Z.eqb_spec root 0); [lia|]. rewrite walk_make.
  pose proof (make_levels_used flags (path_of x) s pl root (root, []) Ht Hr eq_refl (path_of_ok x)) as U.
  pose proof (make_levels_spec flags (path_of x) s pl root (root, []) Ht Hr eq_refl (path_of_ok x)) as HM.
  destruct (make_levels s root (path_of x) flags) as [pt s1]. destruct HM as (pl1&T1&Sub&_&_&_&St&Fr&Hd). destruct (Z.eqb_spec pt 0) as [|Hpt]; [done|].
  eapply used_same_trans; [exact St|exact Fr|exact U|]. specialize (Hd Hpt). rewrite <- Hd in Hpt |- *.
  destruct (descend_place s1 pl1 T1 (path_of x) root (root, []) (pl_root_weaken _ _ _ Sub Hr) ltac:(simpl; lia) (path_of_ok x) Hpt) as (o&Hp&_).
  eapply set_entry_used; [done|exact Hp|]. apply index_range.
Qed.

(** Tables grow, and a page may get a fresh frame. *)
Lemma pages_grow rs pl pl' pg pg' s s' :
  pages_ok rs pl pg [] s -> tables s' pl' -> pl ⊆ pl' -> stay_used s s' -> fresh_only s pl pl' -> swap_slots s' = swap_slots s ->
  used_same pl s s' ->
  (forall r x, r ∈ rs -> 0 <= x < USER_SPACE_END -> x mod PAGE_SIZE = 0 -> where_is (vmm_get_pte s' r x) = pg' !! (r, x)) ->
  (pg' = pg \/ exists k f, pg' = <[k := InFrame f]> pg /\ 1 <= f < total_frames (frames (owned s)) /\
     pl' !! (f * PAGE_SIZE + hhdm s) = None /\ f ∈ abs (frames (owned s)) /\ owners (owned s') f = 1) ->
  pages_ok rs pl' pg' [] s'.
Proof.
  intros K Ht Hsub (Htot&Hh&Hst) Hfr Hsl Hus Hmap Hpg. pose proof (tb_cow _ _ (pk_tables _ _ _ _ _ K)) as Hc.
  assert (forall k w, pg' !! k = Some w -> pg !! k = Some w \/ exists f, w = InFrame f /\ 1 <= f < total_frames (frames (owned s)) /\ pl' !! (f * PAGE_SIZE + hhdm s) = None) as Hold.
  { intros k w. destruct Hpg as [->|(k'&f&->&Hf&Hn&_)]; [by left|]. intros [(_&<-)|(_&?)]%lookup_insert_Some; [|by left]. right. by exists f. }
  assert (forall w, uses pg' w <= uses pg w + match w with InFrame f => if bool_decide (f ∈ abs (frames (owned s))) then 1 else 0 | _ => 0 end) as Huse.
  { intros w. destruct Hpg as [->|(k'&f&->&Hf&Hn&Hin&_)].
    - destruct w; [case_bool_decide|..]; lia.
    - rewrite uses_insert. destruct w as [g|g|j]; [destruct (decide (InFrame f = InFrame g)) as [[= ->]|]; [rewrite bool_decide_true by done|case_bool_decide]|..];
        repeat case_decide; simplify_eq; lia. }
  pose proof (pk_roots _ _ _ _ _ K) as Hrs. split; rewrite ?Htot, ?Hh, ?Hsl; try done.
  - intros r Hr. by eapply pl_root_weaken; [|apply Hrs].
  - intros k f E. destruct (Hold _ _ E) as [E'|(g&[= ->]&?&?)]; [|done]. destruct (pk_frame _ _ _ _ _ K _ _ E') as [Hf Hn]. split; [done|].
    apply Hfr; [lia| |done]. apply owners_used. pose proof (pk_owners _ _ _ _ _ K f ltac:(lia)) as Ho. rewrite refs_nil in Ho. pose proof (uses_pos _ _ _ E'). lia.
  - set_solver.
  - intros k f E. destruct (Hold _ _ E) as [E'|(g&?&_)]; [by eapply pk_device|done].
  - intros f Hf. rewrite refs_nil. pose proof (pk_owners _ _ _ _ _ K f Hf) as Ho. rewrite refs_nil in Ho. pose proof (Huse (InFrame f)) as Hu. cbn iota beta in Hu.
    case_bool_decide as Hin.
    + unfold owners in Ho. rewrite bool_decide_true in Ho by done. destruct Hpg as [->|(k'&g&->&_&_&_&Hg)].
      * unfold uses in *. unfold owners. pose proof (co_range _ (tb_cow _ _ Ht) f Hf). case_bool_decide; lia.
      * destruct (decide (g = f)) as [->|Hne]; [lia|]. rewrite uses_insert, decide_False by congruence. pose proof (co_range _ (tb_cow _ _ Ht) f Hf). unfold owners. unfold uses in *. case_bool_decide; case_decide; lia.
    + destruct (Hus f Hf Hin) as [-> _]. lia.
  - intros k j E. destruct (Hold _ _ E) as [E'|(g&?&_)]; [by eapply pk_slot|done].
  - intros j Hj. pose proof (pk_slot_owners _ _ _ _ _ K j Hj). specialize (Huse (InSlot j)). cbn iota beta in Huse. lia.
Qed.

(** A page of zeros with the rights in [flags]. *)
Definition zero_page (s : vmm) (root x flags : Z) : Prop :=
  exists f, 1 <= f < total_frames (frames (owned s)) /\
    vmm_get_pte s root x = Z.lor (Z.lor (f * PAGE_SIZE) (Z.lor (Z.lor flags VMM_PRESENT) VMM_USER)) VMM_PRESENT /\
    forall off, 0 <= off < PAGE_SIZE -> ram s (f * PAGE_SIZE + hhdm s + off) = 0.

Definition plain (flags : Z) : Prop := Z.land flags PTE_ADDR_MASK = 0 /\ has flags VMM_DEVICE = false.

Lemma new_entry f flags : 0 <= f < 0x10000000000 -> plain flags ->
  where_is (Z.lor (Z.lor (f * PAGE_SIZE) (Z.lor (Z.lor flags VMM_PRESENT) VMM_USER)) VMM_PRESENT) = Some (InFrame f).
Proof.
  intros Hf [Hm Hd]. unfold where_is. rewrite !has_lor_l. change (has VMM_PRESENT VMM_PRESENT) with true. rewrite orb_true_r.
  assert (has (f * PAGE_SIZE) VMM_DEVICE = false) as ->.
  { unfold has. rewrite <- (frame_masked f Hf), <- Z.land_assoc. change (Z.land PTE_ADDR_MASK VMM_DEVICE) with 0. by rewrite Z.land_0_r. }
  rewrite Hd. change (has VMM_PRESENT VMM_DEVICE) with false. change (has VMM_USER VMM_DEVICE) with false. cbn [orb]. do 2 f_equal.
  rewrite <- Z.lor_assoc, mask_frame; [unfold PAGE_SIZE; zlia|done|]. rewrite !Z.land_lor_distr_l, Hm. done.
Qed.

(** A frame that was taken and not used goes back. *)
Lemma frame_back rs pl pl' pg s s3 f :
  pages_ok rs pl pg [] s -> tables s3 pl' -> pl ⊆ pl' -> stay_used s s3 -> fresh_only s pl pl' -> used_same pl s s3 -> swap_slots s3 = swap_slots s ->
  1 <= f < total_frames (frames (owned s)) -> f ∈ abs (frames (owned s)) -> owners (owned s3) f = 1 -> pl' !! (f * PAGE_SIZE + hhdm s) = None ->
  (forall r y, r ∈ rs -> 0 <= y < USER_SPACE_END -> y mod PAGE_SIZE = 0 -> vmm_get_pte s3 r y = vmm_get_pte s r y) ->
  let s4 := vmm_free_frame (f * PAGE_SIZE) s3 in
  pages_ok rs pl' pg [] s4 /\ stay_used s s4 /\ used_same pl s s4 /\
  (forall r y, r ∈ rs -> 0 <= y < USER_SPACE_END -> y mod PAGE_SIZE = 0 -> vmm_get_pte s4 r y = vmm_get_pte s r y).
Proof.
  intros K T3 Sub St Fr Us S4 Hf Hfin Ho3 Hn3 P3. pose proof (pk_roots _ _ _ _ _ K) as Hrs. pose proof (pk_tables _ _ _ _ _ K) as Ht.
  assert (total_frames (frames (owned s3)) = total_frames (frames (owned s))) as Htot by apply St.
  pose proof (free_is_unref (owned s3) f (tb_cow _ _ T3) ltac:(lia) Ho3) as Hfree. cbn zeta.
  assert (vmm_free_frame (f * PAGE_SIZE) s3 = vmm_unref_frame (f * PAGE_SIZE) s3) as -> by (unfold vmm_free_frame, vmm_unref_frame; by rewrite Hfree).
  assert (hhdm s3 = hhdm s) as Hh by apply St. assert (f ∉ abs (frames (owned s3))) as Hfn3 by (apply owners_used; lia).
  destruct (unref_frame_spec (owned s3) f (tb_cow _ _ T3) ltac:(lia) Hfn3) as (W1&W2&W3&W4). set (s4 := vmm_unref_frame _ s3).
  change (pmm_unref_frame (f * PAGE_SIZE) (owned s3)) with (owned s4) in *.
  assert (tables s4 pl') as T4 by (apply unref_tables; [done|lia|done|by rewrite Hh]).
  assert (hhdm s4 = hhdm s3) as Hh4 by apply unref_hhdm.
  assert (used_same pl s s4) as Us4. { intros k Hk Hku. destruct (Us k Hk Hku). rewrite W4; [done|done|by intros ->]. }
  assert (stay_used s s4) as St4.
  { split_and!; [congruence|congruence|]. intros k Hk Hku. apply owners_used. rewrite (proj1 (Us4 k Hk Hku)). by apply (used_owners _ _ (tb_cow _ _ Ht)). }
  assert (forall r y, r ∈ rs -> 0 <= y < USER_SPACE_END -> y mod PAGE_SIZE = 0 -> vmm_get_pte s4 r y = vmm_get_pte s r y) as P4.
  { intros r y Hr' Hy Hya. destruct (table_addr _ _ _ _ Ht (Hrs r Hr')). rewrite (pte_ext s3 s4) by (done || lia). by apply P3. }
  split_and!; try done. apply (pages_grow rs pl pl' pg pg s s4); try done; [|by left]. intros r y Hr' Hy Hya. rewrite P4 by done. by apply K.
Qed.

Lemma alloc_user_page_ok rs pl pg s root x flags :
  pages_ok rs pl pg [] s -> root ∈ rs -> 0 <= x < USER_SPACE_END -> x mod PAGE_SIZE = 0 -> plain flags ->
  let '(view, s') := vmm_alloc_user_page s root x flags in
  exists pl' pg', pages_ok rs pl' pg' [] s' /\ pl ⊆ pl' /\ stay_used s s' /\ fresh_only s pl pl' /\ used_same pl s s' /\ swap_slots s' = swap_slots s /\
    (forall r y, r ∈ rs -> 0 <= y < USER_SPACE_END -> y mod PAGE_SIZE = 0 -> view = 0 \/ (r, y) <> (root, x) -> vmm_get_pte s' r y = vmm_get_pte s r y) /\
    (view <> 0 -> zero_page s' root x flags).
Proof.
  intros K Hin Hx Hxa Hfl. pose proof (pk_roots _ _ _ _ _ K) as Hrs. pose proof (Hrs _ Hin) as Hr. pose proof (pk_tables _ _ _ _ _ K) as Ht.
  destruct (table_addr _ _ _ _ Ht Hr) as [Hr0 _]. pose proof (tb_hhdm _ _ Ht) as (Hh1&Hh2&Hh3).
  unfold vmm_alloc_user_page. rewrite (proj2 (Z.eqb_neq root 0)), (proj2 (Z.leb_gt USER_SPACE_END x)) by lia. cbn [orb].
  assert (page_of x = x) as -> by (rewrite page_of_eq by (unfold USER_SPACE_END in *; lia); change 4096 with PAGE_SIZE; lia).
  pose proof (alloc_tables s pl Ht) as HA. pose proof (alloc_owners s pl Ht) as HO. destruct (vmm_alloc_frame s) as [frame s1] eqn:Ea.
  destruct (alloc_zero_used s pl frame s1 Ht Ea) as [U1 U2]. destruct HA as (A1&(A2&_&_&A2'&_)&A3&A4&A5).
  assert (same_ptes pl s s1) as P1. { intros r y Hr'. destruct (table_addr _ _ _ _ Ht Hr'). by apply pte_ext; [lia|..]. }
  assert (fresh_only s pl pl) as F0 by (by intros k). destruct (Z.eqb_spec frame 0) as [->|Hne].
  { exists pl, pg. split_and!; try done; [|intros; by apply P1, Hrs]. apply (pages_grow rs pl pl pg pg s s1); try done; [|by left].
    intros r y Hy. rewrite P1 by by apply Hrs. by apply K. }
  destruct (HO Hne) as (f&->&Hf&Hfin&Hf1&_). destruct A5 as [|(g&Eg&_&_&Hfn&Hn)]; [done|]. assert (g = f) as -> by (unfold PAGE_SIZE in *; lia). clear Eg.
  specialize (U2 Hne). rewrite A2. rewrite u64_small in U2 |- * by (unfold PAGE_SIZE in *; lia). set (base := f * PAGE_SIZE + hhdm s) in *.
  set (s2 := set_ram s1 (fill_page (ram s1) base 0)) in *.
  destruct (data_tables s1 pl base (fill_page (ram s1) base 0) A1) as (T2&V2&_); [unfold base, PAGE_SIZE in *; zlia|done|intros y Hy; by apply fill_other|]. fold s2 in T2, V2.
  assert (same_ptes pl s s2) as P2. { intros r y Hr'. rewrite (same_view_pte s1 s2 pl) by done. by apply P1. }
  assert (forall off, 0 <= off < PAGE_SIZE -> ram s2 (base + off) = 0) as Hz.
  { intros off Ho. cbn. unfold fill_page. by rewrite (proj2 (Z.leb_le _ _)), (proj2 (Z.ltb_lt _ _)) by lia. }
  pose proof (map_page_used s2 pl root x (f * PAGE_SIZE) (Z.lor (Z.lor flags VMM_PRESENT) VMM_USER) T2 Hr) as U3.
  pose proof (map_page_spec s2 pl root x (f * PAGE_SIZE) (Z.lor (Z.lor flags VMM_PRESENT) VMM_USER) T2 Hr) as HM.
  destruct (vmm_map_page s2 root x _ _) as [ok s3]. destruct HM as (pl'&T3&Sub&(S1&_&S3&S4&_)&St3&Fr3&Hok&Hoth). cbn [snd] in U3.
  assert (stay_used s s3) as St by (by eapply stay_used_trans; [|exact St3]).
  assert (fresh_only s pl pl') as Fr by (by eapply fresh_only_trans; [exact A3|exact F0|exact Fr3]).
  assert (used_same pl s s3) as Us by (eapply (used_same_trans pl pl s s2 s3); [exact A3|exact F0|exact U2|exact U3]).
  assert (f ∉ abs (frames (owned s2))) as Hfn2 by done. destruct (U3 f ltac:(lia) Hfn2) as [Ho3 Hd3].
  assert (hhdm s2 = hhdm s) as Hhs by exact A2. rewrite Hhs in Hd3, S1. change (owned s2) with (owned s1) in Ho3. rewrite Hf1 in Ho3. specialize (Hd3 Hn).
  assert (pl' !! base = None) as Hn3 by (pose proof (Fr3 f ltac:(lia) Hfn2) as HF; rewrite Hhs in HF; by apply HF).
  assert (forall r y, r ∈ rs -> 0 <= y < USER_SPACE_END -> y mod PAGE_SIZE = 0 -> ok = false \/ (r, y) <> (root, x) -> vmm_get_pte s3 r y = vmm_get_pte s r y) as P3.
  { intros r y Hr' Hy Hya Hc. rewrite Hoth; [by apply P2, Hrs|by apply Hrs|]. destruct Hc as [|Hc]; [by left|right]. by apply (user_slots pl); auto. }
  destruct ok.
  - rewrite frame_masked in Hok by (pose proof (tb_phys _ _ Ht); lia). specialize (Hok eq_refl).
    assert (zero_page s3 root x flags) as Hzp. { exists f. split; [by rewrite (proj1 St)|]. split; [done|]. intros off Ho. rewrite S1. rewrite Hd3 by done. by apply Hz. }
    exists pl', (<[(root, x) := InFrame f]> pg). split_and!; try done.
    + apply (pages_grow rs pl pl' pg _ s s3); try done; [by rewrite S4| |right; exists (root, x), f; by split_and!; try done; lia].
      intros r y Hr' Hy Hya. destruct (decide ((r, y) = (root, x))) as [[= -> ->]|Hc].
      * rewrite lookup_insert_eq, Hok. apply new_entry; [pose proof (tb_phys _ _ Ht); lia|done].
      * rewrite lookup_insert_ne, P3 by auto. by apply K.
    + by rewrite S4.
    + intros r y Hr' Hy Hya [Hv|Hc]; [unfold base, PAGE_SIZE in *; lia|]. apply P3; auto.
  - destruct (frame_back rs pl pl' pg s s3 f K) as (B1&B2&B3&B4); try done; [by rewrite S4|by intros; apply P3; auto|].
    exists pl', pg. split_and!; try done; [by cbn; rewrite S4|by intros; apply B4].
Qed.

(** * Why a page cannot be had *)

(** A large page is in the way down [path], or a table at address 0. *)
Fixpoint obstructed (s : vmm) (t : Z) (path : list Z) : bool :=
  match path with
  | [] => false
  | i :: path =>
      let e := entry s t i in
      has e VMM_PRESENT && (has e VMM_HUGE || (let t' := u64 (Z.land e PTE_ADDR_MASK + hhdm s) in (t' =? 0) || obstructed s t' path))
  end.
(** There may be too few frames for a page and the three tables above it. *)
Definition short (s : vmm) (root x : Z) : Prop := obstructed s root (path_of x) = true \/ (size (abs (frames (owned s))) < 4)%nat.

Lemma child_depth t p i : length (snd (child t p i)) = S (length (snd p)).
Proof. unfold child. destruct p as [o [|a q]]; [done|]. cbn. rewrite length_app. cbn. lia. Qed.

(** Only the tables from [t] down count. *)
Lemma obstructed_ext s s' pl n : tables s pl -> hhdm s' = hhdm s ->
  (forall t p i, pl !! t = Some p -> (n <= length (snd p))%nat -> index_ok i -> entry s' t i = entry s t i) ->
  forall path t p, pl !! t = Some p -> (n <= length (snd p))%nat -> (length (snd p) + length path = 3)%nat -> Forall index_ok path ->
  obstructed s' t path = obstructed s t path.
Proof.
  intros Ht Hh He. induction path as [|i path IH]; intros t p Hp Hn Hl Hpath; [done|]. apply Forall_cons in Hpath as [Hi Hpath]. cbn in Hl. cbn [obstructed].
  rewrite Hh, (He t p i Hp Hn Hi). destruct (has (entry s t i) VMM_PRESENT) eqn:Hpr; [|done]. destruct (has (entry s t i) VMM_HUGE) eqn:Hhu; [done|]. cbn [andb orb].
  destruct (Z.eqb_spec (u64 (Z.land (entry s t i) PTE_ADDR_MASK + hhdm s)) 0) as [|Hne]; [done|]. cbn [orb].
  assert (below s t i = u64 (Z.land (entry s t i) PTE_ADDR_MASK + hhdm s)) as Hb by (unfold below; by rewrite Hpr, Hhu).
  pose proof (tb_child _ _ Ht t p i Hp ltac:(lia) Hi ltac:(by rewrite Hb)) as Hc. rewrite Hb in Hc. apply (IH _ _ Hc); rewrite ?child_depth; [lia|lia|done].
Qed.

(** A new table is in nobody's way. *)
Lemma new_level_clear s1 pl t i base v path : 0 <= base -> base mod PAGE_SIZE = 0 -> t mod PAGE_SIZE = 0 -> t <> base -> index_ok i -> Forall index_ok path ->
  tables s1 pl -> obstructed (set_entry (set_ram s1 (fill_page (ram s1) base 0)) t i v) base path = false.
Proof.
  intros Hb Hba Hta Hne Hi Hpath Ht. destruct path as [|j path]; [done|]. apply Forall_cons in Hpath as [Hj _]. cbn [obstructed]. 
  assert (entry (set_entry (set_ram s1 (fill_page (ram s1) base 0)) t i v) base j = 0) as ->; [|done].
  unfold entry, set_entry, write_word. cbn. destruct (Z.eqb_spec (slot_at base j) (slot_at t i)) as [E|_]; [apply slot_at_inj in E as [? _]; done|].
  unfold fill_page, slot_at, index_ok, PAGE_SIZE in *. by rewrite (proj2 (Z.leb_le _ _)), (proj2 (Z.ltb_lt _ _)) by lia.
Qed.

Lemma take_size (A : gset Z) f : f ∈ A -> size A = S (size (A ∖ {[f]})).
Proof. intros Hf. rewrite (union_difference_L {[f]} A) at 1 by set_solver. rewrite size_union by set_solver. by rewrite size_singleton. Qed.

(** One level: it is there, or a frame is taken for it. *)
Lemma next_level_fails s pl t p i path flags :
  tables s pl -> pl !! t = Some p -> (length (snd p) < 3)%nat -> index_ok i -> (length (snd p) + length (i :: path) = 3)%nat -> Forall index_ok path ->
  let '(t', s') := get_next_level s t i true flags in
  obstructed s t (i :: path) = true \/
  (t' = 0 /\ size (abs (frames (owned s))) = 0%nat) \/
  (t' <> 0 /\ obstructed s' t' path = false /\ (size (abs (frames (owned s))) <= S (size (abs (frames (owned s')))))%nat).
Proof.
  intros Ht Hp Hlen Hi Hl Hpath. destruct (table_addr _ _ _ _ Ht Hp) as [Ht0 Hta]. unfold get_next_level. cbn [obstructed]. set (e := entry s t i).
  destruct (has e VMM_PRESENT) eqn:Hpr; cbn [andb negb].
  - destruct (has e VMM_HUGE) eqn:Hhu; [by left|]. cbn [negb orb]. destruct (Z.eqb_spec (u64 (Z.land e PTE_ADDR_MASK + hhdm s)) 0) as [|Hne]; [by left|]. cbn [orb].
    destruct (obstructed s (u64 (Z.land e PTE_ADDR_MASK + hhdm s)) path) eqn:Ho; [by left|]. right. right.
    assert (below s t i = u64 (Z.land e PTE_ADDR_MASK + hhdm s)) as Hb by (unfold below; fold e; by rewrite Hpr, Hhu).
    pose proof (tb_child _ _ Ht t p i Hp Hlen Hi ltac:(by rewrite Hb)) as Hc. rewrite Hb in Hc. destruct (has flags VMM_USER).
    + set (s' := set_entry s t i (Z.lor e VMM_USER)). assert (Z.land (entry s' t i) PTE_ADDR_MASK = Z.land e PTE_ADDR_MASK) as ->.
      { unfold s'. rewrite (entry_set s pl t i t i _ p), !Z.eqb_refl by done. cbn [andb]. rewrite Z.land_lor_distr_l. change (Z.land VMM_USER PTE_ADDR_MASK) with 0. apply Z.lor_0_r. }
      change (hhdm s') with (hhdm s). split; [done|]. split; [|cbn; lia]. rewrite <- Ho. cbn in Hl. apply (obstructed_ext s s' pl (S (length (snd p))) Ht eq_refl) with (p := child t p i); rewrite ?child_depth; try done; [|lia].
      intros t1 p1 j Hp1 Hn Hj. destruct (table_addr _ _ _ _ Ht Hp1) as [_ Ha1]. unfold s'. rewrite (entry_set s pl t i t1 j _ p) by done.
      destruct (Z.eqb_spec t1 t) as [->|]; [|done]. rewrite Hp in Hp1. injection Hp1 as <-. lia.
    + fold e. split; [done|]. split; [done|lia].
  - pose proof (alloc_tables s pl Ht) as HA. pose proof (alloc_frame_spec (owned s) (tb_cow _ _ Ht)) as HF. unfold vmm_alloc_frame in *.
    destruct (alloc_frame (owned s)) as [frame c]. destruct HA as (A1&(Hh&_)&_&_&A5). destruct HF as (_&_&_&[(->&_&HE)|(g&->&Hg&Hgin&Habs)]); [right; left; split; [done|by rewrite HE, size_empty]|].
    destruct (Z.eqb_spec (g * PAGE_SIZE) 0); [unfold PAGE_SIZE in *; lia|]. right. right. destruct A5 as [|(f&Ef&[_ Hft]&_&_&Hn)]; [done|]. assert (g = f) as -> by (unfold PAGE_SIZE in *; lia).
    pose proof (tb_hhdm _ _ Ht) as (?&?&?). rewrite Hh, u64_small by (unfold PAGE_SIZE in *; lia). split; [unfold PAGE_SIZE in *; lia|]. split.
    + apply (new_level_clear _ pl); try done; unfold PAGE_SIZE in *; [lia|zlia|intros ->; congruence].
    + cbn. rewrite Habs, (take_size _ f) by done. lia.
Qed.

Lemma make_levels_fails flags : forall path s pl t p s', tables s pl -> pl !! t = Some p -> (length (snd p) + length path = 3)%nat -> Forall index_ok path ->
  t <> 0 -> make_levels s t path flags = (0, s') -> obstructed s t path = true \/ (size (abs (frames (owned s))) < length path)%nat.
Proof.
  induction path as [|i path IH]; intros s pl t p s' Ht Hp Hl Hpath Ht0; cbn [make_levels]; [congruence|]. apply Forall_cons in Hpath as [Hi Hpath].
  assert (length (snd p) < 3)%nat as Hlt by (cbn in Hl; lia). pose proof (next_level_fails s pl t p i path flags Ht Hp Hlt Hi Hl Hpath) as HN.
  pose proof (next_level_spec s pl t p i flags Ht Hp Hlt Hi) as HS. destruct (get_next_level s t i true flags) as [t1 s1]. destruct HS as (pl1&T1&_&_&_&_&_&_&Hb1).
  destruct HN as [|[[_ HE]|(Hne&Ho&Hs)]]; [by left|right; cbn; lia|]. rewrite (proj2 (Z.eqb_neq _ _) Hne). destruct (Hb1 Hne) as [_ Hp1].
  intros E. right. cbn [length] in *. destruct (IH s1 pl1 t1 _ s' T1 Hp1 ltac:(rewrite child_depth; lia) Hpath Hne E) as [|Hlen]; [congruence|lia].
Qed.

Lemma alloc_user_page_fails s pl root x flags s' :
  tables s pl -> is_root pl root -> 0 <= x < USER_SPACE_END -> x mod PAGE_SIZE = 0 -> vmm_alloc_user_page s root x flags = (0, s') -> short s root x.
Proof.
  intros Ht Hr Hx Hxa. destruct (table_addr _ _ _ _ Ht Hr) as [Hr0 _]. pose proof (tb_hhdm _ _ Ht) as (Hh1&Hh2&Hh3). unfold short.
  unfold vmm_alloc_user_page. rewrite (proj2 (Z.eqb_neq root 0)), (proj2 (Z.leb_gt USER_SPACE_END x)) by lia. cbn [orb].
  assert (page_of x = x) as -> by (rewrite page_of_eq by (unfold USER_SPACE_END in *; lia); change 4096 with PAGE_SIZE; lia).
  pose proof (alloc_tables s pl Ht) as HA. pose proof (alloc_frame_spec (owned s) (tb_cow _ _ Ht)) as HF. unfold vmm_alloc_frame in *.
  destruct (alloc_frame (owned s)) as [frame c]. destruct HA as (A1&(Hh&_)&_&_&A5). destruct HF as (_&_&_&[(->&_&HE)|(g&->&Hg&Hgin&Habs)]); [intros _; right; rewrite HE, size_empty; lia|].
  destruct A5 as [E0|(f&Ef&_&_&_&Hn)]; [unfold PAGE_SIZE in *; lia|]. assert (g = f) as -> by (unfold PAGE_SIZE in *; lia).
  destruct (Z.eqb_spec (f * PAGE_SIZE) 0); [unfold PAGE_SIZE in *; lia|]. rewrite Hh, u64_small by (unfold PAGE_SIZE in *; lia). set (s1 := set_owned s c) in *. set (base := f * PAGE_SIZE + hhdm s) in *.
  assert (base mod PAGE_SIZE = 0) as Hba by (unfold base, PAGE_SIZE in *; zlia).
  destruct (data_tables s1 pl base (fill_page (ram s1) base 0) A1 Hba Hn) as (T2&_&_); [intros y Hy; by apply fill_other|].
  set (s2 := set_ram s1 (fill_page (ram s1) base 0)) in *. unfold vmm_map_page, or_kernel. rewrite (proj2 (Z.eqb_neq root 0)), walk_make by lia.
  destruct (make_levels s2 root (path_of x) _) as [pt s3] eqn:Em. destruct (Z.eqb_spec pt 0) as [->|]; [|intros [= E _]; unfold base, PAGE_SIZE in *; lia]. intros _.
  destruct (make_levels_fails _ (path_of x) s2 pl root (root, []) s3 T2 Hr eq_refl (path_of_ok x) ltac:(lia) Em) as [Ho|Hs].
  - left. rewrite <- Ho. symmetry. apply (obstructed_ext s s2 pl 0 Ht Hh) with (p := (root, [])); [|done|cbn; lia|done|apply path_of_ok].
    intros t p i Hp _ Hi. destruct (table_addr _ _ _ _ Ht Hp) as [_ Hal]. unfold entry. cbn. apply fill_other. assert (t <> base) by congruence.
    unfold slot_at, index_ok, PAGE_SIZE in *. zlia.
  - right. change (owned s2) with c in Hs. rewrite Habs in Hs. rewrite (take_size _ f Hgin). cbn in Hs. lia.
Qed.

Lemma zero_page_stays rs pl pg s s' root x flags :
  pages_ok rs pl pg [] s -> used_same pl s s' -> stay_used s s' -> root ∈ rs -> 0 <= x < USER_SPACE_END -> x mod PAGE_SIZE = 0 -> plain flags ->
  vmm_get_pte s' root x = vmm_get_pte s root x -> zero_page s root x flags -> zero_page s' root x flags.
Proof.
  intros K U (Htot&Hh&_) Hr Hx Hxa Hfl E (f&Hf&He&Hz). exists f. rewrite Htot, E, Hh. split_and!; [lia|lia|done|]. intros off Ho.
  pose proof (pk_map _ _ _ _ _ K root x Hr Hx Hxa) as Hm. rewrite He, new_entry in Hm; [|pose proof (tb_phys _ _ (pk_tables _ _ _ _ _ K)); lia|done].
  symmetry in Hm. destruct (pk_frame _ _ _ _ _ K _ _ Hm) as [_ Hn]. pose proof (pk_owners _ _ _ _ _ K f ltac:(lia)) as Hu. pose proof (uses_pos _ _ _ Hm).
  rewrite refs_nil in Hu. destruct (U f ltac:(lia)) as [_ Hd]; [apply owners_used; lia|]. rewrite Hd by done. by apply Hz.
Qed.

(** The pages of [start, page) of [root] are there: those that were, and zeroed ones. *)
Record range_given (rs : gset Z) (pl : gmap Z place) (root start page flags : Z) (s s' : vmm) : Prop := {
  rv_pages : exists pl' pg', pages_ok rs pl' pg' [] s' /\ pl ⊆ pl' /\ fresh_only s pl pl';
  rv_used : stay_used s s' /\ used_same pl s s';
  rv_slots : swap_slots s' = swap_slots s;
  rv_same : forall r x, r ∈ rs -> 0 <= x < USER_SPACE_END -> x mod PAGE_SIZE = 0 -> ~ (r = root /\ start <= x < page) ->
    vmm_get_pte s' r x = vmm_get_pte s r x;
  rv_given : forall x, start <= x < page -> x < USER_SPACE_END -> x mod PAGE_SIZE = 0 ->
    if has (vmm_get_pte s root x) VMM_PRESENT then vmm_get_pte s' root x = vmm_get_pte s root x else zero_page s' root x flags }.

Lemma map_one_ok rs pl root start page flags s s1 :
  root ∈ rs -> 0 <= start <= page -> page < USER_SPACE_END -> page mod PAGE_SIZE = 0 -> plain flags ->
  range_given rs pl root start page flags s s1 ->
  match map_one root flags page s1 with
  | inl s2 => range_given rs pl root start (page + PAGE_SIZE) flags s s2
  | inr (p, s2) => p = page /\ short s1 root page /\ swap_slots s2 = swap_slots s1 /\ exists pl' pg', pages_ok rs pl' pg' [] s2 /\ pl ⊆ pl' /\
      forall r x, r ∈ rs -> 0 <= x < USER_SPACE_END -> x mod PAGE_SIZE = 0 -> ~ (r = root /\ start <= x < page) ->
        vmm_get_pte s2 r x = vmm_get_pte s r x
  end.
Proof.
  intros Hr Hs Hp Ha Hfl [(pl1&pg1&K1&Sub1&Fr1) (St1&U1) Gs G3 G4].
  assert (vmm_get_pte s1 root page = vmm_get_pte s root page) as Epage by (apply G3; [done|lia|done|lia]).
  assert (forall x, start <= x < page + PAGE_SIZE -> x mod PAGE_SIZE = 0 -> x = page \/ start <= x < page) as Hcase by (intros x Hx Hxa; unfold PAGE_SIZE in *; zlia).
  unfold map_one. destruct (has (vmm_get_pte s1 root page) VMM_PRESENT) eqn:Epr.
  - split; [by exists pl1, pg1|done|done| |].
    + intros r x Hr' Hx Hxa Hn. apply G3; try done. intros [? ?]. apply Hn. unfold PAGE_SIZE. lia.
    + intros x Hx Hxu Hxa. destruct (Hcase x Hx Hxa) as [->|?]; [|by apply G4]. rewrite <- Epage, Epr. done.
  - pose proof (alloc_user_page_ok rs pl1 pg1 s1 root page flags K1 Hr ltac:(lia) Ha Hfl) as HA.
    destruct (vmm_alloc_user_page s1 root page flags) as [view s2] eqn:Ea. destruct HA as (pl2&pg2&K2&Sub2&St2&Fr2&U2&Sl2&P2&Z2).
    destruct (Z.eqb_spec view 0) as [->|Hv].
    + split; [done|]. split; [apply (alloc_user_page_fails s1 pl1 root page flags s2); [apply K1|by apply K1|lia|done|done]|]. split; [done|].
      exists pl2, pg2. split; [done|]. split; [by etrans|]. intros r x Hr' Hx Hxa Hn. rewrite P2 by auto. by apply G3.
    + split.
      * exists pl2, pg2. split; [done|]. split; [by etrans|]. by eapply fresh_only_trans.
      * split; [by eapply stay_used_trans|by eapply used_same_trans].
      * by rewrite Sl2.
      * intros r x Hr' Hx Hxa Hn. rewrite P2; [|done..|right; intros [= -> ->]; apply Hn; unfold PAGE_SIZE; lia].
        apply G3; try done. intros [? ?]. apply Hn. unfold PAGE_SIZE. lia.
      * intros x Hx Hxu Hxa. destruct (Hcase x Hx Hxa) as [->|Hx']; [rewrite <- Epage, Epr; by apply Z2|].
        assert (vmm_get_pte s2 root x = vmm_get_pte s1 root x) as E by (apply P2; [done|lia|done|right; intros [= ->]; lia]).
        specialize (G4 x Hx' Hxu Hxa). destruct (has (vmm_get_pte s root x) VMM_PRESENT); [by rewrite E|].
        by apply (zero_page_stays rs pl1 pg1 s1); try lia.
Qed.

Lemma prot_flags_plain prot : plain (prot_to_pte_flags prot).
Proof. unfold prot_to_pte_flags. destruct (has prot PROT_WRITE), (has prot PROT_EXEC); done. Qed.

Lemma map_range_spec rs pl pg s root addr length prot :
  pages_ok rs pl pg [] s -> root ∈ rs -> 0 <= addr < 0x10000000000000000 -> 0 <= length < 0x10000000000000000 ->
  let last := addr + page_align_up length in
  let '(r, s') := user_map_range s root addr length prot in
  if (addr <? PAGE_SIZE) || bad_range root addr length then r = -1 /\ s' = s else
  (r = 0 /\ range_given rs pl root addr last (prot_to_pte_flags prot) s s') \/
  (r = -1 /\ exists page s1 pl' pg', addr <= page < last /\ page mod PAGE_SIZE = 0 /\
     range_given rs pl root addr page (prot_to_pte_flags prot) s s1 /\ short s1 root page /\ pages_ok rs pl' pg' [] s' /\ pl ⊆ pl' /\
     (forall x, addr <= x < page -> x mod PAGE_SIZE = 0 -> where_is (vmm_get_pte s' root x) = None) /\
     (forall r x, r ∈ rs -> 0 <= x < USER_SPACE_END -> x mod PAGE_SIZE = 0 -> ~ (r = root /\ addr <= x < page) ->
        vmm_get_pte s' r x = vmm_get_pte s r x)).
Proof.
  intros K Hin Ha Hl last. unfold user_map_range. destruct (Z.ltb_spec addr PAGE_SIZE); [done|]. cbn [orb].
  destruct (bad_range root addr length) eqn:Hb; [done|]. destruct (good_range _ _ _ (proj1 Ha) Hb) as (Hal&Hl0&Hau&Hlu).
  destruct (range_end addr length (proj1 Ha) Hal (proj1 Hl) Hlu) as ((H3&H1)&H2&H4&_). fold last in H1, H2, H3, H4 |- *.
  rewrite u64_small by (unfold USER_SPACE_END in *; lia). set (flags := prot_to_pte_flags prot).
  pose proof (for_pages_ind (map_one root flags) (fun page s1 => range_given rs pl root addr page flags s s1)
    (fun r => addr <= r.1 < last /\ r.1 mod PAGE_SIZE = 0 /\ (exists s1, range_given rs pl root addr r.1 flags s s1 /\ short s1 root r.1) /\ exists pl' pg', pages_ok rs pl' pg' [] r.2 /\ pl ⊆ pl' /\
      forall r' x, r' ∈ rs -> 0 <= x < USER_SPACE_END -> x mod PAGE_SIZE = 0 -> ~ (r' = root /\ addr <= x < r.1) ->
        vmm_get_pte r.2 r' x = vmm_get_pte s r' x) addr last ltac:(lia) ltac:(unfold USER_SPACE_END in *; lia) H2) as HF.
  specialize (HF ltac:(intros page s1 Hp Hpa G; assert (page mod PAGE_SIZE = 0) as Hpm by (unfold PAGE_SIZE in *; zlia);
    pose proof (map_one_ok rs pl root addr page flags s s1 Hin ltac:(lia) ltac:(lia) Hpm (prot_flags_plain prot) G) as HM;
    destruct (map_one root flags page s1) as [?|[p s2]]; [done|]; destruct HM as (->&Hsh&_&HM); split; [done|]; split; [done|]; split; [by exists s1|done])).
  specialize (HF s ltac:(split; [by exists pl, pg; split_and!; [..|intros k]|by split; [split_and!|intros k]|done|done|lia])).
  destruct (for_pages _ _ _ _) as [s1|[page s1]]; [by left|]. right. cbn [fst snd] in HF. destruct HF as (Hp&Hpa&(sp&Hsp&Hsh)&pl'&pg'&K'&Sub&Hsame). split; [done|].
  destruct (Z.ltb_spec addr page) as [Hlt|]; [|exists page, sp, pl', pg'; split_and!; try done; lia].
  pose proof (unmap_range_spec rs pl' pg' s1 root addr (page - addr) K' Hin Ha ltac:(unfold USER_SPACE_END in *; lia)) as HU.
  destruct (user_unmap_range s1 root addr (page - addr)) as [r s2]. cbn [snd].
  assert (page_align_up (page - addr) = page - addr) as Epa by (rewrite page_align_up_eq by (unfold USER_SPACE_END in *; lia); unfold PAGE_SIZE in *; zlia).
  rewrite Epa in HU. replace (addr + (page - addr)) with page in HU by lia.
  assert (bad_range root addr (page - addr) = false) as Hb'.
  { unfold bad_range in *. rewrite !orb_false_iff in *. destruct Hb as ((((B1&_)&B3)&B4)&_). split_and!; try done; [by apply Z.eqb_neq; lia|apply Z.ltb_ge; lia]. }
  rewrite Hb' in HU. destruct HU as (->&_&[G1 G2 G3 _ _ _ _]).
  exists page, sp, pl', (without root addr page pg'). split_and!; try done; try lia.
  - intros x Hx Hxa. apply G3; [done|lia|done].
  - intros r x Hr Hx Hxa Hn. rewrite G2; [by apply Hsame|by apply (pk_roots _ _ _ _ _ K')|done..].
Qed.

(** C27. Ranges of an address space. [user_unmap_range] refuses a bad range and
    otherwise removes every page of the range and nothing else: entries outside it
    and the contents of all pages stay, each frame loses one owner for every page
    that was in it, each swap slot one for every page kept there, and a device's
    memory is left alone. [user_map_range] refuses a bad range; it leaves pages whose
    entry is present as they are and gives each other page of the range a zeroed frame
    with the rights asked for, also one that is on the swap disk, whose slot is not
    given back (no slot's owners change). It fails otherwise only at a page for which,
    when it comes to it, fewer than the four frames may be free that the page and the
    tables above it can need, or a large page is in its place; every page of the range
    before it is then gone, also one that was there before, and all others are as they
    were. *)
Theorem user_ranges_correct (rs : gset Z) (pl : gmap Z place) (pg : gmap (Z * Z) location) (s : vmm) (root addr length prot : Z) :
  pages_ok rs pl pg [] s -> root ∈ rs -> 0 <= addr < 0x10000000000000000 -> 0 <= length < 0x10000000000000000 ->
  let last := addr + page_align_up length in
  (let '(r, s') := user_unmap_range s root addr length in
   if bad_range root addr length then r = -1 /\ s' = s else r = 0 /\ last <= USER_SPACE_END /\ range_gone rs pl pg root addr last [] s s') /\
  (let '(r, s') := user_map_range s root addr length prot in
   if (addr <? PAGE_SIZE) || bad_range root addr length then r = -1 /\ s' = s else
   (r = 0 /\ range_given rs pl root addr last (prot_to_pte_flags prot) s s') \/
   (r = -1 /\ exists page s1 pl' pg', addr <= page < last /\ page mod PAGE_SIZE = 0 /\
      range_given rs pl root addr page (prot_to_pte_flags prot) s s1 /\ short s1 root page /\ pages_ok rs pl' pg' [] s' /\ pl ⊆ pl' /\
      (forall x, addr <= x < page -> x mod PAGE_SIZE = 0 -> where_is (vmm_get_pte s' root x) = None) /\
      (forall r x, r ∈ rs -> 0 <= x < USER_SPACE_END -> x mod PAGE_SIZE = 0 -> ~ (r = root /\ addr <= x < page) ->
         vmm_get_pte s' r x = vmm_get_pte s r x))).
Proof. intros K Hin Ha Hl. split; [by apply unmap_range_spec|by eapply map_range_spec]. Qed.

(** * Examples *)

Lemma example_pages_ok : pages_ok {[tab 2]} page_places {[(tab 2, 0x400000) := InFrame 1]} [] page_vmm.
Proof.
  apply (swap_inv_pages _ _ _ _ example_swap_inv).
  - intros root ->%elem_of_singleton. vm_compute. reflexivity.
  - intros k [_ [=]]%lookup_singleton_Some.
Qed.

Lemma user_ranges_correct_witness :
  let '(r, s') := user_unmap_range page_vmm (tab 2) 0x3FF000 0x1001 in
  r = 0 /\ where_is (vmm_get_pte s' (tab 2) 0x400000) = None.
Proof.
  destruct (user_ranges_correct {[tab 2]} page_places _ page_vmm (tab 2) 0x3FF000 0x1001 0 example_pages_ok (proj2 (elem_of_singleton _ _) eq_refl) ltac:(lia) ltac:(lia)) as [H _].
  destruct (user_unmap_range page_vmm (tab 2) 0x3FF000 0x1001) as [r s']. change (bad_range (tab 2) 0x3FF000 0x1001) with false in H.
  destruct H as (->&_&G). split; [done|]. apply (rg_gone _ _ _ _ _ _ _ _ _ G); [|done|done].
  change (0x3FF000 + page_align_up 0x1001) with 0x401000. lia.
Defined.
