(* ===== verification/Region.v ===== *)
(** Memory promised and given on first touch, [src/mm/region.c] and [region.h].

    The operations hold [map_mutex] for their whole length; what happens under
    [mem_lock] is one step, and the parts of [unmap_locked] and [fault_once] around
    it are steps of their own. The files behind regions, the page cache and devices
    are a state [W] with the operations of the class [files]; a vnode's operations
    are functions on it. Whether another thread's call is using a range
    ([process_range_busy]) is an argument. *)
From stdpp Require Import base tactics numbers list sets gmap.
From Stdlib Require Import ZArith Lia.
From S2P Require Import Prelude Errno Pmm Cow SwapSlots Vmm Swap Mmap.

Open Scope Z_scope.

Definition TASK_MAX_REGIONS : nat := 36.
Definition PROCESS_FORK_RESERVE_FRAMES : Z := 64.
Definition USER_BRK_MAX : Z := Z.shiftl 1 30.
Definition REGION_NO_MEMORY : Z := -1.
Definition REGION_PAST_THE_END : Z := -2.
Definition FAULT_AGAIN : Z := -100.
Definition FAULT_NO_FRAME : Z := -101.

Record mem_region_t := mkRegion {
  start : Z; end_ : Z;      (* [end == 0]: unused *)
  prot : Z;
  node : Z;                 (* the vnode; 0 is NULL *)
  file_offset : Z;
  program : bool; shared : bool; device : bool
}.
Definition no_region : mem_region_t := mkRegion 0 0 0 0 0 false false false.

(** What [struct process] has for this. *)
Record process := mkProcess {
  pml4_phys : Z; brk_start : Z; brk_end : Z; mmap_next : Z;
  regions : list mem_region_t;
  promised_pages : Z; file_users : Z; seen_truncations : Z
}.
Definition set_regions (p : process) (l : list mem_region_t) : process :=
  mkProcess (pml4_phys p) (brk_start p) (brk_end p) (mmap_next p) l (promised_pages p) (file_users p) (seen_truncations p).
Definition set_promised (p : process) (n : Z) : process :=
  mkProcess (pml4_phys p) (brk_start p) (brk_end p) (mmap_next p) (regions p) n (file_users p) (seen_truncations p).
Definition set_brk (p : process) (b : Z) : process :=
  mkProcess (pml4_phys p) (brk_start p) b (mmap_next p) (regions p) (promised_pages p) (file_users p) (seen_truncations p).
Definition set_next (p : process) (a : Z) : process :=
  mkProcess (pml4_phys p) (brk_start p) (brk_end p) a (regions p) (promised_pages p) (file_users p) (seen_truncations p).
Definition set_users (p : process) (n : Z) : process :=
  mkProcess (pml4_phys p) (brk_start p) (brk_end p) (mmap_next p) (regions p) (promised_pages p) n (seen_truncations p).
Definition set_seen (p : process) (n : Z) : process :=
  mkProcess (pml4_phys p) (brk_start p) (brk_end p) (mmap_next p) (regions p) (promised_pages p) (file_users p) n.

(** Of a vnode: its size, the operations used here, and who holds it. *)
Record vnode_ops W := mkOps {
  opened : option (Z -> bool -> W -> Z * W);
  closed : option (Z -> bool -> W -> W);
  map_page : option (Z -> Z -> W -> option Z * W)     (* [None]: an error *)
}.
Arguments mkOps {W}. Arguments opened {W}. Arguments closed {W}. Arguments map_page {W}.
Record vnode W := mkVnode { size : Z; ops : option (vnode_ops W); open_count : Z; exec_count : Z; write_count : Z }.
Arguments mkVnode {W}. Arguments size {W}. Arguments ops {W}. Arguments open_count {W}. Arguments exec_count {W}. Arguments write_count {W}.

(** The page cache and files. *)
Class files (W : Type) := {
  pcache_cacheable : Z -> W -> bool;
  pcache_get : Z -> Z -> vmm * W -> Z * (vmm * W);
  pcache_get_shared : Z -> Z -> bool -> vmm * W -> Z * (vmm * W);
  pcache_writeback : Z -> Z -> Z -> vmm * W -> Z * (vmm * W);
  pcache_reclaim : Z -> vmm * W -> Z * (vmm * W);
  pcache_truncations : W -> Z;
  vfs_read : Z -> Z -> Z -> W -> list Z * W
}.

Record kernel W := mkKernel { vm : vmm; promised_total : Z; nodes : Z -> vnode W; world : W }.
Arguments mkKernel {W}. Arguments vm {W}. Arguments promised_total {W}. Arguments nodes {W}. Arguments world {W}.

Section region.
Context {W : Type} `{files W}.
Notation kernel := (kernel W).

Definition set_vm (k : kernel) (v : vmm) : kernel := mkKernel v (promised_total k) (nodes k) (world k).
Definition set_world (k : kernel) (w : W) : kernel := mkKernel (vm k) (promised_total k) (nodes k) w.
Definition set_total (k : kernel) (n : Z) : kernel := mkKernel (vm k) n (nodes k) (world k).
Definition set_node (k : kernel) (n : Z) (v : vnode W) : kernel :=
  mkKernel (vm k) (promised_total k) (fun m => if m =? n then v else nodes k m) (world k).
(** A call into the page cache. *)
Definition in_cache {A} (f : vmm * W -> A * (vmm * W)) (k : kernel) : A * kernel :=
  let '(a, (v, w)) := f (vm k, world k) in (a, mkKernel v (promised_total k) (nodes k) w).

Definition region_promised_pages (k : kernel) : Z := promised_total k.
Definition space_of (p : process) (k : kernel) : Z := vmm_space_from_phys (vm k) (pml4_phys p).

Definition charge (pages : Z) (p : process) (k : kernel) : process * kernel :=
  (set_promised p (u64 (promised_pages p + pages)), set_total k (u64 (promised_total k + pages))).

Definition uncharge (pages : Z) (p : process) (k : kernel) : process * kernel :=
  let pages := if promised_pages p <? pages then promised_pages p else pages in
  (set_promised p (promised_pages p - pages), set_total k (u64 (promised_total k - pages))).

Definition fits (pages : Z) (k : kernel) : bool :=
  let free := free_frames (frames (owned (vm k))) in
  let spoken_for := u64 (region_promised_pages k + PROCESS_FORK_RESERVE_FRAMES) in
  let free := u64 (free + swap_free_pages (swap_slots (vm k))) in
  (spoken_for <? free) && (pages <=? free - spoken_for).

Definition can_promise (pages : Z) (k : kernel) : bool * kernel :=
  if fits pages k then (true, k)
  else let '(_, k) := in_cache (pcache_reclaim (u64 (pages + PROCESS_FORK_RESERVE_FRAMES))) k in (fits pages k, k).

Definition untouched (v : vmm) (space page : Z) : bool :=
  let pte := vmm_get_pte v space page in negb (has pte VMM_PRESENT) && negb (vmm_pte_swapped pte).

Definition untouched_pages (p : process) (k : kernel) (first last : Z) : Z :=
  match for_pages (B := unit) (fun page count => inl (if untouched (vm k) (space_of p k) page then count + 1 else count)) first last 0 with
  | inl count => count
  | inr _ => 0
  end.

Definition pin (r : mem_region_t) (by_ : Z) (k : kernel) : kernel :=
  if node r =? 0 then k
  else
    let v := nodes k (node r) in
    set_node k (node r) (mkVnode (size v) (ops v) (u32 (open_count v + by_))
      (if program r then u32 (exec_count v + by_) else exec_count v)
      (if shared r && has (prot r) PROT_WRITE then u32 (write_count v + by_) else write_count v)).

Definition hold_device (r : mem_region_t) (by_ : Z) (k : kernel) : Z * kernel :=
  if negb (device r) then (0, k)
  else match ops (nodes k (node r)) with
  | None => (0, k)
  | Some o =>
      let writable := has (prot r) PROT_WRITE in
      if 0 <? by_ then
        match opened o with
        | Some f => let '(result, w) := f (node r) writable (world k) in (result, set_world k w)
        | None => (0, k)
        end
      else
        match closed o with
        | Some f => (0, set_world k (f (node r) writable (world k)))
        | None => (0, k)
        end
  end.

Definition file_pages (r : mem_region_t) (first last : Z) : Z * Z :=
  let index := u64 (file_offset r + (first - start r)) / PAGE_SIZE in
  (index, u64 (index + (last - first) / PAGE_SIZE)).

(** [{ .node = n }] *)
Definition file_only (n : Z) : mem_region_t := mkRegion 0 0 0 n 0 false false false.

Definition region_hold_program (n by_ : Z) (k : kernel) : kernel := pin (mkRegion 0 0 0 n 0 true false false) by_ k.

Definition region_reserve (pages : Z) (k : kernel) : bool * kernel :=
  let '(ok, k) := can_promise pages k in
  if ok : bool then (true, set_total k (u64 (promised_total k + pages))) else (false, k).

Definition region_unreserve (pages : Z) (k : kernel) : kernel := set_total k (u64 (promised_total k - pages)).

Fixpoint free_slot (l : list mem_region_t) : option nat :=
  match l with
  | [] => None
  | r :: l' => if end_ r =? 0 then Some 0%nat else S <$> free_slot l'
  end.

Definition region_adopt (new : list mem_region_t) (pages : Z) (p : process) : process :=
  let l := fold_left (fun l r => match free_slot l with Some i => <[i := r]> l | None => l end) new (regions p) in
  set_promised (set_regions p l) (u64 (promised_pages p + pages)).

(** The address (0: failed) and [*error]. *)
Definition map_locked (length prot n offset : Z) (share : bool) (p : process) (k : kernel) : Z * Z * process * kernel :=
  let addr := mmap_next p in
  if (USER_MMAP_END <=? addr) || (USER_MMAP_END - addr <? length) then (0, - ENOMEM, p, k)
  else match free_slot (regions p) with
  | None => (0, - ENOMEM, p, k)
  | Some slot =>
      let dev := negb (n =? 0) && match ops (nodes k n) with Some o => match map_page o with Some _ => true | None => false end | None => false end in
      let '(ok, k) := if negb dev then can_promise (length / PAGE_SIZE) k else (true, k) in
      if negb ok then (0, - ENOMEM, p, k)
      else
        let region := mkRegion addr (u64 (addr + length)) prot n offset false (share && negb (n =? 0) && negb dev) dev in
        let k := pin region 1 k in
        let '(held, k) := hold_device region 1 k in
        if held <? 0 then (0, held, p, pin region (-1) k)
        else
          let p := set_regions p (<[slot := region]> (regions p)) in
          let '(p, k) := if negb dev then charge (length / PAGE_SIZE) p k else (p, k) in
          (addr, 0, set_next p (u64 (addr + length)), k)
  end.

Definition region_map (length prot n offset : Z) (share : bool) (p : process) (k : kernel) : Z * Z * process * kernel :=
  if (length =? 0) || has offset (PAGE_SIZE - 1) then (0, - EINVAL, p, k)
  else
    let size := page_align_up length in
    if size <? length then (0, - EINVAL, p, k) else map_locked size prot n offset share p k.

(** ** Unmapping *)

(** The loop that looks for the region a hole is cut into; [None]: no entry is
    left for the second half. *)
Fixpoint find_hole (addr last : Z) (room : bool) (l : list mem_region_t) (hole : mem_region_t) : option mem_region_t :=
  match l with
  | [] => Some hole
  | r :: l' =>
      if negb (end_ r =? 0) && (start r <? addr) && (last <? end_ r)
      then if room then find_hole addr last room l' r else None
      else find_hole addr last room l' hole
  end.

Definition overlaps (addr last : Z) (r : mem_region_t) : bool :=
  negb ((end_ r =? 0) || (end_ r <=? addr) || (last <=? start r)).
Definition cut_start (addr : Z) (r : mem_region_t) : Z := if addr <? start r then start r else addr.
Definition cut_end (last : Z) (r : mem_region_t) : Z := if end_ r <? last then end_ r else last.

(** What has to be written to a file: the node and its pages. *)
Record written := mkWritten { w_node : Z; w_first : Z; w_end : Z }.
Definition note_written (addr last : Z) (r : mem_region_t) : written :=
  let '(first, last) := file_pages r (cut_start addr r) (cut_end last r) in mkWritten (node r) first last.

Fixpoint collect_written (addr last : Z) (l : list mem_region_t) (k : kernel) : list written * kernel :=
  match l with
  | [] => ([], k)
  | r :: l' =>
      if negb (overlaps addr last r) || negb (shared r) then collect_written addr last l' k
      else let '(ws, k) := collect_written addr last l' (pin (file_only (node r)) 1 k) in (note_written addr last r :: ws, k)
  end.

(** What [unmap_locked] knows before it takes [mem_lock]. *)
Record unmapping := mkUnmapping { u_addr : Z; u_last : Z; u_hole : mem_region_t; u_written : list written }.

Definition unmap_prepare (addr last : Z) (p : process) (k : kernel) : option (unmapping * kernel) :=
  match find_hole addr last (match free_slot (regions p) with Some _ => true | None => false end) (regions p) no_region with
  | None => None
  | Some hole =>
      let k := if negb (end_ hole =? 0) then snd (hold_device hole 1 (pin hole 1 k)) else k in
      let '(ws, k) := collect_written addr last (regions p) k in
      Some (mkUnmapping addr last hole ws, k)
  end.

(** One entry of the table: the table and the region that is gone, if it is. *)
Definition cut_entry (addr last : Z) (i : nat) (r : mem_region_t) (l : list mem_region_t) : list mem_region_t * list mem_region_t :=
  let from := cut_start addr r in
  let to := cut_end last r in
  if (from =? start r) && (to =? end_ r) then (<[i := no_region]> l, [r])
  else if from =? start r then
    (<[i := mkRegion to (end_ r) (prot r) (node r) (u64 (file_offset r + (to - start r))) (program r) (shared r) (device r)]> l, [])
  else if to =? end_ r then
    (<[i := mkRegion (start r) from (prot r) (node r) (file_offset r) (program r) (shared r) (device r)]> l, [])
  else
    let tail := mkRegion to (end_ r) (prot r) (node r) (u64 (file_offset r + (to - start r))) (program r) (shared r) (device r) in
    let l := match free_slot l with Some j => <[j := tail]> l | None => l end in
    (<[i := mkRegion (start r) from (prot r) (node r) (file_offset r) (program r) (shared r) (device r)]> l, []).

(** [n] entries from entry [i] on; [gone] so far. *)
Fixpoint cut_loop (addr last : Z) (n i : nat) (gone : list mem_region_t) (p : process) (k : kernel) : list mem_region_t * process * kernel :=
  match n with
  | O => (gone, p, k)
  | S n' =>
      let r := nth i (regions p) no_region in
      if negb (overlaps addr last r) then cut_loop addr last n' (S i) gone p k
      else
        let '(p, k) := if negb (device r) then uncharge (untouched_pages p k (cut_start addr r) (cut_end last r)) p k else (p, k) in
        let '(l, new) := cut_entry addr last i r (regions p) in
        cut_loop addr last n' (S i) (gone ++ new) (set_regions p l) k
  end.

(** Under [mem_lock]. *)
Definition unmap_cut (busy : bool) (u : unmapping) (p : process) (k : kernel) : Z * list mem_region_t * process * kernel :=
  if busy then (- EBUSY, [], p, k)
  else
    let '(gone, p, k) := cut_loop (u_addr u) (u_last u) TASK_MAX_REGIONS 0 [] p k in
    let '(r, v) := user_unmap_range (vm k) (space_of p k) (u_addr u) (u_last u - u_addr u) in
    (if r =? 0 then 0 else - EINVAL, gone, p, set_vm k v).

(** A region lets go of its device and its file. *)
Definition let_go (r : mem_region_t) (k : kernel) : kernel := pin r (-1) (snd (hold_device r (-1) k)).

(** Once no fault is using the files ([wait_for_file_users]). *)
Definition unmap_finish (busy : bool) (u : unmapping) (gone : list mem_region_t) (k : kernel) : kernel :=
  let k := fold_left (fun k r => let_go r k) gone k in
  let k := if busy && negb (end_ (u_hole u) =? 0) then let_go (u_hole u) k else k in
  fold_left (fun k w =>
    let k := if negb busy then snd (in_cache (pcache_writeback (w_node w) (w_first w) (w_end w)) k) else k in
    pin (file_only (w_node w)) (-1) k) (u_written u) k.

Definition unmap_locked (busy : bool) (addr last : Z) (p : process) (k : kernel) : Z * process * kernel :=
  match unmap_prepare addr last p k with
  | None => (- ENOMEM, p, k)
  | Some (u, k) =>
      let '(result, gone, p, k) := unmap_cut busy u p k in
      (result, p, unmap_finish busy u gone k)
  end.

Definition region_unmap (busy : bool) (addr length : Z) (p : process) (k : kernel) : Z * process * kernel :=
  if (length =? 0) || has addr (PAGE_SIZE - 1) then (- EINVAL, p, k)
  else if (USER_SPACE_END <=? addr) || (USER_SPACE_END - addr <? length) then (- EINVAL, p, k)
  else unmap_locked busy addr (u64 (addr + page_align_up length)) p k.

(** ** The heap *)

Definition set_brk_locked (busy : bool) (new_brk : Z) (p : process) (k : kernel) : Z * process * kernel :=
  if (new_brk <? brk_start p) || (u64 (brk_start p + USER_BRK_MAX) <? new_brk) then (brk_end p, p, k)
  else
    let old_top := page_align_up (brk_end p) in
    let new_top := page_align_up new_brk in
    let '(ok, k) := if old_top <? new_top then can_promise ((new_top - old_top) / PAGE_SIZE) k else (true, k) in
    if negb ok then (brk_end p, p, k)
    else if (new_top <? old_top) && busy then (brk_end p, p, k)
    else if old_top <? new_top then
      let '(p, k) := charge ((new_top - old_top) / PAGE_SIZE) p k in (new_brk, set_brk p new_brk, k)
    else if new_top <? old_top then
      let '(p, k) := uncharge (untouched_pages p k new_top old_top) p k in
      let k := set_vm k (snd (user_unmap_range (vm k) (space_of p k) new_top (old_top - new_top))) in
      (new_brk, set_brk p new_brk, k)
    else (new_brk, set_brk p new_brk, k).

Definition region_set_brk (busy : bool) (new_brk : Z) (p : process) (k : kernel) : Z * process * kernel :=
  set_brk_locked busy new_brk p k.

(** ** Faults *)

Definition contains (page : Z) (r : mem_region_t) : bool :=
  negb ((end_ r =? 0) || (page <? start r) || (end_ r <=? page)).

Fixpoint find_region (page : Z) (l : list mem_region_t) : option mem_region_t :=
  match l with
  | [] => None
  | r :: l' => if contains page r then Some r else find_region page l'
  end.

(** A page to be given, found under [mem_lock]. *)
Record fault := mkFault { f_page : Z; f_prot : Z; f_node : Z; f_offset : Z; f_shared : bool; f_device : bool }.

(** What a fault on [page] is about; [None]: nothing was promised there. *)
Definition find_promise (page : Z) (p : process) : option fault :=
  if (brk_start p <=? page) && (page <? page_align_up (brk_end p))
  then Some (mkFault page (Z.lor PROT_READ PROT_WRITE) 0 0 false false)
  else match find_region page (regions p) with
  | Some r => Some (mkFault page (prot r) (node r) (u64 (file_offset r + (page - start r))) (shared r) (device r))
  | None => None
  end.

Definition fault_flags (prot : Z) : Z :=
  let flags := VMM_USER in
  let flags := if has prot PROT_WRITE then Z.lor flags VMM_WRITABLE else flags in
  if negb (has prot PROT_EXEC) then Z.lor flags VMM_NO_EXECUTE else flags.

(** The first part, under [mem_lock]: it is over ([inl]), or a file has to be read. *)
Definition fault_look (page : Z) (p : process) (k : kernel) : (Z + fault) * process * kernel :=
  if negb (untouched (vm k) (space_of p k) page) then (inl 1, p, k)
  else match find_promise page p with
  | None => (inl 0, p, k)
  | Some f =>
      if f_node f =? 0 then
        let '(view, v) := vmm_alloc_user_page (vm k) (space_of p k) page (fault_flags (f_prot f)) in
        let k := set_vm k v in
        if negb (view =? 0) then let '(p, k) := uncharge 1 p k in (inl 1, p, k) else (inl FAULT_NO_FRAME, p, k)
      else (inr f, set_users p (u32 (file_users p + 1)), k)
  end.

(** What the second part found: a result (1: a frame), the frame, the flags it is
    mapped with, and whether it was promised. *)
Record fetched := mkFetched { g_result : Z; g_frame : Z; g_flags : Z; g_charged : bool }.

Definition take_frame (k : kernel) : Z * kernel :=
  let '(frame, v) := vmm_alloc_frame (vm k) in
  let k := set_vm k v in
  if frame =? 0 then
    let '(n, k) := in_cache (pcache_reclaim 16) k in
    if 0 <? n then let '(frame, v) := vmm_alloc_frame (vm k) in (frame, set_vm k v) else (0, k)
  else (frame, k).

(** With [mem_lock] released. (A region is a device's only if its node has the operation.) *)
Definition fault_fetch (f : fault) (k : kernel) : fetched * kernel :=
  let flags := fault_flags (f_prot f) in
  let no_frame frame := if frame =? 0 then REGION_NO_MEMORY else 1 in
  if f_shared f && (page_align_up (size (nodes k (f_node f))) <=? f_offset f) then
    (mkFetched REGION_PAST_THE_END 0 flags true, k)
  else if f_device f then
    let flags := Z.lor flags (Z.lor VMM_SHARED VMM_DEVICE) in
    match ops (nodes k (f_node f)) with
    | Some o =>
        match map_page o with
        | Some op => match op (f_node f) (f_offset f) (world k) with
                     | (Some frame, w) => (mkFetched 1 frame flags false, set_world k w)
                     | (None, w) => (mkFetched REGION_PAST_THE_END 0 flags false, set_world k w)
                     end
        | None => (mkFetched REGION_PAST_THE_END 0 flags false, k)
        end
    | None => (mkFetched REGION_PAST_THE_END 0 flags false, k)
    end
  else if f_shared f then
    let '(frame, k) := in_cache (pcache_get_shared (f_node f) (f_offset f / PAGE_SIZE) (has (f_prot f) PROT_WRITE)) k in
    (mkFetched (no_frame frame) frame (if has flags VMM_WRITABLE then Z.lor flags VMM_SHARED else flags) true, k)
  else if pcache_cacheable (f_node f) (world k) && negb (has (f_offset f) (PAGE_SIZE - 1)) then
    let '(frame, k) := in_cache (pcache_get (f_node f) (f_offset f / PAGE_SIZE)) k in
    (mkFetched (no_frame frame) frame (if has flags VMM_WRITABLE then Z.lor (clear flags VMM_WRITABLE) VMM_COW else flags) true, k)
  else
    let '(frame, k) := take_frame k in
    if frame =? 0 then (mkFetched REGION_NO_MEMORY 0 flags true, k)
    else
      let view := u64 (frame + hhdm (vm k)) in
      let '(bytes, w) := vfs_read (f_node f) (f_offset f) PAGE_SIZE (world k) in
      let m := write_bytes (fill_page (ram (vm k)) view 0) view bytes in
      (mkFetched 1 frame flags true, set_world (set_vm k (set_ram (vm k) m)) w).

(** Is the page of [f] still the one to give? *)
Definition still (f : fault) (r : mem_region_t) : bool :=
  contains (f_page f) r && (node r =? f_node f) && (u64 (file_offset r + (f_page f - start r)) =? f_offset f).

(** The third part, under [mem_lock] again. *)
Definition fault_give (f : fault) (g : fetched) (p : process) (k : kernel) : Z * process * kernel :=
  let p := set_users p (u32 (file_users p - 1)) in
  let space := space_of p k in
  let '(result, frame, p, k) :=
    if g_result g =? 1 then
      if negb (existsb (still f) (regions p)) || negb (untouched (vm k) space (f_page f)) then (FAULT_AGAIN, g_frame g, p, k)
      else match vmm_map_page (vm k) space (f_page f) (g_frame g) (Z.lor (g_flags g) VMM_PRESENT) with
      | (false, v) => (REGION_NO_MEMORY, g_frame g, p, set_vm k v)
      | (true, v) => let '(p, k) := if g_charged g then uncharge 1 p (set_vm k v) else (p, set_vm k v) in (1, 0, p, k)
      end
    else (g_result g, g_frame g, p, k) in
  (result, p, if negb (frame =? 0) && negb (f_device f) then set_vm k (vmm_unref_frame frame (vm k)) else k).

Definition fault_once (page : Z) (p : process) (k : kernel) : Z * process * kernel :=
  match fault_look page p k with
  | (inl r, p, k) => (r, p, k)
  | (inr f, p, k) => let '(g, k) := fault_fetch f k in fault_give f g p k
  end.

(** One turn of the loop of [region_fault], alone in the process. *)
Definition fault_turn (page : Z) (c : bool * process * kernel) : bool * process * kernel + Z * process * kernel :=
  let '(reclaimed, p, k) := c in
  let '(result, p, k) := fault_once page p k in
  if result =? FAULT_AGAIN then inl (reclaimed, p, k)
  else if negb (result =? FAULT_NO_FRAME) then inr (result, p, k)
  else if reclaimed then inr (REGION_NO_MEMORY, p, k)
  else
    let '(n, k) := in_cache (pcache_reclaim 16) k in
    if n =? 0 then inr (REGION_NO_MEMORY, p, k) else inl (true, p, k).

(** [turns] bounds how often the table may have changed under it. *)
Definition region_fault (turns : positive) (addr : Z) (p : process) (k : kernel) : option (Z * process * kernel) :=
  if USER_SPACE_END <=? addr then Some (0, p, k)
  else
    let page := page_of addr in
    let free := free_frames (frames (owned (vm k))) in
    let k := if free <? SWAP_LOW_FRAMES then snd (in_cache (pcache_reclaim (SWAP_HIGH_FRAMES - free)) k) else k in
    match loop turns (fault_turn page) (false, p, k) with inr r => Some r | inl _ => None end.

(** ** Fork, exec and exit *)

Definition hold_all (l : list mem_region_t) (k : kernel) : kernel :=
  fold_left (fun k r => if end_ r =? 0 then k else snd (hold_device r 1 (pin r 1 k))) l k.

Definition region_fork (child parent : process) (k : kernel) : process * kernel :=
  let child := set_regions child (regions parent) in
  let k := hold_all (regions child) k in
  charge (promised_pages parent) (set_promised child 0) k.

Definition put_region (gone : mem_region_t) (k : kernel) : kernel :=
  let k := snd (hold_device gone (-1) k) in
  let k := if shared gone then
             let '(first, last) := file_pages gone (start gone) (end_ gone) in
             snd (in_cache (pcache_writeback (node gone) first last) k)
           else k in
  pin gone (-1) k.

Definition put_used (l : list mem_region_t) (k : kernel) : kernel :=
  fold_left (fun k r => if end_ r =? 0 then k else put_region r k) l k.

Definition clear_used (l : list mem_region_t) : list mem_region_t := (fun r => if end_ r =? 0 then r else no_region) <$> l.

Definition region_release_all (p : process) (k : kernel) : process * kernel :=
  let k := put_used (regions p) k in
  let p := set_regions p (clear_used (regions p)) in
  uncharge (promised_pages p) p k.

(** [memory]: [kmalloc] finds some. *)
Definition region_take_all (memory : bool) (p : process) (k : kernel) : option (list mem_region_t) * process * kernel :=
  if negb memory then let '(p, k) := region_release_all p k in (None, p, k)
  else
    let taken := regions p in
    let p := set_regions p (replicate TASK_MAX_REGIONS no_region) in
    let '(p, k) := uncharge (promised_pages p) p k in (Some taken, p, k).

Definition region_put_all (taken : option (list mem_region_t)) (k : kernel) : kernel :=
  match taken with Some l => put_used l k | None => k end.

(** ** Writing back and truncation *)

(** Where the cursor of [sync_locked] goes next; [None]: nothing is mapped there. *)
Definition sync_next (p : process) (k : kernel) (cursor : Z) : option Z :=
  let top := page_align_up (brk_end p) in
  let next := if (brk_start p <=? cursor) && (cursor <? top) then top else 0 in
  let next := if next =? 0 then match find_region cursor (regions p) with Some r => end_ r | None => 0 end else next in
  if negb (next =? 0) then Some next
  else if untouched (vm k) (space_of p k) cursor then None
  else Some (u64 (cursor + PAGE_SIZE)).

Definition sync_step (p : process) (k : kernel) (last : Z) (cursor : Z) : Z + bool :=
  if negb (cursor <? last) then inr true
  else match sync_next p k cursor with Some next => inl next | None => inr false end.

Fixpoint sync_regions (addr last : Z) (l : list mem_region_t) (result : Z) (k : kernel) : Z * kernel :=
  match l with
  | [] => (result, k)
  | r :: l' =>
      if negb (overlaps addr last r) || negb (shared r) then sync_regions addr last l' result k
      else
        let '(first, end_) := file_pages r (cut_start addr r) (cut_end last r) in
        let '(e, k) := in_cache (pcache_writeback (node r) first end_) k in
        sync_regions addr last l' (if negb (e =? 0) then - EIO else result) k
  end.

(** Each turn goes at least a page further, so the bound is never reached. *)
Definition sync_locked (addr length : Z) (p : process) (k : kernel) : Z * kernel :=
  let last := u64 (addr + page_align_up length) in
  match loop (Z.to_pos ((last - addr) / PAGE_SIZE + 3)) (sync_step p k last) addr with
  | inr true => sync_regions addr last (regions p) 0 k
  | _ => (- ENOMEM, k)
  end.

Definition region_sync (addr length : Z) (p : process) (k : kernel) : Z * kernel := sync_locked addr length p k.

(** [busy first last]: another thread's call is using that range. *)
Fixpoint revalidate_loop (busy : Z -> Z -> bool) (l : list mem_region_t) (all_done : bool) (p : process) (k : kernel) : bool * process * kernel :=
  match l with
  | [] => (all_done, p, k)
  | r :: l' =>
      let keep := page_align_up (size (nodes k (node r))) in
      if (end_ r =? 0) || negb (shared r) || (u64 (file_offset r + (end_ r - start r)) <=? keep) then revalidate_loop busy l' all_done p k
      else
        let from := if file_offset r <? keep then u64 (start r + (keep - file_offset r)) else start r in
        let present := u64 ((end_ r - from) / PAGE_SIZE - untouched_pages p k from (end_ r)) in
        if present =? 0 then revalidate_loop busy l' all_done p k
        else if busy from (end_ r) then revalidate_loop busy l' false p k
        else
          let k := set_vm k (snd (user_unmap_range (vm k) (space_of p k) from (end_ r - from))) in
          let '(p, k) := charge present p k in
          revalidate_loop busy l' all_done p k
  end.

Definition region_revalidate (busy : Z -> Z -> bool) (p : process) (k : kernel) : process * kernel :=
  let now := pcache_truncations (world k) in
  if seen_truncations p =? now then (p, k)
  else
    let '(all_done, p, k) := revalidate_loop busy (regions p) true p k in
    (if all_done then set_seen p now else p, k).
End region.
