(* ===== verification/RegionTable.v ===== *)
(** The table of regions of a process ([Region]): what it maps, who it holds, and
    how cutting a range out of it changes both. *)
From stdpp Require Import base tactics numbers list sets gmap.
From Stdlib Require Import ZArith Lia.
From S2P Require Import Prelude Errno Pmm Cow SwapSlots Vmm Swap Mmap Region.

Open Scope Z_scope.

(** * Tables *)

Definition used (r : mem_region_t) : bool := negb (end_ r =? 0).

Record region_ok (r : mem_region_t) : Prop := {
  ro_range : 0 <= start r < end_ r /\ end_ r <= USER_SPACE_END;
  ro_aligned : start r mod PAGE_SIZE = 0 /\ end_ r mod PAGE_SIZE = 0 }.

Definition apart (r r' : mem_region_t) : Prop := end_ r <= start r' \/ end_ r' <= start r.

Record table_ok (l : list mem_region_t) : Prop := {
  to_len : length l = TASK_MAX_REGIONS;
  to_ok : forall i r, l !! i = Some r -> used r = true -> region_ok r;
  to_apart : forall i j r r', l !! i = Some r -> l !! j = Some r' -> used r = true -> used r' = true -> i <> j -> apart r r' }.

(** What is behind address [x] of a region: the file, the place in it, and how. *)
Definition mapping : Type := Z * Z * Z * bool * bool * bool.
Definition what (r : mem_region_t) (x : Z) : mapping :=
  (node r, u64 (file_offset r + (x - start r)), prot r, program r, shared r, device r).
Definition maps (l : list mem_region_t) (x : Z) (m : mapping) : Prop :=
  exists r, r ∈ l /\ contains x r = true /\ m = what r x.

Lemma contains_spec x r : contains x r = true <-> used r = true /\ start r <= x < end_ r.
Proof.
  unfold contains, used. destruct (Z.eqb_spec (end_ r) 0), (Z.ltb_spec x (start r)), (Z.leb_spec (end_ r) x); cbn; split; try done; try lia; intros []; done || lia.
Qed.

Lemma overlaps_spec addr last r : overlaps addr last r = true <-> used r = true /\ addr < end_ r /\ start r < last.
Proof.
  unfold overlaps, used. destruct (Z.eqb_spec (end_ r) 0), (Z.leb_spec (end_ r) addr), (Z.leb_spec last (start r)); cbn; split; try done; try lia; intros (?&?&?); done || lia.
Qed.

(** Two regions of a table never map the same address. *)
Lemma maps_unique l x m m' : table_ok l -> maps l x m -> maps l x m' -> m = m'.
Proof.
  intros T (r&Hr&Hx&->) (r'&Hr'&Hx'&->). apply list_elem_of_lookup in Hr as [i Hi], Hr' as [j Hj]. apply contains_spec in Hx as [U Hx], Hx' as [U' Hx'].
  destruct (decide (i = j)) as [->|Hne]; [congruence|]. destruct (to_apart l T i j r r' Hi Hj U U' Hne); lia.
Qed.

Definition maps_but (l : list mem_region_t) (i : nat) (x : Z) (m : mapping) : Prop :=
  exists j r, j <> i /\ l !! j = Some r /\ contains x r = true /\ m = what r x.

Lemma maps_split l i r x m : l !! i = Some r -> maps l x m <-> (contains x r = true /\ m = what r x) \/ maps_but l i x m.
Proof.
  intros Hi. split.
  - intros (r'&Hr'&Hx&->). apply list_elem_of_lookup in Hr' as [j Hj]. destruct (decide (j = i)) as [->|Hne]; [left; simplify_eq; done|].
    right. by exists j, r'.
  - intros [[Hx ->]|(j&r'&_&Hj&Hx&->)]; [exists r|exists r']; (split; [by eapply list_elem_of_lookup_2|done]).
Qed.

Lemma maps_insert l i r r' x m : l !! i = Some r -> maps (<[i := r']> l) x m <-> (contains x r' = true /\ m = what r' x) \/ maps_but l i x m.
Proof.
  intros Hi. assert (<[i := r']> l !! i = Some r') as Hi' by (apply list_lookup_insert_eq; by eapply lookup_lt_Some).
  rewrite (maps_split _ i r' x m Hi'). f_equiv. unfold maps_but.
  split; intros (j&q&Hne&Hj&Hx); exists j, q; rewrite list_lookup_insert_ne in * by done; done.
Qed.

Lemma table_insert l i r r' : table_ok l -> l !! i = Some r -> (used r' = true -> region_ok r') ->
  (used r' = true -> forall j q, j <> i -> l !! j = Some q -> used q = true -> apart r' q) -> table_ok (<[i := r']> l).
Proof.
  intros [T1 T2 T3] Hi Hok Hap. split; [by rewrite length_insert| |].
  - intros j q [(<-&<-&_)|[_ Hj]]%list_lookup_insert_Some; [done|by eapply T2].
  - intros a b p q Ha Hb Up Uq Hne. apply list_lookup_insert_Some in Ha as [(<-&<-&_)|[Hia Ha]]; apply list_lookup_insert_Some in Hb as [(<-&<-&_)|[Hib Hb]].
    + done.
    + by eapply Hap.
    + destruct (Hap Uq a p (not_eq_sym Hia) Ha Up); [by right|by left].
    + by eapply (T3 a b).
Qed.

(** A part of a region. *)
Definition part (r r' : mem_region_t) : Prop := used r = true /\ start r <= start r' /\ end_ r' <= end_ r.

Lemma part_apart l i r r' j q : table_ok l -> l !! i = Some r -> part r r' -> j <> i -> l !! j = Some q -> used q = true -> apart r' q.
Proof. intros T Hi (U&H1&H2) Hne Hj Uq. destruct (to_apart l T i j r q Hi Hj U Uq (not_eq_sym Hne)); [left|right]; lia. Qed.

Lemma free_slot_spec l : match free_slot l with Some j => exists q, l !! j = Some q /\ used q = false | None => Forall (fun r => used r = true) l end.
Proof.
  unfold used. induction l as [|r l IH]; cbn [free_slot]; [constructor|]. destruct (end_ r =? 0) eqn:E; [exists r; cbn; by rewrite E|].
  destruct (free_slot l) as [j|]; cbn; [destruct IH as (q&?&?); by exists q|constructor; [by rewrite E|done]].
Qed.

(** * Who is held *)

(** A region holds its file: as one that has it open, as a running program, as a writer. *)
Record hold := mkHold { h_node : Z; h_program : bool; h_writes : bool }.
Definition hold_of (r : mem_region_t) : hold := mkHold (node r) (program r) (shared r && has (prot r) PROT_WRITE).
Definition held_by (r : mem_region_t) : list hold := if used r then [hold_of r] else [].
Definition holds (l : list mem_region_t) : list hold := concat (held_by <$> l).

Lemma holds_insert l i r r' : l !! i = Some r -> held_by r' ++ holds l ≡ₚ held_by r ++ holds (<[i := r']> l).
Proof.
  intros Hi. destruct (concat_fmap_insert held_by l i r r' Hi) as (rest&P1&P2). unfold holds. rewrite P1, P2, !app_assoc.
  by rewrite (Permutation_app_comm (held_by r')).
Qed.

Lemma holds_elem l r : r ∈ l -> used r = true -> hold_of r ∈ holds l.
Proof.
  intros Hr U. unfold holds. apply list_elem_of_In, in_concat. exists (held_by r). split; [apply list_elem_of_In, list_elem_of_fmap_2, Hr|].
  unfold held_by. rewrite U. by left.
Qed.

(** * Cutting *)

Section cut.
Context (addr last : Z).
Hypothesis Hrange : 0 <= addr < last.
Hypothesis Hlast : last <= USER_SPACE_END.
Hypothesis Ha : addr mod PAGE_SIZE = 0.
Hypothesis Hl : last mod PAGE_SIZE = 0.

Definition strict (r : mem_region_t) : bool := used r && (start r <? addr) && (last <? end_ r).

(** Entry [i] is cut: outside the range nothing changes. *)
Record entry_cut (l : list mem_region_t) (i : nat) (r : mem_region_t) (l' gone : list mem_region_t) : Prop := {
  ec_table : table_ok l';
  ec_maps : forall x m, ~ (addr <= x < last) -> maps l' x m <-> maps l x m;
  ec_here : forall q, l' !! i = Some q -> overlaps addr last q = false;
  ec_there : forall j, j <> i -> l' !! j = l !! j \/
    (strict r = true /\ exists q, (used <$> l !! j) = Some false /\ l' !! j = Some q /\ overlaps addr last q = false);
  ec_holds : holds l ++ (if strict r then [hold_of r] else []) ≡ₚ holds l' ++ (hold_of <$> gone) }.

(** The entry becomes [r'], which is a part of it outside the range. *)
Lemma replace_entry l i r r' gone :
  table_ok l -> l !! i = Some r -> overlaps addr last r = true -> strict r = false ->
  (used r' = true -> region_ok r' /\ part r r' /\ hold_of r' = hold_of r) -> overlaps addr last r' = false ->
  (forall x m, ~ (addr <= x < last) -> (contains x r' = true /\ m = what r' x) <-> (contains x r = true /\ m = what r x)) ->
  gone = (if used r' then [] else [r]) ->
  entry_cut l i r (<[i := r']> l) gone.
Proof.
  intros T Hi Ho Hs Hok Ho' Hm ->. assert (i < length l)%nat as Hlt by (by eapply lookup_lt_Some). split.
  - eapply table_insert; [done..|by intros U; apply Hok|]. intros U j q. eapply part_apart; [done..|]. by apply Hok.
  - intros x m Hx. rewrite (maps_insert l i r r'), (maps_split l i r) by done. by rewrite Hm.
  - intros q. rewrite list_lookup_insert_eq by done. by intros [= <-].
  - intros j Hj. left. by rewrite list_lookup_insert_ne.
  - rewrite Hs, app_nil_r. pose proof (holds_insert l i r r' Hi) as HP. apply overlaps_spec in Ho as [U _].
    unfold held_by in HP. rewrite U in HP. destruct (used r').
    + destruct (Hok eq_refl) as (_&_&E). rewrite E in HP. cbn [app] in HP. apply (Permutation_cons_inv (a := hold_of r)) in HP.
      cbn [fmap list_fmap]. by rewrite app_nil_r.
    + cbn [app] in HP. rewrite HP. apply Permutation_cons_append.
Qed.

Lemma cut_start_spec r : (start r <= addr /\ cut_start addr r = addr) \/ (addr < start r /\ cut_start addr r = start r).
Proof. unfold cut_start. destruct (Z.ltb_spec addr (start r)); [right|left]; lia. Qed.
Lemma cut_end_spec r : (last <= end_ r /\ cut_end last r = last) \/ (end_ r < last /\ cut_end last r = end_ r).
Proof. unfold cut_end. destruct (Z.ltb_spec (end_ r) last); [right|left]; lia. Qed.

Lemma what_moved r to e x :
  what (mkRegion to e (prot r) (node r) (u64 (file_offset r + (to - start r))) (program r) (shared r) (device r)) x = what r x.
Proof.
  unfold what. cbn. do 5 f_equal. unfold u64. rewrite Zplus_mod_idemp_l. f_equal. lia.
Qed.

Lemma used_spec r : used r = true <-> end_ r <> 0.
Proof. unfold used. rewrite negb_true_iff. apply Z.eqb_neq. Qed.

Lemma strict_spec r : strict r = true <-> used r = true /\ start r < addr /\ last < end_ r.
Proof. unfold strict. rewrite !andb_true_iff, !Z.ltb_lt. tauto. Qed.

(** A hole: the front stays in its entry and the back goes to entry [j]. *)
Lemma split_entry l i j r q head tail :
  table_ok l -> l !! i = Some r -> l !! j = Some q -> used q = false -> strict r = true ->
  region_ok head -> region_ok tail -> part r head -> part r tail -> hold_of head = hold_of r -> hold_of tail = hold_of r ->
  end_ head = addr -> start tail = last ->
  (forall x, what head x = what r x /\ what tail x = what r x) -> start head = start r -> end_ tail = end_ r ->
  entry_cut l i r (<[i := head]> (<[j := tail]> l)) [].
Proof.
  intros T Hi Hj Uq Hs Okh Okt Ph Pt Hh Ht Eh Et Hw Sh St. pose proof (proj1 (strict_spec r) Hs) as (U&Hs1&Hs2).
  destruct (ro_range _ (to_ok l T i r Hi U)) as [R1 R2]. destruct (ro_range _ Okh), (ro_range _ Okt).
  assert (used head = true /\ used tail = true) as [Uh Ut] by (split; apply used_spec; lia).
  assert (i <> j) as Hne by (intros ->; simplify_eq; congruence).
  assert (i < length l)%nat as Hlt by (by eapply lookup_lt_Some). assert (j < length l)%nat as Hltj by (by eapply lookup_lt_Some).
  set (l1 := <[i := head]> l). assert (<[i := head]> (<[j := tail]> l) = <[j := tail]> l1) as E by (unfold l1; by rewrite list_insert_insert_ne). rewrite E.
  assert (l1 !! j = Some q) as Hj1 by (unfold l1; by rewrite list_lookup_insert_ne).
  assert (table_ok l1) as T1. { eapply table_insert; [done..|]. intros _ a p. by eapply part_apart. }
  assert (forall x m, ~ (addr <= x < last) -> maps (<[j := tail]> l1) x m <-> maps l x m) as Hm.
  { intros x m Hx. rewrite (maps_insert l1 j q tail x m Hj1). pose proof (maps_split l1 j q x m Hj1) as Hq. rewrite contains_spec, Uq in Hq.
    destruct (Hw x) as [W1 W2]. rewrite W2. unfold l1 in Hq. rewrite (maps_insert l i r head x m Hi) in Hq. rewrite (maps_split l i r x m Hi). fold l1 in Hq.
    rewrite !contains_spec, W1 in *. rewrite Sh, Eh, Et, St, Uh, Ut, U in *.
    assert (maps_but l1 j x m <-> (start r <= x < addr /\ m = what r x) \/ maps_but l i x m) as ->.
    { split; intros Hb; [destruct (proj2 Hq (or_intror Hb)) as [[[_ ?] ?]|?]; auto|].
      destruct (proj1 Hq) as [[[? _] _]|?]; [destruct Hb as [[? ?]|?]; auto|done|done]. }
    split.
    + intros [[[_ ?] ->]|[[? ->]|?]]; [left; split; [split; [done|lia]|done]..|by right].
    + intros [[[_ ?] ->]|?]; [|by right; right].
      destruct (decide (x < addr)); [right; left; split; [lia|done]|left; split; [split; [done|lia]|done]]. }
  split; [|done|..].
  - eapply table_insert; [done|exact Hj1|done|]. intros _ a p Hap Hpa Up. unfold l1 in Hpa.
    apply list_lookup_insert_Some in Hpa as [(<-&<-&_)|[Hia Hpa]]; [right; lia|]. by eapply (part_apart l i r tail a).
  - intros p. rewrite list_lookup_insert_ne by done. unfold l1. rewrite list_lookup_insert_eq by done. intros [= <-].
    apply not_true_iff_false. rewrite overlaps_spec. lia.
  - intros a Hai. destruct (decide (a = j)) as [->|Haj].
    + right. split; [done|]. exists tail. rewrite Hj. cbn. rewrite Uq, list_lookup_insert_eq by (unfold l1; by rewrite length_insert). split_and!; [done|done|].
      apply not_true_iff_false. rewrite overlaps_spec. lia.
    + left. rewrite list_lookup_insert_ne by done. unfold l1. by rewrite list_lookup_insert_ne.
  - rewrite Hs. cbn [fmap list_fmap]. rewrite app_nil_r. pose proof (holds_insert l i r head Hi) as P1. pose proof (holds_insert l1 j q tail Hj1) as P2. fold l1 in P1.
    unfold held_by in P1, P2. rewrite Uh, U, Hh in P1. rewrite Ut, Uq, Ht in P2. cbn [app] in P1, P2. apply (Permutation_cons_inv (a := hold_of r)) in P1.
    rewrite <- P2, <- P1. by rewrite <- Permutation_cons_append.
Qed.

Lemma cut_entry_ok l i r :
  table_ok l -> l !! i = Some r -> overlaps addr last r = true -> (strict r = true -> free_slot l <> None) ->
  let '(l', gone) := cut_entry addr last i r l in entry_cut l i r l' gone.
Proof.
  intros T Hi Ho Hfree. pose proof (proj1 (overlaps_spec addr last r) Ho) as (U&O1&O2). destruct (to_ok l T i r Hi U) as [(R1&R2) (R3&R4)].
  pose proof (cut_start_spec r) as CS. pose proof (cut_end_spec r) as CE. unfold cut_entry.
  destruct (Z.eqb_spec (cut_start addr r) (start r)) as [E1|E1]; destruct (Z.eqb_spec (cut_end last r) (end_ r)) as [E2|E2]; cbn [andb].
  - assert (strict r = false) as Hs by (apply not_true_iff_false; rewrite strict_spec; lia). apply replace_entry; try done.
    intros x m Hx. rewrite !contains_spec. cbn. split; [by intros [[? _] _]|]. intros [[_ ?] _]. lia.
  - assert (cut_end last r = last) as E by lia. rewrite E. assert (strict r = false) as Hs by (apply not_true_iff_false; rewrite strict_spec; lia).
    apply replace_entry; try done.
    + intros _. split_and!; [split; cbn; lia| |done]. split; [done|]. cbn. lia.
    + apply not_true_iff_false. rewrite overlaps_spec. cbn. lia.
    + intros x m Hx. rewrite what_moved, !contains_spec. unfold used. cbn. rewrite (proj2 (Z.eqb_neq (end_ r) 0)) by lia. cbn.
      split; intros [[_ ?] ?]; (split; [split; [done|lia]|done]).
    + unfold used. cbn. by rewrite (proj2 (Z.eqb_neq (end_ r) 0)) by lia.
  - assert (cut_start addr r = addr) as E by lia. rewrite E. assert (strict r = false) as Hs by (apply not_true_iff_false; rewrite strict_spec; lia).
    apply replace_entry; try done.
    + intros _. split_and!; [split; cbn; lia| |done]. split; [done|]. cbn. lia.
    + apply not_true_iff_false. rewrite overlaps_spec. cbn. lia.
    + intros x m Hx. rewrite !contains_spec. unfold used. cbn. rewrite (proj2 (Z.eqb_neq (end_ r) 0)), (proj2 (Z.eqb_neq addr 0)) by lia. cbn.
      split; intros [[_ ?] ?]; (split; [split; [done|lia]|done]).
    + unfold used. cbn. by rewrite (proj2 (Z.eqb_neq addr 0)) by lia.
  - assert (cut_start addr r = addr /\ cut_end last r = last) as [-> ->] by lia.
    assert (strict r = true) as Hs by (apply strict_spec; split; [done|lia]). pose proof (free_slot_spec l) as HF. destruct (free_slot l) as [j|]; [|by destruct (Hfree Hs)].
    destruct HF as (q&Hj&Uq). eapply split_entry; try done; try (split; cbn; lia); try (split; [done|]; cbn; lia).
    intros x. split; [done|]. by rewrite what_moved.
Qed.

(** ** The search for a hole *)

Lemma find_hole_spec room l : forall hole,
  match find_hole addr last room l hole with
  | None => room = false /\ exists r, r ∈ l /\ strict r = true
  | Some h => (Forall (fun r => strict r = false) l /\ h = hole) \/ (room = true /\ h ∈ l /\ strict h = true)
  end.
Proof.
  induction l as [|r l IH]; intros hole; cbn [find_hole]; [left; split; [constructor|done]|]. fold (used r). fold (strict r). destruct (strict r) eqn:Hs.
  - destruct room; [|split; [done|]; exists r; split; [by left|done]]. specialize (IH r). destruct (find_hole addr last true l r) as [h|].
    + right. destruct IH as [[_ ->]|(_&?&?)]; split_and!; try done; apply elem_of_cons; auto.
    + by destruct IH.
  - specialize (IH hole). destruct (find_hole addr last room l hole) as [h|].
    + destruct IH as [[? ->]|(?&?&?)]; [left; split; [by constructor|done]|right; split_and!; try done; apply elem_of_cons; auto].
    + destruct IH as [? (q&?&?)]. split; [done|]. exists q. rewrite elem_of_cons. auto.
Qed.

Lemma strict_overlaps r : strict r = true -> overlaps addr last r = true.
Proof. rewrite strict_spec, overlaps_spec. intros (?&?&?). split; [done|lia]. Qed.

(** A region with a hole in it is the only one in the range. *)
Lemma strict_alone l i j r q : table_ok l -> l !! i = Some r -> strict r = true -> l !! j = Some q -> overlaps addr last q = true -> i = j.
Proof.
  intros T Hi Hs Hj Ho. apply strict_spec in Hs as (U&?&?). apply overlaps_spec in Ho as (U'&?&?).
  destruct (decide (i = j)) as [|Hne]; [done|]. destruct (to_apart l T i j r q Hi Hj U U' Hne); lia.
Qed.

Lemma free_slot_exists l : free_slot l <> None <-> exists j q, l !! j = Some q /\ used q = false.
Proof.
  pose proof (free_slot_spec l) as H. destruct (free_slot l) as [j|]; [destruct H as (q&?&?); split; [by exists j, q|done]|].
  split; [done|]. intros (j&q&Hj&U). rewrite Forall_lookup in H. rewrite (H j q Hj) in U. done.
Qed.

(** ** The loop *)

Context {W : Type} (p0 : process) (k0 : kernel W).
Notation l0 := (regions p0).
Hypothesis T0 : table_ok l0.
Hypothesis Hroom : (exists r, r ∈ l0 /\ strict r = true) -> free_slot l0 <> None.
Hypothesis Hprom : 0 <= promised_pages p0.
Hypothesis Htotal : 0 <= promised_total k0 < 0x10000000000000000.

(** Untouched pages of the part of [r] in the range: no longer promised. *)
Definition due (r : mem_region_t) : Z :=
  if overlaps addr last r && negb (device r) then untouched_pages p0 k0 (cut_start addr r) (cut_end last r) else 0.
Definition dues (l : list mem_region_t) : Z := fold_right (fun r n => due r + n) 0 l.

Definition strict_holds (l : list mem_region_t) : list hold := concat ((fun r => if strict r then [hold_of r] else []) <$> l).

Lemma untouched_nonneg p (k : kernel W) a b : 0 <= untouched_pages p k a b.
Proof.
  unfold untouched_pages, for_pages. rewrite loop_rounds.
  pose proof (rounds_invariant (fun c : Z * Z => 0 <= c.2) (fun r : Z + unit => match r with inl c => 0 <= c | inr _ => True end)
    (page_step (fun page count => inl (if untouched (vm k) (space_of p k) page then count + 1 else count)) b)) as HI.
  specialize (HI ltac:(intros [page c] Hc; cbn [snd] in Hc; cbn [page_step]; destruct (page <? b); [cbn [snd]; destruct (untouched _ _ _); lia|done])).
  specialize (HI (Pos.to_nat (Z.to_pos ((b - a) / PAGE_SIZE + 2))) (a, 0) ltac:(cbn; lia)).
  destruct (rounds _ _ _) as [[? c]|[c|[]]]; [done|done|lia].
Qed.

Record cut_inv (i : nat) (gone : list mem_region_t) (p : process) (k : kernel W) : Prop := {
  ci_table : table_ok (regions p);
  ci_maps : forall x m, ~ (addr <= x < last) -> maps (regions p) x m <-> maps l0 x m;
  ci_done : forall j q, (j < i)%nat -> regions p !! j = Some q -> overlaps addr last q = false;
  ci_rest : forall j q, (i <= j)%nat -> regions p !! j = Some q -> l0 !! j = Some q \/
    ((exists q0, l0 !! j = Some q0 /\ used q0 = false) /\ overlaps addr last q = false);
  ci_room : (exists j r, (i <= j)%nat /\ l0 !! j = Some r /\ strict r = true) -> free_slot (regions p) <> None;
  ci_holds : holds l0 ++ strict_holds (take i l0) ≡ₚ holds (regions p) ++ (hold_of <$> gone);
  ci_proc : p = set_promised (set_regions p0 (regions p)) (Z.max 0 (promised_pages p0 - dues (take i l0)));
  ci_kern : k = set_total k0 (u64 (promised_total k0 - (promised_pages p0 - promised_pages p))) }.

Lemma dues_snoc l r : dues (l ++ [r]) = dues l + due r.
Proof. unfold dues. induction l as [|q l IH]; cbn; [lia|]. rewrite IH. lia. Qed.

Lemma dues_nonneg l : 0 <= dues l.
Proof.
  induction l as [|r l IH]; [done|]. change (dues (r :: l)) with (due r + dues l). pose proof (untouched_nonneg p0 k0 (cut_start addr r) (cut_end last r)).
  unfold due. destruct (_ && _); lia.
Qed.

Lemma strict_holds_snoc l r : strict_holds (l ++ [r]) = strict_holds l ++ (if strict r then [hold_of r] else []).
Proof. unfold strict_holds. rewrite fmap_app, concat_app. cbn. by rewrite app_nil_r. Qed.

Lemma cut_inv_start : cut_inv 0 [] p0 k0.
Proof.
  split; try done; try lia.
  - by left.
  - intros (j&r&_&Hj&Hs). apply Hroom. exists r. split; [by eapply list_elem_of_lookup_2|done].
  - rewrite take_0. change (dues []) with 0. rewrite Z.sub_0_r, Z.max_r by done. by destruct p0.
  - rewrite Z.sub_diag, Z.sub_0_r, u64_small by done. by destruct k0.
Qed.

(** An entry that is not in the range. *)
Lemma cut_inv_skip i gone p k r : cut_inv i gone p k -> regions p !! i = Some r -> overlaps addr last r = false -> cut_inv (S i) gone p k.
Proof.
  intros [C1 C2 C3 C4 C5 C6 C7 C8] Hi Ho. assert (i < length l0)%nat as Hlt by (rewrite (to_len _ T0), <- (to_len _ C1); by eapply lookup_lt_Some).
  destruct (lookup_lt_is_Some_2 _ _ Hlt) as [q Hq]. assert (overlaps addr last q = false) as Hoq.
  { destruct (C4 i r ltac:(lia) Hi) as [E|[(q0&E&Uq) _]]; [congruence|]. apply not_true_iff_false. rewrite overlaps_spec. intros [? _]. simplify_eq. congruence. }
  assert (due q = 0) as Hd by (unfold due; by rewrite Hoq). assert (strict q = false) as Hs.
  { apply not_true_iff_false. intros Hs%strict_overlaps. congruence. }
  split; try done.
  - intros j r' Hj Hr'. destruct (decide (j = i)) as [->|]; [congruence|]. eapply C3; [|done]. lia.
  - intros j r' Hj Hr'. apply C4; [lia|done].
  - intros (j&r'&Hj&?&?). apply C5. exists j, r'. split; [lia|done].
  - rewrite (take_S_r _ _ _ Hq), strict_holds_snoc, Hs, app_nil_r. done.
  - rewrite (take_S_r _ _ _ Hq), dues_snoc, Hd, Z.add_0_r. done.
Qed.

Lemma pay i gone p k r : cut_inv i gone p k -> l0 !! i = Some r -> overlaps addr last r = true ->
  let '(p1, k1) := if negb (device r) then uncharge (untouched_pages p k (cut_start addr r) (cut_end last r)) p k else (p, k) in
  p1 = set_promised p (Z.max 0 (promised_pages p0 - dues (take (S i) l0))) /\
  k1 = set_total k0 (u64 (promised_total k0 - (promised_pages p0 - promised_pages p1))).
Proof.
  intros [_ _ _ _ _ _ C7 C8] Hi Ho. rewrite (take_S_r _ _ _ Hi), dues_snoc. set (d := dues (take i l0)) in *.
  assert (promised_pages p = Z.max 0 (promised_pages p0 - d)) as Ep by (by rewrite C7).
  unfold due. rewrite Ho. destruct (device r); cbn [andb negb].
  - split; [|done]. rewrite Z.add_0_r, <- Ep. by destruct p.
  - assert (untouched_pages p k (cut_start addr r) (cut_end last r) = untouched_pages p0 k0 (cut_start addr r) (cut_end last r)) as -> by (by rewrite C7, C8).
    pose proof (untouched_nonneg p0 k0 (cut_start addr r) (cut_end last r)) as Hn. set (n := untouched_pages _ _ _ _) in *. unfold uncharge. cbn [promised_pages set_promised].
    assert (promised_pages p - (if promised_pages p <? n then promised_pages p else n) = Z.max 0 (promised_pages p0 - (d + n))) as E.
    { destruct (Z.ltb_spec (promised_pages p) n); lia. }
    split; [by rewrite E|]. cbn. rewrite C8. unfold set_total. cbn. f_equal. unfold u64. rewrite Zminus_mod_idemp_l. f_equal. lia.
Qed.

Lemma cut_inv_cut i gone p k r : cut_inv i gone p k -> regions p !! i = Some r -> overlaps addr last r = true ->
  let '(p1, k1) := if negb (device r) then uncharge (untouched_pages p k (cut_start addr r) (cut_end last r)) p k else (p, k) in
  let '(l, new) := cut_entry addr last i r (regions p1) in
  cut_inv (S i) (gone ++ new) (set_regions p1 l) k1.
Proof.
  intros C Hi Ho. pose proof C as [C1 C2 C3 C4 C5 C6 C7 C8]. assert (l0 !! i = Some r) as Hi0 by (destruct (C4 i r ltac:(lia) Hi) as [|[_ ?]]; [done|congruence]).
  pose proof (pay i gone p k r C Hi0 Ho) as HP. destruct (if negb (device r) then _ else _) as [p1 k1]. destruct HP as [E1 E2].
  assert (regions p1 = regions p) as -> by (by rewrite E1).
  pose proof (cut_entry_ok (regions p) i r C1 Hi Ho ltac:(intros Hs; apply C5; by exists i, r)) as HE. destruct (cut_entry addr last i r (regions p)) as [l new].
  destruct HE as [D1 D2 D3 D4 D5]. split; cbn [regions set_regions]; try done.
  - intros x m Hx. rewrite D2 by done. by apply C2.
  - intros j q Hj Hq. destruct (decide (j = i)) as [->|Hne]; [by apply D3|].
    destruct (D4 j Hne) as [E|(_&q'&_&E&?)]; rewrite E in Hq; [|congruence]. eapply C3; [|done]. lia.
  - intros j q Hj Hq. destruct (D4 j ltac:(lia)) as [E|(_&q'&Uq&E&Hov)]; rewrite E in Hq; [apply C4; [lia|done]|]. injection Hq as <-. right. split; [|done].
    destruct (regions p !! j) as [q|] eqn:Ej; cbn in Uq; [|done]. injection Uq as Uq.
    destruct (C4 j q ltac:(lia) Ej) as [E0|[? _]]; [by exists q|done].
  - intros (j&q&Hj&Hq&Hs). assert (strict r = false) as Hsr.
    { apply not_true_iff_false. intros Hsr. pose proof (strict_alone l0 i j r q T0 Hi0 Hsr Hq (strict_overlaps _ Hs)). lia. }
    apply free_slot_exists. destruct (proj1 (free_slot_exists (regions p))) as (a&qa&Ha'&Ua); [apply C5; exists j, q; split; [lia|done]|].
    exists a, qa. split; [|done]. destruct (decide (a = i)) as [->|Hne]; [apply overlaps_spec in Ho as [U _]; congruence|].
    destruct (D4 a Hne) as [->|(?&_)]; [done|congruence].
  - rewrite (take_S_r _ _ _ Hi0), strict_holds_snoc, app_assoc, C6, fmap_app, <- app_assoc, (Permutation_app_comm (hold_of <$> gone)), app_assoc, D5, <- app_assoc.
    apply Permutation_app_head, Permutation_app_comm.
  - rewrite E1. rewrite C7. done.
Qed.

Lemma cut_loop_inv n : forall i gone p k, (n + i = TASK_MAX_REGIONS)%nat -> cut_inv i gone p k ->
  let '(gone', p', k') := cut_loop addr last n i gone p k in cut_inv TASK_MAX_REGIONS gone' p' k'.
Proof.
  induction n as [|n IH]; intros i gone p k Hn C; cbn [cut_loop]; [by rewrite <- Hn|].
  assert (i < length (regions p))%nat as Hlt by (rewrite (to_len _ (ci_table _ _ _ _ C)); lia). destruct (lookup_lt_is_Some_2 _ _ Hlt) as [r Hi].
  assert (nth i (regions p) no_region = r) as -> by (by rewrite nth_lookup, Hi). destruct (overlaps addr last r) eqn:Ho; cbn [negb].
  - pose proof (cut_inv_cut i gone p k r C Hi Ho) as HC. destruct (if negb (device r) then _ else _) as [p1 k1].
    destruct (cut_entry addr last i r (regions p1)) as [l new]. apply IH; [lia|done].
  - apply IH; [lia|]. by eapply cut_inv_skip.
Qed.

(** The table without the range, and what became of it. *)
Lemma cut_loop_ok :
  let '(gone, p, k) := cut_loop addr last TASK_MAX_REGIONS 0 [] p0 k0 in
  table_ok (regions p) /\ (forall x m, maps (regions p) x m <-> maps l0 x m /\ ~ (addr <= x < last)) /\
  holds l0 ++ strict_holds l0 ≡ₚ holds (regions p) ++ (hold_of <$> gone) /\
  p = set_promised (set_regions p0 (regions p)) (Z.max 0 (promised_pages p0 - dues l0)) /\
  k = set_total k0 (u64 (promised_total k0 - (promised_pages p0 - promised_pages p))).
Proof.
  pose proof (cut_loop_inv TASK_MAX_REGIONS 0 [] p0 k0 ltac:(lia) cut_inv_start) as HC.
  destruct (cut_loop addr last TASK_MAX_REGIONS 0 [] p0 k0) as [[gone p] k]. destruct HC as [C1 C2 C3 C4 C5 C6 C7 C8].
  rewrite take_ge in C6, C7 by (by rewrite (to_len _ T0)). split_and!; try done. intros x m. destruct (decide (addr <= x < last)) as [Hx|Hx].
  - split; [|by intros [_ ?]]. intros (r&Hr&Hc&_). apply list_elem_of_lookup in Hr as [j Hj]. apply contains_spec in Hc as [U Hc].
    assert (overlaps addr last r = false) as Ho by (eapply C3; [|done]; rewrite <- (to_len _ C1); by eapply lookup_lt_Some).
    apply not_true_iff_false in Ho. rewrite overlaps_spec in Ho. exfalso. apply Ho. split; [done|lia].
  - rewrite C2 by done. tauto.
Qed.
End cut.
