(* ===== verification/RegionProps.v ===== *)
(** Regions, continued: the counts a file keeps of who holds it, and what [munmap]
    does on every path. *)
From stdpp Require Import base tactics numbers list sets gmap relations.
From Stdlib Require Import ZArith Lia.
From S2P Require Import Prelude Errno Pmm Cow SwapSlots Vmm VmmInv VmmProps VmmSwap Swap Mmap Region RegionTable.

Open Scope Z_scope.

(** * The counts of a file *)

Definition tally (P : hold -> bool) (l : list hold) (n : Z) : Z :=
  Z.of_nat (length (filter (fun h => h_node h = n /\ P h = true) l)).
Definition any_hold (h : hold) : bool := true.

Lemma tally_cons P h l n : tally P (h :: l) n = (if decide (h_node h = n /\ P h = true) then 1 else 0) + tally P l n.
Proof. unfold tally. rewrite filter_cons. case_decide; cbn [length]; lia. Qed.

Lemma tally_app P l l' n : tally P (l ++ l') n = tally P l n + tally P l' n.
Proof. unfold tally. rewrite filter_app, length_app. lia. Qed.

Lemma tally_perm P l l' n : l ≡ₚ l' -> tally P l n = tally P l' n.
Proof. intros HP. unfold tally. by rewrite HP. Qed.

Lemma tally_pos P l h : h ∈ l -> P h = true -> 1 <= tally P l (h_node h).
Proof.
  intros Hh HP. apply list_elem_of_split in Hh as (l1&l2&->). rewrite tally_app, tally_cons, decide_True by done. unfold tally. lia.
Qed.

(** How many others have the file open, run it, may write it. *)
Record counts := mkCounts { c_open : Z; c_exec : Z; c_write : Z }.

Section counts.
Context {W : Type}.
Implicit Types (k : kernel W) (base : Z -> counts) (l : list hold).

Record counted (v : vnode W) (c : counts) (l : list hold) (n : Z) : Prop := {
  cd_open : open_count v = u32 (c_open c + tally any_hold l n);
  cd_exec : exec_count v = u32 (c_exec c + tally h_program l n);
  cd_write : write_count v = u32 (c_write c + tally h_writes l n) }.

(** The counts are those of the others and of the holds in [l]. *)
Definition counts_ok (k : kernel W) (base : Z -> counts) (l : list hold) : Prop :=
  forall n, n <> 0 -> counted (nodes k n) (base n) l n.

Lemma counts_perm k base l l' : l ≡ₚ l' -> counts_ok k base l -> counts_ok k base l'.
Proof. intros HP HC n Hn. destruct (HC n Hn) as [A B C]. split; by rewrite <- (tally_perm _ _ _ _ HP). Qed.

Lemma counts_nodes k k' base l : nodes k' = nodes k -> counts_ok k base l -> counts_ok k' base l.
Proof. intros E HC n Hn. rewrite E. by apply HC. Qed.

(** [by_] more holds like that of [r]. *)
Lemma pin_counted r by_ k base l l' :
  (forall P n, tally P l' n = (if decide (node r = n /\ P (hold_of r) = true) then by_ else 0) + tally P l n) ->
  counts_ok k base l -> counts_ok (pin r by_ k) base l'.
Proof.
  intros Hl HC n Hn. unfold pin. destruct (Z.eqb_spec (node r) 0) as [E|E].
  - destruct (HC n Hn) as [A B C]. split; rewrite Hl, decide_False by (intros [? _]; congruence); done.
  - cbn [nodes set_node]. destruct (HC n Hn) as [A B C]. destruct (Z.eqb_spec n (node r)) as [->|Hne].
    + split; cbn; rewrite Hl.
      * rewrite decide_True by done. rewrite A, u32_add. f_equal. lia.
      * unfold hold_of. cbn. destruct (program r); [rewrite decide_True by done|rewrite decide_False by (by intros [_ ?])]; rewrite B, ?u32_add; f_equal; lia.
      * unfold hold_of. cbn. destruct (shared r && _); [rewrite decide_True by done|rewrite decide_False by (by intros [_ ?])]; rewrite C, ?u32_add; f_equal; lia.
    + split; rewrite Hl, decide_False by (intros [? _]; congruence); done.
Qed.

Lemma pin_add r k base l : counts_ok k base l -> counts_ok (pin r 1 k) base (hold_of r :: l).
Proof. apply pin_counted. intros P n. by rewrite tally_cons. Qed.

Lemma pin_drop r k base l : counts_ok k base (hold_of r :: l) -> counts_ok (pin r (-1) k) base l.
Proof. apply pin_counted. intros P n. rewrite tally_cons. cbn. case_decide; lia. Qed.

Lemma hold_device_same r by_ k : nodes (hold_device r by_ k).2 = nodes k /\ vm (hold_device r by_ k).2 = vm k /\
  promised_total (hold_device r by_ k).2 = promised_total k.
Proof.
  unfold hold_device. destruct (negb _); [done|]. destruct (ops _) as [o|]; [|done]. destruct (0 <? by_).
  - destruct (opened o) as [f|]; [|done]. by destruct (f _ _ _).
  - by destruct (closed o).
Qed.

Lemma pin_same r by_ k : vm (pin r by_ k) = vm k /\ promised_total (pin r by_ k) = promised_total k.
Proof. unfold pin. by destruct (_ =? 0). Qed.

Lemma let_go_drop r k base l : counts_ok k base (hold_of r :: l) -> counts_ok (let_go r k) base l.
Proof. intros HC. apply pin_drop. eapply counts_nodes; [apply hold_device_same|done]. Qed.

Lemma let_go_total r k : promised_total (let_go r k) = promised_total k.
Proof. unfold let_go. rewrite (proj2 (pin_same _ _ _)). apply hold_device_same. Qed.

Context `{files W}.

Lemma in_cache_same {A} (f : vmm * W -> A * (vmm * W)) k : nodes (in_cache f k).2 = nodes k /\ promised_total (in_cache f k).2 = promised_total k.
Proof. unfold in_cache. by destruct (f _) as [? [? ?]]. Qed.

(** * The parts of munmap *)

Definition written_holds (ws : list written) : list hold := (fun w => mkHold (w_node w) false false) <$> ws.

Lemma collect_written_ok addr last rl : forall k base l, counts_ok k base l ->
  let '(ws, k') := collect_written addr last rl k in
  counts_ok k' base (written_holds ws ++ l) /\ vm k' = vm k /\ promised_total k' = promised_total k.
Proof.
  induction rl as [|r rl IH]; intros k base l HC; cbn [collect_written]; [done|]. destruct (_ || _); [by apply IH|].
  specialize (IH _ _ _ (pin_add (file_only (node r)) k base l HC)). destruct (collect_written addr last rl _) as [ws k'].
  destruct IH as (H1&H2&H3). destruct (pin_same (file_only (node r)) 1 k) as [E1 E2]. split; [|split; congruence].
  eapply counts_perm; [|exact H1].
  assert (w_node (note_written addr last r) = node r) as E by (unfold note_written; by destruct (file_pages _ _ _)).
  unfold written_holds. cbn [fmap list_fmap app]. rewrite E. symmetry. apply Permutation_middle.
Qed.

(** What the thread holds once it has prepared. *)
Definition prepared_holds (u : unmapping) : list hold := held_by (u_hole u) ++ written_holds (u_written u).

Lemma strict_holds_none addr last (l : list mem_region_t) : Forall (fun r => strict addr last r = false) l -> strict_holds addr last l = [].
Proof. unfold strict_holds. induction 1 as [|r l E _ IH]; cbn; [done|]. by rewrite E. Qed.

Lemma strict_holds_one addr last (l : list mem_region_t) h : 0 <= addr < last -> table_ok l -> h ∈ l -> strict addr last h = true -> strict_holds addr last l = [hold_of h].
Proof.
  intros Hr T (l1&l2&->)%list_elem_of_split Hs. unfold strict_holds. rewrite fmap_app, concat_app. cbn. rewrite Hs.
  assert (forall j q, (l1 ++ h :: l2) !! j = Some q -> strict addr last q = true -> j = length l1) as Hone.
  { intros j q Hj Hq. symmetry. eapply (strict_alone addr last Hr (l1 ++ h :: l2)); [done| |exact Hs|done|by apply strict_overlaps]. by apply list_lookup_middle. }
  change (concat _) with (strict_holds addr last l1) at 1. change (concat (_ <$> l2)) with (strict_holds addr last l2). rewrite !strict_holds_none; [done|..].
  - apply Forall_lookup. intros j q Hj. apply not_true_iff_false. intros Hq. specialize (Hone (length l1 + S j)%nat q).
    rewrite lookup_app_r in Hone by lia. replace (length l1 + S j - length l1)%nat with (S j) in Hone by lia. specialize (Hone Hj Hq). lia.
  - apply Forall_lookup. intros j q Hj. apply not_true_iff_false. intros Hq. assert (j < length l1)%nat by (by eapply lookup_lt_Some).
    specialize (Hone j q). rewrite lookup_app_l in Hone by done. specialize (Hone Hj Hq). lia.
Qed.

Definition full (l : list mem_region_t) : bool := match free_slot l with Some _ => false | None => true end.

Lemma unmap_prepare_ok addr last p k base l :
  0 <= addr < last -> table_ok (regions p) -> counts_ok k base l ->
  match unmap_prepare addr last p k with
  | None => existsb (strict addr last) (regions p) && full (regions p) = true
  | Some (u, k') =>
      existsb (strict addr last) (regions p) && full (regions p) = false /\
      u_addr u = addr /\ u_last u = last /\ strict_holds addr last (regions p) = held_by (u_hole u) /\
      counts_ok k' base (prepared_holds u ++ l) /\ vm k' = vm k /\ promised_total k' = promised_total k
  end.
Proof.
  intros Hr T HC. unfold unmap_prepare. set (room := match free_slot (regions p) with Some _ => true | None => false end).
  assert (full (regions p) = negb room) as -> by (unfold full, room; by destruct (free_slot _)).
  pose proof (find_hole_spec addr last room (regions p) no_region) as HF. destruct (find_hole addr last room (regions p) no_region) as [h|].
  - assert (existsb (strict addr last) (regions p) && negb room = false /\ strict_holds addr last (regions p) = held_by h) as [E1 E2].
    { destruct HF as [[HF ->]|(->&Hin&Hs)].
      - split; [|by rewrite strict_holds_none]. apply andb_false_iff. left. apply not_true_iff_false. rewrite existsb_exists. intros (r&Hr'&Hs).
        rewrite Forall_forall in HF. rewrite HF in Hs; [done|]. by apply list_elem_of_In.
      - split; [by rewrite andb_false_r|]. rewrite (strict_holds_one addr last _ h) by done. apply (strict_spec addr last Hr) in Hs as [U _]. unfold held_by. by rewrite U. }
    set (k1 := if negb (end_ h =? 0) then _ else _).
    assert (counts_ok k1 base (held_by h ++ l) /\ vm k1 = vm k /\ promised_total k1 = promised_total k) as (H1&H2&H3).
    { unfold k1, held_by, used. destruct (negb (end_ h =? 0)); [|split_and!; [exact HC|done|done]]. destruct (hold_device_same h 1 (pin h 1 k)) as (D1&D2&D3). destruct (pin_same h 1 k) as [E3 E4].
      split; [|split; congruence]. eapply counts_nodes; [exact D1|]. by apply pin_add. }
    pose proof (collect_written_ok addr last (regions p) k1 base _ H1) as HW. destruct (collect_written addr last (regions p) k1) as [ws k2].
    destruct HW as (H4&H5&H6). split_and!; try done; [|congruence|congruence]. unfold prepared_holds. cbn.
    eapply counts_perm; [|exact H4]. rewrite !app_assoc. by rewrite (Permutation_app_comm (written_holds ws)).
  - destruct HF as [-> (r&Hin&Hs)]. rewrite andb_true_r. apply existsb_exists. exists r. split; [by apply list_elem_of_In|done].
Qed.

Lemma unmap_finish_ok (busy : bool) u (gone : list mem_region_t) k base l :
  counts_ok k base ((hold_of <$> gone) ++ (if busy then held_by (u_hole u) else []) ++ written_holds (u_written u) ++ l) ->
  counts_ok (unmap_finish busy u gone k) base l /\ promised_total (unmap_finish busy u gone k) = promised_total k.
Proof.
  intros HC. unfold unmap_finish. set (rest := (if busy then held_by (u_hole u) else []) ++ written_holds (u_written u) ++ l) in HC.
  assert (counts_ok (fold_left (fun k r => let_go r k) gone k) base rest /\ promised_total (fold_left (fun k r => let_go r k) gone k) = promised_total k) as [H1 T1].
  { clearbody rest. revert k HC. induction gone as [|r gone IH]; intros k HC; [done|]. cbn [fold_left]. rewrite <- (let_go_total r k). apply IH. by apply let_go_drop. }
  set (k1 := fold_left _ gone k) in *. clearbody k1. set (k2 := if busy && negb (end_ (u_hole u) =? 0) then let_go (u_hole u) k1 else k1).
  assert (counts_ok k2 base (written_holds (u_written u) ++ l) /\ promised_total k2 = promised_total k) as [H2 T2].
  { unfold k2, rest, held_by, used in *. destruct busy; cbn [andb app] in *; [|done]. destruct (negb _); [|done]. split; [by apply let_go_drop|]. by rewrite let_go_total. }
  clearbody k2. clear H1 T1 HC rest k1. revert k2 H2 T2. induction (u_written u) as [|w ws IH]; intros k2 H2 T2; [done|]. cbn [fold_left]. apply IH.
  - apply pin_drop. eapply counts_nodes; [|exact H2]. destruct busy; [done|]. apply in_cache_same.
  - rewrite (proj2 (pin_same _ _ _)), <- T2. destruct busy; [done|]. apply in_cache_same.
Qed.

(** * munmap *)

Lemma for_pages_goes_on {A B} (body : Z -> A -> A + B) first last a :
  (forall page a, exists a', body page a = inl a') -> exists a', for_pages body first last a = inl a'.
Proof.
  intros Hb. unfold for_pages. rewrite loop_rounds.
  pose proof (rounds_invariant (fun _ => True) (fun r : A + B => exists a', r = inl a') (page_step body last)) as HI.
  specialize (HI ltac:(intros [page c] _; cbn [page_step]; destruct (page <? last); [destruct (Hb page c) as [c' ->]; done|by exists c])).
  specialize (HI (Pos.to_nat (Z.to_pos ((last - first) / PAGE_SIZE + 2))) (first, a) I).
  destruct (rounds _ _ _) as [[? c]|r]; [by exists c|done].
Qed.

Lemma unmap_range_result v pml4 addr length : fst (user_unmap_range v pml4 addr length) = if bad_range pml4 addr length then -1 else 0.
Proof.
  unfold user_unmap_range. destruct (bad_range _ _ _); [done|].
  destruct (for_pages_goes_on (unmap_one pml4) addr (u64 (addr + page_align_up length)) ([], v)) as [[held s] ->]; [|done].
  intros page [held s]. unfold unmap_one. cbn. destruct (negb _); [|by eexists]. destruct (_ =? BATCH); by eexists.
Qed.

(** Pages that are no longer promised once [addr, last) is gone. *)
Definition withdrawn (addr last : Z) (p : process) (k : kernel W) : Z := dues addr last p k (regions p).

Lemma unmap_cut_ok u p k base l :
  0 <= u_addr u < u_last u -> u_last u <= USER_SPACE_END -> u_addr u mod PAGE_SIZE = 0 -> u_last u mod PAGE_SIZE = 0 ->
  table_ok (regions p) -> 0 <= promised_pages p -> 0 <= promised_total k < 0x10000000000000000 ->
  ((exists r, r ∈ regions p /\ strict (u_addr u) (u_last u) r = true) -> free_slot (regions p) <> None) ->
  counts_ok k base (holds (regions p) ++ strict_holds (u_addr u) (u_last u) (regions p) ++ l) ->
  let '(r, gone, p', k') := unmap_cut false u p k in
  (space_of p k <> 0 -> r = 0) /\ table_ok (regions p') /\ counts_ok k' base (holds (regions p') ++ (hold_of <$> gone) ++ l) /\
  (forall x m, maps (regions p') x m <-> maps (regions p) x m /\ ~ (u_addr u <= x < u_last u)) /\
  holds (regions p) ++ strict_holds (u_addr u) (u_last u) (regions p) ≡ₚ holds (regions p') ++ (hold_of <$> gone) /\
  p' = set_promised (set_regions p (regions p')) (Z.max 0 (promised_pages p - withdrawn (u_addr u) (u_last u) p k)) /\
  promised_total k' = u64 (promised_total k - (promised_pages p - promised_pages p')).
Proof.
  intros Hr Hu Ha Hl T Hp Ht Hroom HC. unfold unmap_cut.
  pose proof (cut_loop_ok (u_addr u) (u_last u) Hr Hu Ha Hl p k T Hroom Hp Ht) as HL. destruct (cut_loop _ _ _ _ _ p k) as [[gone p'] k'].
  destruct HL as (L1&L2&L3&L4&L5). pose proof (unmap_range_result (vm k') (space_of p' k') (u_addr u) (u_last u - u_addr u)) as HR.
  assert (space_of p' k' = space_of p k) as Es by (by rewrite L4, L5). rewrite Es in *. destruct (user_unmap_range _ _ _ _) as [r v]. cbn [fst] in HR.
  split_and!; try done.
  - intros Hsp. assert (bad_range (space_of p k) (u_addr u) (u_last u - u_addr u) = false) as Eb; [|by rewrite HR, Eb].
    unfold bad_range. rewrite !orb_false_iff, !Z.eqb_neq, Z.leb_gt, Z.ltb_ge. split_and!; try lia. unfold has. apply negb_false_iff, Z.eqb_eq.
    change (PAGE_SIZE - 1) with (Z.ones 12). rewrite Z.land_ones by lia. done.
  - eapply counts_perm; [|eapply (counts_nodes k); [by rewrite L5|exact HC]]. by rewrite !app_assoc, L3.
  - cbn. by rewrite L5.
Qed.

(** What [region_unmap] checks first. *)
Definition bad_unmap (addr length : Z) : bool :=
  (length =? 0) || has addr (PAGE_SIZE - 1) || ((USER_SPACE_END <=? addr) || (USER_SPACE_END - addr <? length)).

Lemma unmap_bounds addr length :
  0 <= addr < 0x10000000000000000 -> 0 <= length < 0x10000000000000000 -> bad_unmap addr length = false ->
  let last := addr + page_align_up length in
  u64 last = last /\ 0 <= addr < last /\ last <= USER_SPACE_END /\ addr mod PAGE_SIZE = 0 /\ last mod PAGE_SIZE = 0.
Proof.
  intros Ha Hl B. unfold bad_unmap in B. rewrite !orb_false_iff in B. destruct B as ((B1&B1')&B2&B2').
  apply Z.eqb_neq in B1. apply Z.leb_gt in B2. apply Z.ltb_ge in B2'.
  assert (addr mod PAGE_SIZE = 0) as Hal.
  { unfold has in B1'. apply negb_false_iff, Z.eqb_eq in B1'. change (PAGE_SIZE - 1) with (Z.ones 12) in B1'. by rewrite Z.land_ones in B1' by lia. }
  destruct (range_end addr length (proj1 Ha) Hal (proj1 Hl) B2') as ((_&E1)&E2&E3&_). cbn zeta. set (last := addr + page_align_up length) in *.
  split; [apply u64_small; unfold USER_SPACE_END in *; lia|]. split; [lia|]. split; [done|]. split; [done|]. unfold PAGE_SIZE in *. zlia.
Qed.

Lemma region_unmap_spec busy addr length p k base l :
  table_ok (regions p) -> 0 <= addr < 0x10000000000000000 -> 0 <= length < 0x10000000000000000 ->
  0 <= promised_pages p -> 0 <= promised_total k < 0x10000000000000000 -> space_of p k <> 0 ->
  counts_ok k base (holds (regions p) ++ l) ->
  let last := addr + page_align_up length in
  let '(r, p', k') := region_unmap busy addr length p k in
  table_ok (regions p') /\ counts_ok k' base (holds (regions p') ++ l) /\
  if bad_unmap addr length then r = - EINVAL /\ p' = p /\ k' = k
  else if existsb (strict addr last) (regions p) && full (regions p) then r = - ENOMEM /\ p' = p /\ k' = k
  else if busy then r = - EBUSY /\ p' = p /\ promised_total k' = promised_total k
  else r = 0 /\ (forall x m, maps (regions p') x m <-> maps (regions p) x m /\ ~ (addr <= x < last)) /\
    p' = set_promised (set_regions p (regions p')) (Z.max 0 (promised_pages p - withdrawn addr last p k)) /\
    promised_total k' = u64 (promised_total k - (promised_pages p - promised_pages p')).
Proof.
  intros T Ha Hl Hp Ht Hsp HC last. destruct (bad_unmap addr length) eqn:B.
  { unfold region_unmap, bad_unmap in *. destruct ((length =? 0) || has addr (PAGE_SIZE - 1)); [done|]. cbn [orb] in B. by rewrite B. }
  destruct (unmap_bounds addr length Ha Hl B) as (Hlast&Hr&E1&Hal&Hla). fold last in Hlast, Hr, E1, Hla |- *.
  assert (region_unmap busy addr length p k = unmap_locked busy addr last p k) as ->.
  { unfold region_unmap, bad_unmap in *. apply orb_false_iff in B as [-> ->]. fold last. by rewrite Hlast. }
  unfold unmap_locked. pose proof (unmap_prepare_ok addr last p k base _ Hr T HC) as HP. destruct (unmap_prepare addr last p k) as [[u k1]|]; [|by rewrite HP].
  destruct HP as (U0&U1&U2&U3&U4&U5&U6). rewrite U0. assert ((exists r, r ∈ regions p /\ strict addr last r = true) -> free_slot (regions p) <> None) as Hroom.
  { intros (r&Hin&Hs) Hfree. apply andb_false_iff in U0 as [U0|U0]; [|unfold full in U0; by rewrite Hfree in U0].
    apply not_true_iff_false in U0. apply U0, existsb_exists. exists r. split; [by apply list_elem_of_In|done]. }
  unfold prepared_holds in U4. rewrite <- app_assoc in U4. destruct busy.
  - cbn [unmap_cut]. destruct (unmap_finish_ok true u [] k1 base (holds (regions p) ++ l) U4) as [F1 F2]. split_and!; try done. congruence.
  - assert (space_of p k1 = space_of p k) as Es by (unfold space_of; by rewrite U5).
    pose proof (unmap_cut_ok u p k1 base (written_holds (u_written u) ++ l)) as HK. rewrite U1, U2, U3, U6, Es in HK.
    specialize (HK Hr E1 Hal Hla T Hp Ht Hroom). destruct (unmap_cut false u p k1) as [[[r gone] p'] k2].
    destruct HK as (K0&K1&K2&K3&_&K4&K5).
    { eapply counts_perm; [|exact U4]. rewrite (Permutation_app_comm (holds _) l), !app_assoc, (Permutation_app_comm _ (holds _)). by rewrite !app_assoc. }
    destruct (unmap_finish_ok false u gone k2 base (holds (regions p') ++ l)) as [F1 F2].
    { eapply counts_perm; [|exact K2]. cbn [app]. rewrite (Permutation_app_comm (holds _)), <- !app_assoc. do 2 f_equiv. apply Permutation_app_comm. }
    split_and!; try done; [by apply K0| |congruence]. rewrite K4 at 1. do 2 f_equal. unfold withdrawn, dues, due, untouched_pages. by rewrite Es, U5.
Qed.

(** ** Memory and files *)

(** What shared mappings of the range may have written: their files' pages. *)
Definition noted (addr last : Z) (l : list mem_region_t) : list written :=
  note_written addr last <$> filter (fun r => overlaps addr last r = true /\ shared r = true) l.
Definition write_back (ws : list written) (vw : vmm * W) : vmm * W :=
  fold_left (fun vw w => snd (pcache_writeback (w_node w) (w_first w) (w_end w) vw)) ws vw.
Definition memory (k : kernel W) : vmm * W := (vm k, world k).

Definition no_device (l : list mem_region_t) : Prop := Forall (fun r => device r = false) l.

Lemma hold_no_device r by_ k : device r = false -> (hold_device r by_ k).2 = k.
Proof. unfold hold_device. by intros ->. Qed.
Lemma pin_memory r by_ k : memory (pin r by_ k) = memory k.
Proof. unfold pin. by destruct (_ =? 0). Qed.
Lemma let_go_memory r k : vm (let_go r k) = vm k /\ (device r = false -> memory (let_go r k) = memory k).
Proof.
  unfold let_go. split; [rewrite (proj1 (pin_same _ _ _)); apply hold_device_same|]. intros Hd. by rewrite pin_memory, hold_no_device.
Qed.

Lemma collect_written_noted addr last rl : forall k, (collect_written addr last rl k).1 = noted addr last rl /\ memory (collect_written addr last rl k).2 = memory k.
Proof.
  unfold noted. induction rl as [|r rl IH]; intros k; cbn [collect_written]; [done|]. rewrite filter_cons.
  destruct (overlaps addr last r), (shared r); cbn [negb orb]; first [rewrite decide_True by done|rewrite decide_False by (by intros [? ?])]; try apply IH.
  specialize (IH (pin (file_only (node r)) 1 k)). destruct (collect_written addr last rl _) as [ws k']. cbn in *. destruct IH as [-> ->]. by rewrite pin_memory.
Qed.

Lemma find_hole_device addr last room : forall (l : list mem_region_t) hole h, no_device l -> device hole = false -> find_hole addr last room l hole = Some h -> device h = false.
Proof.
  induction l as [|r l IH]; intros hole h Hl Hh; cbn [find_hole]; [by intros [= <-]|]. apply Forall_cons in Hl as [Hr Hl].
  destruct (_ && _); [destruct room; [|done]|]; by apply IH.
Qed.

Lemma unmap_prepare_memory addr last p k u k' : unmap_prepare addr last p k = Some (u, k') ->
  u_addr u = addr /\ u_last u = last /\ u_written u = noted addr last (regions p) /\ vm k' = vm k /\
  (no_device (regions p) -> device (u_hole u) = false /\ world k' = world k).
Proof.
  unfold unmap_prepare. destruct (find_hole _ _ _ _ _) as [h|] eqn:Eh; [|done]. set (k1 := if negb (end_ h =? 0) then _ else _).
  assert (vm k1 = vm k /\ (device h = false -> memory k1 = memory k)) as [V1 W1].
  { unfold k1. destruct (negb _); [|done]. split; [etransitivity; [apply hold_device_same|apply pin_same]|]. intros Hd. by rewrite hold_no_device, pin_memory. }
  pose proof (collect_written_noted addr last (regions p) k1) as [H1 H2]. destruct (collect_written addr last (regions p) k1) as [ws k2]. cbn [fst snd] in *.
  intros [= <- <-]. cbn. unfold memory in *. injection H2 as H2 H2'. split_and!; [done|done|done|congruence|]. intros Hn. assert (device h = false) as Hd by exact (find_hole_device _ _ _ _ _ _ Hn (eq_refl : device no_region = false) Eh). split; [done|]. specialize (W1 Hd). congruence.
Qed.

Lemma cut_entry_device addr last i r (l : list mem_region_t) : no_device l -> device r = false -> no_device (cut_entry addr last i r l).1 /\ no_device (cut_entry addr last i r l).2.
Proof.
  intros Hl Hr. unfold no_device, cut_entry. destruct (_ && _); [|destruct (_ =? start r); [|destruct (_ =? end_ r)]]; cbn [fst snd]; (split; [|by repeat constructor]).
  - by apply Forall_insert.
  - by apply Forall_insert.
  - by apply Forall_insert.
  - apply Forall_insert; [|done]. destruct (free_slot l); [by apply Forall_insert|done].
Qed.
Lemma cut_loop_memory addr last : forall n i gone p k,
  let '(gone', p', k') := cut_loop addr last n i gone p k in
  memory k' = memory k /\ space_of p' k' = space_of p k /\ (no_device (regions p) -> no_device gone -> no_device gone').
Proof.
  induction n as [|n IH]; intros i gone p k; cbn [cut_loop]; [done|]. set (r := nth i (regions p) no_region). destruct (negb (overlaps _ _ r)); [apply IH|].
  set (pk := if negb (device r) then _ else _). assert (memory pk.2 = memory k /\ regions pk.1 = regions p /\ pml4_phys pk.1 = pml4_phys p) as (M&R&P) by (unfold pk; by destruct (negb _)).
  destruct pk as [p1 k1]. cbn [fst snd] in *. rewrite R. pose proof (cut_entry_device addr last i r (regions p)) as HD. destruct (cut_entry addr last i r (regions p)) as [l new].
  specialize (IH (S i) (gone ++ new) (set_regions p1 l) k1). destruct (cut_loop _ _ _ _ _ _ _) as [[gone' p'] k']. destruct IH as (I1&I2&I3). split_and!.
  - congruence.
  - rewrite I2. unfold space_of. cbn. unfold memory in M. by injection M as -> _; rewrite P.
  - intros Hp Hg. assert (device r = false) as Hr. { unfold r. destruct (nth_in_or_default i (regions p) no_region) as [Hin| ->]; [|done]. unfold no_device in Hp. rewrite Forall_forall in Hp. by apply Hp, list_elem_of_In. }
    destruct (HD Hp Hr) as [D1 D2]. apply I3; [done|]. by apply Forall_app.
Qed.

Lemma unmap_finish_memory (busy : bool) u gone k :
  vm (unmap_finish true u gone k) = vm k /\
  exists w, (no_device gone -> w = world k) /\ memory (unmap_finish false u gone k) = write_back (u_written u) (vm k, w).
Proof.
  unfold unmap_finish. assert (forall k, vm (fold_left (fun k r => let_go r k) gone k) = vm k /\ (no_device gone -> world (fold_left (fun k r => let_go r k) gone k) = world k)) as Hg.
  { clear k. induction gone as [|r gone IH]; intros k; [done|]. cbn [fold_left]. destruct (IH (let_go r k)) as [I1 I2], (let_go_memory r k) as [L1 L2]. split; [congruence|].
    intros [Hr Hn]%Forall_cons. rewrite I2 by done. specialize (L2 Hr). unfold memory in L2. congruence. }
  destruct (Hg k) as [V Wd]. set (k1 := fold_left _ gone k) in *. clearbody k1. cbn [andb negb]. split.
  - set (k2 := if negb (end_ (u_hole u) =? 0) then let_go (u_hole u) k1 else k1). assert (vm k2 = vm k) as V2 by (unfold k2; destruct (negb _); [rewrite (proj1 (let_go_memory _ _))|]; done).
    clearbody k2. revert k2 V2. induction (u_written u) as [|w ws IH]; intros k2 V2; [done|]. cbn [fold_left]. apply IH. by rewrite (proj1 (pin_same _ _ _)).
  - exists (world k1). split; [done|]. rewrite <- V. change (vm k1, world k1) with (memory k1). generalize k1. clear V Wd k1.
    induction (u_written u) as [|w ws IH]; intros k1; [done|]. cbn [fold_left]. rewrite IH. unfold write_back. cbn [fold_left]. f_equal. rewrite pin_memory.
    unfold in_cache. change (vm k1, world k1) with (memory k1). by destruct (pcache_writeback _ _ _ _) as [? [? ?]].
Qed.

Lemma region_unmap_memory busy addr length p k : 0 <= addr < 0x10000000000000000 -> 0 <= length < 0x10000000000000000 -> bad_unmap addr length = false ->
  existsb (strict addr (addr + page_align_up length)) (regions p) && full (regions p) = false ->
  let last := addr + page_align_up length in
  let '(_, _, k') := region_unmap busy addr length p k in
  if busy then vm k' = vm k
  else exists w, (no_device (regions p) -> w = world k) /\
    memory k' = write_back (noted addr last (regions p)) (snd (user_unmap_range (vm k) (space_of p k) addr (last - addr)), w).
Proof.
  intros Ha Hl B Hroom last. destruct (unmap_bounds addr length Ha Hl B) as (Hlast&Hr&_). fold last in Hlast, Hr, Hroom |- *.
  assert (region_unmap busy addr length p k = unmap_locked busy addr last p k) as ->.
  { unfold region_unmap, bad_unmap in *. apply orb_false_iff in B as [-> ->]. fold last. by rewrite Hlast. }
  unfold unmap_locked. destruct (unmap_prepare addr last p k) as [[u k1]|] eqn:E; [|].
  - destruct (unmap_prepare_memory addr last p k u k1 E) as (U1&U2&U3&U4&U5). destruct busy.
    + cbn [unmap_cut]. by rewrite (proj1 (unmap_finish_memory true u [] k1)).
    + unfold unmap_cut. pose proof (cut_loop_memory (u_addr u) (u_last u) TASK_MAX_REGIONS 0 [] p k1) as HC. destruct (cut_loop _ _ _ _ _ p k1) as [[gone p'] k2].
      destruct HC as (M&Sp&D). unfold memory in M. injection M as Mv Mw. destruct (user_unmap_range (vm k2) (space_of p' k2) (u_addr u) (u_last u - u_addr u)) as [r v] eqn:Eu.
      destruct (unmap_finish_memory true u gone (set_vm k2 v)) as (_&w&Hw&Hm). exists w. split.
      * intros Hn. destruct (U5 Hn) as [_ Ew]. rewrite Hw; [cbn; congruence|]. apply D; [done|by apply Forall_nil_2].
      * rewrite Hm, U3. cbn [vm set_vm]. do 2 f_equal. rewrite Mv, Sp, U1, U2 in Eu. unfold space_of in Eu. rewrite U4 in Eu. unfold space_of. by rewrite Eu.
  - exfalso. unfold unmap_prepare in E. pose proof (find_hole_spec addr last (match free_slot (regions p) with Some _ => true | None => false end) (regions p) no_region) as HF.
    destruct (find_hole _ _ _ _ _) as [h|]; [by destruct (collect_written _ _ _ _)|]. destruct HF as [Hf (r&Hin&Hs)]. apply andb_false_iff in Hroom as [He|Hfu].
    + apply not_true_iff_false in He. apply He, existsb_exists. exists r. split; [by apply list_elem_of_In|done].
    + unfold full in Hfu. by destruct (free_slot (regions p)).
Qed.
End counts.

(** C17. [munmap] ([region_unmap]) on every path. A bad range is refused, a hole
    without a free entry for the second half is [-ENOMEM], a range another thread's
    call is using is [-EBUSY], and then the table, the promises, the page tables and
    the counts of all files are as before. Otherwise every address outside the range
    maps what it mapped (file, place in the file, rights) and none inside maps
    anything; the regions stay apart and in order, the untouched pages that went are
    no longer promised, in the process and in the system, and every file is counted
    as open, as running and as written once for each region of it that is left. The
    pages of the range are taken out of the page tables, with their frames and swap
    slots given back, and no other page's entry changes; after that, and on the memory
    as that leaves it, each shared mapping's part of the range is handed to
    [pcache_writeback], as the pages of its file that it mapped, in the order of the
    table, and nothing else is done to memory and files (but closing devices). *)
Theorem region_unmap_correct {W : Type} `{files W} (busy : bool) (addr length : Z) (p : process) (k : kernel W)
    (base : Z -> counts) (l : list hold) :
  table_ok (regions p) -> 0 <= addr < 0x10000000000000000 -> 0 <= length < 0x10000000000000000 ->
  0 <= promised_pages p -> 0 <= promised_total k < 0x10000000000000000 -> space_of p k <> 0 ->
  counts_ok k base (holds (regions p) ++ l) ->
  let last := addr + page_align_up length in
  let '(r, p', k') := region_unmap busy addr length p k in
  table_ok (regions p') /\ counts_ok k' base (holds (regions p') ++ l) /\
  if bad_unmap addr length then r = - EINVAL /\ p' = p /\ k' = k
  else if existsb (strict addr last) (regions p) && full (regions p) then r = - ENOMEM /\ p' = p /\ k' = k
  else if busy then r = - EBUSY /\ p' = p /\ promised_total k' = promised_total k /\ vm k' = vm k
  else r = 0 /\ (forall x m, maps (regions p') x m <-> maps (regions p) x m /\ ~ (addr <= x < last)) /\
    p' = set_promised (set_regions p (regions p')) (Z.max 0 (promised_pages p - withdrawn addr last p k)) /\
    promised_total k' = u64 (promised_total k - (promised_pages p - promised_pages p')) /\
    exists v w, (vm k', world k') = write_back (noted addr last (regions p)) (v, w) /\ (no_device (regions p) -> w = world k) /\
      forall rs pl pg, pages_ok rs pl pg [] (vm k) -> space_of p k ∈ rs -> range_gone rs pl pg (space_of p k) addr last [] (vm k) v.
Proof.
  intros T Ha Hl Hp Ht Hsp HC. cbn zeta. pose proof (region_unmap_spec busy addr length p k base l T Ha Hl Hp Ht Hsp HC) as HS.
  pose proof (region_unmap_memory busy addr length p k Ha Hl) as HM. cbn zeta in HS, HM. set (last := addr + page_align_up length) in *.
  destruct (region_unmap busy addr length p k) as [[r p'] k']. destruct HS as (S1&S2&S3). split; [done|]. split; [done|].
  destruct (bad_unmap addr length) eqn:B; [done|]. destruct (existsb _ _ && full _); [done|]. specialize (HM eq_refl eq_refl). destruct busy; [by destruct S3 as (?&?&?)|].
  destruct S3 as (H1&H2&H3&H4). split_and!; try done. destruct HM as (w&Hw&Hm). eexists _, w. split; [exact Hm|]. split; [done|]. intros rs pl pg K Hin.
  destruct (unmap_bounds addr length Ha Hl B) as (_&Hr&He&Hal&Hla). fold last in Hr, He, Hla. pose proof (unmap_range_spec rs pl pg (vm k) (space_of p k) addr (last - addr) K Hin Ha ltac:(unfold USER_SPACE_END in *; lia)) as HU.
  assert (addr + page_align_up (last - addr) = last) as El by (rewrite page_align_up_eq by (unfold USER_SPACE_END in *; lia); unfold PAGE_SIZE in *; zlia).
  cbn zeta in HU. rewrite El in HU. assert (bad_range (space_of p k) addr (last - addr) = false) as Eb.
  { unfold bad_range. rewrite !orb_false_iff, !Z.eqb_neq, Z.leb_gt, Z.ltb_ge. split_and!; try lia. unfold has. apply negb_false_iff, Z.eqb_eq.
    change (PAGE_SIZE - 1) with (Z.ones 12). rewrite Z.land_ones by lia. done. }
  rewrite Eb in HU. destruct (user_unmap_range _ _ _ _) as [r' v]. by destruct HU as (_&_&HU).
Qed.

(** ** Example: a hole in the middle of a mapped file *)

(** Files that hold nothing. *)
#[export] Instance no_files : files unit := {
  pcache_cacheable _ _ := true;
  pcache_get _ _ s := (0, s);
  pcache_get_shared _ _ _ s := (0, s);
  pcache_writeback _ _ _ s := (0, s);
  pcache_reclaim _ s := (0, s);
  pcache_truncations _ := 0;
  vfs_read _ _ _ w := ([], w) }.

Definition example_region : mem_region_t := mkRegion 0x700000000000 0x700000004000 1 7 0x2000 false false false.
Definition example_process : process :=
  mkProcess 0x2000 0x500000 0x500000 0x700000004000 (example_region :: replicate 35 no_region) 4 0 0.
Definition example_kernel : kernel unit := mkKernel page_vmm 4 (fun _ => mkVnode 0x9000 None 2 0 0) tt.
(** Someone else has each file open, too; file 7 is mapped once. *)
Definition example_others (n : Z) : counts := mkCounts (if n =? 7 then 1 else 2) 0 0.

Lemma example_table_ok : table_ok (regions example_process).
Proof.
  assert (forall i r, regions example_process !! i = Some r -> used r = true -> i = 0%nat /\ r = example_region) as Hone.
  { intros [|i] r Hr U; [by simplify_eq/=|]. cbn [regions example_process lookup list_lookup] in Hr.
    apply lookup_replicate in Hr as [-> _]. done. }
  split; [done| |].
  - intros i r Hr U. destruct (Hone i r Hr U) as [_ ->]. split; cbn; split; (reflexivity || (unfold USER_SPACE_END; lia)).
  - intros i j r r' Hr Hr' U U' Hne. destruct (Hone i r Hr U), (Hone j r' Hr' U'). lia.
Qed.

Lemma example_counts_ok : counts_ok example_kernel example_others (holds (regions example_process) ++ []).
Proof.
  change (holds (regions example_process) ++ []) with [mkHold 7 false false]. intros n Hn. unfold example_others.
  split; rewrite tally_cons; cbn [nodes example_kernel open_count exec_count write_count c_open c_exec c_write h_node h_program h_writes any_hold];
    destruct (Z.eqb_spec n 7) as [->|Hne]; case_decide as E; first [reflexivity|exfalso; naive_solver].
Qed.

Lemma region_unmap_correct_witness :
  let '(r, p', _) := region_unmap false 0x700000001000 0x1800 example_process example_kernel in
  r = 0 /\ ~ (exists m, maps (regions p') 0x700000002000 m) /\ maps (regions p') 0x700000003000 (7, 0x5000, 1, false, false, false).
Proof.
  pose proof (region_unmap_correct false 0x700000001000 0x1800 example_process example_kernel example_others []
    example_table_ok ltac:(lia) ltac:(lia) ltac:(cbn; lia) ltac:(cbn; lia) ltac:(intros H; vm_compute in H; discriminate H) example_counts_ok) as H.
  cbn zeta in H. destruct (region_unmap false 0x700000001000 0x1800 example_process example_kernel) as [[r p'] k'].
  change (bad_unmap 0x700000001000 0x1800) with false in H. change (full (regions example_process)) with false in H. rewrite andb_false_r in H.
  change (0x700000001000 + page_align_up 0x1800) with 0x700000003000 in H. destruct H as (_&_&->&Hm&_). split; [reflexivity|]. split.
  - intros [m Hx]. apply Hm in Hx as [_ Hx]. apply Hx. lia.
  - apply Hm. split; [|lia]. exists example_region. split; [left|]. split; reflexivity.
Defined.

(** Unmapping a page of the heap that was touched leaves it untouched, and so to be
    given again, but promised to nobody: the heap has no region to count it. *)
Example heap_unmap_uncounted :
  let p := mkProcess 0x2000 0x400000 0x401000 0x700000000000 (replicate TASK_MAX_REGIONS no_region) 0 0 0 in
  let '(r, p', k') := region_unmap false 0x400000 0x1000 p (mkKernel page_vmm 0 (fun _ => mkVnode 0 None 0 0 0) tt) in
  r = 0 /\ untouched_pages p example_kernel 0x400000 0x401000 = 0 /\
  untouched_pages p' k' 0x400000 0x401000 = 1 /\ promised_pages p' = 0.
Proof. by vm_compute. Qed.
