(* ===== verification/RegionSystem.v ===== *)
(** Regions of all processes: threads map, unmap, move the heap and fault, processes
    fork, run programs and exit, in any order and with the parts of munmap and of a
    fault interleaved; files are opened, closed, written and truncated meanwhile. *)
From stdpp Require Import base tactics numbers list sets gmap relations.
From Stdlib Require Import ZArith Lia.
From S2P Require Import Prelude Errno Pmm Cow SwapSlots Vmm VmmInv VmmProps VmmSwap Swap Mmap Region RegionTable RegionProps.

Open Scope Z_scope.

Definition PROCESS_MAX_THREADS : nat := 16.

Section system.
Context {W : Type} `{files W}.
Implicit Types (k : kernel W) (p : process).

(** * The system *)

(** Where a process is in [unmap_locked]; its [map_mutex] is free when [Idle]. *)
Inductive phase := Idle | Prepared (u : unmapping) | Cut (busy : bool) (u : unmapping) (gone : list mem_region_t).

(** A process: its faults at work on files, with what they have got so far. *)
Record running := mkRunning { proc : process; at_ : phase; faults : list (fault * option fetched) }.

Record system := mkSystem {
  procs : list running;
  kern : kernel W;
  others : Z -> counts;                (* holders of each file that are no regions *)
  reserved : Z;                        (* pages promised to no process yet *)
  aside : list (list mem_region_t)     (* regions of programs being loaded, and of those that were replaced *)
}.

Definition word (n : Z) : Prop := 0 <= n < 0x10000000000000000.

Definition all_unused (l : list mem_region_t) : Prop := Forall (fun r => used r = false) l.

Definition images_apart (new : list mem_region_t) : Prop :=
  forall i j r r', new !! i = Some r -> new !! j = Some r' -> i <> j -> apart r r'.

(** A program's segments, as execve makes them. *)
Definition image_ok (new : list mem_region_t) : Prop :=
  (length new <= TASK_MAX_REGIONS)%nat /\ images_apart new /\
  Forall (fun r => region_ok r /\ program r = true /\ shared r = false) new.

(** What the others do to a file: the counts move with the number of holders. *)
Definition others_move (v v' : vnode W) (c c' : counts) : Prop :=
  open_count v' = u32 (open_count v + (c_open c' - c_open c)) /\
  exec_count v' = u32 (exec_count v + (c_exec c' - c_exec c)) /\
  write_count v' = u32 (write_count v + (c_write c' - c_write c)).

Inductive proc_step : running * kernel W -> running * kernel W -> Prop :=
| step_map p fs k length prot n offset share a e p' k' :
    0 <= length < 0x10000000000000000 ->
    region_map length prot n offset share p k = (a, e, p', k') ->
    proc_step (mkRunning p Idle fs, k) (mkRunning p' Idle fs, k')
| step_prepare p fs k addr length u k' :
    0 <= addr < 0x10000000000000000 -> 0 <= length < 0x10000000000000000 -> bad_unmap addr length = false ->
    unmap_prepare addr (u64 (addr + page_align_up length)) p k = Some (u, k') ->
    proc_step (mkRunning p Idle fs, k) (mkRunning p (Prepared u) fs, k')
| step_cut p u fs k busy r gone p' k' :
    unmap_cut busy u p k = (r, gone, p', k') ->
    proc_step (mkRunning p (Prepared u) fs, k) (mkRunning p' (Cut busy u gone) fs, k')
| step_finish p busy u gone fs k :
    file_users p = 0 ->
    proc_step (mkRunning p (Cut busy u gone) fs, k) (mkRunning p Idle fs, unmap_finish busy u gone k)
| step_brk p fs k busy new r p' k' :
    region_set_brk busy new p k = (r, p', k') ->
    proc_step (mkRunning p Idle fs, k) (mkRunning p' Idle fs, k')
| step_look p a fs k page r p' k' :
    fault_look page p k = (inl r, p', k') ->
    proc_step (mkRunning p a fs, k) (mkRunning p' a fs, k')
| step_look_file p a fs k page f p' k' :
    (length fs < PROCESS_MAX_THREADS)%nat -> fault_look page p k = (inr f, p', k') ->
    proc_step (mkRunning p a fs, k) (mkRunning p' a ((f, None) :: fs), k')
| step_fetch p a fs1 f fs2 k g k' :
    fault_fetch f k = (g, k') ->
    proc_step (mkRunning p a (fs1 ++ (f, None) :: fs2), k) (mkRunning p a (fs1 ++ (f, Some g) :: fs2), k')
| step_give p a fs1 f g fs2 k r p' k' :
    fault_give f g p k = (r, p', k') ->
    proc_step (mkRunning p a (fs1 ++ (f, Some g) :: fs2), k) (mkRunning p' a (fs1 ++ fs2), k')
| step_sync p fs k addr length r k' :
    region_sync addr length p k = (r, k') ->
    proc_step (mkRunning p Idle fs, k) (mkRunning p Idle fs, k')
| step_revalidate p fs k busy p' k' :
    region_revalidate busy p k = (p', k') ->
    proc_step (mkRunning p Idle fs, k) (mkRunning p' Idle fs, k')
| step_attach p fs k next :              (* shared memory takes addresses *)
    mmap_next p <= next < 0x10000000000000000 -> next mod PAGE_SIZE = 0 ->
    proc_step (mkRunning p Idle fs, k) (mkRunning (set_next p next) Idle fs, k).

Inductive sys_step : system -> system -> Prop :=
| sys_proc l1 r l2 k o n a r' k' :
    proc_step (r, k) (r', k') -> sys_step (mkSystem (l1 ++ r :: l2) k o n a) (mkSystem (l1 ++ r' :: l2) k' o n a)
| sys_new l k o n a pml4 brk next seen :
    word next -> next mod PAGE_SIZE = 0 ->
    sys_step (mkSystem l k o n a)
             (mkSystem (mkRunning (mkProcess pml4 brk brk next (replicate TASK_MAX_REGIONS no_region) 0 0 seen) Idle [] :: l) k o n a)
| sys_fork l1 p fs l2 k o n a pml4 seen child k' :
    region_fork (mkProcess pml4 (brk_start p) (brk_end p) (mmap_next p) (replicate TASK_MAX_REGIONS no_region) 0 0 seen) p k = (child, k') ->
    sys_step (mkSystem (l1 ++ mkRunning p Idle fs :: l2) k o n a)
             (mkSystem (mkRunning child Idle [] :: l1 ++ mkRunning p Idle fs :: l2) k' o n a)
| sys_exit l1 p l2 k o n a p' k' :
    region_release_all p k = (p', k') ->
    sys_step (mkSystem (l1 ++ mkRunning p Idle [] :: l2) k o n a) (mkSystem (l1 ++ l2) k' o n a)
| sys_take l1 p l2 k o n a memory taken p' k' :
    region_take_all memory p k = (taken, p', k') ->
    sys_step (mkSystem (l1 ++ mkRunning p Idle [] :: l2) k o n a)
             (mkSystem (l1 ++ mkRunning p' Idle [] :: l2) k' o n (match taken with Some t => t :: a | None => a end))
| sys_put l k o n a1 t a2 :
    sys_step (mkSystem l k o n (a1 ++ t :: a2)) (mkSystem l (region_put_all (Some t) k) o n (a1 ++ a2))
| sys_reserve l k o n a pages k' :
    0 <= pages -> region_reserve pages k = (true, k') -> sys_step (mkSystem l k o n a) (mkSystem l k' o (n + pages) a)
| sys_unreserve l k o n a pages :
    0 <= pages <= n -> sys_step (mkSystem l k o n a) (mkSystem l (region_unreserve pages k) o (n - pages) a)
| sys_image l k o n a new :
    image_ok new ->
    sys_step (mkSystem l k o n a) (mkSystem l (fold_left (fun k r => region_hold_program (node r) 1 k) new k) o n (new :: a))
| sys_discard l k o n a1 new a2 :
    image_ok new ->
    sys_step (mkSystem l k o n (a1 ++ new :: a2)) (mkSystem l (fold_left (fun k r => region_hold_program (node r) (-1) k) new k) o n (a1 ++ a2))
| sys_adopt l1 p l2 k o n a1 new a2 pages pml4 brk next :
    image_ok new -> all_unused (regions p) -> 0 <= pages <= n -> 0 <= next < 0x10000000000000000 -> next mod PAGE_SIZE = 0 ->
    Forall (fun r => end_ r <= next) new ->
    sys_step (mkSystem (l1 ++ mkRunning p Idle [] :: l2) k o n (a1 ++ new :: a2))
      (mkSystem (l1 ++ mkRunning (region_adopt new pages
         (mkProcess pml4 brk brk next (regions p) (promised_pages p) (file_users p) (seen_truncations p))) Idle [] :: l2) k o (n - pages) (a1 ++ a2))
| sys_others l k o n a k' o' :
    promised_total k' = promised_total k -> (forall m, others_move (nodes k m) (nodes k' m) (o m) (o' m)) ->
    sys_step (mkSystem l k o n a) (mkSystem l k' o' n a).

(** * The invariant *)

Definition phase_holds (a : phase) : list hold :=
  match a with
  | Idle => []
  | Prepared u => prepared_holds u
  | Cut busy u gone => (hold_of <$> gone) ++ (if busy then held_by (u_hole u) else []) ++ written_holds (u_written u)
  end.
Definition proc_holds (r : running) : list hold := holds (regions (proc r)) ++ phase_holds (at_ r).
Definition all_holds (s : system) : list hold := concat (proc_holds <$> procs s) ++ concat (holds <$> aside s).
Definition promised_sum (l : list running) : Z := fold_right (fun r n => promised_pages (proc r) + n) 0 l.

(** Holds that keep the files the process's faults are reading. *)
Definition kept (r : running) : list hold :=
  holds (regions (proc r)) ++ match at_ r with Cut _ _ gone => hold_of <$> gone | _ => [] end.

Definition phase_ok (p : process) (a : phase) : Prop :=
  match a with
  | Prepared u =>
      0 <= u_addr u < u_last u /\ u_last u <= USER_SPACE_END /\ u_addr u mod PAGE_SIZE = 0 /\ u_last u mod PAGE_SIZE = 0 /\
      strict_holds (u_addr u) (u_last u) (regions p) = held_by (u_hole u) /\
      ((exists r, r ∈ regions p /\ strict (u_addr u) (u_last u) r = true) -> free_slot (regions p) <> None)
  | _ => True
  end.

Record running_ok (r : running) : Prop := {
  rk_table : table_ok (regions (proc r));
  rk_below : forall q, q ∈ regions (proc r) -> used q = true -> end_ q <= mmap_next (proc r);
  rk_next : 0 <= mmap_next (proc r) < 0x10000000000000000 /\ mmap_next (proc r) mod PAGE_SIZE = 0;
  rk_promised : 0 <= promised_pages (proc r) < 0x10000000000000000;
  rk_users : file_users (proc r) = Z.of_nat (length (faults r)) /\ (length (faults r) <= PROCESS_MAX_THREADS)%nat;
  rk_faults : forall f, f ∈ (faults r).*1 -> f_node f <> 0 /\ exists h, h ∈ kept r /\ h_node h = f_node f;
  rk_phase : phase_ok (proc r) (at_ r) }.

Record sys_inv (s : system) : Prop := {
  si_running : Forall running_ok (procs s);
  si_counts : counts_ok (kern s) (others s) (all_holds s);
  si_total : promised_total (kern s) = u64 (promised_sum (procs s) + reserved s) }.

(** * Steps that leave the table alone *)

(** Only promises change, in the process and in the total alike. *)
Record light (p p' : process) (k k' : kernel W) : Prop := {
  lt_regions : regions p' = regions p;
  lt_next : mmap_next p' = mmap_next p;
  lt_users : file_users p' = file_users p;
  lt_promised : word (promised_pages p');
  lt_nodes : nodes k' = nodes k;
  lt_total : promised_total k' = u64 (promised_total k + (promised_pages p' - promised_pages p)) }.

Lemma light_same p k k' : word (promised_pages p) -> word (promised_total k) -> nodes k' = nodes k -> promised_total k' = promised_total k -> light p p k k'.
Proof. intros Hp Hk E1 E2. split; try done. rewrite E2, Z.sub_diag, Z.add_0_r, u64_small by done. done. Qed.

Lemma light_word p p' k k' : light p p' k k' -> word (promised_total k').
Proof. intros L. rewrite (lt_total _ _ _ _ L). apply u64_range. Qed.

Lemma light_trans p1 p2 p3 k1 k2 k3 : light p1 p2 k1 k2 -> light p2 p3 k2 k3 -> light p1 p3 k1 k3.
Proof.
  intros [A1 A2 A3 A4 A5 A6] [B1 B2 B3 B4 B5 B6]. split; [congruence|congruence|congruence|exact B4|congruence|]. rewrite B6, A6. unfold u64. rewrite Zplus_mod_idemp_l. f_equal. lia.
Qed.

Lemma charge_light pages p k : word (promised_pages p) -> word (promised_total k) -> let '(p', k') := charge pages p k in light p p' k k'.
Proof.
  intros Hp Hk. unfold charge. split; [done|done|done|apply u64_range|done|]. cbn. unfold u64. rewrite <- (Zplus_mod_idemp_r (_ - _)), Zminus_mod_idemp_l, Zplus_mod_idemp_r. f_equal. lia.
Qed.

Lemma uncharge_light pages p k : 0 <= pages -> word (promised_pages p) -> word (promised_total k) -> let '(p', k') := uncharge pages p k in light p p' k k'.
Proof.
  intros Hn Hp Hk. unfold uncharge, word in *. destruct (Z.ltb_spec (promised_pages p) pages); (split; [done|done|done| |done|]; cbn; [unfold word; lia|f_equal; lia]).
Qed.

(** The page tables change. *)
Lemma light_vm p p' k k' v : light p p' k k' -> light p p' k (set_vm k' v).
Proof. intros [A1 A2 A3 A4 A5 A6]. by split. Qed.

Lemma can_promise_same pages k : nodes (can_promise pages k).2 = nodes k /\ promised_total (can_promise pages k).2 = promised_total k.
Proof.
  unfold can_promise. destruct (fits pages k); [done|]. pose proof (in_cache_same (pcache_reclaim (u64 (pages + PROCESS_FORK_RESERVE_FRAMES))) k) as E.
  by destruct (in_cache _ k).
Qed.

Lemma brk_light busy new p k : word (promised_pages p) -> word (promised_total k) ->
  let '(r, p', k') := region_set_brk busy new p k in light p p' k k'.
Proof.
  intros Hp Hk. unfold region_set_brk, set_brk_locked. destruct (_ || _); [by apply light_same|].
  set (old_top := page_align_up (brk_end p)). set (new_top := page_align_up new).
  assert (forall pages, let '(ok, k1) := if old_top <? new_top then can_promise pages k else (true, k) in nodes k1 = nodes k /\ promised_total k1 = promised_total k) as HP.
  { intros pages. pose proof (can_promise_same pages k) as E. destruct (old_top <? new_top); [|done]. by destruct (can_promise pages k). }
  specialize (HP ((new_top - old_top) / PAGE_SIZE)). destruct (if old_top <? new_top then _ else _) as [ok k1]. destruct HP as [E1 E2].
  pose proof (light_same p k k1 Hp Hk E1 E2) as L1. destruct ok; [|done]. cbn [negb]. destruct (_ && busy); [done|].
  pose proof (light_word _ _ _ _ L1) as Hk1. destruct (old_top <? new_top).
  - pose proof (charge_light ((new_top - old_top) / PAGE_SIZE) p k1 Hp Hk1) as L2. destruct (charge _ p k1) as [p2 k2].
    destruct (light_trans _ _ _ _ _ _ L1 L2). by split.
  - destruct (new_top <? old_top); [|by destruct L1; split].
    pose proof (uncharge_light (untouched_pages p k1 new_top old_top) p k1 (untouched_nonneg _ _ _ _) Hp Hk1) as L2. destruct (uncharge _ p k1) as [p2 k2].
    destruct (light_trans _ _ _ _ _ _ L1 L2). by split.
Qed.

Lemma look_light page p k : word (promised_pages p) -> word (promised_total k) ->
  match fault_look page p k with
  | (inl _, p', k') => light p p' k k'
  | (inr f, p', k') => p' = set_users p (u32 (file_users p + 1)) /\ k' = k /\ f_node f <> 0 /\
      exists q, q ∈ regions p /\ used q = true /\ node q = f_node f
  end.
Proof.
  intros Hp Hk. unfold fault_look. destruct (negb _); [by apply light_same|]. destruct (find_promise page p) as [f|] eqn:Ef; [|by apply light_same].
  destruct (Z.eqb_spec (f_node f) 0) as [E|E].
  - destruct (vmm_alloc_user_page _ _ _ _) as [view v]. pose proof (light_vm _ _ _ _ v (light_same p k k Hp Hk eq_refl eq_refl)) as L.
    destruct (negb _); [|done]. pose proof (uncharge_light 1 p (set_vm k v) ltac:(lia) Hp Hk) as L2. destruct (uncharge 1 p (set_vm k v)) as [p2 k2].
    by eapply light_trans.
  - split_and!; try done. unfold find_promise in Ef. destruct (_ && _); [by simplify_eq|]. destruct (find_region page (regions p)) as [q|] eqn:Eq; [|done].
    exists q. simplify_eq/=. clear -Eq. induction (regions p) as [|r l IH]; cbn in Eq; [done|]. rewrite elem_of_cons. destruct (contains page r) eqn:Ec.
    + simplify_eq. apply contains_spec in Ec as [U _]. auto.
    + destruct (IH Eq) as (?&?&_). auto.
Qed.

Lemma fetch_same f k : nodes (fault_fetch f k).2 = nodes k /\ promised_total (fault_fetch f k).2 = promised_total k.
Proof.
  unfold fault_fetch. destruct (_ && _); [done|]. destruct (f_device f).
  { destruct (ops _) as [o|]; [|done]. destruct (map_page o) as [op|]; [|done]. by destruct (op _ _ _) as [[fr|] w]. }
  destruct (f_shared f).
  { pose proof (in_cache_same (pcache_get_shared (f_node f) (f_offset f / PAGE_SIZE) (has (f_prot f) PROT_WRITE)) k) as E. by destruct (in_cache _ k). }
  destruct (_ && _).
  { pose proof (in_cache_same (pcache_get (f_node f) (f_offset f / PAGE_SIZE)) k) as E. by destruct (in_cache _ k). }
  assert (nodes (take_frame k).2 = nodes k /\ promised_total (take_frame k).2 = promised_total k) as E.
  { unfold take_frame. destruct (vmm_alloc_frame (vm k)) as [fr v]. destruct (fr =? 0); [|done].
    pose proof (in_cache_same (pcache_reclaim 16) (set_vm k v)) as E. destruct (in_cache _ _) as [n k2]. destruct (0 <? n); [|done]. by destruct (vmm_alloc_frame (vm k2)). }
  destruct (take_frame k) as [fr k2]. destruct (fr =? 0); [done|]. by destruct (vfs_read _ _ _ _).
Qed.

Lemma give_light f g p k : word (promised_pages p) -> word (promised_total k) ->
  let '(r, p', k') := fault_give f g p k in light (set_users p (u32 (file_users p - 1))) p' k k'.
Proof.
  intros Hp Hk. unfold fault_give. set (p0 := set_users p _). set (res := if g_result g =? 1 then _ else _).
  assert (let '(r, fr, p', k') := res in light p0 p' k k') as HL.
  { unfold res. pose proof (light_same p0 k k Hp Hk eq_refl eq_refl) as L0. destruct (_ =? 1); [|done]. destruct (_ || _); [done|].
    destruct (vmm_map_page _ _ _ _ _) as [[] v]; [|by apply light_vm]. pose proof (light_vm _ _ _ _ v L0) as L1. destruct (g_charged g); [|done].
    pose proof (uncharge_light 1 p0 (set_vm k v) ltac:(lia) Hp Hk) as L2. destruct (uncharge 1 p0 (set_vm k v)) as [p2 k2]. by eapply light_trans. }
  destruct res as [[[r fr] p'] k']. destruct (_ && _); [by apply light_vm|done].
Qed.

Lemma revalidate_light busy p k : word (promised_pages p) -> word (promised_total k) ->
  let '(p', k') := region_revalidate busy p k in light p p' k k'.
Proof.
  intros Hp Hk. unfold region_revalidate. destruct (_ =? _); [by apply light_same|].
  assert (forall l all_done p1 k1, light p p1 k k1 -> let '(_, p', k') := revalidate_loop busy l all_done p1 k1 in light p p' k k') as HL.
  { induction l as [|r l IH]; intros all_done p1 k1 L; cbn [revalidate_loop]; [done|]. destruct (_ || _); [by apply IH|]. destruct (_ =? 0); [by apply IH|].
    destruct (busy _ _); [by apply IH|]. set (k2 := set_vm k1 _). set (n := u64 _).
    pose proof (light_vm _ _ _ _ (vm k2) L) as L2. pose proof (charge_light n p1 k2 (lt_promised _ _ _ _ L) (light_word _ _ _ _ L2)) as L3.
    destruct (charge n p1 k2) as [p3 k3]. apply IH. by eapply light_trans. }
  specialize (HL (regions p) true p k (light_same p k k Hp Hk eq_refl eq_refl)). destruct (revalidate_loop _ _ _ _ _) as [[all_done p'] k'].
  destruct all_done; [|done]. destruct HL. by split.
Qed.

Lemma sync_same addr length p k : nodes (region_sync addr length p k).2 = nodes k /\ promised_total (region_sync addr length p k).2 = promised_total k.
Proof.
  unfold region_sync, sync_locked. destruct (loop _ _ _) as [|[]]; [done| |done]. generalize (u64 (addr + page_align_up length)) as last. intros last.
  generalize 0 as res. revert k. induction (regions p) as [|r l IH]; intros k res; cbn [sync_regions]; [done|]. destruct (_ || _); [apply IH|].
  destruct (file_pages _ _ _) as [a b]. pose proof (in_cache_same (pcache_writeback (node r) a b) k) as [E1 E2]. destruct (in_cache _ k) as [e k2]. cbn [snd] in *.
  rewrite <- E1, <- E2. apply IH.
Qed.

(** * mmap *)

Lemma align_up_aligned v : page_align_up v mod PAGE_SIZE = 0 /\ word (page_align_up v).
Proof.
  unfold page_align_up. change (PAGE_SIZE - 1) with (2 ^ 12 - 1). pose proof (u64_range (v + PAGE_SIZE - 1)) as Hw. rewrite land_align by lia.
  change (2 ^ 12) with PAGE_SIZE. unfold word, PAGE_SIZE in *. split; zlia.
Qed.

(** A table with one more region, in a free entry. *)
Lemma table_add l i r : table_ok l -> free_slot l = Some i -> region_ok r -> (forall q, q ∈ l -> used q = true -> apart r q) ->
  table_ok (<[i := r]> l) /\ holds (<[i := r]> l) ≡ₚ hold_of r :: holds l /\
  (forall q, q ∈ <[i := r]> l -> used q = true -> q = r \/ q ∈ l) /\ (forall h, h ∈ holds l -> h ∈ holds (<[i := r]> l)).
Proof.
  intros T Hf Hr Ha. pose proof (free_slot_spec l) as HS. rewrite Hf in HS. destruct HS as (q&Hi&Uq).
  assert (used r = true) as U by (apply used_spec; destruct (ro_range _ Hr); lia).
  pose proof (holds_insert l i q r Hi) as HP. unfold held_by in HP. rewrite U, Uq in HP. cbn [app] in HP.
  split_and!.
  - eapply table_insert; [done|exact Hi|done|]. intros _ j q' _ Hj. apply Ha. by eapply list_elem_of_lookup_2.
  - by symmetry.
  - intros q' Hq' Uq'. apply list_elem_of_lookup in Hq' as [j Hj]. apply list_lookup_insert_Some in Hj as [(_&->&_)|[_ Hj]]; [by left|right].
    by eapply list_elem_of_lookup_2.
  - intros h Hh. rewrite <- HP. by right.
Qed.

Record mapped_ok (p p' : process) (k k' : kernel W) (o : Z -> counts) (rest : list hold) : Prop := {
  mo_table : table_ok (regions p');
  mo_below : forall q, q ∈ regions p' -> used q = true -> end_ q <= mmap_next p';
  mo_next : word (mmap_next p') /\ mmap_next p' mod PAGE_SIZE = 0;
  mo_users : file_users p' = file_users p;
  mo_promised : word (promised_pages p');
  mo_counts : counts_ok k' o (holds (regions p') ++ rest);
  mo_total : promised_total k' = u64 (promised_total k + (promised_pages p' - promised_pages p));
  mo_kept : forall h, h ∈ holds (regions p) -> h ∈ holds (regions p') }.

Lemma region_map_ok len pr n offset share p k o rest :
  table_ok (regions p) -> (forall q, q ∈ regions p -> used q = true -> end_ q <= mmap_next p) -> word (mmap_next p) -> mmap_next p mod PAGE_SIZE = 0 ->
  word (promised_pages p) -> word (promised_total k) -> word len -> counts_ok k o (holds (regions p) ++ rest) ->
  let '(a, e, p', k') := region_map len pr n offset share p k in mapped_ok p p' k k' o rest.
Proof.
  intros T Hb Hn Hna Hp Hk Hlen HC.
  assert (forall k', nodes k' = nodes k -> promised_total k' = promised_total k -> mapped_ok p p k k' o rest) as Hsame.
  { intros k' E1 E2. pose proof (light_same p k k' Hp Hk E1 E2) as [L1 L2 L3 L4 L5 L6]. split; try done. by apply (counts_nodes k). }
  unfold region_map. destruct (_ || _) eqn:E0; [by apply Hsame|]. apply orb_false_iff in E0 as [E0 _]. apply Z.eqb_neq in E0.
  destruct (align_up_aligned len) as [A1 A2]. set (sz := page_align_up len) in *. destruct (Z.ltb_spec sz len); [by apply Hsame|].
  unfold map_locked. destruct (_ || _) eqn:E1; [by apply Hsame|]. apply orb_false_iff in E1 as [E1 E2]. apply Z.leb_gt in E1. apply Z.ltb_ge in E2.
  destruct (free_slot (regions p)) as [i|] eqn:Ef; [|by apply Hsame]. set (dev := negb (n =? 0) && _).
  assert (let '(ok, k1) := if negb dev then can_promise (sz / PAGE_SIZE) k else (true, k) in nodes k1 = nodes k /\ promised_total k1 = promised_total k) as HP.
  { pose proof (can_promise_same (sz / PAGE_SIZE) k) as E. destruct dev; [done|]. by destruct (can_promise _ k). }
  destruct (if negb dev then _ else _) as [ok k1]. destruct HP as [N1 N2]. destruct ok; [|by apply Hsame]. cbn [negb].
  unfold word, USER_MMAP_END in *. rewrite u64_small by lia. set (r := mkRegion _ _ _ _ _ _ _ _).
  assert (counts_ok k1 o (holds (regions p) ++ rest)) as HC1 by (by apply (counts_nodes k)). pose proof (pin_add r k1 o _ HC1) as HC2.
  destruct (pin_same r 1 k1) as [_ N3]. destruct (hold_device_same r 1 (pin r 1 k1)) as (D1&D2&D3). destruct (hold_device r 1 (pin r 1 k1)) as [held k2]. cbn [snd] in *.
  assert (counts_ok k2 o (hold_of r :: holds (regions p) ++ rest)) as HC3 by (by eapply counts_nodes). assert (promised_total k2 = promised_total k) as N4 by congruence.
  destruct (held <? 0).
  { pose proof (Hsame k eq_refl eq_refl) as [M1 M2 M3 M4 M5 M6 M7 M8]. split; try done; [by apply pin_drop|]. by rewrite (proj2 (pin_same _ _ _)), N4. }
  assert (region_ok r) as Hr. { split; cbn; [unfold USER_SPACE_END; lia|]. split; [done|]. unfold PAGE_SIZE in *. zlia. }
  destruct (table_add (regions p) i r T Ef Hr) as (T1&T2&T3&T4).
  { intros q Hq U. right. cbn. by apply Hb. }
  assert (counts_ok k2 o (holds (<[i := r]> (regions p)) ++ rest)) as HC4 by (eapply counts_perm; [|exact HC3]; by rewrite T2).
  set (p1 := set_regions p (<[i := r]> (regions p))).
  assert (let '(p2, k3) := if negb dev then charge (sz / PAGE_SIZE) p1 k2 else (p1, k2) in light p1 p2 k2 k3) as HL.
  { destruct dev; [apply (light_same p1); try done; by rewrite N4|]. apply charge_light; [done|by rewrite N4]. }
  destruct (if negb dev then _ else _) as [p2 k3]. destruct HL as [L1 L2 L3 L4 L5 L6]. split; cbn [regions set_next mmap_next file_users promised_pages]; rewrite ?L1; try done.
  - intros q Hq U. destruct (T3 q Hq U) as [->|Hq']; [cbn; lia|]. specialize (Hb q Hq' U). lia.
  - split; [unfold word; lia|]. unfold PAGE_SIZE in *. zlia.
  - by apply (counts_nodes k2).
  - rewrite L6, N4. done.
Qed.

(** * Steps of one process *)

Lemma light_running p p' a fs k k' : light p p' k k' -> running_ok (mkRunning p a fs) -> running_ok (mkRunning p' a fs).
Proof.
  intros [L1 L2 L3 L4 L5 L6] [R1 R2 R3 R4 R5 R6 R7]. cbn [proc at_ faults] in *. split; cbn [proc at_ faults]; rewrite ?L1, ?L2, ?L3; try done.
  - intros f Hf. destruct (R6 f Hf) as [? (h&Hh&E)]. split; [done|]. exists h. unfold kept in *. cbn [proc at_] in *. by rewrite L1.
  - unfold phase_ok in *. by rewrite L1.
Qed.

(** What a step must keep. *)
Definition step_ok (o : Z -> counts) (rest : list hold) (r r' : running) (k k' : kernel W) : Prop :=
  running_ok r' /\ counts_ok k' o (proc_holds r' ++ rest) /\
  promised_total k' = u64 (promised_total k + (promised_pages (proc r') - promised_pages (proc r))).

Lemma light_step o rest p p' a fs k k' : light p p' k k' -> running_ok (mkRunning p a fs) ->
  counts_ok k o (proc_holds (mkRunning p a fs) ++ rest) -> step_ok o rest (mkRunning p a fs) (mkRunning p' a fs) k k'.
Proof.
  intros L R HC. split; [by eapply light_running|]. destruct L as [L1 L2 L3 L4 L5 L6]. split; [|done].
  unfold proc_holds in *. cbn [proc at_] in *. rewrite L1. by apply (counts_nodes k).
Qed.

(** The faults go on with a table that still has their files. *)
Lemma running_keeps r r' : running_ok r -> faults r' = faults r -> file_users (proc r') = file_users (proc r) -> table_ok (regions (proc r')) ->
  (forall q, q ∈ regions (proc r') -> used q = true -> end_ q <= mmap_next (proc r')) ->
  word (mmap_next (proc r')) /\ mmap_next (proc r') mod PAGE_SIZE = 0 -> word (promised_pages (proc r')) ->
  (forall h, h ∈ kept r -> h ∈ kept r') -> phase_ok (proc r') (at_ r') -> running_ok r'.
Proof.
  intros [R1 R2 R3 R4 R5 R6 R7] Ef Eu T B N P K F. split; rewrite ?Ef, ?Eu; try done.
  intros f Hf. destruct (R6 f Hf) as [? (h&Hh&E)]. split; [done|]. exists h. auto.
Qed.

Lemma prepare_step o rest p fs k addr length u k' :
  word addr -> word length -> bad_unmap addr length = false -> unmap_prepare addr (u64 (addr + page_align_up length)) p k = Some (u, k') ->
  running_ok (mkRunning p Idle fs) -> word (promised_total k) -> counts_ok k o (proc_holds (mkRunning p Idle fs) ++ rest) ->
  step_ok o rest (mkRunning p Idle fs) (mkRunning p (Prepared u) fs) k k'.
Proof.
  intros Ha Hl Hb E R Hk HC. destruct (unmap_bounds addr length Ha Hl Hb) as (Hlast&B1&B2&B3&B4). rewrite Hlast in E. set (last := addr + _) in *.
  pose proof (unmap_prepare_ok addr last p k o _ B1 (rk_table _ R) HC) as HP. rewrite E in HP. destruct HP as (P0&P1&P2&P3&P4&P5&P6).
  split; [|split].
  - apply (running_keeps (mkRunning p Idle fs)); try done; try apply R. cbn [proc at_ phase_ok]. rewrite P1, P2. split_and!; try done; try lia.
    intros (r&Hin&Hs) Hfree. apply andb_false_iff in P0 as [P0|P0]; [|unfold full in P0; by rewrite Hfree in P0].
    apply not_true_iff_false in P0. apply P0, existsb_exists. exists r. split; [by apply list_elem_of_In|done].
  - unfold proc_holds in *. cbn [proc at_ phase_holds] in *. rewrite app_nil_r in P4. eapply counts_perm; [|exact P4].
    rewrite !app_assoc. by rewrite (Permutation_app_comm (holds _)).
  - cbn [proc]. by rewrite P6, Z.sub_diag, Z.add_0_r, u64_small.
Qed.

Lemma cut_step o rest p u fs k busy r gone p' k' :
  unmap_cut busy u p k = (r, gone, p', k') ->
  running_ok (mkRunning p (Prepared u) fs) -> word (promised_total k) -> counts_ok k o (proc_holds (mkRunning p (Prepared u) fs) ++ rest) ->
  step_ok o rest (mkRunning p (Prepared u) fs) (mkRunning p' (Cut busy u gone) fs) k k'.
Proof.
  intros E R Hk HC. destruct (rk_phase _ R) as (B1&B2&B3&B4&B5&B6). cbn [proc at_] in *. pose proof (rk_promised _ R) as Hp. cbn [proc] in Hp. destruct busy.
  - unfold unmap_cut in E. simplify_eq. split; [|split].
    + apply (running_keeps (mkRunning p' (Prepared u) fs)); try done; apply R.
    + exact HC.
    + cbn [proc]. by rewrite Z.sub_diag, Z.add_0_r, u64_small.
  - pose proof (unmap_cut_ok u p k o (written_holds (u_written u) ++ rest) B1 B2 B3 B4 (rk_table _ R) (proj1 Hp) Hk B6) as HU. rewrite E, B5 in HU.
    destruct HU as (_&U1&U2&U3&U4&U5&U6).
    { unfold proc_holds in HC. cbn [proc at_ phase_holds] in HC. unfold prepared_holds in HC. by rewrite <- !app_assoc in HC. }
    pose proof (dues_nonneg (u_addr u) (u_last u) p k (regions p)) as Hw. fold (withdrawn (u_addr u) (u_last u) p k) in Hw.
    split; [|split].
    + apply (running_keeps (mkRunning p (Prepared u) fs)); try done.
      * cbn [proc]. by rewrite U5.
      * cbn [proc]. intros q Hq Uq. assert (mmap_next p' = mmap_next p) as -> by (by rewrite U5).
        apply list_elem_of_lookup in Hq as Hq'. destruct Hq' as [i Hi]. destruct (ro_range _ (to_ok _ U1 i q Hi Uq)) as [Q1 Q2].
        destruct (proj1 (U3 (end_ q - 1) (what q (end_ q - 1)))) as [(q0&Hq0&Hc&_) _].
        { exists q. split; [done|]. split; [|done]. apply contains_spec. split; [done|lia]. }
        apply contains_spec in Hc as [Uq0 Hc]. pose proof (rk_below _ R q0 Hq0 Uq0) as Hbelow. cbn [proc] in Hbelow. lia.
      * cbn [proc]. rewrite U5. apply R.
      * cbn [proc]. rewrite U5. cbn. unfold word. lia.
      * intros h. unfold kept. cbn [proc at_]. rewrite app_nil_r. intros Hh. rewrite <- U4. apply elem_of_app. by left.
    + unfold proc_holds. cbn [proc at_ phase_holds app]. by rewrite <- !app_assoc.
    + cbn [proc]. rewrite U6. f_equal. lia.
Qed.

Lemma fault_nodes_cons (f : fault) (g : option fetched) fs : ((f, g) :: fs).*1 = f :: fs.*1.
Proof. done. Qed.

Lemma proc_step_ok o rest r k r' k' :
  proc_step (r, k) (r', k') -> running_ok r -> word (promised_total k) -> counts_ok k o (proc_holds r ++ rest) -> step_ok o rest r r' k k'.
Proof.
  intros Hs R Hk HC. pose proof (rk_promised _ R) as Hp. inversion Hs; subst; cbn [proc] in Hp.
  - match goal with E : region_map _ _ _ _ _ _ _ = _ |- _ => rename E into Em end.
    unfold proc_holds in HC. cbn [proc at_ phase_holds] in HC. rewrite <- app_assoc in HC.
    pose proof (region_map_ok length prot n offset share p k o rest (rk_table _ R) (rk_below _ R) (proj1 (rk_next _ R)) (proj2 (rk_next _ R)) Hp Hk ltac:(done) HC) as M.
    rewrite Em in M. destruct M as [M1 M2 M3 M4 M5 M6 M7 M8]. split; [|split; [|done]].
    + apply (running_keeps (mkRunning p Idle fs)); try done. intros h. unfold kept. cbn [proc at_]. rewrite !app_nil_r. apply M8.
    + unfold proc_holds. cbn [proc at_ phase_holds]. rewrite <- app_assoc. exact M6.
  - apply (prepare_step o rest p fs k addr length u k'); assumption.
  - eapply cut_step; eassumption.
  - assert (fs = []) as -> by (destruct (rk_users _ R) as [E _]; cbn in E; destruct fs; cbn in E; [done|lia]).
    unfold proc_holds in HC. cbn [proc at_ phase_holds] in HC.
    destruct (unmap_finish_ok busy u gone k o (holds (regions p) ++ rest)) as [F1 F2].
    { eapply counts_perm; [|exact HC]. rewrite <- !app_assoc, (Permutation_app_comm (holds _)), <- !app_assoc. do 3 f_equiv. apply Permutation_app_comm. }
    split; [|split].
    + destruct R as [R1 R2 R3 R4 R5 R6 R7]. split; try done. cbn. intros f Hf. by apply not_elem_of_nil in Hf.
    + unfold proc_holds. cbn [proc at_ phase_holds]. rewrite <- app_assoc. exact F1.
    + cbn [proc]. by rewrite F2, Z.sub_diag, Z.add_0_r, u64_small.
  - pose proof (brk_light busy new p k Hp Hk) as L. match goal with E : region_set_brk _ _ _ _ = _ |- _ => rewrite E in L end. by apply light_step.
  - pose proof (look_light page p k Hp Hk) as L. match goal with E : fault_look _ _ _ = _ |- _ => rewrite E in L end. by apply light_step.
  - pose proof (look_light page p k Hp Hk) as L. match goal with E : fault_look _ _ _ = _ |- _ => rewrite E in L end. destruct L as (->&->&L1&q&L2&L3&L4).
    split; [|split; [exact HC|by cbn [proc]; rewrite Z.sub_diag, Z.add_0_r, u64_small]].
    destruct R as [R1 R2 R3 R4 R5 R6 R7]. cbn [proc at_ faults] in *. destruct R5 as [R5 R5']. unfold PROCESS_MAX_THREADS in *. split; cbn [proc at_ faults]; try done.
    + cbn [length]. unfold PROCESS_MAX_THREADS. split; [|lia]. cbn. rewrite R5, u32_small; lia.
    + intros f' Hf'. rewrite fault_nodes_cons, elem_of_cons in Hf'. destruct Hf' as [->|Hf']; [|by apply R6]. split; [done|]. exists (hold_of q). split; [|done].
      unfold kept. cbn [proc]. apply elem_of_app. left. by apply holds_elem.
  - pose proof (fetch_same f k) as [E1 E2]. match goal with E : fault_fetch _ _ = _ |- _ => rewrite E in E1, E2 end. cbn [snd] in E1, E2.
    split; [|split; [by apply (counts_nodes k)|by cbn [proc]; rewrite E2, Z.sub_diag, Z.add_0_r, u64_small]].
    destruct R as [R1 R2 R3 R4 R5 R6 R7]. cbn [proc at_ faults] in *. rewrite length_app in R5. split; cbn [proc at_ faults]; rewrite ?length_app; try done.
    intros f'. rewrite fmap_app. specialize (R6 f'). by rewrite fmap_app in R6.
  - pose proof (give_light f g p k Hp Hk) as L. match goal with E : fault_give _ _ _ _ = _ |- _ => rewrite E in L end.
    assert (running_ok (mkRunning (set_users p (u32 (file_users p - 1))) a (fs1 ++ fs2))) as R'.
    { destruct R as [R1 R2 R3 R4 R5 R6 R7]. cbn [proc at_ faults] in *. rewrite length_app in R5. cbn [length] in R5. unfold PROCESS_MAX_THREADS in *.
      split; cbn [proc at_ faults]; rewrite ?length_app; try done.
      - unfold PROCESS_MAX_THREADS. split; [|lia]. cbn. rewrite (proj1 R5), u32_small; lia.
      - intros f' Hf'. apply R6. rewrite fmap_app, elem_of_app in *. cbn. rewrite elem_of_cons. tauto. }
    destruct (light_step o rest _ _ _ _ _ _ L R' HC) as (S1&S2&S3). by split.
  - pose proof (sync_same addr length p k) as [E1 E2]. match goal with E : region_sync _ _ _ _ = _ |- _ => rewrite E in E1, E2 end. cbn [snd] in E1, E2.
    apply light_step; [by apply light_same|done|done].
  - pose proof (revalidate_light busy p k Hp Hk) as L. match goal with E : region_revalidate _ _ _ = _ |- _ => rewrite E in L end. by apply light_step.
  - split; [|split; [exact HC|by cbn [proc]; cbn; rewrite Z.sub_diag, Z.add_0_r, u64_small]]. pose proof (rk_next _ R) as [N1 N2]. cbn [proc] in *.
    apply (running_keeps (mkRunning p Idle fs)); try done; try apply R.
    + cbn [proc]. intros q Hq Uq. pose proof (rk_below _ R q Hq Uq) as Hq'. cbn in *. lia.
    + cbn [proc]. cbn. unfold word in *. split; [lia|done].
Qed.

(** * Steps of the system *)

Lemma hold_all_ok l : forall k o rest, counts_ok k o rest -> counts_ok (hold_all l k) o (holds l ++ rest) /\ promised_total (hold_all l k) = promised_total k.
Proof.
  induction l as [|r l IH]; intros k o rest HC; [done|]. change (hold_all (r :: l) k) with (hold_all l (if end_ r =? 0 then k else (hold_device r 1 (pin r 1 k)).2)).
  change (holds (r :: l)) with (held_by r ++ holds l). unfold held_by, used. destruct (end_ r =? 0); cbn [negb app]; [by apply IH|].
  destruct (hold_device_same r 1 (pin r 1 k)) as (D1&D2&D3). destruct (pin_same r 1 k) as [_ P2].
  destruct (IH (hold_device r 1 (pin r 1 k)).2 o (hold_of r :: rest)) as [I1 I2]; [eapply counts_nodes; [exact D1|by apply pin_add]|].
  split; [|congruence]. eapply counts_perm; [|exact I1]. symmetry. apply Permutation_middle.
Qed.

Lemma put_region_ok r k o rest : counts_ok k o (hold_of r :: rest) -> counts_ok (put_region r k) o rest /\ promised_total (put_region r k) = promised_total k.
Proof.
  intros HC. unfold put_region. destruct (hold_device_same r (-1) k) as (D1&D2&D3). set (k1 := (hold_device r (-1) k).2) in *.
  assert (forall a b, nodes (in_cache (pcache_writeback (node r) a b) k1).2 = nodes k /\ promised_total (in_cache (pcache_writeback (node r) a b) k1).2 = promised_total k) as HW.
  { intros a b. destruct (in_cache_same (pcache_writeback (node r) a b) k1). split; congruence. }
  rewrite (proj2 (pin_same _ _ _)). destruct (shared r).
  - destruct (file_pages _ _ _) as [a b]. destruct (HW a b). split; [|done]. apply pin_drop. by apply (counts_nodes k).
  - split; [|done]. apply pin_drop. by apply (counts_nodes k).
Qed.

Lemma put_used_ok l : forall k o rest, counts_ok k o (holds l ++ rest) -> counts_ok (put_used l k) o rest /\ promised_total (put_used l k) = promised_total k.
Proof.
  induction l as [|r l IH]; intros k o rest HC; [done|]. change (put_used (r :: l) k) with (put_used l (if end_ r =? 0 then k else put_region r k)).
  change (holds (r :: l)) with (held_by r ++ holds l) in HC. unfold held_by, used in HC. destruct (end_ r =? 0); cbn [negb app] in HC; [by apply IH|].
  destruct (put_region_ok r k o _ HC) as [P1 P2]. destruct (IH _ _ _ P1) as [I1 I2]. split; [done|congruence].
Qed.

Lemma image_held new : Forall (fun r => region_ok r /\ program r = true /\ shared r = false) new ->
  holds new = (fun r => hold_of (mkRegion 0 0 0 (node r) 0 true false false)) <$> new.
Proof.
  induction 1 as [|r l (Hr&Hp&Hs) _ IH]; [done|]. change (holds (r :: l)) with (held_by r ++ holds l). cbn [fmap list_fmap]. rewrite IH.
  unfold held_by. rewrite (proj2 (used_spec r)) by (destruct (ro_range _ Hr); lia). unfold hold_of at 1. by rewrite Hp, Hs.
Qed.

Lemma image_hold_ok new : forall k o rest, Forall (fun r => region_ok r /\ program r = true /\ shared r = false) new -> counts_ok k o rest ->
  let k' := fold_left (fun k r => region_hold_program (node r) 1 k) new k in
  counts_ok k' o (holds new ++ rest) /\ promised_total k' = promised_total k.
Proof.
  intros k o rest HN HC. rewrite image_held by done. clear HN. revert k rest HC. induction new as [|r l IH]; intros k rest HC; [done|]. cbn [fold_left fmap list_fmap].
  destruct (IH _ _ (pin_add (mkRegion 0 0 0 (node r) 0 true false false) k o rest HC)) as [I1 I2]. split; [|etrans; [exact I2|apply pin_same]].
  eapply counts_perm; [|exact I1]. symmetry. apply Permutation_middle.
Qed.

Lemma image_drop_ok new : forall k o rest, Forall (fun r => region_ok r /\ program r = true /\ shared r = false) new -> counts_ok k o (holds new ++ rest) ->
  let k' := fold_left (fun k r => region_hold_program (node r) (-1) k) new k in
  counts_ok k' o rest /\ promised_total k' = promised_total k.
Proof.
  intros k o rest HN. rewrite image_held by done. clear HN. revert k. induction new as [|r l IH]; intros k HC; [done|]. cbn [fold_left fmap list_fmap app] in *.
  destruct (IH _ (pin_drop _ k o _ HC)) as [I1 I2]. split; [exact I1|]. etrans; [exact I2|apply pin_same].
Qed.

Definition unused_count (l : list mem_region_t) : nat := length (filter (fun r => used r = false) l).

Lemma unused_insert l i q r : l !! i = Some q -> used q = false -> used r = true -> S (unused_count (<[i := r]> l)) = unused_count l.
Proof.
  intros Hi Uq U. unfold unused_count. revert i Hi. induction l as [|x l IH]; intros [|i] Hi; [done|done|..]; cbn in Hi.
  - simplify_eq. change (<[0%nat := r]> (q :: l)) with (r :: l). rewrite !filter_cons, decide_False, decide_True by congruence. done.
  - change (<[S i := r]> (x :: l)) with (x :: <[i := r]> l). rewrite !filter_cons. specialize (IH i Hi). case_decide; cbn [length]; lia.
Qed.

(** The segments go into free entries. *)
Lemma adopt_table new : forall l, table_ok l -> images_apart new -> Forall region_ok new ->
  (forall q r, q ∈ l -> used q = true -> r ∈ new -> apart r q) -> (length new <= unused_count l)%nat ->
  let l' := fold_left (fun l r => match free_slot l with Some i => <[i := r]> l | None => l end) new l in
  table_ok l' /\ holds l' ≡ₚ holds new ++ holds l /\ forall q, q ∈ l' -> used q = true -> q ∈ new \/ q ∈ l.
Proof.
  induction new as [|r new IH]; intros l T Ha Hok Hl Hn; [cbn; auto|]. cbn [fold_left length] in *. apply Forall_cons in Hok as [Hr Hok].
  assert (used r = true) as U by (apply used_spec; destruct (ro_range _ Hr); lia).
  destruct (free_slot l) as [i|] eqn:Ef.
  2:{ pose proof (free_slot_spec l) as HS. rewrite Ef in HS. unfold unused_count in Hn. rewrite filter_none in Hn; [cbn in Hn; lia|].
      intros x Hx. rewrite Forall_forall in HS. rewrite (HS x Hx). done. }
  destruct (table_add l i r T Ef Hr) as (T1&T2&T3&T4); [intros q Hq Uq; apply Hl; [done|done|by left]|].
  pose proof (free_slot_spec l) as HS. rewrite Ef in HS. destruct HS as (q0&Hi&Uq0). pose proof (unused_insert l i q0 r Hi Uq0 U) as Hc.
  destruct (IH (<[i := r]> l) T1) as (I1&I2&I3).
  - intros a b x y Hx Hy Hne. apply (Ha (S a) (S b)); [done|done|lia].
  - done.
  - intros q r' Hq Uq Hr'. destruct (T3 q Hq Uq) as [->|Hq'].
    + apply list_elem_of_lookup in Hr' as [j Hj]. by apply (Ha (S j) 0%nat).
    + apply Hl; [done|done|by right].
  - lia.
  - split; [done|]. split.
    + rewrite I2, T2. change (holds (r :: new)) with (held_by r ++ holds new). unfold held_by. rewrite U. cbn [app]. symmetry. apply Permutation_middle.
    + intros q Hq Uq. rewrite elem_of_cons. destruct (I3 q Hq Uq) as [?|Hq']; [auto|]. destruct (T3 q Hq' Uq); auto.
Qed.

Lemma holds_free l : all_unused l -> holds l = [].
Proof. unfold all_unused, holds. induction 1 as [|r l E _ IH]; [done|]. cbn. unfold held_by at 1. by rewrite E. Qed.

Lemma empty_table_ok : table_ok (replicate TASK_MAX_REGIONS no_region).
Proof. split; [done|intros i r [-> _]%lookup_replicate; done|]. intros i j r r' [-> _]%lookup_replicate. done. Qed.

Lemma all_holds_proc l1 r l2 k o n a : all_holds (mkSystem (l1 ++ r :: l2) k o n a) ≡ₚ proc_holds r ++ all_holds (mkSystem (l1 ++ l2) k o n a).
Proof.
  unfold all_holds. cbn [procs aside]. rewrite !fmap_app, !concat_app. cbn [fmap list_fmap concat]. rewrite !app_assoc. do 2 f_equiv.
  by rewrite (Permutation_app_comm (concat _)).
Qed.

Lemma all_holds_aside l k o n a1 t a2 : all_holds (mkSystem l k o n (a1 ++ t :: a2)) ≡ₚ holds t ++ all_holds (mkSystem l k o n (a1 ++ a2)).
Proof.
  unfold all_holds. cbn [procs aside]. rewrite !fmap_app, !concat_app. cbn [fmap list_fmap concat].
  rewrite !app_assoc. f_equiv. rewrite (Permutation_app_comm _ (holds t)). by rewrite !app_assoc.
Qed.

Lemma promised_sum_app l1 l2 : promised_sum (l1 ++ l2) = promised_sum l1 + promised_sum l2.
Proof. unfold promised_sum. induction l1 as [|r l1 IH]; cbn; [done|]. rewrite IH. lia. Qed.

Lemma promised_sum_proc l1 r l2 : promised_sum (l1 ++ r :: l2) = promised_pages (proc r) + promised_sum (l1 ++ l2).
Proof. rewrite !promised_sum_app. cbn. fold (promised_sum l2). lia. Qed.

Lemma u64_shift a b c d : a = u64 b -> d = b + c -> u64 (a + c) = u64 d.
Proof. intros -> ->. unfold u64. apply Zplus_mod_idemp_l. Qed.

Lemma total_word s : sys_inv s -> word (promised_total (kern s)).
Proof. intros I. rewrite (si_total _ I). apply u64_range. Qed.

(** A new process, with a table in order and nothing going on. *)
Lemma fresh_running p : table_ok (regions p) -> (forall q, q ∈ regions p -> used q = true -> end_ q <= mmap_next p) ->
  word (mmap_next p) /\ mmap_next p mod PAGE_SIZE = 0 -> word (promised_pages p) -> file_users p = 0 -> running_ok (mkRunning p Idle []).
Proof.
  intros T B N P U. split; try done; cbn [faults proc].
  - split; [by rewrite U|cbn; lia].
  - intros f Hf. by apply not_elem_of_nil in Hf.
Qed.

Lemma fork_ok l1 p fs l2 k o n a pml4 seen child k' :
  region_fork (mkProcess pml4 (brk_start p) (brk_end p) (mmap_next p) (replicate TASK_MAX_REGIONS no_region) 0 0 seen) p k = (child, k') ->
  sys_inv (mkSystem (l1 ++ mkRunning p Idle fs :: l2) k o n a) -> sys_inv (mkSystem (mkRunning child Idle [] :: l1 ++ mkRunning p Idle fs :: l2) k' o n a).
Proof.
  intros E I. pose proof (total_word _ I) as Hk. destruct I as [I1 I2 I3]. cbn [procs kern others reserved] in *.
  assert (running_ok (mkRunning p Idle fs)) as R by (rewrite Forall_app, Forall_cons in I1; by destruct I1 as (_&?&_)). pose proof R as [R1 R2 R3 R4 R5 R6 R7]. cbn [proc] in *.
  unfold region_fork in E. cbn [regions set_regions] in E. destruct (hold_all_ok (regions p) k o _ I2) as [H1 H2]. set (k1 := hold_all (regions p) k) in *.
  unfold charge in E. cbn in E. simplify_eq. split; cbn [procs kern others reserved].
  - constructor; [|done]. apply fresh_running; try done. apply u64_range.
  - apply (counts_nodes k1); [done|]. eapply counts_perm; [|exact H1]. etrans; [|symmetry; apply (all_holds_proc [])]. unfold proc_holds. cbn [proc at_ phase_holds]. by rewrite app_nil_r.
  - match goal with |- promised_total (set_total _ ?t) = u64 (promised_sum (mkRunning ?c _ _ :: ?l) + _) =>
      change (u64 (promised_total k1 + promised_pages p) = u64 (u64 (0 + promised_pages p) + promised_sum l + n)) end.
    rewrite H2, Z.add_0_l, (u64_small (promised_pages p)) by done. apply (u64_shift _ _ _ _ I3). lia.
Qed.

Lemma exit_ok l1 p l2 k o n a p' k' : region_release_all p k = (p', k') ->
  sys_inv (mkSystem (l1 ++ mkRunning p Idle [] :: l2) k o n a) -> sys_inv (mkSystem (l1 ++ l2) k' o n a).
Proof.
  intros E I. destruct I as [I1 I2 I3]. cbn [procs kern others reserved] in *. rewrite Forall_app, Forall_cons in I1. destruct I1 as (F1&R&F2).
  apply (counts_perm _ _ _ _ (all_holds_proc _ _ _ _ _ _ _)) in I2. unfold proc_holds in I2. cbn [proc at_ phase_holds] in I2. rewrite app_nil_r in I2.
  destruct (put_used_ok _ _ _ _ I2) as [P1 P2]. unfold region_release_all, uncharge in E. cbn [promised_pages set_regions] in E. rewrite Z.ltb_irrefl in E. simplify_eq.
  split; cbn [procs kern others reserved]; [by apply Forall_app| |].
  - exact P1.
  - cbn. rewrite P2. rewrite promised_sum_proc in I3. cbn [proc] in I3. rewrite <- Z.add_opp_r. apply (u64_shift _ _ _ _ I3). lia.
Qed.

Lemma take_ok l1 p l2 k o n a memory taken p' k' : region_take_all memory p k = (taken, p', k') ->
  sys_inv (mkSystem (l1 ++ mkRunning p Idle [] :: l2) k o n a) ->
  sys_inv (mkSystem (l1 ++ mkRunning p' Idle [] :: l2) k' o n (match taken with Some t => t :: a | None => a end)).
Proof.
  intros E I. destruct I as [I1 I2 I3]. cbn [procs kern others reserved] in *. rewrite Forall_app, Forall_cons in I1. destruct I1 as (F1&R&F2).
  pose proof R as [R1 R2 R3 R4 R5 R6 R7]. cbn [proc faults length] in *. rewrite promised_sum_proc in I3. cbn [proc] in I3.
  apply (counts_perm _ _ _ _ (all_holds_proc _ _ _ _ _ _ _)) in I2. unfold proc_holds in I2. cbn [proc at_ phase_holds] in I2. rewrite app_nil_r in I2.
  unfold region_take_all, region_release_all, uncharge in E. cbn [promised_pages set_regions] in E. rewrite Z.ltb_irrefl in E. destruct memory; cbn [negb] in E; simplify_eq.
  - split; cbn [procs kern others reserved].
    + rewrite Forall_app, Forall_cons. split_and!; [done| |done]. apply fresh_running; cbn [regions set_promised set_regions mmap_next promised_pages file_users]; try done; [apply empty_table_ok| |unfold word; lia|apply R5].
      intros q Hq. apply elem_of_replicate in Hq as [-> _]. done.
    + apply (counts_nodes k); [done|]. eapply counts_perm; [|exact I2]. rewrite all_holds_proc. unfold proc_holds. cbn [proc at_ phase_holds regions set_promised set_regions].
      rewrite (holds_free (replicate TASK_MAX_REGIONS no_region)) by (by apply Forall_replicate). cbn [app]. symmetry. exact (all_holds_aside (l1 ++ l2) k o n [] (regions p) a).
    + cbn. rewrite promised_sum_proc. cbn. rewrite <- Z.add_opp_r. apply (u64_shift _ _ _ _ I3). lia.
  - destruct (put_used_ok _ _ _ _ I2) as [P1 P2]. split; cbn [procs kern others reserved].
    + rewrite Forall_app, Forall_cons. split_and!; [done| |done].
      assert (all_unused (clear_used (regions p))) as Hf.
      { apply Forall_forall. intros q (r&->&_)%list_elem_of_fmap. unfold used. destruct (end_ r =? 0) eqn:Ee; [by rewrite Ee|done]. }
      apply fresh_running; cbn [regions set_promised set_regions mmap_next promised_pages file_users]; try done; [|intros q Hq U; unfold all_unused in Hf; rewrite Forall_forall in Hf; by rewrite Hf in U|unfold word; lia|apply R5].
      unfold all_unused in Hf. rewrite Forall_lookup in Hf. split; [unfold clear_used; by rewrite length_fmap, (to_len _ R1)|intros i q Hq U; by rewrite (Hf i q Hq) in U|].
      intros i j q q' Hq _ U. by rewrite (Hf i q Hq) in U.
    + apply (counts_nodes (put_used (regions p) k)); [done|]. eapply counts_perm; [|exact P1]. rewrite all_holds_proc. unfold proc_holds. cbn [proc at_ phase_holds regions set_promised set_regions].
      rewrite holds_free; [done|]. apply Forall_forall. intros q (r&->&_)%list_elem_of_fmap. unfold used. destruct (end_ r =? 0) eqn:Ee; [by rewrite Ee|done].
    + cbn. rewrite promised_sum_proc, P2. cbn. rewrite <- Z.add_opp_r. apply (u64_shift _ _ _ _ I3). lia.
Qed.

Lemma adopt_ok l1 p l2 k o n a1 new a2 pages pml4 brk next :
  image_ok new -> all_unused (regions p) -> 0 <= pages <= n -> word next -> next mod PAGE_SIZE = 0 -> Forall (fun r => end_ r <= next) new ->
  sys_inv (mkSystem (l1 ++ mkRunning p Idle [] :: l2) k o n (a1 ++ new :: a2)) ->
  sys_inv (mkSystem (l1 ++ mkRunning (region_adopt new pages
     (mkProcess pml4 brk brk next (regions p) (promised_pages p) (file_users p) (seen_truncations p))) Idle [] :: l2) k o (n - pages) (a1 ++ a2)).
Proof.
  intros (N1&N2&N3) Hf Hpg Hn Hna Hend I. destruct I as [I1 I2 I3]. cbn [procs kern others reserved] in *. rewrite Forall_app, Forall_cons in I1. destruct I1 as (F1&R&F2).
  pose proof R as [R1 R2 R3 R4 R5 R6 R7]. cbn [proc faults length] in *. rewrite promised_sum_proc in I3. cbn [proc] in I3.
  rewrite Forall_forall in Hend. pose proof Hf as Hf'. unfold all_unused in Hf'. rewrite Forall_forall in Hf'.
  destruct (adopt_table new (regions p) R1 N2) as (A1&A2&A3).
  { eapply Forall_impl; [exact N3|]. by intros r []. }
  { intros q r Hq U. by rewrite Hf' in U. }
  { unfold unused_count. rewrite filter_all by done. by rewrite (to_len _ R1). }
  unfold region_adopt. cbn [regions promised_pages set_promised set_regions]. set (l' := fold_left _ new (regions p)) in *.
  split; cbn [procs kern others reserved].
  - rewrite Forall_app, Forall_cons. split_and!; [done| |done]. apply fresh_running; cbn [regions set_promised set_regions mmap_next promised_pages file_users]; try done; [|apply u64_range|apply R5].
    intros q Hq U. destruct (A3 q Hq U) as [?|Hq']; [by apply Hend|]. by rewrite (Hf' q Hq') in U.
  - eapply counts_perm; [|exact I2]. rewrite all_holds_aside, !all_holds_proc. unfold proc_holds. cbn [proc at_ phase_holds regions set_promised set_regions].
    rewrite A2, (holds_free (regions p)) by done. rewrite !app_nil_r. reflexivity.
  - rewrite promised_sum_proc. cbn [proc promised_pages set_promised]. rewrite I3, <- !Z.add_assoc.
    symmetry. apply (u64_shift _ (promised_pages p + pages)); [done|lia].
Qed.

Lemma sys_step_ok s s' : sys_inv s -> sys_step s s' -> sys_inv s'.
Proof.
  intros I Hs. pose proof (total_word _ I) as Hk. destruct Hs.
  - destruct I as [I1 I2 I3]. cbn [procs kern others reserved] in *. rewrite Forall_app, Forall_cons in I1. destruct I1 as (F1&R&F2).
    apply (counts_perm _ _ _ _ (all_holds_proc _ _ _ _ _ _ _)) in I2. destruct (proc_step_ok o _ r k r' k' ltac:(done) R Hk I2) as (S1&S2&S3).
    split; cbn [procs kern others reserved].
    + by rewrite Forall_app, Forall_cons.
    + eapply counts_perm; [|exact S2]. by rewrite all_holds_proc.
    + rewrite S3, promised_sum_proc. rewrite promised_sum_proc in I3. apply (u64_shift _ _ _ _ I3). lia.
  - destruct I as [I1 I2 I3]. cbn [procs kern others reserved] in *. split; [| |exact I3].
    + constructor; [|done]. apply fresh_running; cbn [regions mmap_next promised_pages file_users]; try done; [apply empty_table_ok|].
      intros q Hq. apply elem_of_replicate in Hq as [-> _]. done.
    + eapply counts_perm; [|exact I2]. etrans; [|symmetry; apply (all_holds_proc [])]. unfold proc_holds. cbn [proc at_ phase_holds regions app].
      rewrite (holds_free (replicate TASK_MAX_REGIONS no_region)) by (by apply Forall_replicate). reflexivity.
  - by eapply fork_ok.
  - by eapply exit_ok.
  - by eapply take_ok.
  - destruct I as [I1 I2 I3]. cbn [procs kern others reserved] in *. apply (counts_perm _ _ _ _ (all_holds_aside _ _ _ _ _ _ _)) in I2.
    destruct (put_used_ok _ _ _ _ I2) as [P1 P2]. split; [done|exact P1|]. cbn. by rewrite P2.
  - destruct I as [I1 I2 I3]. cbn [procs kern others reserved] in *. match goal with E : region_reserve _ _ = _ |- _ => unfold region_reserve in E; rename E into Er end.
    pose proof (can_promise_same pages k) as [E1 E2]. destruct (can_promise pages k) as [[] k1]; [|done]. cbn [snd] in *. simplify_eq.
    split; [done|by apply (counts_nodes k)|]. cbn [kern set_total promised_total procs reserved]. rewrite E2. apply (u64_shift _ _ _ _ I3). lia.
  - destruct I as [I1 I2 I3]. cbn [procs kern others reserved] in *. split; [done|by apply (counts_nodes k)|]. unfold region_unreserve. cbn [kern set_total promised_total procs reserved]. rewrite <- Z.add_opp_r. apply (u64_shift _ _ _ _ I3). lia.
  - match goal with E : image_ok _ |- _ => destruct E as (N1&N2&N3) end. destruct I as [I1 I2 I3]. cbn [procs kern others reserved] in *.
    destruct (image_hold_ok new k o _ N3 I2) as [H1 H2]. split; [done| |cbn; by rewrite H2]. eapply counts_perm; [|exact H1]. symmetry. exact (all_holds_aside l k o n [] new a).
  - match goal with E : image_ok _ |- _ => destruct E as (N1&N2&N3) end. destruct I as [I1 I2 I3]. cbn [procs kern others reserved] in *.
    apply (counts_perm _ _ _ _ (all_holds_aside _ _ _ _ _ _ _)) in I2. destruct (image_drop_ok new k o _ N3 I2) as [H1 H2]. split; [done|exact H1|]. cbn. by rewrite H2.
  - by apply adopt_ok.
  - destruct I as [I1 I2 I3]. cbn [procs kern others reserved] in *. split; [done| |etrans; [eassumption|exact I3]]. intros m Hm. destruct (I2 m Hm) as [C1 C2 C3].
    match goal with E : forall m, others_move _ _ _ _ |- _ => destruct (E m) as (O1&O2&O3) end.
    split; cbn [kern others]; [rewrite O1, C1|rewrite O2, C2|rewrite O3, C3]; rewrite u32_add; f_equal; unfold all_holds; cbn [procs aside]; lia.
Qed.

(** * Files stay held *)

(** No processes, and every file has the counts of its other holders. *)
Definition initial (s : system) : Prop :=
  procs s = [] /\ aside s = [] /\ reserved s = 0 /\ promised_total (kern s) = 0 /\
  forall n, let v := nodes (kern s) n in let c := others s n in
    open_count v = u32 (c_open c) /\ exec_count v = u32 (c_exec c) /\ write_count v = u32 (c_write c).

Lemma initial_inv s : initial s -> sys_inv s.
Proof.
  intros (E1&E2&E3&E4&E5). split; rewrite ?E1, ?E3, ?E4; [constructor| |done]. intros n Hn. destruct (E5 n) as (A&B&C).
  unfold all_holds. rewrite E1, E2. split; cbn [fmap list_fmap concat app]; change (tally _ [] n) with 0; by rewrite Z.add_0_r.
Qed.

(** The holders of each file can be counted in 32 bits. *)
Definition count_fits (s : system) : Prop :=
  forall n, n <> 0 -> let c := others s n in
    0 <= c_open c /\ 0 <= c_exec c /\ 0 <= c_write c /\ c_open c + tally any_hold (all_holds s) n < 0x100000000 /\
    c_exec c + tally h_program (all_holds s) n < 0x100000000 /\ c_write c + tally h_writes (all_holds s) n < 0x100000000.

(** A hold is in the counts of its file. *)
Definition is_counted (k : kernel W) (h : hold) : Prop :=
  1 <= open_count (nodes k (h_node h)) /\ (h_program h = true -> 1 <= exec_count (nodes k (h_node h))) /\
  (h_writes h = true -> 1 <= write_count (nodes k (h_node h))).

Lemma hold_counted s h : sys_inv s -> count_fits s -> h ∈ all_holds s -> h_node h <> 0 -> is_counted (kern s) h.
Proof.
  intros I F Hh Hn. destruct (si_counts _ I (h_node h) Hn) as [C1 C2 C3]. destruct (F (h_node h) Hn) as (F1&F2&F3&F4&F5&F6).
  unfold is_counted. rewrite C1, C2, C3. pose proof (tally_pos any_hold _ h Hh eq_refl) as P1. split_and!.
  - rewrite u32_small; lia.
  - intros P. pose proof (tally_pos h_program _ h Hh P). rewrite u32_small; lia.
  - intros P. pose proof (tally_pos h_writes _ h Hh P). rewrite u32_small; lia.
Qed.

Lemma proc_hold s r h : r ∈ procs s -> h ∈ proc_holds r -> h ∈ all_holds s.
Proof.
  intros Hr Hh. unfold all_holds. apply elem_of_app. left. apply list_elem_of_In, in_concat. exists (proc_holds r).
  split; apply list_elem_of_In; [by apply list_elem_of_fmap_2|done].
Qed.

Lemma kept_hold r h : h ∈ kept r -> h ∈ proc_holds r.
Proof. unfold kept, proc_holds. destruct (at_ r); cbn [phase_holds]; rewrite !elem_of_app; tauto || (intros [?|Hn]; [by left|by apply not_elem_of_nil in Hn]). Qed.

(** C4. Regions under any interleaving. Processes map, unmap, move their heaps,
    fault, fork, run programs and exit, with the steps of munmap and of page faults of
    their threads interleaved at will, while files are opened, closed and changed by
    others. Then in every state: the regions of each process are page-aligned, in user
    space and do not overlap; the open, running and writer counts of every file are
    those of its other holders and of the regions of it; so the file of a region is
    never without a holder, a running program's file counts as running and that of a
    writable shared mapping as written; and the file a page fault is reading stays held
    until the fault is done with it. The system's total of promised pages is the sum of
    the promises to the processes and the pages reserved. *)
Theorem regions_sound (s0 s : system) :
  initial s0 -> rtc sys_step s0 s ->
  Forall (fun r => table_ok (regions (proc r))) (procs s) /\
  counts_ok (kern s) (others s) (all_holds s) /\
  promised_total (kern s) = u64 (promised_sum (procs s) + reserved s) /\
  (count_fits s -> forall r, r ∈ procs s ->
     (forall q, q ∈ regions (proc r) -> used q = true -> node q <> 0 -> is_counted (kern s) (hold_of q)) /\
     (forall f g, (f, g) ∈ faults r -> 1 <= open_count (nodes (kern s) (f_node f)))).
Proof.
  intros H0 Hs. assert (sys_inv s) as I by (eapply rtc_invariant; [apply sys_step_ok|by apply initial_inv|exact Hs]).
  pose proof I as [I1 I2 I3]. split_and!; [|done|done|].
  - eapply Forall_impl; [exact I1|]. intros r R. apply R.
  - intros F r Hr. rewrite Forall_forall in I1. specialize (I1 r Hr). split.
    + intros q Hq U Hn. apply hold_counted; [done|done| |done]. apply (proc_hold s r); [done|]. apply elem_of_app. left. by apply holds_elem.
    + intros f g Hf. destruct (rk_faults _ I1 f) as [Hn (h&Hh&E)]; [apply list_elem_of_fmap; by exists (f, g)|].
      rewrite <- E in Hn |- *. apply (hold_counted s h); [done|done| |done]. apply (proc_hold s r); [done|by apply kept_hold].
Qed.
End system.

(** ** Example: a process maps a file, and a fault begins to read it *)

Definition start_kernel : kernel unit := mkKernel (set_slots page_vmm (swap_start 1000)) 0 (fun _ => mkVnode 0x9000 None 0 0 0) tt.
Definition start_process : process := mkProcess 0x2000 0x500000 0x500000 0x700000000000 (replicate TASK_MAX_REGIONS no_region) 0 0 0.
Notation start_system := (mkSystem [] start_kernel (fun _ => mkCounts 0 0 0) 0 []).
Definition new_region : mem_region_t := mkRegion 0x700000000000 0x700000002000 1 7 0 false false false.

Lemma regions_sound_witness :
  exists s, rtc sys_step start_system s /\ exists r f, procs s = [r] /\ faults r = [(f, None)] /\ f_node f = 7 /\ 1 <= open_count (nodes (kern s) 7).
Proof.
  destruct (region_map 0x1800 1 7 0 false start_process start_kernel) as [[[a e] p1] k1] eqn:E1.
  assert (p1 = mkProcess 0x2000 0x500000 0x500000 0x700000002000 (new_region :: replicate 35 no_region) 2 0 0) as Ep.
  { apply (f_equal (fun c => c.1.2)) in E1. cbn [fst snd] in E1. rewrite <- E1. vm_compute. reflexivity. }
  assert (vm k1 = vm start_kernel) as Ev by (apply (f_equal (fun c => vm c.2)) in E1; cbn [fst snd] in E1; rewrite <- E1; vm_compute; reflexivity).
  assert (exists f p2, fault_look 0x700000001000 p1 k1 = (inr f, p2, k1) /\ f_node f = 7 /\ regions p2 = regions p1) as (f&p2&E2&Ef&Er).
  { rewrite Ep. unfold fault_look, space_of. rewrite Ev. eexists _, _. split; [vm_compute; reflexivity|]. split; reflexivity. }
  set (s := mkSystem [mkRunning p2 Idle [(f, None)]] k1 (fun _ => mkCounts 0 0 0) 0 []).
  assert (rtc sys_step start_system s) as Hs.
  { eapply rtc_l; [apply (sys_new _ _ _ _ _ 0x2000 0x500000 0x700000000000 0); [unfold word; lia|reflexivity]|].
    eapply rtc_l; [apply (sys_proc [] _ []); eapply (step_map start_process [] start_kernel); [|exact E1]; lia|].
    eapply rtc_l; [apply (sys_proc [] _ []); eapply (step_look_file p1 Idle [] k1); [|exact E2]; cbn; unfold PROCESS_MAX_THREADS; lia|]. apply rtc_refl. }
  assert (initial start_system) as H0 by (split; [reflexivity|]; split; [reflexivity|]; split; [reflexivity|]; split; [reflexivity|]; intros n; split; [reflexivity|]; split; reflexivity).
  exists s. split; [exact Hs|]. exists (mkRunning p2 Idle [(f, None)]), f. split; [reflexivity|]. split; [reflexivity|]. split; [exact Ef|].
  destruct (regions_sound start_system s H0 Hs) as (_&_&_&HF).
  assert (all_holds s = [mkHold 7 false false]) as Eh.
  { unfold all_holds, s. cbn [procs aside fmap list_fmap concat]. unfold proc_holds. cbn [proc at_ phase_holds]. rewrite Er, Ep. vm_compute. reflexivity. }
  assert (count_fits s) as Hfit.
  { intros n _. rewrite Eh. unfold tally. pose proof (length_filter (fun h => h_node h = n /\ any_hold h = true) [mkHold 7 false false]).
    pose proof (length_filter (fun h => h_node h = n /\ h_program h = true) [mkHold 7 false false]).
    pose proof (length_filter (fun h => h_node h = n /\ h_writes h = true) [mkHold 7 false false]). cbn [others s c_open c_exec c_write] in *. cbn [length] in *. lia. }
  destruct (HF Hfit (mkRunning p2 Idle [(f, None)])) as [_ HR]; [left|]. rewrite <- Ef. apply (HR f None). left.
Defined.
