(* ===== verification/Machine.v ===== *)
(** The machine below the heap: [Pages] for the models of the frame allocator
    and the page tables, the interface's laws proved of them, and a concrete
    machine on which the heap's theorems are applied. *)
From stdpp Require Import base tactics numbers list sets gmap relations.
From Stdlib Require Import ZArith Lia.
From S2P Require Import Prelude Pmm Pages Heap HeapLists HeapInv HeapGrow HeapOps HeapCheck Cow SwapSlots Vmm VmmInv.

Open Scope Z_scope.

(** The calls [src/mm/heap.c] makes: [pmm_alloc_frame()], [pmm_free_frame(phys)],
    [vmm_map_page(NULL, virt, phys, VMM_PRESENT | VMM_WRITABLE)],
    [vmm_get_phys(NULL, virt)] and [vmm_unmap_page(NULL, virt)]. *)
#[export] Instance vmm_pages : Pages vmm := {
  page_alloc := vmm_alloc_frame;
  page_free a s := vmm_free_frame a s;
  page_map v a s := vmm_map_page s 0 v a (Z.lor VMM_PRESENT VMM_WRITABLE);
  page_phys s v := vmm_get_phys s 0 v;
  page_unmap v s := snd (vmm_unmap_page s 0 v);
  frame_word s a := ram s (a + hhdm s)
}.

(** * The laws *)

Definition machine_ok (s : vmm) : Prop :=
  pmm_wf (frames (owned s)) /\ bitmap (frames (owned s)) <> 0 /\ total_frames (frames (owned s)) <= 0x10000000000.

Definition free_frames (s : vmm) : Z := Z.of_nat (size (abs (frames (owned s)))).

Lemma frame_range_one f : frame_range f 1 = {[f]}.
Proof. apply set_eq. intros g. rewrite elem_of_frame_range, elem_of_singleton. lia. Qed.

Lemma alloc_machine s : machine_ok s ->
  let '(a, s') := vmm_alloc_frame s in
  machine_ok s' /\ free_frames s' = free_frames s - (if a =? 0 then 0 else 1) /\ (a = 0 -> free_frames s = 0) /\ 0 <= a < 0x10000000000000.
Proof.
  intros (Hwf&Hb&Ht). unfold vmm_alloc_frame, alloc_frame, pmm_alloc_frame.
  pose proof (pmm_alloc_frames_spec _ 1 Hwf Hb ltac:(lia)) as HS.
  destruct (pmm_alloc_frames 1 (frames (owned s))) as [a p]. destruct HS as (S1&S2&S3&S4).
  unfold machine_ok, free_frames. cbn. rewrite S2, S3. inversion S4 as [f Hf Hsub E1 E2|Hno E1 E2]; subst a.
  - rewrite frame_range_one in *. assert (f ∈ abs (frames (owned s))) as Hin by set_solver.
    apply elem_of_abs in Hin as Hr. destruct (Z.eqb_spec (f * PAGE_SIZE) 0); [unfold PAGE_SIZE in *; lia|].
    assert (size ({[f]} : gset Z) <= size (abs (frames (owned s))))%nat by by apply subseteq_size.
    rewrite size_difference, size_singleton in * by done. unfold PAGE_SIZE. split_and!; try done; lia.
  - split_and!; try done; [cbn; lia|intros _]. assert (abs (frames (owned s)) = ∅) as ->; [|done].
    apply set_eq. intros f. split; [|set_solver]. intros Hf. destruct (Hno f). rewrite frame_range_one. set_solver.
Qed.

Lemma free_machine s a : machine_ok s -> 0 <= a < 0x10000000000000 ->
  machine_ok (vmm_free_frame a s) /\ free_frames (vmm_free_frame a s) <= free_frames s + 1.
Proof.
  intros (Hwf&Hb&Ht) Ha. unfold vmm_free_frame, free_frame, pmm_free_frame, machine_ok, free_frames. cbn.
  destruct (decide (a = 0)) as [->|Hne]; [cbn; split; [done|lia]|].
  pose proof (pmm_free_frames_spec _ a 1 Hwf Hb ltac:(lia) ltac:(lia) ltac:(unfold PAGE_SIZE; zlia)) as HS. cbn zeta in HS.
  destruct (pmm_free_frames a 1 (frames (owned s))) as [p w]. destruct HS as (S1&S2&S3&S4&_).
  cbn. rewrite S2, S3, S4, frame_range_one. split; [done|].
  set (A := abs (frames (owned s))). set (f := a / PAGE_SIZE).
  assert (size (A ∪ {[f]} ∩ frame_range 1 (total_frames (frames (owned s)) - 1)) <= size (A ∪ {[f]}))%nat
    by (apply subseteq_size; set_solver).
  pose proof (size_union_alt A {[f]}). assert (size ({[f]} ∖ A) <= size ({[f]} : gset Z))%nat by (apply subseteq_size; set_solver).
  rewrite size_singleton in *. lia.
Qed.

(** A step of the page tables: the machine stays in order and no frame is freed. *)
Definition takes_frames (s s' : vmm) : Prop := machine_ok s -> machine_ok s' /\ free_frames s' <= free_frames s.

Lemma takes_frames_trans s1 s2 s3 : takes_frames s1 s2 -> takes_frames s2 s3 -> takes_frames s1 s3.
Proof. intros H1 H2 H. destruct (H1 H) as [Hk ?]. destruct (H2 Hk). split; [done|lia]. Qed.

Lemma takes_frames_ram s m : takes_frames s (set_ram s m).
Proof. intros H. split; [done|]. unfold free_frames. cbn. lia. Qed.

Lemma next_level_takes s t i allocate flags : takes_frames s (snd (get_next_level s t i allocate flags)).
Proof.
  unfold get_next_level. assert (takes_frames s s) as Hid by (intros H; split; [done|lia]).
  destruct (_ && _); [done|]. destruct (_ && _).
  - destruct (has flags VMM_USER); [apply takes_frames_ram|done].
  - destruct allocate; [|done]. cbn [negb]. intros Hok. pose proof (alloc_machine s Hok) as HA.
    destruct (vmm_alloc_frame s) as [f s']. destruct HA as (A1&A2&_). destruct (f =? 0); cbn; [split; [done|lia]|].
    split; [done|]. unfold free_frames in *. cbn. lia.
Qed.

Lemma walk_levels_takes s pml4 virt allocate flags : takes_frames s (snd (walk_levels s pml4 virt allocate flags)).
Proof.
  unfold walk_levels, then_level.
  pose proof (next_level_takes s pml4 (pml4_index virt) allocate flags) as H1.
  destruct (get_next_level s pml4 (pml4_index virt) allocate flags) as [t1 s1]. destruct (t1 =? 0); [done|].
  pose proof (next_level_takes s1 t1 (pdpt_index virt) allocate flags) as H2.
  destruct (get_next_level s1 t1 (pdpt_index virt) allocate flags) as [t2 s2]. destruct (t2 =? 0); [by eapply takes_frames_trans|].
  eapply takes_frames_trans; [eapply takes_frames_trans; [exact H1|exact H2]|]. apply next_level_takes.
Qed.

Lemma map_page_takes s pml4 virt phys flags : takes_frames s (snd (vmm_map_page s pml4 virt phys flags)).
Proof.
  unfold vmm_map_page. pose proof (walk_levels_takes s (or_kernel s pml4) virt true flags) as H.
  destruct (walk_levels s (or_kernel s pml4) virt true flags) as [t s']. destruct (t =? 0); [done|].
  eapply takes_frames_trans; [exact H|apply takes_frames_ram].
Qed.

Lemma unmap_page_owned s pml4 virt : owned (snd (vmm_unmap_page s pml4 virt)) = owned s.
Proof. unfold vmm_unmap_page. rewrite walk_look. by destruct (_ && _). Qed.

Lemma get_phys_range s pml4 virt : 0 <= vmm_get_phys s pml4 virt < 0x10000000000000.
Proof.
  unfold vmm_get_phys. destruct (_ && _); [|lia]. set (e := entry _ _ _).
  assert (Z.land e PTE_ADDR_MASK = Z.land (Z.land e PTE_ADDR_MASK) (Z.ones 52)) as ->.
  { rewrite <- Z.land_assoc. reflexivity. }
  rewrite Z.land_ones by lia. change (2 ^ 52) with 0x10000000000000. apply Z.mod_pos_bound. lia.
Qed.

#[export] Instance vmm_pages_laws : PagesLaws vmm.
Proof.
  refine {| pages_ok := machine_ok; frames_left := free_frames |}.
  - intros s _. unfold free_frames. lia.
  - intros s Hs. pose proof (alloc_machine s Hs). cbn. destruct (vmm_alloc_frame s) as [a s']. tauto.
  - intros s Hs. pose proof (alloc_machine s Hs). cbn. destruct (vmm_alloc_frame s) as [a s']. tauto.
  - intros s Hs. pose proof (alloc_machine s Hs). cbn. destruct (vmm_alloc_frame s) as [a s']. tauto.
  - intros s Hs. pose proof (alloc_machine s Hs). cbn. destruct (vmm_alloc_frame s) as [a s']. tauto.
  - intros s v. apply get_phys_range.
  - intros s a Hs Ha. by apply free_machine.
  - intros s a Hs Ha. by apply free_machine.
  - intros s v a Hs. by apply map_page_takes.
  - intros s v a Hs. by apply map_page_takes.
  - intros s v Hs. cbn. unfold machine_ok. by rewrite unmap_page_owned.
  - intros s v Hs. cbn. unfold free_frames. by rewrite unmap_page_owned.
Defined.

(** * A concrete machine *)

(** Two megabytes of memory, with the sharing table and an empty kernel top
    table, before the heap is set up. *)
Definition machine_map : list limine_memmap_entry := [mkEntry 0 0x200000 0].
Definition machine_pmm : pmm := pmm_init machine_map 0xFFFF800000000000 pmm_static.
Definition machine_cow : cow := default (mkCow machine_pmm None 0) (cow_init (mkCow machine_pmm None 0)).
Definition machine : vmm :=
  let '(root, c) := alloc_frame machine_cow in
  mkVmm c slots_static (fun _ => 0) (root + 0xFFFF800000000000) DEVICE_REGION_BASE.

Lemma free_frames_total s : machine_ok s -> free_frames s <= total_frames (frames (owned s)).
Proof.
  intros (Hwf&_). pose proof (ct_total _ (wf_counted _ Hwf)). unfold free_frames.
  assert (abs (frames (owned s)) ⊆ frame_range 0 (total_frames (frames (owned s)))) as Hsub.
  { intros f Hf%elem_of_abs. apply elem_of_frame_range. lia. }
  apply subseteq_size in Hsub. unfold frame_range in Hsub.
  rewrite size_list_to_set, length_seqZ in Hsub by apply NoDup_seqZ. lia.
Qed.

Lemma machine_is_ok : machine_ok machine.
Proof.
  destruct (pmm_init_spec machine_map 0xFFFF800000000000) as (A&B&_); [repeat constructor; done|vm_compute; discriminate|].
  assert (cow_ok machine_cow) as Hc.
  { apply (cow_init_ok (mkCow machine_pmm None 0)); [exact A|exact B|vm_compute; reflexivity|vm_compute; reflexivity]. }
  pose proof (alloc_frame_spec machine_cow Hc) as HA. unfold machine.
  assert (total_frames (frames machine_cow) = 512) as HT by (vm_compute; reflexivity).
  destruct (alloc_frame machine_cow) as [root c]. destruct HA as (Hc'&Ht&_). unfold machine_ok. cbn [owned].
  split; [apply (co_wf _ Hc')|]. split; [apply (co_bitmap _ Hc')|]. rewrite Ht, HT. lia.
Qed.

Lemma machine_frames : frames_left machine <= 512.
Proof. etransitivity; [apply free_frames_total, machine_is_ok|]. vm_compute. discriminate. Qed.

(** The heap on that machine. *)
Notation machine_heap := (kheap_init (heap_static machine)).
Definition machine_blocks : list blk := [Blk KHEAP_START_VIRT KHEAP_INITIAL_SIZE true].

Lemma machine_heap_starts : first_block (kheap_init (heap_static machine)) <> 0.
Proof. vm_compute. discriminate. Qed.

Lemma machine_heap_ok : heap_ok 512 machine_heap machine_blocks /\ poison_damage machine_heap = 0.
Proof.
  destruct (kheap_init_spec (H0 := vmm_pages_laws) 512 machine machine_is_ok machine_frames) as [H|H]; [unfold PAGE_SIZE, KHEAP_START_VIRT; lia| |exact H].
  exfalso. exact (machine_heap_starts H).
Qed.

(** After one allocation of 100 bytes. *)
Notation busy_heap := (snd (kmalloc machine_heap 100)).
Definition busy_ptr : Z := KHEAP_START_VIRT + HEADER.

Lemma busy_result : fst (kmalloc machine_heap 100) = Kmalloc_ptr busy_ptr.
Proof. vm_compute. reflexivity. Qed.

Lemma one_kmalloc_step (h : heap vmm) size p :
  0 <= size < 0x10000000000000000 -> fst (kmalloc h size) = Kmalloc_ptr p -> (p =? 0) = false ->
  heap_step (h, []) (snd (kmalloc h size), [(p, size)]).
Proof.
  intros Hs E Hp. pose proof (step_kmalloc h [] size p (snd (kmalloc h size)) Hs) as S.
  rewrite <- E, Hp in S. apply S, surjective_pairing.
Qed.

Lemma busy_step : heap_step (machine_heap, []) (busy_heap, [(busy_ptr, 100)]).
Proof. apply one_kmalloc_step; [lia|exact busy_result|vm_compute; reflexivity]. Qed.

Lemma busy_heap_ok : exists bs u, heap_ok 512 busy_heap bs /\ u ∈ used bs /\ ba u + HEADER = busy_ptr.
Proof.
  pose proof (kmalloc_spec 512 machine_heap machine_blocks 100 (proj1 machine_heap_ok) ltac:(lia)) as H.
  pose proof busy_result as E. destruct (kmalloc machine_heap 100) as [r h']. cbn [fst snd] in *. subst r.
  destruct H as (bs&Hok&_&_&H). assert ((busy_ptr =? 0) = false) as Hz by (vm_compute; reflexivity). rewrite Hz in H.
  destruct H as (sz&Hu&_). exists bs, (Blk (busy_ptr - HEADER) sz false). split; [exact Hok|]. split; [rewrite Hu; left|]. cbn [ba]. lia.
Qed.

Lemma kmalloc_correct_witness : exists bs b, heap_ok 512 busy_heap bs /\ b ∈ used bs /\ ba b + HEADER = busy_ptr /\ 100 <= bsz b - HEADER.
Proof.
  pose proof (kmalloc_correct 512 machine_heap machine_blocks 100 (proj1 machine_heap_ok) ltac:(lia)) as H.
  pose proof busy_result as E. destruct (kmalloc machine_heap 100) as [r h']. cbn [fst snd] in *. subst r.
  destruct H as (bs&Hok&_&_&H). assert ((busy_ptr =? 0) = false) as Hz by (vm_compute; reflexivity). rewrite Hz in H.
  destruct H as (b&Hu&Hb&_&Hsz&_). exists bs, b. split; [exact Hok|]. split; [rewrite Hu; left|]. split; [exact Hb|exact Hsz].
Defined.

Lemma kfree_correct_witness : exists bs, heap_ok 512 (fst (kfree busy_heap busy_ptr)) bs.
Proof.
  destruct busy_heap_ok as (bs&u&Hok&Hu&Hp). pose proof (kfree_correct 512 busy_heap bs u Hok Hu) as H. rewrite Hp in H.
  destruct (kfree busy_heap busy_ptr) as [h' tw]. destruct H as (_&bs'&Hok'&_). exists bs'. exact Hok'.
Defined.

Lemma kfree_twice_witness :
  kfree (fst (kfree busy_heap busy_ptr)) busy_ptr = (fst (kfree busy_heap busy_ptr), true).
Proof.
  destruct busy_heap_ok as (bs&u&Hok&Hu&Hp). pose proof (kfree_twice 512 busy_heap bs u Hok Hu) as H. rewrite Hp in H.
  apply H. assert (ba u = KHEAP_START_VIRT) as -> by (unfold busy_ptr in Hp; lia). vm_compute. reflexivity.
Defined.

Lemma heap_client_safe_witness : kheap_check busy_heap = true /\ poison_damage busy_heap = 0.
Proof.
  destruct (heap_client_safe (H0 := vmm_pages_laws) 512 machine busy_heap [(busy_ptr, 100)]) as (A&B&_).
  - exact machine_is_ok.
  - exact machine_frames.
  - unfold PAGE_SIZE, KHEAP_START_VIRT. lia.
  - exact machine_heap_starts.
  - apply rtc_once. exact busy_step.
  - split; [exact A|exact B].
Defined.
