(* ===== verification/IpFrag.v ===== *)
(** Reassembly of IPv4 fragments, [src/net/ipfrag.c] and [src/net/ipfrag.h].

    One call of [ipfrag_input] or [ipfrag_expire] is one step: the table is only
    touched under [frag_lock]. A piece is its offset and its bytes; the lists
    linked through [next] are lists here. Memory comes from [kmalloc]: whether a
    call finds memory is an argument of the step, and what is given back with
    [kfree] is part of its result. *)
From stdpp Require Import base tactics numbers list sorting relations.
From Stdlib Require Import ZArith Lia.
From S2P Require Import Prelude.

Open Scope Z_scope.

Definition TIMER_HZ : Z := 100.
Definition IPV4_PAYLOAD_MAX : Z := 65515.
Definition IPFRAG_SLOTS : nat := 8.
Definition IPFRAG_MEMORY : Z := 256 * 1024.
Definition IPFRAG_PIECE_OVERHEAD : Z := 32.
Definition IPFRAG_TIMEOUT_TICKS : Z := 30 * TIMER_HZ.

Record piece_t := mkPiece { offset : Z; data : list Z }.
Definition len (p : piece_t) : Z := Z.of_nat (length (data p)).

(** [quote] holds the first [quote_len] bytes of the array of that name. *)
Record reassembly_t := mkSlot {
  used : bool;
  src : Z; dst : Z; id : Z; protocol : Z;
  pieces : list piece_t;
  received : Z;
  total : Z;
  cost : Z;
  deadline : Z;
  quote : list Z
}.
Definition empty_slot : reassembly_t := mkSlot false 0 0 0 0 [] 0 0 0 0 [].

Record ipfrag_stats_t := mkStats {
  fragments : Z; reassembled : Z; duplicates : Z; refused : Z; timeouts : Z; evicted : Z
}.

Record ipfrag := mkIpfrag {
  slots : list reassembly_t;
  memory_used : Z;
  stats : ipfrag_stats_t;
  timeout_ticks : Z
}.
Definition ipfrag_static : ipfrag :=
  mkIpfrag (replicate IPFRAG_SLOTS empty_slot) 0 (mkStats 0 0 0 0 0 0) IPFRAG_TIMEOUT_TICKS.

Definition ipfrag_test_timeout (ticks : Z) (s : ipfrag) : ipfrag :=
  mkIpfrag (slots s) (memory_used s) (stats s) (if ticks =? 0 then IPFRAG_TIMEOUT_TICKS else ticks).

Definition with_slot (s : ipfrag) (i : nat) (r : reassembly_t) (m : Z) : ipfrag :=
  mkIpfrag (<[i := r]> (slots s)) m (stats s) (timeout_ticks s).
Definition with_stats (s : ipfrag) (f : ipfrag_stats_t -> ipfrag_stats_t) : ipfrag :=
  mkIpfrag (slots s) (memory_used s) (f (stats s)) (timeout_ticks s).
Definition slot (s : ipfrag) (i : nat) : reassembly_t := nth i (slots s) empty_slot.

(** [stats.fragments++] and so on. *)
Definition inc_fragments (c : ipfrag_stats_t) := mkStats (u64 (fragments c + 1)) (reassembled c) (duplicates c) (refused c) (timeouts c) (evicted c).
Definition inc_reassembled (c : ipfrag_stats_t) := mkStats (fragments c) (u64 (reassembled c + 1)) (duplicates c) (refused c) (timeouts c) (evicted c).
Definition inc_duplicates (c : ipfrag_stats_t) := mkStats (fragments c) (reassembled c) (u64 (duplicates c + 1)) (refused c) (timeouts c) (evicted c).
Definition inc_refused (c : ipfrag_stats_t) := mkStats (fragments c) (reassembled c) (duplicates c) (u64 (refused c + 1)) (timeouts c) (evicted c).
Definition inc_timeouts (c : ipfrag_stats_t) := mkStats (fragments c) (reassembled c) (duplicates c) (refused c) (u64 (timeouts c + 1)) (evicted c).
Definition inc_evicted (c : ipfrag_stats_t) := mkStats (fragments c) (reassembled c) (duplicates c) (refused c) (timeouts c) (u64 (evicted c + 1)).

(** The pieces go to the front of [garbage], one by one. *)
Definition release (s : ipfrag) (i : nat) (garbage : list piece_t) : ipfrag * list piece_t :=
  (with_slot s i empty_slot (u64 (memory_used s - cost (slot s i))), rev (pieces (slot s i)) ++ garbage).

(** The first slot of which [P] holds. *)
Fixpoint find_slot (P : reassembly_t -> bool) (l : list reassembly_t) (i : nat) : option nat :=
  match l with
  | [] => None
  | r :: l' => if P r then Some i else find_slot P l' (S i)
  end.

Fixpoint oldest_loop (keep : option nat) (l : list reassembly_t) (i : nat) (oldest : option (nat * Z)) : option nat :=
  match l with
  | [] => fst <$> oldest
  | r :: l' =>
      let better := match oldest with None => true | Some (_, d) => deadline r <? d end in
      oldest_loop keep l' (S i)
        (if used r && negb (bool_decide (keep = Some i)) && better then Some (i, deadline r) else oldest)
  end.
Definition oldest_except (s : ipfrag) (keep : option nat) : option nat := oldest_loop keep (slots s) 0 None.

(** [memcpy(whole + offset, data, len)] for each piece; [whole] is what
    [kmalloc] returned. *)
Definition splice (buf : list Z) (p : piece_t) : list Z :=
  take (Z.to_nat (offset p)) buf ++ data p ++ drop (Z.to_nat (offset p) + length (data p)) buf.
Definition assemble (whole : list Z) (l : list piece_t) : list Z := fold_left splice l whole.

(** The arguments that describe the fragment. *)
Record fragment := mkFragment {
  f_src : Z; f_dst : Z; f_protocol : Z; f_id : Z;
  f_offset : Z; f_more : bool; f_header : list Z; f_data : list Z
}.
Definition f_len (f : fragment) : Z := Z.of_nat (length (f_data f)).
Definition f_end (f : fragment) : Z := u64 (f_offset f + f_len f).

Definition same_datagram (f : fragment) (r : reassembly_t) : bool :=
  used r && (src r =? f_src f) && (dst r =? f_dst f) && (protocol r =? f_protocol f) && (id r =? f_id f).

Definition malformed (f : fragment) : bool :=
  (f_more f && ((f_len f =? 0) || negb (f_len f mod 8 =? 0))) || (IPV4_PAYLOAD_MAX <? f_end f).

(** The slot for a datagram that begins: a free one, or that of the oldest. *)
Definition new_slot (f : fragment) (now : Z) (s : ipfrag) : nat * ipfrag * list piece_t :=
  let '(i, s, garbage) :=
    match find_slot (fun r => negb (used r)) (slots s) 0 with
    | Some i => (i, s, [])
    | None =>
        let i := default 0%nat (oldest_except s None) in
        let '(s, garbage) := release s i [] in
        (i, with_stats s inc_evicted, garbage)
    end in
  let r := slot s i in
  let r := mkSlot true (f_src f) (f_dst f) (f_id f) (f_protocol f) (pieces r) (received r) (total r) (cost r)
                  (u64 (now + timeout_ticks s)) (quote r) in
  (i, with_slot s i r (memory_used s), garbage).

(** The gap the piece goes into: what lies before its offset, and the rest. *)
Fixpoint find_gap (l : list piece_t) (off : Z) : list piece_t * list piece_t :=
  match l with
  | [] => ([], [])
  | p :: l' => if offset p <? off then let '(a, b) := find_gap l' off in (p :: a, b) else ([], l)
  end.

Definition is_duplicate (f : fragment) (r : reassembly_t) (next : list piece_t) : bool :=
  match next with
  | [] => false
  | n :: _ => (offset n =? f_offset f) && (len n =? f_len f) && (f_more f || (total r =? f_end f))
  end.

Definition overlaps (f : fragment) (prev next : list piece_t) : bool :=
  match last prev with None => false | Some p => f_offset f <? u32 (offset p + len p) end ||
  match next with [] => false | n :: _ => offset n <? f_end f end.

Definition contradicts (f : fragment) (r : reassembly_t) (next : list piece_t) : bool :=
  (negb (total r =? 0) && (total r <? f_end f)) ||
  (negb (f_more f) && negb (total r =? 0) && negb (f_end f =? total r)) ||
  (negb (f_more f) && (total r =? 0) && existsb (fun p => f_end f <? u32 (offset p + len p)) next).

(** The loop that makes room; [None] if there is nobody left to give up. Every
    round empties a slot, so there are at most [IPFRAG_SLOTS]. *)
Fixpoint make_room (n : nat) (need : Z) (i : nat) (s : ipfrag) (garbage : list piece_t) : bool * ipfrag * list piece_t :=
  if IPFRAG_MEMORY <? u64 (memory_used s + need) then
    match n, oldest_except s (Some i) with
    | S n', Some victim =>
        let '(s, garbage) := release s victim garbage in make_room n' need i (with_stats s inc_evicted) garbage
    | _, _ => (false, s, garbage)
    end
  else (true, s, garbage).

(** The piece becomes part of slot [i]. *)
Definition inserted (f : fragment) (prev next : list piece_t) (r : reassembly_t) : reassembly_t :=
  let q := if f_offset f =? 0
           then <[0%nat := 0x45]> (take 20 (f_header f)) ++ take (if f_len f <? 8 then Z.to_nat (f_len f) else 8) (f_data f)
           else quote r in
  mkSlot (used r) (src r) (dst r) (id r) (protocol r) (prev ++ mkPiece (u32 (f_offset f)) (f_data f) :: next)
    (u64 (received r + f_len f)) (if f_more f then total r else f_end f)
    (u64 (cost r + u64 (IPFRAG_PIECE_OVERHEAD + f_len f))) (deadline r) q.
Definition insert_piece (f : fragment) (prev next : list piece_t) (i : nat) (s : ipfrag) : ipfrag :=
  with_slot s i (inserted f prev next (slot s i)) (u64 (memory_used s + u64 (IPFRAG_PIECE_OVERHEAD + f_len f))).

(** What a call has done: the datagram if it is complete, whether one began,
    and the pieces freed. *)
Record outcome := mkOutcome { state : ipfrag; datagram : option (list Z); started : bool; freed : list piece_t }.

(** The end of the call, once the datagram in slot [i] is complete; [whole] is
    the fresh memory for it, if there is any. *)
Definition complete (whole : option (nat -> Z)) (i : nat) (began : bool) (garbage : list piece_t) (s : ipfrag) : outcome :=
  let r := slot s i in
  let s := with_slot s i empty_slot (u64 (memory_used s - cost r)) in
  match whole with
  | None => mkOutcome (with_stats s inc_refused) None began (garbage ++ pieces r)
  | Some fresh =>
      mkOutcome (with_stats s inc_reassembled)
        (Some (assemble (fresh <$> seq 0 (Z.to_nat (total r))) (pieces r))) began (garbage ++ pieces r)
  end.

(** The call once the datagram's slot [i] is chosen: from the search of the gap on. *)
Definition place_fragment (whole : option (nat -> Z)) (f : fragment) (i : nat) (began : bool) (garbage : list piece_t) (s : ipfrag) : outcome :=
  let piece := mkPiece (u32 (f_offset f)) (f_data f) in
  let '(prev, next) := find_gap (pieces (slot s i)) (f_offset f) in
  if is_duplicate f (slot s i) next then
    mkOutcome (with_stats s inc_duplicates) None began (piece :: garbage)
  else if overlaps f prev next || contradicts f (slot s i) next then
    let '(s, garbage) := release (with_stats s inc_refused) i garbage in
    mkOutcome s None began (piece :: garbage)
  else
    let '(room, s, garbage) := make_room IPFRAG_SLOTS (u64 (IPFRAG_PIECE_OVERHEAD + f_len f)) i s garbage in
    if negb room then
      let '(s, garbage) := release (with_stats s inc_refused) i garbage in
      mkOutcome s None began (piece :: garbage)
    else
      let s := insert_piece f prev next i s in
      let r := slot s i in
      if negb (total r =? 0) && (received r =? total r) then complete whole i began garbage s
      else mkOutcome s None began garbage.

Definition ipfrag_input (got_piece : bool) (whole : option (nat -> Z)) (f : fragment) (now : Z) (s : ipfrag) : outcome :=
  let s := with_stats s inc_fragments in
  let found := find_slot (same_datagram f) (slots s) 0 in
  if malformed f then
    let s := with_stats s inc_refused in
    match found with
    | Some i => let '(s, garbage) := release s i [] in mkOutcome s None false garbage
    | None => mkOutcome s None false []
    end
  else if negb got_piece then mkOutcome s None false []
  else
    match found with
    | Some i => place_fragment whole f i false [] s
    | None => let '(i, s, garbage) := new_slot f now s in place_fragment whole f i true garbage s
    end.

(** One slot of [ipfrag_expire]: the state, the pieces freed, the quotes to
    report and the next deadline so far (0: none). *)
Definition expire_slot (now : Z) (c : ipfrag * list piece_t * list (list Z) * Z) (i : nat) : ipfrag * list piece_t * list (list Z) * Z :=
  let '(s, garbage, quotes, next) := c in
  let r := slot s i in
  if negb (used r) then c
  else if deadline r <=? now then
    let quotes := if 0 <? Z.of_nat (length (quote r)) then quotes ++ [quote r] else quotes in
    let '(s, garbage) := release s i garbage in
    (with_stats s inc_timeouts, garbage, quotes, next)
  else (s, garbage, quotes, if (next =? 0) || (deadline r <? next) then deadline r else next).

Definition ipfrag_expire (now : Z) (s : ipfrag) : ipfrag * list piece_t * list (list Z) * Z :=
  fold_left (expire_slot now) (seq 0 IPFRAG_SLOTS) (s, [], [], 0).

(** * Invariant *)

Definition piece_end (p : piece_t) : Z := offset p + len p.
Definition follows (p q : piece_t) : Prop := piece_end p <= offset q.
Definition piece_ok (p : piece_t) : Prop := 0 <= offset p /\ piece_end p <= IPV4_PAYLOAD_MAX.

Fixpoint lens (l : list piece_t) : Z := match l with [] => 0 | p :: l' => len p + lens l' end.
Fixpoint costs (l : list piece_t) : Z := match l with [] => 0 | p :: l' => IPFRAG_PIECE_OVERHEAD + len p + costs l' end.

(** A datagram in progress: its pieces are in order and apart, the counters are
    those of the pieces, and it is not complete. *)
Record slot_ok (r : reassembly_t) : Prop := {
  so_apart : ForallOrdPairs follows (pieces r);
  so_pieces : Forall piece_ok (pieces r);
  so_received : received r = lens (pieces r);
  so_cost : cost r = costs (pieces r);
  so_total : 0 <= total r <= IPV4_PAYLOAD_MAX;
  so_end : total r <> 0 -> Forall (fun p => piece_end p <= total r) (pieces r);
  so_open : total r <> 0 -> received r < total r;
  so_unused : used r = false -> r = empty_slot
}.

(** The fragments that the pieces and the length come from. *)
Definition of_datagram (r : reassembly_t) (f : fragment) : Prop :=
  f_src f = src r /\ f_dst f = dst r /\ f_protocol f = protocol r /\ f_id f = id r.
Definition slot_from (H : list fragment) (r : reassembly_t) : Prop :=
  Forall (fun p => exists f, f ∈ H /\ of_datagram r f /\ f_offset f = offset p /\ f_data f = data p) (pieces r) /\
  (total r <> 0 -> exists f, f ∈ H /\ of_datagram r f /\ f_more f = false /\ f_offset f + f_len f = total r).

Definition held (l : list reassembly_t) : list piece_t := concat (pieces <$> l).
Fixpoint slot_costs (l : list reassembly_t) : Z := match l with [] => 0 | r :: l' => cost r + slot_costs l' end.

(** [H] are the fragments taken in so far, [L] the pieces ever allocated and
    not yet freed, [garbage] those about to be freed. *)
Record ipfrag_inv (H : list fragment) (L : list piece_t) (s : ipfrag) (garbage : list piece_t) : Prop := {
  fi_slots : length (slots s) = IPFRAG_SLOTS;
  fi_ok : Forall slot_ok (slots s);
  fi_memory : memory_used s = slot_costs (slots s);
  fi_bound : memory_used s <= IPFRAG_MEMORY;
  fi_from : Forall (slot_from H) (slots s);
  fi_held : held (slots s) ++ garbage ≡ₚ L
}.

Lemma len_nonneg p : 0 <= len p.
Proof. unfold len. lia. Qed.
Lemma lens_nonneg l : 0 <= lens l.
Proof. induction l as [|p l IH]; cbn; [lia|]. pose proof (len_nonneg p). lia. Qed.
Lemma costs_bound l : lens l <= costs l.
Proof. induction l as [|p l IH]; cbn; [lia|]. unfold IPFRAG_PIECE_OVERHEAD. lia. Qed.
Lemma lens_app a b : lens (a ++ b) = lens a + lens b.
Proof. induction a as [|p a IH]; cbn; [lia|]. lia. Qed.
Lemma costs_app a b : costs (a ++ b) = costs a + costs b.
Proof. induction a as [|p a IH]; cbn; [lia|]. lia. Qed.
#[global] Instance lens_perm : Proper ((≡ₚ) ==> (=)) lens.
Proof. induction 1; cbn; lia. Qed.
#[global] Instance costs_perm : Proper ((≡ₚ) ==> (=)) costs.
Proof. induction 1; cbn; lia. Qed.
Lemma slot_costs_app a b : slot_costs (a ++ b) = slot_costs a + slot_costs b.
Proof. induction a as [|p a IH]; cbn; [lia|]. lia. Qed.
Lemma held_app a b : held (a ++ b) = held a ++ held b.
Proof. unfold held. by rewrite fmap_app, concat_app. Qed.
Lemma held_cons r l : held (r :: l) = pieces r ++ held l.
Proof. done. Qed.

(** Pieces that are apart fit between their bounds. *)
Lemma lens_fit l : forall a b, a <= b -> ForallOrdPairs follows l -> Forall (fun p => a <= offset p /\ piece_end p <= b) l -> lens l <= b - a.
Proof.
  induction l as [|p l IH]; intros a b Hab Hap Hin; cbn; [lia|].
  inversion_clear Hap as [|?? Hp Hl]. inversion_clear Hin as [|?? [Hp1 Hp2] Hl'].
  assert (lens l <= b - piece_end p); [|unfold piece_end in *; lia].
  apply IH; [done|done|]. rewrite Forall_forall in Hp, Hl' |- *. intros q Hq.
  specialize (Hp q Hq). destruct (Hl' q Hq). done.
Qed.

Lemma slot_costs_nonneg l : Forall slot_ok l -> 0 <= slot_costs l.
Proof.
  induction 1 as [|r l Hr _ IH]; cbn; [lia|]. rewrite (so_cost r Hr).
  pose proof (costs_bound (pieces r)). pose proof (lens_nonneg (pieces r)). lia.
Qed.

Lemma empty_slot_ok : slot_ok empty_slot.
Proof. split; cbn; try done; try constructor; lia. Qed.
Lemma empty_slot_from H : slot_from H empty_slot.
Proof. split; [constructor|done]. Qed.

Section Steps.
Context (H : list fragment).
Implicit Types (L g x : list piece_t) (s : ipfrag).

Lemma slot_split L s g i : ipfrag_inv H L s g -> (i < IPFRAG_SLOTS)%nat ->
  exists l1 l2, slots s = l1 ++ slot s i :: l2 /\ length l1 = i /\ forall r m, slots (with_slot s i r m) = l1 ++ r :: l2.
Proof.
  intros Hi Hlt. pose proof (fi_slots _ _ _ _ Hi) as Hl.
  destruct (lookup_lt_is_Some_2 (slots s) i) as [r Hr]; [lia|].
  exists (take i (slots s)), (drop (S i) (slots s)). unfold slot. rewrite nth_lookup, Hr. cbn.
  split; [by rewrite take_drop_middle|]. split; [rewrite length_take; lia|].
  intros r' m. cbn. rewrite insert_take_drop by lia. done.
Qed.

Lemma inv_slot L s g i : ipfrag_inv H L s g -> (i < IPFRAG_SLOTS)%nat ->
  slot_ok (slot s i) /\ slot_from H (slot s i) /\ 0 <= cost (slot s i) <= memory_used s.
Proof.
  intros Hi Hlt. destruct (slot_split L s g i Hi Hlt) as (l1&l2&E&_). destruct Hi as [_ Hok Hm _ Hf _].
  rewrite E in Hok, Hf, Hm. apply Forall_app in Hok as [O1 O2], Hf as [_ F2]. inversion_clear O2 as [|?? O3 O4]. inversion_clear F2.
  split; [done|]. split; [done|]. rewrite slot_costs_app in Hm. cbn in Hm.
  pose proof (slot_costs_nonneg l1 O1). pose proof (slot_costs_nonneg l2 O4).
  rewrite (so_cost _ O3) in *. pose proof (costs_bound (pieces (slot s i))). pose proof (lens_nonneg (pieces (slot s i))). lia.
Qed.

(** One slot changes: the pieces [x] are new, those that left it are garbage. *)
Lemma inv_update L s g i r m g' x :
  ipfrag_inv H L s g -> (i < IPFRAG_SLOTS)%nat -> slot_ok r -> slot_from H r ->
  m = memory_used s - cost (slot s i) + cost r -> m <= IPFRAG_MEMORY ->
  pieces r ++ g' ≡ₚ pieces (slot s i) ++ g ++ x ->
  ipfrag_inv H (L ++ x) (with_slot s i r m) g'.
Proof.
  intros Hi Hlt Hok Hfrom Hm Hb Hp. destruct (slot_split L s g i Hi Hlt) as (l1&l2&E&Hl&Hs).
  destruct Hi as [I1 I2 I3 I4 I5 I6]. rewrite E in *. apply Forall_app in I2 as [O1 O2], I5 as [F1 F2].
  inversion_clear O2. inversion_clear F2. split; rewrite ?Hs.
  - rewrite <- I1, !length_app. done.
  - apply Forall_app. split; [done|]. by constructor.
  - rewrite slot_costs_app in *. cbn in *. lia.
  - done.
  - apply Forall_app. split; [done|]. by constructor.
  - rewrite <- I6, !held_app, !held_cons. rewrite <- !(assoc_L (++)). f_equiv.
    rewrite (Permutation_app_comm (held l2) g'), (assoc_L (++)), Hp. solve_Permutation.
Qed.

Lemma inv_stats L s g c : ipfrag_inv H L s g -> ipfrag_inv H L (with_stats s c) g.
Proof. intros []. by split. Qed.

Lemma inv_release L s g i : ipfrag_inv H L s g -> (i < IPFRAG_SLOTS)%nat ->
  ipfrag_inv H L (fst (release s i g)) (snd (release s i g)).
Proof.
  intros Hi Hlt. destruct (inv_slot L s g i Hi Hlt) as (_&_&Hc). pose proof (fi_bound _ _ _ _ Hi). unfold IPFRAG_MEMORY in *.
  rewrite <- (app_nil_r L). cbn [release fst snd].
  eapply inv_update; [exact Hi|done|apply empty_slot_ok|apply empty_slot_from| |unfold IPFRAG_MEMORY|].
  - rewrite u64_small by lia. cbn. lia.
  - rewrite u64_small by lia. lia.
  - rewrite app_nil_r. cbn. f_equiv. symmetry. apply Permutation_rev.
Qed.
End Steps.

(** * Searching *)

Lemma find_slot_spec P l : forall i,
  match find_slot P l i with
  | Some k => exists r, l !! (k - i)%nat = Some r /\ (i <= k)%nat /\ P r = true /\
                (forall j r', l !! j = Some r' -> (j < k - i)%nat -> P r' = false)
  | None => Forall (fun r => P r = false) l
  end.
Proof.
  induction l as [|r l IH]; intros i; cbn; [done|]. destruct (P r) eqn:E.
  - exists r. rewrite Nat.sub_diag. split_and!; try done. lia.
  - specialize (IH (S i)). destruct (find_slot P l (S i)) as [k|]; [|by constructor].
    destruct IH as (r'&Hr'&Hk&HP&Hbefore). exists r'. replace (k - i)%nat with (S (k - S i)) by lia. cbn.
    split_and!; try done; [lia|]. intros [|j] r'' Hj Hlt; [by injection Hj as <-|]. eapply Hbefore; [exact Hj|lia].
Qed.

Lemma slot_lookup s i r : slots s !! i = Some r -> slot s i = r.
Proof. intros E. unfold slot. by rewrite nth_lookup, E. Qed.

Lemma find_slot_in P s k : find_slot P (slots s) 0 = Some k -> (k < length (slots s))%nat /\ P (slot s k) = true.
Proof.
  intros E. pose proof (find_slot_spec P (slots s) 0) as HS. rewrite E in HS. destruct HS as (r&Hr&_&HP&_).
  rewrite Nat.sub_0_r in Hr. rewrite (slot_lookup _ _ _ Hr). split; [by eapply lookup_lt_Some|done].
Qed.

Lemma oldest_loop_spec keep l : forall i best,
  match oldest_loop keep l i best with
  | Some k => (exists d, best = Some (k, d)) \/
      exists r, l !! (k - i)%nat = Some r /\ (i <= k)%nat /\ used r = true /\ keep <> Some k
  | None => best = None /\ forall j r, l !! j = Some r -> used r = true -> keep = Some (i + j)%nat
  end.
Proof.
  induction l as [|r l IH]; intros i best; cbn.
  - destruct best as [[k d]|]; cbn; [left; by exists d|]. split; [done|]. by intros.
  - set (b := _ && _ && _). specialize (IH (S i) (if b then Some (i, deadline r) else best)).
    assert (b = true -> used r = true /\ keep <> Some i) as Hb.
    { unfold b. intros [[Hu Hk]%andb_true_iff _]%andb_true_iff. split; [done|]. apply negb_true_iff in Hk. by apply bool_decide_eq_false in Hk. }
    destruct (oldest_loop keep l (S i) _) as [k|].
    + destruct IH as [[d Hd]|(r'&Hr'&Hle&Hu&Hk)].
      * destruct b; [|left; by exists d]. injection Hd as <- _. right. exists r. rewrite Nat.sub_diag. destruct (Hb eq_refl). done.
      * right. exists r'. replace (k - i)%nat with (S (k - S i)) by lia. split_and!; try done. lia.
    + destruct IH as [Hn Hall]. destruct b eqn:Eb; [done|]. split; [done|]. subst best. unfold b in Eb. rewrite andb_true_r in Eb.
      intros [|j] r' Hj Hu; [|rewrite (Hall j r' Hj Hu); f_equal; lia]. injection Hj as ->. rewrite Hu in Eb. cbn in Eb.
      apply negb_false_iff, bool_decide_eq_true in Eb. rewrite Eb. f_equal. lia.
Qed.

Lemma oldest_except_spec s keep :
  match oldest_except s keep with
  | Some k => (k < length (slots s))%nat /\ used (slot s k) = true /\ keep <> Some k
  | None => forall j, (j < length (slots s))%nat -> used (slot s j) = true -> keep = Some j
  end.
Proof.
  unfold oldest_except. pose proof (oldest_loop_spec keep (slots s) 0 None) as HS.
  destruct (oldest_loop keep (slots s) 0 None) as [k|].
  - destruct HS as [[d Hd]|(r&Hr&_&Hu&Hk)]; [done|]. rewrite Nat.sub_0_r in Hr. rewrite (slot_lookup _ _ _ Hr).
    split; [by eapply lookup_lt_Some|done].
  - destruct HS as [_ HS]. intros j Hj Hu. destruct (lookup_lt_is_Some_2 (slots s) j Hj) as [r Hr].
    rewrite (slot_lookup _ _ _ Hr) in Hu. by apply (HS j r Hr).
Qed.

Lemma find_gap_spec l off : forall a b, find_gap l off = (a, b) ->
  l = a ++ b /\ Forall (fun p => offset p < off) a /\ match b with [] => True | n :: _ => off <= offset n end.
Proof.
  induction l as [|p l IH]; intros a b E; cbn in E; [by injection E as <- <-|].
  destruct (Z.ltb_spec (offset p) off).
  - destruct (find_gap l off) as [a' b']. injection E as <- <-. destruct (IH a' b' eq_refl) as (->&Ha&Hb).
    split_and!; [done|by constructor|done].
  - injection E as <- <-. split_and!; [done|constructor|done].
Qed.

(** ** Slots after an update *)

Lemma slot_with s i r m : (i < length (slots s))%nat -> slot (with_slot s i r m) i = r.
Proof. intros Hi. unfold slot. cbn. rewrite nth_lookup, list_lookup_insert_eq by done. done. Qed.
Lemma slot_with_ne s i j r m : i <> j -> slot (with_slot s i r m) j = slot s j.
Proof. intros Hi. unfold slot. cbn. rewrite !nth_lookup, list_lookup_insert_ne by done. done. Qed.

Lemma with_slot_twice s i r m r' m' : with_slot (with_slot s i r m) i r' m' = with_slot s i r' m'.
Proof. unfold with_slot. cbn. by rewrite list_insert_insert_eq. Qed.

(** ** Making room *)

Definition used_slots (l : list reassembly_t) : nat := length (filter (fun r => used r = true) l).

Lemma used_slots_release s i :
  (i < length (slots s))%nat -> used (slot s i) = true -> used_slots (slots (fst (release s i []))) = (used_slots (slots s) - 1)%nat /\ (1 <= used_slots (slots s))%nat.
Proof.
  intros Hi Hu. destruct (lookup_lt_is_Some_2 (slots s) i Hi) as [r Hr].
  rewrite (slot_lookup _ _ _ Hr) in Hu. cbn. rewrite insert_take_drop by done. rewrite <- (take_drop_middle _ _ _ Hr) at 3 4.
  unfold used_slots. rewrite !filter_app, !length_app. rewrite (filter_cons_True _ r) by done.
  rewrite (filter_cons_False _ empty_slot) by done. cbn. lia.
Qed.

Section Room.
Context (H : list fragment).

(** What [make_room] leaves: slot [i] as it was, and either room or nobody else. *)
Lemma make_room_spec L need i : 0 <= need -> need + IPFRAG_MEMORY < 0x10000000000000000 -> forall n s g,
  ipfrag_inv H L s g -> (i < IPFRAG_SLOTS)%nat -> (used_slots (slots s) <= n)%nat ->
  let '(room, s', g') := make_room n need i s g in
  ipfrag_inv H L s' g' /\ slot s' i = slot s i /\ timeout_ticks s' = timeout_ticks s /\
  (if room then memory_used s' + need <= IPFRAG_MEMORY
   else memory_used s' + need > IPFRAG_MEMORY /\ forall j, (j < IPFRAG_SLOTS)%nat -> used (slot s' j) = true -> j = i) /\
  (memory_used s + need <= IPFRAG_MEMORY -> s' = s /\ g' = g).
Proof.
  intros Hn0 Hneed. induction n as [|n IH]; intros s g Hi Hlt Hn; cbn [make_room]; pose proof (fi_bound _ _ _ _ Hi) as Hb;
    pose proof (fi_slots _ _ _ _ Hi) as Hl;
    assert (0 <= memory_used s) as H0 by (rewrite (fi_memory _ _ _ _ Hi); apply slot_costs_nonneg, Hi);
    rewrite u64_small by lia; (destruct (Z.ltb_spec IPFRAG_MEMORY (memory_used s + need)); [|done]).
  - split_and!; try done; try lia. intros j Hj Hu. destruct (used_slots_release s j) as [_ ?]; [lia|done|lia].
  - pose proof (oldest_except_spec s (Some i)) as HO. destruct (oldest_except s (Some i)) as [v|].
    + destruct HO as (Hv&Hu&Hne). pose proof (inv_release H L s g v Hi ltac:(lia)) as Hi'.
      pose proof (used_slots_release s v Hv Hu) as [Hused _].
      assert (slot (fst (release s v g)) i = slot s i) as Hsame by (apply slot_with_ne; congruence).
      destruct (release s v g) as [s1 g1] eqn:E. injection E as E1 E2. cbn [fst snd] in *.
      specialize (IH (with_stats s1 inc_evicted) g1 (inv_stats _ _ _ _ _ Hi') Hlt).
      destruct (make_room n need i (with_stats s1 inc_evicted) g1) as [[room s'] g']. subst s1.
      destruct IH as (A&B&C&D&_); [cbn in *; lia|]. split_and!; try done; try lia. by rewrite B.
    + split_and!; try done; try lia. intros j Hj Hu. rewrite Hl in HO. specialize (HO j Hj Hu). congruence.
Qed.
End Room.

(** * One fragment *)

(** What the network code passes: the offset field counts units of 8 bytes in 13
    bits, and a packet has at most 65535 bytes. *)
Definition fragment_ok (f : fragment) : Prop := 0 <= f_offset f < 0x10000 /\ f_len f < 0x10000.
Definition new_piece (f : fragment) : piece_t := mkPiece (f_offset f) (f_data f).

Lemma fragment_end f : fragment_ok f -> f_end f = f_offset f + f_len f /\ 0 <= f_len f /\ u32 (f_offset f) = f_offset f.
Proof.
  intros [Ho Hl]. assert (0 <= f_len f) by (unfold f_len; lia).
  unfold f_end. rewrite u64_small, u32_small by lia. done.
Qed.

Lemma not_malformed f : fragment_ok f -> malformed f = false -> piece_ok (new_piece f) /\ (f_more f = true -> 1 <= f_len f).
Proof.
  intros Hf [Hm Hmax]%orb_false_iff. destruct (fragment_end f Hf) as (E&?&_). rewrite E in Hmax. zbool.
  split; [split; cbn; [apply Hf|unfold piece_end, len; cbn; unfold f_len in *; lia]|].
  intros Hmore. rewrite Hmore in Hm. cbn in Hm. zbool. lia.
Qed.

(** The piece fits its gap. *)
Lemma gap_fits f prev next : fragment_ok f -> Forall piece_ok (prev ++ next) -> ForallOrdPairs follows (prev ++ next) ->
  Forall (fun p => offset p < f_offset f) prev -> match next with [] => True | n :: _ => f_offset f <= offset n end ->
  overlaps f prev next = false -> ForallOrdPairs follows (prev ++ new_piece f :: next).
Proof.
  intros Hf Hok Hap Hprev Hnext Hov. destruct (fragment_end f Hf) as (E&Hl&_). apply orb_false_iff in Hov as [O1 O2].
  apply ForallOrdPairs_app in Hap as (A1&A2&A3). apply Forall_app in Hok as [K1 K2].
  assert (forall q, q ∈ next -> f_offset f + f_len f <= offset q) as Hn.
  { destruct next as [|n next]; [by intros q ?%not_elem_of_nil|]. zbool. rewrite E in O2. intros q [->|Hq]%elem_of_cons; [lia|].
    inversion_clear A2 as [|?? Hn _]. rewrite Forall_forall in Hn. specialize (Hn q Hq). unfold follows, piece_end in Hn.
    pose proof (len_nonneg n). lia. }
  assert (forall p, p ∈ prev -> piece_end p <= f_offset f) as Hp.
  { destruct (last prev) as [z|] eqn:Hz; [|apply last_None in Hz as ->; by intros p ?%not_elem_of_nil].
    apply last_Some in Hz as [front ->]. apply Forall_app in K1 as [_ K1]. inversion_clear K1 as [|?? [? Kz] _].
    unfold piece_end, IPV4_PAYLOAD_MAX in Kz. pose proof (len_nonneg z). rewrite u32_small in O1 by lia. zbool.
    intros p [Hp|Hp]%elem_of_app; [|apply list_elem_of_singleton in Hp as ->; unfold piece_end; lia].
    apply ForallOrdPairs_app in A1 as (_&_&A1). specialize (A1 p z Hp ltac:(set_solver)). unfold follows in A1.
    apply Forall_app in Hprev as [_ Hz]. inversion_clear Hz. lia. }
  apply ForallOrdPairs_app. split; [done|]. split.
  - constructor; [|done]. apply Forall_forall. intros q Hq. unfold follows, piece_end. apply Hn in Hq. unfold f_len in Hq. done.
  - intros p q Hpp [->|Hq]%elem_of_cons; [by apply Hp|by apply A3].
Qed.

(** The pieces of a datagram that was not refused. *)
Lemma inserted_shape f prev next r : fragment_ok f -> slot_ok r -> malformed f = false -> cost r <= IPFRAG_MEMORY ->
  find_gap (pieces r) (f_offset f) = (prev, next) -> overlaps f prev next = false -> contradicts f r next = false ->
  let r' := inserted f prev next r in
  pieces r' = prev ++ new_piece f :: next /\ pieces r' ≡ₚ new_piece f :: pieces r /\
  ForallOrdPairs follows (pieces r') /\ Forall piece_ok (pieces r') /\
  received r' = lens (pieces r') /\ cost r' = costs (pieces r') /\ cost r' = cost r + IPFRAG_PIECE_OVERHEAD + f_len f /\
  0 <= total r' <= IPV4_PAYLOAD_MAX /\
  (total r' <> 0 -> Forall (fun p => piece_end p <= total r') (pieces r') /\ received r' <= total r').
Proof.
  intros Hf Hok Hm Hc Hgap Hov Hcon r'. destruct (fragment_end f Hf) as (E&Hl&E32). destruct (not_malformed f Hf Hm) as [[Hp1 Hp2] _].
  destruct (find_gap_spec _ _ _ _ Hgap) as (Hpc&Hbefore&Hafter).
  destruct Hok as [S1 S2 S3 S4 S5 S6 _ _]. rewrite Hpc in S1, S2.
  assert (pieces r' = prev ++ new_piece f :: next) as Er by (cbn; by rewrite E32).
  assert (pieces r' ≡ₚ new_piece f :: pieces r) as Ep by (rewrite Er, Hpc; symmetry; apply Permutation_middle).
  pose proof (gap_fits f prev next Hf S2 S1 Hbefore Hafter Hov) as Hap. rewrite <- Er in Hap.
  assert (Forall piece_ok (pieces r')) as Hpo.
  { rewrite Ep. constructor; [done|]. by rewrite Hpc. }
  pose proof (lens_nonneg (pieces r)) as L0. pose proof (costs_bound (pieces r)) as L1.
  assert (len (new_piece f) = f_len f) as Eln by done. unfold piece_end in Hp2. cbn [offset new_piece] in Hp1, Hp2. rewrite Eln in Hp2.
  unfold IPFRAG_MEMORY, IPV4_PAYLOAD_MAX in *.
  assert (received r' = lens (pieces r')) as Hrec.
  { rewrite Ep. cbn [received r' inserted lens]. rewrite u64_small by lia. lia. }
  assert (cost r' = cost r + IPFRAG_PIECE_OVERHEAD + f_len f) as Hcost.
  { cbn [cost r' inserted]. unfold IPFRAG_PIECE_OVERHEAD. rewrite (u64_small (32 + _)), u64_small by lia. lia. }
  assert (0 <= total r' <= 65515) as Ht by (cbn; rewrite E; destruct (f_more f); lia).
  split_and!; try done; try lia.
  - rewrite Ep, Hcost. cbn [costs]. lia.
  - intros Hz. assert (Forall (fun p => piece_end p <= total r') (pieces r')) as Hends.
    { apply orb_false_iff in Hcon as [[C1 C2]%orb_false_iff C3]. rewrite E in C1, C2, C3. rewrite Ep. constructor.
      - unfold piece_end. rewrite Eln. cbn [offset new_piece]. cbn [total r' inserted] in *. rewrite E in *. destruct (f_more f); [|lia].
        destruct (Z.eqb_spec (total r) 0); [done|]. cbn in C1. zbool. lia.
      - cbn [total r' inserted] in *. rewrite E in *. destruct (f_more f); [by apply S6|]. cbn in C2, C3.
        destruct (Z.eqb_spec (total r) 0) as [Ez|Ez]; cbn in C2, C3; [|zbool; rewrite C2; by apply S6].
        rewrite Hpc. apply Forall_app. split.
        + rewrite Er in Hap. apply ForallOrdPairs_app in Hap as (_&_&Hap). apply Forall_forall. intros p Hp.
          specialize (Hap p (new_piece f) Hp ltac:(set_solver)). unfold follows in Hap. cbn in Hap. lia.
        + apply Forall_forall. intros p Hp. destruct (Z.le_gt_cases (piece_end p) (f_offset f + f_len f)); [done|].
          exfalso. apply not_true_iff_false in C3. apply C3, existsb_exists. exists p. split; [by apply list_elem_of_In|].
          rewrite Forall_app, !Forall_forall in S2. destruct S2 as [_ S2]. destruct (S2 p Hp) as [? Hpe]. unfold piece_end in *.
          unfold IPV4_PAYLOAD_MAX in Hpe. rewrite u32_small by (pose proof (len_nonneg p); lia). apply Z.ltb_lt. lia. }
    split; [done|]. rewrite Hrec. assert (lens (pieces r') <= total r' - 0); [|lia]. apply lens_fit; [lia|done|].
    rewrite Forall_forall in Hpo, Hends |- *. intros p Hp. split; [apply (Hpo p Hp)|by apply Hends].
Qed.

Definition begun (f : fragment) (now : Z) (s : ipfrag) : reassembly_t :=
  mkSlot true (f_src f) (f_dst f) (f_id f) (f_protocol f) [] 0 0 0 (u64 (now + timeout_ticks s)) [].

Lemma begun_ok f now s : slot_ok (begun f now s).
Proof. split; cbn; try done; try constructor; lia. Qed.

Section Input.
Context (H : list fragment).

Lemma new_slot_inv L s f now : ipfrag_inv H L s [] ->
  let '(i, s', g) := new_slot f now s in
  (i < IPFRAG_SLOTS)%nat /\ ipfrag_inv H L s' g /\ slot s' i = begun f now s /\
  (forall k, find_slot (fun r => negb (used r)) (slots s) 0 = Some k -> i = k /\ g = [] /\ s' = with_slot s i (begun f now s) (memory_used s)).
Proof.
  intros Hi. pose proof (fi_slots _ _ _ _ Hi) as Hl. unfold new_slot.
  assert (forall s1 g i, ipfrag_inv H L s1 g -> (i < IPFRAG_SLOTS)%nat -> slot s1 i = empty_slot -> timeout_ticks s1 = timeout_ticks s ->
    let r := mkSlot true (f_src f) (f_dst f) (f_id f) (f_protocol f) (pieces (slot s1 i)) (received (slot s1 i)) (total (slot s1 i))
               (cost (slot s1 i)) (u64 (now + timeout_ticks s1)) (quote (slot s1 i)) in
    r = begun f now s /\ ipfrag_inv H L (with_slot s1 i r (memory_used s1)) g /\ slot (with_slot s1 i r (memory_used s1)) i = begun f now s) as Hbegin.
  { intros s1 g i Hi1 Hlt Hempty Ht r. assert (r = begun f now s) as -> by (unfold r, begun; by rewrite Hempty, Ht).
    split; [done|]. split; [|apply slot_with; by rewrite (fi_slots _ _ _ _ Hi1)]. rewrite <- (app_nil_r L).
    eapply inv_update; [exact Hi1|done|apply begun_ok|by split| | |]; rewrite ?Hempty; cbn; [lia|apply Hi1|by rewrite app_nil_r]. }
  destruct (find_slot (fun r => negb (used r)) (slots s) 0) as [i|] eqn:Hfind.
  - apply find_slot_in in Hfind as [Hlt Hu]. rewrite Hl in Hlt. apply negb_true_iff in Hu.
    destruct (inv_slot H L s [] i Hi Hlt) as [Hok _]. pose proof (so_unused _ Hok Hu) as Hempty.
    destruct (Hbegin s [] i Hi Hlt Hempty eq_refl) as (E&B1&B2). split_and!; try done. intros k [= <-]. by rewrite E.
  - pose proof (oldest_except_spec s None) as HO. pose proof (find_slot_spec (fun r => negb (used r)) (slots s) 0) as HF. rewrite Hfind in HF.
    destruct (oldest_except s None) as [v|].
    + change (default 0%nat (Some v)) with v. destruct HO as (Hlt&_). rewrite Hl in Hlt. pose proof (inv_release H L s [] v Hi Hlt) as Hr.
      destruct (release s v []) as [s1 g1] eqn:E. injection E as E1 E2. cbn [fst snd] in Hr.
      destruct (Hbegin (with_stats s1 inc_evicted) g1 v (inv_stats _ _ _ _ _ Hr) Hlt) as (_&B1&B2); [|by subst s1|split_and!; done].
      subst s1. apply slot_with. by rewrite Hl.
    + exfalso. destruct (lookup_lt_is_Some_2 (slots s) 0) as [r Hr]; [rewrite Hl; unfold IPFRAG_SLOTS; lia|].
      rewrite Forall_forall in HF. specialize (HF r (list_elem_of_lookup_2 _ _ _ Hr)). apply negb_false_iff in HF.
      specialize (HO 0%nat). rewrite (slot_lookup _ _ _ Hr), Hl in HO. specialize (HO ltac:(unfold IPFRAG_SLOTS; lia) HF). done.
Qed.
End Input.

Lemma same_datagram_of f r : same_datagram f r = true -> used r = true /\ of_datagram r f.
Proof. unfold same_datagram. intros. zbool. done. Qed.

(** * A complete datagram *)

Fixpoint contiguous (a : Z) (l : list piece_t) : Prop :=
  match l with [] => True | p :: l' => offset p = a /\ contiguous (piece_end p) l' end.

(** Pieces never overlap, so as many bytes as the datagram is long means there
    are no holes left. *)
Lemma no_holes l : forall a b, a <= b -> ForallOrdPairs follows l -> Forall (fun p => a <= offset p /\ piece_end p <= b) l ->
  lens l = b - a -> contiguous a l.
Proof.
  induction l as [|p l IH]; intros a b Hab Hap Hin Hl; cbn in *; [done|].
  inversion_clear Hap as [|?? Hp Hap']. inversion_clear Hin as [|?? [Hp1 Hp2] Hin'].
  assert (Forall (fun q => piece_end p <= offset q /\ piece_end q <= b) l) as Hin.
  { rewrite Forall_forall in Hp, Hin' |- *. intros q Hq. specialize (Hp q Hq). by destruct (Hin' q Hq). }
  pose proof (lens_fit l (piece_end p) b Hp2 Hap' Hin). unfold piece_end in *. split; [lia|].
  apply (IH _ b); [done|done|done|lia].
Qed.

Lemma splice_at buf p : 0 <= offset p -> piece_end p <= Z.of_nat (length buf) ->
  length (splice buf p) = length buf /\
  take (Z.to_nat (piece_end p)) (splice buf p) = take (Z.to_nat (offset p)) buf ++ data p /\
  forall n, (Z.to_nat (piece_end p) <= n)%nat -> drop n (splice buf p) = drop n buf.
Proof.
  unfold piece_end, len, splice. intros H0 H1. rewrite !Z2Nat.inj_add, Nat2Z.id by lia.
  assert (length (take (Z.to_nat (offset p)) buf) = Z.to_nat (offset p)) as Ht by (rewrite length_take; lia).
  split_and!.
  - rewrite !length_app, Ht, length_drop. lia.
  - rewrite (assoc_L (++)), take_app_length'; [done|]. rewrite length_app. lia.
  - intros n Hn. rewrite (assoc_L (++)), drop_app_ge by (rewrite length_app; lia). rewrite drop_drop, length_app, Ht. f_equal. lia.
Qed.

Lemma assemble_contiguous l : forall a buf, 0 <= a -> contiguous a l -> a + lens l <= Z.of_nat (length buf) ->
  assemble buf l = take (Z.to_nat a) buf ++ concat (data <$> l) ++ drop (Z.to_nat (a + lens l)) buf.
Proof.
  induction l as [|p l IH]; intros a buf Ha Hc Hl; cbn in *.
  - rewrite Z.add_0_r. cbn. by rewrite take_drop.
  - destruct Hc as [<- Hc]. pose proof (len_nonneg p). pose proof (lens_nonneg l).
    destruct (splice_at buf p Ha) as (S1&S2&S3); [unfold piece_end; lia|]. unfold assemble in *. cbn.
    rewrite (IH (piece_end p)); [|unfold piece_end; lia|done|unfold piece_end; lia].
    rewrite S2, S3 by (unfold piece_end; lia). rewrite <- !(assoc_L (++)). do 4 f_equal. unfold piece_end. lia.
Qed.

Lemma contiguous_byte l : forall a i, contiguous a l -> a <= i < a + lens l ->
  exists p, p ∈ l /\ offset p <= i < piece_end p /\
    concat (data <$> l) !! Z.to_nat (i - a) = data p !! Z.to_nat (i - offset p).
Proof.
  induction l as [|p l IH]; intros a i Hc Hi; cbn in *; [lia|]. destruct Hc as [<- Hc].
  destruct (Z.lt_ge_cases i (piece_end p)) as [Hlt|Hge].
  - exists p. split; [left|]. split; [lia|]. rewrite lookup_app_l; [done|]. unfold piece_end, len in *. lia.
  - destruct (IH (piece_end p) i Hc) as (q&Hq&Hr&E); [unfold piece_end in *; lia|]. exists q. split; [by right|]. split; [done|].
    rewrite <- E, lookup_app_r by (unfold piece_end, len in *; lia). f_equal. unfold piece_end, len in *. lia.
Qed.

(** The datagram [d] was sent: its length is what a last fragment said, and each
    of its bytes is that of a fragment at that place; all of them carry the
    source, destination, protocol and identification of [f]. *)
Definition same_key (f g : fragment) : Prop :=
  f_src g = f_src f /\ f_dst g = f_dst f /\ f_protocol g = f_protocol f /\ f_id g = f_id f.
Definition authentic (H : list fragment) (f : fragment) (d : list Z) : Prop :=
  0 < Z.of_nat (length d) <= IPV4_PAYLOAD_MAX /\
  (exists g, g ∈ H /\ same_key f g /\ f_more g = false /\ f_offset g + f_len g = Z.of_nat (length d)) /\
  forall i, 0 <= i < Z.of_nat (length d) ->
    exists g, g ∈ H /\ same_key f g /\ f_offset g <= i < f_offset g + f_len g /\
      d !! Z.to_nat i = f_data g !! Z.to_nat (i - f_offset g).

Lemma of_datagram_key r f g : of_datagram r f -> of_datagram r g -> same_key f g.
Proof. intros (A1&A2&A3&A4) (B1&B2&B3&B4). split_and!; congruence. Qed.

(** What [complete] hands on. *)
Lemma complete_bytes fresh r : ForallOrdPairs follows (pieces r) -> Forall piece_ok (pieces r) -> 0 <= total r ->
  Forall (fun p => piece_end p <= total r) (pieces r) -> lens (pieces r) = total r ->
  assemble (fresh <$> seq 0 (Z.to_nat (total r))) (pieces r) = concat (data <$> pieces r) /\ contiguous 0 (pieces r) /\
  Z.of_nat (length (concat (data <$> pieces r))) = total r.
Proof.
  intros Hap Hok Ht Hend Hl. assert (contiguous 0 (pieces r)) as Hc.
  { apply (no_holes _ 0 (total r)); [lia|done| |lia]. rewrite Forall_forall in Hok, Hend |- *. intros p Hp.
    split; [apply (Hok p Hp)|by apply Hend]. }
  split; [|split; [done|]].
  - rewrite (assemble_contiguous _ 0); [|lia|done|rewrite length_fmap, length_seq; lia].
    cbn [take]. rewrite drop_ge, app_nil_r; [done|]. rewrite length_fmap, length_seq. lia.
  - rewrite <- Hl. clear. induction (pieces r) as [|p l IH]; cbn; [done|]. rewrite length_app. unfold len. lia.
Qed.

Lemma complete_authentic H f r : slot_from H r -> of_datagram r f -> total r <> 0 ->
  contiguous 0 (pieces r) -> Z.of_nat (length (concat (data <$> pieces r))) = total r -> lens (pieces r) = total r ->
  0 <= total r <= IPV4_PAYLOAD_MAX -> authentic H f (concat (data <$> pieces r)).
Proof.
  intros [HP HT] Hf Hne Hc Hlen Hl Htot. split; [lia|]. rewrite Hlen. split.
  - destruct (HT Hne) as (g&Hg&Hr&Hm&He). exists g. split_and!; try done. by eapply of_datagram_key.
  - intros i Hi. destruct (contiguous_byte (pieces r) 0 i Hc) as (p&Hp&Hr&E); [lia|]. rewrite Z.sub_0_r in E.
    rewrite Forall_forall in HP. destruct (HP p Hp) as (g&Hg&Hk&Ho&Hd). exists g. split_and!; try done.
    + by eapply of_datagram_key.
    + lia.
    + unfold piece_end, len in Hr. unfold f_len. rewrite Hd, Ho. lia.
    + rewrite E, Hd, Ho. done.
Qed.

(** * Every call keeps the invariant *)

Lemma inv_more H f L s g : ipfrag_inv H L s g -> ipfrag_inv (f :: H) L s g.
Proof.
  intros [I1 I2 I3 I4 I5 I6]. split; try done. eapply Forall_impl; [exact I5|]. intros r [R1 R2]. split.
  - eapply Forall_impl; [exact R1|]. intros p (g'&Hg&Hr). exists g'. split; [by right|done].
  - intros Ht. destruct (R2 Ht) as (g'&Hg&Hr). exists g'. split; [by right|done].
Qed.

Lemma inserted_from H f prev next r : fragment_ok f -> slot_from H r -> of_datagram r f -> f ∈ H ->
  pieces (inserted f prev next r) ≡ₚ new_piece f :: pieces r -> slot_from H (inserted f prev next r).
Proof.
  intros Hf [R1 R2] Hk Hin Hp. destruct (fragment_end f Hf) as (E&_). split.
  - rewrite Hp. constructor; [by exists f|done].
  - cbn [total inserted]. intros Ht. destruct (f_more f) eqn:Hm; [by apply R2|]. exists f. split_and!; done.
Qed.

Section Place.
Context (H : list fragment) (f : fragment) (Hf : fragment_ok f) (Hm : malformed f = false) (HfH : f ∈ H).

Lemma place_inv L s g i whole began :
  ipfrag_inv H L s g -> (i < IPFRAG_SLOTS)%nat -> used (slot s i) = true -> of_datagram (slot s i) f ->
  let o := place_fragment whole f i began g s in
  ipfrag_inv H (L ++ [new_piece f]) (state o) (freed o) /\ started o = began /\
  (forall d, datagram o = Some d -> authentic H f d).
Proof.
  intros Hi Hlt Hu Hk. unfold place_fragment. destruct (fragment_end f Hf) as (E&Hl&E32). rewrite E32.
  change (mkPiece (f_offset f) (f_data f)) with (new_piece f).
  destruct (find_gap (pieces (slot s i)) (f_offset f)) as [prev next] eqn:Hgap.
  assert (forall s1 g1, ipfrag_inv H L s1 g1 -> ipfrag_inv H (L ++ [new_piece f]) s1 (new_piece f :: g1)) as Hdrop.
  { intros s1 g1 [I1 I2 I3 I4 I5 I6]. split; try done. rewrite <- I6. solve_Permutation. }
  assert (forall s1 g1, ipfrag_inv H L s1 g1 -> let '(s2, g2) := release (with_stats s1 inc_refused) i g1 in
            ipfrag_inv H (L ++ [new_piece f]) s2 (new_piece f :: g2)) as Hrefuse.
  { intros s1 g1 Hi1. pose proof (inv_release H L _ g1 i (inv_stats _ _ _ _ inc_refused Hi1) Hlt) as Hr.
    destruct (release (with_stats s1 inc_refused) i g1). by apply Hdrop. }
  destruct (is_duplicate f (slot s i) next); [split_and!; try done; by apply Hdrop, inv_stats|].
  destruct (overlaps f prev next || contradicts f (slot s i) next) eqn:Hov.
  { pose proof (Hrefuse s g Hi) as Hr. destruct (release (with_stats s inc_refused) i g). done. }
  apply orb_false_iff in Hov as [Hov Hcon]. destruct Hf as [_ Hf2]. cbn zeta. unfold IPFRAG_PIECE_OVERHEAD. rewrite (u64_small (32 + _)) by lia.
  pose proof (make_room_spec H L (32 + f_len f) i ltac:(lia) ltac:(unfold IPFRAG_MEMORY; lia) IPFRAG_SLOTS s g Hi Hlt) as HR.
  destruct (make_room IPFRAG_SLOTS (32 + f_len f) i s g) as [[room s1] g1].
  destruct HR as (Hi1&Hsl&_&Hroom&_).
  { unfold used_slots. etransitivity; [apply length_filter|]. by rewrite (fi_slots _ _ _ _ Hi). }
  destruct room; cbn [negb]; [|pose proof (Hrefuse s1 g1 Hi1) as Hr; by destruct (release (with_stats s1 inc_refused) i g1)].
  destruct (inv_slot H L s1 g1 i Hi1 Hlt) as (Hok&Hfrom&Hcost). pose proof (fi_bound _ _ _ _ Hi1) as Hb.
  rewrite Hsl in Hok, Hfrom, Hcost. pose proof (fi_slots _ _ _ _ Hi1) as Hlen.
  destruct (inserted_shape f prev next (slot s i) Hf Hok Hm ltac:(lia) Hgap Hov Hcon) as (Q1&Q2&Q3&Q4&Q5&Q6&Q7&Q8&Q9).
  set (r := inserted f prev next (slot s i)) in *. pose proof (inserted_from H f prev next (slot s i) Hf Hfrom Hk HfH Q2) as Hfrom'. fold r in Hfrom'.
  unfold insert_piece. rewrite Hsl. fold r. rewrite slot_with by (by rewrite Hlen).
  unfold IPFRAG_PIECE_OVERHEAD, IPFRAG_MEMORY in *. rewrite (u64_small (32 + _)), u64_small by lia.
  destruct (Z.eqb_spec (total r) 0) as [Hz|Hz]; cbn [negb andb]; [|destruct (Z.eqb_spec (received r) (total r)) as [Hr|Hr]].
  2: { destruct (Q9 Hz) as [Q10 _]. destruct (complete_bytes (fun _ => 0) r Q3 Q4 ltac:(lia) Q10 ltac:(lia)) as (_&Hc&Hbytes).
    assert (ipfrag_inv H (L ++ [new_piece f]) (with_slot (with_slot s1 i r (memory_used s1 + (32 + f_len f))) i empty_slot
      (u64 (memory_used s1 + (32 + f_len f) - cost r))) (g1 ++ pieces r)) as Hdone.
    { rewrite with_slot_twice. apply (inv_update H L s1 g1 i empty_slot _ (g1 ++ pieces r) [new_piece f]);
        [done|done|apply empty_slot_ok|apply empty_slot_from|rewrite Hsl, u64_small by lia; change (cost empty_slot) with 0; lia|rewrite u64_small by lia; unfold IPFRAG_MEMORY; lia|].
      rewrite Hsl, Q2. cbn. solve_Permutation. }
    unfold complete. rewrite slot_with by (by rewrite Hlen). destruct whole as [fresh|].
    - destruct (complete_bytes fresh r Q3 Q4 ltac:(lia) Q10 ltac:(lia)) as (Hw&_&_). rewrite Hw. cbn [state freed started datagram]. split_and!; [by apply inv_stats|done|].
      intros d [= <-]. apply (complete_authentic H f r); try done. lia.
    - cbn [state freed started datagram]. split_and!; [by apply inv_stats|done|done]. }
  all: split_and!; try done; eapply inv_update;
    [exact Hi1|done| |exact Hfrom'|rewrite Hsl; lia|unfold IPFRAG_MEMORY; lia|rewrite Hsl, Q2; solve_Permutation].
  all: split; try done; try lia; intros Hx; first [destruct (Q9 Hx); (done || lia)|cbn in Hx; congruence].
Qed.
End Place.

Lemma input_inv H L s f now got whole : fragment_ok f -> ipfrag_inv H L s [] ->
  let o := ipfrag_input got whole f now s in
  ipfrag_inv (f :: H) (L ++ (if got && negb (malformed f) then [new_piece f] else [])) (state o) (freed o) /\
  (forall d, datagram o = Some d -> authentic (f :: H) f d).
Proof.
  intros Hf Hi. unfold ipfrag_input. apply (inv_more _ f) in Hi. apply (inv_stats _ _ _ _ inc_fragments) in Hi.
  set (s0 := with_stats s inc_fragments) in *. pose proof (fi_slots _ _ _ _ Hi) as Hlen.
  assert (f ∈ f :: H) as Hin by left.
  destruct (malformed f) eqn:Hm; [|destruct got]; cbn [negb andb]; rewrite ?andb_false_r, ?app_nil_r.
  - destruct (find_slot (same_datagram f) (slots s0) 0) as [i|] eqn:Hfind; [|split; [by apply inv_stats|done]].
    apply find_slot_in in Hfind as [Hlt _]. rewrite Hlen in Hlt.
    pose proof (inv_release _ L _ [] i (inv_stats _ _ _ _ inc_refused Hi) Hlt) as Hr.
    by destruct (release (with_stats s0 inc_refused) i []).
  - destruct (find_slot (same_datagram f) (slots s0) 0) as [i|] eqn:Hfind.
    + apply find_slot_in in Hfind as [Hlt [Hu Hk]%same_datagram_of]. rewrite Hlen in Hlt.
      destruct (place_inv _ f Hf Hm Hin L s0 [] i whole false Hi Hlt Hu Hk) as (?&_&?). done.
    + pose proof (new_slot_inv _ L s0 f now Hi) as HN. destruct (new_slot f now s0) as [[i s1] g]. destruct HN as (Hlt&Hi1&Hs&_).
      destruct (place_inv _ f Hf Hm Hin L s1 g i whole true Hi1 Hlt) as (?&_&?); [by rewrite Hs|by rewrite Hs|done].
  - done.
Qed.

(** * Running out of time *)

Definition due (now : Z) (r : reassembly_t) : bool := used r && (deadline r <=? now).

(** The loop of [ipfrag_expire] over the slots [i], [i + 1], ... *)
Lemma expire_loop_inv H now n : forall i L s g q d,
  (i + n <= IPFRAG_SLOTS)%nat -> ipfrag_inv H L s g ->
  let '(s', g', _, _) := fold_left (expire_slot now) (seq i n) (s, g, q, d) in ipfrag_inv H L s' g'.
Proof.
  induction n as [|n IH]; intros i L s g q d Hn Hi; [done|]. cbn [seq fold_left].
  unfold expire_slot at 2. destruct (used (slot s i)); cbn [negb]; [|apply IH; [lia|done]].
  destruct (deadline (slot s i) <=? now); [|apply IH; [lia|done]].
  pose proof (inv_release H L s g i Hi ltac:(lia)) as Hr. destruct (release s i g) as [s1 g1].
  apply IH; [lia|]. by apply inv_stats.
Qed.

(** What the loop computes, slot by slot. *)
Definition expired (now : Z) (r : reassembly_t) : reassembly_t := if due now r then empty_slot else r.
Definition reports (now : Z) (l : list reassembly_t) : list (list Z) :=
  filter (fun q => 0 < Z.of_nat (length q)) (quote <$> filter (fun r => due now r = true) l).
Definition earlier (d : Z) (r : reassembly_t) : Z := if (d =? 0) || (deadline r <? d) then deadline r else d.
Definition waiting (now : Z) (l : list reassembly_t) : list reassembly_t :=
  filter (fun r => used r = true /\ due now r = false) l.

Lemma expire_loop_spec now : forall l2 l1 s g q d,
  slots s = l1 ++ l2 ->
  let '(s', _, q', d') := fold_left (expire_slot now) (seq (length l1) (length l2)) (s, g, q, d) in
  slots s' = l1 ++ (expired now <$> l2) /\ q' = q ++ reports now l2 /\ d' = fold_left earlier (waiting now l2) d.
Proof.
  induction l2 as [|r l2 IH]; intros l1 s g q d Hs; cbn [length seq fold_left fmap list_fmap].
  { change (reports now []) with (@nil (list Z)). split_and!; [done|by rewrite app_nil_r|done]. }
  assert (slot s (length l1) = r) as Hr by (unfold slot; by rewrite Hs, nth_lookup, list_lookup_middle).
  unfold expire_slot at 2. rewrite Hr.
  assert (length (l1 ++ [expired now r]) = S (length l1)) as Hlen by (rewrite length_app; cbn; lia).
  assert (forall s1 g1 q1 d1, slots s1 = (l1 ++ [expired now r]) ++ l2 ->
    let '(s', _, q', d') := fold_left (expire_slot now) (seq (S (length l1)) (length l2)) (s1, g1, q1, d1) in
    slots s' = l1 ++ expired now r :: (expired now <$> l2) /\ q' = q1 ++ reports now l2 /\ d' = fold_left earlier (waiting now l2) d1) as Hrest.
  { intros s1 g1 q1 d1 E. specialize (IH (l1 ++ [expired now r]) s1 g1 q1 d1 E). rewrite Hlen in IH.
    destruct (fold_left _ _ _) as [[[s' g'] q'] d']. by rewrite <- (assoc_L (++)) in IH. }
  unfold reports, waiting. rewrite !filter_cons. unfold expired, due in *.
  destruct (used r) eqn:Hu; cbn [negb andb] in *; [destruct (deadline r <=? now) eqn:Hd|].
  - rewrite decide_True by done. rewrite decide_False by (intros [_ ?]; done). cbn [fmap list_fmap]. rewrite filter_cons.
    assert (slots (fst (release s (length l1) g)) = l1 ++ empty_slot :: l2) as Hrel by (cbn; by rewrite Hs, insert_app_r_alt, Nat.sub_diag by lia).
    destruct (release s (length l1) g) as [s1 g1]. cbn [fst] in Hrel.
    destruct (Z.ltb_spec 0 (Z.of_nat (length (quote r)))); rewrite ?decide_True, ?decide_False by lia.
    all: match goal with |- context [fold_left _ (seq (S _) _) (?x, ?y, ?z, ?w)] => specialize (Hrest x y z w) end.
    all: destruct (fold_left _ _ _) as [[[s' g'] q'] d'].
    all: destruct Hrest as (A&B&C); [cbn [slots with_stats]; by rewrite <- (assoc_L (++))|].
    all: split_and!; try done. by rewrite B, <- (assoc_L (++)).
  - rewrite decide_False by done. rewrite decide_True by done. cbn [fold_left].
    match goal with |- context [fold_left _ (seq (S _) _) (?x, ?y, ?z, ?w)] => specialize (Hrest x y z w) end.
    destruct (fold_left _ (seq _ _) _) as [[[s' g'] q'] d']. destruct Hrest as (A&B&C); [by rewrite <- (assoc_L (++))|done].
  - rewrite !decide_False by (done || intros [? _]; done).
    match goal with |- context [fold_left _ (seq (S _) _) (?x, ?y, ?z, ?w)] => specialize (Hrest x y z w) end.
    destruct (fold_left _ _ _) as [[[s' g'] q'] d']. destruct Hrest as (A&B&C); [by rewrite <- (assoc_L (++))|done].
Qed.

(** The next deadline is the least of those left, 0 if there are none. *)
Lemma earlier_least l : forall d, 0 <= d -> Forall (fun r => 0 < deadline r) l ->
  let d' := fold_left earlier l d in
  (d' = d \/ exists r, r ∈ l /\ deadline r = d') /\ (d <> 0 -> 0 < d' <= d) /\ 0 <= d' /\ (forall r, r ∈ l -> 0 < d' <= deadline r).
Proof.
  induction l as [|r l IH]; intros d Hd Hl; cbn [fold_left].
  { split_and!; [by left|lia|done|by intros r ?%not_elem_of_nil]. }
  inversion_clear Hl as [|?? Hr Hl']. specialize (IH (earlier d r)). cbn zeta in *.
  assert (0 < earlier d r /\ earlier d r <= deadline r /\ (d <> 0 -> earlier d r <= d) /\ (earlier d r = d \/ earlier d r = deadline r)) as (E1&E2&E3&E4).
  { unfold earlier. destruct (Z.eqb_spec d 0), (Z.ltb_spec (deadline r) d); cbn; lia. }
  destruct IH as (A&B&C&D); [lia|done|]. split_and!.
  - destruct A as [A|(r'&?&?)]; [|right; exists r'; split; [by right|done]]. rewrite A. destruct E4 as [->|E4]; [by left|].
    right. exists r. split; [left|done].
  - lia.
  - done.
  - intros r' [->|Hr']%elem_of_cons; [lia|by apply D].
Qed.

(** * Runs *)

(** Any sequence of calls; the first component collects the fragments. *)
Inductive ipfrag_step : list fragment * ipfrag -> list fragment * ipfrag -> Prop :=
| step_input H s f now got whole :
    fragment_ok f -> ipfrag_step (H, s) (f :: H, state (ipfrag_input got whole f now s))
| step_expire H s now :
    ipfrag_step (H, s) (H, (ipfrag_expire now s).1.1.1)
| step_timeout H s ticks :
    ipfrag_step (H, s) (H, ipfrag_test_timeout ticks s).

Definition run_ok (c : list fragment * ipfrag) : Prop := ipfrag_inv c.1 (held (slots c.2)) c.2 [].

Lemma inv_drop H L s g : ipfrag_inv H L s g -> ipfrag_inv H (held (slots s)) s [].
Proof. intros [I1 I2 I3 I4 I5 I6]. split; try done. by rewrite app_nil_r. Qed.

Lemma run_step_ok c c' : run_ok c -> ipfrag_step c c' -> run_ok c'.
Proof.
  unfold run_ok. intros Hi Hst. destruct Hst as [H s f now got whole Hf|H s now|H s ticks]; cbn [fst snd] in *.
  - destruct (input_inv H _ s f now got whole Hf Hi) as [Hi' _]. by apply inv_drop in Hi'.
  - pose proof (expire_loop_inv H now IPFRAG_SLOTS 0 _ s [] [] 0 ltac:(lia) Hi) as He. unfold ipfrag_expire.
    destruct (fold_left _ _ _) as [[[s' g'] q'] d']. by apply inv_drop in He.
  - destruct Hi. by split.
Qed.

Lemma static_ok : run_ok ([], ipfrag_static).
Proof.
  split; try done; cbn.
  - repeat constructor; apply empty_slot_ok.
  - repeat constructor; apply empty_slot_from.
Qed.

Lemma run_reachable H s : rtc ipfrag_step ([], ipfrag_static) (H, s) -> ipfrag_inv H (held (slots s)) s [].
Proof. intros Hr. apply (rtc_invariant ipfrag_step run_ok _ _ run_step_ok static_ok Hr). Qed.

(** * Arrival in any order *)

(** [fs] is a datagram cut into fragments, from offset [a] on: all but the last
    say that more follow and carry a multiple of 8 bytes. *)
Fixpoint cut (k : fragment) (a : Z) (fs : list fragment) : Prop :=
  match fs with
  | [] => False
  | f :: rest =>
      same_key k f /\ f_offset f = a /\ f_data f <> [] /\
      match rest with
      | [] => f_more f = false
      | _ => f_more f = true /\ f_len f mod 8 = 0 /\ cut k (a + f_len f) rest
      end
  end.

Definition payload (fs : list fragment) : list Z := concat (f_data <$> fs).

(** The fragments arrive one by one, each at its own time; what the calls return. *)
Fixpoint arrive (fresh : nat -> Z) (l : list (fragment * Z)) (s : ipfrag) : list (option (list Z)) * ipfrag :=
  match l with
  | [] => ([], s)
  | (f, now) :: l' =>
      let o := ipfrag_input true (Some fresh) f now s in
      let '(out, s') := arrive fresh l' (state o) in (datagram o :: out, s')
  end.

Lemma follows_unique l l' : ForallOrdPairs follows l -> ForallOrdPairs follows l' -> Forall (fun p => 0 < len p) l -> l ≡ₚ l' -> l = l'.
Proof.
  assert (forall x, ForallOrdPairs follows x -> StronglySorted follows x) as Hss by (induction 1; by constructor).
  intros H1 H2 Hpos Hp. apply (StronglySorted_unique_strong follows); auto.
  intros x y Hx Hy Hxy Hyx. unfold follows, piece_end in *. rewrite Forall_forall in Hpos. specialize (Hpos x Hx).
  pose proof (len_nonneg y). lia.
Qed.

(** What a cut gives: every fragment lies in the datagram and is well formed, and they are apart. *)
Record well_cut (k : fragment) (a T : Z) (fs : list fragment) : Prop := {
  wc_follows : ForallOrdPairs follows (new_piece <$> fs);
  wc_frag : forall f, f ∈ fs -> same_key k f /\ a <= f_offset f /\ f_offset f + f_len f <= T /\ 0 < f_len f /\
              (f_more f = false -> f_offset f + f_len f = T) /\ (f_more f = true -> f_len f mod 8 = 0);
  wc_last : exists f, f ∈ fs /\ f_more f = false;
  wc_lens : lens (new_piece <$> fs) = T - a
}.

Lemma cut_well_cut k fs : forall a, cut k a fs -> well_cut k a (a + Z.of_nat (length (payload fs))) fs.
Proof.
  induction fs as [|f fs IH]; intros a Hc; [done|]. destruct Hc as (Hk&Ho&Hne&Hrest).
  assert (0 < f_len f) as Hpos by (unfold f_len; destruct (f_data f); [done|cbn; lia]).
  assert (len (new_piece f) = f_len f) as El by done.
  unfold payload in *. cbn [fmap list_fmap concat]. rewrite length_app, Nat2Z.inj_add. fold (f_len f).
  destruct fs as [|f' fs].
  - cbn. split; cbn.
    + by repeat constructor.
    + intros g ->%list_elem_of_singleton. split_and!; try done; lia || congruence.
    + exists f. split; [left|done].
    + lia.
  - destruct Hrest as (Hm&H8&Hc). specialize (IH _ Hc). rewrite <- Z.add_assoc in IH. destruct IH as [W1 W2 W3 W4]. split.
    + rewrite fmap_cons. constructor; [|done]. apply Forall_fmap, Forall_forall. intros g Hg. destruct (W2 g Hg) as (_&?&_).
      unfold follows, piece_end. rewrite El. cbn. lia.
    + intros g [->|Hg]%elem_of_cons; [|destruct (W2 g Hg) as (?&?&?&?&?&?); split_and!; try done; lia].
      split_and!; try done; [lia|lia|congruence].
    + destruct W3 as (g&Hg&?). exists g. split; [by right|done].
    + rewrite fmap_cons. cbn [lens]. rewrite El. lia.
Qed.

Section Arrival.
Context (k : fragment) (fs : list fragment) (T : Z) (W : well_cut k 0 T fs) (HT : T <= IPV4_PAYLOAD_MAX).

Lemma cut_fragment f : f ∈ fs -> fragment_ok f /\ malformed f = false /\ f_end f = f_offset f + f_len f.
Proof.
  intros Hf. destruct (wc_frag _ _ _ _ W f Hf) as (_&H1&H2&H3&H4&H5). unfold IPV4_PAYLOAD_MAX in HT.
  assert (fragment_ok f) as Hok by (split; lia). destruct (fragment_end f Hok) as (E&_). split_and!; try done.
  unfold malformed. rewrite E. apply orb_false_iff. split; [|apply Z.ltb_ge; unfold IPV4_PAYLOAD_MAX; lia].
  destruct (f_more f); [|done]. cbn. rewrite (proj2 (Z.eqb_neq _ 0)), H5 by (done || lia). done.
Qed.

Lemma cut_apart f A rest : (f :: A) ++ rest ≡ₚ fs -> forall g, g ∈ A ->
  piece_end (new_piece f) <= f_offset g \/ piece_end (new_piece g) <= f_offset f.
Proof.
  intros Hp g Hg. set (R := fun x y => follows x y \/ follows y x).
  assert (ForallOrdPairs R (new_piece <$> (f :: A) ++ rest)) as HR.
  { apply (ForallOrdPairs_perm R (new_piece <$> fs)); [unfold R; tauto|by rewrite Hp|].
    eapply ForallOrdPairs_impl; [|apply W]. unfold R. tauto. }
  cbn in HR. inversion_clear HR as [|?? Hf _]. rewrite Forall_forall in Hf.
  apply (Hf (new_piece g)). apply list_elem_of_fmap. exists g. split; [done|]. apply elem_of_app. by left.
Qed.

(** The slot as it is while the fragments [A] have arrived. *)
Definition partly (A : list fragment) (r : reassembly_t) : Prop :=
  used r = true /\ of_datagram r k /\ pieces r ≡ₚ new_piece <$> A /\
  (total r = 0 \/ total r = T) /\ ((exists g, g ∈ A /\ f_more g = false) -> total r = T).

Lemma checks_pass A f rest r prev next : (f :: A) ++ rest ≡ₚ fs -> slot_ok r -> partly A r ->
  find_gap (pieces r) (f_offset f) = (prev, next) ->
  is_duplicate f r next = false /\ overlaps f prev next = false /\ contradicts f r next = false.
Proof.
  intros Hp Hok (_&_&Hpc&Htot&_) Hgap. assert (f ∈ fs) as Hf by (rewrite <- Hp; left).
  destruct (cut_fragment f Hf) as (Hfok&_&E). destruct (wc_frag _ _ _ _ W f Hf) as (_&F1&F2&F3&F4&F5).
  destruct (find_gap_spec _ _ _ _ Hgap) as (Eg&Hb&Ha). unfold IPV4_PAYLOAD_MAX in HT.
  assert (forall p, p ∈ prev ++ next -> exists g, g ∈ A /\ g ∈ fs /\ p = new_piece g) as Hin.
  { intros p Hp'. rewrite <- Eg, Hpc in Hp'. apply list_elem_of_fmap in Hp' as (g&->&Hg). exists g. split_and!; try done.
    rewrite <- Hp. right. apply elem_of_app. by left. }
  assert (forall n, n ∈ next -> offset n <> f_offset f /\ (f_offset f <= offset n -> f_end f <= offset n) /\ u32 (offset n + len n) = piece_end n /\ piece_end n <= T) as Hn.
  { intros n Hn'. destruct (Hin n) as (g&HgA&Hg&->); [by apply elem_of_app; right|]. destruct (wc_frag _ _ _ _ W g Hg) as (_&G1&G2&G3&_).
    destruct (cut_apart f A rest Hp g HgA) as [Hc|Hc]; unfold piece_end, len in *; cbn in *; unfold f_len in *; rewrite E, u32_small by lia; lia. }
  split_and!.
  - destruct next as [|n next']; [done|]. cbn. destruct (Hn n ltac:(left)) as (Hne&_). by rewrite (proj2 (Z.eqb_neq _ _) Hne).
  - apply orb_false_iff. split.
    + destruct (last prev) as [z|] eqn:Hz; [|done]. apply last_Some_elem_of in Hz. rewrite Forall_forall in Hb. specialize (Hb z Hz).
      destruct (Hin z) as (g&HgA&Hg&->); [by apply elem_of_app; left|]. destruct (wc_frag _ _ _ _ W g Hg) as (_&G1&G2&G3&_).
      apply Z.ltb_ge. destruct (cut_apart f A rest Hp g HgA) as [Hc|Hc]; unfold piece_end, len in *; cbn in *; unfold f_len in *; rewrite u32_small by lia; lia.
    + destruct next as [|n next']; [done|]. apply Z.ltb_ge. destruct (Hn n ltac:(left)) as (_&Hne&_). lia.
  - unfold contradicts. rewrite !orb_false_iff. split_and!.
    + destruct (Z.eqb_spec (total r) 0); [done|]. cbn. apply Z.ltb_ge. lia.
    + destruct (f_more f) eqn:Hm; [done|]. destruct (Z.eqb_spec (total r) 0); [done|]. cbn. apply negb_false_iff, Z.eqb_eq. rewrite E, F4 by done. lia.
    + destruct (f_more f) eqn:Hm; [done|]. destruct (Z.eqb_spec (total r) 0); [|done]. cbn. apply not_true_iff_false. intros (p&Hp1&Hp2)%existsb_exists.
      apply list_elem_of_In in Hp1. destruct (Hn p Hp1) as (_&_&Hu&?). rewrite Hu in Hp2. zbool. rewrite E, F4 in Hp2 by done. lia.
Qed.

Context (s0 : ipfrag) (i : nat) (Hi : (i < IPFRAG_SLOTS)%nat) (Hlen0 : length (slots s0) = IPFRAG_SLOTS).
Context (Hempty : slot s0 i = empty_slot).
Context (Hmem : memory_used s0 + costs (new_piece <$> fs) <= IPFRAG_MEMORY).

(** What is true between two arrivals. *)
Definition arrived (A : list fragment) (s : ipfrag) : Prop :=
  (exists H L, ipfrag_inv H L s []) /\ memory_used s = memory_used s0 + costs (new_piece <$> A) /\
  (forall j, j <> i -> slot s j = slot s0 j) /\ partly A (slot s i).

Lemma arrived_all s : length (slots s) = IPFRAG_SLOTS -> (forall j, slot s j = slot s0 j) -> slots s = slots s0.
Proof.
  intros Hl Hs. apply list_eq. intros j. specialize (Hs j). unfold slot in Hs. rewrite !nth_lookup in Hs.
  destruct (Nat.lt_ge_cases j IPFRAG_SLOTS) as [Hj|Hj].
  - destruct (lookup_lt_is_Some_2 (slots s) j) as [x Hx]; [lia|]. destruct (lookup_lt_is_Some_2 (slots s0) j) as [y Hy]; [lia|].
    rewrite Hx, Hy in *. by f_equal.
  - rewrite !lookup_ge_None_2 by lia. done.
Qed.

Lemma payload_pieces l : concat (data <$> (new_piece <$> l)) = payload l.
Proof. unfold payload. by rewrite <- list_fmap_compose. Qed.

Lemma place_arrived A f rest s fresh began : (f :: A) ++ rest ≡ₚ fs -> arrived A s ->
  let o := place_fragment (Some fresh) f i began [] s in
  match rest with
  | [] => datagram o = Some (payload fs) /\ slots (state o) = slots s0 /\ memory_used (state o) = memory_used s0
  | _ => datagram o = None /\ memory_used (state o) = memory_used s0 + costs (new_piece <$> f :: A) /\
         (forall j, j <> i -> slot (state o) j = slot s0 j) /\ partly (f :: A) (slot (state o) i)
  end.
Proof.
  intros Hp ((H&L&Hinv)&Hm&Hoth&Hpart). assert (f ∈ fs) as Hf by (rewrite <- Hp; left).
  destruct (cut_fragment f Hf) as (Hfok&Hmal&E). destruct (wc_frag _ _ _ _ W f Hf) as (Hkey&F1&F2&F3&F4&F5).
  destruct (inv_slot _ _ _ _ i Hinv Hi) as (Hok&_&Hcost). pose proof (fi_bound _ _ _ _ Hinv) as Hb. pose proof (fi_slots _ _ _ _ Hinv) as Hlen.
  unfold place_fragment. destruct (find_gap (pieces (slot s i)) (f_offset f)) as [prev next] eqn:Hgap.
  destruct (checks_pass A f rest (slot s i) prev next Hp Hok Hpart Hgap) as (->&Hov&Hcon). rewrite Hov, Hcon. cbn [orb].
  assert (costs (new_piece <$> fs) = 32 + f_len f + costs (new_piece <$> A) + costs (new_piece <$> rest)) as Hcs.
  { rewrite <- Hp, fmap_app, fmap_cons, costs_app. cbn [costs]. unfold IPFRAG_PIECE_OVERHEAD. change (len (new_piece f)) with (f_len f). lia. }
  pose proof (costs_bound (new_piece <$> rest)) as Hcr. pose proof (lens_nonneg (new_piece <$> rest)) as Hlr.
  cbn zeta. unfold IPFRAG_PIECE_OVERHEAD. rewrite (u64_small (32 + _)) by (unfold IPV4_PAYLOAD_MAX in HT; lia).
  pose proof (make_room_spec H L (32 + f_len f) i ltac:(lia) ltac:(unfold IPFRAG_MEMORY, IPV4_PAYLOAD_MAX in *; lia) IPFRAG_SLOTS s [] Hinv Hi) as HR.
  destruct (make_room IPFRAG_SLOTS (32 + f_len f) i s []) as [[room s1] g1].
  destruct HR as (_&_&_&Hroom&Hsame).
  { unfold used_slots. etransitivity; [apply length_filter|]. by rewrite Hlen. }
  destruct Hsame as [-> ->]; [lia|]. destruct room; [|unfold IPFRAG_MEMORY in *; lia]. cbn [negb].
  destruct (inserted_shape f prev next (slot s i) Hfok Hok Hmal ltac:(lia) Hgap Hov Hcon) as (Q1&Q2&Q3&Q4&Q5&Q6&Q7&Q8&Q9).
  set (r := inserted f prev next (slot s i)) in *. unfold insert_piece. fold r. rewrite slot_with by lia.
  destruct Hpart as (P1&P2&P3&P4&P5). rewrite P3, <- fmap_cons in Q2.
  assert (partly (f :: A) r) as Hpart'.
  { split_and!; try done; cbn [total r inserted].
    - destruct (f_more f); [done|]. right. by rewrite E, F4.
    - intros (g&[->|Hg]%elem_of_cons&Hgm); [by rewrite Hgm, E, F4|]. destruct (f_more f); [|by rewrite E, F4]. apply P5. by exists g. }
  assert (received r = lens (new_piece <$> f :: A)) as Hrec by (by rewrite Q5, Q2).
  assert (lens (new_piece <$> f :: A) + lens (new_piece <$> rest) = T) as Hall.
  { rewrite <- lens_app, <- fmap_app, Hp, (wc_lens _ _ _ _ W). lia. }
  unfold IPFRAG_MEMORY, IPFRAG_PIECE_OVERHEAD in *. rewrite (u64_small (32 + _)), u64_small by (unfold IPV4_PAYLOAD_MAX in HT; lia).
  destruct rest as [|f' rest].
  - change (lens (new_piece <$> [])) with 0 in Hall. rewrite Z.add_0_r in Hall. destruct Hpart' as (_&_&_&_&HT'). destruct (wc_last _ _ _ _ W) as (z&Hz&Hzm).
    rewrite <- Hp, app_nil_r in Hz. specialize (HT' ltac:(by exists z)). destruct (Z.eqb_spec (total r) 0); [lia|].
    rewrite Hrec, Hall, HT', Z.eqb_refl. cbn [negb andb]. destruct (Q9 ltac:(lia)) as [Q10 _].
    destruct (complete_bytes fresh r Q3 Q4 ltac:(lia) Q10 ltac:(lia)) as (Hw&_&_).
    unfold complete. rewrite slot_with by lia. rewrite Hw, with_slot_twice. cbn [datagram state]. split_and!.
    + f_equal. rewrite <- payload_pieces. do 2 f_equal. rewrite app_nil_r in Hp. rewrite Hp in Q2.
      apply follows_unique; [done|apply W| |done]. rewrite Q2. apply Forall_fmap, Forall_forall. intros g Hg.
      destruct (wc_frag _ _ _ _ W g Hg) as (_&_&_&?&_). done.
    + apply arrived_all; [cbn; rewrite length_insert; done|]. intros j. destruct (decide (j = i)) as [->|Hj].
      * change (slot (with_slot s i empty_slot (memory_used s + (32 + f_len f) -w cost r)) i = slot s0 i). by rewrite slot_with by lia.
      * change (slot (with_slot s i empty_slot (memory_used s + (32 + f_len f) -w cost r)) j = slot s0 j).
        rewrite slot_with_ne by done. by apply Hoth.
    + cbn [memory_used with_stats with_slot]. pose proof (so_cost _ Hok) as Hc. rewrite P3 in Hc. rewrite u64_small by lia. lia.
  - assert (received r <> T) as Hne.
    { rewrite Hrec. assert (0 < lens (new_piece <$> f' :: rest)); [|lia]. cbn. pose proof (lens_nonneg (new_piece <$> rest)).
      destruct (wc_frag _ _ _ _ W f') as (_&_&_&?&_); [rewrite <- Hp; apply elem_of_app; right; left|]. change (len (new_piece f')) with (f_len f'). lia. }
    assert (negb (total r =? 0) && (received r =? total r) = false) as ->.
    { destruct Hpart' as (_&_&_&[->| ->]&_); [done|]. rewrite (proj2 (Z.eqb_neq _ _) Hne). apply andb_false_r. }
    cbn [datagram state]. split_and!; try done.
    + cbn. rewrite Hm. change (len (new_piece f)) with (f_len f). unfold IPFRAG_PIECE_OVERHEAD. lia.
    + intros j Hj. rewrite slot_with_ne by done. by apply Hoth.
    + by rewrite slot_with by lia.
Qed.
End Arrival.

Section Arrive.
Context (k : fragment) (fs : list fragment) (T : Z) (W : well_cut k 0 T fs) (HT : T <= IPV4_PAYLOAD_MAX).
Context (H0 : list fragment) (L0 : list piece_t) (s0 : ipfrag) (Hinv0 : ipfrag_inv H0 L0 s0 []).
Context (i : nat) (Hfree : find_slot (fun r => negb (used r)) (slots s0) 0 = Some i).
Context (Hnone : find_slot (same_datagram k) (slots s0) 0 = None).
Context (Hmem : memory_used s0 + costs (new_piece <$> fs) <= IPFRAG_MEMORY) (fresh : nat -> Z).

Notation arrived := (arrived k T s0 i).

Lemma same_datagram_key f r : same_key k f -> same_datagram f r = same_datagram k r.
Proof. unfold same_datagram. intros (->&->&->&->). done. Qed.

Lemma free_index : (i < IPFRAG_SLOTS)%nat /\ slot s0 i = empty_slot.
Proof.
  pose proof (find_slot_in _ _ _ Hfree) as [Hlt Hu]. rewrite (fi_slots _ _ _ _ Hinv0) in Hlt. split; [done|].
  apply negb_true_iff in Hu. by apply (so_unused _ (proj1 (inv_slot _ _ _ _ i Hinv0 Hlt))).
Qed.

Lemma no_other_slot j : (j < IPFRAG_SLOTS)%nat -> same_datagram k (slot s0 j) = false.
Proof.
  intros Hj. pose proof (find_slot_spec (same_datagram k) (slots s0) 0) as HS. rewrite Hnone in HS.
  destruct (lookup_lt_is_Some_2 (slots s0) j) as [r Hr]; [by rewrite (fi_slots _ _ _ _ Hinv0)|].
  rewrite (slot_lookup _ _ _ Hr). rewrite Forall_forall in HS. apply HS. by eapply list_elem_of_lookup_2.
Qed.

(** What the call for [f] returns, when [A] came before it and [rest] is to come. *)
Definition next_call (A : list fragment) (f : fragment) (rest : list fragment) (o : outcome) : Prop :=
  match rest with
  | [] => datagram o = Some (payload fs) /\ slots (state o) = slots s0 /\ memory_used (state o) = memory_used s0
  | _ => datagram o = None /\ arrived (f :: A) (state o)
  end.

Lemma place_next A f rest s s1 now began : (f :: A) ++ rest ≡ₚ fs -> arrived A s1 ->
  (exists H L, ipfrag_inv H L s []) -> ipfrag_input true (Some fresh) f now s = place_fragment (Some fresh) f i began [] s1 ->
  next_call A f rest (ipfrag_input true (Some fresh) f now s).
Proof.
  intros Hp Ha (H&L&Hinv) E. destruct free_index as [Hi He]. pose proof (fi_slots _ _ _ _ Hinv0) as Hlen.
  assert (f ∈ fs) as Hf by (rewrite <- Hp; left). destruct (cut_fragment k fs T W HT f Hf) as (Hfok&_).
  destruct (input_inv H L s f now true (Some fresh) Hfok Hinv) as [Hi' _].
  pose proof (place_arrived k fs T W HT s0 i Hi Hlen He Hmem A f rest s1 fresh began Hp Ha) as HP. cbn zeta in HP.
  rewrite <- E in HP. unfold next_call. destruct rest; [done|]. destruct HP as (P1&P2&P3&P4). split; [done|].
  split; [|done]. eexists _, _. by eapply inv_drop.
Qed.

Lemma input_first f rest s now : [f] ++ rest ≡ₚ fs -> (exists H L, ipfrag_inv H L s []) ->
  slots s = slots s0 -> memory_used s = memory_used s0 -> next_call [] f rest (ipfrag_input true (Some fresh) f now s).
Proof.
  intros Hp (H&L&Hinv) Hs Hm. assert (f ∈ fs) as Hf by (rewrite <- Hp; left). destruct (cut_fragment k fs T W HT f Hf) as (_&Hmal&_).
  destruct (wc_frag _ _ _ _ W f Hf) as (Hkey&_).
  set (s' := with_stats s inc_fragments). pose proof (inv_stats _ _ _ _ inc_fragments Hinv) as Hinv'. fold s' in Hinv'.
  pose proof (new_slot_inv _ L s' f now Hinv') as HN.
  assert (find_slot (same_datagram f) (slots s') 0 = None) as Hno.
  { cbn. rewrite Hs, <- Hnone. clear -Hkey. generalize 0%nat. induction (slots s0) as [|r l IH]; intros n; cbn; [done|].
    rewrite (same_datagram_key f r Hkey), IH. done. }
  destruct (new_slot f now s') as [[j s1] g] eqn:En. destruct HN as (_&Hi1&_&HN).
  destruct (HN i) as (->&->&E1); [cbn; by rewrite Hs|]. destruct free_index as [Hi He].
  apply (place_next [] f rest s s1 now true Hp); [|by eexists _, _|].
  - split; [by eexists _, _|]. subst s1. split; [cbn; lia|]. split.
    + intros j Hj. rewrite slot_with_ne by done. unfold slot. cbn. by rewrite Hs.
    + rewrite slot_with by (by rewrite (fi_slots _ _ _ _ Hinv')). destruct Hkey as (K1&K2&K3&K4). split_and!; try done.
      * by left.
      * by intros (?&?%not_elem_of_nil&_).
  - unfold ipfrag_input. fold s'. rewrite Hmal, Hno, En. done.
Qed.

Lemma input_next A f rest s now : (f :: A) ++ rest ≡ₚ fs -> arrived A s ->
  next_call A f rest (ipfrag_input true (Some fresh) f now s).
Proof.
  intros Hp Ha. assert (f ∈ fs) as Hf by (rewrite <- Hp; left). destruct (cut_fragment k fs T W HT f Hf) as (_&Hmal&_).
  destruct (wc_frag _ _ _ _ W f Hf) as (Hkey&_). pose proof Ha as ((H&L&Hinv)&Hm&Hoth&(Hu&Hk&Hpt)). destruct free_index as [Hi He].
  apply (place_next A f rest s (with_stats s inc_fragments) now false Hp).
  - destruct Ha as (_&Ha). split; [|done]. eexists _, _. by apply inv_stats.
  - by eexists _, _.
  - unfold ipfrag_input. rewrite Hmal. cbn [negb]. cbn [slots with_stats].
    assert (find_slot (same_datagram f) (slots s) 0 = Some i) as ->; [|done].
    pose proof (find_slot_spec (same_datagram f) (slots s) 0) as HF. pose proof (fi_slots _ _ _ _ Hinv) as Hlen.
    assert (same_datagram f (slot s i) = true) as Hyes.
    { rewrite (same_datagram_key _ _ Hkey). destruct Hk as (K1&K2&K3&K4). unfold same_datagram. by rewrite Hu, K1, K2, K3, K4, !Z.eqb_refl. }
    destruct (find_slot (same_datagram f) (slots s) 0) as [j|] eqn:Ej.
    + apply find_slot_in in Ej as [Hj HS]. rewrite Hlen in Hj. destruct (decide (j = i)) as [->|Hne]; [done|].
      rewrite Hoth, (same_datagram_key _ _ Hkey), no_other_slot in HS by done. done.
    + exfalso. destruct (lookup_lt_is_Some_2 (slots s) i) as [r Hr]; [by rewrite Hlen|]. rewrite (slot_lookup _ _ _ Hr) in Hyes.
      rewrite Forall_forall in HF. specialize (HF r (list_elem_of_lookup_2 _ _ _ Hr)). congruence.
Qed.

Lemma arrive_rest l : forall A s, A ++ (fst <$> l) ≡ₚ fs -> l <> [] -> arrived A s ->
  let '(out, s') := arrive fresh l s in
  out = replicate (length l - 1) None ++ [Some (payload fs)] /\ slots s' = slots s0 /\ memory_used s' = memory_used s0.
Proof.
  induction l as [|[f now] l IH]; intros A s Hp Hne Ha; [done|]. cbn [arrive]. cbn zeta.
  rewrite fmap_cons in Hp. cbn [fst] in Hp. rewrite <- Permutation_middle in Hp.
  pose proof (input_next A f (fst <$> l) s now Hp Ha) as HN. destruct l as [|[f2 now2] l].
  - cbn. destruct HN as (->&?&?). done.
  - unfold next_call in HN. rewrite fmap_cons in HN. destruct HN as (->&Ha'). specialize (IH (f :: A) _ Hp ltac:(done) Ha').
    destruct (arrive fresh ((f2, now2) :: l) _) as [out s']. destruct IH as (->&?&?). split; [|done]. cbn. by rewrite Nat.sub_0_r.
Qed.

Lemma arrive_spec l : (fst <$> l) ≡ₚ fs ->
  let '(out, s') := arrive fresh l s0 in
  out = replicate (length l - 1) None ++ [Some (payload fs)] /\ slots s' = slots s0 /\ memory_used s' = memory_used s0.
Proof.
  destruct l as [|[f now] l]; intros Hp.
  { exfalso. destruct (wc_last _ _ _ _ W) as (z&Hz&_). rewrite <- Hp in Hz. by apply not_elem_of_nil in Hz. }
  cbn [arrive]. cbn zeta. rewrite fmap_cons in Hp. cbn [fst] in Hp.
  pose proof (input_first f (fst <$> l) s0 now Hp ltac:(by eexists _, _) eq_refl eq_refl) as HN. destruct l as [|[f2 now2] l].
  - cbn. destruct HN as (->&?&?). done.
  - unfold next_call in HN. rewrite fmap_cons in HN. destruct HN as (->&Ha').
    pose proof (arrive_rest ((f2, now2) :: l) [f] _ Hp ltac:(done) Ha') as IH.
    destruct (arrive fresh ((f2, now2) :: l) _) as [out s']. destruct IH as (->&?&?). split; [|done]. cbn. by rewrite Nat.sub_0_r.
Qed.
End Arrive.

Lemma find_slot_some P l n : (exists r, r ∈ l /\ P r = true) -> exists i, find_slot P l n = Some i.
Proof.
  intros (r&Hr&HP). pose proof (find_slot_spec P l n) as HS. destruct (find_slot P l n) as [i|]; [by exists i|].
  rewrite Forall_forall in HS. specialize (HS r Hr). congruence.
Qed.

Lemma find_slot_none P l n : Forall (fun r => P r = false) l -> find_slot P l n = None.
Proof.
  intros HP. pose proof (find_slot_spec P l n) as HS. destruct (find_slot P l n) as [i|]; [|done].
  destruct HS as (r&Hr&_&E&_). apply list_elem_of_lookup_2 in Hr. rewrite Forall_forall in HP. specialize (HP r Hr). congruence.
Qed.

(** * Properties *)

(** C28. A datagram whose fragments all arrive is reassembled, whatever the order
    they arrive in: if a slot is free, no datagram with its key is in progress
    and there is memory for its pieces, every call but the last returns nothing,
    the last returns exactly the datagram, and the table is as it was before. *)
Theorem ipfrag_reassembles H s k fs arrivals fresh :
  rtc ipfrag_step ([], ipfrag_static) (H, s) ->
  cut k 0 fs -> Z.of_nat (length (payload fs)) <= IPV4_PAYLOAD_MAX -> (fst <$> arrivals) ≡ₚ fs ->
  (exists r, r ∈ slots s /\ used r = false) -> Forall (fun r => same_datagram k r = false) (slots s) ->
  memory_used s + costs (new_piece <$> fs) <= IPFRAG_MEMORY ->
  let '(out, s') := arrive fresh arrivals s in
  out = replicate (length arrivals - 1) None ++ [Some (payload fs)] /\ slots s' = slots s /\ memory_used s' = memory_used s.
Proof.
  intros Hr Hc Hmax Hp (r&Hin&Hu) Hno Hmem. pose proof (run_reachable H s Hr) as Hinv. apply cut_well_cut in Hc. cbn in Hc.
  destruct (find_slot_some (fun r => negb (used r)) (slots s) 0) as [i Hi]; [exists r; by rewrite Hu|].
  eapply arrive_spec; [exact Hc|done|exact Hinv|exact Hi|by apply find_slot_none|done|done].
Qed.

(** C29. A datagram is never made up: after any sequence of calls, every byte of
    a datagram that [ipfrag_input] returns was received at that place in a
    fragment with the same source, destination, protocol and identification,
    and its length is what such a fragment without the "more" flag said. *)
Theorem ipfrag_authentic H s f now got whole d :
  rtc ipfrag_step ([], ipfrag_static) (H, s) -> fragment_ok f ->
  datagram (ipfrag_input got whole f now s) = Some d -> authentic (f :: H) f d.
Proof. intros Hr Hf Hd. eapply input_inv; [done|by apply run_reachable|done]. Qed.

(** The table stays within its limits and leaks nothing: after any sequence
    of calls the pieces of each datagram in progress are in order and do not
    overlap, the memory charged is the sum over the datagrams and at most
    [IPFRAG_MEMORY], and a call frees every piece it does not keep. *)
Theorem ipfrag_bounded H s :
  rtc ipfrag_step ([], ipfrag_static) (H, s) ->
  length (slots s) = IPFRAG_SLOTS /\ Forall slot_ok (slots s) /\
  memory_used s = slot_costs (slots s) /\ memory_used s <= IPFRAG_MEMORY /\
  (forall f now got whole, fragment_ok f ->
     let o := ipfrag_input got whole f now s in
     held (slots (state o)) ++ freed o ≡ₚ held (slots s) ++ (if got && negb (malformed f) then [new_piece f] else [])) /\
  (forall now, let '(s', garbage, _, _) := ipfrag_expire now s in held (slots s') ++ garbage ≡ₚ held (slots s)).
Proof.
  intros Hr. pose proof (run_reachable H s Hr) as Hinv. split_and!; try apply Hinv.
  - intros f now got whole Hf. by destruct (input_inv H _ s f now got whole Hf Hinv) as [[] _].
  - intros now. pose proof (expire_loop_inv H now IPFRAG_SLOTS 0 _ s [] [] 0 ltac:(lia) Hinv) as He. unfold ipfrag_expire.
    destruct (fold_left _ _ _) as [[[s' g'] q'] d']. by destruct He.
Qed.

(** [ipfrag_expire] gives up exactly the datagrams whose time has run out,
    reports those whose first fragment had come, and returns the earliest
    deadline that is left (0 if there is none). *)
Theorem ipfrag_expire_correct s now :
  length (slots s) = IPFRAG_SLOTS -> 0 <= now ->
  let '(s', _, quotes, next) := ipfrag_expire now s in
  slots s' = (fun r => if due now r then empty_slot else r) <$> slots s /\
  quotes = filter (fun q => 0 < Z.of_nat (length q)) (quote <$> filter (fun r => due now r = true) (slots s)) /\
  match filter (fun r => used r = true /\ due now r = false) (slots s) with
  | [] => next = 0
  | others => (exists r, r ∈ others /\ deadline r = next) /\ Forall (fun r => next <= deadline r) others
  end.
Proof.
  intros Hl Hnow. unfold ipfrag_expire. rewrite <- Hl.
  pose proof (expire_loop_spec now (slots s) [] s [] [] 0 eq_refl) as HS. cbn [length] in HS.
  destruct (fold_left (expire_slot now) (seq 0 (length (slots s))) (s, [], [], 0)) as [[[s' g'] q'] d'].
  destruct HS as (A&B&C). cbn in A, B. split; [done|]. split; [done|]. fold (waiting now (slots s)).
  destruct (earlier_least (waiting now (slots s)) 0) as (D1&_&_&D4); [lia| |].
  { apply Forall_forall. intros r [[Hu Hd] _]%list_elem_of_filter. unfold due in Hd. rewrite Hu in Hd. cbn in Hd. zbool. lia. }
  rewrite <- C in *. destruct (waiting now (slots s)) as [|r l] eqn:Ew.
  - destruct D1 as [?|(r&Hr%not_elem_of_nil&_)]; done.
  - split.
    + destruct D1 as [E|D1]; [|done]. specialize (D4 r ltac:(left)). lia.
    + apply Forall_forall. intros x Hx. destruct (D4 x Hx). done.
Qed.

(** * Witnesses *)

(** Twelve bytes in two fragments. *)
Definition sample_first : fragment := mkFragment 1 2 17 7 0 true (replicate 20 0x45) [1; 2; 3; 4; 5; 6; 7; 8].
Definition sample_last : fragment := mkFragment 1 2 17 7 8 false (replicate 20 0x45) [9; 10; 11; 12].

Lemma sample_cut : cut sample_first 0 [sample_first; sample_last].
Proof. repeat split; discriminate. Qed.

Lemma ipfrag_reassembles_witness :
  fst (arrive (fun _ => 0) [(sample_last, 5); (sample_first, 6)] ipfrag_static) = [None; Some [1; 2; 3; 4; 5; 6; 7; 8; 9; 10; 11; 12]].
Proof.
  pose proof (ipfrag_reassembles [] ipfrag_static sample_first [sample_first; sample_last]
    [(sample_last, 5); (sample_first, 6)] (fun _ => 0) (rtc_refl _ _) sample_cut) as H.
  destruct (arrive (fun _ => 0) [(sample_last, 5); (sample_first, 6)] ipfrag_static) as [out s'].
  destruct H as (->&_&_).
  - vm_compute. discriminate.
  - apply Permutation_swap.
  - exists empty_slot. split; [left|reflexivity].
  - repeat constructor.
  - vm_compute. discriminate.
  - reflexivity.
Defined.

Notation sample_state := (state (ipfrag_input true (Some (fun _ => 0)) sample_last 5 ipfrag_static)).

Lemma sample_reachable : rtc ipfrag_step ([], ipfrag_static) ([sample_last], sample_state).
Proof. apply rtc_once, step_input. split; vm_compute; intuition congruence. Qed.

Lemma ipfrag_authentic_witness : authentic [sample_first; sample_last] sample_first [1; 2; 3; 4; 5; 6; 7; 8; 9; 10; 11; 12].
Proof.
  apply (ipfrag_authentic [sample_last] sample_state sample_first 6 true (Some (fun _ => 0))).
  - exact sample_reachable.
  - split; vm_compute; intuition congruence.
  - vm_compute. reflexivity.
Defined.

Lemma ipfrag_bounded_witness : memory_used sample_state = slot_costs (slots sample_state) /\ Forall slot_ok (slots sample_state).
Proof. destruct (ipfrag_bounded [sample_last] sample_state sample_reachable) as (_&A&B&_). split; [exact B|exact A]. Defined.

Lemma ipfrag_expire_correct_witness : snd (ipfrag_expire 4000 sample_state) = 0.
Proof.
  pose proof (ipfrag_expire_correct sample_state 4000 eq_refl ltac:(lia)) as H.
  destruct (ipfrag_expire 4000 sample_state) as [[[s' g'] q'] d']. destruct H as (_&_&H). exact H.
Defined.
