(* ===== verification/Pipe.v ===== *)
(** Pipes, [src/fs/pipe.c] and [src/fs/pipe.h].

    [pipe_read] and [pipe_write] hold the pipe's lock except while they sleep, so
    a call is a sequence of atomic segments: it runs until it returns or goes to
    sleep, and runs again once somebody has called [sched_wakeup] on the pipe (or
    a signal arrived). [system] is a pipe with the tasks that use it, and its
    steps interleave their segments in any order. *)
From stdpp Require Import base tactics numbers list relations.
From Stdlib Require Import ZArith Lia.
From S2P Require Import Prelude Errno Ring.

Open Scope Z_scope.

Definition PIPE_BUFFER_SIZE : Z := 4096.

Definition POLLIN : Z := 0x001.
Definition POLLOUT : Z := 0x004.
Definition POLLERR : Z := 0x008.
Definition POLLHUP : Z := 0x010.

Record pipe_t := mkPipe {
  buffer : list Z;
  head : Z;
  tail : Z;
  count : Z;
  reader_open : bool;
  writer_open : bool
}.

Definition pipe_create : pipe_t := mkPipe (replicate (Z.to_nat PIPE_BUFFER_SIZE) 0) 0 0 0 true true.

(** A call in progress: bytes still wanted, or bytes still to be written and
    how many have gone through. *)
Inductive call :=
| Reading (want : Z)
| Writing (rest : list Z) (done : Z).

(** How a segment ends: with a result (and the bytes read), or asleep. *)
Inductive progress :=
| Returns (result : Z) (bytes : list Z)
| Sleeps (c : call).

(** The loop that takes bytes out. [n] is the number of bytes buffered. *)
Fixpoint drain (n : nat) (want : Z) (p : pipe_t) : list Z * pipe_t :=
  match n with
  | O => ([], p)
  | S n' =>
      if (0 <? want) && (0 <? count p) then
        let b := get (buffer p) (tail p) in
        let '(bytes, p') := drain n' (want - 1)
          (mkPipe (buffer p) (head p) ((tail p + 1) mod PIPE_BUFFER_SIZE) (count p - 1) (reader_open p) (writer_open p)) in
        (b :: bytes, p')
      else ([], p)
  end.

(** [pipe_read] from where it holds the lock until it returns or sleeps. The last
    component: whether it called [sched_wakeup]. *)
Definition pipe_read (interrupted : bool) (want : Z) (p : pipe_t) : progress * pipe_t * bool :=
  if want =? 0 then (Returns 0 [], p, false) else
  if (count p =? 0) && writer_open p then
    if interrupted then (Returns (- EINTR) [], p, false) else (Sleeps (Reading want), p, false)
  else
    let '(bytes, p) := drain (Z.to_nat (count p)) want p in
    let done := Z.of_nat (length bytes) in
    (Returns done bytes, p, 0 <? done).

(** The loop that puts bytes in; what is left of them. *)
Fixpoint fill (rest : list Z) (p : pipe_t) : list Z * pipe_t :=
  match rest with
  | [] => ([], p)
  | b :: rest' =>
      if count p <? PIPE_BUFFER_SIZE then
        fill rest' (mkPipe (put (buffer p) (head p) b) ((head p + 1) mod PIPE_BUFFER_SIZE) (tail p) (count p + 1)
                      (reader_open p) (writer_open p))
      else (rest, p)
  end.

(** One round of the loop of [pipe_write]: the bytes left, how many are done,
    whether it has woken anybody. *)
Definition write_round (interrupted : bool) (c : list Z * Z * pipe_t * bool) : list Z * Z * pipe_t * bool + progress * pipe_t * bool :=
  let '(rest, done, p, woke) := c in
  let total := done + Z.of_nat (length rest) in
  let finish := Returns (if (done =? 0) && (0 <? total) then - EPIPE else done) [] in
  if negb (done <? total) then inr (finish, p, woke) else
  if negb (reader_open p) then inr (finish, p, woke) else
  if count p =? PIPE_BUFFER_SIZE then
    if interrupted then inr (Returns (if 0 <? done then done else - EINTR) [], p, woke)
    else inr (Sleeps (Writing rest done), p, woke)
  else
    let '(rest', p') := fill rest p in
    inl (rest', done + (Z.of_nat (length rest) - Z.of_nat (length rest')), p', true).

(** [pipe_write] until it returns or sleeps. A round that puts bytes in leaves
    none of them or a full pipe, so the second or third round is the last. *)
Definition pipe_write (interrupted : bool) (rest : list Z) (done : Z) (p : pipe_t) : progress * pipe_t * bool :=
  match loop 3 (write_round interrupted) (rest, done, p, false) with
  | inr r => r
  | inl (rest, done, p, woke) => (Sleeps (Writing rest done), p, woke)
  end.

(** [close_end]; the second component: the pipe is freed. *)
Definition pipe_close_reader (p : pipe_t) : pipe_t * bool :=
  let p := mkPipe (buffer p) (head p) (tail p) (count p) false (writer_open p) in (p, negb (reader_open p) && negb (writer_open p)).
Definition pipe_close_writer (p : pipe_t) : pipe_t * bool :=
  let p := mkPipe (buffer p) (head p) (tail p) (count p) (reader_open p) false in (p, negb (reader_open p) && negb (writer_open p)).

Definition pipe_poll (p : pipe_t) (reader : bool) : Z :=
  if reader then
    let events := if 0 <? count p then POLLIN else 0 in
    if negb (writer_open p) then Z.lor events (Z.lor POLLIN POLLHUP) else events
  else if negb (reader_open p) then POLLERR
  else if count p <? PIPE_BUFFER_SIZE then POLLOUT else 0.

(** * The tasks *)

Inductive task :=
| Idle
| Runs (c : call)
| Asleep (c : call).

(** [sched_wakeup]: every task asleep on the pipe runs again. *)
Definition wake (woke : bool) (l : list task) : list task :=
  if woke then (fun t => match t with Asleep c => Runs c | t => t end) <$> l else l.

Definition after (pr : progress) : task := match pr with Returns _ _ => Idle | Sleeps c => Asleep c end.
Definition bytes_read (pr : progress) : list Z := match pr with Returns _ bytes => bytes | Sleeps _ => [] end.

(** [sent] and [delivered]: all bytes that have gone into the pipe and come out. *)
Record system := mkSystem { pipe : pipe_t; tasks : list task; sent : list Z; delivered : list Z }.

Definition start (n : nat) : system := mkSystem pipe_create (replicate n Idle) [] [].

(** The bytes a write has put in: those before what is left of them. *)
Definition left_of (pr : progress) (rest : list Z) (done : Z) : list Z :=
  match pr with
  | Sleeps (Writing rest' _) => rest'
  | Sleeps _ => rest
  | Returns r _ => if r <? 0 then rest else drop (Z.to_nat (r - done)) rest
  end.
Definition written (pr : progress) (rest : list Z) (done : Z) : list Z := take (length rest - length (left_of pr rest done)) rest.

Inductive system_step : system -> system -> Prop :=
| step_read s i want :
    tasks s !! i = Some Idle -> 0 <= want ->
    system_step s (mkSystem (pipe s) (<[i := Runs (Reading want)]> (tasks s)) (sent s) (delivered s))
| step_write s i bytes :
    tasks s !! i = Some Idle ->
    system_step s (mkSystem (pipe s) (<[i := Runs (Writing bytes 0)]> (tasks s)) (sent s) (delivered s))
| step_reading s i want interrupted pr p woke :
    tasks s !! i = Some (Runs (Reading want)) -> pipe_read interrupted want (pipe s) = (pr, p, woke) ->
    system_step s (mkSystem p (<[i := after pr]> (wake woke (tasks s))) (sent s) (delivered s ++ bytes_read pr))
| step_writing s i rest done interrupted pr p woke :
    tasks s !! i = Some (Runs (Writing rest done)) -> pipe_write interrupted rest done (pipe s) = (pr, p, woke) ->
    system_step s (mkSystem p (<[i := after pr]> (wake woke (tasks s))) (sent s ++ written pr rest done) (delivered s))
| step_signal s i c :
    tasks s !! i = Some (Asleep c) ->
    system_step s (mkSystem (pipe s) (<[i := Runs c]> (tasks s)) (sent s) (delivered s))
| step_close_reader s p :
    pipe_close_reader (pipe s) = (p, false) -> system_step s (mkSystem p (wake true (tasks s)) (sent s) (delivered s))
| step_close_writer s p :
    pipe_close_writer (pipe s) = (p, false) -> system_step s (mkSystem p (wake true (tasks s)) (sent s) (delivered s)).

(** * Invariant *)

Definition contents (p : pipe_t) : list Z := ring PIPE_BUFFER_SIZE (buffer p) (tail p) (count p).

Record pipe_ok (p : pipe_t) : Prop := {
  po_ring : ring_ok PIPE_BUFFER_SIZE (buffer p) (tail p) (count p);
  po_head : head p = (tail p + count p) mod PIPE_BUFFER_SIZE
}.

Lemma size_pos : 0 < PIPE_BUFFER_SIZE.
Proof. done. Qed.

Lemma create_ok : pipe_ok pipe_create /\ contents pipe_create = [].
Proof. split; [|done]. split; [split|done]; cbn [pipe_create buffer tail count]; rewrite ?length_replicate; unfold PIPE_BUFFER_SIZE; lia. Qed.

Lemma contents_length p : pipe_ok p -> Z.of_nat (length (contents p)) = count p.
Proof. intros []. apply ring_length, ring_count with (1 := po_ring0). Qed.

(** [drain] takes as many bytes as are wanted and there, from the front. *)
Lemma drain_spec n : forall want p, pipe_ok p -> 0 <= want -> Z.of_nat n = count p ->
  let '(bytes, p') := drain n want p in
  pipe_ok p' /\ contents p = bytes ++ contents p' /\ Z.of_nat (length bytes) = Z.min want (count p) /\
  reader_open p' = reader_open p /\ writer_open p' = writer_open p.
Proof.
  induction n as [|n IH]; intros want p Hp Hw Hn; cbn [drain].
  { split_and!; try done. cbn [length]. lia. }
  destruct (Z.ltb_spec 0 want); cbn [andb]; [|split_and!; try done; cbn [length]; lia].
  destruct (Z.ltb_spec 0 (count p)); [|lia].
  destruct Hp as [Hr Hh]. destruct (ring_pop _ size_pos _ _ _ Hr) as [E Hr']; [lia|].
  set (p1 := mkPipe _ _ _ _ _ _). specialize (IH (want - 1) p1).
  destruct (drain n (want - 1) p1) as [bytes p']. destruct IH as (A&B&C&D&F); [|lia|cbn; lia|].
  - split; [done|]. cbn. rewrite Hh, Zplus_mod_idemp_l. f_equal. lia.
  - split_and!; try done; [|cbn in *; lia]. unfold contents at 1. rewrite E. cbn. f_equal. exact B.
Qed.

(** [fill] appends bytes until there are none or the pipe is full. *)
Lemma fill_spec rest : forall p, pipe_ok p ->
  let '(rest', p') := fill rest p in
  pipe_ok p' /\ (exists bytes, rest = bytes ++ rest' /\ contents p' = contents p ++ bytes) /\
  (rest' = [] \/ count p' = PIPE_BUFFER_SIZE) /\ reader_open p' = reader_open p /\ writer_open p' = writer_open p.
Proof.
  induction rest as [|b rest IH]; intros p Hp; cbn [fill].
  { split_and!; try done; [|by left]. exists []. by rewrite !app_nil_r. }
  destruct (Z.ltb_spec (count p) PIPE_BUFFER_SIZE).
  - destruct Hp as [Hr Hh]. destruct (ring_push _ size_pos _ _ _ b Hr) as [E Hr']; [lia|]. rewrite <- Hh in E, Hr'.
    set (p1 := mkPipe _ _ _ _ _ _). specialize (IH p1). destruct (fill rest p1) as [rest' p'].
    destruct IH as (A&(bytes&B1&B2)&C&D&F).
    + split; [done|]. cbn. rewrite Hh, Zplus_mod_idemp_l. f_equal. lia.
    + split_and!; try done. exists (b :: bytes). split; [cbn; by f_equal|]. rewrite B2. unfold contents at 1. cbn [p1 buffer tail count].
      rewrite E, <- (assoc_L (++)). done.
  - split_and!; try done; [exists []; by rewrite app_nil_r|]. right. destruct Hp as [[_ _ ?] _]. lia.
Qed.

(** ** One segment *)

(** What a segment of [pipe_read] does. *)
Record read_done (interrupted : bool) (want : Z) (p : pipe_t) (pr : progress) (p' : pipe_t) (woke : bool) : Prop := {
  rd_ok : pipe_ok p';
  rd_bytes : contents p = bytes_read pr ++ contents p';
  rd_open : reader_open p' = reader_open p /\ writer_open p' = writer_open p;
  rd_woke : woke = false -> contents p' = contents p;
  rd_result : match pr with
    | Sleeps c => c = Reading want /\ contents p' = [] /\ writer_open p' = true /\ want <> 0 /\ interrupted = false
    | Returns r bytes =>
        (r = - EINTR /\ bytes = [] /\ interrupted = true /\ contents p = [] /\ writer_open p = true) \/
        (r = Z.of_nat (length bytes) /\ r = Z.min want (Z.of_nat (length (contents p))) /\
         (r = 0 -> want = 0 \/ (contents p = [] /\ writer_open p = false)))
    end
}.

Lemma contents_nil p : pipe_ok p -> contents p = [] <-> count p = 0.
Proof.
  intros Hp. pose proof (contents_length p Hp) as E. split; intros H; [rewrite H in E; cbn in E; lia|].
  apply length_zero_iff_nil. lia.
Qed.

Lemma read_spec interrupted want p : pipe_ok p -> 0 <= want ->
  let '(pr, p', woke) := pipe_read interrupted want p in read_done interrupted want p pr p' woke.
Proof.
  intros Hp Hw. pose proof (contents_length p Hp) as Hlen. unfold pipe_read.
  destruct (Z.eqb_spec want 0) as [->|Hne].
  { split; try done. right. cbn [length]. split_and!; [done|lia|by left]. }
  destruct ((count p =? 0) && writer_open p) eqn:Hc.
  - apply andb_true_iff in Hc as [Hc Hopen]. apply Z.eqb_eq, contents_nil in Hc; [|done].
    destruct interrupted; split; try done. by left.
  - pose proof (drain_spec (Z.to_nat (count p)) want p Hp Hw) as HD. destruct (drain (Z.to_nat (count p)) want p) as [bytes p'].
    destruct HD as (A&B&C&D&E); [lia|]. split; try done.
    + intros Hwk%Z.ltb_ge. assert (bytes = []) as -> by (apply length_zero_iff_nil; lia). by rewrite B.
    + right. split_and!; [done|lia|]. intros Hz. right. assert (count p = 0) as Hc0 by lia. split; [by apply contents_nil|].
      rewrite Hc0 in Hc. cbn in Hc. done.
Qed.

(** What a segment of [pipe_write] does. *)
Record write_done (interrupted : bool) (rest : list Z) (done : Z) (p : pipe_t) (pr : progress) (p' : pipe_t) (woke : bool) : Prop := {
  wd_ok : pipe_ok p';
  wd_bytes : contents p' = contents p ++ written pr rest done;
  wd_open : reader_open p' = reader_open p /\ writer_open p' = writer_open p;
  wd_woke : woke = false -> contents p' = contents p;
  wd_result : match pr with
    | Sleeps c => exists rest', c = Writing rest' (done + Z.of_nat (length (written pr rest done))) /\
        rest = written pr rest done ++ rest' /\ rest' <> [] /\
        count p' = PIPE_BUFFER_SIZE /\ reader_open p' = true /\ interrupted = false
    | Returns r bytes => bytes = [] /\
        ((r = - EPIPE /\ done = 0 /\ rest <> [] /\ reader_open p = false /\ written pr rest done = []) \/
         (r = - EINTR /\ done = 0 /\ interrupted = true /\ count p = PIPE_BUFFER_SIZE /\ written pr rest done = []) \/
         (r = done + Z.of_nat (length (written pr rest done)) /\ 0 <= r /\
          (written pr rest done = rest \/ reader_open p = false \/ interrupted = true)))
    end
}.

Lemma written_returns r bs rest rest' bytes done :
  0 <= done -> rest = bytes ++ rest' -> r = done + Z.of_nat (length bytes) -> written (Returns r bs) rest done = bytes.
Proof.
  intros Hd -> ->. unfold written, left_of. rewrite (proj2 (Z.ltb_ge _ 0)) by lia.
  replace (Z.to_nat _) with (length bytes) by lia. rewrite drop_app_length, length_app.
  replace (length bytes + length rest' - length rest')%nat with (length bytes) by lia. apply take_app_length.
Qed.

Lemma written_fails r bs rest done : r < 0 -> written (Returns r bs) rest done = [].
Proof. intros Hr. unfold written, left_of. rewrite (proj2 (Z.ltb_lt r 0)) by lia. by rewrite Nat.sub_diag. Qed.

Lemma written_sleeps rest rest' bytes done d : rest = bytes ++ rest' -> written (Sleeps (Writing rest' d)) rest done = bytes.
Proof.
  intros ->. unfold written, left_of. rewrite length_app.
  replace (length bytes + length rest' - length rest')%nat with (length bytes) by lia. apply take_app_length.
Qed.

(** The round that ends the call, after the bytes [bytes] have been put in. *)
Lemma last_round interrupted rest done p bytes rest' p' woke :
  0 <= done -> pipe_ok p -> pipe_ok p' -> rest = bytes ++ rest' -> contents p' = contents p ++ bytes ->
  reader_open p' = reader_open p -> writer_open p' = writer_open p -> (woke = false -> bytes = []) ->
  (bytes = [] \/ 0 < done + Z.of_nat (length bytes)) ->
  rest' = [] \/ reader_open p' = false \/ count p' = PIPE_BUFFER_SIZE ->
  exists pr, write_round interrupted (rest', done + Z.of_nat (length bytes), p', woke) = inr (pr, p', woke) /\
    write_done interrupted rest done p pr p' woke.
Proof.
  intros Hd Hp Hp' Hrest Hcon Hro Hwo Hwk Hpos Hend. unfold write_round. set (d := done + Z.of_nat (length bytes)).
  assert (forall pr, written pr rest done = bytes ->
    (match pr with
     | Sleeps c => c = Writing rest' d /\ rest' <> [] /\ count p' = PIPE_BUFFER_SIZE /\ reader_open p' = true /\ interrupted = false
     | Returns r bs => bs = [] /\
         ((r = - EPIPE /\ done = 0 /\ rest <> [] /\ reader_open p = false /\ bytes = []) \/
          (r = - EINTR /\ done = 0 /\ interrupted = true /\ count p = PIPE_BUFFER_SIZE /\ bytes = []) \/
          (r = d /\ 0 <= r /\ (bytes = rest \/ reader_open p = false \/ interrupted = true)))
     end) -> write_done interrupted rest done p pr p' woke) as Hfin.
  { intros pr Hw Hres. split; [done|by rewrite Hw|done| |].
    - intros Hwo'. by rewrite Hcon, (Hwk Hwo'), app_nil_r.
    - rewrite Hw. destruct pr as [r bs|c]; [done|]. exists rest'. destruct Hres as (->&?&?&?&?). split_and!; done. }
  assert (written (Returns d []) rest done = bytes) as Hret by (by apply (written_returns _ _ _ rest')).
  assert (forall r, r < 0 -> bytes = [] -> written (Returns r []) rest done = bytes) as Hneg by (intros r Hr ->; by apply written_fails).
  destruct (Z.ltb_spec d (d + Z.of_nat (length rest'))) as [Hlt|Hge]; cbn [negb].
  2: { assert (rest' = []) as -> by (apply length_zero_iff_nil; lia). cbn [length]. rewrite Z.add_0_r.
    assert ((d =? 0) && (0 <? d) = false) as -> by (destruct (Z.eqb_spec d 0), (Z.ltb_spec 0 d); done || lia).
    exists (Returns d []). split; [done|]. apply Hfin; [done|]. rewrite app_nil_r in Hrest. split; [done|]. right. right.
    split_and!; [done|lia|by left]. }
  assert (rest' <> []) as Hne by (intros ->; cbn in Hlt; lia).
  assert (d <= 0 -> bytes = [] /\ done = 0) as Hzero by (unfold d in *; intros Hle; destruct Hpos as [Hb|]; [rewrite Hb in *; cbn in Hle; split; [done|lia]|lia]).
  assert (rest <> []) as Hne' by (rewrite Hrest; destruct bytes; done).
  destruct (reader_open p') eqn:Hopen; cbn [negb].
  - destruct Hend as [|[|Hfull]]; [done|done|]. rewrite Hfull, Z.eqb_refl. destruct interrupted.
    + destruct (Z.ltb_spec 0 d); eexists; (split; [done|]).
      * apply Hfin; [done|]. split; [done|]. right. right. split_and!; [done|lia|tauto].
      * destruct Hzero as [Hb Hd0]; [lia|]. apply Hfin; [by apply Hneg|]. split; [done|]. right. left. split_and!; try done.
        rewrite <- contents_length, <- Hfull, <- (contents_length p') by done. by rewrite Hcon, Hb, app_nil_r.
    + eexists. split; [done|]. apply Hfin; [by apply written_sleeps|]. done.
  - destruct (Z.eqb_spec d 0) as [Hz|Hz]; cbn [andb]; [destruct (Z.ltb_spec 0 (d + Z.of_nat (length rest'))); [|lia]|];
      eexists; (split; [done|]).
    + destruct Hzero as [Hb Hd0]; [lia|]. apply Hfin; [by apply Hneg|]. split; [done|]. left. split_and!; done.
    + apply Hfin; [done|]. split; [done|]. right. right. split_and!; [done|lia|]. right. left. done.
Qed.

Lemma write_spec interrupted rest done p : pipe_ok p -> 0 <= done ->
  let '(pr, p', woke) := pipe_write interrupted rest done p in write_done interrupted rest done p pr p' woke.
Proof.
  intros Hp Hd. unfold pipe_write. cbn [loop].
  destruct (decide (rest = [] \/ reader_open p = false \/ count p = PIPE_BUFFER_SIZE)) as [Hend|Hgo].
  - destruct (last_round interrupted rest done p [] rest p false) as (pr&E&HW); try done; [by rewrite app_nil_r|by left|].
    cbn [length] in E. rewrite Z.add_0_r in E. by rewrite E.
  - unfold write_round at 1. destruct rest as [|b rest0] eqn:Hr; [tauto|]. rewrite <- Hr in *.
    assert (0 < Z.of_nat (length rest)) as Hlen by (rewrite Hr; cbn; lia). clear Hr.
    destruct (Z.ltb_spec done (done + Z.of_nat (length rest))); [|lia]. cbn [negb].
    destruct (reader_open p) eqn:Hro; [|tauto]. cbn [negb]. destruct (Z.eqb_spec (count p) PIPE_BUFFER_SIZE); [tauto|].
    pose proof (fill_spec rest p Hp) as HF. destruct (fill rest p) as [rest' p1]. destruct HF as (F1&(bytes&F2&F3)&F4&F5&F6).
    assert (length rest = length bytes + length rest')%nat as Hl by (by rewrite F2, length_app).
    replace (Z.of_nat (length rest) - Z.of_nat (length rest')) with (Z.of_nat (length bytes)) by lia.
    assert (0 < Z.of_nat (length bytes)) as Hb.
    { destruct F4 as [->|Hfull]; [cbn in Hl; lia|]. pose proof (contents_length p1 F1) as L1. pose proof (contents_length p Hp) as L0.
      rewrite F3, length_app in L1. destruct Hp as [[_ _ ?] _]. lia. }
    destruct (last_round interrupted rest done p bytes rest' p1 true) as (pr&E&HW); try done; try congruence; [right; lia|tauto|]. by rewrite E.
Qed.

(** ** All tasks *)

Definition task_ok (p : pipe_t) (t : task) : Prop :=
  match t with
  | Idle => True
  | Runs (Reading want) => 0 <= want
  | Runs (Writing _ done) => 0 <= done
  | Asleep (Reading want) => 0 <= want /\ contents p = [] /\ writer_open p = true
  | Asleep (Writing rest done) => 0 <= done /\ rest <> [] /\ Z.of_nat (length (contents p)) = PIPE_BUFFER_SIZE /\ reader_open p = true
  end.

Record system_ok (s : system) : Prop := {
  sy_pipe : pipe_ok (pipe s);
  sy_bytes : sent s = delivered s ++ contents (pipe s);
  sy_tasks : Forall (task_ok (pipe s)) (tasks s)
}.

Lemma tasks_insert p l i t : Forall (task_ok p) l -> task_ok p t -> Forall (task_ok p) (<[i := t]> l).
Proof. intros Hl Ht. by apply Forall_insert. Qed.

(** A segment leaves the other tasks in order: it has woken them, or what they
    wait for has not changed. *)
Lemma tasks_wake p p' woke l :
  Forall (task_ok p) l -> (woke = false -> contents p' = contents p) ->
  reader_open p' = reader_open p -> writer_open p' = writer_open p -> Forall (task_ok p') (wake woke l).
Proof.
  intros Hl Hsame Hr Hw. destruct woke; cbn.
  - apply Forall_fmap. eapply Forall_impl; [exact Hl|]. intros [|[]|[]]; cbn; tauto.
  - specialize (Hsame eq_refl). eapply Forall_impl; [exact Hl|]. intros [|[]|[]]; cbn; rewrite ?Hsame, ?Hr, ?Hw; tauto.
Qed.

Lemma tasks_wake_all p p' l : Forall (task_ok p) l -> Forall (task_ok p') (wake true l).
Proof. intros Hl. apply Forall_fmap. eapply Forall_impl; [exact Hl|]. intros [|[]|[]]; cbn; tauto. Qed.

Lemma task_in p l i t : Forall (task_ok p) l -> l !! i = Some t -> task_ok p t.
Proof. intros Hl Hi. rewrite Forall_lookup in Hl. by eapply Hl. Qed.

Lemma pipe_system_step_ok s s' : system_ok s -> system_step s s' -> system_ok s'.
Proof.
  intros [Hp Hb Ht] Hst. destruct Hst as [s i want Hi Hw|s i bytes Hi|s i want intr pr p woke Hi E|s i rest done intr pr p woke Hi E|s i c Hi|s p E|s p E].
  - split; cbn; [done|done|]. by apply tasks_insert.
  - split; cbn; [done|done|]. by apply tasks_insert.
  - pose proof (task_in _ _ _ _ Ht Hi) as Hw. pose proof (read_spec intr want (pipe s) Hp Hw) as HR. rewrite E in HR.
    destruct HR as [R1 R2 [R3 R4] R5 R6]. split; cbn; [done|by rewrite Hb, R2, (assoc_L (++))|].
    apply tasks_insert; [by eapply tasks_wake|]. destruct pr as [r bs|c]; cbn; [done|]. by destruct R6 as (->&?&?&_).
  - pose proof (task_in _ _ _ _ Ht Hi) as Hd. pose proof (write_spec intr rest done (pipe s) Hp Hd) as HW. rewrite E in HW.
    destruct HW as [W1 W2 [W3 W4] W5 W6]. split; cbn; [done|by rewrite Hb, W2, (assoc_L (++))|].
    apply tasks_insert; [by eapply tasks_wake|]. destruct pr as [r bs|c]; cbn; [done|]. destruct W6 as (rest'&->&_&?&?&?&_). cbn in Hd.
    rewrite contents_length by done. split_and!; try done. lia.
  - pose proof (task_in _ _ _ _ Ht Hi) as Hc. split; cbn; [done|done|]. apply tasks_insert; [done|]. destruct c; cbn in *; tauto.
  - injection E as <- _. split; cbn; [by destruct Hp|done|]. by eapply tasks_wake_all.
  - injection E as <- _. split; cbn; [by destruct Hp|done|]. by eapply tasks_wake_all.
Qed.

Lemma pipe_start_ok n : system_ok (start n).
Proof.
  destruct create_ok as [Hp Hc]. split; cbn [start pipe tasks sent delivered]; [done|by rewrite Hc|].
  apply Forall_forall. intros t Ht. apply elem_of_replicate in Ht as [-> _]. done.
Qed.

Lemma pipe_system_reachable n s : rtc system_step (start n) s -> system_ok s.
Proof. intros Hr. apply (rtc_invariant system_step system_ok _ _ pipe_system_step_ok (pipe_start_ok n) Hr). Qed.

(** * Properties *)

(** C30. A pipe is a first-in first-out queue of at most [PIPE_BUFFER_SIZE] bytes:
    however the calls of any number of readers and writers interleave, the bytes
    that have come out followed by those in the buffer are the bytes that have
    gone in, in order. *)
Theorem pipe_fifo n s :
  rtc system_step (start n) s ->
  sent s = delivered s ++ contents (pipe s) /\ Z.of_nat (length (contents (pipe s))) <= PIPE_BUFFER_SIZE.
Proof.
  intros Hr. destruct (pipe_system_reachable n s Hr) as [Hp Hb _]. split; [done|]. rewrite contents_length by done.
  destruct Hp as [[_ _ ?] _]. lia.
Qed.

(** C31. No wakeup is lost: a task that is asleep has nothing to do, however the
    calls interleave. A reader sleeps only while the pipe is empty and its write
    end open, a writer only while the pipe is full and its read end open; so a
    reader and a writer are never both asleep. *)
Theorem pipe_no_lost_wakeup n s i :
  rtc system_step (start n) s ->
  match tasks s !! i with
  | Some (Asleep (Reading _)) => contents (pipe s) = [] /\ writer_open (pipe s) = true
  | Some (Asleep (Writing rest _)) =>
      rest <> [] /\ Z.of_nat (length (contents (pipe s))) = PIPE_BUFFER_SIZE /\ reader_open (pipe s) = true
  | _ => True
  end.
Proof.
  intros Hr. destruct (pipe_system_reachable n s Hr) as [_ _ Ht]. destruct (tasks s !! i) as [t|] eqn:E; [|done].
  pose proof (task_in _ _ _ _ Ht E) as Hok. destruct t as [|c|[]]; cbn in Hok; tauto.
Qed.

(** What [pipe_write] reports is what happened: it returns the number of
    bytes that went in (all of them, unless the read end is closed or a signal
    came), [-EPIPE] only if the read end is closed and nothing went in, [-EINTR]
    only if a signal came and nothing went in; and it goes to sleep only with the
    pipe full. *)
Theorem pipe_write_correct interrupted rest done p :
  pipe_ok p -> 0 <= done ->
  let '(pr, p', woke) := pipe_write interrupted rest done p in
  contents p' = contents p ++ written pr rest done /\
  match pr with
  | Returns r _ =>
      (r = - EPIPE /\ done = 0 /\ rest <> [] /\ reader_open p = false /\ contents p' = contents p) \/
      (r = - EINTR /\ done = 0 /\ interrupted = true /\ contents p' = contents p) \/
      (r = done + Z.of_nat (length (written pr rest done)) /\
       (written pr rest done = rest \/ reader_open p = false \/ interrupted = true))
  | Sleeps c => exists rest', c = Writing rest' (done + Z.of_nat (length (written pr rest done))) /\
      rest = written pr rest done ++ rest' /\ rest' <> [] /\ count p' = PIPE_BUFFER_SIZE
  end.
Proof.
  intros Hp Hd. pose proof (write_spec interrupted rest done p Hp Hd) as HW. destruct (pipe_write interrupted rest done p) as [[pr p'] woke].
  destruct HW as [_ W2 _ _ W5]. split; [done|]. destruct pr as [r bs|c].
  - destruct W5 as [_ [(?&?&?&?&Hw)|[(?&?&?&_&Hw)|(?&_&?)]]]; [left|right; left|right; right]; try done.
    + split_and!; try done. by rewrite W2, Hw, app_nil_r.
    + split_and!; try done. by rewrite W2, Hw, app_nil_r.
  - destruct W5 as (rest'&?&?&?&?&_). by exists rest'.
Qed.

(** * Witnesses *)

(** A reader that goes to sleep on the empty pipe. *)
Lemma sleeping_reader : rtc system_step (start 2) (mkSystem pipe_create [Asleep (Reading 5); Idle] [] []).
Proof.
  eapply rtc_l; [apply (step_read (start 2) 0 5); [reflexivity|lia]|].
  eapply rtc_l; [|apply rtc_refl].
  apply (step_reading (mkSystem pipe_create [Runs (Reading 5); Idle] [] []) 0 5 false (Sleeps (Reading 5)) pipe_create false); reflexivity.
Qed.

Lemma pipe_fifo_witness :
  exists s, sent s = [7] /\ sent s = delivered s ++ contents (pipe s).
Proof.
  set (r := pipe_write false [7] 0 pipe_create).
  assert (rtc system_step (start 1) (mkSystem (snd (fst r)) [Idle] [7] [])) as Hr.
  { eapply rtc_l; [apply (step_write (start 1) 0 [7]); reflexivity|]. eapply rtc_l; [|apply rtc_refl].
    apply (step_writing (mkSystem pipe_create [Runs (Writing [7] 0)] [] []) 0 [7] 0 false (Returns 1 []) (snd (fst r)) true); vm_compute; reflexivity. }
  destruct (pipe_fifo 1 _ Hr) as [A _]. eexists. split; [|exact A]. reflexivity.
Defined.

Lemma pipe_no_lost_wakeup_witness : contents pipe_create = [] /\ writer_open pipe_create = true.
Proof. apply (pipe_no_lost_wakeup 2 _ 0 sleeping_reader). Defined.

Lemma pipe_write_correct_witness : snd (fst (pipe_write false [1; 2] 0 pipe_create)) <> pipe_create.
Proof.
  pose proof (pipe_write_correct false [1; 2] 0 pipe_create (proj1 create_ok) ltac:(lia)) as H.
  assert (fst (fst (pipe_write false [1; 2] 0 pipe_create)) = Returns 2 []) as E by (vm_compute; reflexivity).
  destruct (pipe_write false [1; 2] 0 pipe_create) as [[pr p'] woke]. cbn [fst snd] in *. subst pr. destruct H as [H _].
  intros ->. apply (f_equal length) in H. rewrite length_app in H. vm_compute in H. discriminate.
Defined.
