(* ===== verification/Bcache.v ===== *)
(** The cache of disk sectors, [src/drivers/block/bcache.c] and [bcache.h].

    The cache is only touched under [cache_lock], and the lock is never held
    across a disk request. A read that misses is therefore three steps (look,
    fetch from the disk, put in the cache) and a write two (to the disk, then
    into the cache), and the steps of different calls interleave. The disk is a
    function from disk and sector number to the sector's bytes; whether a request
    succeeds is up to the device. *)
From stdpp Require Import base tactics numbers list relations.
From Stdlib Require Import ZArith Lia.
From S2P Require Import Prelude.

Open Scope Z_scope.

Definition BCACHE_SECTORS : Z := 1024.
Definition SECTOR : Z := 512.

Notation sector := (list Z).

Record entry_t := mkEntry { valid : bool; dev : Z; lba : Z }.
Record bcache_stats_t := mkStats { hits : Z; misses : Z; writes : Z }.

(** [data] is NULL until the first use. *)
Record bcache := mkBcache {
  entries : list entry_t;
  data : option (list sector);
  stats : bcache_stats_t;
  write_count : Z
}.

Definition no_entry : entry_t := mkEntry false 0 0.
Definition bcache_static : bcache :=
  mkBcache (replicate (Z.to_nat BCACHE_SECTORS) no_entry) None (mkStats 0 0 0) 0.

Definition slot_of (l : Z) : nat := Z.to_nat (l mod BCACHE_SECTORS).
Definition entry_at (c : bcache) (slot : nat) : entry_t := nth slot (entries c) no_entry.
Definition sector_at (c : bcache) (slot : nat) : sector := match data c with Some d => nth slot d [] | None => [] end.

(** [ready]: [memory] is what [kmalloc] returned, if anything. *)
Definition ready (memory : option (list sector)) (c : bcache) : bool * bcache :=
  match data c, memory with
  | Some _, _ => (true, c)
  | None, None => (false, c)
  | None, Some m => (true, mkBcache (entries c) (Some m) (stats c) (write_count c))
  end.

Definition store (d l : Z) (s : sector) (c : bcache) : bcache :=
  let slot := slot_of l in
  mkBcache (<[slot := mkEntry true (u8 d) l]> (entries c))
    (match data c with Some x => Some (<[slot := s]> x) | None => None end) (stats c) (write_count c).

Definition is_hit (d l : Z) (c : bcache) : bool :=
  let e := entry_at c (slot_of l) in valid e && (dev e =? d) && (lba e =? l).

(** The first critical section of a read: the sector if it is there, and
    [write_count]. *)
Definition lookup_sector (d l : Z) (c : bcache) : option sector * Z * bcache :=
  let hit := is_hit d l c in
  let st := stats c in
  let st' := if hit then mkStats (u64 (hits st + 1)) (misses st) (writes st) else mkStats (hits st) (u64 (misses st + 1)) (writes st) in
  (if hit then Some (sector_at c (slot_of l)) else None, write_count c, mkBcache (entries c) (data c) st' (write_count c)).

(** The second: what the disk returned goes into the cache, unless there has
    been a write since. *)
Definition keep_fetched (d l writes_before : Z) (s : sector) (c : bcache) : bcache :=
  if write_count c =? writes_before then store d l s c else c.

(** The loop over the sectors of a write, from sector [l] on. *)
Fixpoint update_loop (ok : bool) (d l : Z) (ss : list sector) (c : bcache) : bcache :=
  match ss with
  | [] => c
  | s :: ss' =>
      let c :=
        if ok then store d l s c
        else if is_hit d l c then
          mkBcache (<[slot_of l := mkEntry false (dev (entry_at c (slot_of l))) (lba (entry_at c (slot_of l)))]> (entries c))
            (data c) (stats c) (write_count c)
        else c in
      update_loop ok d (u64 (l + 1)) ss' c
  end.

(** What a write does to the cache after the disk has answered. *)
Definition write_update (ok : bool) (d l : Z) (ss : list sector) (c : bcache) : bcache :=
  match data c with
  | None => c
  | Some _ =>
      let st := stats c in
      update_loop ok d l ss
        (mkBcache (entries c) (data c) (mkStats (hits st) (misses st) (u64 (writes st + Z.of_nat (length ss)))) (u64 (write_count c + 1)))
  end.

Definition bcache_invalidate (c : bcache) : bcache :=
  mkBcache (replicate (Z.to_nat BCACHE_SECTORS) no_entry) (data c) (stats c) (u64 (write_count c + 1)).

(** ** Whole calls, undisturbed *)

Notation disk_t := (Z -> Z -> sector).

(** [bcache_read_dev] after [ready]; [works] says which requests the disk serves. *)
Fixpoint read_loop (works : Z -> bool) (disk : disk_t) (d l : Z) (count : nat) (c : bcache) : option (list sector) * bcache :=
  match count with
  | O => (Some [], c)
  | S n =>
      let '(hit, before, c) := lookup_sector d l c in
      match hit with
      | Some s =>
          let '(rest, c) := read_loop works disk d (u64 (l + 1)) n c in (cons s <$> rest, c)
      | None =>
          if works l then
            let s := disk d l in
            let c := keep_fetched d l before s c in
            let '(rest, c) := read_loop works disk d (u64 (l + 1)) n c in (cons s <$> rest, c)
          else (None, c)
      end
  end.

Definition disk_read (works : Z -> bool) (disk : disk_t) (d l : Z) (count : nat) : option (list sector) :=
  let sectors := (fun i => u64 (l + Z.of_nat i)) <$> seq 0 count in
  if forallb works sectors then Some (disk d <$> sectors) else None.

Definition bcache_read_dev (memory : option (list sector)) (works : Z -> bool) (disk : disk_t) (d l : Z) (count : nat) (c : bcache)
  : option (list sector) * bcache :=
  let '(ok, c) := ready memory c in
  if negb ok then (disk_read works disk d l count, c) else read_loop works disk d l count c.

(** * Interleaved calls *)

(** A read that missed, before and after the disk has answered. *)
Inductive reader :=
| Fetching (d l before : Z)
| Fetched (d l before : Z) (s : sector).

(** A write whose disk request is done, and whether it succeeded. *)
Record writer := mkWriter { w_ok : bool; w_dev : Z; w_lba : Z; w_sectors : list sector }.

Definition covers (w : writer) (d l : Z) : Prop := w_dev w = d /\ w_lba w <= l < w_lba w + Z.of_nat (length (w_sectors w)).

Record system := mkSystem { cache : bcache; disk : disk_t; readers : list reader; writers : list writer }.

Definition in_flight (ws : list writer) (d l : Z) : Prop := exists w, w ∈ ws /\ covers w d l.

(** A request the callers may make: a disk number of 8 bits, sectors that exist. *)
Definition write_ok (w : writer) : Prop :=
  0 <= w_dev w < 0x100 /\ 0 <= w_lba w /\ w_lba w + Z.of_nat (length (w_sectors w)) <= 0x10000000000000000.

(** What the disk holds after a write: the new sectors if it succeeded, anything
    in their place if it did not, and the same as before elsewhere. *)
Definition written (w : writer) (before after : disk_t) : Prop :=
  (forall d l, ~ covers w d l -> after d l = before d l) /\
  (w_ok w = true -> forall i s, w_sectors w !! i = Some s -> after (w_dev w) (w_lba w + Z.of_nat i) = s).

Inductive system_step : system -> system -> Prop :=
| step_ready s m :
    (forall x, m = Some x -> Z.of_nat (length x) = BCACHE_SECTORS) ->
    system_step s (mkSystem (snd (ready m (cache s))) (disk s) (readers s) (writers s))
| step_look s d l :
    data (cache s) <> None -> 0 <= d < 0x100 -> 0 <= l < 0x10000000000000000 ->
    let '(hit, before, c) := lookup_sector d l (cache s) in
    system_step s (mkSystem c (disk s) (match hit with Some _ => readers s | None => Fetching d l before :: readers s end) (writers s))
| step_fetch s l1 d l before l2 :
    readers s = l1 ++ Fetching d l before :: l2 ->
    system_step s (mkSystem (cache s) (disk s) (l1 ++ Fetched d l before (disk s d l) :: l2) (writers s))
| step_keep s l1 d l before x l2 :
    readers s = l1 ++ Fetched d l before x :: l2 ->
    system_step s (mkSystem (keep_fetched d l before x (cache s)) (disk s) (l1 ++ l2) (writers s))
| step_give_up s l1 r l2 :
    readers s = l1 ++ r :: l2 -> system_step s (mkSystem (cache s) (disk s) (l1 ++ l2) (writers s))
| step_disk_write s w disk' :
    write_ok w -> (forall d l, covers w d l -> ~ in_flight (writers s) d l) -> written w (disk s) disk' ->
    system_step s (mkSystem (cache s) disk' (readers s) (w :: writers s))
| step_update s l1 w l2 :
    writers s = l1 ++ w :: l2 -> write_count (cache s) + 1 < 0x10000000000000000 ->
    system_step s (mkSystem (write_update (w_ok w) (w_dev w) (w_lba w) (w_sectors w) (cache s)) (disk s) (readers s) (l1 ++ l2))
| step_invalidate s :
    write_count (cache s) + 1 < 0x10000000000000000 ->
    system_step s (mkSystem (bcache_invalidate (cache s)) (disk s) (readers s) (writers s)).

(** * The cache alone *)

Definition N_SECTORS : nat := Z.to_nat BCACHE_SECTORS.

Record sized (c : bcache) : Prop := {
  sz_entries : length (entries c) = N_SECTORS;
  sz_data : forall x, data c = Some x -> length x = N_SECTORS
}.

Lemma slot_of_lt l : (slot_of l < N_SECTORS)%nat.
Proof. unfold slot_of, N_SECTORS. pose proof (Z.mod_pos_bound l BCACHE_SECTORS ltac:(done)). unfold BCACHE_SECTORS in *. lia. Qed.

Lemma store_at d l s c slot : sized c -> 0 <= d < 0x100 ->
  entry_at (store d l s c) slot = (if decide (slot = slot_of l) then mkEntry true d l else entry_at c slot) /\
  (data c <> None -> sector_at (store d l s c) slot = if decide (slot = slot_of l) then s else sector_at c slot).
Proof.
  intros [He Hd] Hr. pose proof (slot_of_lt l) as Hlt. unfold entry_at, sector_at, store. cbn [entries data].
  rewrite u8_small by done. rewrite !nth_lookup. destruct (decide (slot = slot_of l)) as [->|Hne].
  - rewrite list_lookup_insert_eq by lia. split; [done|]. intros Hn. destruct (data c) as [x|] eqn:E; [|done].
    rewrite nth_lookup, list_lookup_insert_eq by (rewrite (Hd x eq_refl); lia). done.
  - rewrite list_lookup_insert_ne by congruence. split; [done|]. intros _. destruct (data c) as [x|]; [|done].
    rewrite !nth_lookup, list_lookup_insert_ne by congruence. done.
Qed.

(** What a step of the loop keeps. *)
Record same_frame (c c' : bcache) : Prop := {
  sf_sized : sized c';
  sf_data : data c' = None <-> data c = None;
  sf_count : write_count c' = write_count c
}.

Lemma same_frame_trans c1 c2 c3 : same_frame c1 c2 -> same_frame c2 c3 -> same_frame c1 c3.
Proof. intros [A1 A2 A3] [B1 B2 B3]. split; [done|by rewrite B2|congruence]. Qed.

Lemma store_frame d l s c : sized c -> same_frame c (store d l s c).
Proof.
  intros [He Hd]. split; [split|..]; cbn.
  - by rewrite length_insert.
  - intros x. destruct (data c) as [y|] eqn:E; [|done]. intros [= <-]. rewrite length_insert. by apply Hd.
  - by destruct (data c).
  - done.
Qed.

Definition drop_entry (l : Z) (c : bcache) : bcache :=
  mkBcache (<[slot_of l := mkEntry false (dev (entry_at c (slot_of l))) (lba (entry_at c (slot_of l)))]> (entries c))
    (data c) (stats c) (write_count c).

Lemma drop_frame l c : sized c -> same_frame c (drop_entry l c).
Proof. intros [He Hd]. split; [split|..]; cbn; try done. by rewrite length_insert. Qed.

Lemma drop_at l c slot : sized c -> sector_at (drop_entry l c) slot = sector_at c slot /\
  (if decide (slot = slot_of l) then valid (entry_at (drop_entry l c) slot) = false else entry_at (drop_entry l c) slot = entry_at c slot).
Proof.
  intros [He Hd]. pose proof (slot_of_lt l). unfold entry_at, drop_entry. cbn [entries]. rewrite !nth_lookup. split; [done|].
  destruct (decide (slot = slot_of l)) as [->|Hne]; [by rewrite list_lookup_insert_eq by lia|by rewrite list_lookup_insert_ne by congruence].
Qed.

(** The loop of a write that succeeded: each slot holds one of the sectors
    written, or no sector of the write belongs there and it is as before. *)
Lemma update_loop_ok d ss : 0 <= d < 0x100 -> forall l c, sized c -> data c <> None ->
  0 <= l -> l + Z.of_nat (length ss) <= 0x10000000000000000 ->
  let c' := update_loop true d l ss c in same_frame c c' /\
  forall slot,
    (exists i s, ss !! i = Some s /\ slot = slot_of (l + Z.of_nat i) /\ entry_at c' slot = mkEntry true d (l + Z.of_nat i) /\ sector_at c' slot = s) \/
    ((forall i, (i < length ss)%nat -> slot <> slot_of (l + Z.of_nat i)) /\ entry_at c' slot = entry_at c slot /\ sector_at c' slot = sector_at c slot).
Proof.
  intros Hd. induction ss as [|s ss IH]; intros l c Hc Hne Hl Hlen; cbn [update_loop].
  { split; [by split|]. intros slot. right. split; [cbn; lia|done]. }
  cbn [length] in Hlen. pose proof (store_frame d l s c Hc) as Hf.
  assert (data (store d l s c) <> None) as Hne' by (by rewrite (sf_data _ _ Hf)).
  assert (let c' := update_loop true d (u64 (l + 1)) ss (store d l s c) in same_frame (store d l s c) c' /\ forall slot,
    (exists i x, ss !! i = Some x /\ slot = slot_of (l + 1 + Z.of_nat i) /\ entry_at c' slot = mkEntry true d (l + 1 + Z.of_nat i) /\ sector_at c' slot = x) \/
    ((forall i, (i < length ss)%nat -> slot <> slot_of (l + 1 + Z.of_nat i)) /\
     entry_at c' slot = entry_at (store d l s c) slot /\ sector_at c' slot = sector_at (store d l s c) slot)) as [Hf' HS].
  { destruct ss as [|s2 ss]; [|rewrite u64_small by (cbn in Hlen; lia); apply IH; try done; [apply Hf|lia|lia]].
    split; [split; [apply Hf|done|done]|]. intros slot. right. split; [cbn; lia|done]. }
  cbn zeta in *. split; [by eapply same_frame_trans|]. intros slot. destruct (HS slot) as [(i&x&Hx&Hsl&E1&E2)|(Hno&E1&E2)].
  - left. exists (S i), x. replace (l + Z.of_nat (S i)) with (l + 1 + Z.of_nat i) by lia. split_and!; done.
  - destruct (store_at d l s c slot Hc Hd) as [S1 S2]. specialize (S2 Hne). rewrite E1, E2, S1, S2.
    destruct (decide (slot = slot_of l)) as [->|Hsl].
    + left. exists 0%nat, s. rewrite Z.add_0_r. split_and!; done.
    + right. split; [|done]. intros [|i] Hi; [by rewrite Z.add_0_r|]. replace (l + Z.of_nat (S i)) with (l + 1 + Z.of_nat i) by lia.
      apply Hno. cbn in Hi. lia.
Qed.

(** The loop of a write that failed: entries are as before or dropped, and none
    that is left is of a sector of the write. *)
Lemma update_loop_failed d ss : forall l c, sized c ->
  0 <= l -> l + Z.of_nat (length ss) <= 0x10000000000000000 ->
  let c' := update_loop false d l ss c in same_frame c c' /\
  forall slot, valid (entry_at c' slot) = true ->
    entry_at c' slot = entry_at c slot /\ sector_at c' slot = sector_at c slot /\
    forall i, (i < length ss)%nat -> slot = slot_of (l + Z.of_nat i) -> dev (entry_at c slot) <> d \/ lba (entry_at c slot) <> l + Z.of_nat i.
Proof.
  induction ss as [|s ss IH]; intros l c Hc Hl Hlen; cbn [update_loop].
  { split; [by split|]. intros slot Hv. split_and!; [done|done|cbn; lia]. }
  cbn [length] in Hlen. fold (drop_entry l c). set (c1 := if is_hit d l c then drop_entry l c else c).
  assert (same_frame c c1) as Hf by (unfold c1; destruct (is_hit d l c); [by apply drop_frame|by split]).
  assert (forall slot, valid (entry_at c1 slot) = true -> entry_at c1 slot = entry_at c slot /\ sector_at c1 slot = sector_at c slot /\
    (slot = slot_of l -> dev (entry_at c slot) <> d \/ lba (entry_at c slot) <> l)) as H1.
  { intros slot Hv. unfold c1 in *. destruct (is_hit d l c) eqn:Hh.
    - destruct (drop_at l c slot Hc) as [D1 D2]. destruct (decide (slot = slot_of l)); [congruence|]. split_and!; done.
    - split_and!; try done. intros ->. unfold is_hit in Hh. cbn zeta in Hh. rewrite Hv in Hh. cbn in Hh.
      apply andb_false_iff in Hh as [Hh|Hh]; apply Z.eqb_neq in Hh; tauto. }
  assert (let c' := update_loop false d (u64 (l + 1)) ss c1 in same_frame c1 c' /\ forall slot, valid (entry_at c' slot) = true ->
    entry_at c' slot = entry_at c1 slot /\ sector_at c' slot = sector_at c1 slot /\
    forall i, (i < length ss)%nat -> slot = slot_of (l + 1 + Z.of_nat i) -> dev (entry_at c1 slot) <> d \/ lba (entry_at c1 slot) <> l + 1 + Z.of_nat i) as [Hf' HS].
  { destruct ss as [|s2 ss]; [|rewrite u64_small by (cbn in Hlen; lia); apply IH; try done; [apply Hf|lia|lia]].
    split; [split; [apply Hf|done|done]|]. intros slot Hv. split_and!; [done|done|cbn; lia]. }
  cbn zeta in *. split; [by eapply same_frame_trans|]. intros slot Hv. destruct (HS slot Hv) as (E1&E2&E3). rewrite E1 in Hv.
  destruct (H1 slot Hv) as (F1&F2&F3). split_and!; [congruence|congruence|]. intros [|i] Hi Hs; [rewrite Z.add_0_r in *; by apply F3|].
  rewrite <- F1. replace (l + Z.of_nat (S i)) with (l + 1 + Z.of_nat i) in * by lia. apply E3; [cbn in Hi; lia|done].
Qed.

(** * Invariant of the interleaved calls *)

(** A cached or fetched copy is what the disk holds, unless a write to the
    sector has reached the disk and not the cache yet. *)
Definition current (s : system) (d l : Z) (x : sector) : Prop := x = disk s d l \/ in_flight (writers s) d l.

Definition entry_ok (s : system) (slot : nat) : Prop :=
  let e := entry_at (cache s) slot in
  valid e = true ->
  data (cache s) <> None /\ slot = slot_of (lba e) /\ current s (dev e) (lba e) (sector_at (cache s) slot).

Definition reader_ok (s : system) (r : reader) : Prop :=
  data (cache s) <> None /\
  match r with
  | Fetching d l before => 0 <= d < 0x100 /\ before <= write_count (cache s)
  | Fetched d l before x => 0 <= d < 0x100 /\ before <= write_count (cache s) /\ (before = write_count (cache s) -> current s d l x)
  end.

Definition writer_ok (disk : disk_t) (w : writer) : Prop :=
  write_ok w /\ (w_ok w = true -> forall i s, w_sectors w !! i = Some s -> disk (w_dev w) (w_lba w + Z.of_nat i) = s).

Definition apart (w w' : writer) : Prop := forall d l, covers w d l -> ~ covers w' d l.

Record system_ok (s : system) : Prop := {
  sy_sized : sized (cache s);
  sy_count : 0 <= write_count (cache s) < 0x10000000000000000;
  sy_entries : forall slot, entry_ok s slot;
  sy_readers : Forall (reader_ok s) (readers s);
  sy_writers : Forall (writer_ok (disk s)) (writers s);
  sy_apart : ForallOrdPairs apart (writers s)
}.

Lemma apart_sym w w' : apart w w' -> apart w' w.
Proof. intros H d l H1 H2. by apply (H d l). Qed.

Lemma in_flight_cons w ws d l : in_flight (w :: ws) d l <-> covers w d l \/ in_flight ws d l.
Proof.
  split.
  - intros (x&[->|Hx]%elem_of_cons&Hc); [by left|]. right. by exists x.
  - intros [Hc|(x&Hx&Hc)]; [exists w; split; [left|done]|]. exists x. split; [by right|done].
Qed.

Lemma in_flight_remove ws1 w ws2 d l : in_flight (ws1 ++ w :: ws2) d l -> covers w d l \/ in_flight (ws1 ++ ws2) d l.
Proof. intros (x&Hx&Hc). apply elem_of_app in Hx as [Hx|[->|Hx]%elem_of_cons]; [right|by left|right]; exists x; (split; [apply elem_of_app|done]); tauto. Qed.

(** A copy stays current when the disk is written: it is unaffected, or the
    write is in flight. *)
Lemma current_write s w disk' c rs d l x : written w (disk s) disk' -> current s d l x ->
  current (mkSystem c disk' rs (w :: writers s)) d l x.
Proof.
  intros [Hsame _] [->|Hin].
  - destruct (decide (w_dev w = d /\ w_lba w <= l < w_lba w + Z.of_nat (length (w_sectors w)))) as [Hc|Hc].
    + right. apply in_flight_cons. by left.
    + left. cbn. symmetry. by apply Hsame.
  - right. apply in_flight_cons. by right.
Qed.

Lemma ready_ok m c : sized c -> (forall x, m = Some x -> Z.of_nat (length x) = BCACHE_SECTORS) ->
  let c' := snd (ready m c) in sized c' /\ entries c' = entries c /\ write_count c' = write_count c /\ (data c <> None -> c' = c).
Proof.
  intros Hsz Hm. pose proof Hsz as [He Hd]. unfold ready. destruct (data c) as [x|] eqn:E; [done|]. destruct m as [y|]; cbn; split_and!; try done.
  split; [done|]. cbn. intros z [= <-]. specialize (Hm y eq_refl). unfold N_SECTORS. lia.
Qed.

(** The write that just reached the cache: its sectors are current again. *)
Lemma update_ok s l1 w l2 : system_ok s -> writers s = l1 ++ w :: l2 -> write_count (cache s) + 1 < 0x10000000000000000 ->
  system_ok (mkSystem (write_update (w_ok w) (w_dev w) (w_lba w) (w_sectors w) (cache s)) (disk s) (readers s) (l1 ++ l2)).
Proof.
  intros [Hsz Hcnt He Hr Hw Ha] Hws Hlt. rewrite Hws in Hw, Ha.
  apply ForallOrdPairs_remove in Ha as [Ha Hapart]; [|apply apart_sym].
  apply Forall_app in Hw as [Hw1 Hw2]. apply Forall_cons in Hw2 as [[(Hd&Hl0&Hl1) Hdisk] Hw3].
  assert (Forall (writer_ok (disk s)) (l1 ++ l2)) as Hw' by (by apply Forall_app).
  unfold write_update. destruct (data (cache s)) as [sectors|] eqn:Edata.
  2: { split; cbn; try done.
    - intros slot Hv. by destruct (He slot Hv) as (?&_).
    - eapply Forall_impl; [exact Hr|]. intros r [? _]. done. }
  set (c0 := mkBcache _ _ _ _). assert (sized c0) as Hc0 by (destruct Hsz as [A B]; split; [exact A|exact (fun y E => B y ltac:(by rewrite Edata))]).
  assert (data c0 <> None) as Hne by done. assert (data (cache s) <> None) as Hne0 by congruence.
  assert (write_count c0 = write_count (cache s) + 1) as Hwc by (apply u64_small; lia).
  set (c' := update_loop (w_ok w) (w_dev w) (w_lba w) (w_sectors w) c0).
  assert (same_frame c0 c') as Hf.
  { unfold c'. destruct (w_ok w).
    - by destruct (update_loop_ok (w_dev w) (w_sectors w) Hd (w_lba w) c0 Hc0 Hne Hl0 Hl1).
    - by destruct (update_loop_failed (w_dev w) (w_sectors w) (w_lba w) c0 Hc0 Hl0 Hl1). }
  assert (forall slot, entry_at c0 slot = entry_at (cache s) slot) as Ee by done.
  assert (forall slot, sector_at c0 slot = sector_at (cache s) slot) as Es by (intros; unfold sector_at, c0; cbn; by rewrite Edata).
  assert (forall slot, valid (entry_at c' slot) = true ->
    (exists i x', w_sectors w !! i = Some x' /\ w_ok w = true /\ slot = slot_of (w_lba w + Z.of_nat i) /\
       entry_at c' slot = mkEntry true (w_dev w) (w_lba w + Z.of_nat i) /\ sector_at c' slot = x') \/
    (entry_at c' slot = entry_at (cache s) slot /\ sector_at c' slot = sector_at (cache s) slot /\
     ~ covers w (dev (entry_at (cache s) slot)) (lba (entry_at (cache s) slot)))) as Hent.
  { intros slot Hv. unfold c' in *. destruct (w_ok w) eqn:Eok.
    - destruct (update_loop_ok (w_dev w) (w_sectors w) Hd (w_lba w) c0 Hc0 Hne Hl0 Hl1) as [_ HS].
      destruct (HS slot) as [(i&x'&Hi&Hsl&E1&E2)|(Hno&E1&E2)]; [left; by exists i, x'|right].
      split_and!; [by rewrite E1|by rewrite E2|]. rewrite E1, Ee in Hv. destruct (He slot Hv) as (_&Hs&_). intros [_ Hc].
      apply (Hno (Z.to_nat (lba (entry_at (cache s) slot) - w_lba w))); [lia|]. rewrite Hs at 1. f_equal. lia.
    - destruct (update_loop_failed (w_dev w) (w_sectors w) (w_lba w) c0 Hc0 Hl0 Hl1) as [_ HS].
      destruct (HS slot Hv) as (E1&E2&E3). right. rewrite E1, Ee in Hv. rewrite Ee in E1, E3. rewrite Es in E2. split_and!; [done|done|].
      destruct (He slot Hv) as (_&Hs&_). intros [Hcd Hc].
      destruct (E3 (Z.to_nat (lba (entry_at (cache s) slot) - w_lba w))) as [Hx|Hx]; [lia| |congruence|lia].
      rewrite Hs at 1. f_equal. lia. }
  split; cbn [cache disk readers writers]; try done.
  - apply Hf.
  - rewrite (sf_count _ _ Hf). lia.
  - intros slot Hv. cbn [cache] in Hv |- *. split; [by rewrite (sf_data _ _ Hf)|].
    destruct (Hent slot Hv) as [(i&x'&Hi&Eok&Hsl&E1&E2)|(E1&E2&Hnc)].
    + rewrite E1, E2. cbn. split; [done|]. left. symmetry. by apply Hdisk.
    + rewrite E1 in Hv. rewrite E1, E2. destruct (He slot Hv) as (_&Hs&[Hcur|Hfl]); (split; [done|]); [by left|]. right. cbn.
      rewrite Hws in Hfl. by apply in_flight_remove in Hfl as [|].
  - eapply Forall_impl; [exact Hr|]. intros r [_ Hrd]. split; cbn [cache]; [by rewrite (sf_data _ _ Hf)|].
    rewrite (sf_count _ _ Hf), Hwc. destruct r; split_and!; lia.
Qed.

Lemma bcache_system_step_ok s s' : system_ok s -> system_step s s' -> system_ok s'.
Proof.
  intros Hok Hst. destruct Hst as [s m Hm|s d l Hne Hd Hl|s l1 d l b l2 Hrs|s l1 d l b x l2 Hrs|s l1 r l2 Hrs|s w disk' Hw Hfree Hwr|s l1 w l2 Hws Hlt|s Hlt].
  - destruct Hok as [Hsz Hcnt He Hr Hw Ha]. destruct (ready_ok m (cache s) Hsz Hm) as (R1&R2&R3&R4).
    split; cbn [cache disk readers writers]; try done; [by rewrite R3| |].
    + intros slot Hv. cbn [cache] in *. unfold entry_at in Hv. rewrite R2 in Hv. destruct (He slot Hv) as (Hne&H). rewrite (R4 Hne). done.
    + eapply Forall_impl; [exact Hr|]. intros r Hrd. rewrite (R4 (proj1 Hrd)). exact Hrd.
  - destruct Hok as [Hsz Hcnt He Hr Hw Ha]. unfold lookup_sector. destruct (is_hit d l (cache s)).
    + split; [by destruct Hsz|done|exact He|exact Hr|done|done].
    + split; [by destruct Hsz|done|exact He| |done|done]. constructor; [|exact Hr]. split; [done|]. cbn. lia.
  - destruct Hok as [Hsz Hcnt He Hr Hw Ha]. rewrite Hrs in Hr. apply Forall_app in Hr as [Hr1 Hr2]. apply Forall_cons in Hr2 as [[Hne Hrd] Hr3].
    split; try done. cbn [readers]. apply Forall_app. split; [exact Hr1|]. constructor; [|exact Hr3]. split; [done|]. cbn in *. split_and!; [lia|lia|lia|]. by left.
  - destruct Hok as [Hsz Hcnt He Hr Hw Ha]. rewrite Hrs in Hr. apply Forall_app in Hr as [Hr1 Hr2]. apply Forall_cons in Hr2 as [[Hne Hrd] Hr3].
    assert (Forall (reader_ok s) (l1 ++ l2)) as Hr by (by apply Forall_app). cbn in Hrd. destruct Hrd as (Hd&Hb&Hcur).
    unfold keep_fetched. destruct (Z.eqb_spec (write_count (cache s)) b) as [Hbc|]; [|by split].
    pose proof (store_frame d l x (cache s) Hsz) as Hf. split; cbn [cache disk readers writers]; try done.
    + apply Hf.
    + intros slot Hv. cbn [cache] in *. destruct (store_at d l x (cache s) slot Hsz Hd) as [S1 S2]. specialize (S2 Hne).
      rewrite S1, S2 in *. split; [by rewrite (sf_data _ _ Hf)|]. destruct (decide (slot = slot_of l)) as [->|]; cbn; [split; [done|]; by apply Hcur|].
      by destruct (He slot Hv) as (_&?&?).
    + eapply Forall_impl; [exact Hr|]. intros r [_ Hrd]. split; cbn [cache]; [by rewrite (sf_data _ _ Hf)|]. by rewrite (sf_count _ _ Hf).
  - destruct Hok as [Hsz Hcnt He Hr Hw Ha]. rewrite Hrs in Hr. apply Forall_app in Hr as [Hr1 Hr2]. apply Forall_cons in Hr2 as [Hrd Hr3].
    split; try done. by apply Forall_app.
  - destruct Hok as [Hsz Hcnt He Hr Hws Ha]. split; cbn [cache disk readers writers]; try done.
    + intros slot Hv. destruct (He slot Hv) as (?&?&?). split_and!; try done. by eapply current_write.
    + eapply Forall_impl; [exact Hr|]. intros [d l b|d l b x] [Hne Hrd]; (split; [done|]); [done|]. destruct Hrd as (?&?&Hcur). split; [done|]. split; [done|].
      intros E. eapply current_write; [done|by apply Hcur].
    + destruct Hwr as [Hsame Hnew]. constructor; [by split|]. rewrite Forall_forall in Hws |- *. intros w' Hw'. destruct (Hws w' Hw') as [Hwok Hdisk].
      split; [done|]. intros Hok i x Hi. rewrite <- (Hdisk Hok i x Hi). apply Hsame. intros Hc. apply (Hfree _ _ Hc). exists w'. split; [done|].
      split; [done|]. apply lookup_lt_Some in Hi. lia.
    + constructor; [|done]. apply Forall_forall. intros w' Hw' d l Hc Hc'. apply (Hfree d l Hc). by exists w'.
  - by apply update_ok.
  - destruct Hok as [Hsz Hcnt He Hr Hw Ha]. split; cbn [cache disk readers writers]; try done.
    + destruct Hsz as [_ B]. split; [cbn [bcache_invalidate entries]; by rewrite length_replicate|done].
    + cbn [bcache_invalidate write_count]. rewrite u64_small by lia. lia.
    + intros slot Hv. exfalso. unfold entry_at in Hv. cbn [cache bcache_invalidate entries] in Hv. rewrite nth_lookup in Hv.
      destruct (replicate (Z.to_nat BCACHE_SECTORS) no_entry !! slot) as [e|] eqn:E; [|done]. apply lookup_replicate in E as [-> _]. done.
    + eapply Forall_impl; [exact Hr|]. intros r [Hne Hrd]. split; [done|]. cbn [cache bcache_invalidate write_count]. rewrite u64_small by lia.
      destruct r; split_and!; lia.
Qed.

Definition start (d0 : disk_t) : system := mkSystem bcache_static d0 [] [].

Lemma bcache_start_ok d0 : system_ok (start d0).
Proof.
  split; [split; [by cbn [start cache bcache_static entries]; rewrite length_replicate|done]|done| |constructor|constructor|constructor].
  intros slot Hv. exfalso. unfold entry_at in Hv. cbn [start cache bcache_static entries] in Hv. rewrite nth_lookup in Hv.
  destruct (replicate (Z.to_nat BCACHE_SECTORS) no_entry !! slot) as [e|] eqn:E; [|done]. apply lookup_replicate in E as [-> _]. done.
Qed.

Lemma bcache_system_reachable d0 s : rtc system_step (start d0) s -> system_ok s.
Proof. intros Hr. apply (rtc_invariant system_step system_ok _ _ bcache_system_step_ok (bcache_start_ok d0) Hr). Qed.

Lemma hit_current s d l : system_ok s -> is_hit d l (cache s) = true -> current s d l (sector_at (cache s) (slot_of l)).
Proof.
  intros Hok Hh. unfold is_hit in Hh. cbn zeta in Hh. zbool. destruct (sy_entries _ Hok (slot_of l)) as (_&_&Hc); [done|]. congruence.
Qed.

(** ** One call at a time *)

Definition coherent (c : bcache) (d0 : disk_t) : Prop := system_ok (mkSystem c d0 [] []).

Lemma look_coherent c d0 d l : coherent c d0 -> data c <> None -> 0 <= d < 0x100 -> 0 <= l < 0x10000000000000000 ->
  let '(hit, before, c') := lookup_sector d l c in
  match hit with
  | Some x => x = d0 d l /\ coherent c' d0
  | None => coherent c' d0 /\ coherent (keep_fetched d l before (d0 d l) c') d0
  end /\ (data c' <> None).
Proof.
  intros Hc Hne Hd Hl. pose proof (step_look (mkSystem c d0 [] []) d l Hne Hd Hl) as HS.
  pose proof (hit_current (mkSystem c d0 [] []) d l Hc) as HH. cbn [cache] in HS, HH.
  unfold lookup_sector in *. destruct (is_hit d l c); (split; [|done]).
  - split; [|by eapply bcache_system_step_ok]. destruct (HH eq_refl) as [?|(w&Hw%not_elem_of_nil&_)]; done.
  - set (c1 := mkBcache _ _ _ _) in *.
    assert (system_ok (mkSystem c1 d0 [Fetching d l (write_count c)] [])) as H1 by (by eapply bcache_system_step_ok).
    split; [exact (bcache_system_step_ok _ _ H1 (step_give_up (mkSystem c1 d0 [Fetching d l (write_count c)] []) [] _ [] eq_refl))|].
    pose proof (step_fetch (mkSystem c1 d0 [Fetching d l (write_count c)] []) [] d l (write_count c) [] eq_refl) as S2.
    pose proof (bcache_system_step_ok _ _ H1 S2) as H2. cbn [app disk cache writers] in H2.
    pose proof (step_keep (mkSystem c1 d0 [Fetched d l (write_count c) (d0 d l)] []) [] d l (write_count c) (d0 d l) [] eq_refl) as S3.
    exact (bcache_system_step_ok _ _ H2 S3).
Qed.

Lemma keep_data d l b x c : data (keep_fetched d l b x c) = None <-> data c = None.
Proof. unfold keep_fetched. destruct (_ =? _); [|done]. cbn. by destruct (data c). Qed.

Definition sectors_from (l : Z) (count : nat) : list Z := (fun i => l + Z.of_nat i) <$> seq 0 count.

Lemma sectors_from_S l n : sectors_from l (S n) = l :: sectors_from (l + 1) n.
Proof.
  unfold sectors_from. cbn [seq fmap list_fmap]. f_equal; [cbn; lia|]. rewrite <- fmap_S_seq, <- list_fmap_compose.
  apply list_fmap_ext. intros i x _. cbn. lia.
Qed.

Lemma read_loop_spec works d0 d count : 0 <= d < 0x100 -> forall l c,
  coherent c d0 -> data c <> None -> 0 <= l -> l + Z.of_nat count <= 0x10000000000000000 ->
  let '(r, c') := read_loop works d0 d l count c in
  coherent c' d0 /\
  match r with
  | Some ss => ss = d0 d <$> sectors_from l count
  | None => exists x, x ∈ sectors_from l count /\ works x = false
  end.
Proof.
  intros Hd. induction count as [|n IH]; intros l c Hc Hne Hl Hlen; cbn [read_loop]; [done|].
  pose proof (look_coherent c d0 d l Hc Hne Hd ltac:(lia)) as HL. destruct (lookup_sector d l c) as [[hit before] c1].
  destruct HL as [HL Hne1]. rewrite sectors_from_S.
  assert (forall c2, coherent c2 d0 -> data c2 <> None ->
    let '(r, c') := (let '(rest, c) := read_loop works d0 d (u64 (l + 1)) n c2 in (cons (d0 d l) <$> rest, c)) in
    coherent c' d0 /\ match r with
      | Some ss => ss = d0 d <$> l :: sectors_from (l + 1) n
      | None => exists x, x ∈ l :: sectors_from (l + 1) n /\ works x = false
      end) as Hrest.
  { intros c2 Hc2 Hne2. destruct n as [|n].
    - cbn. done.
    - rewrite u64_small by lia. specialize (IH (l + 1) c2 Hc2 Hne2 ltac:(lia) ltac:(lia)).
      destruct (read_loop works d0 d (l + 1) (S n) c2) as [r c']. destruct IH as [I1 I2]. split; [done|]. destruct r as [ss|]; cbn.
      + by rewrite I2.
      + destruct I2 as (x&Hx&?). exists x. split; [by right|done]. }
  destruct hit as [x|].
  - destruct HL as [-> Hc1]. by apply Hrest.
  - destruct HL as [Hc1 Hkeep]. destruct (works l) eqn:Ew.
    + apply Hrest; [done|]. by rewrite keep_data.
    + split; [done|]. exists l. split; [left|done].
Qed.

Lemma ready_coherent m c d0 : coherent c d0 -> (forall x, m = Some x -> Z.of_nat (length x) = BCACHE_SECTORS) ->
  coherent (snd (ready m c)) d0 /\ (fst (ready m c) = true -> data (snd (ready m c)) <> None).
Proof.
  intros Hc Hm. split; [exact (bcache_system_step_ok _ _ Hc (step_ready (mkSystem c d0 [] []) m Hm))|].
  unfold ready. destruct (data c) eqn:E; [cbn; congruence|]. by destruct m.
Qed.

(** * Properties *)

(** C32. The cache never holds what the disk does not: however reads, writes and
    invalidations interleave (two writes at once to one sector excepted, which
    the callers exclude), a sector that is found in the cache is the one on the
    disk, unless a write to that very sector has reached the disk and is about to
    reach the cache. *)
Theorem bcache_coherent d0 s d l :
  rtc system_step (start d0) s -> ~ in_flight (writers s) d l ->
  let '(hit, _, _) := lookup_sector d l (cache s) in
  match hit with Some x => x = disk s d l | None => True end.
Proof.
  intros Hr Hno. pose proof (bcache_system_reachable d0 s Hr) as Hok. unfold lookup_sector. destruct (is_hit d l (cache s)) eqn:Hh; [|done].
  by destruct (hit_current s d l Hok Hh).
Qed.

(** The cache is transparent: on a coherent cache a read of any number of
    sectors returns exactly what the disk holds, or fails because the disk fails
    on one of them, and leaves the cache coherent; so does a write that goes to
    the disk and then to the cache, after which the cache is coherent with the
    disk as written. *)
Theorem bcache_transparent c d0 d l count memory works :
  coherent c d0 -> 0 <= d < 0x100 -> 0 <= l -> l + Z.of_nat count <= 0x10000000000000000 ->
  (forall x, memory = Some x -> Z.of_nat (length x) = BCACHE_SECTORS) ->
  (let '(r, c') := bcache_read_dev memory works d0 d l count c in
   coherent c' d0 /\
   match r with
   | Some ss => ss = d0 d <$> sectors_from l count
   | None => exists x, x ∈ sectors_from l count /\ works x = false
   end) /\
  (forall ss ok d1, length ss = count -> written (mkWriter ok d l ss) d0 d1 -> write_count c + 1 < 0x10000000000000000 ->
     coherent (write_update ok d l ss c) d1).
Proof.
  intros Hc Hd Hl Hlen Hm. split.
  - unfold bcache_read_dev. destruct (ready_coherent memory c d0 Hc Hm) as [Hc1 Hne]. destruct (ready memory c) as [[|] c1]; cbn [fst snd negb] in *.
    + apply read_loop_spec; auto.
    + split; [done|]. unfold disk_read.
      assert ((fun i => u64 (l + Z.of_nat i)) <$> seq 0 count = sectors_from l count) as ->.
      { apply list_fmap_ext. intros i x Hx. apply lookup_seq in Hx as [-> Hi]. apply u64_small. lia. }
      destruct (forallb works (sectors_from l count)) eqn:Ef; [done|]. apply not_true_iff_false in Ef. rewrite forallb_forall in Ef.
      destruct (decide (Forall (fun x => works x = true) (sectors_from l count))) as [Hall|Hsome].
      * exfalso. apply Ef. intros x Hx%list_elem_of_In. rewrite Forall_forall in Hall. by apply Hall.
      * apply not_Forall_Exists in Hsome; [|apply _]. apply Exists_exists in Hsome as (x&Hx&Hw). exists x. split; [done|]. by apply not_true_iff_false.
  - intros ss ok d1 Hss Hw Hwc. set (w := mkWriter ok d l ss) in *.
    assert (write_ok w) as Hwok by (split; [done|cbn; lia]).
    assert (forall d l, covers w d l -> ~ in_flight [] d l) as Hfree by (intros ? ? _ (?&?%not_elem_of_nil&_); done).
    pose proof (bcache_system_step_ok _ _ Hc (step_disk_write (mkSystem c d0 [] []) w d1 Hwok Hfree Hw)) as H1.
    exact (bcache_system_step_ok _ _ H1 (step_update (mkSystem c d1 [] [w]) [] w [] eq_refl Hwc)).
Qed.

(** * Witnesses *)

Definition zero_disk : disk_t := fun _ _ => replicate 512 0.
Definition fresh_memory : list sector := replicate 1024 [].

(** A read of sector 5, step by step. *)
Notation cache_1 := (snd (ready (Some fresh_memory) bcache_static)).
Notation cache_2 := (snd (lookup_sector 0 5 cache_1)).
Notation cache_3 := (keep_fetched 0 5 0 (zero_disk 0 5) cache_2).

Lemma sample_run : rtc system_step (start zero_disk) (mkSystem cache_3 zero_disk [] []).
Proof.
  eapply rtc_l; [apply (step_ready (start zero_disk) (Some fresh_memory)); intros x [= <-]; vm_compute; reflexivity|].
  pose proof (step_look (mkSystem cache_1 zero_disk [] []) 0 5 ltac:(done) ltac:(lia) ltac:(lia)) as S.
  assert (is_hit 0 5 cache_1 = false) as E by (vm_compute; reflexivity). unfold lookup_sector in S. cbn [cache] in S. rewrite E in S.
  eapply rtc_l; [exact S|]. clear S.
  eapply rtc_l; [apply (step_fetch _ [] 0 5 0 []); reflexivity|].
  eapply rtc_l; [apply (step_keep _ [] 0 5 0 (zero_disk 0 5) []); reflexivity|]. cbn [cache disk writers app].
  unfold lookup_sector. rewrite E. apply rtc_refl.
Qed.

Lemma bcache_coherent_witness : fst (fst (lookup_sector 0 5 cache_3)) = Some (zero_disk 0 5).
Proof.
  pose proof (bcache_coherent zero_disk _ 0 5 sample_run ltac:(intros (w&Hw&_); by apply not_elem_of_nil in Hw)) as H. cbn [cache disk] in H.
  assert (is_hit 0 5 cache_3 = true) as E by (vm_compute; reflexivity).
  revert H E. generalize cache_3 as c. intros c H E. unfold lookup_sector in H |- *. rewrite E in H |- *. cbn [fst]. f_equal. exact H.
Defined.

Lemma bcache_transparent_witness :
  fst (bcache_read_dev (Some fresh_memory) (fun _ => true) zero_disk 0 7 2 bcache_static) = Some [replicate 512 0; replicate 512 0].
Proof.
  destruct (bcache_transparent bcache_static zero_disk 0 7 2 (Some fresh_memory) (fun _ => true) (bcache_start_ok zero_disk)) as [H _].
  - lia.
  - lia.
  - lia.
  - intros x [= <-]. vm_compute. reflexivity.
  - destruct (bcache_read_dev (Some fresh_memory) (fun _ => true) zero_disk 0 7 2 bcache_static) as [r c'].
    destruct H as [_ H]. destruct r as [ss|]; [by rewrite H|]. destruct H as (x&_&Hx). discriminate Hx.
Defined.
