(* ===== verification/Date.v ===== *)
(** Days and dates, [lib/time/date.c], and the conversions of the time of day,
    [src/kernel/time/walltime.c]. *)
From stdpp Require Import base tactics numbers list.
From Stdlib Require Import ZArith Lia.
From S2P Require Import Prelude.

Open Scope Z_scope.

(** [/] on [int64_t] truncates; [unsigned] has 32 bits. *)
Definition days_from_civil (y m d : Z) : Z :=
  let y := if m <=? 2 then y - 1 else y in
  let era := Z.quot (if 0 <=? y then y else y - 399) 400 in
  let yoe := u32 (y - era * 400) in
  let doy := u32 (u32 (153 * (if 2 <? m then m - 3 else u32 (m + 9)) + 2) / 5 + d - 1) in
  let doe := u32 (yoe * 365 + yoe / 4 - yoe / 100 + doy) in
  era * 146097 + doe - 719468.

(** Year, month and day. *)
Definition civil_from_days (days : Z) : Z * Z * Z :=
  let z := days + 719468 in
  let era := Z.quot (if 0 <=? z then z else z - 146096) 146097 in
  let doe := u32 (z - era * 146097) in
  let yoe := u32 (doe - doe / 1460 + doe / 36524 - doe / 146096) / 365 in
  let doy := u32 (doe - u32 (365 * yoe + yoe / 4 - yoe / 100)) in
  let mp := u32 (5 * doy + 2) / 153 in
  let day := u32 (doy - u32 (153 * mp + 2) / 5 + 1) in
  let month := if mp <? 10 then mp + 3 else mp - 9 in
  let year := u32 (u32 (yoe + era * 400) + (if month <=? 2 then 1 else 0)) in
  (year, month, day).

(** * The calendar *)

Definition leap (y : Z) : bool := (y mod 4 =? 0) && (negb (y mod 100 =? 0) || (y mod 400 =? 0)).
Definition month_length (y m : Z) : Z :=
  if m =? 2 then (if leap y then 29 else 28)
  else if (m =? 4) || (m =? 6) || (m =? 9) || (m =? 11) then 30 else 31.
Definition date_ok (y m d : Z) : Prop := 1 <= m <= 12 /\ 1 <= d <= month_length y m.

Definition next_day (y m d : Z) : Z * Z * Z :=
  if d <? month_length y m then (y, m, d + 1)
  else if m <? 12 then (y, m + 1, 1) else (y + 1, 1, 1).

Lemma month_length_range y m : 28 <= month_length y m <= 31.
Proof. unfold month_length. destruct (m =? 2); [destruct (leap y); lia|]. destruct (_ || _); lia. Qed.

(** The functions without the casts, for the dates of the calendar: years start
    in March, so that the leap day is the last of its year. *)
Definition doy_of (m d : Z) : Z := (153 * (if 2 <? m then m - 3 else m + 9) + 2) / 5 + d - 1.
Definition days_of (y m d : Z) : Z :=
  let y := if m <=? 2 then y - 1 else y in
  365 * y + y / 4 - y / 100 + y / 400 + doy_of m d - 719468.

Lemma era_quot y : Z.quot (if 0 <=? y then y else y - 399) 400 = y / 400.
Proof. destruct (Z.leb_spec 0 y); zlia. Qed.

Lemma doy_range m d y : date_ok y m d -> 0 <= doy_of m d <= 365.
Proof.
  intros [Hm Hd]. unfold month_length in Hd. unfold doy_of.
  assert (m = 1 \/ m = 2 \/ m = 3 \/ m = 4 \/ m = 5 \/ m = 6 \/ m = 7 \/ m = 8 \/ m = 9 \/ m = 10 \/ m = 11 \/ m = 12) as Hc by lia.
  destruct (leap y); repeat destruct Hc as [->|Hc]; try subst m; cbn in *; zlia.
Qed.

Lemma days_from_civil_eq y m d : date_ok y m d -> -0x100000000000 <= y < 0x100000000000 -> days_from_civil y m d = days_of y m d.
Proof.
  intros Hd Hy. pose proof (doy_range m d y Hd) as Hr. destruct Hd as [Hm Hd].
  unfold days_from_civil, days_of. set (y' := if m <=? 2 then y - 1 else y). cbn zeta. rewrite era_quot.
  assert (u32 (153 * (if 2 <? m then m - 3 else u32 (m + 9)) + 2) / 5 + d - 1 = doy_of m d) as ->.
  { unfold doy_of, u32. destruct (Z.ltb_spec 2 m); zlia. }
  rewrite (u32_small (doy_of m d)) by lia. replace (y' - y' / 400 * 400) with (y' mod 400) by zlia. rewrite (u32_small (y' mod 400)) by zlia.
  rewrite u32_small by zlia. zlia.
Qed.

(** * From days to dates *)

Lemma year_of_doe yoe doy : 0 <= yoe < 400 -> 0 <= doy <= 365 -> (doy = 365 -> (yoe + 1) mod 4 = 0 /\ ((yoe + 1) mod 100 <> 0 \/ yoe = 399)) ->
  let doe := 365 * yoe + yoe / 4 - yoe / 100 + doy in
  (doe - doe / 1460 + doe / 36524 - doe / 146096) / 365 = yoe.
Proof. intros Hy Hd Hl doe. unfold doe. zlia. Qed.

(** A day of 400 years belongs to one of the years and one of its days. *)
Lemma doe_year doe : 0 <= doe < 146097 -> let yoe := (doe - doe / 1460 + doe / 36524 - doe / 146096) / 365 in
  let doy := doe - (365 * yoe + yoe / 4 - yoe / 100) in
  0 <= yoe < 400 /\ 0 <= doy <= 365 /\ (doy = 365 -> (yoe + 1) mod 4 = 0 /\ ((yoe + 1) mod 100 <> 0 \/ yoe = 399)).
Proof. intros Hd yoe doy. unfold doy, yoe. zlia. Qed.

Lemma last_leap_day y m d : date_ok y m d -> doy_of m d = 365 -> leap y = true /\ m = 2.
Proof.
  intros [Hm Hd]. unfold month_length in Hd. unfold doy_of.
  assert (m = 1 \/ m = 2 \/ m = 3 \/ m = 4 \/ m = 5 \/ m = 6 \/ m = 7 \/ m = 8 \/ m = 9 \/ m = 10 \/ m = 11 \/ m = 12) as Hc by lia.
  destruct (leap y); repeat destruct Hc as [->|Hc]; try subst m; cbn in *; intros; try zlia; done.
Qed.

Lemma month_of_doy y m d : date_ok y m d ->
  let doy := doy_of m d in let mp := (5 * doy + 2) / 153 in
  mp = (if 2 <? m then m - 3 else m + 9) /\ doy - (153 * mp + 2) / 5 + 1 = d.
Proof.
  intros [Hm Hd]. unfold month_length in Hd. unfold doy_of.
  assert (m = 1 \/ m = 2 \/ m = 3 \/ m = 4 \/ m = 5 \/ m = 6 \/ m = 7 \/ m = 8 \/ m = 9 \/ m = 10 \/ m = 11 \/ m = 12) as Hc by lia.
  destruct (leap y); repeat destruct Hc as [->|Hc]; try subst m; cbn in *; zlia.
Qed.

Lemma leap_spec y : leap y = true <-> y mod 4 = 0 /\ (y mod 100 <> 0 \/ y mod 400 = 0).
Proof. unfold leap. rewrite andb_true_iff, orb_true_iff, negb_true_iff, !Z.eqb_eq, Z.eqb_neq. done. Qed.

(** [civil_from_days] on a number made of an era, a year in it and a day in that. *)
Lemma civil_of_parts era yoe doy :
  0 <= yoe < 400 -> 0 <= doy <= 365 -> (doy = 365 -> (yoe + 1) mod 4 = 0 /\ ((yoe + 1) mod 100 <> 0 \/ yoe = 399)) ->
  civil_from_days (era * 146097 + (365 * yoe + yoe / 4 - yoe / 100 + doy) - 719468) =
  let mp := (5 * doy + 2) / 153 in
  let month := if mp <? 10 then mp + 3 else mp - 9 in
  (u32 (yoe + era * 400 + (if month <=? 2 then 1 else 0)), month, doy - (153 * mp + 2) / 5 + 1).
Proof.
  intros Hy Hd Hl. pose proof (year_of_doe yoe doy Hy Hd Hl) as HY. cbn zeta in HY. unfold civil_from_days.
  set (doe := 365 * yoe + yoe / 4 - yoe / 100 + doy) in *. assert (0 <= doe < 146097) as Hdoe by (unfold doe; zlia).
  replace (era * 146097 + doe - 719468 + 719468) with (era * 146097 + doe) by lia. cbn zeta.
  assert (Z.quot (if 0 <=? era * 146097 + doe then era * 146097 + doe else era * 146097 + doe - 146096) 146097 = era) as ->
    by (destruct (Z.leb_spec 0 (era * 146097 + doe)); zlia).
  replace (era * 146097 + doe - era * 146097) with doe by lia. rewrite (u32_small doe) by lia.
  rewrite (u32_small (doe - doe / 1460 + doe / 36524 - doe / 146096)) by zlia. rewrite HY.
  rewrite (u32_small (365 * yoe + yoe / 4 - yoe / 100)) by zlia. replace (doe - (365 * yoe + yoe / 4 - yoe / 100)) with doy by (unfold doe; lia).
  rewrite (u32_small doy) by lia. rewrite (u32_small (5 * doy + 2)) by lia. set (mp := (5 * doy + 2) / 153).
  assert (0 <= mp <= 11) by (unfold mp; zlia). rewrite (u32_small (153 * mp + 2)) by lia. rewrite (u32_small (doy - _ + 1)) by (unfold mp in *; zlia).
  f_equal. f_equal. unfold u32. destruct (_ <=? 2); rewrite Zplus_mod_idemp_l; f_equal; lia.
Qed.

Lemma civil_days_of y m d : date_ok y m d -> 0 <= y < 0x80000000 -> civil_from_days (days_of y m d) = (y, m, d).
Proof.
  intros Hd Hy. destruct (month_of_doy y m d Hd) as [Hmp Hday]. pose proof (doy_range m d y Hd) as Hr. pose proof (last_leap_day y m d Hd) as Hleap.
  destruct Hd as [Hm _]. unfold days_of. set (y' := if m <=? 2 then y - 1 else y). cbn zeta.
  replace (365 * y' + y' / 4 - y' / 100 + y' / 400 + doy_of m d - 719468) with
    (y' / 400 * 146097 + (365 * (y' mod 400) + (y' mod 400) / 4 - (y' mod 400) / 100 + doy_of m d) - 719468) by zlia.
  rewrite civil_of_parts; [|zlia|done|].
  - cbn zeta in *. rewrite Hmp. assert ((if (if 2 <? m then m - 3 else m + 9) <? 10 then (if 2 <? m then m - 3 else m + 9) + 3 else (if 2 <? m then m - 3 else m + 9) - 9) = m) as ->.
    { destruct (Z.ltb_spec 2 m); zcase; lia. }
    rewrite Hmp in Hday. rewrite Hday. f_equal. f_equal. unfold y'. destruct (m <=? 2); rewrite u32_small by zlia; zlia.
  - intros E. destruct (Hleap E) as [Hl ->]. apply leap_spec in Hl. unfold y'. cbn. zlia.
Qed.

(** The first day of a month follows the last of the one before. *)
Lemma days_of_month y m : 1 <= m < 12 -> days_of y (m + 1) 1 = days_of y m (month_length y m) + 1.
Proof.
  intros Hm. destruct (decide (m = 2)) as [->|H2].
  - unfold days_of. change (2 + 1 <=? 2) with false. change (2 <=? 2) with true. cbn iota zeta. unfold month_length. cbn [Z.eqb Pos.eqb].
    change (doy_of (2 + 1) 1) with 0. pose proof (leap_spec y) as Hl. destruct (leap y).
    + change (doy_of 2 29) with 365. destruct (proj1 Hl eq_refl). zlia.
    + change (doy_of 2 28) with 364. assert (~ (y mod 4 = 0 /\ (y mod 100 <> 0 \/ y mod 400 = 0))) by (intros ?%Hl; done). zlia.
  - assert (doy_of (m + 1) 1 = doy_of m (month_length y m) + 1 /\ (m + 1 <=? 2) = (m <=? 2)) as [E1 E2].
    { assert (m = 1 \/ m = 3 \/ m = 4 \/ m = 5 \/ m = 6 \/ m = 7 \/ m = 8 \/ m = 9 \/ m = 10 \/ m = 11) as Hc by lia.
      repeat destruct Hc as [->|Hc]; try subst m; split; reflexivity. }
    unfold days_of. rewrite E1, E2. lia.
Qed.

(** The date of a day in its year, and the number it came from. *)
Lemma civil_parts_ok era yoe doy :
  0 <= yoe < 400 -> 0 <= doy <= 365 -> (doy = 365 -> (yoe + 1) mod 4 = 0 /\ ((yoe + 1) mod 100 <> 0 \/ yoe = 399)) ->
  let mp := (5 * doy + 2) / 153 in
  let m := if mp <? 10 then mp + 3 else mp - 9 in
  let y := yoe + era * 400 + (if m <=? 2 then 1 else 0) in
  let d := doy - (153 * mp + 2) / 5 + 1 in
  date_ok y m d /\ days_of y m d = era * 146097 + (365 * yoe + yoe / 4 - yoe / 100 + doy) - 719468.
Proof.
  intros Hy Hd Hl mp m y d. assert (0 <= mp <= 11) as Hmp by (unfold mp; zlia).
  assert (doy_of m d = doy) as Hdoy by (unfold doy_of, d, m; destruct (Z.ltb_spec mp 10); destruct (Z.ltb_spec 2 (mp + 3)); try lia; [|destruct (Z.ltb_spec 2 (mp - 9)); [lia|]]; zlia).
  split.
  - split; [unfold m; zcase; lia|]. unfold month_length. pose proof (leap_spec y) as Hleap.
    assert (leap y = false -> m = 2 -> doy <> 365) as Hno.
    { intros Hnl Hm2 E. destruct (Hl E). rewrite Hnl in Hleap. assert (false = true); [|done]. apply Hleap. unfold y. rewrite Hm2. cbn. zlia. }
    clear Hleap Hl Hdoy. unfold d. destruct (leap y); [clear Hno|]; unfold m in *; clear y; unfold mp in *;
      (destruct (Z.ltb_spec ((5 * doy + 2) / 153) 10)); repeat (zcase; try zlia).
  - unfold days_of. rewrite Hdoy. unfold y. destruct (m <=? 2); zlia.
Qed.

(** * The time of day *)

Record rtc_time := mkRtc { second : Z; minute : Z; hour : Z; day : Z; month : Z; year : Z }.

Definition walltime_from_date (date : rtc_time) : Z :=
  let days := days_from_civil (year date) (month date) (day date) in
  u64 (days * 86400 + hour date * 3600 + minute date * 60 + second date).

Definition walltime_to_date (seconds : Z) : rtc_time :=
  let '(y, m, d) := civil_from_days (seconds / 86400) in
  let rest := u32 (seconds mod 86400) in
  mkRtc (u8 (rest mod 60)) (u8 (rest / 60 mod 60)) (u8 (rest / 3600)) (u8 d) (u8 m) (u16 y).

Definition time_ok (t : rtc_time) : Prop :=
  date_ok (year t) (month t) (day t) /\ 0 <= hour t < 24 /\ 0 <= minute t < 60 /\ 0 <= second t < 60.

Lemma days_of_bounds y m d : date_ok y m d -> 1970 <= y -> 0 <= days_of y m d < 366 * (y - 1969).
Proof.
  intros Hd Hy. pose proof (doy_range m d y Hd). unfold days_of. destruct (Z.leb_spec m 2) as [Hm|Hm].
  - destruct (decide (y = 1970)) as [->|]; [|zlia]. destruct Hd as [Hm1 Hd]. assert (306 <= doy_of m d); [|cbn zeta; zlia].
    unfold doy_of. destruct (Z.ltb_spec 2 m); zlia.
  - assert (doy_of m d <= 305); [|zlia]. destruct Hd as [Hm12 Hd]. pose proof (month_length_range y m).
    assert (m = 3 \/ m = 4 \/ m = 5 \/ m = 6 \/ m = 7 \/ m = 8 \/ m = 9 \/ m = 10 \/ m = 11 \/ m = 12) as Hc by lia.
    unfold month_length in Hd. unfold doy_of. repeat destruct Hc as [->|Hc]; try subst m; cbn in *; zlia.
Qed.

Lemma walltime_from_date_eq t : time_ok t -> 1970 <= year t < 0x10000 ->
  walltime_from_date t = days_of (year t) (month t) (day t) * 86400 + hour t * 3600 + minute t * 60 + second t.
Proof.
  intros (Hd&Hh&Hm&Hs) Hy. pose proof (days_of_bounds _ _ _ Hd (proj1 Hy)). unfold walltime_from_date. cbn zeta.
  rewrite days_from_civil_eq by (done || lia). apply u64_small. lia.
Qed.

(** A time is told back from its seconds. *)
Lemma walltime_date_round_trip t : time_ok t -> 1970 <= year t < 0x10000 -> walltime_to_date (walltime_from_date t) = t.
Proof.
  intros Ht Hy. rewrite walltime_from_date_eq by done. destruct Ht as (Hd&Hh&Hm&Hs).
  set (D := days_of _ _ _). unfold walltime_to_date.
  replace ((D * 86400 + hour t * 3600 + minute t * 60 + second t) / 86400) with D by zlia.
  replace ((D * 86400 + hour t * 3600 + minute t * 60 + second t) mod 86400) with (hour t * 3600 + minute t * 60 + second t) by zlia.
  unfold D. rewrite civil_days_of by (done || lia). cbn zeta. rewrite u32_small by lia.
  pose proof (month_length_range (year t) (month t)). destruct Hd as [Hmo Hd]. destruct t as [s mi h d mo y]. cbn in *. f_equal.
  all: first [rewrite u8_small by zlia; zlia|rewrite u16_small by zlia; zlia].
Qed.

(** * Properties *)

(** [days_from_civil] counts days: the first of January 1970 is day 0, and
    the day after any date of the (Gregorian) calendar has the next number. *)
Theorem days_from_civil_counts y m d :
  date_ok y m d -> -0x80000000 <= y < 0x80000000 ->
  days_from_civil 1970 1 1 = 0 /\
  let '(y', m', d') := next_day y m d in date_ok y' m' d' /\ days_from_civil y' m' d' = days_from_civil y m d + 1.
Proof.
  intros Hd Hy. split; [done|]. pose proof Hd as [Hm Hdd]. unfold next_day.
  destruct (Z.ltb_spec d (month_length y m)) as [Hlt|Hge].
  - assert (date_ok y m (d + 1)) as Hd' by (split; lia). split; [done|]. rewrite !days_from_civil_eq by (done || lia).
    unfold days_of, doy_of. lia.
  - assert (d = month_length y m) as -> by lia. clear Hge. destruct (Z.ltb_spec m 12) as [Hm12|Hm12].
    + assert (date_ok y (m + 1) 1) as Hd' by (split; [lia|]; unfold month_length; repeat (zcase; try lia)). split; [done|].
      rewrite !days_from_civil_eq by (done || lia). apply days_of_month. lia.
    + assert (m = 12) as -> by lia. assert (date_ok (y + 1) 1 1) as Hd' by (split; cbn; lia). split; [done|].
      rewrite !days_from_civil_eq by (done || lia). unfold days_of, doy_of. cbn. zlia.
Qed.

(** Days and dates correspond: for every date of the years 0 to 2^31 - 1
    [civil_from_days] returns the date [days_from_civil] was given, and for every
    day number up to the end of those years the date it returns is one of the
    calendar and has that number. *)
Theorem civil_days_round_trip :
  (forall y m d, date_ok y m d -> 0 <= y < 0x80000000 -> civil_from_days (days_from_civil y m d) = (y, m, d)) /\
  (forall days, -719468 <= days < 146097 * 5000000 ->
     let '(y, m, d) := civil_from_days days in date_ok y m d /\ days_from_civil y m d = days).
Proof.
  split; [intros y m d Hd Hy; rewrite days_from_civil_eq by (done || lia); by apply civil_days_of|].
  intros days Hdays. set (z := days + 719468). destruct (doe_year (z mod 146097) ltac:(zlia)) as (H1&H2&H3).
  set (yoe := _ / 365) in *. set (doy := _ - (365 * yoe + _ - _)) in *. cbn zeta in *.
  destruct (civil_parts_ok (z / 146097) yoe doy H1 H2 H3) as [C1 C2]. cbn zeta in *.
  assert (z / 146097 * 146097 + (365 * yoe + yoe / 4 - yoe / 100 + doy) - 719468 = days) as E by (unfold doy, z; zlia).
  pose proof (civil_of_parts (z / 146097) yoe doy H1 H2 H3) as HC. rewrite E in HC, C2. rewrite HC. cbn zeta. set (m := if _ <? 10 then _ else _) in *. set (y := yoe + _ + _) in *.
  assert (0 <= y < 0x80000000) as Hy by (unfold y, z; destruct (m <=? 2); zlia).
  rewrite u32_small by lia. split; [done|]. by rewrite days_from_civil_eq by (done || lia).
Qed.

Lemma days_from_civil_counts_witness :
  date_ok 2024 2 29 /\ days_from_civil 2024 3 1 = days_from_civil 2024 2 29 + 1.
Proof.
  assert (date_ok 2024 2 29) as Hd by (split; vm_compute; split; discriminate).
  split; [exact Hd|]. exact (proj2 (proj2 (days_from_civil_counts 2024 2 29 Hd ltac:(lia)))).
Defined.

Lemma civil_days_round_trip_witness :
  date_ok 2024 2 29 /\ civil_from_days (days_from_civil 2024 2 29) = (2024, 2, 29).
Proof.
  assert (date_ok 2024 2 29) as Hd by (split; vm_compute; split; discriminate).
  split; [exact Hd|]. exact (proj1 civil_days_round_trip 2024 2 29 Hd ltac:(lia)).
Defined.
