(* ===== verification/Clock.v ===== *)
(** The clocks: the nanosecond clock of [src/kernel/time/hrtimer.c], the CMOS
    clock of [src/drivers/char/rtc.c] and the time of day of
    [src/kernel/time/walltime.c]. What the hardware answers (the timestamp
    counter, the tick counter, the CMOS registers) is an argument of the
    operation that asks for it. *)
From stdpp Require Import base tactics numbers list.
From Stdlib Require Import ZArith Lia.
From S2P Require Import Prelude Errno Date.

Open Scope Z_scope.
Open Scope word_scope.

(** * The nanosecond clock *)

Definition TIMER_HZ : Z := 100.
Definition CALIBRATION_TICKS : Z := 5.
Definition NS_PER_SECOND : Z := 1000000000.
Definition NS_PER_TICK : Z := NS_PER_SECOND / TIMER_HZ.

Record clock := mkClock { tsc_hz : Z; tsc_at_start : Z; ticks_at_start : Z; last_reading : Z }.
Definition clock_static : clock := mkClock 0 0 0 0.

(** [begin_] and [end_]: the timestamp counter at the first and the last edge of
    the measurement; [tsc] and [ticks]: the counters when it is over. *)
Definition hrtimer_init (have_tsc : bool) (begin_ end_ tsc ticks : Z) (c : clock) : clock :=
  if negb have_tsc then mkClock (tsc_hz c) (tsc_at_start c) ticks (last_reading c)
  else
    let counts := end_ -w begin_ in
    let measured := (counts *w TIMER_HZ) / CALIBRATION_TICKS in
    let hz := if (begin_ <? end_) && (1000000 <=? measured) && (measured <=? 100000000000) then measured else tsc_hz c in
    mkClock hz tsc ticks (last_reading c).

Definition hrtimer_raw_ns (rdtsc : Z) (c : clock) : Z :=
  if tsc_hz c =? 0 then 0
  else
    let counts := rdtsc -w tsc_at_start c in
    (counts / tsc_hz c *w NS_PER_SECOND) +w (counts mod tsc_hz c *w NS_PER_SECOND) / tsc_hz c.

Definition clock_ns (rdtsc ticks : Z) (c : clock) : Z * clock :=
  let now := if negb (tsc_hz c =? 0) then hrtimer_raw_ns rdtsc c else (ticks -w ticks_at_start c) *w NS_PER_TICK in
  let now := if now <? last_reading c then last_reading c else now in
  (now, mkClock (tsc_hz c) (tsc_at_start c) (ticks_at_start c) now).

(** Readings one after the other. *)
Fixpoint readings (l : list (Z * Z)) (c : clock) : list Z * clock :=
  match l with
  | [] => ([], c)
  | (rdtsc, ticks) :: l' =>
      let '(now, c) := clock_ns rdtsc ticks c in
      let '(rest, c) := readings l' c in (now :: rest, c)
  end.

(** * The CMOS clock *)

Definition from_bcd (v : Z) : Z := u8 (Z.land v 0x0F + Z.shiftr v 4 * 10).

(** [raw]: seconds, minutes, hours, day, month and year. *)
Definition rtc_decode (raw : list Z) (status_b : Z) : rtc_time :=
  let binary := negb (Z.land status_b 0x04 =? 0) in
  let hours_24 := negb (Z.land status_b 0x02 =? 0) in
  let v := (fun r => if binary then r else from_bcd r) <$> raw in
  let hour := get raw 2 in
  let hour :=
    if negb hours_24 then
      let pm := negb (Z.land hour 0x80 =? 0) in
      let hour := if binary then Z.land hour 0x7F else from_bcd (Z.land hour 0x7F) in
      let hour := if hour =? 12 then 0 else hour in
      if pm then u8 (hour + 12) else hour
    else get v 2 in
  mkRtc (get v 0) (get v 1) hour (get v 3) (get v 4) (u16 (2000 + get v 5)).

(** The loop of [rtc_read_time] that reads until two reads agree: [reads] is
    what the next reads of the registers will give. *)
Fixpoint reread (tries : nat) (raw : list Z) (reads : list (list Z)) : list Z :=
  match tries, reads with
  | S tries', again :: reads' => if bool_decide (raw = again) then raw else reread tries' again reads'
  | _, _ => raw
  end.

Definition rtc_read_time (raw : list Z) (reads : list (list Z)) (status_b : Z) : rtc_time :=
  rtc_decode (reread 8 raw reads) status_b.

(** * The time of day *)

Definition WALLTIME_CHECK_LIMIT_NS : Z := 1500000000.
Definition WALLTIME_MIN_SECONDS : Z := 315532800.
Definition WALLTIME_MAX_SECONDS : Z := 4291747199.

Record walltime := mkWalltime { offset_ns : Z; started : bool; set_delta_ns : Z; last_check_ns : Z }.
Definition walltime_static : walltime := mkWalltime 0 false 0 0.

Definition cmos_ns (now : rtc_time) : Z :=
  if (month now <? 1) || (12 <? month now) || (day now <? 1) || (31 <? day now) || (23 <? hour now) ||
     (59 <? minute now) || (59 <? second now) then 0
  else walltime_from_date now *w NS_PER_SECOND.

Definition cmos_middle_ns (now : rtc_time) : Z :=
  let cmos := cmos_ns now in if negb (cmos =? 0) then cmos +w NS_PER_SECOND / 2 else 0.

(** [cmos_now]: the CMOS clock; [now]: the nanosecond clock. *)
Definition walltime_check (cmos_now : rtc_time) (now : Z) (w : walltime) : Z * walltime :=
  if negb (started w) then (0, w)
  else
    let cmos := cmos_middle_ns cmos_now in
    if cmos =? 0 then (0, w)
    else
      let target := cmos +w set_delta_ns w in
      let out := s64 (now + offset_ns w - target) in
      let w :=
        if (WALLTIME_CHECK_LIMIT_NS <? out) || (out <? - WALLTIME_CHECK_LIMIT_NS)
        then mkWalltime (target -w now) (started w) (set_delta_ns w) (last_check_ns w) else w in
      (out, mkWalltime (offset_ns w) (started w) (set_delta_ns w) now).

(** [last]: [last_check_ns] when this CPU looked at it, which another CPU may
    have changed by the time of the compare-and-exchange; [held]: the spinlocks
    this CPU holds. *)
Definition check_if_due (now last held : Z) (cmos_now : rtc_time) (check_now : Z) (w : walltime) : walltime :=
  if (now -w last <? NS_PER_SECOND) || negb (held =? 0) then w
  else if negb (last_check_ns w =? last) then w
  else (walltime_check cmos_now check_now (mkWalltime (offset_ns w) (started w) (set_delta_ns w) now)).2.

Definition walltime_test_skew (delta_ns : Z) (w : walltime) : walltime :=
  mkWalltime (offset_ns w +w delta_ns) (started w) (set_delta_ns w) (last_check_ns w).

(** Two readings of the nanosecond clock; the date that is printed. *)
Definition walltime_init (cmos_now : rtc_time) (clock1 clock2 : Z) (w : walltime) : rtc_time * walltime :=
  let cmos := cmos_ns cmos_now in
  (walltime_to_date (cmos / NS_PER_SECOND), mkWalltime (cmos -w clock1) true (set_delta_ns w) clock2).

Definition walltime_ns (now last held : Z) (cmos_now : rtc_time) (check_now clock : Z) (w : walltime) : Z * walltime :=
  if negb (started w) then (cmos_ns cmos_now, w)
  else
    let w := check_if_due now last held cmos_now check_now w in
    (clock +w offset_ns w, w).

Definition walltime_seconds (now last held : Z) (cmos_now : rtc_time) (check_now clock : Z) (w : walltime) : Z * walltime :=
  let '(ns, w) := walltime_ns now last held cmos_now check_now clock w in (u32 (ns / NS_PER_SECOND), w).

Definition walltime_set (unix_ns clock : Z) (cmos_now : rtc_time) (w : walltime) : Z * walltime :=
  let seconds := unix_ns / NS_PER_SECOND in
  if (seconds <? WALLTIME_MIN_SECONDS) || (WALLTIME_MAX_SECONDS <? seconds) then (- EINVAL, w)
  else
    let cmos := cmos_middle_ns cmos_now in
    (0, mkWalltime (unix_ns -w clock) true
          (if negb (cmos =? 0) then s64 (unix_ns - cmos) else set_delta_ns w) (last_check_ns w)).

(** * The nanosecond clock is the exact one, made monotone *)

(** Nanoseconds since the start, rounded down. *)
Definition exact_ns (rdtsc : Z) (c : clock) : Z := (rdtsc - tsc_at_start c) * NS_PER_SECOND / tsc_hz c.

(** The largest of the readings so far. *)
Fixpoint running_max (m : Z) (l : list Z) : list Z :=
  match l with [] => [] | x :: l' => Z.max m x :: running_max (Z.max m x) l' end.

Lemma split_division counts hz ns : 0 < hz -> 0 <= counts -> 0 <= ns ->
  counts / hz * ns + (counts mod hz * ns) / hz = counts * ns / hz.
Proof.
  intros Hh Hc Hn. rewrite (Z.div_mod counts hz) at 3 by lia.
  replace ((hz * (counts / hz) + counts mod hz) * ns) with (counts mod hz * ns + (counts / hz * ns) * hz) by ring.
  rewrite Z.div_add by lia. lia.
Qed.

(** The split into seconds and the rest computes it for rates up to 18 GHz. *)
Lemma hrtimer_raw_ns_exact rdtsc c :
  0 < tsc_hz c <= 18000000000 -> 0 <= tsc_at_start c <= rdtsc -> rdtsc < 0x10000000000000000 ->
  exact_ns rdtsc c < 0x10000000000000000 -> hrtimer_raw_ns rdtsc c = exact_ns rdtsc c.
Proof.
  intros Hhz Hs Ht Hx. unfold hrtimer_raw_ns, exact_ns, NS_PER_SECOND in *. destruct (Z.eqb_spec (tsc_hz c) 0) as [|_]; [lia|].
  cbn zeta. rewrite (u64_small (rdtsc - _)) by lia. set (n := rdtsc - tsc_at_start c) in *. set (hz := tsc_hz c) in *.
  pose proof (split_division n hz 1000000000 ltac:(lia) ltac:(unfold n; lia) ltac:(lia)) as E.
  pose proof (Z.mod_pos_bound n hz ltac:(lia)). assert (0 <= n / hz) by (apply Z.div_pos; unfold n; lia).
  rewrite (u64_small (n mod hz * 1000000000)) by nia.
  assert (0 <= n mod hz * 1000000000 / hz) by (apply Z.div_pos; lia).
  rewrite (u64_small (n / hz * _)) by lia. rewrite E. apply u64_small. split; [apply Z.div_pos; unfold n; lia|done].
Qed.

Lemma clock_ns_eq rdtsc ticks c :
  (0 < tsc_hz c <= 18000000000 /\ 0 <= tsc_at_start c <= rdtsc /\ rdtsc < 0x10000000000000000 /\ exact_ns rdtsc c < 0x10000000000000000) ->
  clock_ns rdtsc ticks c = (Z.max (last_reading c) (exact_ns rdtsc c),
    mkClock (tsc_hz c) (tsc_at_start c) (ticks_at_start c) (Z.max (last_reading c) (exact_ns rdtsc c))).
Proof.
  intros (H1&H2&H3&H4). unfold clock_ns. destruct (Z.eqb_spec (tsc_hz c) 0) as [|_]; [lia|]. cbn [negb].
  rewrite hrtimer_raw_ns_exact by done. cbn zeta.
  assert ((if exact_ns rdtsc c <? last_reading c then last_reading c else exact_ns rdtsc c) = Z.max (last_reading c) (exact_ns rdtsc c)) as ->
    by (destruct (Z.ltb_spec (exact_ns rdtsc c) (last_reading c)); lia).
  done.
Qed.

(** * The registers of the CMOS clock, as its data sheet has them *)

Definition to_bcd (v : Z) : Z := v / 10 * 16 + v mod 10.

Definition field (binary : bool) (v : Z) : Z := if binary then v else to_bcd v.

(** In 12-hour mode the hours are 12, 1, ..., 11 and bit 7 says PM. *)
Definition hour_field (binary hours_24 : bool) (h : Z) : Z :=
  if hours_24 then field binary h
  else field binary (if h mod 12 =? 0 then 12 else h mod 12) + (if 12 <=? h then 0x80 else 0).

Definition registers (binary hours_24 : bool) (t : rtc_time) : list Z :=
  [field binary (second t); field binary (minute t); hour_field binary hours_24 (hour t);
   field binary (day t); field binary (month t); field binary (year t - 2000)].

Definition status_of (binary hours_24 : bool) (other : Z) : Z :=
  Z.lor (Z.land other 0xF9) (Z.lor (if binary then 4 else 0) (if hours_24 then 2 else 0)).

(** A fact about every number below a bound, by trying them all. *)
Lemma try_all (P : Z -> bool) n : forallb (fun i => P (Z.of_nat i)) (seq 0 n) = true ->
  forall z, 0 <= z < Z.of_nat n -> P z = true.
Proof.
  intros H z Hz. rewrite forallb_forall in H. rewrite <- (Z2Nat.id z) by lia. apply H, in_seq. lia.
Qed.

Lemma from_to_bcd v : 0 <= v < 100 -> from_bcd (to_bcd v) = v.
Proof. intros Hv. apply Z.eqb_eq, (try_all (fun v => from_bcd (to_bcd v) =? v) 100); [by vm_compute|lia]. Qed.

Lemma status_flags b h other :
  negb (Z.land (status_of b h other) 0x04 =? 0) = b /\ negb (Z.land (status_of b h other) 0x02 =? 0) = h.
Proof.
  unfold status_of. rewrite !Z.land_lor_distr_l, <- !Z.land_assoc.
  change (Z.land 0xF9 4) with 0. change (Z.land 0xF9 2) with 0. rewrite !Z.land_0_r. by destruct b, h.
Qed.

Definition decode_hour (binary hours_24 : bool) (raw : Z) : Z :=
  if negb hours_24 then
    let pm := negb (Z.land raw 0x80 =? 0) in
    let hour := if binary then Z.land raw 0x7F else from_bcd (Z.land raw 0x7F) in
    let hour := if hour =? 12 then 0 else hour in
    if pm then u8 (hour + 12) else hour
  else if binary then raw else from_bcd raw.

Lemma decode_hour_field b h v : 0 <= v < 24 -> decode_hour b h (hour_field b h v) = v.
Proof.
  intros Hv. apply Z.eqb_eq, (try_all (fun v => decode_hour b h (hour_field b h v) =? v) 24); [|lia].
  by destruct b, h; vm_compute.
Qed.

Lemma decode_field (b : bool) v : 0 <= v < 100 -> (if b then field b v else from_bcd (field b v)) = v.
Proof. intros Hv. destruct b; [done|]. by apply from_to_bcd. Qed.

Lemma rtc_decode_registers b h other t :
  time_ok t -> 2000 <= year t < 2100 -> rtc_decode (registers b h t) (status_of b h other) = t.
Proof.
  intros ([Hmo Hd]&Hh&Hm&Hs) Hy. unfold rtc_decode. destruct (status_flags b h other) as [-> ->]. cbn zeta.
  pose proof (month_length_range (year t) (month t)).
  change (get (registers b h t) 2) with (hour_field b h (hour t)). unfold registers, get. cbn [fmap list_fmap].
  change (mkRtc ?a ?b0 ?c ?d ?e ?f) with (mkRtc a b0 (decode_hour b h (hour_field b h (hour t))) d e f).
  change (Z.to_nat 0) with 0%nat. change (Z.to_nat 1) with 1%nat. change (Z.to_nat 3) with 3%nat.
  change (Z.to_nat 4) with 4%nat. change (Z.to_nat 5) with 5%nat. cbn [nth].
  rewrite decode_hour_field by done. rewrite !decode_field by lia. rewrite u16_small by lia. destruct t; cbn. f_equal. lia.
Qed.

(** Two equal reads among the first nine end the loop with what they hold, when
    no two reads in a row before them agree. *)
Lemma reread_stable raw reads k x : (k < 8)%nat ->
  (raw :: reads) !! k = Some x -> (raw :: reads) !! S k = Some x ->
  (forall i a, (i < k)%nat -> (raw :: reads) !! i = Some a -> (raw :: reads) !! S i <> Some a) ->
  forall tries, (k < tries)%nat -> reread tries raw reads = x.
Proof.
  intros _. revert raw reads. induction k as [|k IH]; intros raw reads H1 H2 Hne [|tries] Ht; try lia.
  - cbn in H1, H2. destruct reads as [|again reads]; [done|]. cbn in H2. simplify_eq. cbn. by rewrite bool_decide_true.
  - destruct reads as [|again reads]; [done|]. cbn. rewrite bool_decide_false.
    + apply IH; [done|done| |lia]. intros i a Hi. apply (Hne (S i)). lia.
    + intros ->. by apply (Hne 0%nat again); [lia|..].
Qed.

(** * The time of day *)

Lemma s64_add_u64 a b : s64 (a + u64 b) = s64 (a + b).
Proof. unfold s64, u64. by rewrite Zplus_mod_idemp_r. Qed.
Lemma s64_small z : -0x8000000000000000 <= z < 0x8000000000000000 -> s64 z = z.
Proof. intros Hz. unfold s64, u64. destruct (Z.ltb_spec (z mod 0x10000000000000000) 0x8000000000000000); zlia. Qed.
Lemma s64_range z : -0x8000000000000000 <= s64 z < 0x8000000000000000.
Proof. unfold s64. pose proof (u64_range z). destruct (Z.ltb_spec (u64 z) 0x8000000000000000); lia. Qed.
Lemma s64_mod z : exists k, s64 z = z + k * 0x10000000000000000.
Proof. unfold s64, u64. destruct (_ <? _); [exists (- (z / 0x10000000000000000))|exists (- (z / 0x10000000000000000) - 1)]; zlia. Qed.
Lemma s64_cong a b k : a = b + k * 0x10000000000000000 -> s64 a = s64 b.
Proof. intros ->. unfold s64, u64. by rewrite Z_mod_plus_full. Qed.
Lemma u64_mod z : exists k, u64 z = z + k * 0x10000000000000000.
Proof. exists (- (z / 0x10000000000000000)). unfold u64. zlia. Qed.

(** What the clocks say when the time is set and what they say later. *)
Definition drift (cmos0 clock0 cmos1 clock1 : Z) : Z := s64 ((clock1 - clock0) - (cmos1 - cmos0)).

(** A check of a running clock against a CMOS clock that holds a date: the time
    is put right exactly when it is too far out. *)
Lemma walltime_check_eq cmos_now now w :
  started w = true -> cmos_middle_ns cmos_now <> 0 ->
  let target := cmos_middle_ns cmos_now + set_delta_ns w in
  let out := s64 (now + offset_ns w - target) in
  walltime_check cmos_now now w =
    (out, mkWalltime (if bool_decide (Z.abs out <= WALLTIME_CHECK_LIMIT_NS) then offset_ns w else target -w now)
            true (set_delta_ns w) now).
Proof.
  intros Hst Hc target out. unfold walltime_check. rewrite Hst. cbn [negb]. destruct (Z.eqb_spec (cmos_middle_ns cmos_now) 0); [done|].
  cbn zeta. fold target. assert (s64 (now + offset_ns w - u64 target) = out) as ->.
  { destruct (u64_mod target) as [k Hk]. apply (s64_cong _ _ (- k)). lia. }
  assert (u64 (u64 target - now) = target -w now) as -> by (unfold u64; by rewrite Zminus_mod_idemp_l).
  unfold WALLTIME_CHECK_LIMIT_NS. case_bool_decide.
  - rewrite !(proj2 (Z.ltb_ge _ _)) by lia. cbn. by rewrite Hst.
  - destruct (Z.ltb_spec 1500000000 out); cbn; [done|]. by rewrite (proj2 (Z.ltb_lt _ _)) by lia.
Qed.

(** * Properties *)

(** The nanosecond clock, with a counter of at most 18 GHz: whatever the
    counter does (it may even step back), the readings are the running maximum of
    the exact times, rounded down to a nanosecond; so they never go back, and no
    intermediate product overflows in the 584 years a 64-bit time lasts. *)
Theorem clock_ns_correct c l :
  0 < tsc_hz c <= 18000000000 -> 0 <= tsc_at_start c ->
  Forall (fun r => tsc_at_start c <= r.1 < 0x10000000000000000 /\ exact_ns r.1 c < 0x10000000000000000) l ->
  (readings l c).1 = running_max (last_reading c) ((fun r => exact_ns r.1 c) <$> l).
Proof.
  intros Hhz Hs. revert c Hhz Hs. induction l as [|[rdtsc ticks] l IH]; intros c Hhz Hs Hl; [done|].
  apply Forall_cons in Hl as [[H1 H2] Hl]. cbn [readings fst]. rewrite clock_ns_eq by (cbn in *; lia).
  set (c' := mkClock _ _ _ _). specialize (IH c' Hhz Hs Hl). destruct (readings l c') as [rest c'']. cbn in *. by rewrite IH.
Qed.

(** C33. The CMOS clock is read correctly: whatever format its registers are in
    (BCD or binary, 12 or 24 hours), if a read of the registers was disturbed by
    an update but two of the first nine in a row agree, the time returned is the
    one those hold; and the date printed when the time of day is started from it,
    and the time of day at that moment, are that date. *)
Theorem rtc_walltime_correct b h other t raw reads k clock clock2 w :
  time_ok t -> 2000 <= year t < 2100 -> (k < 8)%nat -> 0 <= clock < 0x10000000000000000 ->
  (raw :: reads) !! k = Some (registers b h t) -> (raw :: reads) !! S k = Some (registers b h t) ->
  (forall i a, (i < k)%nat -> (raw :: reads) !! i = Some a -> (raw :: reads) !! S i <> Some a) ->
  rtc_read_time raw reads (status_of b h other) = t /\
  let '(printed, w') := walltime_init t clock clock2 w in
  printed = t /\ started w' = true /\ clock +w offset_ns w' = walltime_from_date t * NS_PER_SECOND /\
  walltime_to_date ((clock +w offset_ns w') / NS_PER_SECOND) = t.
Proof.
  intros Ht Hy Hk Hc H1 H2 Hne. split.
  - unfold rtc_read_time. rewrite (reread_stable raw reads k (registers b h t)) by done. by apply rtc_decode_registers.
  - pose proof (walltime_date_round_trip t Ht ltac:(lia)) as Hrt. pose proof (walltime_from_date_eq t Ht ltac:(lia)) as Hsec.
    destruct Ht as ([Hmo Hd]&Hh&Hm&Hs). pose proof (days_of_bounds (year t) (month t) (day t) ltac:(done) ltac:(lia)) as HD.
    pose proof (month_length_range (year t) (month t)).
    assert (0 <= walltime_from_date t < 18000000000) as Hw by (rewrite Hsec; lia).
    assert (cmos_ns t = walltime_from_date t * NS_PER_SECOND) as Hcmos.
    { unfold cmos_ns. rewrite !(proj2 (Z.ltb_ge _ _)) by lia. cbn [orb]. apply u64_small. unfold NS_PER_SECOND. lia. }
    assert (clock +w (cmos_ns t -w clock) = walltime_from_date t * NS_PER_SECOND) as Ht2.
    { rewrite Hcmos. unfold u64. rewrite Zplus_mod_idemp_r. replace (clock + (_ - clock)) with (walltime_from_date t * NS_PER_SECOND) by lia.
      apply u64_small. unfold NS_PER_SECOND. lia. }
    unfold walltime_init. cbn zeta. cbn [offset_ns started]. rewrite Ht2, Hcmos, Z.div_mul by done. done.
Qed.

(** A time that is set is kept: [walltime_set] refuses exactly the times
    outside its range; otherwise the time of day runs on from the time set with
    the nanosecond clock, and stays so through any check at which the CMOS clock
    has moved as far as the nanosecond clock, up to the limit. If it has not, the
    check corrects the time to the CMOS clock's own progress since it was set.
    After every check the two agree up to the limit. *)
Theorem walltime_set_kept unix_ns clock0 cmos0 w clock1 cmos1 :
  cmos_middle_ns cmos0 <> 0 -> cmos_middle_ns cmos1 <> 0 -> 0 <= unix_ns ->
  let valid := WALLTIME_MIN_SECONDS <= unix_ns / NS_PER_SECOND <= WALLTIME_MAX_SECONDS in
  let '(r, w1) := walltime_set unix_ns clock0 cmos0 w in
  (~ valid /\ r = - EINVAL /\ w1 = w) \/
  (valid /\ r = 0 /\ started w1 = true /\ (forall c, c +w offset_ns w1 = u64 (unix_ns + (c - clock0))) /\
   let '(out, w2) := walltime_check cmos1 clock1 w1 in
   let d := drift (cmos_middle_ns cmos0) clock0 (cmos_middle_ns cmos1) clock1 in
   out = d /\
   (Z.abs d <= WALLTIME_CHECK_LIMIT_NS -> offset_ns w2 = offset_ns w1) /\
   (WALLTIME_CHECK_LIMIT_NS < Z.abs d -> clock1 +w offset_ns w2 = u64 (unix_ns + (cmos_middle_ns cmos1 - cmos_middle_ns cmos0))) /\
   Z.abs (walltime_check cmos1 clock1 w2).1 <= WALLTIME_CHECK_LIMIT_NS).
Proof.
  intros H0 H1 Hu valid. unfold walltime_set. cbn zeta.
  destruct (Z.ltb_spec (unix_ns / NS_PER_SECOND) WALLTIME_MIN_SECONDS); [left; unfold valid; split_and!; [lia|done..]|].
  destruct (Z.ltb_spec WALLTIME_MAX_SECONDS (unix_ns / NS_PER_SECOND)); [left; unfold valid; split_and!; [lia|done..]|].
  right. cbn [orb]. destruct (Z.eqb_spec (cmos_middle_ns cmos0) 0); [done|]. cbn [negb].
  set (w1 := mkWalltime _ _ _ _). split; [done|]. split; [done|]. split; [done|]. split.
  { intros c. cbn [offset_ns w1]. unfold u64. rewrite Zplus_mod_idemp_r. f_equal. lia. }
  rewrite walltime_check_eq by done. cbn zeta. set (d := drift _ _ _ _). set (target := _ + set_delta_ns w1). set (out := s64 _).
  destruct (s64_mod (unix_ns - cmos_middle_ns cmos0)) as [k Hk]. assert (set_delta_ns w1 = s64 (unix_ns - cmos_middle_ns cmos0)) as Hsd by done.
  destruct (u64_mod (unix_ns - clock0)) as [j Hj]. assert (offset_ns w1 = u64 (unix_ns - clock0)) as Hof by done.
  assert (out = d) as Hout by (apply (s64_cong _ _ (j - k)); unfold target; lia).
  rewrite Hout. split; [done|]. cbn [offset_ns]. split; [intros; by rewrite bool_decide_true|]. split.
  - intros Hd. rewrite bool_decide_false by lia. unfold u64. rewrite Zplus_mod_idemp_r. unfold target.
    rewrite Hsd, Hk. replace (clock1 + _) with (unix_ns + (cmos_middle_ns cmos1 - cmos_middle_ns cmos0) + k * 0x10000000000000000) by lia.
    by rewrite Z_mod_plus_full.
  - rewrite walltime_check_eq by done. cbn [fst offset_ns set_delta_ns]. fold target. case_bool_decide.
    + fold out. by rewrite Hout.
    + destruct (u64_mod (target - clock1)) as [i Hi]. rewrite (s64_cong _ 0 i) by lia. rewrite s64_small by lia. unfold WALLTIME_CHECK_LIMIT_NS. lia.
Qed.

(** ** Examples *)

Definition noon : rtc_time := mkRtc 30 15 12 29 2 2024.
Definition later : rtc_time := mkRtc 40 15 12 29 2 2024.

Lemma noon_ok : time_ok noon.
Proof. repeat split; vm_compute; discriminate. Qed.

Lemma clock_ns_correct_witness :
  (readings [(3000000000, 0); (6000000000, 1); (5000000000, 1)] (mkClock 2000000000 1000000000 0 0)).1 = [1000000000; 2500000000; 2500000000].
Proof.
  rewrite (clock_ns_correct (mkClock 2000000000 1000000000 0 0) [(3000000000, 0); (6000000000, 1); (5000000000, 1)]);
    [reflexivity|cbn; lia|cbn; lia|]. repeat constructor; vm_compute; discriminate.
Defined.

Lemma rtc_walltime_correct_witness :
  rtc_read_time [0x59; 0x15; 0x92; 0x29; 0x02; 0x24] [registers false false noon; registers false false noon] 0 = noon.
Proof.
  refine (proj1 (rtc_walltime_correct false false 0 noon [0x59; 0x15; 0x92; 0x29; 0x02; 0x24]
    [registers false false noon; registers false false noon] 1 0 0 walltime_static noon_ok _ _ _ _ _ _)); [cbn; lia|lia|lia|reflexivity|reflexivity|].
  intros i a Hi. assert (i = 0)%nat as -> by lia. intros E1 E2. vm_compute in E1, E2. congruence.
Defined.

(** Set to the year 2000 while the CMOS clock says 2024; ten seconds later. *)
Lemma walltime_set_kept_witness :
  let w1 := (walltime_set 946684800000000000 5000000000 noon walltime_static).2 in
  offset_ns (walltime_check later 15000000000 w1).2 = offset_ns w1.
Proof.
  pose proof (walltime_set_kept 946684800000000000 5000000000 noon walltime_static 15000000000 later
    ltac:(vm_compute; discriminate) ltac:(vm_compute; discriminate) ltac:(lia)) as H.
  cbn zeta in H. rewrite (surjective_pairing (walltime_set _ _ _ _)) in H.
  destruct H as [[H _]|(_&_&_&_&H)]; [destruct H; vm_compute; split; discriminate|].
  rewrite (surjective_pairing (walltime_check _ _ _)) in H. apply H. vm_compute. discriminate.
Defined.

(** The rate is accepted up to 100 GHz, but above 18.4 GHz the product in
    [hrtimer_raw_ns] overflows: at 20 GHz, 19 billion counts (0.95 s) read as
    27.6 ms. *)
Example hrtimer_rate_overflows :
  let c := hrtimer_init true 0 1000000000 0 0 clock_static in
  tsc_hz c = 20000000000 /\ exact_ns 19000000000 c = 950000000 /\ hrtimer_raw_ns 19000000000 c = 27662796.
Proof. vm_compute. done. Qed.
