(* ===== verification/Sha256.v ===== *)
(** The SHA-256 hash, [lib/crypto/sha256.c], against FIPS 180-4. *)
From stdpp Require Import base tactics numbers list.
From Stdlib Require Import ZArith Lia.
From S2P Require Import Prelude.

Open Scope Z_scope.

(** * The code *)

Definition ROTRIGHT (a b : Z) : Z := Z.lor (Z.shiftr a b) (u32 (Z.shiftl a (32 - b))).
Definition CH (x y z : Z) : Z := Z.lxor (Z.land x y) (Z.land (u32 (Z.lnot x)) z).
Definition MAJ (x y z : Z) : Z := Z.lxor (Z.lxor (Z.land x y) (Z.land x z)) (Z.land y z).
Definition EP0 (x : Z) : Z := Z.lxor (Z.lxor (ROTRIGHT x 2) (ROTRIGHT x 13)) (ROTRIGHT x 22).
Definition EP1 (x : Z) : Z := Z.lxor (Z.lxor (ROTRIGHT x 6) (ROTRIGHT x 11)) (ROTRIGHT x 25).
Definition SIG0 (x : Z) : Z := Z.lxor (Z.lxor (ROTRIGHT x 7) (ROTRIGHT x 18)) (Z.shiftr x 3).
Definition SIG1 (x : Z) : Z := Z.lxor (Z.lxor (ROTRIGHT x 17) (ROTRIGHT x 19)) (Z.shiftr x 10).

(** The table of constants, a row of the source (eight words) in each number. *)
Definition row_words (row : Z) : list Z := (fun i => u32 (Z.shiftr row (32 * (7 - Z.of_nat i)))) <$> seq 0 8.
Definition K : list Z := concat (row_words <$> [
  0x428a2f9871374491b5c0fbcfe9b5dba53956c25b59f111f1923f82a4ab1c5ed5;
  0xd807aa9812835b01243185be550c7dc372be5d7480deb1fe9bdc06a7c19bf174;
  0xe49b69c1efbe47860fc19dc6240ca1cc2de92c6f4a7484aa5cb0a9dc76f988da;
  0x983e5152a831c66db00327c8bf597fc7c6e00bf3d5a7914706ca635114292967;
  0x27b70a852e1b21384d2c6dfc53380d13650a7354766a0abb81c2c92e92722c85;
  0xa2bfe8a1a81a664bc24b8b70c76c51a3d192e819d6990624f40e3585106aa070;
  0x19a4c1161e376c082748774c34b0bcb5391c0cb34ed8aa4a5b9cca4f682e6ff3;
  0x748f82ee78a5636f84c878148cc7020890befffaa4506cebbef9a3f7c67178f2]).

Record sha256_ctx_t := mkCtx { data : list Z; datalen : Z; bitlen : Z; state : list Z }.

(** The message schedule: sixteen words of the block, then one at a time. *)
Definition load_word (d : list Z) (i : nat) : Z :=
  let j := 4 * Z.of_nat i in
  Z.lor (Z.lor (Z.lor (u32 (Z.shiftl (get d j) 24)) (Z.shiftl (get d (j + 1)) 16)) (Z.shiftl (get d (j + 2)) 8)) (get d (j + 3)).
Definition load_words (d : list Z) : list Z := load_word d <$> seq 0 16.
Fixpoint schedule_loop (n : nat) (i : Z) (m : list Z) : list Z :=
  match n with
  | O => m
  | S n' => schedule_loop n' (i + 1)
              (m ++ [u32 (SIG1 (get m (i - 2)) + get m (i - 7) + SIG0 (get m (i - 15)) + get m (i - 16))])
  end.

(** The eight working variables. *)
Record vars := mkVars { a : Z; b : Z; c : Z; d : Z; e : Z; f : Z; g : Z; h : Z }.
Definition round (m : list Z) (v : vars) (i : nat) : vars :=
  let t1 := u32 (h v + EP1 (e v) + CH (e v) (f v) (g v) + get K (Z.of_nat i) + get m (Z.of_nat i)) in
  let t2 := u32 (EP0 (a v) + MAJ (a v) (b v) (c v)) in
  mkVars (u32 (t1 + t2)) (a v) (b v) (c v) (u32 (d v + t1)) (e v) (f v) (g v).

Definition sha256_transform (ctx : sha256_ctx_t) (block : list Z) : sha256_ctx_t :=
  let m := schedule_loop 48 16 (load_words block) in
  let s i := get (state ctx) i in
  let v := fold_left (round m) (seq 0 64) (mkVars (s 0) (s 1) (s 2) (s 3) (s 4) (s 5) (s 6) (s 7)) in
  mkCtx (data ctx) (datalen ctx) (bitlen ctx)
    [u32 (s 0 + a v); u32 (s 1 + b v); u32 (s 2 + c v); u32 (s 3 + d v);
     u32 (s 4 + e v); u32 (s 5 + f v); u32 (s 6 + g v); u32 (s 7 + h v)].

(** [data] is not initialized. *)
Definition sha256_init (ctx : sha256_ctx_t) : sha256_ctx_t :=
  mkCtx (data ctx) 0 0 [0x6a09e667; 0xbb67ae85; 0x3c6ef372; 0xa54ff53a; 0x510e527f; 0x9b05688c; 0x1f83d9ab; 0x5be0cd19].

Definition update_byte (ctx : sha256_ctx_t) (x : Z) : sha256_ctx_t :=
  let ctx := mkCtx (put (data ctx) (datalen ctx) x) (u32 (datalen ctx + 1)) (bitlen ctx) (state ctx) in
  if datalen ctx =? 64 then
    let ctx := sha256_transform ctx (data ctx) in
    mkCtx (data ctx) 0 (u64 (bitlen ctx + 512)) (state ctx)
  else ctx.
Definition sha256_update (ctx : sha256_ctx_t) (bytes : list Z) : sha256_ctx_t := fold_left update_byte bytes ctx.

(** [while (i < limit) data[i++] = 0;] with [n = limit - i]. *)
Fixpoint zero_fill (n : nat) (i : Z) (l : list Z) : list Z :=
  match n with O => l | S n' => zero_fill n' (i + 1) (put l i 0) end.

Definition pad_block (ctx : sha256_ctx_t) : sha256_ctx_t :=
  let i := datalen ctx in
  if datalen ctx <? 56 then
    mkCtx (zero_fill (Z.to_nat (56 - (i + 1))) (i + 1) (put (data ctx) i 0x80)) (datalen ctx) (bitlen ctx) (state ctx)
  else
    let ctx := mkCtx (zero_fill (Z.to_nat (64 - (i + 1))) (i + 1) (put (data ctx) i 0x80)) (datalen ctx) (bitlen ctx) (state ctx) in
    let ctx := sha256_transform ctx (data ctx) in
    mkCtx (zero_fill 56 0 (data ctx)) (datalen ctx) (bitlen ctx) (state ctx).

Fixpoint put_length (n : nat) (bits : Z) (l : list Z) : list Z :=
  match n with
  | O => l
  | S n' => put_length n' bits (put l (56 + Z.of_nat n') (u8 (Z.shiftr bits (8 * (7 - Z.of_nat n')))))
  end.

Definition word_bytes (w : Z) : list Z := (fun i => Z.land (Z.shiftr w (24 - i * 8)) 0xff) <$> [0; 1; 2; 3].
Definition hash_bytes (st : list Z) : list Z := concat (word_bytes <$> st).

Definition sha256_final (ctx : sha256_ctx_t) : list Z * sha256_ctx_t :=
  let ctx := mkCtx (data ctx) (datalen ctx) (u64 (bitlen ctx + datalen ctx * 8)) (state ctx) in
  let ctx := pad_block ctx in
  let ctx := mkCtx (put_length 8 (bitlen ctx) (data ctx)) (datalen ctx) (bitlen ctx) (state ctx) in
  let ctx := sha256_transform ctx (data ctx) in
  (hash_bytes (state ctx), ctx).

Definition sha256_hash (uninitialized : sha256_ctx_t) (bytes : list Z) : list Z :=
  (sha256_final (sha256_update (sha256_init uninitialized) bytes)).1.

(** * The standard *)

Module Fips.
Definition word (z : Z) : Prop := 0 <= z < 2 ^ 32.
Definition rotr (n x : Z) : Z := x / 2 ^ n + x mod 2 ^ n * 2 ^ (32 - n).
Definition shr (n x : Z) : Z := x / 2 ^ n.
Definition not32 (x : Z) : Z := 2 ^ 32 - 1 - x.
Definition Ch (x y z : Z) : Z := Z.lxor (Z.land x y) (Z.land (not32 x) z).
Definition Maj (x y z : Z) : Z := Z.lxor (Z.land x y) (Z.lxor (Z.land x z) (Z.land y z)).
Definition Sigma0 (x : Z) : Z := Z.lxor (rotr 2 x) (Z.lxor (rotr 13 x) (rotr 22 x)).
Definition Sigma1 (x : Z) : Z := Z.lxor (rotr 6 x) (Z.lxor (rotr 11 x) (rotr 25 x)).
Definition sigma0 (x : Z) : Z := Z.lxor (rotr 7 x) (Z.lxor (rotr 18 x) (shr 3 x)).
Definition sigma1 (x : Z) : Z := Z.lxor (rotr 17 x) (Z.lxor (rotr 19 x) (shr 10 x)).

(** Section 4.2.2: the constants are the first 32 bits of the fractional parts of
    the cube roots of the first 64 primes. *)
Definition primes : list Z := Z.of_nat <$> filter (fun n => forallb (fun d => negb (n mod d =? 0)%nat) (seq 2 (n - 2)) = true) (seq 2 310).
Definition constant (p k : Z) : Prop := exists root, root ^ 3 <= p * 2 ^ 96 < (root + 1) ^ 3 /\ k = root mod 2 ^ 32.

(** A big-endian number. *)
Definition be (bytes : list Z) : Z := fold_left (fun acc x => acc * 256 + x) bytes 0.
(** [n] bytes of a number, big-endian. *)
Fixpoint to_be (n : nat) (z : Z) : list Z :=
  match n with O => [] | S n' => to_be n' (z / 256) ++ [z mod 256] end.

(** Section 6.2.2, step 1: the words [W_0 ... W_63] of a block are the ones
    that satisfy the recurrence. *)
Record schedule (block : list Z) (W : list Z) : Prop := {
  sched_length : length W = 64%nat;
  sched_block : forall t, (t < 16)%nat -> nth t W 0 = be (take 4 (drop (4 * t) block));
  sched_rest : forall t, (16 <= t < 64)%nat ->
    nth t W 0 = (sigma1 (nth (t - 2) W 0) + nth (t - 7) W 0 + sigma0 (nth (t - 15) W 0) + nth (t - 16) W 0) mod 2 ^ 32 }.

(** Step 3, for one [t]. *)
Definition step (W : list Z) (v : vars) (t : nat) : vars :=
  let T1 := (h v + Sigma1 (e v) + Ch (e v) (f v) (g v) + nth t K 0 + nth t W 0) mod 2 ^ 32 in
  let T2 := (Sigma0 (a v) + Maj (a v) (b v) (c v)) mod 2 ^ 32 in
  mkVars ((T1 + T2) mod 2 ^ 32) (a v) (b v) (c v) ((d v + T1) mod 2 ^ 32) (e v) (f v) (g v).

Definition to_vars (H : list Z) : vars :=
  mkVars (nth 0 H 0) (nth 1 H 0) (nth 2 H 0) (nth 3 H 0) (nth 4 H 0) (nth 5 H 0) (nth 6 H 0) (nth 7 H 0).
Definition of_vars (v : vars) : list Z := [a v; b v; c v; d v; e v; f v; g v; h v].

(** Steps 2 to 4: the hash value [H'] that follows [H] on a block. *)
Definition compress (H block H' : list Z) : Prop :=
  exists W, schedule block W /\
    H' = zip_with (fun x y => (x + y) mod 2 ^ 32) H (of_vars (fold_left (step W) (seq 0 64) (to_vars H))).

Inductive hashes : list Z -> list (list Z) -> list Z -> Prop :=
| hashes_nil H : hashes H [] H
| hashes_cons H H1 H2 block blocks : compress H block H1 -> hashes H1 blocks H2 -> hashes H (block :: blocks) H2.

(** Section 5.1.1: a one, the least number of zeros and the length in bits. *)
Definition pad (msg : list Z) : list Z :=
  let len := Z.of_nat (length msg) in
  msg ++ [0x80] ++ replicate (Z.to_nat ((55 - len) mod 64)) 0 ++ to_be 8 (8 * len).

Definition blocks (l : list Z) : list (list Z) :=
  (fun i => take 64 (drop (64 * i) l)) <$> seq 0 (length l / 64).

(** Section 5.3.3. *)
Definition H0 : list Z := [0x6a09e667; 0xbb67ae85; 0x3c6ef372; 0xa54ff53a; 0x510e527f; 0x9b05688c; 0x1f83d9ab; 0x5be0cd19].

Definition sha256 (msg digest : list Z) : Prop :=
  exists H, hashes H0 (blocks (pad msg)) H /\ digest = concat (to_be 4 <$> H).
End Fips.

(** * The functions on words *)

Import Fips.

Lemma word_mod z : word (z mod 2 ^ 32).
Proof. apply Z.mod_pos_bound. lia. Qed.
(** Lists of words. *)
Ltac words := repeat (apply Forall_cons_2; [first [assumption|apply word_mod]|]); apply Forall_nil_2.

Lemma u32_pow z : u32 z = z mod 2 ^ 32.
Proof. done. Qed.

Lemma rotright_rotr x n : word x -> 0 < n < 32 -> ROTRIGHT x n = rotr n x.
Proof.
  intros Hx Hn. unfold ROTRIGHT, rotr, word in *. rewrite Z.shiftr_div_pow2, Z.shiftl_mul_pow2, u32_pow by lia.
  assert (2 ^ 32 = 2 ^ n * 2 ^ (32 - n)) as E by (rewrite <- Z.pow_add_r by lia; f_equal; lia).
  pose proof (Z.pow_pos_nonneg 2 n). pose proof (Z.pow_pos_nonneg 2 (32 - n)).
  rewrite E, Z.mul_mod_distr_r by lia. apply lor_shift; [lia|].
  split; [apply Z.div_pos; lia|]. apply Z.div_lt_upper_bound; lia.
Qed.

Lemma lnot_not32 x : word x -> u32 (Z.lnot x) = not32 x.
Proof. unfold word, not32, u32, Z.lnot. intros Hx. zlia. Qed.

Lemma EP0_eq x : word x -> EP0 x = Sigma0 x.
Proof. intros Hx. unfold EP0, Sigma0. rewrite !rotright_rotr by (done || lia). apply Z.lxor_assoc. Qed.
Lemma EP1_eq x : word x -> EP1 x = Sigma1 x.
Proof. intros Hx. unfold EP1, Sigma1. rewrite !rotright_rotr by (done || lia). apply Z.lxor_assoc. Qed.
Lemma SIG0_eq x : word x -> SIG0 x = sigma0 x.
Proof. intros Hx. unfold SIG0, sigma0, shr. rewrite !rotright_rotr, Z.shiftr_div_pow2 by (done || lia). apply Z.lxor_assoc. Qed.
Lemma SIG1_eq x : word x -> SIG1 x = sigma1 x.
Proof. intros Hx. unfold SIG1, sigma1, shr. rewrite !rotright_rotr, Z.shiftr_div_pow2 by (done || lia). apply Z.lxor_assoc. Qed.
Lemma CH_eq x y z : word x -> CH x y z = Ch x y z.
Proof. intros Hx. unfold CH, Ch. by rewrite lnot_not32. Qed.
Lemma MAJ_eq x y z : MAJ x y z = Maj x y z.
Proof. apply Z.lxor_assoc. Qed.

(** * The constants *)

(** The largest number below [2 ^ n] (more than [r]) whose cube is at most [z]. *)
Fixpoint cube_root (n : nat) (z r : Z) : Z :=
  match n with
  | O => r
  | S n' => let r' := r + 2 ^ Z.of_nat n' in cube_root n' z (if r' * r' * r' <=? z then r' else r)
  end.

Definition constant_check (p k : Z) : bool :=
  let root := cube_root 36 (p * 2 ^ 96) 0 in
  (root ^ 3 <=? p * 2 ^ 96) && (p * 2 ^ 96 <? (root + 1) ^ 3) && (k =? root mod 2 ^ 32).

Lemma constant_check_ok p k : constant_check p k = true -> constant p k.
Proof.
  unfold constant_check. generalize (cube_root 36 (p * 2 ^ 96) 0) as root. intros root H. apply andb_true_iff in H as [H H3].
  apply andb_true_iff in H as [H1 H2]. apply Z.leb_le in H1. apply Z.ltb_lt in H2. apply Z.eqb_eq in H3. by exists root.
Qed.

Lemma K_constants : length primes = 64%nat /\ Forall2 constant primes K.
Proof.
  split; [vm_compute; reflexivity|]. assert (forallb (fun x => constant_check x.1 x.2) (combine primes K) = true) as H by (vm_compute; reflexivity).
  rewrite forallb_forall in H. apply Forall2_same_length_lookup_2; [vm_compute; reflexivity|]. intros i x y Hx Hy. apply constant_check_ok, (H (x, y)).
  apply list_elem_of_In, list_elem_of_lookup. exists i. apply lookup_zip_with_Some. by exists x, y.
Qed.

(** * Bytes and words *)

Definition byte (z : Z) : Prop := 0 <= z < 256.

Lemma be_word x y z w : byte x -> byte y -> byte z -> byte w ->
  Z.lor (Z.lor (Z.lor (u32 (Z.shiftl x 24)) (Z.shiftl y 16)) (Z.shiftl z 8)) w = be [x; y; z; w].
Proof.
  unfold byte. intros. rewrite !Z.shiftl_mul_pow2 by lia. rewrite u32_small by lia.
  rewrite <- Z.lor_assoc, (Z.lor_comm (z * _)), Z.lor_comm, (lor_shift w z 8) by lia.
  rewrite (Z.lor_comm (x * _)), Z.lor_assoc, (lor_shift (w + z * 2 ^ 8) y 16) by lia.
  rewrite lor_shift by lia. unfold be. cbn [fold_left]. lia.
Qed.

Lemma nth_get l i : nth i l 0 = get l (Z.of_nat i).
Proof. unfold get. by rewrite Nat2Z.id. Qed.

Lemma load_word_at blk t : length blk = 64%nat -> Forall byte blk -> (t < 16)%nat ->
  nth t (load_words blk) 0 = be (take 4 (drop (4 * t) blk)) /\ word (nth t (load_words blk) 0).
Proof.
  intros Hl Hb Ht. unfold load_words.
  assert (drop (4 * t) blk = get blk (4 * Z.of_nat t) :: get blk (4 * Z.of_nat t + 1) :: get blk (4 * Z.of_nat t + 2) ::
    get blk (4 * Z.of_nat t + 3) :: drop (4 * t + 4) blk) as E.
  { unfold get. rewrite (drop_S blk (nth (4 * t) blk 0)), (drop_S blk (nth (S (4 * t)) blk 0)), (drop_S blk (nth (S (S (4 * t))) blk 0)),
      (drop_S blk (nth (S (S (S (4 * t)))) blk 0)) by (apply lookup_nth; lia).
    repeat (f_equal; [f_equal; lia|]). f_equal. lia. }
  rewrite E. cbn [take].
  assert (forall j, 0 <= j < 64 -> byte (get blk j)) as Hbyte.
  { intros j Hj. unfold get. eapply Forall_lookup_1; [exact Hb|]. apply lookup_nth. lia. }
  rewrite nth_lookup, list_lookup_fmap, lookup_seq_lt by lia. cbn [fmap option_fmap option_map default Nat.add].
  unfold load_word. cbn zeta. rewrite be_word by (apply Hbyte; lia).
  split; [done|]. pose proof (Hbyte (4 * Z.of_nat t) ltac:(lia)). pose proof (Hbyte (4 * Z.of_nat t + 1) ltac:(lia)). pose proof (Hbyte (4 * Z.of_nat t + 2) ltac:(lia)).
  pose proof (Hbyte (4 * Z.of_nat t + 3) ltac:(lia)). unfold byte, word, be in *. cbn [fold_left id]. lia.
Qed.

(** * The schedule and the rounds *)

(** The first [n] words are right. *)
Record partial (blk : list Z) (n : nat) (m : list Z) : Prop := {
  part_length : length m = n;
  part_word : forall t, word (nth t m 0);
  part_block : forall t, (t < 16)%nat -> nth t m 0 = be (take 4 (drop (4 * t) blk));
  part_rest : forall t, (16 <= t < n)%nat ->
    nth t m 0 = (sigma1 (nth (t - 2) m 0) + nth (t - 7) m 0 + sigma0 (nth (t - 15) m 0) + nth (t - 16) m 0) mod 2 ^ 32 }.

Lemma partial_load blk : length blk = 64%nat -> Forall byte blk -> partial blk 16 (load_words blk).
Proof.
  intros Hl Hb. split; [done| | |lia].
  - intros t. destruct (decide (t < 16)%nat); [by apply load_word_at|]. rewrite nth_overflow; [by unfold word|]. cbn. lia.
  - intros t Ht. by apply load_word_at.
Qed.

Lemma partial_step blk n m : partial blk n m -> (16 <= n)%nat ->
  partial blk (S n) (m ++ [u32 (SIG1 (get m (Z.of_nat n - 2)) + get m (Z.of_nat n - 7) + SIG0 (get m (Z.of_nat n - 15)) + get m (Z.of_nat n - 16))]).
Proof.
  intros [Hl Hw Hb Hr] Hn. set (x := u32 _).
  assert (forall k : nat, (k <= n)%nat -> get m (Z.of_nat n - Z.of_nat k) = nth (n - k) m 0) as Hget by (intros; unfold get; f_equal; lia).
  assert (x = (sigma1 (nth (n - 2) m 0) + nth (n - 7) m 0 + sigma0 (nth (n - 15) m 0) + nth (n - 16) m 0) mod 2 ^ 32) as Hx.
  { unfold x. change 2 with (Z.of_nat 2). change 7 with (Z.of_nat 7). change 15 with (Z.of_nat 15). change 16 with (Z.of_nat 16).
    rewrite !Hget by lia. rewrite SIG1_eq, SIG0_eq by apply Hw. done. }
  assert (forall t, nth t (m ++ [x]) 0 = if decide (t = n) then x else nth t m 0) as Hnth.
  { intros t. destruct (decide (t = n)) as [->|]; [by rewrite app_nth2, Hl, Nat.sub_diag by lia|].
    destruct (decide (t < n)%nat); [by rewrite app_nth1 by lia|]. rewrite !nth_overflow; [done|lia|rewrite length_app; cbn; lia]. }
  split.
  - rewrite length_app. cbn. lia.
  - intros t. rewrite Hnth. case_decide; [rewrite Hx; apply word_mod|apply Hw].
  - intros t Ht. rewrite Hnth. rewrite decide_False by lia. by apply Hb.
  - intros t Ht. rewrite !Hnth. rewrite (decide_False (P := t - 2 = n)%nat), (decide_False (P := t - 7 = n)%nat),
      (decide_False (P := t - 15 = n)%nat), (decide_False (P := t - 16 = n)%nat) by lia.
    destruct (decide (t = n)) as [->|]; [done|]. apply Hr. lia.
Qed.

Lemma schedule_loop_partial blk k n m : partial blk n m -> (16 <= n)%nat ->
  partial blk (n + k) (schedule_loop k (Z.of_nat n) m).
Proof.
  revert n m. induction k as [|k IH]; intros n m Hp Hn; cbn [schedule_loop]; [by rewrite Nat.add_0_r|].
  replace (n + S k)%nat with (S n + k)%nat by lia. replace (Z.of_nat n + 1) with (Z.of_nat (S n)) by lia.
  apply IH; [by apply partial_step|lia].
Qed.

Definition vars_ok (v : vars) : Prop := Forall word (of_vars v).

Lemma round_step m v i : vars_ok v -> round m v i = step m v i /\ vars_ok (round m v i).
Proof.
  intros Hv. unfold vars_ok, of_vars in Hv. rewrite !Forall_cons in Hv. destruct Hv as (?&?&?&?&?&?&?&?&_). split.
  - unfold round, step. rewrite EP1_eq, EP0_eq, CH_eq, MAJ_eq by done. by rewrite !nth_get.
  - unfold vars_ok, of_vars, round. cbn. words.
Qed.

Lemma rounds_steps m l v : vars_ok v -> fold_left (round m) l v = fold_left (step m) l v /\ vars_ok (fold_left (round m) l v).
Proof.
  revert v. induction l as [|i l IH]; intros v Hv; [done|]. cbn. destruct (round_step m v i Hv) as [<- Hv']. by apply IH.
Qed.

Definition state_ok (H : list Z) : Prop := length H = 8%nat /\ Forall word H.

Lemma transform_compress ctx blk : state_ok (state ctx) -> length blk = 64%nat -> Forall byte blk ->
  compress (state ctx) blk (state (sha256_transform ctx blk)) /\ state_ok (state (sha256_transform ctx blk)).
Proof.
  intros [Hl Hw] Hbl Hb. pose proof (schedule_loop_partial blk 48 16 _ (partial_load blk Hbl Hb) ltac:(lia)) as [P1 P2 P3 P4].
  change (Z.of_nat 16) with 16 in *. unfold sha256_transform. set (m := schedule_loop 48 16 (load_words blk)) in *. clearbody m.
  assert (exists s0 s1 s2 s3 s4 s5 s6 s7, state ctx = [s0; s1; s2; s3; s4; s5; s6; s7]) as (s0&s1&s2&s3&s4&s5&s6&s7&Hs).
  { destruct (state ctx) as [|s0 [|s1 [|s2 [|s3 [|s4 [|s5 [|s6 [|s7 [|]]]]]]]]]; try discriminate Hl. eauto 10. }
  rewrite Hs in *. destruct (rounds_steps m (seq 0 64) (mkVars s0 s1 s2 s3 s4 s5 s6 s7)) as [E _]; [exact Hw|].
  cbn zeta. cbn [state]. unfold get. change (Z.to_nat 0) with 0%nat. change (Z.to_nat 1) with 1%nat. change (Z.to_nat 2) with 2%nat.
  change (Z.to_nat 3) with 3%nat. change (Z.to_nat 4) with 4%nat. change (Z.to_nat 5) with 5%nat. change (Z.to_nat 6) with 6%nat.
  change (Z.to_nat 7) with 7%nat. cbn [nth]. rewrite E. clear E. set (v := fold_left _ _ _).
  split; [|split; [done|]; words]. exists m. split; [exact (Build_schedule blk m P1 P3 P4)|].
  unfold to_vars. cbn [nth]. fold v. clearbody v. reflexivity.
Qed.

(** The standard determines the digest. *)
Lemma schedule_unique blk W1 W2 : schedule blk W1 -> schedule blk W2 -> W1 = W2.
Proof.
  intros [L1 B1 R1] [L2 B2 R2]. assert (forall t, (t < 64)%nat -> nth t W1 0 = nth t W2 0) as Heq.
  { intros t. induction (lt_wf t) as [t _ IH]. intros Ht. destruct (decide (t < 16)%nat); [by rewrite B1, B2|].
    rewrite R1, R2 by lia. rewrite !IH by lia. done. }
  apply (nth_ext W1 W2 0 0); [lia|]. intros t Ht. apply Heq. lia.
Qed.

Lemma hashes_unique H bs H1 H2 : hashes H bs H1 -> hashes H bs H2 -> H1 = H2.
Proof.
  intros Hs. revert H2. induction Hs as [H|H H1 H2 blk bs Hc _ IH]; intros H3 Hs; inversion_clear Hs as [|? H1' ? ? ? Hc']; [done|].
  apply IH. destruct Hc as (W1&HW1&->), Hc' as (W2&HW2&->). by rewrite (schedule_unique _ _ _ HW1 HW2).
Qed.

(** * Blocks *)

Lemma hashes_snoc H bs H1 blk H2 : hashes H bs H1 -> compress H1 blk H2 -> hashes H (bs ++ [blk]) H2.
Proof. induction 1; intros Hc; cbn; econstructor; eauto. constructor. Qed.

Lemma blocks_app A R k : length A = (64 * k)%nat -> blocks (A ++ R) = blocks A ++ blocks R.
Proof.
  intros HA. unfold blocks. rewrite length_app, HA. replace (64 * k + length R)%nat with (length R + k * 64)%nat by lia.
  rewrite Nat.div_add by lia. replace (64 * k)%nat with (k * 64)%nat by lia. rewrite Nat.div_mul by lia.
  rewrite (Nat.add_comm _ k), seq_app, fmap_app. f_equal.
  - apply list_fmap_ext. intros i j Hij. apply lookup_seq in Hij as [-> Hi]. rewrite drop_app_le, take_app_le; [done|rewrite length_drop|]; lia.
  - replace (0 + k)%nat with (k + 0)%nat by lia. rewrite <- (fmap_add_seq k 0), <- list_fmap_compose. apply list_fmap_ext. intros i j Hij. cbn.
    rewrite drop_app_ge by lia. do 2 f_equal. lia.
Qed.
Lemma blocks_one R : length R = 64%nat -> blocks R = [R].
Proof. intros HR. unfold blocks. rewrite HR. change (64 / 64)%nat with 1%nat. cbn. by rewrite drop_0, take_ge by lia. Qed.

(** What has been hashed ([A]) and what waits in [data] ([T]). *)
Record absorbed (A T : list Z) (ctx : sha256_ctx_t) : Prop := {
  abs_data : length (data ctx) = 64%nat;
  abs_whole : exists k, length A = (64 * k)%nat;
  abs_tail : take (length T) (data ctx) = T;
  abs_len : datalen ctx = Z.of_nat (length T) /\ (length T < 64)%nat;
  abs_bits : bitlen ctx = u64 (8 * Z.of_nat (length A));
  abs_state : state_ok (state ctx);
  abs_hash : hashes H0 (blocks A) (state ctx);
  abs_bytes : Forall byte (A ++ T) }.

(** One block of [data] is mixed in. *)
Lemma absorb_block A ctx blk : (exists k, length A = (64 * k)%nat) -> state_ok (state ctx) -> hashes H0 (blocks A) (state ctx) ->
  length blk = 64%nat -> Forall byte blk ->
  state_ok (state (sha256_transform ctx blk)) /\ hashes H0 (blocks (A ++ blk)) (state (sha256_transform ctx blk)).
Proof.
  intros [k Hk] Hs Hh Hl Hb. destruct (transform_compress ctx blk Hs Hl Hb) as [Hc Hs']. split; [done|].
  rewrite (blocks_app A blk k Hk), (blocks_one blk) by done. by eapply hashes_snoc.
Qed.

Lemma init_absorbed ctx : length (data ctx) = 64%nat -> absorbed [] [] (sha256_init ctx).
Proof.
  intros Hl. split; cbn; try done; [by exists 0%nat|lia| |constructor].
  split; [done|]. repeat (apply Forall_cons_2; [unfold word; lia|]). apply Forall_nil_2.
Qed.

Lemma put_tail l T x : take (length T) l = T -> (length T < length l)%nat ->
  take (length (T ++ [x])) (put l (Z.of_nat (length T)) x) = T ++ [x].
Proof.
  intros HT Hl. unfold put. rewrite Nat2Z.id, length_app. cbn. rewrite Nat.add_1_r.
  rewrite (take_S_r _ _ x) by (by apply list_lookup_insert_eq). by rewrite take_insert_ge, HT by lia.
Qed.

Lemma update_byte_absorbed A T ctx x : absorbed A T ctx -> byte x ->
  exists A' T', A' ++ T' = (A ++ T) ++ [x] /\ absorbed A' T' (update_byte ctx x).
Proof.
  intros [Hd HA Ht [Hl Hl64] Hbits Hs Hh Hb] Hx. unfold update_byte. cbn zeta. rewrite Hl. rewrite u32_small by lia.
  pose proof (put_tail (data ctx) T x Ht ltac:(lia)) as Hput. cbn [datalen data bitlen state].
  assert (Forall byte (A ++ T ++ [x])) as Hb' by (rewrite app_assoc; apply Forall_app_2; [done|by constructor]).
  destruct (Z.eqb_spec (Z.of_nat (length T) + 1) 64) as [E|E].
  - assert (length (T ++ [x]) = 64%nat) as HTx by (rewrite length_app; cbn; lia).
    assert (put (data ctx) (Z.of_nat (length T)) x = T ++ [x]) as Hblk by (rewrite <- Hput, HTx, take_ge; [done|rewrite length_put; lia]).
    rewrite Hblk. exists (A ++ T ++ [x]), []. split; [by rewrite app_nil_r, app_assoc|].
    apply Forall_app in Hb' as Hb2. destruct Hb2 as [_ Hb2].
    destruct (absorb_block A (mkCtx (T ++ [x]) (Z.of_nat (length T) + 1) (bitlen ctx) (state ctx)) (T ++ [x]) HA Hs Hh HTx Hb2) as [Hs' Hh'].
    split; cbn -[sha256_transform]; try done.
    + destruct HA as [k Hk]. exists (S k). rewrite length_app. lia.
    + lia.
    + change (bitlen (sha256_transform _ _)) with (bitlen ctx). rewrite Hbits, length_app, HTx. unfold u64. rewrite Zplus_mod_idemp_l. f_equal. lia.
    + by rewrite app_nil_r.
  - exists A, (T ++ [x]). split; [by rewrite app_assoc|]. split; cbn; try done.
    + by rewrite length_put.
    + rewrite length_app. cbn. lia.
Qed.

Lemma update_absorbed A T ctx bytes : absorbed A T ctx -> Forall byte bytes ->
  exists A' T', A' ++ T' = (A ++ T) ++ bytes /\ absorbed A' T' (sha256_update ctx bytes).
Proof.
  revert A T ctx. induction bytes as [|x bytes IH]; intros A T ctx Ha Hb.
  - exists A, T. by rewrite app_nil_r.
  - apply Forall_cons in Hb as [Hx Hb]. destruct (update_byte_absorbed A T ctx x Ha Hx) as (A1&T1&E1&Ha1).
    destruct (IH A1 T1 _ Ha1 Hb) as (A2&T2&E2&Ha2). exists A2, T2. split; [|done]. by rewrite E2, E1, <- app_assoc.
Qed.

Lemma updates_absorbed A T ctx chunks : absorbed A T ctx -> Forall (Forall byte) chunks ->
  exists A' T', A' ++ T' = (A ++ T) ++ concat chunks /\ absorbed A' T' (fold_left sha256_update chunks ctx).
Proof.
  revert A T ctx. induction chunks as [|x chunks IH]; intros A T ctx Ha Hb.
  - exists A, T. by rewrite app_nil_r.
  - apply Forall_cons in Hb as [Hx Hb]. destruct (update_absorbed A T ctx x Ha Hx) as (A1&T1&E1&Ha1).
    destruct (IH A1 T1 _ Ha1 Hb) as (A2&T2&E2&Ha2). exists A2, T2. split; [|done]. by rewrite E2, E1, <- app_assoc.
Qed.

(** * The padding *)

Lemma zero_fill_eq n i l : (i + n <= length l)%nat ->
  zero_fill n (Z.of_nat i) l = take i l ++ replicate n 0 ++ drop (i + n) l.
Proof.
  revert i l. induction n as [|n IH]; intros i l Hl; cbn [zero_fill].
  - cbn [replicate app]. by rewrite Nat.add_0_r, take_drop.
  - replace (Z.of_nat i + 1) with (Z.of_nat (S i)) by lia. unfold put at 1. rewrite Nat2Z.id. rewrite IH by (rewrite length_insert; lia).
    rewrite (take_S_r _ _ 0) by (apply list_lookup_insert_eq; lia). rewrite take_insert_ge by lia. rewrite <- app_assoc. cbn.
    do 3 f_equal. rewrite drop_insert_lt by lia. f_equal. lia.
Qed.

Lemma put_app_r P Q n j v : n = Z.of_nat (length P) -> 0 <= j -> put (P ++ Q) (n + j) v = P ++ put Q j v.
Proof. intros -> Hj. unfold put. rewrite insert_app_r_alt by lia. do 2 f_equal. lia. Qed.

Lemma put_length_eq bits l : length l = 64%nat -> put_length 8 bits l = take 56 l ++ to_be 8 bits.
Proof.
  intros Hl. rewrite <- (take_drop 56 l) at 1. assert (56 = Z.of_nat (length (take 56 l))) as HP by (rewrite length_take; lia).
  assert (exists x0 x1 x2 x3 x4 x5 x6 x7, drop 56 l = [x0; x1; x2; x3; x4; x5; x6; x7]) as (x0&x1&x2&x3&x4&x5&x6&x7&->).
  { assert (length (drop 56 l) = 8%nat) as HD by (rewrite length_drop; lia).
    destruct (drop 56 l) as [|x0 [|x1 [|x2 [|x3 [|x4 [|x5 [|x6 [|x7 [|]]]]]]]]]; try discriminate HD. eauto 10. }
  cbn [put_length]. rewrite !(put_app_r (take 56 l) _ 56) by (done || lia). f_equal. unfold put.
  rewrite !Nat2Z.id. cbn [insert list_insert to_be app]. rewrite !Z.shiftr_div_pow2 by lia. unfold u8.
  rewrite !Z.div_div by lia. rewrite (Z.div_1_r bits : bits / 2 ^ (8 * (7 - Z.of_nat 7)) = bits). reflexivity.
Qed.

Lemma to_be_bytes n z : Forall byte (to_be n z).
Proof. revert z. induction n as [|n IH]; intros z; cbn; [constructor|]. apply Forall_app_2; [apply IH|]. constructor; [|constructor]. apply Z.mod_pos_bound. lia. Qed.
Lemma length_to_be n z : length (to_be n z) = n.
Proof. revert z. induction n as [|n IH]; intros z; cbn; [done|]. rewrite length_app, IH. cbn. lia. Qed.

Lemma byte_zeros n : Forall byte (replicate n 0).
Proof. apply Forall_replicate. by unfold byte. Qed.

(** The words of the state as bytes. *)
Lemma hash_bytes_eq st : Forall word st -> hash_bytes st = concat (to_be 4 <$> st).
Proof.
  intros Hst. unfold hash_bytes. f_equal. apply list_fmap_ext. intros i w Hi. assert (word w) as Hw by (by eapply Forall_lookup_1).
  unfold word_bytes. cbn [fmap list_fmap to_be app]. change 0xff with (Z.ones 8). rewrite !Z.land_ones, !Z.shiftr_div_pow2 by lia.
  rewrite !Z.div_div by lia. rewrite (Z.div_1_r w : w / 2 ^ (24 - 3 * 8) = w). reflexivity.
Qed.

(** [data] up to the length, after the 0x80 and [n] zeros. *)
Lemma pad_data l T n : take (length T) l = T -> length l = 64%nat -> (length T + 1 + n <= 64)%nat ->
  zero_fill n (Z.of_nat (length T) + 1) (put l (Z.of_nat (length T)) 0x80) = (T ++ [0x80] ++ replicate n 0) ++ drop (length T + 1 + n) l.
Proof.
  intros HT Hl Hn. replace (Z.of_nat (length T) + 1) with (Z.of_nat (length (T ++ [0x80]))) by (rewrite length_app; cbn; lia).
  rewrite zero_fill_eq by (rewrite length_put, length_app; cbn; lia). rewrite put_tail by (done || lia). rewrite length_app, <- !app_assoc. cbn [length].
  do 3 f_equal. unfold put. rewrite drop_insert_lt by lia. done.
Qed.

Lemma sha256_final_correct A T ctx : absorbed A T ctx -> 8 * Z.of_nat (length (A ++ T)) < 0x10000000000000000 ->
  Fips.sha256 (A ++ T) (sha256_final ctx).1.
Proof.
  intros [Hd [k HA] Ht [Hl Hl64] Hbits Hs Hh Hb] Hlen. unfold sha256_final. cbn zeta. cbn [fst].
  rewrite length_app in Hlen. apply Forall_app in Hb as [_ HbT].
  assert (u64 (bitlen ctx + datalen ctx * 8) = 8 * Z.of_nat (length (A ++ T))) as Hbl.
  { rewrite Hbits, Hl, length_app. unfold u64. rewrite Zplus_mod_idemp_l. rewrite Z.mod_small; lia. }
  rewrite Hbl. set (bits := 8 * Z.of_nat (length (A ++ T))) in *. unfold pad_block. cbn [datalen data bitlen state]. rewrite Hl.
  unfold Fips.sha256, pad. cbn zeta. fold bits.
  assert ((55 - Z.of_nat (length (A ++ T))) mod 64 = (55 - Z.of_nat (length T)) mod 64) as ->.
  { rewrite length_app, HA. rewrite <- (Z_mod_plus_full (55 - Z.of_nat (length T)) (- Z.of_nat k) 64). f_equal. lia. }
  assert (byte 0x80) as H80 by (by unfold byte). destruct (Z.ltb_spec (Z.of_nat (length T)) 56) as [H56|H56]; cbn [data state bitlen].
  - replace (Z.to_nat (56 - (Z.of_nat (length T) + 1))) with (55 - length T)%nat by lia. rewrite pad_data by (done || lia).
    rewrite Z.mod_small by lia. replace (Z.to_nat (55 - Z.of_nat (length T))) with (55 - length T)%nat by lia.
    set (R := T ++ [0x80] ++ replicate (55 - length T) 0). assert (length R = 56%nat) as HR by (unfold R; rewrite !length_app, length_replicate; cbn; lia).
    rewrite put_length_eq, take_app_le, take_ge by (rewrite ?length_app, ?length_drop; lia).
    destruct (absorb_block A (mkCtx (R ++ to_be 8 bits) (Z.of_nat (length T)) bits (state ctx)) (R ++ to_be 8 bits)) as [Hs' Hh'];
      [by exists k|done|done|by rewrite length_app, length_to_be, HR|unfold R; rewrite !Forall_app; split_and!; [done|by constructor|apply byte_zeros|apply to_be_bytes]|].
    exists (state (sha256_transform (mkCtx (R ++ to_be 8 bits) (Z.of_nat (length T)) bits (state ctx)) (R ++ to_be 8 bits))).
    split; [|by apply hash_bytes_eq, Hs']. unfold R in Hh' |- *. rewrite <- !app_assoc in *. exact Hh'.
  - replace (Z.to_nat (64 - (Z.of_nat (length T) + 1))) with (63 - length T)%nat by lia. rewrite pad_data by (done || lia).
    rewrite drop_ge, app_nil_r by lia. set (R := T ++ [0x80] ++ replicate (63 - length T) 0).
    assert (length R = 64%nat) as HR by (unfold R; rewrite !length_app, length_replicate; cbn; lia).
    destruct (absorb_block A (mkCtx R (Z.of_nat (length T)) bits (state ctx)) R) as [Hs' Hh'];
      [by exists k|done|done|done|unfold R; rewrite !Forall_app; split_and!; [done|by constructor|apply byte_zeros]|].
    set (ctx1 := sha256_transform (mkCtx R (Z.of_nat (length T)) bits (state ctx)) R) in *. change (data ctx1) with R. change (bitlen ctx1) with bits.
    rewrite (zero_fill_eq 56 0 R ltac:(lia) : zero_fill 56 0 R = _). rewrite take_0, app_nil_l.
    rewrite put_length_eq, take_app_le, take_ge by (rewrite ?length_app, ?length_drop, ?length_replicate; lia).
    set (R2 := replicate 56 0 ++ to_be 8 bits).
    destruct (absorb_block (A ++ R) (mkCtx R2 (datalen ctx1) bits (state ctx1)) R2) as [Hs2 Hh2];
      [exists (S k); rewrite length_app; lia|done|done|done|unfold R2; apply Forall_app_2; [apply byte_zeros|apply to_be_bytes]|].
    exists (state (sha256_transform (mkCtx R2 (datalen ctx1) bits (state ctx1)) R2)). split; [|by apply hash_bytes_eq, Hs2].
    replace ((55 - Z.of_nat (length T)) mod 64) with (119 - Z.of_nat (length T)) by zlia.
    replace (Z.to_nat (119 - Z.of_nat (length T))) with ((63 - length T) + 56)%nat by lia. rewrite replicate_add.
    unfold R, R2 in Hh2 |- *. rewrite <- !app_assoc in *. exact Hh2.
Qed.

(** * Properties *)

(** C34. The code computes SHA-256 as FIPS 180-4 defines it: however a message is
    cut into the pieces given to [sha256_update], and whatever the context held
    before, the result is the one digest the standard defines for the message, and
    the table of constants is the standard's. *)
Theorem sha256_correct ctx chunks digest :
  length (data ctx) = 64%nat -> Forall (Forall byte) chunks -> 8 * Z.of_nat (length (concat chunks)) < 0x10000000000000000 ->
  (Fips.sha256 (concat chunks) digest <-> digest = (sha256_final (fold_left sha256_update chunks (sha256_init ctx))).1) /\
  Forall2 Fips.constant Fips.primes K.
Proof.
  intros Hd Hb Hl. split; [|apply K_constants]. destruct (updates_absorbed [] [] _ chunks (init_absorbed ctx Hd) Hb) as (A&T&E&Ha). cbn in E.
  rewrite <- E in Hl |- *. pose proof (sha256_final_correct A T _ Ha Hl) as Hok. split; [|by intros ->].
  intros (H1&Hs1&->). destruct Hok as (H2&Hs2&E2). rewrite E2. by rewrite (hashes_unique _ _ _ _ Hs1 Hs2).
Qed.

(** "abc", the first example of the standard, in two pieces. *)
Lemma sha256_correct_witness : Fips.sha256 [0x61; 0x62; 0x63]
  [0xba; 0x78; 0x16; 0xbf; 0x8f; 0x01; 0xcf; 0xea; 0x41; 0x41; 0x40; 0xde; 0x5d; 0xae; 0x22; 0x23;
   0xb0; 0x03; 0x61; 0xa3; 0x96; 0x17; 0x7a; 0x9c; 0xb4; 0x10; 0xff; 0x61; 0xf2; 0x00; 0x15; 0xad].
Proof.
  apply (proj2 (proj1 (sha256_correct (mkCtx (replicate 64 0xAA) 7 7 []) [[0x61]; [0x62; 0x63]] _
    ltac:(reflexivity) ltac:(repeat constructor; vm_compute; discriminate) ltac:(vm_compute; reflexivity)))).
  vm_compute. reflexivity.
Defined.
