(* ===== verification/Chacha20.v ===== *)
(** The ChaCha20 stream cipher, [lib/crypto/chacha20.c]. *)
From stdpp Require Import base tactics numbers list.
From Stdlib Require Import ZArith Lia.
From S2P Require Import Prelude.

Open Scope Z_scope.

(** * The code *)

Definition ROTL32 (x n : Z) : Z := Z.lor (u32 (Z.shiftl x n)) (Z.shiftr x (32 - n)).

(** The macro, on four words. *)
Definition quarter (a b c d : Z) : Z * Z * Z * Z :=
  let a := u32 (a + b) in let d := ROTL32 (Z.lxor d a) 16 in
  let c := u32 (c + d) in let b := ROTL32 (Z.lxor b c) 12 in
  let a := u32 (a + b) in let d := ROTL32 (Z.lxor d a) 8 in
  let c := u32 (c + d) in let b := ROTL32 (Z.lxor b c) 7 in
  (a, b, c, d).
(** The macro, on four places of an array. *)
Definition QUARTERROUND (x : list Z) (i j k l : Z) : list Z :=
  let '(a, b, c, d) := quarter (get x i) (get x j) (get x k) (get x l) in
  put (put (put (put x i a) j b) k c) l d.

Definition load32_le (src : list Z) (i : Z) : Z :=
  Z.lor (Z.lor (Z.lor (get src i) (Z.shiftl (get src (i + 1)) 8)) (Z.shiftl (get src (i + 2)) 16)) (u32 (Z.shiftl (get src (i + 3)) 24)).
Definition store32_le (val : Z) : list Z :=
  [Z.land val 0xFF; Z.land (Z.shiftr val 8) 0xFF; Z.land (Z.shiftr val 16) 0xFF; Z.land (Z.shiftr val 24) 0xFF].

(** The state of [chacha20_ctx_t]: sixteen words. *)
Definition chacha20_init (key nonce : list Z) (counter : Z) : list Z :=
  [0x61707865; 0x3320646e; 0x79622d32; 0x6b206574;
   load32_le key 0; load32_le key 4; load32_le key 8; load32_le key 12;
   load32_le key 16; load32_le key 20; load32_le key 24; load32_le key 28;
   counter; load32_le nonce 0; load32_le nonce 4; load32_le nonce 8].

Definition double_round (x : list Z) : list Z :=
  let x := QUARTERROUND x 0 4 8 12 in
  let x := QUARTERROUND x 1 5 9 13 in
  let x := QUARTERROUND x 2 6 10 14 in
  let x := QUARTERROUND x 3 7 11 15 in
  let x := QUARTERROUND x 0 5 10 15 in
  let x := QUARTERROUND x 1 6 11 12 in
  let x := QUARTERROUND x 2 7 8 13 in
  QUARTERROUND x 3 4 9 14.

Definition chacha20_block (state : list Z) : list Z :=
  let x := Nat.iter 10 double_round state in
  concat (store32_le <$> zip_with (fun a b => u32 (a + b)) x state).

(** The loop over the blocks of [in]: the output and the state. [n] bounds the
    blocks; [in] is the part that is left, [None] for a stream of zeros. *)
Fixpoint xor_loop (n : nat) (state : list Z) (input : list Z) : list Z * list Z :=
  match n with
  | O => ([], state)
  | S n' =>
      if bool_decide (input = []) then ([], state)
      else
        let key_stream := chacha20_block state in
        let state := put state 12 (u32 (get state 12 + 1)) in
        let bytes := zip_with Z.lxor (take 64 input) key_stream in
        let '(rest, state) := xor_loop n' state (drop 64 input) in
        (bytes ++ rest, state)
  end.

Definition chacha20_xor_stream (state : list Z) (input : option (list Z)) (len : nat) : list Z * list Z :=
  let bytes := match input with Some l => take len l | None => replicate len 0 end in
  xor_loop (S (length bytes)) state bytes.

Definition chacha20_encrypt (key nonce : list Z) (counter : Z) (input : option (list Z)) (len : nat) : list Z :=
  (chacha20_xor_stream (chacha20_init key nonce counter) input len).1.

(** * The key stream *)

(** Byte [i] of the stream from block [counter] on: byte [i mod 64] of block
    [counter + i / 64], whose number has 32 bits. *)
Definition key_byte (key nonce : list Z) (counter : Z) (i : nat) : Z :=
  nth (i mod 64) (chacha20_block (chacha20_init key nonce (u32 (counter + Z.of_nat (i / 64))))) 0.
Definition key_stream (key nonce : list Z) (counter : Z) (len : nat) : list Z :=
  key_byte key nonce counter <$> seq 0 len.

Lemma length_quarterround x i j k l : length (QUARTERROUND x i j k l) = length x.
Proof. unfold QUARTERROUND. destruct (quarter _ _ _ _) as [[[a b] c] d]. by rewrite !length_put. Qed.
Lemma length_double_round x : length (double_round x) = length x.
Proof. unfold double_round. by rewrite !length_quarterround. Qed.
Lemma length_double_rounds n x : length (Nat.iter n double_round x) = length x.
Proof. induction n as [|n IH]; [done|]. rewrite Nat.iter_succ, length_double_round. done. Qed.

Lemma length_words l : length (concat (store32_le <$> l)) = (4 * length l)%nat.
Proof. induction l as [|x l IH]; [done|]. cbn [fmap list_fmap concat]. rewrite length_app, IH. cbn. lia. Qed.
Lemma length_block st : length st = 16%nat -> length (chacha20_block st) = 64%nat.
Proof. intros Hs. unfold chacha20_block. rewrite length_words, length_zip_with, length_double_rounds, Hs. done. Qed.

Lemma init_next key nonce c : put (chacha20_init key nonce c) 12 (u32 (get (chacha20_init key nonce c) 12 + 1)) = chacha20_init key nonce (u32 (c + 1)).
Proof. reflexivity. Qed.

Lemma key_byte_block key nonce c i : (i < 64)%nat -> key_byte key nonce c i = nth i (chacha20_block (chacha20_init key nonce (u32 c))) 0.
Proof. intros Hi. unfold key_byte. by rewrite Nat.mod_small, Nat.div_small, Z.add_0_r by done. Qed.
Lemma key_byte_from key nonce c k i : key_byte key nonce c (64 * k + i) = key_byte key nonce (u32 (c + Z.of_nat k)) i.
Proof.
  unfold key_byte. replace (64 * k + i)%nat with (i + k * 64)%nat by lia. rewrite Nat.Div0.mod_add, Nat.div_add by lia.
  assert (u32 (c + Z.of_nat (i / 64 + k)) = u32 (u32 (c + Z.of_nat k) + Z.of_nat (i / 64))) as ->; [|reflexivity].
  unfold u32. rewrite Zplus_mod_idemp_l. f_equal. lia.
Qed.

Lemma drop_key_stream key nonce c k n : drop (64 * k) (key_stream key nonce c n) = key_stream key nonce (u32 (c + Z.of_nat k)) (n - 64 * k).
Proof.
  unfold key_stream. rewrite <- fmap_drop, drop_seq, Nat.add_comm, <- fmap_add_seq, <- list_fmap_compose.
  apply list_fmap_ext. intros i j _. apply key_byte_from.
Qed.

Lemma key_stream_short key nonce c n : (n <= 64)%nat -> key_stream key nonce c n = take n (chacha20_block (chacha20_init key nonce (u32 c))).
Proof.
  intros Hn. assert (length (chacha20_block (chacha20_init key nonce (u32 c))) = 64%nat) as Hl by (by apply length_block).
  apply list_eq_same_length with (n := n); [rewrite length_take; lia|by unfold key_stream; rewrite length_fmap, length_seq|].
  intros i x y Hi. unfold key_stream. rewrite list_lookup_fmap, lookup_seq_lt by done. cbn [fmap option_fmap option_map Nat.add].
  rewrite key_byte_block by lia. rewrite lookup_take_lt, lookup_nth by lia. generalize (nth i (chacha20_block (chacha20_init key nonce (u32 c))) 0). by intros z [= <-] [= <-].
Qed.

Lemma key_stream_split key nonce c n : key_stream key nonce c (64 + n) = chacha20_block (chacha20_init key nonce (u32 c)) ++ key_stream key nonce (u32 (c + 1)) n.
Proof.
  assert (length (chacha20_block (chacha20_init key nonce (u32 c))) = 64%nat) as Hl by (by apply length_block).
  rewrite <- (take_drop (64 * 1) (key_stream key nonce c (64 + n))), drop_key_stream.
  replace (64 + n - 64 * 1)%nat with n by lia. change (Z.of_nat 1) with 1.
  assert (take (64 * 1) (key_stream key nonce c (64 + n)) = key_stream key nonce c 64) as ->
    by (unfold key_stream; rewrite <- fmap_take, take_seq; do 2 f_equal; lia).
  by rewrite key_stream_short, take_ge by lia.
Qed.

Lemma xor_loop_stream key nonce n c input : (length input < n)%nat ->
  exists st, xor_loop n (chacha20_init key nonce (u32 c)) input = (zip_with Z.lxor input (key_stream key nonce c (length input)), st).
Proof.
  revert c input. induction n as [|n IH]; intros c input Hn; [lia|]. cbn [xor_loop]. case_bool_decide as Hin.
  { subst input. by eexists. }
  cbn zeta. rewrite init_next. assert (u32 (u32 c + 1) = u32 (u32 (c + 1))) as ->
    by (unfold u32; rewrite Zplus_mod_idemp_l, Z.mod_mod by done; done).
  destruct (IH (u32 (c + 1)) (drop 64 input)) as [st ->]; [rewrite length_drop; destruct input; [done|cbn in *; lia]|].
  eexists. f_equal. destruct (decide (64 <= length input)%nat) as [H64|H64].
  - pose proof (key_stream_split key nonce c (length input - 64)) as E. replace (64 + (length input - 64))%nat with (length input) in E by lia.
    rewrite E, zip_with_app_r, length_block, length_drop by done. done.
  - rewrite (key_stream_short key nonce c (length input)) by lia. rewrite zip_with_take_r, drop_ge, take_ge by lia. apply app_nil_r.
Qed.

Lemma lxor_twice l k : (length l <= length k)%nat -> zip_with Z.lxor (zip_with Z.lxor l k) k = l.
Proof.
  revert k. induction l as [|x l IH]; intros [|y k] Hl; cbn in *; try done; [lia|].
  rewrite IH by lia. by rewrite Z.lxor_assoc, Z.lxor_nilpotent, Z.lxor_0_r.
Qed.
Lemma lxor_zeros k : zip_with Z.lxor (replicate (length k) 0) k = k.
Proof. induction k as [|y k IH]; [done|]. cbn. by rewrite IH. Qed.

(** * Properties *)

(** ChaCha20 output is the input XORed with the key stream of RFC 8439, block
    numbers counted up modulo 2^32; without an input it is the key stream
    itself; the same call on the output gives the input back; and the stream can
    be entered at any block, by starting with its number. *)
Theorem chacha20_correct key nonce counter input :
  0 <= counter < 0x100000000 ->
  let len := length input in
  let out := chacha20_encrypt key nonce counter (Some input) len in
  out = zip_with Z.lxor input (key_stream key nonce counter len) /\
  length out = len /\
  chacha20_encrypt key nonce counter None len = key_stream key nonce counter len /\
  chacha20_encrypt key nonce counter (Some out) len = input /\
  (forall k, (64 * k <= len)%nat ->
     drop (64 * k) out = chacha20_encrypt key nonce (u32 (counter + Z.of_nat k)) (Some (drop (64 * k) input)) (len - 64 * k)).
Proof.
  intros Hc len out.
  assert (forall c l n, c = u32 c -> n = length l ->
    chacha20_encrypt key nonce c (Some l) n = zip_with Z.lxor l (key_stream key nonce c n)) as Henc.
  { intros c l n Hu ->. unfold chacha20_encrypt, chacha20_xor_stream. rewrite take_ge by lia. rewrite Hu at 1.
    by destruct (xor_loop_stream key nonce (S (length l)) c l) as [st ->]; [lia|]. }
  assert (length (key_stream key nonce counter len) = len) as Hks by (unfold key_stream; by rewrite length_fmap, length_seq).
  assert (counter = u32 counter) as Hu by (by rewrite u32_small).
  assert (out = zip_with Z.lxor input (key_stream key nonce counter len)) as Hout by (by apply Henc).
  assert (length out = len) as Hlen by (rewrite Hout, length_zip_with; lia). split_and!; [done|done| | |].
  - assert (chacha20_encrypt key nonce counter None len = chacha20_encrypt key nonce counter (Some (replicate len 0)) len) as ->
      by (unfold chacha20_encrypt, chacha20_xor_stream; by rewrite take_ge by (rewrite length_replicate; lia)).
    rewrite Henc by (done || by rewrite length_replicate). rewrite <- Hks at 1. apply lxor_zeros.
  - rewrite Henc by done. rewrite Hout. apply lxor_twice. lia.
  - intros k Hk. rewrite Henc; [|unfold u32; by rewrite Z.mod_mod|by rewrite length_drop].
    rewrite Hout, zip_with_drop, drop_key_stream. done.
Qed.

(** The message of RFC 8439, 2.4.2, its first 16 bytes. *)
Notation rfc_key := (Z.of_nat <$> seq 0 32).
Notation rfc_nonce := [0; 0; 0; 0; 0; 0; 0; 0x4a; 0; 0; 0; 0].
Notation rfc_text := [0x4c; 0x61; 0x64; 0x69; 0x65; 0x73; 0x20; 0x61; 0x6e; 0x64; 0x20; 0x47; 0x65; 0x6e; 0x74; 0x6c].
Notation rfc_cipher := [0x6e; 0x2e; 0x35; 0x9a; 0x25; 0x68; 0xf9; 0x80; 0x41; 0xba; 0x07; 0x28; 0xdd; 0x0d; 0x69; 0x81].

Lemma chacha20_correct_witness :
  chacha20_encrypt rfc_key rfc_nonce 1 (Some rfc_text) 16 = rfc_cipher /\
  chacha20_encrypt rfc_key rfc_nonce 1 (Some (chacha20_encrypt rfc_key rfc_nonce 1 (Some rfc_text) 16)) 16 = rfc_text.
Proof.
  split; [vm_compute; reflexivity|].
  exact (proj1 (proj2 (proj2 (proj2 (chacha20_correct rfc_key rfc_nonce 1 rfc_text ltac:(lia)))))).
Defined.
