(* ===== verification/StringLib.v ===== *)
(** The memory and string functions, [lib/string.c], on a memory of bytes. The
    string instructions are modelled as the CPU runs them: one element after the
    other, each read before it is written. *)
From stdpp Require Import base tactics numbers list sets.
From Stdlib Require Import ZArith Lia.
From S2P Require Import Prelude.

Open Scope Z_scope.

Notation memory := (Z -> Z).

Definition store (m : memory) (a v : Z) : memory := fun x => if x =? a then v else m x.

(** * The string instructions *)

(** [rep stosq] and [rep stosb]: the memory and the address it ends at. *)
Fixpoint rep_stosq (n : nat) (d pattern : Z) (m : memory) : memory :=
  match n with
  | O => m
  | S n' => rep_stosq n' (d + 8) pattern
              (fun x => if (d <=? x) && (x <? d + 8) then u8 (Z.shiftr pattern (8 * (x - d))) else m x)
  end.
Fixpoint rep_stosb (n : nat) (d pattern : Z) (m : memory) : memory :=
  match n with O => m | S n' => rep_stosb n' (d + 1) pattern (store m d (u8 pattern)) end.

Fixpoint rep_movsq (n : nat) (d s : Z) (m : memory) : memory :=
  match n with
  | O => m
  | S n' => rep_movsq n' (d + 8) (s + 8) (fun x => if (d <=? x) && (x <? d + 8) then m (s + (x - d)) else m x)
  end.
Fixpoint rep_movsb (n : nat) (d s : Z) (m : memory) : memory :=
  match n with O => m | S n' => rep_movsb n' (d + 1) (s + 1) (store m d (m s)) end.
(** The same with the direction flag set. *)
Fixpoint rep_movsb_down (n : nat) (d s : Z) (m : memory) : memory :=
  match n with O => m | S n' => rep_movsb_down n' (d - 1) (s - 1) (store m d (m s)) end.

(** * The functions *)

(** Those that write return the destination; [_effect] is what they do to memory. *)

Definition memset_effect (dest val count : Z) (m : memory) : memory :=
  let pattern := u64 (0x0101010101010101 * u8 val) in
  let qwords := count / 8 in
  let bytes := count mod 8 in
  let m := rep_stosq (Z.to_nat qwords) dest pattern m in
  rep_stosb (Z.to_nat bytes) (dest + 8 * qwords) pattern m.
Definition memset (dest val count : Z) (m : memory) : Z * memory := (dest, memset_effect dest val count m).

Definition memcpy_effect (dest src count : Z) (m : memory) : memory :=
  let qwords := count / 8 in
  let bytes := count mod 8 in
  let m := rep_movsq (Z.to_nat qwords) dest src m in
  rep_movsb (Z.to_nat bytes) (dest + 8 * qwords) (src + 8 * qwords) m.
Definition memcpy (dest src count : Z) (m : memory) : Z * memory := (dest, memcpy_effect dest src count m).

Definition memmove (dest src count : Z) (m : memory) : Z * memory :=
  if (dest <=? src) || (src + count <=? dest) then memcpy dest src count m
  else (dest, rep_movsb_down (Z.to_nat count) (dest + count - 1) (src + count - 1) m).

Fixpoint memcmp_loop (n : nat) (s1 s2 : Z) (m : memory) : Z :=
  match n with
  | O => 0
  | S n' => if negb (m s1 =? m s2) then m s1 - m s2 else memcmp_loop n' (s1 + 1) (s2 + 1) m
  end.
Definition memcmp (s1 s2 count : Z) (m : memory) : Z := memcmp_loop (Z.to_nat count) s1 s2 m.

(** The loops that run to the end of a string take a bound on their rounds, and
    are [None] beyond it. A null [str] is address 0. *)
Fixpoint strlen_loop (n : nat) (str len : Z) (m : memory) : option Z :=
  match n with
  | O => None
  | S n' => if negb (str =? 0) && negb (m (str + len) =? 0) then strlen_loop n' str (len + 1) m else Some len
  end.
Definition strlen (n : nat) (str : Z) (m : memory) : option Z := strlen_loop n str 0 m.

Fixpoint strcmp (n : nat) (s1 s2 : Z) (m : memory) : option Z :=
  match n with
  | O => None
  | S n' => if negb (m s1 =? 0) && (m s1 =? m s2) then strcmp n' (s1 + 1) (s2 + 1) m else Some (m s1 - m s2)
  end.

Fixpoint strncmp (n : nat) (s1 s2 : Z) (m : memory) : Z :=
  match n with
  | O => 0
  | S n' => if negb (m s1 =? m s2) || (m s1 =? 0) then m s1 - m s2 else strncmp n' (s1 + 1) (s2 + 1) m
  end.

(** [n]: the bytes left; [copying]: the terminator has not been met. *)
Fixpoint strncpy_loop (n : nat) (copying : bool) (dest src : Z) (m : memory) : memory :=
  match n with
  | O => m
  | S n' =>
      if copying && negb (m src =? 0) then strncpy_loop n' true (dest + 1) (src + 1) (store m dest (m src))
      else strncpy_loop n' false (dest + 1) (src + 1) (store m dest 0)
  end.
Definition strncpy (dest src n : Z) (m : memory) : Z * memory := (dest, strncpy_loop (Z.to_nat n) true dest src m).

(** [Some None]: the null pointer. *)
Fixpoint strchr (n : nat) (s c : Z) (m : memory) : option (option Z) :=
  match n with
  | O => None
  | S n' => if m s =? u8 c then Some (Some s) else if m s =? 0 then Some None else strchr n' (s + 1) c m
  end.

(** The inner loop of [strstr]: does [needle] start at [h]? *)
Fixpoint starts_with (n : nat) (h needle : Z) (m : memory) : option bool :=
  match n with
  | O => None
  | S n' => if negb (m needle =? 0) && (m h =? m needle) then starts_with n' (h + 1) (needle + 1) m else Some (m needle =? 0)
  end.
Fixpoint strstr_loop (n fuel : nat) (haystack needle : Z) (m : memory) : option (option Z) :=
  match n with
  | O => None
  | S n' =>
      if m haystack =? 0 then Some None
      else match starts_with fuel haystack needle m with
           | None => None
           | Some true => Some (Some haystack)
           | Some false => strstr_loop n' fuel (haystack + 1) needle m
           end
  end.
Definition strstr (n : nat) (haystack needle : Z) (m : memory) : option (option Z) :=
  if m needle =? 0 then Some (Some haystack) else strstr_loop n n haystack needle m.

(** * Copying *)

(** [n] bytes of the memory [m] have been copied from [s] to [d]. *)
Definition copied (d s n : Z) (m m' : memory) : Prop :=
  forall x, m' x = if (d <=? x) && (x <? d + n) then m (s + (x - d)) else m x.

(** One element after another, upwards: nothing that is still to be read is
    overwritten if the destination is lower or behind the source. *)
Lemma copied_up k n d s m m1 m2 : 0 <= k -> 0 <= n -> d <= s \/ s + (k + n) <= d ->
  copied d s k m m1 -> copied (d + k) (s + k) n m1 m2 -> copied d s (k + n) m m2.
Proof.
  intros Hk Hn Hds H1 H2 x. rewrite H2. 
  destruct (Z.leb_spec (d + k) x); cbn [andb].
  - destruct (Z.ltb_spec x (d + k + n)).
    + rewrite H1. replace (s + k + (x - (d + k))) with (s + (x - d)) by lia.
      rewrite (proj2 (Z.leb_le d x)), (proj2 (Z.ltb_lt x (d + (k + n)))) by lia. cbn.
      destruct (Z.leb_spec d (s + (x - d))); [|done]. rewrite (proj2 (Z.ltb_ge _ _)) by lia. done.
    + rewrite H1. rewrite !(proj2 (Z.ltb_ge x _)) by lia. by rewrite !andb_false_r.
  - rewrite H1. destruct (Z.leb_spec d x); [|done]. cbn. by rewrite !(proj2 (Z.ltb_lt x _)) by lia.
Qed.

Lemma copied_one d s m : copied d s 1 m (store m d (m s)).
Proof.
  intros x. unfold store. destruct (Z.eqb_spec x d) as [->|].
  - rewrite (proj2 (Z.leb_le d d)), (proj2 (Z.ltb_lt _ _)) by lia. cbn. f_equal. lia.
  - destruct (Z.leb_spec d x); [|done]. by rewrite (proj2 (Z.ltb_ge _ _)) by lia.
Qed.

Lemma copied_none d s m : copied d s 0 m m.
Proof. intros x. destruct (Z.leb_spec d x); [|done]. by rewrite (proj2 (Z.ltb_ge _ _)) by lia. Qed.

Lemma rep_movsq_copied n d s m : d <= s \/ s + 8 * Z.of_nat n <= d -> copied d s (8 * Z.of_nat n) m (rep_movsq n d s m).
Proof.
  revert d s m. induction n as [|n IH]; intros d s m Hds; cbn [rep_movsq]; [apply copied_none|].
  replace (8 * Z.of_nat (S n)) with (8 + 8 * Z.of_nat n) by lia. eapply copied_up; [lia|lia|lia| |apply IH; lia]. by intros x.
Qed.
Lemma rep_movsb_copied n d s m : d <= s \/ s + Z.of_nat n <= d -> copied d s (Z.of_nat n) m (rep_movsb n d s m).
Proof.
  revert d s m. induction n as [|n IH]; intros d s m Hds; cbn [rep_movsb]; [apply copied_none|].
  replace (Z.of_nat (S n)) with (1 + Z.of_nat n) by lia. eapply copied_up; [lia|lia|lia|apply copied_one|apply IH; lia].
Qed.

(** Downwards, with the destination above the source. *)
Lemma rep_movsb_down_copied n d s m : s <= d -> copied (d - Z.of_nat n + 1) (s - Z.of_nat n + 1) (Z.of_nat n) m (rep_movsb_down n d s m).
Proof.
  revert d s m. induction n as [|n IH]; intros d s m Hds x; cbn [rep_movsb_down].
  { apply copied_none. }
  rewrite (IH (d - 1) (s - 1)) by lia. unfold store.
  replace (d - 1 - Z.of_nat n + 1) with (d - Z.of_nat (S n) + 1) by lia. set (d0 := d - Z.of_nat (S n) + 1).
  destruct (Z.leb_spec d0 x); cbn [andb]; [|by rewrite (proj2 (Z.eqb_neq x d)) by lia].
  destruct (Z.ltb_spec x (d0 + Z.of_nat n)).
  - rewrite (proj2 (Z.ltb_lt _ _)) by lia. rewrite (proj2 (Z.eqb_neq _ d)) by lia. f_equal. lia.
  - destruct (Z.eqb_spec x d) as [->|]; [rewrite (proj2 (Z.ltb_lt _ _)) by lia; f_equal; lia|by rewrite (proj2 (Z.ltb_ge _ _)) by lia].
Qed.

Lemma memcpy_copied dest src count m : 0 <= count -> dest <= src \/ src + count <= dest -> copied dest src count m (memcpy_effect dest src count m).
Proof.
  intros Hc Hds. unfold memcpy_effect. cbn zeta. replace count with (8 * (count / 8) + count mod 8) at 1 by zlia.
  pose proof (rep_movsq_copied (Z.to_nat (count / 8)) dest src m) as H1. rewrite Z2Nat.id in H1 by zlia.
  set (m1 := rep_movsq _ _ _ _) in *. pose proof (rep_movsb_copied (Z.to_nat (count mod 8)) (dest + 8 * (count / 8)) (src + 8 * (count / 8)) m1) as H2.
  rewrite Z2Nat.id in H2 by zlia. eapply copied_up; [zlia|zlia|zlia|apply H1; zlia|apply H2; zlia].
Qed.

(** * Filling *)

Definition filled (d v n : Z) (m m' : memory) : Prop := forall x, m' x = if (d <=? x) && (x <? d + n) then v else m x.

Lemma filled_none d v m : filled d v 0 m m.
Proof. intros x. destruct (Z.leb_spec d x); [|done]. by rewrite (proj2 (Z.ltb_ge _ _)) by lia. Qed.

Lemma filled_up k n d v m m1 m2 : 0 <= k -> 0 <= n -> filled d v k m m1 -> filled (d + k) v n m1 m2 -> filled d v (k + n) m m2.
Proof.
  intros Hk Hn H1 H2 x. rewrite H2, H1.
  destruct (Z.leb_spec (d + k) x), (Z.leb_spec d x), (Z.ltb_spec x (d + k)), (Z.ltb_spec x (d + k + n)), (Z.ltb_spec x (d + (k + n))); cbn; (done || lia).
Qed.

(** Each byte of the pattern is the byte. *)
Lemma pattern_byte b i : 0 <= b < 256 -> 0 <= i < 8 -> u8 (Z.shiftr (u64 (0x0101010101010101 * b)) (8 * i)) = b.
Proof.
  intros Hb Hi. rewrite u64_small by lia. rewrite Z.shiftr_div_pow2 by lia. unfold u8.
  assert (i = 0 \/ i = 1 \/ i = 2 \/ i = 3 \/ i = 4 \/ i = 5 \/ i = 6 \/ i = 7) as Hc by lia.
  repeat destruct Hc as [->|Hc]; try subst i; cbn [Z.mul Z.pow Z.pow_pos Pos.iter Pos.mul]; zlia.
Qed.

Lemma rep_stosq_filled n d b m : 0 <= b < 256 -> filled d b (8 * Z.of_nat n) m (rep_stosq n d (u64 (0x0101010101010101 * b)) m).
Proof.
  intros Hb. revert d m. induction n as [|n IH]; intros d m; cbn [rep_stosq]; [apply filled_none|].
  replace (8 * Z.of_nat (S n)) with (8 + 8 * Z.of_nat n) by lia. eapply filled_up; [lia|lia| |apply IH].
  intros x. destruct (Z.leb_spec d x), (Z.ltb_spec x (d + 8)); cbn [andb]; try done. apply pattern_byte; lia.
Qed.
Lemma rep_stosb_filled n d b m : 0 <= b < 256 -> filled d b (Z.of_nat n) m (rep_stosb n d (u64 (0x0101010101010101 * b)) m).
Proof.
  intros Hb. revert d m. induction n as [|n IH]; intros d m; cbn [rep_stosb]; [apply filled_none|].
  replace (Z.of_nat (S n)) with (1 + Z.of_nat n) by lia. eapply filled_up; [lia|lia| |apply IH].
  intros x. rewrite <- (Z.shiftr_0_r (u64 _)). change 0 with (8 * 0) at 1. rewrite pattern_byte by lia. unfold store.
  destruct (Z.eqb_spec x d), (Z.leb_spec d x), (Z.ltb_spec x (d + 1)); cbn; (done || lia).
Qed.

Lemma memset_filled dest val count m : 0 <= count -> filled dest (u8 val) count m (memset_effect dest val count m).
Proof.
  intros Hc. unfold memset_effect. cbn zeta. pose proof (u8_range val). replace count with (8 * (count / 8) + count mod 8) at 1 by zlia.
  pose proof (rep_stosq_filled (Z.to_nat (count / 8)) dest (u8 val) m) as H1. rewrite Z2Nat.id in H1 by zlia.
  set (m1 := rep_stosq _ _ _ _) in *. pose proof (rep_stosb_filled (Z.to_nat (count mod 8)) (dest + 8 * (count / 8)) (u8 val) m1) as H2.
  rewrite Z2Nat.id in H2 by zlia. eapply filled_up; [zlia|zlia|by apply H1|by apply H2].
Qed.

(** * Comparing *)

(** The difference at the first place, of [n], where the bytes at [p1] and [p2] differ;
    0 if there is none. *)
Definition compared (n p1 p2 : Z) (m : memory) (r : Z) : Prop :=
  (r = 0 /\ forall i, 0 <= i < n -> m (p1 + i) = m (p2 + i)) \/
  (exists i, 0 <= i < n /\ (forall j, 0 <= j < i -> m (p1 + j) = m (p2 + j)) /\ m (p1 + i) <> m (p2 + i) /\ r = m (p1 + i) - m (p2 + i)).
Lemma memcmp_loop_compared n p1 p2 m : compared (Z.of_nat n) p1 p2 m (memcmp_loop n p1 p2 m).
Proof.
  revert p1 p2. induction n as [|n IH]; intros p1 p2; cbn [memcmp_loop]; [left; split; [done|lia]|].
  destruct (Z.eqb_spec (m p1) (m p2)) as [E|E]; cbn [negb].
  - assert (forall j, m (p1 + 1 + (j - 1)) = m (p2 + 1 + (j - 1)) -> m (p1 + j) = m (p2 + j)) as Hs.
    { intros j. replace (p1 + 1 + (j - 1)) with (p1 + j) by lia. by replace (p2 + 1 + (j - 1)) with (p2 + j) by lia. }
    destruct (IH (p1 + 1) (p2 + 1)) as [[-> H]|(i&Hi&H&Hne&->)].
    + left. split; [done|]. intros j Hj. destruct (decide (j = 0)) as [->|]; [by rewrite !Z.add_0_r|]. apply Hs, H. lia.
    + right. exists (i + 1). rewrite !(Z.add_comm i 1), !Z.add_assoc. split; [lia|]. split; [|done].
      intros j Hj. destruct (decide (j = 0)) as [->|]; [by rewrite !Z.add_0_r|]. apply Hs, H. lia.
  - right. exists 0. rewrite !Z.add_0_r. split; [lia|]. split; [lia|done].
Qed.

(** * Strings *)

(** The string [l] (no zero in it) is at [p], with its terminator. *)
Fixpoint cstr (m : memory) (p : Z) (l : list Z) : Prop :=
  match l with [] => m p = 0 | c :: l' => m p = c /\ c <> 0 /\ cstr m (p + 1) l' end.

(** The difference at the first place where two strings differ, their
    terminators included. *)
Fixpoint first_difference (l1 l2 : list Z) : Z :=
  match l1, l2 with
  | [], [] => 0
  | [], y :: _ => - y
  | x :: _, [] => x
  | x :: l1', y :: l2' => if x =? y then first_difference l1' l2' else x - y
  end.

Lemma first_difference_eq l1 l2 : Forall (fun c => c <> 0) l1 -> Forall (fun c => c <> 0) l2 -> first_difference l1 l2 = 0 <-> l1 = l2.
Proof.
  intros H1. revert l2. induction H1 as [|x l1 Hx H1 IH]; intros [|y l2] H2; cbn; try done.
  - apply Forall_cons in H2 as [Hy _]. split; [lia|done].
  - apply Forall_cons in H2 as [Hy H2]. destruct (Z.eqb_spec x y) as [->|].
    + rewrite IH by done. split; [by intros ->|congruence].
    + split; [lia|congruence].
Qed.

Lemma cstr_nonzero m p l : cstr m p l -> Forall (fun c => c <> 0) l.
Proof. revert p. induction l as [|c l IH]; intros p; [constructor|]. intros (_&Hc&Hl). constructor; [done|by eapply IH]. Qed.

Lemma strlen_loop_correct m p l k n : p <> 0 -> cstr m (p + k) l -> (length l < n)%nat -> strlen_loop n p k m = Some (k + Z.of_nat (length l)).
Proof.
  intros Hp. revert k n. induction l as [|c l IH]; intros k [|n] Hc Hn; cbn [length] in Hn; try lia; cbn [strlen_loop].
  - cbn in Hc. rewrite Hc, andb_false_r. f_equal. cbn. lia.
  - destruct Hc as (->&Hc0&Hc). rewrite !(proj2 (Z.eqb_neq _ 0)) by done. cbn [negb andb]. rewrite IH; [f_equal; cbn [length]; lia| |lia].
    by rewrite Z.add_assoc.
Qed.

Lemma strcmp_correct m p1 p2 l1 l2 n : cstr m p1 l1 -> cstr m p2 l2 -> (length l1 < n)%nat -> strcmp n p1 p2 m = Some (first_difference l1 l2).
Proof.
  revert p1 p2 l2 n. induction l1 as [|c l1 IH]; intros p1 p2 l2 [|n] H1 H2 Hn; cbn [length] in Hn; try lia; cbn [strcmp].
  - cbn in H1. rewrite H1. cbn. destruct l2 as [|y l2]; [by rewrite H2|by destruct H2 as [-> _]].
  - destruct H1 as (->&Hc0&H1). rewrite (proj2 (Z.eqb_neq _ 0)) by done. cbn [negb andb]. destruct l2 as [|y l2].
    + cbn in H2. rewrite H2. rewrite (proj2 (Z.eqb_neq _ 0)) by done. f_equal. cbn. lia.
    + destruct H2 as (->&Hy&H2). cbn [first_difference]. destruct (c =? y); [|done]. apply IH; (done || lia).
Qed.

Lemma strncmp_correct m p1 p2 l1 l2 n : cstr m p1 l1 -> cstr m p2 l2 -> strncmp n p1 p2 m = first_difference (take n l1) (take n l2).
Proof.
  revert p1 p2 l1 l2. induction n as [|n IH]; intros p1 p2 l1 l2 H1 H2; cbn [strncmp]; [done|].
  destruct l1 as [|x l1], l2 as [|y l2]; cbn in H1, H2.
  - rewrite H1, H2. done.
  - destruct H2 as (H2&Hy&_). rewrite H1, H2, orb_true_r. done.
  - destruct H1 as (H1&Hx&_). rewrite H1, H2, (proj2 (Z.eqb_neq x 0)) by done. cbn. lia.
  - destruct H1 as (->&Hx&H1), H2 as (->&Hy&H2). rewrite (proj2 (Z.eqb_neq x 0)), orb_false_r by done. cbn [take first_difference].
    destruct (x =? y); cbn [negb]; [|done]. by apply IH.
Qed.

Lemma strchr_correct m p l c n : cstr m p l -> (length l < n)%nat ->
  match strchr n p c m with
  | None => False
  | Some None => ~ u8 c ∈ l ++ [0]
  | Some (Some q) => exists i, q = p + Z.of_nat i /\ (l ++ [0]) !! i = Some (u8 c) /\ ~ u8 c ∈ take i l
  end.
Proof.
  revert p n. induction l as [|x l IH]; intros p [|n] Hl Hn; cbn [length] in Hn; try lia; cbn [strchr].
  - cbn in Hl. rewrite Hl. destruct (Z.eqb_spec 0 (u8 c)) as [E|E].
    + exists 0%nat. cbn. rewrite E. split_and!; [lia|done|set_solver].
    + cbn. set_solver.
  - destruct Hl as (->&Hx&Hl). destruct (Z.eqb_spec x (u8 c)) as [->|E].
    + exists 0%nat. cbn. split_and!; [lia|done|set_solver].
    + rewrite (proj2 (Z.eqb_neq x 0)) by done. specialize (IH (p + 1) n Hl ltac:(lia)). destruct (strchr n (p + 1) c m) as [[q|]|]; [|cbn; set_solver|done].
      destruct IH as (i&->&Hi&Hno). exists (S i). cbn. split_and!; [lia|done|set_solver].
Qed.

(** Where a store does not touch it a string stays. *)
Lemma cstr_store m p l a v : a < p \/ p + Z.of_nat (length l) < a -> cstr m p l -> cstr (store m a v) p l.
Proof.
  revert p. induction l as [|c l IH]; intros p Ha; cbn [cstr length] in *; unfold store.
  - by rewrite (proj2 (Z.eqb_neq p a)) by lia.
  - intros (H1&H2&H3). rewrite (proj2 (Z.eqb_neq p a)) by lia. split_and!; [done|done|]. apply IH; [lia|done].
Qed.

(** The [n] bytes from [d] on are [l]; nothing else has changed. *)
Definition holds (d : Z) (l : list Z) (m m' : memory) : Prop :=
  forall x, m' x = if (d <=? x) && (x <? d + Z.of_nat (length l)) then get l (x - d) else m x.

Lemma holds_nil d m : holds d [] m m.
Proof. intros x. cbn. destruct (Z.leb_spec d x); [|done]. by rewrite (proj2 (Z.ltb_ge _ _)) by lia. Qed.
Lemma holds_cons d v l m m' : holds (d + 1) l (store m d v) m' -> holds d (v :: l) m m'.
Proof.
  intros H x. rewrite H. unfold store, get. cbn [length].
  destruct (Z.leb_spec (d + 1) x), (Z.leb_spec d x), (Z.ltb_spec x (d + 1 + Z.of_nat (length l))), (Z.ltb_spec x (d + Z.of_nat (S (length l))));
    try lia; cbn [andb]; try (destruct (Z.eqb_spec x d); [lia|done]).
  - replace (Z.to_nat (x - d)) with (S (Z.to_nat (x - (d + 1)))) by lia. done.
  - assert (x = d) as -> by lia. by rewrite Z.eqb_refl, Z.sub_diag.
Qed.

Lemma strncpy_zeros n d s m : holds d (replicate n 0) m (strncpy_loop n false d s m).
Proof.
  revert d s m. induction n as [|n IH]; intros d s m; [apply holds_nil|]. cbn [strncpy_loop andb replicate].
  apply holds_cons, IH.
Qed.

Lemma strncpy_correct n d s l m : cstr m s l -> d + Z.of_nat n <= s \/ s + Z.of_nat (length l) < d ->
  holds d (take n l ++ replicate (n - length l) 0) m (strncpy_loop n true d s m).
Proof.
  revert d s l m. induction n as [|n IH]; intros d s l m Hl Hds; [apply holds_nil|]. cbn [strncpy_loop andb].
  destruct l as [|c l]; cbn [cstr length] in *.
  - rewrite Hl. cbn [Z.eqb negb take app Nat.sub replicate]. apply holds_cons, strncpy_zeros.
  - destruct Hl as (->&Hc&Hl). rewrite (proj2 (Z.eqb_neq c 0)) by done. cbn [negb take app Nat.sub]. apply holds_cons, IH; [|lia].
    apply cstr_store; [lia|done].
Qed.

Lemma starts_with_correct m h needle lh ln n : cstr m h lh -> cstr m needle ln -> (length ln < n)%nat ->
  starts_with n h needle m = Some (bool_decide (ln `prefix_of` lh)).
Proof.
  revert h needle lh n. induction ln as [|y ln IH]; intros h needle lh [|n] Hh Hn Hlen; cbn [length] in Hlen; try lia; cbn [starts_with].
  - cbn in Hn. rewrite Hn. cbn. rewrite bool_decide_true; [done|apply prefix_nil].
  - destruct Hn as (->&Hy&Hn). rewrite (proj2 (Z.eqb_neq y 0)) by done. cbn [negb andb]. destruct lh as [|x lh]; cbn [cstr] in Hh.
    + rewrite Hh. rewrite (proj2 (Z.eqb_neq 0 y)) by done. rewrite bool_decide_false; [done|]. apply prefix_nil_not.
    + destruct Hh as (->&Hx&Hh). destruct (Z.eqb_spec x y) as [->|E].
      * rewrite (IH _ _ lh) by (done || lia). f_equal. apply bool_decide_ext. split; [apply prefix_cons|apply prefix_cons_inv_2].
      * rewrite bool_decide_false; [done|]. intros Hp%prefix_cons_inv_1. done.
Qed.

Lemma strstr_correct m hay needle lh ln n : cstr m hay lh -> cstr m needle ln -> (length lh < n)%nat -> (length ln < n)%nat ->
  match strstr n hay needle m with
  | None => False
  | Some None => forall i, (i <= length lh)%nat -> ~ ln `prefix_of` drop i lh
  | Some (Some q) => exists i, q = hay + Z.of_nat i /\ (i <= length lh)%nat /\ ln `prefix_of` drop i lh /\ forall j, (j < i)%nat -> ~ ln `prefix_of` drop j lh
  end.
Proof.
  intros Hh Hn Hnh Hnn. unfold strstr. destruct ln as [|y ln].
  { cbn in Hn. rewrite Hn. exists 0%nat. split_and!; [lia|lia|apply prefix_nil|lia]. }
  assert (m needle <> 0) as Hy by (destruct Hn as (->&?&_); done). rewrite (proj2 (Z.eqb_neq _ 0)) by done. set (l := y :: ln) in *.
  enough (forall k, (length lh < k)%nat -> match strstr_loop k n hay needle m with
    | None => False
    | Some None => forall i, (i <= length lh)%nat -> ~ l `prefix_of` drop i lh
    | Some (Some q) => exists i, q = hay + Z.of_nat i /\ (i <= length lh)%nat /\ l `prefix_of` drop i lh /\ forall j, (j < i)%nat -> ~ l `prefix_of` drop j lh
    end) as H by (by apply H).
  clear Hnh. revert hay Hh. induction lh as [|x lh IH]; intros hay Hh [|k] Hk; cbn [length] in Hk; try lia; cbn [strstr_loop].
  - cbn in Hh. rewrite Hh. cbn. intros i _. rewrite drop_nil. apply prefix_nil_not.
  - rewrite (starts_with_correct m hay needle (x :: lh) l) by done. destruct Hh as (->&Hx&Hh). rewrite (proj2 (Z.eqb_neq x 0)) by done.
    case_bool_decide as Hpre; [exists 0%nat; split_and!; [lia|lia|done|lia]|].
    specialize (IH (hay + 1) Hh k ltac:(lia)). destruct (strstr_loop k n (hay + 1) needle m) as [[q|]|]; [| |done].
    + destruct IH as (i&->&Hi&Hp&Hno). exists (S i). cbn [length drop]. split_and!; [lia|lia|done|]. intros [|j] Hj; [done|]. apply Hno. lia.
    + intros [|i] Hi; [done|]. cbn in Hi |- *. apply IH. lia.
Qed.

(** * Properties *)

(** C35. [memset] fills exactly the bytes asked for. [memmove] copies the bytes as
    they were before the call, however source and destination overlap, and changes
    nothing else; [memcpy] does so when the destination does not start inside the
    source. All three return the destination. [memcmp] is the difference of the first
    pair of bytes that differ, and 0 if none do. *)
Theorem memory_functions_correct dest src val count m :
  0 <= count ->
  (memset dest val count m).1 = dest /\ filled dest (u8 val) count m (memset dest val count m).2 /\
  (memmove dest src count m).1 = dest /\ copied dest src count m (memmove dest src count m).2 /\
  (memcpy dest src count m).1 = dest /\ (~ src < dest < src + count -> copied dest src count m (memcpy dest src count m).2) /\
  compared count dest src m (memcmp dest src count m).
Proof.
  intros Hc. split; [done|]. split; [by apply memset_filled|]. split; [unfold memmove; by destruct (_ || _)|]. split; [|split; [done|]; split; [intros ?; apply memcpy_copied; lia|]].
  2:{ unfold memcmp. pose proof (memcmp_loop_compared (Z.to_nat count) dest src m) as H. by rewrite Z2Nat.id in H. }
  unfold memmove. destruct (Z.leb_spec dest src); cbn [orb]; [apply memcpy_copied; lia|].
  destruct (Z.leb_spec (src + count) dest); [apply memcpy_copied; lia|]. cbn [snd].
  pose proof (rep_movsb_down_copied (Z.to_nat count) (dest + count - 1) (src + count - 1) m ltac:(lia)) as H'.
  rewrite Z2Nat.id in H' by lia. replace (dest + count - 1 - count + 1) with dest in H' by lia.
  by replace (src + count - 1 - count + 1) with src in H' by lia.
Qed.

(** The string functions, on the strings [l1] at [p1] and [l2] at [p2]: every
    loop ends; [strlen] is the length; [strcmp] and [strncmp] are the difference at
    the first place where the strings (or their first [k] characters) differ, which
    is 0 only if there is none; [strncpy] writes exactly [k] bytes, the string cut
    off or filled up with zeros; [strchr] finds the first such character (the
    terminator included) and [strstr] the first place where the string starts. *)
Theorem string_functions_correct m p1 p2 l1 l2 n (k : nat) c dest :
  cstr m p1 l1 -> cstr m p2 l2 -> p1 <> 0 -> (length l1 < n)%nat -> (length l2 < n)%nat ->
  dest + Z.of_nat k <= p1 \/ p1 + Z.of_nat (length l1) < dest ->
  strlen n p1 m = Some (Z.of_nat (length l1)) /\
  strcmp n p1 p2 m = Some (first_difference l1 l2) /\ (first_difference l1 l2 = 0 <-> l1 = l2) /\
  strncmp k p1 p2 m = first_difference (take k l1) (take k l2) /\
  (strncpy dest p1 (Z.of_nat k) m).1 = dest /\ holds dest (take k l1 ++ replicate (k - length l1) 0) m (strncpy dest p1 (Z.of_nat k) m).2 /\
  match strchr n p1 c m with
  | None => False
  | Some None => ~ u8 c ∈ l1 ++ [0]
  | Some (Some q) => exists i, q = p1 + Z.of_nat i /\ (l1 ++ [0]) !! i = Some (u8 c) /\ ~ u8 c ∈ take i l1
  end /\
  match strstr n p1 p2 m with
  | None => False
  | Some None => forall i, (i <= length l1)%nat -> ~ l2 `prefix_of` drop i l1
  | Some (Some q) => exists i, q = p1 + Z.of_nat i /\ (i <= length l1)%nat /\ l2 `prefix_of` drop i l1 /\
                     forall j, (j < i)%nat -> ~ l2 `prefix_of` drop j l1
  end.
Proof.
  intros H1 H2 Hp Hn1 Hn2 Hd. split_and!.
  - unfold strlen. rewrite (strlen_loop_correct m p1 l1 0 n); [done|done|by rewrite Z.add_0_r|done].
  - by apply strcmp_correct.
  - apply first_difference_eq; by eapply cstr_nonzero.
  - by apply strncmp_correct.
  - done.
  - unfold strncpy. cbn [snd]. rewrite Nat2Z.id. by apply strncpy_correct.
  - by apply strchr_correct.
  - by apply strstr_correct.
Qed.

(** ** Examples: "hello" at 100 and "ll" at 200. *)

Definition sample (x : Z) : Z := get [104; 101; 108; 108; 111; 0] (x - 100) + (if (200 <=? x) && (x <? 202) then 108 else 0).

Lemma memory_functions_correct_witness :
  let m := (memmove 102 100 5 sample).2 in m 102 = 104 /\ m 106 = 111 /\ m 107 = 0 /\ compared 5 102 100 m (memcmp 102 100 5 m).
Proof.
  pose proof (memory_functions_correct 102 100 0 5 sample ltac:(lia)) as (_&_&_&H&_). cbn zeta. rewrite !H. split; [reflexivity|]. split; [reflexivity|]. split; [reflexivity|].
  apply (memory_functions_correct 102 100 0 5 (memmove 102 100 5 sample).2). lia.
Defined.

Lemma string_functions_correct_witness :
  strstr 10 100 200 sample = Some (Some 102) /\ strlen 10 100 sample = Some 5.
Proof.
  split; [vm_compute; reflexivity|].
  refine (proj1 (string_functions_correct sample 100 200 [104; 101; 108; 108; 111] [108; 108] 10 3 0 300 _ _ _ _ _ _)).
  1-2: repeat split; discriminate. 1: discriminate. 1-2: cbn; lia. cbn. lia.
Defined.
