(* ===== verification/Shm.v ===== *)
(** Shared memory segments, [src/kernel/ipc/shm.c], over the frame allocator, the
    sharing counts and the page tables. Whether [kmalloc] finds memory for a
    segment's list of frames, and who calls, are arguments. *)
From stdpp Require Import base tactics numbers list sets gmap relations.
From Stdlib Require Import ZArith Lia.
From S2P Require Import Prelude Errno Pmm Cow SwapSlots Vmm VmmInv.

Open Scope Z_scope.

Definition SHM_MAX_SEGMENTS : Z := 16.
Definition SHM_MAX_PAGES : Z := 256.
Definition USER_MMAP_END : Z := 0x00007F0000000000.
Definition UID_ROOT : Z := 0.

(** [seg_frames]: the physical addresses of the pages. *)
Record shm_segment_t := mkSegment { used : bool; key : Z; owner : Z; pages : Z; seg_frames : list Z }.
Definition no_segment : shm_segment_t := mkSegment false 0 0 0 [].

Record shm := mkShm { segments : list shm_segment_t; vm : vmm }.
Definition shm_static (s : vmm) : shm := mkShm (replicate (Z.to_nat SHM_MAX_SEGMENTS) no_segment) s.

Definition segment (sh : shm) (id : Z) : shm_segment_t := nth (Z.to_nat id) (segments sh) no_segment.

Definition shm_count (sh : shm) : Z := Z.of_nat (length (filter (fun g => used g = true) (segments sh))).

(** The loop that allocates the frames; when one is missing the others go back,
    last one first. *)
Fixpoint take_frames (n : nat) (got : list Z) (s : vmm) : option (list Z) * vmm :=
  match n with
  | O => (Some got, s)
  | S n' =>
      let '(f, s) := vmm_alloc_frame s in
      if f =? 0 then (None, fold_right vmm_free_frame s got)
      else take_frames n' (got ++ [f]) (set_ram s (fill_page (ram s) (u64 (f + hhdm s)) 0))
  end.

(** The search: the segment with the key ([inl]) or the first free place, -1 if
    there is none. *)
Fixpoint find_key (k : Z) (l : list shm_segment_t) (i free_slot : Z) : Z + Z :=
  match l with
  | [] => inr free_slot
  | g :: l' =>
      if used g && (key g =? k) then inl i
      else find_key k l' (i + 1) (if negb (used g) && (free_slot <? 0) then i else free_slot)
  end.

(** The part under [shm_lock]: the result, the table and whether the frames are
    in it now. *)
Definition enter_segment (uid k n : Z) (fs : list Z) (l : list shm_segment_t) : Z * list shm_segment_t * bool :=
  match find_key k l 0 (-1) with
  | inl i => (if n <=? pages (nth (Z.to_nat i) l no_segment) then i else - EINVAL, l, false)
  | inr free_slot =>
      if 0 <=? free_slot then (free_slot, <[Z.to_nat free_slot := mkSegment true k uid n fs]> l, true)
      else (- ENOSPC, l, false)
  end.

Definition shm_get (memory : bool) (uid k size : Z) (sh : shm) : Z * shm :=
  let n := u64 (size + PAGE_SIZE - 1) / PAGE_SIZE in
  if (size =? 0) || (n =? 0) || (SHM_MAX_PAGES <? n) then (- EINVAL, sh)
  else if negb memory then (- ENOMEM, sh)
  else
    let '(got, s) := take_frames (Z.to_nat n) [] (vm sh) in
    match got with
    | None => (- ENOMEM, mkShm (segments sh) s)
    | Some fs =>
        let '(result, l, used_new_frames) := enter_segment uid k n fs (segments sh) in
        (result, mkShm l (if used_new_frames : bool then s else fold_left (fun s f => vmm_free_frame f s) fs s))
    end.

Definition id_ok (id : Z) : bool := negb ((id <? 0) || (SHM_MAX_SEGMENTS <=? id)).

Definition shm_count_valid (id : Z) (sh : shm) : bool := if negb (id_ok id) then false else used (segment sh id).

Definition shm_may_use (id uid : Z) (sh : shm) : bool :=
  if negb (id_ok id) then false
  else used (segment sh id) && ((uid =? UID_ROOT) || (uid =? owner (segment sh id))).

Definition SHM_FLAGS : Z :=
  Z.lor (Z.lor (Z.lor (Z.lor VMM_PRESENT VMM_USER) VMM_WRITABLE) VMM_NO_EXECUTE) VMM_SHARED.

(** The pages mapped before one could not be, from page [mapped] on. *)
Fixpoint map_frames (pml4 addr mapped : Z) (fs : list Z) (s : vmm) : Z * vmm :=
  match fs with
  | [] => (mapped, s)
  | f :: fs' =>
      let '(ok, s) := vmm_map_page s pml4 (u64 (addr + mapped * PAGE_SIZE)) f SHM_FLAGS in
      if ok : bool then map_frames pml4 addr (mapped + 1) fs' s else (mapped, s)
  end.

Definition unmap_pages (pml4 addr : Z) (n : nat) (s : vmm) : vmm :=
  fold_left (fun s i => (vmm_unmap_page s pml4 (u64 (addr + Z.of_nat i * PAGE_SIZE))).2) (seq 0 n) s.

(** The address (0: failed), the next free address and the state. *)
Definition shm_attach (id pml4 mmap_next : Z) (sh : shm) : Z * Z * shm :=
  if negb (id_ok id) || (pml4 =? 0) then (0, mmap_next, sh)
  else
    let g := segment sh id in
    let n := if used g then pages g else 0 in
    let fs := if used g then seg_frames g else [] in
    let s := fold_left (fun s f => vmm_ref_frame f s) fs (vm sh) in
    if n =? 0 then (0, mmap_next, mkShm (segments sh) s)
    else
      let addr := mmap_next in
      let size := u64 (n * PAGE_SIZE) in
      let '(mapped, s) :=
        if (addr <? USER_MMAP_END) && (size <=? USER_MMAP_END - addr) then map_frames pml4 addr 0 fs s else (0, s) in
      if mapped <? n then
        let s := unmap_pages pml4 addr (Z.to_nat mapped) s in
        (0, mmap_next, mkShm (segments sh) (fold_left (fun s f => vmm_unref_frame f s) fs s))
      else (addr, u64 (addr + size), mkShm (segments sh) s).

Definition shm_remove (id : Z) (sh : shm) : Z * shm :=
  if negb (id_ok id) then (- EINVAL, sh)
  else
    let g := segment sh id in
    let l := <[Z.to_nat id := mkSegment false (key g) (owner g) 0 []]> (segments sh) in
    if negb (used g) then (- EINVAL, mkShm l (vm sh))
    else (0, mkShm l (fold_left (fun s f => vmm_unref_frame f s) (seg_frames g) (vm sh))).

(** * Frames taken and given back *)

Lemma refs_once l h f : NoDup l -> f ∈ l -> f ∉ h -> refs (l ++ h) f = 1.
Proof.
  intros Hnd Hf Hh. apply refs_zero in Hh. unfold refs in *. rewrite count_occ_app.
  rewrite (proj1 (NoDup_count_occ' Z.eq_dec l) (proj1 (NoDup_ListNoDup _) Hnd)) by (by apply list_elem_of_In). lia.
Qed.

(** Frames that are held once, by whoever has the list. *)
Record fresh (l held : list Z) : Prop := {
  fresh_nodup : NoDup (fno l);
  fresh_held : forall f, f ∈ fno l -> f ∉ held;
  fresh_aligned : aligned l }.

Lemma fresh_perm l l' held : l ≡ₚ l' -> fresh l held -> fresh l' held.
Proof.
  intros Hp [H1 H2 H3]. assert (fno l ≡ₚ fno l') as Hf by (unfold fno; by rewrite Hp).
  split; [by rewrite <- Hf|intros f; rewrite <- Hf; apply H2|unfold aligned; by rewrite <- Hp].
Qed.

(** The owners of all frames but those of [l] are the same. *)
Definition same_but (l : list Z) (s s' : vmm) : Prop :=
  forall g, 0 <= g -> g ∉ fno l -> owners (owned s') g = owners (owned s) g.

Lemma give_back_spec l : forall s held, refs_ok (owned s, fno l ++ held) -> fresh l held ->
  let s' := fold_left (fun s f => vmm_free_frame f s) l s in
  refs_ok (owned s', held) /\ same_but l s s' /\ (forall g, g ∈ fno l -> owners (owned s') g = 0).
Proof.
  induction l as [|p l IH]; intros s held Hr [Hnd Hh Ha]; [by split_and!; [done|done|set_solver]|].
  apply Forall_cons in Ha as [Hp Ha]. cbn [fold_left fno fmap list_fmap] in *. set (f := p / PAGE_SIZE) in *. fold (fno l) in *.
  apply NoDup_cons in Hnd as [Hfl Hnd]. assert (f ∉ fno l ++ held) as Hf.
  { rewrite elem_of_app. intros [?|?]; [done|]. by apply (Hh f); [set_solver|]. }
  destruct (refs_ok_owned _ _ f Hr) as (R1&R2&R3); [set_solver|].
  assert (owners (owned s) f = 1) as Ho.
  { destruct (proj2 Hr f) as [_ Ho]; [set_solver|]. cbn [fst snd] in Ho. rewrite Ho. apply (refs_once (f :: fno l)); [by constructor|set_solver|set_solver]. }
  assert (owned (vmm_free_frame p s) = pmm_unref_frame (f * PAGE_SIZE) (owned s)) as Hown.
  { cbn. rewrite Hp. by apply free_is_unref; [apply (proj1 Hr)|..]. }
  destruct (refs_drop (owned s) f (fno l ++ held) Hr) as (D1&D2&D3). cbn zeta in *. rewrite <- Hown in D1, D2, D3.
  destruct (IH (vmm_free_frame p s) held D1) as (I1&I2&I3); [split; [done|intros; apply Hh; set_solver|done]|].
  split_and!; [done| |].
  - intros g Hg Hgl. rewrite I2, D3 by set_solver. done.
  - intros g Hg. apply elem_of_cons in Hg as [->|Hg]; [|by apply I3]. rewrite I2 by (done || lia). rewrite D2. lia.
Qed.

Lemma fold_right_free l s : fold_right vmm_free_frame s l = fold_left (fun s f => vmm_free_frame f s) (reverse l) s.
Proof. rewrite <- fold_left_rev_right. unfold reverse. by rewrite <- rev_alt, rev_involutive. Qed.

(** One more frame. *)
Lemma shm_take_one got s held p c' : refs_ok (owned s, fno got ++ held) -> fresh got held -> alloc_frame (owned s) = (p, c') -> p <> 0 ->
  refs_ok (c', fno (got ++ [p]) ++ held) /\ fresh (got ++ [p]) held.
Proof.
  intros Hr [F1 F2 F3] Ea Hne. pose proof (alloc_frame_owners (owned s) (proj1 Hr)) as HA. rewrite Ea in HA. destruct HA as (A1&A2&[(->&_)|(f&->&H1&H2&H3&H4)]); [done|].
  assert (f * PAGE_SIZE / PAGE_SIZE = f) as Hdiv by (unfold PAGE_SIZE; zlia).
  assert (f ∉ fno got ++ held) as Hnew by (intros Hin; destruct (refs_ok_owned _ _ _ Hr Hin); lia).
  assert (fno (got ++ [f * PAGE_SIZE]) = fno got ++ [f]) as Hfno by (unfold fno; rewrite fmap_app; cbn; by rewrite Hdiv). split.
  - pose proof (ref_step_ok _ _ Hr (ref_alloc (owned s) _ _ c' Ea ltac:(done))) as Hr2. rewrite Hdiv in Hr2.
    eapply refs_ok_perm; [|exact Hr2]. rewrite Hfno, <- app_assoc. apply Permutation_middle.
  - split; rewrite ?Hfno.
    + apply NoDup_app. split_and!; [done|set_solver|apply NoDup_singleton].
    + intros g. rewrite elem_of_app, list_elem_of_singleton. intros [?| ->]; [by apply F2|set_solver].
    + apply Forall_app_2; [done|]. constructor; [by rewrite Hdiv|done].
Qed.

Lemma take_frames_spec n : forall got s held, refs_ok (owned s, fno got ++ held) -> fresh got held ->
  match take_frames n got s with
  | (Some fs, s') => exists new, fs = got ++ new /\ length new = n /\ refs_ok (owned s', fno fs ++ held) /\ fresh fs held /\
      same_but new s s' /\ (forall g, g ∈ fno new -> owners (owned s) g = 0)
  | (None, s') => refs_ok (owned s', held) /\ same_but got s s' /\ (forall g, g ∈ fno got -> owners (owned s') g = 0)
  end.
Proof.
  induction n as [|n IH]; intros got s held Hr Hf; cbn [take_frames].
  { exists []. rewrite app_nil_r. split_and!; try done. set_solver. }
  pose proof (alloc_frame_owners (owned s) (proj1 Hr)) as HA. unfold vmm_alloc_frame.
  destruct (alloc_frame (owned s)) as [phys c'] eqn:Ea. destruct HA as (A1&A2&HA).
  pose proof (refs_ok_alloc _ _ _ _ Hr Ea) as Hr'. destruct HA as [(->&Hs)|(f&->&H1&H2&H3&H4)].
  - cbn [Z.eqb]. rewrite fold_right_free. assert (reverse got ≡ₚ got) as Hp by (rewrite reverse_Permutation; done).
    destruct (give_back_spec (reverse got) (set_owned s c') held) as (G1&G2&G3).
    + eapply refs_ok_perm; [|exact Hr']. unfold fno. by rewrite Hp.
    + by eapply fresh_perm; [symmetry|].
    + split_and!; [done| |].
      * intros g Hg Hgl. rewrite G2 by (try done; unfold fno; by rewrite Hp). apply Hs.
      * intros g Hg. apply G3. unfold fno. by rewrite Hp.
  - destruct (Z.eqb_spec (f * PAGE_SIZE) 0); [unfold PAGE_SIZE in *; lia|]. set (s1 := set_ram _ _).
    assert (f * PAGE_SIZE / PAGE_SIZE = f) as Hdiv by (unfold PAGE_SIZE; zlia).
    assert (fno (got ++ [f * PAGE_SIZE]) = fno got ++ [f]) as Hfno by (unfold fno; rewrite fmap_app; cbn; by rewrite Hdiv).
    destruct (shm_take_one got s held _ c' Hr Hf Ea ltac:(done)) as [Hr1 Hf1]. change c' with (owned s1) in Hr1.
    specialize (IH (got ++ [f * PAGE_SIZE]) s1 held Hr1 Hf1). destruct (take_frames n _ s1) as [[fs|] s'].
    + destruct IH as (new&->&Hl&I1&I2&I3&I4). exists (f * PAGE_SIZE :: new). rewrite <- app_assoc in *. cbn [app length] in *.
      split_and!; [done|lia|done|done| |].
      * intros g Hg. cbn. rewrite Hdiv. intros Hgn. rewrite I3 by set_solver. apply H4. set_solver.
      * intros g. cbn. rewrite Hdiv. intros [->|Hg]%elem_of_cons; [done|]. rewrite <- (H4 g); [by apply I4|].
        intros ->. apply I4 in Hg. cbn in Hg. lia.
    + destruct IH as (I1&I2&I3). split_and!; [done| |intros g Hg; apply I3; rewrite Hfno; set_solver].
      intros g Hg Hgn. destruct (decide (g = f)) as [->|Hne]; [rewrite H2; apply I3; rewrite Hfno; set_solver|].
      rewrite I2 by (try done; rewrite Hfno; set_solver). by apply H4.
Qed.

(** The page at physical address [p] is all zeros. *)
Definition zeroed (s : vmm) (p : Z) : Prop := forall x, u64 (p + hhdm s) <= x < u64 (p + hhdm s) + PAGE_SIZE -> ram s x = 0.

Lemma take_frames_zeroed n : forall got s, Forall (zeroed s) got ->
  match take_frames n got s with (Some fs, s') => Forall (zeroed s') fs | (None, _) => True end.
Proof.
  induction n as [|n IH]; intros got s Hz; cbn [take_frames]; [done|]. unfold vmm_alloc_frame.
  pose proof (alloc_frame_hhdm (owned s)) as Hh. destruct (alloc_frame (owned s)) as [p c']. cbn [snd] in Hh. destruct (p =? 0); [done|].
  apply IH. apply Forall_app_2; [eapply Forall_impl; [exact Hz|]|constructor; [|done]].
  - intros q Hq x. unfold zeroed, hhdm in *. cbn. rewrite Hh. intros Hx. unfold fill_page. destruct (_ && _); [done|]. by apply Hq.
  - intros x. unfold hhdm. cbn. rewrite Hh. intros Hx. unfold fill_page.
    by rewrite (proj2 (Z.leb_le _ _)), (proj2 (Z.ltb_lt _ _)) by lia.
Qed.

(** * The table *)

Definition seg_refs (g : shm_segment_t) : list Z := if used g then fno (seg_frames g) else [].
(** The references the table holds. *)
Definition table_refs (l : list shm_segment_t) : list Z := concat (seg_refs <$> l).

Definition seg_ok (g : shm_segment_t) : Prop :=
  used g = true -> 1 <= pages g <= SHM_MAX_PAGES /\ Z.of_nat (length (seg_frames g)) = pages g /\ aligned (seg_frames g) /\ NoDup (fno (seg_frames g)).

Record segs_ok (l : list shm_segment_t) : Prop := {
  so_len : length l = 16%nat;
  so_seg : Forall seg_ok l;
  so_keys : forall i j g g', l !! i = Some g -> l !! j = Some g' -> used g = true -> used g' = true -> key g = key g' -> i = j }.

(** [others]: the references to frames held elsewhere, such as by mappings. *)
Record shm_inv (sh : shm) (others : list Z) : Prop := {
  si_refs : refs_ok (owned (vm sh), table_refs (segments sh) ++ others);
  si_segs : segs_ok (segments sh) }.

Lemma find_key_spec k l : forall i0 fs0,
  match find_key k l i0 fs0 with
  | inl i => exists (j : nat) g, i = i0 + Z.of_nat j /\ l !! j = Some g /\ used g = true /\ key g = k
  | inr fs => Forall (fun g => used g = true -> key g <> k) l /\
      ((fs = fs0 /\ (fs0 < 0 -> Forall (fun g => used g = true) l)) \/
       (fs0 < 0 /\ exists (j : nat) g, fs = i0 + Z.of_nat j /\ l !! j = Some g /\ used g = false))
  end.
Proof.
  induction l as [|g l IH]; intros i0 fs0; cbn [find_key]; [split; [constructor|]; left; split; [done|constructor]|].
  destruct (used g) eqn:Hu; cbn [andb negb].
  - destruct (Z.eqb_spec (key g) k) as [Hk|Hk]; [exists 0%nat, g; cbn; split_and!; [lia|done..]|].
    specialize (IH (i0 + 1) fs0). destruct (find_key k l (i0 + 1) fs0) as [i|fs].
    + destruct IH as (j&g'&->&Hj&?&?). exists (S j), g'. cbn. split_and!; [lia|done..].
    + destruct IH as [H1 H2]. split; [by constructor|]. destruct H2 as [[-> H2]|(Hn&j&g'&->&Hj&?)].
      * left. split; [done|]. intros Hn. constructor; [done|by apply H2].
      * right. split; [done|]. exists (S j), g'. cbn. split_and!; [lia|done..].
  - specialize (IH (i0 + 1) (if fs0 <? 0 then i0 else fs0)). destruct (find_key k l (i0 + 1) _) as [i|fs].
    + destruct IH as (j&g'&->&Hj&?&?). exists (S j), g'. cbn. split_and!; [lia|done..].
    + destruct IH as [H1 H2]. split; [constructor; [congruence|done]|]. destruct (Z.ltb_spec fs0 0) as [Hn|Hn].
      * right. split; [done|]. destruct H2 as [[-> _]|(Hn'&j&g'&->&Hj&?)]; [exists 0%nat, g; cbn; split_and!; [lia|done..]|].
        exists (S j), g'. cbn. split_and!; [lia|done..].
      * left. destruct H2 as [[-> _]|(Hn'&_)]; [|lia]. split; [done|lia].
Qed.

Lemma segs_ok_insert l i g : segs_ok l -> seg_ok g ->
  (used g = true -> Forall (fun g' => used g' = true -> key g' <> key g) l) -> segs_ok (<[i := g]> l).
Proof.
  intros [H1 H2 H3] Hg Hk. split; [by rewrite length_insert|by apply Forall_insert|].
  intros a b ga gb Ha Hb Hua Hub Hkey.
  apply list_lookup_insert_Some in Ha as [(<-&<-&_)|[Hia Ha]]; apply list_lookup_insert_Some in Hb as [(<-&<-&_)|[Hib Hb]].
  - done.
  - exfalso. specialize (Hk Hua). rewrite Forall_lookup in Hk. by apply (Hk b gb Hb Hub).
  - exfalso. specialize (Hk Hub). rewrite Forall_lookup in Hk. by apply (Hk a ga Ha Hua).
  - by eapply H3.
Qed.

Lemma segment_at sh j g : segments sh !! j = Some g -> segment sh (Z.of_nat j) = g.
Proof. intros Hj. unfold segment. by rewrite Nat2Z.id, nth_lookup, Hj. Qed.

(** The call under the lock, with [n] fresh frames in hand. *)
Lemma shm_enter_spec sh others s uid k n fs :
  shm_inv sh others -> 1 <= n <= SHM_MAX_PAGES -> Z.of_nat (length fs) = n ->
  refs_ok (owned s, fno fs ++ table_refs (segments sh) ++ others) -> fresh fs (table_refs (segments sh) ++ others) ->
  let '(r, l, new) := enter_segment uid k n fs (segments sh) in
  let s' := if new : bool then s else fold_left (fun s f => vmm_free_frame f s) fs s in
  shm_inv (mkShm l s') others /\
  (if new then
     0 <= r < SHM_MAX_SEGMENTS /\ used (segment sh r) = false /\ Forall (fun g => used g = true -> key g <> k) (segments sh) /\
     l = <[Z.to_nat r := mkSegment true k uid n fs]> (segments sh)
   else
     l = segments sh /\ same_but fs s s' /\ (forall g, g ∈ fno fs -> owners (owned s') g = 0) /\
     ((0 <= r < SHM_MAX_SEGMENTS /\ used (segment sh r) = true /\ key (segment sh r) = k /\ n <= pages (segment sh r)) \/
      (r = - EINVAL /\ exists g, g ∈ segments sh /\ used g = true /\ key g = k /\ pages g < n) \/
      (r = - ENOSPC /\ Forall (fun g => used g = true /\ key g <> k) (segments sh)))).
Proof.
  intros [Hrefs Hsegs] Hn Hlen Hr Hf. unfold enter_segment.
  destruct (give_back_spec fs s _ Hr Hf) as (G1&G2&G3).
  pose proof (find_key_spec k (segments sh) 0 (-1)) as HF. destruct (find_key k (segments sh) 0 (-1)) as [i|fs0].
  - destruct HF as (j&g&->&Hj&Hu&Hk). pose proof (lookup_lt_Some _ _ _ Hj) as Hlt. rewrite (so_len _ Hsegs) in Hlt.
    rewrite Z.add_0_l. pose proof (segment_at sh j g Hj) as Hseg. rewrite Nat2Z.id, nth_lookup, Hj. cbn [default id]. split; [by split|]. split; [done|]. split; [done|]. split; [done|].
    destruct (Z.leb_spec n (pages g)); [left; rewrite Hseg; unfold SHM_MAX_SEGMENTS; split_and!; [lia|lia|done..]|].
    right. left. split; [done|]. exists g. split_and!; [by eapply list_elem_of_lookup_2|done..].
  - destruct HF as [Hno HF]. destruct HF as [[-> Hall]|(_&j&g&->&Hj&Hu)].
    + cbn [Z.leb]. split; [by split|]. split; [done|]. split; [done|]. split; [done|]. right. right. split; [done|].
      rewrite Forall_forall in Hno |- *. specialize (Hall ltac:(lia)). rewrite Forall_forall in Hall. intros g Hg. split; [by apply Hall|]. apply Hno; [done|]. by apply Hall.
    + rewrite (proj2 (Z.leb_le 0 (0 + Z.of_nat j))) by lia. pose proof (lookup_lt_Some _ _ _ Hj) as Hlt. rewrite (so_len _ Hsegs) in Hlt.
      rewrite Z.add_0_l, Nat2Z.id, (segment_at sh j g Hj). split; [|unfold SHM_MAX_SEGMENTS; split_and!; [lia|lia|done..]]. split; cbn [vm segments].
      * destruct (concat_fmap_insert seg_refs (segments sh) j g (mkSegment true k uid n fs) Hj) as (rest&P1&P2).
        eapply refs_ok_perm; [|exact Hr]. rewrite P2, P1. unfold seg_refs. rewrite Hu. cbn. by rewrite <- app_assoc.
      * apply segs_ok_insert; [done|intros _; cbn; split_and!; [lia|lia|done|by apply (fresh_aligned _ _ Hf)|by apply (fresh_nodup _ _ Hf)]|by intros _].
Qed.

(** * Attaching and removing *)

(** The references held stay counted. *)
Definition keeps_refs (s s' : vmm) : Prop := forall h, refs_ok (owned s, h) -> refs_ok (owned s', h).

Lemma keeps_refs_trans s1 s2 s3 : keeps_refs s1 s2 -> keeps_refs s2 s3 -> keeps_refs s1 s3.
Proof. intros H1 H2 h Hh. by apply H2, H1. Qed.

Lemma next_level_keeps_refs s t i allocate flags : keeps_refs s (get_next_level s t i allocate flags).2.
Proof.
  unfold get_next_level. destruct (_ && _); [by intros h|]. destruct (_ && _); [intros h Hh; by destruct (has flags VMM_USER)|].
  destruct allocate; [|by intros h]. cbn [negb]. unfold vmm_alloc_frame. destruct (alloc_frame (owned s)) as [f c'] eqn:Ea. cbn zeta.
  intros h Hh. pose proof (refs_ok_alloc _ _ _ _ Hh Ea). by destruct (f =? 0).
Qed.

Lemma walk_levels_keeps_refs s pml4 virt allocate flags : keeps_refs s (walk_levels s pml4 virt allocate flags).2.
Proof.
  unfold walk_levels, then_level.
  pose proof (next_level_keeps_refs s pml4 (pml4_index virt) allocate flags) as H1.
  destruct (get_next_level s pml4 (pml4_index virt) allocate flags) as [t1 s1]. destruct (t1 =? 0); [done|].
  pose proof (next_level_keeps_refs s1 t1 (pdpt_index virt) allocate flags) as H2.
  destruct (get_next_level s1 t1 (pdpt_index virt) allocate flags) as [t2 s2]. destruct (t2 =? 0); [by eapply keeps_refs_trans|].
  eapply keeps_refs_trans; [eapply keeps_refs_trans; [exact H1|exact H2]|]. apply next_level_keeps_refs.
Qed.

Lemma map_page_keeps_refs s pml4 virt phys flags : keeps_refs s (vmm_map_page s pml4 virt phys flags).2.
Proof.
  unfold vmm_map_page. pose proof (walk_levels_keeps_refs s (or_kernel s pml4) virt true flags) as H.
  destruct (walk_levels s (or_kernel s pml4) virt true flags) as [t s']. intros h Hh. apply H in Hh. by destruct (t =? 0).
Qed.

Lemma unmap_page_keeps_refs s pml4 virt : keeps_refs s (vmm_unmap_page s pml4 virt).2.
Proof. unfold vmm_unmap_page. rewrite walk_look. intros h Hh. by destruct (_ && _). Qed.

Lemma map_frames_keeps_refs pml4 addr fs : forall mapped s, keeps_refs s (map_frames pml4 addr mapped fs s).2.
Proof.
  induction fs as [|f fs IH]; intros mapped s; cbn [map_frames]; [by intros h|].
  pose proof (map_page_keeps_refs s pml4 (u64 (addr + mapped * PAGE_SIZE)) f SHM_FLAGS) as H.
  destruct (vmm_map_page s pml4 _ f SHM_FLAGS) as [[] s']; [|done]. eapply keeps_refs_trans; [exact H|apply IH].
Qed.

Lemma map_frames_range pml4 addr fs : forall mapped s, mapped <= (map_frames pml4 addr mapped fs s).1 <= mapped + Z.of_nat (length fs).
Proof.
  induction fs as [|f fs IH]; intros mapped s; cbn [map_frames length]; [cbn; lia|].
  destruct (vmm_map_page s pml4 _ f SHM_FLAGS) as [[] s']; [|cbn; lia]. specialize (IH (mapped + 1) s'). lia.
Qed.

Lemma unmap_pages_keeps_refs pml4 addr n s : keeps_refs s (unmap_pages pml4 addr n s).
Proof.
  unfold unmap_pages. generalize (seq 0 n) as l. intros l. revert s. induction l as [|i l IH]; intros s; cbn [fold_left]; [by intros h|].
  eapply keeps_refs_trans; [apply unmap_page_keeps_refs|apply IH].
Qed.

Lemma ref_all_spec fs : forall s h, refs_ok (owned s, h) -> (forall f, f ∈ fno fs -> f ∈ h /\ refs h f < 0x10000) -> aligned fs -> NoDup (fno fs) ->
  refs_ok (owned (fold_left (fun s f => vmm_ref_frame f s) fs s), fno fs ++ h).
Proof.
  induction fs as [|p fs IH]; intros s h Hr Hin Ha Hnd; [done|]. apply Forall_cons in Ha as [Hp Ha]. cbn [fold_left fno fmap list_fmap] in *. apply NoDup_cons in Hnd as [Hnp Hnd].
  destruct (Hin (p / PAGE_SIZE)) as [Hf Hlt]; [set_solver|]. destruct (proj2 Hr _ Hf) as [_ Ho]. cbn in Ho.
  destruct (refs_add (owned s) (p / PAGE_SIZE) h Hr Hf ltac:(lia)) as (A1&_). cbn zeta in A1. rewrite <- Hp in A1.
  assert (refs_ok (owned (fold_left (fun s f => vmm_ref_frame f s) fs (vmm_ref_frame p s)), fno fs ++ p / PAGE_SIZE :: h)) as H2.
  { apply IH; [done| |done|done]. intros f Hff. destruct (Hin f) as [? ?]; [set_solver|]. split; [set_solver|]. rewrite refs_cons.
    destruct (Z.eqb_spec f (p / PAGE_SIZE)) as [->|]; [by destruct Hnp|lia]. }
  eapply refs_ok_perm; [|exact H2]. by rewrite <- Permutation_middle.
Qed.

Lemma unref_all_spec fs : forall s h, refs_ok (owned s, fno fs ++ h) -> aligned fs ->
  refs_ok (owned (fold_left (fun s f => vmm_unref_frame f s) fs s), h).
Proof.
  induction fs as [|p fs IH]; intros s h Hr Ha; [done|]. apply Forall_cons in Ha as [Hp Ha]. cbn [fold_left].
  apply IH; [|done]. destruct (refs_drop (owned s) (p / PAGE_SIZE) (fno fs ++ h) Hr) as (A1&_). cbn zeta in A1. by rewrite <- Hp in A1.
Qed.

Lemma id_lookup sh id : segs_ok (segments sh) -> id_ok id = true -> segments sh !! Z.to_nat id = Some (segment sh id).
Proof.
  intros Hs Hid. unfold id_ok, SHM_MAX_SEGMENTS in Hid. zbool. destruct (lookup_lt_is_Some_2 (segments sh) (Z.to_nat id)) as [g Hg].
  { rewrite (so_len _ Hs). lia. }
  rewrite Hg. unfold segment. by rewrite nth_lookup, Hg.
Qed.

Lemma shm_attach_refs sh others id pml4 next :
  shm_inv sh others -> 0 < next ->
  (id_ok id = true -> used (segment sh id) = true -> forall f, f ∈ fno (seg_frames (segment sh id)) -> refs (table_refs (segments sh) ++ others) f < 0x10000) ->
  let '(a, next', sh') := shm_attach id pml4 next sh in
  segments sh' = segments sh /\
  shm_inv sh' (if a =? 0 then others else fno (seg_frames (segment sh id)) ++ others) /\
  (if a =? 0 then next' = next else a = next /\ id_ok id = true /\ used (segment sh id) = true /\ next' = next + pages (segment sh id) * PAGE_SIZE /\ next' <= USER_MMAP_END).
Proof.
  intros [Hr Hs] Hne Hlen. unfold shm_attach. destruct (id_ok id) eqn:Hid; cbn [negb orb]; [specialize (Hlen eq_refl)|done]. destruct (pml4 =? 0); [done|].
  pose proof (id_lookup sh id Hs Hid) as Hg. set (g := segment sh id) in *. destruct (used g) eqn:Hu; [|cbn; done].
  pose proof (so_seg _ Hs) as Hseg. rewrite Forall_lookup in Hseg. destruct (Hseg _ _ Hg Hu) as (S1&S2&S3&S4).
  destruct (Z.eqb_spec (pages g) 0); [lia|]. cbn zeta.
  assert (refs_ok (owned (fold_left (fun s f => vmm_ref_frame f s) (seg_frames g) (vm sh)), fno (seg_frames g) ++ table_refs (segments sh) ++ others)) as Hr1.
  { apply ref_all_spec; [done| |done|done]. intros f Hf. split; [|by apply Hlen]. destruct (concat_fmap_insert seg_refs (segments sh) _ g g Hg) as (rest&P1&_).
    rewrite P1. unfold seg_refs. rewrite Hu. set_solver. }
  set (s1 := fold_left _ (seg_frames g) (vm sh)) in *. unfold SHM_MAX_PAGES in S1.
  assert (u64 (pages g * PAGE_SIZE) = pages g * PAGE_SIZE) as Hsz by (apply u64_small; unfold PAGE_SIZE; lia). rewrite Hsz.
  destruct ((next <? USER_MMAP_END) && (pages g * PAGE_SIZE <=? USER_MMAP_END - next)) eqn:Hroom.
  - pose proof (map_frames_keeps_refs pml4 next (seg_frames g) 0 s1 _ Hr1) as Hr2. pose proof (map_frames_range pml4 next (seg_frames g) 0 s1) as Hm.
    destruct (map_frames pml4 next 0 (seg_frames g) s1) as [mapped s2]. cbn [fst snd] in *. destruct (Z.ltb_spec mapped (pages g)).
    + split; [done|]. split; [|done]. split; [|done]. apply unref_all_spec; [|done]. by apply unmap_pages_keeps_refs.
    + rewrite (proj2 (Z.eqb_neq next 0)) by lia. zbool. split; [done|]. split.
      * split; [|done]. cbn [vm segments]. eapply refs_ok_perm; [|exact Hr2]. rewrite !app_assoc. f_equiv. apply Permutation_app_comm.
      * split; [done|]. split; [done|]. split; [done|]. rewrite u64_small by (unfold USER_MMAP_END, PAGE_SIZE in *; lia). lia.
  - rewrite (proj2 (Z.ltb_lt 0 (pages g))) by lia. split; [done|]. split; [|done]. split; [|done]. apply unref_all_spec; [|done]. by apply unmap_pages_keeps_refs.
Qed.

Lemma shm_remove_refs sh others id : shm_inv sh others ->
  let '(r, sh') := shm_remove id sh in
  shm_inv sh' others /\
  (r = (if id_ok id && used (segment sh id) then 0 else - EINVAL)) /\
  (id_ok id = true -> used (segment sh' id) = false) /\
  (forall j, j <> Z.to_nat id -> segments sh' !! j = segments sh !! j).
Proof.
  intros [Hr Hs]. unfold shm_remove. destruct (id_ok id) eqn:Hid; cbn [negb andb]; [|done].
  pose proof (id_lookup sh id Hs Hid) as Hg. set (g := segment sh id) in *. set (g' := mkSegment false (key g) (owner g) 0 []).
  destruct (concat_fmap_insert seg_refs (segments sh) _ g g' Hg) as (rest&P1&P2). change (seg_refs g') with (@nil Z) in P2. cbn in P2.
  assert (segs_ok (<[Z.to_nat id := g']> (segments sh))) as Hs' by (apply segs_ok_insert; [done|by intros ?|by intros ?]).
  assert (forall s, used (segment (mkShm (<[Z.to_nat id := g']> (segments sh)) s) id) = false) as Hun.
  { intros s. unfold segment. cbn [segments]. rewrite nth_lookup, list_lookup_insert_eq; [done|]. by eapply lookup_lt_Some. }
  destruct (used g) eqn:Hu; cbn [negb].
  - split; [split; [|done]|].
    + cbn [vm segments]. apply unref_all_spec.
      * eapply refs_ok_perm; [|exact Hr]. rewrite P1, P2. unfold seg_refs. rewrite Hu. by rewrite app_assoc.
      * pose proof (so_seg _ Hs) as Hseg. rewrite Forall_lookup in Hseg. by destruct (Hseg _ _ Hg Hu) as (_&_&?&_).
    + split; [done|]. split; [by intros _|]. intros j Hj. cbn. by rewrite list_lookup_insert_ne.
  - split; [split; [|done]|].
    + cbn [vm segments]. eapply refs_ok_perm; [|exact Hr]. rewrite P1, P2. unfold seg_refs. by rewrite Hu.
    + split; [done|]. split; [by intros _|]. intros j Hj. cbn. by rewrite list_lookup_insert_ne.
Qed.

(** What [shm_get] may return for [n] pages, and the state it leaves. *)
Definition get_outcome (sh : shm) (uid k n r : Z) (sh' : shm) : Prop :=
  let unchanged := segments sh' = segments sh /\ forall g, 0 <= g -> owners (owned (vm sh')) g = owners (owned (vm sh)) g in
  (r = - EINVAL /\ unchanged /\
     (n = 0 \/ SHM_MAX_PAGES < n \/ exists g, g ∈ segments sh /\ used g = true /\ key g = k /\ pages g < n)) \/
  (r = - ENOMEM /\ unchanged) \/
  (r = - ENOSPC /\ unchanged /\ Forall (fun g => used g = true /\ key g <> k) (segments sh)) \/
  (0 <= r < SHM_MAX_SEGMENTS /\ unchanged /\ used (segment sh r) = true /\ key (segment sh r) = k /\ n <= pages (segment sh r)) \/
  (0 <= r < SHM_MAX_SEGMENTS /\ used (segment sh r) = false /\ Forall (fun g => used g = true -> key g <> k) (segments sh) /\
     exists fs, segments sh' = <[Z.to_nat r := mkSegment true k uid n fs]> (segments sh) /\ Z.of_nat (length fs) = n /\
       NoDup (fno fs) /\ Forall (zeroed (vm sh')) fs /\
       forall p, p ∈ fs -> owners (owned (vm sh)) (p / PAGE_SIZE) = 0 /\ owners (owned (vm sh')) (p / PAGE_SIZE) = 1).

Lemma shm_get_spec sh others memory uid k size :
  shm_inv sh others -> 0 <= size < 0x10000000000000000 ->
  let '(r, sh') := shm_get memory uid k size sh in
  shm_inv sh' others /\ get_outcome sh uid k ((size + PAGE_SIZE - 1) / PAGE_SIZE) r sh'.
Proof.
  intros Hinv Hsize. set (n := (size + PAGE_SIZE - 1) / PAGE_SIZE). unfold shm_get, get_outcome. set (n' := u64 (size + PAGE_SIZE - 1) / PAGE_SIZE).
  assert ((size = 0 \/ n' = 0 \/ SHM_MAX_PAGES < n') <-> (n = 0 \/ SHM_MAX_PAGES < n)) as Hn.
  { unfold n, n', u64, SHM_MAX_PAGES, PAGE_SIZE. zlia. }
  destruct ((size =? 0) || (n' =? 0) || (SHM_MAX_PAGES <? n')) eqn:Hbad.
  { split; [done|]. left. split; [done|]. split; [done|]. rewrite !orb_true_iff, !Z.eqb_eq, Z.ltb_lt in Hbad. assert (n = 0 \/ SHM_MAX_PAGES < n) as [?|?] by (apply Hn; tauto); auto. }
  assert (n' = n /\ 1 <= n <= SHM_MAX_PAGES) as [-> Hn1] by (zbool; unfold n, n', u64, SHM_MAX_PAGES, PAGE_SIZE in *; zlia).
  destruct memory; cbn [negb]; [|split; [done|]; right; left; done].
  destruct Hinv as [Hr Hs]. pose proof (take_frames_spec (Z.to_nat n) [] (vm sh) _ Hr) as HT. pose proof (take_frames_zeroed (Z.to_nat n) [] (vm sh)) as HZ.
  destruct (take_frames (Z.to_nat n) [] (vm sh)) as [[fs|] s].
  - destruct HT as (new&E&Hl&T1&T2&T3&T4); [split; [constructor|set_solver|constructor]|]. cbn in E. subst new. specialize (HZ ltac:(constructor)).
    pose proof (shm_enter_spec sh others s uid k n fs ltac:(done) Hn1 ltac:(lia) T1 T2) as HE.
    destruct (enter_segment uid k n fs (segments sh)) as [[r l] new]. cbn zeta in HE. destruct HE as [HI HE]. split; [done|]. cbn [segments vm].
    destruct new.
    + destruct HE as (E1&E2&E3&E4). do 4 right. split; [done|]. split; [done|]. split; [done|]. exists fs.
      split_and!; [done|lia|by apply (fresh_nodup _ _ T2)|done|]. intros p Hp. assert (p / PAGE_SIZE ∈ fno fs) as Hpf by (by apply (list_elem_of_fmap_2 (fun p => p / PAGE_SIZE))).
      split; [by apply T4|]. destruct (proj2 T1 (p / PAGE_SIZE)) as [_ Ho]; [set_solver|]. cbn in Ho. rewrite Ho.
      apply refs_once; [apply (fresh_nodup _ _ T2)|done|by apply (fresh_held _ _ T2)].
    + destruct HE as (->&E2&E3&E4). set (s' := fold_left _ fs s) in *.
      assert (forall g, 0 <= g -> owners (owned s') g = owners (owned (vm sh)) g) as Hsame.
      { intros g Hg. destruct (decide (g ∈ fno fs)) as [Hin|Hin]; [by rewrite E3, T4|]. by rewrite E2, T3. }
      destruct E4 as [(?&?&?&?)|[(->&?)|(->&?)]]; [right; right; right; left|left|right; right; left]; split_and!; try done; [lia|lia|]. by right; right.
  - destruct HT as (T1&T2&T3); [split; [constructor|set_solver|constructor]|]. split; [by split|]. right. left. split; [done|]. split; [done|].
    intros g Hg. cbn. apply T2; [done|]. set_solver.
Qed.


Lemma shm_get_inv sh others memory uid k size :
  shm_inv sh others -> 0 <= size < 0x10000000000000000 -> shm_inv (shm_get memory uid k size sh).2 others.
Proof. intros H1 H2. pose proof (shm_get_spec sh others memory uid k size H1 H2) as H. cbn zeta in H. destruct (shm_get _ _ _ _ _). by destruct H as [H _]. Qed.

Lemma shm_static_inv s : cow_ok (owned s) -> shm_inv (shm_static s) [].
Proof.
  intros Hc. split; [split; [done|]; cbn; set_solver|]. split; [done|by apply Forall_replicate|].
  intros i j g g' Hi _ Hu. apply lookup_replicate in Hi as [-> _]. done.
Qed.

(** * Properties *)

(** [shm_get] finds or creates. It returns the segment with the key if that is
    large enough, and otherwise makes one of fresh zeroed frames that belong to it
    alone; two segments never have the same key. When it fails (size 0, too large
    or larger than the segment, a table without room, no memory) and when it finds
    a segment, every frame it took has gone back: no frame has more or fewer
    owners than before. *)
Theorem shm_get_correct sh others memory uid k size :
  shm_inv sh others -> 0 <= size < 0x10000000000000000 ->
  let '(r, sh') := shm_get memory uid k size sh in
  shm_inv sh' others /\ get_outcome sh uid k ((size + PAGE_SIZE - 1) / PAGE_SIZE) r sh'.
Proof. apply shm_get_spec. Qed.

(** ** Examples: the machine of [Cow], with 1 MB of memory. *)

Notation example_vm := (mkVmm small_cow slots_static (fun _ => 0) 0 DEVICE_REGION_BASE).
Notation example_shm := (shm_get true 1000 7 5000 (shm_static example_vm)).

Lemma shm_get_correct_witness : example_shm.1 = 0 /\ shm_inv example_shm.2 [].
Proof.
  split; [vm_compute; reflexivity|].
  pose proof (shm_get_correct (shm_static example_vm) [] true 1000 7 5000 (shm_static_inv example_vm small_cow_ok) ltac:(lia)) as H.
  destruct example_shm as [r sh']. exact (proj1 H).
Defined.
