(* ===== verification/ShmMaps.v ===== *)
(** Shared memory and the page tables: what attaching a segment maps, and that the frames of
    segments and of their mappings live as long as anybody has them. *)
From stdpp Require Import base tactics numbers list sets gmap relations.
From Stdlib Require Import ZArith Lia.
From S2P Require Import Prelude Errno Pmm Cow SwapSlots Vmm VmmInv VmmProps VmmSwap Swap Mmap Shm.

Open Scope Z_scope.

(** * The references of pages *)

Definition frame_in (w : location) : list Z := match w with InFrame f => [f] | _ => [] end.
(** The frames that pages are in, each as often as there are pages in it. *)
Definition page_refs (pg : gmap (Z * Z) location) : list Z := concat ((fun kw => frame_in kw.2) <$> map_to_list pg).


Lemma page_refs_insert pg k w : pg !! k = None -> page_refs (<[k := w]> pg) ≡ₚ frame_in w ++ page_refs pg.
Proof. intros Hk. unfold page_refs. by rewrite map_to_list_insert. Qed.

Lemma refs_page_refs pg f : refs (page_refs pg) f = uses pg (InFrame f).
Proof.
  induction pg as [|k w pg Hk IH] using map_ind; [by unfold page_refs, uses; rewrite map_to_list_empty, map_filter_empty, map_size_empty|].
  rewrite (refs_perm _ _ f (page_refs_insert pg k w Hk)), refs_app, IH, uses_insert. rewrite (decide_False (P := pg !! k = _)) by (by rewrite Hk).
  destruct w as [g|g|j]; cbn [frame_in]; rewrite ?refs_cons, ?refs_nil; [|rewrite decide_False by done; lia..].
  destruct (Z.eqb_spec f g) as [->|Hne]; [rewrite decide_True by done|rewrite decide_False by congruence]; lia.
Qed.

Lemma elem_page_refs pg f : f ∈ page_refs pg <-> exists k, pg !! k = Some (InFrame f).
Proof.
  split.
  - intros Hf%refs_pos. rewrite refs_page_refs in Hf. unfold uses in Hf. destruct (map_choose (filter (fun kv => kv.2 = InFrame f) pg)) as (k&w&Hk).
    { intros E. rewrite E, map_size_empty in Hf. lia. }
    apply map_lookup_filter_Some in Hk as [Hk E]. cbn in E. subst w. by exists k.
  - intros [k Hk]. destruct (decide (f ∈ page_refs pg)) as [|Hn]; [done|]. apply refs_zero in Hn. rewrite refs_page_refs in Hn. pose proof (uses_pos pg k _ Hk). lia.
Qed.

(** Lists that count alike are as good. *)
Lemma refs_elem (l : list Z) f : f ∈ l <-> 1 <= refs l f.
Proof. split; [apply refs_pos|]. intros H. destruct (decide (f ∈ l)) as [|Hn]; [done|]. rewrite (refs_zero l f Hn) in H. lia. Qed.
Lemma refs_ok_counts c h h' : (forall f, 0 <= f -> refs h' f = refs h f) -> (forall f, f ∈ h' -> 0 <= f) -> refs_ok (c, h) -> refs_ok (c, h').
Proof.
  intros Hc Hp [H1 H2]. split; [done|]. cbn in *. intros f Hf. specialize (Hc f (Hp f Hf)). rewrite Hc. apply H2, refs_elem. rewrite <- Hc. by apply refs_pos.
Qed.

(** * What leaves the page tables alone *)

Record kept (pl : gmap Z place) (s s' : vmm) : Prop := {
  kp_tables : tables s' pl;
  kp_ptes : same_ptes pl s s';
  kp_setup : hhdm s' = hhdm s /\ total_frames (frames (owned s')) = total_frames (frames (owned s)) /\ swap_slots s' = swap_slots s }.

Lemma kept_refl pl s : tables s pl -> kept pl s s.
Proof. by split. Qed.
Lemma pages_kept_trans pl s s1 s2 : kept pl s s1 -> kept pl s1 s2 -> kept pl s s2.
Proof.
  intros [A1 A2 (A3&A4&A5)] [B1 B2 (B3&B4&B5)]. split; [done| |split_and!; congruence]. intros r x Hr. by rewrite B2, A2.
Qed.
Lemma ram_same_ptes pl s s' : tables s pl -> ram s' = ram s -> hhdm s' = hhdm s -> same_ptes pl s s'.
Proof. intros Ht E Hh r x Hr. destruct (table_addr _ _ _ _ Ht Hr). by apply pte_ext; [lia|..]. Qed.

Definition no_table (pl : gmap Z place) (s : vmm) (f : Z) : Prop := pl !! (f * PAGE_SIZE + hhdm s) = None.

Lemma unref_kept pl s f : tables s pl -> 1 <= f < total_frames (frames (owned s)) -> f ∉ abs (frames (owned s)) -> no_table pl s f ->
  kept pl s (vmm_unref_frame (f * PAGE_SIZE) s).
Proof.
  intros Ht Hf Hu Hn. destruct (unref_frame_spec (owned s) f (tb_cow _ _ Ht) Hf Hu) as (_&A2&_). assert (hhdm (vmm_unref_frame (f * PAGE_SIZE) s) = hhdm s) as Hh by apply unref_hhdm.
  split; [by apply unref_tables|by apply ram_same_ptes|done].
Qed.

Lemma ref_kept pl s f : tables s pl -> 0 <= f < total_frames (frames (owned s)) -> f ∉ abs (frames (owned s)) -> owners (owned s) f < 0x10000 ->
  kept pl s (vmm_ref_frame (f * PAGE_SIZE) s).
Proof.
  intros Ht Hf Hu Ho. destruct (ref_frame_spec (owned s) f (tb_cow _ _ Ht) Hf Hu Ho) as (A1&A2&_). set (s' := vmm_ref_frame (f * PAGE_SIZE) s).
  change (pmm_ref_frame (f * PAGE_SIZE) (owned s)) with (owned s') in *. assert (hhdm s' = hhdm s) as Hh by (unfold hhdm; by rewrite A2).
  assert (forall t i, below s' t i = below s t i) as Hb by (intros; unfold below; by rewrite Hh).
  split; [|by apply ram_same_ptes|by rewrite A2]. destruct Ht as [B1 B2 B3 B4 B5 B6]. split; rewrite ?Hh, ?A2; try done.
  - intros t p Hp. destruct (B1 t p Hp) as (g&[-> Hg]&Hng). exists g. split; [split; [by rewrite Hh|by rewrite A2]|done].
  - intros t p i. rewrite Hb. apply B3.
Qed.

(** References that a list of frames has are dropped, or taken. *)
Lemma unref_all_kept pl fs : forall s h, tables s pl -> refs_ok (owned s, fno fs ++ h) -> aligned fs -> (forall f, f ∈ fno fs -> no_table pl s f) ->
  kept pl s (fold_left (fun s f => vmm_unref_frame f s) fs s).
Proof.
  induction fs as [|p fs IH]; intros s h Ht Hr Ha Hn; [by apply kept_refl|]. apply Forall_cons in Ha as [Hp Ha]. cbn [fold_left].
  destruct (refs_ok_owned _ _ (p / PAGE_SIZE) Hr) as (F1&_&F3); [set_solver|]. assert (kept pl s (vmm_unref_frame p s)) as K.
  { rewrite Hp. apply unref_kept; [done|done|done|apply Hn; set_solver]. }
  eapply pages_kept_trans; [exact K|]. destruct (refs_drop (owned s) (p / PAGE_SIZE) (fno fs ++ h) Hr) as (D&_). cbn zeta in D. rewrite <- Hp in D.
  apply (IH _ h); [apply K|done|done|]. intros f Hf. unfold no_table. rewrite (proj1 (kp_setup _ _ _ K)). apply Hn. set_solver.
Qed.
Lemma ref_all_kept pl fs : forall s h, tables s pl -> refs_ok (owned s, h) -> (forall f, f ∈ fno fs -> f ∈ h /\ refs h f < 0x10000) -> aligned fs -> NoDup (fno fs) ->
  kept pl s (fold_left (fun s f => vmm_ref_frame f s) fs s).
Proof.
  induction fs as [|p fs IH]; intros s h Ht Hr Hin Ha Hnd; [by apply kept_refl|]. apply Forall_cons in Ha as [Hp Ha]. cbn [fold_left fno fmap list_fmap] in *. apply NoDup_cons in Hnd as [Hnp Hnd].
  destruct (Hin (p / PAGE_SIZE)) as [Hf Hlt]; [set_solver|]. destruct (refs_ok_owned _ _ _ Hr Hf) as (F1&_&F3). destruct (proj2 Hr _ Hf) as [_ Ho]. cbn in Ho.
  assert (kept pl s (vmm_ref_frame p s)) as K by (rewrite Hp; apply ref_kept; [done|lia|done|lia]). eapply pages_kept_trans; [exact K|].
  destruct (refs_add (owned s) (p / PAGE_SIZE) h Hr Hf ltac:(lia)) as (A1&_). cbn zeta in A1. rewrite <- Hp in A1.
  apply (IH _ (p / PAGE_SIZE :: h)); [apply K|done| |done|done]. intros f Hff. destruct (Hin f) as [? ?]; [set_solver|]. split; [set_solver|]. rewrite refs_cons.
  destruct (Z.eqb_spec f (p / PAGE_SIZE)) as [->|]; [by destruct Hnp|lia].
Qed.
Lemma free_all_kept pl fs : forall s h, tables s pl -> refs_ok (owned s, fno fs ++ h) -> fresh fs h -> (forall f, f ∈ fno fs -> no_table pl s f) ->
  kept pl s (fold_left (fun s f => vmm_free_frame f s) fs s).
Proof.
  intros s h Ht Hr Hf Hn. assert (fold_left (fun s f => vmm_free_frame f s) fs s = fold_left (fun s f => vmm_unref_frame f s) fs s) as ->; [|by apply (unref_all_kept pl fs s h); [..|apply Hf|]].
  clear Hn Ht. revert s Hr. induction fs as [|p fs IH]; intros s Hr; [done|]. destruct Hf as [F1 F2 F3]. apply Forall_cons in F3 as [Hp F3]. cbn [fno fmap list_fmap] in *. apply NoDup_cons in F1 as [Hnp F1].
  cbn [fold_left]. destruct (refs_ok_owned _ _ (p / PAGE_SIZE) Hr) as (R1&_&_); [set_solver|].
  assert (owners (owned s) (p / PAGE_SIZE) = 1) as Ho.
  { destruct (proj2 Hr (p / PAGE_SIZE)) as [_ Ho]; [set_solver|]. cbn [fst snd] in Ho. rewrite Ho. apply (refs_once (p / PAGE_SIZE :: fno fs)); [by constructor|set_solver|apply F2; set_solver]. }
  assert (vmm_free_frame p s = vmm_unref_frame p s) as ->.
  { unfold vmm_free_frame, vmm_unref_frame. rewrite Hp. by rewrite free_is_unref by (done || apply (proj1 Hr)). }
  apply IH; [split; [done|intros; apply F2; set_solver|done]|]. destruct (refs_drop (owned s) (p / PAGE_SIZE) (fno fs ++ h) Hr) as (D&_). cbn zeta in D. by rewrite <- Hp in D.
Qed.

(** ** Getting *)

Lemma frame_of_addr f : f * PAGE_SIZE / PAGE_SIZE = f.
Proof. unfold PAGE_SIZE. zlia. Qed.

(** A free frame is taken and filled. *)
Lemma alloc_fill_kept pl s p s1 : tables s pl -> vmm_alloc_frame s = (p, s1) ->
  kept pl s s1 /\ (p <> 0 -> no_table pl s (p / PAGE_SIZE) /\ kept pl s (set_ram s1 (fill_page (ram s1) (u64 (p + hhdm s1)) 0))).
Proof.
  intros Ht Ea. pose proof (alloc_tables s pl Ht) as HA. rewrite Ea in HA. destruct HA as (A1&(A2&_&A3&A4&_)&_&A5&A6).
  assert (kept pl s s1) as K by (split; [done|by apply ram_same_ptes|done]). split; [done|]. intros Hne. destruct A6 as [|(f&->&[_ Hf]&_&_&Hn)]; [done|]. rewrite frame_of_addr. split; [done|].
  pose proof (tb_hhdm _ _ Ht) as (Hh1&Hh2&Hh3). rewrite A2, u64_small by (unfold PAGE_SIZE in *; lia).
  destruct (data_tables s1 pl (f * PAGE_SIZE + hhdm s) (fill_page (ram s1) (f * PAGE_SIZE + hhdm s) 0) A1) as (T2&V2&_);
    [unfold PAGE_SIZE in *; zlia|done|intros y Hy; by apply fill_other|].
  eapply pages_kept_trans; [exact K|]. split; [done| |done]. intros r x Hr. by apply (same_view_pte s1 _ pl).
Qed.

Lemma take_frames_kept pl n : forall got s h, tables s pl -> refs_ok (owned s, fno got ++ h) -> fresh got h -> (forall f, f ∈ fno got -> no_table pl s f) ->
  let '(r, s') := take_frames n got s in
  kept pl s s' /\ match r with Some fs => forall f, f ∈ fno fs -> no_table pl s' f | None => True end.
Proof.
  induction n as [|n IH]; intros got s h Ht Hr Hf Hn; cbn [take_frames]; [split; [by apply kept_refl|done]|].
  destruct (vmm_alloc_frame s) as [p s1] eqn:Ea. destruct (alloc_fill_kept pl s p s1 Ht Ea) as [K1 K2]. unfold vmm_alloc_frame in Ea. destruct (alloc_frame (owned s)) as [p' c'] eqn:Ec. injection Ea as -> <-.
  assert (forall f, f ∈ fno got -> no_table pl (set_owned s c') f) as Hn1 by (intros f Hff; unfold no_table; rewrite (proj1 (kp_setup _ _ _ K1)); by apply Hn).
  destruct (Z.eqb_spec p 0) as [->|Hne].
  - split; [|done]. eapply pages_kept_trans; [exact K1|]. rewrite fold_right_free. assert (reverse got ≡ₚ got) as Hp by (rewrite reverse_Permutation; done). pose proof (refs_ok_alloc _ _ _ _ Hr Ec) as Hr'.
    apply (free_all_kept pl _ _ h); [apply K1|eapply refs_ok_perm; [|exact Hr']; unfold fno; by rewrite Hp|by eapply fresh_perm; [symmetry|]|].
    intros f. unfold fno. rewrite Hp. apply Hn1.
  - destruct (K2 Hne) as [Hnp K]. destruct (shm_take_one got s h p c' Hr Hf Ec Hne) as [Hr1 Hf1]. set (s2 := set_ram _ _) in *.
    specialize (IH (got ++ [p]) s2 h (kp_tables _ _ _ K) Hr1 Hf1). destruct (take_frames n (got ++ [p]) s2) as [r s']. destruct IH as [I1 I2]; [|split; [by eapply pages_kept_trans|done]].
    intros f. unfold fno. rewrite fmap_app, elem_of_app. cbn. rewrite list_elem_of_singleton. unfold no_table. rewrite (proj1 (kp_setup _ _ _ K)). intros [?| ->]; [by apply Hn|done].
Qed.

Lemma enter_frames uid k n fs l : let '(_, l', new) := enter_segment uid k n fs l in
  if new : bool then forall f, f ∈ table_refs l' -> f ∈ fno fs \/ f ∈ table_refs l else l' = l.
Proof.
  unfold enter_segment. destruct (find_key k l 0 (-1)) as [i|i]; [done|]. destruct (0 <=? i); [|done]. intros f Hf.
  destruct (l !! Z.to_nat i) as [g|] eqn:Hg; [|rewrite list_insert_ge in Hf; [by right|by apply lookup_ge_None_1]].
  destruct (concat_fmap_insert seg_refs l _ g (mkSegment true k uid n fs) Hg) as (rest&P1&P2). unfold table_refs in *. rewrite P2 in Hf. rewrite P1. cbn in Hf. set_solver.
Qed.

Lemma shm_get_kept pl memory uid k size sh others : tables (vm sh) pl -> shm_inv sh others -> (forall f, f ∈ table_refs (segments sh) -> no_table pl (vm sh) f) ->
  let sh' := (shm_get memory uid k size sh).2 in
  kept pl (vm sh) (vm sh') /\ forall f, f ∈ table_refs (segments sh') -> no_table pl (vm sh') f.
Proof.
  intros Ht [Hr Hs] Hn. unfold shm_get. set (n := _ / PAGE_SIZE). assert (kept pl (vm sh) (vm sh)) as K0 by by apply kept_refl. destruct (_ || _); [done|]. destruct memory; [|done]. cbn [negb].
  assert (fresh [] (table_refs (segments sh) ++ others)) as Hf0 by (split; [constructor|set_solver|constructor]).
  pose proof (take_frames_kept pl (Z.to_nat n) [] (vm sh) _ Ht Hr Hf0 ltac:(set_solver)) as HT. pose proof (take_frames_spec (Z.to_nat n) [] (vm sh) _ Hr Hf0) as HS.
  destruct (take_frames (Z.to_nat n) [] (vm sh)) as [[fs|] s]; destruct HT as [K1 Hfs].
  2:{ cbn. split; [done|]. unfold no_table. by rewrite (proj1 (kp_setup _ _ _ K1)). }
  assert (forall f, f ∈ table_refs (segments sh) -> no_table pl s f) as Hn1 by (unfold no_table; by rewrite (proj1 (kp_setup _ _ _ K1))).
  destruct HS as (new&_&_&T1&T2&_). pose proof (enter_frames uid k n fs (segments sh)) as HE. destruct (enter_segment uid k n fs (segments sh)) as [[r l] b]. cbn [snd vm segments]. destruct b.
  - split; [done|]. intros f Hf. destruct (HE f Hf); auto.
  - subst l. assert (kept pl s (fold_left (fun s f => vmm_free_frame f s) fs s)) as K2 by (eapply free_all_kept; [apply K1|exact T1|done|done]).
    split; [by eapply pages_kept_trans|]. intros f Hf. unfold no_table. rewrite (proj1 (kp_setup _ _ _ K2)). by apply Hn1.
Qed.

(** ** Attaching *)

(** Tables may have been added, and nothing in use was touched. *)
Record grown (pl pl' : gmap Z place) (s s' : vmm) : Prop := {
  gr_tables : tables s' pl';
  gr_sub : pl ⊆ pl';
  gr_used : stay_used s s';
  gr_fresh : fresh_only s pl pl';
  gr_slots : swap_slots s' = swap_slots s }.
Lemma grown_refl pl s : tables s pl -> grown pl pl s s.
Proof. split; [done|done|done|by intros k|done]. Qed.
Lemma grown_trans pl pl1 pl2 s s1 s2 : grown pl pl1 s s1 -> grown pl1 pl2 s1 s2 -> grown pl pl2 s s2.
Proof. intros [A1 A2 A3 A4 A5] [B1 B2 B3 B4 B5]. split; [done|by etrans|by eapply stay_used_trans|by eapply fresh_only_trans|congruence]. Qed.

(** The pages [addr + i * PAGE_SIZE] of [root], [a <= i < b]. *)
Definition in_pages (root addr a b r x : Z) : Prop := r = root /\ addr + a * PAGE_SIZE <= x < addr + b * PAGE_SIZE.
(** Only they have changed. *)
Definition only_pages (pl : gmap Z place) (root addr a b : Z) (s s' : vmm) : Prop :=
  forall r x, is_root pl r -> 0 <= x < USER_SPACE_END -> x mod PAGE_SIZE = 0 -> ~ in_pages root addr a b r x -> vmm_get_pte s' r x = vmm_get_pte s r x.

Definition shared_entry (p : Z) : Z := Z.lor (Z.lor p SHM_FLAGS) VMM_PRESENT.

Lemma page_at addr i : 0 <= addr -> addr mod PAGE_SIZE = 0 -> 0 <= i -> addr + (i + 1) * PAGE_SIZE <= Shm.USER_MMAP_END ->
  u64 (addr + i * PAGE_SIZE) = addr + i * PAGE_SIZE /\ 0 <= addr + i * PAGE_SIZE < USER_SPACE_END /\ (addr + i * PAGE_SIZE) mod PAGE_SIZE = 0.
Proof. unfold Shm.USER_MMAP_END, USER_SPACE_END, PAGE_SIZE. intros. split; [apply u64_small; lia|]. split; [lia|zlia]. Qed.
(** Another page is not in the same entry. *)
Lemma other_page pl root x r y : is_root pl root -> is_root pl r -> 0 <= x < USER_SPACE_END -> x mod PAGE_SIZE = 0 -> 0 <= y < USER_SPACE_END -> y mod PAGE_SIZE = 0 ->
  ~ (r = root /\ y = x) -> ~ same_slot root x r y.
Proof. intros Hr Hr' Hx Hxa Hy Hya Hne. apply (user_slots pl); try done. intros [= -> ->]. by apply Hne. Qed.

Lemma map_frames_spec root addr fs : forall mapped s pl, tables s pl -> is_root pl root -> 0 <= mapped -> 0 <= addr -> addr mod PAGE_SIZE = 0 ->
  addr + (mapped + Z.of_nat (length fs)) * PAGE_SIZE <= Shm.USER_MMAP_END -> Forall (fun p => Z.land p PTE_ADDR_MASK = p) fs ->
  let '(m, s') := map_frames root addr mapped fs s in
  exists pl', grown pl pl' s s' /\ mapped <= m <= mapped + Z.of_nat (length fs) /\
    (forall i p, mapped <= i < m -> fs !! Z.to_nat (i - mapped) = Some p -> vmm_get_pte s' root (addr + i * PAGE_SIZE) = shared_entry p) /\
    only_pages pl root addr mapped m s s'.
Proof.
  induction fs as [|p fs IH]; intros mapped s pl Ht Hr Hm Ha Haa Hroom Hfs; cbn [map_frames length] in *; [exists pl; split; [by apply grown_refl|]; split; [lia|]; split; [lia|by intros r x]|].
  apply Forall_cons in Hfs as [Hp Hfs]. destruct (page_at addr mapped Ha Haa Hm ltac:(unfold PAGE_SIZE in *; lia)) as (->&Hx&Hxa). set (x := addr + mapped * PAGE_SIZE) in *.
  pose proof (map_page_spec s pl root x p SHM_FLAGS Ht Hr) as HM. destruct (vmm_map_page s root x p SHM_FLAGS) as [ok s1].
  destruct HM as (pl1&T1&Sub1&(_&_&_&Sl1&_)&St1&Fr1&Hok&Hoth). assert (grown pl pl1 s s1) as G1 by by split.
  destruct ok.
  - specialize (Hok eq_refl). rewrite Hp in Hok. pose proof (pl_root_weaken _ _ _ Sub1 Hr) as Hr1.
    specialize (IH (mapped + 1) s1 pl1 T1 Hr1 ltac:(lia) Ha Haa ltac:(lia) Hfs). destruct (map_frames root addr (mapped + 1) fs s1) as [m s']. destruct IH as (pl2&G2&Hmr&Hin&Hout).
    exists pl2. split; [by eapply grown_trans|]. split; [lia|]. split.
    + intros i q Hi Hq. destruct (decide (i = mapped)) as [->|Hne].
      * rewrite Z.sub_diag in Hq. cbn in Hq. injection Hq as <-. fold x. rewrite Hout; [done|done|done|done|]. unfold in_pages, x, PAGE_SIZE. lia.
      * apply Hin; [lia|]. replace (Z.to_nat (i - mapped)) with (S (Z.to_nat (i - (mapped + 1)))) in Hq by lia. done.
    + intros r y Hr' Hy Hya Hnot. rewrite Hout; [|by eapply pl_root_weaken|done|done|unfold in_pages, PAGE_SIZE in *; lia].
      apply Hoth; [done|]. right. apply (other_page pl); try done. intros [-> ->]. apply Hnot. unfold in_pages, x, PAGE_SIZE. lia.
  - exists pl1. split; [done|]. split; [lia|]. split; [lia|]. intros r y Hr' Hy Hya _. apply Hoth; [done|by left].
Qed.

Lemma unmap_pages_spec pl root addr n : forall a s, tables s pl -> is_root pl root -> 0 <= addr -> addr mod PAGE_SIZE = 0 ->
  addr + (Z.of_nat a + Z.of_nat n) * PAGE_SIZE <= Shm.USER_MMAP_END ->
  (forall i, Z.of_nat a <= i < Z.of_nat a + Z.of_nat n -> has (vmm_get_pte s root (addr + i * PAGE_SIZE)) VMM_PRESENT = true) ->
  let s' := fold_left (fun s i => (vmm_unmap_page s root (u64 (addr + Z.of_nat i * PAGE_SIZE))).2) (seq a n) s in
  tables s' pl /\ owned s' = owned s /\ swap_slots s' = swap_slots s /\
  (forall i, Z.of_nat a <= i < Z.of_nat a + Z.of_nat n -> vmm_get_pte s' root (addr + i * PAGE_SIZE) = 0) /\
  only_pages pl root addr (Z.of_nat a) (Z.of_nat a + Z.of_nat n) s s'.
Proof.
  induction n as [|n IH]; intros a s Ht Hr Ha Haa Hroom Hpr; cbn [seq fold_left]; [split_and!; try done; lia|].
  destruct (page_at addr (Z.of_nat a) Ha Haa ltac:(lia) ltac:(unfold PAGE_SIZE in *; lia)) as (->&Hx&Hxa). set (x := addr + Z.of_nat a * PAGE_SIZE) in *.
  destruct (unmap_present pl s root x Ht Hr (Hpr (Z.of_nat a) ltac:(lia))) as [Hpt ->]. destruct (clear_entry_ok pl s root x Ht Hr Hx Hxa Hpt) as [[O1 O2 _ _] E0].
  set (s1 := set_entry s _ _ 0) in *.
  assert (forall i, Z.of_nat (S a) <= i < Z.of_nat (S a) + Z.of_nat n -> vmm_get_pte s1 root (addr + i * PAGE_SIZE) = vmm_get_pte s root (addr + i * PAGE_SIZE)) as Hlater.
  { intros i Hi. destruct (page_at addr i Ha Haa ltac:(lia) ltac:(unfold PAGE_SIZE in *; lia)) as (_&Hy&Hya). apply O2; try done. unfold x. intros [= E]. unfold PAGE_SIZE in E. lia. }
  destruct (IH (S a) s1 O1 Hr Ha Haa ltac:(lia)) as (I1&I2&I3&I4&I5); [intros i Hi; rewrite Hlater by done; apply Hpr; lia|].
  set (s2 := fold_left _ (seq (S a) n) s1) in *. split_and!; try done.
  - intros i Hi. destruct (decide (i = Z.of_nat a)) as [->|Hne]; [|apply I4; lia]. fold x. rewrite I5; [done|done|done|done|]. unfold in_pages, x, PAGE_SIZE. lia.
  - intros r y Hr' Hy Hya Hnot. rewrite I5; [|done..|unfold in_pages, PAGE_SIZE in *; lia]. apply O2; try done. intros [= -> ->]. apply Hnot. unfold in_pages, x, PAGE_SIZE. lia.
Qed.

Lemma shared_present p : has (shared_entry p) VMM_PRESENT = true.
Proof. unfold shared_entry. rewrite has_lor_l. change (has VMM_PRESENT VMM_PRESENT) with true. apply orb_true_r. Qed.

Lemma seg_masked pl s h fs : tables s pl -> refs_ok (owned s, h) -> (forall f, f ∈ fno fs -> f ∈ h) -> aligned fs -> Forall (fun p => Z.land p PTE_ADDR_MASK = p) fs.
Proof.
  intros Ht Hr Hin Ha. unfold aligned in Ha. rewrite Forall_forall in Ha |- *. intros p Hp. rewrite (Ha p Hp). apply frame_masked.
  destruct (refs_ok_owned _ _ (p / PAGE_SIZE) Hr) as (F1&_); [apply Hin; by apply (list_elem_of_fmap_2 (fun p => p / PAGE_SIZE))|]. pose proof (tb_phys _ _ Ht). lia.
Qed.

(** What [shm_attach] leaves in the page tables. *)
Definition attached (rs : gset Z) (root next : Z) (g : shm_segment_t) (s s' : vmm) : Prop :=
  (forall i p, seg_frames g !! i = Some p -> vmm_get_pte s' root (next + Z.of_nat i * PAGE_SIZE) = shared_entry p) /\
  (forall r x, r ∈ rs -> 0 <= x < USER_SPACE_END -> x mod PAGE_SIZE = 0 -> ~ in_pages root next 0 (pages g) r x -> vmm_get_pte s' r x = vmm_get_pte s r x).

(** The tables may have grown, but not into the frames of [h]. *)
Record moved (pl pl' : gmap Z place) (h : list Z) (s s' : vmm) : Prop := {
  mv_tables : tables s' pl';
  mv_sub : pl ⊆ pl';
  mv_setup : hhdm s' = hhdm s /\ total_frames (frames (owned s')) = total_frames (frames (owned s)) /\ swap_slots s' = swap_slots s;
  mv_data : forall f, f ∈ h -> no_table pl s f -> no_table pl' s' f }.
Lemma kept_moved pl h s s' : kept pl s s' -> moved pl pl h s s'.
Proof. intros [K1 _ K3]. split; [done|done|done|]. intros f _. unfold no_table. by rewrite (proj1 K3). Qed.
Lemma moved_trans pl pl1 pl2 h s s1 s2 : moved pl pl1 h s s1 -> moved pl1 pl2 h s1 s2 -> moved pl pl2 h s s2.
Proof. intros [A1 A2 (A3&A4&A5) A6] [B1 B2 (B3&B4&B5) B6]. split; [done|by etrans|split_and!; congruence|auto]. Qed.
Lemma grown_moved pl pl' h h' s s' : (forall f, f ∈ h -> f ∈ h') -> refs_ok (owned s, h') -> grown pl pl' s s' -> moved pl pl' h s s'.
Proof.
  intros Hin Hr [G1 G2 (G3&G4&_) G5 G6]. split; [done|done|done|]. intros f Hf Hn. destruct (refs_ok_owned _ _ f Hr (Hin f Hf)) as (F1&_&F3). unfold no_table. rewrite G4. by apply G5; [lia|..].
Qed.
Lemma cleared_moved pl h s s' : tables s' pl -> owned s' = owned s -> swap_slots s' = swap_slots s -> moved pl pl h s s'.
Proof. intros Ht Eo Es. pose proof (hhdm_owned s s' Eo) as Hh. split; [done|done|by rewrite Hh, Eo|]. intros f _. unfold no_table. by rewrite Hh. Qed.

Lemma seg_in_table sh others id f : shm_inv sh others -> id_ok id = true -> used (segment sh id) = true -> f ∈ fno (seg_frames (segment sh id)) -> f ∈ table_refs (segments sh).
Proof.
  intros I Hid Hu Hf. pose proof (id_lookup sh id (si_segs _ _ I) Hid) as Hg. destruct (concat_fmap_insert seg_refs (segments sh) _ _ (segment sh id) Hg) as (rest&P1&_).
  unfold table_refs. rewrite P1. unfold seg_refs. rewrite Hu. apply elem_of_app. by left.
Qed.
Lemma seg_facts sh others id : shm_inv sh others -> id_ok id = true -> used (segment sh id) = true ->
  let g := segment sh id in 1 <= pages g <= SHM_MAX_PAGES /\ Z.of_nat (length (seg_frames g)) = pages g /\ aligned (seg_frames g) /\ NoDup (fno (seg_frames g)).
Proof. intros I Hid Hu. pose proof (so_seg _ (si_segs _ _ I)) as Hs. rewrite Forall_lookup in Hs. by apply (Hs _ _ (id_lookup sh id (si_segs _ _ I) Hid)). Qed.

Section attach.
  Context (pl : gmap Z place) (sh : shm) (others : list Z) (id root next : Z).
  Notation g := (segment sh id).
  Notation h := (table_refs (segments sh) ++ others).
  Hypothesis Hinv : shm_inv sh others.
  Hypothesis Ht : tables (vm sh) pl.
  Hypothesis Hroot : is_root pl root.
  Hypothesis Hnext : 0 < next.
  Hypothesis Hal : next mod PAGE_SIZE = 0.
  Hypothesis Hfew : id_ok id = true -> used g = true -> forall f, f ∈ fno (seg_frames g) -> refs h f < 0x10000.
  Hypothesis Hdata : forall f, f ∈ table_refs (segments sh) -> no_table pl (vm sh) f.

(** The references are taken. *)
Definition with_refs : vmm := fold_left (fun s f => vmm_ref_frame f s) (seg_frames g) (vm sh).
Lemma with_refs_ok : id_ok id = true -> used g = true -> refs_ok (owned with_refs, fno (seg_frames g) ++ h) /\ kept pl (vm sh) with_refs.
Proof.
  intros Hid Hu. destruct (seg_facts sh others id Hinv Hid Hu) as (_&_&S3&S4). assert (forall f, f ∈ fno (seg_frames g) -> f ∈ h /\ refs h f < 0x10000) as Hin.
  { intros f Hf. split; [|by apply (Hfew Hid Hu)]. pose proof (seg_in_table sh others id f Hinv Hid Hu Hf). set_solver. }
  split; [by apply ref_all_spec; [apply Hinv|..]|by apply (ref_all_kept pl _ _ h); [|apply Hinv|..]].
Qed.

(** Mapping failed: what was mapped goes, and all references. *)
Lemma attach_undone pl1 s2 m : id_ok id = true -> used g = true -> moved pl pl1 h (vm sh) s2 -> refs_ok (owned s2, fno (seg_frames g) ++ h) ->
  0 <= m <= pages g -> (m = 0 \/ next + pages g * PAGE_SIZE <= Shm.USER_MMAP_END) ->
  (forall i, 0 <= i < m -> has (vmm_get_pte s2 root (next + i * PAGE_SIZE)) VMM_PRESENT = true) ->
  let s4 := fold_left (fun s f => vmm_unref_frame f s) (seg_frames g) (unmap_pages root next (Z.to_nat m) s2) in
  moved pl pl1 h (vm sh) s4 /\ only_pages pl1 root next 0 m s2 s4 /\ (forall i, 0 <= i < m -> vmm_get_pte s4 root (next + i * PAGE_SIZE) = 0).
Proof.
  intros Hid Hu M Hr2 Hm Hroom Hpr. cbn zeta. destruct (seg_facts sh others id Hinv Hid Hu) as (_&_&S3&_). pose proof (pl_root_weaken _ _ _ (mv_sub _ _ _ _ _ M) Hroot) as Hroot1.
  set (s3 := unmap_pages root next (Z.to_nat m) s2).
  assert (tables s3 pl1 /\ owned s3 = owned s2 /\ swap_slots s3 = swap_slots s2 /\ (forall i, 0 <= i < m -> vmm_get_pte s3 root (next + i * PAGE_SIZE) = 0) /\ only_pages pl1 root next 0 m s2 s3) as (U1&U2&U3&U4&U5).
  { destruct Hroom as [->|Hroom]; [unfold s3, unmap_pages; cbn [Z.to_nat seq fold_left]; split_and!; try done; [apply M|lia]|].
    pose proof (unmap_pages_spec pl1 root next (Z.to_nat m) 0 s2 (mv_tables _ _ _ _ _ M) Hroot1 ltac:(lia) Hal) as HU. change (Z.of_nat 0) with 0 in HU.
    rewrite Z.add_0_l, Z2Nat.id in HU by lia. destruct (HU ltac:(unfold PAGE_SIZE in *; lia) Hpr) as (?&?&?&?&?). done. }
  assert (kept pl1 s3 (fold_left (fun s f => vmm_unref_frame f s) (seg_frames g) s3)) as K.
  { apply (unref_all_kept pl1 _ _ h); [done|by rewrite U2|done|]. intros f Hf. unfold no_table. rewrite (hhdm_owned _ _ U2). pose proof (seg_in_table sh others id f Hinv Hid Hu Hf) as Hin.
    apply (mv_data _ _ _ _ _ M); [set_solver|by apply Hdata]. }
  split; [|split].
  - eapply moved_trans; [exact M|]. eapply moved_trans; [by apply cleared_moved|by apply kept_moved].
  - intros r x Hr' Hx Hxa Hn. rewrite (kp_ptes _ _ _ K) by done. by apply U5.
  - intros i Hi. rewrite (kp_ptes _ _ _ K) by done. by apply U4.
Qed.

Lemma shm_attach_tables : let '(a, _, sh') := shm_attach id root next sh in
  exists pl', moved pl pl' h (vm sh) (vm sh') /\ only_pages pl root next 0 (pages g) (vm sh) (vm sh') /\
    if a =? 0 then forall x, in_pages root next 0 (pages g) root x -> 0 <= x < USER_SPACE_END -> x mod PAGE_SIZE = 0 ->
      where_is (vmm_get_pte (vm sh) root x) = None -> where_is (vmm_get_pte (vm sh') root x) = None
    else forall i p, seg_frames g !! i = Some p -> vmm_get_pte (vm sh') root (next + Z.of_nat i * PAGE_SIZE) = shared_entry p.
Proof.
  assert (exists pl', moved pl pl' h (vm sh) (vm sh) /\ only_pages pl root next 0 (pages g) (vm sh) (vm sh) /\
    forall x, in_pages root next 0 (pages g) root x -> 0 <= x < USER_SPACE_END -> x mod PAGE_SIZE = 0 -> where_is (vmm_get_pte (vm sh) root x) = None -> where_is (vmm_get_pte (vm sh) root x) = None) as H0.
  { exists pl. split; [by apply kept_moved, kept_refl|]. split; [by intros r x|done]. }
  unfold shm_attach. destruct (decide (id_ok id = true)) as [Hid|Hid%not_true_iff_false]; rewrite Hid; cbn [negb orb]; [|done]. destruct (Z.eqb_spec root 0); [done|].
  destruct (decide (used g = true)) as [Hu|Hu%not_true_iff_false]; rewrite Hu; [|done].
  destruct (seg_facts sh others id Hinv Hid Hu) as (S1&S2&S3&S4). destruct (with_refs_ok Hid Hu) as [R1 K1]. destruct (Z.eqb_spec (pages g) 0); [lia|]. fold with_refs. cbn zeta.
  unfold SHM_MAX_PAGES in S1. rewrite (u64_small (pages g * PAGE_SIZE)) by (unfold PAGE_SIZE; lia).
  destruct ((next <? Shm.USER_MMAP_END) && (pages g * PAGE_SIZE <=? Shm.USER_MMAP_END - next)) eqn:Hroom.
  - apply andb_true_iff in Hroom as [_ Hroom%Z.leb_le].
    assert (Forall (fun p => Z.land p PTE_ADDR_MASK = p) (seg_frames g)) as Hmask by (eapply seg_masked; [apply K1|exact R1|set_solver|done]).
    pose proof (map_frames_spec root next (seg_frames g) 0 with_refs pl (kp_tables _ _ _ K1) Hroot ltac:(lia) ltac:(lia) Hal ltac:(unfold PAGE_SIZE in *; lia) Hmask) as HM.
    pose proof (map_frames_keeps_refs root next (seg_frames g) 0 with_refs _ R1) as R2. destruct (map_frames root next 0 (seg_frames g) with_refs) as [m s2]. cbn [snd] in R2.
    destruct HM as (pl1&G&Hm&Hin&Hout). assert (moved pl pl1 h (vm sh) s2) as M.
    { eapply moved_trans; [by apply kept_moved|]. eapply grown_moved; [|exact R1|done]. set_solver. }
    destruct (Z.ltb_spec m (pages g)) as [Hlt|Hge].
    + destruct (attach_undone pl1 s2 m Hid Hu M R2 ltac:(lia) ltac:(right; lia)) as (A1&A2&A3).
      { intros i Hi. destruct (lookup_lt_is_Some_2 (seg_frames g) (Z.to_nat (i - 0))) as [p Hp]; [lia|]. rewrite (Hin i p ltac:(lia) Hp). apply shared_present. }
      exists pl1. split; [exact A1|]. cbn [vm]. split.
      * intros r x Hr' Hx Hxa Hn. rewrite A2, Hout, (kp_ptes _ _ _ K1); try done; [unfold in_pages in *; unfold PAGE_SIZE in *; lia|by eapply pl_root_weaken; [apply M|]|unfold in_pages in *; unfold PAGE_SIZE in *; lia].
      * intros x [_ Hx] Hxu Hxa Hw. destruct (Z.lt_ge_cases x (next + m * PAGE_SIZE)).
        -- replace x with (next + (x - next) / PAGE_SIZE * PAGE_SIZE) by (unfold PAGE_SIZE in *; zlia). rewrite A3; [done|]. unfold PAGE_SIZE in *. split; [zlia|]. apply Z.div_lt_upper_bound; lia.
        -- rewrite A2, Hout, (kp_ptes _ _ _ K1); try done; [unfold in_pages; lia|by eapply pl_root_weaken; [apply M|]|unfold in_pages; lia].
    + rewrite (proj2 (Z.eqb_neq next 0)) by lia. exists pl1. split; [exact M|]. cbn [vm]. split.
      * intros r x Hr' Hx Hxa Hn. rewrite Hout; [by apply (kp_ptes _ _ _ K1)|done..|unfold in_pages in *; unfold PAGE_SIZE in *; lia].
      * intros i p Hp. apply Hin; [pose proof (lookup_lt_Some _ _ _ Hp); lia|]. by rewrite Z.sub_0_r, Nat2Z.id.
  - rewrite (proj2 (Z.ltb_lt 0 (pages g))) by lia. destruct (attach_undone pl with_refs 0 Hid Hu ltac:(by apply kept_moved) R1 ltac:(lia) ltac:(by left) ltac:(lia)) as (A1&A2&_).
    exists pl. split; [exact A1|]. cbn [vm].
    assert (forall r x, is_root pl r -> 0 <= x < USER_SPACE_END -> x mod PAGE_SIZE = 0 ->
      vmm_get_pte (fold_left (fun s f => vmm_unref_frame f s) (seg_frames g) (unmap_pages root next (Z.to_nat 0) with_refs)) r x = vmm_get_pte (vm sh) r x) as Hsame.
    { intros r x Hr' Hx Hxa. rewrite A2; [by apply (kp_ptes _ _ _ K1)|done..|unfold in_pages; lia]. }
    split; [by intros r x ? ? ? _; apply Hsame|]. intros x _ Hx Hxa. by rewrite Hsame.
Qed.
End attach.

(** * The whole *)

(** [pg]: the pages of the address spaces [rs], and where they are; [others]: references to
    frames that others have. *)
Record shm_ok (rs : gset Z) (pl : gmap Z place) (pg : gmap (Z * Z) location) (sh : shm) (others : list Z) : Prop := {
  sk_inv : shm_inv sh (page_refs pg ++ others);
  sk_pages : pages_ok rs pl pg [] (vm sh);
  sk_keys : forall r x, is_Some (pg !! (r, x)) -> r ∈ rs /\ 0 <= x < USER_SPACE_END /\ x mod PAGE_SIZE = 0;
  sk_data : forall f, f ∈ table_refs (segments sh) ++ others -> no_table pl (vm sh) f }.

Definition all_refs (pg : gmap (Z * Z) location) (sh : shm) (others : list Z) : list Z := table_refs (segments sh) ++ page_refs pg ++ others.

(** The pages are where [pg'] says, and the counts say so, too. *)
Lemma pages_rebuilt rs pl pl' pg pg' sh sh' others others' :
  shm_ok rs pl pg sh others -> moved pl pl' (all_refs pg sh others) (vm sh) (vm sh') -> shm_inv sh' (page_refs pg' ++ others') ->
  (forall r x, r ∈ rs -> 0 <= x < USER_SPACE_END -> x mod PAGE_SIZE = 0 -> where_is (vmm_get_pte (vm sh') r x) = pg' !! (r, x)) ->
  (forall r x, is_Some (pg' !! (r, x)) -> r ∈ rs /\ 0 <= x < USER_SPACE_END /\ x mod PAGE_SIZE = 0) ->
  (forall k w, pg' !! k = Some w -> pg !! k = Some w \/ exists f, w = InFrame f /\ f ∈ all_refs pg sh others /\ no_table pl (vm sh) f) ->
  (forall j, uses pg' (InSlot j) <= uses pg (InSlot j)) ->
  (forall f, f ∈ table_refs (segments sh') ++ others' -> no_table pl' (vm sh') f) ->
  shm_ok rs pl' pg' sh' others'.
Proof.
  intros [I K Ky D] [M1 M2 (M3&M4&M5) M6] I' Hmap Hkeys Hpg Hslots Hdata. split; [done| |done|done]. destruct K as [T1 Trs T2 T3 T4 T5 T6 T7 T8].
  assert (forall f, f ∈ all_refs pg sh others -> 1 <= f < total_frames (frames (owned (vm sh)))) as Hrange.
  { intros f Hf. pose proof (si_refs _ _ I) as Hr. destruct (refs_ok_owned _ _ f Hr) as (F1&_); [unfold all_refs in Hf; set_solver|done]. }
  split; rewrite ?M4, ?M5; try done.
  - intros r Hr. by eapply pl_root_weaken; [|apply Trs].
  - intros k f E. destruct (Hpg k _ E) as [E'|(g&[= ->]&Hg&Hn)].
    + destruct (T3 k f E') as [F1 F2]. split; [done|]. apply (M6 f); [unfold all_refs; rewrite !elem_of_app; right; left; apply elem_page_refs; by exists k|done].
    + split; [by apply Hrange|]. by apply (M6 g).
  - set_solver.
  - intros k f E. destruct (Hpg k _ E) as [E'|(g&?&_)]; [by eapply T5|done].
  - intros f Hf. rewrite refs_nil, Z.add_0_r. destruct (decide (f ∈ page_refs pg')) as [Hin|Hin].
    + destruct (proj2 (si_refs _ _ I') f) as [_ Ho]; [cbn; rewrite !elem_of_app; auto|]. cbn [fst snd] in Ho. rewrite Ho, !refs_app, refs_page_refs. unfold refs. lia.
    + rewrite <- refs_page_refs, (refs_zero _ _ Hin). unfold owners. pose proof (co_range _ (tb_cow _ _ M1) f Hf). case_bool_decide; lia.
  - intros k j E. destruct (Hpg k _ E) as [E'|(g&?&_)]; [by eapply T7|done].
  - intros j Hj. specialize (Hslots j). specialize (T8 j Hj). lia.
Qed.

(** The calls, what unmapping does, and what the rest of the kernel does with references of
    its own. A segment is attached where no page is, and while its frames' counts, which have
    16 bits, can take another. *)
Definition may_attach (rs : gset Z) (sh : shm) (id root next : Z) : Prop :=
  root ∈ rs /\ 0 < next /\ next mod PAGE_SIZE = 0 /\
  (forall x, in_pages root next 0 (pages (segment sh id)) root x -> 0 <= x < USER_SPACE_END -> x mod PAGE_SIZE = 0 -> where_is (vmm_get_pte (vm sh) root x) = None) /\
  (forall p, p ∈ seg_frames (segment sh id) -> pmm_get_frame_ref p (owned (vm sh)) < 0x10000).

Inductive shm_step (rs : gset Z) : shm * list Z -> shm * list Z -> Prop :=
| step_get sh others memory uid k size :
    0 <= size < 0x10000000000000000 -> shm_step rs (sh, others) ((shm_get memory uid k size sh).2, others)
| step_attach sh others id root next :
    may_attach rs sh id root next -> shm_step rs (sh, others) ((shm_attach id root next sh).2, others)
| step_remove sh others id : shm_step rs (sh, others) ((shm_remove id sh).2, others)
| step_unmap sh others root addr length :
    root ∈ rs -> 0 <= addr < 0x10000000000000000 -> 0 <= length < 0x10000000000000000 ->
    shm_step rs (sh, others) (mkShm (segments sh) (user_unmap_range (vm sh) root addr length).2, others)
| step_drop sh l1 f l2 :
    shm_step rs (sh, l1 ++ f :: l2) (mkShm (segments sh) (vmm_unref_frame (f * PAGE_SIZE) (vm sh)), l1 ++ l2)
| step_take sh others phys s' :
    vmm_alloc_frame (vm sh) = (phys, s') -> phys <> 0 ->
    shm_step rs (sh, others) (mkShm (segments sh) s', phys / PAGE_SIZE :: others).

Section steps.
  Context (rs : gset Z) (pl : gmap Z place) (pg : gmap (Z * Z) location) (sh : shm) (others : list Z).
  Hypothesis OK : shm_ok rs pl pg sh others.

Let K := sk_pages _ _ _ _ _ OK.
Let Ht : tables (vm sh) pl := pk_tables _ _ _ _ _ K.

Lemma in_all f : f ∈ table_refs (segments sh) \/ f ∈ page_refs pg \/ f ∈ others -> f ∈ all_refs pg sh others.
Proof. unfold all_refs. set_solver. Qed.

(** Nothing happens to the pages. *)
Lemma step_kept sh' others' : kept pl (vm sh) (vm sh') -> shm_inv sh' (page_refs pg ++ others') -> (forall f, f ∈ table_refs (segments sh') ++ others' -> no_table pl (vm sh') f) ->
  shm_ok rs pl pg sh' others'.
Proof.
  intros M I Hn. apply (pages_rebuilt rs pl pl pg pg sh sh' others others' OK); try done; [by apply kept_moved| |apply OK|by left].
  intros r x Hr Hx Hxa. rewrite (kp_ptes _ _ _ M) by (by apply K). by apply K.
Qed.
Lemma kept_data sh' others' : kept pl (vm sh) (vm sh') -> (forall f, f ∈ table_refs (segments sh') ++ others' -> f ∈ table_refs (segments sh) ++ others) ->
  forall f, f ∈ table_refs (segments sh') ++ others' -> no_table pl (vm sh') f.
Proof. intros M Hin f Hf. unfold no_table. rewrite (proj1 (kp_setup _ _ _ M)). by apply (sk_data _ _ _ _ _ OK), Hin. Qed.

Lemma get_ok memory uid k size : 0 <= size < 0x10000000000000000 -> shm_ok rs pl pg (shm_get memory uid k size sh).2 others.
Proof.
  intros Hs. destruct (shm_get_kept pl memory uid k size sh _ Ht (sk_inv _ _ _ _ _ OK)) as [M Hn]; [intros f Hf; apply (sk_data _ _ _ _ _ OK); set_solver|].
  apply step_kept; [done|by apply shm_get_inv; [apply OK|]|]. intros f [Hf|Hf]%elem_of_app; [by apply Hn|]. unfold no_table. rewrite (proj1 (kp_setup _ _ _ M)). apply (sk_data _ _ _ _ _ OK). set_solver.
Qed.

Lemma remove_ok id : shm_ok rs pl pg (shm_remove id sh).2 others.
Proof.
  pose proof (shm_remove_refs sh _ id (sk_inv _ _ _ _ _ OK)) as HR. unfold shm_remove in *. destruct (id_ok id) eqn:Hid; cbn [negb] in *; [|exact OK].
  pose proof (id_lookup sh id (si_segs _ _ (sk_inv _ _ _ _ _ OK)) Hid) as Hg. set (g := segment sh id) in *. set (g' := mkSegment false (key g) (owner g) 0 []) in *.
  destruct (concat_fmap_insert seg_refs (segments sh) _ g g' Hg) as (rest&P1&P2).
  assert (forall f, f ∈ table_refs (<[Z.to_nat id := g']> (segments sh)) -> f ∈ table_refs (segments sh)) as Hsub by (intros f; unfold table_refs; rewrite P1, P2; cbn; set_solver).
  destruct (used g) eqn:Hu; cbn [negb snd] in *; destruct HR as [I _].
  - assert (kept pl (vm sh) (fold_left (fun s f => vmm_unref_frame f s) (seg_frames g) (vm sh))) as M.
    { apply (unref_all_kept pl _ _ (rest ++ page_refs pg ++ others)); [done| |by destruct (seg_facts sh _ id (sk_inv _ _ _ _ _ OK) Hid Hu) as (_&_&?&_)|].
      - eapply refs_ok_perm; [|apply (si_refs _ _ (sk_inv _ _ _ _ _ OK))]. unfold table_refs. rewrite P1. unfold seg_refs. rewrite Hu. by rewrite <- !app_assoc.
      - intros f Hf. apply (sk_data _ _ _ _ _ OK). unfold table_refs. rewrite P1. unfold seg_refs. rewrite Hu. set_solver. }
    apply step_kept; [done|done|]. apply kept_data; [done|]. cbn. intros f. rewrite !elem_of_app. intros [?|?]; auto.
  - apply step_kept; [by apply kept_refl|done|]. apply kept_data; [by apply kept_refl|]. cbn. intros f. rewrite !elem_of_app. intros [?|?]; auto.
Qed.

Lemma drop_ok l1 f l2 : others = l1 ++ f :: l2 -> shm_ok rs pl pg (mkShm (segments sh) (vmm_unref_frame (f * PAGE_SIZE) (vm sh))) (l1 ++ l2).
Proof.
  intros E. pose proof (si_refs _ _ (sk_inv _ _ _ _ _ OK)) as Hr. rewrite E in Hr. assert (refs_ok (owned (vm sh), f :: (table_refs (segments sh) ++ page_refs pg ++ l1 ++ l2))) as Hr'.
  { eapply refs_ok_perm; [|exact Hr]. rewrite !app_assoc. symmetry. apply Permutation_middle. }
  destruct (refs_ok_owned _ _ f Hr') as (F1&_&F3); [set_solver|]. assert (kept pl (vm sh) (vmm_unref_frame (f * PAGE_SIZE) (vm sh))) as M.
  { apply unref_kept; [done..|]. apply (sk_data _ _ _ _ _ OK). rewrite E. set_solver. }
  apply step_kept; [done| |apply kept_data; [done|]; rewrite E; cbn; set_solver]. split; [|apply OK]. cbn [vm segments]. by destruct (refs_drop _ f _ Hr') as (D&_).
Qed.
Lemma shm_take_ok phys s' : vmm_alloc_frame (vm sh) = (phys, s') -> phys <> 0 -> shm_ok rs pl pg (mkShm (segments sh) s') (phys / PAGE_SIZE :: others).
Proof.
  intros Ha Hne. destruct (alloc_fill_kept pl (vm sh) phys s' Ht Ha) as [M Hp]. destruct (Hp Hne) as [Hn _]. apply step_kept; [done| |].
  - split; [|apply OK]. cbn [vm segments]. pose proof (si_refs _ _ (sk_inv _ _ _ _ _ OK)) as Hr. unfold vmm_alloc_frame in Ha. destruct (alloc_frame (owned (vm sh))) as [p c'] eqn:Ea.
    injection Ha as -> <-. eapply refs_ok_perm; [|exact (ref_step_ok _ _ Hr (ref_alloc _ _ _ c' Ea Hne))]. rewrite !app_assoc. cbn. apply Permutation_middle.
  - intros f. cbn [segments vm]. unfold no_table. rewrite (proj1 (kp_setup _ _ _ M)), elem_of_app, elem_of_cons. intros [Hf|[->|Hf]]; [|done|]; apply (sk_data _ _ _ _ _ OK); set_solver.
Qed.

Lemma shm_unmap_ok root addr length : root ∈ rs -> 0 <= addr < 0x10000000000000000 -> 0 <= length < 0x10000000000000000 ->
  exists pg', shm_ok rs pl pg' (mkShm (segments sh) (user_unmap_range (vm sh) root addr length).2) others.
Proof.
  intros Hin Ha Hl. pose proof (unmap_range_spec rs pl pg (vm sh) root addr length K Hin Ha Hl) as HU. destruct (user_unmap_range (vm sh) root addr length) as [r s']. cbn zeta in HU. cbn [snd].
  destruct (bad_range root addr length); [destruct HU as [_ ->]; exists pg; by destruct sh|]. destruct HU as (_&_&[G1 G2 G3 G4 (G5&G6) G7 G8]). set (pg' := without root addr _ pg) in *. exists pg'.
  assert (forall k w, pg' !! k = Some w -> pg !! k = Some w) as Hsub by (unfold pg', without; by intros k w [? _]%map_lookup_filter_Some).
  pose proof (si_refs _ _ (sk_inv _ _ _ _ _ OK)) as Hr.
  assert (shm_inv (mkShm (segments sh) s') (page_refs pg' ++ others)) as I.
  { split; [|apply OK]. split; [apply (tb_cow _ _ (pk_tables _ _ _ _ _ G1))|]. cbn [vm segments fst snd]. intros f Hf. rewrite G6.
    assert (f ∈ table_refs (segments sh) ++ page_refs pg ++ others) as Hf'.
    { rewrite !elem_of_app in Hf |- *. destruct Hf as [?|[Hp|?]]; auto. right. left. apply elem_page_refs in Hp as [k Hk]. apply elem_page_refs. exists k. by apply Hsub. }
    destruct (proj2 Hr f Hf') as [F1 F2]. cbn [fst snd] in *. split; [done|]. specialize (G7 f ltac:(lia)). change (fno []) with (@nil Z) in G7. rewrite refs_nil in G7.
    rewrite !refs_app, refs_page_refs in *. lia. }
  split; [done|exact G1| |].
  - intros y x [w Hw]. apply (sk_keys _ _ _ _ _ OK). exists w. by apply Hsub.
  - intros f. cbn [vm segments]. unfold no_table. rewrite G5. apply (sk_data _ _ _ _ _ OK).
Qed.

(** The pages of a segment in [root] from [next] on. *)
Fixpoint add_pages (root next : Z) (fs : list Z) (pg : gmap (Z * Z) location) : gmap (Z * Z) location :=
  match fs with [] => pg | p :: fs => <[(root, next) := InFrame (p / PAGE_SIZE)]> (add_pages root (next + PAGE_SIZE) fs pg) end.

Lemma add_pages_lookup root fs : forall next r x, let i := (x - next) / PAGE_SIZE in
  (x - next) mod PAGE_SIZE = 0 -> add_pages root next fs pg !! (r, x) =
    if bool_decide (r = root /\ next <= x < next + Z.of_nat (length fs) * PAGE_SIZE) then InFrame <$> (fno fs !! Z.to_nat i) else pg !! (r, x).
Proof.
  induction fs as [|p fs IH]; intros next r x i Hm; cbn [add_pages length]; [rewrite bool_decide_false by lia; done|].
  destruct (decide ((r, x) = (root, next))) as [[= -> ->]|Hne].
  - rewrite lookup_insert_eq, bool_decide_true by (unfold PAGE_SIZE; lia). unfold i. by rewrite Z.sub_diag.
  - rewrite lookup_insert_ne by done. rewrite IH by (unfold PAGE_SIZE in *; zlia). unfold PAGE_SIZE in *.
    destruct (decide (r = root /\ next + 4096 <= x < next + 4096 + Z.of_nat (length fs) * 4096)) as [Hin|Hout].
    + rewrite !bool_decide_true by lia. unfold i. replace (Z.to_nat ((x - next) / 4096)) with (S (Z.to_nat ((x - (next + 4096)) / 4096))) by zlia. done.
    + rewrite !bool_decide_false; [done| |done]. intros [-> Hx]. apply Hout. split; [done|]. assert (x <> next) by (intros ->; by apply Hne). zlia.
Qed.
Lemma add_pages_key root fs : forall next r x w, add_pages root next fs pg !! (r, x) = Some w -> pg !! (r, x) = Some w \/ (r = root /\ (x - next) mod PAGE_SIZE = 0 /\ next <= x < next + Z.of_nat (length fs) * PAGE_SIZE /\ exists p, p ∈ fs /\ w = InFrame (p / PAGE_SIZE)).
Proof.
  induction fs as [|p fs IH]; intros next r x w; cbn [add_pages length]; [by left|]. intros [([= <- <-]&<-)|[_ Hx]]%lookup_insert_Some.
  - right. rewrite Z.sub_diag. unfold PAGE_SIZE. split_and!; [done|done|lia|lia|]. exists p. split; [set_solver|done].
  - destruct (IH _ _ _ _ Hx) as [|(->&H1&H2&q&Hq&->)]; [by left|right]. unfold PAGE_SIZE in *. split_and!; [done|zlia|lia|lia|]. exists q. split; [set_solver|done].
Qed.
Lemma add_pages_uses root fs w : forall next, (forall i : nat, (i < length fs)%nat -> pg !! (root, next + Z.of_nat i * PAGE_SIZE) = None) ->
  uses (add_pages root next fs pg) w = uses pg w + match w with InFrame f => refs (fno fs) f | _ => 0 end.
Proof.
  induction fs as [|p fs IH]; intros next Hfree; cbn [add_pages]; [destruct w; rewrite ?refs_nil; unfold refs; cbn; lia|].
  assert (add_pages root (next + PAGE_SIZE) fs pg !! (root, next) = None) as Hnone.
  { destruct (add_pages root (next + PAGE_SIZE) fs pg !! (root, next)) as [w'|] eqn:E; [|done]. apply add_pages_key in E as [E|(_&_&?&_)]; [|unfold PAGE_SIZE in *; lia].
    specialize (Hfree 0%nat ltac:(cbn; lia)). cbn in Hfree. rewrite Z.add_0_r in Hfree. congruence. }
  rewrite uses_insert, Hnone, IH. 
  - rewrite (decide_False (P := None = Some w)) by done. destruct w as [f|f|j]; cbn [fno fmap list_fmap]; [|rewrite decide_False by done; lia..]. fold (fno fs). rewrite refs_cons.
    destruct (Z.eqb_spec f (p / PAGE_SIZE)) as [->|]; [rewrite decide_True by done|rewrite decide_False by congruence]; lia.
  - intros i Hi. specialize (Hfree (S i) ltac:(cbn; lia)). replace (next + PAGE_SIZE + Z.of_nat i * PAGE_SIZE) with (next + Z.of_nat (S i) * PAGE_SIZE) by lia. done.
Qed.

Lemma shared_where f : 0 <= f < 0x10000000000 -> where_is (shared_entry (f * PAGE_SIZE)) = Some (InFrame f).
Proof.
  intros Hf. unfold where_is. rewrite shared_present. unfold shared_entry. rewrite !has_lor_l.
  assert (has (f * PAGE_SIZE) VMM_DEVICE = false) as ->.
  { unfold has. rewrite <- (frame_masked f Hf), <- Z.land_assoc. change (Z.land PTE_ADDR_MASK VMM_DEVICE) with 0. by rewrite Z.land_0_r. }
  change (has SHM_FLAGS VMM_DEVICE) with false. change (has VMM_PRESENT VMM_DEVICE) with false. cbn [orb]. do 2 f_equal.
  rewrite <- Z.lor_assoc, mask_frame by done. apply frame_of_addr.
Qed.

(** What attaching leaves. *)
Definition attach_outcome (id root next a next' : Z) (sh' : shm) : Prop :=
  let g := segment sh id in
  if a =? 0 then next' = next /\ forall r x, r ∈ rs -> 0 <= x < USER_SPACE_END -> x mod PAGE_SIZE = 0 -> where_is (vmm_get_pte (vm sh') r x) = where_is (vmm_get_pte (vm sh) r x)
  else a = next /\ id_ok id = true /\ used g = true /\ next' = next + pages g * PAGE_SIZE /\ next' <= Shm.USER_MMAP_END /\
    (forall i p, seg_frames g !! i = Some p -> vmm_get_pte (vm sh') root (next + Z.of_nat i * PAGE_SIZE) = shared_entry p) /\
    (forall r x, r ∈ rs -> 0 <= x < USER_SPACE_END -> x mod PAGE_SIZE = 0 -> ~ in_pages root next 0 (pages g) r x -> vmm_get_pte (vm sh') r x = vmm_get_pte (vm sh) r x).

Lemma few_refs id root next : may_attach rs sh id root next -> id_ok id = true -> used (segment sh id) = true ->
  forall f, f ∈ fno (seg_frames (segment sh id)) -> refs (table_refs (segments sh) ++ page_refs pg ++ others) f < 0x10000.
Proof.
  intros (_&_&_&_&Hfew) Hid Hu f Hf. pose proof (si_refs _ _ (sk_inv _ _ _ _ _ OK)) as Hr. pose proof (seg_in_table sh _ id f (sk_inv _ _ _ _ _ OK) Hid Hu Hf) as Hin.
  assert (f ∈ table_refs (segments sh) ++ page_refs pg ++ others) as Hin' by set_solver. destruct (refs_ok_owned _ _ f Hr Hin') as (F1&_&F3). destruct (proj2 Hr f Hin') as [_ Ho]. cbn [fst snd] in Ho. rewrite <- Ho.
  apply list_elem_of_fmap in Hf as (p&->&Hp). destruct (seg_facts sh _ id (sk_inv _ _ _ _ _ OK) Hid Hu) as (_&_&Ha&_). unfold aligned in Ha. rewrite Forall_forall in Ha. specialize (Hfew p Hp). rewrite (Ha p Hp) in Hfew.
  by rewrite get_frame_ref_owners in Hfew by (done || lia || apply (proj1 Hr)).
Qed.

Lemma attach_ok id root next : may_attach rs sh id root next ->
  let '(a, next', sh') := shm_attach id root next sh in (exists pl' pg', shm_ok rs pl' pg' sh' others) /\ attach_outcome id root next a next' sh'.
Proof.
  intros Hmay. pose proof (few_refs id root next Hmay) as Hfew. destruct Hmay as (Hin&Hnext&Hal&Hfree&_). pose proof (sk_inv _ _ _ _ _ OK) as I. pose proof (pk_roots _ _ _ _ _ K) as Hroots.
  pose proof (shm_attach_refs sh _ id root next I Hnext Hfew) as HR.
  pose proof (shm_attach_tables pl sh _ id root next I Ht (Hroots _ Hin) Hnext Hal Hfew ltac:(intros f Hf; apply (sk_data _ _ _ _ _ OK); set_solver)) as HT.
  destruct (shm_attach id root next sh) as [[a next'] sh']. destruct HR as (Es&I'&HR). destruct HT as (pl'&M&Hout&HT). unfold attach_outcome. set (g := segment sh id) in *.
  assert (forall f, f ∈ table_refs (segments sh') ++ others -> no_table pl' (vm sh') f) as Hdata.
  { intros f Hf. rewrite Es in Hf. apply (mv_data _ _ _ _ _ M); [set_solver|by apply (sk_data _ _ _ _ _ OK)]. }
  destruct (Z.eqb_spec a 0) as [->|Hne].
  - assert (forall r x, r ∈ rs -> 0 <= x < USER_SPACE_END -> x mod PAGE_SIZE = 0 -> where_is (vmm_get_pte (vm sh') r x) = where_is (vmm_get_pte (vm sh) r x)) as Hsame.
    { intros r x Hr Hx Hxa. destruct (decide (r = root /\ next + 0 * PAGE_SIZE <= x < next + pages g * PAGE_SIZE)) as [Hp|Hp]; [|by rewrite Hout by (done || by apply Hroots)].
      destruct Hp as [-> Hp]. assert (in_pages root next 0 (pages g) root x) as Hpp by done. specialize (Hfree x Hpp Hx Hxa). by rewrite Hfree, (HT x Hpp Hx Hxa Hfree). }
    split; [|done]. exists pl', pg. apply (pages_rebuilt rs pl pl' pg pg sh sh' others others OK M); try done; [|apply OK|by left].
    intros r x Hr Hx Hxa. rewrite Hsame by done. by apply K.
  - destruct HR as (->&Hid&Hu&->&Hend). split; [|split_and!; try done; intros r x Hr Hx Hxa Hn; apply Hout; [by apply Hroots|done..]].
    destruct (seg_facts sh _ id I Hid Hu) as (S1&S2&S3&_). fold g in S1, S2, S3.
    assert (forall i p, seg_frames g !! i = Some p -> p = p / PAGE_SIZE * PAGE_SIZE /\ p / PAGE_SIZE ∈ table_refs (segments sh) /\ 0 <= p / PAGE_SIZE < 0x10000000000) as Hseg.
    { intros i p Hp. apply list_elem_of_lookup_2 in Hp. unfold aligned in S3. rewrite Forall_forall in S3. split; [by apply S3|].
      assert (p / PAGE_SIZE ∈ table_refs (segments sh)) as Hpt by (apply (seg_in_table sh _ id _ I Hid Hu); by apply (list_elem_of_fmap_2 (fun p => p / PAGE_SIZE))). split; [done|].
      destruct (refs_ok_owned _ _ (p / PAGE_SIZE) (si_refs _ _ I)) as (F1&_); [apply elem_of_app; by left|]. pose proof (tb_phys _ _ Ht). lia. }
    assert (forall x, next <= x < next + pages g * PAGE_SIZE -> x mod PAGE_SIZE = 0 -> pg !! (root, x) = None) as Hnone.
    { intros x Hx Hxa. assert (0 <= x < USER_SPACE_END) as Hxu by (unfold Shm.USER_MMAP_END, USER_SPACE_END in *; lia). rewrite <- (pk_map _ _ _ _ _ K root x Hin Hxu Hxa). apply Hfree; [split; [done|lia]|done|done]. }
    exists pl', (add_pages root next (seg_frames g) pg). pose proof (fun w => add_pages_uses root (seg_frames g) w next) as Huse.
    specialize (fun w => Huse w ltac:(intros i Hi; apply Hnone; unfold PAGE_SIZE in *; [lia|zlia])). apply (pages_rebuilt rs pl pl' pg _ sh sh' others others OK M); try done.
    + destruct I' as [R' S']. split; [|done]. eapply refs_ok_counts; [|intros f Hf|exact R'].
      * intros f _. rewrite !refs_app, !refs_page_refs, Huse. lia.
      * rewrite !elem_of_app in Hf. assert (f ∈ table_refs (segments sh') ++ fno (seg_frames g) ++ page_refs pg ++ others) as Hf'.
        { rewrite !elem_of_app. destruct Hf as [?|[Hf|?]]; auto. apply refs_pos in Hf. rewrite refs_page_refs, Huse in Hf. destruct (decide (f ∈ fno (seg_frames g))) as [|Hnf]; [auto|].
          rewrite (refs_zero _ _ Hnf) in Hf. right. right. left. apply refs_elem. rewrite refs_page_refs. lia. }
        destruct (refs_ok_owned _ _ f R' Hf') as (F1&_). lia.
    + intros r x Hr Hx Hxa. rewrite add_pages_lookup by (unfold PAGE_SIZE in *; zlia). rewrite S2. case_bool_decide as Hp.
      * destruct Hp as [-> Hp]. set (i := Z.to_nat ((x - next) / PAGE_SIZE)). destruct (lookup_lt_is_Some_2 (seg_frames g) i) as [p Hi]; [unfold i, PAGE_SIZE in *; assert ((x - next) / 4096 < pages g) by (apply Z.div_lt_upper_bound; lia); lia|].
        destruct (Hseg i p Hi) as (E&_&Hpf). unfold fno. rewrite list_lookup_fmap, Hi. cbn. replace x with (next + Z.of_nat i * PAGE_SIZE) by (unfold i, PAGE_SIZE in *; zlia).
        rewrite (HT i p Hi). rewrite E at 1. by apply shared_where.
      * rewrite Hout; [by apply K|by apply Hroots|done|done|]. unfold in_pages. rewrite Z.mul_0_l, Z.add_0_r. done.
    + intros r x [w Hw]. apply add_pages_key in Hw as [Hw|(->&Hm&Hx&_)]; [apply (sk_keys _ _ _ _ _ OK); by exists w|]. split; [done|]. unfold Shm.USER_MMAP_END, USER_SPACE_END, PAGE_SIZE in *. split; [lia|zlia].
    + intros [r x] w Hw. apply add_pages_key in Hw as [Hw|(->&Hm&Hx&p&Hp&->)]; [by left|right]. exists (p / PAGE_SIZE). split; [done|]. apply list_elem_of_lookup in Hp as [i Hi]. destruct (Hseg i p Hi) as (_&Hpt&_).
      split; [apply in_all; by left|]. apply (sk_data _ _ _ _ _ OK). apply elem_of_app. by left.
    + intros j. rewrite (Huse (InSlot j)). lia.
Qed.
End steps.

Lemma step_shm_ok rs c c' : shm_step rs c c' -> (exists pl pg, shm_ok rs pl pg c.1 c.2) -> exists pl pg, shm_ok rs pl pg c'.1 c'.2.
Proof.
  intros Hstep (pl&pg&OK). destruct Hstep as [sh o m uid k size Hs|sh o id root next Hm|sh o id|sh o root addr len Hin Ha Hl|sh l1 f l2|sh o phys s' Ha Hne]; cbn [fst snd] in *.
  - exists pl, pg. by apply get_ok.
  - pose proof (attach_ok rs pl pg sh o OK id root next Hm) as H. destruct (shm_attach id root next sh) as [[a next'] sh']. by destruct H as [H _].
  - exists pl, pg. by apply remove_ok.
  - exists pl. by apply (shm_unmap_ok rs pl pg sh o OK).
  - exists pl, pg. by apply (drop_ok rs pl pg sh _ OK).
  - exists pl, pg. by apply (shm_take_ok rs pl pg sh o OK).
Qed.

(** A machine before the first segment. *)
Record shm_start (rs : gset Z) (pl : gmap Z place) (pg : gmap (Z * Z) location) (s : vmm) : Prop := {
  st_pages : pages_ok rs pl pg [] s;
  st_refs : refs_ok (owned s, page_refs pg);
  st_keys : forall r x, is_Some (pg !! (r, x)) -> r ∈ rs /\ 0 <= x < USER_SPACE_END /\ x mod PAGE_SIZE = 0 }.
Lemma shm_start_ok rs pl pg s : shm_start rs pl pg s -> shm_ok rs pl pg (shm_static s) [].
Proof.
  intros [K R Ky]. split; [|done|done|cbn; set_solver]. rewrite app_nil_r. split; [done|]. apply (si_segs _ []), shm_static_inv. apply R.
Qed.

(** C36. The memory of a segment lives as long as somebody has it. Whatever segments are
    got, attached (also when it fails half way) and removed, and whatever is unmapped,
    with the frames others take and give back meanwhile, as long as a segment is attached
    where no page is and none of its frames has 65536 owners then: no frame of a segment and no
    frame a page is in is free, and its count is the number of segments' pages, of
    pages of the address spaces (as the page tables have them) and of other references
    that are in it; segments have as many different frames as pages, and no two have
    the same key. Attaching maps page [i] of the range to frame [i] of the segment,
    shared and writable, and changes no other page; when it fails, every page is where
    it was. *)
Theorem shm_frames_live rs pl0 pg0 s0 sh others :
  shm_start rs pl0 pg0 s0 -> rtc (shm_step rs) (shm_static s0, []) (sh, others) ->
  segs_ok (segments sh) /\
  (exists pg,
     (forall r x, r ∈ rs -> 0 <= x < USER_SPACE_END -> x mod PAGE_SIZE = 0 -> where_is (vmm_get_pte (vm sh) r x) = pg !! (r, x)) /\
     (forall r x, is_Some (pg !! (r, x)) -> r ∈ rs /\ 0 <= x < USER_SPACE_END /\ x mod PAGE_SIZE = 0) /\
     (forall f, f ∈ table_refs (segments sh) \/ (exists k, pg !! k = Some (InFrame f)) \/ f ∈ others ->
        f ∉ abs (frames (owned (vm sh))) /\
        pmm_get_frame_ref (f * PAGE_SIZE) (owned (vm sh)) = refs (table_refs (segments sh)) f + uses pg (InFrame f) + refs others f)) /\
  (forall id root next, may_attach rs sh id root next ->
     let '(a, next', sh') := shm_attach id root next sh in attach_outcome rs sh id root next a next' sh').
Proof.
  intros Hst Hr. assert (exists pl pg, shm_ok rs pl pg sh others) as (pl&pg&OK).
  { refine (rtc_invariant (shm_step rs) (fun c => exists pl pg, shm_ok rs pl pg c.1 c.2) (shm_static s0, []) (sh, others) (fun c c' H1 H2 => step_shm_ok rs c c' H2 H1) _ Hr).
    exists pl0, pg0. by apply shm_start_ok. }
  split; [apply OK|]. split.
  - exists pg. split; [apply OK|]. split; [apply OK|]. intros f Hf. pose proof (si_refs _ _ (sk_inv _ _ _ _ _ OK)) as Hrefs.
    assert (f ∈ table_refs (segments sh) ++ page_refs pg ++ others) as Hin by (rewrite !elem_of_app, elem_page_refs; tauto).
    destruct (refs_ok_owned _ _ f Hrefs Hin) as (F1&_&F3). split; [done|]. rewrite get_frame_ref_owners by (done || lia || apply (proj1 Hrefs)).
    destruct (proj2 Hrefs f Hin) as [_ Ho]. cbn [fst snd] in Ho. rewrite Ho, !refs_app, refs_page_refs. lia.
  - intros id root next Hm. pose proof (attach_ok rs pl pg sh others OK id root next Hm) as H. destruct (shm_attach id root next sh) as [[a next'] sh']. by destruct H as [_ H].
Qed.

(** ** Example: a segment is got, attached and removed, and lives on in its mapping. *)

Lemma page_start : shm_start {[tab 2]} page_places {[(tab 2, 0x400000) := InFrame 1]} page_vmm.
Proof.
  split; [exact example_pages_ok| |].
  - split; [exact four_taken_ok|]. intros f Hf. cbn [fst snd] in *. apply elem_page_refs in Hf as [k Hk]. apply lookup_singleton_Some in Hk as [_ [= <-]]. vm_compute. intuition congruence.
  - intros r x [w Hw]. apply lookup_singleton_Some in Hw as [[= <- <-] _]. split; [by apply elem_of_singleton|]. split; [unfold USER_SPACE_END; lia|reflexivity].
Qed.

Notation shm_got := ((shm_get true 1000 7 5000 (shm_static page_vmm)).2).
Notation shm_shared := ((shm_attach 0 (tab 2) 0x700000000000 shm_got).2).
Notation shm_gone := ((shm_remove 0 shm_shared).2).

Lemma may_share : may_attach {[tab 2]} shm_got 0 (tab 2) 0x700000000000.
Proof.
  assert (pages (segment shm_got 0) = 2 /\ seg_frames (segment shm_got 0) = [0x6000; 0x7000]) as [Ep Ef] by (split; vm_compute; reflexivity).
  split; [by apply elem_of_singleton|]. split; [lia|]. split; [reflexivity|]. split.
  - intros x [_ Hx] _ Hxa. rewrite Ep in Hx. unfold PAGE_SIZE in Hx, Hxa. assert (x = 0x700000000000 \/ x = 0x700000001000) as [->| ->] by zlia; vm_compute; reflexivity.
  - intros p Hp. rewrite Ef in Hp. apply elem_of_cons in Hp as [->|Hp]; [vm_compute; reflexivity|]. apply list_elem_of_singleton in Hp as ->. vm_compute. reflexivity.
Qed.

Lemma shm_frames_live_witness :
  rtc (shm_step {[tab 2]}) (shm_static page_vmm, []) (shm_gone, []) /\
  segs_ok (segments shm_gone) /\ where_is (vmm_get_pte (vm shm_gone) (tab 2) 0x700000001000) = Some (InFrame 7) /\ 7 ∉ abs (frames (owned (vm shm_gone))).
Proof.
  assert (rtc (shm_step {[tab 2]}) (shm_static page_vmm, []) (shm_gone, [])) as Hr.
  { eapply rtc_l; [apply (step_get _ (shm_static page_vmm) [] true 1000 7 5000); lia|]. eapply rtc_l; [apply (step_attach _ shm_got [] 0 (tab 2) 0x700000000000 may_share)|].
    eapply rtc_l; [apply (step_remove _ shm_shared [] 0)|apply rtc_refl]. }
  split; [exact Hr|]. destruct (shm_frames_live _ _ _ _ _ _ page_start Hr) as (H1&(pg&H2&_&H3)&_). split; [exact H1|].
  assert (where_is (vmm_get_pte (vm shm_gone) (tab 2) 0x700000001000) = Some (InFrame 7)) as E by (vm_compute; reflexivity). split; [exact E|].
  refine (proj1 (H3 7 (or_intror (or_introl (ex_intro _ (tab 2, 0x700000001000) _))))). rewrite <- E. symmetry. apply H2; [by apply elem_of_singleton|unfold USER_SPACE_END; lia|reflexivity].
Defined.
