(* ===== verification/Localsock.v ===== *)
(** Named listening sockets, [src/fs/localsock.c]. Files are numbers; a call runs in
    parts, each under [table_lock], and other tasks run in between. The two ends
    of a new connection ([file_open_local_pair]) are two files that were not open
    before. *)
From stdpp Require Import base tactics numbers list sets relations.
From Stdlib Require Import ZArith Lia.
From S2P Require Import Prelude Errno Ring.

Open Scope Z_scope.

Definition LOCAL_BACKLOG_MAX : Z := 16.
Definition LOCAL_LISTENERS_MAX : Z := 32.
Definition POLLIN : Z := 0x001.

Record local_listener := mkListener { queue : list Z; head : Z; count : Z; capacity : Z; id : Z }.

(** [table] and [next_id]. *)
Record listeners := mkListeners { table : list (option local_listener); next_id : Z }.
Definition listeners_static : listeners := mkListeners (replicate (Z.to_nat LOCAL_LISTENERS_MAX) None) 1.

Fixpoint find_slot (P : option local_listener -> bool) (l : list (option local_listener)) (i : nat) : option nat :=
  match l with [] => None | x :: l' => if P x then Some i else find_slot P l' (S i) end.

Definition has_id (k : Z) (x : option local_listener) : bool := match x with Some l => id l =? k | None => false end.
Definition is_empty (x : option local_listener) : bool := match x with Some _ => false | None => true end.

(** The place in the table and the listener. *)
Definition find_locked (k : Z) (t : listeners) : option (nat * local_listener) :=
  match find_slot (has_id k) (table t) 0 with
  | Some i => match table t !! i with Some (Some l) => Some (i, l) | _ => None end
  | None => None
  end.

(** [memory]: [kmalloc] found some. The result: the listener's number. *)
Definition local_listener_create (memory : bool) (backlog : Z) (t : listeners) : option Z * listeners :=
  if negb memory then (None, t)
  else
    let cap := if backlog <? 1 then 1 else if LOCAL_BACKLOG_MAX <? backlog then LOCAL_BACKLOG_MAX else backlog in
    match find_slot is_empty (table t) 0 with
    | Some i =>
        let l := mkListener (replicate (Z.to_nat LOCAL_BACKLOG_MAX) 0) 0 0 cap (next_id t) in
        (Some (next_id t), mkListeners (<[i := Some l]> (table t)) (u64 (next_id t + 1)))
    | None => (None, t)
    end.

(** The connections waiting, oldest first. *)
Definition waiting (l : local_listener) : list Z := ring LOCAL_BACKLOG_MAX (queue l) (head l) (count l).

(** The listener at place [i] goes; the files it closes. *)
Definition local_listener_close (i : nat) (l : local_listener) (t : listeners) : list Z * listeners :=
  (waiting l, mkListeners (<[i := None]> (table t)) (next_id t)).

(** How a part of [local_connect] ends: refused, a pair wanted, connected (the
    caller's end), the pair given back and another look, interrupted, asleep. *)
Inductive connect_end :=
| Refused | WantsPair | Connected (mine : Z) | GaveBack | Interrupted | Sleeps.

(** One round of the loop, with the lock held; [held]: [mine] and [theirs]. The
    files closed and whether it woke others. *)
Definition connect_round (interrupted : bool) (k : Z) (held : option (Z * Z)) (t : listeners)
  : connect_end * list Z * bool * listeners :=
  match find_locked k t with
  | None => (Refused, match held with Some (m, s) => [m; s] | None => [] end, false, t)
  | Some (i, l) =>
      if count l <? capacity l then
        match held with
        | None => (WantsPair, [], false, t)
        | Some (mine, theirs) =>
            let l := mkListener (put (queue l) ((head l + count l) mod LOCAL_BACKLOG_MAX) theirs) (head l) (count l + 1) (capacity l) (id l) in
            (Connected mine, [], true, mkListeners (<[i := Some l]> (table t)) (next_id t))
        end
      else
        match held with
        | Some (m, s) => (GaveBack, [m; s], false, t)
        | None => if interrupted then (Interrupted, [], false, t) else (Sleeps, [], false, t)
        end
  end.

(** What [local_connect] returns then ([file_open_local_pair] may fail too). *)
Definition connect_result (e : connect_end) : option Z :=
  match e with Refused => Some (- ECONNREFUSED) | Connected _ => Some 0 | Interrupted => Some (- EINTR) | _ => None end.

(** A part of [local_accept] of the listener at place [i]: [None] is sleep,
    [Some None] an interruption, [Some (Some f)] the connection. *)
Definition local_accept (interrupted : bool) (i : nat) (l : local_listener) (t : listeners) : option (option Z) * listeners :=
  if count l =? 0 then (if interrupted then Some None else None, t)
  else
    let f := get (queue l) (head l) in
    let l := mkListener (queue l) ((head l + 1) mod LOCAL_BACKLOG_MAX) (count l - 1) (capacity l) (id l) in
    (Some (Some f), mkListeners (<[i := Some l]> (table t)) (next_id t)).

Definition local_listener_poll (l : local_listener) : Z := if 0 <? count l then POLLIN else 0.

(** * The tasks *)

(** A task is about to look at the table for a connect (with a pair or without),
    is making a pair, is about to look for an accept, or sleeps in one of the two
    calls, on the listener's number. *)
Inductive task :=
| Idle
| Connecting (k : Z) (held : option (Z * Z))
| Opening (k : Z)
| Accepting (k : Z)
| ConnectAsleep (k : Z)
| AcceptAsleep (k : Z).

(** [sched_wakeup(channel_of(k))] *)
Definition woken (k : Z) (t : task) : task :=
  match t with
  | ConnectAsleep k' => if k' =? k then Connecting k' None else t
  | AcceptAsleep k' => if k' =? k then Accepting k' else t
  | t => t
  end.
Definition wake (woke : bool) (k : Z) (l : list task) : list task := if woke then woken k <$> l else l.

(** [open]: all open files of connections; [handed]: those that callers have.
    [queued k] and [accepted k]: what has gone into and come out of the queue of
    listener [k], in order. *)
Record system := mkSystem {
  socks : listeners;
  tasks : list task;
  open : list Z;
  handed : list Z;
  queued : Z -> list Z;
  accepted : Z -> list Z }.

Definition append (f : Z -> list Z) (k x : Z) : Z -> list Z := fun k' => if k' =? k then f k' ++ [x] else f k'.

Definition start (n : nat) : system := mkSystem listeners_static (replicate n Idle) [] [] (fun _ => []) (fun _ => []).

(** Where a task is after a round of [local_connect]. *)
Definition after_connect (e : connect_end) (k : Z) : task :=
  match e with
  | Refused | Connected _ | Interrupted => Idle
  | WantsPair => Opening k
  | GaveBack => Connecting k None
  | Sleeps => ConnectAsleep k
  end.

Inductive system_step : system -> system -> Prop :=
| step_create s memory backlog t r :
    next_id (socks s) < 0xFFFFFFFFFFFFFFFF -> local_listener_create memory backlog (socks s) = (r, t) ->
    system_step s (mkSystem t (tasks s) (open s) (handed s) (queued s) (accepted s))
| step_close s i l files t open' :
    table (socks s) !! i = Some (Some l) -> Accepting (id l) ∉ tasks s -> AcceptAsleep (id l) ∉ tasks s ->
    local_listener_close i l (socks s) = (files, t) -> open s ≡ₚ files ++ open' ->
    system_step s (mkSystem t (wake true (id l) (tasks s)) open' (handed s) (queued s) (accepted s))
| step_connect s i k :
    tasks s !! i = Some Idle ->
    system_step s (mkSystem (socks s) (<[i := Connecting k None]> (tasks s)) (open s) (handed s) (queued s) (accepted s))
| step_round s i k held interrupted e files woke t open' :
    tasks s !! i = Some (Connecting k held) -> connect_round interrupted k held (socks s) = (e, files, woke, t) ->
    open s ≡ₚ files ++ open' ->
    system_step s (mkSystem t (<[i := after_connect e k]> (wake woke k (tasks s))) open'
      (match e with Connected mine => mine :: handed s | _ => handed s end)
      (match e, held with Connected _, Some (_, theirs) => append (queued s) k theirs | _, _ => queued s end) (accepted s))
| step_pair s i k mine theirs :
    tasks s !! i = Some (Opening k) -> mine ∉ open s -> theirs ∉ open s -> mine <> theirs ->
    system_step s (mkSystem (socks s) (<[i := Connecting k (Some (mine, theirs))]> (tasks s)) (mine :: theirs :: open s) (handed s) (queued s) (accepted s))
| step_no_pair s i k :
    tasks s !! i = Some (Opening k) ->
    system_step s (mkSystem (socks s) (<[i := Idle]> (tasks s)) (open s) (handed s) (queued s) (accepted s))
| step_accept s i j l :
    tasks s !! i = Some Idle -> table (socks s) !! j = Some (Some l) ->
    system_step s (mkSystem (socks s) (<[i := Accepting (id l)]> (tasks s)) (open s) (handed s) (queued s) (accepted s))
| step_accepting s i j l interrupted r t :
    tasks s !! i = Some (Accepting (id l)) -> table (socks s) !! j = Some (Some l) ->
    local_accept interrupted j l (socks s) = (r, t) ->
    system_step s (mkSystem t
      (<[i := match r with None => AcceptAsleep (id l) | Some _ => Idle end]> (wake (match r with Some (Some _) => true | _ => false end) (id l) (tasks s)))
      (open s) (match r with Some (Some f) => f :: handed s | _ => handed s end) (queued s)
      (match r with Some (Some f) => append (accepted s) (id l) f | _ => accepted s end))
| step_signal s i x k :
    tasks s !! i = Some x -> system_step s (mkSystem (socks s) (<[i := woken k x]> (tasks s)) (open s) (handed s) (queued s) (accepted s))
| step_close_file s l1 f l2 open' :
    handed s = l1 ++ f :: l2 -> open s ≡ₚ f :: open' ->
    system_step s (mkSystem (socks s) (tasks s) open' (l1 ++ l2) (queued s) (accepted s)).

(** * Invariant *)

Definition listener_ok (l : local_listener) : Prop :=
  ring_ok LOCAL_BACKLOG_MAX (queue l) (head l) (count l) /\ 1 <= capacity l <= LOCAL_BACKLOG_MAX /\ count l <= capacity l.

Record table_ok (t : listeners) : Prop := {
  to_listener : forall i l, table t !! i = Some (Some l) -> listener_ok l /\ 1 <= id l < next_id t;
  to_unique : forall i j l l', table t !! i = Some (Some l) -> table t !! j = Some (Some l') -> id l = id l' -> i = j;
  to_next : 1 <= next_id t < 0x10000000000000000 }.

Definition slot_files (x : option local_listener) : list Z := match x with Some l => waiting l | None => [] end.
Definition task_files (t : task) : list Z := match t with Connecting _ (Some (m, s)) => [m; s] | _ => [] end.

(** Nobody sleeps although the call could go on. *)
Definition task_ok (t : listeners) (x : task) : Prop :=
  match x with
  | ConnectAsleep k => exists i l, table t !! i = Some (Some l) /\ id l = k /\ count l = capacity l
  | AcceptAsleep k => exists i l, table t !! i = Some (Some l) /\ id l = k /\ count l = 0
  | Accepting k => exists i l, table t !! i = Some (Some l) /\ id l = k
  | _ => True
  end.

Record system_ok (s : system) : Prop := {
  ok_table : table_ok (socks s);
  ok_files : open s ≡ₚ concat (slot_files <$> table (socks s)) ++ concat (task_files <$> tasks s) ++ handed s;
  ok_nodup : NoDup (open s);
  ok_fifo : forall i l, table (socks s) !! i = Some (Some l) -> queued s (id l) = accepted s (id l) ++ waiting l;
  ok_prefix : forall k, accepted s k `prefix_of` queued s k;
  ok_future : forall k, next_id (socks s) <= k -> queued s k = [] /\ accepted s k = [];
  ok_tasks : Forall (task_ok (socks s)) (tasks s) }.

Lemma backlog_pos : 0 < LOCAL_BACKLOG_MAX.
Proof. done. Qed.

Lemma find_listener_slot_spec P l : forall i, match find_slot P l i with
  | Some j => (i <= j)%nat /\ exists x, l !! (j - i)%nat = Some x /\ P x = true
  | None => Forall (fun x => P x = false) l end.
Proof.
  induction l as [|x l IH]; intros i; cbn [find_slot]; [constructor|]. destruct (P x) eqn:HP.
  - split; [lia|]. exists x. by rewrite Nat.sub_diag.
  - specialize (IH (S i)). destruct (find_slot P l (S i)) as [j|]; [|by constructor]. destruct IH as [Hj (y&Hy&HPy)]. split; [lia|]. exists y.
    replace (j - i)%nat with (S (j - S i)) by lia. done.
Qed.

Lemma find_locked_spec k t : table_ok t ->
  match find_locked k t with
  | Some (i, l) => table t !! i = Some (Some l) /\ id l = k
  | None => forall i l, table t !! i = Some (Some l) -> id l <> k
  end.
Proof.
  intros Ht. unfold find_locked. pose proof (find_listener_slot_spec (has_id k) (table t) 0) as HF. destruct (find_slot (has_id k) (table t) 0) as [i|].
  - destruct HF as [_ (x&Hx&HP)]. rewrite Nat.sub_0_r in Hx. rewrite Hx. destruct x as [l|]; [|done]. cbn in HP. by apply Z.eqb_eq in HP.
  - intros i l Hi E. rewrite Forall_lookup in HF. specialize (HF _ _ Hi). cbn in HF. rewrite E, Z.eqb_refl in HF. done.
Qed.

(** A listener changes and keeps its number. *)
Lemma table_update t i l l' : table_ok t -> table t !! i = Some (Some l) -> id l' = id l -> listener_ok l' ->
  table_ok (mkListeners (<[i := Some l']> (table t)) (next_id t)) /\
  (forall j m, <[i := Some l']> (table t) !! j = Some (Some m) -> m = l' \/ (id m <> id l /\ table t !! j = Some (Some m))).
Proof.
  intros [H1 H2 H3] Hi Hid Hl'.
  assert (forall j m, <[i := Some l']> (table t) !! j = Some (Some m) -> (j = i /\ m = l') \/ (j <> i /\ table t !! j = Some (Some m))) as Hlook.
  { intros j m Hj. apply list_lookup_insert_Some in Hj as [(<-&E&_)|[Hne Hj]]; [left|right]; split; congruence. }
  split; [|intros j m Hj; destruct (Hlook j m Hj) as [[_ ->]|[Hne Hj']]; [by left|right; split; [intros E; by apply Hne, (H2 j i m l)|done]]].
  split; [| |done]; cbn [table next_id].
  - intros j m Hj. destruct (Hlook j m Hj) as [[-> ->]|[_ Hj']]; [|by apply (H1 j m)]. split; [done|]. rewrite Hid. by apply (H1 i l).
  - intros j j' m m' Hj Hj' E. destruct (Hlook j m Hj) as [[-> ->]|[Hn Hm]], (Hlook j' m' Hj') as [[-> ->]|[Hn' Hm']]; [done| | |by eapply H2].
    + destruct Hn'. apply (H2 j' i m' l Hm' Hi). congruence.
    + destruct Hn. apply (H2 j i m l Hm Hi). congruence.
Qed.

Lemma pushed_listener l f : listener_ok l -> count l < capacity l ->
  let l' := mkListener (put (queue l) ((head l + count l) mod LOCAL_BACKLOG_MAX) f) (head l) (count l + 1) (capacity l) (id l) in
  listener_ok l' /\ waiting l' = waiting l ++ [f].
Proof.
  intros (H1&H2&H3) Hc. destruct (ring_push _ backlog_pos _ _ _ f H1) as [E H1']; [lia|]. split; [|exact E]. split; [exact H1'|]. cbn. lia.
Qed.

Lemma popped_listener l : listener_ok l -> count l <> 0 ->
  let l' := mkListener (queue l) ((head l + 1) mod LOCAL_BACKLOG_MAX) (count l - 1) (capacity l) (id l) in
  listener_ok l' /\ waiting l = get (queue l) (head l) :: waiting l'.
Proof.
  intros (H1&H2&H3) Hc. pose proof (ring_count _ _ _ _ H1). destruct (ring_pop _ backlog_pos _ _ _ H1) as [E H1']; [lia|].
  split; [|exact E]. split; [exact H1'|]. cbn. lia.
Qed.

(** Waking changes no files, and tasks that are woken are in order. *)
Lemma wake_files woke k l : concat (task_files <$> wake woke k l) = concat (task_files <$> l).
Proof.
  destruct woke; [|done]. cbn. rewrite <- list_fmap_compose. f_equal. apply list_fmap_ext. intros i x _. cbn.
  by destruct x as [|? []| | |k'|k']; cbn; try destruct (k' =? k).
Qed.

Lemma wake_lookup woke k l i x : l !! i = Some x -> woken k x = x -> wake woke k l !! i = Some x.
Proof. intros Hi Hx. destruct woke; [|done]. cbn. rewrite list_lookup_fmap, Hi. cbn. by rewrite Hx. Qed.

(** The table has changed at the listener [k] only, which still exists: everyone
    else may sleep on. *)
Lemma wake_tasks_ok t t' k l : Forall (task_ok t) l ->
  (exists i m, table t' !! i = Some (Some m) /\ id m = k) ->
  (forall i m, table t !! i = Some (Some m) -> id m <> k -> table t' !! i = Some (Some m)) ->
  Forall (task_ok t') (wake true k l).
Proof.
  intros Hl Hk Hsame. cbn. apply Forall_fmap. eapply Forall_impl; [exact Hl|]. intros x Hx. cbn.
  destruct x as [|? ?| |k'|k'|k']; cbn in *; try done.
  - destruct Hx as (i&m&Hi&Hm). destruct (decide (k' = k)) as [->|]; [done|]. exists i, m. split; [apply Hsame; congruence|done].
  - destruct Hx as (i&m&Hi&Hm&?). destruct (Z.eqb_spec k' k); [done|]. cbn. exists i, m. split; [apply Hsame; congruence|done].
  - destruct Hx as (i&m&Hi&Hm&?). destruct (Z.eqb_spec k' k) as [->|]; [done|]. cbn. exists i, m. split; [apply Hsame; congruence|done].
Qed.

(** Permutations by counting. *)
Ltac perm_count :=
  apply (Permutation_count_occ Z.eq_dec); intros x0;
  repeat match goal with
  | H : _ ≡ₚ _ |- _ => let H' := fresh in pose proof (proj1 (Permutation_count_occ Z.eq_dec _ _) H x0) as H'; clear H
  end;
  repeat (rewrite ?count_occ_app in *; cbn [count_occ app] in *);
  repeat match goal with
  | |- context [Z.eq_dec ?a ?b] => destruct (Z.eq_dec a b)
  | H : context [Z.eq_dec ?a ?b] |- _ => destruct (Z.eq_dec a b)
  end; lia.

Lemma create_step_ok s memory backlog t r : system_ok s -> next_id (socks s) < 0xFFFFFFFFFFFFFFFF ->
  local_listener_create memory backlog (socks s) = (r, t) ->
  system_ok (mkSystem t (tasks s) (open s) (handed s) (queued s) (accepted s)).
Proof.
  intros [K1 K2 K3 K4 K5 K6 K7] Hnext Hc. unfold local_listener_create in Hc. destruct memory; [|by injection Hc as <- <-]. cbn [negb] in Hc.
  pose proof (find_listener_slot_spec is_empty (table (socks s)) 0) as HF. destruct (find_slot is_empty (table (socks s)) 0) as [i|]; [|by injection Hc as <- <-].
  destruct HF as [_ (x&Hx&HP)]. rewrite Nat.sub_0_r in Hx. destruct x; [done|]. injection Hc as _ <-. set (cap := if backlog <? 1 then _ else _).
  assert (1 <= cap <= LOCAL_BACKLOG_MAX) as Hcap by (unfold cap, LOCAL_BACKLOG_MAX; destruct (Z.ltb_spec backlog 1), (Z.ltb_spec 16 backlog); lia).
  set (l := mkListener _ 0 0 cap _). rewrite u64_small by (pose proof (to_next _ K1); lia).
  assert (waiting l = []) as Hw by done.
  assert (forall j m, <[i := Some l]> (table (socks s)) !! j = Some (Some m) -> (j = i /\ m = l) \/ table (socks s) !! j = Some (Some m)) as Hlook.
  { intros j m Hj. apply list_lookup_insert_Some in Hj as [(<-&E&_)|[_ Hj]]; [left; split; congruence|by right]. }
  destruct (concat_fmap_insert slot_files (table (socks s)) i None (Some l) Hx) as (rest&P1&P2). cbn [slot_files app] in P1, P2. rewrite Hw in P2.
  split; cbn [socks tasks open handed queued accepted]; try done.
  - destruct K1 as [T1 T2 T3]. split; cbn [table next_id]; [| |lia].
    + intros j m Hj. destruct (Hlook j m Hj) as [[-> ->]|Hm]; [|destruct (T1 j m Hm); split; [done|lia]]. split; [|cbn; lia].
      split; [split; cbn; unfold LOCAL_BACKLOG_MAX; lia|]. cbn. lia.
    + intros j j' m m' Hj Hj' E. destruct (Hlook j m Hj) as [[-> ->]|Hm], (Hlook j' m' Hj') as [[-> ->]|Hm']; [done| | |by eapply T2].
      * destruct (T1 j' m' Hm'). cbn in E. lia.
      * destruct (T1 j m Hm). cbn in E. lia.
  - cbn [table]. rewrite K2, P1, P2. done.
  - intros j m Hj. cbn in Hj. destruct (Hlook j m Hj) as [[-> ->]|Hm]; [|by eapply K4]. cbn [id l]. rewrite Hw. destruct (K6 (next_id (socks s))) as [-> ->]; [lia|done].
  - intros k Hk. cbn in Hk. apply K6. lia.
  - eapply Forall_impl; [exact K7|]. assert (forall j m, table (socks s) !! j = Some (Some m) -> <[i := Some l]> (table (socks s)) !! j = Some (Some m)) as Hkeep.
    { intros j m Hm. rewrite list_lookup_insert_ne; [done|]. intros ->. congruence. }
    intros x Hx'. destruct x; cbn in *; try done; destruct Hx' as (j&m&Hj&?); exists j, m; split; auto.
Qed.

Lemma close_step_ok s i l files t open' : system_ok s ->
  table (socks s) !! i = Some (Some l) -> Accepting (id l) ∉ tasks s -> AcceptAsleep (id l) ∉ tasks s ->
  local_listener_close i l (socks s) = (files, t) -> open s ≡ₚ files ++ open' ->
  system_ok (mkSystem t (wake true (id l) (tasks s)) open' (handed s) (queued s) (accepted s)).
Proof.
  intros [K1 K2 K3 K4 K5 K6 K7] Hi Hna Hns [= <- <-] Hopen.
  destruct (concat_fmap_insert slot_files (table (socks s)) i (Some l) None Hi) as (rest&P1&P2). cbn [slot_files app] in P1, P2.
  assert (forall j m, <[i := None]> (table (socks s)) !! j = Some (Some m) -> table (socks s) !! j = Some (Some m)) as Hlook.
  { intros j m Hj. by apply list_lookup_insert_Some in Hj as [(_&E&_)|[_ Hj]]. }
  assert (forall j m, table (socks s) !! j = Some (Some m) -> id m <> id l -> <[i := None]> (table (socks s)) !! j = Some (Some m)) as Hkeep.
  { intros j m Hj Hne. rewrite list_lookup_insert_ne; [done|]. intros ->. congruence. }
  split; cbn [socks tasks open handed queued accepted table next_id]; try done.
  - destruct K1 as [T1 T2 T3]. split; cbn [table next_id]; [| |done].
    + intros j m Hj. by apply (T1 j m), Hlook.
    + intros j j' m m' Hj Hj'. by apply T2; apply Hlook.
  - rewrite wake_files. perm_count.
  - rewrite Hopen in K3. by apply NoDup_app in K3 as (_&_&?).
  - intros j m Hj. by eapply K4, Hlook.
  - apply Forall_fmap, Forall_forall. intros x Hx. rewrite Forall_forall in K7. specialize (K7 x Hx).
    destruct x as [|? ?| |k'|k'|k']; cbn in *; try done.
    + destruct K7 as (j&m&Hj&<-). exists j, m. split; [|done]. apply Hkeep; [done|]. intros E. rewrite E in Hx. done.
    + destruct (Z.eqb_spec k' (id l)); [done|]. cbn. destruct K7 as (j&m&Hj&<-&?). exists j, m. split; [by apply Hkeep|done].
    + destruct (Z.eqb_spec k' (id l)) as [->|]; [done|]. cbn. destruct K7 as (j&m&Hj&<-&?). exists j, m. split; [by apply Hkeep|done].
Qed.

(** Task [i] goes on to [x], which holds what it held. *)
Lemma insert_tasks_ok t l i x : Forall (task_ok t) l -> task_ok t x -> Forall (task_ok t) (<[i := x]> l).
Proof. apply Forall_insert. Qed.

Lemma round_step_ok s i k held interrupted e files woke t open' : system_ok s ->
  tasks s !! i = Some (Connecting k held) -> connect_round interrupted k held (socks s) = (e, files, woke, t) ->
  open s ≡ₚ files ++ open' ->
  system_ok (mkSystem t (<[i := after_connect e k]> (wake woke k (tasks s))) open'
    (match e with Connected mine => mine :: handed s | _ => handed s end)
    (match e, held with Connected _, Some (_, theirs) => append (queued s) k theirs | _, _ => queued s end) (accepted s)).
Proof.
  intros [K1 K2 K3 K4 K5 K6 K7] Hi Hr Hopen. assert (NoDup open') as Hnd by (rewrite Hopen in K3; by apply NoDup_app in K3 as (_&_&?)). unfold connect_round in Hr. pose proof (find_locked_spec k (socks s) K1) as HF.
  destruct (concat_fmap_insert task_files (wake woke k (tasks s)) i (Connecting k held) (after_connect e k)) as (rest&P1&P2); [by apply wake_lookup|].
  rewrite wake_files in P1. destruct (find_locked k (socks s)) as [[j l]|].
  - destruct HF as [Hj Hid]. destruct (to_listener _ K1 _ _ Hj) as [Hl Hidr]. destruct (Z.ltb_spec (count l) (capacity l)) as [Hroom|Hfull].
    + destruct held as [[mine theirs]|].
      * injection Hr as <- <- <- <-. set (l' := mkListener _ _ _ _ _). destruct (pushed_listener l theirs Hl Hroom) as [Hl' Hw]. fold l' in Hl', Hw.
        destruct (table_update (socks s) j l l' K1 Hj eq_refl Hl') as [T1 T2].
        destruct (concat_fmap_insert slot_files (table (socks s)) j (Some l) (Some l') Hj) as (restt&Q1&Q2).
        cbn [slot_files task_files after_connect app] in *. rewrite Hw in Q2.
        split; cbn [socks tasks open handed queued accepted table next_id]; [done| | | | | |].
        -- perm_count.
        -- done.
        -- intros j' m Hj'. unfold append. destruct (T2 j' m Hj') as [->|[Hne Hm]].
           ++ change (id l') with (id l). rewrite Hid, Z.eqb_refl, Hw, app_assoc. f_equal. rewrite <- Hid. by apply (K4 j).
           ++ rewrite (proj2 (Z.eqb_neq (id m) k)) by congruence. by apply (K4 j').
        -- intros k'. unfold append. destruct (k' =? k); [|apply K5]. by apply prefix_app_r.
        -- intros k' Hk'. unfold append. rewrite (proj2 (Z.eqb_neq k' k)) by lia. by apply K6.
        -- apply Forall_insert; [|done]. eapply wake_tasks_ok; [exact K7| |].
           ++ exists j, l'. cbn. split; [|done]. rewrite list_lookup_insert_eq; [done|]. by eapply lookup_lt_Some.
           ++ intros j' m Hj' Hne. cbn. rewrite list_lookup_insert_ne; [done|]. intros ->. congruence.
      * injection Hr as <- <- <- <-. cbn [app task_files after_connect] in *. split; cbn [socks tasks open handed queued accepted]; try done; [perm_count|].
        by apply Forall_insert.
    + destruct held as [[m0 s0]|].
      * injection Hr as <- <- <- <-. cbn [app task_files after_connect] in *. split; cbn [socks tasks open handed queued accepted]; try done; [perm_count|by apply Forall_insert].
      * destruct interrupted; injection Hr as <- <- <- <-; cbn [app task_files after_connect] in *;
          (split; cbn [socks tasks open handed queued accepted]; try done; [perm_count|apply Forall_insert; [done|]]); [done|].
        exists j, l. destruct Hl as (_&_&?). split_and!; [done|done|lia].
  - injection Hr as <- <- <- <-. cbn [app task_files after_connect] in *. split; cbn [socks tasks open handed queued accepted]; try done; [|by apply Forall_insert].
    destruct held as [[m0 s0]|]; perm_count.
Qed.

Lemma accepting_step_ok s i j l interrupted r t : system_ok s ->
  tasks s !! i = Some (Accepting (id l)) -> table (socks s) !! j = Some (Some l) ->
  local_accept interrupted j l (socks s) = (r, t) ->
  system_ok (mkSystem t
    (<[i := match r with None => AcceptAsleep (id l) | Some _ => Idle end]> (wake (match r with Some (Some _) => true | _ => false end) (id l) (tasks s)))
    (open s) (match r with Some (Some f) => f :: handed s | _ => handed s end) (queued s)
    (match r with Some (Some f) => append (accepted s) (id l) f | _ => accepted s end)).
Proof.
  intros [K1 K2 K3 K4 K5 K6 K7] Hi Hj Hr. unfold local_accept in Hr. destruct (to_listener _ K1 _ _ Hj) as [Hl Hidr]. destruct (Z.eqb_spec (count l) 0) as [H0|H0].
  - injection Hr as <- <-. destruct (concat_fmap_insert task_files (tasks s) i _ (if interrupted then Idle else AcceptAsleep (id l)) Hi) as (rest&P1&P2).
    destruct interrupted; cbn [wake task_files app] in *; (split; cbn [socks tasks open handed queued accepted]; try done; [perm_count|apply Forall_insert; [done|]]); [done|].
    by exists j, l.
  - injection Hr as <- <-. set (l' := mkListener _ _ _ _ _). set (f := get (queue l) (head l)). destruct (popped_listener l Hl H0) as [Hl' Hw]. fold l' f in Hl', Hw.
    destruct (concat_fmap_insert task_files (wake true (id l) (tasks s)) i (Accepting (id l)) Idle) as (rest&P1&P2); [by apply wake_lookup|]. rewrite wake_files in P1.
    destruct (table_update (socks s) j l l' K1 Hj eq_refl Hl') as [T1 T2].
    destruct (concat_fmap_insert slot_files (table (socks s)) j (Some l) (Some l') Hj) as (restt&Q1&Q2). cbn [slot_files task_files app] in *. rewrite Hw in Q1.
    split; cbn [socks tasks open handed queued accepted table next_id]; [done| |done| | | |].
    + perm_count.
    + intros j' m Hj'. unfold append. destruct (T2 j' m Hj') as [->|[Hne Hm]].
      * change (id l') with (id l). rewrite Z.eqb_refl, (K4 j l Hj), Hw, <- app_assoc. done.
      * rewrite (proj2 (Z.eqb_neq (id m) (id l))) by done. by apply (K4 j').
    + intros k'. unfold append. destruct (Z.eqb_spec k' (id l)) as [->|]; [|apply K5]. rewrite (K4 j l Hj), Hw. exists (waiting l'). by rewrite <- app_assoc.
    + intros k' Hk'. unfold append. rewrite (proj2 (Z.eqb_neq k' (id l))) by lia. by apply K6.
    + apply Forall_insert; [|done]. eapply wake_tasks_ok; [exact K7| |].
      * exists j, l'. cbn. split; [|done]. rewrite list_lookup_insert_eq; [done|]. by eapply lookup_lt_Some.
      * intros j' m Hj' Hne. cbn. rewrite list_lookup_insert_ne; [done|]. intros ->. congruence.
Qed.

(** The table does not change: what task [i] holds, and that it is in order, is
    all there is to show. *)
Lemma task_step_ok s i x y open' handed' : system_ok s -> tasks s !! i = Some x -> NoDup open' ->
  (forall rest, concat (task_files <$> tasks s) ≡ₚ task_files x ++ rest ->
     open' ≡ₚ concat (slot_files <$> table (socks s)) ++ (task_files y ++ rest) ++ handed') ->
  task_ok (socks s) y ->
  system_ok (mkSystem (socks s) (<[i := y]> (tasks s)) open' handed' (queued s) (accepted s)).
Proof.
  intros [K1 K2 K3 K4 K5 K6 K7] Hi Hnd Hfiles Hy. destruct (concat_fmap_insert task_files (tasks s) i x y Hi) as (rest&P1&P2).
  split; cbn [socks tasks open handed queued accepted]; try done; [|by apply Forall_insert]. rewrite P2. by apply Hfiles.
Qed.

Lemma local_step_ok s s' : system_ok s -> system_step s s' -> system_ok s'.
Proof.
  intros Hs Hstep. pose proof Hs as [K1 K2 K3 K4 K5 K6 K7].
  destruct Hstep as [s memory backlog t r Hn Hc|s i l files t open' Hi Ha1 Ha2 Hc Ho|s i k Hi|s i k held intr e files woke t open' Hi Hr Ho
    |s i k mine theirs Hi Hm Ht Hne|s i k Hi|s i j l Hi Hj|s i j l intr r t Hi Hj Hr|s i x k Hi|s l1 f l2 open' Hh Ho].
  - by eapply create_step_ok.
  - by eapply close_step_ok.
  - eapply task_step_ok; [done|exact Hi|done| |done]. intros rest P. cbn in *. perm_count.
  - by eapply round_step_ok.
  - eapply task_step_ok; [done|exact Hi| | |done].
    + apply NoDup_cons. split; [set_solver|]. by apply NoDup_cons.
    + intros rest P. cbn in *. perm_count.
  - eapply task_step_ok; [done|exact Hi|done| |done]. intros rest P. cbn in *. perm_count.
  - eapply task_step_ok; [done|exact Hi|done| |by exists j, l]. intros rest P. cbn in *. perm_count.
  - by eapply accepting_step_ok.
  - eapply task_step_ok; [done|exact Hi|done| |].
    + intros rest P. assert (task_files (woken k x) = task_files x) as -> by (destruct x as [|? []| | |k'|k']; cbn; try destruct (k' =? k); done). perm_count.
    + rewrite Forall_lookup in K7. specialize (K7 _ _ Hi). destruct x as [| | | |k'|k']; cbn in *; try done; destruct (k' =? k); try done.
      destruct K7 as (j&l&?&?&_). by exists j, l.
  - split; cbn [socks tasks open handed queued accepted]; try done; [rewrite Hh in K2; perm_count|]. rewrite Ho in K3. by apply NoDup_cons in K3 as [_ ?].
Qed.

Lemma local_start_ok n : system_ok (start n).
Proof.
  assert (concat (slot_files <$> table listeners_static) = []) as E1 by done.
  assert (concat (task_files <$> replicate n Idle) = []) as E2 by (induction n; done).
  split; cbn [start socks tasks open handed queued accepted]; try done.
  - split; cbn [listeners_static table next_id]; [| |lia].
    + intros i l Hi. by apply lookup_replicate in Hi as [? _].
    + intros i j l l' Hi. by apply lookup_replicate in Hi as [? _].
  - rewrite E1, E2. done.
  - constructor.
  - intros i l Hi. by apply lookup_replicate in Hi as [? _].
  - by apply Forall_replicate.
Qed.

(** * Properties *)

(** C37. Local connections, in every interleaving of connects, accepts, closing and
    signals: connections are accepted in the order they were queued, each once;
    numbers of listeners are never used twice; no file leaks (an open end waits in
    a queue, belongs to a call that is running, or has been handed to a caller; a
    task that sleeps holds none); and no task sleeps although its call could go
    on (a connect that sleeps has a listener that is full, an accept one that is
    empty). *)
Theorem local_sockets_sound n s :
  rtc system_step (start n) s ->
  (forall k, accepted s k `prefix_of` queued s k) /\
  (forall i l, table (socks s) !! i = Some (Some l) -> queued s (id l) = accepted s (id l) ++ waiting l /\ id l < next_id (socks s)) /\
  (forall i j l l', table (socks s) !! i = Some (Some l) -> table (socks s) !! j = Some (Some l') -> id l = id l' -> i = j) /\
  NoDup (open s) /\ open s ≡ₚ concat (slot_files <$> table (socks s)) ++ concat (task_files <$> tasks s) ++ handed s /\
  (forall k, ConnectAsleep k ∈ tasks s -> exists i l, table (socks s) !! i = Some (Some l) /\ id l = k /\ count l = capacity l) /\
  (forall k, AcceptAsleep k ∈ tasks s -> exists i l, table (socks s) !! i = Some (Some l) /\ id l = k /\ count l = 0).
Proof.
  intros Hr. destruct (rtc_invariant system_step system_ok (start n) s local_step_ok (local_start_ok n) Hr) as [K1 K2 K3 K4 K5 K6 K7].
  rewrite Forall_forall in K7. split; [done|]. split; [|split; [apply (to_unique _ K1)|]].
  - intros i l Hi. split; [by apply (K4 i)|]. by destruct (to_listener _ K1 i l Hi) as [_ [_ ?]].
  - split; [done|]. split; [done|]. split; intros k Hk; exact (K7 _ Hk).
Qed.

(** ** Example: a listener, and a connect to it. *)

Notation made := (local_listener_create true 1 listeners_static).
Notation after_1 := (mkSystem made.2 [Idle] [] [] (fun _ => []) (fun _ => [])).
Notation after_2 := (mkSystem made.2 [Connecting 1 None] [] [] (fun _ => []) (fun _ => [])).

Lemma local_sockets_sound_witness : NoDup (open after_2).
Proof.
  refine (proj1 (proj2 (proj2 (proj2 (local_sockets_sound 1 after_2 _))))).
  apply (rtc_l _ _ after_1); [exact (step_create (start 1) true 1 made.2 made.1 eq_refl eq_refl)|].
  apply (rtc_l _ _ after_2); [exact (step_connect after_1 0 1 eq_refl)|apply rtc_refl].
Defined.
