(* ===== verification/Slab.v ===== *)
(** Object caches, [src/mm/slab.c]. A page of objects is kept with its free list as
    the list of its free objects (the code chains them through their first eight
    bytes) and the lists of pages as lists; [bytes] is the memory itself, for the
    poison of the free objects and for the first word of a page, which in a page of
    objects is the address of its cache and in any other page can be anything. Every
    address can be read; a pointer into memory that is not mapped would fault. One lock
    covers every call. *)
From stdpp Require Import base tactics numbers list sets gmap relations.
From Stdlib Require Import ZArith Lia.
From S2P Require Import Prelude Pmm Cow SwapSlots Vmm VmmInv VmmProps.

Open Scope Z_scope.

Definition POISON : Z := 0x6b.
Definition LINK : Z := 8.
(** [sizeof(slab_page_t)] *)
Definition SLAB_HEADER : Z := 32.

Record slab_page_t := mkSlab { addr : Z; freelist : list Z; inuse : Z }.
#[export] Instance slab_page_t_eq_dec : EqDecision slab_page_t.
Proof. solve_decision. Defined.

(** [self]: the address of the structure. *)
Record kmem_cache := mkCache {
  self : Z; name : list Z; object_size : Z; aligned_size : Z; align : Z; first_offset : Z; objects_per_slab : Z;
  pages : Z; objects_in_use : Z; slabs_full : list slab_page_t; slabs_partial : list slab_page_t }.

(** The allocator below, the memory, and the statics. *)
Record slab := mkState {
  owned : cow; bytes : Z -> Z; poison_damage : Z; poison_damage_fatal : bool; cache_chain : list Z }.

Definition with_memory (st : slab) (o : cow) (m : Z -> Z) : slab :=
  mkState o m (poison_damage st) (poison_damage_fatal st) (cache_chain st).

Definition slab_of (obj : Z) : Z := Z.land obj (u64 (Z.lnot (PAGE_SIZE - 1))).

(** [slab->cache] of the page at [page]: eight bytes, the lowest first. *)
Fixpoint le_word (n : nat) (m : Z -> Z) (a : Z) : Z :=
  match n with O => 0 | S n' => u8 (m a) + 0x100 * le_word n' m (a + 1) end.
Definition cache_of (m : Z -> Z) (page : Z) : Z := le_word 8 m page.
Definition set_cache (page v : Z) (m : Z -> Z) : Z -> Z :=
  fun x => if (page <=? x) && (x <? page + 8) then u8 (Z.shiftr v (8 * (x - page))) else m x.

Definition poison_object (c : kmem_cache) (obj : Z) (m : Z -> Z) : Z -> Z :=
  fun x => if (obj + LINK <=? x) && (x <? obj + aligned_size c) then POISON else m x.

Fixpoint unpoisoned_from (n : nat) (i obj : Z) (m : Z -> Z) : Z :=
  match n with O => 0 | S n' => if negb (m (obj + i) =? POISON) then i else unpoisoned_from n' (i + 1) obj m end.
Definition first_unpoisoned (c : kmem_cache) (obj : Z) (m : Z -> Z) : Z :=
  unpoisoned_from (Z.to_nat (aligned_size c - LINK)) LINK obj m.

Definition with_lists (c : kmem_cache) (n used : Z) (full partial : list slab_page_t) : kmem_cache :=
  mkCache (self c) (name c) (object_size c) (aligned_size c) (align c) (first_offset c) (objects_per_slab c) n used full partial.

Definition object_at (c : kmem_cache) (page : Z) (i : nat) : Z := page + first_offset c + Z.of_nat i * aligned_size c.

(** The objects from [i - 1] down to 0 go on the free list. *)
Fixpoint chain_objects (c : kmem_cache) (page : Z) (i : nat) (l : list Z) (m : Z -> Z) : list Z * (Z -> Z) :=
  match i with
  | O => (l, m)
  | S i' => chain_objects c page i' (object_at c page i' :: l) (poison_object c (object_at c page i') m)
  end.

Definition slab_page_create (c : kmem_cache) (st : slab) : option (slab_page_t * kmem_cache) * slab :=
  let '(phys, o) := alloc_frame (owned st) in
  if phys =? 0 then (None, with_memory st o (bytes st))
  else
    let page := u64 (phys + hhdm_off (frames o)) in
    let '(l, m) := chain_objects c page (Z.to_nat (objects_per_slab c)) [] (set_cache page (self c) (bytes st)) in
    (Some (mkSlab page l 0, with_lists c (pages c + 1) (objects_in_use c) (slabs_full c) (slabs_partial c)),
     with_memory st o m).

Fixpoint unlink_slab (l : list slab_page_t) (a : Z) : list slab_page_t :=
  match l with [] => [] | p :: l' => if addr p =? a then l' else p :: unlink_slab l' a end.

(** [ptr]: what [kmalloc] returned for the cache itself, 0 when there is no memory. *)
Definition kmem_cache_create (ptr : Z) (nm : list Z) (size al : Z) (st : slab) : option kmem_cache * slab :=
  if size =? 0 then (None, st)
  else
    let al := if al <? 8 then 8 else al in
    if negb (Z.land al (al - 1) =? 0) then (None, st)
    else if 1024 <? al then (None, st)
    else
      let asize := Z.land (u64 (size + al - 1)) (u64 (Z.lnot (al - 1))) in
      let first := Z.land (u64 (SLAB_HEADER + al - 1)) (u64 (Z.lnot (al - 1))) in
      if asize <? size then (None, st)
      else if PAGE_SIZE <? u64 (first + asize) then (None, st)
      else if ptr =? 0 then (None, st)
      else (Some (mkCache ptr (take 31 nm) size asize al first ((PAGE_SIZE - first) / asize) 0 0 [] []),
            mkState (owned st) (bytes st) (poison_damage st) (poison_damage_fatal st) (ptr :: cache_chain st)).

Inductive alloc_result := Null | Object (obj : Z) | Panic.

(** An object of [p], which is the head of [slabs_partial]; [rest] follows it. *)
Definition take_from (c : kmem_cache) (p : slab_page_t) (rest : list slab_page_t) (st : slab) : alloc_result * kmem_cache * slab :=
  match freelist p with
  | [] => (Panic, c, st)         (* a read through NULL *)
  | obj :: free =>
      let p := mkSlab (addr p) free (inuse p + 1) in
      let damaged := negb (first_unpoisoned c obj (bytes st) =? 0) in
      let st := mkState (owned st) (bytes st) (if damaged then poison_damage st + 1 else poison_damage st)
                        (poison_damage_fatal st) (cache_chain st) in
      if damaged && poison_damage_fatal st then (Panic, c, st)
      else
        (Object obj,
         match free with
         | [] => with_lists c (pages c) (objects_in_use c + 1) (p :: slabs_full c) rest
         | _ => with_lists c (pages c) (objects_in_use c + 1) (slabs_full c) (p :: rest)
         end, st)
  end.

Definition kmem_cache_alloc (c : kmem_cache) (st : slab) : alloc_result * kmem_cache * slab :=
  match slabs_partial c with
  | p :: rest => take_from c p rest st
  | [] => match slab_page_create c st with
          | (Some (p, c), st) => take_from c p [] st
          | (None, st) => (Null, c, st)
          end
  end.

(** The page with this address. *)
Definition find_page (a : Z) (l : list slab_page_t) : option slab_page_t :=
  match filter (fun p => addr p = a) l with p :: _ => Some p | [] => None end.

Definition replace_page (q : slab_page_t) (l : list slab_page_t) : list slab_page_t :=
  (fun p => if addr p =? addr q then q else p) <$> l.

(** [q] has an object back and is on [partial]: an empty page goes back to the frame
    allocator, unless it is the only page with room. *)
Definition settle_page (c : kmem_cache) (q : slab_page_t) (full partial : list slab_page_t) (st : slab) : kmem_cache * slab :=
  let only_page_with_room := match partial with [p] => addr p =? addr q | _ => false end in
  if (inuse q =? 0) && negb only_page_with_room then
    (with_lists c (pages c - 1) (objects_in_use c - 1) full (unlink_slab partial (addr q)),
     with_memory st (free_frame (u64 (addr q - hhdm_off (frames (owned st)))) (owned st)) (set_cache (addr q) 0 (bytes st)))
  else (with_lists c (pages c) (objects_in_use c - 1) full partial, st).

(** [Stray]: the page names the cache but is none of its pages; what is read as the free
    list is then whatever follows. *)
Inductive free_result := Refused | Freed | Stray.

Definition kmem_cache_free (c : kmem_cache) (obj : Z) (st : slab) : free_result * kmem_cache * slab :=
  if obj =? 0 then (Refused, c, st)
  else
    let a := slab_of obj in
    let offset := u64 (obj - a) in
    let in_page := (cache_of (bytes st) a =? self c) && ((first_offset c <=? offset) && ((offset - first_offset c) mod aligned_size c =? 0) &&
                   ((offset - first_offset c) / aligned_size c <? objects_per_slab c)) in
    if negb in_page then (Refused, c, st)
    else
      match find_page a (slabs_full c ++ slabs_partial c) with
      | None => (Stray, c, st)
      | Some p =>
          let already_free := bool_decide (obj ∈ freelist p) in
          if already_free then (Refused, c, st)
          else
            let was_full := match freelist p with [] => true | _ => false end in
            let st := with_memory st (owned st) (poison_object c obj (bytes st)) in
            let q := mkSlab a (obj :: freelist p) (inuse p - 1) in
            let full := if was_full then unlink_slab (slabs_full c) a else slabs_full c in
            let partial := if was_full then q :: slabs_partial c else replace_page q (slabs_partial c) in
            let '(c, st) := settle_page c q full partial st in (Freed, c, st)
      end.

Definition kmem_cache_stats (c : kmem_cache) : Z * Z * Z := (objects_in_use c, pages c, objects_per_slab c).

Fixpoint unlink_cache (l : list Z) (ptr : Z) : list Z :=
  match l with [] => [] | q :: l' => if q =? ptr then l' else q :: unlink_cache l' ptr end.

(** One page of a list that is given back. *)
Definition free_page (p : slab_page_t) (st : slab) : slab :=
  with_memory st (free_frame (u64 (addr p - hhdm_off (frames (owned st)))) (owned st)) (set_cache (addr p) 0 (bytes st)).

(** The pages of both lists go back, and the cache leaves the chain. *)
Definition kmem_cache_destroy (c : kmem_cache) (st : slab) : slab :=
  let st := fold_left (fun st p => free_page p st) (slabs_full c ++ slabs_partial c) st in
  mkState (owned st) (bytes st) (poison_damage st) (poison_damage_fatal st) (unlink_cache (cache_chain st) (self c)).

(** * The caches' clients *)

(** A client holds the objects it was given and has not freed. It may write to
    them, and calls [kmem_cache_free] with one of them or with any other pointer.
    The rest of memory (the pages of other caches, the pages given back) is written by
    others, who start no page with the address of this cache. *)
Inductive client_step : kmem_cache * slab * list Z -> kmem_cache * slab * list Z -> Prop :=
| client_alloc c st held r c' st' : kmem_cache_alloc c st = (r, c', st') ->
    client_step (c, st, held) (c', st', match r with Object obj => obj :: held | _ => held end)
| client_free c st held held' obj ok c' st' : held ≡ₚ obj :: held' -> kmem_cache_free c obj st = (ok, c', st') ->
    client_step (c, st, held) (c', st', held')
| client_bad_free c st held obj ok c' st' : 0 <= obj < 0x10000000000000000 -> obj ∉ held -> kmem_cache_free c obj st = (ok, c', st') ->
    client_step (c, st, held) (c', st', held)
| client_write c st held obj i v : obj ∈ held -> 0 <= i < object_size c ->
    client_step (c, st, held) (c, with_memory st (owned st) (fun x => if x =? obj + i then v else bytes st x), held)
| client_others c st held m :
    (forall p x, p ∈ slabs_full c ++ slabs_partial c -> addr p <= x < addr p + PAGE_SIZE -> m x = bytes st x) ->
    (forall a, a mod PAGE_SIZE = 0 -> a ∉ addr <$> slabs_full c ++ slabs_partial c -> cache_of m a <> self c) ->
    client_step (c, st, held) (c, with_memory st (owned st) m, held).

(** * Invariant *)

(** What [kmem_cache_create] settles. *)
Record geometry (c : kmem_cache) : Prop := {
  ge_self : 0 < self c < 0x10000000000000000;
  ge_align : exists k, 3 <= k <= 10 /\ align c = 2 ^ k;
  ge_size : 1 <= object_size c <= aligned_size c;
  ge_aligned : aligned_size c mod align c = 0 /\ first_offset c mod align c = 0;
  ge_first : SLAB_HEADER <= first_offset c;
  ge_count : 1 <= objects_per_slab c /\ first_offset c + objects_per_slab c * aligned_size c <= PAGE_SIZE }.

Definition slots (c : kmem_cache) (page : Z) : list Z := object_at c page <$> seq 0 (Z.to_nat (objects_per_slab c)).

Definition poisoned (c : kmem_cache) (m : Z -> Z) (obj : Z) : Prop := forall x, obj + LINK <= x < obj + aligned_size c -> m x = POISON.

Lemma aligned_8 c : geometry c -> 8 <= aligned_size c.
Proof.
  intros Hg. destruct (ge_align c Hg) as (k&Hk&Ha). destruct (ge_aligned c Hg) as [Hd _]. pose proof (ge_size c Hg).
  assert (8 <= align c) by (rewrite Ha; apply (Z.pow_le_mono_r 2 3 k); lia).
  apply Z.mod_divide in Hd as [q Hq]; [|lia]. assert (0 < q) by nia. nia.
Qed.

Lemma slots_at c page x : geometry c -> x ∈ slots c page <-> exists i, 0 <= i < objects_per_slab c /\ x = page + first_offset c + i * aligned_size c.
Proof.
  intros Hg. unfold slots. rewrite list_elem_of_fmap. setoid_rewrite elem_of_seq. unfold object_at. split.
  - intros (i&->&Hi). exists (Z.of_nat i). split; [lia|done].
  - intros (i&Hi&->). exists (Z.to_nat i). rewrite Z2Nat.id by lia. split; [done|lia].
Qed.

Lemma slots_in_page c page x : geometry c -> x ∈ slots c page -> page + SLAB_HEADER <= x /\ x + aligned_size c <= page + PAGE_SIZE.
Proof.
  intros Hg Hx. apply slots_at in Hx as (i&Hi&->); [|done]. pose proof (ge_first c Hg). pose proof (ge_size c Hg). destruct (ge_count c Hg). nia.
Qed.

(** Different slots, of whatever pages, do not overlap. *)
Lemma slots_apart c p q x y : geometry c -> p mod PAGE_SIZE = 0 -> q mod PAGE_SIZE = 0 -> x ∈ slots c p -> y ∈ slots c q -> x <> y ->
  x + aligned_size c <= y \/ y + aligned_size c <= x.
Proof.
  intros Hg Hp Hq Hx Hy Hxy. destruct (slots_in_page c p x Hg Hx), (slots_in_page c q y Hg Hy). pose proof (ge_size c Hg).
  destruct (Z.lt_trichotomy p q) as [?|[->|?]]; [left|..|right]; [unfold PAGE_SIZE, SLAB_HEADER in *; zlia| |unfold PAGE_SIZE, SLAB_HEADER in *; zlia].
  apply slots_at in Hx as (i&Hi&->), Hy as (j&Hj&->); try done. destruct (Z.lt_trichotomy i j) as [?|[->|?]]; [left; nia|done|right; nia].
Qed.

Lemma slots_page c p q x : geometry c -> p mod PAGE_SIZE = 0 -> q mod PAGE_SIZE = 0 -> x ∈ slots c p -> x ∈ slots c q -> p = q.
Proof.
  intros Hg Hp Hq Hx Hy. destruct (slots_in_page c p x Hg Hx), (slots_in_page c q x Hg Hy). pose proof (ge_size c Hg).
  unfold PAGE_SIZE, SLAB_HEADER in *. zlia.
Qed.

Lemma slots_nodup c page : geometry c -> NoDup (slots c page).
Proof.
  intros Hg. apply NoDup_fmap_2; [|apply NoDup_seq]. intros i j. unfold object_at. pose proof (ge_size c Hg). nia.
Qed.

Lemma unpoisoned_none n : forall i obj m, 0 < i -> unpoisoned_from n i obj m = 0 <-> forall x, obj + i <= x < obj + i + Z.of_nat n -> m x = POISON.
Proof.
  induction n as [|n IH]; intros i obj m Hi; cbn [unpoisoned_from]; [split; [intros; lia|done]|].
  destruct (Z.eqb_spec (m (obj + i)) POISON) as [He|He]; cbn [negb].
  - rewrite IH by lia. split; intros H x Hx; [|apply H; lia]. destruct (decide (x = obj + i)) as [->|]; [done|]. apply H. lia.
  - split; [lia|]. intros H. destruct He. apply H. lia.
Qed.

Lemma object_unpoisoned_none c obj m : geometry c -> first_unpoisoned c obj m = 0 <-> poisoned c m obj.
Proof.
  intros Hg. unfold first_unpoisoned, poisoned. rewrite unpoisoned_none by done. pose proof (aligned_8 c Hg).
  unfold LINK in *. rewrite Z2Nat.id by lia. by replace (obj + 8 + (aligned_size c - 8)) with (obj + aligned_size c) by lia.
Qed.

Lemma poison_same c obj m : poisoned c (poison_object c obj m) obj.
Proof. intros x Hx. unfold poison_object. by rewrite (proj2 (Z.leb_le _ _)), (proj2 (Z.ltb_lt _ _)) by lia. Qed.

Lemma poison_keeps c obj m y : poisoned c m y -> poisoned c (poison_object c obj m) y.
Proof. intros Hm x Hx. unfold poison_object. destruct (_ && _); [done|]. by apply Hm. Qed.

Lemma le_word_ext n : forall m m' a, (forall x, a <= x < a + Z.of_nat n -> m' x = m x) -> le_word n m' a = le_word n m a.
Proof.
  induction n as [|n IH]; intros m m' a Hm; cbn [le_word]; [done|]. rewrite Hm, (IH m m') by lia || (intros; apply Hm; lia). done.
Qed.

Lemma le_word_set n : forall m a v, 0 <= v -> (forall x, a <= x < a + Z.of_nat n -> m x = u8 (Z.shiftr v (8 * (x - a)))) -> le_word n m a = v mod 2 ^ (8 * Z.of_nat n).
Proof.
  induction n as [|n IH]; intros m a v Hv Hm; cbn [le_word]; [by rewrite Z.mod_1_r|].
  rewrite (IH m (a + 1) (v / 0x100)); [|by apply Z.div_pos|].
  - rewrite Hm by lia. rewrite Z.sub_diag, Z.shiftr_0_r. unfold u8. rewrite Zmod_mod. replace (8 * Z.of_nat (S n)) with (8 + 8 * Z.of_nat n) by lia.
    rewrite Z.pow_add_r by lia. change (2 ^ 8) with 0x100. rewrite Z.rem_mul_r by lia. done.
  - intros x Hx. rewrite Hm by lia. f_equal. change 0x100 with (2 ^ 8). rewrite <- Z.shiftr_div_pow2, Z.shiftr_shiftr by lia. f_equal. lia.
Qed.

Lemma cache_of_ext m m' a : (forall x, a <= x < a + 8 -> m' x = m x) -> cache_of m' a = cache_of m a.
Proof. intros Hm. apply (le_word_ext 8). exact Hm. Qed.

Lemma set_cache_same page v m : 0 <= v < 0x10000000000000000 -> cache_of (set_cache page v m) page = v.
Proof.
  intros Hv. unfold cache_of. rewrite (le_word_set 8 _ _ v); [|lia|].
  - change (2 ^ (8 * Z.of_nat 8)) with 0x10000000000000000. by rewrite Z.mod_small.
  - intros x Hx. unfold set_cache. by rewrite (proj2 (Z.leb_le _ _)), (proj2 (Z.ltb_lt _ _)) by lia.
Qed.

Lemma set_cache_out page v m x : x < page \/ page + 8 <= x -> set_cache page v m x = m x.
Proof. intros Hx. unfold set_cache. destruct (Z.leb_spec page x), (Z.ltb_spec x (page + 8)); try done. lia. Qed.

Lemma set_cache_other page v m a : page mod PAGE_SIZE = 0 -> a mod PAGE_SIZE = 0 -> a <> page -> cache_of (set_cache page v m) a = cache_of m a.
Proof. intros Hp Ha Hne. apply cache_of_ext. intros x Hx. apply set_cache_out. unfold PAGE_SIZE in *. zlia. Qed.

(** What lies past the header of a page is not in the first word of any. *)
Lemma past_header p a x y : p mod PAGE_SIZE = 0 -> a mod PAGE_SIZE = 0 -> p + SLAB_HEADER <= x < p + PAGE_SIZE -> a <= y < a + 8 -> x <> y.
Proof. unfold PAGE_SIZE, SLAB_HEADER. intros. zlia. Qed.

Lemma set_cache_poisoned c p a v m obj : geometry c -> p mod PAGE_SIZE = 0 -> a mod PAGE_SIZE = 0 -> obj ∈ slots c p ->
  poisoned c m obj -> poisoned c (set_cache a v m) obj.
Proof.
  intros Hg Hp Ha Ho Hpo x Hx. destruct (slots_in_page c p obj Hg Ho). rewrite set_cache_out; [by apply Hpo|]. unfold LINK in Hx.
  pose proof (past_header p a x x Hp Ha). lia.
Qed.

Lemma poison_cache c p a m obj : geometry c -> p mod PAGE_SIZE = 0 -> a mod PAGE_SIZE = 0 -> obj ∈ slots c p ->
  cache_of (poison_object c obj m) a = cache_of m a.
Proof.
  intros Hg Hp Ha Ho. apply cache_of_ext. intros x Hx. destruct (slots_in_page c p obj Hg Ho). unfold poison_object, LINK.
  destruct (Z.leb_spec (obj + 8) x), (Z.ltb_spec x (obj + aligned_size c)); try done. pose proof (past_header p a x x Hp Ha). lia.
Qed.

Definition frame_no (h : Z) (p : slab_page_t) : Z := (addr p - h) / PAGE_SIZE.
Definition sum_inuse (ps : list slab_page_t) : Z := foldr (fun p n => inuse p + n) 0 ps.
Definition is_free (ps : list slab_page_t) (x : Z) : Prop := exists p, p ∈ ps /\ x ∈ freelist p.

Section pages.
(** The cache's layout, where physical memory is mapped, and who owned which
    frame before the cache took any. *)
Context (c : kmem_cache) (h total : Z) (base : Z -> Z).
Hypothesis Hg : geometry c.
Hypothesis Hh : h mod PAGE_SIZE = 0 /\ 0 <= h /\ h + total * PAGE_SIZE < 0x10000000000000000.

Record page_ok (m : Z -> Z) (p : slab_page_t) : Prop := {
  po_frame : addr p = frame_no h p * PAGE_SIZE + h /\ 1 <= frame_no h p < total;
  po_base : base (frame_no h p) = 0;
  po_free : forall x, x ∈ freelist p -> x ∈ slots c (addr p) /\ poisoned c m x;
  po_nodup : NoDup (freelist p);
  po_inuse : inuse p = objects_per_slab c - Z.of_nat (length (freelist p)) }.

(** The pages [ps] of the cache, in any order, and the objects the client holds. *)
Record pages_ok (st : slab) (held : list Z) (ps : list slab_page_t) : Prop := {
  pa_cow : cow_ok (owned st);
  pa_setup : hhdm_off (frames (owned st)) = h /\ total_frames (frames (owned st)) = total;
  pa_pages : forall p, p ∈ ps -> page_ok (bytes st) p;
  pa_addrs : NoDup (addr <$> ps);
  pa_named : forall a, a mod PAGE_SIZE = 0 -> cache_of (bytes st) a = self c <-> a ∈ addr <$> ps;
  pa_account : forall g, 0 <= g -> owners (owned st) g = base g + (if bool_decide (g ∈ frame_no h <$> ps) then 1 else 0);
  pa_used : Z.of_nat (length held) = sum_inuse ps;
  pa_nodup : NoDup held;
  pa_held : forall x, x ∈ held <-> exists p, p ∈ ps /\ x ∈ slots c (addr p) /\ x ∉ freelist p }.

#[global] Instance sum_inuse_proper : Proper ((≡ₚ) ==> eq) sum_inuse.
Proof. induction 1; unfold sum_inuse in *; cbn [foldr]; lia. Qed.

Lemma pages_ok_perm st held held' ps ps' : held ≡ₚ held' -> ps ≡ₚ ps' -> pages_ok st held ps -> pages_ok st held' ps'.
Proof.
  intros Eh Ep [K1 K2 K3 K4 KN K5 K6 K7 K8]. split; [done|done|..].
  - intros p. rewrite <- Ep. apply K3.
  - by rewrite <- Ep.
  - intros a Ha. by rewrite <- Ep, KN.
  - intros g H. rewrite K5 by done. by rewrite (bool_decide_ext _ (g ∈ frame_no h <$> ps')) by (by rewrite Ep).
  - by rewrite <- Eh, <- Ep.
  - by rewrite <- Eh.
  - intros x. rewrite <- Eh, K8. by setoid_rewrite <- Ep.
Qed.

Lemma page_aligned m p : page_ok m p -> addr p mod PAGE_SIZE = 0.
Proof. intros K. destruct (po_frame _ _ K). destruct Hh. unfold PAGE_SIZE in *. zlia. Qed.

Lemma page_of m m' p q x : page_ok m p -> page_ok m' q -> x ∈ slots c (addr p) -> x ∈ slots c (addr q) -> addr p = addr q.
Proof. intros Kp Kq. eauto using slots_page, page_aligned. Qed.

Lemma inuse_range m p : page_ok m p -> 0 <= inuse p <= objects_per_slab c.
Proof.
  intros [K1 K2 K3 K4 K5]. rewrite K5. pose proof (submseteq_length (freelist p) (slots c (addr p))) as Hl.
  unfold slots in Hl. rewrite length_fmap, length_seq in Hl. fold (slots c (addr p)) in Hl.
  pose proof (Hl (NoDup_submseteq _ _ K4 (fun x Hx => proj1 (K3 x Hx)))). destruct (ge_count c Hg). lia.
Qed.

(** Bytes change only outside the free objects. *)
Lemma page_ok_bytes m m' p : page_ok m p -> (forall y, y ∈ freelist p -> poisoned c m y -> poisoned c m' y) -> page_ok m' p.
Proof. intros [K1 K2 K3 K4 K5] Hm. split; try done. intros x Hx. destruct (K3 x Hx). split; [done|]. by apply Hm. Qed.

Lemma same_page p q ps : NoDup (addr <$> ps) -> p ∈ ps -> q ∈ ps -> addr p = addr q -> p = q.
Proof.
  intros Hn [i Hi]%list_elem_of_lookup [j Hj]%list_elem_of_lookup He.
  assert (i = j) as -> by (apply (NoDup_lookup (addr <$> ps) i j (addr p)); rewrite ?list_lookup_fmap, ?Hi, ?Hj; cbn; congruence). congruence.
Qed.

(** A slot of one page is no slot of another. *)
Lemma slot_one_page st held p ps x : pages_ok st held (p :: ps) -> x ∈ slots c (addr p) -> forall q, q ∈ ps -> x ∉ slots c (addr q).
Proof.
  intros K Hp q Hq Hs. pose proof (pa_addrs _ _ _ K) as Hn. cbn in Hn. apply NoDup_cons in Hn as [Hn _]. apply Hn.
  rewrite (page_of (bytes st) (bytes st) p q x); [|by apply (pa_pages _ _ _ K); set_solver..|done|done]. by apply list_elem_of_fmap_2.
Qed.

(** Taking the first free object of a page. *)
Lemma take_object st held p ps obj free : pages_ok st held (p :: ps) -> freelist p = obj :: free ->
  poisoned c (bytes st) obj /\ pages_ok st (obj :: held) (mkSlab (addr p) free (inuse p + 1) :: ps).
Proof.
  intros K Hf. pose proof (pa_pages _ _ _ K p ltac:(set_solver)) as [Q1 Q2 Q3 Q4 Q5].
  destruct (Q3 obj) as [S1 S2]; [rewrite Hf; set_solver|]. split; [done|]. rewrite Hf in Q4, Q5. apply NoDup_cons in Q4 as [N1 N2].
  pose proof (slot_one_page _ _ _ _ obj K S1) as Hother. destruct K as [K1 K2 K3 K4 KN K5 K6 K7 K8].
  assert (obj ∉ held) as Hnew.
  { rewrite K8. intros (q&[->|Hq]%elem_of_cons&Hs&Hn); [rewrite Hf in Hn; set_solver|]. by apply (Hother q). }
  split; try done.
  - intros q [->|Hq]%elem_of_cons; [|apply K3; set_solver]. split; cbn [addr freelist inuse]; try done.
    + intros x Hx. apply Q3. rewrite Hf. set_solver.
    + cbn [length] in Q5. lia.
  - unfold sum_inuse in *. cbn [foldr inuse length] in *. lia.
  - by apply NoDup_cons.
  - intros x. rewrite elem_of_cons, K8. split.
    + intros [->|(q&[->|Hq]%elem_of_cons&Hs&Hn)]; [exists (mkSlab (addr p) free (inuse p + 1)); set_solver| |exists q; set_solver].
      exists (mkSlab (addr p) free (inuse p + 1)). rewrite Hf in Hn. set_solver.
    + intros (q&[->|Hq]%elem_of_cons&Hs&Hn); [|right; exists q; set_solver]. cbn [addr freelist] in *.
      destruct (decide (x = obj)) as [->|]; [by left|]. right. exists p. rewrite Hf. set_solver.
Qed.

(** Giving an object back. *)
Lemma give_object st held p ps obj : pages_ok st (obj :: held) (p :: ps) -> obj ∈ slots c (addr p) -> obj ∉ freelist p ->
  pages_ok (with_memory st (owned st) (poison_object c obj (bytes st))) held (mkSlab (addr p) (obj :: freelist p) (inuse p - 1) :: ps).
Proof.
  intros K Hs Hf. pose proof (slot_one_page _ _ _ _ obj K Hs) as Hother. destruct K as [K1 K2 K3 K4 KN K5 K6 K7 K8].
  apply NoDup_cons in K7 as [Hn K7]. destruct (K3 p ltac:(set_solver)) as [Q1 Q2 Q3 Q4 Q5]. split; try done.
  - intros q [->|Hq]%elem_of_cons; cbn [bytes with_memory].
    + split; cbn [addr freelist inuse length]; try done; [|by apply NoDup_cons|lia].
      intros x [->|Hx]%elem_of_cons; [split; [done|apply poison_same]|]. destruct (Q3 x Hx). split; [done|by apply poison_keeps].
    + apply (page_ok_bytes (bytes st)); [apply K3; set_solver|]. intros y _. apply poison_keeps.
  - intros a Ha. cbn [bytes with_memory]. rewrite (poison_cache c (addr p)); [by rewrite KN|done| |done|done].
    apply (page_aligned (bytes st)), K3. set_solver.
  - unfold sum_inuse in *. cbn [foldr inuse length] in *. lia.
  - intros x. split.
    + intros Hx. assert (x <> obj) by congruence. destruct (proj1 (K8 x)) as (q&[->|Hq]%elem_of_cons&Hs'&Hn'); [set_solver| |exists q; set_solver].
      exists (mkSlab (addr p) (obj :: freelist p) (inuse p - 1)). set_solver.
    + intros (q&[->|Hq]%elem_of_cons&Hs'&Hn'); cbn [addr freelist] in *.
      * assert (x ∈ obj :: held) by (apply K8; exists p; set_solver). set_solver.
      * assert (x ∈ obj :: held) as [->|]%elem_of_cons by (apply K8; exists q; set_solver); [|done]. by destruct (Hother q Hq).
Qed.

(** Writing to an object one holds. *)
Lemma write_object st held ps obj i v : pages_ok st held ps -> obj ∈ held -> 0 <= i < object_size c ->
  pages_ok (with_memory st (owned st) (fun x => if x =? obj + i then v else bytes st x)) held ps.
Proof.
  intros K Ho Hi. pose proof (proj1 (pa_held _ _ _ K obj) Ho) as (p&Hp&Hs&Hn). pose proof K as [K1 K2 K3 K4 KN K5 K6 K7 K8].
  pose proof (page_aligned _ _ (K3 p Hp)) as Hal. destruct (slots_in_page c (addr p) obj Hg Hs). split; try done; cbn [bytes with_memory].
  2: { intros a Ha. rewrite <- KN by done. erewrite cache_of_ext; [done|]. intros x Hx. cbn. destruct (Z.eqb_spec x (obj + i)) as [->|]; [|done].
    pose proof (ge_size c Hg). pose proof (past_header (addr p) a (obj + i) (obj + i) Hal Ha). lia. }
  intros q Hq. apply (page_ok_bytes (bytes st)); [by apply K3|]. intros y Hy Hpo x Hx.
  destruct (Z.eqb_spec x (obj + i)) as [->|]; [|by apply Hpo]. exfalso. pose proof (ge_size c Hg). unfold LINK in Hx.
  destruct (po_free _ _ (K3 q Hq) y Hy) as [Hys _].
  assert (obj <> y) as Hne.
  { intros <-. apply Hn. pose proof (page_of _ _ p q obj (K3 p Hp) (K3 q Hq) Hs Hys) as He. by rewrite (same_page p q ps K4 Hp Hq He). }
  destruct (slots_apart c (addr p) (addr q) obj y Hg); [by eapply page_aligned, K3..|done|done|done|lia|lia].
Qed.

(** A new page: all its slots are free and poisoned. *)
Lemma chain_objects_spec page : forall i l m, let '(l', m') := chain_objects c page i l m in
  l' = (object_at c page <$> seq 0 i) ++ l /\
  ((i <= Z.to_nat (objects_per_slab c))%nat -> page mod PAGE_SIZE = 0 -> forall a, a mod PAGE_SIZE = 0 -> cache_of m' a = cache_of m a) /\
  (forall y, y ∈ object_at c page <$> seq 0 i -> poisoned c m' y) /\ (forall y, poisoned c m y -> poisoned c m' y).
Proof.
  induction i as [|i IH]; intros l m; cbn [chain_objects]; [split; [done|]; split; [done|]; split; [set_solver|done]|].
  specialize (IH (object_at c page i :: l) (poison_object c (object_at c page i) m)).
  destruct (chain_objects _ _ _ _ _) as [l' m']. destruct IH as (->&H0&H1&H2). rewrite seq_S, fmap_app. cbn -[cache_of]. rewrite <- app_assoc. cbn -[cache_of].
  split; [done|]. split.
  { intros Hi Hp a Ha. rewrite H0 by (done || lia). apply (poison_cache c page); try done. unfold slots. apply list_elem_of_fmap_2, elem_of_seq. lia. }
  split; [|intros y Hy; by apply H2, poison_keeps].
  intros y [Hy| ->%list_elem_of_singleton]%elem_of_app; [by apply H1|]. apply H2, poison_same.
Qed.

(** What the allocator below gives: a frame nobody owned. *)
Lemma fresh_frame st held ps : pages_ok st held ps ->
  let '(phys, o) := alloc_frame (owned st) in
  (forall g, 0 <= g -> g <> phys / PAGE_SIZE -> owners o g = owners (owned st) g) /\ cow_ok o /\ hhdm_off (frames o) = h /\ total_frames (frames o) = total /\
  ((phys = 0 /\ owners o 0 = owners (owned st) 0 /\ abs (frames (owned st)) = ∅) \/
   (exists f, phys = f * PAGE_SIZE /\ 1 <= f < total /\ base f = 0 /\ f ∉ frame_no h <$> ps /\ owners o f = 1)).
Proof.
  intros K. destruct (pa_setup _ _ _ K) as [Hs Ht].
  pose proof (alloc_frame_owners (owned st) (pa_cow _ _ _ K)) as HA. pose proof (alloc_frame_spec (owned st) (pa_cow _ _ _ K)) as HB.
  pose proof (alloc_frame_hhdm (owned st)) as HC. destruct (alloc_frame (owned st)) as [phys o]. cbn [snd] in HC.
  destruct HA as (A1&A2&HA), HB as (_&_&_&HB). rewrite HC, A2, Hs, Ht in *.
  destruct HA as [(->&A3)|(f&->&A3&A4&A5&A6)].
  - split; [by intros g ?|]. split_and!; try done. left. split_and!; [done|done|]. destruct HB as [(_&_&?)|(f&?&?&_)]; [done|unfold PAGE_SIZE in *; lia].
  - rewrite Z.div_mul by done. split; [by intros g ?; apply A6|]. split_and!; try done. right. exists f. split; [done|]. split; [done|].
    rewrite (pa_account _ _ _ K) in A4 by lia. case_bool_decide as Hin; [|split_and!; lia || done].
    apply list_elem_of_fmap in Hin as (p&->&Hp). rewrite (po_base _ _ (pa_pages _ _ _ K p Hp)) in A4. lia.
Qed.

Lemma create_page st held ps : pages_ok st held ps ->
  match slab_page_create c st with
  | (None, st') => pages_ok st' held ps /\ abs (frames (owned st)) = ∅ /\ poison_damage st' = poison_damage st
  | (Some (p, c'), st') => pages_ok st' held (p :: ps) /\ inuse p = 0 /\ freelist p <> [] /\ poison_damage st' = poison_damage st /\
      c' = with_lists c (pages c + 1) (objects_in_use c) (slabs_full c) (slabs_partial c)
  end.
Proof.
  intros K. unfold slab_page_create. pose proof (fresh_frame st held ps K) as HF. destruct (alloc_frame (owned st)) as [phys o].
  destruct HF as (F1&F2&F3&F4&HF). pose proof K as [K1 K2 K3 K4 KN K5 K6 K7 K8]. destruct HF as [(->&F5&F6)|(f&->&F5&F6&F7&F8)].
  { cbn [Z.eqb]. split; [|done]. split; try done. intros g Hgz. rewrite <- K5 by done. cbn [owned with_memory].
    destruct (decide (g = 0)) as [->|]; [done|]. by apply F1. }
  rewrite (proj2 (Z.eqb_neq (f * PAGE_SIZE) 0)) by (unfold PAGE_SIZE; lia). rewrite F3. rewrite u64_small by (destruct Hh; unfold PAGE_SIZE in *; lia).
  set (a := f * PAGE_SIZE + h). assert (forall l n, frame_no h (mkSlab a l n) = f) as Hno.
  { intros l n. unfold frame_no, a. cbn [addr]. rewrite Z.add_simpl_r. by apply Z.div_mul. }
  pose proof (chain_objects_spec a (Z.to_nat (objects_per_slab c)) [] (set_cache a (self c) (bytes st))) as HC.
  destruct (chain_objects _ _ _ _ _) as [l m]. destruct HC as (->&C0&C1&C2). rewrite app_nil_r.
  assert (a mod PAGE_SIZE = 0) as Hal by (unfold a; destruct Hh; unfold PAGE_SIZE in *; zlia). specialize (C0 ltac:(lia) Hal). fold (slots c a) in C1 |- *.
  rewrite Z.div_mul in F1 by done. assert (Z.of_nat (length (slots c a)) = objects_per_slab c) as Hlen.
  { unfold slots. rewrite length_fmap, length_seq. destruct (ge_count c Hg). lia. }
  assert (a ∉ addr <$> ps) as Hnew.
  { intros (p&Hpa&Hp)%list_elem_of_fmap. apply F7, list_elem_of_fmap. exists p. split; [|done]. destruct (po_frame _ _ (K3 p Hp)) as [He _].
    rewrite <- Hpa in He. unfold a, PAGE_SIZE in *. lia. }
  split; [|split_and!; try done; cbn [freelist]; intros He; rewrite He in Hlen; destruct (ge_count c Hg); cbn in Hlen; lia].
  split; cbn [owned bytes with_memory]; try done.
  - intros p [->|Hp]%elem_of_cons; [|apply (page_ok_bytes (bytes st)); [by apply K3|intros y Hy Hpo]].
    2: { apply C2. apply (set_cache_poisoned c (addr p)); try done; [by eapply page_aligned, K3|]. by apply (po_free _ _ (K3 p Hp)). }
   
    split; rewrite ?Hno; cbn [addr freelist inuse]; try done; [|by apply slots_nodup|lia]. intros x Hx. split; [done|by apply C1].
  - cbn. by apply NoDup_cons.
  - intros b Hb. rewrite C0 by done. cbn [fmap list_fmap addr]. rewrite elem_of_cons, <- KN by done. destruct (decide (b = a)) as [->|Hne].
    + rewrite set_cache_same by (pose proof (ge_self c Hg); lia). naive_solver.
    + rewrite set_cache_other by done. naive_solver.
  - intros g Hgz. cbn [fmap list_fmap]. rewrite Hno. destruct (decide (g = f)) as [->|Hgf].
    + rewrite bool_decide_true by set_solver. lia.
    + rewrite F1, K5 by done. f_equal. by rewrite (bool_decide_ext _ (g ∈ f :: (frame_no h <$> ps))) by set_solver.
  - intros x. rewrite K8. split; [intros (p&Hp&?); exists p; set_solver|]. intros (p&[->|Hp]%elem_of_cons&Hs&Hn); [done|by exists p].
Qed.

(** A page without an object in use goes back. *)
Lemma drop_page st held p ps m : pages_ok st held (p :: ps) -> inuse p = 0 -> m = set_cache (addr p) 0 (bytes st) ->
  pages_ok (with_memory st (free_frame (u64 (addr p - h)) (owned st)) m) held ps.
Proof.
  intros [K1 K2 K3 K4 KN K5 K6 K7 K8] Hz ->. destruct (K3 p ltac:(set_solver)) as [[Q0 Q1] Q2 Q3 Q4 Q5]. destruct K2 as [Hs Ht].
  pose proof K4 as K4'. cbn in K4'. apply NoDup_cons in K4' as [N1 N2].
  assert (forall q, q ∈ ps -> frame_no h q <> frame_no h p) as Hno.
  { intros q Hq He. apply N1. apply list_elem_of_fmap. exists q. split; [|done]. destruct (po_frame _ _ (K3 q ltac:(set_solver))) as [He' _]. congruence. }
  set (f := frame_no h p) in *. assert (owners (owned st) f = 1) as Ho.
  { rewrite K5, Q2, bool_decide_true by (lia || (cbn; set_solver)). done. }
  assert (addr p mod PAGE_SIZE = 0) as Hal by (eapply page_aligned, K3; set_solver).
  replace (addr p - h) with (f * PAGE_SIZE) by lia. rewrite u64_small by (destruct Hh; unfold PAGE_SIZE in *; lia).
  rewrite free_is_unref by (done || lia).
  destruct (unref_frame_spec (owned st) f K1) as (U1&U2&U3&U4); [lia|apply owners_used; lia|].
  assert (forall x, x ∈ slots c (addr p) -> x ∈ freelist p) as Hall.
  { assert (freelist p ≡ₚ slots c (addr p)) as Hp; [|intros x; by rewrite Hp].
    apply submseteq_length_Permutation; [apply NoDup_submseteq; [done|]; intros x Hx; by apply Q3|].
    unfold slots. rewrite length_fmap, length_seq. lia. }
  split; cbn [owned bytes with_memory]; try done.
  - rewrite unref_hhdm. lia.
  - intros q Hq. apply (page_ok_bytes (bytes st)); [apply K3; set_solver|]. intros y Hy. assert (q ∈ p :: ps) as Hq' by set_solver.
    apply (set_cache_poisoned c (addr q)); [done|by eapply page_aligned, K3|done|]. by apply (po_free _ _ (K3 q Hq')).
  - intros a Haa. destruct (decide (a = addr p)) as [->|Hne].
    + rewrite set_cache_same by lia. pose proof (ge_self c Hg). split; [lia|done].
    + rewrite set_cache_other, KN by done. cbn [fmap list_fmap]. rewrite elem_of_cons. naive_solver.
  - intros g Hgz. destruct (decide (g = f)) as [->|Hgf].
    + rewrite U3, Q2, bool_decide_false; [lia|]. intros (q&He&Hq)%list_elem_of_fmap. by destruct (Hno q Hq).
    + rewrite U4, K5 by done. f_equal. cbn [fmap list_fmap]. by rewrite (bool_decide_ext _ (g ∈ frame_no h <$> ps)) by set_solver.
  - unfold sum_inuse in *. cbn [foldr] in K6. lia.
  - intros x. rewrite K8. split; [|intros (q&Hq&?); exists q; set_solver].
    intros (q&[->|Hq]%elem_of_cons&Hs'&Hn); [by destruct Hn; apply Hall|by exists q].
Qed.
End pages.

(** What every call keeps: [size] and [al] are those of the request. *)
Record cache_inv (size al h total : Z) (base : Z -> Z) (damage : Z) (s : kmem_cache * slab * list Z) : Prop := {
  ci_geometry : geometry s.1.1;
  ci_request : object_size s.1.1 = size /\ align s.1.1 = al;
  ci_pages : pages_ok s.1.1 h total base s.1.2 s.2 (slabs_full s.1.1 ++ slabs_partial s.1.1);
  ci_full : forall p, p ∈ slabs_full s.1.1 -> freelist p = [];
  ci_partial : forall p, p ∈ slabs_partial s.1.1 -> freelist p <> [];
  ci_empty : (length (filter (fun p => inuse p = 0%Z) (slabs_partial s.1.1)) <= 1)%nat;
  ci_counts : pages s.1.1 = Z.of_nat (length (slabs_full s.1.1 ++ slabs_partial s.1.1)) /\ objects_in_use s.1.1 = Z.of_nat (length s.2);
  ci_damage : poison_damage s.1.2 = damage }.

(** The lists and counts of a cache are not part of its layout. *)
Lemma geometry_lists c n u l l' : geometry (with_lists c n u l l') <-> geometry c.
Proof. by split; intros []. Qed.

Lemma page_ok_lists c n u l l' h total base m p : page_ok (with_lists c n u l l') h total base m p <-> page_ok c h total base m p.
Proof. by split; intros []. Qed.

Lemma pages_ok_lists c n u l l' h total base st held ps :
  pages_ok (with_lists c n u l l') h total base st held ps <-> pages_ok c h total base st held ps.
Proof. split; intros [? ? K]; (split; try done); intros p Hp; pose proof (K p Hp) as [] ; by split. Qed.

Section calls.
Context (size al h total : Z) (base : Z -> Z) (damage : Z).
Hypothesis Hh : h mod PAGE_SIZE = 0 /\ 0 <= h /\ h + total * PAGE_SIZE < 0x10000000000000000.
Notation inv := (cache_inv size al h total base damage).

Lemma take_from_ok c p rest st held :
  inv (with_lists c (pages c) (objects_in_use c) (slabs_full c) (p :: rest), st, held) ->
  exists obj c', take_from c p rest st = (Object obj, c', st) /\ inv (c', st, obj :: held).
Proof.
  intros [K1 K2 K3 K4 K5 K6 [K7 K7'] K8]. cbn [fst snd] in *. rewrite geometry_lists in K1. rewrite pages_ok_lists in K3.
  cbn [with_lists slabs_full slabs_partial pages objects_in_use] in *. unfold take_from.
  destruct (freelist p) as [|obj free] eqn:Hf; [by destruct (K5 p ltac:(set_solver))|].
  assert (slabs_full c ++ p :: rest ≡ₚ p :: slabs_full c ++ rest) as Hp by (by rewrite Permutation_middle).
  destruct (take_object c h total base K1 Hh st held p (slabs_full c ++ rest) obj free) as [T1 T2]; [exact (pages_ok_perm _ _ _ _ _ _ _ _ _ (reflexivity held) Hp K3)|done|].
  rewrite (proj2 (object_unpoisoned_none c obj (bytes st) K1) T1). cbn [Z.eqb negb andb]. set (q := mkSlab (addr p) free (inuse p + 1)) in *.
  assert (0 < inuse q) as Hnz.
  { pose proof (inuse_range c h total base K1 _ p (pa_pages _ _ _ _ _ _ _ K3 p ltac:(set_solver))). cbn. lia. }
  assert (Z.of_nat (length (slabs_full c ++ q :: rest)) = pages c) as Hlen by (rewrite K7, !length_app; done).
  replace (mkState (owned st) (bytes st) (poison_damage st) (poison_damage_fatal st) (cache_chain st)) with st by (by destruct st).
  eexists obj, _. split; [done|]. destruct free as [|y free]; split; cbn [fst snd with_lists slabs_full slabs_partial pages objects_in_use]; try done;
    rewrite ?geometry_lists, ?pages_ok_lists; try done.
  - intros p' [->|Hp']%elem_of_cons; [done|by apply K4].
  - intros p' Hp'. apply K5. set_solver.
  - rewrite filter_cons in K6. case_decide; cbn [length] in K6; lia.
  - cbn [length app] in *. rewrite !length_app in *. cbn [length] in *. lia.
  - eapply pages_ok_perm; [done| |exact T2]. by rewrite Permutation_middle.
  - intros p' [->|Hp']%elem_of_cons; [done|]. apply K5. set_solver.
  - rewrite filter_cons in *. rewrite decide_False by lia. case_decide; cbn [length] in K6; lia.
  - cbn [length] in *. lia.
Qed.

Lemma alloc_ok c st held : inv (c, st, held) ->
  match kmem_cache_alloc c st with
  | (Null, c', st') => inv (c', st', held) /\ abs (frames (owned st)) = ∅
  | (Object obj, c', st') => inv (c', st', obj :: held)
  | (Panic, _, _) => False
  end.
Proof.
  intros K. unfold kmem_cache_alloc. destruct (slabs_partial c) as [|p rest] eqn:Hp.
  - destruct K as [K1 K2 K3 K4 K5 K6 [K7 K7'] K8]. cbn [fst snd] in *. pose proof (create_page c h total base K1 Hh st held _ K3) as HC.
    destruct (slab_page_create c st) as [[[p c']|] st'].
    + destruct HC as (C1&C2&C3&C4&->). destruct (take_from_ok (with_lists c (pages c + 1) (objects_in_use c) (slabs_full c) (slabs_partial c)) p [] st' held)
        as (obj&c'&->&HT); [|done].
      rewrite Hp, app_nil_r in *. split; cbn [fst snd with_lists pages objects_in_use slabs_full slabs_partial]; try done.
      * by rewrite !geometry_lists.
      * rewrite !pages_ok_lists. eapply pages_ok_perm; [done| |exact C1]. by rewrite Permutation_app_comm.
      * intros q ->%list_elem_of_singleton. done.
      * rewrite filter_cons. case_decide; cbn; lia.
      * rewrite length_app. cbn [length]. lia.
      * by rewrite C4.
    + destruct HC as (C1&C2&C3). split; [|done]. split; cbn [fst snd]; try done; by rewrite C3.
  - destruct (take_from_ok c p rest st held) as (obj&c'&->&HT); [|done]. rewrite <- Hp. by destruct c.
Qed.

Lemma unlink_split l1 p l2 : addr p ∉ addr <$> l1 -> unlink_slab (l1 ++ p :: l2) (addr p) = l1 ++ l2.
Proof.
  induction l1 as [|q l1 IH]; intros Hn; cbn [app unlink_slab]; [by rewrite Z.eqb_refl|].
  cbn in Hn. rewrite (proj2 (Z.eqb_neq (addr q) (addr p))) by set_solver. rewrite IH by set_solver. done.
Qed.

Lemma replace_split l1 p q l2 : addr p = addr q -> addr q ∉ addr <$> l1 -> addr q ∉ addr <$> l2 -> replace_page q (l1 ++ p :: l2) = l1 ++ q :: l2.
Proof.
  intros He H1 H2. unfold replace_page. rewrite fmap_app, fmap_cons, He, Z.eqb_refl. 
  assert (forall l : list slab_page_t, addr q ∉ addr <$> l -> (fun p => if addr p =? addr q then q else p) <$> l = l) as Hid; [|by rewrite !Hid].
  induction l as [|x l IH]; intros Hn; [done|]. cbn in Hn |- *. rewrite (proj2 (Z.eqb_neq (addr x) (addr q))) by set_solver. by rewrite IH by set_solver.
Qed.

Lemma find_page_spec a l : NoDup (addr <$> l) ->
  match find_page a l with Some p => p ∈ l /\ addr p = a | None => forall p, p ∈ l -> addr p <> a end.
Proof.
  intros Hn. unfold find_page. destruct (filter _ l) as [|p l'] eqn:Hf.
  - intros p Hp He. assert (p ∈ filter (fun p => addr p = a) l) as Hin by (by apply list_elem_of_filter). rewrite Hf in Hin. by apply elem_of_nil in Hin.
  - assert (p ∈ filter (fun p => addr p = a) l) as Hin by (rewrite Hf; set_solver). apply list_elem_of_filter in Hin as [? ?]. done.
Qed.

(** The checks of [kmem_cache_free] are that the pointer is a slot of the page. *)
Lemma in_page_slots c p obj : geometry c -> addr p mod PAGE_SIZE = 0 -> 0 <= obj < 0x10000000000000000 -> slab_of obj = addr p ->
  let offset := u64 (obj - addr p) in
  (first_offset c <=? offset) && ((offset - first_offset c) mod aligned_size c =? 0) &&
    ((offset - first_offset c) / aligned_size c <? objects_per_slab c) = true <-> obj ∈ slots c (addr p).
Proof.
  intros Hg Ha Ho Hs. cbn zeta. rewrite slots_at by done. unfold slab_of in Hs. change (PAGE_SIZE - 1) with (2 ^ 12 - 1) in Hs.
  rewrite land_align in Hs by lia. change (2 ^ 12) with PAGE_SIZE in Hs.
  assert (0 <= obj - addr p < PAGE_SIZE) as Hr by (rewrite <- Hs; unfold PAGE_SIZE; zlia).
  rewrite u64_small by (unfold PAGE_SIZE in *; lia). rewrite !andb_true_iff, Z.leb_le, Z.eqb_eq, Z.ltb_lt. pose proof (aligned_8 c Hg). split.
  - intros [[H1 H2] H3]. exists ((obj - addr p - first_offset c) / aligned_size c).
    pose proof (Z.div_mod (obj - addr p - first_offset c) (aligned_size c) ltac:(lia)) as Hd.
    split; [split; [apply Z.div_pos; lia|done]|lia].
  - intros (i&Hi&He). replace (obj - addr p - first_offset c) with (i * aligned_size c) by lia.
    rewrite Z.mod_mul, Z.div_mul by lia. split_and!; try done; nia.
Qed.

Lemma slab_of_slot c p obj : geometry c -> addr p mod PAGE_SIZE = 0 -> 0 <= addr p -> addr p + PAGE_SIZE <= 0x10000000000000000 ->
  obj ∈ slots c (addr p) -> slab_of obj = addr p /\ 0 < obj < 0x10000000000000000.
Proof.
  intros Hg Ha H0 H1 Hs. destruct (slots_in_page c _ _ Hg Hs). pose proof (ge_size c Hg). unfold SLAB_HEADER in *.
  split; [|lia]. unfold slab_of. change (PAGE_SIZE - 1) with (2 ^ 12 - 1). rewrite land_align by lia. change (2 ^ 12) with PAGE_SIZE.
  unfold PAGE_SIZE in *. zlia.
Qed.

(** The page [q] in place of [p], and then perhaps gone. *)
Lemma settle_ok c q full l1 l2 st held :
  geometry c -> object_size c = size /\ align c = al -> pages_ok c h total base st held (full ++ l1 ++ q :: l2) ->
  (forall p, p ∈ full -> freelist p = []) -> (forall p, p ∈ l1 ++ q :: l2 -> freelist p <> []) ->
  (length (filter (fun p => inuse p = 0%Z) (l1 ++ l2)) <= 1)%nat ->
  pages c = Z.of_nat (length (full ++ l1 ++ q :: l2)) -> objects_in_use c - 1 = Z.of_nat (length held) -> poison_damage st = damage ->
  inv ((settle_page c q full (l1 ++ q :: l2) st).1, (settle_page c q full (l1 ++ q :: l2) st).2, held).
Proof.
  intros K1 K2 K3 K4 K5 K6 K7 K7' K8. unfold settle_page. set (only := match l1 ++ q :: l2 with [p] => _ | _ => _ end).
  assert (full ++ l1 ++ q :: l2 ≡ₚ q :: full ++ l1 ++ l2) as Hp by (by rewrite app_assoc, <- Permutation_middle, <- app_assoc).
  destruct ((inuse q =? 0) && negb only) eqn:Hd.
  - apply andb_true_iff in Hd as [Hz%Z.eqb_eq _]. destruct (pa_setup _ _ _ _ _ _ _ K3) as [Hhh _]. rewrite Hhh.
    pose proof (pages_ok_perm _ _ _ _ _ _ _ _ _ (reflexivity held) Hp K3) as K3'.
    rewrite unlink_split.
    2: { pose proof (pa_addrs _ _ _ _ _ _ _ K3') as Hn. cbn in Hn. apply NoDup_cons in Hn as [Hn _]. rewrite !fmap_app in Hn. set_solver. }
    split; cbn [fst snd with_lists slabs_full slabs_partial pages objects_in_use]; rewrite ?geometry_lists, ?pages_ok_lists; try done.
    + by apply drop_page.
    + intros p Hin. apply K5. set_solver.
    + split; [|done]. rewrite K7, !length_app. cbn [length]. lia.
  - split; cbn [fst snd with_lists slabs_full slabs_partial pages objects_in_use]; rewrite ?geometry_lists, ?pages_ok_lists; try done.
    rewrite filter_app, filter_cons in *. case_decide as Hz; [|by rewrite length_app in *].
    rewrite Hz in Hd. cbn [Z.eqb andb] in Hd. subst only. destruct l1 as [|x l1]; [|by destruct l1]. destruct l2; [|done]. cbn. lia.
Qed.

Lemma free_held_ok c st held obj held' : inv (c, st, held) -> held ≡ₚ obj :: held' ->
  match kmem_cache_free c obj st with (r, c', st') => r = Freed /\ inv (c', st', held') end.
Proof.
  intros [K1 K2 K3 K4 K5 K6 [K7 K7'] K8] Hp. cbn [fst snd] in *.
  apply (pages_ok_perm _ _ _ _ _ _ _ _ _ Hp (reflexivity _)) in K3.
  destruct (proj1 (pa_held _ _ _ _ _ _ _ K3 obj) ltac:(set_solver)) as (p&Hin&Hs&Hf). pose proof (pa_pages _ _ _ _ _ _ _ K3 p Hin) as Kp.
  pose proof (page_aligned c h total base Hh _ p Kp) as Ha. pose proof (po_frame _ _ _ _ _ _ Kp) as [Hfr1 Hfr2].
  destruct (slab_of_slot c p obj K1 Ha) as [Hso Hpos]; [destruct Hh; unfold PAGE_SIZE in *; lia..|done|].
  unfold kmem_cache_free. rewrite (proj2 (Z.eqb_neq obj 0)) by lia. rewrite Hso.
  rewrite (proj2 (in_page_slots c p obj K1 Ha ltac:(lia) Hso) Hs).
  rewrite (proj2 (pa_named _ _ _ _ _ _ _ K3 (addr p) Ha)) by (by apply list_elem_of_fmap_2). rewrite Z.eqb_refl. cbn [negb andb].
  pose proof (find_page_spec (addr p) _ (pa_addrs _ _ _ _ _ _ _ K3)) as HF. destruct (find_page _ _) as [p'|]; [|by destruct (HF p Hin)].
  destruct HF as [Hin' He]. rewrite <- (same_page p p' _ (pa_addrs _ _ _ _ _ _ _ K3) Hin Hin') by done.
  rewrite bool_decide_false by done.
  set (q := mkSlab (addr p) (obj :: freelist p) (inuse p - 1)). set (st1 := with_memory _ _ _).
  assert (objects_in_use c - 1 = Z.of_nat (length held')) as Hu by (rewrite K7', Hp; cbn [length]; lia).
  pose proof (pa_addrs _ _ _ _ _ _ _ K3) as Hn.
  assert (forall full l1 l2, slabs_full c ++ slabs_partial c ≡ₚ p :: full ++ l1 ++ l2 -> pages_ok c h total base st1 held' (full ++ l1 ++ q :: l2)) as Hgive.
  { intros full l1 l2 Hpp. eapply pages_ok_perm; [done| |apply (give_object c h total base K1 Hh st held' p (full ++ l1 ++ l2)); [|done..]].
    - by rewrite (app_assoc full l1 (q :: l2)), <- Permutation_middle, <- app_assoc.
    - exact (pages_ok_perm _ _ _ _ _ _ _ _ _ (reflexivity _) Hpp K3). }
  destruct (freelist p) as [|x free] eqn:Hfree.
  - assert (p ∈ slabs_full c) as [l1 [l2 Hl]]%list_elem_of_split.
    { apply elem_of_app in Hin as [?|Hin]; [done|]. by destruct (K5 p Hin). }
    rewrite Hl in *. rewrite !fmap_app in Hn. rewrite unlink_split by (cbn in Hn; apply NoDup_app in Hn as [Hn _]; apply NoDup_app in Hn as (_&Hn&_); set_solver).
    assert ((l1 ++ p :: l2) ++ slabs_partial c ≡ₚ p :: (l1 ++ l2) ++ [] ++ slabs_partial c) as Hpp by (by rewrite <- Permutation_middle).
    pose proof (settle_ok c q (l1 ++ l2) [] (slabs_partial c) st1 held' K1 K2 (Hgive _ _ _ Hpp)) as HS.
    destruct (settle_page _ _ _ _ _) as [c' st'] eqn:E. split; [done|]. cbn [app fst snd] in *. apply HS; try done.
    + intros r Hr. apply K4. set_solver.
    + intros r [->|Hr]%elem_of_cons; [done|by apply K5].
    + rewrite K7. cbn [length]. rewrite !length_app. cbn [length]. lia.
  - assert (p ∈ slabs_partial c) as [l1 [l2 Hl]]%list_elem_of_split.
    { apply elem_of_app in Hin as [Hin|?]; [|done]. by rewrite (K4 p Hin) in Hfree. }
    rewrite Hl in *. rewrite !fmap_app in Hn. rewrite replace_split; [|done|cbn in Hn; apply NoDup_app in Hn as (_&_&Hn); apply NoDup_app in Hn as (_&Hn&Hn'); apply NoDup_cons in Hn' as [? _]; set_solver..].
    assert (slabs_full c ++ l1 ++ p :: l2 ≡ₚ p :: slabs_full c ++ l1 ++ l2) as Hpp by (by rewrite app_assoc, <- Permutation_middle, <- app_assoc).
    pose proof (settle_ok c q (slabs_full c) l1 l2 st1 held' K1 K2 (Hgive _ _ _ Hpp) K4) as HS.
    destruct (settle_page _ _ _ _ _) as [c' st'] eqn:E. split; [done|]. cbn [fst snd] in HS. apply HS; try done.
    + intros r Hr. destruct (decide (r = q)) as [->|]; [done|]. apply K5. set_solver.
    + rewrite filter_app, length_app in *. rewrite filter_cons in K6. case_decide; cbn [length] in K6; lia.
    + rewrite K7, !length_app. done.
Qed.

Lemma slab_of_aligned obj : 0 <= obj < 0x10000000000000000 -> slab_of obj mod PAGE_SIZE = 0.
Proof.
  intros Ho. unfold slab_of. change (PAGE_SIZE - 1) with (2 ^ 12 - 1). rewrite land_align by lia. change (2 ^ 12) with PAGE_SIZE.
  unfold PAGE_SIZE. zlia.
Qed.

Lemma free_bad_ok c st held obj : inv (c, st, held) -> 0 <= obj < 0x10000000000000000 -> obj ∉ held -> kmem_cache_free c obj st = (Refused, c, st).
Proof.
  intros [K1 K2 K3 K4 K5 K6 [K7 K7'] K8] Ho Hn. cbn [fst snd] in *. unfold kmem_cache_free. destruct (obj =? 0); [done|].
  destruct (Z.eqb_spec (cache_of (bytes st) (slab_of obj)) (self c)) as [Hc|]; [|done]. cbn [andb].
  apply (pa_named _ _ _ _ _ _ _ K3 _ (slab_of_aligned obj Ho)), list_elem_of_fmap in Hc as (p0&Hp0&Hin0).
  pose proof (find_page_spec (slab_of obj) _ (pa_addrs _ _ _ _ _ _ _ K3)) as HF. destruct (find_page _ _) as [p|]; [|by destruct (HF p0 Hin0)].
  destruct HF as [Hin He]. pose proof (page_aligned c h total base Hh _ p (pa_pages _ _ _ _ _ _ _ K3 p Hin)) as Ha. rewrite <- He.
  pose proof (in_page_slots c p obj K1 Ha Ho (eq_sym He)) as HI. cbn zeta in HI. destruct (_ && _ && _); [|done]. cbn [negb].
  rewrite bool_decide_true; [done|]. destruct (decide (obj ∈ freelist p)) as [|Hf]; [done|]. destruct Hn.
  apply (pa_held _ _ _ _ _ _ _ K3). exists p. split_and!; try done. by apply HI.
Qed.

(** What others write. *)
Lemma rest_written_ok c st held m ps : pages_ok c h total base st held ps ->
  geometry c -> (forall p x, p ∈ ps -> addr p <= x < addr p + PAGE_SIZE -> m x = bytes st x) ->
  (forall a, a mod PAGE_SIZE = 0 -> a ∉ addr <$> ps -> cache_of m a <> self c) -> pages_ok c h total base (with_memory st (owned st) m) held ps.
Proof.
  intros [K1 K2 K3 K4 KN K5 K6 K7 K8] Hg Hm Hc. split; try done; cbn [bytes with_memory].
  - intros p Hp. apply (page_ok_bytes c h total base (bytes st)); [by apply K3|]. intros y Hy Hpo x Hx.
    rewrite (Hm p x Hp); [by apply Hpo|]. pose proof (slots_in_page c _ y Hg (proj1 (po_free _ _ _ _ _ _ (K3 p Hp) y Hy))). unfold LINK, SLAB_HEADER in *. lia.
  - intros a Ha. destruct (decide (a ∈ addr <$> ps)) as [Hin|Hn]; [|by split; [intros; destruct (Hc a Ha Hn)|]].
    rewrite <- KN by done. apply list_elem_of_fmap in Hin as (p&->&Hp). rewrite (cache_of_ext (bytes st)); [done|].
    intros x Hx. apply (Hm p); [done|]. unfold PAGE_SIZE. lia.
Qed.

Lemma cache_client_step_ok s s' : inv s -> client_step s s' -> inv s'.
Proof.
  intros K Hst. inversion Hst as [c st held r c' st' E|c st held held' obj ok c' st' Hp E|c st held obj ok c' st' Hr Hn E|c st held obj i v Ho Hi|c st held m Hm Hc]; subst.
  - pose proof (alloc_ok c st held K) as HA. rewrite E in HA. destruct r; [by destruct HA|done|done].
  - pose proof (free_held_ok c st held obj held' K Hp) as HF. rewrite E in HF. by destruct HF.
  - rewrite (free_bad_ok c st held obj K Hr Hn) in E. by simplify_eq.
  - destruct K as [K1 K2 K3 K4 K5 K6 K7 K8]. split; try done. by apply write_object.
  - destruct K as [K1 K2 K3 K4 K5 K6 K7 K8]. split; try done. by apply rest_written_ok.
Qed.
End calls.

(** [kmem_cache_create] settles the layout, unless the size is so large that
    [first_offset + aligned_size] wraps. *)
Lemma power_of_two al : 8 <= al <= 1024 -> Z.land al (al - 1) = 0 -> exists k, 3 <= k <= 10 /\ al = 2 ^ k.
Proof.
  intros Ha Hl. assert (forallb (fun i => negb (Z.land (Z.of_nat i) (Z.of_nat i - 1) =? 0) || existsb (fun k => Z.of_nat i =? 2 ^ k) [3; 4; 5; 6; 7; 8; 9; 10])
    (seq 8 1017) = true) as Hall by (by vm_compute).
  rewrite forallb_forall in Hall. specialize (Hall (Z.to_nat al) ltac:(apply in_seq; lia)). rewrite Z2Nat.id, Hl in Hall by lia. cbn [Z.eqb negb orb] in Hall.
  apply existsb_exists in Hall as (k&Hk&He%Z.eqb_eq). exists k. split; [|done]. cbn in Hk. lia.
Qed.

(** Rounding up to a power of two, the way the code writes it. *)
Lemma round_up_spec n k : 0 <= k <= 10 -> 0 < n < 0x10000000000000000 - 2 ^ k ->
  let r := Z.land (u64 (n + 2 ^ k - 1)) (u64 (Z.lnot (2 ^ k - 1))) in r mod 2 ^ k = 0 /\ n <= r < n + 2 ^ k.
Proof.
  intros Hk Hn. cbn zeta. pose proof (Z.pow_pos_nonneg 2 k ltac:(lia) ltac:(lia)). rewrite u64_small, land_align by lia.
  set (m := n + 2 ^ k - 1) in *. pose proof (Z.div_mod m (2 ^ k) ltac:(lia)). pose proof (Z.mod_pos_bound m (2 ^ k) ltac:(lia)).
  split; [|lia]. replace (m - m mod 2 ^ k) with (m / 2 ^ k * 2 ^ k) by lia. apply Z.mod_mul. lia.
Qed.

Lemma cache_create_ok ptr nm size al st c st' : 0 <= ptr < 0x10000000000000000 -> 0 <= size < 0x10000000000000000 - PAGE_SIZE -> 0 <= al ->
  kmem_cache_create ptr nm size al st = (Some c, st') ->
  geometry c /\ self c = ptr /\ object_size c = size /\ align c = Z.max 8 al /\ slabs_full c = [] /\ slabs_partial c = [] /\ pages c = 0 /\ objects_in_use c = 0 /\
  owned st' = owned st /\ bytes st' = bytes st /\ poison_damage st' = poison_damage st.
Proof.
  intros Hptr Hs Ha. unfold kmem_cache_create. destruct (Z.eqb_spec size 0); [done|].
  replace (if al <? 8 then 8 else al) with (Z.max 8 al) by (destruct (Z.ltb_spec al 8); lia). set (a := Z.max 8 al) in *.
  destruct (Z.eqb_spec (Z.land a (a - 1)) 0) as [Hl|]; [|done]. cbn [negb]. destruct (Z.ltb_spec 1024 a); [done|].
  destruct (power_of_two a) as (k&Hk&Hak); [lia|done|]. assert (2 ^ k <= 1024) by lia. change PAGE_SIZE with 4096 in *. rewrite Hak.
  destruct (round_up_spec size k) as [R1 R2]; [lia|lia|]. destruct (round_up_spec SLAB_HEADER k) as [R3 R4]; [lia|unfold SLAB_HEADER; lia|].
  set (asize := Z.land (u64 (size + _ - 1)) _) in *. set (first := Z.land (u64 (SLAB_HEADER + _ - 1)) _) in *.
  destruct (asize <? size); [done|]. unfold SLAB_HEADER in *. rewrite u64_small by lia. destruct (Z.ltb_spec 4096 (first + asize)); [done|].
  destruct (Z.eqb_spec ptr 0); [done|]. intros [= <- <-]. split; [|done].
  pose proof (Z.mul_div_le (4096 - first) asize ltac:(lia)).
  split; cbn [self align object_size aligned_size first_offset objects_per_slab]; [lia|by exists k|lia|done|unfold SLAB_HEADER; lia|].
  change PAGE_SIZE with 4096. split; [|lia]. apply Z.div_le_lower_bound; lia.
Qed.

Lemma created_inv ptr nm size al st c st' : 0 <= ptr < 0x10000000000000000 -> 0 <= size < 0x10000000000000000 - PAGE_SIZE -> 0 <= al -> cow_ok (owned st) ->
  (forall a, a mod PAGE_SIZE = 0 -> cache_of (bytes st) a <> ptr) ->
  kmem_cache_create ptr nm size al st = (Some c, st') ->
  cache_inv size (Z.max 8 al) (hhdm_off (frames (owned st))) (total_frames (frames (owned st))) (owners (owned st)) (poison_damage st) (c, st', []).
Proof.
  intros Hptr Hs Ha Hc Hb E. destruct (cache_create_ok ptr nm size al st c st' Hptr Hs Ha E) as (C1&C0&C2&C3&C4&C5&C6&C7&C8&C8'&C9).
  split; cbn [fst snd]; rewrite ?C4, ?C5; try done; [|set_solver..|cbn; lia].
  split; rewrite ?C8; try done; [set_solver|constructor| | |constructor|set_solver].
  { intros a Hpa. rewrite C8', C0. split; [intros He; by destruct (Hb a Hpa)|set_solver]. }
  intros g Hg. rewrite bool_decide_false by (cbn; set_solver). lia.
Qed.

(** At most one page has no object in use. *)
Lemma pages_bound (l : list slab_page_t) : (forall p, p ∈ l -> 0 <= inuse p) ->
  Z.of_nat (length l) <= sum_inuse l + Z.of_nat (length (filter (fun p => inuse p = 0%Z) l)).
Proof.
  induction l as [|p l IH]; intros Hl; [done|]. specialize (IH (fun q Hq => Hl q (list_elem_of_further _ _ _ Hq))).
  pose proof (Hl p ltac:(set_solver)). unfold sum_inuse in *. cbn [foldr length]. rewrite filter_cons. case_decide; cbn [length]; lia.
Qed.

Section held.
Context (size al h total : Z) (base : Z -> Z) (damage : Z).
Hypothesis Hh : h mod PAGE_SIZE = 0 /\ 0 <= h /\ h + total * PAGE_SIZE < 0x10000000000000000.

(** Giving back pages leaves the frames of the others. *)
Lemma free_pages ps : forall st, let o := owned st in cow_ok o -> hhdm_off (frames o) = h -> total_frames (frames o) = total ->
  (forall p, p ∈ ps -> addr p = frame_no h p * PAGE_SIZE + h /\ 1 <= frame_no h p < total /\ owners o (frame_no h p) = 1) ->
  NoDup (frame_no h <$> ps) ->
  forall g, 0 <= g -> owners (owned (fold_left (fun st p => free_page p st) ps st)) g =
    if bool_decide (g ∈ frame_no h <$> ps) then 0 else owners o g.
Proof.
  induction ps as [|p ps IH]; intros st o Hc Hho Hto Hp Hn g Hg; [by rewrite bool_decide_false by (cbn; set_solver)|].
  cbn [fold_left]. cbn in Hn. apply NoDup_cons in Hn as [N1 N2]. destruct (Hp p ltac:(set_solver)) as (P1&P2&P3).
  assert (owned (free_page p st) = pmm_unref_frame (frame_no h p * PAGE_SIZE) o) as Ef.
  { cbn [free_page owned with_memory]. fold o. rewrite Hho. replace (addr p - h) with (frame_no h p * PAGE_SIZE) by lia. rewrite u64_small by (destruct Hh; unfold PAGE_SIZE in *; lia).
  by rewrite free_is_unref by (done || lia). }
  destruct (unref_frame_spec o (frame_no h p) Hc) as (U1&U2&U3&U4); [lia|apply owners_used; lia|].
  rewrite IH; cbn zeta; rewrite ?Ef; [|done|by rewrite unref_hhdm|lia| |done|done].
  - cbn [fmap list_fmap]. destruct (decide (g = frame_no h p)) as [->|Hne].
    + rewrite bool_decide_false, bool_decide_true by set_solver. lia.
    + rewrite U4 by done. by rewrite (bool_decide_ext (g ∈ frame_no h p :: (frame_no h <$> ps)) (g ∈ frame_no h <$> ps)) by set_solver.
  - intros q Hq. destruct (Hp q ltac:(set_solver)) as (Q1&Q2&Q3). split; [done|]. split; [done|]. rewrite U4; [done|lia|].
    intros He. apply N1. rewrite <- He. by apply list_elem_of_fmap_2.
Qed.

Lemma free_pages_named ps a : a mod PAGE_SIZE = 0 -> (forall p, p ∈ ps -> addr p mod PAGE_SIZE = 0) ->
  forall st, cache_of (bytes (fold_left (fun st p => free_page p st) ps st)) a = if bool_decide (a ∈ addr <$> ps) then 0 else cache_of (bytes st) a.
Proof.
  intros Ha. induction ps as [|p ps IH]; intros Hp st; [by rewrite bool_decide_false by (cbn; set_solver)|].
  cbn [fold_left]. rewrite IH by (intros q Hq; apply Hp; set_solver). cbn [free_page bytes with_memory fmap list_fmap].
  case_bool_decide as H1; [by rewrite bool_decide_true by set_solver|]. destruct (decide (a = addr p)) as [->|Hne].
  - by rewrite set_cache_same, bool_decide_true by (lia || set_solver).
  - rewrite set_cache_other, bool_decide_false by (try done; set_solver). done.
Qed.

Lemma destroy_ok c st held : cache_inv size al h total base damage (c, st, held) ->
  (forall g, 0 <= g -> owners (owned (kmem_cache_destroy c st)) g = base g) /\
  (forall a, a mod PAGE_SIZE = 0 -> cache_of (bytes (kmem_cache_destroy c st)) a <> self c).
Proof.
  intros [K1 _ K3 _ _ _ _ _]. cbn [fst snd] in *. destruct (pa_setup _ _ _ _ _ _ _ K3) as [S1 S2].
  unfold kmem_cache_destroy. cbn [owned bytes]. pose proof (pa_pages _ _ _ _ _ _ _ K3) as Hp. split.
  2: { intros a Ha. rewrite free_pages_named; [|done|intros p Hin; by eapply page_aligned, Hp]. pose proof (ge_self c K1).
    case_bool_decide as Hin; [lia|]. by rewrite (pa_named _ _ _ _ _ _ _ K3 a Ha). }
  intros g Hg. rewrite free_pages; [|apply (pa_cow _ _ _ _ _ _ _ K3)|done|done| | |done].
  - rewrite (pa_account _ _ _ _ _ _ _ K3 g Hg). case_bool_decide as Hin; [|lia]. apply list_elem_of_fmap in Hin as (p&->&Hin).
    by rewrite (po_base _ _ _ _ _ _ (Hp p Hin)).
  - intros p Hin. destruct (po_frame _ _ _ _ _ _ (Hp p Hin)) as [F1 F2]. split_and!; [done|lia|lia|].
    rewrite (pa_account _ _ _ _ _ _ _ K3), (po_base _ _ _ _ _ _ (Hp p Hin)), bool_decide_true by (lia || by apply list_elem_of_fmap_2). done.
  - pose proof (pa_addrs _ _ _ _ _ _ _ K3) as Hn. apply (NoDup_fmap_1 (fun f => f * PAGE_SIZE + h)). rewrite <- list_fmap_compose.
    erewrite list_fmap_ext; [exact Hn|]. intros i p Hi. cbn. symmetry. by apply (po_frame _ _ _ _ _ _ (Hp p (list_elem_of_lookup_2 _ _ _ Hi))).
Qed.

Lemma held_where c st held x : cache_inv size al h total base damage (c, st, held) -> x ∈ held ->
  x mod al = 0 /\ exists p, p ∈ slabs_full c ++ slabs_partial c /\ addr p + SLAB_HEADER <= x /\ x + size <= addr p + PAGE_SIZE.
Proof.
  intros [K1 [K2 K2'] K3 K4 K5 K6 K7 K8] Hx. cbn [fst snd] in *. apply (pa_held _ _ _ _ _ _ _ K3) in Hx as (p&Hp&Hs&_).
  destruct (slots_in_page c _ _ K1 Hs) as [S1 S2]. pose proof (ge_size c K1). split; [|exists p; split_and!; [done|done|lia]].
  pose proof (page_aligned c h total base Hh _ p (pa_pages _ _ _ _ _ _ _ K3 p Hp)) as Ha. apply slots_at in Hs as (i&Hi&->); [|done].
  destruct (ge_align c K1) as (k&Hk&Hal). destruct (ge_aligned c K1) as [D1 D2]. rewrite K2' in *. assert (0 < al) by (rewrite Hal; lia).
  apply Z.mod_divide in D1; [|lia]. apply Z.mod_divide in D2; [|lia]. apply Z.mod_divide in Ha; [|done]. apply Z.mod_divide; [lia|].
  apply Z.divide_add_r; [apply Z.divide_add_r; [|done]|by apply Z.divide_mul_r].
  etransitivity; [|exact Ha]. rewrite Hal. exists (2 ^ (12 - k)). rewrite <- Z.pow_add_r by lia. by replace (12 - k + k) with 12 by lia.
Qed.

Lemma held_apart c st held x y : cache_inv size al h total base damage (c, st, held) -> x ∈ held -> y ∈ held -> x <> y ->
  x + size <= y \/ y + size <= x.
Proof.
  intros [K1 [K2 K2'] K3 K4 K5 K6 K7 K8] Hx Hy Hxy. cbn [fst snd] in *. pose proof (ge_size c K1).
  apply (pa_held _ _ _ _ _ _ _ K3) in Hx as (p&Hp&Hs&_). apply (pa_held _ _ _ _ _ _ _ K3) in Hy as (q&Hq&Hs'&_).
  pose proof (pa_pages _ _ _ _ _ _ _ K3) as Hpa.
  destruct (slots_apart c (addr p) (addr q) x y K1); [by eapply page_aligned, Hpa..|done|done|done|lia|lia].
Qed.

Lemma pages_few c st held : cache_inv size al h total base damage (c, st, held) -> pages c <= objects_in_use c + 1.
Proof.
  intros [K1 [K2 K2'] K3 K4 K5 K6 [K7 K7'] K8]. cbn [fst snd] in *. rewrite K7, K7', (pa_used _ _ _ _ _ _ _ K3).
  pose proof (pages_bound (slabs_full c ++ slabs_partial c)) as HB. rewrite filter_app, (filter_none _ (slabs_full c)) in HB.
  - cbn [app] in HB. specialize (HB (fun p Hp => proj1 (inuse_range c h total base K1 _ p (pa_pages _ _ _ _ _ _ _ K3 p Hp)))). lia.
  - intros p Hp. rewrite (po_inuse _ _ _ _ _ _ (pa_pages _ _ _ _ _ _ _ K3 p ltac:(set_solver))), (K4 p Hp).
    destruct (ge_count c K1). cbn [length]. lia.
Qed.
End held.

(** * Properties *)

(** C38. An object cache and its client, after any sequence of allocations, of
    frees (of an object held, or of any other pointer), of writes to the objects
    held, and of writes by others to the rest of memory. No page starts with the
    cache's address when it is made, and others start none with it. Then the pages
    that do so are the cache's own. The objects held do not overlap, have the size and the
    alignment asked for, and lie in those pages, whose frames the cache owns;
    [kmem_cache_alloc] fails only when no frame is free and never gives an object
    that is held, nor finds a poison pattern damaged; [kmem_cache_free] takes every
    object held, and for any other pointer (into another cache, into a page that was given
    back, not at an object, or to a free object) refuses and changes nothing, so that it
    never walks a page that is not its own; the counters are exact, at most one page is
    kept with no object in use, and every other frame has the owners it had before;
    destroying the cache gives back what it took and leaves no page that names it. *)
Theorem slab_objects_sound ptr nm size al st0 c0 st1 c st held :
  let h := hhdm_off (frames (owned st0)) in
  0 <= ptr < 0x10000000000000000 -> 0 <= size < 0x10000000000000000 - PAGE_SIZE -> 0 <= al -> cow_ok (owned st0) ->
  (forall a, a mod PAGE_SIZE = 0 -> cache_of (bytes st0) a <> ptr) ->
  h mod PAGE_SIZE = 0 /\ 0 <= h /\ h + total_frames (frames (owned st0)) * PAGE_SIZE < 0x10000000000000000 ->
  kmem_cache_create ptr nm size al st0 = (Some c0, st1) ->
  rtc client_step (c0, st1, []) (c, st, held) ->
  let ps := slabs_full c ++ slabs_partial c in
  (forall a, a mod PAGE_SIZE = 0 -> cache_of (bytes st) a = self c <-> a ∈ addr <$> ps) /\
  NoDup held /\
  (forall x, x ∈ held -> x mod Z.max 8 al = 0 /\
     exists p, p ∈ ps /\ addr p + SLAB_HEADER <= x /\ x + size <= addr p + PAGE_SIZE) /\
  (forall x y, x ∈ held -> y ∈ held -> x <> y -> x + size <= y \/ y + size <= x) /\
  match kmem_cache_alloc c st with
  | (Null, _, _) => abs (frames (owned st)) = ∅
  | (Object obj, _, st') => obj ∉ held /\ poison_damage st' = poison_damage st0
  | (Panic, _, _) => False
  end /\
  (forall obj, 0 <= obj < 0x10000000000000000 -> obj ∉ held -> kmem_cache_free c obj st = (Refused, c, st)) /\
  (forall obj, obj ∈ held -> fst (fst (kmem_cache_free c obj st)) = Freed) /\
  kmem_cache_stats c = (Z.of_nat (length held), Z.of_nat (length ps), objects_per_slab c) /\ pages c <= objects_in_use c + 1 /\
  (forall g, 0 <= g -> owners (owned st) g = owners (owned st0) g + (if bool_decide (g ∈ frame_no h <$> ps) then 1 else 0)) /\
  (forall g, 0 <= g -> owners (owned (kmem_cache_destroy c st)) g = owners (owned st0) g) /\
  (forall a, a mod PAGE_SIZE = 0 -> cache_of (bytes (kmem_cache_destroy c st)) a <> self c).
Proof.
  intros h Hptr Hs Ha Hc Hb Hh E Hr ps. pose proof (created_inv ptr nm size al st0 c0 st1 Hptr Hs Ha Hc Hb E) as K0.
  pose proof (rtc_invariant client_step _ _ _ (cache_client_step_ok _ _ _ _ _ _ Hh) K0 Hr) as K.
  pose proof (alloc_ok _ _ _ _ _ _ Hh c st held K) as HA. destruct (destroy_ok _ _ _ _ _ _ Hh c st held K) as [HD1 HD2].
  pose proof K as [_ _ K3 _ _ _ [K7 K7'] _]. cbn [fst snd] in *. split; [apply (pa_named _ _ _ _ _ _ _ K3)|].
  split; [apply (pa_nodup _ _ _ _ _ _ _ K3)|].
  split; [intros x; eapply held_where; eassumption|]. split; [intros x y; eapply held_apart; eassumption|]. split_and!; try done.
  - destruct (kmem_cache_alloc c st) as [[[|obj|] c'] st']; [by destruct HA| |done]. split; [|by apply (ci_damage _ _ _ _ _ _ _ HA)].
    pose proof (pa_nodup _ _ _ _ _ _ _ (ci_pages _ _ _ _ _ _ _ HA)) as Hn. by apply NoDup_cons in Hn as [Hn _].
  - intros obj. eapply free_bad_ok; eassumption.
  - intros obj Hx. destruct (list_elem_of_split held obj Hx) as (l1&l2&Hl). pose proof (Permutation_middle l1 l2 obj) as Hp.
    rewrite <- Hl in Hp. symmetry in Hp. set (held' := l1 ++ l2) in *.
    pose proof (free_held_ok _ _ _ _ _ _ Hh c st held obj held' K Hp) as HF. destruct (kmem_cache_free c obj st) as [[ok c'] st']. by destruct HF.
  - unfold kmem_cache_stats. by rewrite K7, K7'.
  - eapply pages_few; eassumption.
  - apply (pa_account _ _ _ _ _ _ _ K3).
Qed.

(** ** Examples: the machine of [Cow] *)

Notation example_slab := (mkState small_cow (fun _ => 0) 0 true []).
Notation example_made := (kmem_cache_create 0x1000 [97] 100 16 example_slab).
Notation example_cache := (default (mkCache 0 [] 0 0 0 0 0 0 0 [] []) example_made.1).
Notation example_taken := (kmem_cache_alloc example_cache example_made.2).

Lemma slab_objects_sound_witness :
  match example_taken.1.1 with Object obj => fst (fst (kmem_cache_free example_taken.1.2 obj example_taken.2)) = Freed | _ => False end.
Proof.
  pose proof (slab_objects_sound 0x1000 [97] 100 16 example_slab example_cache example_made.2 example_taken.1.2 example_taken.2
    (match example_taken.1.1 with Object obj => [obj] | _ => [] end)) as H.
  cbn zeta in H. destruct H as (_&_&_&_&_&_&H&_).
  - vm_compute. split; [discriminate|reflexivity].
  - vm_compute. split; [discriminate|reflexivity].
  - discriminate.
  - apply small_cow_ok.
  - intros a _. vm_compute. discriminate.
  - vm_compute. split; [reflexivity|split; [discriminate|reflexivity]].
  - vm_compute. reflexivity.
  - apply rtc_once. apply (client_alloc example_cache example_made.2 [] example_taken.1.1 example_taken.1.2 example_taken.2).
    by destruct example_taken as [[? ?] ?].
  - destruct example_taken as [[r c] st] eqn:E. cbn [fst snd] in *. assert (match r with Object _ => True | _ => False end) as Hr.
    { replace r with (example_taken.1.1) by (by rewrite E). vm_compute. exact I. }
    destruct r; [destruct Hr|by apply H, list_elem_of_singleton|destruct Hr].
Defined.

(** The sum [first_offset + aligned_size] is not checked for overflow: a cache for
    objects of almost 2^64 bytes is made, of which a page holds none, and the
    first allocation reads through NULL. *)
Example slab_size_overflows :
  match kmem_cache_create 0x1000 [] 0xFFFFFFFFFFFFFFF8 8 example_slab with
  | (Some c, st) => objects_per_slab c = 0 /\ fst (fst (kmem_cache_alloc c st)) = Panic
  | (None, _) => False
  end.
Proof. vm_compute. split; reflexivity. Qed.
