(* ===== verification/Spinlock.v ===== *)
(** Spinlocks and the check of the locking rules, [src/kernel/sync/spinlock.c], one
    access to shared memory at a time. Theorems: a lock has one holder, and as long as
    the check has nothing to report, no CPU waits for itself, however many others are
    in between. What a CPU does between the calls is arbitrary. *)
From stdpp Require Import base tactics numbers list sets relations.
From Stdlib Require Import ZArith Lia.
From S2P Require Import Prelude.

Open Scope Z_scope.

Definition LOCK_HELD_MAX : nat := 8.
Definition LOCK_RANK_NONE : Z := 0.

(** [owner] is the CPU, [None] for NULL; a lock is known by its address. *)
Record spinlock := mkLock { locked : bool; rank : Z; owner : option Z; contended : Z }.

(** [held] lists the locks a CPU holds in the order taken, [interrupts] is RFLAGS.IF. *)
Record cpu := mkCpu { held : list Z; interrupts : bool }.

Inductive rule := With_interrupts_enabled | Out_of_order | Too_many_held | Released_by_other.
Record violation := mkViolation { what : rule; lock_a : Z; lock_b : option Z; cpu_id : Z }.

Record spinlocks := mkSpinlocks {
  tracking : bool; violation_count : Z; violations_expected : bool; first_violation : option violation;
  locks : Z -> spinlock; cpus : Z -> cpu }.

Definition set_lock (s : spinlocks) (l : Z) (f : spinlock -> spinlock) : spinlocks :=
  mkSpinlocks (tracking s) (violation_count s) (violations_expected s) (first_violation s)
    (fun x => if x =? l then f (locks s x) else locks s x) (cpus s).
Definition set_cpu (s : spinlocks) (c : Z) (f : cpu -> cpu) : spinlocks :=
  mkSpinlocks (tracking s) (violation_count s) (violations_expected s) (first_violation s)
    (locks s) (fun x => if x =? c then f (cpus s x) else cpus s x).
Definition set_locked (b : bool) (k : spinlock) : spinlock := mkLock b (rank k) (owner k) (contended k).
Definition set_owner (o : option Z) (k : spinlock) : spinlock := mkLock (locked k) (rank k) o (contended k).
Definition set_held (h : list Z) (k : cpu) : cpu := mkCpu h (interrupts k).

(** * The check of the rules *)

Definition lock_debug_enable (s : spinlocks) : spinlocks :=
  mkSpinlocks true (violation_count s) (violations_expected s) (first_violation s) (locks s) (cpus s).
Definition lock_debug_held_count (c : Z) (s : spinlocks) : Z :=
  if tracking s then Z.of_nat (length (held (cpus s c))) else 0.

(** The first one is kept: later ones are usually consequences of it. *)
Definition lock_debug_report (c : Z) (w : rule) (a : Z) (b : option Z) (s : spinlocks) : spinlocks :=
  mkSpinlocks (tracking s) (u32 (violation_count s + 1)) (violations_expected s)
    (if violation_count s =? 0 then Some (mkViolation w a b (if tracking s then c else 0)) else first_violation s) (locks s) (cpus s).
Definition lock_debug_reset (s : spinlocks) : spinlocks :=
  mkSpinlocks (tracking s) 0 (violations_expected s) (first_violation s) (locks s) (cpus s).
Definition lock_debug_expect (b : bool) (s : spinlocks) : spinlocks :=
  mkSpinlocks (tracking s) (violation_count s) b (first_violation s) (locks s) (cpus s).

(** The report with which the kernel stops. *)
Definition lock_debug_poll (s : spinlocks) : option violation :=
  if (violation_count s =? 0) || violations_expected s then None else first_violation s.

Definition report_if (b : bool) (c : Z) (w : rule) (a : Z) (o : option Z) (s : spinlocks) : spinlocks :=
  if b then lock_debug_report c w a o s else s.

(** The first lock held that may not be held when one of rank [r] is taken. *)
Fixpoint first_out_of_order (r : Z) (hs : list Z) (s : spinlocks) : option Z :=
  match hs with
  | [] => None
  | h :: hs' =>
      if negb (rank (locks s h) =? LOCK_RANK_NONE) && (r <=? rank (locks s h)) then Some h else first_out_of_order r hs' s
  end.

(** * Taking and releasing *)

Definition spinlock_held (c l : Z) (s : spinlocks) : bool :=
  tracking s && locked (locks s l) && bool_decide (owner (locks s l) = Some c).

(** What [spinlock_acquire] does before it tries; [None] is the panic. *)
Definition acquire_check (c l : Z) (s : spinlocks) : option spinlocks :=
  if negb (tracking s) then Some s
  else
    let s := report_if (interrupts (cpus s c)) c With_interrupts_enabled l None s in
    if locked (locks s l) && bool_decide (owner (locks s l) = Some c) then None
    else if rank (locks s l) =? LOCK_RANK_NONE then Some s
    else match first_out_of_order (rank (locks s l)) (held (cpus s c)) s with
         | Some h => Some (lock_debug_report c Out_of_order l (Some h) s)
         | None => Some s
         end.

(** [__atomic_test_and_set]: the old value, and the lock set. *)
Definition test_and_set (l : Z) (s : spinlocks) : bool * spinlocks := (locked (locks s l), set_lock s l (set_locked true)).

Definition add_contended (l : Z) (s : spinlocks) : spinlocks :=
  set_lock s l (fun k => mkLock (locked k) (rank k) (owner k) (u64 (contended k + 1))).

(** Once it is taken. *)
Definition note_held (c l : Z) (s : spinlocks) : spinlocks :=
  if negb (tracking s) then s
  else
    let s := set_lock s l (set_owner (Some c)) in
    if bool_decide (length (held (cpus s c)) < LOCK_HELD_MAX)%nat then set_cpu s c (set_held (held (cpus s c) ++ [l]))
    else lock_debug_report c Too_many_held l None s.

Fixpoint remove_first (l : Z) (hs : list Z) : list Z :=
  match hs with
  | [] => []
  | h :: hs' => if h =? l then hs' else h :: remove_first l hs'
  end.
(** Searched from the end. *)
Definition forget_held (c l : Z) (s : spinlocks) : spinlocks :=
  set_cpu s c (set_held (reverse (remove_first l (reverse (held (cpus s c)))))).

Definition release_check (c l : Z) (s : spinlocks) : spinlocks :=
  if negb (tracking s) then s
  else
    forget_held c l (report_if (negb (locked (locks s l)) || negb (bool_decide (owner (locks s l) = Some c))) c Released_by_other l None s).
Definition release_owner (l : Z) (s : spinlocks) : spinlocks := if tracking s then set_lock s l (set_owner None) else s.
Definition release_clear (l : Z) (s : spinlocks) : spinlocks := set_lock s l (set_locked false).

(** Only for fatal paths: whoever holds it, the lock is free. *)
Definition spinlock_force_release (c l : Z) (s : spinlocks) : spinlocks :=
  let s := if tracking s then set_lock (forget_held c l s) l (set_owner None) else s in release_clear l s.

Definition set_interrupts (c : Z) (b : bool) (s : spinlocks) : spinlocks := set_cpu s c (fun k => mkCpu (held k) b).
(** The interrupt state before, and interrupts off. *)
Definition irq_save (c : Z) (s : spinlocks) : bool * spinlocks := (interrupts (cpus s c), set_interrupts c false s).
Definition irq_restore (c : Z) (flags : bool) (s : spinlocks) : spinlocks := if flags then set_interrupts c true s else s.

(** * CPUs *)

(** Where a CPU is in [spinlock_acquire] (the check made; in the loop; lock taken and
    not yet noted), [spinlock_try_acquire] (seen free) or [spinlock_release] (the check
    made; owner cleared). *)
Inductive activity :=
| Running
| Panicked
| Taking (l : Z)
| Spinning (l : Z)
| Taken (l : Z)
| Trying (l : Z)
| Releasing (l : Z)
| Clearing (l : Z).

(** What a running CPU does next. *)
Inductive action :=
| Acquire (l : Z)
| Try_acquire (l : Z)
| Release (l : Z)
| Irq_save
| Irq_restore (flags : bool).

Record machine := mkMachine { sp : spinlocks; at_ : Z -> activity }.
Definition goes (m : machine) (c : Z) (a : activity) (s : spinlocks) : machine := mkMachine s (fun x => if x =? c then a else at_ m x).

(** The next step of CPU [c]. *)
Definition run (c : Z) (a : action) (m : machine) : machine :=
  let s := sp m in
  match at_ m c with
  | Running =>
      match a with
      | Acquire l => match acquire_check c l s with Some s => goes m c (Taking l) s | None => goes m c Panicked s end
      | Try_acquire l =>
          let s := report_if (tracking s && interrupts (cpus s c)) c With_interrupts_enabled l None s in
          if locked (locks s l) then goes m c Running s else goes m c (Trying l) s
      | Release l => goes m c (Releasing l) (release_check c l s)
      | Irq_save => goes m c Running (snd (irq_save c s))
      | Irq_restore flags => goes m c Running (irq_restore c flags s)
      end
  | Panicked => m
  | Taking l =>
      let '(old, s) := test_and_set l s in
      if old then goes m c (Spinning l) (add_contended l s) else goes m c (Taken l) s
  | Spinning l => let '(old, s) := test_and_set l s in goes m c (if old then Spinning l else Taken l) s
  | Trying l => let '(old, s) := test_and_set l s in goes m c (if old then Running else Taken l) s
  | Taken l => goes m c Running (note_held c l s)
  | Releasing l => goes m c (Clearing l) (release_owner l s)
  | Clearing l => goes m c Running (release_clear l s)
  end.

(** Any CPU goes on, and the check has nothing to report. *)
Definition quiet_step (m m' : machine) : Prop := exists c a, m' = run c a m /\ violation_count (sp m') = 0.

Record initial (m : machine) : Prop := {
  in_tracking : tracking (sp m) = true;
  in_quiet : violation_count (sp m) = 0;
  in_locks : forall l, locked (locks (sp m) l) = false /\ owner (locks (sp m) l) = None;
  in_cpus : forall c, held (cpus (sp m) c) = [] /\ at_ m c = Running
}.

(** * The invariant *)

(** From the moment the lock is set to the moment it is cleared. *)
Definition holds (m : machine) (c l : Z) : Prop :=
  l ∈ held (cpus (sp m) c) \/ at_ m c = Taken l \/ at_ m c = Releasing l \/ at_ m c = Clearing l.
Definition waits (m : machine) (c l : Z) : Prop := at_ m c = Taking l \/ at_ m c = Spinning l.

(** The locks held rank below the one to come. *)
Definition in_order (s : spinlocks) (hs : list Z) (l : Z) : Prop :=
  rank (locks s l) <> LOCK_RANK_NONE -> forall h, h ∈ hs -> rank (locks s h) <> LOCK_RANK_NONE -> rank (locks s h) < rank (locks s l).

Record inv (m : machine) : Prop := {
  iv_tracking : tracking (sp m) = true;
  iv_locked : forall l, locked (locks (sp m) l) = true <-> exists c, holds m c l;
  iv_unique : forall c c' l, holds m c l -> holds m c' l -> c = c';
  iv_owner : forall c l, owner (locks (sp m) l) = Some c <-> l ∈ held (cpus (sp m) c) \/ at_ m c = Releasing l;
  iv_nodup : forall c, NoDup (held (cpus (sp m) c));
  iv_apart : forall c l, at_ m c = Taken l \/ at_ m c = Releasing l \/ at_ m c = Clearing l -> l ∉ held (cpus (sp m) c);
  iv_order : forall c l, waits m c l -> in_order (sp m) (held (cpus (sp m) c)) l
}.

Lemma initial_holds m : initial m -> inv m.
Proof.
  intros [I1 I2 I3 I4]. assert (forall c l, ~ holds m c l) as Hn.
  { intros c l. unfold holds. destruct (I4 c) as [-> ->]. rewrite elem_of_nil. naive_solver. }
  split; [done|..].
  - intros l. destruct (I3 l) as [-> _]. naive_solver.
  - naive_solver.
  - intros c l. destruct (I3 l) as [_ ->]. destruct (I4 c) as [-> ->]. rewrite elem_of_nil. naive_solver.
  - intros c. destruct (I4 c) as [-> _]. constructor.
  - intros c l. destruct (I4 c) as [_ ->]. naive_solver.
  - intros c l. unfold waits. destruct (I4 c) as [_ ->]. naive_solver.
Qed.

Definition same_locks (s s' : spinlocks) : Prop :=
  forall l, locked (locks s l) = locked (locks s' l) /\ rank (locks s l) = rank (locks s' l) /\ owner (locks s l) = owner (locks s' l).

(** The lock a CPU has in its hands, that it is about to disown, or waits for. *)
Definition grip (a : activity) : option Z := match a with Taken l | Releasing l | Clearing l => Some l | _ => None end.
Definition leaving (a : activity) : option Z := match a with Releasing l => Some l | _ => None end.
Definition aim (a : activity) : option Z := match a with Taking l | Spinning l => Some l | _ => None end.
Lemma grip_iff a l : a = Taken l \/ a = Releasing l \/ a = Clearing l <-> grip a = Some l.
Proof. destruct a; naive_solver. Qed.
Lemma leaving_iff a l : a = Releasing l <-> leaving a = Some l.
Proof. destruct a; naive_solver. Qed.
Lemma aim_iff a l : a = Taking l \/ a = Spinning l <-> aim a = Some l.
Proof. destruct a; naive_solver. Qed.

(** Everything but [c]'s activity stays, and [c] holds what it held. *)
Lemma inv_moves m c a s : inv m -> same_locks s (sp m) -> (forall x, held (cpus s x) = held (cpus (sp m) x)) -> tracking s = true ->
  grip a = grip (at_ m c) -> leaving a = leaving (at_ m c) ->
  (forall l, aim a = Some l -> in_order (sp m) (held (cpus (sp m) c)) l) -> inv (goes m c a s).
Proof.
  intros [V1 V2 V3 V4 V5 V6 V7] Hl Hh Ht Ha Hr Ho.
  assert (forall c' l, holds (goes m c a s) c' l <-> holds m c' l) as E.
  { intros c' l. unfold holds. cbn. rewrite Hh. destruct (Z.eqb_spec c' c) as [->|]; [|done]. by rewrite !grip_iff, Ha. }
  split; cbn; [done|..].
  - intros l. rewrite (proj1 (Hl l)), V2. by setoid_rewrite E.
  - intros c' c'' l. rewrite !E. apply V3.
  - intros c' l. rewrite (proj2 (proj2 (Hl l))), Hh, V4. destruct (Z.eqb_spec c' c) as [->|]; [|done]. by rewrite !leaving_iff, Hr.
  - intros c'. by rewrite Hh.
  - intros c' l. rewrite Hh. destruct (Z.eqb_spec c' c) as [->|]; [rewrite grip_iff, Ha, <- grip_iff|]; apply V6.
  - intros c' l. intros Hw. assert (in_order (sp m) (held (cpus (sp m) c')) l) as Hi.
    { unfold waits in Hw. cbn in Hw. destruct (Z.eqb_spec c' c) as [->|]; [by apply Ho, aim_iff|by apply V7]. }
    rewrite Hh. intros Hr' h Hin. destruct (Hl l) as (_&El&_), (Hl h) as (_&Eh&_). rewrite El, Eh in *. by apply Hi.
Qed.

Lemma report_count c w a b s : violation_count s = 0 -> violation_count (lock_debug_report c w a b s) <> 0.
Proof. cbn [lock_debug_report violation_count]. intros ->. discriminate. Qed.
Lemma quiet_before c w a b s : violation_count (lock_debug_report c w a b s) = 0 -> violation_count s <> 0.
Proof. intros H E. by apply (report_count c w a b s). Qed.

Lemma out_of_order_none r hs s : first_out_of_order r hs s = None -> forall h, h ∈ hs -> rank (locks s h) <> LOCK_RANK_NONE -> rank (locks s h) < r.
Proof.
  induction hs as [|h hs IH]; cbn; [by intros _ h ?%elem_of_nil|].
  destruct (negb (rank (locks s h) =? LOCK_RANK_NONE) && (r <=? rank (locks s h))) eqn:E; [done|]. intros Hn h' [->|Hin]%elem_of_cons Hr; [|by apply IH].
  apply andb_false_iff in E as [E|E]; zbool; lia.
Qed.

(** An acquisition the check accepts. *)
Lemma acquire_quiet c l s s' : tracking s = true -> violation_count s = 0 -> acquire_check c l s = Some s' -> violation_count s' = 0 ->
  s' = s /\ ~ (locked (locks s l) = true /\ owner (locks s l) = Some c) /\ in_order s (held (cpus s c)) l.
Proof.
  unfold acquire_check. intros Ht Hc. rewrite Ht. cbn [negb].
  destruct (interrupts (cpus s c)); cbn [report_if].
  { set (t := lock_debug_report _ _ _ _ s). assert (violation_count t = 1) as Et by (unfold t; cbn; by rewrite Hc).
    destruct (_ && _); [done|]. destruct (_ =? _); [intros [= <-]; lia|]. destruct (first_out_of_order _ _ _); intros [= <-]; [|lia].
    cbn [lock_debug_report violation_count]. rewrite Et. discriminate. }
  destruct (locked (locks s l) && bool_decide (owner (locks s l) = Some c)) eqn:E; [done|].
  assert (~ (locked (locks s l) = true /\ owner (locks s l) = Some c)) as Hno.
  { intros [E1 E2]. rewrite E1 in E. cbn in E. by apply bool_decide_eq_false in E. }
  destruct (Z.eqb_spec (rank (locks s l)) LOCK_RANK_NONE) as [Er|Er]; [intros [= <-] _; split; [done|split; [done|by intros ?]]|].
  destruct (first_out_of_order _ _ _) eqn:Ef; intros [= <-] Hq; [by destruct (quiet_before _ _ _ _ _ Hq)|].
  split; [done|]. split; [done|]. intros _. by apply out_of_order_none.
Qed.

(** The lock is set by one that found it free. *)
Lemma inv_taken m c l : inv m -> locked (locks (sp m) l) = false -> at_ m c = Taking l \/ at_ m c = Spinning l \/ at_ m c = Trying l ->
  inv (goes m c (Taken l) (set_lock (sp m) l (set_locked true))).
Proof.
  intros [V1 V2 V3 V4 V5 V6 V7] Hl Hat. assert (forall c', ~ holds m c' l) as Hno.
  { intros c' Hc. rewrite (proj2 (V2 l)) in Hl by eauto. done. }
  assert (forall c' l', holds (goes m c (Taken l) (set_lock (sp m) l (set_locked true))) c' l' <-> holds m c' l' \/ (c' = c /\ l' = l)) as E.
  { intros c' l'. unfold holds. cbn. destruct (Z.eqb_spec c' c) as [->|Hn]; [|clear - Hn; tauto]. clear - Hat. destruct Hat as [->|[->| ->]]; naive_solver. }
  split; cbn; [done|..].
  - intros l'. setoid_rewrite E. destruct (Z.eqb_spec l' l) as [->|Hne]; [cbn; clear; naive_solver|]. rewrite V2. clear - Hne. naive_solver.
  - intros c' c'' l'. rewrite !E. intros [H1|[-> ->]] [H2|[-> E2]]; [by eapply V3|subst l'; by destruct (Hno c')|by destruct (Hno c'')|done].
  - intros c' l'. replace (owner _) with (owner (locks (sp m) l')) by (by destruct (l' =? l)). rewrite V4.
    destruct (Z.eqb_spec c' c) as [->|]; [|done]. clear - Hat. destruct Hat as [->|[->| ->]]; naive_solver.
  - done.
  - intros c' l'. destruct (Z.eqb_spec c' c) as [->|]; [|apply V6]. intros [[= <-]|[|]] Hin; [|done..]. apply (Hno c). by left.
  - intros c' l' Hw. unfold waits in Hw. cbn in Hw. destruct (Z.eqb_spec c' c) as [->|]; [by destruct Hw|].
    intros Hr h Hin. assert (forall x, rank (if x =? l then set_locked true (locks (sp m) x) else locks (sp m) x) = rank (locks (sp m) x)) as Er by (intros x; by destruct (x =? l)).
    cbn in *. rewrite !Er in *. by apply (V7 c' l').
Qed.

(** Its holder is noted. *)
Lemma inv_noted m c l : inv m -> at_ m c = Taken l ->
  inv (goes m c Running (set_cpu (set_lock (sp m) l (set_owner (Some c))) c (set_held (held (cpus (sp m) c) ++ [l])))).
Proof.
  intros [V1 V2 V3 V4 V5 V6 V7] Hat. set (m' := goes m c Running _).
  assert (holds m c l) as Hc by (by right; left).
  assert (forall c', held (cpus (sp m') c') = if c' =? c then held (cpus (sp m) c) ++ [l] else held (cpus (sp m) c')) as Eh.
  { intros c'. unfold m'. cbn. destruct (Z.eqb_spec c' c) as [->|]; done. }
  assert (forall c' l', holds m' c' l' <-> holds m c' l') as E.
  { intros c' l'. unfold holds. rewrite Eh. unfold m'. cbn. destruct (Z.eqb_spec c' c) as [->|]; [|done]. rewrite elem_of_app, list_elem_of_singleton, Hat. clear. naive_solver. }
  split; [done|..].
  - intros l'. setoid_rewrite E. rewrite <- V2. unfold m'. cbn. by destruct (l' =? l).
  - intros c' c'' l'. rewrite !E. apply V3.
  - intros c' l'. rewrite Eh. unfold m'. cbn. destruct (Z.eqb_spec l' l) as [->|Hne]; cbn.
    + split; [intros [= <-]; rewrite Z.eqb_refl; left; apply elem_of_app; right; by apply list_elem_of_singleton|].
      destruct (Z.eqb_spec c' c) as [->|Hn]; [done|]. intros Ho. f_equal. apply (V3 c c' l); [done|]. destruct Ho; [by left|by right; right; left].
    + rewrite V4. destruct (Z.eqb_spec c' c) as [->|]; [|done]. rewrite elem_of_app, list_elem_of_singleton, Hat. clear - Hne. naive_solver.
  - intros c'. rewrite Eh. destruct (Z.eqb_spec c' c) as [->|]; [|done]. apply NoDup_app. split; [done|]. split; [|apply NoDup_singleton].
    intros x Hx ->%list_elem_of_singleton. apply (V6 c l); [by left|done].
  - intros c' l'. rewrite Eh. unfold m'. cbn. destruct (Z.eqb_spec c' c) as [->|]; [clear; naive_solver|apply V6].
  - intros c' l' Hw. unfold waits, m' in Hw. cbn in Hw. rewrite Eh. destruct (Z.eqb_spec c' c) as [->|]; [by destruct Hw|].
    intros Hr h Hin. assert (forall x, rank (locks (sp m') x) = rank (locks (sp m) x)) as Er by (intros x; unfold m'; cbn; by destruct (x =? l)).
    rewrite !Er in *. by apply (V7 c' l').
Qed.

Lemma remove_first_elem l hs x : NoDup hs -> x ∈ remove_first l hs <-> x ∈ hs /\ x <> l.
Proof.
  induction hs as [|h hs IH]; cbn; intros Hn; [rewrite elem_of_nil; tauto|]. apply NoDup_cons in Hn as [Hh Hn].
  destruct (Z.eqb_spec h l) as [->|Hne]; rewrite !elem_of_cons; [|rewrite IH by done]; destruct (decide (x = l)) as [->|]; naive_solver.
Qed.
Lemma remove_first_nodup l hs : NoDup hs -> NoDup (remove_first l hs).
Proof.
  induction hs as [|h hs IH]; cbn; [done|]. intros [Hh Hn]%NoDup_cons. destruct (Z.eqb_spec h l) as [->|Hne]; [done|].
  apply NoDup_cons. split; [|by apply IH]. rewrite remove_first_elem by done. tauto.
Qed.

(** A release by the holder takes the lock off its list, ... *)
Lemma inv_forgotten m c l : inv m -> at_ m c = Running -> l ∈ held (cpus (sp m) c) -> inv (goes m c (Releasing l) (forget_held c l (sp m))).
Proof.
  intros [V1 V2 V3 V4 V5 V6 V7] Hat Hin. set (m' := goes m c _ _).
  assert (forall x, x ∈ reverse (remove_first l (reverse (held (cpus (sp m) c)))) <-> x ∈ held (cpus (sp m) c) /\ x <> l) as Er.
  { intros x. rewrite elem_of_reverse, remove_first_elem, elem_of_reverse; [done|]. by rewrite reverse_Permutation. }
  assert (forall c', held (cpus (sp m') c') = if c' =? c then reverse (remove_first l (reverse (held (cpus (sp m) c)))) else held (cpus (sp m) c')) as Eh.
  { intros c'. unfold m'. cbn. destruct (Z.eqb_spec c' c) as [->|]; done. }
  assert (forall c' l', holds m' c' l' <-> holds m c' l') as E.
  { intros c' l'. unfold holds. rewrite Eh. unfold m'. cbn. destruct (Z.eqb_spec c' c) as [->|]; [|done]. rewrite Er, Hat. clear - Hin. destruct (decide (l' = l)) as [->|]; naive_solver. }
  split; [done|..].
  - intros l'. setoid_rewrite E. apply V2.
  - intros c' c'' l'. rewrite !E. apply V3.
  - intros c' l'. rewrite Eh. unfold m'. cbn. rewrite V4. destruct (Z.eqb_spec c' c) as [->|]; [|done]. rewrite Er, Hat. clear - Hin. destruct (decide (l' = l)) as [->|]; naive_solver.
  - intros c'. rewrite Eh. destruct (Z.eqb_spec c' c) as [->|]; [|done]. rewrite (reverse_Permutation (remove_first _ _)). apply remove_first_nodup. by rewrite reverse_Permutation.
  - intros c' l'. rewrite Eh. unfold m'. cbn. destruct (Z.eqb_spec c' c) as [->|]; [rewrite Er; clear; naive_solver|apply V6].
  - intros c' l' Hw. unfold waits, m' in Hw. cbn in Hw. rewrite Eh. destruct (Z.eqb_spec c' c) as [->|]; [by destruct Hw|]. by apply (V7 c' l').
Qed.

(** ... and clears its owner and the lock. *)
Lemma inv_disowned m c l : inv m -> at_ m c = Releasing l -> inv (goes m c (Clearing l) (set_lock (sp m) l (set_owner None))).
Proof.
  intros [V1 V2 V3 V4 V5 V6 V7] Hat. set (m' := goes m c _ _). assert (holds m c l) as Hc by (by right; right; left).
  assert (forall c' l', holds m' c' l' <-> holds m c' l') as E.
  { intros c' l'. unfold holds, m'. cbn. destruct (Z.eqb_spec c' c) as [->|]; [|done]. rewrite Hat. clear. naive_solver. }
  split; [done|..].
  - intros l'. setoid_rewrite E. rewrite <- V2. unfold m'. cbn. by destruct (l' =? l).
  - intros c' c'' l'. rewrite !E. apply V3.
  - intros c' l'. unfold m'. cbn. destruct (Z.eqb_spec l' l) as [->|Hne]; cbn.
    + split; [done|]. destruct (Z.eqb_spec c' c) as [->|Hn]; intros Ho; exfalso.
      * destruct Ho as [Ho|]; [|done]. revert Ho. apply V6. by right; left.
      * apply Hn. apply (V3 c' c l); [|done]. destruct Ho; [by left|by right; right; left].
    + rewrite V4. destruct (Z.eqb_spec c' c) as [->|]; [|done]. rewrite Hat. clear - Hne. naive_solver.
  - done.
  - intros c' l'. unfold m'. cbn. destruct (Z.eqb_spec c' c) as [->|]; [|apply V6]. intros [|[|[= <-]]]; [done..|]. apply V6. by right; left.
  - intros c' l' Hw. unfold waits, m' in Hw. cbn in Hw. destruct (Z.eqb_spec c' c) as [->|]; [by destruct Hw|].
    intros Hr h Hin. assert (forall x, rank (locks (sp m') x) = rank (locks (sp m) x)) as Er by (intros x; unfold m'; cbn; by destruct (x =? l)).
    rewrite !Er in *. by apply (V7 c' l').
Qed.

Lemma inv_cleared m c l : inv m -> at_ m c = Clearing l -> inv (goes m c Running (set_lock (sp m) l (set_locked false))).
Proof.
  intros [V1 V2 V3 V4 V5 V6 V7] Hat. set (m' := goes m c _ _). assert (holds m c l) as Hc by (by right; right; right).
  assert (l ∉ held (cpus (sp m) c)) as Hl by (apply V6; by right; right).
  assert (forall c' l', holds m' c' l' <-> holds m c' l' /\ l' <> l) as E.
  { intros c' l'. split.
    - unfold holds, m'. cbn. destruct (Z.eqb_spec c' c) as [->|Hn]; [rewrite Hat; clear - Hl; naive_solver|]. intros Hh. split; [done|intros ->].
      apply Hn. by apply (V3 c' c l).
    - unfold holds, m'. cbn. destruct (Z.eqb_spec c' c) as [->|Hn]; [rewrite Hat|]; clear; naive_solver. }
  split; [done|..].
  - intros l'. setoid_rewrite E. unfold m'. cbn. destruct (Z.eqb_spec l' l) as [->|Hn]; [cbn; clear; naive_solver|]. rewrite V2. clear - Hn. naive_solver.
  - intros c' c'' l'. rewrite !E. intros [? _] [? _]. by eapply V3.
  - intros c' l'. unfold m'. cbn. replace (owner _) with (owner (locks (sp m) l')) by (by destruct (l' =? l)). rewrite V4.
    destruct (Z.eqb_spec c' c) as [->|]; [|done]. rewrite Hat. clear. naive_solver.
  - done.
  - intros c' l'. unfold m'. cbn. destruct (Z.eqb_spec c' c) as [->|]; [|apply V6]. clear. naive_solver.
  - intros c' l' Hw. unfold waits, m' in Hw. cbn in Hw. destruct (Z.eqb_spec c' c) as [->|]; [by destruct Hw|].
    intros Hr h Hin. assert (forall x, rank (locks (sp m') x) = rank (locks (sp m) x)) as Er by (intros x; unfold m'; cbn; by destruct (x =? l)).
    rewrite !Er in *. by apply (V7 c' l').
Qed.

Lemma same_locks_set s l : locked (locks s l) = true -> same_locks (set_lock s l (set_locked true)) s.
Proof. intros Hl x. cbn. destruct (Z.eqb_spec x l) as [->|]; [|done]. by rewrite Hl. Qed.

Lemma report_if_quiet b c w a o s : violation_count s = 0 -> violation_count (report_if b c w a o s) = 0 -> b = false.
Proof. destruct b; [|done]. cbn [report_if]. intros H0 H1. by destruct (quiet_before _ _ _ _ _ H1). Qed.

Lemma run_inv c a m : inv m -> violation_count (sp m) = 0 -> violation_count (sp (run c a m)) = 0 -> inv (run c a m).
Proof.
  intros Hi H0. pose proof (iv_tracking m Hi) as Ht. unfold run. destruct (at_ m c) as [| |l|l|l|l|l|l] eqn:Hat.
  - destruct a as [l|l|l| |flags].
    + destruct (acquire_check c l (sp m)) as [s|] eqn:E; intros Hq.
      * destruct (acquire_quiet c l _ s Ht H0 E Hq) as (->&_&Ho). apply inv_moves; rewrite ?Hat; try done. by intros l' [= <-].
      * apply inv_moves; by rewrite ?Hat.
    + rewrite Ht. cbn [andb]. intros Hq. assert (interrupts (cpus (sp m) c) = false) as E.
      { apply (report_if_quiet _ c With_interrupts_enabled l None (sp m) H0). destruct (locked _); exact Hq. }
      rewrite E in *. cbn [report_if] in *. destruct (locked (locks (sp m) l)); apply inv_moves; by rewrite ?Hat.
    + unfold release_check. rewrite Ht. cbn [negb]. intros Hq.
      assert (negb (locked (locks (sp m) l)) || negb (bool_decide (owner (locks (sp m) l) = Some c)) = false) as E by (by apply (report_if_quiet _ c Released_by_other l None (sp m) H0)).
      rewrite E in *. cbn [report_if] in *. apply inv_forgotten; [done..|]. zbool. apply bool_decide_eq_true in H1. apply (iv_owner m Hi) in H1 as [|]; congruence.
    + intros _. apply inv_moves; rewrite ?Hat; try done. intros x. cbn. by destruct (x =? c).
    + intros _. apply inv_moves; rewrite ?Hat; try done; destruct flags; try done. intros x. cbn. by destruct (x =? c).
  - done.
  - intros _. cbn [test_and_set]. destruct (locked (locks (sp m) l)) eqn:El; [|apply inv_taken; auto].
    apply inv_moves; rewrite ?Hat; try done.
    + intros x. cbn. destruct (Z.eqb_spec x l) as [->|]; [cbn; by rewrite El|done].
    + intros l' [= <-]. apply (iv_order m Hi). by left.
  - intros _. cbn [test_and_set]. destruct (locked (locks (sp m) l)) eqn:El; [|apply inv_taken; auto].
    apply inv_moves; rewrite ?Hat; try done; [by apply same_locks_set|].
    intros l' [= <-]. apply (iv_order m Hi). by right.
  - unfold note_held. rewrite Ht. cbn [negb]. cbn zeta. destruct (bool_decide _); intros Hq; [by apply inv_noted|].
    by destruct (quiet_before _ _ _ _ _ Hq).
  - intros _. cbn [test_and_set]. destruct (locked (locks (sp m) l)) eqn:El; [|apply inv_taken; auto].
    apply inv_moves; rewrite ?Hat; try done. by apply same_locks_set.
  - intros _. unfold release_owner. rewrite Ht. by apply inv_disowned.
  - intros _. by apply inv_cleared.
Qed.

Lemma reached_inv m0 m : initial m0 -> rtc quiet_step m0 m -> inv m /\ violation_count (sp m) = 0.
Proof.
  intros H0. apply (rtc_invariant quiet_step (fun m => inv m /\ violation_count (sp m) = 0)); [|by split; [apply initial_holds|apply in_quiet]].
  intros x y [Hi Hq] (c&a&->&Hq'). split; [by apply run_inv|done].
Qed.

Lemma run_rank c a m l : rank (locks (sp (run c a m)) l) = rank (locks (sp m) l).
Proof.
  assert (forall b w x o s, locks (report_if b c w x o s) = locks s) as Er by (intros []; done).
  unfold run. destruct (at_ m c) as [| |k|k|k|k|k|k]; [|done|..].
  - destruct a as [k|k|k| |[]]; try done.
    + unfold acquire_check. destruct (tracking (sp m)); cbn [negb]; [|done]. destruct (_ && _); [done|]. destruct (_ =? _); [by destruct (interrupts _)|].
      destruct (first_out_of_order _ _ _); by destruct (interrupts _).
    + cbn zeta. destruct (locked _); cbn [goes sp]; by rewrite Er.
    + unfold release_check. destruct (tracking (sp m)); [|done]. cbn. by rewrite Er.
  - cbn. destruct (locked _); cbn; destruct (l =? k); done.
  - cbn. by destruct (l =? k).
  - unfold note_held. destruct (tracking (sp m)); [|done]. cbn. destruct (bool_decide _); cbn; by destruct (l =? k).
  - cbn. by destruct (l =? k).
  - unfold release_owner. destruct (tracking (sp m)); [|done]. cbn. by destruct (l =? k).
  - cbn. by destruct (l =? k).
Qed.

Lemma reached_rank m0 m l : rtc quiet_step m0 m -> rank (locks (sp m) l) = rank (locks (sp m0) l).
Proof. induction 1 as [|x y z (c&a&->&_) _ IH]; [done|]. by rewrite IH, run_rank. Qed.

(** * Properties *)

(** A CPU waits for a lock another one has. *)
Definition blocked_by (m : machine) (c c' : Z) : Prop := exists l, waits m c l /\ holds m c' l.

Section chains.
Context (m : machine) (Hi : inv m) (Hm : forall l, 0 < rank (locks (sp m) l) < 0x100000000).

(** Along a chain of waiting CPUs the locks' ranks rise. *)
Lemma blocked_rank c l l' : holds m c l -> waits m c l' -> rank (locks (sp m) l) < rank (locks (sp m) l').
Proof.
  intros Hh Hw. assert (forall l, rank (locks (sp m) l) <> LOCK_RANK_NONE) as Hn by (intros k E; specialize (Hm k); unfold LOCK_RANK_NONE in E; lia).
  apply (iv_order m Hi c l' Hw); [done| |done]. destruct Hh as [|Hg]; [done|]. apply grip_iff in Hg. apply aim_iff in Hw. by destruct (at_ m c).
Qed.

Lemma waits_one c l l' : waits m c l -> waits m c l' -> l = l'.
Proof. intros H1%aim_iff H2%aim_iff. congruence. Qed.

Lemma chain_waits c c' : tc (blocked_by m) c c' -> exists l, waits m c l.
Proof. intros Ht. destruct Ht as [c c' (l&?&_)|c d c' (l&?&_)]; eauto. Qed.

Lemma chain_rank c c' : tc (blocked_by m) c c' -> forall l l', waits m c l -> waits m c' l' -> rank (locks (sp m) l) < rank (locks (sp m) l').
Proof.
  induction 1 as [c c' (k&Hw&Hh)|c d c' (k&Hw&Hh) Ht IH]; intros l l' Hwl Hwl'; rewrite (waits_one c l k) by done.
  - by apply (blocked_rank c').
  - destruct (chain_waits d c' Ht) as [j Hj]. etrans; [by apply (blocked_rank d k j)|by apply IH].
Qed.

Lemma chain_acyclic c : ~ tc (blocked_by m) c c.
Proof.
  intros Ht. destruct (chain_waits c c Ht) as [l Hl]. pose proof (chain_rank c c Ht l l Hl Hl). lia.
Qed.

Lemma aimless c : aim (at_ m c) = None -> forall c', ~ blocked_by m c c'.
Proof. intros Ea c' (l&Hl%aim_iff&_). congruence. Qed.

Lemma chain_ends_from k c l : waits m c l -> 0x100000000 - rank (locks (sp m) l) < Z.of_nat k ->
  exists c', rtc (blocked_by m) c c' /\ forall c'', ~ blocked_by m c' c''.
Proof.
  revert c l. induction k as [|k IH]; intros c l Hw Hlt; [specialize (Hm l); lia|]. destruct (locked (locks (sp m) l)) eqn:El.
  - apply (iv_locked m Hi) in El as [d Hd]. destruct (aim (at_ m d)) as [j|] eqn:Ea.
    + apply aim_iff in Ea. pose proof (blocked_rank d l j Hd Ea). destruct (IH d j Ea) as (c'&Hc'&He); [lia|].
      exists c'. split; [|done]. eapply rtc_l; [|done]. by exists l.
    + exists d. split; [apply rtc_once; by exists l|by apply aimless].
  - exists c. split; [done|]. intros c'' (j&Hj&Hh). rewrite (waits_one c l j) in El by done.
    rewrite (proj2 (iv_locked m Hi j)) in El by eauto. done.
Qed.

Lemma chain_ends c : exists c', rtc (blocked_by m) c c' /\ forall c'', ~ blocked_by m c' c''.
Proof.
  destruct (aim (at_ m c)) as [l|] eqn:Ea; [|exists c; split; [done|by apply aimless]].
  apply aim_iff in Ea. apply (chain_ends_from (Z.to_nat 0x100000001) c l Ea). specialize (Hm l). lia.
Qed.

End chains.

(** C19. A lock protects what it guards: as long as no rule is broken, a lock is set
    exactly while one CPU has it, no two CPUs have the same lock, each CPU's list of
    locks held is exact and names no lock twice, and [spinlock_held] tells the truth. *)
Theorem spinlocks_exclude (m0 m : machine) : initial m0 -> rtc quiet_step m0 m ->
  (forall l, locked (locks (sp m) l) = true <-> exists c, holds m c l) /\
  (forall c c' l, holds m c l -> holds m c' l -> c = c') /\
  (forall c, NoDup (held (cpus (sp m) c))) /\
  (forall c l, at_ m c = Running -> spinlock_held c l (sp m) = true <-> l ∈ held (cpus (sp m) c)).
Proof.
  intros H0 Hr. destruct (reached_inv m0 m H0 Hr) as [Hi _]. split; [apply Hi|]. split; [apply Hi|]. split; [apply Hi|].
  intros c l Hc. unfold spinlock_held. rewrite (iv_tracking m Hi), !andb_true_iff, bool_decide_eq_true, (iv_owner m Hi), (iv_locked m Hi), Hc.
  split; [naive_solver|]. intros Hl. split; [split; [done|exists c; by left]|by left].
Qed.

(** C18. Taking locks in the order of their ranks rules deadlock out: while the check has
    reported nothing and all locks have ranks, no CPU waits for itself through any
    number of others, and every chain of waiting CPUs ends with one that waits for no
    lock that is set, which gets its lock with its next step if it wants one. *)
Theorem spinlocks_no_deadlock (m0 m : machine) :
  initial m0 -> (forall l, 0 < rank (locks (sp m0) l) < 0x100000000) -> rtc quiet_step m0 m ->
  (forall c, ~ tc (blocked_by m) c c) /\
  (forall c, exists c', rtc (blocked_by m) c c' /\ (forall c'', ~ blocked_by m c' c'') /\ forall l a, waits m c' l -> at_ (run c' a m) c' = Taken l).
Proof.
  intros H0 Hk Hr. destruct (reached_inv m0 m H0 Hr) as [Hi _].
  assert (forall l, 0 < rank (locks (sp m) l) < 0x100000000) as Hm by (intros l; rewrite (reached_rank m0 m l Hr); apply Hk).
  split; [by apply chain_acyclic|]. intros c. destruct (chain_ends m Hi Hm c) as (c'&Hc&He).
  exists c'. split; [done|]. split; [done|]. intros l a Hw. assert (locked (locks (sp m) l) = false) as El.
  { apply not_true_iff_false. rewrite (iv_locked m Hi). intros [d Hd]. apply (He d). by exists l. }
  unfold run. destruct Hw as [-> | ->]; cbn; rewrite El; cbn; by rewrite Z.eqb_refl.
Qed.

(** * Witness *)

Definition runs (l : list (Z * action)) (m : machine) : machine := fold_left (fun m p => run (fst p) (snd p) m) l m.
Fixpoint quiet_runs (l : list (Z * action)) (m : machine) : bool :=
  match l with
  | [] => true
  | p :: l' => let m' := run (fst p) (snd p) m in (violation_count (sp m') =? 0) && quiet_runs l' m'
  end.
Lemma runs_reached l m : quiet_runs l m = true -> rtc quiet_step m (runs l m).
Proof.
  revert m. induction l as [|[c a] l IH]; intros m; [done|]. cbn [quiet_runs fst snd]. intros [H1 H2]%andb_true_iff.
  eapply rtc_l; [exists c, a; split; [done|by apply Z.eqb_eq]|]. by apply IH.
Qed.

Definition start : machine :=
  mkMachine (mkSpinlocks true 0 false None (fun l => mkLock false (1 + l mod 100) None 0) (fun _ => mkCpu [] false)) (fun _ => Running).
Lemma unlocked_start : initial start.
Proof. by split. Qed.

(** CPU 1 holds lock 20 and waits for lock 30, CPU 0 holds 10 and waits for 20. *)
Definition two_waiting : list (Z * action) :=
  [(1, Acquire 20); (1, Irq_save); (1, Irq_save); (0, Acquire 10); (0, Irq_save); (0, Irq_save); (2, Acquire 30); (2, Irq_save);
   (1, Acquire 30); (1, Irq_save); (0, Acquire 20); (0, Irq_save)].

Lemma spinlocks_exclude_witness : spinlock_held 0 10 (sp (runs two_waiting start)) = true /\ 10 ∈ held (cpus (sp (runs two_waiting start)) 0).
Proof.
  destruct (spinlocks_exclude start (runs two_waiting start) unlocked_start) as (H1&_&_&_); [apply runs_reached; vm_compute; reflexivity|].
  split; [vm_compute; reflexivity|]. assert (locked (locks (sp (runs two_waiting start)) 10) = true) as E by (vm_compute; reflexivity).
  apply H1 in E. vm_compute. constructor.
Defined.

Lemma spinlocks_no_deadlock_witness : at_ (runs two_waiting start) 0 = Spinning 20 /\
  exists c', rtc (blocked_by (runs two_waiting start)) 0 c' /\ forall c'', ~ blocked_by (runs two_waiting start) c' c''.
Proof.
  destruct (spinlocks_no_deadlock start (runs two_waiting start) unlocked_start) as (_&H2).
  - intros l. change (rank (locks (sp start) l)) with (1 + l mod 100). pose proof (Z.mod_pos_bound l 100). lia.
  - apply runs_reached. vm_compute. reflexivity.
  - split; [vm_compute; reflexivity|]. destruct (H2 0) as (c'&Hc&He&_). by exists c'.
Defined.
