(* ===== verification/Mutex.v ===== *)
(** Locks that are held across sleep, [src/kernel/sync/mutex.c], and counting
    semaphores, [sem.c]. A section under the spinlock inside is one step; going to
    sleep gives that lock up in the same step, as [sched_sleep] does (it is the
    scheduler's promise: a task is marked blocked before its lock is released). Tasks
    are known by their addresses; 0 is the kernel before there are tasks. *)
From stdpp Require Import base tactics numbers list sets relations.
From Stdlib Require Import ZArith Lia.
From S2P Require Import Prelude.

Open Scope Z_scope.

(** * Mutexes *)

Module Mutex.

Record mutex_t := mkMutex { taken : bool; owner : Z; depth : Z }.
Definition MUTEX_INIT : mutex_t := mkMutex false 0 0.

Definition take_if_possible (self : Z) (m : mutex_t) : option mutex_t :=
  if taken m && negb (owner m =? self) then None else Some (mkMutex true self (u32 (depth m + 1))).

(** Whether it was released, which is followed by a wake-up. *)
Definition mutex_unlock (m : mutex_t) : bool * mutex_t :=
  if 0 <? depth m then
    let d := u32 (depth m - 1) in
    if d =? 0 then (true, mkMutex false 0 d) else (false, mkMutex (taken m) (owner m) d)
  else (false, m).

Definition mutex_trylock (self : Z) (m : mutex_t) : bool * mutex_t :=
  match take_if_possible self m with Some m => (true, m) | None => (false, m) end.

Definition mutex_held (self : Z) (m : mutex_t) : bool := taken m && (owner m =? self).

(** Where a task is: in no call, in the loop of [mutex_lock], asleep there, or in
    [mutex_unlock] about to wake the others. *)
Inductive activity := Running | Wants | Asleep | Waking.

(** [mine]: how many times a task has taken the mutex and not given it up. *)
Record task := mkTask { at_ : activity; mine : Z }.
Record system := mkSystem { mutex : mutex_t; tasks : Z -> task }.

Definition goes (s : system) (t : Z) (k : task) (m : mutex_t) : system := mkSystem m (fun x => if x =? t then k else tasks s x).

(** One round of the loop in [mutex_lock]. *)
Definition lock_round (t : Z) (s : system) : system :=
  match take_if_possible t (mutex s) with
  | Some m => goes s t (mkTask Running (mine (tasks s t) + 1)) m
  | None => goes s t (mkTask Asleep (mine (tasks s t))) (mutex s)
  end.

(** [sched_wakeup]. *)
Definition wake_all (ts : Z -> task) : Z -> task :=
  fun x => match at_ (ts x) with Asleep => mkTask Wants (mine (ts x)) | _ => ts x end.

Inductive step : system -> system -> Prop :=
| step_call s t : at_ (tasks s t) = Running -> step s (goes s t (mkTask Wants (mine (tasks s t))) (mutex s))
| step_lock s t : at_ (tasks s t) = Wants -> depth (mutex s) < 0xFFFFFFFF -> step s (lock_round t s)
| step_try s t got m : at_ (tasks s t) = Running -> depth (mutex s) < 0xFFFFFFFF -> mutex_trylock t (mutex s) = (got, m) ->
    step s (goes s t (mkTask Running (mine (tasks s t) + if got then 1 else 0)) m)
| step_unlock s t released m :      (* what a task has locked *)
    at_ (tasks s t) = Running -> 0 < mine (tasks s t) -> mutex_unlock (mutex s) = (released, m) ->
    step s (goes s t (mkTask (if released then Waking else Running) (mine (tasks s t) - 1)) m)
| step_wake s t : at_ (tasks s t) = Waking ->
    step s (mkSystem (mutex s) (wake_all (fun x => if x =? t then mkTask Running (mine (tasks s t)) else tasks s x)))
| step_interrupt s t : at_ (tasks s t) = Asleep -> step s (goes s t (mkTask Wants (mine (tasks s t))) (mutex s)).

Record inv (s : system) : Prop := {
  iv_taken : taken (mutex s) = true -> 0 < depth (mutex s) <= 0xFFFFFFFF /\ mine (tasks s (owner (mutex s))) = depth (mutex s) /\
    forall t, t <> owner (mutex s) -> mine (tasks s t) = 0;
  iv_free : taken (mutex s) = false -> depth (mutex s) = 0 /\ (forall t, mine (tasks s t) = 0) /\
    forall t, at_ (tasks s t) = Asleep -> exists w, at_ (tasks s w) = Waking
}.

Definition initial : system := mkSystem MUTEX_INIT (fun _ => mkTask Running 0).

Lemma mutex_initial : inv initial.
Proof. by split. Qed.

(** The mutex stays, and one task that was not waking goes elsewhere but to sleep. *)
Lemma mutex_moves s t a : inv s -> at_ (tasks s t) <> Waking -> a <> Asleep -> inv (goes s t (mkTask a (mine (tasks s t))) (mutex s)).
Proof.
  intros [V1 V2] Hw Ha. assert (forall x, mine (tasks (goes s t (mkTask a (mine (tasks s t))) (mutex s)) x) = mine (tasks s x)) as Em.
  { intros x. cbn. by destruct (Z.eqb_spec x t) as [->|]. }
  split; intros Ht; cbn [goes mutex] in *.
  - rewrite Em. destruct (V1 Ht) as (?&?&H3). split; [done|]. split; [done|]. intros x Hx. rewrite Em. by apply H3.
  - destruct (V2 Ht) as (?&H2&H3). split; [done|]. split; [intros x; by rewrite Em|]. intros x. cbn. destruct (Z.eqb_spec x t) as [->|Hn]; [done|].
    intros (w&Hw')%H3. exists w. destruct (Z.eqb_spec w t) as [->|]; [congruence|done].
Qed.

(** Taking it. *)
Lemma mutex_takes s t m : inv s -> at_ (tasks s t) <> Waking -> depth (mutex s) < 0xFFFFFFFF -> take_if_possible t (mutex s) = Some m ->
  inv (goes s t (mkTask Running (mine (tasks s t) + 1)) m).
Proof.
  intros [V1 V2] Hw Hd. unfold take_if_possible. destruct (taken (mutex s) && negb (owner (mutex s) =? t)) eqn:E; [done|]. intros [= <-].
  split; cbn; [intros _|done]. rewrite Z.eqb_refl. cbn. destruct (taken (mutex s)) eqn:Et.
  - cbn in E. zbool. destruct (V1 eq_refl) as (H1&H2&H3). rewrite u32_small by lia. rewrite E in H2. split; [lia|]. split; [lia|].
    intros x Hx. destruct (Z.eqb_spec x t); [done|]. apply H3. congruence.
  - destruct (V2 eq_refl) as (H1&H2&_). rewrite H1, H2. split; [by vm_compute|]. split; [done|]. intros x Hx. destruct (Z.eqb_spec x t); [done|apply H2].
Qed.

(** Giving it up. *)
Lemma mutex_gives s t released m : inv s -> at_ (tasks s t) = Running -> 0 < mine (tasks s t) -> mutex_unlock (mutex s) = (released, m) ->
  inv (goes s t (mkTask (if released then Waking else Running) (mine (tasks s t) - 1)) m).
Proof.
  intros [V1 V2] Ha Hm. destruct (taken (mutex s)) eqn:Et; [|destruct (V2 eq_refl) as (_&H2&_); rewrite H2 in Hm; lia].
  destruct (V1 eq_refl) as (H1&H2&H3). assert (owner (mutex s) = t) as Eo by (destruct (Z.eq_dec t (owner (mutex s))) as [|Hn]; [done|rewrite (H3 t Hn) in Hm; lia]).
  unfold mutex_unlock. destruct (Z.ltb_spec 0 (depth (mutex s))) as [_|]; [|lia]. rewrite u32_small by lia. rewrite Eo in H2.
  destruct (Z.eqb_spec (depth (mutex s) - 1) 0) as [E0|E0]; intros [= <- <-]; split; cbn; rewrite ?Et; try done; intros _.
  - split; [lia|]. split.
    + intros x. destruct (Z.eqb_spec x t) as [->|Hn]; [cbn; lia|]. apply H3. congruence.
    + intros _ _. exists t. by rewrite Z.eqb_refl.
  - rewrite Eo, Z.eqb_refl. cbn. split; [lia|]. split; [lia|]. intros x Hx. destruct (Z.eqb_spec x t); [done|]. apply H3. congruence.
Qed.

Lemma wake_all_mine ts x : mine (wake_all ts x) = mine (ts x).
Proof. unfold wake_all. by destruct (at_ (ts x)). Qed.
Lemma wake_all_awake ts x : at_ (wake_all ts x) <> Asleep.
Proof. unfold wake_all. by destruct (at_ (ts x)) eqn:E; rewrite ?E. Qed.

Lemma mutex_step s s' : inv s -> step s s' -> inv s'.
Proof.
  intros Hi H. destruct H as [s t Ha|s t Ha Hd|s t got m Ha Hd E|s t released m Ha Hm E|s t Ha|s t Ha].
  - apply mutex_moves; congruence.
  - unfold lock_round. destruct (take_if_possible t (mutex s)) as [m|] eqn:E; [apply mutex_takes; congruence|].
    destruct Hi as [V1 V2]. unfold take_if_possible in E. destruct (taken (mutex s)) eqn:Et; [|done].
    split; cbn; rewrite Et; [intros _|done]. destruct (V1 eq_refl) as (H1&H2&H3). split; [done|]. split.
    + by destruct (Z.eqb_spec (owner (mutex s)) t) as [<-|].
    + intros x Hx. destruct (Z.eqb_spec x t) as [->|]; by apply H3.
  - unfold mutex_trylock in E. destruct (take_if_possible t (mutex s)) as [m'|] eqn:E'; injection E as <- <-.
    + apply mutex_takes; congruence.
    + rewrite Z.add_0_r. apply mutex_moves; congruence.
  - by apply (mutex_gives s t released m).
  - destruct Hi as [V1 V2]. assert (forall x, mine (if x =? t then mkTask Running (mine (tasks s t)) else tasks s x) = mine (tasks s x)) as Em.
    { intros x. by destruct (Z.eqb_spec x t) as [->|]. }
    split; cbn [mutex tasks]; intros Ht; rewrite ?wake_all_mine, ?Em.
    + destruct (V1 Ht) as (?&?&H3). split; [done|]. split; [done|]. intros x Hx. rewrite wake_all_mine, Em. by apply H3.
    + destruct (V2 Ht) as (?&H2&_). split; [done|]. split; [intros x; by rewrite wake_all_mine, Em|]. intros x Hx. by destruct (wake_all_awake _ _ Hx).
  - apply mutex_moves; congruence.
Qed.

(** C20. A mutex in any interleaving of tasks that unlock what they have locked: at most
    one task has it, as often as [depth] says, [mutex_held] tells the truth, and no
    wake-up is lost: while it is free, a task sleeps for it only if another has just
    released it and is about to wake the sleepers. *)
Theorem mutex_sound (s : system) : rtc step initial s ->
  (forall t t', 0 < mine (tasks s t) -> 0 < mine (tasks s t') -> t = t') /\
  (forall t, 0 <= mine (tasks s t) /\ (mutex_held t (mutex s) = true <-> 0 < mine (tasks s t))) /\
  (forall t, 0 < mine (tasks s t) -> depth (mutex s) = mine (tasks s t)) /\
  ((forall t, mine (tasks s t) = 0) -> (forall w, at_ (tasks s w) <> Waking) -> forall t, at_ (tasks s t) <> Asleep).
Proof.
  intros Hr. assert (inv s) as [V1 V2] by (apply (rtc_invariant step _ initial); [apply mutex_step|apply mutex_initial|done]).
  unfold mutex_held. destruct (taken (mutex s)) eqn:Et.
  - destruct (V1 eq_refl) as (H1&H2&H3). assert (forall t, 0 < mine (tasks s t) -> t = owner (mutex s)) as Ho.
    { intros t Ht. destruct (Z.eq_dec t (owner (mutex s))) as [|Hn]; [done|]. rewrite (H3 t Hn) in Ht. lia. }
    split; [intros t t' ->%Ho ->%Ho; done|]. split; [|split; [intros t Ht; rewrite (Ho t Ht); lia|intros H0; rewrite H0 in H2; lia]].
    intros t. destruct (Z.eqb_spec (owner (mutex s)) t) as [<-|Hn]; [lia|]. rewrite (H3 t) by congruence. cbn. split; [done|split; [done|lia]].
  - destruct (V2 eq_refl) as (H1&H2&H3). split; [intros t t'; rewrite (H2 t); lia|]. split; [intros t; rewrite H2; cbn; split; [done|split; [done|lia]]|].
    split; [intros t; rewrite H2; lia|]. intros _ Hw t (w&Hw')%H3. by apply (Hw w).
Qed.

(** Task 1 has it twice, task 2 sleeps for it. *)
Definition contended : system :=
  let s := goes initial 1 (mkTask Running 1) (mkMutex true 1 1) in
  let s := goes s 1 (mkTask Running 2) (mkMutex true 1 2) in
  let s := goes s 2 (mkTask Wants 0) (mutex s) in
  goes s 2 (mkTask Asleep 0) (mutex s).

Lemma mutex_sound_witness : depth (mutex contended) = mine (tasks contended 1) /\ mutex_held 2 (mutex contended) = false.
Proof.
  destruct (mutex_sound contended) as (_&H2&H3&_).
  - eapply rtc_l; [by apply (step_try initial 1 true (mkMutex true 1 1))|]. eapply rtc_l; [by apply (step_try _ 1 true (mkMutex true 1 2))|].
    eapply rtc_l; [by apply (step_call _ 2)|]. eapply rtc_l; [by apply (step_lock _ 2)|]. done.
  - split; [by apply H3|]. apply not_true_iff_false. rewrite (proj2 (H2 2)). by vm_compute.
Defined.

End Mutex.

(** * Semaphores *)

Module Sem.

(** [value] is an [int]; [holder] the task in a section under the semaphore's lock that
    does not end, if there is one. *)
Record sem_t := mkSem { value : Z; holder : option Z }.
Definition sem_init (initial_value : Z) : sem_t := mkSem initial_value None.

(** What [sched_sleep] does for a task that is to be killed, or has a signal waiting
    for its handler (it returns at once, and keeps the caller's lock). *)
Inductive pending := Nothing | Kill | Signal.

(** How the loop of [sem_wait] goes on: with the semaphore taken, asleep, dead, or once
    more with the lock still held. *)
Inductive turn := Takes (s : sem_t) | Sleeps | Dies | Spins.
Definition wait_turn (p : pending) (s : sem_t) : turn :=
  if value s <=? 0 then match p with Nothing => Sleeps | Kill => Dies | Signal => Spins end
  else Takes (mkSem (value s - 1) (holder s)).

Definition sem_trywait (s : sem_t) : bool * sem_t := if 0 <? value s then (true, mkSem (value s - 1) (holder s)) else (false, s).
Definition sem_post (s : sem_t) : sem_t := mkSem (value s + 1) (holder s).
Definition sem_getvalue (s : sem_t) : Z := value s.

Inductive activity := Running | Wants | Asleep | Dead.

(** With what is pending for each task, and the number of posts and of times the
    semaphore was taken. *)
Record system := mkSystem { sem : sem_t; tasks : Z -> activity; pend : Z -> pending; posts : Z; takes : Z }.
Definition goes (s : system) (t : Z) (a : activity) : Z -> activity := fun x => if x =? t then a else tasks s x.
Definition wake_all (ts : Z -> activity) : Z -> activity := fun x => match ts x with Asleep => Wants | a => a end.

(** A section needs the lock: nobody else may be in one. *)
Inductive step : system -> system -> Prop :=
| step_call s t : tasks s t = Running -> step s (mkSystem (sem s) (goes s t Wants) (pend s) (posts s) (takes s))
| step_wait s t : tasks s t = Wants -> holder (sem s) = None \/ holder (sem s) = Some t ->
    step s (match wait_turn (pend s t) (sem s) with
            | Takes m => mkSystem (mkSem (value m) None) (goes s t Running) (pend s) (posts s) (takes s + 1)
            | Sleeps => mkSystem (mkSem (value (sem s)) None) (goes s t Asleep) (pend s) (posts s) (takes s)
            | Dies => mkSystem (mkSem (value (sem s)) None) (goes s t Dead) (pend s) (posts s) (takes s)
            | Spins => mkSystem (mkSem (value (sem s)) (Some t)) (tasks s) (pend s) (posts s) (takes s)
            end)
| step_try s t got m : tasks s t = Running -> holder (sem s) = None -> sem_trywait (sem s) = (got, m) ->
    step s (mkSystem m (tasks s) (pend s) (posts s) (takes s + if got then 1 else 0))
| step_post s : holder (sem s) = None -> value (sem s) < 0x7FFFFFFF ->
    step s (mkSystem (sem_post (sem s)) (wake_all (tasks s)) (pend s) (posts s + 1) (takes s))
| step_interrupt s t : tasks s t = Asleep -> step s (mkSystem (sem s) (goes s t Wants) (pend s) (posts s) (takes s))
| step_pend s t q : step s (mkSystem (sem s) (tasks s) (fun x => if x =? t then q else pend s x) (posts s) (takes s)).

Definition start (v : Z) : system := mkSystem (sem_init v) (fun _ => Running) (fun _ => Nothing) 0 0.

Record inv (v : Z) (s : system) : Prop := {
  iv_value : value (sem s) = v + posts s - takes s;
  iv_range : 0 <= value (sem s) <= 0x7FFFFFFF;
  iv_asleep : 0 < value (sem s) -> forall t, tasks s t <> Asleep
}.

Lemma sem_wake_awake ts t : wake_all ts t <> Asleep.
Proof. unfold wake_all. by destruct (ts t). Qed.

Lemma goes_awake s t a : a <> Asleep -> (forall x, tasks s x <> Asleep) -> forall x, goes s t a x <> Asleep.
Proof. intros Ha Hs x. unfold goes. by destruct (x =? t). Qed.

Lemma sem_step v s s' : inv v s -> step s s' -> inv v s'.
Proof.
  intros [V1 V2 V3] H. destruct H as [s t Ha|s t Ha Hh|s t got m Ha Hh E|s Hh Hv|s t Ha|s t q].
  - split; cbn; [done..|]. intros Hv. apply goes_awake; auto.
  - unfold wait_turn. destruct (Z.leb_spec (value (sem s)) 0) as [Hz|Hz]; [destruct (pend s t)|]; split; cbn; try done; try lia.
    intros _. apply goes_awake; [done|]. by apply V3.
  - unfold sem_trywait in E. destruct (Z.ltb_spec 0 (value (sem s))) as [Hz|Hz]; injection E as <- <-; split; cbn; try lia; intros _; by apply V3.
  - split; cbn; [lia..|]. intros _. apply sem_wake_awake.
  - split; cbn; [done..|]. intros Hv. by destruct (V3 Hv t).
  - by split.
Qed.

(** C39. A semaphore counts: what it says is its first value and the posts less the times
    it was taken, it is never negative, so it is taken at most that often, and while it
    is positive no task sleeps in [sem_wait]. *)
Theorem sem_counts (v : Z) (s : system) : 0 <= v <= 0x7FFFFFFF -> rtc step (start v) s ->
  sem_getvalue (sem s) = v + posts s - takes s /\ 0 <= sem_getvalue (sem s) /\ takes s <= v + posts s /\
  (0 < sem_getvalue (sem s) -> forall t, tasks s t <> Asleep).
Proof.
  intros Hv Hr. assert (inv v s) as [V1 V2 V3].
  { apply (rtc_invariant step _ (start v)); [apply sem_step| |done]. split; cbn; [lia..|done]. }
  unfold sem_getvalue. repeat split; [lia..|done].
Qed.

(** One of two has taken it, the other sleeps; a post wakes it. *)
Lemma sem_counts_witness : exists s, rtc step (start 1) s /\ sem_getvalue (sem s) = 1 /\ takes s = 1 /\ tasks s 2 <> Asleep.
Proof.
  set (s1 := mkSystem (mkSem 0 None) (fun _ => Running) (pend (start 1)) 0 1). set (s2 := mkSystem (mkSem 0 None) (goes s1 2 Wants) (pend s1) 0 1).
  set (s3 := mkSystem (mkSem 0 None) (goes s2 2 Asleep) (pend s1) 0 1). set (s4 := mkSystem (mkSem 1 None) (wake_all (tasks s3)) (pend s1) 1 1).
  assert (rtc step (start 1) s4) as Hr.
  { eapply rtc_l; [by apply (step_try (start 1) 1 true (mkSem 0 None))|]. eapply rtc_l; [by apply (step_call s1 2)|].
    eapply rtc_l; [by apply (step_wait s2 2); [|left]|]. eapply rtc_l; [by apply (step_post s3)|]. done. }
  destruct (sem_counts 1 s4) as (H1&_&_&H4); [lia|done|]. exists s4. split; [done|]. split; [by rewrite H1|]. split; [done|]. by apply H4.
Defined.

(** C40. A task in [sem_wait] with a signal waiting for its handler does not come back when
    the count is zero, and holds the semaphore's lock as long as the signal waits (it is
    delivered when the task returns to user mode), so that nobody can post. *)
Theorem sem_wait_hangs : exists s, rtc step (start 0) s /\ pend s 1 = Signal /\
  forall s', rtc (fun x y => step x y /\ pend y 1 = Signal) s s' -> sem s' = mkSem 0 (Some 1) /\ posts s' = 0 /\ takes s' = 0.
Proof.
  set (s1 := mkSystem (sem_init 0) (goes (start 0) 1 Wants) (pend (start 0)) 0 0).
  set (s2 := mkSystem (sem_init 0) (tasks s1) (fun x => if x =? 1 then Signal else Nothing) 0 0).
  exists (mkSystem (mkSem 0 (Some 1)) (tasks s1) (pend s2) 0 0). split.
  - eapply rtc_l; [by apply (step_call (start 0) 1)|]. eapply rtc_l; [by apply (step_pend s1 1 Signal)|]. apply rtc_once. apply (step_wait s2 1); [done|by left].
  - split; [done|]. intros s' Hr.
    apply (rtc_invariant _ (fun s => pend s 1 = Signal /\ sem s = mkSem 0 (Some 1) /\ posts s = 0 /\ takes s = 0) _ s') in Hr; [naive_solver| |done].
    intros x y (Hp&E&E1&E2) [H Hq]. destruct H as [s t Ha|s t Ha Hh|s t got m Ha Hh E'|s Hh Hv|s t Ha|s t q]; cbn; rewrite ?E in *; try done.
    destruct Hh as [|[= <-]]; [done|]. by rewrite Hp.
Qed.

End Sem.
