(* ===== verification/Pcache.v ===== *)
(** The page cache, [src/mm/pcache.c] and [pcache.h], with the calls of
    [src/fs/vfs.c] that read and change files beside it. Entries are known by their
    addresses: [buckets] and [use] hold these, as the code's two kinds of links do.
    The lock is never held while a file is read or written, so a call runs in parts;
    [PcacheSystem] interleaves them. What a file holds is [content], byte by byte;
    what its file system answers (how much it read or wrote) and whether [kmalloc]
    finds memory are arguments. *)
From stdpp Require Import base tactics numbers list sets gmap relations.
From Stdlib Require Import ZArith Lia.
From S2P Require Import Prelude Pmm Cow StringLib.

Open Scope Z_scope.

Definition PCACHE_BUCKETS : Z := 1024.
Definition PCACHE_SHARE : Z := 32.
Definition PCACHE_MIN : Z := 128.
Definition WRITEBACK_BATCH : nat := 16.

Record pcache_entry := mkEntry { e_node : Z; e_index : Z; e_frame : Z; e_shared : bool; e_dirty : bool }.
Record pcache_stats_t := mkStats { hits : Z; misses : Z; evicted : Z; dropped : Z; raced : Z }.
Record vnode := mkVnode {
  regular : bool;                    (* [type == VFS_FILE] *)
  has_ops : bool; has_truncate : bool;
  size : Z; cached_pages : Z; shared_cached : Z; cache_generation : Z }.

(** [use] is the list in order of use, oldest first. *)
Record pcache := mkCache {
  owned : cow; mem : memory; nodes : Z -> vnode; content : Z -> Z -> Z;
  entries : gmap Z pcache_entry; buckets : list (list Z); use : list Z; entry_count : Z;
  stats : pcache_stats_t; truncations : Z }.

Definition set_owned (s : pcache) (c : cow) : pcache :=
  mkCache c (mem s) (nodes s) (content s) (entries s) (buckets s) (use s) (entry_count s) (stats s) (truncations s).
Definition set_mem (s : pcache) (m : memory) : pcache :=
  mkCache (owned s) m (nodes s) (content s) (entries s) (buckets s) (use s) (entry_count s) (stats s) (truncations s).
Definition set_node (s : pcache) (n : Z) (v : vnode) : pcache :=
  mkCache (owned s) (mem s) (fun x => if x =? n then v else nodes s x) (content s) (entries s) (buckets s) (use s)
    (entry_count s) (stats s) (truncations s).
Definition set_content (s : pcache) (n : Z) (f : Z -> Z) : pcache :=
  mkCache (owned s) (mem s) (nodes s) (fun x => if x =? n then f else content s x) (entries s) (buckets s) (use s)
    (entry_count s) (stats s) (truncations s).
Definition set_table (s : pcache) (es : gmap Z pcache_entry) (bs : list (list Z)) (u : list Z) (n : Z) : pcache :=
  mkCache (owned s) (mem s) (nodes s) (content s) es bs u n (stats s) (truncations s).
Definition set_stats (s : pcache) (f : pcache_stats_t -> pcache_stats_t) : pcache :=
  mkCache (owned s) (mem s) (nodes s) (content s) (entries s) (buckets s) (use s) (entry_count s) (f (stats s)) (truncations s).
Definition set_truncations (s : pcache) (n : Z) : pcache :=
  mkCache (owned s) (mem s) (nodes s) (content s) (entries s) (buckets s) (use s) (entry_count s) (stats s) n.
Definition set_counts (s : pcache) (n pages shares : Z) : pcache :=
  let v := nodes s n in
  set_node s n (mkVnode (regular v) (has_ops v) (has_truncate v) (size v) pages shares (cache_generation v)).
Definition set_size (s : pcache) (n sz : Z) : pcache :=
  let v := nodes s n in
  set_node s n (mkVnode (regular v) (has_ops v) (has_truncate v) sz (cached_pages v) (shared_cached v) (cache_generation v)).

(** Where the kernel sees a frame. *)
Definition view (s : pcache) (frame : Z) : Z := u64 (frame + hhdm_off (frames (owned s))).

Definition pcache_cacheable (s : pcache) (n : Z) : bool :=
  negb (n =? 0) && regular (nodes s n) && (negb (has_ops (nodes s n)) || has_truncate (nodes s n)).

(** * The table *)

Definition bucket_of (n index : Z) : nat :=
  let h := Z.lxor (Z.shiftr n 4) (u64 (index * 0x9E3779B97F4A7C15)) in
  Z.to_nat (Z.lxor h (Z.shiftr h 32) mod PCACHE_BUCKETS).

Definition is_page (n index : Z) (e : pcache_entry) : bool := (e_node e =? n) && (e_index e =? index).

Fixpoint find_in (es : gmap Z pcache_entry) (n index : Z) (l : list Z) : option Z :=
  match l with
  | [] => None
  | a :: l' => match es !! a with
               | Some e => if is_page n index e then Some a else find_in es n index l'
               | None => find_in es n index l'
               end
  end.
Definition find_locked (n index : Z) (s : pcache) : option Z :=
  find_in (entries s) n index (default [] (buckets s !! bucket_of n index)).

Definition unlink (a : Z) (l : list Z) : list Z := filter (fun x => x <> a) l.
Definition unlink_use (a : Z) (s : pcache) : pcache := set_table s (entries s) (buckets s) (unlink a (use s)) (entry_count s).
Definition mark_used (a : Z) (s : pcache) : pcache := set_table s (entries s) (buckets s) (use s ++ [a]) (entry_count s).

(** The entries taken out are pushed on [out]; only their frames are still needed. *)
Definition take_out (a : Z) (s : pcache) (out : list Z) : pcache * list Z :=
  match entries s !! a with
  | None => (s, out)
  | Some e =>
      let b := bucket_of (e_node e) (e_index e) in
      let s := set_table s (delete a (entries s)) (<[b := unlink a (default [] (buckets s !! b))]> (buckets s))
                 (unlink a (use s)) (u64 (entry_count s - 1)) in
      let v := nodes s (e_node e) in
      (set_counts s (e_node e) (u32 (cached_pages v - 1)) (if e_shared e then u32 (shared_cached v - 1) else shared_cached v),
       e_frame e :: out)
  end.

Fixpoint take_unmapped (l : list Z) (want taken : Z) (s : pcache) (out : list Z) : Z * pcache * list Z :=
  match l with
  | [] => (taken, s, out)
  | a :: l' =>
      if want <=? taken then (taken, s, out)
      else match entries s !! a with
      | Some e =>
          if (pmm_get_frame_ref (e_frame e) (owned s) =? 1) && negb (e_dirty e) then
            let '(s, out) := take_out a s out in take_unmapped l' want (taken + 1) s out
          else take_unmapped l' want taken s out
      | None => take_unmapped l' want taken s out
      end
  end.

Definition capacity (s : pcache) : Z :=
  let share := total_frames (frames (owned s)) / PCACHE_SHARE in
  if PCACHE_MIN <? share then share else PCACHE_MIN.

Definition mark_shared (a : Z) (writable : bool) (s : pcache) : pcache :=
  match entries s !! a with
  | None => s
  | Some e =>
      let s := if e_shared e then s
               else set_counts s (e_node e) (cached_pages (nodes s (e_node e))) (u32 (shared_cached (nodes s (e_node e)) + 1)) in
      set_table s (<[a := mkEntry (e_node e) (e_index e) (e_frame e) true (e_dirty e || writable)]> (entries s))
        (buckets s) (use s) (entry_count s)
  end.

Definition add_hit st := mkStats (u64 (hits st + 1)) (misses st) (evicted st) (dropped st) (raced st).
Definition add_miss st := mkStats (hits st) (u64 (misses st + 1)) (evicted st) (dropped st) (raced st).
Definition add_evicted n st := mkStats (hits st) (misses st) (u64 (evicted st + n)) (dropped st) (raced st).
Definition add_dropped st := mkStats (hits st) (misses st) (evicted st) (u64 (dropped st + 1)) (raced st).
Definition add_raced st := mkStats (hits st) (misses st) (evicted st) (dropped st) (u64 (raced st + 1)).

(** [pcache_reclaim], with the lock held: how many, and their frames. *)
Definition reclaim_locked (want : Z) (s : pcache) : Z * pcache * list Z :=
  if want =? 0 then (0, s, [])
  else
    let '(n, s, out) := take_unmapped (use s) want 0 s [] in
    (n, set_stats s (add_evicted n), out).

(** * Reading and writing files *)

(** [count] bytes at [offset] into [buf]; [got] is what a file system's read gives. *)
Definition vfs_read (got : Z) (n offset count buf : Z) (s : pcache) : Z * pcache :=
  let v := nodes s n in
  if negb (regular v) then (0, s)
  else
    let available := if offset <? size v then size v - offset else 0 in
    let most := if count <? available then count else available in
    let to_read := if has_ops v then Z.max 0 (Z.min got most) else most in
    (to_read, set_mem s (fun x => if (buf <=? x) && (x <? buf + to_read) then content s n (offset + (x - buf)) else mem s x)).

(** The file itself: [count] bytes from [buf] on, with zeros in a gap before them. *)
Definition write_content (n offset buf count : Z) (s : pcache) : pcache :=
  let sz := size (nodes s n) in
  let old := content s n in
  let s := set_content s n (fun x =>
    if (offset <=? x) && (x <? offset + count) then mem s (buf + (x - offset))
    else if (sz <=? x) && (x <? offset) then 0 else old x) in
  set_size s n (if sz <? offset + count then offset + count else sz).

(** * Getting a page *)

(** [shared] is 0 for a private mapping, 1 or 2 for a shared one. *)
Definition get_look (n index shared : Z) (s : pcache) : (Z + Z) * pcache :=
  match find_locked n index s with
  | Some a =>
      let frame := from_option e_frame 0 (entries s !! a) in
      let s := set_owned s (pmm_ref_frame frame (owned s)) in
      let s := if negb (shared =? 0) then mark_shared a (shared =? 2) s else s in
      (inl frame, set_stats (mark_used a (unlink_use a s)) add_hit)
  | None => (inr (cache_generation (nodes s n)), s)
  end.

(** A frame with the page read into it, or 0. *)
Definition get_read (got : Z) (n index : Z) (s : pcache) : Z * pcache :=
  let '(frame, c) := alloc_frame (owned s) in
  let s := set_owned s c in
  if frame =? 0 then (0, s)
  else
    let s := set_mem s (memset_effect (view s frame) 0 PAGE_SIZE (mem s)) in
    (frame, snd (vfs_read got n (u64 (index * PAGE_SIZE)) PAGE_SIZE (view s frame) s)).

(** How it ends: with a frame, another attempt, or failure. *)
Inductive got := Frame (frame : Z) | Again | Nothing.

Definition enter (n index frame : Z) (s : pcache) : Z * pcache :=
  let a := fresh (dom (entries s)) in
  let b := bucket_of n index in
  let s := set_table s (<[a := mkEntry n index frame false false]> (entries s))
             (<[b := a :: default [] (buckets s !! b)]> (buckets s)) (use s) (entry_count s) in
  let s := mark_used a s in
  let v := nodes s n in
  let s := set_counts s n (u32 (cached_pages v + 1)) (shared_cached v) in
  (a, set_table s (entries s) (buckets s) (use s) (u64 (entry_count s + 1))).

(** Besides: whether the frame that was read is not needed, and the frames of the
    entries taken out. *)
Definition get_put (memory : bool) (n index shared generation frame : Z) (s : pcache) : got * bool * list Z * pcache :=
  let found := find_locked n index s in
  if bool_decide (is_Some found) || negb memory || negb (cache_generation (nodes s n) =? generation) then
    match found with
    | Some a =>
        let theirs := from_option e_frame 0 (entries s !! a) in
        let s := set_owned s (pmm_ref_frame theirs (owned s)) in
        let s := if negb (shared =? 0) then mark_shared a (shared =? 2) s else s in
        (Frame theirs, true, [], set_stats s add_raced)
    | None =>
        let s := set_stats s add_raced in
        if shared =? 0 then (Frame frame, false, [], s)
        else (if memory then Again else Nothing, true, [], s)
    end
  else
    let '(a, s) := enter n index frame s in
    let s := if negb (shared =? 0) then mark_shared a (shared =? 2) s else s in
    let s := set_owned (set_stats s add_miss) (pmm_ref_frame frame (owned s)) in
    let limit := capacity s in
    let '(s, out) :=
      if limit <? entry_count s then
        let '(k, s, out) := take_unmapped (use s) (entry_count s - limit) 0 s [] in (set_stats s (add_evicted k), out)
      else (s, []) in
    (Frame frame, false, out, s).

(** * Files that change *)

Definition bump (n : Z) (s : pcache) : pcache :=
  let v := nodes s n in
  set_node s n (mkVnode (regular v) (has_ops v) (has_truncate v) (size v) (cached_pages v) (shared_cached v) (u32 (cache_generation v + 1))).

Definition range_end (offset len : Z) : Z := if u64 (offset + len) <? offset then 0xFFFFFFFFFFFFFFFF else u64 (offset + len).

(** A page of a shared mapping takes what was written to it. *)
Definition patch (offset buf last : Z) (e : pcache_entry) (s : pcache) : pcache :=
  let page := u64 (e_index e * PAGE_SIZE) in
  let lo := if offset <? page then page else offset in
  let hi := if u64 (page + PAGE_SIZE) <? last then u64 (page + PAGE_SIZE) else last in
  let dst := u64 (view s (e_frame e) + (lo - page)) in
  let src := u64 (buf + (lo - offset)) in
  if (lo <? hi) && negb (dst =? src) then set_mem s (memcpy_effect dst src (hi - lo) (mem s)) else s.

(** The walks over the list of use, with the frames taken out so far and whether a
    shared page was among them. What happens to an entry of the file is [visit]; the
    walk ends when the file has no more cached pages. *)
Record walker := mkWalker { w_cache : pcache; w_out : list Z; w_gone : bool }.

Fixpoint walk (n : Z) (visit : Z -> pcache_entry -> walker -> walker) (l : list Z) (c : walker) : walker :=
  match l with
  | [] => c
  | a :: l' =>
      if cached_pages (nodes (w_cache c) n) <=? 0 then c
      else match entries (w_cache c) !! a with
      | Some e => walk n visit l' (if e_node e =? n then visit a e c else c)
      | None => walk n visit l' c
      end
  end.

Definition drop_visit (a : Z) (e : pcache_entry) (c : walker) : walker :=
  let '(s, out) := take_out a (w_cache c) (w_out c) in mkWalker (set_stats s add_dropped) out (w_gone c).

Definition written_visit (offset buf last : Z) (a : Z) (e : pcache_entry) (c : walker) : walker :=
  if negb (e_shared e) then drop_visit a e c else mkWalker (patch offset buf last e (w_cache c)) (w_out c) (w_gone c).

Definition written_locked (n offset buf len : Z) (s : pcache) : walker :=
  walk n (written_visit offset buf (range_end offset len)) (use s) (mkWalker s [] false).

(** Zeros from [from] to the end of the page. *)
Definition clear_rest (from : Z) (e : pcache_entry) (s : pcache) : pcache :=
  set_mem s (memset_effect (u64 (view s (e_frame e) + from)) 0 (PAGE_SIZE - from) (mem s)).

Definition pcache_file_gap (n old_size : Z) (s : pcache) : pcache :=
  if negb (pcache_cacheable s n) || (old_size mod PAGE_SIZE =? 0) then s
  else match find_locked n (old_size / PAGE_SIZE) s with
  | Some a => match entries s !! a with
              | Some e => if e_shared e then clear_rest (old_size mod PAGE_SIZE) e s else s
              | None => s
              end
  | None => s
  end.

Definition truncated_visit (sz : Z) (a : Z) (e : pcache_entry) (c : walker) : walker :=
  let page := u64 (e_index e * PAGE_SIZE) in
  if negb (e_shared e) || (sz <=? page) then
    drop_visit a e (mkWalker (w_cache c) (w_out c) (w_gone c || e_shared e))
  else if sz <? u64 (page + PAGE_SIZE) then mkWalker (clear_rest (sz - page) e (w_cache c)) (w_out c) (w_gone c)
  else c.

Definition truncated_locked (n sz : Z) (s : pcache) : walker :=
  walk n (truncated_visit sz) (use s) (mkWalker s [] false).

Definition dropped_locked (n : Z) (s : pcache) : walker := walk n drop_visit (use s) (mkWalker s [] false).

(** * Reading through the cache *)

Definition overlay_page (n offset buf last index : Z) (s : pcache) : pcache :=
  match find_locked n index s with
  | Some a =>
      match entries s !! a with
      | Some e =>
          if e_shared e then
            let page := u64 (index * PAGE_SIZE) in
            let lo := if offset <? page then page else offset in
            let hi := if u64 (page + PAGE_SIZE) <? last then u64 (page + PAGE_SIZE) else last in
            set_mem s (memcpy_effect (u64 (buf + (lo - offset))) (u64 (view s (e_frame e) + (lo - page))) (hi - lo) (mem s))
          else s
      | None => s
      end
  | None => s
  end.

Fixpoint overlay_loop (k : nat) (n offset buf last index : Z) (s : pcache) : pcache :=
  match k with
  | O => s
  | S k' => if u64 (index * PAGE_SIZE) <? last then overlay_loop k' n offset buf last (u64 (index + 1)) (overlay_page n offset buf last index s)
            else s
  end.

Definition pcache_read_overlay (n offset buf len : Z) (s : pcache) : pcache :=
  if (n =? 0) || (len =? 0) || (shared_cached (nodes s n) =? 0) then s
  else
    let last := range_end offset len in
    overlay_loop (Z.to_nat (last / PAGE_SIZE - offset / PAGE_SIZE + 2)) n offset buf last (offset / PAGE_SIZE) s.

(** [file_read] of a file: read, then what shared mappings wrote. *)
Definition file_read (got : Z) (n offset count buf : Z) (s : pcache) : Z * pcache :=
  let '(k, s) := vfs_read got n offset count buf s in
  if has_ops (nodes s n) && (k =? 0) then (k, s) else (k, pcache_read_overlay n offset buf k s).

(** * Writing back *)

(** Into the batch, in order of the index; from a full one the highest drops out. *)
Fixpoint insert_page (p : Z * Z) (l : list (Z * Z)) : list (Z * Z) :=
  match l with
  | [] => [p]
  | q :: l' => if fst p <? fst q then p :: l else q :: insert_page p l'
  end.
Definition collect_one (n cursor last : Z) (e : pcache_entry) (batch : list (Z * Z)) : list (Z * Z) :=
  if negb (e_node e =? n) || negb (e_dirty e) || (e_index e <? cursor) || (last <=? e_index e) then batch
  else if Nat.eqb (length batch) WRITEBACK_BATCH then
    if from_option fst 0 (list.last batch) <? e_index e then batch
    else insert_page (e_index e, e_frame e) (removelast batch)
  else insert_page (e_index e, e_frame e) batch.

Definition collect (n cursor last : Z) (s : pcache) : list (Z * Z) * pcache :=
  let batch := fold_left (fun b a => match entries s !! a with Some e => collect_one n cursor last e b | None => b end) (use s) [] in
  (batch, set_owned s (fold_left (fun c p => pmm_ref_frame (snd p) c) batch (owned s))).

(** [write_page]: where and how much; [None]: the page is past the end. *)
Definition page_range (n index : Z) (s : pcache) : option (Z * Z) :=
  let start := u64 (index * PAGE_SIZE) in
  let sz := size (nodes s n) in
  if sz <=? start then None else Some (start, if sz - start <? PAGE_SIZE then sz - start else PAGE_SIZE).

Definition clean_one (n : Z) (s : pcache) (p : (Z * Z) * bool) : pcache :=
  let '((index, frame), ok) := p in
  match find_locked n index s with
  | Some a =>
      match entries s !! a with
      | Some e =>
          if ok && (e_frame e =? frame) && (pmm_get_frame_ref frame (owned s) =? 2) then
            set_table s (<[a := mkEntry (e_node e) (e_index e) (e_frame e) (e_shared e) false]> (entries s)) (buckets s) (use s) (entry_count s)
          else s
      | None => s
      end
  | None => s
  end.
Definition clean (n : Z) (batch : list (Z * Z)) (written : list bool) (s : pcache) : pcache :=
  fold_left (clean_one n) (zip batch written) s.

(** * Counts *)

Definition pcache_pages (s : pcache) : Z := entry_count s.
Definition pcache_unmapped_pages (s : pcache) : Z :=
  fold_left (fun n a => match entries s !! a with
    | Some e => if pmm_get_frame_ref (e_frame e) (owned s) =? 1 then n + 1 else n
    | None => n
    end) (use s) 0.
