(* ===== verification/PcacheTable.v ===== *)
(** The table of the page cache ([Pcache]): its invariant, and what looking up,
    entering and taking out pages do to it. *)
From stdpp Require Import base tactics numbers list sets gmap relations.
From Stdlib Require Import ZArith Lia.
From S2P Require Import Prelude Pmm Cow StringLib Pcache.

Open Scope Z_scope.

(** * The entries *)

Definition entry_list (es : gmap Z pcache_entry) : list pcache_entry := (map_to_list es).*2.
Definition cached_frames (s : pcache) : list Z := e_frame <$> entry_list (entries s).
Definition count_of (P : pcache_entry -> bool) (es : gmap Z pcache_entry) : Z :=
  Z.of_nat (length (filter (fun e => P e = true) (entry_list es))).

Lemma elem_of_entry_list es e : e ∈ entry_list es <-> exists a, es !! a = Some e.
Proof.
  unfold entry_list. rewrite list_elem_of_fmap. split.
  - intros ([a e']&->&Ha). exists a. by apply elem_of_map_to_list in Ha.
  - intros [a Ha]. exists (a, e). split; [done|]. by apply elem_of_map_to_list.
Qed.

Lemma entry_list_insert es a e : es !! a = None -> entry_list (<[a := e]> es) ≡ₚ e :: entry_list es.
Proof. intros Ha. unfold entry_list. by rewrite map_to_list_insert. Qed.

Lemma entry_list_delete es a e : es !! a = Some e -> entry_list es ≡ₚ e :: entry_list (delete a es).
Proof. intros Ha. rewrite <- (entry_list_insert (delete a es) a e) by apply lookup_delete_eq. by rewrite insert_delete_id. Qed.

Lemma entry_list_update es a e e' : es !! a = Some e -> entry_list (<[a := e']> es) ≡ₚ e' :: entry_list (delete a es).
Proof. intros Ha. rewrite <- insert_delete_eq. apply entry_list_insert, lookup_delete_eq. Qed.

Lemma count_of_perm P es l : entry_list es ≡ₚ l -> count_of P es = Z.of_nat (length (filter (fun e => P e = true) l)).
Proof. intros Hp. unfold count_of. by rewrite Hp. Qed.

Lemma count_of_insert P es a e : es !! a = None -> count_of P (<[a := e]> es) = count_of P es + (if P e then 1 else 0).
Proof.
  intros Ha. rewrite (count_of_perm P _ _ (entry_list_insert es a e Ha)). unfold count_of. rewrite filter_cons.
  destruct (P e); cbn [length decide]; case_decide; try done; cbn [length]; lia.
Qed.

Lemma count_of_delete P es a e : es !! a = Some e -> count_of P (delete a es) = count_of P es - (if P e then 1 else 0).
Proof.
  intros Ha. pose proof (count_of_insert P (delete a es) a e (lookup_delete_eq _ _)) as Hc. rewrite insert_delete_id in Hc by done. lia.
Qed.

Lemma count_of_update P es a e e' : es !! a = Some e ->
  count_of P (<[a := e']> es) = count_of P es - (if P e then 1 else 0) + (if P e' then 1 else 0).
Proof.
  intros Ha. rewrite <- insert_delete_eq, count_of_insert by apply lookup_delete_eq. by rewrite (count_of_delete P es a e).
Qed.

(** * The invariant *)

Definition of_file (n : Z) (e : pcache_entry) : bool := e_node e =? n.
Definition shared_of_file (n : Z) (e : pcache_entry) : bool := (e_node e =? n) && e_shared e.
Definition everything (e : pcache_entry) : bool := true.

(** The entries behind the two kinds of links. *)
Record linked (s : pcache) : Prop := {
  ln_length : length (buckets s) = Z.to_nat PCACHE_BUCKETS;
  ln_bucket : forall b a l, buckets s !! b = Some l -> a ∈ l <-> exists e, entries s !! a = Some e /\ bucket_of (e_node e) (e_index e) = b;
  ln_nodup : NoDup (use s);
  ln_use : forall a, a ∈ use s <-> is_Some (entries s !! a)
}.

Record table_ok (s : pcache) : Prop := {
  tb_linked : linked s;
  tb_key : forall a a' e e', entries s !! a = Some e -> entries s !! a' = Some e' ->
    e_node e = e_node e' -> e_index e = e_index e' -> a = a';
  tb_dirty : forall a e, entries s !! a = Some e -> e_dirty e = true -> e_shared e = true;
  tb_frames : NoDup (cached_frames s);
  tb_few : count_of everything (entries s) < 0x100000000;
  tb_pages : forall n, cached_pages (nodes s n) = count_of (of_file n) (entries s);
  tb_shared : forall n, shared_cached (nodes s n) = count_of (shared_of_file n) (entries s);
  tb_count : entry_count s = count_of everything (entries s)
}.

Lemma count_of_nonneg P es : 0 <= count_of P es.
Proof. unfold count_of. lia. Qed.

Lemma count_of_le P es : count_of P es <= count_of everything es.
Proof.
  unfold count_of. pose proof (length_filter (fun e => P e = true) (entry_list es)).
  rewrite (filter_all (fun e => everything e = true)) by done. lia.
Qed.

Lemma count_of_pos P es a e : es !! a = Some e -> P e = true -> 1 <= count_of P es.
Proof. intros Ha HP. pose proof (count_of_delete P es a e Ha). rewrite HP in *. pose proof (count_of_nonneg P (delete a es)). lia. Qed.

Lemma bucket_lt n i : (bucket_of n i < Z.to_nat PCACHE_BUCKETS)%nat.
Proof.
  unfold bucket_of. set (h := Z.lxor _ _ mod _). assert (0 <= h < PCACHE_BUCKETS) by (apply Z.mod_pos_bound; done). lia.
Qed.

Lemma bucket_at s n i : linked s -> exists l, buckets s !! bucket_of n i = Some l.
Proof. intros Hl. apply lookup_lt_is_Some. rewrite (ln_length s Hl). apply bucket_lt. Qed.

Lemma is_page_spec n i e : is_page n i e = true <-> e_node e = n /\ e_index e = i.
Proof. unfold is_page. rewrite andb_true_iff, !Z.eqb_eq. done. Qed.

(** Looking up finds the entry of the page if there is one. *)
Lemma find_in_spec es n i l :
  match find_in es n i l with
  | Some a => a ∈ l /\ exists e, es !! a = Some e /\ is_page n i e = true
  | None => forall a e, a ∈ l -> es !! a = Some e -> is_page n i e = false
  end.
Proof.
  induction l as [|a l IH]; cbn [find_in]; [set_solver|].
  destruct (es !! a) as [e|] eqn:Ea; [destruct (is_page n i e) eqn:Ep|].
  - split; [set_solver|]. by exists e.
  - destruct (find_in es n i l); [set_solver|]. intros a' e' [->|Ha]%elem_of_cons He; [congruence|by eapply IH].
  - destruct (find_in es n i l); [set_solver|]. intros a' e' [->|Ha]%elem_of_cons He; [congruence|by eapply IH].
Qed.

Lemma find_locked_page s n i : linked s ->
  match find_locked n i s with
  | Some a => exists e, entries s !! a = Some e /\ e_node e = n /\ e_index e = i
  | None => forall a e, entries s !! a = Some e -> e_node e = n -> e_index e = i -> False
  end.
Proof.
  intros Hl. unfold find_locked. destruct (bucket_at s n i Hl) as [l Hb]. rewrite Hb. cbn [default from_option id].
  pose proof (find_in_spec (entries s) n i l) as Hf. destruct (find_in (entries s) n i l) as [a|].
  - destruct Hf as (_&e&He&Hp). exists e. by apply is_page_spec in Hp.
  - intros a e He Hn Hi. assert (is_page n i e = false) as Hp.
    { apply (Hf a e); [|done]. apply (ln_bucket s Hl _ a l Hb). exists e. split; [done|]. by rewrite Hn, Hi. }
    rewrite (proj2 (is_page_spec n i e)) in Hp by done. done.
Qed.

Lemma find_locked_some s n i a e : table_ok s -> entries s !! a = Some e -> e_node e = n -> e_index e = i -> find_locked n i s = Some a.
Proof.
  intros Ht He Hn Hi. pose proof (find_locked_page s n i (tb_linked s Ht)) as Hf. destruct (find_locked n i s) as [a'|].
  - destruct Hf as (e'&He'&Hn'&Hi'). f_equal. eapply (tb_key s Ht a' a e' e); congruence.
  - by destruct (Hf a e He Hn Hi).
Qed.

(** What does not touch the table keeps it. *)
Definition same_table (s s' : pcache) : Prop :=
  entries s' = entries s /\ buckets s' = buckets s /\ use s' = use s /\ entry_count s' = entry_count s /\
  forall n, cached_pages (nodes s' n) = cached_pages (nodes s n) /\ shared_cached (nodes s' n) = shared_cached (nodes s n).

Lemma table_same s s' : same_table s s' -> table_ok s -> table_ok s'.
Proof.
  intros (E1&E2&E3&E4&E5) [[A1 A2 A3 A4] B1 B2 B3 B4 B5 B6 B7]. unfold cached_frames in *.
  split; [split|..]; unfold cached_frames; rewrite ?E1, ?E2, ?E3, ?E4; try done.
  - intros n. rewrite (proj1 (E5 n)). apply B5.
  - intros n. rewrite (proj2 (E5 n)). apply B6.
Qed.

(** * Changing it *)

(** What only the table and the counts of files differ in. *)
Record rest_same (s s' : pcache) : Prop := {
  rs_owned : owned s' = owned s;
  rs_mem : mem s' = mem s;
  rs_content : content s' = content s;
  rs_truncations : truncations s' = truncations s;
  rs_node : forall n, regular (nodes s' n) = regular (nodes s n) /\ has_ops (nodes s' n) = has_ops (nodes s n) /\
    has_truncate (nodes s' n) = has_truncate (nodes s n) /\ size (nodes s' n) = size (nodes s n) /\
    cache_generation (nodes s' n) = cache_generation (nodes s n)
}.

Lemma rest_same_trans s1 s2 s3 : rest_same s1 s2 -> rest_same s2 s3 -> rest_same s1 s3.
Proof.
  intros [A1 A2 A3 A4 A5] [B1 B2 B3 B4 B5]. split; try congruence. intros n.
  destruct (A5 n) as (?&?&?&?&?), (B5 n) as (?&?&?&?&?). split_and!; congruence.
Qed.

#[export] Instance rest_same_preorder : PreOrder rest_same.
Proof. split; [done|]. intros s1 s2 s3. apply rest_same_trans. Qed.

Lemma elem_of_unlink a b l : a ∈ unlink b l <-> a <> b /\ a ∈ l.
Proof. unfold unlink. rewrite list_elem_of_filter. done. Qed.

Lemma unlink_linked s a e n : linked s -> entries s !! a = Some e ->
  linked (set_table s (delete a (entries s))
    (<[bucket_of (e_node e) (e_index e) := unlink a (default [] (buckets s !! bucket_of (e_node e) (e_index e)))]> (buckets s))
    (unlink a (use s)) n).
Proof.
  intros [A1 A2 A3 A4] Ha. set (b := bucket_of (e_node e) (e_index e)).
  assert (b < length (buckets s))%nat as Hb by (rewrite A1; apply bucket_lt).
  destruct (lookup_lt_is_Some_2 _ _ Hb) as [l Hl]. split; cbn.
  - by rewrite length_insert.
  - intros b' a' l'. rewrite Hl. cbn [default from_option id]. destruct (decide (b' = b)) as [->|Hne].
    + rewrite list_lookup_insert_eq by done. intros [= <-]. rewrite elem_of_unlink, (A2 b a' l Hl).
      split; [intros (H1&e'&H2&H3)|intros (e'&H2&H3)].
      * exists e'. by rewrite lookup_delete_ne.
      * apply lookup_delete_Some in H2 as [H1 H2]. split; [done|]. by exists e'.
    + rewrite list_lookup_insert_ne by done. intros Hl'. rewrite (A2 b' a' l' Hl').
      split; intros (e'&H2&H3); exists e'; (split; [|done]).
      * rewrite lookup_delete_ne; [done|]. intros <-. apply Hne. rewrite <- H3. unfold b. congruence.
      * by apply lookup_delete_Some in H2 as [_ H2].
  - by apply NoDup_filter.
  - intros a'. rewrite elem_of_unlink, A4. destruct (decide (a' = a)) as [->|Hne].
    + rewrite lookup_delete_eq. split; [by intros [? _]|by intros [? ?]].
    + rewrite lookup_delete_ne by done. split; [by intros [_ ?]|done].
Qed.

Lemma few_counts s : table_ok s -> forall P, 0 <= count_of P (entries s) < 0x100000000.
Proof. intros Ht P. pose proof (count_of_nonneg P (entries s)). pose proof (count_of_le P (entries s)). pose proof (tb_few s Ht). lia. Qed.

Lemma u32_pred z : 1 <= z < 0x100000000 -> u32 (z - 1) = z - 1.
Proof. intros Hz. apply u32_small. lia. Qed.

Record taken_out (a : Z) (e : pcache_entry) (s s' : pcache) : Prop := {
  to_ok : table_ok s';
  to_entries : entries s' = delete a (entries s);
  to_use : use s' = unlink a (use s);
  to_rest : rest_same s s'
}.

Lemma take_out_ok s a e out : table_ok s -> entries s !! a = Some e ->
  exists s', take_out a s out = (s', e_frame e :: out) /\ taken_out a e s s'.
Proof.
  intros Ht Ha. unfold take_out. rewrite Ha. eexists. split; [reflexivity|].
  pose proof (few_counts s Ht) as Hfew.
  pose proof (count_of_pos (of_file (e_node e)) (entries s) a e Ha ltac:(apply Z.eqb_refl)) as Hpos.
  split; [split|..]; cbn; try done.
  - pose proof (unlink_linked s a e 0 (tb_linked s Ht) Ha) as [A1 A2 A3 A4]. by split.
  - intros a1 a2 e1 e2 H1 H2. apply lookup_delete_Some in H1 as [_ H1], H2 as [_ H2]. by apply (tb_key s Ht).
  - intros a1 e1 H1. apply lookup_delete_Some in H1 as [_ H1]. by apply (tb_dirty s Ht a1).
  - pose proof (tb_frames s Ht) as Hn. unfold cached_frames in *. cbn. rewrite (entry_list_delete _ _ _ Ha) in Hn. by inversion Hn.
  - rewrite (count_of_delete _ _ _ _ Ha). pose proof (tb_few s Ht). destruct (everything e); lia.
  - intros n. rewrite (count_of_delete _ _ _ _ Ha). unfold of_file at 2. destruct (Z.eqb_spec n (e_node e)) as [->|Hne]; cbn.
    + rewrite Z.eqb_refl, (tb_pages s Ht). apply u32_pred. specialize (Hfew (of_file (e_node e))). lia.
    + rewrite (proj2 (Z.eqb_neq (e_node e) n)) by done. rewrite (tb_pages s Ht). lia.
  - intros n. rewrite (count_of_delete _ _ _ _ Ha). unfold shared_of_file at 2. destruct (Z.eqb_spec n (e_node e)) as [->|Hne]; cbn.
    + rewrite Z.eqb_refl, (tb_shared s Ht). cbn. destruct (e_shared e) eqn:Es; [|lia]. apply u32_pred.
      specialize (Hfew (shared_of_file (e_node e))). pose proof (count_of_pos (shared_of_file (e_node e)) (entries s) a e Ha). 
      unfold shared_of_file at 1 in H. rewrite Z.eqb_refl, Es in H. specialize (H eq_refl). lia.
    + rewrite (proj2 (Z.eqb_neq (e_node e) n)) by done. rewrite (tb_shared s Ht). cbn. lia.
  - rewrite (count_of_delete _ _ _ _ Ha), (tb_count s Ht). cbn. apply u64_small.
    pose proof (count_of_pos everything (entries s) a e Ha eq_refl). specialize (Hfew everything). lia.
  - split; cbn; try done. intros n. by destruct (Z.eqb_spec n (e_node e)) as [->|].
Qed.

(** Changing the flags of an entry. *)
Lemma update_entry_ok s a e e' m : table_ok s -> entries s !! a = Some e ->
  e_node e' = e_node e -> e_index e' = e_index e -> e_frame e' = e_frame e -> (e_dirty e' = true -> e_shared e' = true) ->
  let s' := set_table s (<[a := e']> (entries s)) (buckets s) (use s) (entry_count s) in
  m = shared_cached (nodes s (e_node e)) - (if e_shared e then 1 else 0) + (if e_shared e' then 1 else 0) ->
  table_ok (set_counts s' (e_node e) (cached_pages (nodes s (e_node e))) m).
Proof.
  intros Ht Ha En Ei Ef Hd s' ->. subst s'. pose proof (tb_linked s Ht) as [A1 A2 A3 A4].
  assert (forall a1 e1, <[a := e']> (entries s) !! a1 = Some e1 ->
    exists e0, entries s !! a1 = Some e0 /\ e_node e0 = e_node e1 /\ e_index e0 = e_index e1 /\ (e_dirty e0 = e_dirty e1 /\ e_shared e0 = e_shared e1 \/ e1 = e')) as Hold.
  { intros a1 e1 [(<-&<-)|(Hne&H1)]%lookup_insert_Some; [exists e|exists e1]; naive_solver. }
  split; [split|..]; cbn; try done.
  - intros b a1 l Hb. rewrite (A2 b a1 l Hb). split; intros (e1&H1&H2).
    + destruct (decide (a1 = a)) as [->|Hne]; [exists e'|exists e1]; [rewrite lookup_insert_eq|by rewrite lookup_insert_ne].
      split; [done|]. rewrite En, Ei. congruence.
    + destruct (Hold a1 e1 H1) as (e0&H0&Hn0&Hi0&_). exists e0. split; [done|]. by rewrite Hn0, Hi0.
  - intros a1. rewrite A4. destruct (decide (a1 = a)) as [->|Hne]; [rewrite lookup_insert_eq, Ha|by rewrite lookup_insert_ne]. by split; eexists.
  - intros a1 a2 e1 e2 H1 H2 Hn Hi. destruct (Hold a1 e1 H1) as (e3&H3&?&?&_), (Hold a2 e2 H2) as (e4&H4&?&?&_).
    eapply (tb_key s Ht a1 a2 e3 e4); congruence.
  - intros a1 e1 H1. destruct (Hold a1 e1 H1) as (e0&H0&_&_&[[<- <-]| ->]); [by apply (tb_dirty s Ht a1)|done].
  - pose proof (tb_frames s Ht) as Hn. unfold cached_frames in *. cbn. rewrite (entry_list_update _ _ _ _ Ha). cbn. rewrite Ef.
    by rewrite (entry_list_delete _ _ _ Ha) in Hn.
  - rewrite (count_of_update _ _ _ _ _ Ha). pose proof (tb_few s Ht). cbn. lia.
  - intros n. rewrite (count_of_update _ _ _ _ _ Ha). unfold of_file at 2 3. rewrite En.
    destruct (Z.eqb_spec n (e_node e)) as [->|Hne]; cbn; rewrite (tb_pages s Ht); lia.
  - intros n. rewrite (count_of_update _ _ _ _ _ Ha). unfold shared_of_file at 2 3. rewrite En.
    destruct (Z.eqb_spec n (e_node e)) as [->|Hne]; cbn; rewrite (tb_shared s Ht).
    + by rewrite Z.eqb_refl.
    + rewrite (proj2 (Z.eqb_neq (e_node e) n)) by done. cbn. lia.
  - rewrite (count_of_update _ _ _ _ _ Ha), (tb_count s Ht). cbn. lia.
Qed.

Lemma set_counts_same s n : same_table s (set_counts s n (cached_pages (nodes s n)) (shared_cached (nodes s n))).
Proof. unfold same_table. cbn. do 4 (split; [done|]). intros n'. by destruct (Z.eqb_spec n' n) as [->|]. Qed.

Record flagged (a : Z) (e e' : pcache_entry) (s s' : pcache) : Prop := {
  fl_ok : table_ok s';
  fl_entries : entries s' = <[a := e']> (entries s);
  fl_use : use s' = use s;
  fl_rest : rest_same s s'
}.

Lemma mark_shared_ok s a e writable : table_ok s -> entries s !! a = Some e ->
  flagged a e (mkEntry (e_node e) (e_index e) (e_frame e) true (e_dirty e || writable)) s (mark_shared a writable s).
Proof.
  intros Ht Ha. unfold mark_shared. rewrite Ha. set (e' := mkEntry _ _ _ _ _).
  assert (forall m, m = shared_cached (nodes s (e_node e)) - (if e_shared e then 1 else 0) + 1 ->
    table_ok (set_counts (set_table s (<[a := e']> (entries s)) (buckets s) (use s) (entry_count s)) (e_node e) (cached_pages (nodes s (e_node e))) m)) as Hok.
  { intros m Hm. by apply (update_entry_ok s a e e' m). }
  destruct (e_shared e) eqn:Es.
  - split; [|done|done|done]. specialize (Hok (shared_cached (nodes s (e_node e))) ltac:(lia)). eapply table_same; [|exact Hok].
    unfold same_table. cbn. do 4 (split; [done|]). intros n. by destruct (Z.eqb_spec n (e_node e)) as [->|].
  - split; [|done|done|].
    + specialize (Hok _ eq_refl). eapply table_same; [|exact Hok].
      unfold same_table. cbn. do 4 (split; [done|]). intros n. destruct (Z.eqb_spec n (e_node e)) as [->|]; [|done]. cbn. split; [done|].
      rewrite Z.sub_0_r. apply u32_small. pose proof (few_counts s Ht (shared_of_file (e_node e))). rewrite (tb_shared s Ht).
      pose proof (count_of_delete (shared_of_file (e_node e)) _ _ _ Ha) as H1. pose proof (count_of_delete everything _ _ _ Ha) as H2.
      pose proof (count_of_le (shared_of_file (e_node e)) (delete a (entries s))). pose proof (tb_few s Ht).
      unfold shared_of_file at 3 in H1. rewrite Es, andb_false_r in H1. cbn in H2. lia.
    + split; try done. intros n. cbn. by destruct (Z.eqb_spec n (e_node e)) as [->|].
Qed.

(** Moving an entry to the end of the list of use. *)
Lemma reuse_ok s a : table_ok s -> is_Some (entries s !! a) -> table_ok (mark_used a (unlink_use a s)).
Proof.
  intros [[A1 A2 A3 A4] B1 B2 B3 B4 B5 B6 B7] Ha. split; [split|..]; cbn; try done.
  - apply NoDup_app. split_and!; [by apply NoDup_filter| |apply NoDup_singleton]. intros x [Hx _]%elem_of_unlink. set_solver.
  - intros x. rewrite elem_of_app, elem_of_unlink, list_elem_of_singleton, A4. destruct (decide (x = a)); naive_solver.
Qed.

(** A new entry. *)
Record entered (a n i frame : Z) (s s' : pcache) : Prop := {
  en_ok : table_ok s';
  en_fresh : entries s !! a = None;
  en_entries : entries s' = <[a := mkEntry n i frame false false]> (entries s);
  en_use : use s' = use s ++ [a];
  en_rest : rest_same s s'
}.

Lemma enter_linked s a e m : linked s -> entries s !! a = None ->
  linked (set_table s (<[a := e]> (entries s))
    (<[bucket_of (e_node e) (e_index e) := a :: default [] (buckets s !! bucket_of (e_node e) (e_index e))]> (buckets s)) (use s ++ [a]) m).
Proof.
  intros [A1 A2 A3 A4] Ha. set (b := bucket_of (e_node e) (e_index e)).
  assert (b < length (buckets s))%nat as Hb by (rewrite A1; apply bucket_lt).
  destruct (lookup_lt_is_Some_2 _ _ Hb) as [l Hl]. rewrite Hl. cbn [default from_option id].
  assert (forall a' e' b', <[a := e]> (entries s) !! a' = Some e' /\ bucket_of (e_node e') (e_index e') = b' <->
    (a' = a /\ e' = e /\ b' = b) \/ (entries s !! a' = Some e' /\ bucket_of (e_node e') (e_index e') = b')) as Hnew.
  { intros a' e' b'. destruct (decide (a' = a)) as [->|Hne].
    - rewrite lookup_insert_eq, Ha. subst b. naive_solver.
    - rewrite lookup_insert_ne by done. naive_solver. }
  split; cbn.
  - by rewrite length_insert.
  - intros b' a' l'. setoid_rewrite Hnew. destruct (decide (b' = b)) as [->|Hne].
    + rewrite list_lookup_insert_eq by done. intros [= <-]. rewrite elem_of_cons, (A2 b a' l Hl). naive_solver.
    + rewrite list_lookup_insert_ne by done. intros Hl'. rewrite (A2 b' a' l' Hl'). naive_solver.
  - apply NoDup_app. split_and!; [done| |apply NoDup_singleton]. intros x Hx%A4. rewrite list_elem_of_singleton. intros ->. rewrite Ha in Hx. by destruct Hx.
  - intros x. rewrite elem_of_app, list_elem_of_singleton, A4. destruct (decide (x = a)) as [->|Hne].
    + rewrite lookup_insert_eq. split; [by eexists|by right].
    + rewrite lookup_insert_ne by done. naive_solver.
Qed.

Lemma enter_ok s n i frame : table_ok s -> find_locked n i s = None -> frame ∉ cached_frames s ->
  count_of everything (entries s) + 1 < 0x100000000 ->
  exists a s', enter n i frame s = (a, s') /\ entered a n i frame s s'.
Proof.
  intros Ht Hf Hfr Hfew. unfold enter. set (a := fresh (dom (entries s))). set (e := mkEntry n i frame false false).
  assert (entries s !! a = None) as Ha by (apply not_elem_of_dom, is_fresh).
  pose proof (find_locked_page s n i (tb_linked s Ht)) as Hno. rewrite Hf in Hno. pose proof (few_counts s Ht) as Hc.
  pose proof (enter_linked s a e 0 (tb_linked s Ht) Ha) as [L1 L2 L3 L4].
  do 2 eexists. split; [reflexivity|]. split; [split; [by split|..]|done|done|done|]; cbn.
  - intros a1 a2 e1 e2 [(<-&<-)|(N1&H1)]%lookup_insert_Some [(<-&<-)|(N2&H2)]%lookup_insert_Some Hn Hi; [done| | |by apply (tb_key s Ht a1 a2 e1 e2)].
    + by destruct (Hno a2 e2 H2).
    + by destruct (Hno a1 e1 H1).
  - intros a1 e1 [(<-&<-)|(N1&H1)]%lookup_insert_Some; [done|by apply (tb_dirty s Ht a1)].
  - unfold cached_frames in *. cbn. rewrite (entry_list_insert _ _ _ Ha). cbn. apply NoDup_cons. split; [done|apply (tb_frames s Ht)].
  - rewrite (count_of_insert _ _ _ _ Ha). cbn. lia.
  - intros n'. rewrite (count_of_insert _ _ _ _ Ha). unfold of_file at 2. cbn. rewrite (Z.eqb_sym n n').
    destruct (Z.eqb_spec n' n) as [->|]; cbn; rewrite (tb_pages s Ht); [|lia]. apply u32_small.
    specialize (Hc (of_file n)). pose proof (count_of_le (of_file n) (entries s)). lia.
  - intros n'. rewrite (count_of_insert _ _ _ _ Ha). unfold shared_of_file at 2. cbn. rewrite andb_false_r.
    destruct (Z.eqb_spec n' n) as [->|]; cbn; rewrite (tb_shared s Ht); lia.
  - rewrite (count_of_insert _ _ _ _ Ha), (tb_count s Ht). cbn. apply u64_small. specialize (Hc everything). lia.
  - split; cbn; try done. intros n'. by destruct (Z.eqb_spec n' n) as [->|].
Qed.

(** * Making room *)

Definition frame_at (s : pcache) (a : Z) : Z := from_option e_frame 0 (entries s !! a).
Definition evictable (s : pcache) (a : Z) : bool :=
  match entries s !! a with
  | Some e => (pmm_get_frame_ref (e_frame e) (owned s) =? 1) && negb (e_dirty e)
  | None => false
  end.

Record gone_from (gone : list Z) (s s' : pcache) : Prop := {
  gf_ok : table_ok s';
  gf_entries : forall a, entries s' !! a = if decide (a ∈ gone) then None else entries s !! a;
  gf_frames : cached_frames s ≡ₚ (frame_at s <$> gone) ++ cached_frames s';
  gf_rest : rest_same s s'
}.

Lemma gone_nothing s : table_ok s -> gone_from [] s s.
Proof. intros Ht. split; [done| |done|done]. intros a. by rewrite decide_False by set_solver. Qed.

Lemma gone_one a e s s' s'' gone : taken_out a e s s' -> entries s !! a = Some e -> a ∉ gone -> gone_from gone s' s'' -> gone_from (a :: gone) s s''.
Proof.
  intros [T1 T2 T3 T4] Ha Hn [G1 G2 G3 G4]. split; [done| | |by etrans].
  - intros b. rewrite G2, T2. destruct (decide (b = a)) as [->|Hne].
    + rewrite (decide_True (P := a ∈ a :: gone)) by set_solver. rewrite lookup_delete_eq. by destruct (decide _).
    + rewrite lookup_delete_ne by done. by rewrite (decide_ext (b ∈ a :: gone) (b ∈ gone)) by set_solver.
  - unfold cached_frames at 1. rewrite (entry_list_delete _ _ _ Ha). cbn. unfold frame_at at 1. rewrite Ha. cbn. f_equiv.
    unfold cached_frames at 1 in G3. rewrite T2 in G3. rewrite G3. f_equiv.
    replace (frame_at s <$> gone) with (frame_at s' <$> gone); [done|]. apply list_fmap_ext. intros i b Hb. unfold frame_at. rewrite T2, lookup_delete_ne; [done|]. intros ->. apply Hn. by eapply list_elem_of_lookup_2.
Qed.

Lemma take_unmapped_ok l : forall want taken s out, table_ok s -> NoDup l -> 0 <= taken ->
  let gone := take (Z.to_nat (want - taken)) (filter (fun a => evictable s a = true) l) in
  exists s', take_unmapped l want taken s out = (taken + Z.of_nat (length gone), s', reverse (frame_at s <$> gone) ++ out) /\ gone_from gone s s'.
Proof.
  induction l as [|a l IH]; intros want taken s out Ht Hnd Htk gone; subst gone; cbn [take_unmapped].
  { exists s. rewrite filter_nil, take_nil. cbn. rewrite Z.add_0_r. split; [done|by apply gone_nothing]. }
  inversion Hnd as [|? ? Hal Hl]; subst. destruct (Z.leb_spec want taken).
  { replace (Z.to_nat (want - taken)) with O by lia. exists s. cbn. rewrite Z.add_0_r. split; [done|by apply gone_nothing]. }
  destruct (entries s !! a) as [e|] eqn:Ea.
  - destruct (_ && _) eqn:Ee; [rewrite filter_cons_True by (unfold evictable; by rewrite Ea)|].
    2: { rewrite filter_cons_False by (unfold evictable; by rewrite Ea, Ee). by apply IH. }
    destruct (take_out_ok s a e out Ht Ea) as (s1&Ho&Hto). rewrite Ho.
    destruct (IH want (taken + 1) s1 (e_frame e :: out) (to_ok _ _ _ _ Hto) Hl ltac:(lia)) as (s2&Hr&Hg).
    assert (filter (fun b => evictable s1 b = true) l = filter (fun b => evictable s b = true) l) as Hfe.
    { apply filter_ext_in. intros b Hb. unfold evictable. rewrite (to_entries _ _ _ _ Hto), lookup_delete_ne by (intros ->; done).
      by rewrite (rs_owned _ _ (to_rest _ _ _ _ Hto)). }
    rewrite Hfe in Hr, Hg. replace (Z.to_nat (want - taken)) with (S (Z.to_nat (want - (taken + 1)))) by lia. cbn [take].
    set (gone := take _ _) in *. exists s2. rewrite Hr.
    assert (a ∉ gone) as Hag. { intros Hin. apply Hal. unfold gone in Hin.
      apply elem_of_take in Hin as (i&Hi&_). apply list_elem_of_lookup_2, list_elem_of_filter in Hi. tauto. }
    split; [|by eapply gone_one].
    f_equal; [f_equal; cbn [length]; lia|]. rewrite fmap_cons, reverse_cons, <- app_assoc. cbn [app]. f_equal; [|by unfold frame_at; rewrite Ea].
    f_equal. apply list_fmap_ext. intros i b Hb. unfold frame_at. rewrite (to_entries _ _ _ _ Hto), lookup_delete_ne; [done|].
    intros ->. apply Hag. by eapply list_elem_of_lookup_2.
  - rewrite filter_cons_False by (unfold evictable; by rewrite Ea). by apply IH.
Qed.

(** * Walking over the pages of a file *)

Lemma set_mem_same s : set_mem s (mem s) = s.
Proof. by destruct s. Qed.

Lemma table_mem s m : table_ok s -> table_ok (set_mem s m).
Proof. apply table_same. done. Qed.
Lemma table_stats s f : table_ok s -> table_ok (set_stats s f).
Proof. apply table_same. done. Qed.
Lemma table_owned s c : table_ok s -> table_ok (set_owned s c).
Proof. apply table_same. done. Qed.

Lemma taken_out_mem a e s s' m f : taken_out a e s s' -> taken_out a e (set_mem s m) (set_stats (set_mem s' m) f).
Proof. intros [T1 T2 T3 [R1 R2 R3 R4 R5]]. split; [by apply table_stats, table_mem|done|done|]. by split. Qed.

Lemma no_pages s n a e : table_ok s -> cached_pages (nodes s n) <= 0 -> entries s !! a = Some e -> e_node e <> n.
Proof.
  intros Ht Hc Ha <-. rewrite (tb_pages s Ht) in Hc.
  pose proof (count_of_pos (of_file (e_node e)) (entries s) a e Ha ltac:(apply Z.eqb_refl)). lia.
Qed.

Section walks.
(** A visit takes the page out ([goes]) or changes memory. *)
Context (n : Z) (goes flag : pcache_entry -> bool) (effect : pcache_entry -> memory -> memory) (c0 : cow)
        (visit : Z -> pcache_entry -> walker -> walker).
Hypothesis Hvisit : forall a e c, owned (w_cache c) = c0 -> visit a e c =
  if goes e then drop_visit a e (mkWalker (w_cache c) (w_out c) (w_gone c || flag e))
  else mkWalker (set_mem (w_cache c) (effect e (mem (w_cache c)))) (w_out c) (w_gone c).

Definition visited (s : pcache) (g : bool) (a : Z) : bool :=
  match entries s !! a with Some e => (e_node e =? n) && Bool.eqb (goes e) g | None => false end.

Definition effects (s : pcache) (l : list Z) (m : memory) : memory :=
  fold_left (fun m a => match entries s !! a with Some e => effect e m | None => m end) l m.

Lemma effects_ext s s' l m : (forall a, a ∈ l -> entries s' !! a = entries s !! a) -> effects s' l m = effects s l m.
Proof using Type.
  revert m. induction l as [|a l IH]; intros m Hl; cbn; [done|]. rewrite (Hl a) by apply list_elem_of_here. apply IH. intros b Hb. apply Hl. by apply list_elem_of_further.
Qed.

Lemma visited_ext s s' g (l : list Z) : (forall a, a ∈ l -> entries s' !! a = entries s !! a) ->
  filter (fun a => visited s' g a = true) l = filter (fun a => visited s g a = true) l.
Proof using Type. intros Hl. apply filter_ext_in. intros a Ha. unfold visited. by rewrite Hl. Qed.

Lemma walk_spec l : forall c, table_ok (w_cache c) -> owned (w_cache c) = c0 -> NoDup l ->
  let s := w_cache c in
  let gone := filter (fun a => visited s true a = true) l in
  let m := effects s (filter (fun a => visited s false a = true) l) (mem s) in
  let w := walk n visit l c in
  gone_from gone (set_mem s m) (w_cache w) /\ w_out w = reverse (frame_at s <$> gone) ++ w_out c.
Proof.
  induction l as [|a l IH]; intros c Ht Ho Hnd; cbn zeta; cbn [walk].
  { rewrite !filter_nil. cbn. rewrite set_mem_same. split; [|done]. by apply gone_nothing. }
  apply NoDup_cons in Hnd as [Hal Hl]. set (s := w_cache c) in *. destruct (Z.leb_spec (cached_pages (nodes s n)) 0) as [Hno|_].
  { assert (forall g, filter (fun a => visited s g a = true) (a :: l) = []) as Hnone.
    { intros g. apply filter_none. intros b _ Hv. unfold visited in Hv. destruct (entries s !! b) as [e|] eqn:Eb; [|done].
      apply andb_true_iff in Hv as [Hv%Z.eqb_eq _]. by apply (no_pages s n b e Ht Hno Eb). }
    rewrite !Hnone. cbn. rewrite set_mem_same. split; [|done]. by apply gone_nothing. }
  assert (forall g, visited s g a = false -> filter (fun b => visited s g b = true) (a :: l) = filter (fun b => visited s g b = true) l) as Hskip.
  { intros g Hv. apply filter_cons_False. by rewrite Hv. }
  destruct (entries s !! a) as [e|] eqn:Ea.
  2: { rewrite !Hskip by (unfold visited; by rewrite Ea). by apply IH. }
  destruct (Z.eqb_spec (e_node e) n) as [En|Hne].
  2: { rewrite !Hskip by (unfold visited; rewrite Ea; by rewrite (proj2 (Z.eqb_neq _ _) Hne)). by apply IH. }
  assert (forall g, visited s g a = Bool.eqb (goes e) g) as Hv by (intros g; unfold visited; by rewrite Ea, (proj2 (Z.eqb_eq _ _) En)).
  rewrite Hvisit by done. destruct (goes e) eqn:Eg.
  - rewrite (Hskip false) by (by rewrite Hv). rewrite filter_cons_True by (by rewrite Hv). unfold drop_visit. cbn [w_cache w_out w_gone].
    destruct (take_out_ok s a e (w_out c) Ht Ea) as (s1&Hs1&Hto). fold s. rewrite Hs1.
    assert (forall b, b ∈ l -> entries s1 !! b = entries s !! b) as Hsame.
    { intros b Hb. rewrite (to_entries _ _ _ _ Hto), lookup_delete_ne; [done|]. intros ->. done. }
    destruct (IH (mkWalker (set_stats s1 add_dropped) (e_frame e :: w_out c) (w_gone c || flag e))) as [I1 I2];
      [apply table_stats, (to_ok _ _ _ _ Hto)|exact (eq_trans (rs_owned _ _ (to_rest _ _ _ _ Hto)) Ho)|done|]. cbn [w_cache w_out] in I1, I2.
    rewrite (visited_ext s (set_stats s1 add_dropped) true l Hsame) in I1, I2. rewrite (visited_ext s (set_stats s1 add_dropped) false l Hsame) in I1.
    rewrite (effects_ext s (set_stats s1 add_dropped)) in I1 by (intros b [_ Hb]%list_elem_of_filter; by apply Hsame).
    cbn [mem set_stats] in I1. rewrite (rs_mem _ _ (to_rest _ _ _ _ Hto)) in I1. set (gone := filter _ l) in *.
    assert (a ∉ gone) as Hag by (intros [_ Hin]%list_elem_of_filter; done). split.
    + eapply (gone_one a e _ (set_stats (set_mem s1 _) add_dropped)); [by apply taken_out_mem|done|done|exact I1].
    + rewrite I2, fmap_cons, reverse_cons, <- app_assoc. cbn [app]. f_equal; [|unfold frame_at; by rewrite Ea]. f_equal.
      apply list_fmap_ext. intros i b Hb. unfold frame_at. cbn [entries set_stats].
      assert (b ∈ gone) as [_ Hbl]%list_elem_of_filter by (by eapply list_elem_of_lookup_2). by rewrite Hsame.
  - rewrite (Hskip true) by (by rewrite Hv). rewrite (filter_cons_True _ a l) by (by rewrite Hv).
    destruct (IH (mkWalker (set_mem s (effect e (mem s))) (w_out c) (w_gone c))) as [I1 I2]; [by apply table_mem|done|done|].
    cbn [w_cache w_out] in I1, I2. unfold effects. cbn [fold_left]. rewrite Ea. split; [exact I1|exact I2].
Qed.
End walks.

(** The three walks. *)
Definition patch_mem (c : cow) (offset buf last : Z) (e : pcache_entry) (m : memory) : memory :=
  let page := u64 (e_index e * PAGE_SIZE) in
  let lo := if offset <? page then page else offset in
  let hi := if u64 (page + PAGE_SIZE) <? last then u64 (page + PAGE_SIZE) else last in
  let dst := u64 (u64 (e_frame e + hhdm_off (frames c)) + (lo - page)) in
  let src := u64 (buf + (lo - offset)) in
  if (lo <? hi) && negb (dst =? src) then memcpy_effect dst src (hi - lo) m else m.

Definition clear_mem (c : cow) (sz : Z) (e : pcache_entry) (m : memory) : memory :=
  let page := u64 (e_index e * PAGE_SIZE) in
  if sz <? u64 (page + PAGE_SIZE) then (memset_effect (u64 (u64 (e_frame e + hhdm_off (frames c)) + (sz - page))) 0 (PAGE_SIZE - (sz - page)) m) else m.

Definition written_goes (e : pcache_entry) : bool := negb (e_shared e).
Definition truncated_goes (sz : Z) (e : pcache_entry) : bool := negb (e_shared e) || (sz <=? u64 (e_index e * PAGE_SIZE)).

Lemma written_walk n offset buf len s : table_ok s ->
  let gone := filter (fun a => visited n written_goes s true a = true) (use s) in
  let w := written_locked n offset buf len s in
  gone_from gone (set_mem s (effects (patch_mem (owned s) offset buf (range_end offset len)) s
    (filter (fun a => visited n written_goes s false a = true) (use s)) (mem s))) (w_cache w) /\
  w_out w = reverse (frame_at s <$> gone).
Proof.
  intros Ht gone w. pose proof (walk_spec n written_goes (fun _ => false) (patch_mem (owned s) offset buf (range_end offset len)) (owned s)
    (written_visit offset buf (range_end offset len))) as Hw.
  destruct (fun H => Hw H (use s) (mkWalker s [] false) Ht eq_refl (ln_nodup s (tb_linked s Ht))) as [W1 W2].
  - intros a e c Hc. unfold written_visit, written_goes. destruct (e_shared e); cbn [negb]; [|by rewrite orb_false_r; destruct c].
    f_equal. unfold patch, patch_mem, view. rewrite Hc. cbn zeta. destruct (_ && _); [done|by rewrite set_mem_same].
  - cbn [w_cache w_out] in W1, W2. rewrite app_nil_r in W2. done.
Qed.

Lemma truncated_walk n sz s : table_ok s ->
  let gone := filter (fun a => visited n (truncated_goes sz) s true a = true) (use s) in
  let w := truncated_locked n sz s in
  gone_from gone (set_mem s (effects (clear_mem (owned s) sz) s
    (filter (fun a => visited n (truncated_goes sz) s false a = true) (use s)) (mem s))) (w_cache w) /\
  w_out w = reverse (frame_at s <$> gone).
Proof.
  intros Ht gone w. pose proof (walk_spec n (truncated_goes sz) e_shared (clear_mem (owned s) sz) (owned s) (truncated_visit sz)) as Hw.
  destruct (fun H => Hw H (use s) (mkWalker s [] false) Ht eq_refl (ln_nodup s (tb_linked s Ht))) as [W1 W2].
  - intros a e c Hc. unfold truncated_visit. fold (truncated_goes sz e). destruct (truncated_goes sz e); [done|].
    unfold clear_rest, clear_mem, view. rewrite Hc. destruct (_ <? _); [done|]. rewrite set_mem_same. by destruct c.
  - cbn [w_cache w_out] in W1, W2. rewrite app_nil_r in W2. done.
Qed.

Lemma dropped_walk n s : table_ok s ->
  let gone := filter (fun a => visited n (fun _ => true) s true a = true) (use s) in
  let w := dropped_locked n s in
  gone_from gone s (w_cache w) /\ w_out w = reverse (frame_at s <$> gone).
Proof.
  intros Ht gone w. pose proof (walk_spec n (fun _ => true) (fun _ => false) (fun _ m => m) (owned s) drop_visit) as Hw.
  destruct (fun H => Hw H (use s) (mkWalker s [] false) Ht eq_refl (ln_nodup s (tb_linked s Ht))) as [W1 W2].
  - intros a e c Hc. rewrite orb_false_r. by destruct c.
  - cbn [w_cache w_out] in W1, W2. rewrite app_nil_r in W2. split; [|done].
    rewrite (filter_none (fun a => visited n (fun _ => true) s false a = true)) in W1; [by rewrite set_mem_same in W1|].
    intros a _. unfold visited. destruct (entries s !! a); [|done]. by rewrite andb_false_r.
Qed.
