(* ===== verification/PcacheSystem.v ===== *)
(** The page cache at work: calls of any number of tasks on it, their parts
    interleaved, with mappings that are made, written through and given up. *)
From stdpp Require Import base tactics numbers list sets gmap relations.
From Stdlib Require Import ZArith Lia.
From S2P Require Import Prelude Pmm Cow StringLib Pcache PcacheTable.

Open Scope Z_scope.

(** * The calls *)

(** A page a caller has got: 0 privately, 1 shared, 2 shared and writable. *)
Record mapping := mkMapping { m_node : Z; m_index : Z; m_frame : Z; m_kind : Z }.

(** What a call does next: each is one section under the lock, one call of a file
    system, or one of the frame allocator. [page] is the frame that is written back. *)
Inductive op :=
| Look (n index shared : Z) (tries : nat)
| Read (n index shared : Z) (tries : nat) (generation : Z) (again : bool)
| Put (n index shared : Z) (tries : nat) (generation frame : Z) (memory : bool)
| Gap (n offset buf len : Z) (page : option Z)
| Content (n offset buf len : Z) (page : option Z)
| Bump (n : Z)
| Written (n offset buf len : Z) (page : option Z)
| Cut (n sz : Z)
| Truncated (n sz : Z)
| Count
| Dropped (n : Z)
| Collect (n cursor last : Z)
| Write_page (n index frame : Z)
| Clean (n last : Z) (batch : list (Z * Z))
| Reclaim (want : Z)
| Release (frame : Z)
| Free (frame : Z).

(** A task: what it has to do, which pages of its batch it has written, and which of
    their frames hold what was written still (which the code does not know). *)
Record task := mkTask { todo : list op; written : list bool; saved : list Z }.

(** Does [kmalloc] find memory (or a file system's truncate succeed), and how much
    does a file system read or write? *)
Record outcome := mkOutcome { enough : bool; amount : Z }.

Inductive call :=
| Get (n index shared : Z)
| Write (n offset buf len : Z)
| Truncate (n sz : Z)
| Remove (n : Z)
| Writeback (n first last : Z)
| Make_room (want : Z).

Definition begin (c : call) (s : pcache) : list op :=
  match c with
  | Get n index shared =>
      if (n =? 0) || (negb (shared =? 0) && negb (pcache_cacheable s n)) then [] else [Look n index shared 8]
  | Write n offset buf len => [Gap n offset buf len None]
  | Truncate n sz => [Cut n sz]
  | Remove n => if pcache_cacheable s n then [Bump n; Dropped n] else []
  | Writeback n first last => if pcache_cacheable s n then [Collect n first last] else []
  | Make_room want => [Reclaim want]
  end.

(** How many bytes a write takes. *)
Definition taken (n offset len : Z) (x : outcome) (s : pcache) : Z :=
  if has_ops (nodes s n) then Z.max 0 (Z.min (amount x) len)
  else if (u64 (offset + len) <? offset) || negb (enough x) then 0 else len.

(** The file is cut; growing one is writing zeros. *)
Definition cut (n sz : Z) (x : outcome) (s : pcache) : pcache :=
  if (sz <? size (nodes s n)) && (negb (has_ops (nodes s n)) || (has_truncate (nodes s n) && enough x)) then set_size s n sz else s.

Definition writable (n len : Z) (s : pcache) : bool := negb (n =? 0) && regular (nodes s n) && negb (len =? 0).

(** One part: what is left to do for it, the mappings it makes, and the cache. *)
Definition perform (o : op) (x : outcome) (t : task) (s : pcache) : list op * list mapping * pcache :=
  match o with
  | Look n index shared tries =>
      match tries with
      | O => ([], [], s)
      | S tries =>
          match get_look n index shared s with
          | (inl frame, s) => ([], [mkMapping n index frame shared], s)
          | (inr generation, s) => ([Read n index shared tries generation false], [], s)
          end
      end
  | Read n index shared tries generation again =>
      let '(frame, s) := get_read (amount x) n index s in
      if negb (frame =? 0) then ([Put n index shared tries generation frame (enough x)], [], s)
      else if again then ([], [], s)
      else
        let '(k, s, out) := reclaim_locked 1 s in
        (if 0 <? k then (Release <$> out) ++ [Read n index shared tries generation true] else [], [], s)
  | Put n index shared tries generation frame memory =>
      let '(r, discard, out, s) := get_put memory n index shared generation frame s in
      ((if discard then [Free frame] else []) ++ (Release <$> out) ++ match r with Again => [Look n index shared tries] | _ => [] end,
       match r with Frame f => [mkMapping n index f shared] | _ => [] end, s)
  | Gap n offset buf len page =>
      if negb (writable n len s) then ([], [], s)
      else ([Content n offset buf len page], [],
            if size (nodes s n) <? offset then pcache_file_gap n (size (nodes s n)) s else s)
  | Content n offset buf len page =>
      let count := taken n offset len x s in
      if 0 <? count then
        (if pcache_cacheable s n then [Bump n; Written n offset buf count page] else [], [], write_content n offset buf count s)
      else ([], [], s)
  | Bump n => ([], [], bump n s)
  | Written n offset buf len _ =>
      let w := written_locked n offset buf len s in (Release <$> w_out w, [], w_cache w)
  | Cut n sz =>
      if negb (regular (nodes s n)) then ([], [], s)
      else
        let s := cut n sz x s in
        (if pcache_cacheable s n then [Bump n; Truncated n (size (nodes s n))] else [], [], s)
  | Truncated n sz =>
      let w := truncated_locked n sz s in
      ((Release <$> w_out w) ++ (if w_gone w then [Count] else []), [], w_cache w)
  | Count => ([], [], set_truncations s (u32 (truncations s + 1)))
  | Dropped n => let w := dropped_locked n s in (Release <$> w_out w, [], w_cache w)
  | Collect n cursor last =>
      let '(batch, s) := collect n cursor last s in
      match batch with
      | [] => ([], [], s)
      | _ => (((fun p => Write_page n (fst p) (snd p)) <$> batch) ++ [Clean n last batch], [], s)
      end
  | Write_page n index frame =>
      match page_range n index s with
      | Some (start, len) => ([Gap n start (view s frame) len (Some frame)], [], s)
      | None => ([], [], s)
      end
  | Clean n last batch =>
      ((Release ∘ snd <$> batch) ++ [Collect n (u64 (from_option fst 0 (list.last batch) + 1)) last], [], clean n batch (written t) s)
  | Reclaim want => let '(_, s, out) := reclaim_locked want s in (Release <$> out, [], s)
  | Release frame => ([], [], set_owned s (pmm_unref_frame frame (owned s)))
  | Free frame => ([], [], set_owned s (free_frame frame (owned s)))
  end.

(** [written[i]], as the parts decide it one after the other. *)
Definition note (o : op) (x : outcome) (s : pcache) (l : list bool) : list bool :=
  match o with
  | Collect _ _ _ => []
  | Write_page n index _ => match page_range n index s with Some _ => l | None => l ++ [true] end
  | Gap n _ _ len (Some _) => if writable n len s then l else l ++ [false]
  | Content n offset _ len (Some _) => l ++ [taken n offset len x s =? len]
  | _ => l
  end.

Definition note_saved (o : op) (x : outcome) (s : pcache) (l : list Z) : list Z :=
  match o with
  | Collect _ _ _ => []
  | Content n offset _ len (Some frame) => if taken n offset len x s =? len then frame :: l else l
  | _ => l
  end.

(** * The system *)

Record system := mkSystem { st : pcache; tasks : list task; mapped : list mapping }.

(** The frames somebody holds a reference to, one entry each. *)
Definition op_frames (o : op) : list Z :=
  match o with
  | Put _ _ _ _ _ frame _ => [frame]
  | Clean _ _ batch => snd <$> batch
  | Release frame | Free frame => [frame]
  | _ => []
  end.
Definition task_frames (t : task) : list Z := concat (op_frames <$> todo t).
Definition held (s : system) : list Z :=
  cached_frames (st s) ++ (m_frame <$> mapped s) ++ concat (task_frames <$> tasks s).

(** The bytes a write is still to be taken from. *)
Definition op_buffer (o : op) : option (Z * Z) :=
  match o with
  | Gap _ _ buf len _ | Content _ _ buf len _ | Written _ _ buf len _ => Some (buf, len)
  | _ => None
  end.

Definition store_byte (frame offset v : Z) (s : pcache) : pcache := set_mem s (store (mem s) (u64 (view s frame + offset)) v).

Definition touch (frame : Z) (t : task) : task := mkTask (todo t) (written t) (filter (fun f => f <> frame) (saved t)).

(** What the rest of the kernel does meanwhile leaves the counts of the frames held
    here, their contents and the buffers of writers alone. *)
Record elsewhere (s : system) (c : cow) (m : memory) : Prop := {
  el_refs : refs_ok (c, fno (held s));
  el_frames : total_frames (frames c) = total_frames (frames (owned (st s))) /\ hhdm_off (frames c) = hhdm_off (frames (owned (st s)));
  el_mem : forall f i, f ∈ held s -> 0 <= i < PAGE_SIZE -> m (view (st s) f + i) = mem (st s) (view (st s) f + i);
  el_buffers : forall t o buf len i, t ∈ tasks s -> o ∈ todo t -> op_buffer o = Some (buf, len) -> 0 <= i < len ->
    m (buf + i) = mem (st s) (buf + i)
}.

(** No frame has as many references as its count can hold. *)
Definition room (s : system) : Prop := forall f, refs (held s) f < 0xFF00.

Inductive step : system -> system -> Prop :=
| step_call s ts ms c :
    step (mkSystem s ts ms) (mkSystem s (mkTask (begin c s) [] [] :: ts) ms)
| step_run s ts1 o rest oks ch ts2 ms x ops new s' :
    room (mkSystem s (ts1 ++ mkTask (o :: rest) oks ch :: ts2) ms) ->
    perform o x (mkTask (o :: rest) oks ch) s = (ops, new, s') ->
    step (mkSystem s (ts1 ++ mkTask (o :: rest) oks ch :: ts2) ms)
         (mkSystem s' (ts1 ++ mkTask (ops ++ rest) (note o x s oks) (note_saved o x s ch) :: ts2) (new ++ ms))
| step_unmap s ts ms1 m ms2 :
    step (mkSystem s ts (ms1 ++ m :: ms2)) (mkSystem (set_owned s (pmm_unref_frame (m_frame m) (owned s))) ts (ms1 ++ ms2))
| step_fork s ts ms m :                (* a mapping is made a second time *)
    m ∈ ms -> room (mkSystem s ts ms) ->
    step (mkSystem s ts ms) (mkSystem (set_owned s (pmm_ref_frame (m_frame m) (owned s))) ts (m :: ms))
| step_store s ts ms m offset v :
    m ∈ ms -> m_kind m = 2 -> 0 <= offset < PAGE_SIZE -> 0 <= v < 0x100 ->
    step (mkSystem s ts ms) (mkSystem (store_byte (m_frame m) offset v s) (touch (m_frame m) <$> ts) ms)
| step_own s ts ms m offset v :        (* copy-on-write leaves a frame with one owner to it *)
    m ∈ ms -> pmm_get_frame_ref (m_frame m) (owned s) = 1 -> 0 <= offset < PAGE_SIZE ->
    step (mkSystem s ts ms) (mkSystem (store_byte (m_frame m) offset v s) ts ms)
| step_elsewhere s ts ms c m :
    elsewhere (mkSystem s ts ms) c m -> step (mkSystem s ts ms) (mkSystem (set_mem (set_owned s c) m) ts ms).

(** * Frames that are held *)

Definition held_ok (c : cow) (l : list Z) : Prop := refs_ok (c, fno l) /\ aligned l.

Lemma aligned_frame l f : aligned l -> f ∈ l -> f = f / PAGE_SIZE * PAGE_SIZE.
Proof. intros Ha. by apply (proj1 (Forall_forall _ _) Ha). Qed.

Lemma elem_of_fno l f : aligned l -> f = f / PAGE_SIZE * PAGE_SIZE -> f / PAGE_SIZE ∈ fno l <-> f ∈ l.
Proof.
  intros Ha Hf. unfold fno. rewrite list_elem_of_fmap. split; [|by exists f].
  intros (g&Hg&Hin). rewrite Hf, Hg, <- (aligned_frame l g Ha Hin). done.
Qed.

Lemma refs_fno l f : aligned l -> f = f / PAGE_SIZE * PAGE_SIZE -> refs (fno l) (f / PAGE_SIZE) = refs l f.
Proof.
  intros Ha Hf. induction l as [|g l IH]; [done|]. apply Forall_cons in Ha as [Hg Ha]. change (fno (g :: l)) with (g / PAGE_SIZE :: fno l).
  rewrite !refs_cons, IH by done.
  destruct (Z.eqb_spec (f / PAGE_SIZE) (g / PAGE_SIZE)) as [E|], (Z.eqb_spec f g); try lia; congruence.
Qed.

Lemma held_perm c l l' : l ≡ₚ l' -> held_ok c l -> held_ok c l'.
Proof.
  intros Hp [Hr Ha]. split; [|unfold aligned; by rewrite <- Hp]. eapply refs_ok_perm; [|exact Hr]. unfold fno. by rewrite Hp.
Qed.

Lemma held_ref c l f : held_ok c l -> f ∈ l -> refs l f < 0xFFFF -> held_ok (pmm_ref_frame f c) (f :: l).
Proof.
  intros [Hr Ha] Hf Hfew. pose proof (aligned_frame l f Ha Hf) as Ef. assert (f / PAGE_SIZE ∈ fno l) as Hin by (by apply elem_of_fno).
  destruct (refs_add c (f / PAGE_SIZE) (fno l) Hr Hin) as [Hr' _].
  { pose proof (proj2 (proj2 Hr (f / PAGE_SIZE) Hin)) as Ho. cbn in Ho. rewrite Ho, refs_fno by done. lia. }
  rewrite <- Ef in Hr'. split; [done|]. by constructor.
Qed.

Lemma held_unref c l f : held_ok c (f :: l) -> held_ok (pmm_unref_frame f c) l.
Proof.
  intros [Hr Ha]. apply Forall_cons in Ha as [Ef Ha]. destruct (refs_drop c (f / PAGE_SIZE) (fno l) Hr) as [Hr' _].
  rewrite <- Ef in Hr'. done.
Qed.

Lemma held_owned c l f : held_ok c l -> f ∈ l -> 1 <= f / PAGE_SIZE < total_frames (frames c) /\ 1 <= owners c (f / PAGE_SIZE) /\ owners c (f / PAGE_SIZE) = refs l f.
Proof.
  intros [Hr Ha] Hf. pose proof (aligned_frame l f Ha Hf) as Ef. assert (f / PAGE_SIZE ∈ fno l) as Hin by (by apply elem_of_fno).
  destruct (refs_ok_owned c (fno l) _ Hr Hin) as (H1&H2&_). split; [done|]. split; [done|].
  pose proof (proj2 (proj2 Hr _ Hin)) as Ho. cbn in Ho. rewrite Ho. by apply refs_fno.
Qed.

Lemma unref_total c l f : held_ok c (f :: l) -> total_frames (frames (pmm_unref_frame f c)) = total_frames (frames c).
Proof.
  intros Hh. destruct (held_owned _ _ f Hh) as (Hr&Hge&_); [set_solver|]. pose proof (aligned_frame _ f (proj2 Hh) ltac:(set_solver)) as Ef.
  destruct (unref_frame_spec c (f / PAGE_SIZE) (proj1 (proj1 Hh)) Hr) as (_&T&_); [by apply owners_used|]. by rewrite <- Ef in T.
Qed.

Lemma held_free c l f : held_ok c (f :: l) -> f ∉ l -> held_ok (free_frame f c) l.
Proof.
  intros Hh Hf. destruct (held_owned c (f :: l) f Hh) as (H1&_&H2); [set_solver|]. rewrite refs_cons, Z.eqb_refl, refs_zero in H2 by done.
  pose proof (aligned_frame (f :: l) f (proj2 Hh) ltac:(set_solver)) as Ef. rewrite Ef, free_is_unref by (done || apply (proj1 (proj1 Hh))).
  rewrite <- Ef. by apply held_unref.
Qed.

Lemma held_alloc c l f c' : held_ok c l -> alloc_frame c = (f, c') ->
  if f =? 0 then held_ok c' l
  else held_ok c' (f :: l) /\ owners c (f / PAGE_SIZE) = 0.
Proof.
  intros [Hr Ha] He. pose proof (alloc_frame_owners c (proj1 Hr)) as HA. rewrite He in HA. destruct HA as (_&_&HA).
  destruct (Z.eqb_spec f 0) as [->|Hne]; [split; [|done]; by eapply refs_ok_alloc|].
  destruct HA as [(?&_)|(k&->&Hk&Ho&_)]; [done|]. assert (k * PAGE_SIZE / PAGE_SIZE = k) as Ek by (unfold PAGE_SIZE; zlia).
  split; [|by rewrite Ek]. split; [|constructor; [by rewrite Ek|done]].
  exact (ref_step_ok (c, fno l) _ Hr (ref_alloc c (fno l) _ c' He Hne)).
Qed.

(** Nobody else holds [f]. *)
Definition sole (l : list Z) (f : Z) : Prop := refs l f = 1.

Lemma refs_app_sum l1 l2 f : refs (l1 ++ l2) f = refs l1 f + refs l2 f.
Proof. unfold refs. rewrite count_occ_app. lia. Qed.
Lemma refs_nonneg l f : 0 <= refs l f.
Proof. unfold refs. lia. Qed.

Lemma sole_other l l' others f : sole (l ++ others) f -> f ∈ others -> (f ∈ l' -> f ∈ l) -> sole (l' ++ others) f.
Proof.
  unfold sole. rewrite !refs_app_sum. intros Hs Ho Hl. pose proof (refs_pos others f Ho). pose proof (refs_nonneg l f).
  rewrite (refs_zero l' f); [lia|]. intros Hin%Hl%refs_pos. lia.
Qed.

Lemma sole_head l f : sole (f :: l) f -> f ∉ l.
Proof. unfold sole. rewrite refs_cons, Z.eqb_refl. intros Hs Hin%refs_pos. lia. Qed.

(** * The parts keep count *)

(** The frames only their task holds. *)
Definition sole_frame (o : op) : option Z :=
  match o with Put _ _ _ _ _ frame _ | Free frame => Some frame | _ => None end.

Definition ops_frames (ops : list op) : list Z := concat (op_frames <$> ops).
Definition after (ops : list op) (new : list mapping) (s : pcache) : list Z := cached_frames s ++ (m_frame <$> new) ++ ops_frames ops.

Record performed (o : op) (others : list Z) (s : pcache) (ops : list op) (new : list mapping) (s' : pcache) : Prop := {
  pf_table : table_ok s';
  pf_held : held_ok (owned s') (after ops new s' ++ others);
  pf_from : forall f, f ∈ after ops new s' -> f ∈ cached_frames s ++ op_frames o \/ owners (owned s) (f / PAGE_SIZE) = 0;
  pf_sole : forall o' f, o' ∈ ops -> sole_frame o' = Some f -> sole (after ops new s' ++ others) f;
  pf_total : total_frames (frames (owned s')) = total_frames (frames (owned s))
}.

Lemma ref_frames f c : frames (pmm_ref_frame f c) = frames c.
Proof. unfold pmm_ref_frame. by destruct (untracked _ _). Qed.
Lemma ops_frames_app l1 l2 : ops_frames (l1 ++ l2) = ops_frames l1 ++ ops_frames l2.
Proof. unfold ops_frames. by rewrite fmap_app, concat_app. Qed.
Lemma ops_frames_release l : ops_frames (Release <$> l) = l.
Proof. unfold ops_frames. induction l as [|f l IH]; [done|]. cbn in *. by rewrite IH. Qed.

Lemma performed_quiet o others s ops s' : table_ok s -> held_ok (owned s) ((cached_frames s ++ op_frames o) ++ others) ->
  same_table s s' -> owned s' = owned s -> op_frames o = [] -> Forall (fun o' => op_frames o' = []) ops ->
  performed o others s ops [] s'.
Proof.
  intros Ht Hh Hs Ho Ho' Hops. assert (ops_frames ops = []) as Hnone.
  { unfold ops_frames. induction Hops as [|o' l E _ IH]; [done|]. cbn. by rewrite E, IH. }
  assert (after ops [] s' = cached_frames s ++ op_frames o) as Ha.
  { unfold after, cached_frames. rewrite Hnone, Ho', (proj1 Hs). done. }
  split; [by eapply table_same|by rewrite Ha, Ho| |  |by rewrite Ho].
  - intros f. rewrite Ha. by left.
  - intros o1 f Hin Hsole. assert (op_frames o1 = []) as E by (by apply (proj1 (Forall_forall _ _) Hops)). by destruct o1.
Qed.

Lemma performed_evict o others s gone s' out extra : held_ok (owned s) ((cached_frames s ++ op_frames o) ++ others) ->
  gone_from gone s s' -> out ≡ₚ frame_at s <$> gone -> op_frames o = [] -> Forall (fun o' => op_frames o' = []) extra ->
  performed o others s ((Release <$> out) ++ extra) [] s'.
Proof.
  intros Hh Hg Hout Ho Hex. assert (ops_frames extra = []) as Hnone.
  { unfold ops_frames. induction Hex as [|o' l E _ IH]; [done|]. cbn. by rewrite E, IH. }
  assert (after ((Release <$> out) ++ extra) [] s' ≡ₚ cached_frames s ++ op_frames o) as Ha.
  { unfold after. rewrite ops_frames_app, ops_frames_release, Hnone, Ho, !app_nil_r. cbn. rewrite (gf_frames _ _ _ Hg), Hout. apply Permutation_app_comm. }
  pose proof (rs_owned _ _ (gf_rest _ _ _ Hg)) as Hc.
  split; [exact (gf_ok _ _ _ Hg)|rewrite Hc; eapply held_perm; [|exact Hh]; by rewrite Ha| | |by rewrite Hc].
  - intros f. rewrite Ha. by left.
  - intros o1 f [(x&->&_)%list_elem_of_fmap|Hin]%elem_of_app Hsole; [done|].
    assert (op_frames o1 = []) as E by (by apply (proj1 (Forall_forall _ _) Hex)). by destruct o1.
Qed.

Lemma reclaim_ok want s : table_ok s -> exists n s' out gone, reclaim_locked want s = (n, s', out) /\
  gone_from gone s s' /\ out = reverse (frame_at s <$> gone) /\ n = Z.of_nat (length gone) /\
  gone = take (Z.to_nat want) (filter (fun a => evictable s a = true) (use s)).
Proof.
  intros Ht. unfold reclaim_locked. destruct (Z.eqb_spec want 0) as [->|_].
  { exists 0, s, [], []. split; [done|]. split; [by apply gone_nothing|done]. }
  destruct (take_unmapped_ok (use s) want 0 s [] Ht (ln_nodup s (tb_linked s Ht)) ltac:(done)) as (s'&Hr&Hg).
  rewrite Z.sub_0_r in *. rewrite Hr. do 4 eexists. split; [reflexivity|]. split; [|rewrite app_nil_r; split_and!; [reflexivity|reflexivity|reflexivity]].
  destruct Hg as [G1 G2 G3 [R1 R2 R3 R4 R5]]. split; [by apply table_stats|done|done|by split].
Qed.

Lemma cached_flagged a e e' s s' : entries s !! a = Some e -> flagged a e e' s s' -> e_frame e' = e_frame e ->
  cached_frames s' ≡ₚ cached_frames s.
Proof.
  intros Ha Hf Ef. unfold cached_frames. rewrite (fl_entries _ _ _ _ _ Hf), (entry_list_update _ _ _ _ Ha), (entry_list_delete _ _ _ Ha). cbn. by rewrite Ef.
Qed.

(** Another owner for the frame of an entry. *)
Lemma share_entry s a e (shared : Z) others : table_ok s -> entries s !! a = Some e ->
  held_ok (owned s) (cached_frames s ++ others) -> refs (cached_frames s ++ others) (e_frame e) < 0xFF00 ->
  let s1 := set_owned s (pmm_ref_frame (e_frame e) (owned s)) in
  let s2 := if negb (shared =? 0) then mark_shared a (shared =? 2) s1 else s1 in
  table_ok s2 /\ cached_frames s2 ≡ₚ cached_frames s /\ held_ok (owned s2) (cached_frames s2 ++ e_frame e :: others) /\
  is_Some (entries s2 !! a) /\ total_frames (frames (owned s2)) = total_frames (frames (owned s)).
Proof.
  intros Ht Ha Hh Hr s1 s2. assert (table_ok s1) as Ht1 by (by apply table_owned).
  assert (e_frame e ∈ cached_frames s ++ others) as Hin.
  { apply elem_of_app. left. unfold cached_frames. apply list_elem_of_fmap. exists e. split; [done|]. apply elem_of_entry_list. by exists a. }
  assert (held_ok (owned s1) (cached_frames s ++ e_frame e :: others)) as Hh1.
  { eapply held_perm; [|by apply (held_ref _ _ _ Hh Hin); lia]. apply Permutation_middle. }
  assert (total_frames (frames (owned s1)) = total_frames (frames (owned s))) as Htot by (cbn; by rewrite ref_frames).
  unfold s2. destruct (negb _); [|split_and!; try done; by eexists].
  pose proof (mark_shared_ok s1 a e (shared =? 2) Ht1 Ha) as Hf. pose proof (cached_flagged a e _ s1 _ Ha Hf eq_refl) as Hc.
  rewrite (rs_owned _ _ (fl_rest _ _ _ _ _ Hf)). split_and!; [apply (fl_ok _ _ _ _ _ Hf)|done| |rewrite (fl_entries _ _ _ _ _ Hf), lookup_insert_eq; by eexists|done].
  eapply held_perm; [|exact Hh1]. by rewrite Hc.
Qed.

Lemma look_ok n i shared tries x t s others ops new s' : table_ok s ->
  held_ok (owned s) ((cached_frames s ++ []) ++ others) -> (forall f, refs (cached_frames s ++ others) f < 0xFF00) ->
  perform (Look n i shared tries) x t s = (ops, new, s') -> performed (Look n i shared tries) others s ops new s'.
Proof.
  intros Ht Hh Hroom. pose proof Hh as Hh0. rewrite app_nil_r in Hh0. cbn [perform]. destruct tries as [|tries]; [intros [= <- <- <-]; by apply performed_quiet|].
  unfold get_look. pose proof (find_locked_page s n i (tb_linked s Ht)) as Hf. destruct (find_locked n i s) as [a|].
  2: { intros [= <- <- <-]. apply performed_quiet; try done. by repeat constructor. }
  destruct Hf as (e&Ha&Hn&Hi). rewrite Ha. cbn [from_option]. intros [= <- <- <-].
  destruct (share_entry s a e shared others Ht Ha Hh0 (Hroom _)) as (S1&S2&S3&S4&S5). cbn zeta in *. set (s2 := if negb (shared =? 0) then _ else _) in *.
  assert (table_ok (set_stats (mark_used a (unlink_use a s2)) add_hit)) as Hok by (by apply table_stats, reuse_ok).
  split; [done| | |set_solver|exact S5].
  - unfold after, ops_frames. cbn. rewrite <- app_assoc. exact S3.
  - intros f. unfold after, ops_frames. cbn. change (cached_frames _) with (cached_frames s2) at 1. rewrite S2.
    rewrite !elem_of_app, elem_of_cons. intros [Hin|[->|Hin]]; left; rewrite ?elem_of_app; [by left| |set_solver].
    left. unfold cached_frames. apply list_elem_of_fmap. exists e. split; [done|]. apply elem_of_entry_list. by exists a.
Qed.

Lemma alloc_total c f c' : cow_ok c -> alloc_frame c = (f, c') -> total_frames (frames c') = total_frames (frames c).
Proof. intros Hc He. pose proof (alloc_frame_spec c Hc) as HA. rewrite He in HA. by destruct HA as (_&?&_). Qed.

Lemma vfs_read_same g n offset count buf s : same_table s (snd (vfs_read g n offset count buf s)) /\ owned (snd (vfs_read g n offset count buf s)) = owned s.
Proof. unfold vfs_read. by destruct (negb _). Qed.

Lemma read_ok n i shared tries g again x t s others ops new s' : table_ok s ->
  held_ok (owned s) ((cached_frames s ++ []) ++ others) ->
  perform (Read n i shared tries g again) x t s = (ops, new, s') -> performed (Read n i shared tries g again) others s ops new s'.
Proof.
  intros Ht Hh. cbn [perform]. unfold get_read. destruct (alloc_frame (owned s)) as [f c] eqn:Ea.
  pose proof (held_alloc _ _ _ _ Hh Ea) as Hal. pose proof (alloc_total _ _ _ (proj1 (proj1 Hh)) Ea) as Htot. destruct (Z.eqb_spec f 0) as [->|Hne].
  - cbn [negb Z.eqb]. set (s1 := set_owned s c). assert (table_ok s1) as Ht1 by (by apply table_owned).
    assert (forall ops s', performed (Read n i shared tries g again) others s1 ops [] s' -> performed (Read n i shared tries g again) others s ops [] s') as Hpf.
    { intros ops' s'' [P1 P2 P3 P4 P5]. split; try done; [|by rewrite P5]. intros f Hf. destruct (P3 f Hf) as [?|Ho]; [by left|].
      destruct (held_owned _ _ f P2) as (_&Hge&_); [apply elem_of_app; by left|]. 
      right. pose proof (alloc_frame_owners (owned s) (proj1 (proj1 Hh))) as HA. rewrite Ea in HA. destruct HA as (_&_&[(_&HA)|(k&Hk&Hr&_)]); [by rewrite <- HA|].
      unfold PAGE_SIZE in Hk. lia. }
    destruct again; [intros [= <- <- <-]; by apply Hpf, performed_quiet|].
    destruct (reclaim_ok 1 s1 Ht1) as (k&s2&out&gone&->&Hg&->&->&_). destruct (Z.ltb_spec 0 (Z.of_nat (length gone))) as [Hk|Hk].
    + intros [= <- <- <-]. apply Hpf. eapply performed_evict; [exact Hal|exact Hg|by rewrite reverse_Permutation|done|by repeat constructor].
    + assert (gone = []) as -> by (destruct gone; [done|cbn in Hk; lia]). intros [= <- <- <-]. apply Hpf.
      eapply (performed_evict _ _ _ [] _ [] []); [exact Hal|exact Hg|done|done|done].
  - rewrite (proj2 (Z.eqb_neq f 0)) by done. cbn [negb]. intros [= <- <- <-]. destruct Hal as [Hal Hfree].
    set (s1 := set_mem _ _). destruct (vfs_read_same (amount x) n (u64 (i * PAGE_SIZE)) PAGE_SIZE (view (set_owned s c) f) s1) as [V1 V2].
    change (view s1 f) with (view (set_owned s c) f). set (s2 := snd _) in *.
    assert (cached_frames s2 = cached_frames s) as Hc by (unfold cached_frames; by rewrite (proj1 V1)).
    assert (after [Put n i shared tries g f (enough x)] [] s2 = cached_frames s ++ [f]) as Haf by (unfold after, ops_frames; cbn; by rewrite Hc).
    assert (cached_frames s ++ [f] ≡ₚ f :: cached_frames s ++ []) as Hp by (rewrite app_nil_r; symmetry; apply Permutation_cons_append).
    assert (held_ok (owned s2) ((cached_frames s ++ [f]) ++ others)) as Hh2.
    { rewrite V2. eapply held_perm; [|exact Hal]. by rewrite Hp. }
    split; rewrite ?Haf; [eapply table_same; [exact V1|]; by apply table_mem, table_owned|done| | |rewrite V2; exact Htot].
    + intros f'. rewrite !elem_of_app, list_elem_of_singleton. intros [?| ->]; [tauto|by right].
    + intros o f' ->%list_elem_of_singleton [= <-]. unfold sole. rewrite (refs_perm _ (f :: (cached_frames s ++ []) ++ others)) by (by rewrite Hp).
      rewrite refs_cons, Z.eqb_refl, refs_zero; [done|]. intros Hin. pose proof (held_owned _ _ f Hh Hin) as (_&?&_). lia.
Qed.

Lemma frames_few c l others : held_ok c (l ++ others) -> NoDup l -> Z.of_nat (length l) < Z.max 1 (total_frames (frames c)).
Proof.
  intros Hh Hn. assert (fno l ⊆+ seqZ 1 (total_frames (frames c) - 1)) as Hsub.
  { apply NoDup_submseteq.
    - unfold fno. apply NoDup_fmap_2_strong; [|done]. intros f g Hf Hg E.
      rewrite (aligned_frame _ f (proj2 Hh)), (aligned_frame _ g (proj2 Hh)), E by (apply elem_of_app; by left). done.
    - intros k (f&->&Hf)%list_elem_of_fmap. apply elem_of_seqZ. destruct (held_owned c _ f Hh) as (Hr&_); [apply elem_of_app; by left|]. lia. }
  apply submseteq_length in Hsub. unfold fno in Hsub. rewrite length_fmap, length_seqZ in Hsub. lia.
Qed.

Lemma mark_shared_owned s a w c : set_owned (mark_shared a w s) c = mark_shared a w (set_owned s c).
Proof. unfold mark_shared. cbn. destruct (entries s !! a) as [e|]; [|done]. by destruct (e_shared e). Qed.

Lemma sole_split l f others : sole ((l ++ [f]) ++ others) f -> f ∉ l /\ f ∉ others.
Proof.
  unfold sole. rewrite !refs_app_sum, refs_cons, Z.eqb_refl. change (refs [] f) with 0. pose proof (refs_nonneg l f). pose proof (refs_nonneg others f).
  intros Hs. split; intros Hin%refs_pos; lia.
Qed.

Lemma enter_share s n i frame shared others : table_ok s -> find_locked n i s = None ->
  held_ok (owned s) ((cached_frames s ++ [frame]) ++ others) -> sole ((cached_frames s ++ [frame]) ++ others) frame ->
  total_frames (frames (owned s)) <= 0x100000000 ->
  exists a s1, enter n i frame s = (a, s1) /\
  let s2 := set_owned (if negb (shared =? 0) then mark_shared a (shared =? 2) s1 else s1) (pmm_ref_frame frame (owned s1)) in
  table_ok s2 /\ cached_frames s2 ≡ₚ frame :: cached_frames s /\ held_ok (owned s2) (cached_frames s2 ++ frame :: others) /\
  owned s1 = owned s.
Proof.
  intros Ht Hf Hh Hs Htot. destruct (sole_split _ _ _ Hs) as [Hn1 Hn2].
  assert (NoDup (frame :: cached_frames s)) as Hnd by (apply NoDup_cons; split; [done|apply (tb_frames s Ht)]).
  assert ((cached_frames s ++ [frame]) ++ others ≡ₚ (frame :: cached_frames s) ++ others) as Hp by (by rewrite <- Permutation_cons_append).
  destruct (enter_ok s n i frame Ht Hf Hn1) as (a&s1&He&Hen).
  { pose proof (frames_few _ _ _ (held_perm _ _ _ Hp Hh) Hnd). unfold count_of. rewrite (filter_all (fun e => everything e = true)) by done.
    unfold cached_frames in H. cbn [length] in H. rewrite length_fmap in H. lia. }
  exists a, s1. split; [done|]. cbn zeta. pose proof (rs_owned _ _ (en_rest _ _ _ _ _ _ Hen)) as Ho.
  assert (cached_frames s1 ≡ₚ frame :: cached_frames s) as Hc1.
  { unfold cached_frames. rewrite (en_entries _ _ _ _ _ _ Hen), (entry_list_insert _ _ _ (en_fresh _ _ _ _ _ _ Hen)). done. }
  set (e := mkEntry n i frame false false). assert (entries s1 !! a = Some e) as Ha by (rewrite (en_entries _ _ _ _ _ _ Hen); apply lookup_insert_eq).
  destruct (share_entry s1 a e shared others (en_ok _ _ _ _ _ _ Hen) Ha) as (S1&S2&S3&_).
  { rewrite Ho. eapply held_perm; [|exact Hh]. by rewrite Hc1, Hp. }
  { rewrite (refs_perm _ ((frame :: cached_frames s) ++ others)) by (by rewrite Hc1). rewrite <- (refs_perm _ _ _ Hp). unfold sole in Hs. cbn. lia. }
  cbn zeta in *. change (e_frame e) with frame in *.
  destruct (negb (shared =? 0)); rewrite ?mark_shared_owned; split_and!; try done; by rewrite S2, Hc1.
Qed.

Lemma put_ok n i shared tries g frame memory x t s others ops new s' : table_ok s ->
  held_ok (owned s) ((cached_frames s ++ [frame]) ++ others) -> (forall f, refs ((cached_frames s ++ [frame]) ++ others) f < 0xFF00) ->
  sole ((cached_frames s ++ [frame]) ++ others) frame -> total_frames (frames (owned s)) <= 0x100000000 ->
  perform (Put n i shared tries g frame memory) x t s = (ops, new, s') -> performed (Put n i shared tries g frame memory) others s ops new s'.
Proof.
  intros Ht Hh Hroom Hs Htot. destruct (sole_split _ _ _ Hs) as [Hn1 Hn2]. cbn [perform]. unfold get_put.
  pose proof (find_locked_page s n i (tb_linked s Ht)) as Hf. destruct (find_locked n i s) as [a|] eqn:Hfind.
  - rewrite bool_decide_true by (by eexists). cbn [orb]. destruct Hf as (e&Ha&_&_). rewrite Ha. cbn [from_option]. intros [= <- <- <-].
    rewrite <- app_assoc in Hh. destruct (share_entry s a e shared (frame :: others) Ht Ha Hh) as (S1&S2&S3&_&S5).
    { specialize (Hroom (e_frame e)). by rewrite <- app_assoc in Hroom. }
    cbn zeta in *. set (s2 := if negb (shared =? 0) then _ else _) in *.
    assert (e_frame e ∈ cached_frames s) as Hef. { unfold cached_frames. apply list_elem_of_fmap. exists e. split; [done|]. apply elem_of_entry_list. by exists a. }
    split; [by apply table_stats| | | |exact S5]; unfold after, ops_frames; cbn.
    + change (cached_frames (set_stats s2 add_raced)) with (cached_frames s2). by rewrite <- app_assoc.
    + change (cached_frames (set_stats s2 add_raced)) with (cached_frames s2). intros f. rewrite S2, !elem_of_app, !elem_of_cons. set_solver.
    + intros o f ->%list_elem_of_singleton [= <-]. change (cached_frames (set_stats s2 add_raced)) with (cached_frames s2).
      unfold sole. rewrite !refs_app_sum, (refs_perm _ _ _ S2), !refs_cons, Z.eqb_refl. change (refs [] frame) with 0.
      rewrite (refs_zero (cached_frames s)), (refs_zero others) by done. rewrite (proj2 (Z.eqb_neq frame (e_frame e))) by congruence. lia.
  - rewrite (bool_decide_false (is_Some None)) by (by intros [? ?]). cbn [orb]. destruct (negb memory || _).
    + assert (forall ops new, after ops new s = cached_frames s ++ [frame] -> (forall o f, o ∈ ops -> sole_frame o = Some f -> f = frame) ->
        performed (Put n i shared tries g frame memory) others s ops new (set_stats s add_raced)) as Hsame.
      { intros ops' new' Hafter Hsol. split; [by apply table_stats| | | |done]; change (after ops' new' (set_stats s add_raced)) with (after ops' new' s); rewrite Hafter; [done|by left|].
        intros o f Ho ->%(Hsol o); done. }
      destruct (shared =? 0); [intros [= <- <- <-]; apply Hsame; [done|set_solver]|].
      destruct memory; intros [= <- <- <-]; apply Hsame; try done; intros o f Hin; cbn in Hin; set_unfold in Hin; naive_solver.
    + destruct (enter_share s n i frame shared others Ht Hfind Hh Hs Htot) as (a&s1&->&Hsh). cbn zeta in Hsh.
      set (s2 := if negb (shared =? 0) then mark_shared a (shared =? 2) s1 else s1) in *.
      set (s3 := set_owned (set_stats s2 add_miss) (pmm_ref_frame frame (owned s2))).
      assert (owned s2 = owned s1) as Ho2. { unfold s2. destruct (negb _); [|done]. unfold mark_shared. destruct (entries s1 !! a) as [e|]; [|done]. by destruct (e_shared e). }
      destruct Hsh as (S1&S2&S3&S4). rewrite <- Ho2 in S3, S1. change (cached_frames (set_owned s2 _)) with (cached_frames s3) in S2, S3.
      assert (table_ok s3) as Ht3 by exact (table_stats _ add_miss S1).
      assert (exists s4 out gone, (if capacity s3 <? entry_count s3
          then let '(k, s, out) := take_unmapped (use s3) (entry_count s3 - capacity s3) 0 s3 [] in (set_stats s (add_evicted k), out)
          else (s3, [])) = (s4, out) /\ gone_from gone s3 s4 /\ out ≡ₚ frame_at s3 <$> gone) as (s4&out&gone&->&Hg&Hout).
      { destruct (_ <? _); [|exists s3, [], []; split; [done|split; [by apply gone_nothing|done]]].
        destruct (take_unmapped_ok (use s3) (entry_count s3 - capacity s3) 0 s3 [] Ht3 (ln_nodup _ (tb_linked _ Ht3)) ltac:(done)) as (s4&->&[G1 G2 G3 [R1 R2 R3 R4 R5]]).
        do 3 eexists. split; [reflexivity|]. split; [split; [by apply table_stats|exact G2|exact G3|by split]|]. by rewrite app_nil_r, reverse_Permutation. }
      intros [= <- <- <-].
      assert (after (([] ++ (Release <$> out) ++ [])) [mkMapping n i frame shared] s4 ≡ₚ cached_frames s3 ++ [frame]) as Hp.
      { unfold after. rewrite app_nil_r. cbn [app]. rewrite ops_frames_release, Hout, (gf_frames _ _ _ Hg). cbn. solve_Permutation. }
      pose proof (rs_owned _ _ (gf_rest _ _ _ Hg)) as Ho4.
      split; [exact (gf_ok _ _ _ Hg)| | | |rewrite Ho4; cbn; by rewrite ref_frames, Ho2, S4].
      * rewrite Ho4. eapply held_perm; [|exact S3]. rewrite Hp. by rewrite <- app_assoc.
      * intros f. rewrite Hp, S2. set_solver.
      * intros o f. rewrite app_nil_r. cbn [app]. intros (y&->&_)%list_elem_of_fmap. done.
Qed.

(** The parts that leave the table alone. *)
Definition harmless (s s' : pcache) : Prop := same_table s s' /\ owned s' = owned s.

Lemma harmless_node s n v : cached_pages v = cached_pages (nodes s n) -> shared_cached v = shared_cached (nodes s n) -> harmless s (set_node s n v).
Proof. intros H1 H2. split; [|done]. do 4 (split; [done|]). intros n'. cbn. by destruct (Z.eqb_spec n' n) as [->|]. Qed.

Lemma harmless_gap n sz s : harmless s (pcache_file_gap n sz s).
Proof.
  unfold pcache_file_gap. destruct (_ || _); [done|]. destruct (find_locked _ _ s) as [a|]; [|done].
  destruct (entries s !! a) as [e|]; [|done]. by destruct (e_shared e).
Qed.

Lemma harmless_write n offset buf count s : harmless s (write_content n offset buf count s).
Proof. unfold write_content, set_size. split; [|done]. apply (harmless_node (set_content s n _) n); done. Qed.

Lemma harmless_cut n sz x s : harmless s (cut n sz x s).
Proof. unfold cut. destruct (_ && _); [|done]. by apply harmless_node. Qed.

Lemma quiet_ok o x t s others ops new s' : table_ok s -> held_ok (owned s) ((cached_frames s ++ []) ++ others) ->
  match o with Gap _ _ _ _ _ | Content _ _ _ _ _ | Bump _ | Cut _ _ | Count | Write_page _ _ _ => True | _ => False end ->
  perform o x t s = (ops, new, s') -> performed o others s ops new s'.
Proof.
  intros Ht Hh Hq. assert (forall ops s', op_frames o = [] -> harmless s s' -> Forall (fun o' => op_frames o' = []) ops -> performed o others s ops [] s') as Hperf.
  { intros ops' s'' Ho [H1 H2] Hops. apply performed_quiet; try done. by rewrite Ho. }
  destruct o; try done; cbn [perform].
  - destruct (negb _); intros [= <- <- <-]; apply Hperf; try done; [|by repeat constructor]. destruct (_ <? _); [apply harmless_gap|done].
  - destruct (_ <? _); intros [= <- <- <-]; apply Hperf; try done; [apply harmless_write|]. destruct (pcache_cacheable _ _); by repeat constructor.
  - intros [= <- <- <-]. apply Hperf; try done. by apply harmless_node.
  - destruct (negb _); intros [= <- <- <-]; apply Hperf; try done; [apply harmless_cut|]. destruct (pcache_cacheable _ _); by repeat constructor.
  - by intros [= <- <- <-]; apply Hperf.
  - destruct (page_range _ _ s) as [[]|]; intros [= <- <- <-]; apply Hperf; try done. by repeat constructor.
Qed.

(** The walks and [pcache_reclaim] take entries out. *)
Lemma performed_mem o others s m ops new s' : performed o others (set_mem s m) ops new s' -> performed o others s ops new s'.
Proof. intros [P1 P2 P3 P4 P5]. by split. Qed.

Lemma evict_ok o x t s others ops new s' : table_ok s -> held_ok (owned s) ((cached_frames s ++ []) ++ others) ->
  match o with Written _ _ _ _ _ | Truncated _ _ | Dropped _ | Reclaim _ => True | _ => False end ->
  perform o x t s = (ops, new, s') -> performed o others s ops new s'.
Proof.
  intros Ht Hh Hq. destruct o; try done; cbn [perform].
  - intros [= <- <- <-]. destruct (written_walk n offset buf len s Ht) as [W1 W2]. eapply performed_mem.
    rewrite <- (app_nil_r (Release <$> _)). eapply performed_evict; [exact Hh|exact W1|by rewrite W2, reverse_Permutation|done|done].
  - intros [= <- <- <-]. destruct (truncated_walk n sz s Ht) as [W1 W2]. eapply performed_mem.
    eapply performed_evict; [exact Hh|exact W1|by rewrite W2, reverse_Permutation|done|]. destruct (w_gone _); by repeat constructor.
  - intros [= <- <- <-]. destruct (dropped_walk n s Ht) as [W1 W2].
    rewrite <- (app_nil_r (Release <$> _)). eapply performed_evict; [exact Hh|exact W1|by rewrite W2, reverse_Permutation|done|done].
  - destruct (reclaim_ok want s Ht) as (k&s2&out&gone&->&Hg&->&_). intros [= <- <- <-].
    rewrite <- (app_nil_r (Release <$> _)). eapply performed_evict; [exact Hh|exact Hg|by rewrite reverse_Permutation|done|done].
Qed.

(** Giving frames back. *)
Lemma give_ok o f x t s others ops new s' : table_ok s -> held_ok (owned s) ((cached_frames s ++ [f]) ++ others) ->
  o = Release f \/ o = Free f /\ sole ((cached_frames s ++ [f]) ++ others) f ->
  perform o x t s = (ops, new, s') -> performed o others s ops new s'.
Proof.
  intros Ht Hh Ho Hp. assert ((cached_frames s ++ [f]) ++ others ≡ₚ f :: cached_frames s ++ others) as Hperm by (by rewrite <- Permutation_cons_append).
  pose proof (held_perm _ _ _ Hperm Hh) as Hh'. destruct (held_owned _ _ f Hh') as (Hr&Hge&_); [set_solver|].
  pose proof (aligned_frame _ f (proj2 Hh') ltac:(set_solver)) as Ef.
  pose proof (unref_total _ _ _ Hh') as Htot.
  assert (exists c, s' = set_owned s c /\ ops = [] /\ new = [] /\ held_ok c (cached_frames s ++ others) /\ total_frames (frames c) = total_frames (frames (owned s)))
    as (c&->&->&->&Hc&Hct).
  { destruct Ho as [->|[-> Hs]]; cbn [perform] in Hp; injection Hp as <- <- <-.
    - exists (pmm_unref_frame f (owned s)). split_and!; try done. by apply held_unref.
    - exists (free_frame f (owned s)). unfold sole in Hs. rewrite (refs_perm _ _ _ Hperm) in Hs. split_and!; try done; [by apply held_free, sole_head|].
      destruct (held_owned _ _ f Hh') as (_&_&Ho'); [set_solver|]. rewrite Ef, free_is_unref, <- Ef; [done|apply (proj1 (proj1 Hh))|done|lia]. }
  split; [by apply table_owned| | | |exact Hct]; unfold after, ops_frames; cbn; rewrite ?app_nil_r; [exact Hc| |set_solver].
  change (cached_frames (set_owned s c)) with (cached_frames s). intros f'. set_solver.
Qed.

(** Collecting and cleaning. *)
Definition collected (s : pcache) (n cursor last : Z) (p : Z * Z) : Prop :=
  exists a e, entries s !! a = Some e /\ p = (e_index e, e_frame e) /\ e_node e = n /\ e_dirty e = true /\ cursor <= e_index e < last.

Lemma insert_page_perm p l : insert_page p l ≡ₚ p :: l.
Proof.
  induction l as [|q l IH]; cbn [insert_page]; [done|]. destruct (_ <? _); [done|]. rewrite IH. apply Permutation_swap.
Qed.

Lemma collect_one_spec s n cursor last a e b : entries s !! a = Some e -> Forall (collected s n cursor last) b -> (length b <= WRITEBACK_BATCH)%nat ->
  Forall (collected s n cursor last) (collect_one n cursor last e b) /\ (length (collect_one n cursor last e b) <= WRITEBACK_BATCH)%nat.
Proof.
  intros Ha Hb Hlen. unfold collect_one. destruct (_ || _) eqn:Eg; [done|]. zbool. 
  assert (collected s n cursor last (e_index e, e_frame e)) as Hnew by (exists a, e; split_and!; (done || lia)).
  destruct (Nat.eqb_spec (length b) WRITEBACK_BATCH) as [El|Hne].
  - destruct (_ <? _); [done|]. assert (Forall (collected s n cursor last) (removelast b) /\ (length (removelast b) < WRITEBACK_BATCH)%nat) as [Hr Hl].
    { assert (b <> []) as Hb0 by (intros ->; done). pose proof (app_removelast_last (0, 0) Hb0) as E.
      rewrite E in Hb, El. rewrite Forall_app in Hb. rewrite length_app in El. cbn [length] in El. split; [apply Hb|lia]. }
    rewrite !insert_page_perm. cbn [length]. split; [by constructor|lia].
  - rewrite !insert_page_perm. cbn [length]. split; [by constructor|lia].
Qed.

Lemma collect_spec s n cursor last :
  let '(batch, s') := collect n cursor last s in
  Forall (collected s n cursor last) batch /\ (length batch <= WRITEBACK_BATCH)%nat /\
  s' = set_owned s (fold_left (fun c p => pmm_ref_frame (snd p) c) batch (owned s)).
Proof.
  unfold collect. set (f := fun b a => _).
  assert (forall l b, Forall (collected s n cursor last) b -> (length b <= WRITEBACK_BATCH)%nat ->
    Forall (collected s n cursor last) (fold_left f l b) /\ (length (fold_left f l b) <= WRITEBACK_BATCH)%nat) as Hl.
  { induction l as [|a l IH]; intros b Hb Hlen; [done|]. cbn [fold_left]. unfold f at 2 4. destruct (entries s !! a) as [e|] eqn:Ea; [|by apply IH].
    destruct (collect_one_spec s n cursor last a e b Ea Hb Hlen). by apply IH. }
  destruct (Hl (use s) []); [constructor|cbn; lia|done].
Qed.

Lemma ref_batch (batch : list (Z * Z)) : forall c l, held_ok c l -> (forall p, p ∈ batch -> snd p ∈ l) -> (forall f, refs l f + Z.of_nat (length batch) < 0xFFFF) ->
  let c' := fold_left (fun c p => pmm_ref_frame (snd p) c) batch c in
  held_ok c' ((snd <$> batch) ++ l) /\ frames c' = frames c.
Proof.
  induction batch as [|p b IH]; intros c l Hh Hin Hfew; [done|]. cbn [fold_left length] in *.
  assert (snd p ∈ l) as Hp by (apply Hin; set_solver). pose proof (held_ref c l (snd p) Hh Hp ltac:(specialize (Hfew (snd p)); lia)) as Hh1.
  destruct (IH _ _ Hh1) as [I1 I2].
  - intros q Hq. apply elem_of_cons. right. apply Hin. set_solver.
  - intros f. rewrite refs_cons. specialize (Hfew f). destruct (_ =? _); lia.
  - cbn zeta. rewrite I2, ref_frames. split; [|done]. eapply held_perm; [|exact I1]. cbn. by rewrite Permutation_middle.
Qed.

Lemma collect_ok n cursor last x t s others ops new s' : table_ok s -> held_ok (owned s) ((cached_frames s ++ []) ++ others) ->
  (forall f, refs (cached_frames s ++ others) f < 0xFF00) ->
  perform (Collect n cursor last) x t s = (ops, new, s') -> performed (Collect n cursor last) others s ops new s'.
Proof.
  intros Ht Hh Hroom. cbn [perform]. pose proof (collect_spec s n cursor last) as Hc. destruct (collect n cursor last s) as [batch s1].
  destruct Hc as (Hb&Hlen&->). set (c := fold_left _ _ _). rewrite app_nil_r in Hh.
  assert (forall p, p ∈ batch -> snd p ∈ cached_frames s) as Hin.
  { intros p Hp. destruct (proj1 (Forall_forall _ _) Hb p Hp) as (a&e&Ha&->&_). unfold cached_frames. apply list_elem_of_fmap. exists e.
    split; [done|]. apply elem_of_entry_list. by exists a. }
  destruct (ref_batch batch (owned s) _ Hh) as [R1 R2].
  { intros p Hp. apply elem_of_app. left. by apply Hin. }
  { intros f. specialize (Hroom f). unfold WRITEBACK_BATCH in Hlen. lia. }
  fold c in R1, R2. destruct batch as [|p0 b0] eqn:Eb.
  { intros [= <- <- <-]. apply performed_quiet; try done. by rewrite app_nil_r. }
  rewrite <- Eb in *. intros [= <- <- <-]. set (ops := _ ++ _).
  assert (ops_frames ops = snd <$> batch) as Hof.
  { assert (forall b : list (Z * Z), ops_frames ((fun p => Write_page n (fst p) (snd p)) <$> b) = []) as Hw by (induction b; done).
    unfold ops. rewrite ops_frames_app, Hw. unfold ops_frames. cbn. by rewrite app_nil_r. }
  split; [by apply table_owned| | | |exact (f_equal total_frames R2)]; unfold after; rewrite Hof; cbn [fmap list_fmap app];
    change (cached_frames (set_owned s c)) with (cached_frames s).
  - eapply held_perm; [|exact R1]. rewrite <- app_assoc. solve_Permutation.
  - intros f [Hf|(q&->&Hq)%list_elem_of_fmap]%elem_of_app; left; apply elem_of_app; left; [done|by apply Hin].
  - intros o f Ho Hs. unfold ops in Ho. apply elem_of_app in Ho as [(q&->&_)%list_elem_of_fmap| ->%list_elem_of_singleton]; done.
Qed.

Lemma unflag_ok s a e : table_ok s -> entries s !! a = Some e ->
  flagged a e (mkEntry (e_node e) (e_index e) (e_frame e) (e_shared e) false) s
    (set_table s (<[a := mkEntry (e_node e) (e_index e) (e_frame e) (e_shared e) false]> (entries s)) (buckets s) (use s) (entry_count s)).
Proof.
  intros Ht Ha. set (e' := mkEntry _ _ _ _ _). split; [|done|done|done].
  pose proof (update_entry_ok s a e e' (shared_cached (nodes s (e_node e))) Ht Ha eq_refl eq_refl eq_refl ltac:(done)) as Hok. cbn zeta in Hok.
  eapply table_same; [|apply Hok; cbn; lia]. do 4 (split; [done|]). intros n. cbn. by destruct (Z.eqb_spec n (e_node e)) as [->|].
Qed.

Lemma clean_one_ok n s p : table_ok s -> table_ok (clean_one n s p) /\ cached_frames (clean_one n s p) ≡ₚ cached_frames s /\ rest_same s (clean_one n s p).
Proof.
  intros Ht. destruct p as [[i f] ok]. unfold clean_one. destruct (find_locked n i s) as [a|]; [|done].
  destruct (entries s !! a) as [e|] eqn:Ha; [|done]. destruct (_ && _); [|done].
  pose proof (unflag_ok s a e Ht Ha) as Hf. split; [apply (fl_ok _ _ _ _ _ Hf)|]. split; [by eapply (cached_flagged a e _ s _ Ha Hf)|apply (fl_rest _ _ _ _ _ Hf)].
Qed.

Lemma clean_all_ok n l : forall s, table_ok s -> let s' := fold_left (clean_one n) l s in
  table_ok s' /\ cached_frames s' ≡ₚ cached_frames s /\ rest_same s s'.
Proof.
  induction l as [|p l IH]; intros s Ht; [done|]. cbn [fold_left]. destruct (clean_one_ok n s p Ht) as (C1&C2&C3).
  destruct (IH _ C1) as (I1&I2&I3). split; [done|]. split; [by rewrite I2|by etrans].
Qed.

Lemma clean_ok n last batch x t s others ops new s' : table_ok s -> held_ok (owned s) ((cached_frames s ++ (snd <$> batch)) ++ others) ->
  perform (Clean n last batch) x t s = (ops, new, s') -> performed (Clean n last batch) others s ops new s'.
Proof.
  intros Ht Hh. cbn [perform]. intros [= <- <- <-]. destruct (clean_all_ok n (zip batch (written t)) s Ht) as (C1&C2&C3).
  change (fold_left _ _ s) with (clean n batch (written t) s) in C1, C2, C3. pose proof (rs_owned _ _ C3) as Ho. set (s1 := clean _ _ _ s) in *.
  assert (forall ops, ops_frames ((Release ∘ snd <$> batch) ++ [Collect n ops last]) = snd <$> batch) as Hof.
  { intros k. rewrite ops_frames_app. unfold ops_frames. cbn. rewrite app_nil_r. clear. induction batch as [|q b IH]; [done|]. cbn in *. by f_equal. }
  split; [done| | | |by rewrite Ho]; unfold after; rewrite ?Hof; cbn [fmap list_fmap app].
  - rewrite Ho. eapply held_perm; [|exact Hh]. by rewrite C2.
  - intros f. rewrite C2. by left.
  - intros o f Hin Hs. apply elem_of_app in Hin as [(q&->&_)%list_elem_of_fmap| ->%list_elem_of_singleton]; done.
Qed.

Lemma perform_ok o x t s others ops new s' : table_ok s -> held_ok (owned s) ((cached_frames s ++ op_frames o) ++ others) ->
  (forall f, refs ((cached_frames s ++ op_frames o) ++ others) f < 0xFF00) ->
  (forall f, sole_frame o = Some f -> sole ((cached_frames s ++ op_frames o) ++ others) f) ->
  total_frames (frames (owned s)) <= 0x100000000 ->
  perform o x t s = (ops, new, s') -> performed o others s ops new s'.
Proof.
  intros Ht Hh Hroom Hs Htot. destruct o; cbn [op_frames] in Hh, Hroom, Hs; cbn [sole_frame] in Hs.
  - apply look_ok; try done. intros f. specialize (Hroom f). by rewrite app_nil_r in Hroom.
  - by apply read_ok.
  - apply put_ok; try done. by apply Hs.
  - by apply quiet_ok.
  - by apply quiet_ok.
  - by apply quiet_ok.
  - by apply evict_ok.
  - by apply quiet_ok.
  - by apply evict_ok.
  - by apply quiet_ok.
  - by apply evict_ok.
  - apply collect_ok; try done. intros f. specialize (Hroom f). by rewrite app_nil_r in Hroom.
  - by apply quiet_ok.
  - by apply clean_ok.
  - by apply evict_ok.
  - apply (give_ok _ frame); [done|done|by left].
  - apply (give_ok _ frame); [done|done|]. right. split; [done|]. by apply Hs.
Qed.

(** * The invariant *)

Record inv (s : system) : Prop := {
  in_table : table_ok (st s);
  in_held : held_ok (owned (st s)) (held s);
  in_sole : forall t o f, t ∈ tasks s -> o ∈ todo t -> sole_frame o = Some f -> sole (held s) f;
  in_total : total_frames (frames (owned (st s))) <= 0x100000000
}.

Lemma task_frames_in ts t o f : t ∈ ts -> o ∈ todo t -> f ∈ op_frames o -> f ∈ concat (task_frames <$> ts).
Proof.
  intros Ht Ho Hf. apply elem_of_concat. exists (task_frames t). split; [|apply list_elem_of_fmap; by exists t].
  apply elem_of_concat. exists (op_frames o). split; [done|]. apply list_elem_of_fmap. by exists o.
Qed.

Lemma sole_frame_in o f : sole_frame o = Some f -> f ∈ op_frames o.
Proof. destruct o; try done; cbn; intros [= ->]; set_solver. Qed.

Lemma sole_drop l f g : sole (f :: l) g -> g ∈ l -> sole l g.
Proof. unfold sole. rewrite refs_cons. intros Hs Hg%refs_pos. destruct (_ =? _); lia. Qed.

Lemma run_step s ts1 o rest oks ch ts2 ms x ops new s' oks' ch' :
  inv (mkSystem s (ts1 ++ mkTask (o :: rest) oks ch :: ts2) ms) -> room (mkSystem s (ts1 ++ mkTask (o :: rest) oks ch :: ts2) ms) ->
  perform o x (mkTask (o :: rest) oks ch) s = (ops, new, s') ->
  inv (mkSystem s' (ts1 ++ mkTask (ops ++ rest) oks' ch' :: ts2) (new ++ ms)) /\ total_frames (frames (owned s')) = total_frames (frames (owned s)).
Proof.
  intros [I1 I2 I3 I4] Hroom Hp. set (S := mkSystem s _ ms) in *. set (S' := mkSystem s' _ _).
  set (others := (m_frame <$> ms) ++ concat (task_frames <$> ts1) ++ ops_frames rest ++ concat (task_frames <$> ts2)).
  assert (held S ≡ₚ (cached_frames s ++ op_frames o) ++ others) as HS.
  { unfold held, S, others. cbn [st tasks mapped]. rewrite fmap_app, concat_app. cbn [fmap list_fmap concat]. unfold task_frames at 2. cbn. fold (ops_frames rest). solve_Permutation. }
  assert (held S' ≡ₚ after ops new s' ++ others) as HS'.
  { unfold held, S', others, after. cbn [st tasks mapped]. rewrite !fmap_app, concat_app. cbn [fmap list_fmap concat]. unfold task_frames at 2. cbn [todo].
    fold (ops_frames (ops ++ rest)). rewrite ops_frames_app. solve_Permutation. }
  destruct (perform_ok o x (mkTask (o :: rest) oks ch) s others ops new s') as [P1 P2 P3 P4 P5]; try done.
  { by eapply held_perm. }
  { intros f. rewrite <- (refs_perm _ _ f HS). apply Hroom. }
  { intros f Hs. unfold sole. rewrite <- (refs_perm _ _ f HS). apply (I3 (mkTask (o :: rest) oks ch) o f); [unfold S; cbn; set_solver|cbn; set_solver|done]. }
  split; [|done]. split; [done|by eapply held_perm| |cbn; rewrite P5; done].
  intros t1 o1 f Ht1 Ho1 Hs1. unfold sole. rewrite (refs_perm _ _ f HS'). fold (sole (after ops new s' ++ others) f).
  assert (o1 ∈ ops \/ (exists t0, t0 ∈ tasks S /\ o1 ∈ todo t0) /\ f ∈ others) as [Hin|[(t0&Ht0&Ho0) Hoth]].
  { pose proof (sole_frame_in o1 f Hs1) as Hf. unfold S' in Ht1. cbn in Ht1. apply elem_of_app in Ht1 as [Ht1|[->|Ht1]%elem_of_cons].
    - right. split; [exists t1; unfold S; cbn; set_solver|]. unfold others. pose proof (task_frames_in ts1 t1 o1 f Ht1 Ho1 Hf). set_solver.
    - cbn in Ho1. apply elem_of_app in Ho1 as [?|Ho1]; [by left|]. right. split; [exists (mkTask (o :: rest) oks ch); unfold S; cbn; set_solver|].
      assert (f ∈ ops_frames rest); [|unfold others; set_solver]. apply elem_of_concat. exists (op_frames o1). split; [done|]. apply list_elem_of_fmap. by exists o1.
    - right. split; [exists t1; unfold S; cbn; set_solver|]. unfold others. pose proof (task_frames_in ts2 t1 o1 f Ht1 Ho1 Hf). set_solver. }
  { by eapply P4. }
  pose proof (I3 t0 o1 f Ht0 Ho0 Hs1) as Hsole. unfold sole in Hsole. rewrite (refs_perm _ _ f HS) in Hsole.
  eapply sole_other; [exact Hsole|done|]. intros Hf. destruct (P3 f Hf) as [?|Hfree]; [done|].
  destruct (held_owned (owned s) _ f (held_perm _ _ _ HS I2)) as (_&?&_); [apply elem_of_app; by right|lia].
Qed.

Lemma begin_frames c s : ops_frames (begin c s) = [].
Proof. destruct c; cbn [begin]; try done; by destruct (_ || _) || destruct (pcache_cacheable _ _). Qed.

Lemma begin_sole c s o f : o ∈ begin c s -> sole_frame o = Some f -> False.
Proof.
  intros Ho%list_elem_of_split Hs%sole_frame_in. destruct Ho as (l1&l2&E). pose proof (begin_frames c s) as Hb. rewrite E, ops_frames_app in Hb.
  apply app_eq_nil in Hb as [_ Hb]. cbn in Hb. apply app_eq_nil in Hb as [Hb _]. rewrite Hb in Hs. set_solver.
Qed.

Lemma step_inv s s' : inv s -> step s s' -> inv s'.
Proof.
  intros Hi Hstep. destruct Hstep as [s ts ms c|s ts1 o rest oks ch ts2 ms x ops new s' Hroom Hp|s ts ms1 m ms2|s ts ms m Hm Hroom|s ts ms m offset v Hm Hk Ho Hv|s ts ms m offset v Hm Hk Ho|s ts ms c m He].
  - destruct Hi as [I1 I2 I3 I4]. assert (held (mkSystem s (mkTask (begin c s) [] [] :: ts) ms) = held (mkSystem s ts ms)) as E.
    { unfold held. cbn. unfold task_frames at 1. cbn. fold (ops_frames (begin c s)). by rewrite begin_frames. }
    split; [done|by rewrite E| |done]. intros t o f [->|Ht]%elem_of_cons Ho Hs; [by destruct (begin_sole c s o f)|]. rewrite E. by eapply I3.
  - by eapply (run_step s ts1 o rest oks ch ts2 ms x ops new s').
  - destruct Hi as [I1 I2 I3 I4]. set (S' := mkSystem _ ts (ms1 ++ ms2)).
    assert (held (mkSystem s ts (ms1 ++ m :: ms2)) ≡ₚ m_frame m :: held S') as HS by (unfold held, S'; cbn; rewrite !fmap_app; cbn; change (cached_frames (set_owned s _)) with (cached_frames s); solve_Permutation).
    pose proof (held_perm _ _ _ HS I2) as Hh. split; [by apply table_owned|by apply held_unref| |].
    + intros t o f Ht Ho Hs. pose proof (I3 t o f Ht Ho Hs) as Hsole. unfold sole in Hsole. rewrite (refs_perm _ _ f HS) in Hsole.
      eapply sole_drop; [exact Hsole|]. pose proof (task_frames_in ts t o f Ht Ho (sole_frame_in _ _ Hs)). unfold held, S'. cbn. set_solver.
    + pose proof (unref_total _ _ _ Hh) as Ht. cbn in Ht |- *. by rewrite Ht.
  - destruct Hi as [I1 I2 I3 I4]. set (S' := mkSystem _ ts (m :: ms)). set (S := mkSystem s ts ms) in *.
    assert (held S' ≡ₚ m_frame m :: held S) as HS by (unfold held, S', S; cbn; change (cached_frames (set_owned s _)) with (cached_frames s); solve_Permutation).
    assert (m_frame m ∈ m_frame <$> ms) as Hmf by (apply list_elem_of_fmap; by exists m).
    assert (m_frame m ∈ held S) as Hin by (unfold held, S; cbn; set_solver).
    split; [by apply table_owned| | |cbn; by rewrite ref_frames].
    + eapply held_perm; [symmetry; exact HS|]. apply held_ref; [done|done|]. specialize (Hroom (m_frame m)). lia.
    + intros t o f Ht Ho Hs. pose proof (I3 t o f Ht Ho Hs) as Hsole. unfold sole in *. rewrite (refs_perm _ _ f HS), refs_cons.
      destruct (Z.eqb_spec f (m_frame m)) as [->|]; [|lia]. exfalso. unfold held, S in Hsole. cbn in Hsole. rewrite !refs_app_sum in Hsole.
      pose proof (refs_pos _ _ Hmf). pose proof (refs_pos _ _ (task_frames_in ts t o _ Ht Ho (sole_frame_in _ _ Hs))). pose proof (refs_nonneg (cached_frames s) (m_frame m)). lia.
  - destruct Hi as [I1 I2 I3 I4]. set (S := mkSystem s ts ms) in *. set (S' := mkSystem _ _ ms).
    assert (held S' = held S) as E by (unfold held, S', S; cbn; do 2 f_equal; rewrite <- list_fmap_compose; done).
    split; [by apply table_mem|by rewrite E| |done]. rewrite E. intros t o f (t0&->&Ht0)%list_elem_of_fmap Ho' Hs. by eapply I3.
  - destruct Hi as [I1 I2 I3 I4]. by split; [apply table_mem|..].
  - destruct Hi as [I1 I2 I3 I4]. destruct He as [E1 [E2 _] _ _]. split; [by apply table_mem, table_owned| |done|cbn; by rewrite E2].
    split; [exact E1|exact (proj2 I2)].
Qed.

(** * Properties *)

(** As [pcache_init] leaves it, with no file cached and no call made yet. *)
Record initial (s : system) : Prop := {
  it_entries : entries (st s) = ∅;
  it_buckets : buckets (st s) = replicate (Z.to_nat PCACHE_BUCKETS) [];
  it_use : use (st s) = [];
  it_count : entry_count (st s) = 0;
  it_nodes : forall n, cached_pages (nodes (st s) n) = 0 /\ shared_cached (nodes (st s) n) = 0;
  it_frames : cow_ok (owned (st s)) /\ total_frames (frames (owned (st s))) <= 0x100000000;
  it_tasks : tasks s = [];
  it_mapped : mapped s = []
}.

Lemma fresh_cache_inv s : initial s -> inv s.
Proof.
  intros [I1 I2 I3 I4 I5 [I6 I7] I8 I9]. assert (cached_frames (st s) = []) as Hc by (unfold cached_frames; by rewrite I1).
  assert (held s = []) as Hh by (unfold held; by rewrite Hc, I8, I9). split; [split; [split|..]| | |done].
  - by rewrite I2, length_replicate.
  - intros b a l Hb. rewrite I2 in Hb. apply lookup_replicate_1 in Hb as [-> _]. rewrite I1. split; [by intros ?%elem_of_nil|by intros (e&He&_)].
  - rewrite I3. constructor.
  - intros a. rewrite I3, I1. split; [by intros ?%elem_of_nil|by intros [e He]].
  - intros a a' e e'. by rewrite I1.
  - intros a e. by rewrite I1.
  - rewrite Hc. constructor.
  - by rewrite I1.
  - intros n. by rewrite I1, (proj1 (I5 n)).
  - intros n. by rewrite I1, (proj2 (I5 n)).
  - by rewrite I1, I4.
  - rewrite Hh. split; [split; [done|]|constructor]. by intros f ?%elem_of_nil.
  - intros t o f Ht. rewrite I8 in Ht. by apply elem_of_nil in Ht.
Qed.

Lemma held_count s f : inv s -> f ∈ held s -> f / PAGE_SIZE ∉ abs (frames (owned (st s))) /\ pmm_get_frame_ref f (owned (st s)) = refs (held s) f.
Proof.
  intros [I1 I2 I3 I4] Hf. destruct (held_owned _ _ f I2 Hf) as (Hr&Hge&Ho). pose proof (aligned_frame _ f (proj2 I2) Hf) as Ef.
  assert (f / PAGE_SIZE ∉ abs (frames (owned (st s)))) as Hu by (by apply owners_used). split; [done|].
  rewrite Ef, get_frame_ref_owners by (done || apply (proj1 (proj1 I2)) || lia). rewrite Ho. by rewrite <- Ef.
Qed.

Lemma entry_held s a e : entries (st s) !! a = Some e -> e_frame e ∈ held s.
Proof.
  intros Ha. unfold held. apply elem_of_app. left. unfold cached_frames. apply list_elem_of_fmap. exists e. split; [done|]. apply elem_of_entry_list. by exists a.
Qed.

Lemma evictable_held s a : inv s -> evictable (st s) a = true <->
  exists e, entries (st s) !! a = Some e /\ refs (held s) (e_frame e) = 1 /\ e_dirty e = false.
Proof.
  intros Hi. unfold evictable. destruct (entries (st s) !! a) as [e|] eqn:Ea; [|by split; [|intros (e&?&_)]].
  rewrite (proj2 (held_count s _ Hi (entry_held s a e Ea))), andb_true_iff, Z.eqb_eq, negb_true_iff. naive_solver.
Qed.

(** Whom [reclaim_locked] takes frames from. *)
Lemma reclaim_takes s want : inv s -> 0 <= want ->
  let '(k, s', out) := reclaim_locked want (st s) in
  k = Z.of_nat (length out) /\ k <= want /\ cached_frames (st s) ≡ₚ out ++ cached_frames s' /\
  (forall f, f ∈ out -> refs (held s) f = 1 /\ exists a e, entries (st s) !! a = Some e /\ e_frame e = f /\ e_dirty e = false) /\
  (k < want -> forall a e, entries s' !! a = Some e -> e_dirty e = true \/ 1 < refs (held s) (e_frame e)).
Proof.
  intros Hi Hw. destruct (reclaim_ok want (st s) (in_table s Hi)) as (k&s'&out&gone&->&Hg&->&->&Hgone).
  pose proof (in_table s Hi) as Ht. rewrite length_reverse, length_fmap. split; [done|]. split; [rewrite Hgone, length_take; lia|].
  split; [rewrite (reverse_Permutation (frame_at (st s) <$> gone)); apply (gf_frames _ _ _ Hg)|]. split.
  - intros f (a&->&Ha)%elem_of_reverse%list_elem_of_fmap. rewrite Hgone in Ha.
    assert (a ∈ filter (fun a => evictable (st s) a = true) (use (st s))) as [Hev _]%list_elem_of_filter.
    { rewrite <- (take_drop (Z.to_nat want)). by apply elem_of_app; left. }
    apply (evictable_held s a Hi) in Hev as (e&He&Hr&Hd). unfold frame_at. rewrite He. cbn. split; [done|]. by exists a, e.
  - intros Hk a e Ha. rewrite (gf_entries _ _ _ Hg) in Ha. destruct (decide (a ∈ gone)) as [|Hn]; [done|].
    destruct (e_dirty e) eqn:Ed; [by left|right]. pose proof (refs_pos _ _ (entry_held s a e Ha)).
    destruct (Z.eq_dec (refs (held s) (e_frame e)) 1) as [E|]; [|lia]. destruct Hn. rewrite Hgone in Hk |- *. rewrite length_take in Hk.
    rewrite take_ge by lia. apply list_elem_of_filter. split; [apply evictable_held; [done|by exists e]|]. apply (ln_use _ (tb_linked _ Ht)). by exists e.
Qed.

(** C15. However calls, mappings and evictions interleave: a page has at most one entry
    and [find_locked] finds it; the counts of cached and shared pages are exact; a frame
    somebody holds is not free and its reference count is the number of holders, so
    [pcache_reclaim] gives back only clean frames that the cache alone holds, as many as
    are asked for if there are as many. *)
Theorem pcache_sound (s0 s : system) (want : Z) : initial s0 -> rtc step s0 s -> 0 <= want ->
  (forall n i a, find_locked n i (st s) = Some a <-> exists e, entries (st s) !! a = Some e /\ e_node e = n /\ e_index e = i) /\
  pcache_pages (st s) = Z.of_nat (length (entry_list (entries (st s)))) /\
  (forall n, cached_pages (nodes (st s) n) = count_of (of_file n) (entries (st s)) /\
             shared_cached (nodes (st s) n) = count_of (shared_of_file n) (entries (st s))) /\
  (forall f, f ∈ held s -> f / PAGE_SIZE ∉ abs (frames (owned (st s))) /\ pmm_get_frame_ref f (owned (st s)) = refs (held s) f) /\
  let '(k, s', out) := reclaim_locked want (st s) in
  k = Z.of_nat (length out) /\ k <= want /\ cached_frames (st s) ≡ₚ out ++ cached_frames s' /\
  (forall f, f ∈ out -> refs (held s) f = 1 /\ exists a e, entries (st s) !! a = Some e /\ e_frame e = f /\ e_dirty e = false) /\
  (k < want -> forall a e, entries s' !! a = Some e -> e_dirty e = true \/ 1 < refs (held s) (e_frame e)).
Proof.
  intros H0 Hr Hw. assert (inv s) as Hi by (apply (rtc_invariant step _ s0); [apply step_inv|by apply fresh_cache_inv|done]).
  pose proof (in_table s Hi) as Ht. split; [|split; [|split; [|split; [by intros f; apply held_count|by apply reclaim_takes]]]].
  - intros n i a. split; [|intros (e&Ha&Hn&Hx); by eapply find_locked_some].
    intros Hf. pose proof (find_locked_page (st s) n i (tb_linked _ Ht)) as Hs. by rewrite Hf in Hs.
  - unfold pcache_pages. rewrite (tb_count _ Ht). unfold count_of. by rewrite (filter_all (fun e => everything e = true)).
  - intros n. split; [apply (tb_pages _ Ht)|apply (tb_shared _ Ht)].
Qed.

(** * Witness *)

(** The first task goes on, while few references are held. *)
Definition run_first (x : outcome) (s : system) : system :=
  if Z.of_nat (length (held s)) <? 0xFF00 then
    match tasks s with
    | mkTask (o :: rest) oks ch :: ts =>
        let '(ops, new, s') := perform o x (mkTask (o :: rest) oks ch) (st s) in
        mkSystem s' (mkTask (ops ++ rest) (note o x (st s) oks) (note_saved o x (st s) ch) :: ts) (new ++ mapped s)
    | _ => s
    end
  else s.

Lemma room_few s : Z.of_nat (length (held s)) < 0xFF00 -> room s.
Proof. intros Hl f. unfold refs. pose proof (count_occ_bound Z.eq_dec f (held s)). lia. Qed.

Lemma run_first_step x s : rtc step s (run_first x s).
Proof.
  unfold run_first. destruct (Z.ltb_spec (Z.of_nat (length (held s))) 0xFF00) as [Hl|]; [|done].
  destruct s as [s ts ms]. destruct ts as [|[[|o rest] oks ch] ts]; [done..|]. cbn [tasks st mapped].
  destruct (perform o x (mkTask (o :: rest) oks ch) s) as [[ops new] s'] eqn:E. apply rtc_once.
  apply (step_run s [] o rest oks ch ts ms x ops new s'); [by apply room_few|done].
Qed.
Lemma run_steps k x s : rtc step s (Nat.iter k (run_first x) s).
Proof. induction k as [|k IH]; [done|]. cbn. etrans; [exact IH|apply run_first_step]. Qed.

Definition start_cache : pcache :=
  mkCache small_cow (fun _ => 0) (fun _ => mkVnode true false false 5000 0 0 0) (fun n p => (n + p) mod 256) ∅
    (replicate (Z.to_nat PCACHE_BUCKETS) []) [] 0 (mkStats 0 0 0 0 0) 0.
Definition start : system := mkSystem start_cache [] [].
Definition all_good : outcome := mkOutcome true PAGE_SIZE.
Definition calls (c : call) (s : system) : system := mkSystem (st s) (mkTask (begin c (st s)) [] [] :: tasks s) (mapped s).
Definition unmap_first (s : system) : system :=
  match mapped s with
  | m :: ms => mkSystem (set_owned (st s) (pmm_unref_frame (m_frame m) (owned (st s)))) (tasks s) ms
  | [] => s
  end.

(** One page shared, another mapped and given up: the second can be taken. *)
Definition one_shared : system :=
  unmap_first (Nat.iter 3 (run_first all_good) (calls (Get 7 1 0) (Nat.iter 3 (run_first all_good) (calls (Get 7 0 2) start)))).

Lemma calls_step c s : rtc step s (calls c s).
Proof. apply rtc_once. destruct s. apply step_call. Qed.
Lemma unmap_first_step s : rtc step s (unmap_first s).
Proof. destruct s as [s ts [|m ms]]; [done|]. apply rtc_once. apply (step_unmap s ts [] m ms). Qed.

Lemma one_shared_reached : rtc step start one_shared.
Proof.
  unfold one_shared. etrans; [|apply unmap_first_step]. etrans; [|apply run_steps]. etrans; [|apply calls_step].
  etrans; [|apply run_steps]. apply calls_step.
Qed.

Lemma start_initial : initial start.
Proof. split; try reflexivity; [by intros n|]. split; [apply small_cow_ok|vm_compute; discriminate]. Qed.

Lemma pcache_sound_witness :
  pcache_pages (st one_shared) = 2 /\ shared_cached (nodes (st one_shared) 7) = 1 /\
  let '(k, s', out) := reclaim_locked 5 (st one_shared) in
  k = 1 /\ forall f, f ∈ out -> refs (held one_shared) f = 1.
Proof.
  destruct (pcache_sound start one_shared 5 start_initial one_shared_reached ltac:(lia)) as (_&_&_&_&Hr).
  split; [vm_compute; reflexivity|]. split; [vm_compute; reflexivity|].
  assert (fst (fst (reclaim_locked 5 (st one_shared))) = 1) as Hk by (vm_compute; reflexivity).
  revert Hr Hk. generalize (reclaim_locked 5 (st one_shared)). intros [[k s'] out] (_&_&_&Hr&_) Hk. split; [exact Hk|]. intros f Hf. apply (Hr f Hf).
Defined.
