(* ===== verification/SwapPressure.v ===== *)
(** When pages go: the callers of [swap_out_keeping] in [src/mm/swap.c], which ask the
    page cache first ([pcache_reclaim], [src/mm/pcache.c]). The frames belong to both: the
    sharing table of [vm] is the one the cache counts its references in. A call of
    [pcache_reclaim] is one step, from choosing the entries until their frames are
    given back; [PcacheSystem] takes it apart. *)
From stdpp Require Import base tactics numbers list sets gmap relations.
From Stdlib Require Import ZArith Lia.
From S2P Require Import Prelude Pmm Cow StringLib Pcache PcacheTable PcacheSystem SwapSlots Vmm VmmInv VmmProps VmmSwap Swap.

Open Scope Z_scope.

Record kernel := mkKernel { sw : swapper; cache : pcache }.
Definition set_swap (k : kernel) (st : swapper) : kernel := mkKernel st (cache k).

(** [free_taken]: the cache's reference to each frame. *)
Definition free_taken (out : list Z) (v : vmm) : vmm := fold_left (fun v f => vmm_unref_frame f v) out v.

Definition pcache_reclaim (want : Z) (k : kernel) : Z * kernel :=
  let '(n, s, out) := reclaim_locked want (Pcache.set_owned (cache k) (Vmm.owned (vm (sw k)))) in
  let v := free_taken out (vm (sw k)) in
  (n, mkKernel (with_vm (sw k) v) (Pcache.set_owned s (Vmm.owned v))).

Definition swap_make_room_for_fork (ios : Z -> io) (t : task) (k : kernel) : Z * task * kernel :=
  if SWAP_LOW_FRAMES <=? free_now (sw k) then (0, t, k)
  else
    let '(freed, k) := pcache_reclaim (SWAP_HIGH_FRAMES - free_now (sw k)) k in
    if negb (is_active (sw k)) || (SWAP_LOW_FRAMES <=? free_now (sw k)) then (freed, t, k)
    else if negb (is_user t) then (freed, t, k)
    else let '(n, t, st) := give_pages_up ios t (SWAP_HIGH_FRAMES - free_now (sw k)) (sw k) in (freed + n, t, set_swap k st).

(** Whether to try again, and whether to sleep a tick first. *)
Definition swap_may_retry (ios : Z -> io) (attempt : Z) (t : task) (k : kernel) : bool * bool * task * kernel :=
  if negb (is_active (sw k)) || (FRAME_WAIT_TICKS <=? attempt) then (false, false, t, k)
  else
    let '(freed, k) := pcache_reclaim SWAP_HIGH_FRAMES k in
    if 0 <? freed then (true, false, t, k)
    else let '(n, t, st) := swap_make_room_for_call ios t (sw k) in (true, negb (0 <? n), t, set_swap k st).

Definition swap_relieve_pressure (ios : Z -> io) (t : task) (k : kernel) : task * kernel :=
  if negb (is_active (sw k)) || negb (is_user t) then (t, k)
  else
    let free_frames := free_now (sw k) in
    if SWAP_LOW_FRAMES <=? free_frames then (t, k)
    else
      let '(freed, k) := pcache_reclaim (SWAP_HIGH_FRAMES - free_frames) k in
      let free_frames := if 0 <? freed then free_now (sw k) else free_frames in
      if (0 <? freed) && (SWAP_LOW_FRAMES <=? free_frames) then (t, k)
      else if negb (swap_retry_below t =? 0) && (swap_retry_below t <=? free_frames) then (t, k)
      else
        let want := SWAP_HIGH_FRAMES - free_frames in
        let '(got, t, st) := give_pages_up ios t want (sw k) in
        (set_retry t (if got <? want then free_frames / 2 + 1 else 0), set_swap k st).

(** * Invariant *)

(** A frame of the cache: not a page table, and no device's. *)
Definition cache_frame (pl : gmap Z place) (pg : gmap (Z * Z) location) (st : swapper) (a : Z) : Prop :=
  exists f, a = f * PAGE_SIZE /\ 1 <= f < total_frames (frames (Vmm.owned (vm st))) /\ pl !! (f * PAGE_SIZE + hhdm (vm st)) = None /\
    forall k, pg !! k <> Some (OnDevice f).

(** A frame has an owner for each page in it and for the cache. *)
Record kernel_inv (pl : gmap Z place) (pg : gmap (Z * Z) location) (k : kernel) : Prop := {
  ki_swap : swap_inv pl pg (sw k);
  ki_table : table_ok (cache k);
  ki_frames : forall a, a ∈ cached_frames (cache k) -> cache_frame pl pg (sw k) a;
  ki_owners : forall f, 0 <= f ->
    uses pg (InFrame f) + refs (cached_frames (cache k)) (f * PAGE_SIZE) <= owners (Vmm.owned (vm (sw k))) f }.

(** What a call keeps, beside the invariant: what processes see, and the owners that are
    neither pages nor the cache. *)
Record kept (pl : gmap Z place) (pg pg' : gmap (Z * Z) location) (k k' : kernel) : Prop := {
  ke_inv : kernel_inv pl pg' k';
  ke_shows : shows_same pl (sw k) (sw k');
  ke_kernel : kernel_pml4 (vm (sw k')) = kernel_pml4 (vm (sw k));
  ke_setup : hhdm (vm (sw k')) = hhdm (vm (sw k)) /\ total_frames (frames (Vmm.owned (vm (sw k')))) = total_frames (frames (Vmm.owned (vm (sw k))));
  ke_frames : forall f, 0 <= f ->
    owners (Vmm.owned (vm (sw k'))) f - uses pg' (InFrame f) - refs (cached_frames (cache k')) (f * PAGE_SIZE) =
    owners (Vmm.owned (vm (sw k))) f - uses pg (InFrame f) - refs (cached_frames (cache k)) (f * PAGE_SIZE);
  ke_slots : forall j, 0 <= j -> get (slot_owners (swap_slots (vm (sw k')))) j - uses pg' (InSlot j) =
    get (slot_owners (swap_slots (vm (sw k)))) j - uses pg (InSlot j) }.

Lemma kept_same pl pg k : kernel_inv pl pg k -> kept pl pg pg k k.
Proof. by split. Qed.

Lemma kept_then pl pg pg1 pg2 k k1 k2 : kept pl pg pg1 k k1 -> kept pl pg1 pg2 k1 k2 -> kept pl pg pg2 k k2.
Proof.
  intros [A1 A2 A3 [A4 A5] A6 A7] [B1 B2 B3 [B4 B5] B6 B7]. split; [done|by etransitivity|congruence|split; congruence|..].
  - intros f Hf. by rewrite B6, A6.
  - intros j Hj. by rewrite B7, A7.
Qed.

(** Swapping leaves the cache alone. *)
Lemma carried_kept pl pg pg' k st : kernel_inv pl pg k -> carried pl pg pg' (sw k) st -> kept pl pg pg' k (set_swap k st).
Proof.
  intros [K1 K2 K3 K4] [A1 A2 A3 [A4 A5] A6 A7 A8]. split; cbn [sw cache set_swap]; try done.
  - split; cbn [sw cache set_swap]; try done.
    + intros a Ha. destruct (K3 a Ha) as (f&F1&F2&F3&F4). exists f. rewrite A4, A5. split; [done|]. split; [done|]. split; [done|].
      intros kk E. by apply (F4 kk), A8.
    + intros f Hf. specialize (A6 f Hf). specialize (K4 f Hf). lia.
  - intros f Hf. specialize (A6 f Hf). lia.
Qed.

(** * The page cache gives frames back *)

(** Frames that the cache alone owns. *)
Definition lone (pl : gmap Z place) (pg : gmap (Z * Z) location) (st : swapper) (a : Z) : Prop :=
  cache_frame pl pg st a /\ uses pg (InFrame (a / PAGE_SIZE)) = 0 /\ owners (Vmm.owned (vm st)) (a / PAGE_SIZE) = 1.

Record released (pl : gmap Z place) (pg : gmap (Z * Z) location) (out : list Z) (st st' : swapper) : Prop := {
  re_inv : swap_inv pl pg st';
  re_shows : shows_same pl st st';
  re_kernel : kernel_pml4 (vm st') = kernel_pml4 (vm st) /\ swap_slots (vm st') = swap_slots (vm st);
  re_setup : hhdm (vm st') = hhdm (vm st) /\ total_frames (frames (Vmm.owned (vm st'))) = total_frames (frames (Vmm.owned (vm st)));
  re_owners : forall g, 0 <= g -> owners (Vmm.owned (vm st')) g = owners (Vmm.owned (vm st)) g - refs out (g * PAGE_SIZE);
  re_free : free_now st' = free_now st + Z.of_nat (length out) }.

Lemma release_one pl pg st a : swap_inv pl pg st -> lone pl pg st a -> released pl pg [a] st (with_vm st (vmm_unref_frame a (vm st))).
Proof.
  intros K ((f&->&F1&F2&F3)&L1&L2). rewrite Z.div_mul in L1, L2 by done. pose proof (sw_tables _ _ _ K) as Ht.
  assert (f ∉ abs (frames (Vmm.owned (vm st)))) as Hu by (apply owners_used; lia).
  destruct (unref_frame_spec (Vmm.owned (vm st)) f (tb_cow _ _ Ht) F1 Hu) as (U1&U2&U3&U4).
  pose proof (unref_hhdm (f * PAGE_SIZE) (Vmm.owned (vm st))) as Hh.
  assert (hhdm (vmm_unref_frame (f * PAGE_SIZE) (vm st)) = hhdm (vm st)) as Hv by exact Hh.
  assert (forall k g, pg !! k = Some (InFrame g) \/ pg !! k = Some (OnDevice g) -> g <> f) as Hne.
  { intros k g [E|E] ->; [pose proof (uses_pos pg _ _ E); lia|by apply (F3 k)]. }
  assert (swap_inv pl pg (with_vm st (vmm_unref_frame (f * PAGE_SIZE) (vm st))) /\ shows_same pl st (with_vm st (vmm_unref_frame (f * PAGE_SIZE) (vm st)))) as [B1 B2].
  { apply background; try done; cbn [vm with_vm].
    - by apply unref_tables.
    - intros root x Hr. destruct (table_addr _ _ _ _ Ht Hr). apply pte_ext; [lia|done|done].
    - intros k g E. apply U4; [|by eapply Hne]. by apply (sw_memory _ _ _ K k g E).
    - intros k w off E Hoff. destruct w; cbn [word_at vm]; [| |done]; cbn [vm with_vm]; by rewrite Hv. }
  split; try done.
  - intros g Hg. rewrite refs_cons, (refs_zero []) by set_solver.
    change (Vmm.owned (vm (with_vm st (vmm_unref_frame (f * PAGE_SIZE) (vm st))))) with (pmm_unref_frame (f * PAGE_SIZE) (Vmm.owned (vm st))). destruct (Z.eqb_spec (g * PAGE_SIZE) (f * PAGE_SIZE)) as [E|E].
    + assert (g = f) as -> by (unfold PAGE_SIZE in *; lia). lia.
    + rewrite U4 by congruence. lia.
  - cbn [length]. apply (one_freed _ _ f); try done; [apply Ht|]. etransitivity; [exact U3|lia].
Qed.

Lemma released_then pl pg out out' st st1 st2 : released pl pg out st st1 -> released pl pg out' st1 st2 -> released pl pg (out ++ out') st st2.
Proof.
  intros [A1 A2 [A3 A4] [A5 A6] A7 A8] [B1 B2 [B3 B4] [B5 B6] B7 B8]. split; [done|by etransitivity|split; congruence|split; congruence|..].
  - intros g Hg. rewrite B7, A7, refs_app_sum by done. lia.
  - rewrite length_app. lia.
Qed.

Lemma free_taken_ok pl pg out : NoDup out -> forall st, swap_inv pl pg st -> (forall a, a ∈ out -> lone pl pg st a) ->
  released pl pg out st (with_vm st (free_taken out (vm st))).
Proof.
  induction 1 as [|a out Ha Hn IH]; intros st K Hl.
  { unfold free_taken. cbn [fold_left]. replace (with_vm st (vm st)) with st by (by destruct st).
    split; try done; [intros g Hg; rewrite refs_zero by set_solver; lia|cbn; lia]. }
  pose proof (release_one pl pg st a K (Hl a ltac:(set_solver))) as R1. eapply (released_then _ _ [a]); [exact R1|].
  apply (IH (with_vm st (vmm_unref_frame a (vm st)))); [exact (re_inv _ _ _ _ _ R1)|]. intros b Hb.
  destruct (Hl b ltac:(set_solver)) as ((f&->&F1&F2&F3)&L1&L2). destruct (re_setup _ _ _ _ _ R1) as [Rh Rt]. rewrite Z.div_mul in * by done.
  split; [|split]; rewrite ?Z.div_mul by done.
  - exists f. rewrite Rh, Rt. done.
  - done.
  - rewrite (re_owners _ _ _ _ _ R1), refs_zero by (lia || (intros E%list_elem_of_singleton; by rewrite E in Hb)). lia.
Qed.

Lemma pcache_reclaim_ok pl pg k want : kernel_inv pl pg k ->
  let '(n, k') := pcache_reclaim want k in kept pl pg pg k k' /\ 0 <= n /\ free_now (sw k') = free_now (sw k) + n.
Proof.
  intros [K1 K2 K3 K4]. unfold pcache_reclaim. set (s := Pcache.set_owned _ _).
  destruct (reclaim_ok want s (table_owned _ _ K2)) as (n&s'&out&gone&->&Hg&->&->&Hgone). set (out := reverse (frame_at s <$> gone)).
  assert (cached_frames (cache k) ≡ₚ out ++ cached_frames s') as Hp.
  { change (cached_frames (cache k)) with (cached_frames s). unfold out. rewrite (reverse_Permutation (frame_at s <$> gone)). apply (gf_frames _ _ _ Hg). }
  assert (NoDup out) as Hn by (pose proof (tb_frames _ K2) as Hn; rewrite Hp in Hn; by apply NoDup_app in Hn as [? _]).
  assert (forall a, a ∈ out -> lone pl pg (sw k) a) as Hl.
  { intros a Ha. assert (a ∈ cached_frames (cache k)) as Hc by (rewrite Hp; apply elem_of_app; by left). destruct (K3 a Hc) as (f&->&F1&F2&F3).
    pose proof (K4 f ltac:(lia)) as Ho. pose proof (refs_pos _ _ Hc). unfold lone. rewrite Z.div_mul by done.
    assert (0 <= uses pg (InFrame f)) by (unfold uses; lia).
    assert (owners (Vmm.owned (vm (sw k))) f = 1) as H1; [|split; [by exists f|split; [lia|done]]].
    rewrite <- (frame_ref_owners (vm (sw k)) pl f (sw_tables _ _ _ K1) F1) by (apply owners_used; lia).
    apply elem_of_reverse, list_elem_of_fmap in Ha as (b&Hb&Hin). rewrite Hgone in Hin.
    assert (b ∈ filter (fun a => evictable s a = true) (use s)) as [Hev _]%list_elem_of_filter.
    { rewrite <- (take_drop (Z.to_nat want)). apply elem_of_app. by left. }
    unfold evictable in Hev. unfold frame_at in Hb. destruct (entries s !! b) as [e|]; [|done]. cbn in Hb. rewrite Hb.
    apply andb_true_iff in Hev as [Hev%Z.eqb_eq _]. exact Hev. }
  pose proof (free_taken_ok pl pg out Hn (sw k) K1 Hl) as [R1 R2 [R3 R4] [R5 R6] R7 R8].
  assert (length out = length gone) as Hlen by (unfold out; by rewrite length_reverse, length_fmap). rewrite Hlen in R8.
  assert (forall f, refs (cached_frames (cache k)) f = refs out f + refs (cached_frames s') f) as Hr by (intros f; by rewrite (refs_perm _ _ f Hp), refs_app_sum).
  split; [|split; [lia|exact R8]]. split; cbn [sw cache]; try done.
  - split; cbn [sw cache]; [done|by apply table_owned, Hg|..].
    + intros a Ha. destruct (K3 a) as (f&F1&F2&F3&F4); [rewrite Hp; apply elem_of_app; by right|]. exists f. by rewrite R5, R6.
    + intros f Hf. specialize (K4 f Hf). rewrite Hr in K4. rewrite R7 by done. change (cached_frames (Pcache.set_owned s' _)) with (cached_frames s'). lia.
  - intros f Hf. rewrite R7, Hr by done. change (cached_frames (Pcache.set_owned s' _)) with (cached_frames s'). lia.
  - intros j Hj. by rewrite R4.
Qed.

(** * Whole calls *)

Lemma task_kept pl pg pg' t k k' : kept pl pg pg' k k' -> task_ok pl t (sw k) -> task_ok pl t (sw k').
Proof. intros K (T1&T2&T3). unfold task_ok, vmm_space_from_phys in *. by rewrite (ke_kernel _ _ _ _ _ K), (proj1 (ke_setup _ _ _ _ _ K)). Qed.

(** A call that made [n] frames free. *)
Definition made_room (pl : gmap Z place) (pg : gmap (Z * Z) location) (k : kernel) (n : Z) (k' : kernel) : Prop :=
  (exists pg', kept pl pg pg' k k') /\ 0 <= n /\ free_now (sw k') = free_now (sw k) + n.

Lemma room_nothing pl pg k : kernel_inv pl pg k -> made_room pl pg k 0 k.
Proof. intros K. split; [|lia]. exists pg. by apply kept_same. Qed.

Lemma room_then pl pg pg1 k k1 k2 n m : kept pl pg pg1 k k1 -> 0 <= n -> free_now (sw k1) = free_now (sw k) + n -> made_room pl pg1 k1 m k2 ->
  made_room pl pg k (n + m) k2.
Proof. intros K Hn Hf ((pg2&K2)&Hm&Hf2). split; [|lia]. exists pg2. by eapply kept_then. Qed.

Lemma room_given pl pg ios t want k : kernel_inv pl pg k -> task_ok pl t (sw k) ->
  let '(n, _, st) := give_pages_up ios t want (sw k) in made_room pl pg k n (set_swap k st).
Proof.
  intros K T. pose proof (give_pages_up_ok pl pg ios t want (sw k) (ki_swap _ _ _ K) T) as HG. destruct (give_pages_up _ _ _ _) as [[n t'] st].
  destruct HG as ((pg'&xs&C&W&->)&_). split; [exists pg'; by apply carried_kept|]. split; [lia|]. apply (wo_free _ _ _ _ _ _ W).
Qed.

Lemma room_for_call pl pg ios t k : kernel_inv pl pg k -> task_ok pl t (sw k) ->
  let '(n, _, st) := swap_make_room_for_call ios t (sw k) in made_room pl pg k n (set_swap k st).
Proof.
  intros K T. unfold swap_make_room_for_call. destruct (_ || _); [|by apply room_given].
  replace (set_swap k (sw k)) with k by (by destruct k). by apply room_nothing.
Qed.

(** After the page cache was asked. *)
Lemma room_reclaimed pl pg t want k : kernel_inv pl pg k -> task_ok pl t (sw k) ->
  let '(freed, k1) := pcache_reclaim want k in
  kernel_inv pl pg k1 /\ task_ok pl t (sw k1) /\ made_room pl pg k freed k1 /\
  forall n k2, made_room pl pg k1 n k2 -> made_room pl pg k (freed + n) k2.
Proof.
  intros K T. pose proof (pcache_reclaim_ok pl pg k want K) as HR. destruct (pcache_reclaim want k) as [freed k1]. destruct HR as (R1&R2&R3).
  split; [apply (ke_inv _ _ _ _ _ R1)|]. split; [by eapply task_kept|]. split; [split; [by exists pg|done]|]. intros n k2. by eapply room_then.
Qed.

Lemma room_for_fork pl pg ios t k : kernel_inv pl pg k -> task_ok pl t (sw k) ->
  let '(n, _, k') := swap_make_room_for_fork ios t k in made_room pl pg k n k'.
Proof.
  intros K T. unfold swap_make_room_for_fork. destruct (_ <=? _); [by apply room_nothing|].
  pose proof (room_reclaimed pl pg t (SWAP_HIGH_FRAMES - free_now (sw k)) k K T) as HR. destruct (pcache_reclaim _ k) as [freed k1].
  destruct HR as (K1&T1&R1&R2). destruct (_ || _); [done|]. destruct (negb _); [done|].
  pose proof (room_given pl pg ios t (SWAP_HIGH_FRAMES - free_now (sw k1)) k1 K1 T1) as HG. destruct (give_pages_up _ _ _ _) as [[n t'] st]. by apply R2.
Qed.

Lemma room_to_retry pl pg ios attempt t k : kernel_inv pl pg k -> task_ok pl t (sw k) ->
  exists n, made_room pl pg k n (swap_may_retry ios attempt t k).2.
Proof.
  intros K T. unfold swap_may_retry. destruct (_ || _); [exists 0; by apply room_nothing|].
  pose proof (room_reclaimed pl pg t SWAP_HIGH_FRAMES k K T) as HR. destruct (pcache_reclaim _ k) as [freed k1].
  destruct HR as (K1&T1&R1&R2). destruct (0 <? freed); [by exists freed|].
  pose proof (room_for_call pl pg ios t k1 K1 T1) as HG. destruct (swap_make_room_for_call _ _ _) as [[n t'] st]. exists (freed + n). by apply R2.
Qed.

Lemma room_to_relieve pl pg ios t k : kernel_inv pl pg k -> task_ok pl t (sw k) ->
  exists n, made_room pl pg k n (swap_relieve_pressure ios t k).2.
Proof.
  intros K T. unfold swap_relieve_pressure. destruct (_ || _); [exists 0; by apply room_nothing|]. cbn zeta.
  destruct (_ <=? _); [exists 0; by apply room_nothing|].
  pose proof (room_reclaimed pl pg t (SWAP_HIGH_FRAMES - free_now (sw k)) k K T) as HR. destruct (pcache_reclaim _ k) as [freed k1].
  destruct HR as (K1&T1&R1&R2). destruct (_ && _); [by exists freed|]. destruct (_ && _); [by exists freed|].
  match goal with |- context [give_pages_up ios t ?w (sw k1)] => pose proof (room_given pl pg ios t w k1 K1 T1) as HG; destruct (give_pages_up ios t w (sw k1)) as [[n t'] st] end.
  exists (freed + n). by apply R2.
Qed.

(** What processes and the kernel ask for, in any order. *)
Inductive swap_step (pl : gmap Z place) : kernel -> kernel -> Prop :=
| step_out ios root cursor want keep k : is_root pl root -> root <> kernel_pml4 (vm (sw k)) -> 0 <= cursor < 0x10000000000000000 ->
    swap_step pl k (set_swap k (swap_out_keeping ios root cursor want keep (sw k)).2)
| step_in before r root x k : is_root pl root -> 0 <= x < USER_SPACE_END -> swap_step pl k (set_swap k (swap_in before r root x (sw k)).2)
| step_fork ios t k : task_ok pl t (sw k) -> swap_step pl k (swap_make_room_for_fork ios t k).2
| step_call ios t k : task_ok pl t (sw k) -> swap_step pl k (set_swap k (swap_make_room_for_call ios t (sw k)).2)
| step_retry ios attempt t k : task_ok pl t (sw k) -> swap_step pl k (swap_may_retry ios attempt t k).2
| step_relieve ios t k : task_ok pl t (sw k) -> swap_step pl k (swap_relieve_pressure ios t k).2.

Lemma swap_step_ok pl pg k k' : kernel_inv pl pg k -> swap_step pl k k' -> exists pg', kept pl pg pg' k k'.
Proof.
  intros K Hst. destruct Hst as [ios root cursor want keep k Hr Hk Hc|before r root x k Hr Hx|ios t k T|ios t k T|ios attempt t k T|ios t k T].
  - pose proof (swap_out_ok pl pg ios root cursor want keep (sw k) (ki_swap _ _ _ K) Hr Hk Hc) as HO. destruct (swap_out_keeping _ _ _ _ _ _) as [[n c] st].
    destruct HO as ((pg'&xs&C&_)&_). exists pg'. by apply carried_kept.
  - pose proof (swap_in_ok pl pg (sw k) before r root x (ki_swap _ _ _ K) Hr Hx) as HI. destruct (swap_in _ _ _ _ _) as [res st].
    destruct HI as (pg'&C&_). exists pg'. by apply carried_kept.
  - pose proof (room_for_fork pl pg ios t k K T) as HF. destruct (swap_make_room_for_fork _ _ _) as [[n t'] k']. apply HF.
  - pose proof (room_for_call pl pg ios t k K T) as HF. destruct (swap_make_room_for_call _ _ _) as [[n t'] st]. apply HF.
  - destruct (room_to_retry pl pg ios attempt t k K T) as [n HF]. apply HF.
  - destruct (room_to_relieve pl pg ios t k K T) as [n HF]. apply HF.
Qed.

Lemma swap_run pl pg k k' : kernel_inv pl pg k -> rtc (swap_step pl) k k' -> exists pg', kept pl pg pg' k k'.
Proof.
  intros K Hrun. revert pg K. induction Hrun as [k|k1 k2 k3 H12 _ IH]; intros pg K; [exists pg; by apply kept_same|].
  destruct (swap_step_ok pl pg k1 k2 K H12) as [pg2 K2]. destruct (IH pg2 (ke_inv _ _ _ _ _ K2)) as [pg3 K3]. exists pg3. by eapply kept_then.
Qed.

(** The pages [xs] of [root] went from memory to the disk, those of no other address
    moved, and as many frames became free. *)
Definition pages_went (pl : gmap Z place) (root : Z) (xs : list Z) (st st' : swapper) : Prop :=
  NoDup xs /\
  (forall x, x ∈ xs -> 0 <= x < USER_SPACE_END /\ x mod PAGE_SIZE = 0 /\
     exists f j, where_is (vmm_get_pte (vm st) root x) = Some (InFrame f) /\ where_is (vmm_get_pte (vm st') root x) = Some (InSlot j)) /\
  (forall r x, is_root pl r -> 0 <= x < USER_SPACE_END -> x mod PAGE_SIZE = 0 -> r <> root \/ x ∉ xs ->
     where_is (vmm_get_pte (vm st') r x) = where_is (vmm_get_pte (vm st) r x)) /\
  free_now st' = free_now st + Z.of_nat (length xs) /\ u64 (pages_out st') = u64 (pages_out st + Z.of_nat (length xs)).

Lemma went_pages pl pg pg' root xs st st' : swap_inv pl pg st -> swap_inv pl pg' st' -> is_root pl root ->
  went_out root xs pg pg' st st' -> pages_went pl root xs st st'.
Proof.
  intros K K' Hr [A1 A2 A3 A4 A5]. split; [done|]. split; [|split; [|done]].
  - intros x Hx. destruct (A2 x Hx) as (X1&X2&f&j&X3&X4). split; [done|]. split; [done|]. exists f, j.
    by rewrite (sw_map _ _ _ K), (sw_map _ _ _ K').
  - intros r x Hr' Hx Hxa Hne. rewrite (sw_map _ _ _ K), (sw_map _ _ _ K') by done. by apply A3.
Qed.

(** * Properties *)

(** C5. Swapping is transparent: after any sequence of pages going out (asked for, or
    because memory is short, when the page cache gives frames back first) and coming back, with
    disk transfers that may fail, every page of every address space has the contents and
    rights it had, and each frame and slot has the owners it had beside the pages in it
    and the page cache, one for each of these. [swap_in] moves no other page, reports success only if the page is
    no longer out, and failure only for a failed transfer or if no frame is free.
    What [swap_out_keeping] returns is how many pages of the address space went: they were in
    memory and are on the disk, no other page moved, and as many frames became free; it is less than was asked for only
    for a failed transfer, a full disk, or when no page is left that may go. What the
    calls that make room return is how many frames they made free. *)
Theorem swap_transparent pl pg k k' :
  kernel_inv pl pg k -> rtc (swap_step pl) k k' ->
  shows_same pl (sw k) (sw k') /\ (exists pg', kept pl pg pg' k k') /\
  (forall before r root x, is_root pl root -> 0 <= x < USER_SPACE_END ->
     let '(res, st2) := swap_in before r root x (sw k') in
     (forall root' x', is_root pl root' -> 0 <= x' < USER_SPACE_END -> x' mod PAGE_SIZE = 0 -> (root', x') <> (root, page_of x) ->
        where_is (vmm_get_pte (vm st2) root' x') = where_is (vmm_get_pte (vm (sw k')) root' x')) /\
     ((res = 0 /\ vmm_pte_swapped (vmm_get_pte before root (page_of x)) = false) \/
      (res = 1 /\ vmm_pte_swapped (vmm_get_pte (vm st2) root (page_of x)) = false) \/
      (res = -1 /\ (io_ok r = false \/ abs (frames (Vmm.owned (vm (sw k')))) = ∅)))) /\
  (forall ios root cursor want keep, is_root pl root -> root <> kernel_pml4 (vm (sw k')) -> 0 <= cursor < 0x10000000000000000 ->
     let '(n, _, st2) := swap_out_keeping ios root cursor want keep (sw k') in
     (exists xs, pages_went pl root xs (sw k') st2 /\ n = Z.of_nat (length xs)) /\ n <= Z.max 0 want /\
     (n < want -> (forall i, io_ok (ios i) = true) -> nothing_goes root keep st2)) /\
  (forall ios t, task_ok pl t (sw k') ->
     (let '(n, _, k2) := swap_make_room_for_fork ios t k' in free_now (sw k2) = free_now (sw k') + n) /\
     (let '(n, _, st2) := swap_make_room_for_call ios t (sw k') in free_now st2 = free_now (sw k') + n)).
Proof.
  intros K Hrun. destruct (swap_run pl pg k k' K Hrun) as [pg' K']. pose proof (ke_inv _ _ _ _ _ K') as Ki. pose proof (ki_swap _ _ _ Ki) as Ks.
  split; [apply (ke_shows _ _ _ _ _ K')|]. split; [by exists pg'|]. split; [|split].
  - intros before r root x Hr Hx. pose proof (swap_in_ok pl pg' (sw k') before r root x Ks Hr Hx) as HI.
    destruct (swap_in _ _ _ _ _) as [res st2]. destruct HI as (pg2&C&Ho&HI). split; [|done].
    intros root' x' Hr' Hx' Hxa' Hne. rewrite (sw_map _ _ _ (ca_inv _ _ _ _ _ C)), (sw_map _ _ _ Ks) by done. by apply Ho.
  - intros ios root cursor want keep Hr Hk Hc. pose proof (swap_out_ok pl pg' ios root cursor want keep (sw k') Ks Hr Hk Hc) as HO.
    destruct (swap_out_keeping _ _ _ _ _ _) as [[n c] st2]. destruct HO as ((pg2&xs&C&W&Hn)&_&H1&H2). split; [|done]. exists xs. split; [|done].
    eapply went_pages; [exact Ks|apply (ca_inv _ _ _ _ _ C)|done|exact W].
  - intros ios t T. split.
    + pose proof (room_for_fork pl pg' ios t k' Ki T) as HF. destruct (swap_make_room_for_fork _ _ _) as [[n t'] k2]. apply HF.
    + pose proof (room_for_call pl pg' ios t k' Ki T) as HF. destruct (swap_make_room_for_call _ _ _) as [[n t'] st2]. apply HF.
Qed.

(** ** Example: one page cached, one mapped *)

(** A file's page was read into the cache, on the machine of [VmmSwap], and is mapped
    nowhere any more. *)
Definition example_cache : pcache :=
  PcacheSystem.st (unmap_first (Nat.iter 3 (run_first all_good) (calls (Get 7 1 0) (mkSystem (Pcache.set_owned start_cache four_taken) [] [])))).
Definition example_kernel : kernel := mkKernel (with_vm example_st (snd (vmm_alloc_frame page_vmm))) example_cache.

Lemma example_table : table_ok example_cache.
Proof.
  apply in_table. apply (rtc_invariant step _ (mkSystem (Pcache.set_owned start_cache four_taken) [] [])); [apply step_inv|apply fresh_cache_inv|].
  - split; try reflexivity; [by intros n|]. split; [apply four_taken_ok|vm_compute; discriminate].
  - etrans; [|apply unmap_first_step]. etrans; [|apply run_steps]. apply calls_step.
Qed.

Lemma example_kernel_inv : kernel_inv page_places {[(tab 2, 0x400000) := InFrame 1]} example_kernel.
Proof.
  assert (cached_frames example_cache = [6 * PAGE_SIZE]) as Hc by (vm_compute; reflexivity).
  pose proof (alloc_tables page_vmm page_places page_tables) as HA. pose proof (alloc_owners page_vmm page_places page_tables) as HO.
  assert (fst (vmm_alloc_frame page_vmm) = 6 * PAGE_SIZE) as Hf by (vm_compute; reflexivity).
  unfold example_kernel. destruct (vmm_alloc_frame page_vmm) as [frame v] eqn:E. cbn [fst] in Hf. subst frame.
  destruct HA as (T1&(Hh&Hk&Htot&Hsl&_)&_&Hram&_). destruct (HO ltac:(done)) as (f&Hf&_&Hin&O1&O2). assert (f = 6) as -> by (unfold PAGE_SIZE in *; lia). clear HO Hf.
  assert (forall root x, is_root page_places root -> vmm_get_pte v root x = vmm_get_pte page_vmm root x) as Hp.
  { intros root x Hr. destruct (table_addr _ _ _ _ page_tables Hr). apply pte_ext; [lia|done|done]. }
  assert (swap_inv page_places {[(tab 2, 0x400000) := InFrame 1]} (with_vm example_st v)) as K.
  { refine (proj1 (background page_places _ example_st (with_vm example_st v) example_swap_inv T1 Hsl _ (conj Hh Htot) Hp _ _)); cbn [vm with_vm].
    - intros t p i _ _ _. unfold entry. by rewrite Hram.
    - intros k f [[_ [= <-]]%lookup_singleton_Some|[_ [=]]%lookup_singleton_Some]. by apply O2.
    - intros k w off _ _. destruct w; cbn [word_at vm with_vm]; by rewrite ?Hh, ?Hram. }
  split; cbn [sw cache vm with_vm snd]; rewrite ?Hc; [done|exact example_table|..].
  - intros a ->%list_elem_of_singleton. exists 6. cbn [vm with_vm]. rewrite Hh, Htot. split; [done|]. split; [vm_compute; intuition congruence|].
    split; [vm_compute; reflexivity|]. intros k [_ [=]]%lookup_singleton_Some.
  - intros f Hf. pose proof (sw_owners _ _ _ K f Hf) as Ho. cbn [vm with_vm] in Ho. rewrite refs_cons. change (refs [] (f * PAGE_SIZE)) with 0.
    destruct (Z.eqb_spec (f * PAGE_SIZE) (6 * PAGE_SIZE)) as [E6|]; [|lia]. assert (f = 6) as -> by (unfold PAGE_SIZE in *; lia).
    rewrite O1. vm_compute. congruence.
Qed.

Notation example_task := (mkTask true false 0x2000 (Some []) 0 0).
Notation example_forked := (swap_make_room_for_fork (fun _ => good_io) example_task example_kernel).

(** Both frames become free; the mapped page is on the disk, and looks the same. *)
Lemma swap_transparent_witness :
  example_forked.1.1 = 2 /\ vmm_pte_swapped (vmm_get_pte (vm (sw example_forked.2)) (tab 2) 0x400000) = true /\
  shows_same page_places (sw example_kernel) (sw example_forked.2).
Proof.
  split; [vm_compute; reflexivity|]. split; [vm_compute; reflexivity|].
  refine (proj1 (swap_transparent page_places _ example_kernel example_forked.2 example_kernel_inv _)).
  apply rtc_once. apply (step_fork page_places (fun _ => good_io) example_task example_kernel).
  split; [vm_compute; reflexivity|]. split; [vm_compute; discriminate|]. vm_compute. split; [discriminate|reflexivity].
Defined.
