(* ===== verification/PcacheCoherent.v ===== *)
(** What the page cache promises: files read the same through [read], through private
    and shared mappings, and on disk once nothing is dirty. The promise is kept as
    long as calls that change one file follow each other ([fits] says what that
    means part by part). *)
From stdpp Require Import base tactics numbers list sets gmap relations.
From Stdlib Require Import ZArith Lia.
From S2P Require Import Prelude Pmm Cow StringLib Pcache PcacheTable PcacheSystem.

Open Scope Z_scope.

(** * Changes under way *)

(** A write about to reach the file, one that has reached it but not the cached
    pages, a truncation likewise. *)
Inductive change :=
| Opened (n offset len : Z) (page : option Z)
| Writing (n offset buf len : Z) (page : option Z) (bumped : bool)
| Cutting (n sz : Z) (bumped : bool).

Definition ch_node (c : change) : Z :=
  match c with Opened n _ _ _ | Writing n _ _ _ _ _ | Cutting n _ _ => n end.

Definition change_of (l : list op) : option change :=
  match l with
  | Gap n offset _ len (Some frame) :: _ => Some (Opened n offset len (Some frame))
  | Content n offset _ len page :: _ => Some (Opened n offset len page)
  | Bump _ :: Written n offset buf len page :: _ => Some (Writing n offset buf len page false)
  | Written n offset buf len page :: _ => Some (Writing n offset buf len page true)
  | Bump _ :: Truncated n sz :: _ => Some (Cutting n sz false)
  | Truncated n sz :: _ => Some (Cutting n sz true)
  | _ => None
  end.
Definition changes (ts : list task) : list change := omap (change_of ∘ todo) ts.

(** Bytes a [write] has not brought to the cached pages yet. *)
Definition pending (chs : list change) (n p : Z) : Prop :=
  exists offset buf len b, Writing n offset buf len None b ∈ chs /\ offset <= p < offset + len.
Definition cutting (chs : list change) (n : Z) : Prop := exists sz b, Cutting n sz b ∈ chs.
(** Bytes that changed in the file while its generation has not. *)
Definition unbumped (chs : list change) (n p : Z) : Prop :=
  (exists offset buf len page, Writing n offset buf len page false ∈ chs /\ offset <= p < offset + len) \/
  (exists sz, Cutting n sz false ∈ chs /\ sz <= p).

(** * Coherence *)

Definition byte (s : pcache) (frame o : Z) : Z := mem s (view s frame + o).
Definition place (e : pcache_entry) (o : Z) : Z := e_index e * PAGE_SIZE + o.

(** [told] is what each file was told to hold; [puts] are the pages read and not yet
    in the cache, with the generation noted before; the frames in [safe] are dirty
    but hold what the file does. *)
Record coherent (s : pcache) (told : Z -> Z -> Z) (chs : list change) (puts : Z -> Z -> Z -> Z -> Prop) (safe : Z -> Prop) : Prop := {
  co_told : forall a e o, entries s !! a = Some e -> 0 <= o < PAGE_SIZE -> place e o < size (nodes s (e_node e)) ->
    ~ pending chs (e_node e) (place e o) -> byte s (e_frame e) o = told (e_node e) (place e o);
  co_buffer : forall n offset buf len b p, Writing n offset buf len None b ∈ chs -> offset <= p < offset + len ->
    mem s (buf + (p - offset)) = told n p;
  co_content : forall n p, 0 <= p < size (nodes s n) ->
    (forall a e, entries s !! a = Some e -> e_node e = n -> e_index e = p / PAGE_SIZE -> e_dirty e = true -> safe (e_frame e)) ->
    content s n p = told n p;
  co_zero : forall a e o, entries s !! a = Some e -> e_shared e = false -> 0 <= o < PAGE_SIZE -> size (nodes s (e_node e)) <= place e o ->
    ~ cutting chs (e_node e) -> byte s (e_frame e) o = 0;
  co_within : forall a e, entries s !! a = Some e -> e_shared e = true -> ~ cutting chs (e_node e) -> place e 0 < size (nodes s (e_node e));
  co_gap : forall n offset len page a e o, Opened n offset len page ∈ chs -> entries s !! a = Some e -> e_node e = n -> e_shared e = true ->
    0 <= o < PAGE_SIZE -> size (nodes s n) <= place e o < offset -> byte s (e_frame e) o = 0;
  co_put : forall n i g f o, puts n i g f -> g = cache_generation (nodes s n) -> 0 <= o < PAGE_SIZE -> ~ unbumped chs n (i * PAGE_SIZE + o) ->
    byte s f o = if i * PAGE_SIZE + o <? size (nodes s n) then content s n (i * PAGE_SIZE + o) else 0
}.

(** * What the tasks look like *)

Definition outside (s : pcache) (buf len : Z) : Prop :=
  0 <= buf /\ buf + len < 0x10000000000000000 /\
  (buf + len <= hhdm_off (frames (owned s)) \/ hhdm_off (frames (owned s)) + total_frames (frames (owned s)) * PAGE_SIZE <= buf).

Definition in_range (offset len : Z) : Prop := 0 <= offset /\ 0 < len /\ offset + len < 0x8000000000000000.
Definition good_page (s : pcache) (n i : Z) : Prop := pcache_cacheable s n = true /\ 0 <= i /\ i * PAGE_SIZE + PAGE_SIZE < 0x10000000000000000.

(** The arguments of the parts. *)
Definition good_op (s : pcache) (o : op) : Prop :=
  match o with
  | Look n i shared _ | Read n i shared _ _ _ | Put n i shared _ _ _ _ => good_page s n i /\ 0 <= shared <= 2
  | Gap n offset buf len None | Content n offset buf len None | Written n offset buf len None => in_range offset len /\ outside s buf len
  | Cut _ sz => 0 <= sz
  | _ => True
  end.

Definition page_op (n : Z) (p : Z * Z) : op := Write_page n (fst p) (snd p).

(** What a writeback does before the next page of its batch, having decided about
    [k] of them: nothing, a page is on its way, or leftovers of the one before. *)
Inductive underway (s : pcache) (n : Z) (batch : list (Z * Z)) (k : nat) : list op -> nat -> Prop :=
| under_none : underway s n batch k [] k
| under_gap i f len : batch !! k = Some (i, f) -> page_range n i s = Some (i * PAGE_SIZE, len) ->
    underway s n batch k [Gap n (i * PAGE_SIZE) (view s f) len (Some f)] (S k)
| under_content i f len : batch !! k = Some (i, f) -> page_range n i s = Some (i * PAGE_SIZE, len) ->
    underway s n batch k [Content n (i * PAGE_SIZE) (view s f) len (Some f)] (S k)
| under_bump i f len j : k = S j -> batch !! j = Some (i, f) -> 0 < len <= PAGE_SIZE -> i * PAGE_SIZE + len <= size (nodes s n) ->
    underway s n batch k [Bump n; Written n (i * PAGE_SIZE) (view s f) len (Some f)] k
| under_written i f len j : k = S j -> batch !! j = Some (i, f) -> 0 < len <= PAGE_SIZE -> i * PAGE_SIZE + len <= size (nodes s n) ->
    underway s n batch k [Written n (i * PAGE_SIZE) (view s f) len (Some f)] k
| under_release l : underway s n batch k (Release <$> l) k.

Definition writes_back (s : pcache) (t : task) (n last : Z) (batch : list (Z * Z)) : Prop :=
  exists pre k, underway s n batch (length (written t)) pre k /\ todo t = pre ++ (page_op n <$> drop k batch) ++ [Clean n last batch].

(** Other tasks have parts to do that change no file, then perhaps one that begins a
    change or a writeback; or a change is under way. *)
Definition quiet (o : op) : Prop :=
  match o with
  | Look _ _ _ _ | Read _ _ _ _ _ _ | Put _ _ _ _ _ _ _ | Bump _ | Count | Dropped _ | Reclaim _ | Release _ | Free _ => True
  | _ => False
  end.
Definition opening (o : op) : Prop := match o with Gap _ _ _ _ None | Cut _ _ | Collect _ _ _ => True | _ => False end.

Inductive shaped (s : pcache) (t : task) : Prop :=
| shape_quiet l : todo t = l -> Forall quiet l -> shaped s t
| shape_opening l o : todo t = l ++ [o] -> Forall quiet l -> opening o -> shaped s t
| shape_content n offset buf len : todo t = [Content n offset buf len None] -> shaped s t
| shape_bump_written n offset buf len : todo t = [Bump n; Written n offset buf len None] -> shaped s t
| shape_written n offset buf len : todo t = [Written n offset buf len None] -> shaped s t
| shape_bump_truncated n sz : todo t = [Bump n; Truncated n sz] -> shaped s t
| shape_truncated n sz : todo t = [Truncated n sz] -> shaped s t
| shape_back n last batch : writes_back s t n last batch -> shaped s t.

(** A page of a batch in the cache, as it was collected. *)
Definition dirty_page (s : pcache) (n : Z) (p : Z * Z) : Prop :=
  exists a e, entries s !! a = Some e /\ e_node e = n /\ e_index e = fst p /\ e_frame e = snd p /\ e_dirty e = true.

(** The direct map. *)
Definition mem_ok (s : pcache) : Prop :=
  0 <= hhdm_off (frames (owned s)) /\ hhdm_off (frames (owned s)) + total_frames (frames (owned s)) * PAGE_SIZE < 0x10000000000000000.

(** One task, beside the changes [chs] and the mappings [ms]: a page it has written
    back holds what was written still, or is mapped. *)
Record task_tidy (s : pcache) (chs : list change) (ms : list mapping) (t : task) : Prop := {
  tt_ops : forall o, o ∈ todo t -> good_op s o;
  tt_shape : shaped s t;
  tt_batch : forall n last batch p, Clean n last batch ∈ todo t -> p ∈ batch -> dirty_page s n p;
  tt_apart : forall n last batch, Clean n last batch ∈ todo t -> ~ cutting chs n;
  tt_late : forall n last batch k p, Clean n last batch ∈ todo t -> batch !! k = Some p -> written t !! k = Some true ->
    snd p ∈ saved t \/ snd p ∈ m_frame <$> ms
}.

Definition matches (m : mapping) (e : pcache_entry) : Prop := e_node e = m_node m /\ e_index e = m_index m /\ (m_kind m = 2 -> e_dirty e = true).

Record tidy (s : system) : Prop := {
  td_mem : mem_ok (st s);
  td_page : forall a e, entries (st s) !! a = Some e -> good_page (st s) (e_node e) (e_index e);
  td_size : forall n, 0 <= size (nodes (st s) n) < 0x8000000000000000;
  td_task : forall t, t ∈ tasks s -> task_tidy (st s) (changes (tasks s)) (mapped s) t;
  td_unique : NoDup (ch_node <$> changes (tasks s));
  td_within : forall n offset buf len page b, Writing n offset buf len page b ∈ changes (tasks s) -> offset + len <= size (nodes (st s) n);
  td_cut : forall n sz b, Cutting n sz b ∈ changes (tasks s) -> sz = size (nodes (st s) n);
  td_map : forall m a e, m ∈ mapped s -> entries (st s) !! a = Some e -> e_frame e = m_frame m -> matches m e
}.

Definition putting (s : system) (n i g f : Z) : Prop :=
  exists t shared tries memory, t ∈ tasks s /\ Put n i shared tries g f memory ∈ todo t.
Definition safe (s : system) (f : Z) : Prop :=
  exists t n last batch, t ∈ tasks s /\ Clean n last batch ∈ todo t /\ f ∈ snd <$> batch /\ f ∈ saved t.

(** * The order that is kept *)

Record world := mkWorld { sys : system; told : Z -> Z -> Z }.

Definition concerns (n : Z) (o : op) : Prop :=
  match o with
  | Look n' _ _ _ | Read n' _ _ _ _ _ | Put n' _ _ _ _ _ _ | Gap n' _ _ _ _ | Content n' _ _ _ _ | Bump n' | Written n' _ _ _ _
  | Cut n' _ | Truncated n' _ | Dropped n' | Collect n' _ _ | Write_page n' _ _ | Clean n' _ _ => n' = n
  | _ => False
  end.

(** What the parts of calls on one file ask of the rest ([ts]):
    - a shared mapping is only made of a page before the end of the file;
    - reads of the file system do not fail;
    - a change of a file begins when no other is under way;
    - a file is not cut while it is written back, nor the other way round;
    - while a page that was read waits to be entered, its file does not change 2^32 times;
    - a file is removed when nobody uses it. *)
Definition fits (s : pcache) (ts : list task) (ms : list mapping) (o : op) (x : outcome) : Prop :=
  match o with
  | Look n i shared _ | Put n i shared _ _ _ _ => shared <> 0 -> i * PAGE_SIZE < size (nodes s n)
  | Read _ _ _ _ _ _ => PAGE_SIZE <= amount x
  | Gap n _ _ _ None | Write_page n _ _ => n ∉ ch_node <$> changes ts
  | Cut n _ => n ∉ ch_node <$> changes ts /\ forall t last batch, t ∈ ts -> Clean n last batch ∉ todo t
  | Collect n _ _ => ~ cutting (changes ts) n
  | Bump n => forall t i shared tries g f m, t ∈ ts -> Put n i shared tries g f m ∈ todo t -> g <> u32 (cache_generation (nodes s n) + 1)
  | Dropped n => (forall t o, t ∈ ts -> o ∈ todo t -> ~ concerns n o) /\ forall m, m ∈ ms -> m_node m <> n
  | _ => True
  end.

Definition good_call (s : pcache) (c : call) : Prop :=
  match c with
  | Get n i shared => good_page s n i /\ 0 <= shared <= 2
  | Write n offset buf len => in_range offset len /\ outside s buf len
  | Truncate n sz => 0 <= sz
  | _ => True
  end.

(** What the files are told by a part, and by a byte stored through a mapping whose
    page is the file's. *)
Definition tell (o : op) (x : outcome) (s : pcache) (told : Z -> Z -> Z) : Z -> Z -> Z :=
  match o with
  | Content n offset buf len None =>
      let count := taken n offset len x s in
      if 0 <? count then
        fun n' p => if n' =? n then if (offset <=? p) && (p <? offset + count) then mem s (buf + (p - offset))
                                    else if (size (nodes s n) <=? p) && (p <? offset) then 0 else told n p
                    else told n' p
      else told
  | Dropped n => fun n' p => if n' =? n then content s n p else told n' p
  | _ => told
  end.

Definition file_page (m : mapping) (s : pcache) : bool :=
  match find_locked (m_node m) (m_index m) s with
  | Some a => frame_at s a =? m_frame m
  | None => false
  end.
Definition tell_byte (m : mapping) (o v : Z) (s : pcache) (told : Z -> Z -> Z) : Z -> Z -> Z :=
  if file_page m s then fun n p => if (n =? m_node m) && (p =? m_index m * PAGE_SIZE + o) then v else told n p else told.

(** A byte may be stored unless [write] is changing it, or is about to make the file
    longer with the byte past its end. *)
Definition may_store (s : pcache) (chs : list change) (n p : Z) : Prop :=
  forall c, c ∈ chs -> match c with
  | Opened n' offset len None => n' = n -> ~ (offset <= p < offset + len) /\ p < size (nodes s n)
  | Writing n' offset _ len None _ => n' = n -> ~ (offset <= p < offset + len)
  | _ => True
  end.

(** The last mapping of a page stored to since it was written back stays until the
    writeback has looked at it. *)
Definition may_unmap (ts : list task) (m : mapping) (rest : list mapping) : Prop :=
  forall t n last batch k p, t ∈ ts -> Clean n last batch ∈ todo t -> batch !! k = Some p -> snd p = m_frame m ->
    written t !! k = Some true -> m_frame m ∉ saved t -> m_frame m ∈ m_frame <$> rest.

Inductive orderly : world -> world -> Prop :=
| or_call s ts ms c T :
    good_call s c -> orderly (mkWorld (mkSystem s ts ms) T) (mkWorld (mkSystem s (mkTask (begin c s) [] [] :: ts) ms) T)
| or_run s ts1 o rest oks ch ts2 ms x ops new s' T :
    room (mkSystem s (ts1 ++ mkTask (o :: rest) oks ch :: ts2) ms) -> fits s (ts1 ++ mkTask rest oks ch :: ts2) ms o x ->
    perform o x (mkTask (o :: rest) oks ch) s = (ops, new, s') ->
    orderly (mkWorld (mkSystem s (ts1 ++ mkTask (o :: rest) oks ch :: ts2) ms) T)
            (mkWorld (mkSystem s' (ts1 ++ mkTask (ops ++ rest) (note o x s oks) (note_saved o x s ch) :: ts2) (new ++ ms)) (tell o x s T))
| or_unmap s ts ms1 m ms2 T :
    may_unmap ts m (ms1 ++ ms2) ->
    orderly (mkWorld (mkSystem s ts (ms1 ++ m :: ms2)) T)
            (mkWorld (mkSystem (set_owned s (pmm_unref_frame (m_frame m) (owned s))) ts (ms1 ++ ms2)) T)
| or_fork s ts ms m T :
    m ∈ ms -> room (mkSystem s ts ms) ->
    orderly (mkWorld (mkSystem s ts ms) T) (mkWorld (mkSystem (set_owned s (pmm_ref_frame (m_frame m) (owned s))) ts (m :: ms)) T)
| or_store s ts ms m o v T :
    m ∈ ms -> m_kind m = 2 -> 0 <= o < PAGE_SIZE -> 0 <= v < 0x100 -> may_store s (changes ts) (m_node m) (m_index m * PAGE_SIZE + o) ->
    orderly (mkWorld (mkSystem s ts ms) T)
            (mkWorld (mkSystem (store_byte (m_frame m) o v s) (touch (m_frame m) <$> ts) ms) (tell_byte m o v s T))
| or_own s ts ms m o v T :
    m ∈ ms -> pmm_get_frame_ref (m_frame m) (owned s) = 1 -> 0 <= o < PAGE_SIZE ->
    orderly (mkWorld (mkSystem s ts ms) T) (mkWorld (mkSystem (store_byte (m_frame m) o v s) ts ms) T)
| or_elsewhere s ts ms c m T :
    elsewhere (mkSystem s ts ms) c m ->
    orderly (mkWorld (mkSystem s ts ms) T) (mkWorld (mkSystem (set_mem (set_owned s c) m) ts ms) T).

(** * Memory *)

Definition good_frame (s : pcache) (f : Z) : Prop := f = f / PAGE_SIZE * PAGE_SIZE /\ 1 <= f / PAGE_SIZE < total_frames (frames (owned s)).

Lemma view_at s f : mem_ok s -> good_frame s f -> view s f = f + hhdm_off (frames (owned s)).
Proof. intros [H1 H2] [Hf Hr]. unfold view. apply u64_small. unfold PAGE_SIZE in *. lia. Qed.

Lemma bytes_apart s f g o o' : mem_ok s -> good_frame s f -> good_frame s g -> f <> g -> 0 <= o < PAGE_SIZE -> 0 <= o' < PAGE_SIZE ->
  view s f + o <> view s g + o'.
Proof. intros Hm Hf Hg Hne Ho Ho'. rewrite !view_at by done. destruct Hf, Hg. unfold PAGE_SIZE in *. nia. Qed.

Lemma byte_outside s f o buf len j : mem_ok s -> good_frame s f -> 0 <= o < PAGE_SIZE -> outside s buf len -> 0 <= j < len -> buf + j <> view s f + o.
Proof. intros Hm Hf Ho (_&_&Hb) Hj. rewrite view_at by done. destruct Hm, Hf. unfold PAGE_SIZE in *. nia. Qed.

Lemma byte_no_wrap s f o : mem_ok s -> good_frame s f -> 0 <= o <= PAGE_SIZE -> u64 (view s f + o) = view s f + o.
Proof. intros Hm Hf Ho. rewrite view_at by done. apply u64_small. destruct Hm, Hf. unfold PAGE_SIZE in *. nia. Qed.

(** * What keeps coherence *)

Lemma coherent_chs s T chs chs' puts safe : (forall c, c ∈ chs <-> c ∈ chs') -> coherent s T chs puts safe -> coherent s T chs' puts safe.
Proof.
  intros Hc [C1 C2 C3 C4 C5 C6 C7].
  assert (forall n p, pending chs n p <-> pending chs' n p) as Hp by (intros n p; unfold pending; by setoid_rewrite Hc).
  assert (forall n, cutting chs n <-> cutting chs' n) as Hcut by (intros n; unfold cutting; by setoid_rewrite Hc).
  assert (forall n p, unbumped chs n p <-> unbumped chs' n p) as Hu by (intros n p; unfold unbumped; by setoid_rewrite Hc).
  split; try done.
  - intros a e o Ha Ho Hs Hn. apply (C1 a); try done. by rewrite Hp.
  - intros n offset buf len b p Hin. apply (C2 n _ _ _ b). by apply Hc.
  - intros a e o Ha Hs Ho Hsz Hn. apply (C4 a); try done. by rewrite Hcut.
  - intros a e Ha Hs Hn. apply (C5 a); try done. by rewrite Hcut.
  - intros n offset len page a e o Hin. apply (C6 n offset len page). by apply Hc.
  - intros n i g f o Hput Hg Ho Hn. apply (C7 n i g); try done. by rewrite Hu.
Qed.

(** Changes of one file only concern it. *)
Lemma one_change chs c c' : NoDup (ch_node <$> chs) -> c ∈ chs -> c' ∈ chs -> ch_node c = ch_node c' -> c = c'.
Proof.
  intros Hn (i&Hi)%list_elem_of_lookup_1 (j&Hj)%list_elem_of_lookup_1 E. assert (i = j) as ->; [|congruence].
  eapply (NoDup_lookup _ i j (ch_node c) Hn); rewrite list_lookup_fmap; [by rewrite Hi|rewrite Hj; cbn; congruence].
Qed.

Definition same_page (e e' : pcache_entry) : Prop := e_node e' = e_node e /\ e_index e' = e_index e /\ e_frame e' = e_frame e.

(** An entry that was there, its page unchanged; it may have become shared. *)
Definition kept_entry (s s' : pcache) (chs : list change) (e e' : pcache_entry) : Prop :=
  same_page e e' /\ (forall o, 0 <= o < PAGE_SIZE -> byte s' (e_frame e) o = byte s (e_frame e) o) /\
  (e_shared e = true -> e_shared e' = true) /\
  (e_shared e' = true -> e_shared e = true \/ place e 0 < size (nodes s (e_node e))).

(** One that is new, its page as in the file. *)
Definition new_entry (s' : pcache) (T : Z -> Z -> Z) (chs : list change) (e' : pcache_entry) : Prop :=
  (forall o, 0 <= o < PAGE_SIZE -> place e' o < size (nodes s' (e_node e')) -> ~ pending chs (e_node e') (place e' o) ->
     byte s' (e_frame e') o = T (e_node e') (place e' o)) /\
  (forall o, 0 <= o < PAGE_SIZE -> size (nodes s' (e_node e')) <= place e' o -> ~ cutting chs (e_node e') -> byte s' (e_frame e') o = 0) /\
  (e_shared e' = true -> place e' 0 < size (nodes s' (e_node e'))).

(** The files and the changes under way stay; entries may come and go. *)
Record moves_on (s s' : pcache) (T : Z -> Z -> Z) (chs : list change) (puts puts' : Z -> Z -> Z -> Z -> Prop) (safe safe' : Z -> Prop) : Prop := {
  mo_content : content s' = content s;
  mo_node : forall n, size (nodes s' n) = size (nodes s n) /\ cache_generation (nodes s' n) = cache_generation (nodes s n);
  mo_entry : forall a e', entries s' !! a = Some e' -> (exists a0 e, entries s !! a0 = Some e /\ kept_entry s s' chs e e') \/ new_entry s' T chs e';
  mo_dirty : forall a e, entries s !! a = Some e -> e_dirty e = true ->
    (exists a' e', entries s' !! a' = Some e' /\ same_page e e' /\ e_dirty e' = true) \/ safe (e_frame e);
  mo_safe : forall f, f ∈ cached_frames s -> safe' f -> safe f;
  mo_puts : forall n i g f, puts' n i g f -> (puts n i g f /\ forall o, 0 <= o < PAGE_SIZE -> byte s' f o = byte s f o) \/
    (forall o, 0 <= o < PAGE_SIZE -> byte s' f o = if i * PAGE_SIZE + o <? size (nodes s n) then content s n (i * PAGE_SIZE + o) else 0);
  mo_buffers : forall n offset buf len b j, Writing n offset buf len None b ∈ chs -> 0 <= j < len -> mem s' (buf + j) = mem s (buf + j)
}.

Lemma coherent_moves s s' T chs puts puts' safe safe' : NoDup (ch_node <$> chs) ->
  moves_on s s' T chs puts puts' safe safe' -> coherent s T chs puts safe -> coherent s' T chs puts' safe'.
Proof.
  intros Hu [M1 M2 M3 M4 M5 M6 M7] [C1 C2 C3 C4 C5 C6 C7]. unfold kept_entry, new_entry, same_page, place in *.
  split.
  - intros a e' o Ha Ho Hs Hn. destruct (M3 a e' Ha) as [(a0&e&He&(E1&E2&E3)&Hb&_)|(Hnew&_)]; [|by apply Hnew].
    unfold place in *. rewrite E1, E2, E3, (proj1 (M2 _)) in *. rewrite Hb by done. by apply (C1 a0).
  - intros n offset buf len b p Hin Hp. replace (mem s' _) with (mem s (buf + (p - offset))); [by eapply C2|]. symmetry. eapply M7; [done|lia].
  - intros n p Hp Hd. rewrite (proj1 (M2 n)) in Hp. rewrite M1. apply C3; [done|]. intros a e Ha En Ei Ed.
    destruct (M4 a e Ha Ed) as [(a'&e'&Ha'&(E1&E2&E3)&Ed')|?]; [|done]. apply M5.
    + unfold cached_frames. apply list_elem_of_fmap. exists e. split; [done|]. apply elem_of_entry_list. by exists a.
    + rewrite <- E3. eapply Hd; [done|congruence|congruence|done].
  - intros a e' o Ha Hs Ho Hsz Hn. destruct (M3 a e' Ha) as [(a0&e&He&(E1&E2&E3)&Hb&Hs1&_)|(_&Hnew&_)]; [|by apply Hnew].
    unfold place in *. rewrite E1, E2, E3, (proj1 (M2 _)) in *. rewrite Hb by done. apply (C4 a0); try done.
    destruct (e_shared e); [|done]. specialize (Hs1 eq_refl). congruence.
  - intros a e' Ha Hs Hn. destruct (M3 a e' Ha) as [(a0&e&He&(E1&E2&E3)&_&_&Hs2)|(_&_&Hnew)]; [|by apply Hnew].
    unfold place in *. rewrite E1, E2, (proj1 (M2 _)) in *. destruct (Hs2 Hs) as [Hs'|?]; [|done]. by apply (C5 a0).
  - intros n offset len page a e' o Hin Ha En Hs Ho Hsz. assert (~ cutting chs n) as Hnc.
    { intros (sz&b&Hc). by discriminate (one_change chs _ _ Hu Hin Hc eq_refl). }
    destruct (M3 a e' Ha) as [(a0&e&He&(E1&E2&E3)&Hb&_&Hs2)|(_&Hnew&_)].
    + unfold place in *. rewrite E1, E2, E3, (proj1 (M2 _)) in *. subst n. rewrite Hb by done. destruct (e_shared e) eqn:Es.
      * eapply (C6 (e_node e) offset len page a0); done.
      * eapply (C4 a0); try done. unfold place. lia.
    + apply Hnew; [done| |congruence]. unfold place in *. rewrite En. lia.
  - intros n i g f o Hput Hg Ho Hn. rewrite M1, (proj1 (M2 n)). rewrite (proj2 (M2 n)) in Hg.
    destruct (M6 n i g f Hput) as [[Hold Hb]|Hnew]; [|by apply Hnew]. rewrite Hb by done. by apply (C7 n i g).
Qed.

(** What the steps rely on besides. *)
Record sane (s : pcache) (chs : list change) (puts : Z -> Z -> Z -> Z -> Prop) : Prop := {
  sn_table : table_ok s;
  sn_mem : mem_ok s;
  sn_unique : NoDup (ch_node <$> chs);
  sn_entry : forall a e, entries s !! a = Some e -> good_frame s (e_frame e) /\ good_page s (e_node e) (e_index e);
  sn_put : forall n i g f, puts n i g f -> good_frame s f /\ f ∉ cached_frames s /\ good_page s n i;
  sn_size : forall n, 0 <= size (nodes s n) < 0x8000000000000000;
  sn_buffer : forall n offset buf len b, Writing n offset buf len None b ∈ chs -> outside s buf len
}.

Lemma entry_cached s a e : entries s !! a = Some e -> e_frame e ∈ cached_frames s.
Proof. intros Ha. unfold cached_frames. apply list_elem_of_fmap. exists e. split; [done|]. apply elem_of_entry_list. by exists a. Qed.

Lemma same_frame_entry s a a' e e' : table_ok s -> entries s !! a = Some e -> entries s !! a' = Some e' -> e_frame e = e_frame e' -> a = a'.
Proof.
  intros Ht Ha Ha' E. destruct (decide (a = a')) as [|Hne]; [done|]. pose proof (tb_frames s Ht) as Hn. unfold cached_frames in Hn.
  rewrite (entry_list_delete _ _ _ Ha) in Hn. cbn in Hn. apply NoDup_cons in Hn as [Hn _]. destruct Hn. apply list_elem_of_fmap. exists e'.
  split; [done|]. apply elem_of_entry_list. exists a'. by rewrite lookup_delete_ne.
Qed.

Lemma effects_cons effect s a l m :
  effects effect s (a :: l) m = effects effect s l (match entries s !! a with Some e => effect e m | None => m end).
Proof. done. Qed.

(** Effects on the pages of entries, one after the other. *)
Section effects.
Context (s : pcache) (effect : pcache_entry -> memory -> memory) (val : pcache_entry -> Z -> memory -> Z) (D : Z -> Prop).
Context (Ht : table_ok s) (Hm : mem_ok s) (Hgood : forall a e, entries s !! a = Some e -> good_frame s (e_frame e)).
Hypothesis Hown : forall a e m o, entries s !! a = Some e -> 0 <= o < PAGE_SIZE -> effect e m (view s (e_frame e) + o) = val e o m.
Hypothesis Hother : forall a e m x, entries s !! a = Some e -> (forall o, 0 <= o < PAGE_SIZE -> x <> view s (e_frame e) + o) -> effect e m x = m x.
Hypothesis Hval : forall a e o m m', entries s !! a = Some e -> 0 <= o < PAGE_SIZE ->
  (forall o', 0 <= o' < PAGE_SIZE -> m (view s (e_frame e) + o') = m' (view s (e_frame e) + o')) -> (forall x, D x -> m x = m' x) -> val e o m = val e o m'.
Hypothesis HD : forall a e x o, entries s !! a = Some e -> D x -> 0 <= o < PAGE_SIZE -> x <> view s (e_frame e) + o.

Lemma effects_other l : forall m x, (forall a e o, a ∈ l -> entries s !! a = Some e -> 0 <= o < PAGE_SIZE -> x <> view s (e_frame e) + o) ->
  effects effect s l m x = m x.
Proof.
  induction l as [|a l IH]; intros m x Hx; [done|]. rewrite effects_cons.
  destruct (entries s !! a) as [e|] eqn:Ea; rewrite IH by (intros b eb o Hb; apply Hx; by apply list_elem_of_further); [|done].
  eapply Hother; [done|]. intros o Ho. by eapply Hx; [apply list_elem_of_here|..].
Qed.

Lemma effects_own l : NoDup l -> forall m a e o, a ∈ l -> entries s !! a = Some e -> 0 <= o < PAGE_SIZE ->
  effects effect s l m (view s (e_frame e) + o) = val e o m.
Proof.
  induction l as [|b l IH]; intros Hnd m a e o Hin Ha Ho; [by apply elem_of_nil in Hin|]. apply NoDup_cons in Hnd as [Hb Hnd].
  assert (forall a1 e1 a2 e2 o1 o2, entries s !! a1 = Some e1 -> entries s !! a2 = Some e2 -> a1 <> a2 -> 0 <= o1 < PAGE_SIZE -> 0 <= o2 < PAGE_SIZE ->
    view s (e_frame e1) + o1 <> view s (e_frame e2) + o2) as Hap.
  { intros a1 e1 a2 e2 o1 o2 H1 H2 Hne. apply bytes_apart; [done|by eapply Hgood|by eapply Hgood|]. intros E. apply Hne. by eapply same_frame_entry. }
  rewrite effects_cons. apply elem_of_cons in Hin as [->|Hin].
  - rewrite Ha. rewrite effects_other; [by eapply Hown|]. intros a' e' o' Ha' He' Ho'. eapply Hap; try done. intros ->. done.
  - destruct (entries s !! b) as [eb|] eqn:Eb; [|by eapply IH]. rewrite (IH Hnd _ a e o Hin Ha Ho).
    eapply Hval; [done|done| |].
    + intros o' Ho'. eapply Hother; [done|]. intros o1 Ho1. eapply Hap; try done. intros ->. done.
    + intros x Hx. eapply Hother; [done|]. intros o1 Ho1. by eapply HD.
Qed.

(** A walk over the pages of a file: some go, the others have the effect. *)
Lemma walked n goes s' :
  gone_from (filter (fun a => visited n goes s true a = true) (use s))
    (set_mem s (effects effect s (filter (fun a => visited n goes s false a = true) (use s)) (mem s))) s' ->
  (forall a e, entries s' !! a = Some e <-> entries s !! a = Some e /\ (e_node e = n -> goes e = false)) /\
  (forall a e o, entries s !! a = Some e -> 0 <= o < PAGE_SIZE ->
     byte s' (e_frame e) o = if (e_node e =? n) && negb (goes e) then val e o (mem s) else byte s (e_frame e) o) /\
  (forall x, (forall a e o, entries s !! a = Some e -> 0 <= o < PAGE_SIZE -> x <> view s (e_frame e) + o) -> mem s' x = mem s x).
Proof.
  intros [_ G2 _ G4]. set (kept := filter (fun a => visited n goes s false a = true) (use s)) in *.
  assert (forall a e, entries s !! a = Some e -> a ∈ use s) as Huse by (intros a e Ha; apply (ln_use _ (tb_linked _ Ht)); by exists e).
  assert (forall a e, entries s !! a = Some e -> a ∈ kept <-> e_node e = n /\ goes e = false) as Hk.
  { intros a e Ha. unfold kept. rewrite list_elem_of_filter. unfold visited. rewrite Ha, andb_true_iff, Z.eqb_eq, eqb_true_iff. naive_solver. }
  assert (NoDup kept) as Hnd by (apply NoDup_filter, (ln_nodup _ (tb_linked _ Ht))). split; [|split].
  - intros a e. rewrite G2. cbn [entries set_mem]. destruct (decide _) as [Hin|Hin].
    + split; [done|]. intros [Ha Hg]. apply list_elem_of_filter in Hin as [Hv _]. unfold visited in Hv. rewrite Ha, andb_true_iff, Z.eqb_eq, eqb_true_iff in Hv.
      destruct Hv as [H1 H2]. rewrite (Hg H1) in H2. done.
    + split; [|by intros [? _]]. intros Ha. split; [done|]. intros En. destruct (goes e) eqn:Eg; [|done]. destruct Hin. apply list_elem_of_filter.
      split; [|by eapply Huse]. unfold visited. by rewrite Ha, (proj2 (Z.eqb_eq _ _) En), Eg.
  - intros a e o Ha Ho. unfold byte. change (view s' (e_frame e)) with (u64 (e_frame e + hhdm_off (frames (owned s')))). rewrite (rs_owned _ _ G4), (rs_mem _ _ G4).
    change (u64 _) with (view s (e_frame e)). cbn [mem set_mem]. destruct ((e_node e =? n) && negb (goes e)) eqn:E.
    + apply andb_true_iff in E as [E1%Z.eqb_eq E2%negb_true_iff]. eapply effects_own; [done|by apply (Hk a e Ha)|done|done].
    + rewrite effects_other; [done|]. intros a' e' o' Ha' He' Ho'. eapply bytes_apart; [done|by eapply Hgood|by eapply Hgood| |done|done].
      intros Ef. assert (a = a') as <- by (by eapply same_frame_entry). assert (e' = e) as -> by congruence.
      apply (Hk a e Ha) in Ha' as [E1 E2]. by rewrite E2, (proj2 (Z.eqb_eq _ _) E1) in E.
  - intros x Hx. rewrite (rs_mem _ _ G4). apply effects_other. intros a e o _. apply Hx.
Qed.
End effects.

(** * Writing *)

Lemma page_no_wrap s n i : good_page s n i -> u64 (i * PAGE_SIZE) = i * PAGE_SIZE /\ u64 (i * PAGE_SIZE + PAGE_SIZE) = i * PAGE_SIZE + PAGE_SIZE.
Proof. intros (_&H1&H2). unfold PAGE_SIZE in *. split; apply u64_small; lia. Qed.

Lemma clear_rest_mem s f from x : mem_ok s -> good_frame s f -> 0 <= from < PAGE_SIZE ->
  (memset_effect (u64 (view s f + from)) 0 (PAGE_SIZE - from) (mem s)) x =
  if (view s f + from <=? x) && (x <? view s f + PAGE_SIZE) then 0 else mem s x.
Proof.
  intros Hm Hf Ho. rewrite byte_no_wrap by (done || lia). rewrite memset_filled by lia.
  by replace (view s f + from + (PAGE_SIZE - from)) with (view s f + PAGE_SIZE) by lia.
Qed.

Lemma gap_spec s n sz chs puts : sane s chs puts -> 0 <= sz ->
  let s' := pcache_file_gap n sz s in
  (forall x, (forall a e o, entries s !! a = Some e -> 0 <= o < PAGE_SIZE -> x <> view s (e_frame e) + o) -> mem s' x = mem s x) /\
  (forall a e o, entries s !! a = Some e -> 0 <= o < PAGE_SIZE ->
     byte s' (e_frame e) o = byte s (e_frame e) o \/ e_node e = n /\ sz <= place e o /\ byte s' (e_frame e) o = 0) /\
  (forall a e o, entries s !! a = Some e -> 0 <= o < PAGE_SIZE -> e_node e = n -> e_shared e = true -> place e 0 < sz <= place e o ->
     byte s' (e_frame e) o = 0).
Proof.
  intros [S1 S2 _ S3 _ _ _] Hsz. cbn zeta. unfold pcache_file_gap.
  destruct (negb (pcache_cacheable s n) || (sz mod PAGE_SIZE =? 0)) eqn:Eg.
  { split; [done|]. split; [by left|]. intros a e o Ha Ho <- _ Hp. exfalso. apply orb_true_iff in Eg as [Eg|Eg].
    - destruct (S3 a e Ha) as [_ (Hc&_)]. by rewrite Hc in Eg.
    - apply Z.eqb_eq in Eg. unfold place, PAGE_SIZE in *. zlia. }
  apply orb_false_iff in Eg as [_ Eg%Z.eqb_neq]. pose proof (find_locked_page s n (sz / PAGE_SIZE) (tb_linked s S1)) as Hf.
  assert (0 <= sz mod PAGE_SIZE < PAGE_SIZE) as Hmod by (apply Z.mod_pos_bound; done).
  destruct (find_locked n (sz / PAGE_SIZE) s) as [a0|].
  2: { split; [done|]. split; [by left|]. intros a e o Ha Ho En _ Hp. destruct (Hf a e Ha En). unfold place, PAGE_SIZE in *. zlia. }
  destruct Hf as (e0&Ha0&En0&Ei0). rewrite Ha0. destruct (S3 a0 e0 Ha0) as [Hg0 _]. destruct (e_shared e0) eqn:Es.
  2: { split; [done|]. split; [by left|]. intros a e o Ha Ho En Hs Hp. assert (a = a0) as ->; [|congruence].
       eapply (tb_key s S1 a a0 e e0); [done|done|congruence|]. rewrite Ei0. unfold place, PAGE_SIZE in *. zlia. }
  unfold clear_rest. unfold byte. cbn [mem set_mem]. change (view (set_mem s _)) with (view s).
  assert (forall a e o, entries s !! a = Some e -> 0 <= o < PAGE_SIZE -> a <> a0 -> (memset_effect (u64 (view s (e_frame e0) + sz mod PAGE_SIZE)) 0 (PAGE_SIZE - sz mod PAGE_SIZE) (mem s)) (view s (e_frame e) + o) = mem s (view s (e_frame e) + o)) as Hne.
  { intros a e o Ha Ho Hn. rewrite clear_rest_mem by done. destruct (S3 a e Ha) as [Hg _].
    assert (e_frame e <> e_frame e0) as Hfr by (intros E; apply Hn; by eapply same_frame_entry).
    destruct (_ && _) eqn:Eb; [|done]. zbool. exfalso.
    apply (bytes_apart s (e_frame e) (e_frame e0) o (view s (e_frame e) + o - view s (e_frame e0)) S2 Hg Hg0 Hfr Ho); lia. }
  split; [|split].
  - intros x Hx. rewrite clear_rest_mem by done. destruct (_ && _) eqn:Eb; [|done]. zbool. exfalso.
    apply (Hx a0 e0 (x - view s (e_frame e0)) Ha0); lia.
  - intros a e o Ha Ho. destruct (decide (a = a0)) as [->|Hn]; [|left; by eapply Hne]. assert (e = e0) as -> by congruence.
    rewrite clear_rest_mem by done. destruct (_ && _) eqn:Eb; [|by left]. zbool. right. split; [done|]. split; [|done].
    unfold place. rewrite Ei0. unfold PAGE_SIZE in *. zlia.
  - intros a e o Ha Ho En Hs Hp. assert (a = a0) as ->.
    { eapply (tb_key s S1 a a0 e e0); [done|done|congruence|]. rewrite Ei0. unfold place, PAGE_SIZE in *. zlia. }
    assert (e = e0) as -> by congruence. rewrite clear_rest_mem by done.
    rewrite (proj2 (Z.leb_le _ _)), (proj2 (Z.ltb_lt _ _)); [done|lia|]. unfold place in Hp. rewrite Ei0 in Hp. unfold PAGE_SIZE in *. zlia.
Qed.

Lemma put_entry_apart s chs puts n i g f a e o o' : sane s chs puts -> puts n i g f -> entries s !! a = Some e ->
  0 <= o < PAGE_SIZE -> 0 <= o' < PAGE_SIZE -> view s f + o <> view s (e_frame e) + o'.
Proof.
  intros Hs Hp Ha Ho Ho'. destruct (sn_put _ _ _ Hs n i g f Hp) as (Hg&Hn&_). apply bytes_apart; try done; [apply Hs|by eapply (sn_entry _ _ _ Hs)|].
  intros ->. apply Hn. by eapply entry_cached.
Qed.

Lemma buffer_entry_apart s chs puts n offset buf len b a e o j : sane s chs puts -> Writing n offset buf len None b ∈ chs ->
  entries s !! a = Some e -> 0 <= o < PAGE_SIZE -> 0 <= j < len -> buf + j <> view s (e_frame e) + o.
Proof.
  intros Hs Hw Ha Ho Hj. eapply byte_outside; [apply Hs|by eapply (sn_entry _ _ _ Hs)|done|by eapply (sn_buffer _ _ _ Hs)|done].
Qed.

(** A write begins. *)
Lemma coherent_gap s T chs puts safe n offset len page : sane s chs puts -> n ∉ ch_node <$> chs -> coherent s T chs puts safe ->
  coherent (if size (nodes s n) <? offset then pcache_file_gap n (size (nodes s n)) s else s) T (Opened n offset len page :: chs) puts safe.
Proof.
  intros Hs Hn Hc. set (s' := if size (nodes s n) <? offset then pcache_file_gap n (size (nodes s n)) s else s).
  assert (forall c, c ∈ Opened n offset len page :: chs -> ch_node c <> n -> c ∈ chs) as Hold by (intros c [->|?]%elem_of_cons Hne; done).
  assert (forall n' p, pending (Opened n offset len page :: chs) n' p <-> pending chs n' p) as Hpen.
  { intros n' p. unfold pending. setoid_rewrite elem_of_cons. naive_solver. }
  assert (forall n', cutting (Opened n offset len page :: chs) n' <-> cutting chs n') as Hcut.
  { intros n'. unfold cutting. setoid_rewrite elem_of_cons. naive_solver. }
  assert (forall n' p, unbumped (Opened n offset len page :: chs) n' p <-> unbumped chs n' p) as Hunb.
  { intros n' p. unfold unbumped. setoid_rewrite elem_of_cons. naive_solver. }
  assert (~ cutting chs n) as Hnc. { intros (sz&b&Hin). apply Hn. apply list_elem_of_fmap. by exists (Cutting n sz b). }
  pose proof (gap_spec s n (size (nodes s n)) chs puts Hs (proj1 (sn_size _ _ _ Hs n))) as (G1&G2&G3). cbn zeta in *.
  destruct (harmless_gap n (size (nodes s n)) s) as [(E1&_) E2].
  assert (entries s' = entries s /\ content s' = content s /\ nodes s' = nodes s /\ forall f, view s' f = view s f) as (Ee&Ec&Enode&Ev).
  { unfold s'. destruct (_ <? _); [|done]. split; [done|]. unfold view. rewrite E2. unfold pcache_file_gap. destruct (_ || _); [done|].
    destruct (find_locked _ _ s) as [a|]; [|done]. destruct (entries s !! a) as [e|]; [|done]. by destruct (e_shared e). }
  assert (forall x, (forall a e o, entries s !! a = Some e -> 0 <= o < PAGE_SIZE -> x <> view s (e_frame e) + o) -> mem s' x = mem s x) as F1.
  { unfold s'. destruct (_ <? _); [exact G1|done]. }
  assert (forall a e o, entries s !! a = Some e -> 0 <= o < PAGE_SIZE ->
     byte s' (e_frame e) o = byte s (e_frame e) o \/ e_node e = n /\ size (nodes s n) <= place e o /\ byte s' (e_frame e) o = 0) as F2.
  { unfold s'. destruct (_ <? _); [exact G2|by left]. }
  destruct Hc as [C1 C2 C3 C4 C5 C6 C7]. split.
  - intros a e o Ha Ho Hsz. rewrite Ee, Enode in *. rewrite Hpen. intros Hnp. destruct (F2 a e o Ha Ho) as [->|(En&Hge&_)]; [by apply (C1 a)|]. rewrite En in Hsz. lia.
  - intros n' off' buf' len' b p [?|Hin]%elem_of_cons Hp; [done|]. rewrite F1; [by eapply C2|]. intros a e o Ha Ho. eapply (buffer_entry_apart s chs puts); try done. lia.
  - intros n' p. rewrite Ee, Ec, Enode. apply C3.
  - intros a e o Ha Hsh Ho Hsz. rewrite Ee, Enode in *. rewrite Hcut. intros Hnc'. destruct (F2 a e o Ha Ho) as [->|(_&_&?)]; [by apply (C4 a)|done].
  - intros a e Ha Hsh. rewrite Ee, Enode in *. rewrite Hcut. by apply (C5 a).
  - intros n' off' len' page' a e o [[= -> -> -> ->]|Hin]%elem_of_cons Ha En Hsh Ho Hsz; rewrite Ee, Enode in *.
    + assert (size (nodes s n) < offset) as Hlt by lia. unfold s'. rewrite (proj2 (Z.ltb_lt _ _) Hlt). eapply G3; try done. split; [|lia].
      rewrite <- En in Hnc |- *. by apply (C5 a).
    + destruct (F2 a e o Ha Ho) as [->|(_&_&?)]; [by eapply C6|done].
  - intros n' i g f o Hput Hg Ho. rewrite Hunb, Ec, Enode in *. intros Hnu. rewrite <- (C7 n' i g f o) by done. unfold byte. rewrite Ev. apply F1.
    intros a e o' Ha Ho'. by eapply (put_entry_apart s chs puts).
Qed.

(** One more change. *)
Lemma pending_cons c chs n p : pending (c :: chs) n p <->
  match c with Writing n' offset _ len None _ => n' = n /\ offset <= p < offset + len | _ => False end \/ pending chs n p.
Proof. unfold pending. setoid_rewrite elem_of_cons. destruct c as [| ? ? ? ? [] ?|]; naive_solver. Qed.
Lemma cutting_cons c chs n : cutting (c :: chs) n <-> match c with Cutting n' _ _ => n' = n | _ => False end \/ cutting chs n.
Proof. unfold cutting. setoid_rewrite elem_of_cons. destruct c; naive_solver. Qed.
Lemma unbumped_cons c chs n p : unbumped (c :: chs) n p <->
  match c with
  | Writing n' offset _ len _ false => n' = n /\ offset <= p < offset + len
  | Cutting n' sz false => n' = n /\ sz <= p
  | _ => False
  end \/ unbumped chs n p.
Proof. unfold unbumped. setoid_rewrite elem_of_cons. destruct c as [|? ? ? ? ? []|? ? []]; naive_solver. Qed.

(** No other change of the file. *)
Lemma not_pending chs n p : n ∉ ch_node <$> chs -> ~ pending chs n p.
Proof. intros Hn (offset&buf&len&b&Hin&_). apply Hn. apply list_elem_of_fmap. by exists (Writing n offset buf len None b). Qed.
Lemma not_cutting chs n : n ∉ ch_node <$> chs -> ~ cutting chs n.
Proof. intros Hn (sz&b&Hin). apply Hn. apply list_elem_of_fmap. by exists (Cutting n sz b). Qed.
Lemma not_unbumped chs n p : n ∉ ch_node <$> chs -> ~ unbumped chs n p.
Proof.
  intros Hn [(offset&buf&len&page&Hin&_)|(sz&Hin&_)]; apply Hn; apply list_elem_of_fmap; [by exists (Writing n offset buf len page false)|by exists (Cutting n sz false)].
Qed.

Definition tell_write (n offset buf count : Z) (s : pcache) (T : Z -> Z -> Z) : Z -> Z -> Z :=
  fun n' p => if n' =? n then if (offset <=? p) && (p <? offset + count) then mem s (buf + (p - offset))
                              else if (size (nodes s n) <=? p) && (p <? offset) then 0 else T n p
              else T n' p.

Lemma write_content_size n offset buf count s n' : size (nodes (write_content n offset buf count s) n') =
  if n' =? n then Z.max (size (nodes s n)) (offset + count) else size (nodes s n').
Proof. cbn. destruct (Z.eqb_spec n' n) as [->|]; [|done]. cbn. destruct (Z.ltb_spec (size (nodes s n)) (offset + count)); lia. Qed.

Lemma write_content_gen n offset buf count s n' : cache_generation (nodes (write_content n offset buf count s) n') = cache_generation (nodes s n').
Proof. cbn. by destruct (Z.eqb_spec n' n) as [->|]. Qed.

Lemma write_content_at n offset buf count s n' p : content (write_content n offset buf count s) n' p =
  if n' =? n then if (offset <=? p) && (p <? offset + count) then mem s (buf + (p - offset))
                  else if (size (nodes s n) <=? p) && (p <? offset) then 0 else content s n p
  else content s n' p.
Proof. cbn. by destruct (Z.eqb_spec n' n) as [->|]. Qed.

(** It reaches the file. *)
Lemma coherent_content s T chs puts safe n offset buf len count : n ∉ ch_node <$> chs -> 0 <= offset -> 0 < count ->
  coherent s T (Opened n offset len None :: chs) puts safe ->
  coherent (write_content n offset buf count s) (tell_write n offset buf count s T) (Writing n offset buf count None false :: chs) puts safe.
Proof.
  intros Hn Ho Hc [C1 C2 C3 C4 C5 C6 C7].
  pose proof (fun p => not_pending chs n p Hn) as Np. pose proof (not_cutting chs n Hn) as Nc. pose proof (fun p => not_unbumped chs n p Hn) as Nu.
  assert (forall c, c ∈ chs -> ch_node c <> n) as Hne by (intros c Hin E; apply Hn; apply list_elem_of_fmap; by exists c).
  assert (forall n' p, n' <> n -> tell_write n offset buf count s T n' p = T n' p) as Ht by (intros n' p H; unfold tell_write; by rewrite (proj2 (Z.eqb_neq _ _) H)).
  split.
  - intros a e o Ha Hr Hsz Hp. change (byte _ (e_frame e) o) with (byte s (e_frame e) o). change (entries _ !! a) with (entries s !! a) in Ha.
    rewrite pending_cons in Hp. rewrite write_content_size in Hsz. specialize (C1 a e o Ha Hr). specialize (C4 a e o Ha). specialize (C6 n offset len None a e o).
    rewrite pending_cons in C1. rewrite cutting_cons in C4. unfold tell_write. destruct (Z.eqb_spec (e_node e) n) as [En|]; [|apply C1; tauto].
    rewrite En in *. assert (~ (offset <= place e o < offset + count)) as Hout by tauto.
    destruct ((offset <=? place e o) && (place e o <? offset + count)) eqn:E1; [zbool; lia|].
    destruct ((size (nodes s n) <=? place e o) && (place e o <? offset)) eqn:E2.
    + zbool. destruct (e_shared e); [apply C6; try done; [set_solver]|apply C4; try done; tauto].
    + apply C1; [|naive_solver]. apply andb_false_iff in E1, E2. destruct E1, E2; zbool; lia.
  - intros n' off' buf' len' b p [[= -> -> -> -> ->]|Hin]%elem_of_cons Hp.
    + unfold tell_write. rewrite Z.eqb_refl. rewrite (proj2 (Z.leb_le _ _)), (proj2 (Z.ltb_lt _ _)) by lia. done.
    + rewrite Ht by exact (Hne _ Hin). eapply C2; [|done]. by apply elem_of_cons; right.
  - intros n' p Hp Hd. rewrite write_content_size in Hp. rewrite write_content_at. unfold tell_write.
    destruct (Z.eqb_spec n' n) as [->|]; [|by apply C3]. destruct ((offset <=? p) && (p <? offset + count)) eqn:E1; [done|].
    destruct ((size (nodes s n) <=? p) && (p <? offset)) eqn:E2; [done|]. apply C3; [|done]. apply andb_false_iff in E1, E2. destruct E1, E2; zbool; lia.
  - intros a e o Ha Hs Hr Hsz Hcu. rewrite write_content_size in Hsz. apply (C4 a e o Ha Hs Hr).
    + destruct (Z.eqb_spec (e_node e) n) as [->|]; lia.
    + rewrite cutting_cons in *. tauto.
  - intros a e Ha Hs Hcu. rewrite write_content_size. specialize (C5 a e Ha Hs). rewrite cutting_cons in *.
    destruct (Z.eqb_spec (e_node e) n) as [E|]; [rewrite E in *|]; specialize (C5 ltac:(tauto)); lia.
  - intros n' off' len' page' a e o [?|Hin]%elem_of_cons Ha En Hs Hr Hsz; [done|]. rewrite write_content_size in Hsz.
    pose proof (Hne _ Hin) as E. cbn in E. rewrite (proj2 (Z.eqb_neq n' n)) in Hsz by done. eapply (C6 n'); try done. by apply elem_of_cons; right.
  - intros n' i g f o Hput Hg Hr Hu. rewrite write_content_gen in Hg. rewrite write_content_size, write_content_at. rewrite unbumped_cons in Hu.
    specialize (C7 n' i g f o Hput Hg Hr). rewrite unbumped_cons in C7. change (byte _ f o) with (byte s f o). rewrite C7 by tauto.
    destruct (Z.eqb_spec n' n) as [->|]; [|done]. set (p := i * PAGE_SIZE + o) in *. assert (~ (offset <= p < offset + count)) as Hout by tauto.
    destruct ((offset <=? p) && (p <? offset + count)) eqn:E1; [zbool; lia|]. 
    destruct (Z.ltb_spec p (size (nodes s n))), (Z.ltb_spec p (Z.max (size (nodes s n)) (offset + count))); try lia; try done.
    + rewrite (proj2 (Z.leb_gt _ _)) by lia. done.
    + rewrite (proj2 (Z.leb_le _ _)) by lia. rewrite (proj2 (Z.ltb_lt _ _)); [done|]. apply andb_false_iff in E1. destruct E1; zbool; lia.
Qed.

(** It does not, after all. *)
Lemma coherent_unopened s T chs puts safe n offset len page : coherent s T (Opened n offset len page :: chs) puts safe -> coherent s T chs puts safe.
Proof.
  intros [C1 C2 C3 C4 C5 C6 C7]. setoid_rewrite pending_cons in C1. setoid_rewrite cutting_cons in C4. setoid_rewrite cutting_cons in C5.
  setoid_rewrite unbumped_cons in C7. split; [| |done| | | |].
  - intros a e o Ha Ho Hs Hp. apply (C1 a); tauto.
  - intros n' off' buf' len' b p Hin. eapply C2. by apply elem_of_cons; right.
  - intros a e o Ha Hsh Ho Hs Hp. apply (C4 a); tauto.
  - intros a e Ha Hsh Hp. apply (C5 a); tauto.
  - intros n' off' len' page' a e o Hin. eapply C6. by apply elem_of_cons; right.
  - intros n' i g f o Hput Hg Ho Hu. apply (C7 n' i g f o); tauto.
Qed.

(** A file without pages has nothing to be told. *)
Lemma coherent_uncached s T chs puts safe c : (forall a e, entries s !! a = Some e -> e_node e <> ch_node c) ->
  (forall n i g f, puts n i g f -> n <> ch_node c) -> coherent s T (c :: chs) puts safe -> coherent s T chs puts safe.
Proof.
  intros Hno Hnp [C1 C2 C3 C4 C5 C6 C7]. setoid_rewrite pending_cons in C1. setoid_rewrite cutting_cons in C4. setoid_rewrite cutting_cons in C5.
  setoid_rewrite unbumped_cons in C7. split; [| |done| | | |].
  - intros a e o Ha Ho Hs Hp. apply (C1 a); try done. intros [Hc|?]; [|done]. apply (Hno a e Ha). destruct c as [|? ? ? ? [] ?|]; naive_solver.
  - intros n' off' buf' len' b p Hin. eapply C2. by apply elem_of_cons; right.
  - intros a e o Ha Hsh Ho Hs Hp. apply (C4 a); try done. intros [Hc|?]; [|done]. apply (Hno a e Ha). destruct c; naive_solver.
  - intros a e Ha Hsh Hp. apply (C5 a); try done. intros [Hc|?]; [|done]. apply (Hno a e Ha). destruct c; naive_solver.
  - intros n' off' len' page' a e o Hin. eapply C6. by apply elem_of_cons; right.
  - intros n' i g f o Hput Hg Ho Hu. apply (C7 n' i g f o); try done. intros [Hc|?]; [|done]. apply (Hnp n' i g f Hput).
    destruct c as [|? ? ? ? ? []|? ? []]; naive_solver.
Qed.

(** A page is written back. *)
Lemma coherent_page s T chs puts (safe safe' : Z -> Prop) n i f len count a e : sane s chs puts -> n ∉ ch_node <$> chs ->
  entries s !! a = Some e -> e_node e = n -> e_index e = i -> e_frame e = f ->
  page_range n i s = Some (i * PAGE_SIZE, len) -> 0 < count <= len ->
  (forall f', f' ∈ cached_frames s -> safe' f' -> safe f' \/ f' = f /\ count = len) ->
  coherent s T (Opened n (i * PAGE_SIZE) len (Some f) :: chs) puts safe ->
  coherent (write_content n (i * PAGE_SIZE) (view s f) count s) T (Writing n (i * PAGE_SIZE) (view s f) count (Some f) false :: chs) puts safe'.
Proof.
  intros Hs Hn Ha En Ei Ef Hr Hc Hsafe HC. apply coherent_unopened in HC as [C1 C2 C3 C4 C5 C6 C7].
  pose proof (page_no_wrap s n i ltac:(subst; apply (sn_entry _ _ _ Hs a e Ha))) as [Ew _]. unfold page_range in Hr. rewrite Ew in Hr.
  destruct (Z.leb_spec (size (nodes s n)) (i * PAGE_SIZE)); [done|]. injection Hr as Hlen.
  assert (i * PAGE_SIZE + count <= size (nodes s n) /\ len <= PAGE_SIZE) as [Hin Hle] by (destruct (Z.ltb_spec (size (nodes s n) - i * PAGE_SIZE) PAGE_SIZE); lia).
  assert (forall n', size (nodes (write_content n (i * PAGE_SIZE) (view s f) count s) n') = size (nodes s n')) as Esz.
  { intros n'. rewrite write_content_size. destruct (Z.eqb_spec n' n) as [->|]; lia. }
  split.
  - intros a' e' o Ha' Ho Hsz Hp. rewrite Esz in Hsz. rewrite pending_cons in Hp. apply (C1 a' e' o); tauto.
  - intros n' off' buf' len' b p [?|Hin']%elem_of_cons; [done|]. by eapply C2.
  - intros n' p Hp Hd. rewrite Esz in Hp. rewrite write_content_at.
    assert (n' = n /\ i * PAGE_SIZE <= p < i * PAGE_SIZE + count \/ content s n' p = T n' p) as Hcase.
    { destruct (decide (n' = n /\ i * PAGE_SIZE <= p < i * PAGE_SIZE + count)) as [|Hout]; [by left|right]. apply C3; [done|].
      intros a' e' Ha' En' Ei' Ed'. destruct (Hsafe _ (entry_cached s a' e' Ha') (Hd a' e' Ha' En' Ei' Ed')) as [|[E1 E2]]; [done|]. exfalso. apply Hout.
      assert (a' = a) as -> by (eapply same_frame_entry; [apply Hs|done|done|congruence]). assert (e' = e) as -> by congruence.
      split; [congruence|]. rewrite <- Ei, Ei' in *. rewrite <- En, En' in *. destruct (Z.ltb_spec (size (nodes s n') - p / PAGE_SIZE * PAGE_SIZE) PAGE_SIZE); unfold PAGE_SIZE in *; zlia. }
    destruct (Z.eqb_spec n' n) as [->|]; [|naive_solver].
    destruct ((i * PAGE_SIZE <=? p) && (p <? i * PAGE_SIZE + count)) eqn:E1.
    + zbool. pose proof (C1 a e (p - i * PAGE_SIZE) Ha) as Hb. unfold byte, place in Hb. rewrite En, Ei, Ef in Hb.
      replace (i * PAGE_SIZE + (p - i * PAGE_SIZE)) with p in Hb by lia. apply Hb; [lia|lia|by apply not_pending].
    + rewrite (proj2 (Z.leb_gt _ _)) by lia. cbn. destruct Hcase as [[_ ?]|?]; [|done]. apply andb_false_iff in E1. destruct E1; zbool; lia.
  - intros a' e' o Ha' Hsh Ho Hsz Hp. rewrite Esz in Hsz. rewrite cutting_cons in Hp. apply (C4 a' e' o); tauto.
  - intros a' e' Ha' Hsh Hp. rewrite Esz. rewrite cutting_cons in Hp. apply (C5 a' e'); tauto.
  - intros n' off' len' page' a' e' o [?|Hin']%elem_of_cons; [done|]. rewrite Esz. by apply (C6 n' off' len' page').
  - intros n' i' g f' o Hput Hg Ho Hu. rewrite write_content_gen in Hg. rewrite Esz, write_content_at. rewrite unbumped_cons in Hu.
    change (byte _ f' o) with (byte s f' o). rewrite (C7 n' i' g f' o) by tauto. destruct (Z.eqb_spec n' n) as [->|]; [|done].
    set (p := i' * PAGE_SIZE + o) in *. destruct (Z.ltb_spec p (size (nodes s n))) as [Hlt|]; [|done].
    destruct ((i * PAGE_SIZE <=? p) && (p <? i * PAGE_SIZE + count)) eqn:E1; [zbool; exfalso; apply Hu; left; split; [done|lia]|].
    by rewrite (proj2 (Z.leb_gt _ _) Hlt).
Qed.

(** The generation changes: pages read before are not taken. *)
Lemma coherent_bump s T chs chs' puts safe n :
  (forall n' p, pending chs' n' p <-> pending chs n' p) -> (forall n', cutting chs' n' <-> cutting chs n') ->
  (forall n' p, n' <> n -> unbumped chs' n' p <-> unbumped chs n' p) ->
  (forall n' offset len page, Opened n' offset len page ∈ chs' -> Opened n' offset len page ∈ chs) ->
  (forall n' offset buf len b, Writing n' offset buf len None b ∈ chs' -> exists b', Writing n' offset buf len None b' ∈ chs) ->
  (forall i g f, puts n i g f -> g <> u32 (cache_generation (nodes s n) + 1)) ->
  coherent s T chs puts safe -> coherent (bump n s) T chs' puts safe.
Proof.
  intros H1 H2 H3 H4 H5 H6 [C1 C2 C3 C4 C5 C6 C7].
  assert (forall n', size (nodes (bump n s) n') = size (nodes s n')) as Esz by (intros n'; cbn; by destruct (Z.eqb_spec n' n) as [->|]).
  split.
  - intros a e o Ha Ho. rewrite Esz, H1. by apply (C1 a).
  - intros n' off' buf' len' b p (b'&Hin)%H5. by eapply C2.
  - intros n' p. rewrite Esz. apply C3.
  - intros a e o Ha Hsh Ho. rewrite Esz, H2. by apply (C4 a).
  - intros a e Ha Hsh. rewrite Esz, H2. by apply (C5 a).
  - intros n' off' len' page' a e o Hin%H4. rewrite Esz. by apply (C6 n' off' len' page').
  - intros n' i g f o Hput Hg Ho. rewrite Esz. destruct (Z.eqb_spec n' n) as [->|Hne].
    + cbn in Hg. rewrite Z.eqb_refl in Hg. by destruct (H6 i g f Hput).
    + rewrite H3 by done. cbn in Hg. rewrite (proj2 (Z.eqb_neq _ _) Hne) in Hg. by apply (C7 n' i g).
Qed.

(** * Written pages *)

Lemma range_end_at offset len : in_range offset len -> range_end offset len = offset + len.
Proof. intros (H1&H2&H3). unfold range_end. rewrite u64_small by lia. destruct (Z.ltb_spec (offset + len) offset); lia. Qed.

Lemma patch_mem_at s e m offset buf len x : mem_ok s -> good_frame s (e_frame e) -> good_page s (e_node e) (e_index e) -> in_range offset len -> outside s buf len ->
  patch_mem (owned s) offset buf (range_end offset len) e m x =
  let o := x - view s (e_frame e) in
  if (0 <=? o) && (o <? PAGE_SIZE) && ((offset <=? place e o) && (place e o <? offset + len)) then m (buf + (place e o - offset)) else m x.
Proof.
  intros Hm Hf Hp Hr Hb. cbn zeta. unfold patch_mem. rewrite range_end_at by done. destruct (page_no_wrap s _ _ Hp) as [-> ->].
  change (u64 (e_frame e + _)) with (view s (e_frame e)). set (page := e_index e * PAGE_SIZE).
  set (lo := if offset <? page then page else offset). set (hi := if page + PAGE_SIZE <? offset + len then page + PAGE_SIZE else offset + len).
  set (o := x - view s (e_frame e)). assert (place e o = page + o) as -> by done. destruct Hr as (R1&R2&R3). destruct (Z.ltb_spec lo hi) as [Hlt|Hge]; cbn [andb].
  2: { destruct (_ && _) eqn:E; [|done]. zbool. exfalso. unfold lo, hi in Hge. destruct (Z.ltb_spec offset page), (Z.ltb_spec (page + PAGE_SIZE) (offset + len)); lia. }
  assert (page <= lo /\ offset <= lo /\ hi <= page + PAGE_SIZE /\ hi <= offset + len) as (L1&L2&L3&L4).
  { unfold lo, hi. destruct (Z.ltb_spec offset page), (Z.ltb_spec (page + PAGE_SIZE) (offset + len)); lia. }
  rewrite byte_no_wrap by (done || lia). rewrite (u64_small (buf + (lo - offset))) by (unfold outside in Hb; lia).
  pose proof (byte_outside s (e_frame e) (lo - page) buf len (lo - offset) Hm Hf ltac:(lia) Hb ltac:(lia)) as Hne.
  rewrite (proj2 (Z.eqb_neq _ _)) by congruence. cbn [negb]. rewrite memcpy_copied.
  - assert ((0 <=? o) && (o <? PAGE_SIZE) && ((offset <=? page + o) && (page + o <? offset + len)) =
      (view s (e_frame e) + (lo - page) <=? x) && (x <? view s (e_frame e) + (lo - page) + (hi - lo))) as ->.
    { apply eq_true_iff_eq. rewrite !andb_true_iff, !Z.leb_le, !Z.ltb_lt. unfold o, lo, hi in *.
      destruct (Z.ltb_spec offset page), (Z.ltb_spec (page + PAGE_SIZE) (offset + len)); lia. }
    destruct (_ && _) eqn:E; [|done]. f_equal. unfold o. lia.
  - lia.
  - destruct Hb as (B1&B2&B3). destruct Hm as [M1 M2]. rewrite view_at by done. destruct Hf as [F1 F2]. unfold PAGE_SIZE in *. lia.
Qed.

(** A change reaches the pages: those of other files stay. *)
Record settles (s s' : pcache) (T : Z -> Z -> Z) (n : Z) : Prop := {
  se_entries : forall a e, entries s' !! a = Some e -> entries s !! a = Some e;
  se_dirty : forall a e, entries s !! a = Some e -> e_dirty e = true -> entries s' !! a = Some e \/ size (nodes s (e_node e)) <= place e 0;
  se_content : content s' = content s;
  se_node : forall n', size (nodes s' n') = size (nodes s n') /\ cache_generation (nodes s' n') = cache_generation (nodes s n');
  se_view : forall f, view s' f = view s f;
  se_others : forall a e o, entries s !! a = Some e -> 0 <= o < PAGE_SIZE -> e_node e <> n -> byte s' (e_frame e) o = byte s (e_frame e) o;
  se_mem : forall x, (forall a e o, entries s !! a = Some e -> 0 <= o < PAGE_SIZE -> x <> view s (e_frame e) + o) -> mem s' x = mem s x;
  se_own : forall a e, entries s' !! a = Some e -> e_node e = n ->
    (forall o, 0 <= o < PAGE_SIZE -> place e o < size (nodes s n) -> byte s' (e_frame e) o = T n (place e o)) /\
    e_shared e = true /\ place e 0 < size (nodes s n)
}.

Lemma coherent_settles s s' T c chs puts safe : sane s (c :: chs) puts -> settles s s' T (ch_node c) ->
  (forall p, ~ unbumped (c :: chs) (ch_node c) p) -> coherent s T (c :: chs) puts safe -> coherent s' T chs puts safe.
Proof.
  intros Hs [S1 S2 S3 S4 S5 S6 S7 S8] Hb [C1 C2 C3 C4 C5 C6 C7]. pose proof (sn_unique _ _ _ Hs) as Hu. cbn in Hu. apply NoDup_cons in Hu as [Hn Hu].
  assert (forall n' p, n' <> ch_node c -> pending (c :: chs) n' p -> pending chs n' p) as P1.
  { intros n' p Hne. rewrite pending_cons. intros [Hc|?]; [|done]. destruct c as [|? ? ? ? [] ?|]; naive_solver. }
  assert (forall n', n' <> ch_node c -> cutting (c :: chs) n' -> cutting chs n') as P2.
  { intros n' Hne. rewrite cutting_cons. intros [Hc|?]; [|done]. destruct c; naive_solver. }
  assert (forall n' p, unbumped (c :: chs) n' p -> unbumped chs n' p) as P3.
  { intros n' p Hx. destruct (decide (n' = ch_node c)) as [->|Hne]; [by destruct (Hb p)|]. apply unbumped_cons in Hx as [Hc|?]; [|done].
    destruct c as [|? ? ? ? ? []|? ? []]; naive_solver. }
  split.
  - intros a e o Ha Ho Hsz Hp. rewrite (proj1 (S4 _)) in Hsz. destruct (decide (e_node e = ch_node c)) as [E|Hne].
    + rewrite E in *. by apply (S8 a e Ha E).
    + rewrite (S6 a e o (S1 a e Ha) Ho Hne). apply (C1 a e o (S1 a e Ha) Ho Hsz). naive_solver.
  - intros n' off' buf' len' b p Hin Hp. rewrite S7; [eapply C2; [by apply elem_of_cons; right|done]|].
    intros a e o Ha Ho. eapply (buffer_entry_apart s (c :: chs) puts n' off' buf' len' b); try done; [by apply elem_of_cons; right|lia].
  - intros n' p Hp Hd. rewrite (proj1 (S4 _)) in Hp. rewrite S3. apply C3; [done|]. intros a e Ha En Ei Ed.
    destruct (S2 a e Ha Ed) as [Ha'|Hge]; [by eapply Hd|]. unfold place in Hge. rewrite En, Ei in Hge. unfold PAGE_SIZE in *. zlia.
  - intros a e o Ha Hsh Ho Hsz Hc. destruct (decide (e_node e = ch_node c)) as [E|Hne]; [destruct (S8 a e Ha E) as (_&?&_); congruence|].
    rewrite (proj1 (S4 _)) in Hsz. rewrite (S6 a e o (S1 a e Ha) Ho Hne). apply (C4 a e o (S1 a e Ha)); naive_solver.
  - intros a e Ha Hsh Hc. rewrite (proj1 (S4 _)). destruct (decide (e_node e = ch_node c)) as [E|Hne]; [rewrite E; by apply (S8 a e Ha E)|].
    apply (C5 a e (S1 a e Ha)); naive_solver.
  - intros n' off' len' page' a e o Hin Ha En Hsh Ho Hsz. rewrite (proj1 (S4 _)) in Hsz. assert (n' <> ch_node c) as Hne.
    { intros E. apply Hn. rewrite <- E. apply list_elem_of_fmap. by exists (Opened n' off' len' page'). }
    rewrite (S6 a e o (S1 a e Ha) Ho) by congruence. eapply (C6 n' off' len' page' a); try done; [by apply elem_of_cons; right|by apply S1].
  - intros n' i g f o Hput Hg Ho Hx. rewrite (proj2 (S4 _)) in Hg. rewrite (proj1 (S4 _)), S3. rewrite <- (C7 n' i g f o Hput Hg Ho) by naive_solver.
    unfold byte. rewrite S5. apply S7. intros a e o' Ha Ho'. by eapply (put_entry_apart s (c :: chs) puts).
Qed.

Lemma gone_view gone s m s' f : gone_from gone (set_mem s m) s' -> view s' f = view s f.
Proof. intros Hg. unfold view. by rewrite (rs_owned _ _ (gf_rest _ _ _ Hg)). Qed.

(** A walk that settles a change. *)
Lemma walk_settles s s' T n goes val gone m : gone_from gone (set_mem s m) s' ->
  (forall a e, entries s' !! a = Some e <-> entries s !! a = Some e /\ (e_node e = n -> goes e = false)) ->
  (forall a e o, entries s !! a = Some e -> 0 <= o < PAGE_SIZE ->
     byte s' (e_frame e) o = if (e_node e =? n) && negb (goes e) then val e o (mem s) else byte s (e_frame e) o) ->
  (forall x, (forall a e o, entries s !! a = Some e -> 0 <= o < PAGE_SIZE -> x <> view s (e_frame e) + o) -> mem s' x = mem s x) ->
  (forall a e, entries s !! a = Some e -> e_node e = n -> goes e = true -> e_dirty e = true -> size (nodes s n) <= place e 0) ->
  (forall a e, entries s !! a = Some e -> e_node e = n -> goes e = false ->
     (forall o, 0 <= o < PAGE_SIZE -> place e o < size (nodes s n) -> val e o (mem s) = T n (place e o)) /\ e_shared e = true /\ place e 0 < size (nodes s n)) ->
  settles s s' T n.
Proof.
  intros W E1 E2 E3 Hd Hk. split.
  - intros a e Ha. by apply E1.
  - intros a e Ha Hdirty. destruct (decide (e_node e = n)) as [En|Hne]; [|left; by apply E1].
    destruct (goes e) eqn:Eg; [right; rewrite En; by eapply Hd|left; by apply E1].
  - apply (rs_content _ _ (gf_rest _ _ _ W)).
  - intros n'. apply (rs_node _ _ (gf_rest _ _ _ W) n').
  - intros f. by eapply gone_view.
  - intros a e o Ha Ho Hne. rewrite (E2 a e o Ha Ho). by rewrite (proj2 (Z.eqb_neq (e_node e) n)).
  - exact E3.
  - intros a e [Ha Hg]%E1 En. specialize (Hg En). destruct (Hk a e Ha En Hg) as [Hv ?]. split; [|done].
    intros o Ho Hsz. rewrite (E2 a e o Ha Ho), Hg, (proj2 (Z.eqb_eq _ _) En). by apply Hv.
Qed.

Lemma settled_unbumped c chs : ch_node c ∉ ch_node <$> chs ->
  match c with Opened _ _ _ _ => True | Writing _ _ _ _ _ b | Cutting _ _ b => b = true end -> forall p, ~ unbumped (c :: chs) (ch_node c) p.
Proof. intros Hn Hc p [Hx|Hx]%unbumped_cons; [destruct c; naive_solver|by apply (not_unbumped _ _ _ Hn) in Hx]. Qed.

(** What was written comes to the pages of shared mappings, the others go. *)
Lemma coherent_written s T chs puts safe n offset buf len : sane s (Writing n offset buf len None true :: chs) puts -> in_range offset len ->
  coherent s T (Writing n offset buf len None true :: chs) puts safe -> coherent (w_cache (written_locked n offset buf len s)) T chs puts safe.
Proof.
  intros Hs Hr Hc. pose proof (sn_unique _ _ _ Hs) as Hn. apply NoDup_cons in Hn as [Hn _]. cbn [ch_node] in Hn.
  assert (outside s buf len) as Hb by (eapply (sn_buffer _ _ _ Hs); apply elem_of_cons; by left).
  pose proof (sn_table _ _ _ Hs) as Ht. pose proof (sn_mem _ _ _ Hs) as Hm. destruct (written_walk n offset buf len s Ht) as [W _]. cbn zeta in W.
  set (val := fun e o (m : memory) => if (offset <=? place e o) && (place e o <? offset + len) then m (buf + (place e o - offset)) else m (view s (e_frame e) + o)).
  assert (forall a e m x, entries s !! a = Some e -> _) as Hp by exact (fun a e m x Ha => patch_mem_at s e m offset buf len x Hm (proj1 (sn_entry _ _ _ Hs a e Ha)) (proj2 (sn_entry _ _ _ Hs a e Ha)) Hr Hb).
  destruct (walked s (patch_mem (owned s) offset buf (range_end offset len)) val (fun x => exists j, 0 <= j < len /\ x = buf + j) Ht Hm) with (n := n) (goes := written_goes) (s' := w_cache (written_locked n offset buf len s)) as (E1&E2&E3).
  - intros a e Ha. apply (sn_entry _ _ _ Hs a e Ha).
  - intros a e m o Ha Ho. rewrite (Hp a) by done. cbn zeta. replace (view s (e_frame e) + o - view s (e_frame e)) with o by lia.
    rewrite (proj2 (Z.leb_le 0 o)), (proj2 (Z.ltb_lt o PAGE_SIZE)) by lia. done.
  - intros a e m x Ha Hx. rewrite (Hp a) by done. cbn zeta. destruct (_ && _) eqn:E; [|done]. zbool. exfalso. apply (Hx (x - view s (e_frame e))); lia.
  - intros a e o m m' Ha Ho Hmm HD. unfold val. destruct (_ && _) eqn:E; [|by apply Hmm]. zbool. apply HD. eexists; split; [|done]. lia.
  - intros a e x o Ha (j&Hj&->) Ho. by eapply byte_outside; [done|apply (sn_entry _ _ _ Hs a e Ha)|done|exact Hb|].
  - exact W.
  - eapply coherent_settles; [exact Hs| |by apply settled_unbumped|exact Hc]. eapply walk_settles; [exact W|exact E1|exact E2|exact E3|..].
    + intros a e Ha En Hg Hd. unfold written_goes in Hg. by rewrite (tb_dirty s Ht a e Ha Hd) in Hg.
    + intros a e Ha En Hg. cbn [ch_node] in *. assert (e_shared e = true) as Hsh by (unfold written_goes in Hg; by destruct (e_shared e)). split; [|split; [done|]].
      * intros o Ho Hsz. unfold val. destruct (_ && _) eqn:E.
        -- zbool. apply (co_buffer _ _ _ _ _ Hc n offset buf len true); [apply elem_of_cons; by left|lia].
        -- pose proof (co_told _ _ _ _ _ Hc a e o Ha Ho) as Htold. rewrite En in Htold. apply Htold; [done|]. rewrite pending_cons.
           intros [[_ Hx]|Hx]; [|by apply (not_pending _ _ _ Hn) in Hx]. apply andb_false_iff in E. destruct E; zbool; lia.
      * pose proof (co_within _ _ _ _ _ Hc a e Ha Hsh) as Hin. rewrite En in Hin. apply Hin. rewrite cutting_cons. intros [[]|Hx]. by apply (not_cutting _ _ Hn) in Hx.
Qed.

(** A page that is written back is left alone: what was written is what it holds. *)
Lemma patch_same s chs puts n i f offset buf len e a m : sane s chs puts -> entries s !! a = Some e -> e_node e = n ->
  offset = i * PAGE_SIZE -> buf = view s f -> 0 < len <= PAGE_SIZE -> i * PAGE_SIZE + len < 0x8000000000000000 -> 0 <= i ->
  (exists a0 e0, entries s !! a0 = Some e0 /\ e_node e0 = n /\ e_index e0 = i /\ e_frame e0 = f) ->
  patch_mem (owned s) offset buf (range_end offset len) e m = m.
Proof.
  intros Hs Ha En -> -> Hl Hmax Hi (a0&e0&Ha0&En0&Ei0&Ef0). unfold patch_mem. rewrite range_end_at by (unfold in_range, PAGE_SIZE in *; lia).
  destruct (sn_entry _ _ _ Hs a e Ha) as [Hf Hp]. destruct (page_no_wrap s _ _ Hp) as [-> ->]. change (u64 (e_frame e + _)) with (view s (e_frame e)).
  destruct (decide (e_index e = i)) as [Ei|Hne].
  - assert (a = a0) as <- by (eapply (tb_key s (sn_table _ _ _ Hs)); [done|done|congruence|congruence]). assert (e0 = e) as -> by congruence.
    rewrite Ei, Ef0, Z.ltb_irrefl. replace (i * PAGE_SIZE - i * PAGE_SIZE) with 0 by lia. rewrite Z.eqb_refl, andb_false_r. done.
  - replace (_ <? _) with false; [done|]. symmetry. apply Z.ltb_ge. unfold PAGE_SIZE in *.
    destruct (Z.ltb_spec (i * 4096) (e_index e * 4096)), (Z.ltb_spec (e_index e * 4096 + 4096) (i * 4096 + len)); lia.
Qed.

Lemma effects_same s effect effect' l : (forall a e m, a ∈ l -> entries s !! a = Some e -> effect e m = effect' e m) ->
  forall m, effects effect s l m = effects effect' s l m.
Proof.
  induction l as [|a l IH]; intros Hl m; [done|]. rewrite !effects_cons, IH by (intros b e m' Hb; apply Hl; by apply elem_of_cons; right). f_equal.
  destruct (entries s !! a) as [e|] eqn:Ea; [|done]. apply (Hl a e m); [apply elem_of_cons; by left|done].
Qed.

Lemma effects_none s effect l m : (forall a e m, a ∈ l -> entries s !! a = Some e -> effect e m = m) -> effects effect s l m = m.
Proof.
  intros Hl. rewrite (effects_same s effect (fun _ m => m) l Hl). induction l as [|a l IH]; [done|]. rewrite effects_cons.
  destruct (entries s !! a); apply IH; intros b e m' Hb; apply Hl; by apply elem_of_cons; right.
Qed.

Lemma coherent_written_page s T chs puts safe n i f len : sane s (Writing n (i * PAGE_SIZE) (view s f) len (Some f) true :: chs) puts ->
  0 < len <= PAGE_SIZE -> i * PAGE_SIZE + len <= size (nodes s n) -> (exists a e, entries s !! a = Some e /\ e_node e = n /\ e_index e = i /\ e_frame e = f) ->
  coherent s T (Writing n (i * PAGE_SIZE) (view s f) len (Some f) true :: chs) puts safe ->
  coherent (w_cache (written_locked n (i * PAGE_SIZE) (view s f) len s)) T chs puts safe.
Proof.
  intros Hs Hl Hsz Hex Hc. pose proof (sn_unique _ _ _ Hs) as Hn. apply NoDup_cons in Hn as [Hn _]. cbn [ch_node] in Hn.
  pose proof (sn_table _ _ _ Hs) as Ht. pose proof (sn_mem _ _ _ Hs) as Hm. destruct (written_walk n (i * PAGE_SIZE) (view s f) len s Ht) as [W _]. cbn zeta in W.
  rewrite effects_none in W.
  2: { intros a e m [Hv _]%list_elem_of_filter Ha. unfold visited in Hv. rewrite Ha in Hv. apply andb_true_iff in Hv as [Hv%Z.eqb_eq _].
       destruct Hex as (a0&e0&Ha0&En0&Ei0&Ef0). destruct (sn_entry _ _ _ Hs a0 e0 Ha0) as [_ (_&Hi&_)]. pose proof (sn_size _ _ _ Hs n).
       eapply (patch_same s _ _ n i f); try done; [lia|congruence|by exists a0, e0]. }
  rewrite <- (effects_none s (fun _ m => m) (filter (fun a => visited n written_goes s false a = true) (use s)) (mem s)) in W by done.
  destruct (walked s (fun _ m => m) (fun e o m => m (view s (e_frame e) + o)) (fun _ => False) Ht Hm) with (n := n) (goes := written_goes) (s' := w_cache (written_locked n (i * PAGE_SIZE) (view s f) len s)) as (E1&E2&E3);
    try done; [intros a e Ha; apply (sn_entry _ _ _ Hs a e Ha)|by intros a e o m m' _ Ho Hmm _; apply Hmm|].
  eapply coherent_settles; [exact Hs| |by apply settled_unbumped|exact Hc]. eapply (walk_settles _ _ _ _ written_goes (fun e o m => m (view s (e_frame e) + o))); [exact W|exact E1|exact E2|exact E3|..].
  - intros a e Ha En Hg Hd. unfold written_goes in Hg. by rewrite (tb_dirty s Ht a e Ha Hd) in Hg.
  - intros a e Ha En Hg. cbn [ch_node] in *. assert (e_shared e = true) as Hsh by (unfold written_goes in Hg; by destruct (e_shared e)). split; [|split; [done|]].
    + intros o Ho Hlt. pose proof (co_told _ _ _ _ _ Hc a e o Ha Ho) as Htold. rewrite En in Htold. apply Htold; [done|]. rewrite pending_cons.
      intros [[]|Hx]. by apply (not_pending _ _ _ Hn) in Hx.
    + pose proof (co_within _ _ _ _ _ Hc a e Ha Hsh) as Hin. rewrite En in Hin. apply Hin. rewrite cutting_cons. intros [[]|Hx]. by apply (not_cutting _ _ Hn) in Hx.
Qed.

(** * Cutting a file *)

Lemma coherent_cut s s' T chs puts safe n : n ∉ ch_node <$> chs -> entries s' = entries s -> content s' = content s -> mem s' = mem s -> owned s' = owned s ->
  (forall n', cache_generation (nodes s' n') = cache_generation (nodes s n')) -> (forall n', n' <> n -> size (nodes s' n') = size (nodes s n')) ->
  size (nodes s' n) <= size (nodes s n) -> coherent s T chs puts safe -> coherent s' T (Cutting n (size (nodes s' n)) false :: chs) puts safe.
Proof.
  intros Hn E1 E2 E3 E4 Eg Esz Hsz [C1 C2 C3 C4 C5 C6 C7].
  assert (forall f o, byte s' f o = byte s f o) as Hb by (intros f o; unfold byte, view; by rewrite E3, E4).
  assert (forall n', size (nodes s' n') <= size (nodes s n')) as Hle by (intros n'; destruct (decide (n' = n)) as [->|]; [done|rewrite Esz by done; lia]).
  split; rewrite ?E1, ?E2, ?E3.
  - intros a e o Ha Ho Hlt Hp. rewrite pending_cons in Hp. specialize (Hle (e_node e)). rewrite Hb. apply (C1 a e o Ha Ho); [lia|tauto].
  - intros n' off' buf' len' b p [?|Hin]%elem_of_cons; [done|]. by eapply C2.
  - intros n' p Hp. specialize (Hle n'). apply C3. lia.
  - intros a e o Ha Hsh Ho Hge Hc. rewrite cutting_cons in Hc. rewrite Esz in Hge by naive_solver. rewrite Hb. apply (C4 a e o Ha); tauto.
  - intros a e Ha Hsh Hc. rewrite cutting_cons in Hc. rewrite Esz by naive_solver. apply (C5 a e Ha); tauto.
  - intros n' off' len' page' a e o [?|Hin]%elem_of_cons Ha En Hsh Ho Hge; [done|]. rewrite Esz in Hge; [rewrite Hb; by eapply C6|].
    intros ->. apply Hn. apply list_elem_of_fmap. by exists (Opened n off' len' page').
  - intros n' i g f o Hput Hg Ho Hu. rewrite Eg in Hg. rewrite unbumped_cons in Hu. rewrite Hb, (C7 n' i g f o) by tauto.
    destruct (decide (n' = n)) as [->|]; [|by rewrite Esz]. assert (i * PAGE_SIZE + o < size (nodes s' n)) by (apply Z.nle_gt; naive_solver).
    by rewrite !(proj2 (Z.ltb_lt _ _)) by lia.
Qed.

Lemma clear_mem_at s e m sz x : mem_ok s -> good_frame s (e_frame e) -> good_page s (e_node e) (e_index e) -> place e 0 < sz ->
  clear_mem (owned s) sz e m x =
  let o := x - view s (e_frame e) in if (0 <=? o) && (o <? PAGE_SIZE) && (sz <=? place e o) then 0 else m x.
Proof.
  intros Hm Hf Hp Hsz. cbn zeta. unfold clear_mem. destruct (page_no_wrap s _ _ Hp) as [-> ->]. change (u64 (e_frame e + _)) with (view s (e_frame e)).
  set (page := e_index e * PAGE_SIZE). unfold place in *. fold page in Hsz |- *. set (o := x - view s (e_frame e)).
  destruct (Z.ltb_spec sz (page + PAGE_SIZE)) as [Hlt|Hge].
  - rewrite byte_no_wrap by (done || lia). rewrite memset_filled by lia.
    assert ((0 <=? o) && (o <? PAGE_SIZE) && (sz <=? page + o) =
      (view s (e_frame e) + (sz - page) <=? x) && (x <? view s (e_frame e) + (sz - page) + (PAGE_SIZE - (sz - page)))) as ->; [|done].
    apply eq_true_iff_eq. rewrite !andb_true_iff, !Z.leb_le, !Z.ltb_lt. unfold o. lia.
  - destruct (_ && _) eqn:E; [|done]. zbool. lia.
Qed.

(** The pages past the end go, the last keeps what is before it. *)
Lemma coherent_truncated s T chs puts safe n : let sz := size (nodes s n) in sane s (Cutting n sz true :: chs) puts ->
  coherent s T (Cutting n sz true :: chs) puts safe -> coherent (w_cache (truncated_locked n sz s)) T chs puts safe.
Proof.
  intros sz Hs Hc. pose proof (sn_unique _ _ _ Hs) as Hn. apply NoDup_cons in Hn as [Hn _]. cbn [ch_node] in Hn.
  pose proof (sn_table _ _ _ Hs) as Ht. pose proof (sn_mem _ _ _ Hs) as Hm. destruct (truncated_walk n sz s Ht) as [W _]. cbn zeta in W.
  assert (forall a e, entries s !! a = Some e -> truncated_goes sz e = false <-> e_shared e = true /\ place e 0 < sz) as Hgoes.
  { intros a e Ha. destruct (sn_entry _ _ _ Hs a e Ha) as [_ Hp]. unfold truncated_goes. rewrite (proj1 (page_no_wrap s _ _ Hp)), orb_false_iff, negb_false_iff, Z.leb_gt.
    unfold place. by rewrite Z.add_0_r. }
  set (effect := fun e m => if truncated_goes sz e then m else clear_mem (owned s) sz e m).
  assert (effects (clear_mem (owned s) sz) s (filter (fun a => visited n (truncated_goes sz) s false a = true) (use s)) (mem s) =
          effects effect s (filter (fun a => visited n (truncated_goes sz) s false a = true) (use s)) (mem s)) as HE.
  { apply effects_same. intros a e m [Hv _]%list_elem_of_filter Ha. unfold visited in Hv. rewrite Ha in Hv. apply andb_true_iff in Hv as [_ Hv%eqb_prop].
    unfold effect. by rewrite Hv. }
  rewrite HE in W. set (val := fun e o (m : memory) => if negb (truncated_goes sz e) && (sz <=? place e o) then 0 else m (view s (e_frame e) + o)).
  assert (forall a e m x, entries s !! a = Some e -> effect e m x = let o := x - view s (e_frame e) in
    if negb (truncated_goes sz e) && ((0 <=? o) && (o <? PAGE_SIZE) && (sz <=? place e o)) then 0 else m x) as Hp.
  { intros a e m x Ha. unfold effect. destruct (truncated_goes sz e) eqn:Eg; [done|]. apply (Hgoes a e Ha) in Eg as [_ Hlt].
    destruct (sn_entry _ _ _ Hs a e Ha). by rewrite clear_mem_at. }
  destruct (walked s effect val (fun _ => False) Ht Hm) with (n := n) (goes := truncated_goes sz) (s' := w_cache (truncated_locked n sz s)) as (E1&E2&E3).
  - intros a e Ha. apply (sn_entry _ _ _ Hs a e Ha).
  - intros a e m o Ha Ho. rewrite (Hp a) by done. cbn zeta. replace (view s (e_frame e) + o - view s (e_frame e)) with o by lia.
    rewrite (proj2 (Z.leb_le 0 o)), (proj2 (Z.ltb_lt o PAGE_SIZE)) by lia. done.
  - intros a e m x Ha Hx. rewrite (Hp a) by done. cbn zeta. destruct (_ && _) eqn:E; [|done]. zbool. exfalso. apply (Hx (x - view s (e_frame e))); lia.
  - intros a e o m m' Ha Ho Hmm _. unfold val. destruct (_ && _); [done|by apply Hmm].
  - done.
  - exact W.
  - eapply coherent_settles; [exact Hs| |by apply settled_unbumped|exact Hc]. eapply walk_settles; [exact W|exact E1|exact E2|exact E3|..].
    + intros a e Ha En Hg Hd. apply Z.nlt_ge. intros Hlt. rewrite (proj2 (Hgoes a e Ha)) in Hg; [done|]. split; [by apply (tb_dirty s Ht a)|done].
    + intros a e Ha En Hg. cbn [ch_node] in *. fold sz. destruct (proj1 (Hgoes a e Ha) Hg) as [Hsh Hlt]. split; [|done].
      intros o Ho Hsz. unfold val. rewrite (proj2 (Z.leb_gt _ _) Hsz), andb_false_r. pose proof (co_told _ _ _ _ _ Hc a e o Ha Ho) as Htold. rewrite En in Htold.
      apply Htold; [done|]. rewrite pending_cons. intros [[]|Hx]. by apply (not_pending _ _ _ Hn) in Hx.
Qed.

(** A file that nobody uses is removed: what it is told from now on is another file's. *)
Lemma coherent_dropped s T chs puts safe n : sane s chs puts -> n ∉ ch_node <$> chs -> (forall i g f, ~ puts n i g f) -> coherent s T chs puts safe ->
  coherent (w_cache (dropped_locked n s)) (fun n' p => if n' =? n then content s n p else T n' p) chs puts safe.
Proof.
  intros Hs Hn Hput [C1 C2 C3 C4 C5 C6 C7]. pose proof (sn_table _ _ _ Hs) as Ht. destruct (dropped_walk n s Ht) as [W _]. cbn zeta in W.
  set (s' := w_cache (dropped_locked n s)) in *. destruct W as [_ G2 _ [R1 R2 R3 _ R5]].
  assert (forall a e, entries s' !! a = Some e -> entries s !! a = Some e /\ e_node e <> n) as He.
  { intros a e. rewrite G2. destruct (decide _) as [|Hin]; [done|]. intros Ha. split; [done|]. intros En. apply Hin. apply list_elem_of_filter.
    split; [|apply (ln_use _ (tb_linked _ Ht)); by exists e]. unfold visited. by rewrite Ha, (proj2 (Z.eqb_eq _ _) En). }
  assert (forall f o, byte s' f o = byte s f o) as Hb by (intros f o; unfold byte, view; by rewrite R1, R2).
  assert (forall n', size (nodes s' n') = size (nodes s n') /\ cache_generation (nodes s' n') = cache_generation (nodes s n')) as Hnode by (intros n'; apply R5).
  split.
  - intros a e o [Ha En]%He Ho Hsz Hp. rewrite (proj1 (Hnode _)) in Hsz. rewrite Hb, (proj2 (Z.eqb_neq _ _) En). by apply (C1 a).
  - intros n' off' buf' len' b p Hin Hp. rewrite R2, (proj2 (Z.eqb_neq n' n)); [by eapply C2|]. intros ->. apply Hn. apply list_elem_of_fmap. by exists (Writing n off' buf' len' None b).
  - intros n' p Hp Hd. rewrite (proj1 (Hnode _)) in Hp. rewrite R3. destruct (Z.eqb_spec n' n) as [->|Hne]; [done|]. apply C3; [done|]. intros a e Ha En Ei Ed. apply (Hd a e); try done.
    rewrite G2. destruct (decide _) as [Hin|]; [|done]. apply list_elem_of_filter in Hin as [Hv _]. unfold visited in Hv. rewrite Ha in Hv.
    apply andb_true_iff in Hv as [Hv%Z.eqb_eq _]. congruence.
  - intros a e o [Ha En]%He Hsh Ho Hsz Hc. rewrite (proj1 (Hnode _)) in Hsz. rewrite Hb. by apply (C4 a).
  - intros a e [Ha En]%He Hsh Hc. rewrite (proj1 (Hnode _)). by apply (C5 a).
  - intros n' off' len' page' a e o Hin [Ha En]%He En' Hsh Ho Hsz. rewrite (proj1 (Hnode _)) in Hsz. rewrite Hb. by eapply (C6 n').
  - intros n' i g f o Hp Hg Ho Hu. rewrite (proj2 (Hnode _)) in Hg. rewrite (proj1 (Hnode _)), Hb, R3. by apply (C7 n' i g).
Qed.

(** * Memory that changes *)

(** Elsewhere. *)
Lemma coherent_elsewhere s s' T chs puts puts' (safe safe' : Z -> Prop) : NoDup (ch_node <$> chs) ->
  entries s' = entries s -> nodes s' = nodes s -> content s' = content s ->
  (forall a e o, entries s !! a = Some e -> 0 <= o < PAGE_SIZE -> byte s' (e_frame e) o = byte s (e_frame e) o) ->
  (forall n i g f o, puts' n i g f -> 0 <= o < PAGE_SIZE -> puts n i g f /\ byte s' f o = byte s f o) ->
  (forall n offset buf len b j, Writing n offset buf len None b ∈ chs -> 0 <= j < len -> mem s' (buf + j) = mem s (buf + j)) ->
  (forall f, f ∈ cached_frames s -> safe' f -> safe f) ->
  coherent s T chs puts safe -> coherent s' T chs puts' safe'.
Proof.
  intros Hu He Hn Hc Hb Hp Hw Hsafe HC. eapply coherent_moves; [done| |exact HC]. split.
  - done.
  - intros n. by rewrite Hn.
  - intros a e Ha. rewrite He in Ha. left. exists a, e. split; [done|]. split; [done|]. split; [intros o Ho; by apply (Hb a)|]. split; [done|]. by left.
  - intros a e Ha Hd. left. exists a, e. by rewrite He.
  - done.
  - intros n i g f Hput. left. split; [apply (Hp n i g f 0 Hput); unfold PAGE_SIZE; lia|]. intros o Ho. by apply (Hp n i g f o Hput).
  - done.
Qed.

Lemma store_byte_at s f o v g o' : mem_ok s -> good_frame s f -> good_frame s g -> 0 <= o < PAGE_SIZE -> 0 <= o' < PAGE_SIZE ->
  byte (store_byte f o v s) g o' = if (g =? f) && (o' =? o) then v else byte s g o'.
Proof.
  intros Hm Hf Hg Ho Ho'. unfold store_byte, byte. cbn [mem set_mem]. change (view (set_mem s _) g) with (view s g). rewrite byte_no_wrap by (done || lia).
  unfold store. destruct (Z.eqb_spec g f) as [->|Hne]; cbn [andb].
  - destruct (Z.eqb_spec o' o) as [->|]; [by rewrite Z.eqb_refl|]. rewrite (proj2 (Z.eqb_neq _ _)) by lia. done.
  - rewrite (proj2 (Z.eqb_neq _ _)); [done|]. by apply bytes_apart.
Qed.

Lemma store_byte_outside s f o v x : mem_ok s -> good_frame s f -> 0 <= o < PAGE_SIZE -> x <> view s f + o -> mem (store_byte f o v s) x = mem s x.
Proof. intros Hm Hf Ho Hx. unfold store_byte, store. cbn. rewrite byte_no_wrap by (done || lia). by rewrite (proj2 (Z.eqb_neq _ _)). Qed.

(** Through a mapping of a page in the cache. *)
Lemma coherent_store s T chs puts (safe safe' : Z -> Prop) a e o v : sane s chs puts -> entries s !! a = Some e -> e_dirty e = true -> 0 <= o < PAGE_SIZE ->
  (forall f, safe' f -> safe f /\ f <> e_frame e) -> may_store s chs (e_node e) (place e o) ->
  (forall n offset len f, Opened n offset len (Some f) ∈ chs -> offset <= size (nodes s n)) ->
  coherent s T chs puts safe ->
  coherent (store_byte (e_frame e) o v s) (fun n p => if (n =? e_node e) && (p =? place e o) then v else T n p) chs puts safe'.
Proof.
  intros Hs Ha Hd Ho Hsafe Hmay Hop [C1 C2 C3 C4 C5 C6 C7]. pose proof (sn_table _ _ _ Hs) as Ht. pose proof (sn_mem _ _ _ Hs) as Hm.
  destruct (sn_entry _ _ _ Hs a e Ha) as [Hf Hp]. set (s' := store_byte (e_frame e) o v s).
  assert (forall a' e' o', entries s !! a' = Some e' -> 0 <= o' < PAGE_SIZE -> byte s' (e_frame e') o' = if bool_decide (a' = a /\ o' = o) then v else byte s (e_frame e') o') as Hb.
  { intros a' e' o' Ha' Ho'. unfold s'. rewrite store_byte_at by (done || apply (sn_entry _ _ _ Hs a' e' Ha')).
    destruct (Z.eqb_spec (e_frame e') (e_frame e)) as [E|Hne]; cbn [andb].
    - assert (a' = a) as -> by (by eapply same_frame_entry). destruct (Z.eqb_spec o' o) as [->|Hne]; [by rewrite bool_decide_true|]. by rewrite bool_decide_false by tauto.
    - rewrite bool_decide_false; [done|]. intros [-> _]. congruence. }
  assert (forall a' e' o', entries s !! a' = Some e' -> 0 <= o' < PAGE_SIZE -> (e_node e' =? e_node e) && (place e' o' =? place e o) = bool_decide (a' = a /\ o' = o)) as Hkey.
  { intros a' e' o' Ha' Ho'. apply eq_true_iff_eq. rewrite andb_true_iff, !Z.eqb_eq, bool_decide_eq_true. unfold place, PAGE_SIZE in *. split; [|naive_solver].
    intros [E1 E2]. assert (e_index e' = e_index e) as E3 by lia. split; [by eapply (tb_key s Ht)|lia]. }
  split.
  - intros a' e' o' Ha' Ho' Hsz Hn. rewrite (Hb a') by done. rewrite (Hkey a') by done. destruct (bool_decide _); [done|by apply (C1 a')].
  - intros n' off' buf' len' b p Hin Hx. unfold s'. rewrite store_byte_outside; [|done|done|done|eapply byte_outside; [done|done|done|by eapply (sn_buffer _ _ _ Hs)|lia]].
    destruct ((n' =? e_node e) && (p =? place e o)) eqn:E; [|by eapply C2]. zbool. subst. destruct (Hmay _ Hin eq_refl Hx).
  - intros n' p Hx Hprem. destruct ((n' =? e_node e) && (p =? place e o)) eqn:E.
    + zbool. subst. destruct (Hsafe (e_frame e)) as [_ []]; [|done]. apply (Hprem a e); try done. unfold place, PAGE_SIZE in *. zlia.
    + apply C3; [done|]. intros a' e' Ha' En Ei Ed. by eapply Hsafe, Hprem.
  - intros a' e' o' Ha' Hsh Ho' Hsz Hn. rewrite (Hb a') by done. rewrite bool_decide_false; [by apply (C4 a')|]. intros [-> ->]. assert (e' = e) as -> by (cbn in Ha'; congruence).
    rewrite (tb_dirty s Ht a e Ha Hd) in Hsh. done.
  - exact C5.
  - intros n' off' len' page' a' e' o' Hin Ha' En Hsh Ho' Hsz. rewrite (Hb a') by done. rewrite bool_decide_false; [by eapply (C6 n')|]. intros [-> ->].
    assert (e' = e) as -> by (cbn in Ha'; congruence). subst n'. cbn in Hsz. destruct page' as [f|]; [pose proof (Hop _ _ _ _ Hin); lia|].
    destruct (Hmay _ Hin eq_refl). lia.
  - intros n' i g f o' Hput Hg Ho' Hx. etrans; [|exact (C7 n' i g f o' Hput Hg Ho' Hx)]. unfold s'. destruct (sn_put _ _ _ Hs _ _ _ _ Hput) as (Hgf&Hnc&_).
    rewrite store_byte_at by done. rewrite (proj2 (Z.eqb_neq f (e_frame e))); [done|]. intros ->. apply Hnc. by eapply entry_cached.
Qed.
