(* ===== verification/PcacheOrder.v ===== *)
(** The page cache keeps its promise: every part of every call, in any order that
    [orderly] allows, leaves what [PcacheCoherent] describes. *)
From stdpp Require Import base tactics numbers list sets gmap relations.
From Stdlib Require Import ZArith Lia.
From S2P Require Import Prelude Pmm Cow StringLib Pcache PcacheTable PcacheSystem PcacheCoherent.

Open Scope Z_scope.

(** * Changes of one task and of the others *)

Definition own_change (l : list op) : list change := match change_of l with Some c => [c] | None => [] end.

Lemma changes_app ts1 ts2 : changes (ts1 ++ ts2) = changes ts1 ++ changes ts2.
Proof. unfold changes. induction ts1 as [|t ts1 IH]; [done|]. cbn. destruct (change_of (todo t)); cbn; by rewrite IH. Qed.

Lemma changes_middle ts1 t ts2 : changes (ts1 ++ t :: ts2) ≡ₚ own_change (todo t) ++ changes (ts1 ++ ts2).
Proof.
  rewrite !changes_app. assert (changes (t :: ts2) = own_change (todo t) ++ changes ts2) as ->.
  { unfold changes, own_change. cbn. by destruct (change_of (todo t)). }
  solve_Permutation.
Qed.

Lemma coherent_perm s T chs chs' puts safe : chs ≡ₚ chs' -> coherent s T chs puts safe -> coherent s T chs' puts safe.
Proof. intros Hp. apply coherent_chs. intros c. by rewrite Hp. Qed.

Lemma change_in ts c : c ∈ changes ts -> exists t, t ∈ ts /\ change_of (todo t) = Some c.
Proof. unfold changes. rewrite list_elem_of_omap. intros (t&Ht&Hc). by exists t. Qed.
Lemma in_changes ts t c : t ∈ ts -> change_of (todo t) = Some c -> c ∈ changes ts.
Proof. intros Ht Hc. unfold changes. apply list_elem_of_omap. by exists t. Qed.

Lemma pending_perm chs chs' n p : chs ≡ₚ chs' -> pending chs n p -> pending chs' n p.
Proof. intros Hp. unfold pending. by setoid_rewrite Hp. Qed.
Lemma cutting_perm chs chs' n : chs ≡ₚ chs' -> cutting chs n -> cutting chs' n.
Proof. intros Hp. unfold cutting. by setoid_rewrite Hp. Qed.

(** * What stays *)

Record kindred (s s' : pcache) : Prop := {
  kd_hhdm : hhdm_off (frames (owned s')) = hhdm_off (frames (owned s));
  kd_total : total_frames (frames (owned s')) = total_frames (frames (owned s));
  kd_kind : forall n, regular (nodes s' n) = regular (nodes s n) /\ has_ops (nodes s' n) = has_ops (nodes s n) /\ has_truncate (nodes s' n) = has_truncate (nodes s n)
}.

#[local] Instance kindred_refl : Reflexive kindred.
Proof. by split. Qed.
#[local] Instance kindred_trans : Transitive kindred.
Proof.
  intros s1 s2 s3 [A1 A2 A3] [B1 B2 B3]. split; [congruence|congruence|]. intros n. destruct (A3 n) as (?&?&?), (B3 n) as (?&?&?). split_and!; congruence.
Qed.

Lemma kindred_rest s s' : rest_same s s' -> kindred s s'.
Proof. intros [R1 R2 R3 R4 R5]. split; [by rewrite R1|by rewrite R1|]. intros n. destruct (R5 n) as (?&?&?&_). done. Qed.

Section kindred.
Context (s s' : pcache) (Hk : kindred s s').

Lemma kindred_view f : view s' f = view s f.
Proof. unfold view. by rewrite (kd_hhdm _ _ Hk). Qed.
Lemma kindred_cacheable n : pcache_cacheable s' n = pcache_cacheable s n.
Proof. unfold pcache_cacheable. destruct (kd_kind _ _ Hk n) as (E1&E2&E3). by rewrite E1, E2, E3. Qed.
Lemma kindred_page n i : good_page s n i -> good_page s' n i.
Proof. unfold good_page. by rewrite kindred_cacheable. Qed.
Lemma kindred_frame f : good_frame s f -> good_frame s' f.
Proof. unfold good_frame. by rewrite (kd_total _ _ Hk). Qed.
Lemma kindred_mem : mem_ok s -> mem_ok s'.
Proof. unfold mem_ok. by rewrite (kd_total _ _ Hk), (kd_hhdm _ _ Hk). Qed.
Lemma kindred_outside buf len : outside s buf len -> outside s' buf len.
Proof. unfold outside. by rewrite (kd_total _ _ Hk), (kd_hhdm _ _ Hk). Qed.
Lemma kindred_op o : good_op s o -> good_op s' o.
Proof.
  destruct o; cbn; try done; try (intros [? ?]; split; [by apply kindred_page|done]).
  all: destruct page; [done|]; intros [? ?]; split; [done|by apply kindred_outside].
Qed.
End kindred.

(** * Parts that leave the files alone *)

Definition shares (o : op) (n i : Z) : Prop :=
  match o with Look n' i' shared _ | Put n' i' shared _ _ _ _ => n' = n /\ i' = i /\ shared <> 0 | _ => False end.
Definition uncached (s : pcache) (n i : Z) : Prop := forall a e, entries s !! a = Some e -> e_node e = n -> e_index e = i -> False.
Definition enters (o : op) (s : pcache) (n i f : Z) : Prop :=
  match o with Put n' i' _ _ g f' _ => n' = n /\ i' = i /\ f' = f /\ g = cache_generation (nodes s n) /\ uncached s n i | _ => False end.
Definition cleaned (o : op) (oks : list bool) (s : pcache) (e : pcache_entry) : Prop :=
  match o with
  | Clean n _ batch => e_node e = n /\ exists k, batch !! k = Some (e_index e, e_frame e) /\ oks !! k = Some true /\ pmm_get_frame_ref (e_frame e) (owned s) = 2
  | _ => False
  end.

Lemma enters_put o s n i f : enters o s n i f -> uncached s n i /\ exists shared tries memory, o = Put n i shared tries (cache_generation (nodes s n)) f memory.
Proof. destruct o; try done. intros (->&->&->&->&?). split; [done|]. by do 3 eexists. Qed.

Lemma cleaned_clean o oks s e : cleaned o oks s e -> exists last batch k, o = Clean (e_node e) last batch /\
  batch !! k = Some (e_index e, e_frame e) /\ oks !! k = Some true /\ pmm_get_frame_ref (e_frame e) (owned s) = 2.
Proof. destruct o; try done. intros (<-&k&?). do 2 eexists. by exists k. Qed.

Definition same_files (s s' : pcache) : Prop :=
  content s' = content s /\ forall n, size (nodes s' n) = size (nodes s n) /\ cache_generation (nodes s' n) = cache_generation (nodes s n).

Record turns (o : op) (oks : list bool) (s s' : pcache) : Prop := {
  tu_files : same_files s s';
  tu_entry : forall a e', entries s' !! a = Some e' ->
    (exists e, entries s !! a = Some e /\ same_page e e' /\ (e_shared e = true -> e_shared e' = true) /\
       (e_shared e' = true -> e_shared e = true \/ shares o (e_node e) (e_index e))) \/
    (enters o s (e_node e') (e_index e') (e_frame e') /\ (e_shared e' = true -> shares o (e_node e') (e_index e')));
  tu_dirty : forall a e, entries s !! a = Some e -> e_dirty e = true ->
    (exists e', entries s' !! a = Some e' /\ same_page e e' /\ e_dirty e' = true) \/ cleaned o oks s e
}.

Lemma same_files_rest s s' : rest_same s s' -> same_files s s'.
Proof. intros [_ _ R3 _ R5]. split; [done|]. intros n. apply R5. Qed.
Lemma same_files_trans s1 s2 s3 : same_files s1 s2 -> same_files s2 s3 -> same_files s1 s3.
Proof. intros [A1 A2] [B1 B2]. split; [congruence|]. intros n. destruct (A2 n), (B2 n). split; congruence. Qed.

Lemma turns_same o oks s s' : entries s' = entries s -> same_files s s' -> turns o oks s s'.
Proof.
  intros He Hf. split; [done| |].
  - intros a e Ha. rewrite He in Ha. left. exists e. split; [done|]. split; [done|]. split; [done|]. by left.
  - intros a e Ha Hd. left. exists e. rewrite He. by split_and!.
Qed.

Lemma turns_flag o oks s s' a e w : entries s !! a = Some e -> shares o (e_node e) (e_index e) ->
  flagged a e (mkEntry (e_node e) (e_index e) (e_frame e) true (e_dirty e || w)) s s' -> turns o oks s s'.
Proof.
  intros Ha Hs Hf. split; [apply same_files_rest, (fl_rest _ _ _ _ _ Hf)| |]; rewrite (fl_entries _ _ _ _ _ Hf).
  - intros a' e' [(<-&<-)|(Hne&Ha')]%lookup_insert_Some; left.
    + exists e. split; [done|]. split; [done|]. split; [done|]. by right.
    + exists e'. split; [done|]. split; [done|]. split; [done|]. by left.
  - intros a' e' Ha' Hd. left. destruct (decide (a' = a)) as [->|Hne].
    + assert (e' = e) as -> by congruence. rewrite lookup_insert_eq. eexists. split; [done|]. split; [done|]. cbn. by rewrite Hd.
    + rewrite lookup_insert_ne by done. by exists e'.
Qed.

Lemma turns_gone o oks s s1 s' gone : turns o oks s s1 -> gone_from gone s1 s' -> (forall a e, a ∈ gone -> entries s1 !! a = Some e -> e_dirty e = false) ->
  turns o oks s s'.
Proof.
  intros [U1 U2 U3] Hg Hc. split.
  - eapply same_files_trans; [done|]. apply same_files_rest, (gf_rest _ _ _ Hg).
  - intros a e'. rewrite (gf_entries _ _ _ Hg). destruct (decide _); [done|]. apply U2.
  - intros a e Ha Hd. destruct (U3 a e Ha Hd) as [(e'&He'&Hp&Hd')|?]; [|by right]. left. exists e'. split; [|done].
    rewrite (gf_entries _ _ _ Hg). destruct (decide _) as [Hin|]; [|done]. rewrite (Hc a e' Hin He') in Hd'. done.
Qed.

Lemma evictable_clean s l k a e : a ∈ take k (filter (fun a => evictable s a = true) l) -> entries s !! a = Some e -> e_dirty e = false.
Proof.
  intros Ha He. assert (a ∈ filter (fun a => evictable s a = true) l) as [Hv _]%list_elem_of_filter.
  { rewrite <- (take_drop k). by apply elem_of_app; left. }
  unfold evictable in Hv. rewrite He in Hv. apply andb_true_iff in Hv as [_ Hv]. by apply negb_true_iff in Hv.
Qed.

Lemma reclaim_turns o oks want s k s' out : table_ok s -> reclaim_locked want s = (k, s', out) -> turns o oks s s' /\ kindred s s' /\ mem s' = mem s.
Proof.
  intros Ht Hr. destruct (reclaim_ok want s Ht) as (k'&s1&out'&gone&E&Hg&_&_&Hgone). rewrite E in Hr. injection Hr as <- <- <-.
  split; [|split; [apply kindred_rest, (gf_rest _ _ _ Hg)|apply (rs_mem _ _ (gf_rest _ _ _ Hg))]].
  eapply (turns_gone o oks s s); [by apply turns_same|exact Hg|]. intros a e Ha. rewrite Hgone in Ha. by eapply evictable_clean.
Qed.

(** A frame that an entry gives out. *)
Lemma share_turns o oks s a e shared : table_ok s -> entries s !! a = Some e -> (shared <> 0 -> shares o (e_node e) (e_index e)) ->
  let s1 := set_owned s (pmm_ref_frame (e_frame e) (owned s)) in
  let s2 := if negb (shared =? 0) then mark_shared a (shared =? 2) s1 else s1 in
  turns o oks s s2 /\ kindred s s2 /\ mem s2 = mem s /\
  exists e', entries s2 !! a = Some e' /\ same_page e e' /\ (shared = 2 -> e_dirty e' = true).
Proof.
  intros Ht Ha Hs s1 s2. assert (kindred s s1) as Hk by (split; [cbn; by rewrite ref_frames|cbn; by rewrite ref_frames|done]).
  assert (turns o oks s s1) as Ht1 by (by apply turns_same).
  unfold s2. destruct (Z.eqb_spec shared 0) as [->|Hne]; cbn [negb]; [split_and!; [done|done|done|exists e; split; [done|split; [done|lia]]]|].
  pose proof (mark_shared_ok s1 a e (shared =? 2) (table_owned _ _ Ht) Ha) as Hf. split_and!.
  - pose proof (turns_flag o oks s1 _ a e _ Ha (Hs Hne) Hf) as [U1 U2 U3]. split; [done|done|]. intros b e0 Hb Hd.
    destruct (U3 b e0 Hb Hd) as [?|Hc]; [by left|]. specialize (Hs Hne). by destruct o.
  - etrans; [exact Hk|apply kindred_rest, (fl_rest _ _ _ _ _ Hf)].
  - apply (rs_mem _ _ (fl_rest _ _ _ _ _ Hf)).
  - rewrite (fl_entries _ _ _ _ _ Hf), lookup_insert_eq. eexists. split; [done|]. split; [done|]. intros ->. cbn. by rewrite orb_true_r.
Qed.

(** How [get_put] ends. *)
Inductive put_ends (n i shared g frame : Z) (s : pcache) : got -> bool -> list Z -> pcache -> Prop :=
| put_theirs a e : entries s !! a = Some e -> e_node e = n -> e_index e = i ->
    put_ends n i shared g frame s (Frame (e_frame e)) true []
      (set_stats (let s1 := set_owned s (pmm_ref_frame (e_frame e) (owned s)) in if negb (shared =? 0) then mark_shared a (shared =? 2) s1 else s1) add_raced)
| put_private : shared = 0 -> put_ends n i shared g frame s (Frame frame) false [] (set_stats s add_raced)
| put_fails r : shared <> 0 -> (forall f, r <> Frame f) -> put_ends n i shared g frame s r true [] (set_stats s add_raced)
| put_entered a s1 s2 gone s' : g = cache_generation (nodes s n) -> uncached s n i -> entered a n i frame s s1 ->
    s2 = set_owned (set_stats (if negb (shared =? 0) then mark_shared a (shared =? 2) s1 else s1) add_miss) (pmm_ref_frame frame (owned s)) ->
    table_ok s2 -> gone_from gone s2 s' -> (forall b e, b ∈ gone -> entries s2 !! b = Some e -> e_dirty e = false) ->
    put_ends n i shared g frame s (Frame frame) false (reverse (frame_at s2 <$> gone)) s'.

Lemma put_ends_ok memory n i shared g frame s r discard out s' : table_ok s -> frame ∉ cached_frames s -> count_of everything (entries s) + 1 < 0x100000000 ->
  get_put memory n i shared g frame s = (r, discard, out, s') -> put_ends n i shared g frame s r discard out s'.
Proof.
  intros Ht Hfr Hfew. unfold get_put. pose proof (find_locked_page s n i (tb_linked s Ht)) as Hf. destruct (find_locked n i s) as [a|] eqn:Hfind.
  { rewrite bool_decide_true by (by eexists). cbn [orb]. destruct Hf as (e&Ha&En&Ei). rewrite Ha. cbn [from_option]. intros [= <- <- <- <-]. by apply put_theirs. }
  rewrite (bool_decide_false (is_Some None)) by (by intros [? ?]). cbn [orb]. destruct (negb memory || _) eqn:Eg.
  { destruct (Z.eqb_spec shared 0) as [->|Hne]; intros [= <- <- <- <-]; [by apply put_private|]. apply put_fails; [done|]. by destruct memory. }
  apply orb_false_iff in Eg as [_ Eg%negb_false_iff%Z.eqb_eq]. destruct (enter_ok s n i frame Ht Hfind Hfr Hfew) as (a&s1&->&Hen).
  set (s1' := if negb (shared =? 0) then mark_shared a (shared =? 2) s1 else s1). set (e := mkEntry n i frame false false).
  assert (entries s1 !! a = Some e) as Ha by (rewrite (en_entries _ _ _ _ _ _ Hen); apply lookup_insert_eq).
  assert (table_ok s1' /\ owned s1' = owned s) as [Ht1 Ho1].
  { unfold s1'. destruct (negb _); [|split; [apply (en_ok _ _ _ _ _ _ Hen)|apply (rs_owned _ _ (en_rest _ _ _ _ _ _ Hen))]].
    pose proof (mark_shared_ok s1 a e (shared =? 2) (en_ok _ _ _ _ _ _ Hen) Ha) as Hfl. split; [apply (fl_ok _ _ _ _ _ Hfl)|].
    rewrite (rs_owned _ _ (fl_rest _ _ _ _ _ Hfl)). apply (rs_owned _ _ (en_rest _ _ _ _ _ _ Hen)). }
  rewrite Ho1. set (s2 := set_owned (set_stats s1' add_miss) (pmm_ref_frame frame (owned s))).
  assert (table_ok s2) as Ht2 by (by apply table_owned, table_stats).
  destruct (capacity s2 <? entry_count s2).
  - destruct (take_unmapped_ok (use s2) (entry_count s2 - capacity s2) 0 s2 [] Ht2 (ln_nodup _ (tb_linked _ Ht2)) ltac:(done)) as (s4&->&[G1 G2 G3 [R1 R2 R3 R4 R5]]).
    rewrite app_nil_r. intros [= <- <- <- <-]. eapply (put_entered _ _ _ _ _ _ a s1 s2); try done.
    + split; [by apply table_stats|exact G2|exact G3|by split].
    + intros b e0 Hb. by eapply evictable_clean.
  - intros [= <- <- <- <-]. eapply (put_entered _ _ _ _ _ _ a s1 s2 []); try done. by intros b e0 ?%elem_of_nil.
Qed.

(** The parts that leave the files alone, and what they hand out. *)
Definition file_quiet (o : op) : Prop :=
  match o with
  | Look _ _ _ _ | Read _ _ _ _ _ _ | Put _ _ _ _ _ _ _ | Count | Collect _ _ _ | Write_page _ _ _ | Clean _ _ _ | Reclaim _ | Release _ | Free _ => True
  | _ => False
  end.

Record quietly (o : op) (x : outcome) (oks : list bool) (s : pcache) (ops : list op) (new : list mapping) (s' : pcache) : Prop := {
  qu_turns : turns o oks s s';
  qu_kind : kindred s s';
  qu_mem : forall y, (forall n i shared tries g f memory j, Put n i shared tries g f memory ∈ ops -> 0 <= j < PAGE_SIZE -> y <> view s f + j) -> mem s' y = mem s y;
  qu_put : forall n i shared tries g f memory j, Put n i shared tries g f memory ∈ ops -> 0 <= j < PAGE_SIZE ->
    byte s' f j = if i * PAGE_SIZE + j <? size (nodes s n) then content s n (i * PAGE_SIZE + j) else 0;
  qu_fresh : forall n i shared tries g f memory, Put n i shared tries g f memory ∈ ops -> good_frame s f /\ owners (owned s) (f / PAGE_SIZE) = 0;
  qu_new : forall m a e, m ∈ new -> entries s' !! a = Some e -> e_frame e = m_frame m -> matches m e
}.

Lemma quietly_nothing o x oks s ops s' : turns o oks s s' -> kindred s s' -> mem s' = mem s ->
  (forall n i shared tries g f memory, Put n i shared tries g f memory ∉ ops) -> quietly o x oks s ops [] s'.
Proof.
  intros Ht Hk Hm Hno. split; [done|done| | | |].
  - intros y _. by rewrite Hm.
  - intros n i shared tries g f memory j Hin. by apply Hno in Hin.
  - intros n i shared tries g f memory Hin. by apply Hno in Hin.
  - by intros m a e ?%elem_of_nil.
Qed.

Lemma no_put_release (out : list Z) n i shared tries g f memory : Put n i shared tries g f memory ∉ Release <$> out.
Proof. intros (y&?&_)%list_elem_of_fmap. done. Qed.

Lemma look_quietly n i shared tries x oks s ops new s' t : table_ok s -> table_ok s' ->
  perform (Look n i shared tries) x t s = (ops, new, s') -> quietly (Look n i shared tries) x oks s ops new s'.
Proof.
  intros Ht Ht'. cbn [perform]. destruct tries as [|tries]; [intros [= <- <- <-]; apply quietly_nothing; [by apply turns_same|done|done|set_solver]|].
  unfold get_look. pose proof (find_locked_page s n i (tb_linked s Ht)) as Hf. destruct (find_locked n i s) as [a|].
  2: { intros [= <- <- <-]. apply quietly_nothing; [by apply turns_same|done|done|]. intros ? ? ? ? ? ? ? [?|?%elem_of_nil]%elem_of_cons; done. }
  destruct Hf as (e&Ha&En&Ei). rewrite Ha. cbn [from_option]. intros [= <- <- <-].
  destruct (share_turns (Look n i shared (S tries)) oks s a e shared Ht Ha) as (U1&U2&U3&(e2&He2&Hp&Hd)); [intros Hne; by rewrite En, Ei|]. cbn zeta in *.
  set (s2 := if negb (shared =? 0) then _ else _) in *. split.
  - destruct U1 as [[T1 T2] T3 T4]. by split.
  - destruct U2 as [K1 K2 K3]. by split.
  - intros y _. exact (f_equal (fun m => m y) U3).
  - by intros ? ? ? ? ? ? ? ? ?%elem_of_nil.
  - by intros ? ? ? ? ? ? ? ?%elem_of_nil.
  - intros m a' e' ->%list_elem_of_singleton Ha' Ef. cbn [m_frame] in Ef. destruct Hp as (P1&P2&P3).
    assert (a = a') as <- by (eapply (same_frame_entry _ _ _ e2 e' Ht'); [exact He2|exact Ha'|congruence]).
    assert (e' = e2) as -> by (cbn in Ha'; congruence). split; [cbn; congruence|]. split; [cbn; congruence|exact Hd].
Qed.

(** After [enter] and [mark_shared]. *)
Lemma entered_turns o oks s a n i frame shared s1 : table_ok s -> entered a n i frame s s1 -> enters o s n i frame -> (shared <> 0 -> shares o n i) ->
  let s2 := if negb (shared =? 0) then mark_shared a (shared =? 2) s1 else s1 in
  turns o oks s s2 /\ rest_same s s2 /\
  exists e, entries s2 !! a = Some e /\ e_node e = n /\ e_index e = i /\ e_frame e = frame /\ (shared = 2 -> e_dirty e = true).
Proof.
  intros Ht Hen Hent Hs s2. set (e := mkEntry n i frame false false).
  assert (entries s1 !! a = Some e) as Ha by (rewrite (en_entries _ _ _ _ _ _ Hen); apply lookup_insert_eq).
  assert (exists e2, entries s2 = <[a := e2]> (entries s) /\ same_page e e2 /\ (e_shared e2 = true -> shared <> 0) /\ (shared = 2 -> e_dirty e2 = true)) as (e2&He2&(P1&P2&P3)&Hsh&Hd).
  { unfold s2. destruct (Z.eqb_spec shared 0) as [->|Hne]; cbn [negb]; [exists e; rewrite (en_entries _ _ _ _ _ _ Hen); split_and!; done|].
    rewrite (fl_entries _ _ _ _ _ (mark_shared_ok s1 a e (shared =? 2) (en_ok _ _ _ _ _ _ Hen) Ha)), (en_entries _ _ _ _ _ _ Hen), insert_insert_eq.
    eexists. split; [done|]. split; [done|]. split; [done|]. by intros ->. }
  assert (rest_same s s2) as Hr.
  { unfold s2. destruct (negb _); [|apply (en_rest _ _ _ _ _ _ Hen)]. etrans; [apply (en_rest _ _ _ _ _ _ Hen)|].
    apply (fl_rest _ _ _ _ _ (mark_shared_ok s1 a e (shared =? 2) (en_ok _ _ _ _ _ _ Hen) Ha)). }
  cbn in P1, P2, P3. split; [|split; [done|]].
  - split; [by apply same_files_rest| |]; rewrite He2.
    + intros b e' [(<-&<-)|(Hne&Hb)]%lookup_insert_Some; [right; rewrite P1, P2, P3; split; [done|]; intros ?; by apply Hs, Hsh|].
      left. exists e'. split; [done|]. split; [done|]. split; [done|]. by left.
    + intros b e' Hb Hdb. left. exists e'. split; [|done]. rewrite lookup_insert_ne; [done|]. intros ->. by rewrite (en_fresh _ _ _ _ _ _ Hen) in Hb.
  - exists e2. rewrite He2, lookup_insert_eq. by split_and!.
Qed.

Lemma put_turns n i shared tries g frame memory oks s r discard out s' : table_ok s -> table_ok s' -> frame ∉ cached_frames s ->
  put_ends n i shared g frame s r discard out s' ->
  turns (Put n i shared tries g frame memory) oks s s' /\ kindred s s' /\ mem s' = mem s /\
  forall f, r = Frame f -> forall a e, entries s' !! a = Some e -> e_frame e = f -> matches (mkMapping n i f shared) e.
Proof.
  intros Ht Ht' Hfr. set (o := Put n i shared tries g frame memory). intros He. destruct He as [a e Ha En Ei|Hz|r' Hz Hr|a s1 s2 gone s2' Hg Hun Hen Es2 Ht2 Hgone Hclean]; cbn zeta.
  - destruct (share_turns o oks s a e shared Ht Ha) as (U1&U2&U3&(e2&He2&(P1&P2&P3)&Hd)); [intros Hne; by rewrite En, Ei|]. cbn zeta in *.
    set (s2 := if negb (shared =? 0) then _ else _) in *. split; [destruct U1; by split|]. split; [destruct U2; by split|]. split; [done|].
    intros f [= <-] a' e' Ha' Ef. assert (a = a') as <- by (eapply (same_frame_entry _ _ _ e2 e' Ht'); [exact He2|exact Ha'|congruence]).
    assert (e' = e2) as -> by (cbn in Ha'; congruence). split; [cbn; congruence|]. split; [cbn; congruence|exact Hd].
  - split; [by apply turns_same|]. split; [done|]. split; [done|]. intros f [= <-] a e Ha Ef. destruct Hfr. rewrite <- Ef. by eapply entry_cached.
  - split; [by apply turns_same|]. split; [done|]. split; [done|]. intros f ->. by destruct (Hr f).
  - destruct (entered_turns o oks s a n i frame shared s1 Ht Hen) as (U1&U2&(e2&He2&P1&P2&P3&P4)); [done|done|]. cbn zeta in *.
    set (s1' := if negb (shared =? 0) then _ else _) in *. pose proof (gf_rest _ _ _ Hgone) as Hr. split_and!.
    + eapply (turns_gone o oks s s2); [|exact Hgone|exact Hclean]. rewrite Es2. destruct U1 as [[T1 T2] T3 T4]. by split.
    + etrans; [|by apply kindred_rest]. rewrite Es2. destruct (kindred_rest _ _ U2) as [K1 K2 K3]. split; [cbn; by rewrite ref_frames|cbn; by rewrite ref_frames|done].
    + rewrite (rs_mem _ _ Hr), Es2. apply (rs_mem _ _ U2).
    + intros f [= <-] a' e' Ha' Ef. rewrite (gf_entries _ _ _ Hgone) in Ha'. destruct (decide _); [done|].
      assert (entries s2 !! a = Some e2) as He2' by (by rewrite Es2). assert (a = a') as <- by (eapply (same_frame_entry _ _ _ e2 e' Ht2); [done|done|congruence]).
      assert (e' = e2) as -> by congruence. split; [cbn; congruence|]. split; [cbn; congruence|exact P4].
Qed.

Lemma put_quietly n i shared tries g frame memory x oks s ops new s' t : table_ok s -> table_ok s' ->
  frame ∉ cached_frames s -> count_of everything (entries s) + 1 < 0x100000000 ->
  perform (Put n i shared tries g frame memory) x t s = (ops, new, s') -> quietly (Put n i shared tries g frame memory) x oks s ops new s'.
Proof.
  intros Ht Ht' Hfr Hfew. cbn [perform]. destruct (get_put memory n i shared g frame s) as [[[r discard] out] s4] eqn:Eput. intros [= <- <- <-].
  destruct (put_turns n i shared tries g frame memory oks s r discard out s4 Ht Ht' Hfr) as (U1&U2&U3&U4); [by eapply put_ends_ok|]. 
  assert (forall n' i' sh' tr' g' f' m', Put n' i' sh' tr' g' f' m' ∉ (if discard then [Free frame] else []) ++ (Release <$> out) ++ match r with Again => [Look n i shared tries] | _ => [] end) as Hno.
  { intros n' i' sh' tr' g' f' m' [Hin|[Hin|Hin]%elem_of_app]%elem_of_app; [by destruct discard; set_unfold in Hin; destruct Hin|by apply no_put_release in Hin|].
    destruct r; set_unfold in Hin; try done; by destruct Hin. }
  split; [done|done|by intros y _; rewrite U3|by intros n' i' sh' tr' g' f' m' j ?%Hno|by intros n' i' sh' tr' g' f' m' ?%Hno|].
  - intros m a e Hm. destruct r as [f| |]; [|by apply elem_of_nil in Hm..]. apply list_elem_of_singleton in Hm as ->. by apply U4.
Qed.

(** A page read into a new frame. *)
Lemma get_read_page amount n i s f s' : cow_ok (owned s) -> mem_ok s -> good_page s n i -> PAGE_SIZE <= amount -> get_read amount n i s = (f, s') -> f <> 0 ->
  entries s' = entries s /\ nodes s' = nodes s /\ content s' = content s /\ owned s' = snd (alloc_frame (owned s)) /\ good_frame s f /\ owners (owned s) (f / PAGE_SIZE) = 0 /\
  (forall y, (forall j, 0 <= j < PAGE_SIZE -> y <> view s f + j) -> mem s' y = mem s y) /\
  (forall j, 0 <= j < PAGE_SIZE -> byte s' f j = if i * PAGE_SIZE + j <? size (nodes s n) then content s n (i * PAGE_SIZE + j) else 0).
Proof.
  intros Hc Hm Hp Ha. unfold get_read. pose proof (alloc_frame_owners (owned s) Hc) as HA. pose proof (alloc_frame_hhdm (owned s)) as HH.
  destruct (alloc_frame (owned s)) as [f0 c] eqn:Eal. cbn [snd] in HH |- *. destruct (Z.eqb_spec f0 0) as [|Hne]; [intros [= <- <-]; done|]. intros [= <- <-] _.
  destruct HA as (_&_&[(?&_)|(k&Hk&Hr&Ho&_)]); [done|].
  assert (f0 / PAGE_SIZE = k) as Hdiv by (rewrite Hk; unfold PAGE_SIZE; zlia).
  assert (good_frame s f0) as Hf by (split; rewrite Hdiv; [done|lia]).
  assert (forall m, view (set_mem (set_owned s c) m) f0 = view s f0) as Hv by (intros m; unfold view; cbn; by rewrite HH).
  assert (view (set_owned s c) f0 = view s f0) as Hv0 by (unfold view; cbn; by rewrite HH).
  destruct (page_no_wrap s n i Hp) as [-> _]. destruct Hp as (Hcache&Hi&_). unfold pcache_cacheable in Hcache. apply andb_true_iff in Hcache as [[_ Hreg]%andb_true_iff _].
  unfold vfs_read. cbn [nodes set_mem set_owned]. rewrite Hreg. cbn [negb snd]. rewrite Hv, Hv0.
  set (available := if i * PAGE_SIZE <? size (nodes s n) then size (nodes s n) - i * PAGE_SIZE else 0). set (most := if PAGE_SIZE <? available then PAGE_SIZE else available).
  assert (0 <= most <= PAGE_SIZE /\ forall j, 0 <= j < PAGE_SIZE -> j < most <-> i * PAGE_SIZE + j < size (nodes s n)) as [Hmost Hj].
  { unfold most, available, PAGE_SIZE in *. destruct (Z.ltb_spec (i * 4096) (size (nodes s n))), (Z.ltb_spec 4096 (size (nodes s n) - i * 4096)), (Z.ltb_spec 4096 0); split; lia. }
  replace (if has_ops (nodes s n) then _ else most) with most by (destruct (has_ops _); lia). split_and!; try done; [by rewrite Hdiv|..]; cbn [mem set_mem].
  - intros y Hy. destruct (_ && _) eqn:E.
    + zbool. exfalso. apply (Hy (y - view s f0)); lia.
    + rewrite memset_filled by (unfold PAGE_SIZE; lia). destruct ((_ <=? _) && (y <? view s f0 + PAGE_SIZE)) eqn:E2; [|done]. zbool. exfalso. apply (Hy (y - view s f0)); lia.
  - intros j Hjr. assert (forall m1 m2, byte (set_mem (set_mem (set_owned s c) m1) m2) f0 j = m2 (view s f0 + j)) as -> by (intros; unfold byte, view; cbn; by rewrite HH).
    specialize (Hj j Hjr).
    rewrite (proj2 (Z.leb_le (view s f0) (view s f0 + j))) by lia. cbn [andb]. destruct (Z.ltb_spec (i * PAGE_SIZE + j) (size (nodes s n))).
    + rewrite (proj2 (Z.ltb_lt _ _)) by lia. cbn [content set_mem set_owned]. f_equal. lia.
    + rewrite (proj2 (Z.ltb_ge _ _)) by lia. rewrite memset_filled by (unfold PAGE_SIZE; lia). by rewrite (proj2 (Z.leb_le _ _)), (proj2 (Z.ltb_lt _ _)) by lia.
Qed.

Lemma read_quietly n i shared tries g again x oks s ops new s' t : table_ok s -> cow_ok (owned s) -> mem_ok s -> good_page s n i -> PAGE_SIZE <= amount x ->
  perform (Read n i shared tries g again) x t s = (ops, new, s') -> quietly (Read n i shared tries g again) x oks s ops new s'.
Proof.
  intros Ht Hc Hm Hp Ha. cbn [perform]. destruct (get_read (amount x) n i s) as [f s1] eqn:Er. set (o := Read n i shared tries g again).
  destruct (Z.eqb_spec f 0) as [->|Hne]; cbn [negb].
  - assert (exists c, s1 = set_owned s c /\ hhdm_off (frames c) = hhdm_off (frames (owned s)) /\ total_frames (frames c) = total_frames (frames (owned s))) as (c&->&Hh&Htot).
    { unfold get_read in Er. pose proof (alloc_frame_owners (owned s) Hc) as HA. pose proof (alloc_frame_hhdm (owned s)) as HH. destruct (alloc_frame (owned s)) as [f0 c].
      destruct (Z.eqb_spec f0 0) as [->|]; [|by injection Er as ? _]. injection Er as <-. exists c. split; [done|]. split; [done|apply HA]. }
    assert (kindred s (set_owned s c)) as Hk by (by split).
    assert (forall s', turns o oks (set_owned s c) s' -> turns o oks s s') as Hturn by (intros s'' [U1 U2 U3]; by split).
    destruct again; [intros [= <- <- <-]; apply quietly_nothing; [by apply Hturn, turns_same|done|done|set_solver]|].
    destruct (reclaim_locked 1 (set_owned s c)) as [[k s2] out] eqn:Erc. intros [= <- <- <-].
    destruct (reclaim_turns o oks 1 (set_owned s c) k s2 out (table_owned _ _ Ht) Erc) as (R1&R2&R3).
    apply quietly_nothing; [by apply Hturn|by etrans|done|]. intros n' i' sh' tr' g' f' m' Hin. destruct (_ <? _); [|by apply elem_of_nil in Hin].
    apply elem_of_app in Hin as [Hin|Hin%list_elem_of_singleton]; [by apply no_put_release in Hin|done].
  - destruct (get_read_page (amount x) n i s f s1 Hc Hm Hp Ha Er Hne) as (E1&E2&E3&E4&Hf&Hfree&E5&E6). intros [= <- <- <-]. split.
    + apply turns_same; [done|]. split; [done|]. intros n'. by rewrite E2.
    + pose proof (alloc_frame_owners (owned s) Hc) as HA. pose proof (alloc_frame_hhdm (owned s)) as HH. rewrite <- E4 in HH. destruct (alloc_frame (owned s)) as [f0 c].
      split; [done|rewrite E4; apply HA|by rewrite E2].
    + intros y Hy. apply E5. intros j Hj. eapply Hy; [apply list_elem_of_here|done].
    + intros n' i' sh' tr' g' f' m' j [= -> -> -> -> -> -> ->]%list_elem_of_singleton. apply E6.
    + by intros n' i' sh' tr' g' f' m' [= -> -> -> -> -> -> ->]%list_elem_of_singleton.
    + by intros m a e ?%elem_of_nil.
Qed.

Lemma clean_entries n l : forall s, table_ok s -> let s' := fold_left (clean_one n) l s in
  (forall a e', entries s' !! a = Some e' -> exists e, entries s !! a = Some e /\ same_page e e' /\ e_shared e' = e_shared e) /\
  (forall a e, entries s !! a = Some e -> e_dirty e = true -> (exists e', entries s' !! a = Some e' /\ same_page e e' /\ e_dirty e' = true) \/
     (((e_index e, e_frame e), true) ∈ l /\ e_node e = n /\ pmm_get_frame_ref (e_frame e) (owned s) = 2)).
Proof.
  induction l as [|p l IH]; intros s Ht; cbn zeta; cbn [fold_left].
  { split; [intros a e Ha; by exists e|]. intros a e Ha Hd. left. by exists e. }
  destruct (clean_one_ok n s p Ht) as (C1&_&C3). destruct (IH _ C1) as [I1 I2]. cbn zeta in *. set (s' := fold_left _ l _) in *. pose proof (rs_owned _ _ C3) as Ho.
  assert (entries (clean_one n s p) = entries s \/ exists a e, entries s !! a = Some e /\ p = ((e_index e, e_frame e), true) /\ e_node e = n /\
    pmm_get_frame_ref (e_frame e) (owned s) = 2 /\ entries (clean_one n s p) = <[a := mkEntry (e_node e) (e_index e) (e_frame e) (e_shared e) false]> (entries s)) as Hone.
  { destruct p as [[i f] ok]. unfold clean_one. pose proof (find_locked_page s n i (tb_linked s Ht)) as Hf. destruct (find_locked n i s) as [a|]; [|by left].
    destruct Hf as (e&Ha&En&Ei). rewrite Ha. destruct (ok && (e_frame e =? f) && _) eqn:E; [|by left]. zbool. subst. right. by exists a, e. }
  destruct Hone as [He|(a0&e0&Ha0&Ep&En0&Href&He)]; rewrite He in I1, I2.
  - split; [done|]. intros a e Ha Hd. destruct (I2 a e Ha Hd) as [?|(Hin&Hn&Hr)]; [by left|right]. rewrite Ho in Hr. split; [by apply elem_of_cons; right|done].
  - split.
    + intros a e' Ha'. destruct (I1 a e' Ha') as (e&[(<-&<-)|(Hne&Ha)]%lookup_insert_Some&Hp&Hsh); [by exists e0|by exists e].
    + intros a e Ha Hd. destruct (decide (a = a0)) as [->|Hne].
      * assert (e = e0) as -> by congruence. right. split; [apply elem_of_cons; by left|done].
      * destruct (I2 a e) as [?|(Hin&Hn&Hr)]; [by rewrite lookup_insert_ne|done|by left|right]. rewrite Ho in Hr. split; [by apply elem_of_cons; right|done].
Qed.

Lemma clean_turns n last batch oks s : table_ok s -> turns (Clean n last batch) oks s (clean n batch oks s).
Proof.
  intros Ht. destruct (clean_entries n (zip batch oks) s Ht) as [C1 C2]. destruct (clean_all_ok n (zip batch oks) s Ht) as (_&_&C3). fold (clean n batch oks s) in *.
  cbn zeta in *. split; [by apply same_files_rest| |].
  - intros a e' Ha. destruct (C1 a e' Ha) as (e&He&Hp&Hs). left. exists e. split; [done|]. split; [done|]. rewrite Hs. split; [done|by left].
  - intros a e Ha Hd. destruct (C2 a e Ha Hd) as [?|(Hin&Hn&Hr)]; [by left|right]. split; [done|]. apply list_elem_of_lookup in Hin as (k&Hk).
    apply lookup_zip_with_Some in Hk as (p&b&[= -> ->]&Hp&Hb). by exists k.
Qed.

(** All of them. *)
Lemma perform_quietly o x s ops new s' t : file_quiet o -> table_ok s -> table_ok s' -> cow_ok (owned s) -> mem_ok s -> good_op s o ->
  total_frames (frames (owned s')) = total_frames (frames (owned s)) -> (forall f, sole_frame o = Some f -> f ∉ cached_frames s /\ count_of everything (entries s) + 1 < 0x100000000) ->
  (forall n i shared tries g again, o = Read n i shared tries g again -> PAGE_SIZE <= amount x) ->
  perform o x t s = (ops, new, s') -> quietly o x (written t) s ops new s'.
Proof.
  intros Hq Ht Ht' Hc Hm Hgood Htot Hs Hfits Hp. destruct o; try done; cbn [good_op sole_frame] in *.
  - by eapply look_quietly.
  - eapply read_quietly; [done|done|done|apply Hgood|by eapply Hfits|done].
  - destruct (Hs frame eq_refl). by eapply put_quietly.
  - injection Hp as <- <- <-. apply quietly_nothing; [by apply turns_same|by split|done|set_solver].
  - cbn [perform] in Hp. pose proof (collect_spec s n cursor last0) as Hcol. destruct (collect n cursor last0 s) as [batch s1]. destruct Hcol as (_&_&Es1).
    assert (frames (fold_left (fun c p => pmm_ref_frame (snd p) c) batch (owned s)) = frames (owned s)) as Hfr.
    { generalize (owned s). clear. induction batch as [|p b IH]; intros c; [done|]. cbn. rewrite IH. apply ref_frames. }
    assert (turns (Collect n cursor last0) (written t) s s1) as HT by (subst s1; by apply turns_same).
    assert (kindred s s1) as HK by (subst s1; split; [cbn; by rewrite Hfr|cbn; by rewrite Hfr|done]). assert (mem s1 = mem s) as HM by (by subst s1).
    destruct batch as [|p b]; injection Hp as <- <- <-; apply quietly_nothing; try done; [set_solver|].
    intros n' i' sh' tr' g' f' m' [?|[(q&?&_)%list_elem_of_fmap|?%list_elem_of_singleton]%elem_of_app]%elem_of_cons; done.
  - cbn [perform] in Hp. destruct (page_range n index s) as [[]|]; injection Hp as <- <- <-; (apply quietly_nothing; [by apply turns_same|done|done|]); [|set_solver].
    by intros n' i' sh' tr' g' f' m' ?%list_elem_of_singleton.
  - cbn [perform] in Hp. injection Hp as <- <- <-. destruct (clean_all_ok n (zip batch (written t)) s Ht) as (_&_&C3). cbn zeta in C3. fold (clean n batch (written t) s) in C3.
    apply quietly_nothing; [by apply clean_turns|by apply kindred_rest|apply (rs_mem _ _ C3)|].
    intros n' i' sh' tr' g' f' m' [(q&?&_)%list_elem_of_fmap|?%list_elem_of_singleton]%elem_of_app; done.
  - cbn [perform] in Hp. destruct (reclaim_locked want s) as [[k s1] out] eqn:Er. injection Hp as <- <- <-.
    destruct (reclaim_turns (Reclaim want) (written t) want s k s1 out Ht Er) as (R1&R2&R3). apply quietly_nothing; try done. intros. apply no_put_release.
  - injection Hp as <- <- <-. apply quietly_nothing; [by apply turns_same|split; [cbn; apply unref_hhdm|done|done]|done|set_solver].
  - injection Hp as <- <- <-. apply quietly_nothing; [by apply turns_same|split; [cbn; apply free_frame_hhdm|done|done]|done|set_solver].
Qed.

(** They keep coherence. *)
Lemma quietly_coherent o x oks s ops new s' T chs puts puts' (safe safe' : Z -> Prop) : sane s chs puts -> coherent s T chs puts safe -> quietly o x oks s ops new s' ->
  (forall n i, shares o n i -> i * PAGE_SIZE < size (nodes s n)) ->
  (forall n i f, enters o s n i f -> puts n i (cache_generation (nodes s n)) f) ->
  (forall a e, entries s !! a = Some e -> cleaned o oks s e -> safe (e_frame e)) ->
  (forall n i g f, puts' n i g f -> puts n i g f \/ exists shared tries memory, Put n i shared tries g f memory ∈ ops) ->
  (forall n i shared tries g f memory, Put n i shared tries g f memory ∈ ops -> good_frame s f /\ f ∉ cached_frames s /\ forall n' i' g', ~ puts n' i' g' f) ->
  (forall f, f ∈ cached_frames s -> safe' f -> safe f) ->
  (forall n offset buf len page b, Writing n offset buf len page b ∈ chs -> offset + len <= size (nodes s n)) ->
  (forall n offset buf len f b p, Writing n offset buf len (Some f) b ∈ chs -> offset <= p < offset + len -> ~ uncached s n (p / PAGE_SIZE)) ->
  (forall n sz b, Cutting n sz b ∈ chs -> sz = size (nodes s n)) ->
  coherent s' T chs puts' safe'.
Proof.
  intros Hs Hc [[[U1 U2] U3 U4] K M P _ _] Hsh Hent Hcl Hputs Hfresh Hsafe Hwithin Hback Hcut. pose proof (sn_mem _ _ _ Hs) as Hm.
  assert (forall f j, good_frame s f -> 0 <= j < PAGE_SIZE -> (forall n i shared tries g f' memory, Put n i shared tries g f' memory ∈ ops -> f' <> f) -> byte s' f j = byte s f j) as Hbyte.
  { intros f j Hf Hj Hne. unfold byte. rewrite (kindred_view _ _ K). apply M. intros n i shared tries g f' memory j' Hin Hj'. apply bytes_apart; try done; [apply (Hfresh _ _ _ _ _ _ _ Hin)|].
    intros E. by eapply Hne. }
  assert (forall a e j, entries s !! a = Some e -> 0 <= j < PAGE_SIZE -> byte s' (e_frame e) j = byte s (e_frame e) j) as Hbe.
  { intros a e j Ha Hj. apply Hbyte; [apply (sn_entry _ _ _ Hs a e Ha)|done|]. intros n i shared tries g f' memory Hin ->. apply (Hfresh _ _ _ _ _ _ _ Hin). by eapply entry_cached. }
  assert (forall n i g f j, puts n i g f -> 0 <= j < PAGE_SIZE -> byte s' f j = byte s f j) as Hbp.
  { intros n i g f j Hput Hj. apply Hbyte; [apply (sn_put _ _ _ Hs _ _ _ _ Hput)|done|]. intros n' i' shared tries g' f' memory Hin ->. by eapply (Hfresh _ _ _ _ _ _ _ Hin). }
  eapply coherent_moves; [apply Hs| |exact Hc]. split; [done|done| | |done| |].
  - intros a e' Ha'. destruct (U3 a e' Ha') as [(e&Ha&Hp&Hs1&Hs2)|[He Hs1]].
    + left. exists a, e. split; [done|]. split; [done|]. split; [intros j Hj; by eapply Hbe|]. split; [done|]. intros Hx. destruct (Hs2 Hx) as [?|Hx']; [by left|right].
      unfold place. rewrite Z.add_0_r. by apply Hsh.
    + right. pose proof (Hent _ _ _ He) as Hput. assert (uncached s (e_node e') (e_index e')) as Hun by (by destruct o; try done; destruct He as (?&?&?&?&?)).
      assert (forall j, 0 <= j < PAGE_SIZE -> ~ unbumped chs (e_node e') (place e' j) -> byte s' (e_frame e') j = if place e' j <? size (nodes s (e_node e')) then content s (e_node e') (place e' j) else 0) as Hb.
      { intros j Hj Hu. rewrite (Hbp _ _ _ _ j Hput Hj). by apply (co_put _ _ _ _ _ Hc _ _ _ _ j Hput). }
      split; [|split].
      * intros j Hj Hlt Hp. rewrite (proj1 (U2 _)) in Hlt. rewrite Hb; [rewrite (proj2 (Z.ltb_lt _ _) Hlt)|done|].
        -- destruct (sn_put _ _ _ Hs _ _ _ _ Hput) as (_&_&_&Hi&_). apply (co_content _ _ _ _ _ Hc); [unfold place, PAGE_SIZE in *; lia|].
           intros a0 e0 Ha0 En0 Ei0. exfalso. eapply (Hun a0 e0); [done|done|]. rewrite Ei0. unfold place, PAGE_SIZE in *. zlia.
        -- intros [(offset&buf&len&[f|]&Hin&Hr)|(sz&Hin&Hr)].
           ++ apply (Hback _ _ _ _ _ _ _ Hin Hr). replace (place e' j / PAGE_SIZE) with (e_index e') by (unfold place, PAGE_SIZE in *; zlia). done.
           ++ apply Hp. by exists offset, buf, len, false.
           ++ rewrite (Hcut _ _ _ Hin) in Hr. lia.
      * intros j Hj Hge Hp. rewrite (proj1 (U2 _)) in Hge. rewrite Hb; [by rewrite (proj2 (Z.ltb_ge _ _) Hge)|done|].
        intros [(offset&buf&len&page&Hin&Hr)|(sz&Hin&Hr)]; [pose proof (Hwithin _ _ _ _ _ _ Hin); lia|]. apply Hp. by exists sz, false.
      * intros Hx. rewrite (proj1 (U2 _)). unfold place. rewrite Z.add_0_r. by apply Hsh, Hs1.
  - intros a e Ha Hd. destruct (U4 a e Ha Hd) as [(e'&?&?&?)|?]; [left; by exists a, e'|right; by eapply Hcl].
  - intros n i g f Hput. destruct (Hputs n i g f Hput) as [Hold|(shared&tries&memory&Hin)]; [left|right].
    + split; [done|]. intros j Hj. by eapply Hbp.
    + intros j Hj. by eapply P.
  - intros n offset buf len b j Hin Hj. apply M. intros n' i shared tries g f memory j' Hin' Hj'. eapply byte_outside; [done|apply (Hfresh _ _ _ _ _ _ _ Hin')|done| |done].
    by eapply (sn_buffer _ _ _ Hs).
Qed.

(** * Tasks *)

Definition resting (l : list op) : Prop := exists l1 l2, l = l1 ++ l2 /\ Forall quiet l1 /\ (l2 = [] \/ exists o, l2 = [o] /\ opening o).

Lemma resting_shaped s t : resting (todo t) -> shaped s t.
Proof. intros (l1&l2&E&Hq&[->|(o&->&Ho)]); [eapply shape_quiet; [exact E|]; by rewrite app_nil_r|by eapply shape_opening]. Qed.

Lemma resting_no_change l : resting l -> change_of l = None.
Proof.
  intros (l1&l2&->&Hq&Hl). destruct Hq as [|o l1 Ho Hq].
  - destruct Hl as [->|(o&->&Ho)]; [done|]. destruct o as [| | |? ? ? ? []| | | | | | | | | | | | |]; done.
  - destruct o; try done. destruct Hq as [|o' l1' Ho' Hq]; [|by destruct o'].
    destruct Hl as [->|(o'&->&Ho')]; [done|]. by destruct o'.
Qed.

Lemma resting_no_clean l n last batch : resting l -> Clean n last batch ∉ l.
Proof.
  intros (l1&l2&->&Hq&Hl) [Hin|Hin]%elem_of_app; [by apply (proj1 (Forall_forall _ _) Hq) in Hin|].
  destruct Hl as [->|(o&->&Ho)]; [by apply elem_of_nil in Hin|]. apply list_elem_of_singleton in Hin. by subst.
Qed.

Lemma resting_app l1 l : Forall quiet l1 -> resting l -> resting (l1 ++ l).
Proof. intros H (l2&l3&->&Hq&Hl). exists (l1 ++ l2), l3. split; [by rewrite app_assoc|]. split; [by apply Forall_app|done]. Qed.
Lemma resting_cons o l : resting (o :: l) -> quiet o -> resting l.
Proof.
  intros (l1&l2&E&Hq&Hl) Ho. destruct l1 as [|o' l1]; [|injection E as -> ->; apply Forall_cons in Hq as [_ Hq]; by exists l1, l2].
  cbn in E. destruct Hl as [->|(o'&->&Ho')]; [done|]. injection E as -> ->. by destruct o'.
Qed.
Lemma resting_nil : resting [].
Proof. exists [], []. split; [done|]. split; [done|by left]. Qed.

Lemma task_resting s chs ms t : resting (todo t) -> (forall o, o ∈ todo t -> good_op s o) -> task_tidy s chs ms t.
Proof.
  intros Hr Hg. split; [done|by apply resting_shaped|..].
  - intros n last batch p Hin. by apply (resting_no_clean _ n last batch Hr) in Hin.
  - intros n last batch Hin. by apply (resting_no_clean _ n last batch Hr) in Hin.
  - intros n last batch k p Hin. by apply (resting_no_clean _ n last batch Hr) in Hin.
Qed.

Lemma quiet_release (l : list Z) : Forall quiet (Release <$> l).
Proof. apply Forall_fmap, Forall_true. done. Qed.

Lemma quiet_ops o x t s ops new s' : quiet o -> perform o x t s = (ops, new, s') -> Forall quiet ops /\ (forall o', good_op s o -> o' ∈ ops -> good_op s o').
Proof.
  assert (forall l o', o' ∈ Release <$> l -> good_op s o') as Hrel by (by intros l o' (y&->&_)%list_elem_of_fmap).
  intros Hq. destruct o; try done; cbn [perform].
  - destruct tries; [by intros [= <- <- <-]; split; [|intros o' _ ?%elem_of_nil]|]. destruct (get_look _ _ _ s) as [[] ?]; intros [= <- <- <-]; split; try by repeat constructor.
    + by intros o' _ ?%elem_of_nil.
    + by intros o' ? ->%list_elem_of_singleton.
  - destruct (get_read _ _ _ s) as [f s1]. destruct (negb _); [intros [= <- <- <-]; split; [by repeat constructor|by intros o' ? ->%list_elem_of_singleton]|].
    destruct again; [by intros [= <- <- <-]; split; [|intros o' _ ?%elem_of_nil]|]. destruct (reclaim_locked 1 s1) as [[k s2] out]. intros [= <- <- <-].
    destruct (0 <? k); [|by split; [|intros o' _ ?%elem_of_nil]]. split; [apply Forall_app; split; [apply quiet_release|by repeat constructor]|].
    intros o' ? [?| ->%list_elem_of_singleton]%elem_of_app; [by eapply Hrel|done].
  - destruct (get_put _ _ _ _ _ _ s) as [[[r discard] out] s1]. intros [= <- <- <-]. split.
    + apply Forall_app. split; [destruct discard; by repeat constructor|]. apply Forall_app. split; [apply quiet_release|destruct r; by repeat constructor].
    + intros o' Hg [Hin|[Hin|Hin]%elem_of_app]%elem_of_app; [|by eapply Hrel|].
      * destruct discard; [apply list_elem_of_singleton in Hin as ->; done|by apply elem_of_nil in Hin].
      * destruct r; try by apply elem_of_nil in Hin. apply list_elem_of_singleton in Hin as ->. done.
  - intros [= <- <- <-]. by split; [|intros o' _ ?%elem_of_nil].
  - intros [= <- <- <-]. by split; [|intros o' _ ?%elem_of_nil].
  - intros [= <- <- <-]. split; [apply quiet_release|]. intros o' _. apply Hrel.
  - destruct (reclaim_locked want s) as [[k s1] out]. intros [= <- <- <-]. split; [apply quiet_release|]. intros o' _. apply Hrel.
  - intros [= <- <- <-]. by split; [|intros o' _ ?%elem_of_nil].
  - intros [= <- <- <-]. by split; [|intros o' _ ?%elem_of_nil].
Qed.

(** What a task relies on stays. *)
Lemma page_range_same n i s s' : size (nodes s' n) = size (nodes s n) -> page_range n i s' = page_range n i s.
Proof. intros E. unfold page_range. by rewrite E. Qed.

Lemma underway_stays s s' n batch k pre k' : kindred s s' -> (pre <> [] -> (forall l, pre <> Release <$> l) -> size (nodes s' n) = size (nodes s n)) ->
  underway s n batch k pre k' -> underway s' n batch k pre k'.
Proof.
  intros Hk Hsz Hu. destruct Hu as [|i f len Hb Hr|i f len Hb Hr|i f len j Hj Hb Hl Hle|i f len j Hj Hb Hl Hle|l]; [by constructor| | | | |by constructor].
  all: assert (size (nodes s' n) = size (nodes s n)) as E by (apply Hsz; [done|intros l El; by destruct l]); rewrite <- (kindred_view _ _ Hk).
  - apply under_gap; [done|by rewrite (page_range_same _ _ s)].
  - apply under_content; [done|by rewrite (page_range_same _ _ s)].
  - eapply under_bump; try done. by rewrite E.
  - eapply under_written; try done. by rewrite E.
Qed.

Lemma shaped_stays s s' t : kindred s s' -> (forall c, change_of (todo t) = Some c -> size (nodes s' (ch_node c)) = size (nodes s (ch_node c))) -> shaped s t -> shaped s' t.
Proof.
  intros Hk Hsz [l E Hq|l o E Hq Ho|? ? ? ? E|? ? ? ? E|? ? ? ? E|? ? E|? ? E|n last batch (pre&k&Hu&E)];
    [by eapply shape_quiet|by eapply shape_opening|by eapply shape_content|by eapply shape_bump_written|by eapply shape_written|by eapply shape_bump_truncated|by eapply shape_truncated|].
  eapply shape_back. exists pre, k. split; [|done]. eapply underway_stays; [done| |done]. intros Hne Hnr. rewrite E in Hsz.
  destruct Hu as [|i f len Hb Hr|i f len Hb Hr|i f len j Hj Hb Hl Hle|i f len j Hj Hb Hl Hle|l]; [done| | | | |by destruct (Hnr l)].
  all: by apply (Hsz _ eq_refl).
Qed.

Lemma task_stays s s' chs chs' ms ms' t : kindred s s' ->
  (forall c, change_of (todo t) = Some c -> size (nodes s' (ch_node c)) = size (nodes s (ch_node c))) ->
  (forall n last batch p, Clean n last batch ∈ todo t -> p ∈ batch -> dirty_page s n p -> dirty_page s' n p) ->
  (forall n last batch, Clean n last batch ∈ todo t -> cutting chs' n -> cutting chs n) ->
  (forall f, f ∈ m_frame <$> ms -> f ∈ m_frame <$> ms') ->
  task_tidy s chs ms t -> task_tidy s' chs' ms' t.
Proof.
  intros Hk Hsz Hd Hcut Hms [T1 T2 T3 T4 T5]. split.
  - intros o Ho. by apply (kindred_op s s' Hk), T1.
  - by apply (shaped_stays s).
  - intros n last batch p Hin Hp. eapply Hd; [done|done|]. by eapply T3.
  - intros n last batch Hin Hc. by apply (T4 _ _ _ Hin), (Hcut _ _ _ Hin).
  - intros n last batch k p Hin Hp Hw. destruct (T5 _ _ _ _ _ Hin Hp Hw) as [?|?]; [by left|right; by apply Hms].
Qed.

(** What [PcacheCoherent] asks for. *)
Lemma put_sole S n i g f : inv S -> putting S n i g f -> sole (held S) f /\ f ∈ held S /\ f ∉ cached_frames (st S) /\ f ∉ m_frame <$> mapped S.
Proof.
  intros Hi (t&shared&tries&memory&Ht&Hin). pose proof (in_sole S Hi t _ f Ht Hin eq_refl) as Hs.
  pose proof (task_frames_in (tasks S) t _ f Ht Hin ltac:(apply sole_frame_in; reflexivity)) as Hf. pose proof (refs_pos _ _ Hf) as Hpos.
  unfold sole, held in *. rewrite !refs_app_sum in Hs. pose proof (refs_nonneg (cached_frames (st S)) f). pose proof (refs_nonneg (m_frame <$> mapped S) f).
  split; [by rewrite !refs_app_sum|]. split; [by apply elem_of_app; right; apply elem_of_app; right|]. split; intros Hx%refs_pos; lia.
Qed.

Lemma held_good S f : inv S -> f ∈ held S -> good_frame (st S) f.
Proof. intros Hi Hf. destruct (held_owned _ _ f (in_held S Hi) Hf) as (Hr&_). split; [by eapply aligned_frame; [apply (in_held S Hi)|]|done]. Qed.

Lemma tidy_sane S : inv S -> tidy S -> sane (st S) (changes (tasks S)) (putting S).
Proof.
  intros Hi Ht. split.
  - apply Hi.
  - apply Ht.
  - apply Ht.
  - intros a e Ha. split; [apply held_good; [done|by eapply entry_held]|by eapply (td_page S Ht)].
  - intros n i g f Hp. destruct (put_sole S n i g f Hi Hp) as (_&Hf&Hn&_). split; [by apply held_good|]. split; [done|].
    destruct Hp as (t&shared&tries&memory&Hin&Hput). apply (tt_ops _ _ _ _ (td_task S Ht t Hin) _ Hput).
  - apply Ht.
  - intros n offset buf len b (t&Hin&Hc)%change_in. assert (exists o, o ∈ todo t /\ o = Written n offset buf len None) as (o&Ho&->).
    { destruct (todo t) as [|o l]; [done|]. destruct o; try done; cbn in Hc; [by destruct page| |by injection Hc as -> -> -> -> -> _; eexists; split; [apply list_elem_of_here|]].
      destruct l as [|[] l]; try done. injection Hc as -> -> -> -> -> _. eexists. split; [apply list_elem_of_further, list_elem_of_here|done]. }
    apply (tt_ops _ _ _ _ (td_task S Ht t Hin) _ Ho).
Qed.

(** A page being written back is in the cache. *)
Lemma back_page S n offset buf len f b : tidy S -> Writing n offset buf len (Some f) b ∈ changes (tasks S) ->
  exists i, offset = i * PAGE_SIZE /\ 0 < len <= PAGE_SIZE /\ buf = view (st S) f /\
  exists a e, entries (st S) !! a = Some e /\ e_node e = n /\ e_index e = i /\ e_frame e = f /\ e_dirty e = true.
Proof.
  intros Ht (t&Hin&Hc)%change_in. pose proof (td_task S Ht t Hin) as Htt.
  destruct (tt_shape _ _ _ _ Htt) as [l E Hq|l o E Hq Ho|? ? ? ? E|? ? ? ? E|? ? ? ? E|? ? E|? ? E|n' last batch (pre&k&Hu&E)].
  1: rewrite resting_no_change in Hc; [done|]; exists l, []; split; [by rewrite E, app_nil_r|split; [done|by left]].
  1: rewrite resting_no_change in Hc; [done|]; exists l, [o]; split; [done|split; [done|right; by exists o]].
  1-5: by rewrite E in Hc.
  assert (forall p, p ∈ batch -> dirty_page (st S) n' p) as Hd.
  { intros p. eapply (tt_batch _ _ _ _ Htt n' last). rewrite E. apply elem_of_app. right. apply elem_of_app. right. apply list_elem_of_singleton. done. }
  destruct Hu as [|i f0 len0 Hb Hr|i f0 len0 Hb Hr|i f0 len0 j Hj Hb Hl Hle|i f0 len0 j Hj Hb Hl Hle|l]; rewrite E in Hc; cbn in Hc.
  1: by destruct (drop _ batch). 1,2: done.
  3: destruct l; [by destruct (drop _ batch)|done].
  all: injection Hc as <- <- <- <- <- <-; exists i; destruct (Hd _ (list_elem_of_lookup_2 _ _ _ Hb)) as (a&e&Ha&En&Ei&Ef&He); (split; [done|]); (split; [done|]); (split; [done|]); by exists a, e.
Qed.

(** Where a writeback is. *)
Definition to_write (n last : Z) (batch : list (Z * Z)) (k : nat) : list op := (page_op n <$> drop k batch) ++ [Clean n last batch].

Inductive back_at (s : pcache) (n last : Z) (batch : list (Z * Z)) (k : nat) : op -> list op -> Prop :=
| at_page i f : batch !! k = Some (i, f) -> back_at s n last batch k (Write_page n i f) (to_write n last batch (S k))
| at_clean : back_at s n last batch k (Clean n last batch) []
| at_gap i f len : batch !! k = Some (i, f) -> page_range n i s = Some (i * PAGE_SIZE, len) ->
    back_at s n last batch k (Gap n (i * PAGE_SIZE) (view s f) len (Some f)) (to_write n last batch (S k))
| at_content i f len : batch !! k = Some (i, f) -> page_range n i s = Some (i * PAGE_SIZE, len) ->
    back_at s n last batch k (Content n (i * PAGE_SIZE) (view s f) len (Some f)) (to_write n last batch (S k))
| at_bump i f len j : k = S j -> batch !! j = Some (i, f) -> 0 < len <= PAGE_SIZE -> i * PAGE_SIZE + len <= size (nodes s n) ->
    back_at s n last batch k (Bump n) (Written n (i * PAGE_SIZE) (view s f) len (Some f) :: to_write n last batch k)
| at_written i f len j : k = S j -> batch !! j = Some (i, f) -> 0 < len <= PAGE_SIZE -> i * PAGE_SIZE + len <= size (nodes s n) ->
    back_at s n last batch k (Written n (i * PAGE_SIZE) (view s f) len (Some f)) (to_write n last batch k)
| at_release f l : back_at s n last batch k (Release f) ((Release <$> l) ++ to_write n last batch k).

Lemma to_write_head s n last batch k o rest : o :: rest = to_write n last batch k -> back_at s n last batch k o rest.
Proof.
  unfold to_write. destruct (drop k batch) as [|[i f] l] eqn:Ed; cbn; [intros [= -> ->]; constructor|]. intros [= -> ->].
  assert (batch !! k = Some (i, f)) as Hk by (rewrite <- (Nat.add_0_r k), <- lookup_drop, Ed; done).
  replace l with (drop (S k) batch) by (by rewrite (drop_S _ _ _ Hk) in Ed; injection Ed). by apply at_page.
Qed.

Lemma writes_back_head s o rest oks ch n last batch : writes_back s (mkTask (o :: rest) oks ch) n last batch -> back_at s n last batch (length oks) o rest.
Proof.
  intros (pre&k&Hu&E). cbn in Hu, E. destruct Hu as [|i f len Hb Hr|i f len Hb Hr|i f len j Hj Hb Hl Hle|i f len j Hj Hb Hl Hle|[|f l]]; cbn in E.
  - by apply to_write_head.
  - injection E as -> ->. by apply at_gap.
  - injection E as -> ->. by apply at_content.
  - injection E as -> ->. by eapply at_bump.
  - injection E as -> ->. by eapply at_written.
  - by apply to_write_head.
  - injection E as -> ->. apply at_release.
Qed.

Lemma back_no_clean s n batch k pre k' n' last' batch' : underway s n batch k pre k' -> Clean n' last' batch' ∉ pre.
Proof. intros Hu Hin. destruct Hu; set_unfold in Hin; naive_solver. Qed.

Lemma to_write_clean n last batch k n' last' batch' : Clean n' last' batch' ∈ to_write n last batch k <-> n' = n /\ last' = last /\ batch' = batch.
Proof.
  unfold to_write. rewrite elem_of_app, list_elem_of_singleton, list_elem_of_fmap. split; [intros [(p&?&_)|[= -> -> ->]]; done|intros (->&->&->); by right].
Qed.

(** The task of a writeback after a part of it. *)
Lemma back_task s chs ms n last batch pre k l oks ch : underway s n batch (length oks) pre k -> l = pre ++ to_write n last batch k ->
  (forall p, p ∈ batch -> dirty_page s n p) -> ~ cutting chs n ->
  (forall k p, batch !! k = Some p -> oks !! k = Some true -> snd p ∈ ch \/ snd p ∈ m_frame <$> ms) -> task_tidy s chs ms (mkTask l oks ch).
Proof.
  intros Hu El Hd Hcut Hlate. assert (forall n' last' batch', Clean n' last' batch' ∈ l -> n' = n /\ last' = last /\ batch' = batch) as Hcl.
  { intros n' last' batch' Hin. rewrite El in Hin. apply elem_of_app in Hin as [Hin|Hin]; [by eapply back_no_clean in Hin|by eapply to_write_clean]. }
  split; cbn [todo written saved].
  - intros o Ho. rewrite El in Ho. apply elem_of_app in Ho as [Ho|[(p&->&_)%list_elem_of_fmap| ->%list_elem_of_singleton]%elem_of_app]; [|done|done].
    destruct Hu; set_unfold in Ho; naive_solver.
  - eapply (shape_back _ _ n last batch). by exists pre, k.
  - intros n' last' batch' p (->&_&->)%Hcl. apply Hd.
  - intros n' last' batch' (->&_&_)%Hcl. done.
  - intros n' last' batch' k' p (_&_&->)%Hcl. apply Hlate.
Qed.

Lemma back_at_clean s n last batch k o rest : back_at s n last batch k o rest -> Clean n last batch ∈ o :: rest.
Proof.
  assert (forall k, Clean n last batch ∈ to_write n last batch k) as Hw by (intros k'; by apply to_write_clean).
  intros Hb. destruct Hb; rewrite ?elem_of_cons, ?elem_of_app; naive_solver.
Qed.

Lemma to_write_no_change n last batch k : change_of (to_write n last batch k) = None.
Proof. unfold to_write. by destruct (drop k batch). Qed.

Lemma coherent_less s T chs puts (puts' : Z -> Z -> Z -> Z -> Prop) safe (safe' : Z -> Prop) : (forall n i g f, puts' n i g f -> puts n i g f) -> (forall f, safe' f -> safe f) ->
  coherent s T chs puts safe -> coherent s T chs puts' safe'.
Proof.
  intros Hp Hs [C1 C2 C3 C4 C5 C6 C7]. split; try done.
  - intros n p Hr Hd. apply C3; [done|]. intros a e Ha En Ei Ed. by eapply Hs, Hd.
  - intros n i g f o Hput. apply C7. by apply Hp.
Qed.

Lemma sane_less s chs chs' puts (puts' : Z -> Z -> Z -> Z -> Prop) : (forall n i g f, puts' n i g f -> puts n i g f) -> (forall c, c ∈ chs' -> c ∈ chs) -> NoDup (ch_node <$> chs') ->
  sane s chs puts -> sane s chs' puts'.
Proof.
  intros Hp Hc Hn [S1 S2 S3 S4 S5 S6 S7]. split; try done.
  - intros n i g f Hput. eapply S5. by apply Hp.
  - intros n offset buf len b Hin. eapply S7. by apply Hc.
Qed.

(** A change before and after the generation was raised. *)
Definition bumped (n : Z) (l l' : list change) : Prop :=
  l = [] /\ l' = [] \/
  (exists offset buf len page, l = [Writing n offset buf len page false] /\ l' = [Writing n offset buf len page true]) \/
  (exists sz, l = [Cutting n sz false] /\ l' = [Cutting n sz true]).

Lemma bumped_coherent s T chs puts safe n l l' : bumped n l l' -> (forall i g f, puts n i g f -> g <> u32 (cache_generation (nodes s n) + 1)) ->
  coherent s T (l ++ chs) puts safe -> coherent (bump n s) T (l' ++ chs) puts safe.
Proof.
  intros Hb Hg. apply coherent_bump; [..|exact Hg]; destruct Hb as [[-> ->]|[(offset&buf&len&page&->&->)|(sz&->&->)]]; cbn [app]; try done.
  all: intros *; rewrite ?pending_cons, ?cutting_cons, ?unbumped_cons, ?elem_of_cons; try naive_solver; try (setoid_rewrite elem_of_cons; naive_solver).
  all: by intros Hin; eexists.
Qed.

Lemma resting_releases (l : list Z) l' : Forall quiet l' -> resting ((Release <$> l) ++ l').
Proof. intros H. exists ((Release <$> l) ++ l'), []. rewrite app_nil_r. split; [done|]. split; [|by left]. apply Forall_app. split; [apply quiet_release|done]. Qed.

Lemma releases_good s (l : list Z) l' o : (forall o, o ∈ l' -> good_op s o) -> o ∈ (Release <$> l) ++ l' -> good_op s o.
Proof. intros H [(f&->&_)%list_elem_of_fmap|?]%elem_of_app; [done|by apply H]. Qed.

Lemma change_concerns l c : change_of l = Some c -> exists o, o ∈ l /\ concerns (ch_node c) o.
Proof.
  destruct l as [|o l]; [done|]. intros Hc. assert (o ∈ o :: l) as Hin by apply list_elem_of_here.
  destruct o as [| | |? ? ? ? []| | | | | | | | | | | | |]; try done; cbn in Hc; try (injection Hc as <-; eexists; by split; [exact Hin|]).
  destruct l as [|o l]; [done|]. assert (o ∈ Bump n :: o :: l) as Hin2 by (apply list_elem_of_further, list_elem_of_here).
  destruct o; try done; injection Hc as <-; eexists; by split; [exact Hin2|].
Qed.

Lemma quiet_split o : quiet o -> file_quiet o \/ (exists n, o = Bump n) \/ exists n, o = Dropped n.
Proof. destruct o; try done; naive_solver. Qed.

Lemma resting_head o l : resting (o :: l) -> quiet o \/ opening o /\ l = [].
Proof.
  intros (l1&l2&E&Hq&Hl). destruct l1 as [|o' l1]; cbn in E; [|injection E as -> ->; apply Forall_cons in Hq as [? _]; by left].
  destruct Hl as [->|(o'&->&Ho')]; [done|]. injection E as -> ->. by right.
Qed.

Lemma tell_quiet o x s T : file_quiet o -> tell o x s T = T.
Proof. by destruct o. Qed.

(** * One part of one task *)

Section run.
Context (s : pcache) (ts1 : list task) (o : op) (rest : list op) (oks : list bool) (ch : list Z) (ts2 : list task) (ms : list mapping).
Context (x : outcome) (ops : list op) (new : list mapping) (s' : pcache).
Let S := mkSystem s (ts1 ++ mkTask (o :: rest) oks ch :: ts2) ms.
Let t' := mkTask (ops ++ rest) (note o x s oks) (note_saved o x s ch).
Let S' := mkSystem s' (ts1 ++ t' :: ts2) (new ++ ms).
Let chs := changes (ts1 ++ ts2).

Lemma chs_before : changes (tasks S) ≡ₚ own_change (o :: rest) ++ chs.
Proof. apply changes_middle. Qed.
Lemma chs_after : changes (tasks S') ≡ₚ own_change (ops ++ rest) ++ chs.
Proof. apply changes_middle. Qed.

Lemma in_S t : t ∈ ts1 ++ ts2 -> t ∈ tasks S.
Proof. cbn. rewrite !elem_of_app, elem_of_cons. tauto. Qed.
Lemma own_in_S : mkTask (o :: rest) oks ch ∈ tasks S.
Proof. cbn. rewrite elem_of_app, elem_of_cons. tauto. Qed.
Lemma in_S' t : t ∈ tasks S' -> t = t' \/ t ∈ ts1 ++ ts2.
Proof. cbn. rewrite !elem_of_app, elem_of_cons. tauto. Qed.

Lemma putting_run n i g f : putting S' n i g f -> putting S n i g f \/ exists shared tries memory, Put n i shared tries g f memory ∈ ops.
Proof.
  intros (t&shared&tries&memory&[->|Ht]%in_S'&Hin).
  - cbn in Hin. apply elem_of_app in Hin as [Hin|Hin]; [right; by exists shared, tries, memory|left]. exists (mkTask (o :: rest) oks ch), shared, tries, memory.
    split; [apply own_in_S|]. by apply elem_of_cons; right.
  - left. exists t, shared, tries, memory. split; [by apply in_S|done].
Qed.

Lemma safe_run f : (forall n last batch, Clean n last batch ∈ ops -> note_saved o x s ch = []) -> safe S' f ->
  safe S f \/ exists n offset buf len, o = Content n offset buf len (Some f) /\ taken n offset len x s = len.
Proof.
  intros Hno (t&n&last&batch&[->|Ht]%in_S'&Hin&Hb&Hf).
  - cbn in Hin, Hf. apply elem_of_app in Hin as [Hin|Hin]; [rewrite (Hno _ _ _ Hin) in Hf; by apply elem_of_nil in Hf|].
    assert (f ∈ ch \/ exists n offset buf len, o = Content n offset buf len (Some f) /\ taken n offset len x s = len) as [Hch|?]; [| |by right].
    { unfold note_saved in Hf. destruct o; try (by left); [|by apply elem_of_nil in Hf]. destruct page as [f0|]; [|by left].
      destruct (Z.eqb_spec (taken n0 offset len x s) len) as [E|]; [|by left]. apply elem_of_cons in Hf as [->|?]; [right|by left]. by exists n0, offset, buf, len. }
    left. exists (mkTask (o :: rest) oks ch), n, last, batch. split; [apply own_in_S|]. split; [by apply elem_of_cons; right|done].
  - left. exists t, n, last, batch. split; [by apply in_S|done].
Qed.

(** How entries may change. *)
Definition entry_moves : Prop := forall a e', entries s' !! a = Some e' ->
  (exists e, entries s !! a = Some e /\ same_page e e' /\ (e_dirty e = true -> e_dirty e' = true \/ cleaned o oks s e)) \/
  (enters o s (e_node e') (e_index e') (e_frame e')).

Lemma turns_moves : turns o oks s s' -> entry_moves.
Proof.
  intros [_ U2 U3] a e' Ha'. destruct (U2 a e' Ha') as [(e&Ha&Hp&_)|[He _]]; [left|by right]. exists e. split; [done|]. split; [done|].
  intros Hd. destruct (U3 a e Ha Hd) as [(e''&Ha''&_&Hd'')|?]; [|by right]. left. by assert (e'' = e') as -> by congruence.
Qed.

Lemma held_split : held S ≡ₚ cached_frames s ++ op_frames o ++ (m_frame <$> ms) ++ concat (task_frames <$> ts1 ++ ts2) ++ ops_frames rest.
Proof.
  unfold held, S. cbn [st tasks mapped]. rewrite !fmap_app, !concat_app. cbn [fmap list_fmap concat]. unfold task_frames at 2. cbn. fold (ops_frames rest). solve_Permutation.
Qed.

Lemma sole_uncached f : inv S -> sole_frame o = Some f -> f ∉ cached_frames s /\ count_of everything (entries s) + 1 < 0x100000000.
Proof.
  intros Hinv Hf. pose proof (in_sole S Hinv _ o f own_in_S ltac:(apply list_elem_of_here) Hf) as Hsole. unfold sole in Hsole. rewrite (refs_perm _ _ _ held_split), !refs_app_sum in Hsole.
  assert (op_frames o = [f]) as Eo by (clear -Hf; destruct o; try done; by injection Hf as ->). rewrite Eo, refs_cons, Z.eqb_refl in Hsole. change (refs [] f) with 0 in Hsole.
  pose proof (refs_nonneg (cached_frames s) f). pose proof (refs_nonneg (m_frame <$> ms) f). pose proof (refs_nonneg (concat (task_frames <$> ts1 ++ ts2)) f). pose proof (refs_nonneg (ops_frames rest) f).
  assert (f ∉ cached_frames s) as Hn by (intros Hx%refs_pos; lia). split; [done|].
  assert (held S ≡ₚ (f :: cached_frames s) ++ (m_frame <$> ms) ++ concat (task_frames <$> ts1 ++ ts2) ++ ops_frames rest) as HS by (rewrite held_split, Eo; solve_Permutation).
  pose proof (frames_few (owned s) (f :: cached_frames s) _ (held_perm _ _ _ HS (in_held S Hinv)) ltac:(apply NoDup_cons; split; [done|apply (tb_frames s (in_table S Hinv))])) as Hl.
  pose proof (in_total S Hinv) as Htot. cbn in Htot. cbn [length] in Hl. unfold cached_frames in Hl. rewrite length_fmap in Hl. unfold count_of.
  rewrite (filter_all (fun e => everything e = true)) by done. lia.
Qed.

(** A page that is made clean is held by the cache and its writeback only. *)
Lemma cleaned_alone a e : inv S -> entries s !! a = Some e -> cleaned o oks s e -> e_frame e ∉ m_frame <$> ms /\
  forall t n last batch, t ∈ ts1 ++ ts2 -> Clean n last batch ∈ todo t -> e_frame e ∉ snd <$> batch.
Proof.
  intros Hinv Ha Hc. assert (e_frame e ∈ op_frames o /\ pmm_get_frame_ref (e_frame e) (owned s) = 2) as [Hop Href].
  { destruct o; try done. destruct Hc as (_&k&Hk&_&Hr). split; [|done]. cbn. apply list_elem_of_fmap. exists (e_index e, e_frame e). split; [done|]. by eapply list_elem_of_lookup_2. }
  pose proof (proj2 (held_count S (e_frame e) Hinv (entry_held S a e Ha))) as Hcount. change (owned (st S)) with (owned s) in Hcount. rewrite Href in Hcount.
  rewrite (refs_perm _ _ _ held_split), !refs_app_sum in Hcount. pose proof (refs_pos _ _ (entry_cached s a e Ha)). pose proof (refs_pos _ _ Hop).
  pose proof (refs_nonneg (m_frame <$> ms) (e_frame e)). pose proof (refs_nonneg (concat (task_frames <$> ts1 ++ ts2)) (e_frame e)). pose proof (refs_nonneg (ops_frames rest) (e_frame e)).
  split; [intros Hx%refs_pos; lia|]. intros t n last batch Ht Hin Hx.
  pose proof (refs_pos _ _ (task_frames_in _ t (Clean n last batch) (e_frame e) Ht Hin Hx)). lia.
Qed.

Lemma run_tidy : inv S -> tidy S -> kindred s s' -> entry_moves ->
  (forall m a e, m ∈ new -> entries s' !! a = Some e -> e_frame e = m_frame m -> matches m e) ->
  (forall n, 0 <= size (nodes s' n) < 0x8000000000000000) ->
  (forall c, c ∈ chs -> size (nodes s' (ch_node c)) = size (nodes s (ch_node c))) ->
  (forall t n last batch p, t ∈ ts1 ++ ts2 -> Clean n last batch ∈ todo t -> p ∈ batch -> dirty_page s n p -> dirty_page s' n p) ->
  (forall t n last batch, t ∈ ts1 ++ ts2 -> Clean n last batch ∈ todo t -> cutting (own_change (ops ++ rest)) n -> cutting (own_change (o :: rest)) n) ->
  task_tidy s' (changes (tasks S')) (new ++ ms) t' ->
  (forall c, c ∈ own_change (ops ++ rest) -> ch_node c ∉ ch_node <$> chs) ->
  (forall n offset buf len page b, Writing n offset buf len page b ∈ own_change (ops ++ rest) -> offset + len <= size (nodes s' n)) ->
  (forall n sz b, Cutting n sz b ∈ own_change (ops ++ rest) -> sz = size (nodes s' n)) ->
  tidy S'.
Proof.
  intros Hinv Htidy Hk Hent Hnew Hsize Hsz Hdirty Hcut Hown Huniq Hwithin Hcutting. destruct Htidy as [D1 D2 D3 D4 D5 D6 D7 D8].
  assert (forall c, c ∈ changes (tasks S') <-> c ∈ own_change (ops ++ rest) \/ c ∈ chs) as Hch by (intros c; by rewrite chs_after, elem_of_app).
  assert (forall c, c ∈ chs -> c ∈ changes (tasks S)) as Hold by (intros c Hc; rewrite chs_before; apply elem_of_app; by right). split.
  - by apply (kindred_mem s s').
  - intros a e' Ha'. apply (kindred_page s s' Hk). destruct (Hent a e' Ha') as [(e&Ha&(P1&P2&P3)&_)|He]; [rewrite P1, P2; by eapply D2|].
    apply enters_put in He as (_&shared&tries&memory&Eo). pose proof (tt_ops _ _ _ _ (D4 _ own_in_S) o ltac:(apply list_elem_of_here)) as Hg. rewrite Eo in Hg. apply Hg.
  - done.
  - intros t [->|Ht]%in_S'; [done|]. apply (task_stays s s' (changes (tasks S)) _ ms); [done| | | | |by apply D4, in_S].
    + intros c Hc. apply Hsz. by eapply in_changes.
    + intros n last batch p Hin. by eapply Hdirty.
    + intros n last batch Hin (sz&b&[Hc|Hc]%Hch).
      * destruct (Hcut t n last batch Ht Hin) as (sz'&b'&Hc'); [by exists sz, b|]. exists sz', b'. rewrite chs_before. apply elem_of_app. by left.
      * exists sz, b. by apply Hold.
    + intros f Hf. cbn. rewrite fmap_app. apply elem_of_app. by right.
  - rewrite chs_after, fmap_app. apply NoDup_app. split; [|split].
    + unfold own_change. destruct (change_of _); [apply NoDup_singleton|constructor].
    + intros n (c&->&Hc)%list_elem_of_fmap. by apply Huniq.
    + rewrite chs_before, fmap_app in D5. by apply NoDup_app in D5 as (_&_&?).
  - intros n offset buf len page b [Hc|Hc]%Hch; [by eapply Hwithin|]. pose proof (Hsz _ Hc) as E. cbn in E |- *. rewrite E. by eapply D6, Hold.
  - intros n sz b [Hc|Hc]%Hch; [by eapply Hcutting|]. pose proof (Hsz _ Hc) as E. cbn in E |- *. rewrite E. by eapply D7, Hold.
  - intros m a e' [Hm|Hm]%elem_of_app Ha' Ef; [by eapply Hnew|]. destruct (Hent a e' Ha') as [(e&Ha&(P1&P2&P3)&Hd)|He].
    + destruct (D8 m a e Hm Ha ltac:(congruence)) as (M1&M2&M3). split; [congruence|]. split; [congruence|]. intros Hkind. destruct (Hd (M3 Hkind)) as [?|Hc]; [done|].
      destruct (cleaned_alone a e Hinv Ha Hc) as [[] _]. apply list_elem_of_fmap. exists m. split; [congruence|done].
    + exfalso. apply enters_put in He as (_&shared&tries&memory&Eo).
      destruct (put_sole S (e_node e') (e_index e') (cache_generation (nodes s (e_node e'))) (e_frame e') Hinv) as (_&_&_&[]); [|apply list_elem_of_fmap; by exists m].
      exists (mkTask (o :: rest) oks ch), shared, tries, memory. split; [apply own_in_S|]. rewrite <- Eo. apply list_elem_of_here.
Qed.

Definition well : Prop := inv S /\ inv S' /\ tidy S.
Definition well_after (T' : Z -> Z -> Z) : Prop := tidy S' /\ coherent s' T' (changes (tasks S')) (putting S') (safe S').

(** Parts that leave the files and the changes under way alone. *)
Lemma run_quietly T : well -> total_frames (frames (owned s')) = total_frames (frames (owned s)) -> coherent s T (changes (tasks S)) (putting S) (safe S) ->
  fits s (ts1 ++ mkTask rest oks ch :: ts2) ms o x -> perform o x (mkTask (o :: rest) oks ch) s = (ops, new, s') ->
  file_quiet o -> change_of (o :: rest) = None -> (forall n last batch, Clean n last batch ∈ ops -> note_saved o x s ch = []) ->
  let ok := (kindred s s' -> same_files s s' -> task_tidy s' (changes (tasks S')) (new ++ ms) t') in
  (forall n offset buf len page b, Writing n offset buf len page b ∉ own_change (ops ++ rest)) -> (forall n sz b, Cutting n sz b ∉ own_change (ops ++ rest)) ->
  (forall c, c ∈ own_change (ops ++ rest) -> ch_node c ∉ ch_node <$> chs) -> ok ->
  tidy S' /\ coherent s' T chs (putting S') (safe S').
Proof.
  intros (Hinv&Hinv'&Htidy) Htot Hco Hfits Hp Hq Hc1 Hcl ok Hnw Hnc Huniq Hok. pose proof (tidy_sane S Hinv Htidy) as Hs.
  assert (changes (tasks S) ≡ₚ chs) as HC by (rewrite chs_before; unfold own_change; by rewrite Hc1).
  pose proof (tt_ops _ _ _ _ (td_task S Htidy _ own_in_S) o ltac:(apply list_elem_of_here)) as Hgood.
  assert (quietly o x oks s ops new s') as Hqu.
  { eapply (perform_quietly o x s ops new s' (mkTask (o :: rest) oks ch)); try done; [apply Hinv|apply Hinv'|apply (proj1 (proj1 (in_held S Hinv)))|apply Htidy|by intros f; apply sole_uncached|].
    intros n i shared tries g again Eo. rewrite Eo in Hfits. exact Hfits. }
  pose proof (qu_turns _ _ _ _ _ _ _ Hqu) as Hturn. pose proof (tu_files _ _ _ _ Hturn) as Hfiles. pose proof (qu_kind _ _ _ _ _ _ _ Hqu) as Hk.
  assert (forall a e, entries s !! a = Some e -> cleaned o oks s e -> safe S (e_frame e)) as Hclean.
  { intros a e Ha Hcd. destruct (cleaned_alone a e Hinv Ha Hcd) as [Hnm _].
    apply cleaned_clean in Hcd as (last&batch&k&Eo&Hbk&Hok'&_).
    assert (Clean (e_node e) last batch ∈ o :: rest) as Hin by (rewrite Eo; apply list_elem_of_here).
    destruct (tt_late _ _ _ _ (td_task S Htidy _ own_in_S) _ last batch k _ Hin Hbk Hok') as [Hsv|Hmp]; [|done].
    exists (mkTask (o :: rest) oks ch), (e_node e), last, batch. split; [apply own_in_S|]. split; [done|]. split; [|done]. apply list_elem_of_fmap. exists (e_index e, e_frame e). split; [done|]. by eapply list_elem_of_lookup_2. }
  split.
  - apply run_tidy; try done.
    + by apply turns_moves.
    + apply (qu_new _ _ _ _ _ _ _ Hqu).
    + intros n. rewrite (proj1 (proj2 Hfiles n)). apply Htidy.
    + intros c _. apply Hfiles.
    + intros t n last batch p Ht Hin Hpb (a&e&Ha&En&Ei&Ef&Hd). destruct (tu_dirty _ _ _ _ Hturn a e Ha Hd) as [(e'&Ha'&(P1&P2&P3)&Hd')|Hcd].
      * exists a, e'. split_and!; congruence.
      * destruct (cleaned_alone a e Hinv Ha Hcd) as [_ Hno]. destruct (Hno t n last batch Ht Hin). apply list_elem_of_fmap. by exists p.
    + intros t n last batch _ _ (sz&b&Hx). by apply Hnc in Hx.
    + by apply Hok.
    + intros n offset buf len page b Hx. by apply Hnw in Hx.
    + intros n sz b Hx. by apply Hnc in Hx.
  - eapply coherent_perm; [exact HC|]. eapply (quietly_coherent o x oks s ops new s' T (changes (tasks S)) (putting S)); try done.
    + intros n i Hsh. clear -Hfits Hsh. destruct o; try done; destruct Hsh as (->&->&?); by apply Hfits.
    + intros n i f (_&shared&tries&memory&Eo)%enters_put. exists (mkTask (o :: rest) oks ch), shared, tries, memory. split; [apply own_in_S|]. rewrite <- Eo. apply list_elem_of_here.
    + apply putting_run.
    + intros n i shared tries g f memory Hin. destruct (qu_fresh _ _ _ _ _ _ _ Hqu _ _ _ _ _ _ _ Hin) as [Hgf Hfree].
      assert (f ∉ held S) as Hnh by (intros Hx; destruct (held_owned _ _ f (in_held S Hinv) Hx) as (_&Hge&_); cbn in Hge; lia).
      split; [done|]. split; [intros Hx; apply Hnh; unfold held; apply elem_of_app; by left|]. intros n' i' g' Hput. apply Hnh. by eapply (put_sole S).
    + intros f _ Hsf. destruct (safe_run f Hcl Hsf) as [?|(n&offset&buf&len&Eo&_)]; [done|]. by rewrite Eo in Hq.
    + intros n offset buf len page b. apply (td_within S Htidy).
    + intros n offset buf len f b p Hin Hr Hun. destruct (back_page S n offset buf len f b Htidy Hin) as (i&->&Hl&_&a&e&Ha&En&Ei&_).
      apply (Hun a e Ha En). rewrite Ei. unfold PAGE_SIZE in *. zlia.
    + intros n sz b. apply (td_cut S Htidy).
Qed.

Definition goes_well (T : Z -> Z -> Z) : Prop :=
  well -> total_frames (frames (owned s')) = total_frames (frames (owned s)) -> coherent s T (changes (tasks S)) (putting S) (safe S) ->
  fits s (ts1 ++ mkTask rest oks ch :: ts2) ms o x -> perform o x (mkTask (o :: rest) oks ch) s = (ops, new, s') ->
  well_after (tell o x s T).

Lemma own_none l : change_of l = None -> own_change l = [].
Proof. unfold own_change. by intros ->. Qed.

Lemma rest_good o' : tidy S -> o' ∈ rest -> good_op s o'.
Proof. intros Ht Hin. apply (tt_ops _ _ _ _ (td_task S Ht _ own_in_S)). by apply elem_of_cons; right. Qed.
Lemma own_good : tidy S -> good_op s o.
Proof. intros Ht. apply (tt_ops _ _ _ _ (td_task S Ht _ own_in_S)). apply list_elem_of_here. Qed.

Lemma chs_rest : change_of rest = None -> changes (ts1 ++ mkTask rest oks ch :: ts2) ≡ₚ chs.
Proof. intros Hr. rewrite changes_middle. cbn [todo]. by rewrite own_none. Qed.

Lemma run_resting T : quiet o -> file_quiet o -> resting (o :: rest) -> goes_well T.
Proof.
  intros Hq Hfq Hrest Hw Htot Hco Hfits Hp. destruct (quiet_ops _ _ _ _ _ _ _ Hq Hp) as [Hqo Hgo].
  assert (resting (ops ++ rest)) as Hr' by (apply resting_app; [done|by eapply resting_cons]).
  pose proof (own_none _ (resting_no_change _ Hr')) as Hnone.
  destruct (run_quietly T Hw Htot Hco Hfits Hp Hfq (resting_no_change _ Hrest)) as [H1 H2]; rewrite ?Hnone; try by intros; apply not_elem_of_nil.
  - intros n last batch Hin. by apply (proj1 (Forall_forall _ _) Hqo) in Hin.
  - by intros c ?%elem_of_nil.
  - intros Hk _. apply task_resting; [done|]. cbn. destruct Hw as (_&_&Htidy). intros o' [Hin|Hin]%elem_of_app; apply (kindred_op s s' Hk); [apply (Hgo o'); [by apply own_good|done]|by apply rest_good].
  - split; [done|]. eapply coherent_perm; [symmetry; rewrite chs_after, Hnone; reflexivity|]. by rewrite tell_quiet.
Qed.

(** A writeback begins. *)
Lemma run_collect T n cursor last : o = Collect n cursor last -> rest = [] -> goes_well T.
Proof.
  intros Eo Er Hw Htot Hco Hfits Hp. assert (change_of (o :: rest) = None) as Hc1 by (by rewrite Eo).
  assert (exists batch, (batch = [] /\ ops = [] \/ ops = (page_op n <$> batch) ++ [Clean n last batch]) /\ entries s' = entries s /\ forall p, p ∈ batch -> dirty_page s n p) as (batch&Hops&Hent&Hd).
  { rewrite Eo in Hp. cbn [perform] in Hp. pose proof (collect_spec s n cursor last) as Hcol. destruct (collect n cursor last s) as [batch s1]. destruct Hcol as (Hcol&_&->).
    exists batch. split; [destruct batch as [|p b]; injection Hp as E1 _ _; [by left|by right]|]. split; [by destruct batch; injection Hp as _ _ E3; rewrite <- E3|].
    intros p Hpb. destruct (proj1 (Forall_forall _ _) Hcol p Hpb) as (a&e&Ha&->&En&Hdirty&_). by exists a, e. }
  assert (change_of (ops ++ rest) = None) as Hc2. { rewrite Er, app_nil_r. destruct Hops as [[_ E]|E]; rewrite E; [done|]. by destruct batch. }
  pose proof (own_none _ Hc2) as Hnone.
  destruct (run_quietly T Hw Htot Hco Hfits Hp) as [H1 H2]; rewrite ?Hnone; try by intros; apply not_elem_of_nil.
  - by rewrite Eo.
  - done.
  - intros _ _ _ _. by rewrite Eo.
  - by intros c ?%elem_of_nil.
  - intros Hk _. assert (note o x s oks = [] /\ note_saved o x s ch = []) as [En Esv] by (by rewrite Eo).
    destruct Hops as [[_ Eops]|Eops].
    + apply task_resting; [cbn; rewrite Eops, Er; apply resting_nil|]. cbn. rewrite Eops, Er. by intros o' ?%elem_of_nil.
    + assert (ops ++ rest = (page_op n <$> batch) ++ [Clean n last batch]) as Etodo by (by rewrite Er, app_nil_r). assert (forall n' last' batch', Clean n' last' batch' ∈ (page_op n <$> batch) ++ [Clean n last batch] -> n' = n /\ batch' = batch) as Hcl.
      { by intros n' last' batch' [(q&?&_)%list_elem_of_fmap|[= -> -> ->]%list_elem_of_singleton]%elem_of_app. }
      split; cbn [todo written saved t']; rewrite ?En, ?Esv, ?Etodo.
      * by intros o' [(q&->&_)%list_elem_of_fmap| ->%list_elem_of_singleton]%elem_of_app.
      * eapply (shape_back _ _ n last batch). exists [], 0%nat. split; [cbn; rewrite En; constructor|exact Etodo].
      * intros n' last' batch' p [-> ->]%Hcl Hpb. destruct (Hd p Hpb) as (a&e&Ha&?). exists a, e. by rewrite Hent.
      * intros n' last' batch' [-> ->]%Hcl Hcut. rewrite Eo in Hfits. apply Hfits. eapply cutting_perm; [|exact Hcut]. rewrite chs_after, Hnone. rewrite chs_rest by (by rewrite Er). done.
      * intros n' last' batch' k p _ _. by rewrite lookup_nil.
  - split; [done|]. eapply coherent_perm; [symmetry; rewrite chs_after, Hnone; reflexivity|]. by rewrite Eo.
Qed.

(** ** Writing back *)

Lemma back_facts n last batch : tidy S -> back_at s n last batch (length oks) o rest ->
  (forall p, p ∈ batch -> dirty_page s n p) /\ ~ cutting (changes (tasks S)) n /\
  (forall k p, batch !! k = Some p -> oks !! k = Some true -> snd p ∈ ch \/ snd p ∈ m_frame <$> ms).
Proof.
  intros Ht Hb%back_at_clean. destruct (td_task S Ht _ own_in_S) as [_ _ T3 T4 T5]. split_and!.
  - intros p. by apply (T3 n last batch).
  - by apply (T4 n last batch).
  - intros k p. by apply (T5 n last batch).
Qed.

Lemma putting_less n i g f : (forall n i shared tries g f memory, Put n i shared tries g f memory ∉ ops) -> putting S' n i g f -> putting S n i g f.
Proof. intros Hno [?|(shared&tries&memory&Hin)]%putting_run; [done|]. by apply Hno in Hin. Qed.

Lemma chs_nodup : tidy S -> NoDup (ch_node <$> chs).
Proof. intros Ht. pose proof (td_unique S Ht) as Hu. rewrite chs_before, fmap_app in Hu. by apply NoDup_app in Hu as (_&_&?). Qed.

(** A dirty page of the file is before its end. *)
Lemma page_range_dirty T n last batch i f : well -> coherent s T (changes (tasks S)) (putting S) (safe S) -> back_at s n last batch (length oks) o rest -> (i, f) ∈ batch ->
  exists len, page_range n i s = Some (i * PAGE_SIZE, len) /\ 0 < len <= PAGE_SIZE /\ i * PAGE_SIZE + len <= size (nodes s n) /\
  exists a e, entries s !! a = Some e /\ e_node e = n /\ e_index e = i /\ e_frame e = f /\ good_page s n i.
Proof.
  intros (Hinv&_&Htidy) Hco Hb Hin. destruct (back_facts n last batch Htidy Hb) as (Hd&Hnc&_). destruct (Hd _ Hin) as (a&e&Ha&En&Ei&Ef&He). cbn in Ei, Ef.
  pose proof (td_page S Htidy a e Ha) as Hpg. rewrite En, Ei in Hpg. unfold page_range. rewrite (proj1 (page_no_wrap s n i Hpg)).
  pose proof (co_within _ _ _ _ _ Hco a e Ha (tb_dirty s (in_table S Hinv) a e Ha He)) as Hw. rewrite En in Hw. specialize (Hw Hnc). unfold place in Hw. rewrite Ei, Z.add_0_r in Hw.
  rewrite (proj2 (Z.leb_gt _ _) Hw). eexists. split; [done|]. split; [|split; [|by exists a, e]]; destruct (Z.ltb_spec (size (nodes s n) - i * PAGE_SIZE) PAGE_SIZE); unfold PAGE_SIZE in *; lia.
Qed.

Lemma run_page T n last batch i f : o = Write_page n i f -> back_at s n last batch (length oks) o rest -> batch !! length oks = Some (i, f) ->
  rest = to_write n last batch (Datatypes.S (length oks)) -> goes_well T.
Proof.
  intros Eo Hb Hk Er Hw Htot Hco Hfits Hp. destruct (page_range_dirty T n last batch i f Hw Hco Hb (list_elem_of_lookup_2 _ _ _ Hk)) as (len&Hr&Hl&Hle&_).
  assert (change_of rest = None) as Hcr by (rewrite Er; apply to_write_no_change). assert (n ∉ ch_node <$> chs) as Hn by (rewrite Eo in Hfits; cbn in Hfits; by rewrite (chs_rest Hcr) in Hfits).
  assert (ops = [Gap n (i * PAGE_SIZE) (view s f) len (Some f)] /\ s' = s) as [Eops Es]. { rewrite Eo in Hp. cbn [perform] in Hp. rewrite Hr in Hp. split; congruence. }
  assert (own_change (ops ++ rest) = [Opened n (i * PAGE_SIZE) len (Some f)]) as Hown by (by rewrite Eops).
  destruct (back_facts n last batch (proj2 (proj2 Hw)) Hb) as (Hd&Hnc&Hlate).
  destruct (run_quietly T Hw Htot Hco Hfits Hp) as [H1 H2]; rewrite ?Hown.
  - by rewrite Eo.
  - by rewrite Eo.
  - intros n' last' batch' Hin. rewrite Eops in Hin. by apply list_elem_of_singleton in Hin.
  - by intros n' offset buf len' page b ?%list_elem_of_singleton.
  - by intros n' sz b ?%list_elem_of_singleton.
  - by intros c ->%list_elem_of_singleton.
  - intros _ _. eapply (back_task s' _ _ n last batch [Gap n (i * PAGE_SIZE) (view s f) len (Some f)] (Datatypes.S (length oks))); rewrite ?Es.
    + assert (note o x s oks = oks) as -> by (rewrite Eo; cbn; by rewrite Hr). by apply under_gap.
    + by rewrite Eops, Er.
    + done.
    + intros Hc. apply Hnc. eapply cutting_perm; [symmetry; apply chs_before|]. rewrite own_none by (by rewrite Eo). eapply cutting_perm in Hc; [|apply chs_after].
      rewrite Hown in Hc. by apply cutting_cons in Hc as [[]|?].
    + assert (note o x s oks = oks /\ note_saved o x s ch = ch) as [-> ->] by (rewrite Eo; cbn; by rewrite Hr). intros k p H3 H4. rewrite fmap_app.
      destruct (Hlate k p H3 H4); [by left|right; apply elem_of_app; by right].
  - split; [done|]. eapply coherent_perm; [symmetry; rewrite chs_after, Hown; reflexivity|]. rewrite Eo. cbn [tell].
    pose proof (tidy_sane S' (proj1 (proj2 Hw)) H1) as Hs'. pose proof (coherent_gap s' T chs (putting S') (safe S') n (i * PAGE_SIZE) len (Some f)) as Hg.
    rewrite (proj2 (Z.ltb_ge (size (nodes s' n)) (i * PAGE_SIZE))) in Hg by (rewrite Es; lia). apply Hg; [|done|done].
    eapply sane_less; [done| |apply chs_nodup, Hw|exact Hs']. intros c Hc. rewrite chs_after. apply elem_of_app. by right.
Qed.

Lemma late_mapped k p (batch : list (Z * Z)) (oks' : list bool) (ch' : list Z) : (forall k p, batch !! k = Some p -> oks !! k = Some true -> snd p ∈ ch \/ snd p ∈ m_frame <$> ms) ->
  (oks' !! k = Some true -> oks !! k = Some true \/ snd p ∈ ch') -> (forall f, f ∈ ch -> f ∈ ch') -> batch !! k = Some p -> oks' !! k = Some true ->
  snd p ∈ ch' \/ snd p ∈ m_frame <$> (new ++ ms).
Proof.
  intros Hl Ho Hc H1 H2. destruct (Ho H2) as [H3|?]; [|by left]. destruct (Hl k p H1 H3); [left; by apply Hc|right]. rewrite fmap_app. apply elem_of_app. by right.
Qed.

Lemma run_release T n last batch f l : o = Release f -> back_at s n last batch (length oks) o rest -> rest = (Release <$> l) ++ to_write n last batch (length oks) -> goes_well T.
Proof.
  intros Eo Hb Er Hw Htot Hco Hfits Hp. destruct (back_facts n last batch (proj2 (proj2 Hw)) Hb) as (Hd&Hnc&Hlate).
  assert (ops = [] /\ entries s' = entries s) as [Eops Ent]. { rewrite Eo in Hp. cbn [perform] in Hp. split; [congruence|]. injection Hp as _ _ E. by rewrite <- E. }
  assert (change_of (ops ++ rest) = None) as Hc2. { rewrite Eops, Er. destruct l; [apply to_write_no_change|done]. }
  pose proof (own_none _ Hc2) as Hown. destruct (run_quietly T Hw Htot Hco Hfits Hp) as [H1 H2]; rewrite ?Hown; try by intros; apply not_elem_of_nil.
  - by rewrite Eo.
  - by rewrite Eo.
  - intros n' last' batch' Hin. rewrite Eops in Hin. by apply elem_of_nil in Hin.
  - by intros c ?%elem_of_nil.
  - intros Hk _. eapply (back_task s' _ _ n last batch (Release <$> l) (length oks)).
    + assert (note o x s oks = oks) as -> by (by rewrite Eo). constructor.
    + by rewrite Eops, Er.
    + intros p Hpb. destruct (Hd p Hpb) as (a&e&Ha&?). exists a, e. by rewrite Ent.
    + intros Hc. apply Hnc. eapply cutting_perm; [symmetry; apply chs_before|]. rewrite own_none by (by rewrite Eo). eapply cutting_perm in Hc; [|apply chs_after]. by rewrite Hown in Hc.
    + assert (note o x s oks = oks /\ note_saved o x s ch = ch) as [-> ->] by (by rewrite Eo). intros k p. apply late_mapped; [done|by left|done].
  - split; [done|]. eapply coherent_perm; [symmetry; rewrite chs_after, Hown; reflexivity|]. by rewrite Eo.
Qed.

Lemma run_clean T n last batch : o = Clean n last batch -> rest = [] -> goes_well T.
Proof.
  intros Eo Er Hw Htot Hco Hfits Hp. assert (exists c, ops = (Release ∘ snd <$> batch) ++ [Collect n c last]) as (c&Eops).
  { rewrite Eo in Hp. cbn [perform] in Hp. eexists. injection Hp as E _ _. by rewrite <- E. }
  assert (resting (ops ++ rest)) as Hrest.
  { rewrite Er, app_nil_r, Eops. exists (Release ∘ snd <$> batch), [Collect n c last]. split; [done|]. split; [apply Forall_fmap, Forall_true; done|]. right. by eexists. }
  pose proof (own_none _ (resting_no_change _ Hrest)) as Hown.
  destruct (run_quietly T Hw Htot Hco Hfits Hp) as [H1 H2]; rewrite ?Hown; try by intros; apply not_elem_of_nil.
  - by rewrite Eo.
  - by rewrite Eo.
  - intros n' last' batch' Hin. rewrite Eops in Hin. apply elem_of_app in Hin as [(q&?&_)%list_elem_of_fmap|?%list_elem_of_singleton]; done.
  - by intros c' ?%elem_of_nil.
  - intros Hk _. apply task_resting; [done|]. cbn. rewrite Er, app_nil_r, Eops. by intros o' [(q&->&_)%list_elem_of_fmap| ->%list_elem_of_singleton]%elem_of_app.
  - split; [done|]. eapply coherent_perm; [symmetry; rewrite chs_after, Hown; reflexivity|]. by rewrite Eo.
Qed.

(** ** Parts that change files *)

Lemma run_change : well -> kindred s s' -> new = [] -> (forall a e, entries s' !! a = Some e -> entries s !! a = Some e) ->
  (forall t n last batch a e, t ∈ ts1 ++ ts2 -> Clean n last batch ∈ todo t -> entries s !! a = Some e -> e_node e = n -> e_dirty e = true -> entries s' !! a = Some e) ->
  (forall n, 0 <= size (nodes s' n) < 0x8000000000000000) ->
  (forall c, c ∈ chs -> size (nodes s' (ch_node c)) = size (nodes s (ch_node c))) ->
  (forall t n last batch, t ∈ ts1 ++ ts2 -> Clean n last batch ∈ todo t -> cutting (own_change (ops ++ rest)) n -> cutting (own_change (o :: rest)) n) ->
  task_tidy s' (changes (tasks S')) (new ++ ms) t' ->
  (forall c, c ∈ own_change (ops ++ rest) -> ch_node c ∉ ch_node <$> chs) ->
  (forall n offset buf len page b, Writing n offset buf len page b ∈ own_change (ops ++ rest) -> offset + len <= size (nodes s' n)) ->
  (forall n sz b, Cutting n sz b ∈ own_change (ops ++ rest) -> sz = size (nodes s' n)) ->
  tidy S'.
Proof.
  intros (Hinv&_&Htidy) Hk Hnew Hsub Hdirty Hsz Hszc Hcut Hown Huniq Hwithin Hcutting. apply run_tidy; try done.
  - intros a e Ha. left. exists e. split; [by apply Hsub|]. split; [done|]. by left.
  - intros m a e Hm. rewrite Hnew in Hm. by apply elem_of_nil in Hm.
  - intros t n last batch p Ht Hin _ (a&e&Ha&En&Ei&Ef&Hd). exists a, e. split; [by eapply Hdirty|done].
Qed.

(** The changes of other tasks concern other files. *)
Lemma own_unique c : tidy S -> own_change (o :: rest) = [c] -> ch_node c ∉ ch_node <$> chs.
Proof. intros Ht Ho. pose proof (td_unique S Ht) as Hu. rewrite chs_before, Ho in Hu. by apply NoDup_cons in Hu as [? _]. Qed.

Lemma coherent_before T c : own_change (o :: rest) = [c] -> coherent s T (changes (tasks S)) (putting S) (safe S) -> coherent s T (c :: chs) (putting S) (safe S).
Proof. intros Ho. apply coherent_perm. by rewrite chs_before, Ho. Qed.

Lemma sane_before c : well -> own_change (o :: rest) = [c] -> sane s (c :: chs) (putting S).
Proof.
  intros (Hinv&_&Htidy) Ho. eapply (sane_less s (changes (tasks S)) _ (putting S)); [done| | |exact (tidy_sane S Hinv Htidy)].
  - intros c' Hc'. by rewrite chs_before, Ho.
  - pose proof (td_unique S Htidy) as Hu. by rewrite chs_before, Ho in Hu.
Qed.

Lemma coherent_after T l : own_change (ops ++ rest) = l -> (forall n i shared tries g f memory, Put n i shared tries g f memory ∉ ops) ->
  (forall f, safe S' f -> safe S f) -> coherent s' T (l ++ chs) (putting S) (safe S) -> coherent s' T (changes (tasks S')) (putting S') (safe S').
Proof.
  intros Hl Hno Hsf Hc. eapply coherent_perm; [symmetry; rewrite chs_after, Hl; reflexivity|]. eapply coherent_less; [|exact Hsf|exact Hc]. intros n i g f. by apply putting_less.
Qed.

Lemma safe_less : (forall n last batch, Clean n last batch ∉ ops) -> (forall n offset buf len f, o <> Content n offset buf len (Some f)) -> forall f, safe S' f -> safe S f.
Proof.
  intros Hno Hc f Hf. destruct (safe_run f) as [?|(n&offset&buf&len&E&_)]; [|done|done|by apply Hc in E]. intros n last batch Hin. by apply Hno in Hin.
Qed.

Lemma still_apart n : ~ cutting (changes (tasks S)) n -> (forall sz b, Cutting n sz b ∉ own_change (ops ++ rest)) -> ~ cutting (changes (tasks S')) n.
Proof.
  intros Hn Ho (sz&b&Hin). rewrite chs_after in Hin. apply elem_of_app in Hin as [Hin|Hin]; [by apply Ho in Hin|]. apply Hn. exists sz, b. rewrite chs_before. apply elem_of_app. by right.
Qed.

(** ** A page on its way to the file *)

Lemma run_gap_page T n last batch i f len : o = Gap n (i * PAGE_SIZE) (view s f) len (Some f) -> back_at s n last batch (length oks) o rest ->
  batch !! length oks = Some (i, f) -> page_range n i s = Some (i * PAGE_SIZE, len) -> rest = to_write n last batch (Datatypes.S (length oks)) -> goes_well T.
Proof.
  intros Eo Hb Hk Hr Er Hw Htot Hco Hfits Hp. destruct (back_facts n last batch (proj2 (proj2 Hw)) Hb) as (Hd&Hnc&Hlate).
  destruct (page_range_dirty T n last batch i f Hw Hco Hb (list_elem_of_lookup_2 _ _ _ Hk)) as (len'&Hr'&Hl&Hle&a&e&Ha&En&Ei&Ef&Hpg). rewrite Hr in Hr'. injection Hr' as <-.
  assert (writable n len s = true) as Hwr.
  { destruct Hpg as (Hc&_). unfold pcache_cacheable in Hc. apply andb_true_iff in Hc as [Hc _]. unfold writable. rewrite Hc, (proj2 (Z.eqb_neq len 0)) by lia. done. }
  assert (ops = [Content n (i * PAGE_SIZE) (view s f) len (Some f)] /\ new = [] /\ s' = s) as (Eops&Enew&Es).
  { rewrite Eo in Hp. cbn [perform] in Hp. rewrite Hwr in Hp. cbn [negb] in Hp. rewrite (proj2 (Z.ltb_ge _ _)) in Hp by lia. split_and!; congruence. }
  set (c := Opened n (i * PAGE_SIZE) len (Some f)).
  assert (own_change (o :: rest) = [c] /\ own_change (ops ++ rest) = [c]) as [Ho1 Ho2] by (by rewrite Eops, Eo). split.
  - apply run_change; rewrite ?Ho1, ?Ho2, ?Es; try done.
    + apply Hw.
    + eapply (back_task s _ _ n last batch [Content n (i * PAGE_SIZE) (view s f) len (Some f)] (Datatypes.S (length oks))).
      * assert (note o x s oks = oks) as -> by (rewrite Eo; cbn [note]; by rewrite Hwr). by apply under_content.
      * by rewrite Eops, Er.
      * done.
      * apply still_apart; [done|]. rewrite Ho2. by intros sz b ?%list_elem_of_singleton.
      * assert (note o x s oks = oks /\ note_saved o x s ch = ch) as [-> ->] by (rewrite Eo; cbn [note]; by rewrite Hwr). intros k p. apply late_mapped; [done|by left|done].
    + intros c' ->%list_elem_of_singleton. apply own_unique; [apply Hw|done].
    + by intros ? ? ? ? ? ? ?%list_elem_of_singleton.
    + by intros ? ? ? ?%list_elem_of_singleton.
  - apply (coherent_after _ [c] Ho2).
    + intros ? ? ? ? ? ? ?. rewrite Eops. by intros ?%list_elem_of_singleton.
    + apply safe_less; [|by rewrite Eo]. intros ? ? ?. rewrite Eops. by intros ?%list_elem_of_singleton.
    + rewrite Es. assert (tell o x s T = T) as -> by (by rewrite Eo). by apply coherent_before.
Qed.

Lemma write_kindred n offset buf count : kindred s (write_content n offset buf count s).
Proof. split; [done|done|]. intros n'. cbn. by destruct (Z.eqb_spec n' n) as [->|]. Qed.

Lemma taken_bound n offset len : 0 < len -> 0 <= taken n offset len x s <= len.
Proof. intros Hl. unfold taken. destruct (has_ops _); [lia|]. destruct (_ || _); lia. Qed.

Lemma run_content_page T n last batch i f len : o = Content n (i * PAGE_SIZE) (view s f) len (Some f) -> back_at s n last batch (length oks) o rest ->
  batch !! length oks = Some (i, f) -> page_range n i s = Some (i * PAGE_SIZE, len) -> rest = to_write n last batch (Datatypes.S (length oks)) -> goes_well T.
Proof.
  intros Eo Hb Hk Hr Er Hw Htot Hco Hfits Hp. destruct (back_facts n last batch (proj2 (proj2 Hw)) Hb) as (Hd&Hnc&Hlate).
  destruct (page_range_dirty T n last batch i f Hw Hco Hb (list_elem_of_lookup_2 _ _ _ Hk)) as (len'&Hr'&Hl&Hle&a&e&Ha&En&Ei&Ef&Hpg). rewrite Hr in Hr'. injection Hr' as <-.
  set (c := Opened n (i * PAGE_SIZE) len (Some f)). assert (own_change (o :: rest) = [c]) as Ho1 by (by rewrite Eo). assert (tell o x s T = T) as ET by (by rewrite Eo).
  set (count := taken n (i * PAGE_SIZE) len x s). pose proof (taken_bound n (i * PAGE_SIZE) len ltac:(lia)) as Hcount. fold count in Hcount.
  assert (note o x s oks = oks ++ [count =? len] /\ note_saved o x s ch = if count =? len then f :: ch else ch) as [Enote Esv] by (by rewrite Eo).
  assert (forall k p, batch !! k = Some p -> (oks ++ [count =? len]) !! k = Some true -> snd p ∈ (if count =? len then f :: ch else ch) \/ snd p ∈ m_frame <$> (new ++ ms)) as Hlate'.
  { intros k p Hkp. apply (late_mapped k p batch); [done| | |done].
    - intros Hx. apply lookup_app_Some in Hx as [?|[Hge Hx]]; [by left|right]. apply list_lookup_singleton_Some in Hx as [Hz Hx]. rewrite Hx.
      assert (k = length oks) as -> by lia. rewrite Hk in Hkp. injection Hkp as <-. apply list_elem_of_here.
    - intros f' Hf'. destruct (_ =? _); [by apply elem_of_cons; right|done]. }
  destruct (Z.ltb_spec 0 count) as [Hpos|Hzero].
  - assert (ops = [Bump n; Written n (i * PAGE_SIZE) (view s f) count (Some f)] /\ new = [] /\ s' = write_content n (i * PAGE_SIZE) (view s f) count s) as (Eops&Enew&Es).
    { rewrite Eo in Hp. cbn [perform] in Hp. fold count in Hp. rewrite (proj2 (Z.ltb_lt _ _) Hpos), (proj1 Hpg) in Hp. split_and!; congruence. }
    assert (kindred s s') as Hkin by (rewrite Es; apply write_kindred).
    assert (forall n', size (nodes s' n') = size (nodes s n')) as Esz. { intros n'. rewrite Es, write_content_size. destruct (Z.eqb_spec n' n) as [->|]; lia. }
    assert (entries s' = entries s) as Ent by (by rewrite Es).
    set (c' := Writing n (i * PAGE_SIZE) (view s f) count (Some f) false). assert (own_change (ops ++ rest) = [c']) as Ho2 by (by rewrite Eops). split.
    + apply run_change; rewrite ?Ho1, ?Ho2, ?Ent; try done.
      * intros n'. rewrite Esz. apply Hw.
      * intros t n' last' batch' _ _ (sz&b&Hx). by apply list_elem_of_singleton in Hx.
      * eapply (back_task s' _ _ n last batch [Bump n; Written n (i * PAGE_SIZE) (view s' f) count (Some f)] (length (note o x s oks))); rewrite ?Enote, ?Esv.
        -- rewrite length_app. cbn [length]. rewrite Nat.add_1_r. eapply (under_bump s' n batch _ i f count (length oks)); [done|done|lia|rewrite Esz; lia].
        -- rewrite Eops, Er, length_app. cbn [length]. rewrite Nat.add_1_r. by rewrite (kindred_view _ _ Hkin).
        -- intros p Hpb. destruct (Hd p Hpb) as (a'&e'&?). exists a', e'. by rewrite Ent.
        -- apply still_apart; [done|]. rewrite Ho2. by intros sz b ?%list_elem_of_singleton.
        -- done.
      * intros c0 ->%list_elem_of_singleton. change (ch_node c') with (ch_node c). apply own_unique; [apply Hw|done].
      * intros n' off' buf' len' page' b [= -> -> -> -> -> ->]%list_elem_of_singleton. rewrite Esz. lia.
      * by intros ? ? ? ?%list_elem_of_singleton.
    + eapply coherent_perm; [symmetry; rewrite chs_after, Ho2; reflexivity|]. rewrite ET, Es. cbn [app].
      eapply (coherent_less _ _ _ (putting S) _ (fun f' => safe S f' \/ f' = f /\ count = len)).
      * intros n' i' g' f'. apply putting_less. rewrite Eops. intros ? ? ? ? ? ? ? Hx. set_unfold in Hx. naive_solver.
      * intros f' Hf'. destruct (safe_run f') as [?|(n'&off'&buf'&len'&E&Ht)]; [|done|by left|right].
        -- rewrite Eops. intros ? ? ? Hx. set_unfold in Hx. naive_solver.
        -- rewrite Eo in E. injection E as E1 E2 E3 E4 E5. subst n' off' buf' len' f'. done.
      * pose proof (coherent_before T c Ho1 Hco) as Hco'. eapply (coherent_page s T chs (putting S) (safe S)); try done.
        -- eapply sane_less; [done| | |exact (sane_before c Hw Ho1)]; [intros c0 Hc0; by apply elem_of_cons; right|apply chs_nodup, Hw].
        -- apply (own_unique c); [apply Hw|done].
        -- lia.
  - assert (ops = [] /\ new = [] /\ s' = s) as (Eops&Enew&Es).
    { rewrite Eo in Hp. cbn [perform] in Hp. fold count in Hp. rewrite (proj2 (Z.ltb_ge _ _) Hzero) in Hp. split_and!; congruence. }
    assert (own_change (ops ++ rest) = []) as Ho2 by (rewrite Eops, Er; apply own_none, to_write_no_change). split.
    + apply run_change; rewrite ?Ho1, ?Ho2, ?Es; try done; try (by intros; exfalso; eapply not_elem_of_nil).
      * apply Hw.
      * by intros ? ? ? ? _ _ (?&?&?%elem_of_nil).
      * eapply (back_task s _ _ n last batch [] (length (note o x s oks))); rewrite ?Enote, ?Esv; [constructor| |done| |done].
        -- rewrite Eops, Er, length_app. cbn [length]. by rewrite Nat.add_1_r.
        -- apply still_apart; [done|]. rewrite Ho2. by intros sz b ?%elem_of_nil.
    + rewrite ET, Es. eapply coherent_perm; [symmetry; rewrite chs_after, Ho2; reflexivity|]. eapply (coherent_less _ _ _ (putting S) _ (safe S)).
      * intros n' i' g' f'. apply putting_less. rewrite Eops. by intros ? ? ? ? ? ? ? ?%elem_of_nil.
      * intros f' Hf'. destruct (safe_run f') as [?|(n'&off'&buf'&len'&E&Ht)]; [|done|done|].
        -- rewrite Eops. by intros ? ? ? ?%elem_of_nil.
        -- rewrite Eo in E. injection E as E1 E2 E3 E4 E5. subst n' off' buf' len' f'. fold count in Ht. lia.
      * eapply coherent_unopened. by apply (coherent_before T c).
Qed.

(** ** The generation *)

Lemma run_bump T n : o = Bump n -> bumped n (own_change (o :: rest)) (own_change (ops ++ rest)) ->
  (tidy S -> kindred s s' -> entries s' = entries s -> (forall n', size (nodes s' n') = size (nodes s n')) -> task_tidy s' (changes (tasks S')) (new ++ ms) t') -> goes_well T.
Proof.
  intros Eo Hbump Hown Hw Htot Hco Hfits Hp. assert (ops = [] /\ new = [] /\ s' = bump n s) as (Eops&Enew&Es).
  { rewrite Eo in Hp. cbn [perform] in Hp. split_and!; congruence. }
  assert (kindred s s') as Hk. { rewrite Es. split; [done|done|]. intros n'. cbn. by destruct (Z.eqb_spec n' n) as [->|]. }
  assert (forall n', size (nodes s' n') = size (nodes s n')) as Esz. { intros n'. rewrite Es. cbn. by destruct (Z.eqb_spec n' n) as [->|]. }
  assert (entries s' = entries s) as Ent by (by rewrite Es). destruct Hw as (Hinv&Hinv'&Htidy). split.
  - apply run_change; rewrite ?Ent; try done.
    + intros n'. rewrite Esz. apply Htidy.
    + intros t n' last batch _ _. destruct Hbump as [[-> ->]|[(?&?&?&?&->&->)|(sz&->&->)]]; [done| |]; intros (sz'&b&Hx); apply list_elem_of_singleton in Hx; [done|].
      injection Hx as -> -> ->. exists sz, false. apply list_elem_of_here.
    + by apply Hown.
    + intros c Hc. destruct Hbump as [[E ->]|[(?&?&?&?&E&->)|(sz&E&->)]] in Hc |- *; [by apply elem_of_nil in Hc| |];
        apply list_elem_of_singleton in Hc as ->; apply (own_unique _ Htidy E).
    + intros n' off' buf' len' page' b Hx. destruct Hbump as [[_ ->]|[(?&?&?&?&E&->)|(sz&_&->)]] in Hx |- *; [by apply elem_of_nil in Hx| |by apply list_elem_of_singleton in Hx].
      apply list_elem_of_singleton in Hx as [= -> -> -> -> -> ->]. rewrite Esz. eapply (td_within S Htidy). rewrite chs_before, E. apply list_elem_of_here.
    + intros n' sz' b Hx. destruct Hbump as [[_ ->]|[(?&?&?&?&_&->)|(sz&E&->)]] in Hx |- *; [by apply elem_of_nil in Hx|by apply list_elem_of_singleton in Hx|].
      apply list_elem_of_singleton in Hx as [= -> -> ->]. rewrite Esz. eapply (td_cut S Htidy). rewrite chs_before, E. apply list_elem_of_here.
  - apply (coherent_after _ _ eq_refl).
    + rewrite Eops. by intros ? ? ? ? ? ? ? ?%elem_of_nil.
    + apply safe_less; [|by rewrite Eo]. rewrite Eops. by intros ? ? ? ?%elem_of_nil.
    + rewrite Es. assert (tell o x s T = T) as -> by (by rewrite Eo). apply (bumped_coherent s T chs (putting S) (safe S) n _ _ Hbump).
      * intros i g f (t&shared&tries&memory&Ht&Hin). rewrite Eo in Hfits. cbn [fits] in Hfits. cbn in Ht. apply elem_of_app in Ht as [Ht|[->|Ht]%elem_of_cons].
        -- eapply (Hfits t); [apply elem_of_app; by left|exact Hin].
        -- cbn in Hin. apply elem_of_cons in Hin as [Hin|Hin]; [by rewrite Eo in Hin|]. eapply (Hfits (mkTask rest oks ch)); [apply elem_of_app; right; apply list_elem_of_here|exact Hin].
        -- eapply (Hfits t); [apply elem_of_app; right; by apply elem_of_cons; right|exact Hin].
      * eapply coherent_perm; [apply chs_before|done].
Qed.

(** ** Walks over the pages *)

Lemma run_walk T c gone m : (exists out l, ops = (Release <$> out) ++ l /\ forall o', o' ∈ l -> o' = Count) -> new = [] ->
  gone_from gone (set_mem s m) s' -> own_change (o :: rest) = [c] -> change_of (ops ++ rest) = None ->
  (forall n offset buf len f, o <> Content n offset buf len (Some f)) -> tell o x s T = T ->
  (forall a e, entries s !! a = Some e -> e_dirty e = true -> ~ cutting [c] (e_node e) -> a ∉ gone) ->
  (tidy S -> kindred s s' -> task_tidy s' (changes (tasks S')) (new ++ ms) t') ->
  (sane s (c :: chs) (putting S) -> coherent s T (c :: chs) (putting S) (safe S) -> coherent s' T chs (putting S) (safe S)) -> goes_well T.
Proof.
  intros (out&l&Eops&Hl) Enew Hg Ho1 Hc2 Hnc ET Hdirty Hown HC Hw Htot Hco Hfits Hp. pose proof (own_none _ Hc2) as Ho2.
  assert (kindred s s') as Hk by (destruct (kindred_rest _ _ (gf_rest _ _ _ Hg)) as [K1 K2 K3]; by split). pose proof (rs_node _ _ (gf_rest _ _ _ Hg)) as Hnode.
  assert (forall a, entries s' !! a = if decide (a ∈ gone) then None else entries s !! a) as Hent by apply (gf_entries _ _ _ Hg).
  assert (forall n', size (nodes s' n') = size (nodes s n')) as Esz by (intros n'; apply (Hnode n')).
  assert (forall o', o' ∈ ops -> (exists f, o' = Release f) \/ o' = Count) as Hq.
  { intros o' Hin. rewrite Eops in Hin. apply elem_of_app in Hin as [(f&->&_)%list_elem_of_fmap|Hin]; [left; by exists f|right; by apply Hl]. }
  destruct Hw as (Hinv&Hinv'&Htidy). split.
  - apply run_change; rewrite ?Ho1, ?Ho2; try done; try (by intros; exfalso; eapply not_elem_of_nil).
    + intros a e. rewrite Hent. by destruct (decide _).
    + intros t n last batch a e Ht Hin Ha En Hd. rewrite Hent. destruct (decide _) as [Hgone|]; [|done]. exfalso. apply (Hdirty a e Ha Hd); [|done]. rewrite En. intros (sz&b&Hc).
      apply (tt_apart _ _ _ _ (td_task S Htidy t (in_S t Ht)) n last batch Hin). exists sz, b. rewrite chs_before, Ho1. apply elem_of_app. by left.
    + intros n'. rewrite Esz. apply Htidy.
    + by intros ? ? ? ? _ _ (?&?&?%elem_of_nil).
    + by apply Hown.
  - apply (coherent_after _ [] Ho2).
    + by intros ? ? ? ? ? ? ? [[? ?]|?]%Hq.
    + apply safe_less; [by intros ? ? ? [[? ?]|?]%Hq|done].
    + rewrite ET. apply HC; [by apply sane_before|by apply coherent_before].
Qed.

Lemma run_written T n offset buf len : o = Written n offset buf len None -> rest = [] -> goes_well T.
Proof.
  intros Eo Er Hw Htot Hco Hfits Hp. set (c := Writing n offset buf len None true). pose proof (in_table S (proj1 Hw)) as Ht. cbn in Ht.
  destruct (written_walk n offset buf len s Ht) as [W1 W2]. cbn zeta in W1, W2.
  assert (ops = Release <$> w_out (written_locked n offset buf len s) /\ new = [] /\ s' = w_cache (written_locked n offset buf len s)) as (Eops&Enew&Es).
  { rewrite Eo in Hp. cbn [perform] in Hp. split_and!; congruence. }
  assert (resting (ops ++ rest)) as Hrest by (rewrite Eops, Er; by apply resting_releases). pose proof (own_good (proj2 (proj2 Hw))) as Hgood. rewrite Eo in Hgood. destruct Hgood as [Hr Hb].
  rewrite <- Es in W1. revert Hw Htot Hco Hfits Hp. eapply (run_walk T c _ _); [..|exact W1| | | | | | |].
  - exists (w_out (written_locked n offset buf len s)), []. rewrite app_nil_r. split; [done|]. by intros ? ?%elem_of_nil.
  - done.
  - by rewrite Eo.
  - by apply resting_no_change.
  - by rewrite Eo.
  - by rewrite Eo.
  - intros a e Ha Hd _ Hin. apply list_elem_of_filter in Hin as [Hv _]. unfold visited in Hv. rewrite Ha in Hv. apply andb_true_iff in Hv as [_ Hv%eqb_prop].
    unfold written_goes in Hv. by rewrite (tb_dirty s Ht a e Ha Hd) in Hv.
  - intros Htd Hk. apply task_resting; [done|]. cbn. rewrite Eops, Er. intros o'. apply releases_good. by intros ? ?%elem_of_nil.
  - rewrite Es. intros. by apply coherent_written.
Qed.

Lemma run_written_page T n last batch i f len j : o = Written n (i * PAGE_SIZE) (view s f) len (Some f) -> back_at s n last batch (length oks) o rest ->
  length oks = Datatypes.S j -> batch !! j = Some (i, f) -> 0 < len <= PAGE_SIZE -> i * PAGE_SIZE + len <= size (nodes s n) -> rest = to_write n last batch (length oks) -> goes_well T.
Proof.
  intros Eo Hb Hj Hbj Hl Hle Er Hw Htot Hco Hfits Hp. set (c := Writing n (i * PAGE_SIZE) (view s f) len (Some f) true). pose proof (in_table S (proj1 Hw)) as Ht. cbn in Ht.
  destruct (back_facts n last batch (proj2 (proj2 Hw)) Hb) as (Hd&Hnc&Hlate). destruct (written_walk n (i * PAGE_SIZE) (view s f) len s Ht) as [W1 W2]. cbn zeta in W1, W2.
  assert (ops = Release <$> w_out (written_locked n (i * PAGE_SIZE) (view s f) len s) /\ new = [] /\ s' = w_cache (written_locked n (i * PAGE_SIZE) (view s f) len s)) as (Eops&Enew&Es).
  { rewrite Eo in Hp. cbn [perform] in Hp. split_and!; congruence. }
  rewrite <- Es in W1.
  assert (forall a e, entries s !! a = Some e -> e_dirty e = true -> a ∉ filter (fun a => visited n written_goes s true a = true) (use s)) as Hstay.
  { intros a e Ha Hdirty Hin. apply list_elem_of_filter in Hin as [Hv _]. unfold visited in Hv. rewrite Ha in Hv. apply andb_true_iff in Hv as [_ Hv%eqb_prop].
    unfold written_goes in Hv. by rewrite (tb_dirty s Ht a e Ha Hdirty) in Hv. }
  assert (change_of (ops ++ rest) = None) as Hc2. { rewrite Eops, Er. destruct (w_out _); [apply to_write_no_change|done]. }
  revert Hw Htot Hco Hfits Hp. eapply (run_walk T c _ _); [..|exact W1| | | | | | |].
  - exists (w_out (written_locked n (i * PAGE_SIZE) (view s f) len s)), []. rewrite app_nil_r. split; [done|]. by intros ? ?%elem_of_nil.
  - done.
  - by rewrite Eo.
  - done.
  - by rewrite Eo.
  - by rewrite Eo.
  - intros a e Ha Hdirty _. by eapply Hstay.
  - intros Htd Hk. assert (note o x s oks = oks /\ note_saved o x s ch = ch) as [En Esv] by (by rewrite Eo).
    eapply (back_task s' _ _ n last batch (Release <$> w_out (written_locked n (i * PAGE_SIZE) (view s f) len s)) (length oks)); rewrite ?En, ?Esv; [constructor|by rewrite Eops, Er| | |].
    + intros p Hpb. destruct (Hd p Hpb) as (a&e&Ha&En'&Ei&Ef&Hdirty). exists a, e. split; [|done]. rewrite (gf_entries _ _ _ W1). rewrite decide_False; [done|]. by eapply Hstay.
    + apply still_apart; [done|]. rewrite (own_none _ Hc2). by intros sz b ?%elem_of_nil.
    + intros k p. apply late_mapped; [done|by left|done].
  - rewrite Es. intros. apply coherent_written_page; try done. destruct (Hd (i, f) (list_elem_of_lookup_2 _ _ _ Hbj)) as (a&e&Ha&En&Ei&Ef&_). by exists a, e.
Qed.

Lemma run_truncated T n sz : o = Truncated n sz -> rest = [] -> goes_well T.
Proof.
  intros Eo Er Hw Htot Hco Hfits Hp. set (c := Cutting n sz true). pose proof (in_table S (proj1 Hw)) as Ht. cbn in Ht.
  assert (own_change (o :: rest) = [c]) as Ho1 by (by rewrite Eo).
  assert (sz = size (nodes s n)) as Esz by (eapply (td_cut S (proj2 (proj2 Hw)) n sz true); rewrite chs_before, Ho1; apply list_elem_of_here).
  destruct (truncated_walk n sz s Ht) as [W1 W2]. cbn zeta in W1, W2. set (w := truncated_locked n sz s) in *.
  assert (ops = (Release <$> w_out w) ++ (if w_gone w then [Count] else []) /\ new = [] /\ s' = w_cache w) as (Eops&Enew&Es).
  { rewrite Eo in Hp. cbn [perform] in Hp. fold w in Hp. split_and!; congruence. }
  assert (Forall quiet (if w_gone w then [Count] else [])) as Hq by (destruct (w_gone w); by repeat constructor).
  assert (resting (ops ++ rest)) as Hrest by (rewrite Eops, Er, app_nil_r; by apply resting_releases).
  rewrite <- Es in W1. revert Hw Htot Hco Hfits Hp. eapply (run_walk T c _ _); [..|exact W1| | | | | | |].
  - exists (w_out w), (if w_gone w then [Count] else []). split; [done|]. destruct (w_gone w); [by intros ? ?%list_elem_of_singleton|by intros ? ?%elem_of_nil].
  - done.
  - done.
  - by apply resting_no_change.
  - by rewrite Eo.
  - by rewrite Eo.
  - intros a e Ha Hd Hnc Hin. apply list_elem_of_filter in Hin as [Hv _]. unfold visited in Hv. rewrite Ha in Hv. apply andb_true_iff in Hv as [Hv%Z.eqb_eq _].
    apply Hnc. rewrite Hv. exists sz, true. apply list_elem_of_here.
  - intros Htd Hk. apply task_resting; [done|]. cbn. rewrite Eops, Er, app_nil_r. intros o'. apply releases_good. intros o0 Hin.
    destruct (w_gone w); [by apply list_elem_of_singleton in Hin as ->|by apply elem_of_nil in Hin].
  - unfold c, w in *. rewrite Es, Esz. apply coherent_truncated.
Qed.

Lemma sane_chs : well -> sane s chs (putting S).
Proof.
  intros (Hinv&_&Htidy). eapply (sane_less s (changes (tasks S)) _ (putting S)); [done| |by apply chs_nodup|exact (tidy_sane S Hinv Htidy)].
  intros c Hc. rewrite chs_before. apply elem_of_app. by right.
Qed.

Lemma run_dropped T n : o = Dropped n -> resting (o :: rest) -> goes_well T.
Proof.
  intros Eo Hrest Hw Htot Hco Hfits Hp. pose proof (in_table S (proj1 Hw)) as Ht. cbn in Ht. destruct (dropped_walk n s Ht) as [W1 W2]. cbn zeta in W1, W2.
  set (w := dropped_locked n s) in *.
  assert (ops = Release <$> w_out w /\ new = [] /\ s' = w_cache w) as (Eops&Enew&Es). { rewrite Eo in Hp. cbn [perform] in Hp. fold w in Hp. split_and!; congruence. }
  assert (resting rest) as Hrest0 by (eapply resting_cons; [exact Hrest|by rewrite Eo]).
  assert (resting (ops ++ rest)) as Hrest' by (apply resting_app; [rewrite Eops; apply quiet_release|done]).
  pose proof (own_none _ (resting_no_change _ Hrest)) as Ho1. pose proof (own_none _ (resting_no_change _ Hrest')) as Ho2.
  rewrite Eo in Hfits. cbn [fits] in Hfits. destruct Hfits as [Hnobody _].
  assert (forall t o', t ∈ ts1 ++ ts2 -> o' ∈ todo t -> ~ concerns n o') as Hothers.
  { intros t o' Hin. apply Hnobody. rewrite elem_of_app, elem_of_cons. apply elem_of_app in Hin. tauto. }
  rewrite <- Es in W1. assert (kindred s s') as Hk by (apply kindred_rest, (gf_rest _ _ _ W1)). pose proof (rs_node _ _ (gf_rest _ _ _ W1)) as Hnode.
  assert (forall a, entries s' !! a = if decide (a ∈ filter (fun a => visited n (fun _ => true) s true a = true) (use s)) then None else entries s !! a) as Hent by apply (gf_entries _ _ _ W1).
  split.
  - apply run_change; rewrite ?Ho1, ?Ho2; try done; try (by intros; exfalso; eapply not_elem_of_nil).
    + intros a e. rewrite Hent. by destruct (decide _).
    + intros t n' last batch a e Hin Hcl Ha En Hd. rewrite Hent. rewrite decide_False; [done|]. intros [Hv _]%list_elem_of_filter. unfold visited in Hv. rewrite Ha in Hv.
      apply andb_true_iff in Hv as [Hv%Z.eqb_eq _]. apply (Hothers t _ Hin Hcl). cbn. congruence.
    + intros n'. rewrite (proj1 (proj2 (proj2 (proj2 (Hnode n'))))). apply Hw.
    + intros c _. apply (Hnode (ch_node c)).
    + apply task_resting; [done|]. cbn. rewrite Eops. intros o'. apply releases_good. intros o0 Hin. apply (kindred_op s s' Hk). apply rest_good; [apply Hw|done].
  - apply (coherent_after _ [] Ho2).
    + rewrite Eops. intros ? ? ? ? ? ? ?. apply no_put_release.
    + apply safe_less; [|by rewrite Eo]. rewrite Eops. by intros ? ? ? (f&?&_)%list_elem_of_fmap.
    + rewrite Es. assert (tell o x s T = fun n' p => if n' =? n then content s n p else T n' p) as -> by (by rewrite Eo). cbn [app].
      assert (forall t o', t ∈ tasks S -> o' ∈ todo t -> o' <> o -> ~ concerns n o') as Hall.
      { intros t o' Hin Ho' Hne. cbn in Hin. apply elem_of_app in Hin as [Hin|[->|Hin]%elem_of_cons]; [apply (Hothers t); [apply elem_of_app; by left|done]| |apply (Hothers t); [apply elem_of_app; by right|done]].
        cbn in Ho'. apply elem_of_cons in Ho' as [->|Ho']; [done|]. apply (Hnobody (mkTask rest oks ch)); [apply elem_of_app; right; apply list_elem_of_here|done]. }
      apply coherent_dropped; [by apply sane_chs| | |].
      * intros (c&Hn&(t&Hin&Hc)%change_in)%list_elem_of_fmap. assert (exists o', o' ∈ todo t /\ concerns n o') as (o'&Ho'&Hco').
        { rewrite Hn. by apply (change_concerns (todo t)). }
        by apply (Hothers t o').
      * intros i g f (t&shared&tries&memory&Hin&Hput). apply (Hall t _ Hin Hput); [by rewrite Eo|done].
      * eapply coherent_perm; [|exact Hco]. by rewrite chs_before, Ho1.
Qed.

(** ** Writes and truncations *)

(** Nothing happens. *)
Lemma run_nothing T : ops = [] -> new = [] -> s' = s -> rest = [] -> own_change (o :: rest) = [] \/ (exists n offset len page, own_change (o :: rest) = [Opened n offset len page]) ->
  (forall n offset buf len f, o <> Content n offset buf len (Some f)) -> tell o x s T = T -> goes_well T.
Proof.
  intros Eops Enew Es Er Ho1 Hnc ET Hw Htot Hco Hfits Hp. assert (own_change (ops ++ rest) = []) as Ho2 by (by rewrite Eops, Er). split.
  - apply run_change; rewrite ?Ho2, ?Es; try done; try (by intros; exfalso; eapply not_elem_of_nil).
    + apply Hw.
    + by intros ? ? ? ? _ _ (?&?&?%elem_of_nil).
    + apply task_resting; cbn; rewrite Eops, Er; [apply resting_nil|by intros ? ?%elem_of_nil].
  - apply (coherent_after _ [] Ho2).
    + rewrite Eops. by intros ? ? ? ? ? ? ? ?%elem_of_nil.
    + apply safe_less; [|done]. rewrite Eops. by intros ? ? ? ?%elem_of_nil.
    + rewrite ET, Es. eapply coherent_perm in Hco; [|apply chs_before]. destruct Ho1 as [Ho1|(n&offset&len&page&Ho1)]; rewrite Ho1 in Hco; [done|]. by eapply coherent_unopened.
Qed.

Lemma gap_same n sz : let s1 := pcache_file_gap n sz s in entries s1 = entries s /\ nodes s1 = nodes s /\ kindred s s1.
Proof.
  cbn zeta. unfold pcache_file_gap. destruct (_ || _); [done|]. destruct (find_locked _ _ s) as [a|]; [|done]. destruct (entries s !! a) as [e|]; [|done]. by destruct (e_shared e).
Qed.

Lemma run_gap T n offset buf len : o = Gap n offset buf len None -> rest = [] -> goes_well T.
Proof.
  intros Eo Er. destruct (writable n len s) eqn:Hwr.
  2: { intros Hw Htot Hco Hfits Hp. assert (ops = [] /\ new = [] /\ s' = s) as (Eops&Enew&Es). { rewrite Eo in Hp. cbn [perform] in Hp. rewrite Hwr in Hp. cbn [negb] in Hp. split_and!; congruence. }
       apply run_nothing; try done; [by left; rewrite Eo|by rewrite Eo|by rewrite Eo]. }
  intros Hw Htot Hco Hfits Hp. set (s1 := if size (nodes s n) <? offset then pcache_file_gap n (size (nodes s n)) s else s).
  assert (ops = [Content n offset buf len None] /\ new = [] /\ s' = s1) as (Eops&Enew&Es). { rewrite Eo in Hp. cbn [perform] in Hp. rewrite Hwr in Hp. cbn [negb] in Hp. fold s1 in Hp. split_and!; congruence. }
  set (c := Opened n offset len None). assert (own_change (o :: rest) = [] /\ own_change (ops ++ rest) = [c]) as [Ho1 Ho2] by (by rewrite Eops, Eo, Er).
  assert (n ∉ ch_node <$> chs) as Hn by (rewrite Eo in Hfits; cbn in Hfits; by rewrite chs_rest in Hfits by (by rewrite Er)).
  assert (entries s' = entries s /\ nodes s' = nodes s /\ kindred s s') as (Ent&End&Hk) by (rewrite Es; unfold s1; destruct (_ <? _); [apply gap_same|done]). split.
  - apply run_change; rewrite ?Ho1, ?Ho2, ?Ent, ?End; try done.
    + apply Hw.
    + by intros ? ? ? ? _ _ (?&?&?%list_elem_of_singleton).
    + split; cbn [todo written saved t']; rewrite ?Eops, ?Er; cbn [app].
      * intros o' ->%list_elem_of_singleton. apply (kindred_op s s' Hk). pose proof (own_good (proj2 (proj2 Hw))) as Hg. by rewrite Eo in Hg.
      * eapply shape_content. cbn. by rewrite Eops, Er.
      * by intros ? ? ? ? ?%list_elem_of_singleton.
      * by intros ? ? ? ?%list_elem_of_singleton.
      * by intros ? ? ? ? ? ?%list_elem_of_singleton.
    + by intros c' ->%list_elem_of_singleton.
    + by intros ? ? ? ? ? ? ?%list_elem_of_singleton.
    + by intros ? ? ? ?%list_elem_of_singleton.
  - apply (coherent_after _ [c] Ho2).
    + rewrite Eops. by intros ? ? ? ? ? ? ? ?%list_elem_of_singleton.
    + apply safe_less; [|by rewrite Eo]. rewrite Eops. by intros ? ? ? ?%list_elem_of_singleton.
    + assert (tell o x s T = T) as -> by (by rewrite Eo). rewrite Es. apply coherent_gap; [by apply sane_chs|done|]. eapply coherent_perm; [|exact Hco]. by rewrite chs_before, Ho1.
Qed.

(** A file that cannot be cached has no pages. *)
Lemma no_pages_of n : well -> pcache_cacheable s n = false -> (forall a e, entries s !! a = Some e -> e_node e <> n) /\ (forall n' i g f, putting S n' i g f -> n' <> n).
Proof.
  intros (Hinv&_&Htidy) Hc. split.
  - intros a e Ha <-. destruct (td_page S Htidy a e Ha) as (Hx&_). cbn in Hx. congruence.
  - intros n' i g f (t&shared&tries&memory&Ht&Hin) ->. destruct (tt_ops _ _ _ _ (td_task S Htidy t Ht) _ Hin) as [(Hx&_) _]. cbn in Hx. congruence.
Qed.

Lemma run_content T n offset buf len : o = Content n offset buf len None -> rest = [] -> goes_well T.
Proof.
  intros Eo Er Hw Htot Hco Hfits Hp. set (c := Opened n offset len None). assert (own_change (o :: rest) = [c]) as Ho1 by (by rewrite Eo).
  pose proof (own_good (proj2 (proj2 Hw))) as Hg. rewrite Eo in Hg. destruct Hg as [(R1&R2&R3) Hb].
  set (count := taken n offset len x s). pose proof (taken_bound n offset len R2) as Hcount. fold count in Hcount. pose proof (own_unique c (proj2 (proj2 Hw)) Ho1) as Hn. cbn [ch_node c] in Hn.
  destruct (Z.ltb_spec 0 count) as [Hpos|Hzero].
  2: { assert (ops = [] /\ new = [] /\ s' = s) as (Eops&Enew&Es). { rewrite Eo in Hp. cbn [perform] in Hp. fold count in Hp. rewrite (proj2 (Z.ltb_ge _ _) Hzero) in Hp. split_and!; congruence. }
       apply run_nothing; try done; [right; by exists n, offset, len, None|by rewrite Eo|]. rewrite Eo. cbn [tell]. fold count. by rewrite (proj2 (Z.ltb_ge _ _) Hzero). }
  set (s1 := write_content n offset buf count s).
  assert (tell o x s T = tell_write n offset buf count s T) as ET. { rewrite Eo. cbn [tell]. fold count. by rewrite (proj2 (Z.ltb_lt _ _) Hpos). }
  assert (new = [] /\ s' = s1 /\ ops = if pcache_cacheable s n then [Bump n; Written n offset buf count None] else []) as (Enew&Es&Eops).
  { rewrite Eo in Hp. cbn [perform] in Hp. fold count in Hp. rewrite (proj2 (Z.ltb_lt _ _) Hpos) in Hp. fold s1 in Hp. split_and!; congruence. }
  assert (kindred s s') as Hk by (rewrite Es; apply write_kindred). assert (entries s' = entries s) as Ent by (by rewrite Es).
  assert (forall n', size (nodes s' n') = if n' =? n then Z.max (size (nodes s n)) (offset + count) else size (nodes s n')) as Esz by (intros n'; rewrite Es; apply write_content_size).
  pose proof (coherent_content s T chs (putting S) (safe S) n offset buf len count Hn R1 Hpos (coherent_before T c Ho1 Hco)) as HC. fold s1 in HC. rewrite <- Es in HC.
  assert (forall c, c ∈ chs -> size (nodes s' (ch_node c)) = size (nodes s (ch_node c))) as Hchs.
  { intros c0 Hc0. rewrite Esz. rewrite (proj2 (Z.eqb_neq _ _)); [done|]. intros E. apply Hn. rewrite <- E. apply list_elem_of_fmap. by exists c0. }
  assert (forall n', 0 <= size (nodes s' n') < 0x8000000000000000) as Hrange.
  { intros n'. rewrite Esz. pose proof (td_size S (proj2 (proj2 Hw)) n') as H1. pose proof (td_size S (proj2 (proj2 Hw)) n) as H2. cbn in H1, H2. destruct (n' =? n); lia. }
  destruct (pcache_cacheable s n) eqn:Hcache.
  - set (c' := Writing n offset buf count None false). assert (own_change (ops ++ rest) = [c']) as Ho2 by (by rewrite Eops, Er). split.
    + apply run_change; rewrite ?Ho1, ?Ho2, ?Ent; try done.
      * by intros ? ? ? ? _ _ (?&?&?%list_elem_of_singleton).
      * split; cbn [todo written saved t']; rewrite ?Eops, ?Er; cbn [app].
        -- intros o' [->| ->%list_elem_of_singleton]%elem_of_cons; [done|]. apply (kindred_op s s' Hk). cbn. split; [split; lia|]. destruct Hb as (B1&B2&B3). split; [lia|]. split; lia.
        -- eapply shape_bump_written. cbn. by rewrite Eops, Er.
        -- intros ? ? ? ? Hx. set_unfold in Hx. naive_solver.
        -- intros ? ? ? Hx. set_unfold in Hx. naive_solver.
        -- intros ? ? ? ? ? Hx. set_unfold in Hx. naive_solver.
      * by intros c0 ->%list_elem_of_singleton.
      * intros n' off' buf' len' page' b [= -> -> -> -> -> ->]%list_elem_of_singleton. rewrite Esz, Z.eqb_refl. lia.
      * by intros ? ? ? ?%list_elem_of_singleton.
    + apply (coherent_after _ [c'] Ho2).
      * rewrite Eops. intros ? ? ? ? ? ? ? Hx. set_unfold in Hx. naive_solver.
      * apply safe_less; [|by rewrite Eo]. rewrite Eops. intros ? ? ? Hx. set_unfold in Hx. naive_solver.
      * by rewrite ET.
  - assert (own_change (ops ++ rest) = []) as Ho2 by (by rewrite Eops, Er). destruct (no_pages_of n Hw Hcache) as [Hno1 Hno2]. split.
    + apply run_change; rewrite ?Ho1, ?Ho2, ?Ent; try done; try (by intros; exfalso; eapply not_elem_of_nil).
      * by intros ? ? ? ? _ _ (?&?&?%elem_of_nil).
      * apply task_resting; cbn; rewrite Eops, Er; [apply resting_nil|by intros ? ?%elem_of_nil].
    + apply (coherent_after _ [] Ho2).
      * rewrite Eops. by intros ? ? ? ? ? ? ? ?%elem_of_nil.
      * apply safe_less; [|by rewrite Eo]. rewrite Eops. by intros ? ? ? ?%elem_of_nil.
      * rewrite ET. cbn [app]. eapply coherent_uncached; [| |exact HC]; [|exact Hno2]. intros a e. rewrite Ent. apply Hno1.
Qed.

Lemma run_cut T n sz : o = Cut n sz -> rest = [] -> goes_well T.
Proof.
  intros Eo Er. destruct (regular (nodes s n)) eqn:Hreg.
  2: { intros Hw Htot Hco Hfits Hp. assert (ops = [] /\ new = [] /\ s' = s) as (Eops&Enew&Es). { rewrite Eo in Hp. cbn [perform] in Hp. rewrite Hreg in Hp. cbn [negb] in Hp. split_and!; congruence. }
       apply run_nothing; try done; [by left; rewrite Eo|by rewrite Eo|by rewrite Eo]. }
  intros Hw Htot Hco Hfits Hp. set (s1 := cut n sz x s). assert (own_change (o :: rest) = []) as Ho1 by (by rewrite Eo).
  assert (new = [] /\ s' = s1 /\ ops = if pcache_cacheable s1 n then [Bump n; Truncated n (size (nodes s1 n))] else []) as (Enew&Es&Eops).
  { rewrite Eo in Hp. cbn [perform] in Hp. rewrite Hreg in Hp. cbn [negb] in Hp. fold s1 in Hp. split_and!; congruence. }
  pose proof (own_good (proj2 (proj2 Hw))) as Hg. rewrite Eo in Hg. cbn in Hg. rewrite Eo in Hfits. cbn [fits] in Hfits. destruct Hfits as [Hn Hback]. rewrite chs_rest in Hn by (by rewrite Er).
  assert (entries s1 = entries s /\ content s1 = content s /\ mem s1 = mem s /\ owned s1 = owned s) as (E1&E2&E3&E4) by (unfold s1, cut; by destruct (_ && _)).
  assert (forall n', cache_generation (nodes s1 n') = cache_generation (nodes s n')) as Eg. { intros n'. unfold s1, cut. destruct (_ && _); [|done]. cbn. by destruct (Z.eqb_spec n' n) as [->|]. }
  assert (forall n', n' <> n -> size (nodes s1 n') = size (nodes s n')) as Esz. { intros n' Hne. unfold s1, cut. destruct (_ && _); [|done]. cbn. by rewrite (proj2 (Z.eqb_neq _ _) Hne). }
  pose proof (td_size S (proj2 (proj2 Hw))) as Hrange. cbn in Hrange.
  assert (0 <= size (nodes s1 n) <= size (nodes s n)) as Hle.
  { specialize (Hrange n). unfold s1, cut. destruct (_ && _) eqn:E; [|lia]. apply andb_true_iff in E as [E%Z.ltb_lt _]. cbn. rewrite Z.eqb_refl. cbn. lia. }
  assert (kindred s s1) as Hk. { unfold s1, cut. destruct (_ && _); [|done]. split; [done|done|]. intros n'. cbn. by destruct (Z.eqb_spec n' n) as [->|]. }
  pose proof (coherent_cut s s1 T chs (putting S) (safe S) n Hn E1 E2 E3 E4 Eg Esz (proj2 Hle)) as HC.
  assert (coherent s T chs (putting S) (safe S)) as Hco' by (eapply coherent_perm; [|exact Hco]; by rewrite chs_before, Ho1). specialize (HC Hco').
  assert (forall c, c ∈ chs -> size (nodes s1 (ch_node c)) = size (nodes s (ch_node c))) as Hchs.
  { intros c0 Hc0. apply Esz. intros E. apply Hn. rewrite <- E. apply list_elem_of_fmap. by exists c0. }
  assert (forall n', 0 <= size (nodes s1 n') < 0x8000000000000000) as Hrange'.
  { intros n'. destruct (decide (n' = n)) as [->|Hne]; [pose proof (Hrange n); lia|]. rewrite Esz by done. apply Hrange. }
  assert (tell o x s T = T) as ET by (by rewrite Eo).
  rewrite (kindred_cacheable _ _ Hk) in Eops. destruct (pcache_cacheable s n) eqn:Hcache.
  - set (c' := Cutting n (size (nodes s1 n)) false). assert (own_change (ops ++ rest) = [c']) as Ho2 by (by rewrite Eops, Er). split.
    + apply run_change; rewrite ?Ho1, ?Ho2, ?Es, ?E1; try done.
      * intros t n' last batch Ht Hin (sz'&b&Hx). apply list_elem_of_singleton in Hx as [= -> -> ->]. exfalso. eapply Hback; [|exact Hin]. rewrite elem_of_app, elem_of_cons. apply elem_of_app in Ht. tauto.
      * split; cbn [todo written saved t']; rewrite ?Eops, ?Er; cbn [app].
        -- by intros o' [->| ->%list_elem_of_singleton]%elem_of_cons.
        -- eapply shape_bump_truncated. cbn. by rewrite Eops, Er.
        -- intros ? ? ? ? Hx. set_unfold in Hx. naive_solver.
        -- intros ? ? ? Hx. set_unfold in Hx. naive_solver.
        -- intros ? ? ? ? ? Hx. set_unfold in Hx. naive_solver.
      * by intros c0 ->%list_elem_of_singleton.
      * by intros ? ? ? ? ? ? ?%list_elem_of_singleton.
      * by intros n' sz' b [= -> -> ->]%list_elem_of_singleton.
    + apply (coherent_after _ [c'] Ho2).
      * rewrite Eops. intros ? ? ? ? ? ? ? Hx. set_unfold in Hx. naive_solver.
      * apply safe_less; [|by rewrite Eo]. rewrite Eops. intros ? ? ? Hx. set_unfold in Hx. naive_solver.
      * by rewrite ET, Es.
  - assert (own_change (ops ++ rest) = []) as Ho2 by (by rewrite Eops, Er). destruct (no_pages_of n Hw Hcache) as [Hno1 Hno2]. split.
    + apply run_change; rewrite ?Ho1, ?Ho2, ?Es, ?E1; try done; try (by intros; exfalso; eapply not_elem_of_nil).
      * apply task_resting; cbn; rewrite Eops, Er; [apply resting_nil|by intros ? ?%elem_of_nil].
    + apply (coherent_after _ [] Ho2).
      * rewrite Eops. by intros ? ? ? ? ? ? ? ?%elem_of_nil.
      * apply safe_less; [|by rewrite Eo]. rewrite Eops. by intros ? ? ? ?%elem_of_nil.
      * rewrite ET, Es. cbn [app]. eapply coherent_uncached; [| |exact HC]; [|exact Hno2]. intros a e. rewrite E1. apply Hno1.
Qed.

(** ** All parts *)

Lemma run_quiet T : quiet o -> resting (o :: rest) -> goes_well T.
Proof.
  intros Hq Hr. destruct (quiet_split o Hq) as [Hf|[(n&Eo)|(n&Eo)]]; [by apply run_resting| |by eapply run_dropped].
  intros Hw Htot Hco Hfits Hp. assert (ops = []) as Eops by (rewrite Eo in Hp; cbn [perform] in Hp; congruence). pose proof (resting_cons _ _ Hr Hq) as Hr'.
  revert Hw Htot Hco Hfits Hp. apply (run_bump T n Eo).
  - left. rewrite Eops. split; apply own_none; by apply resting_no_change.
  - intros Htd Hk _ _. apply task_resting; cbn; rewrite Eops; [done|]. intros o' Hin. apply (kindred_op s s' Hk). by apply rest_good.
Qed.

Lemma run_back T n last batch : back_at s n last batch (length oks) o rest -> goes_well T.
Proof.
  intros Hb. inversion Hb as [i f Hk Eo Er|Eo Er|i f len Hk Hr Eo Er|i f len Hk Hr Eo Er|i f len j Hj Hk Hl Hle Eo Er|i f len j Hj Hk Hl Hle Eo Er|f l Eo Er]; symmetry in Eo, Er.
  - by eapply run_page.
  - by eapply run_clean.
  - by eapply run_gap_page.
  - by eapply run_content_page.
  - intros Hw Htot Hco Hfits Hp. destruct (back_facts n last batch (proj2 (proj2 Hw)) Hb) as (Hd&Hnc&Hlate).
    assert (ops = []) as Eops by (rewrite Eo in Hp; cbn [perform] in Hp; congruence). revert Hw Htot Hco Hfits Hp. apply (run_bump T n Eo).
    + right. left. rewrite Eops, Eo, Er. by do 4 eexists.
    + intros Htd Hk' Ent Esz. assert (note o x s oks = oks /\ note_saved o x s ch = ch) as [En Esv] by (by rewrite Eo).
      eapply (back_task s' _ _ n last batch [Written n (i * PAGE_SIZE) (view s' f) len (Some f)] (length oks)); rewrite ?En, ?Esv.
      * eapply under_written; try done. by rewrite Esz.
      * rewrite Eops, Er. by rewrite (kindred_view _ _ Hk').
      * intros p Hpb. destruct (Hd p Hpb) as (a&e&?). exists a, e. by rewrite Ent.
      * apply still_apart; [done|]. rewrite Eops, Er. by intros sz b ?%list_elem_of_singleton.
      * intros k p. apply late_mapped; [done|by left|done].
  - by eapply run_written_page.
  - by eapply run_release.
Qed.

Lemma run_bump_change T n o1 : o = Bump n -> rest = [o1] -> (exists offset buf len, o1 = Written n offset buf len None) \/ (exists sz, o1 = Truncated n sz) -> goes_well T.
Proof.
  intros Eo Er Ho1 Hw Htot Hco Hfits Hp. assert (ops = []) as Eops by (rewrite Eo in Hp; cbn [perform] in Hp; congruence). revert Hw Htot Hco Hfits Hp. apply (run_bump T n Eo).
  - right. rewrite Eops, Eo, Er. destruct Ho1 as [(offset&buf&len&->)|(sz&->)]; [left; by exists offset, buf, len, None|right; by exists sz].
  - intros Htd Hk _ _. assert (forall n' last batch, Clean n' last batch ∉ ops ++ rest) as Hno.
    { rewrite Eops, Er. intros n' last batch ?%list_elem_of_singleton. by destruct Ho1 as [(?&?&?&->)|(?&->)]. }
    split; cbn [todo written saved t'].
    + intros o' Hin. rewrite Eops in Hin. apply (kindred_op s s' Hk). by apply rest_good.
    + destruct Ho1 as [(offset&buf&len&E)|(sz&E)]; [eapply shape_written|eapply shape_truncated]; cbn; by rewrite Eops, Er, E.
    + by intros n' last batch p ?%Hno.
    + by intros n' last batch ?%Hno.
    + by intros n' last batch k p ?%Hno.
Qed.

Lemma run_well T : goes_well T.
Proof.
  intros Hw. pose proof (tt_shape _ _ _ _ (td_task S (proj2 (proj2 Hw)) _ own_in_S)) as Hsh. revert Hw.
  assert (resting (o :: rest) -> goes_well T) as Hrest.
  { intros Hr. destruct (resting_head _ _ Hr) as [Hq|[Ho Er]]; [by apply run_quiet|].
    assert ((exists n offset buf len, o = Gap n offset buf len None) \/ (exists n sz, o = Cut n sz) \/ (exists n cursor last, o = Collect n cursor last)) as [(n&offset&buf&len&E)|[(n&sz&E)|(n&cursor&last&E)]].
    { clear -Ho. destruct o as [| | |? ? ? ? []| | | | | | | | | | | | |]; try done; naive_solver. }
    - by eapply run_gap.
    - by eapply run_cut.
    - by eapply run_collect. }
  destruct Hsh as [l E Hq|l o' E Hq Ho|n offset buf len E|n offset buf len E|n offset buf len E|n sz E|n sz E|n last batch Hb]; cbn [todo] in *.
  - apply Hrest. exists l, []. rewrite app_nil_r. split; [done|]. split; [done|by left].
  - apply Hrest. exists l, [o']. split; [done|]. split; [done|]. right. by exists o'.
  - injection E as Eo Er. by eapply run_content.
  - injection E as Eo Er. eapply run_bump_change; [done|done|]. left. by do 3 eexists.
  - injection E as Eo Er. by eapply run_written.
  - injection E as Eo Er. eapply run_bump_change; [done|done|]. right. by eexists.
  - injection E as Eo Er. by eapply run_truncated.
  - eapply run_back, writes_back_head, Hb.
Qed.
End run.
