(* ===== verification/PcacheProps.v ===== *)
(** What the page cache promises, for every orderly run: files read the same whichever
    way they are read. *)
From stdpp Require Import base tactics numbers list sets gmap relations.
From Stdlib Require Import ZArith Lia.
From S2P Require Import Prelude Pmm Cow StringLib Pcache PcacheTable PcacheSystem PcacheCoherent PcacheOrder.

Open Scope Z_scope.

(** * The invariant *)

Record world_ok (w : world) : Prop := {
  wo_inv : inv (sys w);
  wo_tidy : tidy (sys w);
  wo_coherent : coherent (st (sys w)) (told w) (changes (tasks (sys w))) (putting (sys w)) (safe (sys w))
}.

Lemma orderly_step w w' : orderly w w' -> step (sys w) (sys w').
Proof. intros []; cbn [sys]; by econstructor. Qed.

(** The table and the files stay; memory, counts and mappings may change. *)
Lemma tidy_stays s s' ts ts' ms ms' : kindred s s' -> entries s' = entries s -> nodes s' = nodes s -> changes ts' = changes ts ->
  (forall t, t ∈ ts' -> task_tidy s' (changes ts) ms' t) -> (forall m, m ∈ ms' -> m ∈ ms) -> tidy (mkSystem s ts ms) -> tidy (mkSystem s' ts' ms').
Proof.
  intros Hk He Hn Hc Ht Hm [D1 D2 D3 D4 D5 D6 D7 D8]. cbn [st tasks mapped] in *. split; cbn [st tasks mapped]; rewrite ?He, ?Hn, ?Hc; try done.
  - by apply (kindred_mem s s').
  - intros a e Ha. apply (kindred_page s s' Hk). by eapply D2.
  - intros m a e Hin. apply D8. by apply Hm.
Qed.

Lemma task_same s s' chs ms ms' t : kindred s s' -> entries s' = entries s -> nodes s' = nodes s -> (forall f, f ∈ m_frame <$> ms -> f ∈ m_frame <$> ms') ->
  task_tidy s chs ms t -> task_tidy s' chs ms' t.
Proof.
  intros Hk He Hn Hm. apply task_stays; try done.
  - intros c _. by rewrite Hn.
  - intros n last batch p _ _ (a&e&?). exists a, e. by rewrite He.
Qed.

(** The counts of frames change, not what they hold. *)
Lemma coherent_owned s c T chs puts safe : hhdm_off (frames c) = hhdm_off (frames (owned s)) -> NoDup (ch_node <$> chs) ->
  coherent s T chs puts safe -> coherent (set_owned s c) T chs puts safe.
Proof.
  intros Hh Hu. assert (forall f o, byte (set_owned s c) f o = byte s f o) as Hb by (intros f o; unfold byte, view; cbn; by rewrite Hh).
  apply coherent_elsewhere; try done; intros; by rewrite Hb.
Qed.

(** * Calls, mappings and memory *)

Lemma begin_resting c s : resting (begin c s).
Proof.
  assert (forall l, Forall quiet l -> resting l) as Hq by (intros l Hl; exists l, []; rewrite app_nil_r; split; [done|split; [done|by left]]).
  assert (forall o, opening o -> resting [o]) as Ho by (intros o Hl; exists [], [o]; split; [done|split; [constructor|right; by exists o]]).
  destruct c; cbn [begin].
  - destruct (_ || _); apply Hq; by repeat constructor.
  - by apply Ho.
  - by apply Ho.
  - destruct (pcache_cacheable s n); apply Hq; by repeat constructor.
  - destruct (pcache_cacheable s n); [by apply Ho|by apply Hq].
  - apply Hq. by repeat constructor.
Qed.

Lemma begin_good c s o : good_call s c -> o ∈ begin c s -> good_op s o.
Proof.
  intros Hg. destruct c; cbn [begin]; try destruct (_ || _); try destruct (pcache_cacheable s n); intros Hin; repeat (apply elem_of_cons in Hin as [->|Hin]; [done|]); by apply elem_of_nil in Hin.
Qed.

Lemma changes_resting t ts : resting (todo t) -> changes (t :: ts) = changes ts.
Proof. intros Hr. unfold changes. cbn. by rewrite (resting_no_change _ Hr). Qed.

Lemma began_ok s ts ms c T : good_call s c -> inv (mkSystem s (mkTask (begin c s) [] [] :: ts) ms) -> world_ok (mkWorld (mkSystem s ts ms) T) ->
  world_ok (mkWorld (mkSystem s (mkTask (begin c s) [] [] :: ts) ms) T).
Proof.
  intros Hg Hi [_ W2 W3]. cbn [sys told] in W2, W3. pose proof (changes_resting (mkTask (begin c s) [] []) ts (begin_resting c s)) as Hc. split; cbn [sys told]; [done| |].
  - apply (tidy_stays s s ts _ ms ms); try done. intros t [->|Ht]%elem_of_cons; [|by apply W2]. apply task_resting; [apply begin_resting|]. intros o. by apply begin_good.
  - cbn [st tasks]. rewrite Hc. eapply coherent_less; [| |exact W3].
    + intros n i g f (t&shared&tries&memory&[->|Ht]%elem_of_cons&Hin); [|by exists t, shared, tries, memory]. cbn in Hin. exfalso. by eapply (begin_sole c s).
    + intros f (t&n&last&batch&[->|Ht]%elem_of_cons&Hin&Hf); [|by exists t, n, last, batch]. by apply (resting_no_clean _ n last batch (begin_resting c s)) in Hin.
Qed.

Lemma unmap_ok s ts ms1 m ms2 T : may_unmap ts m (ms1 ++ ms2) -> inv (mkSystem (set_owned s (pmm_unref_frame (m_frame m) (owned s))) ts (ms1 ++ ms2)) ->
  world_ok (mkWorld (mkSystem s ts (ms1 ++ m :: ms2)) T) -> world_ok (mkWorld (mkSystem (set_owned s (pmm_unref_frame (m_frame m) (owned s))) ts (ms1 ++ ms2)) T).
Proof.
  intros Hmay Hi [W1 W2 W3]. cbn [sys told st tasks mapped] in W1, W2, W3. set (c := pmm_unref_frame (m_frame m) (owned s)) in *. set (s' := set_owned s c) in *.
  assert (kindred s s') as Hk.
  { split; [cbn; apply unref_hhdm| |done]. assert (held (mkSystem s ts (ms1 ++ m :: ms2)) ≡ₚ m_frame m :: held (mkSystem s ts (ms1 ++ ms2))) as HS.
    { unfold held. cbn. rewrite !fmap_app. cbn. solve_Permutation. }
    exact (unref_total _ _ _ (held_perm _ _ _ HS (in_held _ W1))). }
  split; cbn [sys told]; [done| |].
  - apply (tidy_stays s s' ts ts (ms1 ++ m :: ms2)); try done; [|intros m'; rewrite !elem_of_app, elem_of_cons; tauto].
    intros t Ht. destruct (task_same s s' (changes ts) (ms1 ++ m :: ms2) (ms1 ++ m :: ms2) t Hk eq_refl eq_refl ltac:(done) (td_task _ W2 t Ht)) as [T1 T2 T3 T4 T5]. split; try done.
    intros n last batch k p Hin Hp Hw. destruct (T5 n last batch k p Hin Hp Hw) as [?|Hm]; [by left|].
    destruct (decide (snd p ∈ saved t)) as [|Hns]; [by left|right]. rewrite fmap_app, fmap_cons, elem_of_app, elem_of_cons in Hm. rewrite fmap_app, elem_of_app.
    destruct Hm as [?|[E|?]]; [by left| |by right]. rewrite E in Hns |- *. pose proof (Hmay t n last batch k p Ht Hin Hp E Hw Hns) as Hx. by rewrite fmap_app, elem_of_app in Hx.
  - apply coherent_owned; [apply unref_hhdm|apply W2|exact W3].
Qed.

Lemma forked_ok s ts ms m T : m ∈ ms -> inv (mkSystem (set_owned s (pmm_ref_frame (m_frame m) (owned s))) ts (m :: ms)) ->
  world_ok (mkWorld (mkSystem s ts ms) T) -> world_ok (mkWorld (mkSystem (set_owned s (pmm_ref_frame (m_frame m) (owned s))) ts (m :: ms)) T).
Proof.
  intros Hm Hi [W1 W2 W3]. cbn [sys told st tasks mapped] in W1, W2, W3. set (c := pmm_ref_frame (m_frame m) (owned s)) in *. set (s' := set_owned s c) in *.
  assert (kindred s s') as Hk by (split; [cbn; unfold c; by rewrite ref_frames|cbn; unfold c; by rewrite ref_frames|done]). split; cbn [sys told]; [done| |].
  - apply (tidy_stays s s' ts ts ms); try done; [|by intros m' [->|?]%elem_of_cons].
    intros t Ht. apply (task_same s s' _ ms); try done; [|by apply W2]. intros f Hf. by apply elem_of_cons; right.
  - apply coherent_owned; [unfold c; by rewrite ref_frames|apply W2|exact W3].
Qed.

(** A page about to be written back begins before the end of the file. *)
Lemma opened_before S n offset len f : tidy S -> Opened n offset len (Some f) ∈ changes (tasks S) -> offset <= size (nodes (st S) n).
Proof.
  intros Ht (t&Hin&Hc)%change_in. pose proof (tt_shape _ _ _ _ (td_task S Ht t Hin)) as Hsh.
  destruct Hsh as [l E Hq|l o E Hq Ho|? ? ? ? E|? ? ? ? E|? ? ? ? E|? ? E|? ? E|n' last batch (pre&k&Hu&E)].
  1: rewrite resting_no_change in Hc; [done|]; exists l, []; split; [by rewrite E, app_nil_r|split; [done|by left]].
  1: rewrite resting_no_change in Hc; [done|]; exists l, [o]; split; [done|split; [done|right; by exists o]].
  1-5: by rewrite E in Hc.
  assert (forall i len0, page_range n' i (st S) = Some (i * PAGE_SIZE, len0) -> i * PAGE_SIZE <= size (nodes (st S) n')) as Hr.
  { intros i len0. unfold page_range. destruct (Z.leb_spec (size (nodes (st S) n')) (u64 (i * PAGE_SIZE))); [done|]. intros [= E1 _]. lia. }
  destruct Hu as [|i f0 len0 Hb Hp|i f0 len0 Hb Hp|i f0 len0 j Hj Hb Hl Hle|i f0 len0 j Hj Hb Hl Hle|l]; rewrite E in Hc; cbn in Hc.
  1: by destruct (drop _ batch). 3,4: done. 3: destruct l; [by destruct (drop _ batch)|done].
  all: injection Hc as <- <- <- <-; by eapply Hr.
Qed.

Lemma changes_touch f ts : changes (touch f <$> ts) = changes ts.
Proof. unfold changes. induction ts as [|t ts IH]; [done|]. cbn in *. destruct (change_of (todo t)); by rewrite IH. Qed.

Lemma touched_tidy s chs ms f t : f ∈ m_frame <$> ms -> task_tidy s chs ms t -> task_tidy s chs ms (touch f t).
Proof.
  intros Hf [T1 T2 T3 T4 T5]. split; try done.
  - destruct T2 as [l E Hq|l o E Hq Ho|? ? ? ? E|? ? ? ? E|? ? ? ? E|? ? E|? ? E|n' last batch Hb];
      [by eapply shape_quiet|by eapply shape_opening|by eapply shape_content|by eapply shape_bump_written|by eapply shape_written|by eapply shape_bump_truncated|by eapply shape_truncated|by eapply shape_back].
  - intros n last batch k p Hin Hp Hw. destruct (decide (snd p = f)) as [->|Hne]; [by right|]. destruct (T5 n last batch k p Hin Hp Hw) as [?|?]; [left|by right].
    cbn. by apply list_elem_of_filter.
Qed.

Lemma safe_touch s ts ms s' f g : safe (mkSystem s' (touch f <$> ts) ms) g -> safe (mkSystem s ts ms) g /\ g <> f.
Proof.
  intros (t'&n&last&batch&(t&->&Ht)%list_elem_of_fmap&Hin&Hb&Hg). cbn in Hin, Hg. apply list_elem_of_filter in Hg as [Hne Hg]. split; [|done]. by exists t, n, last, batch.
Qed.

Lemma putting_touch s ts ms s' f n i g h : putting (mkSystem s' (touch f <$> ts) ms) n i g h -> putting (mkSystem s ts ms) n i g h.
Proof. intros (t'&shared&tries&memory&(t&->&Ht)%list_elem_of_fmap&Hin). by exists t, shared, tries, memory. Qed.

(** A byte stored in a frame that is neither in the cache nor about to be. *)
Lemma store_elsewhere s ts ms m o v T (puts' : Z -> Z -> Z -> Z -> Prop) (safe' : Z -> Prop) : world_ok (mkWorld (mkSystem s ts ms) T) -> m ∈ ms -> 0 <= o < PAGE_SIZE ->
  m_frame m ∉ cached_frames s -> (forall n i g f, puts' n i g f -> putting (mkSystem s ts ms) n i g f) -> (forall f, safe' f -> safe (mkSystem s ts ms) f) ->
  coherent (store_byte (m_frame m) o v s) T (changes ts) puts' safe'.
Proof.
  intros [W1 W2 W3] Hm Ho Hn Hp Hs. cbn [sys told st tasks mapped] in W1, W2, W3. pose proof (tidy_sane _ W1 W2) as Hsane. cbn [st tasks] in Hsane. pose proof (sn_mem _ _ _ Hsane) as Hmem.
  assert (m_frame m ∈ m_frame <$> ms) as Hmf by (apply list_elem_of_fmap; by exists m).
  assert (good_frame s (m_frame m)) as Hf by (apply (held_good _ _ W1); unfold held; rewrite !elem_of_app; tauto).
  eapply (coherent_elsewhere s _ T (changes ts) _ puts' _ safe'); [apply W2|done..| | | | |exact W3].
  - intros a e o' Ha Ho'. destruct (sn_entry _ _ _ Hsane a e Ha) as [Hg _]. rewrite store_byte_at by done. rewrite (proj2 (Z.eqb_neq (e_frame e) _)); [done|].
    intros E. apply Hn. rewrite <- E. by eapply entry_cached.
  - intros n i g f o' Hput Ho'. specialize (Hp n i g f Hput). split; [done|]. destruct (sn_put _ _ _ Hsane n i g f Hp) as (Hg&_). destruct (put_sole _ n i g f W1 Hp) as (_&_&_&Hnm).
    rewrite store_byte_at by done. rewrite (proj2 (Z.eqb_neq f _)); [done|]. by intros ->.
  - intros n offset buf len b j Hin Hj. apply store_byte_outside; try done. eapply byte_outside; try done. by eapply (sn_buffer _ _ _ Hsane).
  - intros f _. apply Hs.
Qed.

Lemma store_ok s ts ms m o v T : m ∈ ms -> m_kind m = 2 -> 0 <= o < PAGE_SIZE -> may_store s (changes ts) (m_node m) (m_index m * PAGE_SIZE + o) ->
  inv (mkSystem (store_byte (m_frame m) o v s) (touch (m_frame m) <$> ts) ms) -> world_ok (mkWorld (mkSystem s ts ms) T) ->
  world_ok (mkWorld (mkSystem (store_byte (m_frame m) o v s) (touch (m_frame m) <$> ts) ms) (tell_byte m o v s T)).
Proof.
  intros Hm Hkind Ho Hmay Hi Hw. pose proof Hw as [W1 W2 W3]. cbn [sys told st tasks mapped] in W1, W2, W3. pose proof (tidy_sane _ W1 W2) as Hsane. cbn [st tasks] in Hsane.
  assert (m_frame m ∈ m_frame <$> ms) as Hmf by (apply list_elem_of_fmap; by exists m). pose proof (in_table _ W1) as Ht. cbn in Ht. split; cbn [sys told]; [done| |].
  - apply (tidy_stays s _ ts _ ms); try done; [apply changes_touch|]. intros t' (t&->&Hin)%list_elem_of_fmap. apply touched_tidy; [done|]. apply (task_same s _ _ ms); try done. by apply W2.
  - cbn [st tasks]. rewrite changes_touch. destruct (decide (m_frame m ∈ cached_frames s)) as [(e&Ef&(a&Ha)%elem_of_entry_list)%list_elem_of_fmap|Hn].
    + destruct (td_map _ W2 m a e Hm Ha (eq_sym Ef)) as (E1&E2&E3).
      assert (file_page m s = true) as Hfile. { unfold file_page. rewrite (find_locked_some s (m_node m) (m_index m) a e Ht Ha E1 E2). unfold frame_at. rewrite Ha. cbn. by apply Z.eqb_eq. }
      unfold tell_byte. rewrite Hfile, Ef, <- E1, <- E2. change (e_index e * PAGE_SIZE + o) with (place e o).
      eapply (coherent_less _ _ _ (putting (mkSystem s ts ms)) _ (fun g => safe (mkSystem s ts ms) g /\ g <> e_frame e)).
      * intros n i g f. apply putting_touch.
      * intros g Hg. by apply (safe_touch s) in Hg.
      * eapply (coherent_store s T _ (putting (mkSystem s ts ms)) (safe (mkSystem s ts ms)) _ a); try done; [by apply E3|by rewrite E1; unfold place; rewrite E2|].
        intros n offset len f. apply (opened_before _ _ _ _ _ W2).
    + assert (file_page m s = false) as Hfile.
      { unfold file_page. pose proof (find_locked_page s (m_node m) (m_index m) (tb_linked s Ht)) as Hf. destruct (find_locked (m_node m) (m_index m) s) as [a|]; [|done].
        destruct Hf as (e&Ha&_). unfold frame_at. rewrite Ha. cbn. apply Z.eqb_neq. intros E. apply Hn. rewrite <- E. by eapply entry_cached. }
      unfold tell_byte. rewrite Hfile. apply (store_elsewhere s ts ms m o v T); try done; [intros n i g f; apply putting_touch|]. intros f Hf. by apply (safe_touch s) in Hf as [? _].
Qed.

Lemma own_ok s ts ms m o v T : m ∈ ms -> pmm_get_frame_ref (m_frame m) (owned s) = 1 -> 0 <= o < PAGE_SIZE ->
  inv (mkSystem (store_byte (m_frame m) o v s) ts ms) -> world_ok (mkWorld (mkSystem s ts ms) T) -> world_ok (mkWorld (mkSystem (store_byte (m_frame m) o v s) ts ms) T).
Proof.
  intros Hm Href Ho Hi Hw. pose proof Hw as [W1 W2 W3]. cbn [sys told st tasks mapped] in W1, W2, W3.
  assert (m_frame m ∈ m_frame <$> ms) as Hmf by (apply list_elem_of_fmap; by exists m). split; cbn [sys told]; [done| |].
  - apply (tidy_stays s _ ts _ ms); try done. intros t Hin. apply (task_same s _ _ ms); try done. by apply W2.
  - cbn [st tasks]. apply (store_elsewhere s ts ms m o v T); try done. intros Hc.
    assert (m_frame m ∈ held (mkSystem s ts ms)) as Hh by (unfold held; rewrite !elem_of_app; tauto). pose proof (proj2 (held_count _ _ W1 Hh)) as Hcount. cbn [st] in Hcount.
    rewrite Href in Hcount. unfold held in Hcount. cbn [st mapped tasks] in Hcount. rewrite !refs_app_sum in Hcount. pose proof (refs_pos _ _ Hc). pose proof (refs_pos _ _ Hmf).
    pose proof (refs_nonneg (concat (task_frames <$> ts)) (m_frame m)). lia.
Qed.

Lemma elsewhere_ok s ts ms c m T : elsewhere (mkSystem s ts ms) c m -> inv (mkSystem (set_mem (set_owned s c) m) ts ms) ->
  world_ok (mkWorld (mkSystem s ts ms) T) -> world_ok (mkWorld (mkSystem (set_mem (set_owned s c) m) ts ms) T).
Proof.
  intros [E1 [E2 E3] E4 E5] Hi [W1 W2 W3]. cbn [sys told st tasks mapped] in *. assert (kindred s (set_mem (set_owned s c) m)) as Hk by (by split). split; cbn [sys told]; [done| |].
  - apply (tidy_stays s _ ts _ ms); try done. intros t Hin. apply (task_same s _ _ ms); try done. by apply W2.
  - cbn [st tasks]. assert (forall f o, f ∈ held (mkSystem s ts ms) -> 0 <= o < PAGE_SIZE -> byte (set_mem (set_owned s c) m) f o = byte s f o) as Hb.
    { intros f o Hf Ho. unfold byte. rewrite (kindred_view _ _ Hk). by apply E4. }
    eapply (coherent_elsewhere s _ T (changes ts)); [apply W2|done..| | | |done|exact W3].
    + intros a e o Ha. apply Hb. by apply (entry_held (mkSystem s ts ms) a).
    + intros n i g f o Hp Ho. split; [done|]. apply Hb; [by apply (put_sole _ n i g f W1)|done].
    + intros n offset buf len b j (t&Hin&Hc)%change_in Hj. assert (exists o, o ∈ todo t /\ op_buffer o = Some (buf, len)) as (o&Hot&Hob).
      { destruct (todo t) as [|o l]; [done|]. destruct o; try done; cbn in Hc; [by destruct page| |].
        - destruct l as [|[] l]; try done. injection Hc as -> -> -> -> -> _. eexists. by split; [apply list_elem_of_further, list_elem_of_here|].
        - injection Hc as -> -> -> -> -> _. eexists. by split; [apply list_elem_of_here|]. }
      cbn [mem set_mem]. by apply (E5 t o buf len).
Qed.

Lemma orderly_ok w w' : world_ok w -> orderly w w' -> world_ok w'.
Proof.
  intros Hw Ho. pose proof (step_inv _ _ (wo_inv _ Hw) (orderly_step _ _ Ho)) as Hi.
  destruct Ho as [s ts ms c T Hg|s ts1 o rest oks ch ts2 ms x ops new s' T Hroom Hfits Hp|s ts ms1 m ms2 T Hmay|s ts ms m T Hm Hroom|s ts ms m o v T Hm Hk Ho Hv Hmay|s ts ms m o v T Hm Hr Ho|s ts ms c m T He]; cbn [sys] in Hi.
  - by apply began_ok.
  - destruct Hw as [W1 W2 W3]. cbn [sys told] in *. pose proof (run_step _ _ _ _ _ _ _ _ _ _ _ _ (note o x s oks) (note_saved o x s ch) W1 Hroom Hp) as [_ Htot].
    destruct (run_well s ts1 o rest oks ch ts2 ms x ops new s' T (conj W1 (conj Hi W2)) Htot W3 Hfits Hp) as [R1 R2]. by split.
  - by apply unmap_ok.
  - by apply forked_ok.
  - by apply store_ok.
  - by apply own_ok.
  - by apply elsewhere_ok.
Qed.

(** * Reading through the cache *)

Definition shared_page (n i : Z) (s : pcache) : option pcache_entry :=
  match find_locked n i s with
  | Some a => match entries s !! a with Some e => if e_shared e then Some e else None | None => None end
  | None => None
  end.

Section overlay.
Context (s : pcache) (n offset buf len : Z).
Context (Ht : table_ok s) (Hm : mem_ok s) (Hr : in_range offset len) (Hb : outside s buf len).
Context (Hgood : forall a e, entries s !! a = Some e -> good_frame s (e_frame e) /\ good_page s (e_node e) (e_index e)).

Lemma shared_page_good i e : shared_page n i s = Some e -> good_frame s (e_frame e) /\ good_page s n i.
Proof.
  unfold shared_page. pose proof (find_locked_page s n i (tb_linked s Ht)) as Hf. destruct (find_locked n i s) as [a|]; [|done].
  destruct Hf as (e'&Ha&En&Ei). rewrite Ha. destruct (e_shared e'); [|done]. intros [= ->]. rewrite <- En, <- Ei. by eapply Hgood.
Qed.

(** What of the buffer comes from pages from [index] on. *)
Definition overlaid (index : Z) (m : memory) (x : Z) : Z :=
  let p := offset + (x - buf) in
  if (offset <=? p) && (p <? offset + len) && (index <=? p / PAGE_SIZE) then
    match shared_page n (p / PAGE_SIZE) s with
    | Some e => byte s (e_frame e) (p - p / PAGE_SIZE * PAGE_SIZE)
    | None => m x
    end
  else m x.

Definition buffer_only (m : memory) : Prop := forall x, (forall j, 0 <= j < len -> x <> buf + j) -> m x = mem s x.

Lemma overlay_page_mem index m : 0 <= index -> buffer_only m -> index * PAGE_SIZE < offset + len -> offset < index * PAGE_SIZE + PAGE_SIZE ->
  overlay_page n offset buf (offset + len) index (set_mem s m) =
  set_mem s (mem (overlay_page n offset buf (offset + len) index (set_mem s m))) /\
  forall x, mem (overlay_page n offset buf (offset + len) index (set_mem s m)) x =
    let p := offset + (x - buf) in
    if (offset <=? p) && (p <? offset + len) && (p / PAGE_SIZE =? index) then
      match shared_page n index s with Some e => byte s (e_frame e) (p - index * PAGE_SIZE) | None => m x end
    else m x.
Proof.
  intros Hi Hbuf Hlt Hle. unfold overlay_page, shared_page at 1. change (find_locked n index (set_mem s m)) with (find_locked n index s). cbn [entries set_mem].
  pose proof (shared_page_good index) as Hsp. unfold shared_page in Hsp.
  destruct (find_locked n index s) as [a|]; [|split; [done|]; intros x; cbn; by destruct (_ && _)].
  destruct (entries s !! a) as [e|] eqn:Ha; [|split; [done|]; intros x; cbn; by destruct (_ && _)].
  destruct (e_shared e) eqn:Es; [|split; [done|]; intros x; cbn; by destruct (_ && _)]. split; [done|]. intros x. cbn [mem set_mem]. cbn zeta.
  destruct (Hsp e eq_refl) as [Hf Hp]. destruct (page_no_wrap s n index Hp) as [-> ->]. change (view (set_mem s m) (e_frame e)) with (view s (e_frame e)).
  set (page := index * PAGE_SIZE) in *. set (lo := if offset <? page then page else offset). set (hi := if page + PAGE_SIZE <? offset + len then page + PAGE_SIZE else offset + len).
  destruct Hr as (R1&R2&R3). pose proof Hb as (B1&B2&B3).
  assert (page <= lo /\ offset <= lo /\ lo < hi /\ hi <= page + PAGE_SIZE /\ hi <= offset + len) as (L1&L2&L3&L4&L5).
  { unfold lo, hi. destruct (Z.ltb_spec offset page), (Z.ltb_spec (page + PAGE_SIZE) (offset + len)); unfold PAGE_SIZE in *; lia. }
  rewrite (u64_small (buf + (lo - offset))) by lia. rewrite byte_no_wrap by (done || lia).
  rewrite memcpy_copied; [|lia|rewrite view_at by done; destruct Hf as [F1 F2], Hm as [M1 M2]; unfold PAGE_SIZE in *; lia].
  set (p := offset + (x - buf)).
  assert ((offset <=? p) && (p <? offset + len) && (p / PAGE_SIZE =? index) = (buf + (lo - offset) <=? x) && (x <? buf + (lo - offset) + (hi - lo))) as ->.
  { apply eq_true_iff_eq. rewrite !andb_true_iff, !Z.leb_le, !Z.ltb_lt, Z.eqb_eq. unfold p, lo, hi, page, PAGE_SIZE in *.
    destruct (Z.ltb_spec offset (index * 4096)), (Z.ltb_spec (index * 4096 + 4096) (offset + len)); split; intros; zlia. }
  destruct (_ && _) eqn:E; [|done]. zbool. unfold byte. replace (view s (e_frame e) + (lo - page) + (x - (buf + (lo - offset)))) with (view s (e_frame e) + (p - page)) by (unfold p; lia).
  apply Hbuf. intros j Hj Ej. eapply (byte_outside s (e_frame e) (p - page) buf len j); try done. unfold p. lia.
Qed.

Lemma overlay_loop_mem k : forall index m, 0 <= index -> buffer_only m -> offset < index * PAGE_SIZE + PAGE_SIZE -> index * PAGE_SIZE < offset + len + PAGE_SIZE ->
  offset + len <= (index + Z.of_nat k) * PAGE_SIZE ->
  overlay_loop k n offset buf (offset + len) index (set_mem s m) = set_mem s (mem (overlay_loop k n offset buf (offset + len) index (set_mem s m))) /\
  forall x, mem (overlay_loop k n offset buf (offset + len) index (set_mem s m)) x = overlaid index m x.
Proof.
  destruct Hr as (R1&R2&R3). assert (forall index m x, offset + len <= index * PAGE_SIZE -> overlaid index m x = m x) as Hdone.
  { intros index m x Hge. unfold overlaid. destruct (_ && _) eqn:E; [|done]. zbool. unfold PAGE_SIZE in *. zlia. }
  induction k as [|k IH]; intros index m Hi Hbuf Hle Hup Hfuel; cbn [overlay_loop].
  { split; [done|]. intros x. cbn. rewrite Hdone by lia. done. }
  rewrite (u64_small (index * PAGE_SIZE)), (u64_small (index + 1)) by (unfold PAGE_SIZE in *; lia).
  destruct (Z.ltb_spec (index * PAGE_SIZE) (offset + len)) as [Hlt|Hge]; [|split; [done|]; intros x; cbn; by rewrite Hdone].
  destruct (overlay_page_mem index m Hi Hbuf Hlt Hle) as [E1 E2]. set (m1 := mem _) in E1, E2. rewrite E1.
  destruct (IH (index + 1) m1) as [I1 I2]; [lia| |unfold PAGE_SIZE in *; lia|lia|lia|].
  - intros x Hx. rewrite E2. cbn zeta. destruct (_ && _) eqn:E; [|by apply Hbuf]. zbool. exfalso. apply (Hx (x - buf)); lia.
  - split; [done|]. intros x. rewrite I2. unfold overlaid. rewrite E2. cbn zeta. set (p := offset + (x - buf)). destruct ((offset <=? p) && (p <? offset + len)); cbn [andb]; [|done].
    destruct (Z.eqb_spec (p / PAGE_SIZE) index) as [->|Hne].
    + rewrite (proj2 (Z.leb_gt (index + 1) index)), (proj2 (Z.leb_le index index)) by lia. done.
    + destruct (Z.leb_spec (index + 1) (p / PAGE_SIZE)), (Z.leb_spec index (p / PAGE_SIZE)); try lia; done.
Qed.

(** Every byte comes from the page of a shared mapping, if there is one. *)
Lemma read_overlay_mem m : buffer_only m ->
  forall j, 0 <= j < len -> let p := offset + j in
  mem (pcache_read_overlay n offset buf len (set_mem s m)) (buf + j) =
  match shared_page n (p / PAGE_SIZE) s with Some e => byte s (e_frame e) (p - p / PAGE_SIZE * PAGE_SIZE) | None => m (buf + j) end.
Proof.
  intros Hbuf j Hj p. pose proof Hr as (R1&R2&R3). unfold pcache_read_overlay. cbn [nodes set_mem]. rewrite (proj2 (Z.eqb_neq len 0)) by lia. rewrite orb_false_r.
  destruct ((n =? 0) || (shared_cached (nodes s n) =? 0)) eqn:E.
  - cbn [mem set_mem]. destruct (shared_page n (p / PAGE_SIZE) s) as [e|] eqn:Esp; [|done]. exfalso. apply orb_true_iff in E as [E%Z.eqb_eq|E%Z.eqb_eq].
    + destruct (shared_page_good _ _ Esp) as [_ (Hc&_)]. unfold pcache_cacheable in Hc. by rewrite E in Hc.
    + unfold shared_page in Esp. pose proof (find_locked_page s n (p / PAGE_SIZE) (tb_linked s Ht)) as Hf. destruct (find_locked n (p / PAGE_SIZE) s) as [a|]; [|done].
      destruct Hf as (e'&Ha&En&_). rewrite Ha in Esp. destruct (e_shared e') eqn:Es; [|done]. rewrite (tb_shared s Ht) in E.
      assert (e' ∈ filter (fun e => shared_of_file n e = true) (entry_list (entries s))) as Hin.
      { apply list_elem_of_filter. split; [|apply elem_of_entry_list; by exists a]. unfold shared_of_file. by rewrite Es, (proj2 (Z.eqb_eq _ _) En). }
      unfold count_of in E. apply list_elem_of_split in Hin as (l1&l2&El). rewrite El, length_app in E. cbn in E. lia.
  - rewrite (range_end_at offset len Hr). cbn zeta.
    destruct (overlay_loop_mem (Z.to_nat ((offset + len) / PAGE_SIZE - offset / PAGE_SIZE + 2)) (offset / PAGE_SIZE) m) as [_ E2]; [unfold PAGE_SIZE; zlia|done|unfold PAGE_SIZE; zlia|unfold PAGE_SIZE; zlia|unfold PAGE_SIZE; zlia|].
    rewrite E2. unfold overlaid. cbn zeta. replace (buf + j - buf) with j by lia. fold p.
    rewrite (proj2 (Z.leb_le offset p)), (proj2 (Z.ltb_lt p (offset + len))), (proj2 (Z.leb_le (offset / PAGE_SIZE) (p / PAGE_SIZE))); [done| | |]; unfold p, PAGE_SIZE; zlia.
Qed.
End overlay.

(** [file_read] gives what the file was told, when no change of it is under way. *)
Lemma read_told w n got offset count buf : world_ok w -> n ∉ ch_node <$> changes (tasks (sys w)) -> in_range offset count -> outside (st (sys w)) buf count ->
  let s := st (sys w) in
  let '(k, s') := file_read got n offset count buf s in
  0 <= k <= count /\ (regular (nodes s n) = true -> has_ops (nodes s n) = false \/ count <= got -> k = Z.max 0 (Z.min count (size (nodes s n) - offset))) /\
  forall j, 0 <= j < k -> mem s' (buf + j) = told w n (offset + j).
Proof.
  intros [W1 W2 W3] Hn (R1&R2&R3) (B1&B2&B3) s. pose proof (tidy_sane _ W1 W2) as Hsane. fold s in Hsane, W3. pose proof (sn_table _ _ _ Hsane) as Ht.
  unfold file_read, vfs_read. destruct (regular (nodes s n)) eqn:Hreg; cbn [negb].
  2: { destruct (has_ops (nodes s n) && (0 =? 0)); split; try lia; split; try done; intros; lia. }
  set (available := if offset <? size (nodes s n) then size (nodes s n) - offset else 0). set (most := if count <? available then count else available).
  set (k := if has_ops (nodes s n) then Z.max 0 (Z.min got most) else most). set (m := fun x => if (buf <=? x) && (x <? buf + k) then content s n (offset + (x - buf)) else mem s x).
  assert (most = Z.max 0 (Z.min count (size (nodes s n) - offset))) as Hmost.
  { unfold most, available. destruct (Z.ltb_spec offset (size (nodes s n))); [destruct (Z.ltb_spec count (size (nodes s n) - offset))|destruct (Z.ltb_spec count 0)]; lia. }
  assert (0 <= k <= most) as Hk by (unfold k; destruct (has_ops (nodes s n)); lia). cbn [nodes set_mem].
  assert (forall s', (0 < k -> s' = pcache_read_overlay n offset buf k (set_mem s m)) -> 0 <= k <= count /\
    (true = true -> has_ops (nodes s n) = false \/ count <= got -> k = Z.max 0 (Z.min count (size (nodes s n) - offset))) /\ forall j, 0 <= j < k -> mem s' (buf + j) = told w n (offset + j)) as Hgoal.
  { intros s' Hs'. split; [lia|]. split; [intros _ Hx; unfold k in *; destruct (has_ops (nodes s n)); [destruct Hx; [done|lia]|lia]|]. intros j Hj. rewrite Hs' by lia.
    rewrite (read_overlay_mem s n offset buf k Ht (sn_mem _ _ _ Hsane)); [|split; lia|unfold outside, s; lia|apply (sn_entry _ _ _ Hsane)| |done].
    2: { intros x Hx. unfold m. destruct (_ && _) eqn:E; [|done]. zbool. exfalso. apply (Hx (x - buf)); lia. }
    set (p := offset + j). assert (0 <= p < size (nodes s n)) as Hp by (unfold p; lia). destruct (shared_page n (p / PAGE_SIZE) s) as [e|] eqn:Esp.
    - unfold shared_page in Esp. pose proof (find_locked_page s n (p / PAGE_SIZE) (tb_linked s Ht)) as Hf. destruct (find_locked n (p / PAGE_SIZE) s) as [a|]; [|done].
      destruct Hf as (e'&Ha&En&Ei). rewrite Ha in Esp. destruct (e_shared e'); [|done]. injection Esp as ->.
      pose proof (co_told _ _ _ _ _ W3 a e (p - p / PAGE_SIZE * PAGE_SIZE) Ha) as Hb. unfold place in Hb. rewrite En, Ei in Hb.
      replace (p / PAGE_SIZE * PAGE_SIZE + (p - p / PAGE_SIZE * PAGE_SIZE)) with p in Hb by lia. apply Hb; [unfold PAGE_SIZE; zlia|lia|by apply not_pending].
    - unfold m. rewrite (proj2 (Z.leb_le buf (buf + j))), (proj2 (Z.ltb_lt (buf + j) (buf + k))) by lia. cbn [andb]. replace (offset + (buf + j - buf)) with p by (unfold p; lia).
      apply (co_content _ _ _ _ _ W3); [done|]. intros a e Ha En Ei Ed. exfalso. unfold shared_page in Esp. rewrite (find_locked_some s n (p / PAGE_SIZE) a e Ht Ha En Ei), Ha in Esp.
      by rewrite (tb_dirty s Ht a e Ha Ed) in Esp. }
  destruct (has_ops (nodes s n) && (k =? 0)) eqn:E; apply Hgoal; [|done]. intros Hx. apply andb_true_iff in E as [_ E%Z.eqb_eq]. lia.
Qed.

(** * Properties *)

Lemma start_ok w : initial (sys w) -> mem_ok (st (sys w)) -> (forall n, 0 <= size (nodes (st (sys w)) n) < 0x8000000000000000) ->
  (forall n p, told w n p = content (st (sys w)) n p) -> world_ok w.
Proof.
  intros Hi Hm Hs Ht. pose proof (it_entries _ Hi) as He. pose proof (it_tasks _ Hi) as Hts. pose proof (it_mapped _ Hi) as Hms.
  split; [by apply fresh_cache_inv| |]; split; rewrite ?He, ?Hts, ?Hms; try done; try (intros; by exfalso; eapply not_elem_of_nil).
  - constructor.
  - intros n i g f o (t&?&?&?&Hin&_). rewrite Hts in Hin. by apply elem_of_nil in Hin.
Qed.

(** C3. A file looks the same whichever way it is read. Whatever calls, mappings, stores
    and evictions came before, a file with no change
    under way shows what it was told by writes and stores: through every mapping of a
    page that is in the cache, on disk wherever no page is dirty, and to [file_read],
    which gives all that is asked for up to the end of the file. The calls may
    interleave in any order that [orderly] allows, which asks that
    - a change of a file (a write, a cut, a page written back) begins when no other change
      of that file is under way, and a file is not cut while it is written back;
    - nobody stores through a mapping to bytes that [write] is changing, or past the end of a
      file that [write] is about to make longer;
    - the last mapping of a page stored to since it was written back stays until that
      writeback has looked at it ([writeback_loses_store] is what happens otherwise);
    - reads of the file system do not fail, a shared mapping is made only of a page before
      the end of its file, and a file is removed when nobody uses it;
    - a frame has fewer than 0xFF00 references, and a file does not change 2^32 times
      while a page that was read waits to be entered. *)
Theorem pcache_coherent (w0 w : world) (n : Z) :
  initial (sys w0) -> mem_ok (st (sys w0)) -> (forall n, 0 <= size (nodes (st (sys w0)) n) < 0x8000000000000000) ->
  (forall n p, told w0 n p = content (st (sys w0)) n p) -> rtc orderly w0 w -> n ∉ ch_node <$> changes (tasks (sys w)) ->
  let s := st (sys w) in
  (forall m o, m ∈ mapped (sys w) -> m_node m = n -> file_page m s = true -> 0 <= o < PAGE_SIZE -> m_index m * PAGE_SIZE + o < size (nodes s n) ->
     byte s (m_frame m) o = told w n (m_index m * PAGE_SIZE + o)) /\
  (forall p, 0 <= p < size (nodes s n) -> (forall a e, entries s !! a = Some e -> e_node e = n -> e_index e = p / PAGE_SIZE -> e_dirty e = false) ->
     content s n p = told w n p) /\
  (forall got offset count buf, in_range offset count -> outside s buf count ->
     let '(k, s') := file_read got n offset count buf s in
     0 <= k <= count /\ (regular (nodes s n) = true -> has_ops (nodes s n) = false \/ count <= got -> k = Z.max 0 (Z.min count (size (nodes s n) - offset))) /\
     forall j, 0 <= j < k -> mem s' (buf + j) = told w n (offset + j)).
Proof.
  intros Hi Hm Hs Ht Hr Hn. assert (world_ok w) as Hw by (apply (rtc_invariant orderly _ w0); [apply orderly_ok|by apply start_ok|done]).
  cbn zeta. split; [|split].
  - intros m o Hin En Hfile Ho Hlt. pose proof (in_table _ (wo_inv _ Hw)) as Htab. unfold file_page in Hfile.
    pose proof (find_locked_page _ (m_node m) (m_index m) (tb_linked _ Htab)) as Hf. destruct (find_locked (m_node m) (m_index m) (st (sys w))) as [a|]; [|done].
    destruct Hf as (e&Ha&E1&E2). unfold frame_at in Hfile. rewrite Ha in Hfile. apply Z.eqb_eq in Hfile. cbn in Hfile. rewrite <- Hfile.
    pose proof (co_told _ _ _ _ _ (wo_coherent _ Hw) a e o Ha Ho) as Hb. unfold place in Hb. rewrite E1, E2, En in Hb. apply Hb; [done|by apply not_pending].
  - intros p Hp Hd. apply (co_content _ _ _ _ _ (wo_coherent _ Hw)); [done|]. intros a e Ha En Ei Ed. by rewrite (Hd a e Ha En Ei) in Ed.
  - intros got offset count buf Hrange Hout. by apply read_told.
Qed.

(** * Witnesses *)

(** The first task goes on with a part that asks nothing of the others. *)
Definition easy (o : op) (x : outcome) (s : pcache) : bool :=
  match o with
  | Look n i shared _ | Put n i shared _ _ _ _ => (shared =? 0) || (i * PAGE_SIZE <? size (nodes s n))
  | Read _ _ _ _ _ _ => PAGE_SIZE <=? amount x
  | _ => false
  end.
Definition go (x : outcome) (S : system) : system :=
  match tasks S with
  | mkTask (o :: rest) oks ch :: ts => if easy o x (st S) then run_first x S else S
  | _ => S
  end.

Lemma go_orderly x S T : rtc orderly (mkWorld S T) (mkWorld (go x S) T).
Proof.
  unfold go. destruct S as [s ts ms]. destruct ts as [|[[|o rest] oks ch] ts]; [done..|]. cbn [tasks st]. destruct (easy o x s) eqn:He; [|done].
  unfold run_first. destruct (Z.ltb_spec (Z.of_nat (length (held (mkSystem s (mkTask (o :: rest) oks ch :: ts) ms)))) 0xFF00) as [Hl|]; [|done]. cbn [tasks st mapped].
  destruct (perform o x (mkTask (o :: rest) oks ch) s) as [[ops new] s'] eqn:E. apply rtc_once.
  assert (fits s ([] ++ mkTask rest oks ch :: ts) ms o x /\ tell o x s T = T) as [Hf HT].
  { clear -He. destruct o; try done; cbn in He |- *; (split; [|done]); [|by apply Z.leb_le|]; intros Hne; apply orb_true_iff in He as [He%Z.eqb_eq|He%Z.ltb_lt]; done. }
  rewrite <- HT at 2. apply (or_run s [] o rest oks ch ts ms x ops new s' T); [by apply room_few|done|done].
Qed.

Lemma goes_orderly k x S T : rtc orderly (mkWorld S T) (mkWorld (Nat.iter k (go x) S) T).
Proof. induction k as [|k IH]; [done|]. cbn. etrans; [exact IH|apply go_orderly]. Qed.

(** File 7 is mapped shared, a byte is stored through the mapping, and read. *)
Definition mapped_start : system := Nat.iter 3 (go all_good) (calls (Get 7 0 2) start).
Definition first_mapping : mapping := default (mkMapping 0 0 0 0) (head (mapped mapped_start)).
Definition stored_world : world :=
  mkWorld (mkSystem (store_byte (m_frame first_mapping) 10 0xAB (st mapped_start)) (touch (m_frame first_mapping) <$> tasks mapped_start) (mapped mapped_start))
    (tell_byte first_mapping 10 0xAB (st mapped_start) (content start_cache)).

Lemma store_orderly S T m o v : head (mapped S) = Some m -> m_kind m = 2 -> 0 <= o < PAGE_SIZE -> 0 <= v < 0x100 -> changes (tasks S) = [] ->
  orderly (mkWorld S T) (mkWorld (mkSystem (store_byte (m_frame m) o v (st S)) (touch (m_frame m) <$> tasks S) (mapped S)) (tell_byte m o v (st S) T)).
Proof.
  destruct S as [s ts [|m' ms]]; [done|]. cbn [mapped tasks st head]. intros [= ->] Hk Ho Hv Hc. apply or_store; try done; [apply list_elem_of_here|].
  intros c Hin. rewrite Hc in Hin. by apply elem_of_nil in Hin.
Qed.

Lemma stored_orderly : rtc orderly (mkWorld start (content start_cache)) stored_world.
Proof.
  eapply rtc_l; [apply (or_call start_cache [] [] (Get 7 0 2)); split; [split; [reflexivity|unfold PAGE_SIZE; lia]|lia]|].
  eapply rtc_r; [apply (goes_orderly 3 all_good)|]. apply (store_orderly mapped_start (content start_cache)); [|vm_compute; reflexivity|unfold PAGE_SIZE; lia|lia|vm_compute; reflexivity].
  vm_compute. reflexivity.
Qed.

Lemma pcache_coherent_witness :
  let '(k, s') := file_read 0 7 10 1 0x1000 (st (sys stored_world)) in k = 1 /\ mem s' (0x1000 + 0) = 0xAB.
Proof.
  assert (outside (st (sys stored_world)) 0x1000 1) as Hout by (split; [lia|split; [lia|left; vm_compute; discriminate]]).
  destruct (pcache_coherent (mkWorld start (content start_cache)) stored_world 7 start_initial) as (_&_&Hread); [vm_compute; intuition congruence|vm_compute; intuition congruence|reflexivity|exact stored_orderly| |].
  - assert (changes (tasks (sys stored_world)) = []) as E by (vm_compute; reflexivity). rewrite E. apply not_elem_of_nil.
  - specialize (Hread 0 10 1 0x1000 ltac:(split; lia) Hout).
    assert (told stored_world 7 (10 + 0) = 0xAB) as E by (vm_compute; reflexivity). assert (size (nodes (st (sys stored_world)) 7) = 5000) as Es by (vm_compute; reflexivity).
    assert (regular (nodes (st (sys stored_world)) 7) = true) as Er by (vm_compute; reflexivity). assert (has_ops (nodes (st (sys stored_world)) 7) = false) as Eo by (vm_compute; reflexivity).
    revert Hread E Es Er Eo. generalize (st (sys stored_world)). intros s Hread E Es Er Eo. destruct (file_read 0 7 10 1 0x1000 s) as [k s']. destruct Hread as (_&Hk&Hj).
    rewrite Es in Hk. specialize (Hk Er (or_introl Eo)). split; [lia|]. rewrite Hj by lia. exact E.
Defined.

(** * Where order matters *)

Lemma go_step x S : rtc step S (go x S).
Proof. unfold go. destruct (tasks S) as [|[[|o rest] oks ch] ts]; [done..|]. destruct (easy o x (st S)); [apply run_first_step|done]. Qed.
Lemma go_steps k x S : rtc step S (Nat.iter k (go x) S).
Proof. induction k as [|k IH]; [done|]. cbn. etrans; [exact IH|apply go_step]. Qed.

Definition store_first (o v : Z) (S : system) : system :=
  match mapped S with
  | m :: _ => mkSystem (store_byte (m_frame m) o v (st S)) (touch (m_frame m) <$> tasks S) (mapped S)
  | [] => S
  end.

(** A writeback of page 0 has written the page to the file. *)
Definition written_back : system := Nat.iter 4 (run_first all_good) (calls (Writeback 7 0 1) mapped_start).
(** A byte is stored, the mapping is given up, the writeback ends, and room is made. *)
Definition after_store : system :=
  Nat.iter 2 (run_first all_good) (calls (Make_room 1) (Nat.iter 6 (run_first all_good) (unmap_first (store_first 10 0xAB written_back)))).

(** C16. [may_unmap] is needed: a writeback marks a page clean when only the cache and
    itself hold it, also if it was written through a mapping, since unmapped, after it
    had gone to the file. The store is then lost when the page is evicted. *)
Theorem writeback_loses_store :
  rtc step start written_back /\ match mapped written_back with
    | [m] => m_node m = 7 /\ m_index m = 0 /\ m_kind m = 2 /\ file_page m (st written_back) = true
    | _ => False
    end /\
  rtc step (store_first 10 0xAB written_back) after_store /\
  find_locked 7 0 (st after_store) = None /\ content (st after_store) 7 10 = (7 + 10) mod 256.
Proof.
  split; [|split; [vm_compute; done|split; [|split; vm_compute; reflexivity]]].
  - etrans; [|apply run_steps]. etrans; [|apply calls_step]. unfold mapped_start. etrans; [apply (calls_step (Get 7 0 2))|apply go_steps].
  - unfold after_store. etrans; [|apply run_steps]. etrans; [|apply calls_step]. etrans; [|apply run_steps]. apply unmap_first_step.
Qed.
