(* ===== verification/Sched.v ===== *)
(** The scheduler, [src/kernel/sched/sched.c] and [priority.c]: tasks, a run queue per
    CPU, switching, sleeping and waking, timed sleepers, killing, stopping, exit and
    reaping.

    A CPU that is in the scheduler has a list of things left to do ([todo]): each is a
    section under one of the locks, or an access to memory outside them, and between
    two of them the other CPUs go on. The scheduler lock is held by the CPU whose list
    says so ([holding]); a queue's lock is held from [Schedule] to [Finish] by its own
    CPU, and for the length of one step by others. What a task has left to do when the
    CPU is taken from it waits in its [rest]. Reads of other CPUs' loads, which the code
    makes without a lock, are arguments ([reading]). *)
From stdpp Require Import base tactics numbers list sets gmap relations.
From Stdlib Require Import ZArith Lia.
From S2P Require Import Prelude.

Open Scope Z_scope.

Definition MAX_CPUS : nat := 32.
Definition TASK_ANY_CPU : Z := -1.
Definition PRIO_HIGH : Z := 0.
Definition PRIO_NORMAL : Z := 1.
Definition PRIO_LOW : Z := 2.
Definition PROCESS_MAX_THREADS : Z := 16.
Definition SIGKILL : Z := 9.
Definition SIGCHLD : Z := 17.
Definition NS_PER_TICK : Z := 10000000.
Definition STEAL_TRIES : nat := 64.

(** * Tasks *)

Inductive task_state_t := TASK_READY | TASK_RUNNING | TASK_BLOCKED | TASK_ZOMBIE | TASK_STOPPED.
#[export] Instance task_state_eq : EqDecision task_state_t.
Proof. solve_decision. Defined.

(** What a task sleeps on: addresses, of which the scheduler itself knows three kinds. *)
Inductive channel := No_channel | Reaper_channel | Process_channel (p : Z) | Futex_channel (t : Z) | Address (a : Z).
#[export] Instance channel_eq : EqDecision channel.
Proof. solve_decision. Defined.

(** What is left to do. [hold]: the scheduler lock is held as well; [mine]: the sleeper
    itself holds it as the lock that guards what it waits for. *)
Inductive op :=
| Sched_lock
| Sched_unlock
| Place (t : Z) (was_running : bool)
| Push (k : nat) (t : Z)
| Kick (k : nat) (t : Z)
| Kick_cpu (k : nat)
| Schedule (hold : bool)
| Steal (hold : bool) (order : list nat) (tries : nat)
| Pick (hold : bool) (next : option Z)
| Switch (hold : bool) (next : Z) (may_stay : bool)
| Ctx_switch
| Finish
| Halt
| Sleep (ch : channel) (tick ns : Z) (interruptible mine : bool)
| Woken (interruptible : bool)
| Wake (ch : channel)
| Wake_in (ch : channel) (ts : list Z)
| Wake_task (t : Z)
| Due (k : nat) (now : Z)
| Enqueue (t : Z)
| Affinity (t a : Z)
| Move (t : Z)
| Move_from (t : Z) (k : nat)
| Interrupt (t : Z)
| Request_kill (t sig : Z)
| Request_stop (t sig : Z)
| Continue (t : Z)
| Signal (t sig : Z)
| Stop
| Stop_if_pending
| Check_kill
| Exit_begin (status : Z) (whole : bool)
| Exit_leave (status : Z)
| Exit_last (status : Z) (last : bool)
| Reap
| Free (t : Z)
| Tick
| Hand (k : nat)
| Slice
| Await_reapable
| End_others
| Await_alone
| New (t p parent prio : Z)
| Add_thread (t creator : Z)
| Futex_wake (p addr n : Z)
| Futex_in (p addr n : Z) (ts : list Z)
| Wait_child (want : Z) (nohang untraced : bool)
| Join (tid : Z)
| Set_init (t : Z)
| Make_unkillable (t : Z).

Record turn := mkTurn { priority : Z; slice_left : Z; cpu_ticks : Z }.
Record wait := mkWait { wait_channel : channel; wake_tick : Z; wake_ns : Z; futex_addr : Z }.
Record fate := mkFate { kill_pending : Z; stop_pending : Z; sig_ready : bool; exiting : bool; detached : bool; task_status : Z }.

(** [sig_ready] is [signal_deliverable]; [pid], [proc] as in the code. *)
Record task := mkTask {
  state : task_state_t; affinity : Z; last_cpu : Z; queued_on : Z; sleeping_on : Z; sleep_key_ns : Z;
  turn_of : turn; waits_for : wait; fate_of : fate; pid : Z; proc : Z; rest : list op }.

Record process := mkProcess {
  p_pid : Z; live : Z; group_exit : bool; exit_status : Z; exec_tid : Z; parent_pid : Z; stop_signal : Z; stop_reported : bool }.

(** [stack]: whose stack the CPU runs on; [ipi]: an interrupt that has been sent to it. *)
Record cpu := mkCpu {
  current : Z; idle : Z; online : bool; resched_kicked : bool; ipi : bool; stack : Z; busy_ticks : Z;
  queue : list Z; count : Z; release_sched : bool; moving : Z; sleepers : list Z; sleeper_count : Z; todo : list op }.

(** [allocated]: the task structures in memory. 0 is NULL for [init_task]. *)
Record sched := mkSched {
  cpus : list cpu; tasks : Z -> task; procs : Z -> process; task_list : list Z; init_task : Z; next_pid : Z;
  tick_offset : Z; allocated : gset Z }.

Definition set_state (st : task_state_t) (t : task) : task :=
  mkTask st (affinity t) (last_cpu t) (queued_on t) (sleeping_on t) (sleep_key_ns t) (turn_of t) (waits_for t) (fate_of t) (pid t) (proc t) (rest t).
Definition set_affinity (a : Z) (t : task) : task :=
  mkTask (state t) a (last_cpu t) (queued_on t) (sleeping_on t) (sleep_key_ns t) (turn_of t) (waits_for t) (fate_of t) (pid t) (proc t) (rest t).
Definition set_queued (k : Z) (t : task) : task :=
  mkTask (state t) (affinity t) (last_cpu t) k (sleeping_on t) (sleep_key_ns t) (turn_of t) (waits_for t) (fate_of t) (pid t) (proc t) (rest t).
Definition set_last_cpu (k : Z) (t : task) : task :=
  mkTask (state t) (affinity t) k (queued_on t) (sleeping_on t) (sleep_key_ns t) (turn_of t) (waits_for t) (fate_of t) (pid t) (proc t) (rest t).
Definition set_sleeping (k key : Z) (t : task) : task :=
  mkTask (state t) (affinity t) (last_cpu t) (queued_on t) k key (turn_of t) (waits_for t) (fate_of t) (pid t) (proc t) (rest t).
Definition set_turn (f : turn -> turn) (t : task) : task :=
  mkTask (state t) (affinity t) (last_cpu t) (queued_on t) (sleeping_on t) (sleep_key_ns t) (f (turn_of t)) (waits_for t) (fate_of t) (pid t) (proc t) (rest t).
Definition set_wait (f : wait -> wait) (t : task) : task :=
  mkTask (state t) (affinity t) (last_cpu t) (queued_on t) (sleeping_on t) (sleep_key_ns t) (turn_of t) (f (waits_for t)) (fate_of t) (pid t) (proc t) (rest t).
Definition set_fate (f : fate -> fate) (t : task) : task :=
  mkTask (state t) (affinity t) (last_cpu t) (queued_on t) (sleeping_on t) (sleep_key_ns t) (turn_of t) (waits_for t) (f (fate_of t)) (pid t) (proc t) (rest t).
Definition set_pid (n : Z) (t : task) : task :=
  mkTask (state t) (affinity t) (last_cpu t) (queued_on t) (sleeping_on t) (sleep_key_ns t) (turn_of t) (waits_for t) (fate_of t) n (proc t) (rest t).
Definition set_proc (p : Z) (t : task) : task :=
  mkTask (state t) (affinity t) (last_cpu t) (queued_on t) (sleeping_on t) (sleep_key_ns t) (turn_of t) (waits_for t) (fate_of t) (pid t) p (rest t).
Definition set_rest (l : list op) (t : task) : task :=
  mkTask (state t) (affinity t) (last_cpu t) (queued_on t) (sleeping_on t) (sleep_key_ns t) (turn_of t) (waits_for t) (fate_of t) (pid t) (proc t) l.

Definition set_kill (sig : Z) (f : fate) : fate := mkFate sig (stop_pending f) (sig_ready f) (exiting f) (detached f) (task_status f).
Definition set_stop (sig : Z) (f : fate) : fate := mkFate (kill_pending f) sig (sig_ready f) (exiting f) (detached f) (task_status f).
Definition set_sig_ready (b : bool) (f : fate) : fate := mkFate (kill_pending f) (stop_pending f) b (exiting f) (detached f) (task_status f).
Definition set_exiting (f : fate) : fate := mkFate (kill_pending f) (stop_pending f) (sig_ready f) true (detached f) (task_status f).
Definition set_detached (b : bool) (f : fate) : fate := mkFate (kill_pending f) (stop_pending f) (sig_ready f) (exiting f) b (task_status f).
Definition set_status (n : Z) (f : fate) : fate := mkFate (kill_pending f) (stop_pending f) (sig_ready f) (exiting f) (detached f) n.

Definition set_current (t : Z) (k : cpu) : cpu :=
  mkCpu t (idle k) (online k) (resched_kicked k) (ipi k) (stack k) (busy_ticks k) (queue k) (count k) (release_sched k) (moving k) (sleepers k) (sleeper_count k) (todo k).
Definition set_online (k : cpu) : cpu :=
  mkCpu (current k) (idle k) true (resched_kicked k) (ipi k) (stack k) (busy_ticks k) (queue k) (count k) (release_sched k) (moving k) (sleepers k) (sleeper_count k) (todo k).
Definition set_kicked (b : bool) (k : cpu) : cpu :=
  mkCpu (current k) (idle k) (online k) b (ipi k) (stack k) (busy_ticks k) (queue k) (count k) (release_sched k) (moving k) (sleepers k) (sleeper_count k) (todo k).
Definition set_ipi (b : bool) (k : cpu) : cpu :=
  mkCpu (current k) (idle k) (online k) (resched_kicked k) b (stack k) (busy_ticks k) (queue k) (count k) (release_sched k) (moving k) (sleepers k) (sleeper_count k) (todo k).
Definition set_stack (t : Z) (k : cpu) : cpu :=
  mkCpu (current k) (idle k) (online k) (resched_kicked k) (ipi k) t (busy_ticks k) (queue k) (count k) (release_sched k) (moving k) (sleepers k) (sleeper_count k) (todo k).
Definition add_busy (k : cpu) : cpu :=
  mkCpu (current k) (idle k) (online k) (resched_kicked k) (ipi k) (stack k) (u64 (busy_ticks k + 1)) (queue k) (count k) (release_sched k) (moving k) (sleepers k) (sleeper_count k) (todo k).
Definition set_queue (q : list Z) (n : Z) (k : cpu) : cpu :=
  mkCpu (current k) (idle k) (online k) (resched_kicked k) (ipi k) (stack k) (busy_ticks k) q n (release_sched k) (moving k) (sleepers k) (sleeper_count k) (todo k).
Definition set_switch (r : bool) (m : Z) (k : cpu) : cpu :=
  mkCpu (current k) (idle k) (online k) (resched_kicked k) (ipi k) (stack k) (busy_ticks k) (queue k) (count k) r m (sleepers k) (sleeper_count k) (todo k).
Definition set_sleepers (l : list Z) (n : Z) (k : cpu) : cpu :=
  mkCpu (current k) (idle k) (online k) (resched_kicked k) (ipi k) (stack k) (busy_ticks k) (queue k) (count k) (release_sched k) (moving k) l n (todo k).
Definition set_todo (l : list op) (k : cpu) : cpu :=
  mkCpu (current k) (idle k) (online k) (resched_kicked k) (ipi k) (stack k) (busy_ticks k) (queue k) (count k) (release_sched k) (moving k) (sleepers k) (sleeper_count k) l.

Definition no_cpu : cpu := mkCpu 0 0 false false false 0 0 [] 0 false 0 [] 0 [].
Definition cpu_at (c : nat) (s : sched) : cpu := default no_cpu (cpus s !! c).
Definition set_cpu (c : nat) (f : cpu -> cpu) (s : sched) : sched :=
  mkSched (alter f c (cpus s)) (tasks s) (procs s) (task_list s) (init_task s) (next_pid s) (tick_offset s) (allocated s).
Definition set_task (t : Z) (f : task -> task) (s : sched) : sched :=
  mkSched (cpus s) (fun x => if x =? t then f (tasks s x) else tasks s x) (procs s) (task_list s) (init_task s) (next_pid s) (tick_offset s) (allocated s).
Definition set_process (p : Z) (f : process -> process) (s : sched) : sched :=
  mkSched (cpus s) (tasks s) (fun x => if x =? p then f (procs s x) else procs s x) (task_list s) (init_task s) (next_pid s) (tick_offset s) (allocated s).
Definition set_list (l : list Z) (s : sched) : sched :=
  mkSched (cpus s) (tasks s) (procs s) l (init_task s) (next_pid s) (tick_offset s) (allocated s).
Definition set_init_task (t : Z) (s : sched) : sched :=
  mkSched (cpus s) (tasks s) (procs s) (task_list s) t (next_pid s) (tick_offset s) (allocated s).
Definition set_allocated (a : gset Z) (s : sched) : sched :=
  mkSched (cpus s) (tasks s) (procs s) (task_list s) (init_task s) (next_pid s) (tick_offset s) a.

(** * Priorities *)

Definition time_slices : list Z := [4; 2; 1].
Definition priority_time_slice (p : Z) : Z := nth (Z.to_nat (if PRIO_LOW <? p then PRIO_LOW else p)) time_slices 0.
Definition task_set_priority (t p : Z) (s : sched) : sched :=
  set_task t (set_turn (fun u => mkTurn (if PRIO_LOW <? p then PRIO_LOW else p) (slice_left u) (cpu_ticks u))) s.
Definition task_get_priority (t : Z) (s : sched) : Z := priority (turn_of (tasks s t)).

(** * Run queues and sleepers *)

Definition rq_push (k : nat) (t : Z) (s : sched) : sched :=
  set_task t (set_queued (Z.of_nat k)) (set_cpu k (fun q => set_queue (queue q ++ [t]) (u32 (count q + 1)) q) s).
Definition remove (t : Z) (l : list Z) : list Z := filter (fun x => x <> t) l.
Definition rq_unlink (k : nat) (t : Z) (s : sched) : sched :=
  set_task t (set_queued (-1)) (set_cpu k (fun q => set_queue (remove t (queue q)) (u32 (count q - 1)) q) s).

(** The oldest task, or the oldest that is not bound to a CPU. *)
Fixpoint first_in (movable_only : bool) (ts : Z -> task) (l : list Z) : option Z :=
  match l with
  | [] => None
  | t :: l' => if movable_only && negb (affinity (ts t) =? TASK_ANY_CPU) then first_in movable_only ts l' else Some t
  end.
Definition rq_take (k : nat) (movable_only : bool) (s : sched) : option (Z * sched) :=
  match first_in movable_only (tasks s) (queue (cpu_at k s)) with
  | Some t => Some (t, rq_unlink k t s)
  | None => None
  end.

Fixpoint insert_sleeper (ts : Z -> task) (t key : Z) (l : list Z) : list Z :=
  match l with
  | [] => [t]
  | u :: l' => if sleep_key_ns (ts u) <=? key then u :: insert_sleeper ts t key l' else t :: l
  end.
Definition sleeper_add (t : Z) (k : nat) (key : Z) (s : sched) : sched :=
  let s := set_task t (set_sleeping (Z.of_nat k) key) s in
  set_cpu k (fun q => set_sleepers (insert_sleeper (tasks s) t key (sleepers q)) (u32 (sleeper_count q + 1)) q) s.
Definition sleeper_remove (t : Z) (s : sched) : sched :=
  let k := sleeping_on (tasks s t) in
  if k <? 0 then s
  else set_task t (fun u => set_sleeping (-1) (sleep_key_ns u) u)
         (set_cpu (Z.to_nat k) (fun q => set_sleepers (remove t (sleepers q)) (u32 (sleeper_count q - 1)) q) s).

Definition timer_tick_to_ns (tick : Z) (s : sched) : Z := u64 (u64 (tick - tick_offset s) * NS_PER_TICK).

(** * Where a task goes *)

Definition load_of (i : nat) (s : sched) : Z := count (cpu_at i s) + (if current (cpu_at i s) =? idle (cpu_at i s) then 0 else 1).

(** What a step reads without a lock: the loads of the CPUs, one load again, the lengths
    of the queues, and what a signal does to the threads of its process. *)
Inductive effect := Interrupts | Kills | Stops | Continues.
Record reading := mkReading { loads : nat -> Z; again : Z; lengths : nat -> Z; effects : list (Z * effect) }.

Fixpoint least_loaded (i : nat) (ks : list cpu) (load : nat -> Z) (skip : nat -> bool) (least : nat) (least_load : Z) : nat * Z :=
  match ks with
  | [] => (least, least_load)
  | k :: ks' =>
      if online k && negb (skip i) && (load i <? least_load) then least_loaded (S i) ks' load skip i (load i)
      else least_loaded (S i) ks' load skip least least_load
  end.

Definition choose_cpu (x : reading) (t : task) (was_running : bool) (s : sched) : nat :=
  if negb (affinity t =? TASK_ANY_CPU) then Z.to_nat (affinity t)
  else
    let '(least, least_load) := least_loaded 0 (cpus s) (loads x) (fun _ => false) 0 0xFFFFFFFF in
    let last := Z.to_nat (last_cpu t) in
    if negb was_running || bool_decide (MAX_CPUS <= last)%nat || negb (online (cpu_at last s)) then least
    else if u32 (least_load + 1) <? again x then least else last.

Definition is_idle (k : cpu) : bool := current k =? idle k.
Definition kick_cpu (here i : nat) (s : sched) : sched :=
  let k := cpu_at i s in
  if negb (online k) || Nat.eqb i here || negb (is_idle k) || resched_kicked k then s
  else set_cpu i (fun k => set_ipi true (set_kicked true k)) s.
Fixpoint first_idle (here i : nat) (ks : list cpu) : option nat :=
  match ks with
  | [] => None
  | k :: ks' => if online k && negb (Nat.eqb i here) && is_idle k then Some i else first_idle here (S i) ks'
  end.
Definition kick_an_idle_cpu (here : nat) (s : sched) : sched :=
  match first_idle here 0 (cpus s) with Some i => kick_cpu here i s | None => s end.

(** The queues to steal from, busiest first, equal ones from the CPU after this one. *)
Fixpoint insert_victim (i : nat) (n : Z) (l : list (nat * Z)) : list (nat * Z) :=
  match l with
  | [] => [(i, n)]
  | (j, m) :: l' => if m <? n then (i, n) :: l else (j, m) :: insert_victim i n l'
  end.
Definition steal_order (here : nat) (x : reading) (s : sched) : list nat :=
  (fold_left (fun l k =>
     let i := Nat.modulo (here + k) MAX_CPUS in
     if (lengths x i =? 0) || negb (online (cpu_at i s)) then l else insert_victim i (lengths x i) l)
    (seq 1 (MAX_CPUS - 1)) []).*1.

(** * Who holds the locks *)

(** Does what is left to do say that the scheduler lock is held? *)
Fixpoint holding (release : bool) (l : list op) : bool :=
  match l with
  | [] => false
  | o :: l' =>
      match o with
      | Sched_lock => false
      | Sched_unlock => true
      | Schedule hold | Steal hold _ _ | Pick hold _ | Switch hold _ _ => hold
      | Ctx_switch | Finish => release
      | Sleep _ _ _ _ _ | Stop | Stop_if_pending | Exit_leave _ | Exit_last _ _ | Reap | Await_reapable | End_others | Await_alone
      | Wait_child _ _ _ | Join _ => true
      | _ => holding release l'
      end
  end.
Definition sched_held (k : cpu) : bool := holding (release_sched k) (todo k).
Definition sched_free (s : sched) : bool := forallb (fun k => negb (sched_held k)) (cpus s).
(** Between [Schedule] and [Finish] a CPU holds its queue's lock. *)
Definition rq_busy (k : nat) (s : sched) : bool :=
  match todo (cpu_at k s) with
  | (Steal _ _ _ | Pick _ _ | Switch _ _ _ | Ctx_switch | Finish) :: _ => true
  | _ => false
  end.

(** * Processes *)

Definition find_task (s : sched) (n : Z) : option Z := head (filter (fun t => pid (tasks s t) = n) (task_list s)).
Definition leader (s : sched) (t : Z) : bool := pid (tasks s t) =? p_pid (procs s (proc (tasks s t))).
Definition sched_find_process_locked (s : sched) (n : Z) : option Z :=
  match find_task s n with Some t => if leader s t then Some t else None | None => None end.
Definition threads (s : sched) (p : Z) : list Z := filter (fun t => proc (tasks s t) = p) (task_list s).
Definition sched_process_stopped_locked (s : sched) (t : Z) : bool :=
  let p := proc (tasks s t) in
  negb (live (procs s p) =? 0) &&
  forallb (fun t => bool_decide (state (tasks s t) = TASK_STOPPED) || bool_decide (state (tasks s t) = TASK_ZOMBIE)) (threads s p).

Definition is_state (s : sched) (t : Z) (st : task_state_t) : bool := bool_decide (state (tasks s t) = st).

(** The kernel's reaper may free it; [self] is the task that looks. *)
Definition reapable (s : sched) (self t : Z) : bool :=
  is_state s t TASK_ZOMBIE && detached (fate_of (tasks s t)) && negb (t =? self) &&
  (negb (leader s t) || (live (procs s (proc (tasks s t))) =? 0)).

Definition kill_other_threads (s : sched) (self : Z) : list op :=
  let p := proc (tasks s self) in
  if live (procs s p) <=? 1 then []
  else (fun t => Request_kill t SIGKILL) <$> filter (fun t => t <> self) (threads s p).

(** What is left to do to end: [task_end]. *)
Definition task_end (status : Z) (whole : bool) : list op :=
  [Sched_lock; Exit_begin status whole; Sched_unlock; Sched_lock; Exit_leave status].
Definition die (sig : Z) : list op := task_end (128 + sig) true.

Definition set_group_exit (status : Z) (p : process) : process :=
  mkProcess (p_pid p) (live p) true status (exec_tid p) (parent_pid p) (stop_signal p) (stop_reported p).
Definition set_live (n : Z) (p : process) : process :=
  mkProcess (p_pid p) n (group_exit p) (exit_status p) (exec_tid p) (parent_pid p) (stop_signal p) (stop_reported p).
Definition set_exit_status (n : Z) (p : process) : process :=
  mkProcess (p_pid p) (live p) (group_exit p) n (exec_tid p) (parent_pid p) (stop_signal p) (stop_reported p).
Definition set_exec_tid (n : Z) (p : process) : process :=
  mkProcess (p_pid p) (live p) (group_exit p) (exit_status p) n (parent_pid p) (stop_signal p) (stop_reported p).
Definition set_parent (n : Z) (p : process) : process :=
  mkProcess (p_pid p) (live p) (group_exit p) (exit_status p) (exec_tid p) n (stop_signal p) (stop_reported p).
Definition set_stopped (sig : Z) (b : bool) (p : process) : process :=
  mkProcess (p_pid p) (live p) (group_exit p) (exit_status p) (exec_tid p) (parent_pid p) sig b.

(** The children of a process that is gone, in [task_end]: init takes them over, or, if
    there is none, the kernel's reaper. *)
Definition orphan (p : Z) (s : sched) (t : Z) : bool :=
  leader s t && negb (proc (tasks s t) =? p) && (parent_pid (procs s (proc (tasks s t))) =? p_pid (procs s p)).
Definition give_away (p : Z) (s : sched) (t : Z) : sched :=
  if orphan p s t then
    if negb (init_task s =? 0) then set_process (proc (tasks s t)) (set_parent (p_pid (procs s (proc (tasks s (init_task s)))))) s
    else set_task t (set_fate (set_detached true)) s
  else s.

Inductive scan := Stopped_child (t : Z) | Dead_child (t : Z) | No_news | No_child.
(** The loop of [process_wait_options] over the tasks. *)
Fixpoint wait_scan (s : sched) (self want : Z) (untraced : bool) (have : bool) (l : list Z) : scan :=
  match l with
  | [] => if have then No_news else No_child
  | t :: l' =>
      let p := proc (tasks s t) in
      if negb (leader s t) || negb (parent_pid (procs s p) =? p_pid (procs s (proc (tasks s self)))) || (p =? proc (tasks s self)) ||
         detached (fate_of (tasks s t)) || (negb (want =? -1) && negb (pid (tasks s t) =? want)) then wait_scan s self want untraced have l'
      else if sched_process_stopped_locked s t && negb (stop_reported (procs s p)) && untraced then Stopped_child t
      else if is_state s t TASK_ZOMBIE && (live (procs s p) =? 0) then Dead_child t
      else wait_scan s self want untraced true l'
  end.

(** * What a CPU does next *)

(** [place_task] with the queue's lock held. *)
Definition push_ready (k : nat) (t : Z) (s : sched) : sched := rq_push k t (set_task t (set_state TASK_READY) s).

(** A sleep ends. *)
Definition end_wait (t : Z) (s : sched) : sched :=
  set_task t (set_wait (fun w => mkWait No_channel 0 0 (futex_addr w))) (sleeper_remove t s).

Definition begin_wait (c : nat) (t : Z) (ch : channel) (tick ns : Z) (s : sched) : sched :=
  let s := set_task t (fun u => set_state TASK_BLOCKED (set_wait (fun w => mkWait ch tick ns (futex_addr w)) u)) s in
  if negb (tick =? 0) || negb (ns =? 0) then sleeper_add t c (if negb (ns =? 0) then ns else timer_tick_to_ns tick s) s else s.

(** [schedule], once the next task is known: the old one goes to the back of the queue,
    or is to be placed elsewhere, or stays out; the new one gets the CPU. *)
Definition leave_old (c : nat) (may_stay : bool) (s : sched) : sched :=
  let old := current (cpu_at c s) in
  if is_state s old TASK_RUNNING then
    let s := set_task old (set_state TASK_READY) s in
    if old =? idle (cpu_at c s) then s
    else if may_stay then rq_push c old s
    else set_cpu c (fun k => set_switch (release_sched k) old k) s
  else s.
Definition begin_turn (c : nat) (t : task) : task :=
  set_turn (fun u => mkTurn (priority u) (priority_time_slice (priority u)) (cpu_ticks u)) (set_last_cpu (Z.of_nat c) (set_state TASK_RUNNING t)).
Definition switch_to (c : nat) (hold : bool) (next : Z) (may_stay : bool) (s : sched) : sched :=
  let s := set_task next (begin_turn c) (leave_old c may_stay s) in
  set_cpu c (fun k => set_switch hold (moving k) (set_current next k)) s.

(** [stop_current]; the parent is told when the last thread has stopped. *)
Definition stop_current (self : Z) (s : sched) : list op * sched :=
  let p := proc (tasks s self) in
  let s := set_process p (set_stopped (stop_pending (fate_of (tasks s self))) false) s in
  let s := set_task self (fun u => set_state TASK_STOPPED (set_fate (set_stop 0) u)) s in
  let parent := if sched_process_stopped_locked s self then sched_find_process_locked s (parent_pid (procs s p)) else None in
  (match parent with
   | Some q => if negb (proc (tasks s q) =? p) then [Wake (Process_channel (proc (tasks s q))); Signal q SIGCHLD] else []
   | None => []
   end, s).

Definition exit_begin (self status : Z) (whole : bool) (s : sched) : list op * sched :=
  let p := proc (tasks s self) in
  let s := set_task self (set_fate (fun f => set_sig_ready false (set_kill 0 (set_exiting f)))) s in
  let whole := if negb (exec_tid (procs s p) =? 0) && negb (exec_tid (procs s p) =? pid (tasks s self)) then false else whole in
  if whole && negb (group_exit (procs s p)) then
    let s := set_process p (set_group_exit status) s in (kill_other_threads s self, s)
  else ([], s).

Definition exit_leave (self status : Z) (s : sched) : bool * sched :=
  let p := proc (tasks s self) in
  let s := set_process p (fun q => set_live (u32 (live q - 1)) q) s in
  let last := live (procs s p) =? 0 in
  (last, if last && negb (group_exit (procs s p)) then set_process p (set_exit_status status) s else s).

Definition exit_last (self status : Z) (last : bool) (s : sched) : list op * sched :=
  let p := proc (tasks s self) in
  let s := set_task self (fun u => set_state TASK_ZOMBIE (set_fate (set_status status) u)) s in
  let told := Wake (Process_channel p) :: (if detached (fate_of (tasks s self)) then [Wake Reaper_channel] else []) in
  if negb last then (told, s)
  else
    let s := fold_left (fun s t => if negb (leader s t) then set_task t (set_fate (set_detached true)) s else s) (threads s p) s in
    let s := if negb (init_task s =? 0) && (proc (tasks s (init_task s)) =? p) then set_init_task 0 s else s in
    let children := filter (fun t => orphan p s t = true) (task_list s) in
    let parent := find (fun t => leader s t && negb (proc (tasks s t) =? p) && (pid (tasks s t) =? parent_pid (procs s p))) (reverse (task_list s)) in
    let s' := fold_left (give_away p) (task_list s) s in
    (told ++ [Wake Reaper_channel] ++
     (if init_task s =? 0 then omap (fun t => if is_state s t TASK_ZOMBIE then Some (Wake Reaper_channel) else None) children
      else match children with [] => [] | _ => [Wake (Process_channel (proc (tasks s (init_task s)))); Signal (init_task s) SIGCHLD] end) ++
     match parent with Some q => [Wake (Process_channel (proc (tasks s q))); Signal q SIGCHLD] | None => [] end, s').

(** [sched_end_other_threads], once the others have gone: the caller takes the id of the
    process's first thread. *)
Definition take_pid (self p : Z) (s : sched) (t : Z) : sched :=
  let s := if pid (tasks s t) =? p_pid (procs s p) then
             set_task self (set_pid (p_pid (procs s p))) (set_task t (set_pid (pid (tasks s self))) s)
           else s in
  set_task t (set_fate (set_detached true)) s.

(** A task of its own process, as [task_alloc_with_pid] makes it. *)
Definition new_task (t p prio : Z) (s : sched) : task :=
  mkTask TASK_READY TASK_ANY_CPU 0 (-1) (-1) 0 (mkTurn prio 0 0) (mkWait No_channel 0 0 0) (mkFate 0 0 false false true 0) (next_pid s) p [].
Definition alloc_task (t p parent prio : Z) (s : sched) : sched :=
  mkSched (cpus s) (fun x => if x =? t then new_task t p prio s else tasks s x)
    (fun x => if x =? p then mkProcess (next_pid s) 1 false 0 0 parent 0 false else procs s x)
    (task_list s) (init_task s) (u32 (next_pid s + 1)) (tick_offset s) ({[t]} ∪ allocated s).

Definition effect_op (sig : Z) (e : Z * effect) : op :=
  match e with
  | (t, Interrupts) => Interrupt t
  | (t, Kills) => Request_kill t sig
  | (t, Stops) => Request_stop t sig
  | (t, Continues) => Continue t
  end.

(** [None]: the lock that is needed is not free. [l] is what comes after. *)
Definition perform (c : nat) (o : op) (l : list op) (x : reading) (s : sched) : option (list op * sched) :=
  let self := current (cpu_at c s) in
  let me := tasks s self in
  match o with
  | Sched_lock => if sched_free s then Some (l, s) else None
  | Sched_unlock => Some (l, s)
  | Place t was_running => Some (Push (choose_cpu x (tasks s t) was_running s) t :: l, s)
  | Push k t => if rq_busy k s then None else Some (Kick k t :: l, push_ready k t s)
  | Kick k t =>
      Some (l, if is_idle (cpu_at k s) then kick_cpu c k s else if affinity (tasks s t) =? TASK_ANY_CPU then kick_an_idle_cpu c s else s)
  | Kick_cpu k => Some (l, kick_cpu c k s)
  | Schedule hold =>
      let s := set_cpu c (set_kicked false) s in
      match rq_take c false s with
      | Some (t, s) => Some (Pick hold (Some t) :: l, s)
      | None => Some (Steal hold (steal_order c x s) 0 :: l, s)
      end
  | Steal hold [] _ => Some (Pick hold None :: l, s)
  | Steal hold (v :: order) tries =>
      if rq_busy v s then Some ((if Nat.ltb (S tries) STEAL_TRIES then Steal hold (v :: order) (S tries) else Steal hold order 0) :: l, s)
      else match rq_take v true s with
           | Some (t, s) => Some (Pick hold (Some t) :: l, s)
           | None => Some (Steal hold order 0 :: l, s)
           end
  | Pick hold next =>
      let may_stay := is_state s self TASK_RUNNING && ((affinity me =? TASK_ANY_CPU) || (affinity me =? Z.of_nat c)) in
      match next with
      | Some t => Some (Switch hold t may_stay :: l, s)
      | None => if may_stay then Some ((if hold then [Sched_unlock] else []) ++ l, s) else Some (Switch hold (idle (cpu_at c s)) may_stay :: l, s)
      end
  | Switch hold next may_stay =>
      let s' := switch_to c hold next may_stay s in
      (* more waiting than this CPU will run soon *)
      let many := may_stay && is_state s self TASK_RUNNING && negb (self =? idle (cpu_at c s)) && (1 <? count (cpu_at c s')) in
      Some (Ctx_switch :: l, if many then kick_an_idle_cpu c s' else s')
  | Ctx_switch =>
      let s := set_task (stack (cpu_at c s)) (set_rest l) s in
      Some (Finish :: rest (tasks s self), set_cpu c (set_stack self) s)
  | Finish =>
      let k := cpu_at c s in
      Some ((if release_sched k then [Sched_unlock] else []) ++ (if moving k =? 0 then [] else [Place (moving k) true]) ++ l, set_cpu c (set_switch false 0) s)
  | Halt => if ipi (cpu_at c s) then Some (l, set_cpu c (set_ipi false) s) else None
  | Sleep ch tick ns interruptible mine =>
      let back := if mine then [Sched_lock] else [] in
      if interruptible && negb (kill_pending (fate_of me) =? 0) then Some (Sched_unlock :: die (kill_pending (fate_of me)), s)
      else if interruptible && negb (stop_pending (fate_of me) =? 0) then
        let '(ops, s) := stop_current self s in Some (ops ++ [Schedule true] ++ back ++ l, s)
      else if interruptible && sig_ready (fate_of me) then Some ((if mine then [] else [Sched_unlock]) ++ l, s)
      else Some ([Schedule true; Woken interruptible] ++ back ++ l, begin_wait c self ch tick ns s)
  | Woken interruptible => Some (if interruptible && negb (kill_pending (fate_of me) =? 0) then die (kill_pending (fate_of me)) else l, s)
  | Wake ch => Some (Wake_in ch (task_list s) :: l, s)
  | Wake_in ch [] => Some (l, s)
  | Wake_in ch (t :: ts) =>
      Some ((if is_state s t TASK_BLOCKED && bool_decide (wait_channel (waits_for (tasks s t)) = ch) then [Wake_task t] else []) ++ Wake_in ch ts :: l, s)
  | Wake_task t => Some (Place t true :: l, end_wait t s)
  | Due k now =>
      match sleepers (cpu_at k s) with
      | t :: _ => Some (if sleep_key_ns (tasks s t) <=? now then Wake_task t :: Due k now :: l else l, s)
      | [] => Some (l, s)
      end
  | Enqueue t => Some ((if is_state s t TASK_READY then [Place t false] else []) ++ l, set_list (task_list s ++ [t]) s)
  | Affinity t a =>
      Some (Move t :: l, set_task t (set_affinity (if (0 <=? a) && online (cpu_at (Z.to_nat a) s) then a else TASK_ANY_CPU)) s)
  | Move t =>
      let on := queued_on (tasks s t) in
      Some (if (on <? 0) || (affinity (tasks s t) =? TASK_ANY_CPU) || (affinity (tasks s t) =? on) then l else Move_from t (Z.to_nat on) :: l, s)
  | Move_from t k =>
      if rq_busy k s then None
      else if queued_on (tasks s t) =? Z.of_nat k then Some (Place t true :: l, rq_unlink k t s) else Some (Move t :: l, s)
  | Interrupt t => Some ((if is_state s t TASK_BLOCKED then [Wake_task t] else []) ++ l, s)
  | Request_kill t sig =>
      let f := fate_of (tasks s t) in
      if negb (is_state s t TASK_ZOMBIE) && negb (exiting f) && (kill_pending f =? 0) then
        Some ((if is_state s t TASK_BLOCKED || is_state s t TASK_STOPPED then [Wake_task t] else []) ++ l,
              set_task t (set_fate (fun f => set_stop 0 (set_kill sig f))) s)
      else Some (l, s)
  | Request_stop t sig =>
      let f := fate_of (tasks s t) in
      if is_state s t TASK_ZOMBIE || is_state s t TASK_STOPPED || exiting f || negb (kill_pending f =? 0) then Some (l, s)
      else Some ((if is_state s t TASK_BLOCKED then [Wake_task t] else []) ++ l, set_task t (set_fate (set_stop sig)) s)
  | Continue t => Some ((if is_state s t TASK_STOPPED then [Wake_task t] else []) ++ l, set_task t (set_fate (set_stop 0)) s)
  | Signal t sig => Some ((effect_op sig <$> filter (fun e => fst e ∈ threads s (proc (tasks s t))) (effects x)) ++ l, s)
  | Stop => let '(ops, s) := stop_current self s in Some (ops ++ Schedule true :: l, s)
  | Stop_if_pending =>
      Some ((if negb (stop_pending (fate_of me) =? 0) && (kill_pending (fate_of me) =? 0) then [Stop] else [Sched_unlock]) ++ Woken true :: l, s)
  | Check_kill =>
      if negb (kill_pending (fate_of me) =? 0) then Some (die (kill_pending (fate_of me)), s)
      else Some ((if negb (stop_pending (fate_of me) =? 0) then [Sched_lock; Stop_if_pending] else []) ++ l, s)
  | Exit_begin status whole => let '(ops, s) := exit_begin self status whole s in Some (ops ++ l, s)
  | Exit_leave status => let '(last, s) := exit_leave self status s in Some ([Sched_unlock; Sched_lock; Exit_last status last], s)
  | Exit_last status last => let '(ops, s) := exit_last self status last s in Some (ops ++ [Schedule true], s)
  | Reap =>
      let dead := filter (fun t => reapable s self t = true) (task_list s) in
      Some (Sched_unlock :: (Free <$> reverse dead) ++ l, set_list (filter (fun t => reapable s self t = false) (task_list s)) s)
  | Free t => Some (l, set_allocated (allocated s ∖ {[t]}) s)
  | Tick =>
      let s := set_task self (set_turn (fun u => mkTurn (priority u) (slice_left u) (u64 (cpu_ticks u + 1)))) s in
      if is_idle (cpu_at c s) then Some (Slice :: l, s)
      else
        let s := set_cpu c add_busy s in
        let '(target, least) := least_loaded 0 (cpus s) (loads x) (Nat.eqb c) MAX_CPUS 0xFFFFFFFF in
        Some ((if (count (cpu_at c s) =? 0) || Nat.eqb target MAX_CPUS || (again x <=? u32 (least + 1)) then [] else [Hand target]) ++ Slice :: l, s)
  | Hand k =>
      if rq_busy k s then Some (l, s)
      else match rq_take c true s with
           | Some (t, s) => Some (Kick_cpu k :: l, rq_push k t s)
           | None => Some (l, s)
           end
  | Slice =>
      if negb (is_idle (cpu_at c s)) && is_state s self TASK_RUNNING && (1 <? slice_left (turn_of me)) then
        Some (l, set_task self (set_turn (fun u => mkTurn (priority u) (slice_left u - 1) (cpu_ticks u))) s)
      else Some (Schedule false :: l, s)
  | Await_reapable =>
      Some ((if existsb (reapable s self) (task_list s) then [] else [Sleep Reaper_channel 0 0 false true]) ++ Sched_unlock :: l, s)
  | End_others =>
      let p := proc me in
      if group_exit (procs s p) || negb (exec_tid (procs s p) =? 0) then Some (Sched_unlock :: l, s)
      else if 1 <? live (procs s p) then
        let s := set_process p (set_exec_tid (pid me)) s in Some (kill_other_threads s self ++ Await_alone :: l, s)
      else Some (Await_alone :: l, s)
  | Await_alone =>
      let p := proc me in
      if 1 <? live (procs s p) then Some (Sleep (Process_channel p) 0 0 false true :: Await_alone :: l, s)
      else
        let s := set_process p (set_exec_tid 0) s in
        let others := filter (fun t => t <> self) (threads s p) in
        Some ((match others with [] => [] | _ => [Wake Reaper_channel] end) ++ Sched_unlock :: l, fold_left (take_pid self p) others s)
  | New t p parent prio => Some (l, if bool_decide (t ∈ allocated s) then s else alloc_task t p parent prio s)
  | Add_thread t creator =>
      let p := proc (tasks s creator) in
      if negb (group_exit (procs s p)) && (exec_tid (procs s p) =? 0) && (kill_pending (fate_of (tasks s creator)) =? 0) && (live (procs s p) <? PROCESS_MAX_THREADS) then
        Some (Enqueue t :: l, set_process p (fun q => set_live (u32 (live q + 1)) q) (set_task t (fun u => set_fate (set_detached false) (set_proc p u)) s))
      else Some (l, s)
  | Futex_wake p addr n => Some (Futex_in p addr n (task_list s) :: l, s)
  | Futex_in p addr n [] => Some (l, s)
  | Futex_in p addr n (t :: ts) =>
      let u := tasks s t in
      if n <=? 0 then Some (l, s)
      else if negb (proc u =? p) || negb (futex_addr (waits_for u) =? addr) || exiting (fate_of u) || negb (kill_pending (fate_of u) =? 0) then
        Some (Futex_in p addr n ts :: l, s)
      else
        Some ((if is_state s t TASK_BLOCKED && bool_decide (wait_channel (waits_for u) = Futex_channel t) then [Wake_task t] else []) ++ Futex_in p addr (n - 1) ts :: l,
              set_task t (set_wait (fun w => mkWait (wait_channel w) (wake_tick w) (wake_ns w) 0)) s)
  | Wait_child want nohang untraced =>
      match wait_scan s self want untraced false (task_list s) with
      | Stopped_child t => Some (Sched_unlock :: l, set_process (proc (tasks s t)) (fun p => set_stopped (stop_signal p) true p) s)
      | Dead_child t => Some (Sched_unlock :: Free t :: l, set_list (remove t (task_list s)) s)
      | No_child => Some (Sched_unlock :: l, s)
      | No_news =>
          if nohang || sig_ready (fate_of me) then Some (Sched_unlock :: l, s)
          else Some (Sleep (Process_channel (proc me)) 0 0 true true :: Wait_child want nohang untraced :: l, s)
      end
  | Join tid =>
      match find_task s tid with
      | Some t =>
          if negb (proc (tasks s t) =? proc me) || leader s t then Some (Sched_unlock :: l, s)
          else if is_state s t TASK_ZOMBIE then Some (Sched_unlock :: Free t :: l, set_list (remove t (task_list s)) s)
          else if sig_ready (fate_of me) then Some (Sched_unlock :: l, s)
          else Some (Sleep (Process_channel (proc me)) 0 0 true true :: Join tid :: l, s)
      | None => Some (Sched_unlock :: l, s)
      end
  | Set_init t => Some (l, (if t =? 0 then fun s => s else set_task t (set_fate (set_detached true))) (set_init_task t s))
  | Make_unkillable t => Some (l, set_task t (set_fate (fun f => set_sig_ready false (set_stop 0 (set_kill 0 (set_exiting f))))) s)
  end.

(** * The system *)

(** The tasks an item concerns that are on their way. *)
Definition op_tasks (o : op) : list Z :=
  match o with
  | Place t _ | Push _ t | Wake_task t | Enqueue t | Add_thread t _ | Free t | Pick _ (Some t) | Switch _ t _ => [t]
  | _ => []
  end.
(** After [Switch] and before [Ctx_switch] the CPU is still on the old task's stack. *)
Definition left_behind (k : cpu) : list Z :=
  match todo k with
  | Ctx_switch :: _ => if release_sched k || (stack k =? idle k) then [stack k] else []
  | _ => []
  end.
(** The tasks a CPU runs, or will begin with, has waiting, or is busy with. *)
Definition cpu_tasks (k : cpu) : list Z :=
  (if online k then [current k] else [idle k]) ++ left_behind k ++ queue k ++ (if moving k =? 0 then [] else [moving k]) ++ concat (op_tasks <$> todo k).
Definition placed (s : sched) : list Z := concat (cpu_tasks <$> cpus s).

Definition idles (s : sched) : list Z := idle <$> cpus s.

(** A task that has been made and is known to nobody yet. *)
Definition is_new (s : sched) (t : Z) : Prop :=
  t ∈ allocated s /\ t ∉ task_list s /\ t ∉ placed s /\ t ∉ idles s /\ state (tasks s t) = TASK_READY /\ queued_on (tasks s t) = -1.

(** The functions of the scheduler, and who may call them: interrupt handlers run on any
    task, the idle tasks included; the others are called by tasks that may sleep. *)
Definition sched_yield : list op := [Schedule false].
Definition sched_idle_loop : list op := [Schedule false; Halt].
Definition sched_tick : list op := [Tick].
Definition sleep_on (ch : channel) (tick ns : Z) (interruptible : bool) : list op := [Sched_lock; Sleep ch tick ns interruptible false].
Definition sched_wakeup (ch : channel) : list op := [Sched_lock; Wake ch; Sched_unlock].
Definition sched_wake_sleepers (now_ticks now_ns : Z) (here : nat) (s : sched) : list op :=
  Sched_lock :: (if now_ns =? 0 then (fun k => Due k (timer_tick_to_ns now_ticks s)) <$> seq 0 MAX_CPUS else [Due here now_ns]) ++ [Sched_unlock].
Definition sched_add (t : Z) : list op := [Sched_lock; Enqueue t; Sched_unlock].
Definition sched_add_thread (t creator : Z) : list op := [Sched_lock; Add_thread t creator; Sched_unlock].
Definition task_alloc (t p parent prio : Z) : list op := [Sched_lock; New t p parent prio; Sched_unlock].
Definition task_free (t : Z) : list op := [Free t].
Definition task_set_affinity (t a : Z) : list op := [Sched_lock; Affinity t a; Sched_unlock].
Definition signal_send (t sig : Z) : list op := [Sched_lock; Signal t sig; Sched_unlock].
Definition sched_check_kill : list op := [Check_kill].
Definition sched_reap : list op := [Sched_lock; Reap].
Definition sched_wait_for_reapable : list op := [Sched_lock; Await_reapable].
Definition sched_end_other_threads : list op := [Sched_lock; End_others].
Definition sched_futex_wake (p addr n : Z) : list op := [Sched_lock; Futex_wake p addr n; Sched_unlock].
Definition sched_set_init (t : Z) : list op := [Sched_lock; Set_init t; Sched_unlock].
Definition sched_make_unkillable (t : Z) : list op := [Sched_lock; Make_unkillable t; Sched_unlock].
Definition process_wait_options (want : Z) (nohang untraced : bool) : list op := [Sched_lock; Wait_child want nohang untraced].
Definition process_thread_join (tid : Z) : list op := [Sched_lock; Join tid].

Inductive called (s : sched) (c : nat) : list op -> Prop :=
| call_idle : is_idle (cpu_at c s) = true -> called s c sched_idle_loop
| call_tick : called s c sched_tick
| call_wakeup ch : called s c (sched_wakeup ch)
| call_wake_sleepers now_ticks now_ns : called s c (sched_wake_sleepers now_ticks now_ns c s)
| call_signal t sig : called s c (signal_send t sig)
| call_futex_wake p addr n : called s c (sched_futex_wake p addr n)
| call_task l : is_idle (cpu_at c s) = false -> task_call s c l -> called s c l
with task_call (s : sched) (c : nat) : list op -> Prop :=
| call_yield : task_call s c sched_yield
| call_sleep ch tick ns interruptible : task_call s c (sleep_on ch tick ns interruptible)
| call_alloc t p : t <> 0 -> t ∉ idles s -> (forall u, u ∈ allocated s -> proc (tasks s u) <> p) ->
    task_call s c (task_alloc t p (p_pid (procs s (proc (tasks s (current (cpu_at c s)))))) (priority (turn_of (tasks s (current (cpu_at c s))))))
| call_add t : is_new s t -> task_call s c (sched_add t)
| call_add_thread t : is_new s t -> task_call s c (sched_add_thread t (current (cpu_at c s)))
| call_free t : is_new s t -> task_call s c (task_free t)
| call_affinity t a : t ∉ idles s -> task_call s c (task_set_affinity t a)
| call_check_kill : task_call s c sched_check_kill
| call_exit status whole : task_call s c (task_end status whole)
| call_reap : task_call s c sched_reap
| call_await : task_call s c sched_wait_for_reapable
| call_end_others : task_call s c sched_end_other_threads
| call_set_init t : task_call s c (sched_set_init t)
| call_unkillable t : task_call s c (sched_make_unkillable t)
| call_wait want nohang untraced : task_call s c (process_wait_options want nohang untraced)
| call_join tid : tid <> pid (tasks s (current (cpu_at c s))) -> task_call s c (process_thread_join tid).

(** [sched_join_this_cpu]. *)
Definition sched_join_this_cpu (k : cpu) : cpu := set_current (idle k) (set_online k).

Inductive step : sched -> sched -> Prop :=
| step_call s c l : online (cpu_at c s) = true -> todo (cpu_at c s) = [] -> called s c l -> step s (set_cpu c (set_todo l) s)
| step_run s c o l x l' s' : todo (cpu_at c s) = o :: l -> perform c o l x s = Some (l', s') -> step s (set_cpu c (set_todo l') s')
| step_interrupt s c : todo (cpu_at c s) = [Halt] -> step s (set_cpu c (set_todo []) s)
| step_ipi s c : todo (cpu_at c s) = [] -> step s (set_cpu c (set_ipi false) s)
| step_online s c : online (cpu_at c s) = false -> step s (set_cpu c sched_join_this_cpu s)
| step_signals s t b : step s (set_task t (set_fate (set_sig_ready b)) s)      (* signal.c *)
| step_priority s t p : step s (task_set_priority t p s).
