(* ===== verification/SchedInv.v ===== *)
(** What the scheduler keeps to: every task is in one place, with the state and the
    links that place asks for, and nobody but the holder of the scheduler lock is busy
    with tasks that do not run. *)
From stdpp Require Import base tactics numbers list sets gmap relations.
From Stdlib Require Import ZArith Lia.
From S2P Require Import Prelude Sched.

Open Scope Z_scope.

(** * Lists of things to do *)

(** Before an item the CPU holds no lock, the scheduler lock, or the scheduler lock with
    its task having said that it will not go on. *)
Inductive mode := Unlocked | Locked | Leaving.
#[export] Instance mode_eq : EqDecision mode.
Proof. solve_decision. Defined.

(** Items that follow at once from another, and only come first. *)
Definition prompt (o : op) : bool :=
  match o with
  | Push _ _ | Wake_task _ | Kick _ _ | Steal _ _ _ | Pick _ _ | Switch _ _ _ | Ctx_switch | Finish | Move_from _ _ => true
  | _ => false
  end.
(** Items that say nothing of any task, items that may end the stop of one, and items that
    may wait while another task runs. *)
Definition bare (o : op) : bool := match o with Affinity _ _ | New _ _ _ _ | Hand _ => false | _ => match op_tasks o with [] => true | _ => false end end.
Definition stirs (o : op) : bool := match o with Request_kill _ _ | Continue _ | Signal _ _ => true | _ => false end.
Definition plain (o : op) : bool := negb (prompt o) && negb (stirs o) && bare o.

(** What an item needs, what it leaves, and whether the task may sleep in it. *)
Definition needs (o : op) (m : mode) : bool :=
  match o with
  | Sched_lock | Halt | Woken _ | Check_kill | Tick | Hand _ | Slice | Kick_cpu _ | Free _ => bool_decide (m = Unlocked)
  | Sched_unlock | Sleep _ _ _ _ _ | Stop | Stop_if_pending | Exit_begin _ _ | Exit_leave _ | Exit_last _ _ | Reap | Await_reapable | End_others
  | Await_alone | Wait_child _ _ _ | Join _ | Due _ _ | Enqueue _ | Affinity _ _ | Move _ | Move_from _ _ | New _ _ _ _ | Add_thread _ _
  | Futex_wake _ _ _ | Futex_in _ _ _ _ | Set_init _ | Make_unkillable _ => bool_decide (m = Locked)
  | Schedule hold | Steal hold _ _ | Pick hold _ | Switch hold _ _ => bool_decide (m = if hold then Leaving else Unlocked)
  | Ctx_switch | Finish => bool_decide (m <> Leaving)
  | Wake _ | Wake_in _ _ | Wake_task _ | Interrupt _ | Request_kill _ _ | Request_stop _ _ | Continue _ | Signal _ _ => bool_decide (m <> Unlocked)
  | Place _ _ | Push _ _ | Kick _ _ => true
  end.
Definition leaves (o : op) (m : mode) : mode :=
  match o with
  | Sched_lock => Locked
  | Sleep _ _ _ _ mine => if mine then Locked else Unlocked
  | Sched_unlock | Schedule _ | Steal _ _ _ | Pick _ _ | Switch _ _ _ | Ctx_switch | Finish | Stop | Stop_if_pending | Exit_leave _ | Exit_last _ _
  | Reap | Await_reapable | End_others | Await_alone | Wait_child _ _ _ | Join _ => Unlocked
  | _ => m
  end.
Definition sleeps (o : op) : bool :=
  match o with
  | Schedule _ | Steal _ _ _ | Pick _ _ | Switch _ _ _ | Ctx_switch | Sleep _ _ _ _ _ | Woken _ | Stop | Stop_if_pending | Check_kill | Slice | Tick
  | Exit_leave _ | Exit_last _ _ | Await_reapable | End_others | Await_alone | Wait_child _ _ _ | Join _ => true
  | _ => false
  end.
(** What an idle task may have to do: nothing in which it would sleep for good or end. *)
Definition quiet (o : op) : bool :=
  match o with
  | Sleep _ _ _ _ _ | Woken _ | Stop | Stop_if_pending | Check_kill | Exit_leave _ | Exit_last _ _ | Await_reapable | End_others | Await_alone
  | Wait_child _ _ _ | Join _ => false
  | _ => true
  end.
Fixpoint typed (m : mode) (l : list op) : bool :=
  match l with
  | [] => bool_decide (m = Unlocked)
  | o :: l' => needs o m && negb (existsb prompt l') && (negb (sleeps o) || forallb plain l') && typed (leaves o m) l'
  end.

(** The current task has said that it will not go on. *)
Definition leaving (l : list op) : bool :=
  existsb (fun o => match o with Schedule true | Steal true _ _ | Pick true _ | Switch true _ _ => true | _ => false end) l.
Definition switching (l : list op) : bool := match l with (Ctx_switch | Finish) :: _ => true | _ => false end.
Definition mode_of (k : cpu) : mode := if leaving (todo k) then Leaving else if sched_held k then Locked else Unlocked.

Lemma typed_leaving m l : typed m l = true -> leaving l = bool_decide (m = Leaving).
Proof.
  revert m. induction l as [|o l IH]; intros m; [by destruct m|]. cbn [typed leaving existsb]. intros [[[Hn _]%andb_true_iff _]%andb_true_iff Ht]%andb_true_iff.
  fold (leaving l). rewrite (IH _ Ht). destruct o; cbn in *; try (by destruct m); try (by destruct hold, m); try (by destruct mine, m).
Qed.

Lemma typed_holding (r : bool) m l : typed m l = true -> (switching l = true -> m = if r then Locked else Unlocked) -> holding r l = negb (bool_decide (m = Unlocked)).
Proof.
  revert m. induction l as [|o l IH]; intros m; [by destruct m|]. cbn [typed].
  intros [[[Hn Hp]%andb_true_iff _]%andb_true_iff Ht]%andb_true_iff Hs.
  assert (switching l = false) as Hl by (destruct l as [|[]]; done).
  specialize (IH _ Ht ltac:(by rewrite Hl)).
  destruct o; cbn in *; try (by destruct m); try (by destruct hold, m); try (by destruct mine, m); try (by rewrite IH; destruct m); by rewrite (Hs eq_refl); destruct r.
Qed.

(** * The invariant *)

Definition asleep (st : task_state_t) : Prop := st = TASK_BLOCKED \/ st = TASK_STOPPED.
Definition out (st : task_state_t) : Prop := asleep st \/ st = TASK_ZOMBIE.

Definition in_schedule (l : list op) : bool :=
  match l with (Schedule _ | Steal _ _ _ | Pick _ _ | Switch _ _ _) :: _ => true | _ => false end.

(** On the list, to run, in no queue. *)
Definition runnable (s : sched) (t : Z) : Prop := t ∈ task_list s /\ state (tasks s t) = TASK_READY /\ queued_on (tasks s t) = -1.
(** On the list and asleep. *)
Definition dormant (s : sched) (t : Z) : Prop := t ∈ task_list s /\ asleep (state (tasks s t)) /\ queued_on (tasks s t) = -1.
(** Made and not on the list, or no longer. *)
Definition unlisted (s : sched) (t : Z) : Prop :=
  t ∉ task_list s /\ t ∈ allocated s /\ t ∉ idles s /\ queued_on (tasks s t) = -1.

Definition is_online (s : sched) (k : nat) : Prop := online (cpu_at k s) = true.

(** What a task that does not run has left to do. *)
Definition resumable (s : sched) (t : Z) (l : list op) : Prop :=
  typed Unlocked l = true /\ forallb plain l = true /\ (t ∈ idles s -> forallb quiet l = true).
(** A task that stops does not wake itself. *)
Definition away (s : sched) (t : Z) (o : op) : Prop :=
  match o with
  | Request_kill u _ | Continue u => u <> t
  | Signal u _ => proc (tasks s u) <> proc (tasks s t)
  | _ => True
  end.

(** What an item says of the task it concerns; [h]: the scheduler lock is held. *)
Definition item_ok (s : sched) (k : cpu) (h : bool) (o : op) : Prop :=
  match o with
  | Place t _ => runnable s t \/ (h = true /\ dormant s t)
  | Push j t => is_online s j /\ (runnable s t \/ (h = true /\ dormant s t))
  | Wake_task t => h = true /\ dormant s t
  | Pick _ (Some t) => runnable s t
  | Switch _ t _ => runnable s t \/ (t = idle k /\ t <> current k)
  | Enqueue t | Add_thread t _ => unlisted s t /\ state (tasks s t) = TASK_READY
  | Affinity t _ => t ∉ idles s
  | New t _ _ _ => t <> 0
  | Hand j => is_online s j
  | Free t => unlisted s t /\ (state (tasks s t) = TASK_READY \/ state (tasks s t) = TASK_ZOMBIE)
  | _ => True
  end.

Record cpu_ok (s : sched) (c : nat) (k : cpu) : Prop := {
  ok_offline : online k = false -> todo k = [] /\ queue k = [] /\ moving k = 0 /\ stack k = idle k /\ release_sched k = false /\ state (tasks s (idle k)) = TASK_RUNNING;
  ok_typed : typed (mode_of k) (todo k) = true;
  ok_current : online k = true -> (current k = idle k \/ current k ∈ task_list s) /\ queued_on (tasks s (current k)) = -1;
  ok_running : online k = true -> mode_of k <> Leaving -> state (tasks s (current k)) = TASK_RUNNING;
  ok_leaving : mode_of k = Leaving -> out (state (tasks s (current k))) /\ current k <> idle k /\
    (state (tasks s (current k)) = TASK_BLOCKED -> in_schedule (todo k) = true);
  ok_away : mode_of k = Leaving -> state (tasks s (current k)) = TASK_STOPPED -> Forall (away s (current k)) (todo k);
  ok_quiet : stack k = idle k -> forallb quiet (todo k) = true;
  ok_queue : forall t, t ∈ queue k -> t ∈ task_list s /\ state (tasks s t) = TASK_READY /\ queued_on (tasks s t) = Z.of_nat c;
  ok_count : count k = u32 (Z.of_nat (length (queue k)));
  ok_moving : moving k <> 0 -> switching (todo k) = true /\ runnable s (moving k);
  ok_release : release_sched k = true -> switching (todo k) = true;
  ok_stack : online k = true -> match todo k with
    | Ctx_switch :: _ => stack k <> current k /\
        (stack k ∈ queue k \/ (stack k = moving k /\ moving k <> 0) \/ stack k = idle k \/
         (release_sched k = true /\ stack k ∈ task_list s /\ out (state (tasks s (stack k))) /\ queued_on (tasks s (stack k)) = -1))
    | _ => stack k = current k
    end;
  ok_head : match todo k with [] => True | o :: l => item_ok s k (sched_held k) o /\ Forall (item_ok s k false) l end
}.

(** [X]: tasks that are between two places. *)
Record inv (X : list Z) (s : sched) : Prop := {
  iv_length : length (cpus s) = MAX_CPUS;
  iv_nodup : NoDup (X ++ placed s);
  iv_between : forall t, t ∈ X -> t ∈ task_list s /\ queued_on (tasks s t) = -1;
  iv_lock : forall i j, sched_held (cpu_at i s) = true -> sched_held (cpu_at j s) = true -> i = j;
  iv_cpus : forall c k, cpus s !! c = Some k -> cpu_ok s c k;
  iv_boot : is_online s 0;
  iv_idles : NoDup (idles s) /\ forall c k, cpus s !! c = Some k -> idle k <> 0 /\ idle k ∈ allocated s /\ idle k ∉ task_list s /\
    affinity (tasks s (idle k)) = Z.of_nat c /\ queued_on (tasks s (idle k)) = -1;
  iv_list : NoDup (task_list s) /\ forall t, t ∈ task_list s -> t ∈ allocated s;
  iv_alloc : 0 ∉ allocated s;
  iv_lost : forall t, t ∈ task_list s -> state (tasks s t) = TASK_READY \/ state (tasks s t) = TASK_RUNNING -> t ∈ X ++ placed s;
  iv_unlisted : forall t, asleep (state (tasks s t)) -> t ∈ task_list s;
  iv_queued : forall t, queued_on (tasks s t) <> -1 -> exists j, queued_on (tasks s t) = Z.of_nat j /\ t ∈ queue (cpu_at j s);
  iv_affinity : forall t, t ∉ idles s -> affinity (tasks s t) <> TASK_ANY_CPU -> 0 <= affinity (tasks s t) /\ is_online s (Z.to_nat (affinity (tasks s t)));
  iv_rest : forall t, resumable s t (rest (tasks s t))
}.

Lemma queued_in X s t j : inv X s -> queued_on (tasks s t) = Z.of_nat j -> t ∈ queue (cpu_at j s).
Proof. intros Hi E. destruct (iv_queued X s Hi t) as (i&E'&Hin); [lia|]. by assert (j = i) as -> by lia. Qed.

(** * Changing one CPU *)

Lemma alter_insert {A} (f : A -> A) (l : list A) i x : l !! i = Some x -> alter f i l = <[i := f x]> l.
Proof.
  intros Hx. apply list_eq. intros j. destruct (decide (i = j)) as [<-|Hn].
  - rewrite list_lookup_alter_eq, Hx, list_lookup_insert_eq by (by eapply lookup_lt_Some). done.
  - by rewrite list_lookup_alter_ne, list_lookup_insert_ne by done.
Qed.

Lemma concat_insert {A B} (f : A -> list B) (l : list A) i x y : l !! i = Some x ->
  f x ++ concat (f <$> <[i := y]> l) ≡ₚ f y ++ concat (f <$> l).
Proof.
  revert i. induction l as [|a l IH]; intros [|i]; cbn; [done..| |].
  - intros [= ->]. rewrite !app_assoc. f_equiv. apply Permutation_app_comm.
  - intros Hi. specialize (IH i Hi). rewrite !(Permutation_app_swap_app _ (f a)). by rewrite IH.
Qed.

Lemma placed_change s s' c k k' : cpus s !! c = Some k -> cpus s' = <[c := k']> (cpus s) ->
  cpu_tasks k ++ placed s' ≡ₚ cpu_tasks k' ++ placed s.
Proof. intros Hk E. unfold placed. rewrite E. by apply concat_insert. Qed.

(** Tasks are added to a CPU, taken from it, or stay with it. *)
Lemma placed_more s s' c k k' ts : cpus s !! c = Some k -> cpus s' = <[c := k']> (cpus s) -> cpu_tasks k' ≡ₚ ts ++ cpu_tasks k -> placed s' ≡ₚ ts ++ placed s.
Proof.
  intros Hk E Hp. pose proof (placed_change s s' c k k' Hk E) as H. rewrite Hp in H. apply (Permutation_app_inv_l (cpu_tasks k)).
  rewrite H. rewrite <- !app_assoc. apply Permutation_app_swap_app.
Qed.
Lemma placed_less s s' c k k' ts : cpus s !! c = Some k -> cpus s' = <[c := k']> (cpus s) -> cpu_tasks k ≡ₚ ts ++ cpu_tasks k' -> placed s ≡ₚ ts ++ placed s'.
Proof.
  intros Hk E Hp. pose proof (placed_change s s' c k k' Hk E) as H. rewrite Hp in H. apply (Permutation_app_inv_l (cpu_tasks k')).
  rewrite <- H. rewrite <- !app_assoc. apply Permutation_app_swap_app.
Qed.
Lemma placed_same s s' c k k' : cpus s !! c = Some k -> cpus s' = <[c := k']> (cpus s) -> cpu_tasks k' ≡ₚ cpu_tasks k -> placed s' ≡ₚ placed s.
Proof. intros Hk E Hp. by apply (placed_more s s' c k k' []). Qed.

Lemma fmap_elem s c k : cpus s !! c = Some k -> cpu_tasks k ∈ cpu_tasks <$> cpus s.
Proof. intros Hc. apply list_elem_of_fmap. exists k. split; [done|]. by eapply list_elem_of_lookup_2. Qed.
Lemma placed_elem s t : t ∈ placed s <-> exists c k, cpus s !! c = Some k /\ t ∈ cpu_tasks k.
Proof.
  unfold placed. rewrite elem_of_concat. split.
  - intros (l&Ht&Hl). apply list_elem_of_fmap in Hl as (k&->&Hk). apply list_elem_of_lookup in Hk as [c Hc]. by exists c, k.
  - intros (c&k&Hc&Ht). exists (cpu_tasks k). split; [done|by eapply fmap_elem].
Qed.

(** A task is with one CPU only. *)
Lemma concat_once {A B} (f : A -> list B) (l : list A) c c' k k' t : NoDup (concat (f <$> l)) -> l !! c = Some k -> l !! c' = Some k' ->
  t ∈ f k -> t ∈ f k' -> c = c'.
Proof.
  assert (forall l c k, l !! c = Some k -> t ∈ f k -> t ∈ concat (f <$> l)) as Hin.
  { intros l0 c0 k0 Hk Ht. apply elem_of_concat. exists (f k0). split; [done|]. apply list_elem_of_fmap. exists k0. split; [done|]. by eapply list_elem_of_lookup_2. }
  revert c c'. induction l as [|a l IH]; intros [|c] [|c']; cbn; try done; intros (_&Hd&Hn)%NoDup_app Hk Hk' Ht Ht'.
  - injection Hk as ->. destruct (Hd t Ht). by eapply Hin.
  - injection Hk' as ->. destruct (Hd t Ht'). by eapply Hin.
  - f_equal. by eapply IH.
Qed.
Lemma placed_once s c c' k k' t : NoDup (placed s) -> cpus s !! c = Some k -> cpus s !! c' = Some k' -> t ∈ cpu_tasks k -> t ∈ cpu_tasks k' -> c = c'.
Proof. apply concat_once. Qed.

Lemma cpu_at_some s c k : cpus s !! c = Some k -> cpu_at c s = k.
Proof. unfold cpu_at. by intros ->. Qed.
Lemma cpu_at_todo s c : todo (cpu_at c s) <> [] -> cpus s !! c = Some (cpu_at c s).
Proof. unfold cpu_at. by destruct (cpus s !! c). Qed.
Lemma cpu_at_online s c : is_online s c -> cpus s !! c = Some (cpu_at c s).
Proof. unfold is_online, cpu_at. by destruct (cpus s !! c). Qed.

(** * Frames *)

Record same_core (k k' : cpu) : Prop := {
  sc_current : current k' = current k; sc_idle : idle k' = idle k; sc_online : online k' = online k; sc_stack : stack k' = stack k;
  sc_queue : queue k' = queue k; sc_count : count k' = count k; sc_release : release_sched k' = release_sched k;
  sc_moving : moving k' = moving k; sc_todo : todo k' = todo k
}.
Lemma same_core_refl k : same_core k k.
Proof. by split. Qed.
Lemma same_core_trans k k' k'' : same_core k k' -> same_core k' k'' -> same_core k k''.
Proof. intros [] []. split; congruence. Qed.

Lemma same_core_tasks k k' : same_core k k' -> cpu_tasks k' = cpu_tasks k.
Proof. intros [E1 E2 E3 E4 E5 E6 E7 E8 E9]. unfold cpu_tasks, left_behind. by rewrite E1, E2, E3, E4, E5, E7, E8, E9. Qed.
Lemma same_core_held k k' : same_core k k' -> sched_held k' = sched_held k.
Proof. intros []. unfold sched_held. congruence. Qed.
Lemma same_core_mode k k' : same_core k k' -> mode_of k' = mode_of k.
Proof. intros H. unfold mode_of. rewrite (same_core_held k k' H). by destruct H as [_ _ _ _ _ _ _ _ ->]. Qed.

(** What a CPU relies on of a task it has. *)
Record same_view (s s' : sched) (t : Z) : Prop := {
  sv_state : state (tasks s' t) = state (tasks s t);
  sv_queued : queued_on (tasks s' t) = queued_on (tasks s t);
  sv_list : t ∈ task_list s' <-> t ∈ task_list s;
  sv_alloc : t ∈ allocated s -> t ∈ allocated s'
}.

Lemma runnable_frame s s' t : same_view s s' t -> runnable s t -> runnable s' t.
Proof. intros [V1 V2 V3 V4]. unfold runnable. rewrite V1, V2, V3. done. Qed.
Lemma dormant_frame s s' t : same_view s s' t -> dormant s t -> dormant s' t.
Proof. intros [V1 V2 V3 V4]. unfold dormant. rewrite V1, V2, V3. done. Qed.
Lemma unlisted_frame s s' t : idles s' = idles s -> same_view s s' t -> unlisted s t -> unlisted s' t.
Proof. intros E [V1 V2 V3 V4]. unfold unlisted. rewrite V2, V3, E. naive_solver. Qed.

Lemma item_frame s s' k k' h o : item_ok s k h o -> idle k' = idle k -> current k' = current k -> (forall t, t ∈ op_tasks o -> same_view s s' t) -> idles s' = idles s ->
  (forall j, is_online s j -> is_online s' j) -> item_ok s' k' h o.
Proof.
  intros Ho Ei Ec Hv Hi Hon. assert (forall t, t ∈ op_tasks o -> state (tasks s' t) = state (tasks s t)) as Hs by (intros t Ht; apply (Hv t Ht)).
  destruct o; cbn in *; try done.
  - assert (same_view s s' t) by (apply Hv; constructor). destruct Ho as [?|[? ?]]; [left; by eapply runnable_frame|right; split; [done|by eapply dormant_frame]].
  - assert (same_view s s' t) by (apply Hv; constructor). destruct Ho as [? Ho]. split; [by apply Hon|].
    destruct Ho as [?|[? ?]]; [left; by eapply runnable_frame|right; split; [done|by eapply dormant_frame]].
  - destruct next as [t|]; [|done]. eapply runnable_frame; [|done]. apply Hv. constructor.
  - assert (same_view s s' next) by (apply Hv; constructor). destruct Ho as [?|[? ?]]; [left; by eapply runnable_frame|right]. split; congruence.
  - assert (same_view s s' t) by (apply Hv; constructor). destruct Ho. split; [done|by eapply dormant_frame].
  - assert (same_view s s' t) by (apply Hv; constructor). destruct Ho. split; [by eapply unlisted_frame|rewrite Hs; [done|constructor]].
  - by rewrite Hi.
  - assert (same_view s s' t) by (apply Hv; constructor). destruct Ho. split; [by eapply unlisted_frame|rewrite Hs; [done|constructor]].
  - by apply Hon.
  - assert (same_view s s' t) by (apply Hv; constructor). destruct Ho. split; [by eapply unlisted_frame|rewrite Hs; [done|constructor]].
Qed.

Lemma in_current k : online k = true -> current k ∈ cpu_tasks k.
Proof. intros Ho. unfold cpu_tasks. rewrite Ho. by left. Qed.
Lemma in_idle k : online k = false -> idle k ∈ cpu_tasks k.
Proof. intros Ho. unfold cpu_tasks. rewrite Ho. by left. Qed.
Lemma in_left k t : t ∈ left_behind k -> t ∈ cpu_tasks k.
Proof. intros Ht. unfold cpu_tasks. rewrite !elem_of_app. tauto. Qed.
Lemma in_queue k t : t ∈ queue k -> t ∈ cpu_tasks k.
Proof. intros Ht. unfold cpu_tasks. rewrite !elem_of_app. tauto. Qed.
Lemma in_moving k : moving k <> 0 -> moving k ∈ cpu_tasks k.
Proof. intros Ht. unfold cpu_tasks. rewrite !elem_of_app. apply Z.eqb_neq in Ht. rewrite Ht, list_elem_of_singleton. tauto. Qed.
Lemma in_items k t o : o ∈ todo k -> t ∈ op_tasks o -> t ∈ cpu_tasks k.
Proof.
  intros Ho Ht. unfold cpu_tasks. rewrite !elem_of_app. do 4 right. apply elem_of_concat. exists (op_tasks o).
  split; [done|]. apply list_elem_of_fmap. by exists o.
Qed.

Lemma away_frame s s' t l : (forall x, proc (tasks s' x) = proc (tasks s x)) -> Forall (away s t) l -> Forall (away s' t) l.
Proof. intros Hp Hl. eapply Forall_impl; [exact Hl|]. intros o. destruct o; cbn; rewrite ?Hp; done. Qed.

Lemma cpu_frame s s' c k k' : cpu_ok s c k -> same_core k k' -> (forall t, t ∈ cpu_tasks k -> same_view s s' t) -> idles s' = idles s ->
  (forall j, is_online s j -> is_online s' j) -> (mode_of k = Leaving -> forall t, proc (tasks s' t) = proc (tasks s t)) -> cpu_ok s' c k'.
Proof.
  intros Hk Hc Hv Hi Hon Hpr. pose proof (same_core_mode k k' Hc) as Hm. pose proof (same_core_held k k' Hc) as Hh.
  assert (online k = true -> same_view s s' (current k)) as Hcur by (intros; by apply Hv, in_current).
  destruct Hk as [O1 O2 O3 O4 O5 Oa Oq O6 O7 O8 O9 O10 O11]. destruct Hc as [E1 E2 E3 E4 E5 E6 E7 E8 E9].
  assert (mode_of k = Leaving -> online k = true) as Hlv.
  { intros H. destruct (online k) eqn:E; [done|]. destruct (O1 eq_refl) as [H0 _]. unfold mode_of in H. rewrite H0 in H. cbn in H. by destruct (sched_held k). }
  split; rewrite ?Hm, ?Hh, ?E1, ?E2, ?E3, ?E4, ?E5, ?E6, ?E7, ?E8, ?E9; try done.
  - intros Ho. destruct (O1 Ho) as (?&?&?&?&?&?). by rewrite (sv_state s s' (idle k)) by (by apply Hv, in_idle).
  - intros Ho. destruct (Hcur Ho) as [V1 V2 V3 V4]. rewrite V2, V3. by apply O3.
  - intros Ho Hl. rewrite (sv_state _ _ _ (Hcur Ho)). by apply O4.
  - intros Hl. rewrite (sv_state _ _ _ (Hcur (Hlv Hl))). by apply O5.
  - intros Hl. rewrite (sv_state _ _ _ (Hcur (Hlv Hl))). intros Hst. apply (away_frame s); auto.
  - intros t Ht. destruct (Hv t (in_queue k t Ht)) as [V1 V2 V3 V4]. rewrite V1, V2, V3. by apply O6.
  - intros Hn. destruct (O8 Hn) as [? ?]. split; [done|]. eapply runnable_frame; [|done]. by apply Hv, in_moving.
  - intros Ho. specialize (O10 Ho). destruct (todo k) as [|[] l] eqn:El; try done.
    destruct O10 as (Hn&Hs). split; [done|]. destruct Hs as [|[|[|(Hr&H1&H2&H3)]]]; [tauto..|]. do 3 right.
    destruct (Hv (stack k)) as [V1 V2 V3 V4]; [apply in_left; unfold left_behind; rewrite El, Hr; by left|]. rewrite V1, V2, V3. done.
  - assert (forall o, o ∈ todo k -> forall t, t ∈ op_tasks o -> same_view s s' t) as Ht by (intros o Ho t Hin; by eapply Hv, in_items).
    destruct (todo k) as [|o l] eqn:El; [done|]. destruct O11 as [H1 H2]. split.
    + apply (item_frame s s' k k' _ o H1 E2 E1); [|done..]. apply Ht. by left.
    + apply Forall_forall. intros o' Ho'. rewrite Forall_forall in H2.
      apply (item_frame s s' k k' false o' (H2 o' Ho') E2 E1); [|done..]. apply Ht. by right.
Qed.

(** A task keeps to its CPUs, or is told of others that exist. *)
Definition rebound (s s' : sched) (t : Z) : Prop :=
  affinity (tasks s' t) = affinity (tasks s t) \/
  t ∉ idles s /\ (affinity (tasks s' t) <> TASK_ANY_CPU -> 0 <= affinity (tasks s' t) /\ is_online s (Z.to_nat (affinity (tasks s' t)))).

(** The next state, when the list of tasks and the idle tasks are the same: what has to be
    shown of it. *)
Record change (s s' : sched) : Prop := {
  cg_length : length (cpus s') = length (cpus s);
  cg_idles : idles s' = idles s;
  cg_online : forall j, is_online s j -> is_online s' j;
  cg_list : task_list s' = task_list s;
  cg_alloc : allocated s ⊆ allocated s' /\ (0 ∈ allocated s' -> 0 ∈ allocated s);
  cg_affinity : forall t, rebound s s' t;
  cg_rest : forall t, rest (tasks s' t) = rest (tasks s t) \/ resumable s t (rest (tasks s' t));
  cg_proc : forall t c, mode_of (cpu_at c s) = Leaving -> proc (tasks s' t) = proc (tasks s t);
  cg_unlisted : forall t, t ∉ task_list s -> queued_on (tasks s' t) = queued_on (tasks s t) /\ (asleep (state (tasks s' t)) -> asleep (state (tasks s t)))
}.

Lemma inv_change X X' s s' : inv X s -> change s s' -> NoDup (X' ++ placed s') ->
  (forall t, t ∈ X' -> t ∈ task_list s /\ queued_on (tasks s' t) = -1) ->
  (forall i j, sched_held (cpu_at i s') = true -> sched_held (cpu_at j s') = true -> i = j) ->
  (forall c k, cpus s' !! c = Some k -> cpu_ok s' c k) ->
  (forall t, t ∈ task_list s -> state (tasks s' t) = TASK_READY \/ state (tasks s' t) = TASK_RUNNING -> t ∈ X' ++ placed s') ->
  (forall t, queued_on (tasks s' t) <> -1 -> exists j, queued_on (tasks s' t) = Z.of_nat j /\ t ∈ queue (cpu_at j s')) -> inv X' s'.
Proof.
  intros [I1 I2 I2' I3 I4 I5 [I6 I6'] [I7 I7'] I8 I9 I10 I11 I12 I13] [C1 C2 C3 C4 [C5 C5'] C6 C6r Cp C7] Hn Hx Hl Hc Hp Hq. split; rewrite ?C4; try done.
  - congruence.
  - by apply C3.
  - split; [by rewrite C2|]. intros c k Hk. assert (exists k0, cpus s !! c = Some k0 /\ idle k0 = idle k) as (k0&Hk0&E).
    { assert (idles s' !! c = Some (idle k)) as E by (unfold idles; by rewrite list_lookup_fmap, Hk). rewrite C2 in E. unfold idles in E.
      rewrite list_lookup_fmap in E. destruct (cpus s !! c) as [k0|]; [|done]. exists k0. split; [done|]. by injection E. }
    rewrite <- E. destruct (I6' c k0 Hk0) as (H1&H2&H3&H4&H5). split; [done|]. split; [by apply C5|]. split; [done|]. rewrite (proj1 (C7 _ H3)). split; [|done].
    destruct (C6 (idle k0)) as [->|[Hno _]]; [done|]. destruct Hno. apply list_elem_of_fmap. exists k0. split; [done|]. by eapply list_elem_of_lookup_2.
  - split; [done|]. intros t Ht. by apply C5, I7'.
  - tauto.
  - intros t Ht. destruct (decide (t ∈ task_list s)) as [|Hno]; [done|]. destruct (C7 t Hno) as [_ Ha]. by apply I10, Ha.
  - intros t Hid Ha. rewrite C2 in Hid. destruct (C6 t) as [E|[_ E]]; [rewrite E in *; destruct (I12 t Hid Ha)|destruct (E Ha)]; split; auto.
  - intros t. unfold resumable in *. rewrite C2. destruct (C6r t) as [->|]; [apply I13|done].
Qed.

(** * Changes that do not matter here *)

Record inert (s s' : sched) : Prop := {
  it_cpus : Forall2 same_core (cpus s) (cpus s');
  it_tasks : forall t, state (tasks s' t) = state (tasks s t) /\ queued_on (tasks s' t) = queued_on (tasks s t) /\
    affinity (tasks s' t) = affinity (tasks s t) /\ rest (tasks s' t) = rest (tasks s t);
  it_proc : forall t c, mode_of (cpu_at c s) = Leaving -> proc (tasks s' t) = proc (tasks s t);
  it_list : task_list s' = task_list s;
  it_alloc : allocated s' = allocated s
}.

Lemma inert_cpu s s' c : inert s s' -> same_core (cpu_at c s) (cpu_at c s').
Proof.
  intros H. unfold cpu_at. pose proof (Forall2_lookup_lr same_core (cpus s) (cpus s') c) as Hl. pose proof (Forall2_length _ _ _ (it_cpus s s' H)) as Hn.
  destruct (cpus s !! c) as [k|] eqn:E.
  - destruct (lookup_lt_is_Some_2 (cpus s') c) as [k' E']; [rewrite <- Hn; by eapply lookup_lt_Some|]. rewrite E'. by apply (Hl k k' (it_cpus s s' H)).
  - apply lookup_ge_None in E. rewrite (proj2 (lookup_ge_None (cpus s') c)) by lia. apply same_core_refl.
Qed.
Lemma inert_lookup s s' c k' : inert s s' -> cpus s' !! c = Some k' -> exists k, cpus s !! c = Some k /\ same_core k k'.
Proof. intros H Hk. pose proof (Forall2_lookup_r _ _ _ _ _ (it_cpus s s' H) Hk). naive_solver. Qed.

Lemma inert_map {A} (f : cpu -> A) s s' : inert s s' -> (forall k k', same_core k k' -> f k' = f k) -> f <$> cpus s' = f <$> cpus s.
Proof. intros H Hf. pose proof (it_cpus s s' H) as Hc. induction Hc; cbn; [done|]. f_equal; [by apply Hf|done]. Qed.
Lemma inert_placed s s' : inert s s' -> placed s' = placed s.
Proof. intros H. unfold placed. f_equal. apply inert_map; [done|]. apply same_core_tasks. Qed.
Lemma inert_idles s s' : inert s s' -> idles s' = idles s.
Proof. intros H. apply inert_map; [done|]. by intros k k' []. Qed.

Lemma inert_view s s' t : inert s s' -> same_view s s' t.
Proof. intros [I1 I2 _ I3 I4]. destruct (I2 t) as (E1&E2&_). split; [done|done|by rewrite I3|by rewrite I4]. Qed.

Lemma inert_refl s : inert s s.
Proof. split; try done. apply Forall2_same_length_lookup_2; [done|]. intros i x y Hx Hy. replace y with x by congruence. apply same_core_refl. Qed.
Lemma inert_trans s s' s'' : inert s s' -> inert s' s'' -> inert s s''.
Proof.
  intros HA. pose proof (fun c => same_core_mode _ _ (inert_cpu s s' c HA)) as Hm. destruct HA as [A1 A2 A3 A4 A5]. intros [B1 B2 B3 B4 B5].
  split; [|intros t; destruct (A2 t) as (?&?&?&?), (B2 t) as (?&?&?&?); repeat split; congruence| |congruence..].
  - revert B1. generalize (cpus s''). induction A1 as [|k k' l l' Hk Hl IH]; intros l'' HB; inversion HB; subst; [constructor|]. constructor; [by eapply same_core_trans|].
    apply IH; try done.
  - intros t c Hc. rewrite (B3 t c) by (by rewrite Hm). by apply (A3 t c).
Qed.

Lemma inert_change s s' : inert s s' -> change s s'.
Proof.
  intros H. split; [by rewrite (Forall2_length _ _ _ (it_cpus s s' H))|by apply inert_idles| |apply H|by rewrite (it_alloc s s' H)| | |apply H|].
  - intros j. unfold is_online. by rewrite (sc_online _ _ (inert_cpu s s' j H)).
  - intros t. left. by destruct (it_tasks s s' H t) as (_&_&?&?).
  - intros t. left. by destruct (it_tasks s s' H t) as (_&_&?&?).
  - intros t _. destruct (it_tasks s s' H t) as (E1&E2&_). by rewrite E1, E2.
Qed.

(** Everything about a CPU that is not touched. *)
Lemma others_ok X s s' j k k' : inv X s -> change s s' -> (forall t, t ∈ cpu_tasks k -> same_view s s' t) -> cpus s !! j = Some k -> same_core k k' -> cpu_ok s' j k'.
Proof.
  intros Hi Hc Hv Hk Hs. apply (cpu_frame s s' j k k'); [by apply (iv_cpus X s Hi)|done|done|apply (cg_idles _ _ Hc)|apply (cg_online _ _ Hc)|].
  intros Hl t. apply (cg_proc _ _ Hc t j). by rewrite (cpu_at_some s j k Hk).
Qed.

Lemma inv_inert X s s' : inv X s -> inert s s' -> inv X s'.
Proof.
  intros Hi H. pose proof (inert_change s s' H) as Hc. apply (inv_change X X s); [done|done|..].
  - rewrite (inert_placed s s' H). apply Hi.
  - intros t Ht. destruct (it_tasks s s' H t) as (_&->&_). by apply (iv_between X s Hi).
  - intros i j. rewrite !(same_core_held _ _ (inert_cpu s s' _ H)). apply Hi.
  - intros c k' Hk'. destruct (inert_lookup s s' c k' H Hk') as (k&Hk&Hs). apply (others_ok X s s' c k k'); [done|done| |done|done]. intros t _. by apply inert_view.
  - intros t Ht. destruct (it_tasks s s' H t) as (->&_). rewrite (inert_placed s s' H). by apply (iv_lost X s Hi).
  - intros t. destruct (it_tasks s s' H t) as (_&->&_). intros Hq. destruct (iv_queued X s Hi t Hq) as (j&?&?). exists j. by rewrite (sc_queue _ _ (inert_cpu s s' j H)).
Qed.

Lemma inert_set_cpu c f s : (forall k, same_core k (f k)) -> inert s (set_cpu c f s).
Proof.
  intros Hf. split; try done. cbn. apply Forall2_same_length_lookup_2; [by rewrite length_alter|]. intros i k k' Hk Hk'.
  destruct (decide (c = i)) as [<-|Hn].
  - rewrite list_lookup_alter_eq, Hk in Hk'. injection Hk' as <-. apply Hf.
  - rewrite list_lookup_alter_ne in Hk' by done. replace k' with k by congruence. apply same_core_refl.
Qed.
Lemma inert_set_task t f s : (forall u, (state (f u) = state u /\ queued_on (f u) = queued_on u /\ affinity (f u) = affinity u /\ rest (f u) = rest u) /\ proc (f u) = proc u) -> inert s (set_task t f s).
Proof. intros Hf. split; try done; [apply (it_cpus s s), inert_refl|..]; intros x; cbn; destruct (x =? t); try done; intros; apply Hf. Qed.
Lemma inert_set_process p f s : inert s (set_process p f s).
Proof. split; try done. apply (it_cpus s s), inert_refl. Qed.
Lemma inert_set_init t s : inert s (set_init_task t s).
Proof. split; try done. apply (it_cpus s s), inert_refl. Qed.

Create HintDb sched.
#[export] Hint Resolve inert_refl inert_set_process inert_set_init : sched.
#[export] Hint Extern 1 (inert _ (set_cpu _ _ _)) => apply inert_set_cpu; intros ?; by split : sched.
#[export] Hint Extern 1 (inert _ (set_task _ _ _)) => apply inert_set_task; by intros ? : sched.

Lemma inert_kick here i s : inert s (kick_cpu here i s).
Proof. unfold kick_cpu. destruct (_ || _); auto with sched. Qed.
Lemma inert_kick_idle here s : inert s (kick_an_idle_cpu here s).
Proof. unfold kick_an_idle_cpu. destruct (first_idle _ _ _); [apply inert_kick|apply inert_refl]. Qed.
Lemma inert_sleeper_remove t s : inert s (sleeper_remove t s).
Proof. unfold sleeper_remove. destruct (_ <? 0); [apply inert_refl|]. eapply inert_trans; [|apply inert_set_task; by intros ?]. auto with sched. Qed.
Lemma inert_end_wait t s : inert s (end_wait t s).
Proof. unfold end_wait. eapply inert_trans; [|apply inert_set_task; by intros ?]. apply inert_sleeper_remove. Qed.
Lemma inert_fold {A} (f : sched -> A -> sched) (l : list A) s : (forall s a, inert s (f s a)) -> inert s (fold_left f l s).
Proof. intros Hf. revert s. induction l as [|a l IH]; intros s; [apply inert_refl|]. eapply inert_trans; [apply Hf|apply IH]. Qed.
#[export] Hint Resolve inert_kick inert_kick_idle inert_sleeper_remove inert_end_wait : sched.

(** * Going on to something else *)

Definition flights (l : list op) : list Z := concat (op_tasks <$> l).

Lemma flights_app l l' : flights (l ++ l') = flights l ++ flights l'.
Proof. unfold flights. by rewrite fmap_app, concat_app. Qed.

Lemma mode_typed k m : typed m (todo k) = true -> (switching (todo k) = true -> m = if release_sched k then Locked else Unlocked) ->
  mode_of k = m /\ sched_held k = negb (bool_decide (m = Unlocked)).
Proof.
  intros Ht Hs. pose proof (typed_leaving m _ Ht) as Hl. pose proof (typed_holding (release_sched k) m _ Ht Hs) as Hh.
  unfold mode_of, sched_held in *. rewrite Hl, Hh. by destruct m.
Qed.

Lemma mode_held s c k : cpu_ok s c k -> sched_held k = negb (bool_decide (mode_of k = Unlocked)).
Proof. intros Hk. unfold mode_of. destruct (leaving (todo k)) eqn:E; [|by destruct (sched_held k)].
  pose proof (ok_typed _ _ _ Hk) as Ht. unfold mode_of in Ht. rewrite E in Ht.
  destruct (mode_typed k Leaving Ht) as [_ ->]; [|done].
  intros Hs. exfalso. destruct (todo k) as [|[] l]; done.
Qed.

Lemma online_todo s c k : cpu_ok s c k -> todo k <> [] -> online k = true.
Proof. intros Hk Hn. destruct (online k) eqn:E; [done|]. by destruct (ok_offline _ _ _ Hk E). Qed.

Lemma free_held s c : sched_free s = true -> sched_held (cpu_at c s) = false.
Proof.
  unfold sched_free. rewrite forallb_forall. intros H. unfold cpu_at. destruct (cpus s !! c) as [k|] eqn:E; [|done]. cbn.
  apply negb_true_iff, H. apply list_elem_of_In. by eapply list_elem_of_lookup_2.
Qed.

(** What a CPU may have to do next instead of what it had, while tasks leave it for [X']
    or come to it from [X]. *)
Record goes_on (X X' : list Z) (s : sched) (k : cpu) (m : mode) (l' : list op) : Prop := {
  go_typed : typed m l' = true;
  go_mode : m = mode_of k \/ (mode_of k = Locked /\ m = Unlocked) \/ (mode_of k = Unlocked /\ m = Locked /\ sched_free s = true);
  go_blocked : m = Leaving -> state (tasks s (current k)) = TASK_BLOCKED -> in_schedule l' = true;
  go_away : m = Leaving -> state (tasks s (current k)) = TASK_STOPPED -> Forall (away s (current k)) l';
  go_quiet : current k = idle k -> forallb quiet l' = true;
  go_nodup : NoDup (X' ++ flights l');
  go_new : forall t, t ∈ X' ++ flights l' -> t ∈ X ++ flights (todo k) \/ t ∉ X ++ placed s;
  go_kept : forall t, t ∈ X ++ flights (todo k) -> t ∈ X' ++ flights l' \/ t ∉ task_list s \/ out (state (tasks s t));
  go_between : forall t, t ∈ X' -> t ∈ task_list s /\ queued_on (tasks s t) = -1;
  go_items : match l' with [] => True | o :: l => item_ok s k (negb (bool_decide (m = Unlocked))) o /\ Forall (item_ok s k false) l end
}.

Lemma tasks_todo k l : switching (todo k) = false -> switching l = false -> exists base, cpu_tasks k = base ++ flights (todo k) /\ cpu_tasks (set_todo l k) = base ++ flights l.
Proof.
  intros H1 H2. exists ((if online k then [current k] else [idle k]) ++ queue k ++ (if moving k =? 0 then [] else [moving k])).
  unfold cpu_tasks, left_behind. cbn. assert (forall l0 : list op, switching l0 = false -> match l0 with Ctx_switch :: _ => if release_sched k || (stack k =? idle k) then [stack k] else [] | _ => [] end = []) as Hn.
  { intros [|[] ?]; done. }
  rewrite (Hn _ H1), (Hn _ H2). cbn. by rewrite <- !app_assoc.
Qed.

Lemma cpus_set_cpu s c f k : cpus s !! c = Some k -> cpus (set_cpu c f s) = <[c := f k]> (cpus s).
Proof. intros Hk. cbn. by apply alter_insert. Qed.
Lemma cpu_at_set s c f k j : cpus s !! c = Some k -> cpu_at j (set_cpu c f s) = if decide (j = c) then f k else cpu_at j s.
Proof.
  intros Hk. unfold cpu_at. rewrite (cpus_set_cpu s c f k Hk). destruct (decide (j = c)) as [->|Hn].
  - by rewrite list_lookup_insert_eq by (by eapply lookup_lt_Some).
  - by rewrite list_lookup_insert_ne.
Qed.
Lemma idles_set s c f k : cpus s !! c = Some k -> idle (f k) = idle k -> idles (set_cpu c f s) = idles s.
Proof.
  intros Hk E. unfold idles. rewrite (cpus_set_cpu s c f k Hk), list_fmap_insert, E. apply list_insert_id. by rewrite list_lookup_fmap, Hk.
Qed.

(** Only [c] changes, and no task does. *)
Lemma change_cpu s c f k : cpus s !! c = Some k -> idle (f k) = idle k -> (online k = true -> online (f k) = true) -> change s (set_cpu c f s).
Proof.
  intros Hk E Ho. split; try done.
  - cbn. by rewrite length_alter.
  - by apply (idles_set s c f k).
  - intros j. unfold is_online. rewrite (cpu_at_set s c f k j Hk). destruct (decide (j = c)) as [->|]; [|done]. rewrite (cpu_at_some s c k Hk). done.
  - intros t. by left.
  - intros t. by left.
Qed.

Lemma nodup_swap {A} (F F' R : list A) : NoDup (F ++ R) -> NoDup F' -> (forall t, t ∈ F' -> t ∈ F \/ t ∉ F ++ R) -> NoDup (F' ++ R).
Proof.
  intros (H1&H2&H3)%NoDup_app Hn Hd. apply NoDup_app. split; [done|]. split; [|done]. intros t Ht Hr. destruct (Hd t Ht) as [|Hno]; [by eapply H2|].
  apply Hno, elem_of_app. by right.
Qed.

(** The tasks of one CPU among all that are placed. *)
Lemma placed_split s c f k : cpus s !! c = Some k -> exists R, placed s ≡ₚ cpu_tasks k ++ R /\ placed (set_cpu c f s) ≡ₚ cpu_tasks (f k) ++ R.
Proof.
  intros Hk. exists (concat (cpu_tasks <$> delete c (cpus s))). assert (placed s ≡ₚ cpu_tasks k ++ concat (cpu_tasks <$> delete c (cpus s))) as HR.
  { unfold placed. rewrite (delete_Permutation (cpus s) c k Hk) at 1. done. }
  split; [done|]. pose proof (placed_change s (set_cpu c f s) c k (f k) Hk (cpus_set_cpu s c f k Hk)) as Hp. rewrite HR in Hp.
  apply (Permutation_app_inv_l (cpu_tasks k)). rewrite Hp. apply Permutation_app_swap_app.
Qed.

(** One CPU holds the scheduler lock, still. *)
Lemma lock_kept X s s' c k k' : inv X s -> cpus s !! c = Some k -> cpu_at c s' = k' -> (forall j, j <> c -> sched_held (cpu_at j s') = sched_held (cpu_at j s)) ->
  (sched_held k' = true -> sched_held k = true \/ sched_free s = true) ->
  forall i j, sched_held (cpu_at i s') = true -> sched_held (cpu_at j s') = true -> i = j.
Proof.
  intros Hi Hk Hk' Ho Hh i j. assert (forall j, j <> c -> sched_held k' = true -> sched_held (cpu_at j s) = true -> False) as Hone.
  { intros j' Hj Hx Hy. destruct (Hh Hx) as [Hc|Hf]; [|by rewrite free_held in Hy]. apply Hj. apply (iv_lock X s Hi); [done|]. by rewrite (cpu_at_some s c k Hk). }
  destruct (decide (i = c)) as [->|Hi'], (decide (j = c)) as [->|Hj']; rewrite ?Hk', ?Ho by done; [done| | |apply Hi]; intros Hx Hy; exfalso; eauto.
Qed.

Lemma inv_todo X X' s c k m l' : inv X s -> cpus s !! c = Some k -> online k = true -> switching (todo k) = false -> switching l' = false ->
  goes_on X X' s k m l' -> inv X' (set_cpu c (set_todo l') s).
Proof.
  intros Hi Hk Ho Hs Hs' [G1 G2 G3 Ga Gq G4 G5 G6 Gb G7]. pose proof (iv_cpus X s Hi c k Hk) as Hok. set (k' := set_todo l' k).
  assert (change s (set_cpu c (set_todo l') s)) as Hc by (apply (change_cpu s c _ k); done).
  assert (release_sched k = false) as Hr by (pose proof (ok_release _ _ _ Hok) as Hrel; rewrite Hs in Hrel; destruct (release_sched k); [by specialize (Hrel eq_refl)|done]).
  assert (moving k = 0) as Hmv by (destruct (Z.eq_dec (moving k) 0) as [|Hn]; [done|destruct (ok_moving _ _ _ Hok Hn); congruence]).
  destruct (mode_typed k' m) as [Hm Hh]; [done|cbn; by rewrite Hs'|]. pose proof (mode_held s c k Hok) as Hh0.
  assert (exists R, placed s ≡ₚ flights (todo k) ++ R /\ placed (set_cpu c (set_todo l') s) ≡ₚ flights l' ++ R) as (R&HR&HR').
  { destruct (tasks_todo k l' Hs Hs') as (base&Eb&Eb'). destruct (placed_split s c (set_todo l') k Hk) as (R&H1&H2). exists (base ++ R).
    rewrite H1, H2, Eb, Eb', <- !app_assoc. split; apply Permutation_app_swap_app. }
  apply (inv_change X X' s); [done|done|..].
  - rewrite HR', app_assoc. apply (nodup_swap (X ++ flights (todo k))); [rewrite <- app_assoc, <- HR; apply Hi|done|]. intros t Ht. rewrite <- app_assoc, <- HR. by apply G5.
  - exact Gb.
  - apply (lock_kept X s _ c k k'); [done|done|by rewrite (cpu_at_set s c (set_todo l') k _ Hk), decide_True| |].
    + intros j Hj. by rewrite (cpu_at_set s c (set_todo l') k _ Hk), decide_False.
    + rewrite Hh, Hh0. destruct G2 as [->|[[_ ->]|(_&_&?)]]; [by left|done|by right].
  - intros j kj Hj. rewrite (cpus_set_cpu s c (set_todo l') k Hk) in Hj. destruct (decide (c = j)) as [<-|Hn].
    + rewrite list_lookup_insert_eq in Hj by (by eapply lookup_lt_Some). injection Hj as <-. fold k'.
      destruct Hok as [O1 O2 O3 O4 O5 Oa Oq O6 O7 O8 O9 O10 O11]. assert (stack k = current k) as Hst by (specialize (O10 Ho); destruct (todo k) as [|[] ?]; done).
      split; rewrite ?Hm; unfold k'; cbn; rewrite ?Hst; try done.
      * congruence.
      * intros _ Hl. apply O4; [done|]. destruct G2 as [<-|[[-> _]|[-> _]]]; done.
      * intros Hl. assert (mode_of k = Leaving) as Hlv by (destruct G2 as [<-|[[? ->]|(?&->&_)]]; done). destruct (O5 Hlv) as (H1&H2&_). split; [done|]. split; [done|]. by apply G3.
      * intros Hx. congruence.
      * intros _. by destruct l' as [|[] ?].
      * change (match l' with [] => True | o :: l => item_ok (set_cpu c (set_todo l') s) k' (sched_held k') o /\ Forall (item_ok (set_cpu c (set_todo l') s) k' false) l end).
        rewrite Hh. assert (forall h o, item_ok s k h o -> item_ok (set_cpu c (set_todo l') s) k' h o) as Hit.
        { intros h o Hio. apply (item_frame s _ k); [done|done|done|by intros t _; split|apply (cg_idles _ _ Hc)|apply (cg_online _ _ Hc)]. }
        destruct l' as [|o l]; [done|]. destruct G7 as [G7 G8]. split; [by apply Hit|]. eapply Forall_impl; [exact G8|]. intros o'. apply Hit.
    + rewrite list_lookup_insert_ne in Hj by done. apply (others_ok X s _ j kj); [done|done| |done|apply same_core_refl]. by split.
  - intros t Ht Hst. assert (t ∈ X ++ placed s) as Hp by (by apply (iv_lost X s Hi)). rewrite HR, app_assoc in Hp. rewrite HR', app_assoc.
    apply elem_of_app in Hp as [Hp|Hp]; apply elem_of_app; [|by right]. left. destruct (G6 t Hp) as [|[?|Hout]]; [done..|].
    cbn in Hst. unfold out, asleep in Hout. destruct Hst, Hout as [[]|]; congruence.
  - intros t Hq. destruct (iv_queued X s Hi t Hq) as (j&E&Hin). exists j. split; [done|]. rewrite (cpu_at_set s c (set_todo l') k _ Hk).
    destruct (decide (j = c)) as [->|]; [|done]. cbn. by rewrite (cpu_at_some s c k Hk) in Hin.
Qed.
