(* ===== verification/SchedMoves.v ===== *)
(** How tasks move: into a queue, out of it, onto a CPU and off it. *)
From stdpp Require Import base tactics numbers list sets gmap relations.
From Stdlib Require Import ZArith Lia.
From S2P Require Import Prelude Sched SchedInv.

Open Scope Z_scope.

Definition active (st : task_state_t) : Prop := st = TASK_READY \/ st = TASK_RUNNING.
Lemma active_out st : active st -> out st -> False.
Proof. unfold active, out, asleep. intros [] [[]|]; congruence. Qed.
Lemma active_or_out st : active st \/ out st.
Proof. unfold active, out, asleep. destruct st; tauto. Qed.

(** One CPU changes, with tasks that nobody else has; the tasks in [D] are gone. *)
Lemma inv_one X X' D s s' c k k' : inv X s -> cpus s !! c = Some k -> cpus s' = <[c := k']> (cpus s) -> change s s' ->
  (forall t, same_view s s' t \/ t ∈ X ++ cpu_tasks k) ->
  X ++ placed s ≡ₚ D ++ X' ++ placed s' -> (forall t, t ∈ D -> t ∈ task_list s -> out (state (tasks s' t))) ->
  (forall t, t ∈ X' -> t ∈ task_list s /\ queued_on (tasks s' t) = -1) ->
  (sched_held k' = true -> sched_held k = true) -> cpu_ok s' c k' ->
  (forall t, queued_on (tasks s' t) <> -1 -> queued_on (tasks s' t) = queued_on (tasks s t) /\ (queued_on (tasks s t) = Z.of_nat c -> t ∈ queue k') \/
             queued_on (tasks s' t) = Z.of_nat c /\ t ∈ queue k') -> inv X' s'.
Proof.
  intros Hi Hk Ek Hc Hv Hp HD HX Hh Hok Hq.
  assert (forall j, cpu_at j s' = if decide (j = c) then k' else cpu_at j s) as Ha.
  { intros j. unfold cpu_at. rewrite Ek. destruct (decide (j = c)) as [->|]; [by rewrite list_lookup_insert_eq by (by eapply lookup_lt_Some)|by rewrite list_lookup_insert_ne]. }
  apply (inv_change X X' s); [done|done| |done|..].
  - pose proof (iv_nodup X s Hi) as Hn. rewrite Hp in Hn. by apply NoDup_app in Hn as (_&_&?).
  - apply (lock_kept X s s' c k k'); [done|done|by rewrite Ha, decide_True| |intros; left; auto]. intros j Hj. by rewrite Ha, decide_False.
  - intros j kj Hj. rewrite Ek in Hj. destruct (decide (c = j)) as [<-|Hn].
    + rewrite list_lookup_insert_eq in Hj by (by eapply lookup_lt_Some). by injection Hj as <-.
    + rewrite list_lookup_insert_ne in Hj by done. apply (others_ok X s s' j kj kj); [done|done| |done|apply same_core_refl]. intros t Ht. destruct (Hv t) as [|[Hx|Hx]%elem_of_app]; [done|..]; exfalso.
      * pose proof (iv_nodup X s Hi) as (_&Hd&_)%NoDup_app. apply (Hd t Hx). apply placed_elem. by exists j, kj.
      * apply Hn. pose proof (iv_nodup X s Hi) as (_&_&Hd)%NoDup_app. by apply (placed_once s c j k kj t).
  - intros t Ht Hst. assert (t ∈ X ++ placed s) as Hin.
    { destruct (active_or_out (state (tasks s t))) as [Hs|Hs]; [by apply (iv_lost X s Hi)|]. destruct (Hv t) as [V|Hx].
      - exfalso. apply (active_out (state (tasks s t))); [|done]. by rewrite <- (sv_state _ _ _ V).
      - apply elem_of_app in Hx as [|Hx]; apply elem_of_app; [by left|right]. apply placed_elem. by exists c, k. }
    rewrite Hp in Hin. apply elem_of_app in Hin as [Hin|]; [|done]. exfalso. by eapply active_out, HD.
  - intros t Hj. destruct (Hq t Hj) as [[E Hin]|[E Hin]]; [|exists c; rewrite Ha, decide_True; done]. rewrite E in *.
    destruct (iv_queued X s Hi t Hj) as (j&Ej&Hin'). exists j. split; [done|]. rewrite Ha. destruct (decide (j = c)) as [->|]; auto.
Qed.

(** A step after another that is the change of a task. *)
Lemma change_then s s' s'' : change s s' -> cpus s'' = cpus s' -> task_list s'' = task_list s' -> allocated s'' = allocated s' ->
  (forall t, affinity (tasks s'' t) = affinity (tasks s' t) /\ rest (tasks s'' t) = rest (tasks s' t) /\ proc (tasks s'' t) = proc (tasks s' t)) ->
  (forall t, t ∉ task_list s -> queued_on (tasks s'' t) = queued_on (tasks s' t) /\ (asleep (state (tasks s'' t)) -> asleep (state (tasks s' t)))) -> change s s''.
Proof.
  intros [A1 A2 A3 A4 A5 A6 A6r Ap A7] E1 E2 E3 H1 H2. split; rewrite ?E1, ?E2, ?E3; try done.
  - unfold idles in *. by rewrite E1.
  - intros j. unfold is_online, cpu_at in *. rewrite E1. apply A3.
  - intros t. unfold rebound in *. destruct (H1 t) as (->&_). apply A6.
  - intros t. destruct (H1 t) as (_&->&_). apply A6r.
  - intros t c Hc. destruct (H1 t) as (_&_&->). by apply (Ap t c).
  - intros t Ht. destruct (A7 t Ht), (H2 t Ht). split; [congruence|auto].
Qed.
Lemma change_refl s : change s s.
Proof. apply inert_change, inert_refl. Qed.
Lemma change_task s s' t f : change s s' -> t ∈ task_list s -> (forall u, affinity (f u) = affinity u /\ rest (f u) = rest u /\ proc (f u) = proc u) -> change s (set_task t f s').
Proof. intros Hc Ht Hf. apply (change_then s s'); try done; intros x; cbn; by destruct (Z.eqb_spec x t) as [->|]. Qed.

(** A task that is between two places changes its state. *)
Lemma inv_between_state X s t st : inv X s -> t ∈ X -> inv X (set_task t (set_state st) s).
Proof.
  intros Hi Ht. destruct (iv_between X s Hi t Ht) as [Hl Hq]. pose proof (iv_nodup X s Hi) as (_&Hd&_)%NoDup_app.
  assert (forall x, x <> t -> tasks (set_task t (set_state st) s) x = tasks s x) as Ho by (intros x Hx; cbn; by apply Z.eqb_neq in Hx as ->).
  assert (forall x, queued_on (tasks (set_task t (set_state st) s) x) = queued_on (tasks s x)) as Eq by (intros x; cbn; by destruct (x =? t)).
  assert (change s (set_task t (set_state st) s)) as Hc by (by apply change_task; [apply change_refl|..]).
  apply (inv_change X X s); [done|done|apply Hi|..].
  - intros x Hx. rewrite Eq. by apply (iv_between X s Hi).
  - apply Hi.
  - intros j kj Hj. apply (others_ok X s _ j kj kj); [done|done| |done|apply same_core_refl]. intros x Hx. assert (x <> t) as Hne.
    { intros ->. apply (Hd t Ht). apply placed_elem. by exists j, kj. }
    by split; rewrite ?Ho.
  - intros x Hx Hst. destruct (decide (x = t)) as [->|Hne]; [by apply elem_of_app; left|]. apply (iv_lost X s Hi); [done|]. by rewrite Ho in Hst.
  - intros x. rewrite Eq. apply Hi.
Qed.

Lemma queue_nodup X s c k : inv X s -> cpus s !! c = Some k -> NoDup (cpu_tasks k).
Proof.
  intros Hi Hk. pose proof (iv_nodup X s Hi) as (_&_&Hd)%NoDup_app. destruct (placed_split s c id k Hk) as (R&HR&_). rewrite HR in Hd. by apply NoDup_app in Hd as (?&_&_).
Qed.

(** The tasks of a CPU without those of its queue. *)
Lemma tasks_queue k q n : exists a b, cpu_tasks k = a ++ queue k ++ b /\ cpu_tasks (set_queue q n k) = a ++ q ++ b.
Proof.
  exists ((if online k then [current k] else [idle k]) ++ left_behind k), ((if moving k =? 0 then [] else [moving k]) ++ flights (todo k)).
  unfold cpu_tasks. cbn. by rewrite <- !app_assoc.
Qed.

(** * Into a queue *)

Lemma inv_push X s v kv t : inv (t :: X) s -> cpus s !! v = Some kv -> online kv = true -> state (tasks s t) = TASK_READY -> inv X (rq_push v t s).
Proof.
  intros Hi Hk Ho Hst. destruct (iv_between _ s Hi t) as [Hl Hq]; [by left|]. pose proof (iv_nodup _ s Hi) as Hnd. cbn in Hnd.
  set (f := fun q => set_queue (queue q ++ [t]) (u32 (count q + 1)) q). set (s' := rq_push v t s).
  assert (cpus s' = <[v := f kv]> (cpus s)) as Ek by (apply (cpus_set_cpu s v f kv Hk)).
  assert (change s s') as Hc.
  { apply (change_task s (set_cpu v f s)); [by apply (change_cpu s v f kv)|done|done]. }
  assert (forall x, x <> t -> tasks s' x = tasks s x) as Hx by (intros x Hx; cbn; by apply Z.eqb_neq in Hx as ->).
  assert (tasks s' t = set_queued (Z.of_nat v) (tasks s t)) as Ht by (cbn; by rewrite Z.eqb_refl).
  assert (t ∉ cpu_tasks kv) as Hno.
  { apply NoDup_cons in Hnd as [Hn _]. intros Hin. apply Hn, elem_of_app. right. apply placed_elem. by exists v, kv. }
  assert (forall x, x ∈ cpu_tasks kv -> same_view s s' x) as Hv by (intros x Hin; split; rewrite ?Hx by (by intros ->); done).
  apply (inv_one (t :: X) X [] s s' v kv (f kv)); try done.
  - intros x. destruct (decide (x = t)) as [->|]; [right; by left|left; split; rewrite ?Hx; done].
  - destruct (tasks_queue kv (queue kv ++ [t]) (u32 (count kv + 1))) as (a&b&E1&E2).
    assert (placed s' ≡ₚ [t] ++ placed s) as Hp; [|rewrite app_nil_l, Hp; apply Permutation_middle].
    apply (placed_more s s' v kv (f kv) [t] Hk Ek). change (f kv) with (set_queue (queue kv ++ [t]) (u32 (count kv + 1)) kv). rewrite E1, E2.
    rewrite <- !app_assoc. rewrite (Permutation_app_swap_app (queue kv) [t]). apply Permutation_app_swap_app.
  - by intros x ?%elem_of_nil.
  - intros x Hin. destruct (iv_between _ s Hi x) as [? ?]; [by right|]. split; [done|]. rewrite Hx; [done|]. intros ->. apply NoDup_cons in Hnd as [Hn _]. apply Hn, elem_of_app. by left.
  - destruct (others_ok _ s s' v kv kv Hi Hc Hv Hk (same_core_refl kv)) as [O1 O2 O3 O4 O5 Oa Oq O6 O7 O8 O9 O10 O11].
    split; try done; cbn.
    + congruence.
    + intros x [Hin|Hin%list_elem_of_singleton]%elem_of_app; [by apply O6|subst x]. split; [done|]. by rewrite Z.eqb_refl.
    + rewrite O7, u32_add, length_app, Nat2Z.inj_add. done.
    + intros Hon. specialize (O10 Hon). destruct (todo kv) as [|[] ?]; try done. destruct O10 as [? O10]. split; [done|]. rewrite elem_of_app. clear - O10. tauto.
  - intros x Hn. destruct (decide (x = t)) as [->|Hne].
    + right. rewrite Ht. split; [done|]. cbn. apply elem_of_app. right. by apply list_elem_of_singleton.
    + left. rewrite Hx by done. split; [done|]. intros E. apply (queued_in _ s _ _ Hi) in E. rewrite (cpu_at_some s v kv Hk) in E. cbn. apply elem_of_app. by left.
Qed.

(** * Out of a queue *)

Lemma remove_elem t l x : x ∈ remove t l <-> x ∈ l /\ x <> t.
Proof. unfold remove. rewrite list_elem_of_filter. tauto. Qed.
Lemma remove_perm t l : NoDup l -> t ∈ l -> l ≡ₚ t :: remove t l.
Proof.
  intros Hn Ht. apply NoDup_Permutation; [done| |].
  - apply NoDup_cons. split; [rewrite remove_elem; tauto|]. by apply NoDup_filter.
  - intros x. rewrite elem_of_cons, remove_elem. destruct (decide (x = t)) as [->|]; tauto.
Qed.

Lemma inv_take X s v kv t : inv X s -> cpus s !! v = Some kv -> t ∈ queue kv -> (forall l, todo kv <> Ctx_switch :: l) ->
  inv (t :: X) (rq_unlink v t s) /\ runnable (rq_unlink v t s) t.
Proof.
  intros Hi Hk Hin Hs. pose proof (iv_cpus _ s Hi v kv Hk) as Hok. destruct (ok_queue _ _ _ Hok t Hin) as (Hl&Hst&Hq).
  set (f := fun q => set_queue (remove t (queue q)) (u32 (count q - 1)) q). set (s' := rq_unlink v t s).
  assert (cpus s' = <[v := f kv]> (cpus s)) as Ek by (apply (cpus_set_cpu s v f kv Hk)).
  assert (change s s') as Hc by (apply (change_task s (set_cpu v f s)); [by apply (change_cpu s v f kv)|done|done]).
  assert (forall x, x <> t -> tasks s' x = tasks s x) as Hx by (intros x Hx; cbn; by apply Z.eqb_neq in Hx as ->).
  assert (tasks s' t = set_queued (-1) (tasks s t)) as Ht by (cbn; by rewrite Z.eqb_refl).
  pose proof (queue_nodup X s v kv Hi Hk) as Hnd. destruct (tasks_queue kv (remove t (queue kv)) (u32 (count kv - 1))) as (a&b&E1&E2).
  assert (NoDup (queue kv)) as Hnq by (rewrite E1 in Hnd; apply NoDup_app in Hnd as (_&_&Hn); by apply NoDup_app in Hn as (?&_&_)).
  pose proof (remove_perm t (queue kv) Hnq Hin) as Hperm.
  assert (cpu_tasks kv ≡ₚ [t] ++ cpu_tasks (f kv)) as Hp.
  { change (f kv) with (set_queue (remove t (queue kv)) (u32 (count kv - 1)) kv). rewrite E1, E2. rewrite Hperm at 1.
    change ((t :: remove t (queue kv)) ++ b) with ([t] ++ (remove t (queue kv) ++ b)). apply Permutation_app_swap_app. }
  assert (forall x, x ∈ cpu_tasks (f kv) -> x <> t) as Hother.
  { intros x Hxin ->. rewrite Hp in Hnd. by apply NoDup_cons in Hnd as [? _]. }
  split; [|split; [done|rewrite Ht; done]]. apply (inv_one X (t :: X) [] s s' v kv (f kv)); try done.
  - intros x. destruct (decide (x = t)) as [->|]; [right; apply elem_of_app; right; by apply in_queue|left; split; rewrite ?Hx; done].
  - rewrite app_nil_l. rewrite (placed_less s s' v kv (f kv) [t] Hk Ek Hp). symmetry. apply Permutation_middle.
  - by intros x ?%elem_of_nil.
  - intros x [->|Hin']%elem_of_cons; [by rewrite Ht|]. destruct (iv_between _ s Hi x Hin') as [? ?]. split; [done|]. rewrite Hx; [done|]. intros ->. rewrite Hq in *. lia.
  - assert (forall x, x ∈ cpu_tasks (f kv) -> same_view s s' x) as Hv by (intros x Hxin; split; rewrite ?Hx by (by apply Hother); done).
    assert (online kv = true) as Ho.
    { destruct (online kv) eqn:E; [done|]. destruct (ok_offline _ _ _ Hok E) as (_&Eq&_). rewrite Eq in Hin. by apply elem_of_nil in Hin. }
    destruct Hok as [O1 O2 O3 O4 O5 Oa Oq O6 O7 O8 O9 O10 O11].
    assert (cpu_ok s v (f kv)) as Hok'.
    { split; try done; cbn.
      - congruence.
      - intros x [Hxin _]%remove_elem. by apply O6.
      - rewrite O7. replace (u32 (Z.of_nat (length (queue kv))) - 1) with (u32 (Z.of_nat (length (queue kv))) + -1) by lia. rewrite u32_add.
        apply Permutation_length in Hperm. cbn in Hperm. f_equal. lia.
      - intros Hon. specialize (O10 Hon). destruct (todo kv) as [|[] ?] eqn:El; try done. by destruct (Hs l). }
    apply (cpu_frame s s' v (f kv)); [done|apply same_core_refl|done|apply (cg_idles _ _ Hc)|apply (cg_online _ _ Hc)|].
    intros _ x. destruct (decide (x = t)) as [->|]; [by rewrite Ht|by rewrite Hx].
  - intros x Hn. destruct (decide (x = t)) as [->|Hne]; [by rewrite Ht in Hn|]. left. rewrite Hx by done. split; [done|]. intros E.
    apply (queued_in _ s _ _ Hi) in E. rewrite (cpu_at_some s v kv Hk) in E. cbn. by apply remove_elem.
Qed.

(** * From one task to the next *)

Lemma bare_item s k h o : bare o = true -> item_ok s k h o.
Proof. destruct o; try done; by destruct next. Qed.
Lemma bare_items s k l : forallb bare l = true -> Forall (item_ok s k false) l.
Proof. induction l as [|o l IH]; cbn; [constructor|]. intros [H1 H2]%andb_true_iff. constructor; [by apply bare_item|by apply IH]. Qed.
Lemma bare_flights l : forallb bare l = true -> flights l = [].
Proof.
  induction l as [|o l IH]; cbn; [done|]. intros [H1 H2]%andb_true_iff. unfold flights in *. cbn. rewrite IH by done.
  unfold bare in H1. destruct o; try done; by destruct next.
Qed.
Lemma plain_bare l : forallb plain l = true -> forallb bare l = true.
Proof. induction l as [|o l IH]; cbn; [done|]. intros [[_ H1]%andb_true_iff H2]%andb_true_iff. by rewrite H1, IH. Qed.
Lemma plain_away s t l : forallb plain l = true -> Forall (away s t) l.
Proof. induction l as [|o l IH]; cbn; [constructor|]. intros [H1 H2]%andb_true_iff. constructor; [by destruct o|auto]. Qed.
Lemma plain_items s k l : forallb plain l = true -> Forall (item_ok s k false) l.
Proof. intros H. by apply bare_items, plain_bare. Qed.
Lemma plain_flights l : forallb plain l = true -> flights l = [].
Proof. intros H. by apply bare_flights, plain_bare. Qed.
Lemma plain_prompt l : forallb plain l = true -> existsb prompt l = false.
Proof.
  induction l as [|o l IH]; cbn; [done|]. intros [H1 H2]%andb_true_iff. rewrite IH by done. unfold plain in H1. by destruct (prompt o).
Qed.

Lemma typed_cons m o l : typed m (o :: l) = true <-> needs o m = true /\ existsb prompt l = false /\ (sleeps o = true -> forallb plain l = true) /\ typed (leaves o m) l = true.
Proof. cbn [typed]. rewrite !andb_true_iff, negb_true_iff, orb_true_iff, negb_true_iff. destruct (sleeps o); naive_solver. Qed.


(** What holds of a CPU about to do its first item. *)
Lemma first_item X s c k o l : inv X s -> cpus s !! c = Some k -> todo k = o :: l ->
  online k = true /\ typed (mode_of k) (o :: l) = true /\ item_ok s k (sched_held k) o /\ Forall (item_ok s k false) l.
Proof.
  intros Hi Hk Ht. pose proof (iv_cpus X s Hi c k Hk) as Hok. split; [by eapply online_todo; [done|rewrite Ht]|].
  pose proof (ok_typed _ _ _ Hok) as H1. pose proof (ok_head _ _ _ Hok) as H2. rewrite Ht in H1, H2. done.
Qed.
Lemma unswitched s c k : cpu_ok s c k -> switching (todo k) = false -> release_sched k = false /\ moving k = 0 /\ (online k = true -> stack k = current k).
Proof.
  intros Hok Hs. split; [destruct (release_sched k) eqn:E; [pose proof (ok_release _ _ _ Hok E); congruence|done]|]. split.
  - destruct (Z.eq_dec (moving k) 0) as [|Hn]; [done|]. destruct (ok_moving _ _ _ Hok Hn). congruence.
  - intros Ho. pose proof (ok_stack _ _ _ Hok Ho) as H. by destruct (todo k) as [|[] ?].
Qed.

(** The tasks as [switch_to] leaves them. *)
Definition left_old (c : nat) (ms : bool) (k : cpu) (t : task) : task :=
  if negb (current k =? idle k) && ms then set_queued (Z.of_nat c) (set_state TASK_READY t) else set_state TASK_READY t.
Lemma switch_tasks c hold next ms s k x : cpus s !! c = Some k -> next <> current k ->
  tasks (switch_to c hold next ms s) x =
    if x =? next then begin_turn c (tasks s x)
    else if (x =? current k) && is_state s (current k) TASK_RUNNING then left_old c ms k (tasks s x) else tasks s x.
Proof.
  intros Hk Hn. unfold switch_to, leave_old, left_old. rewrite (cpu_at_some s c k Hk). destruct (is_state s (current k) TASK_RUNNING); cbn.
  - change (idle (cpu_at c (set_task (current k) (set_state TASK_READY) s))) with (idle (cpu_at c s)). rewrite (cpu_at_some s c k Hk).
    destruct (current k =? idle k), ms; cbn; destruct (Z.eqb_spec x next) as [->|]; cbn; try (apply Z.eqb_neq in Hn as ->; done); by destruct (x =? current k).
  - rewrite andb_false_r. by destruct (Z.eqb_spec x next) as [->|].
Qed.

(** The CPU as [switch_to] leaves it. *)
Definition switched (hold : bool) (next : Z) (ms : bool) (s : sched) (k : cpu) : cpu :=
  let k' := if is_state s (current k) TASK_RUNNING && negb (current k =? idle k)
            then if ms then set_queue (queue k ++ [current k]) (u32 (count k + 1)) k else set_switch (release_sched k) (current k) k
            else k in
  set_switch hold (moving k') (set_current next k').

Lemma switch_cpus c hold next ms s k : cpus s !! c = Some k -> cpus (switch_to c hold next ms s) = <[c := switched hold next ms s k]> (cpus s).
Proof.
  intros Hk. unfold switch_to, leave_old, switched. rewrite (cpu_at_some s c k Hk).
  destruct (is_state s (current k) TASK_RUNNING); cbn [andb]; [|cbn; by rewrite (alter_insert _ (cpus s) c k Hk)].
  change (idle (cpu_at c (set_task (current k) (set_state TASK_READY) s))) with (idle (cpu_at c s)). rewrite (cpu_at_some s c k Hk).
  destruct (current k =? idle k); cbn [negb]; [cbn; by rewrite (alter_insert _ (cpus s) c k Hk)|].
  destruct ms; cbn; rewrite (alter_insert _ (cpus s) c k Hk), (alter_insert _ _ c _ (list_lookup_insert_eq _ _ _ (lookup_lt_Some _ _ _ Hk))); by rewrite list_insert_insert_eq.
Qed.

(** Only [c] and tasks change. *)
Lemma change_one s s' c k k' : cpus s !! c = Some k -> cpus s' = <[c := k']> (cpus s) -> idle k' = idle k -> (online k = true -> online k' = true) ->
  task_list s' = task_list s -> allocated s' = allocated s ->
  (forall t, affinity (tasks s' t) = affinity (tasks s t) /\ proc (tasks s' t) = proc (tasks s t) /\ (rest (tasks s' t) = rest (tasks s t) \/ resumable s t (rest (tasks s' t)))) ->
  (forall t, t ∉ task_list s -> queued_on (tasks s' t) = queued_on (tasks s t) /\ (asleep (state (tasks s' t)) -> asleep (state (tasks s t)))) -> change s s'.
Proof.
  intros Hk E Ei Ho El Ea H1 H2. split; try done.
  - by rewrite E, length_insert.
  - unfold idles. rewrite E, list_fmap_insert, Ei. apply list_insert_id. by rewrite list_lookup_fmap, Hk.
  - intros j. unfold is_online, cpu_at. rewrite E. destruct (decide (c = j)) as [<-|]; [|by rewrite list_lookup_insert_ne].
    rewrite list_lookup_insert_eq by (by eapply lookup_lt_Some). rewrite Hk. done.
  - by rewrite Ea.
  - intros t. left. apply H1.
  - apply H1.
  - intros t _ _. apply H1.
Qed.

(** The ways to leave a CPU: for good or to sleep, or being the idle task, or to the back of
    the queue, or to be placed elsewhere. *)
Inductive way (s : sched) (k : cpu) (ms : bool) : bool -> Prop :=
| way_out : out (state (tasks s (current k))) -> current k ∈ task_list s -> current k <> idle k -> way s k ms true
| way_idle : state (tasks s (current k)) = TASK_RUNNING -> current k = idle k -> way s k ms false
| way_back : state (tasks s (current k)) = TASK_RUNNING -> current k ∈ task_list s -> current k <> idle k -> ms = true -> way s k ms false
| way_elsewhere : state (tasks s (current k)) = TASK_RUNNING -> current k ∈ task_list s -> current k <> idle k -> ms = false -> way s k ms false.

Lemma way_of X s c k hold next ms l : inv X s -> cpus s !! c = Some k -> todo k = Switch hold next ms :: l -> way s k ms hold.
Proof.
  intros Hi Hk Ht. destruct (first_item X s c k _ l Hi Hk Ht) as (Ho&Hty&_). apply typed_cons in Hty as (Hm%bool_decide_eq_true&_).
  pose proof (iv_cpus X s Hi c k Hk) as Hok. destruct (ok_current _ _ _ Hok Ho) as [Hc _]. destruct hold.
  - destruct (ok_leaving _ _ _ Hok Hm) as (?&?&_). constructor; [done| |done]. by destruct Hc.
  - assert (state (tasks s (current k)) = TASK_RUNNING) as Hr by (apply (ok_running _ _ _ Hok Ho); by rewrite Hm).
    destruct (decide (current k = idle k)) as [|Hn]; [by apply way_idle|]. destruct Hc as [|Hc]; [done|]. destruct ms; [by apply way_back|by apply way_elsewhere].
Qed.

Lemma listed_nonzero X s t : inv X s -> t ∈ task_list s -> t <> 0.
Proof. intros Hi Ht ->. destruct (iv_list X s Hi) as [_ Ha]. by apply (iv_alloc X s Hi), Ha. Qed.

Lemma switched_tasks X s c k hold next ms l : inv X s -> cpus s !! c = Some k -> todo k = Switch hold next ms :: l ->
  cpu_tasks (set_todo (Ctx_switch :: l) (switched hold next ms s k)) ≡ₚ cpu_tasks k.
Proof.
  intros Hi Hk Ht. pose proof (way_of X s c k hold next ms l Hi Hk Ht) as Hw. destruct (first_item X s c k _ l Hi Hk Ht) as (Ho&Hty&_).
  apply typed_cons in Hty as (_&_&Hp&_). specialize (plain_flights l (Hp eq_refl)) as Hf.
  pose proof (iv_cpus X s Hi c k Hk) as Hok. destruct (unswitched s c k Hok) as (_&Hm&Hs); [by rewrite Ht|]. specialize (Hs Ho).
  assert (flights (todo k) = [next]) as Hf' by (rewrite Ht; unfold flights in *; cbn; by rewrite Hf).
  unfold cpu_tasks, left_behind at 2, switched, left_behind, is_state. fold (flights (todo k)). rewrite Hf', Ht.
  destruct Hw as [Hout Hl Hn|Hst E|Hst Hl Hn ->|Hst Hl Hn ->]; cbn.
  - rewrite bool_decide_eq_false_2 by (unfold out, asleep in Hout; destruct Hout as [[]|]; congruence). cbn. fold (flights l). rewrite Ho, Hm, Hf, Hs, app_nil_r. cbn.
    rewrite (Permutation_app_comm (queue k)). apply Permutation_swap.
  - rewrite bool_decide_eq_true_2 by done. rewrite E, Z.eqb_refl. cbn. fold (flights l). rewrite Ho, Hm, Hf, Hs, E, Z.eqb_refl, app_nil_r. cbn.
    rewrite (Permutation_app_comm (queue k)). apply Permutation_swap.
  - apply Z.eqb_neq in Hn. rewrite bool_decide_eq_true_2 by done. rewrite Hn. cbn. fold (flights l). rewrite Ho, Hm, Hf, Hs, Hn, app_nil_r. cbn.
    rewrite !(Permutation_app_comm (queue k)). apply Permutation_swap.
  - apply Z.eqb_neq in Hn. rewrite bool_decide_eq_true_2 by done. rewrite Hn. cbn. fold (flights l). rewrite Ho, Hm, Hf, Hs, Hn, !app_nil_r. cbn.
    assert (current k =? 0 = false) as -> by (apply Z.eqb_neq; by apply (listed_nonzero X s)).
    rewrite !(Permutation_app_comm (queue k)). apply Permutation_swap.
Qed.

Lemma idle_facts X s c k : inv X s -> cpus s !! c = Some k ->
  idle k <> 0 /\ idle k ∈ allocated s /\ idle k ∉ task_list s /\ affinity (tasks s (idle k)) = Z.of_nat c /\ queued_on (tasks s (idle k)) = -1.
Proof. intros Hi. destruct (iv_idles X s Hi) as [_ H]. apply H. Qed.

(** Everything [switch_to] starts from. *)
Lemma switch_from X s c k hold next ms l : inv X s -> cpus s !! c = Some k -> todo k = Switch hold next ms :: l ->
  online k = true /\ forallb plain l = true /\ typed Unlocked l = true /\ existsb prompt l = false /\
  (runnable s next \/ next = idle k) /\ next <> current k /\ next ∉ queue k /\ current k ∉ queue k /\ next ∈ cpu_tasks k.
Proof.
  intros Hi Hk Ht. destruct (first_item X s c k _ l Hi Hk Ht) as (Ho&Hty&Hit&_). apply typed_cons in Hty as (_&Hpr&Hp&Htl). specialize (Hp eq_refl).
  assert (NoDup (current k :: queue k ++ [next])) as [Hc (_&Hq&_)%NoDup_app]%NoDup_cons.
  { pose proof (queue_nodup X s c k Hi Hk) as Hn. destruct (unswitched s c k (iv_cpus X s Hi c k Hk)) as (_&Hm&_); [by rewrite Ht|].
    unfold cpu_tasks, left_behind in Hn. rewrite Ho, Hm, Ht in Hn. cbn in Hn. fold (flights l) in Hn. by rewrite (plain_flights l Hp) in Hn. }
  rewrite elem_of_app, list_elem_of_singleton in Hc. split; [done|]. split; [done|]. split; [done|]. split; [done|]. split; [destruct Hit as [|[]]; auto|].
  split; [intros E; apply Hc; by right|]. split; [intros Hin; apply (Hq next Hin); by apply list_elem_of_singleton|]. split; [by intros Hin; apply Hc; left|].
  apply (in_items k next (Switch hold next ms)); [rewrite Ht|]; by left.
Qed.

Lemma switch_ok X s s' c k hold next ms l : inv X s -> cpus s !! c = Some k -> todo k = Switch hold next ms :: l ->
  tasks s' = tasks (switch_to c hold next ms s) -> task_list s' = task_list s -> cpu_ok s' c (set_todo (Ctx_switch :: l) (switched hold next ms s k)).
Proof.
  intros Hi Hk Ht Et El. pose proof (way_of X s c k hold next ms l Hi Hk Ht) as Hw. destruct (switch_from X s c k hold next ms l Hi Hk Ht) as (Ho&Hp&Htl&Hpr&Hne&Hnc&Hnq&Hcq&_).
  pose proof (iv_cpus X s Hi c k Hk) as Hok. destruct (unswitched s c k Hok) as (_&Hm0&Hs); [by rewrite Ht|]. specialize (Hs Ho).
  set (k' := set_todo (Ctx_switch :: l) (switched hold next ms s k)).
  assert (forall x, tasks s' x = if x =? next then begin_turn c (tasks s x) else if (x =? current k) && is_state s (current k) TASK_RUNNING then left_old c ms k (tasks s x) else tasks s x) as Hx
    by (intros x; rewrite Et; by apply switch_tasks).
  assert (tasks s' next = begin_turn c (tasks s next)) as Hxn by (by rewrite Hx, Z.eqb_refl).
  assert (tasks s' (current k) = if is_state s (current k) TASK_RUNNING then left_old c ms k (tasks s (current k)) else tasks s (current k)) as Hxc.
  { rewrite Hx, Z.eqb_refl. apply not_eq_sym, Z.eqb_neq in Hnc. by rewrite Hnc. }
  assert (current k' = next /\ idle k' = idle k /\ online k' = true /\ stack k' = current k /\ release_sched k' = hold /\ todo k' = Ctx_switch :: l) as (F1&F2&F3&F4&F5&F6).
  { unfold k', switched. destruct (_ && _); [destruct ms|]; done. }
  assert (typed (if hold then Locked else Unlocked) (Ctx_switch :: l) = true) as Hty by (apply typed_cons; split; [by destruct hold|]; done).
  destruct (mode_typed k' (if hold then Locked else Unlocked)) as [Hm Hh]; rewrite ?F5, ?F6; [done..|].
  assert (queued_on (tasks s next) = -1) as Hqn by (destruct Hne as [(_&_&?)| ->]; [done|]; by apply (idle_facts X s c k Hi Hk)).
  destruct (ok_current _ _ _ Hok Ho) as [_ Hqc].
  assert (forall t, t ∈ queue k -> t ∈ task_list s /\ state (tasks s' t) = TASK_READY /\ queued_on (tasks s' t) = Z.of_nat c) as Hq.
  { intros t Hin. rewrite Hx. assert (t <> next /\ t <> current k) as [->%Z.eqb_neq ->%Z.eqb_neq] by (split; by intros ->). by apply (ok_queue _ _ _ Hok). }
  split; rewrite ?F1, ?F2, ?F3, ?F4, ?F5, ?F6, ?Hm, ?El, ?Hxn; try done.
  - intros _. split; [|done]. destruct Hne as [(?&_)|]; auto.
  - by destruct hold.
  - intros E. pose proof (ok_quiet _ _ _ Hok) as Hquiet. rewrite Ht, Hs in Hquiet. by apply Hquiet.
  - unfold k', switched, is_state in *. destruct Hw as [Hout Hl Hn|Hst E|Hst Hl Hn ->|Hst Hl Hn ->].
    + rewrite bool_decide_eq_false_2 by (unfold out, asleep in Hout; destruct Hout as [[]|]; congruence). apply Hq.
    + rewrite E, Z.eqb_refl, andb_false_r. apply Hq.
    + apply Z.eqb_neq in Hn as Hn'. rewrite bool_decide_eq_true_2, Hn' by done. cbn. intros t [Hin|Hin%list_elem_of_singleton]%elem_of_app; [by apply Hq|subst t].
      rewrite Hxc, bool_decide_eq_true_2 by done. unfold left_old. by rewrite Hn'.
    + apply Z.eqb_neq in Hn as Hn'. rewrite bool_decide_eq_true_2, Hn' by done. apply Hq.
  - pose proof (ok_count _ _ _ Hok) as Hcn. unfold k', switched. destruct (_ && _); [|done]. destruct ms; [|done]. cbn. rewrite Hcn, u32_add, length_app, Nat2Z.inj_add. done.
  - unfold k', switched, is_state in *. destruct Hw as [Hout Hl Hn|Hst E|Hst Hl Hn ->|Hst Hl Hn ->].
    + rewrite bool_decide_eq_false_2 by (unfold out, asleep in Hout; destruct Hout as [[]|]; congruence). cbn. congruence.
    + rewrite E, Z.eqb_refl, andb_false_r. cbn. congruence.
    + apply Z.eqb_neq in Hn as ->. rewrite andb_true_r. destruct (bool_decide _); cbn; congruence.
    + apply Z.eqb_neq in Hn as Hn'. rewrite bool_decide_eq_true_2, Hn' by done. cbn. intros _. split; [done|]. unfold runnable.
      rewrite Hxc, El, bool_decide_eq_true_2 by done. unfold left_old. by rewrite Hn'.
  - intros _. split; [congruence|]. unfold k', switched, is_state in *. destruct Hw as [Hout Hl Hn|Hst E|Hst Hl Hn ->|Hst Hl Hn ->].
    + do 3 right. rewrite Hxc, bool_decide_eq_false_2 by (unfold out, asleep in Hout; destruct Hout as [[]|]; congruence). done.
    + auto.
    + left. apply Z.eqb_neq in Hn as ->. rewrite bool_decide_eq_true_2 by done. cbn. apply elem_of_app. right. by apply list_elem_of_singleton.
    + right; left. apply Z.eqb_neq in Hn as ->. rewrite bool_decide_eq_true_2 by done. split; [done|]. by apply (listed_nonzero X s).
  - split; [done|]. by apply plain_items.
Qed.

Lemma switch_change X s s' c k hold next ms l : inv X s -> cpus s !! c = Some k -> todo k = Switch hold next ms :: l ->
  cpus s' = <[c := set_todo (Ctx_switch :: l) (switched hold next ms s k)]> (cpus s) ->
  tasks s' = tasks (switch_to c hold next ms s) -> task_list s' = task_list s -> allocated s' = allocated s -> change s s'.
Proof.
  intros Hi Hk Ht Ek Et El Ea. destruct (switch_from X s c k hold next ms l Hi Hk Ht) as (Ho&_&_&_&Hne&Hnc&_).
  destruct (ok_current _ _ _ (iv_cpus X s Hi c k Hk) Ho) as [Hcur _].
  apply (change_one s s' c k _ Hk Ek); [unfold switched; destruct (_ && _); [by destruct ms|done]..|done|done| |].
  - intros t. rewrite Et, (switch_tasks c hold next ms s k t Hk Hnc). unfold left_old.
    destruct (t =? next); [auto|]. destruct (_ && is_state _ _ _); [|auto]. destruct (_ && _); auto.
  - intros t Hno. rewrite Et, (switch_tasks c hold next ms s k t Hk Hnc). unfold left_old, asleep.
    destruct (Z.eqb_spec t next); [split; [done|by intros []]|]. destruct (Z.eqb_spec t (current k)) as [->|]; [|done]. destruct (is_state _ _ _); [|done].
    destruct Hcur as [E|]; [|done]. rewrite E, Z.eqb_refl. cbn. split; [done|by intros []].
Qed.

Lemma inv_switch X s c k hold next ms l : inv X s -> cpus s !! c = Some k -> todo k = Switch hold next ms :: l ->
  inv X (set_cpu c (set_todo (Ctx_switch :: l)) (switch_to c hold next ms s)).
Proof.
  intros Hi Hk Ht. set (k' := set_todo (Ctx_switch :: l) (switched hold next ms s k)). set (s' := set_cpu _ _ _).
  destruct (switch_from X s c k hold next ms l Hi Hk Ht) as (Ho&_&_&_&Hne&Hnc&_&_&Hin).
  assert (cpus s' = <[c := k']> (cpus s)) as Ek.
  { unfold s'. rewrite (cpus_set_cpu _ c _ (switched hold next ms s k)), (switch_cpus c hold next ms s k Hk), list_insert_insert_eq; [done|].
    rewrite (switch_cpus c hold next ms s k Hk). apply list_lookup_insert_eq. by eapply lookup_lt_Some. }
  assert (task_list s' = task_list s /\ allocated s' = allocated s) as [El Ea].
  { unfold s', switch_to, leave_old. destruct (is_state _ _ _); [|done]. destruct (_ =? _); [done|]. by destruct ms. }
  assert (change s s') as Hc by (by apply (switch_change X s s' c k hold next ms l)).
  assert (forall x, tasks s' x = if x =? next then begin_turn c (tasks s x) else if (x =? current k) && is_state s (current k) TASK_RUNNING then left_old c ms k (tasks s x) else tasks s x) as Hx
    by (intros x; by apply switch_tasks).
  apply (inv_one X X [] s s' c k k'); try done.
  - intros t. destruct (decide (t = next)) as [->|Hn]; [right; apply elem_of_app; by right|].
    destruct (decide (t = current k)) as [->|Hn']; [right; apply elem_of_app; right; by apply in_current|]. left.
    apply Z.eqb_neq in Hn, Hn'. assert (tasks s' t = tasks s t) as Es by (by rewrite Hx, Hn, Hn'). split; by rewrite ?Es, ?El, ?Ea.
  - rewrite app_nil_l. f_equiv. symmetry. apply (placed_same s s' c k k' Hk Ek). by apply (switched_tasks X s c).
  - by intros t ?%elem_of_nil.
  - intros t HtX. destruct (iv_between X s Hi t HtX) as [? Hq]. split; [done|]. rewrite Hx.
    pose proof (iv_nodup X s Hi) as (_&Hd&_)%NoDup_app. assert (forall x, x ∈ cpu_tasks k -> t =? x = false) as Hno.
    { intros x Hxk. apply Z.eqb_neq. intros ->. apply (Hd x HtX). apply placed_elem. by exists c, k. }
    rewrite (Hno next Hin), (Hno (current k) (in_current k Ho)). done.
  - unfold sched_held. rewrite Ht. unfold k', switched. destruct (_ && _); [by destruct ms|done].
  - by apply (switch_ok X s).
  - intros t Hq. rewrite Hx in Hq |- *. assert (forall t, queued_on (tasks s t) = Z.of_nat c -> t ∈ queue k') as Hold.
    { intros x Hxq%(queued_in X s _ _ Hi). rewrite (cpu_at_some s c k Hk) in Hxq. unfold k', switched. destruct (is_state _ _ _ && _); [|done].
      destruct ms; [|done]. cbn. apply elem_of_app. by left. }
    destruct (t =? next); [left; auto|]. destruct (Z.eqb_spec t (current k)) as [Ec|]; [|left; auto]. unfold left_old, k', switched in *.
    destruct (is_state _ _ _); [|left; auto]. destruct (current k =? idle k); [left; auto|]. destruct ms; [right|left; auto]. cbn. split; [done|].
    apply elem_of_app. right. by apply list_elem_of_singleton.
Qed.

(** ** Onto the other stack *)

Lemma behind_out X s c k l t : inv X s -> cpus s !! c = Some k -> todo k = Ctx_switch :: l -> t ∈ left_behind k -> t ∈ task_list s -> out (state (tasks s t)).
Proof.
  intros Hi Hk Ht Hin Hl. pose proof (queue_nodup X s c k Hi Hk) as Hn. destruct (first_item X s c k _ l Hi Hk Ht) as (Ho&_).
  pose proof (ok_stack _ _ _ (iv_cpus X s Hi c k Hk) Ho) as Hs. rewrite Ht in Hs. destruct Hs as [_ Hs].
  unfold cpu_tasks in Hn. rewrite Ho in Hn. cbn in Hn. apply NoDup_cons in Hn as [_ (_&Hn&_)%NoDup_app]. specialize (Hn t Hin). rewrite !elem_of_app in Hn.
  unfold left_behind in Hin. rewrite Ht in Hin. assert (t = stack k) as -> by (destruct (_ || _); [by apply list_elem_of_singleton in Hin|by apply elem_of_nil in Hin]).
  destruct (idle_facts X s c k Hi Hk) as (_&_&Hni&_). destruct Hs as [Hq|[[Hq Hq0]|[Hq|(_&_&?&_)]]]; [tauto| |congruence|done].
  destruct Hn. right; left. apply Z.eqb_neq in Hq0 as ->. by apply list_elem_of_singleton.
Qed.

Lemma idles_elem s c k : cpus s !! c = Some k -> idle k ∈ idles s.
Proof. intros Hk. apply list_elem_of_fmap. exists k. split; [done|]. by eapply list_elem_of_lookup_2. Qed.
Lemma idles_facts X s t : inv X s -> t ∈ idles s -> t ∉ task_list s /\ t <> 0 /\ t ∈ allocated s.
Proof.
  intros Hi Ht. apply list_elem_of_fmap in Ht as (k&->&Hk). apply list_elem_of_lookup in Hk as [c Hk]. destruct (idle_facts X s c k Hi Hk) as (?&?&?&_). done.
Qed.
Lemma stack_quiet X s c k l : inv X s -> cpus s !! c = Some k -> todo k = Ctx_switch :: l -> stack k ∈ idles s -> forallb quiet l = true.
Proof.
  intros Hi Hk Ht Hid. destruct (idles_facts X s _ Hi Hid) as (Hnl&Hn0&_). pose proof (iv_cpus X s Hi c k Hk) as Hok.
  destruct (first_item X s c k _ l Hi Hk Ht) as (Ho&_). pose proof (ok_stack _ _ _ Hok Ho) as Hs. rewrite Ht in Hs.
  assert (stack k = idle k) as E.
  { destruct Hs as [_ [Hs|[[Hs Hm]|[|(_&?&_)]]]]; [|..|done|done]; destruct Hnl.
    - by apply (ok_queue _ _ _ Hok).
    - rewrite Hs. by apply (ok_moving _ _ _ Hok). }
  pose proof (ok_quiet _ _ _ Hok E) as Hq. by rewrite Ht in Hq.
Qed.

Lemma inv_context X s c k l : inv X s -> cpus s !! c = Some k -> todo k = Ctx_switch :: l ->
  inv X (set_cpu c (set_todo (Finish :: rest (tasks s (current k)))) (set_cpu c (set_stack (current k)) (set_task (stack k) (set_rest l) s))).
Proof.
  intros Hi Hk Ht. set (f := fun k => set_todo (Finish :: rest (tasks s (current k))) (set_stack (current k) k)). set (s' := set_cpu _ _ _).
  destruct (first_item X s c k _ l Hi Hk Ht) as (Ho&Hty&_). apply typed_cons in Hty as (Hm%bool_decide_eq_true&_&Hp&Htl). specialize (Hp eq_refl).
  pose proof (iv_cpus X s Hi c k Hk) as Hok. pose proof (ok_stack _ _ _ Hok Ho) as Hs. rewrite Ht in Hs. destruct Hs as [Hn Hs].
  destruct (iv_rest X s Hi (current k)) as (Hr1&Hr2&Hr3). set (r := rest (tasks s (current k))) in *.
  assert (cpus s' = <[c := f k]> (cpus s)) as Ek.
  { unfold s'. rewrite (cpus_set_cpu _ c _ (set_stack (current k) k)); rewrite (cpus_set_cpu _ c _ k) by done; [by rewrite list_insert_insert_eq|].
    apply list_lookup_insert_eq. by eapply lookup_lt_Some. }
  assert (forall x, tasks s' x = if x =? stack k then set_rest l (tasks s x) else tasks s x) as Hx by done.
  assert (change s s') as Hc.
  { apply (change_one s s' c k (f k)); try done; intros x; rewrite Hx; [|by destruct (x =? stack k)]. destruct (Z.eqb_spec x (stack k)) as [->|]; [|by auto]. split; [done|]. split; [done|]. right. split; [done|]. split; [done|].
    intros Hid. by apply (stack_quiet X s c k). }
  assert (forall x, same_view s s' x) as Hv by (intros x; split; rewrite ?Hx; destruct (x =? stack k); done).
  assert (mode_of k = if release_sched k then Locked else Unlocked) as Hmk.
  { unfold mode_of in *. destruct (leaving (todo k)); [done|]. unfold sched_held. rewrite Ht. by destruct (release_sched k). }
  assert (typed (mode_of k) (Finish :: r) = true) as Hty.
  { apply typed_cons. split; [by apply bool_decide_eq_true|]. split; [by apply plain_prompt|]. by split. }
  destruct (mode_typed (f k) (mode_of k)) as [Hm' Hh']; [done|done|].
  apply (inv_one X X (left_behind k) s s' c k (f k)); try done.
  - auto.
  - rewrite (Permutation_app_swap_app (left_behind k)). f_equiv. apply (placed_less s s' c k (f k) _ Hk Ek). unfold f, cpu_tasks, left_behind. cbn. rewrite Ht. cbn.
    fold r. fold (flights l) (flights r). rewrite (plain_flights l Hp), (plain_flights r Hr2). apply Permutation_app_swap_app.
  - intros t Hin Hl. rewrite (sv_state _ _ _ (Hv t)). by apply (behind_out X s c k l).
  - intros t Hin. rewrite (sv_queued _ _ _ (Hv t)). by apply Hi.
  - rewrite Hh'. by rewrite (mode_held s c k Hok).
  - destruct (others_ok X s s' c k k Hi Hc ltac:(by intros) Hk (same_core_refl k)) as [O1 O2 O3 O4 O5 Oa Oq O6 O7 O8 O9 O10 O11].
    split; rewrite ?Hm'; try done; cbn.
    + congruence.
    + intros E. apply Hr3. rewrite E. by eapply idles_elem.
    + intros Hmv. split; [done|by apply O8].
    + split; [done|]. by apply plain_items.
  - intros t Hq. left. rewrite (sv_queued _ _ _ (Hv t)). split; [done|]. intros E%(queued_in X s _ _ Hi). by rewrite (cpu_at_some s c k Hk) in E.
Qed.

Lemma unleft k : switching (todo k) = false -> left_behind k = [].
Proof. unfold left_behind. by destruct (todo k) as [|[] ?]. Qed.

Lemma item_held s k h o : item_ok s k false o -> item_ok s k h o.
Proof. destruct o; cbn; naive_solver. Qed.
Lemma items_all s k h l : Forall (item_ok s k false) l -> match l with [] => True | o :: l0 => item_ok s k h o /\ Forall (item_ok s k false) l0 end.
Proof. intros []; [done|]. split; [by apply item_held|done]. Qed.

Definition finished (k : cpu) (l : list op) : list op :=
  (if release_sched k then [Sched_unlock] else []) ++ (if moving k =? 0 then [] else [Place (moving k) true]) ++ l.

Lemma inv_finish X s c k l : inv X s -> cpus s !! c = Some k -> todo k = Finish :: l ->
  inv X (set_cpu c (set_todo (finished k l)) (set_cpu c (set_switch false 0) s)).
Proof.
  intros Hi Hk Ht. set (k' := set_todo (finished k l) (set_switch false 0 k)). set (s' := set_cpu _ _ _).
  destruct (first_item X s c k _ l Hi Hk Ht) as (Ho&Hty&_&Hit). apply typed_cons in Hty as (Hm%bool_decide_eq_true&Hpr&_&Htl).
  pose proof (iv_cpus X s Hi c k Hk) as Hok. pose proof (ok_stack _ _ _ Hok Ho) as Hs. rewrite Ht in Hs.
  assert (cpus s' = <[c := k']> (cpus s)) as Ek.
  { unfold s'. rewrite (cpus_set_cpu _ c _ (set_switch false 0 k)); rewrite (cpus_set_cpu _ c _ k) by done; [by rewrite list_insert_insert_eq|].
    apply list_lookup_insert_eq. by eapply lookup_lt_Some. }
  assert (change s s') as Hc by (apply (change_one s s' c k k'); auto).
  assert (forall x, same_view s s' x) as Hv by (by intros x; split).
  assert (mode_of k = if release_sched k then Locked else Unlocked) as Hmk.
  { unfold mode_of in *. destruct (leaving (todo k)); [done|]. unfold sched_held. rewrite Ht. by destruct (release_sched k). }
  assert (typed (mode_of k) (finished k l) = true /\ switching (finished k l) = false) as [Hty Hsw].
  { rewrite Hmk. unfold finished. destruct l as [|o l], (release_sched k), (moving k =? 0); cbn in Hpr, Htl |- *; rewrite ?Hpr, ?Htl; try done; destruct o; done. }
  destruct (mode_typed k' (mode_of k)) as [Hm' Hh']; [done|cbn; by rewrite Hsw|].
  assert (cpu_tasks k = cpu_tasks k') as Ep.
  { unfold cpu_tasks. rewrite (unleft k') by done. unfold left_behind. rewrite Ht. cbn. fold (flights l) (flights (finished k l)). do 2 f_equal.
    unfold finished. rewrite !flights_app. destruct (release_sched k), (moving k =? 0); done. }
  apply (inv_one X X [] s s' c k k'); try done; [auto|..].
  - rewrite app_nil_l. f_equiv. symmetry. apply (placed_same s s' c k k' Hk Ek). by rewrite Ep.
  - by intros t ?%elem_of_nil.
  - apply Hi.
  - rewrite Hh'. by rewrite (mode_held s c k Hok).
  - destruct (others_ok X s s' c k k Hi Hc ltac:(by intros) Hk (same_core_refl k)) as [O1 O2 O3 O4 O5 Oa Oq O6 O7 O8 O9 O10 O11].
    split; rewrite ?Hm'; try done; cbn.
    + congruence.
    + intros E. unfold finished. specialize (Oq E). rewrite Ht in Oq. rewrite !forallb_app. cbn in Oq. rewrite Oq. by destruct (release_sched k), (moving k =? 0).
    + intros _. by destruct (finished k l) as [|[] ?].
    + apply items_all. unfold finished. apply Forall_app. split; [destruct (release_sched k); by repeat constructor|]. apply Forall_app. split.
      * destruct (Z.eqb_spec (moving k) 0); [constructor|]. constructor; [|constructor]. left. by apply O8.
      * rewrite Ht in O11. by apply O11.
  - intros t Hq. left. split; [done|]. intros E%(queued_in X s _ _ Hi). by rewrite (cpu_at_some s c k Hk) in E.
Qed.

(** * Giving up the CPU *)

Lemma set_twice s c f g k : cpus s !! c = Some k -> cpus (set_cpu c g (set_cpu c f s)) = <[c := g (f k)]> (cpus s).
Proof.
  intros Hk. rewrite (cpus_set_cpu _ c _ (f k)); rewrite (cpus_set_cpu _ c _ k) by done; [by rewrite list_insert_insert_eq|].
  apply list_lookup_insert_eq. by eapply lookup_lt_Some.
Qed.

Lemma inv_leave X s c k st l' : inv X s -> cpus s !! c = Some k -> online k = true -> switching (todo k) = false -> mode_of k = Locked ->
  current k <> idle k -> flights (todo k) = [] -> out st -> forallb bare l' = true -> switching l' = false -> typed Leaving l' = true -> (st = TASK_BLOCKED -> in_schedule l' = true) ->
  (st = TASK_STOPPED -> Forall (away s (current k)) l') -> inv X (set_cpu c (set_todo l') (set_task (current k) (set_state st) s)).
Proof.
  intros Hi Hk Ho Hs Hm Hn Hf Hst Hp Hs' Hty Hb Ha. set (k' := set_todo l' k). set (s' := set_cpu _ _ _). pose proof (iv_cpus X s Hi c k Hk) as Hok.
  assert (cpus s' = <[c := k']> (cpus s)) as Ek by (apply (cpus_set_cpu (set_task (current k) (set_state st) s) c (set_todo l') k Hk)).
  destruct (mode_typed k' Leaving) as [Hm' Hh']; [done|cbn; by rewrite Hs'|]. pose proof (mode_held s c k Hok) as Hh. rewrite Hm in Hh.
  assert (current k ∈ task_list s) as Hl by (by destruct (ok_current _ _ _ Hok Ho) as [[] _]).
  assert (forall x, tasks s' x = if x =? current k then set_state st (tasks s x) else tasks s x) as Hx by done.
  assert (forall x, x <> current k -> tasks s' x = tasks s x) as Hx' by (intros x Hne; rewrite Hx; by apply Z.eqb_neq in Hne as ->).
  assert (tasks s' (current k) = set_state st (tasks s (current k))) as Hxc by (by rewrite Hx, Z.eqb_refl).
  assert (change s s') as Hc.
  { apply (change_one s s' c k k'); try done; intros x; destruct (decide (x = current k)) as [->|]; rewrite ?Hxc, ?Hx' by done; cbn; auto; done. }
  assert (cpu_tasks k' = cpu_tasks k) as Ep.
  { unfold cpu_tasks. rewrite (unleft k), (unleft k') by done. fold (flights (todo k)) (flights (todo k')). rewrite Hf. change (todo k') with l'. by rewrite (bare_flights l' Hp). }
  apply (inv_one X X [] s s' c k k'); try done.
  - intros x. destruct (decide (x = current k)) as [->|]; [right; apply elem_of_app; right; by apply in_current|left; split; by rewrite ?Hx'].
  - rewrite app_nil_l. f_equiv. symmetry. apply (placed_same s s' c k k' Hk Ek). by rewrite Ep.
  - by intros x ?%elem_of_nil.
  - intros x HX. destruct (iv_between X s Hi x HX). split; [done|]. rewrite Hx. by destruct (_ =? _).
  - destruct Hok as [O1 O2 O3 O4 O5 Oa Oq O6 O7 O8 O9 O10 O11]. pose proof (queue_nodup X s c k Hi Hk) as Hnd.
    assert (forall t, t ∈ queue k -> t <> current k) as Hq.
    { intros t Ht ->. unfold cpu_tasks in Hnd. rewrite Ho in Hnd. apply NoDup_cons in Hnd as [Hnd _]. apply Hnd. rewrite !elem_of_app. tauto. }
    destruct (unswitched s c k) as (Hr&Hmv&Hstk); [done|done|]. split; rewrite ?Hm'; cbn; rewrite ?Z.eqb_refl; try done.
    + congruence.
    + intros _ E. apply (away_frame s); [|by apply Ha]. intros x. rewrite Hx. by destruct (_ =? _).
    + intros E. rewrite Hstk in E by done. done.
    + intros t Ht. apply Hq in Ht as Hne. apply Z.eqb_neq in Hne as ->. by apply O6.
    + congruence.
    + intros _. destruct l' as [|[] ?]; try done; auto.
    + by apply items_all, bare_items.
  - intros x Hq. left. assert (queued_on (tasks s' x) = queued_on (tasks s x)) as E by (rewrite Hx; by destruct (_ =? _)). split; [done|].
    intros E'%(queued_in X s _ _ Hi). by rewrite (cpu_at_some s c k Hk) in E'.
Qed.
