(* ===== verification/SchedRun.v ===== *)
(** Every step of the scheduler keeps the invariant. *)
From stdpp Require Import base tactics numbers list sets gmap relations.
From Stdlib Require Import ZArith Lia.
From S2P Require Import Prelude Sched SchedInv SchedMoves.

Open Scope Z_scope.

(** * Steps that leave tasks where they are *)

(** The same list to do, in a state that differs in what does not matter. *)
Lemma inert_todo c l s s' : inert s s' -> (forall t, proc (tasks s' t) = proc (tasks s t)) -> inert (set_cpu c (set_todo l) s) (set_cpu c (set_todo l) s').
Proof.
  intros H Hp. split; [|apply H|intros t _ _; apply Hp|apply H..].
  cbn. apply Forall2_alter; [apply H|]. intros k k' _ _ []. by split.
Qed.

Lemma todo_twice c l l' s k : cpus s !! c = Some k -> set_cpu c (set_todo l') (set_cpu c (set_todo l) s) = set_cpu c (set_todo l') s.
Proof. intros Hk. pose proof (set_twice s c (set_todo l) (set_todo l') k Hk) as E. pose proof (cpus_set_cpu s c (set_todo l') k Hk) as E'. unfold set_cpu in *. cbn in *. by rewrite E, E'. Qed.

Lemma item_inert s s1 k k1 h o : inert s s1 -> same_core k k1 -> item_ok s k h o -> item_ok s1 k1 h o.
Proof.
  intros H Hs Ho. apply (item_frame s s1 k k1 h o Ho); [apply Hs|apply Hs|intros; by apply inert_view|by apply inert_idles|apply (cg_online _ _ (inert_change s s1 H))].
Qed.

Lemma inert_free s s1 : inert s s1 -> sched_free s = true -> sched_free s1 = true.
Proof.
  intros H. unfold sched_free. rewrite !forallb_forall. intros Hf k1 Hk1. apply list_elem_of_In, list_elem_of_lookup in Hk1 as [c Hk1].
  destruct (inert_lookup s s1 c k1 H Hk1) as (k&Hk&Hs). rewrite (same_core_held _ _ Hs). apply Hf, list_elem_of_In. by eapply list_elem_of_lookup_2.
Qed.

(** The first item gives way to [ops]; what follows stays, or is given up. *)
Record replaced (s : sched) (k : cpu) (o : op) (m : mode) (ops l : list op) : Prop := {
  rp_typed : typed m (ops ++ l) = true;
  rp_mode : m = mode_of k \/ (mode_of k = Locked /\ m = Unlocked) \/ (mode_of k = Unlocked /\ m = Locked /\ sched_free s = true);
  rp_blocked : m = Leaving -> state (tasks s (current k)) = TASK_BLOCKED -> in_schedule (ops ++ l) = true;
  rp_away : m = Leaving -> state (tasks s (current k)) = TASK_STOPPED -> Forall (away s (current k)) ops;
  rp_quiet : quiet o = true -> current k = idle k -> forallb quiet ops = true;
  rp_nodup : NoDup (flights ops);
  rp_new : forall t, t ∈ flights ops -> t ∈ op_tasks o \/ t ∉ placed s;
  rp_kept : forall t, t ∈ op_tasks o -> t ∈ flights ops \/ t ∉ task_list s \/ out (state (tasks s t));
  rp_items : match ops with [] => True | o :: ops => item_ok s k (negb (bool_decide (m = Unlocked))) o /\ Forall (item_ok s k false) ops end
}.

Lemma flights_todo X s c k o l : inv X s -> cpus s !! c = Some k -> todo k = o :: l ->
  NoDup (op_tasks o ++ flights l) /\ (forall t, t ∈ op_tasks o ++ flights l -> t ∈ placed s).
Proof.
  intros Hi Hk Ht. assert (flights (todo k) = op_tasks o ++ flights l) as E by (by rewrite Ht). rewrite <- E. split.
  - pose proof (queue_nodup X s c k Hi Hk) as Hn. unfold cpu_tasks in Hn. apply NoDup_app in Hn as (_&_&Hn). apply NoDup_app in Hn as (_&_&Hn).
    apply NoDup_app in Hn as (_&_&Hn). by apply NoDup_app in Hn as (_&_&Hn).
  - intros t Hin. apply placed_elem. exists c, k. split; [done|]. unfold cpu_tasks. rewrite !elem_of_app. auto.
Qed.

Lemma inv_ops s s1 c k o l m ops l2 : inv [] s -> cpus s !! c = Some k -> todo k = o :: l -> switching (o :: l) = false -> inert s s1 ->
  l2 = l \/ (l2 = [] /\ forallb plain l = true) -> switching (ops ++ l2) = false -> replaced s k o m ops l2 -> inv [] (set_cpu c (set_todo (ops ++ l2)) s1).
Proof.
  intros Hi Hk Ht Hs Hin Hl2 Hs2 [R1 R2 R3 R4 R5 R6 R7 R8 R9]. destruct (first_item [] s c k o l Hi Hk Ht) as (Ho&_&_&Hit).
  pose proof (iv_cpus [] s Hi c k Hk) as Hok. destruct (flights_todo [] s c k o l Hi Hk Ht) as [Hnd Hpl].
  pose proof (inert_cpu s s1 c Hin) as Hsc. rewrite (cpu_at_some s c k Hk) in Hsc. set (k1 := cpu_at c s1) in *.
  assert (online k1 = true) as Ho1 by (by rewrite (sc_online _ _ Hsc)).
  assert (flights l2 = flights l) as Hf2 by (destruct Hl2 as [->|[-> Hp]]; [done|by rewrite (plain_flights l Hp)]).
  assert (Forall (item_ok s k false) l2) as Hit2 by (destruct Hl2 as [->|[-> _]]; [done|constructor]).
  apply (inv_todo [] [] s1 c k1 m); [by apply (inv_inert [] s)|by apply cpu_at_online|done|by rewrite (sc_todo _ _ Hsc), Ht|done|].
  assert (flights (todo k1) = op_tasks o ++ flights l) as Ef by (by rewrite (sc_todo _ _ Hsc), Ht).
  split; rewrite ?Ef, ?(same_core_mode _ _ Hsc), ?(sc_current _ _ Hsc), ?(sc_idle _ _ Hsc), ?(it_list _ _ Hin), ?(proj1 (it_tasks _ _ Hin _)), ?(inert_placed _ _ Hin), ?flights_app; try done.
  - pose proof (inert_free s s1 Hin). clear - R2 H. tauto.
  - intros Hm Hst. assert (mode_of k = Leaving) as Hmk by (destruct R2 as [|[[]|(?&?&_)]]; congruence).
    apply (away_frame s); [intros x; apply (it_proc _ _ Hin x c); by rewrite (cpu_at_some s c k Hk)|]. apply Forall_app. split; [auto|].
    pose proof (ok_away _ _ _ Hok Hmk Hst) as Ha. rewrite Ht in Ha. apply Forall_cons in Ha as [_ Ha]. destruct Hl2 as [->|[-> _]]; [done|constructor].
  - intros E. destruct (unswitched s c k) as (_&_&Hst); [done|by rewrite Ht|]. pose proof (ok_quiet _ _ _ Hok) as Hq. rewrite Hst, Ht in Hq by done.
    specialize (Hq E). apply andb_true_iff in Hq as [Hq1 Hq2]. rewrite forallb_app, R5 by done. destruct Hl2 as [->|[-> _]]; done.
  - rewrite app_nil_l, Hf2. apply NoDup_app in Hnd as (_&Hd&Hn). apply NoDup_app. split; [done|]. split; [|done]. intros t H1 H2. destruct (R7 t H1) as [|Hno]; [by eapply Hd|].
    apply Hno, Hpl, elem_of_app. by right.
  - intros t. cbn. rewrite Hf2, !elem_of_app. intros [H|]; [|auto]. destruct (R7 t H); auto.
  - intros t. cbn. rewrite Hf2, !elem_of_app, (proj1 (it_tasks _ _ Hin t)). intros [H|]; [|auto]. destruct (R8 t H) as [|[|]]; auto.
  - by intros t ?%elem_of_nil.
  - destruct ops as [|o' ops]; cbn.
    + apply items_all. eapply Forall_impl; [exact Hit2|]. intros o'. by apply item_inert.
    + destruct R9 as [H1 H2]. split; [by eapply item_inert|]. apply Forall_app. split; eapply Forall_impl; [exact H2| |exact Hit2|]; intros o2; by apply item_inert.
Qed.

(** Only items that concern no task come and go. *)
Lemma inv_bare s s1 c k o l m ops l2 : inv [] s -> cpus s !! c = Some k -> todo k = o :: l -> switching [o] = false -> op_tasks o = [] -> inert s s1 ->
  l2 = l \/ (l2 = [] /\ forallb plain l = true) -> switching ops = false -> forallb bare ops = true -> typed m (ops ++ l2) = true ->
  m = mode_of k \/ (mode_of k = Locked /\ m = Unlocked) \/ (mode_of k = Unlocked /\ m = Locked /\ sched_free s = true) ->
  (in_schedule [o] = true -> m = Leaving -> in_schedule ops = true) ->
  (m = Leaving -> state (tasks s (current k)) = TASK_STOPPED -> Forall (away s (current k)) ops) ->
  (quiet o = true -> current k = idle k -> forallb quiet ops = true) -> inv [] (set_cpu c (set_todo (ops ++ l2)) s1).
Proof.
  intros Hi Hk Ht Hs Ho Hin Hl Hs2 Hb Hty Hm His Ha Hq. destruct (first_item [] s c k o l Hi Hk Ht) as (_&Hty0&_). apply typed_cons in Hty0 as (_&Hpr&_).
  apply (inv_ops s s1 c k o l m); try done.
  - destruct ops as [|o' ops]; [|by destruct o']. destruct Hl as [->|[-> _]]; [|done]. by destruct l as [|[] ?].
  - split; rewrite ?(bare_flights ops Hb), ?Ho; try done.
    + intros -> Hst. assert (in_schedule [o] = true) as E; [|specialize (His E eq_refl); by destruct ops].
      assert (mode_of k = Leaving) as Hmk by (destruct Hm as [|[[]|(?&?&_)]]; congruence).
      destruct (ok_leaving _ _ _ (iv_cpus [] s Hi c k Hk) Hmk) as (_&_&Hb'). rewrite Ht in Hb'. by apply Hb'.
    + constructor.
    + by intros t ?%elem_of_nil.
    + by intros t ?%elem_of_nil.
    + by apply items_all, bare_items.
Qed.

(** * Waking *)

Lemma item_out s k o t : item_ok s k false o -> t ∈ op_tasks o -> t ∈ task_list s -> out (state (tasks s t)) -> idle k ∉ task_list s -> False.
Proof.
  intros Ho Hin Hl Hst Hid. assert (runnable s t -> False) as Hr by (intros (_&E&_); rewrite E in Hst; unfold out, asleep in Hst; naive_solver).
  destruct o; cbn in *; try (by apply elem_of_nil in Hin); try (apply list_elem_of_singleton in Hin; subst); unfold unlisted in *; try naive_solver.
  destruct next as [u|]; [|by apply elem_of_nil in Hin]. apply list_elem_of_singleton in Hin as ->. naive_solver.
Qed.
(** With the scheduler lock held, a task that is asleep or has ended is with no CPU, except
    for the one that the holder is about to leave. *)
Lemma out_nowhere s c k o l t : inv [] s -> cpus s !! c = Some k -> todo k = o :: l -> switching [o] = false -> op_tasks o = [] ->
  mode_of k <> Unlocked -> t ∈ task_list s -> out (state (tasks s t)) -> t <> current k -> t ∉ placed s.
Proof.
  intros Hi Hk Ht Hs Ho Hm Hl Hst Hne (j&kj&Hj&Hin)%placed_elem. pose proof (iv_cpus [] s Hi j kj Hj) as Hok.
  assert (sched_held kj = true -> kj = k) as Hlock.
  { intros Hh. assert (j = c) as ->; [|congruence]. apply (iv_lock [] s Hi); [by rewrite (cpu_at_some s j kj Hj)|].
    rewrite (cpu_at_some s c k Hk), (mode_held s c k (iv_cpus [] s Hi c k Hk)). by destruct (mode_of k). }
  assert (state (tasks s t) <> TASK_READY /\ state (tasks s t) <> TASK_RUNNING) as [Hr1 Hr2] by (unfold out, asleep in Hst; destruct Hst as [[]|]; split; congruence).
  unfold cpu_tasks in Hin. rewrite !elem_of_app in Hin. destruct Hin as [Hin|[Hin|[Hin|[Hin|Hin]]]].
  - destruct (online kj) eqn:Hon; apply list_elem_of_singleton in Hin as ->; [|by destruct (idle_facts [] s j kj Hi Hj) as (_&_&?&_)]. apply Hne.
    rewrite Hlock; [done|]. rewrite (mode_held s j kj Hok). destruct (decide (mode_of kj = Leaving)) as [->|Hlv]; [done|]. by destruct Hr2; apply (ok_running _ _ _ Hok).
  - unfold left_behind in Hin. destruct (todo kj) as [|[] lj] eqn:Et; try by apply elem_of_nil in Hin. 
    destruct (release_sched kj) eqn:Er; [rewrite Hlock in Et by (unfold sched_held; by rewrite Et); rewrite Ht in Et; injection Et as -> _; done|]. cbn in Hin.
    destruct (Z.eqb_spec (stack kj) (idle kj)) as [E|]; [|by apply elem_of_nil in Hin]. apply list_elem_of_singleton in Hin as ->. rewrite E in Hl. by destruct (idle_facts [] s j kj Hi Hj) as (_&_&?&_).
  - destruct (ok_queue _ _ _ Hok t Hin) as (_&?&_). done.
  - destruct (Z.eqb_spec (moving kj) 0); [by apply elem_of_nil in Hin|]. apply list_elem_of_singleton in Hin as ->. destruct (ok_moving _ _ _ Hok) as (_&_&?&_); done.
  - apply elem_of_concat in Hin as (ts&Hin&Hts). apply list_elem_of_fmap in Hts as (o'&->&Ho'). apply (item_out s kj o' t); [|done|done|done|by eapply idle_facts].
    pose proof (ok_head _ _ _ Hok) as Hh. destruct (todo kj) as [|oj lj] eqn:Et; [by apply elem_of_nil in Ho'|]. destruct Hh as [Hh1 Hh2].
    apply elem_of_cons in Ho' as [->|Ho']; [|rewrite Forall_forall in Hh2; by apply Hh2]. destruct (sched_held kj) eqn:Eh; [|done].
    rewrite Hlock, Ht in Et by done. injection Et as <- _. rewrite Ho in Hin. by apply elem_of_nil in Hin.
Qed.

Lemma asleep_unqueued X s t : inv X s -> out (state (tasks s t)) -> queued_on (tasks s t) = -1.
Proof.
  intros Hi Hst. destruct (Z.eq_dec (queued_on (tasks s t)) (-1)) as [|Hq]; [done|]. destruct (iv_queued X s Hi t Hq) as (j&_&Hin). exfalso.
  assert (is_Some (cpus s !! j)) as [k Hk] by (unfold cpu_at in Hin; destruct (cpus s !! j); [done|by apply elem_of_nil in Hin]).
  rewrite (cpu_at_some s j k Hk) in Hin. destruct (ok_queue _ _ _ (iv_cpus X s Hi j k Hk) t Hin) as (_&E&_). eapply active_out; [|exact Hst]. by left.
Qed.

Lemma inv_wake s s1 c k o l t ops : inv [] s -> cpus s !! c = Some k -> todo k = o :: l -> switching [o] = false -> in_schedule [o] = false -> op_tasks o = [] ->
  mode_of k <> Unlocked -> asleep (state (tasks s t)) -> (state (tasks s t) = TASK_STOPPED -> away s (current k) o -> t <> current k) -> inert s s1 ->
  forallb bare ops = true -> typed (mode_of k) (ops ++ l) = true -> existsb prompt ops = false -> Forall (away s (current k)) ops -> forallb quiet ops = true ->
  inv [] (set_cpu c (set_todo ((Wake_task t :: ops) ++ l)) s1).
Proof.
  intros Hi Hk Ht Hs Hns Ho Hm Hst Hself Hin Hb Hty Hpr Ha Hq. pose proof (iv_cpus [] s Hi c k Hk) as Hok. destruct (first_item [] s c k o l Hi Hk Ht) as (Hon&Hty0&_).
  apply typed_cons in Hty0 as (_&Hprl&_).
  assert (t <> current k) as Hne.
  { intros ->. destruct (decide (mode_of k = Leaving)) as [Hlv|Hlv].
    - destruct Hst as [Hst|Hst].
      + destruct (ok_leaving _ _ _ Hok Hlv) as (_&_&Hsch). specialize (Hsch Hst). rewrite Ht in Hsch. by destruct o.
      + pose proof (ok_away _ _ _ Hok Hlv Hst) as Haw. rewrite Ht in Haw. apply Forall_cons in Haw as [Haw _]. by apply (Hself Hst Haw).
    - pose proof (ok_running _ _ _ Hok Hon Hlv) as E. rewrite E in Hst. by destruct Hst. }
  assert (t ∈ task_list s) as Hl by (by apply (iv_unlisted [] s Hi)). assert (out (state (tasks s t))) as Hout by (by left).
  apply (inv_ops s s1 c k o l (mode_of k)); try done; [by left|].
  assert (flights (Wake_task t :: ops) = [t]) as Ef by (change (flights (Wake_task t :: ops)) with (t :: flights ops); by rewrite (bare_flights ops Hb)).
  split; rewrite ?Ef, ?Ho.
  - cbn [app]. apply typed_cons. split; [by apply bool_decide_eq_true|]. split; [by rewrite existsb_app, Hpr|]. by split.
  - by left.
  - intros Hlv Hblk. destruct (ok_leaving _ _ _ Hok Hlv) as (_&_&Hsch). specialize (Hsch Hblk). rewrite Ht in Hsch. by destruct o.
  - intros _ _. by constructor.
  - by intros _ _.
  - apply NoDup_singleton.
  - intros x ->%list_elem_of_singleton. right. by apply (out_nowhere s c k o l).
  - by intros x ?%elem_of_nil.
  - split; [|by apply bare_items]. split; [by apply negb_true_iff, bool_decide_eq_false|]. split; [done|]. split; [done|]. by apply (asleep_unqueued [] s).
Qed.

(** * The list of tasks and the tasks in memory *)

Lemma inv_lists X X' s L A : let s' := set_allocated A (set_list L s) in inv X s -> NoDup L -> (forall t, t ∈ L -> t ∈ A) -> 0 ∉ A ->
  (forall t, t ∈ idles s -> t ∈ A /\ t ∉ L) -> (forall t, t ∈ placed s -> (t ∈ L <-> t ∈ task_list s) /\ (t ∈ allocated s -> t ∈ A)) ->
  NoDup (X' ++ placed s) -> (forall t, t ∈ X' -> t ∈ L /\ queued_on (tasks s t) = -1) ->
  (forall t, t ∈ L -> state (tasks s t) = TASK_READY \/ state (tasks s t) = TASK_RUNNING -> t ∈ X' ++ placed s) ->
  (forall t, asleep (state (tasks s t)) -> t ∈ L) -> inv X' s'.
Proof.
  intros s' [I1 I2 I2' I3 I4 I5 [I6 I6'] [I7 I7'] I8 I9 I10 I11 I12 I13] HL HA H0 Hid Hp HX HX' Hlost Has. split; try done.
  - intros c k Hk. eapply cpu_frame; [by apply I4|apply same_core_refl| |done|done|done]. intros t Ht.
    assert (t ∈ placed s) as Hpl by (apply placed_elem; by exists c, k). destruct (Hp t Hpl). by split.
  - split; [done|]. intros c k Hk. destruct (I6' c k Hk) as (?&_&_&?&?). destruct (Hid (idle k)); [by eapply idles_elem|]. done.
Qed.

(** A task is put on the list. *)
Lemma inv_enlist X s t : inv X s -> unlisted s t -> t ∉ X ++ placed s -> inv (t :: X) (set_list (task_list s ++ [t]) s).
Proof.
  intros Hi (Hl&Ha&Hid&Hq) Hp. destruct (iv_list X s Hi) as [HN HA].
  apply (inv_lists X (t :: X) s (task_list s ++ [t]) (allocated s)); [done|..].
  - apply NoDup_app. split; [done|]. split; [|apply NoDup_singleton]. intros x Hx ->%list_elem_of_singleton. done.
  - intros x [?| ->%list_elem_of_singleton]%elem_of_app; auto.
  - apply Hi.
  - intros x Hx. destruct (idles_facts X s x Hi Hx) as (?&_&?). split; [done|]. rewrite elem_of_app, list_elem_of_singleton. by intros [| ->].
  - intros x Hx. split; [|done]. rewrite elem_of_app, list_elem_of_singleton. split; [|auto]. intros [| ->]; [done|]. destruct Hp. apply elem_of_app. auto.
  - apply NoDup_cons. split; [done|]. apply Hi.
  - intros x [->|Hx]%elem_of_cons; rewrite elem_of_app, list_elem_of_singleton; [auto|]. destruct (iv_between X s Hi x Hx). auto.
  - intros x [Hx| ->%list_elem_of_singleton]%elem_of_app Hst; [|by left]. right. by apply (iv_lost X s Hi).
  - intros x Hx. apply elem_of_app. left. by apply (iv_unlisted X s Hi).
Qed.

(** Tasks that have ended are taken off the list. *)
Lemma inv_delist s L : inv [] s -> L ⊆ task_list s -> NoDup L -> (forall t, t ∈ task_list s -> t ∉ L -> state (tasks s t) = TASK_ZOMBIE /\ t ∉ placed s) -> inv [] (set_list L s).
Proof.
  intros Hi HL Hn Hout. destruct (iv_list [] s Hi) as [HN HA]. apply (inv_lists [] [] s L (allocated s)); try done.
  - auto.
  - apply Hi.
  - intros x Hx. destruct (idles_facts [] s x Hi Hx) as (Hno&_&?). split; [done|]. auto.
  - intros x Hx. split; [|done]. split; [auto|]. intros Hl. destruct (decide (x ∈ L)) as [|Hno]; [done|]. by destruct (Hout x Hl Hno).
  - apply Hi.
  - by intros x ?%elem_of_nil.
  - intros x Hx. apply (iv_lost [] s Hi). auto.
  - intros x Hx. apply (iv_unlisted [] s Hi) in Hx as Hl. destruct (decide (x ∈ L)) as [|Hno]; [done|]. destruct (Hout x Hl Hno) as [E _]. rewrite E in Hx. by destruct Hx.
Qed.

(** The memory of a task that nobody knows is given back. *)
Lemma inv_forget s t : inv [] s -> t ∉ task_list s -> t ∉ idles s -> t ∉ placed s -> inv [] (set_allocated (allocated s ∖ {[t]}) s).
Proof.
  intros Hi Hl Hid Hp. destruct (iv_list [] s Hi) as [HN HA]. apply (inv_lists [] [] s (task_list s) (allocated s ∖ {[t]})); try done; try apply Hi.
  - intros x Hx. apply elem_of_difference. split; [auto|]. intros ->%elem_of_singleton. done.
  - intros [? _]%elem_of_difference. by apply (iv_alloc [] s Hi).
  - intros x Hx. destruct (idles_facts [] s x Hi Hx) as (?&_&?). split; [|done]. apply elem_of_difference. split; [done|]. intros ->%elem_of_singleton. done.
  - intros x Hx. split; [done|]. intros. apply elem_of_difference. split; [done|]. intros ->%elem_of_singleton. done.
Qed.

Lemma inv_view X s s' : inv X s -> change s s' -> cpus s' = cpus s -> (forall t, t ∈ placed s -> same_view s s' t) -> (forall t, queued_on (tasks s' t) = queued_on (tasks s t)) ->
  (forall t, t ∈ task_list s -> state (tasks s' t) = state (tasks s t)) -> inv X s'.
Proof.
  intros Hi Hc Ek Hv Hq Hst. assert (placed s' = placed s) as Ep by (unfold placed; by rewrite Ek). assert (forall j, cpu_at j s' = cpu_at j s) as Ea by (intros j; unfold cpu_at; by rewrite Ek).
  apply (inv_change X X s); [done|done|rewrite Ep; apply Hi|intros t; rewrite Hq; apply Hi|intros i j; rewrite !Ea; apply Hi|..].
  - intros c k Hk. rewrite Ek in Hk. apply (others_ok X s s' c k k); [done|done| |done|apply same_core_refl]. intros t Ht. apply Hv, placed_elem. by exists c, k.
  - intros t Ht. rewrite Hst, Ep by done. by apply (iv_lost X s Hi).
  - intros t. rewrite Hq. intros Hn. destruct (iv_queued X s Hi t Hn) as (j&?&?). exists j. by rewrite Ea.
Qed.

Lemma inv_rebind X s t a : inv X s -> t ∉ idles s -> a = TASK_ANY_CPU \/ (0 <= a /\ is_online s (Z.to_nat a)) -> inv X (set_task t (set_affinity a) s).
Proof.
  intros Hi Hid Ha. assert (forall x, let u := tasks (set_task t (set_affinity a) s) x in state u = state (tasks s x) /\ queued_on u = queued_on (tasks s x) /\ rest u = rest (tasks s x) /\ proc u = proc (tasks s x)) as Hx
    by (intros x; cbn; by destruct (x =? t)).
  apply (inv_view X s); [done| |done|intros x _; split; try done; apply Hx|intros x; apply Hx|intros x _; apply Hx]. split; try done.
  - intros x. unfold rebound. cbn. destruct (Z.eqb_spec x t) as [->|]; [|by left]. right. split; [done|]. cbn. intros Hn. by destruct Ha.
  - intros x. left. apply Hx.
  - intros x _ _. apply Hx.
  - intros x _. destruct (Hx x) as (->&->&_). done.
Qed.

Lemma placed_allocated X s t : inv X s -> t ∈ placed s -> t ∈ allocated s.
Proof.
  intros Hi (c&k&Hk&Hin)%placed_elem. destruct (iv_list X s Hi) as [_ HA]. pose proof (iv_cpus X s Hi c k Hk) as Hok. destruct (idle_facts X s c k Hi Hk) as (_&Hid&_).
  assert (forall o h, item_ok s k h o -> t ∈ op_tasks o -> t ∈ allocated s) as Hit.
  { intros o h Ho Ht. unfold item_ok, runnable, dormant, unlisted in Ho. destruct o; cbn in *; try (by apply elem_of_nil in Ht); try (apply list_elem_of_singleton in Ht; subst); try naive_solver.
    destruct next as [u|]; [|by apply elem_of_nil in Ht]. apply list_elem_of_singleton in Ht as ->. naive_solver. }
  unfold cpu_tasks in Hin. rewrite !elem_of_app in Hin. destruct Hin as [Hin|[Hin|[Hin|[Hin|Hin]]]].
  - destruct (online k) eqn:Ho; apply list_elem_of_singleton in Hin as ->; [|done]. destruct (ok_current _ _ _ Hok Ho) as [[->|] _]; auto.
  - unfold left_behind in Hin. destruct (todo k) as [|[] l] eqn:Et; try by apply elem_of_nil in Hin.
    assert (t = stack k) as -> by (destruct (_ || _); [by apply list_elem_of_singleton in Hin|by apply elem_of_nil in Hin]).
    destruct (first_item X s c k _ l Hi Hk Et) as (Ho&_). pose proof (ok_stack _ _ _ Hok Ho) as Hs. rewrite Et in Hs.
    destruct Hs as [_ [Hs|[[Hs Hm]|[->|(_&?&_)]]]]; [|..|done|auto].
    + apply HA. by apply (ok_queue _ _ _ Hok).
    + rewrite Hs. apply HA. by apply (ok_moving _ _ _ Hok).
  - apply HA. by apply (ok_queue _ _ _ Hok).
  - destruct (Z.eqb_spec (moving k) 0); [by apply elem_of_nil in Hin|]. apply list_elem_of_singleton in Hin as ->. apply HA. by apply (ok_moving _ _ _ Hok).
  - apply elem_of_concat in Hin as (ts&Hin&Hts). apply list_elem_of_fmap in Hts as (o'&->&Ho'). pose proof (ok_head _ _ _ Hok) as Hh.
    destruct (todo k) as [|o l]; [by apply elem_of_nil in Ho'|]. destruct Hh as [H1 H2]. apply elem_of_cons in Ho' as [->|Ho']; [by eapply Hit|].
    rewrite Forall_forall in H2. eapply Hit; [by apply H2|done].
Qed.

(** While one CPU has the scheduler lock and goes on, no other is about to leave its task. *)
Lemma locked_calm X s c k j : inv X s -> cpus s !! c = Some k -> mode_of k = Locked -> mode_of (cpu_at j s) <> Leaving.
Proof.
  intros Hi Hk Hm Hj. assert (j = c) as ->; [|rewrite (cpu_at_some s c k Hk) in Hj; congruence].
  assert (cpus s !! j = Some (cpu_at j s)) as Hk' by (unfold cpu_at in *; by destruct (cpus s !! j)).
  apply (iv_lock X s Hi); [rewrite (mode_held s j _ (iv_cpus X s Hi j _ Hk')); by rewrite Hj|rewrite (cpu_at_some s c k Hk), (mode_held s c k (iv_cpus X s Hi c k Hk)); by rewrite Hm].
Qed.

Lemma inv_new s c k t p parent prio : inv [] s -> cpus s !! c = Some k -> mode_of k = Locked -> t <> 0 -> t ∉ allocated s -> inv [] (alloc_task t p parent prio s).
Proof.
  intros Hi Hk Hm H0 Ha. set (s' := alloc_task t p parent prio s). destruct (iv_list [] s Hi) as [_ HA].
  assert (forall x, x <> t -> tasks s' x = tasks s x) as Hx by (intros x Hn; cbn; by apply Z.eqb_neq in Hn as ->).
  assert (tasks s' t = new_task t p prio s) as Ht by (cbn; by rewrite Z.eqb_refl).
  assert (t ∉ task_list s) as Hl by auto. assert (t ∉ idles s) as Hid by (intros Hin; by destruct (idles_facts [] s t Hi Hin) as (_&_&?)).
  assert (queued_on (tasks s t) = -1) as Hq.
  { destruct (Z.eq_dec (queued_on (tasks s t)) (-1)) as [|Hn]; [done|]. destruct (iv_queued [] s Hi t Hn) as (j&_&Hin). destruct Ha. apply (placed_allocated [] s); [done|].
    apply placed_elem. exists j, (cpu_at j s). split; [|by apply in_queue]. unfold cpu_at in *. destruct (cpus s !! j); [done|]. by apply elem_of_nil in Hin. }
  apply (inv_view [] s s'); [done| |done|..].
  - split; try done.
    + cbn. split; [set_solver|]. rewrite elem_of_union, elem_of_singleton. by intros [|].
    + intros x. unfold rebound. destruct (decide (x = t)) as [->|]; [|left; by rewrite Hx]. right. split; [done|]. by rewrite Ht.
    + intros x. destruct (decide (x = t)) as [->|]; [|left; by rewrite Hx]. right. by rewrite Ht.
    + intros x j Hj. by destruct (locked_calm [] s c k j Hi Hk Hm).
    + intros x Hno. destruct (decide (x = t)) as [->|]; [|by rewrite Hx]. rewrite Ht, Hq. split; [done|]. by intros [].
  - intros x Hp. apply (placed_allocated [] s x Hi) in Hp. assert (x <> t) by (by intros ->). split; rewrite ?Hx by done; try done. cbn. set_solver.
  - intros x. destruct (decide (x = t)) as [->|]; [by rewrite Ht, Hq|by rewrite Hx].
  - intros x Hin. rewrite Hx; [done|]. by intros ->.
Qed.

(** * The steps *)

Lemma typed_intro m o l : needs o m = true -> existsb prompt l = false -> (sleeps o = true -> forallb plain l = true) -> typed (leaves o m) l = true -> typed m (o :: l) = true.
Proof. intros. by apply typed_cons. Qed.

(** Items that are done with the scheduler lock held, and keep it. *)
Definition inner (m : mode) (o : op) : Prop := needs o m = true /\ prompt o = false /\ sleeps o = false /\ leaves o m = m.
Lemma typed_inner m ops l : Forall (inner m) ops -> existsb prompt l = false -> typed m l = true -> typed m (ops ++ l) = true /\ existsb prompt (ops ++ l) = false.
Proof.
  intros Ho Hp Ht. induction Ho as [|o ops (H1&H2&H3&H4) _ [IH1 IH2]]; [done|]. cbn [app]. split.
  - apply typed_intro; [done|done|by rewrite H3|by rewrite H4].
  - cbn. by rewrite H2.
Qed.

(** What a step keeps: the invariant, when [c] has [o] to do and then [l]. *)
Definition keeps (s : sched) (c : nat) (k : cpu) (l : list op) (x : reading) (o : op) : Prop :=
  inv [] s -> cpus s !! c = Some k -> todo k = o :: l -> forall l' s', perform c o l x s = Some (l', s') -> inv [] (set_cpu c (set_todo l') s').

Lemma start s c k o l : inv [] s -> cpus s !! c = Some k -> todo k = o :: l -> needs o (mode_of k) = true /\ existsb prompt l = false /\
  (sleeps o = true -> forallb plain l = true) /\ typed (leaves o (mode_of k)) l = true /\ item_ok s k (sched_held k) o.
Proof. intros Hi Hk Ht. destruct (first_item [] s c k o l Hi Hk Ht) as (_&Hty&Hit&_). apply typed_cons in Hty as (?&?&?&?). done. Qed.

Ltac begin Hi Hk Ht := intros Hi Hk Ht l' s'; let Hn := fresh "Hn" in let Hm := fresh "Hm" in
  destruct (start _ _ _ _ _ Hi Hk Ht) as (Hn&Hpr&Hpl&Htl&Hit); cbn in Hn, Hpl, Htl; try (apply bool_decide_eq_true in Hn as Hm; rewrite ?Hm in Htl); cbn [perform];
  rewrite ?(cpu_at_some _ _ _ Hk).
Ltac ty := cbn; repeat match goal with
  | H : existsb prompt ?l = false |- context [existsb prompt ?l] => rewrite H
  | H : true = true -> forallb plain ?l = true |- context [forallb plain ?l] => rewrite (H eq_refl)
  | H : typed ?m ?l = true |- context [typed ?m ?l] => rewrite H
  | H : bool_decide ?P = true |- context [bool_decide ?P] => rewrite H
  end; done.
(** [ops] come instead of the first item, and [l2] after them. *)
Ltac bare Hi Hk Ht m ops l2 := eapply (inv_bare _ _ _ _ _ _ m ops l2 Hi Hk Ht); [done|done| |first [by left|right; split; by auto]|done|..];
  auto with sched; try done; try ty; try (intros _ _; by repeat constructor).
(** The first item wakes [t], and [ops] come after that. *)
Ltac wake Hi Hk Ht t ops Hst := eapply (inv_wake _ _ _ _ _ _ t ops Hi Hk Ht); auto with sched; try done; try ty; try congruence; try (by repeat constructor); try (by left; apply Hst).

Lemma least_loaded_online i ks load skip least ll : let r := (least_loaded i ks load skip least ll).1 in
  r = least \/ (i <= r)%nat /\ exists k, ks !! (r - i)%nat = Some k /\ online k = true.
Proof.
  cbn. revert i least ll. induction ks as [|k ks IH]; intros i least ll; cbn; [by left|].
  assert (forall r, (S i <= r)%nat -> (k :: ks) !! (r - i)%nat = ks !! (r - S i)%nat) as Hsub by (intros r Hr; by replace (r - i)%nat with (S (r - S i)) by lia).
  destruct (_ && _) eqn:E; edestruct (IH (S i)) as [Hr|(Hle&k'&Hk'&Ho)]; [right|right|by left|right].
  - rewrite Hr. split; [lia|]. rewrite Nat.sub_diag. exists k. split; [done|]. by destruct (online k).
  - split; [lia|]. exists k'. by rewrite Hsub.
  - split; [lia|]. exists k'. by rewrite Hsub.
Qed.

Section steps.
  Context (s : sched) (c : nat) (k : cpu) (l : list op) (x : reading).
  Notation keep := (keeps s c k l x).

Lemma keeps_lock : keep Sched_lock.
Proof. begin Hi Hk Ht. destruct (sched_free s) eqn:Hf; [|done]. intros [= <- <-]. bare Hi Hk Ht Locked (@nil op) l. Qed.
Lemma keeps_unlock : keep Sched_unlock.
Proof. begin Hi Hk Ht. intros [= <- <-]. bare Hi Hk Ht Unlocked (@nil op) l. Qed.
Lemma keeps_halt : keep Halt.
Proof. begin Hi Hk Ht. destruct (ipi k); [|done]. intros [= <- <-]. bare Hi Hk Ht Unlocked (@nil op) l. Qed.
Lemma keeps_kick_cpu i : keep (Kick_cpu i).
Proof. begin Hi Hk Ht. intros [= <- <-]. bare Hi Hk Ht Unlocked (@nil op) l. Qed.
Lemma keeps_kick i t : keep (Kick i t).
Proof.
  begin Hi Hk Ht. intros [= <- <-]. bare Hi Hk Ht (mode_of k) (@nil op) l. destruct (is_idle _); [auto with sched|]. destruct (_ =? _); auto with sched.
Qed.
Lemma keeps_woken i : keep (Woken i).
Proof.
  begin Hi Hk Ht. destruct (i && _); intros [= <- <-]; [|bare Hi Hk Ht Unlocked (@nil op) l]. rewrite <- (app_nil_r (die _)). bare Hi Hk Ht Unlocked (die (kill_pending (fate_of (tasks s (current k))))) (@nil op).
Qed.
Lemma keeps_wake ch : keep (Wake ch).
Proof. begin Hi Hk Ht. intros [= <- <-]. bare Hi Hk Ht (mode_of k) [Wake_in ch (task_list s)] l. Qed.
Lemma keeps_check_kill : keep Check_kill.
Proof.
  begin Hi Hk Ht. destruct (negb (kill_pending _ =? 0)); [intros [= <- <-]; rewrite <- (app_nil_r (die _)); by bare Hi Hk Ht Unlocked (die (kill_pending (fate_of (tasks s (current k))))) (@nil op)|].
  destruct (negb _); intros [= <- <-]; [bare Hi Hk Ht Unlocked [Sched_lock; Stop_if_pending] l|bare Hi Hk Ht Unlocked (@nil op) l].
Qed.
Lemma keeps_stop_if_pending : keep Stop_if_pending.
Proof. begin Hi Hk Ht. intros [= <- <-]. destruct (_ && _); [bare Hi Hk Ht Locked [Stop; Woken true] l|bare Hi Hk Ht Locked [Sched_unlock; Woken true] l]. Qed.
Lemma keeps_slice : keep Slice.
Proof. begin Hi Hk Ht. destruct (_ && _); intros [= <- <-]; [bare Hi Hk Ht Unlocked (@nil op) l|bare Hi Hk Ht Unlocked [Schedule false] l]. Qed.
Lemma keeps_await_reapable : keep Await_reapable.
Proof.
  begin Hi Hk Ht. intros [= <- <-]. destruct (existsb (reapable _ _) _); [bare Hi Hk Ht Locked [Sched_unlock] l|bare Hi Hk Ht Locked [Sleep Reaper_channel 0 0 false true; Sched_unlock] l].
Qed.
Lemma keeps_set_init t : keep (Set_init t).
Proof. begin Hi Hk Ht. intros [= <- <-]. bare Hi Hk Ht Locked (@nil op) l. destruct (t =? 0); [auto with sched|]. eapply inert_trans; [apply inert_set_init|auto with sched]. Qed.
Lemma keeps_make_unkillable t : keep (Make_unkillable t).
Proof. begin Hi Hk Ht. intros [= <- <-]. bare Hi Hk Ht Locked (@nil op) l. Qed.
Lemma keeps_exit_leave n : keep (Exit_leave n).
Proof.
  begin Hi Hk Ht. destruct (exit_leave _ _ _) as [last s1] eqn:E. intros [= <- <-]. bare Hi Hk Ht Locked [Sched_unlock; Sched_lock; Exit_last n last] (@nil op).
  unfold exit_leave in E. injection E as <- <-. eapply inert_trans; [apply inert_set_process|]. destruct (_ && _); auto with sched.
Qed.
Lemma state_is t st : is_state s t st = true -> state (tasks s t) = st.
Proof. apply bool_decide_eq_true. Qed.

Lemma keeps_wake_in ch ts : keep (Wake_in ch ts).
Proof.
  destruct ts as [|t ts]; begin Hi Hk Ht; intros [= <- <-]; [bare Hi Hk Ht (mode_of k) (@nil op) l|].
  destruct (is_state s t TASK_BLOCKED) eqn:Hst; [|bare Hi Hk Ht (mode_of k) [Wake_in ch ts] l]. apply state_is in Hst.
  destruct (bool_decide (wait_channel _ = _)); [wake Hi Hk Ht t [Wake_in ch ts] Hst|bare Hi Hk Ht (mode_of k) [Wake_in ch ts] l].
Qed.
Lemma keeps_interrupt t : keep (Interrupt t).
Proof.
  begin Hi Hk Ht. intros [= <- <-]. destruct (is_state s t TASK_BLOCKED) eqn:Hst; [|bare Hi Hk Ht (mode_of k) (@nil op) l]. apply state_is in Hst. wake Hi Hk Ht t (@nil op) Hst.
Qed.
Lemma keeps_request_kill t sig : keep (Request_kill t sig).
Proof.
  begin Hi Hk Ht. destruct (_ && _); intros [= <- <-]; [|bare Hi Hk Ht (mode_of k) (@nil op) l].
  destruct (is_state s t TASK_BLOCKED) eqn:Hst; [apply state_is in Hst; wake Hi Hk Ht t (@nil op) Hst|].
  destruct (is_state s t TASK_STOPPED) eqn:Hst'; [apply state_is in Hst'; wake Hi Hk Ht t (@nil op) Hst'; by right|bare Hi Hk Ht (mode_of k) (@nil op) l].
Qed.
Lemma keeps_request_stop t sig : keep (Request_stop t sig).
Proof.
  begin Hi Hk Ht. destruct (_ || _); intros [= <- <-]; [bare Hi Hk Ht (mode_of k) (@nil op) l|].
  destruct (is_state s t TASK_BLOCKED) eqn:Hst; [apply state_is in Hst; wake Hi Hk Ht t (@nil op) Hst|bare Hi Hk Ht (mode_of k) (@nil op) l].
Qed.
Lemma keeps_continue t : keep (Continue t).
Proof.
  begin Hi Hk Ht. intros [= <- <-]. destruct (is_state s t TASK_STOPPED) eqn:Hst; [apply state_is in Hst; wake Hi Hk Ht t (@nil op) Hst; by right|bare Hi Hk Ht (mode_of k) (@nil op) l].
Qed.
Lemma keeps_futex_wake p a n : keep (Futex_wake p a n).
Proof. begin Hi Hk Ht. intros [= <- <-]. bare Hi Hk Ht Locked [Futex_in p a n (task_list s)] l. Qed.
Lemma keeps_futex_in p a n ts : keep (Futex_in p a n ts).
Proof.
  destruct ts as [|t ts]; begin Hi Hk Ht; [intros [= <- <-]; bare Hi Hk Ht Locked (@nil op) l|]. destruct (n <=? 0); [intros [= <- <-]; bare Hi Hk Ht Locked (@nil op) l|].
  destruct (_ || _); intros [= <- <-]; [bare Hi Hk Ht Locked [Futex_in p a n ts] l|].
  destruct (is_state s t TASK_BLOCKED) eqn:Hst; [|bare Hi Hk Ht Locked [Futex_in p a (n - 1) ts] l]. apply state_is in Hst.
  destruct (bool_decide (wait_channel _ = _)); [wake Hi Hk Ht t [Futex_in p a (n - 1) ts] Hst; by rewrite Hm; ty|bare Hi Hk Ht Locked [Futex_in p a (n - 1) ts] l].
Qed.
Lemma keeps_due i now : (forall t, t ∈ sleepers (cpu_at i s) -> state (tasks s t) = TASK_BLOCKED) -> keep (Due i now).
Proof.
  intros Hsl. begin Hi Hk Ht. destruct (sleepers (cpu_at i s)) as [|t ts] eqn:Es; intros [= <- <-]; [bare Hi Hk Ht Locked (@nil op) l|].
  assert (state (tasks s t) = TASK_BLOCKED) as Hst by (apply Hsl; by left). destruct (_ <=? _); [|bare Hi Hk Ht Locked (@nil op) l].
  wake Hi Hk Ht t [Due i now] Hst; by rewrite Hm; ty.
Qed.
Lemma keeps_move t : keep (Move t).
Proof. begin Hi Hk Ht. intros [= <- <-]. destruct (_ || _); [bare Hi Hk Ht Locked (@nil op) l|bare Hi Hk Ht Locked [Move_from t (Z.to_nat (queued_on (tasks s t)))] l]. Qed.
Lemma effects_inner sig es : mode_of k <> Unlocked -> Forall (inner (mode_of k)) (effect_op sig <$> es).
Proof. intros Hm. apply Forall_fmap, Forall_forall. intros [t []] _; cbn; (split; [by apply bool_decide_eq_true|done]). Qed.
Lemma effects_bare sig es : forallb bare (effect_op sig <$> es) = true /\ forallb quiet (effect_op sig <$> es) = true /\ switching (effect_op sig <$> es) = false.
Proof. split; [|split]; [induction es as [|[t []] es IH]; done..|]. by destruct es as [|[t []] es]. Qed.
Lemma keeps_signal t sig : keep (Signal t sig).
Proof.
  begin Hi Hk Ht. intros [= <- <-]. set (es := filter _ _). destruct (effects_bare sig es) as (Hb&Hq&Hs). destruct (typed_inner (mode_of k) (effect_op sig <$> es) l) as [Hty _]; [by apply effects_inner|done|done|].
  bare Hi Hk Ht (mode_of k) (effect_op sig <$> es) l. intros Hlv Hst. pose proof (ok_away _ _ _ (iv_cpus [] s Hi c k Hk) Hlv Hst) as Ha. rewrite Ht in Ha. apply Forall_cons in Ha as [Ha _]. cbn in Ha.
  apply Forall_fmap, Forall_forall. intros [u e] Hu. apply list_elem_of_filter in Hu as [Hu _]. cbn in Hu. apply list_elem_of_filter in Hu as [Hu _].
  assert (u <> current k) by (intros ->; congruence). by destruct e.
Qed.

Lemma kills_inner self s1 : mode_of k <> Unlocked -> Forall (inner (mode_of k)) (kill_other_threads s1 self).
Proof. intros Hm. unfold kill_other_threads. destruct (_ <=? 1); [constructor|]. apply Forall_fmap, Forall_forall. intros t _; cbn. (split; [by apply bool_decide_eq_true|done]). Qed.
Lemma kills_bare self s1 : forallb bare (kill_other_threads s1 self) = true /\ forallb quiet (kill_other_threads s1 self) = true /\ switching (kill_other_threads s1 self) = false.
Proof.
  unfold kill_other_threads. destruct (_ <=? 1); [done|]. generalize (filter (fun t => t <> self) (threads s1 (proc (tasks s1 self)))). intros ts.
  split; [|split]; [induction ts as [|t ts IH]; done..|]. by destruct ts.
Qed.
Lemma keeps_exit_begin n w : keep (Exit_begin n w).
Proof.
  begin Hi Hk Ht. destruct (exit_begin _ _ _ _) as [ops s1] eqn:E. intros [= <- <-]. unfold exit_begin in E.
  destruct (_ && negb (group_exit _)); injection E as <- <-; [|bare Hi Hk Ht Locked (@nil op) l].
  set (s0 := set_process _ _ _). destruct (kills_bare (current k) s0) as (Hb&Hq&Hs).
  destruct (typed_inner Locked (kill_other_threads s0 (current k)) l) as [Hty _]; [rewrite <- Hm; by apply kills_inner; rewrite Hm|done|done|].
  bare Hi Hk Ht Locked (kill_other_threads s0 (current k)) l. eapply inert_trans; [|apply inert_set_process]. auto with sched.
Qed.
Lemma keeps_end_others : keep End_others.
Proof.
  begin Hi Hk Ht. destruct (_ || _); [intros [= <- <-]; bare Hi Hk Ht Locked [Sched_unlock] l|]. destruct (1 <? _); intros [= <- <-]; [|bare Hi Hk Ht Locked [Await_alone] l].
  set (s0 := set_process _ _ _). destruct (kills_bare (current k) s0) as (Hb&Hq&Hs).
  destruct (typed_inner Locked (kill_other_threads s0 (current k)) (Await_alone :: l)) as [Hty _]; [rewrite <- Hm; by apply kills_inner; rewrite Hm|done|by ty|].
  change (Await_alone :: l) with ([Await_alone] ++ l). rewrite app_assoc.
  assert (switching (kill_other_threads s0 (current k) ++ [Await_alone]) = false) as Hs' by (by destruct (kill_other_threads _ _) as [|[] ?]).
  bare Hi Hk Ht Locked (kill_other_threads s0 (current k) ++ [Await_alone]) l.
  - unfold s0. auto with sched.
  - by rewrite forallb_app, Hb.
  - by rewrite <- app_assoc.
Qed.
Lemma inert_take_pid self p s1 t : inert s1 (take_pid self p s1 t).
Proof.
  unfold take_pid. eapply inert_trans; [|apply inert_set_task; by intros ?]. destruct (_ =? _); [|auto with sched]. eapply inert_trans; [|apply inert_set_task; by intros ?]. auto with sched.
Qed.
Lemma keeps_await_alone : keep Await_alone.
Proof.
  begin Hi Hk Ht. destruct (1 <? _); intros [= <- <-]; [bare Hi Hk Ht Locked [Sleep (Process_channel (proc (tasks s (current k)))) 0 0 false true; Await_alone] l|].
  set (others := filter _ _). assert (inert s (fold_left (take_pid (current k) (proc (tasks s (current k)))) others (set_process (proc (tasks s (current k))) (set_exec_tid 0) s))) as Hin.
  { eapply inert_trans; [apply inert_set_process|]. apply inert_fold. intros. apply inert_take_pid. }
  destruct others; [bare Hi Hk Ht Locked [Sched_unlock] l|bare Hi Hk Ht Locked [Wake Reaper_channel; Sched_unlock] l].
Qed.
Lemma keeps_tick : keep Tick.
Proof.
  begin Hi Hk Ht. set (s1 := set_task _ _ s). assert (inert s s1) as Hin by (unfold s1; auto with sched). destruct (is_idle _); [intros [= <- <-]; bare Hi Hk Ht Unlocked [Slice] l|].
  destruct (least_loaded _ _ _ _ _ _) as [target least] eqn:E. intros [= <- <-]. assert (inert s (set_cpu c add_busy s1)) as Hin' by (eapply inert_trans; [exact Hin|auto with sched]).
  destruct (Nat.eqb_spec target MAX_CPUS) as [->|Hne]; [rewrite orb_true_r; bare Hi Hk Ht Unlocked [Slice] l|]. rewrite orb_false_r.
  destruct (_ || _); [bare Hi Hk Ht Unlocked [Slice] l|]. apply (inv_ops s _ c k Tick l Unlocked [Hand target; Slice] l); try done; [by left|].
  assert (is_online s target) as Hon.
  { pose proof (least_loaded_online 0 (cpus (set_cpu c add_busy s1)) (loads x) (Nat.eqb c) MAX_CPUS 0xFFFFFFFF) as Hl. rewrite E in Hl. destruct Hl as [|(_&k'&Hk'&Ho)]; [done|].
    rewrite Nat.sub_0_r in Hk'. unfold is_online. rewrite <- (sc_online _ _ (inert_cpu s _ target Hin')). by rewrite (cpu_at_some _ target k' Hk'). }
  split; rewrite ?Hm; auto; try done; [ty|]. apply NoDup_nil_2.
Qed.
End steps.
