(* ===== verification/SchedStep.v ===== *)
(** The steps of the scheduler that move tasks, and the whole. *)
From stdpp Require Import base tactics numbers list sets gmap relations.
From Stdlib Require Import ZArith Lia.
From S2P Require Import Prelude Sched SchedInv SchedMoves SchedRun.

Open Scope Z_scope.

(** * Where a task is placed *)

Lemma choose_online X s x t w : inv X s -> t ∉ idles s -> is_online s (choose_cpu x (tasks s t) w s).
Proof.
  intros Hi Hid. unfold choose_cpu. destruct (Z.eqb_spec (affinity (tasks s t)) TASK_ANY_CPU) as [|Ha]; cbn; [|by apply (iv_affinity X s Hi)].
  assert (is_online s (least_loaded 0 (cpus s) (loads x) (fun _ => false) 0 0xFFFFFFFF).1) as Hl.
  { destruct (least_loaded_online 0 (cpus s) (loads x) (fun _ => false) 0 0xFFFFFFFF) as [->|(_&k&Hk&Ho)]; [apply Hi|].
    rewrite Nat.sub_0_r in Hk. unfold is_online. by rewrite (cpu_at_some _ _ _ Hk). }
  destruct (least_loaded _ _ _ _ _ _) as [least ll]. cbn in Hl. destruct (online (cpu_at (Z.to_nat (last_cpu (tasks s t))) s)) eqn:Ho; [|by rewrite orb_true_r].
  destruct (_ || _ || _); [done|]. by destruct (_ <? _).
Qed.

Lemma item_idle s k h o t : item_ok s k h o -> t ∈ op_tasks o -> t ∉ task_list s -> t ∈ idles s -> t = idle k /\ exists h n ms, o = Switch h n ms.
Proof.
  intros Ho Ht Hl Hid. unfold item_ok, runnable, dormant, unlisted in Ho. destruct o; cbn in *; try (by apply elem_of_nil in Ht); try (apply list_elem_of_singleton in Ht; subst); try naive_solver.
  destruct next as [u|]; [|by apply elem_of_nil in Ht]. apply list_elem_of_singleton in Ht as ->. naive_solver.
Qed.

Lemma held_mode s c k : cpu_ok s c k -> negb (bool_decide (mode_of k = Unlocked)) = sched_held k.
Proof. intros. symmetry. by eapply mode_held. Qed.

(** A task that is between two places comes with an item. *)
Lemma inv_land s c k l t o' : inv [t] s -> cpus s !! c = Some k -> online k = true -> switching (todo k) = false -> flights (todo k) = flights l ->
  Forall (item_ok s k false) l -> (mode_of k = Leaving -> in_schedule [o'] = true /\ (state (tasks s (current k)) = TASK_STOPPED -> Forall (away s (current k)) l)) ->
  (current k = idle k -> forallb quiet l = true) -> op_tasks o' = [t] -> switching [o'] = false -> typed (mode_of k) (o' :: l) = true -> (forall s t, away s t o') ->
  quiet o' = true -> item_ok s k (sched_held k) o' -> inv [] (set_cpu c (set_todo (o' :: l)) s).
Proof.
  intros Hi Hk Ho Hs Hf Hit Hlv Hqt Ho' Hs' Hty Ha Hq Hit'. pose proof (iv_cpus [t] s Hi c k Hk) as Hok.
  assert (flights (o' :: l) = t :: flights l) as Ef by (unfold flights; cbn; by rewrite Ho'). pose proof (iv_nodup [t] s Hi) as Hnd. apply NoDup_cons in Hnd as [Hnt Hnd].
  assert (forall u, u ∈ flights l -> u ∈ placed s) as Hpl.
  { intros u Hu. apply placed_elem. exists c, k. split; [done|]. rewrite <- Hf in Hu. unfold cpu_tasks. rewrite !elem_of_app. auto. }
  apply (inv_todo [t] [] s c k (mode_of k)); try done. split; rewrite ?Ef, ?Hf, ?(held_mode s c k Hok); auto.
  - intros E _. destruct (Hlv E) as [? _]. by destruct o'.
  - intros E Hst. constructor; [done|]. by apply Hlv.
  - intros E. cbn. by rewrite Hq, Hqt.
  - cbn. apply NoDup_cons. split; [by intros ?%Hpl|]. rewrite <- Hf. pose proof (queue_nodup [t] s c k Hi Hk) as Hn. unfold cpu_tasks in Hn.
    apply NoDup_app in Hn as (_&_&Hn). apply NoDup_app in Hn as (_&_&Hn). apply NoDup_app in Hn as (_&_&Hn). by apply NoDup_app in Hn as (_&_&Hn).
  - by intros u ?%elem_of_nil.
Qed.

Section steps.
  Context (s : sched) (c : nat) (k : cpu) (l : list op) (x : reading).
  Notation keep := (keeps s c k l x).

(** An item gives way to another about the same task. *)
Lemma inv_same s1 o o' t m : inv [] s -> cpus s !! c = Some k -> todo k = o :: l -> m = mode_of k -> op_tasks o = [t] -> op_tasks o' = [t] -> inert s s1 ->
  switching [o] = false -> switching [o'] = false -> typed (mode_of k) (o' :: l) = true -> in_schedule [o'] = in_schedule [o] -> (forall s t, away s t o') -> quiet o' = true ->
  item_ok s k (sched_held k) o' -> inv [] (set_cpu c (set_todo (o' :: l)) s1).
Proof.
  intros Hi Hk Ht -> Ho Ho' Hin Hs Hs' Hty His Ha Hq Hit. apply (inv_ops s s1 c k o l (mode_of k) [o'] l); try done; [by left|].
  pose proof (iv_cpus [] s Hi c k Hk) as Hok.
  assert (flights [o'] = [t]) as Ef by (unfold flights; cbn; by rewrite Ho'). split; rewrite ?Ef, ?Ho; auto.
  - intros Hlv Hst. destruct (ok_leaving _ _ _ Hok Hlv) as (_&_&Hb). specialize (Hb Hst). rewrite Ht in Hb. by destruct o, o'.
  - intros _ _. cbn. by rewrite Hq.
  - apply NoDup_singleton.
  - rewrite (held_mode s c k Hok). by split.
Qed.

Lemma keeps_place t w : keep (Place t w).
Proof.
  begin Hi Hk Ht. intros [= <- <-]. apply (inv_same _ (Place t w) _ t (mode_of k)); auto with sched; [by ty|by intros|]. split; [|done]. apply (choose_online []); [done|].
  intros Hid. destruct (idles_facts [] s t Hi Hid) as (Hno&_). by destruct Hit as [(?&_)|(_&?&_)].
Qed.
Lemma keeps_wake_task t : keep (Wake_task t).
Proof.
  begin Hi Hk Ht. intros [= <- <-]. apply (inv_same _ (Wake_task t) _ t (mode_of k)); auto with sched; [by ty|by intros|]. by right.
Qed.
(** ** Choosing the next task *)

Lemma idle_nowhere : inv [] s -> cpus s !! c = Some k -> current k <> idle k -> forall hold, todo k = Pick hold None :: l -> idle k ∉ placed s.
Proof.
  intros Hi Hk Hne hold Ht (j&kj&Hj&Hin)%placed_elem. pose proof (iv_cpus [] s Hi j kj Hj) as Hok. destruct (idle_facts [] s c k Hi Hk) as (_&_&Hnl&_).
  assert (idle kj = idle k -> kj = k) as Hsame.
  { intros E. destruct (iv_idles [] s Hi) as [Hnd _]. assert (j = c) as ->; [|congruence]. apply (NoDup_lookup (idles s) j c (idle k)); [done|..]; unfold idles; rewrite list_lookup_fmap, ?Hj, ?Hk; cbn; congruence. }
  unfold cpu_tasks in Hin. rewrite !elem_of_app in Hin. destruct Hin as [Hin|[Hin|[Hin|[Hin|Hin]]]].
  - destruct (online kj) eqn:Ho; apply list_elem_of_singleton in Hin; [|rewrite Hsame in Ho by done; by destruct (first_item [] s c k _ l Hi Hk Ht); congruence]. destruct (ok_current _ _ _ Hok Ho) as [[E|Hl] _]; [|congruence].
    rewrite Hsame in E, Hin by congruence. congruence.
  - unfold left_behind in Hin. destruct (todo kj) as [|[] lj] eqn:Et; try by apply elem_of_nil in Hin.
    assert (idle k = stack kj) as E by (destruct (_ || _); [by apply list_elem_of_singleton in Hin|by apply elem_of_nil in Hin]).
    destruct (first_item [] s j kj _ lj Hi Hj Et) as (Ho&_). pose proof (ok_stack _ _ _ Hok Ho) as Hs. rewrite Et in Hs. destruct Hs as [_ [Hs|[[Hs Hm]|[Hs|(_&Hs&_)]]]].
    + apply Hnl. rewrite E. by apply (ok_queue _ _ _ Hok).
    + apply Hnl. rewrite E, Hs. by apply (ok_moving _ _ _ Hok).
    + rewrite Hsame in Et by congruence. congruence.
    + congruence.
  - apply Hnl. by apply (ok_queue _ _ _ Hok).
  - destruct (Z.eqb_spec (moving kj) 0); [by apply elem_of_nil in Hin|]. apply list_elem_of_singleton in Hin. apply Hnl. rewrite Hin. by apply (ok_moving _ _ _ Hok).
  - apply elem_of_concat in Hin as (ts&Hin&Hts). apply list_elem_of_fmap in Hts as (o'&->&Ho').
    assert (idle k = idle kj /\ exists h n ms, o' = Switch h n ms) as [E (h&n&ms&->)].
    { pose proof (ok_head _ _ _ Hok) as Hh. destruct (todo kj) as [|oj lj]; [by apply elem_of_nil in Ho'|]. destruct Hh as [H1 H2]. rewrite Forall_forall in H2.
      apply elem_of_cons in Ho' as [->|Ho']; eapply item_idle; eauto; by eapply idles_elem. }
    rewrite Hsame, Ht in Ho' by done. apply elem_of_cons in Ho' as [|Ho']; [done|]. destruct (start s c k _ l Hi Hk Ht) as (_&Hpr&_).
    assert (existsb prompt l = true) as E'; [|congruence]. apply existsb_exists. eexists. split; [by apply list_elem_of_In|done].
Qed.

Lemma keeps_pick hold next : keep (Pick hold next).
Proof.
  begin Hi Hk Ht. pose proof (iv_cpus [] s Hi c k Hk) as Hok. set (ms := is_state s (current k) TASK_RUNNING && _).
  assert (forall t, typed (mode_of k) (Switch hold t ms :: l) = true) as Hty by (intros t; rewrite Hm; destruct hold; ty). destruct next as [t|].
  { intros [= <- <-]. apply (inv_same _ (Pick hold (Some t)) _ t (mode_of k)); auto with sched; [by intros|by left]. }
  destruct (first_item [] s c k _ l Hi Hk Ht) as (Ho&_). destruct ms eqn:Ems; intros [= <- <-].
  - assert (hold = false) as ->; [|bare Hi Hk Ht Unlocked (@nil op) l]. destruct hold; [|done]. destruct (ok_leaving _ _ _ Hok Hm) as (Hout&_).
    unfold ms, is_state in Ems. apply andb_true_iff in Ems as [Hst%bool_decide_eq_true _]. rewrite Hst in Hout. exfalso. eapply active_out; [|exact Hout]. by right.
  - assert (current k <> idle k) as Hid.
    { destruct hold; [by apply (ok_leaving _ _ _ Hok)|]. intros E. unfold ms, is_state in Ems. destruct (idle_facts [] s c k Hi Hk) as (_&_&_&Ha&_).
      rewrite bool_decide_eq_true_2, E, Ha, Z.eqb_refl, orb_true_r in Ems by (apply (ok_running _ _ _ Hok Ho); by rewrite Hm). done. }
    apply (inv_ops s s c k (Pick hold None) l (mode_of k) [Switch hold (idle k) false] l); auto with sched. split; auto.
    + by apply Hty.
    + apply NoDup_singleton.
    + intros t ->%list_elem_of_singleton. right. by eapply idle_nowhere.
    + by intros t ?%elem_of_nil.
    + split; [|constructor]. by right.
Qed.
(** ** Out of a queue *)

Lemma unlink_cpu v t : cpus s !! c = Some k -> exists k2, cpus (rq_unlink v t s) !! c = Some k2 /\ current k2 = current k /\ idle k2 = idle k /\ online k2 = online k /\
  todo k2 = todo k /\ release_sched k2 = release_sched k.
Proof.
  intros Hk. cbn. destruct (decide (v = c)) as [->|Hn].
  - exists (set_queue (remove t (queue k)) (u32 (count k - 1)) k). by rewrite list_lookup_alter_eq, Hk.
  - exists k. by rewrite list_lookup_alter_ne.
Qed.

(** A task has been taken from a queue, and the next item has it. *)
Lemma inv_took v kv t o o' : inv [] s -> cpus s !! c = Some k -> todo k = o :: l -> cpus s !! v = Some kv -> t ∈ queue kv -> (forall l, todo kv <> Ctx_switch :: l) ->
  op_tasks o = [] -> op_tasks o' = [t] -> switching [o] = false -> switching [o'] = false -> typed (mode_of k) (o' :: l) = true ->
  (mode_of k = Leaving -> in_schedule [o'] = true) -> (forall s t, away s t o') -> quiet o' = true -> (forall s k h, runnable s t -> item_ok s k h o') ->
  inv [] (set_cpu c (set_todo (o' :: l)) (rq_unlink v t s)).
Proof.
  intros Hi Hk Ht Hv Hin Hnc Ho Ho' Hs Hs' Hty His Ha Hq Hit. destruct (inv_take [] s v kv t Hi Hv Hin Hnc) as [Hi2 Hr]. set (s2 := rq_unlink v t s) in *.
  destruct (unlink_cpu v t Hk) as (k2&Hk2&E1&E2&E3&E4&E5). fold s2 in Hk2. assert (mode_of k2 = mode_of k) as Em by (unfold mode_of, sched_held; by rewrite E4, E5).
  pose proof (iv_cpus [t] s2 Hi2 c k2 Hk2) as Hok. destruct (first_item [t] s2 c k2 o l Hi2 Hk2 ltac:(congruence)) as (Hon&_&_&Hits).
  assert (switching (todo k2) = false) as Hsw by (rewrite E4, Ht; by destruct o).
  apply inv_land with (k := k2) (t := t); try done; rewrite ?Em; auto.
  - rewrite E4, Ht. change (flights (o :: l)) with (op_tasks o ++ flights l). by rewrite Ho.
  - intros Hlv. split; [auto|]. intros Hst. rewrite <- Em in Hlv. pose proof (ok_away _ _ _ Hok Hlv Hst) as Haw. rewrite E4, Ht in Haw. by apply Forall_cons in Haw as [_ ?].
  - intros E. destruct (unswitched s2 c k2 Hok Hsw) as (_&_&Hst). pose proof (ok_quiet _ _ _ Hok) as Hqt. rewrite Hst, E4, Ht in Hqt by done.
    by apply andb_true_iff in Hqt as [_ ?].
Qed.

Lemma first_in_elem mo ts q t : first_in mo ts q = Some t -> t ∈ q.
Proof. induction q as [|u q IH]; cbn; [done|]. destruct (_ && _); [intros; right; auto|]. intros [= <-]. by left. Qed.
Lemma busy_switch v kv : cpus s !! v = Some kv -> rq_busy v s = false -> forall l, todo kv <> Ctx_switch :: l.
Proof. unfold rq_busy. intros Hv Hb l0 E. rewrite (cpu_at_some s v kv Hv), E in Hb. done. Qed.
Lemma queue_cpu v t : t ∈ queue (cpu_at v s) -> cpus s !! v = Some (cpu_at v s).
Proof. unfold cpu_at. destruct (cpus s !! v); [done|]. by intros ?%elem_of_nil. Qed.

Lemma keeps_move_from t i : keep (Move_from t i).
Proof.
  begin Hi Hk Ht. destruct (rq_busy i s) eqn:Hb; [done|]. destruct (Z.eqb_spec (queued_on (tasks s t)) (Z.of_nat i)) as [Hq|]; intros [= <- <-]; [|bare Hi Hk Ht Locked [Move t] l].
  pose proof (queued_in [] s t i Hi Hq) as Hin. pose proof (queue_cpu i t Hin) as Hv.
  apply (inv_took i (cpu_at i s) t (Move_from t i)); auto; try done; [by apply (busy_switch i)|rewrite Hm; ty|congruence|]. intros s0 k0 h Hr. by left.
Qed.
End steps.

Lemma keeps_steal s c k l x hold order tries : keeps s c k l x (Steal hold order tries).
Proof.
  destruct order as [|v order]; begin Hi Hk Ht.
  { intros [= <- <-]. bare Hi Hk Ht (mode_of k) [Pick hold None] l. }
  destruct (rq_busy v s) eqn:Hb.
  { intros [= <- <-]. destruct (Nat.ltb _ _); [bare Hi Hk Ht (mode_of k) [Steal hold (v :: order) (S tries)] l|bare Hi Hk Ht (mode_of k) [Steal hold order 0] l]. }
  unfold rq_take. destruct (first_in _ _ _) as [t|] eqn:Ef; intros [= <- <-]; [|bare Hi Hk Ht (mode_of k) [Steal hold order 0] l].
  apply first_in_elem in Ef. apply (inv_took s c k l v (cpu_at v s) t (Steal hold (v :: order) tries)); auto; try done.
  - by eapply queue_cpu.
  - apply (busy_switch s v); [by eapply queue_cpu|done].
  - rewrite Hm. destruct hold; ty.
Qed.

Lemma keeps_schedule s c k l x hold : keeps s c k l x (Schedule hold).
Proof.
  begin Hi Hk Ht. set (s1 := set_cpu c (set_kicked false) s). assert (inert s s1) as Hin by (unfold s1; auto with sched). pose proof (inv_inert [] s s1 Hi Hin) as Hi1.
  assert (cpus s1 !! c = Some (set_kicked false k)) as Hk1 by (unfold s1; cbn; by rewrite list_lookup_alter_eq, Hk). set (k1 := set_kicked false k) in *.
  assert (mode_of k1 = mode_of k) as Em by done. unfold rq_take. destruct (first_in _ _ _) as [t|] eqn:Ef; intros [= <- <-].
  - apply first_in_elem in Ef. rewrite (cpu_at_some s1 c k1 Hk1) in Ef. apply (inv_took s1 c k1 l c k1 t (Schedule hold)); auto; try done.
    + intros l0. cbn. by rewrite Ht.
    + rewrite Em, Hm. destruct hold; ty.
  - bare Hi Hk Ht (mode_of k) [Steal hold (steal_order c x s1) 0] l.
Qed.

(** ** Into a queue *)

Lemma set_cpu_comm c f v g s : (forall k, f (g k) = g (f k)) -> set_cpu c f (set_cpu v g s) = set_cpu v g (set_cpu c f s).
Proof.
  intros E. unfold set_cpu. cbn. f_equal. apply list_eq. intros j. destruct (decide (c = j)), (decide (v = j)); subst.
  - rewrite !list_lookup_alter_eq. destruct (cpus s !! j); cbn; [by rewrite E|done].
  - by rewrite list_lookup_alter_eq, !list_lookup_alter_ne, list_lookup_alter_eq by done.
  - by rewrite list_lookup_alter_ne, !list_lookup_alter_eq, list_lookup_alter_ne by done.
  - by rewrite !list_lookup_alter_ne by done.
Qed.
Lemma push_todo c l v t s : set_cpu c (set_todo l) (rq_push v t s) = rq_push v t (set_cpu c (set_todo l) s).
Proof. pose proof (set_cpu_comm c (set_todo l) v (fun q => set_queue (queue q ++ [t]) (u32 (count q + 1)) q) s ltac:(done)) as E. unfold rq_push. rewrite <- E. done. Qed.

Lemma keeps_push s c k l x v t : keeps s c k l x (Push v t).
Proof.
  begin Hi Hk Ht. destruct (rq_busy v s) eqn:Hb; [done|]. intros [= <- <-]. unfold push_ready. rewrite push_todo. destruct Hit as [Hon Hit].
  assert (t ∈ task_list s /\ queued_on (tasks s t) = -1) as [Hl Hq] by (destruct Hit as [(?&_&?)|(_&?&_&?)]; done).
  pose proof (iv_cpus [] s Hi c k Hk) as Hok. destruct (first_item [] s c k _ l Hi Hk Ht) as (Ho&_&_&Hits).
  assert (inv [t] (set_cpu c (set_todo (Kick v t :: l)) s)) as Hi1.
  { destruct (flights_todo [] s c k _ l Hi Hk Ht) as [Hnd _]. assert (flights (todo k) = t :: flights l) as Ef by (by rewrite Ht).
    apply (inv_todo [] [t] s c k (mode_of k)); [done|done|done|by rewrite Ht|done|]. split; rewrite ?Ef; auto.
    - ty.
    - intros Hlv Hst. destruct (ok_leaving _ _ _ Hok Hlv) as (_&_&Hsch). specialize (Hsch Hst). by rewrite Ht in Hsch.
    - intros Hlv Hst. pose proof (ok_away _ _ _ Hok Hlv Hst) as Ha. rewrite Ht in Ha. apply Forall_cons in Ha as [_ Ha]. by constructor.
    - intros E. destruct (unswitched s c k Hok) as (_&_&Hst); [by rewrite Ht|]. pose proof (ok_quiet _ _ _ Hok) as Hqt. rewrite Hst, Ht in Hqt by done. auto.
    - by intros u ->%list_elem_of_singleton.
    - by split. }
  set (s1 := set_cpu c (set_todo (Kick v t :: l)) s) in *.
  assert (is_online s1 v) as Hon1 by (apply (cg_online s); [by apply (change_cpu s c _ k)|done]).
  change (set_cpu c (set_todo (Kick v t :: l)) (set_task t (set_state TASK_READY) s)) with (set_task t (set_state TASK_READY) s1).
  apply (inv_push [] _ v (cpu_at v s1)); [apply (inv_between_state [t]); [done|by left]|by apply (cpu_at_online s1)|done|]. cbn. by rewrite Z.eqb_refl.
Qed.

Lemma keeps_hand s c k l x v : keeps s c k l x (Hand v).
Proof.
  begin Hi Hk Ht. destruct (rq_busy v s) eqn:Hb; [intros [= <- <-]; bare Hi Hk Ht Unlocked (@nil op) l|].
  unfold rq_take. rewrite (cpu_at_some s c k Hk). destruct (first_in _ _ _) as [t|] eqn:Ef; intros [= <- <-]; [|bare Hi Hk Ht Unlocked (@nil op) l].
  apply first_in_elem in Ef. destruct (inv_take [] s c k t Hi Hk Ef) as [Hi1 (_&Hst&_)]; [intros l0; by rewrite Ht|]. set (s1 := rq_unlink c t s) in *.
  assert (cpus s1 = <[c := set_queue (remove t (queue k)) (u32 (count k - 1)) k]> (cpus s)) as Ek by (unfold s1; cbn; by rewrite (alter_insert _ (cpus s) c k Hk)).
  assert (is_online s1 v) as Hon.
  { apply (cg_online s); [|done]. apply change_task; [by apply (change_cpu s c _ k)| |done]. by apply (ok_queue _ _ _ (iv_cpus [] s Hi c k Hk)). }
  assert (inv [] (rq_push v t s1)) as Hi2 by (apply (inv_push [] s1 v (cpu_at v s1)); [done|by apply cpu_at_online|done|done]).
  set (s2 := rq_push v t s1) in *. assert (exists k2, cpus s2 !! c = Some k2 /\ todo k2 = todo k /\ release_sched k2 = release_sched k /\ current k2 = current k) as (k2&Hk2&E1&E2&E3).
  { unfold s2. cbn [rq_push set_task cpus set_cpu]. rewrite Ek. destruct (decide (v = c)) as [->|Hne]; [rewrite list_lookup_alter_eq|rewrite list_lookup_alter_ne by done];
      rewrite list_lookup_insert_eq by (by eapply lookup_lt_Some); eexists; done. }
  rewrite Ht in E1. assert (mode_of k2 = Unlocked) as Em by (rewrite <- Hm; unfold mode_of, sched_held; by rewrite E1, E2, Ht).
  bare Hi2 Hk2 E1 Unlocked [Kick_cpu v] l.
Qed.

(** ** New tasks and ended ones *)

(** The first item is dropped, with a task that is not on the list. *)
Lemma inv_dropped s c k o l t : inv [] s -> cpus s !! c = Some k -> todo k = o :: l -> op_tasks o = [t] -> t ∉ task_list s -> switching [o] = false -> in_schedule [o] = false ->
  typed (mode_of k) l = true -> let s' := set_cpu c (set_todo l) s in inv [] s' /\ t ∉ placed s' /\ cpus s' !! c = Some (set_todo l k) /\ mode_of (set_todo l k) = mode_of k.
Proof.
  intros Hi Hk Ht Ho Hl Hs His Hty s'. destruct (start s c k o l Hi Hk Ht) as (_&Hpr&_). pose proof (iv_cpus [] s Hi c k Hk) as Hok.
  assert (switching l = false) as Hsl by (by destruct l as [|[] ?]).
  assert (cpus s' = <[c := set_todo l k]> (cpus s)) as Ek by (by apply (cpus_set_cpu s c (set_todo l) k)). split; [|split; [|split]].
  - apply (inv_ops s s c k o l (mode_of k) [] l); auto with sched. split; auto; try done; rewrite ?Ho.
    + intros Hlv Hst. destruct (ok_leaving _ _ _ Hok Hlv) as (_&_&Hsch). specialize (Hsch Hst). rewrite Ht in Hsch. by destruct o.
    + apply NoDup_nil_2.
    + by intros u ?%elem_of_nil.
    + intros u ->%list_elem_of_singleton. auto.
  - assert (cpu_tasks k ≡ₚ [t] ++ cpu_tasks (set_todo l k)) as Hp.
    { destruct (tasks_todo k l) as (b&E1&E2); [rewrite Ht; by destruct o|done|]. rewrite E1, E2, Ht. change (flights (o :: l)) with (op_tasks o ++ flights l). rewrite Ho. apply Permutation_app_swap_app. }
    pose proof (placed_less s s' c k _ [t] Hk Ek Hp) as HP. pose proof (iv_nodup [] s Hi) as Hn. cbn in Hn. rewrite HP in Hn. by apply NoDup_cons in Hn as [? _].
  - rewrite Ek. apply list_lookup_insert_eq. by eapply lookup_lt_Some.
  - destruct (mode_typed (set_todo l k) (mode_of k)) as [? _]; [done|cbn; by rewrite Hsl|done].
Qed.

Lemma keeps_free s c k l x t : keeps s c k l x (Free t).
Proof.
  begin Hi Hk Ht. intros [= <- <-]. destruct Hit as ((Hl&_&Hid&_)&_). destruct (inv_dropped s c k (Free t) l t) as (Hi1&Hp&_); auto; [by rewrite Hm|].
  apply (inv_forget (set_cpu c (set_todo l) s) t Hi1); auto. by rewrite (idles_set s c (set_todo l) k).
Qed.

Lemma keeps_enqueue s c k l x t : keeps s c k l x (Enqueue t).
Proof.
  begin Hi Hk Ht. destruct Hit as ((Hl&Ha&Hid&Hq)&Hst). unfold is_state. rewrite bool_decide_eq_true_2 by done. intros [= <- <-].
  destruct (inv_dropped s c k (Enqueue t) l t) as (Hi1&Hp&Hk1&Hm1); auto; [by rewrite Hm|]. rewrite Hm in Hm1. set (s1 := set_cpu c (set_todo l) s) in *. set (k1 := set_todo l k) in *.
  assert (inv [t] (set_list (task_list s1 ++ [t]) s1)) as Hi2.
  { apply (inv_enlist [] s1 t Hi1); [|done]. split; [done|]. split; [done|]. split; [|done]. unfold s1. by rewrite (idles_set s c (set_todo l) k). }
  set (s2 := set_list (task_list s1 ++ [t]) s1) in *. pose proof (iv_cpus [t] s2 Hi2 c k1 Hk1) as Hok. destruct (first_item [] s c k _ l Hi Hk Ht) as (Ho&_&_&Hits).
  assert (switching l = false) as Hsl by (by destruct l as [|[] ?]).
  assert (inv [] (set_cpu c (set_todo (Place t false :: l)) s2)) as Hi3.
  { apply inv_land with (k := k1) (t := t); try done; rewrite ?Hm1; auto; try done.
    - rewrite Forall_forall in Hits |- *. intros o Ho'. apply (item_frame s s2 k k1 false o); [auto|done|done| |by apply (idles_set s c (set_todo l) k)|apply (cg_online s s1); by apply (change_cpu s c _ k)].
      intros u Hu. assert (u <> t) as Hne.
      { intros ->. apply Hp, placed_elem. exists c, k1. split; [done|]. by apply (in_items k1 t o). }
      split; try done. cbn. rewrite elem_of_app, list_elem_of_singleton. clear - Hne. tauto.
    - intros E. destruct (unswitched s2 c k1 Hok Hsl) as (_&_&Hsk). apply (ok_quiet _ _ _ Hok). by rewrite Hsk.
    - ty.
    - left. split; [|done]. apply elem_of_app. right. by apply list_elem_of_singleton. }
  change (inv [] (set_list (task_list s ++ [t]) (set_cpu c (set_todo (Place t false :: l)) s1))) in Hi3. unfold s1 in Hi3. by rewrite (todo_twice c l _ s k Hk) in Hi3.
Qed.

Lemma inert_calm s t f : (forall j, mode_of (cpu_at j s) <> Leaving) ->
  (forall u, state (f u) = state u /\ queued_on (f u) = queued_on u /\ affinity (f u) = affinity u /\ rest (f u) = rest u) -> inert s (set_task t f s).
Proof.
  intros Hc Hf. split; try done; [apply (it_cpus s s), inert_refl| |].
  - intros y. cbn. destruct (y =? t); [apply Hf|done].
  - intros y j Hj. by destruct (Hc j).
Qed.

Lemma keeps_add_thread s c k l x t creator : keeps s c k l x (Add_thread t creator).
Proof.
  begin Hi Hk Ht. destruct (_ && _ && _ && _); intros [= <- <-].
  - apply (inv_same s c k l _ (Add_thread t creator) _ t Locked); auto; try done; [|rewrite Hm; ty].
    eapply inert_trans; [|apply inert_set_process]. apply inert_calm; [|done]. intros j. by apply (locked_calm [] s c k j Hi Hk).
  - destruct Hit as ((Hl&_)&_). destruct (inv_dropped s c k (Add_thread t creator) l t) as (Hi1&_); auto. by rewrite Hm.
Qed.

Lemma keeps_new s c k l x t p parent prio : keeps s c k l x (New t p parent prio).
Proof.
  begin Hi Hk Ht. intros [= <- <-]. assert (inv [] (if bool_decide (t ∈ allocated s) then s else alloc_task t p parent prio s)) as Hi1.
  { destruct (bool_decide (t ∈ allocated s)) eqn:E; [done|]. apply bool_decide_eq_false in E. by apply (inv_new s c k). }
  assert (cpus (if bool_decide (t ∈ allocated s) then s else alloc_task t p parent prio s) !! c = Some k) as Hk1 by (by destruct (bool_decide (t ∈ allocated s))).
  bare Hi1 Hk1 Ht Locked (@nil op) l.
Qed.

Lemma keeps_affinity s c k l x t a : keeps s c k l x (Affinity t a).
Proof.
  begin Hi Hk Ht. intros [= <- <-]. set (b := if (0 <=? a) && online (cpu_at (Z.to_nat a) s) then a else TASK_ANY_CPU). assert (inv [] (set_task t (set_affinity b) s)) as Hi1.
  { apply (inv_rebind [] s t b Hi Hit). unfold b. destruct (_ && _) eqn:E; [|by left]. right. apply andb_true_iff in E as [?%Z.leb_le ?]. done. }
  bare Hi1 Hk Ht Locked [Move t] l.
Qed.

(** Tasks that have ended leave the list; their memory is given back once the lock is free. *)
Lemma inv_collect s c k o l dead L : inv [] s -> cpus s !! c = Some k -> todo k = o :: l -> mode_of k = Locked -> op_tasks o = [] -> switching [o] = false -> in_schedule [o] = false ->
  typed Unlocked l = true -> NoDup dead -> (forall t, t ∈ dead -> t ∈ task_list s /\ state (tasks s t) = TASK_ZOMBIE) -> L ⊆ task_list s -> NoDup L ->
  (forall t, t ∈ task_list s -> t ∉ L <-> t ∈ dead) -> inv [] (set_cpu c (set_todo ((Sched_unlock :: (Free <$> dead)) ++ l)) (set_list L s)).
Proof.
  intros Hi Hk Ht Hm Ho Hs His Hty Hnd Hd HL HnL Hdl. destruct (start s c k o l Hi Hk Ht) as (_&Hpr&_). destruct (first_item [] s c k o l Hi Hk Ht) as (Hon&_).
  assert (forall t, t ∈ dead -> t ∉ placed s) as Hnp.
  { intros t Hin. destruct (Hd t Hin) as [Hl Hz]. apply (out_nowhere s c k o l); auto; [congruence|by right|]. intros ->.
    rewrite (ok_running _ _ _ (iv_cpus [] s Hi c k Hk) Hon) in Hz by congruence. done. }
  assert (inv [] (set_list L s)) as Hi1.
  { apply inv_delist; auto. intros t Hl Hno. apply Hdl in Hno; [|done]. split; [by apply Hd|auto]. }
  assert (Forall (inner Unlocked) (Free <$> dead)) as Hin by (apply Forall_fmap, Forall_forall; by intros t _).
  destruct (typed_inner Unlocked (Free <$> dead) l Hin Hpr Hty) as [Ht1 Hp1].
  assert (flights (Sched_unlock :: (Free <$> dead)) = dead) as Ef.
  { unfold flights. cbn. clear. induction dead as [|t dead IH]; cbn; [done|]. by rewrite IH. }
  assert (forallb quiet (Free <$> dead) = true) as Hq by (clear; by induction dead).
  apply (inv_ops (set_list L s) (set_list L s) c k o l Locked); auto with sched. split; rewrite ?Ef, ?Ho; auto; try done.
  - cbn [app]. by apply typed_intro.
  - by intros t ?%elem_of_nil.
  - split; [done|]. apply Forall_fmap, Forall_forall. intros t Hin'. destruct (Hd t Hin') as [Hl Hz]. destruct (iv_list [] s Hi) as [_ HA]. cbn. split; [|auto].
    split; [by apply Hdl|]. split; [auto|]. split; [intros Hid; by destruct (idles_facts [] s t Hi Hid)|]. apply (asleep_unqueued [] s); [done|by right].
Qed.

Lemma reapable_zombie s self t : reapable s self t = true -> state (tasks s t) = TASK_ZOMBIE.
Proof. unfold reapable. intros H. apply andb_true_iff in H as [H _]. apply andb_true_iff in H as [H _]. apply andb_true_iff in H as [H _]. by apply bool_decide_eq_true in H. Qed.

Lemma keeps_reap s c k l x : keeps s c k l x Reap.
Proof.
  begin Hi Hk Ht. intros [= <- <-]. destruct (iv_list [] s Hi) as [HN _]. set (dead := filter _ _).
  apply (inv_collect s c k Reap l (reverse dead)); auto.
  - rewrite reverse_Permutation. by apply NoDup_filter.
  - intros t Hin. rewrite elem_of_reverse in Hin. apply list_elem_of_filter in Hin as [Hr Hl]. split; [done|]. by eapply reapable_zombie.
  - intros t Hin. by apply list_elem_of_filter in Hin as [_ ?].
  - by apply NoDup_filter.
  - intros t Hl. rewrite elem_of_reverse. unfold dead. rewrite !list_elem_of_filter. destruct (reapable s (current k) t); naive_solver.
Qed.

Lemma collect_one s c k o l t : inv [] s -> cpus s !! c = Some k -> todo k = o :: l -> mode_of k = Locked -> op_tasks o = [] -> switching [o] = false -> in_schedule [o] = false ->
  typed Unlocked l = true -> t ∈ task_list s -> state (tasks s t) = TASK_ZOMBIE -> inv [] (set_cpu c (set_todo (Sched_unlock :: Free t :: l)) (set_list (remove t (task_list s)) s)).
Proof.
  intros Hi Hk Ht Hm Ho Hs His Hty Hl Hz. destruct (iv_list [] s Hi) as [HN _]. apply (inv_collect s c k o l [t]); auto.
  - apply NoDup_singleton.
  - by intros u ->%list_elem_of_singleton.
  - intros u Hu. by apply remove_elem in Hu as [? _].
  - by apply NoDup_filter.
  - intros u Hu. rewrite remove_elem, list_elem_of_singleton. destruct (decide (u = t)); tauto.
Qed.

Lemma scan_dead s self want untraced have ts t : wait_scan s self want untraced have ts = Dead_child t -> t ∈ ts /\ state (tasks s t) = TASK_ZOMBIE.
Proof.
  revert have. induction ts as [|u ts IH]; intros have; cbn; [by destruct have|]. destruct (_ || _ || _ || _ || _).
  - intros H. destruct (IH _ H). split; [by right|done].
  - destruct (_ && _ && _); [done|]. destruct (is_state s u TASK_ZOMBIE && _) eqn:E.
    + intros [= <-]. apply andb_true_iff in E as [E _]. split; [by left|]. by apply bool_decide_eq_true in E.
    + intros H. destruct (IH _ H). split; [by right|done].
Qed.

Lemma keeps_wait_child s c k l x want nohang untraced : keeps s c k l x (Wait_child want nohang untraced).
Proof.
  begin Hi Hk Ht. destruct (wait_scan _ _ _ _ _ _) as [t|t| |] eqn:Es.
  - intros [= <- <-]. bare Hi Hk Ht Locked [Sched_unlock] l.
  - intros [= <- <-]. destruct (scan_dead _ _ _ _ _ _ _ Es). by apply (collect_one s c k (Wait_child want nohang untraced)).
  - destruct (_ || _); intros [= <- <-]; [bare Hi Hk Ht Locked [Sched_unlock] l|].
    bare Hi Hk Ht Locked [Sleep (Process_channel (proc (tasks s (current k)))) 0 0 true true; Wait_child want nohang untraced] l.
  - intros [= <- <-]. bare Hi Hk Ht Locked [Sched_unlock] l.
Qed.

Lemma find_task_listed s n t : find_task s n = Some t -> t ∈ task_list s.
Proof. unfold find_task. intros H. apply head_Some_elem_of in H. by apply list_elem_of_filter in H as [_ ?]. Qed.

Lemma keeps_join s c k l x tid : keeps s c k l x (Join tid).
Proof.
  begin Hi Hk Ht. destruct (find_task s tid) as [t|] eqn:Ef; [|intros [= <- <-]; bare Hi Hk Ht Locked [Sched_unlock] l].
  destruct (_ || _); [intros [= <- <-]; bare Hi Hk Ht Locked [Sched_unlock] l|].
  destruct (is_state s t TASK_ZOMBIE) eqn:Ez; [intros [= <- <-]; apply state_is in Ez; apply find_task_listed in Ef; by apply (collect_one s c k (Join tid))|].
  destruct (sig_ready _); intros [= <- <-]; [bare Hi Hk Ht Locked [Sched_unlock] l|].
  bare Hi Hk Ht Locked [Sleep (Process_channel (proc (tasks s (current k)))) 0 0 true true; Join tid] l.
Qed.

(** ** Switching *)

Lemma keeps_switch s c k l x hold next ms : keeps s c k l x (Switch hold next ms).
Proof.
  begin Hi Hk Ht. pose proof (inv_switch [] s c k hold next ms l Hi Hk Ht) as Hs. destruct (_ && _ && _ && _); intros [= <- <-]; [|done].
  apply (inv_inert [] _ _ Hs). apply inert_todo; [apply inert_kick_idle|]. intros t. unfold kick_an_idle_cpu, kick_cpu. destruct (first_idle _ _ _); [|done]. by destruct (_ || _).
Qed.
Lemma keeps_context s c k l x : keeps s c k l x Ctx_switch.
Proof.
  begin Hi Hk Ht. intros [= <- <-]. pose proof (inv_context [] s c k l Hi Hk Ht) as Hs. destruct (first_item [] s c k _ l Hi Hk Ht) as (Ho&_).
  pose proof (ok_stack _ _ _ (iv_cpus [] s Hi c k Hk) Ho) as Hst. rewrite Ht in Hst. destruct Hst as [Hne _]. apply not_eq_sym, Z.eqb_neq in Hne. cbn. by rewrite Hne.
Qed.
Lemma keeps_finish s c k l x : keeps s c k l x Finish.
Proof. begin Hi Hk Ht. intros [= <- <-]. by apply (inv_finish [] s c k l). Qed.

(** ** Giving up the CPU *)

Definition tell (o : op) : Prop := match o with Wake _ | Signal _ _ => True | _ => False end.
Lemma tell_typed ops l : Forall tell ops -> forallb plain l = true -> typed Unlocked l = true ->
  typed Leaving (ops ++ Schedule true :: l) = true /\ forallb bare (ops ++ Schedule true :: l) = true /\ switching (ops ++ Schedule true :: l) = false.
Proof.
  intros Ho Hp Ht. split; [|split; [|by destruct Ho as [|[] ? ?]]].
  - apply typed_inner; [|cbn; by apply plain_prompt|]; [eapply Forall_impl; [exact Ho|]; by intros []|]. apply typed_intro; [done|by apply plain_prompt|done|done].
  - rewrite forallb_app. cbn. rewrite (plain_bare l Hp). apply andb_true_iff. split; [|done]. clear -Ho. induction Ho as [|o ops H _ IH]; [done|]. cbn. rewrite IH. by destruct o.
Qed.

Lemma inv_leaves s s2 c k o l st ops l2 : inv [] s -> cpus s !! c = Some k -> todo k = o :: l -> mode_of k = Locked -> op_tasks o = [] -> switching [o] = false ->
  quiet o = false -> forallb plain l = true -> out st -> inert (set_task (current k) (set_state st) s) s2 -> (forall t, proc (tasks s2 t) = proc (tasks s t)) ->
  Forall tell ops -> forallb plain l2 = true -> typed Unlocked l2 = true -> (st = TASK_BLOCKED -> ops = []) ->
  (st = TASK_STOPPED -> Forall (away s (current k)) ops) -> inv [] (set_cpu c (set_todo (ops ++ Schedule true :: l2)) s2).
Proof.
  intros Hi Hk Ht Hm Ho Hs Hq Hp Hst Hin Hpr Hops Hp2 Ht2 Hb Ha. pose proof (iv_cpus [] s Hi c k Hk) as Hok. destruct (first_item [] s c k o l Hi Hk Ht) as (Hon&_).
  assert (switching (todo k) = false) as Hsw by (rewrite Ht; by destruct o). destruct (tell_typed ops l2 Hops Hp2 Ht2) as (Hty&Hpl&Hsw').
  eapply inv_inert; [apply (inv_leave [] s c k st (ops ++ Schedule true :: l2)); auto|apply inert_todo; [done|]].
  - intros E. destruct (unswitched s c k Hok Hsw) as (_&_&Hsk). pose proof (ok_quiet _ _ _ Hok) as Hqt. rewrite Hsk, Ht in Hqt by done. specialize (Hqt E). cbn in Hqt. by rewrite Hq in Hqt.
  - rewrite Ht. change (flights (o :: l)) with (op_tasks o ++ flights l). by rewrite Ho, (plain_flights l Hp).
  - intros E. by rewrite (Hb E).
  - intros E. apply Forall_app. split; [auto|]. constructor; [done|]. by apply plain_away.
  - intros t. rewrite Hpr. cbn. by destruct (t =? current k).
Qed.

Lemma stop_current_facts s self ops s2 : stop_current self s = (ops, s2) ->
  inert (set_task self (set_state TASK_STOPPED) s) s2 /\ (forall t, proc (tasks s2 t) = proc (tasks s t)) /\ Forall tell ops /\ Forall (away s self) ops.
Proof.
  unfold stop_current. set (s3 := set_task self _ _). assert (forall t, proc (tasks s3 t) = proc (tasks s t)) as Hp by (intros t; cbn; by destruct (t =? self)).
  intros [= <- <-]. split; [|split; [done|]].
  - split; try done; [apply (it_cpus s s), inert_refl|..]; intros t; cbn; by destruct (t =? self).
  - destruct (if sched_process_stopped_locked s3 self then _ else _) as [q|]; [|by repeat constructor]. pose proof (Hp q) as Hq. cbn in Hq. rewrite Hq.
    destruct (Z.eqb_spec (proc (tasks s q)) (proc (tasks s self))) as [|Hn]; by repeat constructor.
Qed.

Lemma keeps_stop s c k l x : keeps s c k l x Stop.
Proof.
  begin Hi Hk Ht. destruct (stop_current _ _) as [ops s2] eqn:E. intros [= <- <-]. destruct (stop_current_facts _ _ _ _ E) as (Hin&Hp&Hops&Ha).
  apply (inv_leaves s s2 c k Stop l TASK_STOPPED); auto; try done. left. by right.
Qed.

Lemma inert_sleeper_add t i key s : inert s (sleeper_add t i key s).
Proof.
  unfold sleeper_add. apply (inert_trans _ (set_task t (set_sleeping (Z.of_nat i) key) s)); [apply inert_set_task; by intros ?|]. apply inert_set_cpu. by intros ?.
Qed.
Lemma inert_begin_wait s c t ch tick ns : inert (set_task t (set_state TASK_BLOCKED) s) (begin_wait c t ch tick ns s).
Proof.
  unfold begin_wait. set (s1 := set_task t (fun u => set_state TASK_BLOCKED (set_wait _ u)) s). assert (inert (set_task t (set_state TASK_BLOCKED) s) s1) as Hin.
  { split; try done; [apply (it_cpus s s), inert_refl|..]; intros u; cbn; by destruct (u =? t). }
  destruct (_ || _); [|done]. apply (inert_trans _ s1); [done|]. apply inert_sleeper_add.
Qed.
Lemma begin_wait_proc s c t ch tick ns u : proc (tasks (begin_wait c t ch tick ns s) u) = proc (tasks s u).
Proof. unfold begin_wait, sleeper_add. destruct (_ || _); cbn; by destruct (u =? t). Qed.

Lemma keeps_sleep s c k l x ch tick ns i mine : keeps s c k l x (Sleep ch tick ns i mine).
Proof.
  begin Hi Hk Ht. set (back := if mine then [Sched_lock] else []).
  assert (forallb plain (back ++ l) = true /\ typed Unlocked (back ++ l) = true) as [Hp2 Ht2] by (unfold back; destruct mine; split; cbn; auto; ty).
  destruct (_ && negb _); [intros [= <- <-]; change (Sched_unlock :: die (kill_pending (fate_of (tasks s (current k))))) with ((Sched_unlock :: die (kill_pending (fate_of (tasks s (current k))))) ++ []);
    bare Hi Hk Ht Locked (Sched_unlock :: die (kill_pending (fate_of (tasks s (current k))))) (@nil op)|].
  destruct (_ && negb _).
  { destruct (stop_current _ _) as [ops s2] eqn:E. intros [= <- <-]. destruct (stop_current_facts _ _ _ _ E) as (Hin&Hp&Hops&Ha).
    apply (inv_leaves s s2 c k (Sleep ch tick ns i mine) l TASK_STOPPED); auto; try done. left. by right. }
  destruct (_ && _); intros [= <- <-].
  - destruct mine; [bare Hi Hk Ht Locked (@nil op) l|bare Hi Hk Ht Locked [Sched_unlock] l].
  - apply (inv_leaves s _ c k (Sleep ch tick ns i mine) l TASK_BLOCKED []); auto; try done.
    + left. by left.
    + apply inert_begin_wait.
    + intros t. apply begin_wait_proc.
    + by apply typed_intro; [done|apply plain_prompt|..].
Qed.

(** Nothing changes that matters here, and no task its process. *)
Definition still (s s' : sched) : Prop := inert s s' /\ forall t, proc (tasks s' t) = proc (tasks s t).
Lemma still_trans s s' s'' : still s s' -> still s' s'' -> still s s''.
Proof. intros [H1 E1] [H2 E2]. split; [by eapply inert_trans|]. intros t. by rewrite E2, E1. Qed.
Lemma still_fold {A} (f : sched -> A -> sched) (l : list A) s : (forall s a, still s (f s a)) -> still s (fold_left f l s).
Proof. intros Hf. revert s. induction l as [|a l IH]; intros s; [split; [apply inert_refl|done]|]. eapply still_trans; [apply Hf|apply IH]. Qed.
Lemma still_detach t s : still s (set_task t (set_fate (set_detached true)) s).
Proof. split; [auto with sched|]. intros u. cbn. by destruct (u =? t). Qed.
Lemma still_refl s : still s s.
Proof. split; [apply inert_refl|done]. Qed.
Lemma still_process p f s : still s (set_process p f s).
Proof. split; [apply inert_set_process|done]. Qed.

Lemma still_give_away p s t : still s (give_away p s t).
Proof. unfold give_away. destruct (orphan _ _ _); [|apply still_refl]. destruct (negb _); [apply still_process|apply still_detach]. Qed.
Lemma tell_omap {A} (f : A -> bool) ch l : Forall tell (omap (fun t => if f t then Some (Wake ch) else None) l).
Proof. induction l as [|t l IH]; cbn; [constructor|]. destruct (f t); [by constructor|done]. Qed.

Lemma exit_last_facts s self status last ops s2 : exit_last self status last s = (ops, s2) ->
  inert (set_task self (set_state TASK_ZOMBIE) s) s2 /\ (forall t, proc (tasks s2 t) = proc (tasks s t)) /\ Forall tell ops.
Proof.
  unfold exit_last. set (s1 := set_task self (fun u => set_state TASK_ZOMBIE (set_fate _ u)) s).
  assert (inert (set_task self (set_state TASK_ZOMBIE) s) s1 /\ (forall t, proc (tasks s1 t) = proc (tasks s t))) as [Hin Hp].
  { split; [|intros t; cbn; by destruct (t =? self)]. split; try done; [apply (it_cpus s s), inert_refl|..]; intros t; cbn; by destruct (t =? self). }
  destruct last; cbn [negb]; [|intros [= <- <-]; split; [done|]; split; [done|]; constructor; [done|]; destruct (detached _); by repeat constructor]. set (s3 := fold_left _ _ s1). set (s4 := if _ && _ then set_init_task 0 s3 else s3). intros [= <- <-].
  assert (still s1 (fold_left (give_away (proc (tasks s self))) (task_list s4) s4)) as [Hin2 Hp2].
  { apply (still_trans _ s3); [unfold s3; apply still_fold; intros s0 a; destruct (leader s0 a); [apply still_refl|apply still_detach]|].
    apply (still_trans _ s4); [unfold s4; destruct (_ && _); [|apply still_refl]; by split; [apply inert_set_init|]|].
    apply still_fold. intros s0 a. apply still_give_away. }
  split; [by eapply inert_trans|]. split; [intros t; by rewrite Hp2, Hp|]. constructor; [done|]. apply Forall_app. split; [destruct (detached _); by repeat constructor|].
  constructor; [done|]. apply Forall_app. split.
  - destruct (init_task s4 =? 0); [apply (tell_omap (fun t => is_state s4 t TASK_ZOMBIE))|]. destruct (filter _ (task_list s4)); by repeat constructor.
  - destruct (find _ _); by repeat constructor.
Qed.

Lemma keeps_exit_last s c k l x n last : keeps s c k l x (Exit_last n last).
Proof.
  begin Hi Hk Ht. destruct (exit_last _ _ _ _) as [ops s2] eqn:E. intros [= <- <-]. destruct (exit_last_facts _ _ _ _ _ _ E) as (Hin&Hp&Hops).
  apply (inv_leaves s s2 c k (Exit_last n last) l TASK_ZOMBIE); auto; try done. by right.
Qed.

(** * The whole *)

Theorem perform_inv s c k o l x l' s' : inv [] s -> (forall i t, t ∈ sleepers (cpu_at i s) -> state (tasks s t) = TASK_BLOCKED) -> cpus s !! c = Some k -> todo k = o :: l ->
  perform c o l x s = Some (l', s') -> inv [] (set_cpu c (set_todo l') s').
Proof.
  intros Hi Hsl Hk Ht Hp. revert l' s' Hp. revert Hi Hk Ht. change (keeps s c k l x o). destruct o;
    eauto using keeps_lock, keeps_unlock, keeps_place, keeps_push, keeps_kick, keeps_kick_cpu, keeps_schedule, keeps_steal, keeps_pick, keeps_switch, keeps_context, keeps_finish,
      keeps_halt, keeps_sleep, keeps_woken, keeps_wake, keeps_wake_in, keeps_wake_task, keeps_due, keeps_enqueue, keeps_affinity, keeps_move, keeps_move_from, keeps_interrupt,
      keeps_request_kill, keeps_request_stop, keeps_continue, keeps_signal, keeps_stop, keeps_stop_if_pending, keeps_check_kill, keeps_exit_begin, keeps_exit_leave, keeps_exit_last,
      keeps_reap, keeps_free, keeps_tick, keeps_hand, keeps_slice, keeps_await_reapable, keeps_end_others, keeps_await_alone, keeps_new, keeps_add_thread, keeps_futex_wake,
      keeps_futex_in, keeps_wait_child, keeps_join, keeps_set_init, keeps_make_unkillable.
Qed.
