(* ===== verification/SchedSleep.v ===== *)
(** The tasks that sleep until a time: each CPU's list of them is in order, and has the
    tasks that say so, all of them blocked. With that, every step of the scheduler keeps
    to the invariant. *)
From stdpp Require Import base tactics numbers list sets gmap relations.
From Stdlib Require Import ZArith Lia Sorting.Sorted.
From S2P Require Import Prelude Sched SchedInv SchedMoves SchedRun SchedStep.

Open Scope Z_scope.

(** A task about to be placed, by the first item. *)
Definition placing (l : list op) : option Z := match l with (Place t _ | Push _ t) :: _ => Some t | _ => None end.

Definition earlier (ts : Z -> task) (t u : Z) : Prop := sleep_key_ns (ts t) <= sleep_key_ns (ts u).

Record sleep_ok (s : sched) : Prop := {
  sl_in : forall c t, t ∈ sleepers (cpu_at c s) -> state (tasks s t) = TASK_BLOCKED /\ sleeping_on (tasks s t) = Z.of_nat c;
  sl_on : forall t, 0 <= sleeping_on (tasks s t) -> t ∈ sleepers (cpu_at (Z.to_nat (sleeping_on (tasks s t))) s);
  sl_order : forall c, StronglySorted (earlier (tasks s)) (sleepers (cpu_at c s));
  sl_nodup : forall c, NoDup (sleepers (cpu_at c s));
  sl_count : forall c, sleeper_count (cpu_at c s) = u32 (Z.of_nat (length (sleepers (cpu_at c s))));
  sl_placing : forall c t, placing (todo (cpu_at c s)) = Some t -> sleeping_on (tasks s t) < 0
}.

Lemma not_sleeping s t : sleep_ok s -> state (tasks s t) <> TASK_BLOCKED -> sleeping_on (tasks s t) < 0.
Proof.
  intros Hs Hb. destruct (Z.lt_ge_cases (sleeping_on (tasks s t)) 0) as [|Hn]; [done|]. destruct (sl_in s Hs _ t (sl_on s Hs t Hn)). done.
Qed.

(** * Steps that leave the sleepers alone *)

Record slept (s s' : sched) : Prop := {
  sp_todo : forall c, todo (cpu_at c s') = todo (cpu_at c s);
  sp_cpus : forall c, sleepers (cpu_at c s') = sleepers (cpu_at c s) /\ sleeper_count (cpu_at c s') = sleeper_count (cpu_at c s);
  sp_tasks : forall t, 0 <= sleeping_on (tasks s t) \/ 0 <= sleeping_on (tasks s' t) ->
    sleeping_on (tasks s' t) = sleeping_on (tasks s t) /\ sleep_key_ns (tasks s' t) = sleep_key_ns (tasks s t) /\ state (tasks s' t) = state (tasks s t)
}.
Lemma slept_refl s : slept s s.
Proof. by split. Qed.
Lemma slept_trans s s' s'' : slept s s' -> slept s' s'' -> slept s s''.
Proof.
  intros [A0 A1 A2] [B0 B1 B2]. split.
  - intros c. by rewrite B0, A0.
  - intros c. destruct (A1 c), (B1 c). split; congruence.
  - intros t Ht. assert (0 <= sleeping_on (tasks s t) \/ 0 <= sleeping_on (tasks s' t)) as H1.
    { destruct Ht as [|Ht]; [by left|]. right. destruct (B2 t (or_intror Ht)) as (E&_). lia. }
    destruct (A2 t H1) as (?&?&?). destruct (B2 t) as (?&?&?); [left; destruct H1; congruence|]. split; [congruence|]. split; congruence.
Qed.
Lemma cpu_at_alter {A} (g : cpu -> A) c f s j : (forall k, g (f k) = g k) -> g (cpu_at j (set_cpu c f s)) = g (cpu_at j s).
Proof.
  intros Hf. unfold cpu_at. cbn. destruct (decide (c = j)) as [<-|Hn]; [|by rewrite list_lookup_alter_ne]. rewrite list_lookup_alter_eq. destruct (cpus s !! c); [apply Hf|done].
Qed.
Lemma slept_cpu c f s : (forall k, todo (f k) = todo k /\ sleepers (f k) = sleepers k /\ sleeper_count (f k) = sleeper_count k) -> slept s (set_cpu c f s).
Proof. intros Hf. split; [intros j..|done]; [|split]; apply (cpu_at_alter _ c f s j); intros k; apply Hf. Qed.
Lemma slept_task t f s : (forall u, sleeping_on (f u) = sleeping_on u /\ sleep_key_ns (f u) = sleep_key_ns u /\ state (f u) = state u) -> slept s (set_task t f s).
Proof. intros Hf. split; [done|done|]. intros u _. cbn. destruct (u =? t); [apply Hf|done]. Qed.
(** A task that does not sleep may change its state. *)
Lemma slept_state t f s : sleeping_on (tasks s t) < 0 -> (forall u, sleeping_on (f u) = sleeping_on u) -> slept s (set_task t f s).
Proof. intros Ht Hf. split; [done|done|]. intros u. cbn. destruct (Z.eqb_spec u t) as [->|]; [|done]. rewrite Hf. lia. Qed.
Lemma slept_same s s' : cpus s' = cpus s -> tasks s' = tasks s -> slept s s'.
Proof. intros E1 E2. split; unfold cpu_at; rewrite ?E1, ?E2; done. Qed.
Lemma slept_fold {A} (f : sched -> A -> sched) (l : list A) s : (forall s a, slept s (f s a)) -> slept s (fold_left f l s).
Proof. intros Hf. revert s. induction l as [|a l IH]; intros s; [apply slept_refl|]. eapply slept_trans; [apply Hf|apply IH]. Qed.

Lemma slept_less s s' t : slept s s' -> sleeping_on (tasks s t) < 0 -> sleeping_on (tasks s' t) < 0.
Proof.
  intros Hs Ht. destruct (Z.lt_ge_cases (sleeping_on (tasks s' t)) 0) as [|Hge]; [done|]. destruct (sp_tasks _ _ Hs t (or_intror Hge)) as (E&_). lia.
Qed.

Create HintDb sleep.
#[export] Hint Resolve slept_refl : sleep.
#[export] Hint Extern 1 (slept _ (set_cpu _ _ _)) => apply slept_cpu; by intros ? : sleep.
#[export] Hint Extern 1 (slept _ (set_task _ _ _)) => apply slept_task; by intros ? : sleep.
#[export] Hint Extern 1 (slept _ (set_process _ _ _)) => by apply slept_same : sleep.
#[export] Hint Extern 1 (slept _ (set_list _ _)) => by apply slept_same : sleep.
#[export] Hint Extern 1 (slept _ (set_init_task _ _)) => by apply slept_same : sleep.
#[export] Hint Extern 1 (slept _ (set_allocated _ _)) => by apply slept_same : sleep.

(** A second change after a first. *)
Ltac sleep_then :=
  match goal with
  | |- slept ?s (set_task _ _ ?s1) => apply (slept_trans s s1)
  | |- slept ?s (set_cpu _ _ ?s1) => apply (slept_trans s s1)
  | |- slept ?s (set_process _ _ ?s1) => apply (slept_trans s s1)
  | |- slept ?s (rq_push _ _ ?s1) => apply (slept_trans s s1)
  | |- slept ?s (rq_unlink _ _ ?s1) => apply (slept_trans s s1)
  | |- slept ?s (kick_an_idle_cpu _ ?s1) => apply (slept_trans s s1)
  | |- slept ?s (fold_left _ _ ?s1) => apply (slept_trans s s1)
  end; [|solve [auto with sleep]].

Lemma slept_unlink v t s : slept s (rq_unlink v t s).
Proof. unfold rq_unlink. sleep_then. auto with sleep. Qed.
Lemma slept_push v t s : slept s (rq_push v t s).
Proof. unfold rq_push. sleep_then. auto with sleep. Qed.
Lemma slept_kick here i s : slept s (kick_cpu here i s).
Proof. unfold kick_cpu. destruct (_ || _); auto with sleep. Qed.
Lemma slept_kick_idle here s : slept s (kick_an_idle_cpu here s).
Proof. unfold kick_an_idle_cpu. destruct (first_idle _ _ _); [apply slept_kick|apply slept_refl]. Qed.
Lemma slept_take_pid self p s t : slept s (take_pid self p s t).
Proof. unfold take_pid. sleep_then. destruct (_ =? _); [|auto with sleep]. sleep_then. auto with sleep. Qed.
Lemma slept_give_away p s t : slept s (give_away p s t).
Proof. unfold give_away. destruct (orphan _ _ _); [|auto with sleep]. destruct (negb _); auto with sleep. Qed.
#[export] Hint Resolve slept_unlink slept_push slept_kick slept_kick_idle slept_take_pid slept_give_away : sleep.

(** A task that runs, or waits to, does not sleep; nor does an idle one. *)
Lemma idle_awake s t : inv [] s -> sleep_ok s -> t ∈ idles s -> sleeping_on (tasks s t) < 0.
Proof.
  intros Hi Hs Hid. apply not_sleeping; [done|]. intros Hb. destruct (idles_facts [] s t Hi Hid) as (Hno&_). apply Hno, (iv_unlisted [] s Hi). by left.
Qed.

Lemma slept_switch s c k hold next ms l : inv [] s -> sleep_ok s -> cpus s !! c = Some k -> todo k = Switch hold next ms :: l -> slept s (switch_to c hold next ms s).
Proof.
  intros Hi Hs Hk Ht. destruct (switch_from [] s c k hold next ms l Hi Hk Ht) as (Ho&_&_&_&Hne&Hnc&_). unfold switch_to. sleep_then.
  assert (slept s (leave_old c ms s)) as Hl.
  { unfold leave_old. rewrite (cpu_at_some s c k Hk). destruct (is_state s (current k) TASK_RUNNING) eqn:E; [|auto with sleep]. apply bool_decide_eq_true in E.
    assert (slept s (set_task (current k) (set_state TASK_READY) s)) as Hr by (apply slept_state; [apply not_sleeping; congruence|done]).
    destruct (_ =? _); [done|]. eapply slept_trans; [exact Hr|]. destruct ms; auto with sleep. }
  eapply slept_trans; [exact Hl|]. apply slept_state; [|done].
  assert (sleeping_on (tasks s next) < 0) as Hn by (destruct Hne as [(_&Hst&_)| ->]; [apply not_sleeping; congruence|apply idle_awake; try done; by eapply idles_elem]).
  by apply (slept_less s).
Qed.

Lemma slept_stop s self ops s2 : sleep_ok s -> state (tasks s self) = TASK_RUNNING -> stop_current self s = (ops, s2) -> slept s s2.
Proof.
  intros Hs Hr. unfold stop_current. intros [= _ <-]. eapply slept_trans; [|apply slept_state; [|done]]; [auto with sleep|]. apply (not_sleeping s); congruence.
Qed.
Lemma slept_exit_last s self status last ops s2 : sleep_ok s -> state (tasks s self) = TASK_RUNNING -> exit_last self status last s = (ops, s2) -> slept s s2.
Proof.
  intros Hs Hr. unfold exit_last. set (s1 := set_task self (fun u => set_state TASK_ZOMBIE (set_fate _ u)) s).
  assert (slept s s1) as H1 by (apply slept_state; [apply not_sleeping; congruence|done]). destruct last; cbn [negb]; [|by intros [= _ <-]].
  set (s3 := fold_left _ _ s1). set (s4 := if _ && _ then set_init_task 0 s3 else s3). intros [= _ <-]. apply (slept_trans _ s1); [done|].
  apply (slept_trans _ s3); [unfold s3; apply slept_fold; intros s0 a; destruct (leader s0 a); cbn; auto with sleep|].
  apply (slept_trans _ s4); [unfold s4; destruct (_ && _); auto with sleep|]. apply slept_fold. auto with sleep.
Qed.

Lemma slept_rq_take v mo s0 s t s' : slept s0 s -> rq_take v mo s = Some (t, s') -> slept s0 s'.
Proof. unfold rq_take. intros H. destruct (first_in _ _ _); [|done]. intros [= _ <-]. eapply slept_trans; [exact H|apply slept_unlink]. Qed.
Lemma slept_exit_begin self n w s ops s2 : exit_begin self n w s = (ops, s2) -> slept s s2.
Proof. unfold exit_begin. destruct (_ && negb (group_exit _)); intros [= _ <-]; [sleep_then|]; auto with sleep. Qed.
Lemma slept_exit_leave self n s b s2 : exit_leave self n s = (b, s2) -> slept s s2.
Proof. unfold exit_leave. intros [= _ <-]. destruct (_ && _); [sleep_then|]; auto with sleep. Qed.
Lemma slept_new s t p parent prio : inv [] s -> sleep_ok s -> t ∉ allocated s -> slept s (alloc_task t p parent prio s).
Proof.
  intros Hi Hs Ha. assert (sleeping_on (tasks s t) < 0) as Hn.
  { apply not_sleeping; [done|]. intros Hb. apply Ha, (iv_list [] s Hi), (iv_unlisted [] s Hi). by left. }
  split; [done|done|]. intros u. cbn. destruct (Z.eqb_spec u t) as [->|]; [|done]. cbn. lia.
Qed.

(** What a step does to the sleepers: nothing, or the current task begins to sleep, or one
    is woken. *)
Inductive sleeping (s : sched) (c : nat) (k : cpu) : op -> list op -> sched -> Prop :=
| sleeps_on o l' s' : slept s s' -> match o with Wake_task _ => False | _ => True end -> sleeping s c k o l' s'
| sleeps_begin o l' ch tick ns : state (tasks s (current k)) = TASK_RUNNING -> placing l' = None -> placing [o] = None -> sleeping s c k o l' (begin_wait c (current k) ch tick ns s)
| sleeps_end t l : sleeping s c k (Wake_task t) (Place t true :: l) (end_wait t s).

Ltac unaltered := apply sleeps_on; [|done].

Lemma perform_sleeping s c k o l x l' s' : inv [] s -> sleep_ok s -> cpus s !! c = Some k -> todo k = o :: l -> perform c o l x s = Some (l', s') -> sleeping s c k o l' s'.
Proof.
  intros Hi Hs Hk Ht. pose proof (iv_cpus [] s Hi c k Hk) as Hok. destruct (start s c k o l Hi Hk Ht) as (Hn&_). destruct (first_item [] s c k o l Hi Hk Ht) as (Ho&_).
  assert (mode_of k = Locked -> state (tasks s (current k)) = TASK_RUNNING) as Hr by (intros E; apply (ok_running _ _ _ Hok Ho); congruence).
  destruct o; cbn [perform]; rewrite ?(cpu_at_some s c k Hk); try (intros Hp; repeat case_match; simplify_eq; unaltered; solve [auto with sleep]).
  - destruct (rq_busy _ _); [done|]. intros [= <- <-]. unaltered. unfold push_ready. sleep_then. apply slept_state; [|done].
    apply (sl_placing s Hs c). by rewrite (cpu_at_some s c k Hk), Ht.
  - destruct (rq_take _ _ _) as [[t s1]|] eqn:E; intros [= <- <-]; unaltered; [eapply slept_rq_take; [|exact E]|]; auto with sleep.
  - destruct order as [|v order]; [intros [= <- <-]; unaltered; auto with sleep|]. destruct (rq_busy _ _); [intros [= <- <-]; unaltered; auto with sleep|].
    destruct (rq_take _ _ _) as [[t s1]|] eqn:E; intros [= <- <-]; unaltered; [eapply slept_rq_take; [|exact E]|]; auto with sleep.
  - intros [= <- <-]. unaltered. pose proof (slept_switch s c k hold next may_stay l Hi Hs Hk Ht). destruct (_ && _); [|done]. by sleep_then.
  - intros [= <- <-]. unaltered. sleep_then. auto with sleep.
  - assert (state (tasks s (current k)) = TASK_RUNNING) as Hrun by (apply Hr; by apply bool_decide_eq_true in Hn). destruct (_ && negb _); [intros [= <- <-]; unaltered; auto with sleep|].
    destruct (_ && negb _); [destruct (stop_current _ _) as [ops s2] eqn:E; intros [= <- <-]; unaltered; by eapply slept_stop|].
    destruct (_ && _); intros [= <- <-]; [unaltered; auto with sleep|by apply sleeps_begin].
  - intros [= <- <-]. apply sleeps_end.
  - assert (state (tasks s (current k)) = TASK_RUNNING) as Hrun by (apply Hr; by apply bool_decide_eq_true in Hn). destruct (stop_current _ _) as [ops s2] eqn:E. intros [= <- <-]. unaltered. by eapply slept_stop.
  - destruct (exit_begin _ _ _ _) as [ops s2] eqn:E. intros [= <- <-]. unaltered. by eapply slept_exit_begin.
  - destruct (exit_leave _ _ _) as [b s2] eqn:E. intros [= <- <-]. unaltered. by eapply slept_exit_leave.
  - destruct (exit_last _ _ _ _) as [ops s2] eqn:E. intros [= <- <-]. unaltered. eapply slept_exit_last; [done| |exact E]. apply Hr. by apply bool_decide_eq_true in Hn.
  - destruct (is_idle _); [intros [= <- <-]; unaltered; auto with sleep|]. destruct (least_loaded _ _ _ _ _ _). intros [= <- <-]. unaltered. sleep_then. auto with sleep.
  - destruct (rq_busy _ _); [intros [= <- <-]; unaltered; auto with sleep|]. destruct (rq_take _ _ _) as [[t s1]|] eqn:E; intros [= <- <-]; unaltered; [|auto with sleep].
    sleep_then. eapply slept_rq_take; [|exact E]. auto with sleep.
  - destruct (_ <? _); intros [= <- <-]; unaltered; [auto with sleep|]. eapply slept_trans; [|apply slept_fold; auto with sleep]. auto with sleep.
  - intros [= <- <-]. unaltered. destruct (bool_decide (t ∈ allocated s)) eqn:E; [auto with sleep|]. apply bool_decide_eq_false in E. by apply slept_new.
  - destruct (_ && _); intros [= <- <-]; unaltered; [sleep_then|]; auto with sleep.
  - intros [= <- <-]. unaltered. destruct (_ =? _); [|sleep_then]; auto with sleep.
Qed.

(** * The lists *)

Lemma sleep_frame s s' : sleep_ok s -> (forall c, sleepers (cpu_at c s') = sleepers (cpu_at c s) /\ sleeper_count (cpu_at c s') = sleeper_count (cpu_at c s)) ->
  (forall t, 0 <= sleeping_on (tasks s t) \/ 0 <= sleeping_on (tasks s' t) ->
    sleeping_on (tasks s' t) = sleeping_on (tasks s t) /\ sleep_key_ns (tasks s' t) = sleep_key_ns (tasks s t) /\ state (tasks s' t) = state (tasks s t)) ->
  (forall c t, placing (todo (cpu_at c s')) = Some t -> sleeping_on (tasks s' t) < 0) -> sleep_ok s'.
Proof.
  intros Hs H1 H2 Hp. assert (forall c t, t ∈ sleepers (cpu_at c s) -> sleeping_on (tasks s' t) = sleeping_on (tasks s t) /\ sleep_key_ns (tasks s' t) = sleep_key_ns (tasks s t) /\
    state (tasks s' t) = state (tasks s t)) as Hin by (intros c t Ht; apply H2; left; destruct (sl_in s Hs c t Ht); lia).
  split; [..|done]; intros c; rewrite ?(proj1 (H1 c)), ?(proj2 (H1 c)); try apply Hs.
  - intros t Ht. destruct (Hin c t Ht) as (->&_& ->). by apply (sl_in s Hs).
  - intros Hc. destruct (H2 c (or_intror Hc)) as (E&_). rewrite E in *. rewrite (proj1 (H1 _)). by apply (sl_on s Hs).
  - specialize (Hin c). pose proof (sl_order s Hs c) as Ho. induction Ho as [|t l Hl IH Hall]; constructor.
    + apply IH. intros u Hu. apply Hin. by right.
    + rewrite Forall_forall in Hall |- *. intros u Hu. unfold earlier in *. destruct (Hin t) as (_&->&_); [by left|]. destruct (Hin u) as (_&->&_); [by right|]. auto.
Qed.

Lemma sleep_slept s s' : sleep_ok s -> slept s s' -> sleep_ok s'.
Proof.
  intros Hs H. apply (sleep_frame s); [done|apply H|apply H|]. intros c t. rewrite (sp_todo _ _ H). intros Hp%(sl_placing s Hs). by eapply slept_less.
Qed.
(** Another list to do. *)
Lemma sleep_todo s c k l : sleep_ok s -> cpus s !! c = Some k -> (forall t, placing l = Some t -> sleeping_on (tasks s t) < 0) -> sleep_ok (set_cpu c (set_todo l) s).
Proof.
  intros Hs Hk Hp. apply (sleep_frame s); [done| |done|].
  - intros j. split; by apply (cpu_at_alter _ c (set_todo l) s j).
  - intros j t. rewrite (cpu_at_set s c (set_todo l) k j Hk). destruct (decide (j = c)); [apply Hp|apply Hs].
Qed.

Lemma insert_sleeper_perm ts t key l : insert_sleeper ts t key l ≡ₚ t :: l.
Proof. induction l as [|u l IH]; cbn; [done|]. destruct (_ <=? key); [|done]. rewrite IH. apply Permutation_swap. Qed.
Lemma insert_sleeper_sorted ts t l : StronglySorted (earlier ts) l -> StronglySorted (earlier ts) (insert_sleeper ts t (sleep_key_ns (ts t)) l).
Proof.
  intros Hl. induction Hl as [|u l Hl IH Hall]; cbn; [by repeat constructor|]. destruct (Z.leb_spec (sleep_key_ns (ts u)) (sleep_key_ns (ts t))) as [Hle|Hlt].
  - constructor; [done|]. apply Forall_forall. intros v. rewrite insert_sleeper_perm. intros [->|Hv]%elem_of_cons; [done|]. rewrite Forall_forall in Hall. auto.
  - constructor; [by constructor|]. constructor; [unfold earlier; lia|]. eapply Forall_impl; [exact Hall|]. unfold earlier. intros v ?. lia.
Qed.
Lemma sorted_frame ts ts' l : (forall t, t ∈ l -> sleep_key_ns (ts' t) = sleep_key_ns (ts t)) -> StronglySorted (earlier ts) l -> StronglySorted (earlier ts') l.
Proof.
  intros He Hl. induction Hl as [|t l Hl IH Hall]; constructor; [apply IH; intros; apply He; by right|].
  rewrite Forall_forall in Hall |- *. intros u Hu. unfold earlier in *. rewrite !He by (by constructor). auto.
Qed.
Lemma sorted_remove ts t l : StronglySorted (earlier ts) l -> StronglySorted (earlier ts) (remove t l).
Proof.
  intros Hl. unfold remove. induction Hl as [|u l Hl IH Hall]; [constructor|]. rewrite filter_cons. destruct (decide _); [|done]. constructor; [done|].
  rewrite Forall_forall in Hall |- *. intros v [_ Hv]%list_elem_of_filter. auto.
Qed.

Lemma sleep_add s t c k key : sleep_ok s -> cpus s !! c = Some k -> sleeping_on (tasks s t) < 0 -> state (tasks s t) = TASK_BLOCKED ->
  (forall c u, placing (todo (cpu_at c s)) = Some u -> u <> t) -> sleep_ok (sleeper_add t c key s).
Proof.
  intros Hs Hk Hn Hst Hp. unfold sleeper_add. set (s1 := set_task t _ s). set (f := fun q => set_sleepers _ _ q). set (s2 := set_cpu c f s1).
  assert (forall j, cpu_at j s2 = if decide (j = c) then f k else cpu_at j s) as Hc by (intros j; by apply (cpu_at_set s1 c f k j)).
  assert (forall u, u <> t -> tasks s2 u = tasks s u) as Hu by (intros u Hne; cbn; by apply Z.eqb_neq in Hne as ->).
  assert (tasks s2 t = set_sleeping (Z.of_nat c) key (tasks s t)) as Htt by (cbn; by rewrite Z.eqb_refl).
  pose proof (cpu_at_some s c k Hk) as Ek.
  assert (forall j u, u ∈ sleepers (cpu_at j s) -> u <> t) as Hnt by (intros j u Hin ->; destruct (sl_in s Hs j t Hin); lia).
  assert (sleepers (f k) ≡ₚ t :: sleepers k) as Hperm by apply insert_sleeper_perm.
  split.
  - intros j u. rewrite Hc. destruct (decide (j = c)) as [->|].
    + rewrite Hperm. intros [->|Hin]%elem_of_cons; [by rewrite Htt|]. rewrite <- Ek in Hin. rewrite Hu by (by eapply Hnt). by apply (sl_in s Hs).
    + intros Hin. rewrite Hu by (by eapply Hnt). by apply (sl_in s Hs).
  - intros u. destruct (decide (u = t)) as [->|Hne].
    + rewrite Htt. intros _. cbn [sleeping_on set_sleeping]. rewrite Nat2Z.id, Hc, decide_True, Hperm by done. by left.
    + rewrite Hu by done. intros Hin%(sl_on s Hs). rewrite Hc. destruct (decide _) as [E|]; [|done]. rewrite Hperm. right. by rewrite E, Ek in Hin.
  - intros j. rewrite Hc. assert (forall j, StronglySorted (earlier (tasks s2)) (sleepers (cpu_at j s))) as Hso.
    { intros i. apply (sorted_frame (tasks s)); [|apply Hs]. intros u Hin. rewrite Hu; [done|by eapply Hnt]. }
    destruct (decide (j = c)) as [->|]; [|done]. specialize (Hso c). rewrite Ek in Hso. pose proof (insert_sleeper_sorted (tasks s2) t _ Hso) as H. rewrite Htt in H. exact H.
  - intros j. rewrite Hc. destruct (decide (j = c)) as [->|]; [|apply Hs]. rewrite Hperm. apply NoDup_cons. rewrite <- Ek. split; [by intros Hin%Hnt|apply Hs].
  - intros j. rewrite Hc. destruct (decide (j = c)) as [->|]; [|apply Hs]. rewrite Hperm. cbn. pose proof (sl_count s Hs c) as Hn'. rewrite Ek in Hn'. rewrite Hn', u32_add. f_equal. lia.
  - intros j u Hj. assert (todo (cpu_at j s2) = todo (cpu_at j s)) as E by (rewrite Hc; destruct (decide (j = c)) as [->|]; [by rewrite Ek|done]). rewrite E in Hj.
    rewrite Hu by (by eapply Hp). by apply (sl_placing s Hs j).
Qed.

Lemma sleep_remove s t : sleep_ok s -> sleep_ok (sleeper_remove t s) /\ sleeping_on (tasks (sleeper_remove t s) t) < 0 /\
  (forall u, u <> t -> tasks (sleeper_remove t s) u = tasks s u) /\ (forall c, todo (cpu_at c (sleeper_remove t s)) = todo (cpu_at c s)).
Proof.
  intros Hs. unfold sleeper_remove. destruct (Z.ltb_spec (sleeping_on (tasks s t)) 0) as [|Hge]; [done|]. set (c := Z.to_nat (sleeping_on (tasks s t))).
  set (s1 := set_cpu c _ s). set (s2 := set_task t _ s1). pose proof (sl_on s Hs t Hge) as Hin. fold c in Hin. pose proof (queue_cpu s c) as _.
  assert (exists k, cpus s !! c = Some k) as [k Hk] by (unfold cpu_at in Hin; destruct (cpus s !! c) as [k|]; [by exists k|by apply elem_of_nil in Hin]).
  pose proof (cpu_at_some s c k Hk) as Ek. set (f := fun q => set_sleepers (remove t (sleepers q)) (u32 (sleeper_count q - 1)) q).
  assert (forall j, cpu_at j s2 = if decide (j = c) then f k else cpu_at j s) as Hc by (intros j; by apply (cpu_at_set s c f k j)).
  assert (forall u, u <> t -> tasks s2 u = tasks s u) as Hu by (intros u Hne; cbn; by apply Z.eqb_neq in Hne as ->).
  assert (sleeping_on (tasks s2 t) = -1) as Htt by (cbn; by rewrite Z.eqb_refl).
  assert (forall j u, u ∈ sleepers (cpu_at j s2) <-> u ∈ sleepers (cpu_at j s) /\ u <> t) as Hel.
  { intros j u. rewrite Hc. destruct (decide (j = c)) as [->|Hne]; [rewrite Ek; apply remove_elem|]. split; [|by intros []]. intros Hju. split; [done|]. intros ->.
    destruct (sl_in s Hs j t Hju) as [_ E]. apply Hne. unfold c. lia. }
  assert (forall j, todo (cpu_at j s2) = todo (cpu_at j s)) as Hto by (intros j; rewrite Hc; destruct (decide (j = c)) as [->|]; [by rewrite Ek|done]).
  split; [|split; [lia|done]]. split.
  - intros j u [Hju Hne]%Hel. rewrite Hu by done. by apply (sl_in s Hs).
  - intros u. destruct (decide (u = t)) as [->|Hne]; [lia|]. rewrite Hu by done. intros Hon. apply Hel. split; [by apply (sl_on s Hs)|done].
  - intros j. apply (sorted_frame (tasks s)); [intros u [_ Hne]%Hel; by rewrite Hu|]. rewrite Hc. pose proof (sl_order s Hs j) as Ho. destruct (decide (j = c)) as [->|]; [|done].
    rewrite Ek in Ho. by apply sorted_remove.
  - intros j. rewrite Hc. pose proof (sl_nodup s Hs j) as Ho. destruct (decide (j = c)) as [->|]; [|done]. rewrite Ek in Ho. by apply NoDup_filter.
  - intros j. rewrite Hc. pose proof (sl_count s Hs j) as Ho. destruct (decide (j = c)) as [->|]; [|done]. rewrite Ek in Ho. pose proof (sl_nodup s Hs c) as Hnd.
    rewrite Ek in Hin, Hnd. pose proof (Permutation_length (remove_perm t _ Hnd Hin)) as Hlen. cbn in Hlen |- *. rewrite Ho.
    replace (u32 (Z.of_nat (length (sleepers k))) - 1) with (u32 (Z.of_nat (length (sleepers k))) + -1) by lia. rewrite u32_add. f_equal. lia.
  - intros j u Hj. rewrite Hto in Hj. destruct (decide (u = t)) as [->|Hne]; [lia|]. rewrite Hu by done. by apply (sl_placing s Hs j).
Qed.

Lemma sleep_end s t : sleep_ok s -> sleep_ok (end_wait t s) /\ sleeping_on (tasks (end_wait t s) t) < 0 /\
  (forall u, u <> t -> sleeping_on (tasks (end_wait t s) u) = sleeping_on (tasks s u)) /\ (forall c, todo (cpu_at c (end_wait t s)) = todo (cpu_at c s)).
Proof.
  intros Hs. destruct (sleep_remove s t Hs) as (Hs1&Ht&Hu&Hto). unfold end_wait. set (s1 := sleeper_remove t s) in *.
  assert (forall u, sleeping_on (tasks (set_task t (set_wait (fun w => mkWait No_channel 0 0 (futex_addr w))) s1) u) = sleeping_on (tasks s1 u)) as E by (intros u; cbn; by destruct (u =? t)).
  split; [|split; [by rewrite E|split; [intros u Hne; rewrite E; by rewrite Hu|done]]].
  apply (sleep_slept s1); [done|]. apply slept_task. by intros ?.
Qed.

(** Where the task that the next item places comes from. *)
Definition places (o : op) : bool := match o with Place _ _ | Push _ _ => true | _ => false end.
Lemma placing_other ops l t : existsb places ops = false -> placing (ops ++ l) = Some t -> placing l = Some t.
Proof. destruct ops as [|o ops]; [done|]. by destruct o. Qed.
Lemma tell_places ops : Forall tell ops -> existsb places ops = false.
Proof. intros H. induction H as [|o ops Ho _ IH]; [done|]. cbn. rewrite IH. by destruct o. Qed.
Lemma effects_places sig es : existsb places (effect_op sig <$> es) = false.
Proof. induction es as [|[t []] es IH]; done. Qed.
Lemma kills_places s self : existsb places (kill_other_threads s self) = false.
Proof. unfold kill_other_threads. destruct (_ <=? 1); [done|]. by induction (filter _ _). Qed.

Lemma placing_from s c k o l x l' s' t : cpus s !! c = Some k -> perform c o l x s = Some (l', s') -> placing l' = Some t ->
  placing l = Some t \/ t ∈ op_tasks o \/ (t = moving k /\ moving k <> 0 /\ o = Finish) \/ (exists i, o = Move_from t i /\ queued_on (tasks s t) = Z.of_nat i).
Proof.
  intros Hk Hp Hl. destruct o; cbn [perform] in Hp; rewrite ?(cpu_at_some s c k Hk) in Hp; try (repeat case_match; simplify_eq/=; auto; done).
  - simplify_eq/=. right; left. by left.
  - simplify_eq/=. destruct (release_sched k); [done|]. destruct (Z.eqb_spec (moving k) 0); [by left|]. simplify_eq/=. right; right; by left.
  - left. destruct (_ && negb _); [by simplify_eq|]. destruct (_ && negb _).
    { destruct (stop_current _ _) as [ops s2] eqn:E. simplify_eq. destruct (stop_current_facts _ _ _ _ E) as (_&_&Ho&_). by apply placing_other in Hl; [|by apply tell_places]. }
    destruct (_ && _); simplify_eq. by destruct mine.
  - simplify_eq/=. right; left. by left.
  - simplify_eq/=. destruct (is_state _ _ _); [|by left]. simplify_eq/=. right; left. by left.
  - destruct (rq_busy _ _); [done|]. destruct (Z.eqb_spec (queued_on (tasks s t0)) (Z.of_nat k0)); simplify_eq/=. eauto 6.
  - simplify_eq. left. apply placing_other in Hl; [done|apply effects_places].
  - destruct (stop_current _ _) as [ops s2] eqn:E. simplify_eq. destruct (stop_current_facts _ _ _ _ E) as (_&_&Ho&_). by apply placing_other in Hl; [|by apply tell_places].
  - destruct (exit_begin _ _ _ _) as [ops s2] eqn:E. simplify_eq. left. unfold exit_begin in E. destruct (_ && negb (group_exit _)); simplify_eq; [|done].
    apply placing_other in Hl; [done|apply kills_places].
  - destruct (exit_last _ _ _ _) as [ops s2] eqn:E. simplify_eq. destruct (exit_last_facts _ _ _ _ _ _ E) as (_&_&Ho). by apply placing_other in Hl; [|by apply tell_places].
  - destruct (_ || _); [by simplify_eq|]. destruct (_ <? _); simplify_eq. by apply placing_other in Hl; [|apply kills_places].
Qed.

(** * Every step keeps both *)

Definition sched_ok (s : sched) : Prop := inv [] s /\ sleep_ok s.

Lemma others_placing s c k j t : inv [] s -> cpus s !! c = Some k -> j <> c -> placing (todo (cpu_at j s)) = Some t -> t ∈ cpu_tasks (cpu_at j s) /\ t ∉ cpu_tasks k.
Proof.
  intros Hi Hk Hne Hp. assert (cpus s !! j = Some (cpu_at j s)) as Hj by (apply cpu_at_todo; intros E; by rewrite E in Hp).
  assert (t ∈ cpu_tasks (cpu_at j s)) as Hin.
  { destruct (todo (cpu_at j s)) as [|o lj] eqn:E; [done|]. apply (in_items _ t o); [rewrite E; by left|]. destruct o; try done; injection Hp as ->; by left. }
  split; [done|]. intros Hin'. apply Hne. apply (placed_once s j c (cpu_at j s) k t); try done. apply Hi.
Qed.

Lemma in_cpu s c k : cpus s !! c = Some k -> forall s', length (cpus s') = length (cpus s) -> exists k', cpus s' !! c = Some k'.
Proof. intros Hk s' E. apply lookup_lt_is_Some_2. rewrite E. by eapply lookup_lt_Some. Qed.

(** The task that comes to be placed does not sleep. *)
Lemma placing_awake s c k o l x l' s' t : inv [] s -> sleep_ok s -> cpus s !! c = Some k -> todo k = o :: l -> perform c o l x s = Some (l', s') -> placing l' = Some t ->
  match o with Wake_task _ => False | _ => True end -> sleeping_on (tasks s t) < 0.
Proof.
  intros Hi Hs Hk Ht Hp Hpl Hw. pose proof (iv_cpus [] s Hi c k Hk) as Hok. destruct (first_item [] s c k o l Hi Hk Ht) as (_&_&Hit&Hits).
  assert (runnable s t -> sleeping_on (tasks s t) < 0) as Hr by (intros (_&Hst&_); apply not_sleeping; congruence).
  assert (forall u, state (tasks s u) <> TASK_BLOCKED -> sleeping_on (tasks s u) < 0) as Hb by (intros; by apply not_sleeping).
  destruct (placing_from s c k o l x l' s' t Hk Hp Hpl) as [Hl|[Hin|[(->&Hm&_)|(i&_&Hq)]]].
  - destruct l as [|o' l0]; [done|]. apply Forall_cons in Hits as [Ho' _]. destruct o'; try done; injection Hl as ->; cbn in Ho'; clear - Ho' Hr; naive_solver.
  - assert (placing (todo k) = Some t -> sleeping_on (tasks s t) < 0) as Hpt by (intros E; apply (sl_placing s Hs c); by rewrite (cpu_at_some s c k Hk)).
    rewrite Ht in Hpt. destruct o; cbn in Hin, Hit; try (by apply elem_of_nil in Hin); try (apply list_elem_of_singleton in Hin; subst); auto; try done;
      try (by destruct Hit as [_ Hst]; apply Hb; first [congruence|destruct Hst; congruence]).
    + destruct next; [|by apply elem_of_nil in Hin]. apply list_elem_of_singleton in Hin; subst. auto.
    + destruct Hit as [|[-> _]]; [auto|]. apply idle_awake; try done. by eapply idles_elem.
  - apply Hr. by apply (ok_moving _ _ _ Hok).
  - apply (queued_in [] s _ _ Hi) in Hq as Hin. apply Hb. pose proof (queue_cpu s i t Hin) as Hki. destruct (ok_queue _ _ _ (iv_cpus [] s Hi i _ Hki) t Hin) as (_&E&_). congruence.
Qed.

Lemma sleep_begin s c k t ch tick ns : sleep_ok s -> cpus s !! c = Some k -> state (tasks s t) = TASK_RUNNING -> (forall j u, placing (todo (cpu_at j s)) = Some u -> u <> t) ->
  sleep_ok (begin_wait c t ch tick ns s).
Proof.
  intros Hs Hk Hr Hp. unfold begin_wait. set (s1 := set_task t (fun u => set_state TASK_BLOCKED (set_wait _ u)) s).
  assert (slept s s1) as H1 by (apply slept_state; [apply not_sleeping; congruence|done]). assert (sleep_ok s1) as Hs1 by (by apply (sleep_slept s)).
  destruct (_ || _); [|done]. apply (sleep_add s1 t c k); auto; cbn; rewrite Z.eqb_refl; [|done]. cbn. apply not_sleeping; congruence.
Qed.

Theorem perform_keeps s c k o l x l' s' : sched_ok s -> cpus s !! c = Some k -> todo k = o :: l -> perform c o l x s = Some (l', s') -> sched_ok (set_cpu c (set_todo l') s').
Proof.
  intros [Hi Hs] Hk Ht Hp. assert (inv [] (set_cpu c (set_todo l') s')) as Hi'.
  { apply (perform_inv s c k o l x); auto. intros i t Hin. by apply (sl_in s Hs i). }
  split; [done|]. assert (exists k', cpus s' !! c = Some k') as [k' Hk'].
  { apply (in_cpu s c k Hk). pose proof (iv_length [] _ Hi') as E. cbn in E. rewrite length_alter in E. by rewrite (iv_length [] s Hi). }
  destruct (first_item [] s c k o l Hi Hk Ht) as (Ho&_&Hit&_). destruct (perform_sleeping s c k o l x l' s' Hi Hs Hk Ht Hp) as [o l' s' Hsl Hw|o l' ch tick ns Hr Hpl Hpo|t l0].
  - apply (sleep_todo s' c k'); [by apply (sleep_slept s)|done|]. intros t Hpl. apply (slept_less s); [done|]. by eapply placing_awake.
  - apply (sleep_todo _ c k'); [|done|by rewrite Hpl]. apply (sleep_begin s c k); try done. intros j u Hj ->. destruct (decide (j = c)) as [->|Hne].
    + rewrite (cpu_at_some s c k Hk), Ht in Hj. by destruct o.
    + destruct (others_placing s c k j (current k) Hi Hk Hne Hj) as [_ Hno]. by apply Hno, in_current.
  - destruct (sleep_end s t Hs) as (Hs1&Ht1&_). apply (sleep_todo _ c k'); [done|done|]. by intros u [= <-].
Qed.
