(* ===== verification/SchedProps.v ===== *)
(** What the scheduler guarantees from the moment it is set up, whatever the CPUs do and in
    whatever order. *)
From stdpp Require Import base tactics numbers list sets gmap relations.
From Stdlib Require Import ZArith Lia Sorting.Sorted.
From S2P Require Import Prelude Sched SchedInv SchedMoves SchedRun SchedStep SchedSleep.

Open Scope Z_scope.

(** * Every step keeps the invariant *)

Lemma inv_online X s c k : inv X s -> cpus s !! c = Some k -> online k = false -> inv X (set_cpu c sched_join_this_cpu s).
Proof.
  intros Hi Hk Ho. set (k' := sched_join_this_cpu k). set (s' := set_cpu c sched_join_this_cpu s). pose proof (iv_cpus X s Hi c k Hk) as Hok.
  destruct (ok_offline _ _ _ Hok Ho) as (H1&H2&H3&H4&H5&H6). destruct (idle_facts X s c k Hi Hk) as (_&_&_&_&Hq).
  assert (cpus s' = <[c := k']> (cpus s)) as Ek by (by apply (cpus_set_cpu s c sched_join_this_cpu k)).
  assert (change s s') as Hc by (by apply (change_cpu s c sched_join_this_cpu k)).
  assert (sched_held k = false) as Hh by (unfold sched_held; by rewrite H1).
  assert (cpu_tasks k' = cpu_tasks k) as Et by (unfold cpu_tasks, left_behind; cbn; by rewrite Ho).
  assert (mode_of k' = Unlocked) as Hm by (unfold mode_of, sched_held; cbn; by rewrite H1).
  apply (inv_one X X [] s s' c k k'); try done; [by intros t; left|..].
  - rewrite app_nil_l. f_equiv. symmetry. apply (placed_same s s' c k k' Hk Ek). by rewrite Et.
  - by intros t ?%elem_of_nil.
  - apply Hi.
  - split; rewrite ?Hm; try done; cbn; rewrite ?H1, ?H2, ?H3, ?H4, ?H5; try done.
    + auto.
    + by intros t ?%elem_of_nil.
    + rewrite (ok_count _ _ _ Hok). by rewrite H2.
  - intros t Hn. left. split; [done|]. intros E%(queued_in X s _ _ Hi). by rewrite (cpu_at_some s c k Hk) in E.
Qed.

Lemma set_cpu_out c f s : cpus s !! c = None -> set_cpu c f s = s.
Proof.
  intros Hc. destruct s as [ks ? ? ? ? ? ? ?]. unfold set_cpu. cbn in *. f_equal. apply list_eq. intros j.
  destruct (decide (c = j)) as [<-|]; [by rewrite list_lookup_alter_eq, Hc|by rewrite list_lookup_alter_ne].
Qed.

(** The calls of the scheduler's functions are well typed, and begin with nothing of a task
    that is anywhere else. *)
Lemma called_goes_on s c k l : inv [] s -> cpus s !! c = Some k -> todo k = [] -> called s c l -> goes_on [] [] s k Unlocked l /\ switching l = false /\ placing l = None.
Proof.
  intros Hi Hk Ht Hc. assert (mode_of k = Unlocked) as Hm by (unfold mode_of, sched_held; by rewrite Ht).
  assert (forall l, typed Unlocked l = true -> forallb bare l = true -> (current k = idle k -> forallb quiet l = true) -> goes_on [] [] s k Unlocked l) as Hgo.
  { intros l0 Hty Hb Hq. split; rewrite ?(bare_flights l0 Hb); try done; [auto|apply NoDup_nil_2|..]; try (by intros t ?%elem_of_nil); [rewrite Ht; by intros t ?%elem_of_nil|].
    by apply items_all, bare_items. }
  assert (forall o, switching [o] = false -> is_idle k = false -> typed Unlocked [Sched_lock; o; Sched_unlock] = true -> forall t, op_tasks o = [t] -> is_new s t ->
    (unlisted s t /\ state (tasks s t) = TASK_READY -> item_ok s k false o) -> goes_on [] [] s k Unlocked [Sched_lock; o; Sched_unlock]) as Hnew.
  { intros o _ Hid Hty t Eo (Ha&Hl&Hp&Hno&Hst&Hq) Hit. apply Z.eqb_neq in Hid. assert (flights [Sched_lock; o; Sched_unlock] = [t]) as Ef by (unfold flights; cbn; by rewrite Eo).
    split; rewrite ?Ef; try done; [auto|apply NoDup_singleton|intros u ->%list_elem_of_singleton; by right|rewrite Ht; by intros u ?%elem_of_nil|by intros u ?%elem_of_nil|].
    split; [done|]. constructor; [|by repeat constructor]. by apply Hit. }
  destruct Hc as [Hid| |ch|ticks ns|t sig|p a n|l0 Hid Hc]; rewrite ?(cpu_at_some s c k Hk) in *; try (split; [by apply Hgo|done]).
  - unfold sched_wake_sleepers. destruct (ns =? 0); (split; [by apply Hgo|done]).
  - assert (current k = idle k -> forallb quiet l0 = true) as Hq by (apply Z.eqb_neq in Hid; done).
    destruct Hc as [| |t p H0 Hno _|t Hn|t Hn|t Hn|t a Hno| |st w| | | |t|t|want nohang untraced|tid]; try (split; [by apply Hgo|done]).
    + split; [|done]. split; try done; [auto|apply NoDup_nil_2|..]; try (by intros u ?%elem_of_nil); [rewrite Ht; by intros u ?%elem_of_nil|]. by repeat constructor.
    + split; [|done]. by apply (Hnew (Enqueue t) eq_refl Hid eq_refl t).
    + split; [|done]. by apply (Hnew (Add_thread t _) eq_refl Hid eq_refl t).
    + split; [|done]. destruct Hn as (Ha&Hl&Hp&Hno&Hst&Hqd).
      split; try done; [auto|apply NoDup_singleton|intros u ->%list_elem_of_singleton; by right|rewrite Ht; by intros u ?%elem_of_nil|by intros u ?%elem_of_nil|]. by repeat constructor; auto.
    + split; [|done]. split; try done; [auto|apply NoDup_nil_2|..]; try (by intros u ?%elem_of_nil); [rewrite Ht; by intros u ?%elem_of_nil|]. by repeat constructor.
Qed.

Theorem step_ok s s' : step s s' -> sched_ok s -> sched_ok s'.
Proof.
  intros Hst Hok. pose proof Hok as [Hi Hs]. destruct Hst as [s c l Ho Ht Hc|s c o l x l' s' Ht Hp|s c Ht|s c Ht|s c Ho|s t b|s t p].
  - pose proof (cpu_at_online s c Ho) as Hk. destruct (called_goes_on s c _ l Hi Hk Ht Hc) as (Hgo&Hsw&Hpl). split; [by apply (inv_todo [] [] s c (cpu_at c s) Unlocked); rewrite ?Ht|].
    apply (sleep_todo s c (cpu_at c s)); [done|done|by rewrite Hpl].
  - pose proof (cpu_at_todo s c ltac:(by rewrite Ht)) as Hk. by apply (perform_keeps s c (cpu_at c s) o l x).
  - pose proof (cpu_at_todo s c ltac:(by rewrite Ht)) as Hk. split; [|by apply (sleep_todo s c (cpu_at c s))].
    bare Hi Hk Ht Unlocked (@nil op) (@nil op). destruct (start s c _ _ _ Hi Hk Ht) as (Hn&_). apply bool_decide_eq_true in Hn. by left.
  - split; [apply (inv_inert [] s); auto with sched|apply (sleep_slept s); auto with sleep].
  - destruct (cpus s !! c) as [k|] eqn:Hk; [|by rewrite set_cpu_out]. rewrite (cpu_at_some s c k Hk) in Ho. split; [by apply (inv_online [] s c k)|].
    apply (sleep_slept s); auto with sleep.
  - split; [apply (inv_inert [] s); auto with sched|apply (sleep_slept s); auto with sleep].
  - unfold task_set_priority. split; [apply (inv_inert [] s); auto with sched|apply (sleep_slept s); auto with sleep].
Qed.

(** * The first state *)

Definition IDLE_PID : Z := 0xFFFFFFFF.
(** [sched_init] and, for the other CPUs, [sched_prepare_cpu]: the boot sequence is task 1
    and runs on CPU 0; [2 + i] is the idle task of CPU [i]. *)
Definition main_task : Z := 1.
Definition idle_of (c : nat) : Z := 2 + Z.of_nat c.
Definition boot_fate : fate := mkFate 0 0 false false true 0.
Definition boot_tasks (t : Z) : task :=
  if t =? main_task then
    mkTask TASK_RUNNING 0 0 (-1) (-1) 0 (mkTurn PRIO_NORMAL (priority_time_slice PRIO_NORMAL) 0) (mkWait No_channel 0 0 0) boot_fate 0 main_task []
  else if t =? idle_of 0 then
    mkTask TASK_READY 0 0 (-1) (-1) 0 (mkTurn PRIO_LOW 0 0) (mkWait No_channel 0 0 0) boot_fate IDLE_PID t []
  else
    mkTask TASK_RUNNING (if bool_decide (t ∈ idle_of <$> seq 0 MAX_CPUS) then t - 2 else TASK_ANY_CPU) (t - 2) (-1) (-1) 0 (mkTurn PRIO_LOW 0 0)
      (mkWait No_channel 0 0 0) boot_fate IDLE_PID t [].
Definition boot_procs (p : Z) : process := mkProcess (if p =? main_task then 0 else IDLE_PID) 1 false 0 0 0 0 false.
Definition boot_cpu (c : nat) : cpu :=
  match c with
  | O => mkCpu main_task (idle_of 0) true false false main_task 0 [] 0 false 0 [] 0 []
  | _ => mkCpu 0 (idle_of c) false false false (idle_of c) 0 [] 0 false 0 [] 0 []
  end.
Definition boot (offset : Z) : sched :=
  mkSched (boot_cpu <$> seq 0 MAX_CPUS) boot_tasks boot_procs [main_task] 0 1 offset (list_to_set (main_task :: (idle_of <$> seq 0 MAX_CPUS))).

Lemma boot_lookup offset c k : cpus (boot offset) !! c = Some k -> k = boot_cpu c /\ (c < MAX_CPUS)%nat.
Proof. cbn [boot cpus]. rewrite list_lookup_fmap. intros H. apply fmap_Some in H as (i&Hi&->). apply lookup_seq in Hi as [-> ?]. done. Qed.
Lemma boot_cpu_at offset c : cpu_at c (boot offset) = boot_cpu c \/ cpu_at c (boot offset) = no_cpu.
Proof. unfold cpu_at. destruct (cpus (boot offset) !! c) as [k|] eqn:E; [|by right]. left. by destruct (boot_lookup offset c k E) as [-> _]. Qed.
Lemma boot_quiet offset c : todo (cpu_at c (boot offset)) = [] /\ sleepers (cpu_at c (boot offset)) = [] /\ sleeper_count (cpu_at c (boot offset)) = 0.
Proof. destruct (boot_cpu_at offset c) as [->| ->]; [by destruct c|done]. Qed.
Lemma boot_task t : queued_on (boot_tasks t) = -1 /\ sleeping_on (boot_tasks t) = -1 /\ rest (boot_tasks t) = [] /\ (state (boot_tasks t) = TASK_RUNNING \/ state (boot_tasks t) = TASK_READY).
Proof. unfold boot_tasks. destruct (t =? main_task); [auto|]. destruct (t =? idle_of 0); auto. Qed.
Lemma boot_idles offset : idles (boot offset) = idle_of <$> seq 0 MAX_CPUS.
Proof. reflexivity. Qed.
Lemma boot_idle c : (c < MAX_CPUS)%nat -> affinity (boot_tasks (idle_of c)) = Z.of_nat c /\ (c <> 0%nat -> state (boot_tasks (idle_of c)) = TASK_RUNNING).
Proof.
  intros Hc. unfold boot_tasks. assert (idle_of c =? main_task = false) as -> by (apply Z.eqb_neq; unfold idle_of, main_task; lia).
  destruct (Z.eqb_spec (idle_of c) (idle_of 0)) as [E|Hn]; [unfold idle_of in E; cbn; lia|]. rewrite bool_decide_eq_true_2 by (apply list_elem_of_fmap; exists c; split; [done|]; apply elem_of_seq; lia).
  cbn. unfold idle_of. split; [lia|done].
Qed.

Lemma boot_alloc offset t : t ∈ allocated (boot offset) <-> t = main_task \/ t ∈ idle_of <$> seq 0 MAX_CPUS.
Proof. change (allocated (boot offset)) with (list_to_set (C := gset Z) (main_task :: (idle_of <$> seq 0 MAX_CPUS))). by rewrite elem_of_list_to_set, elem_of_cons. Qed.

Lemma boot_cpu_ok offset c : (c < MAX_CPUS)%nat -> cpu_ok (boot offset) c (boot_cpu c).
Proof.
  intros Hc. destruct c as [|c].
  - split; try done; cbn; auto; try (by intros t ?%elem_of_nil). intros _. split; [|done]. right. by left.
  - split; try done; try (by intros t ?%elem_of_nil). intros _. do 5 (split; [done|]). by apply (boot_idle (S c)).
Qed.

Lemma boot_inv offset : inv [] (boot offset).
Proof.
  split.
  - done.
  - cbn [app]. change (placed (boot offset)) with (concat (cpu_tasks <$> (boot_cpu <$> seq 0 MAX_CPUS))). apply (bool_decide_unpack _). by vm_compute.
  - by intros t ?%elem_of_nil.
  - intros i j. unfold sched_held. by rewrite (proj1 (boot_quiet offset i)).
  - intros c k Hk. destruct (boot_lookup offset c k Hk) as [-> Hc]. by apply boot_cpu_ok.
  - done.
  - split; [rewrite boot_idles; apply (bool_decide_unpack _); by vm_compute|]. intros c k Hk. destruct (boot_lookup offset c k Hk) as [-> Hc].
    assert (idle (boot_cpu c) = idle_of c) as -> by (by destruct c). split; [unfold idle_of; lia|]. split; [|split; [|split]].
    + apply boot_alloc. right. apply list_elem_of_fmap. exists c. split; [done|]. apply elem_of_seq. lia.
    + intros E%list_elem_of_singleton. unfold idle_of, main_task in E. lia.
    + by apply boot_idle.
    + apply boot_task.
  - split; [apply NoDup_singleton|]. intros t ->%list_elem_of_singleton. apply boot_alloc. by left.
  - rewrite boot_alloc, list_elem_of_fmap. unfold main_task, idle_of. intros [|(c&E&_)]; lia.
  - intros t ->%list_elem_of_singleton _. cbn [app]. by left.
  - intros t [E|E]; destruct (boot_task t) as (_&_&_&H); cbn in E; destruct H; congruence.
  - intros t Hn. by destruct Hn, (boot_task t).
  - intros t Hid Ha. rewrite boot_idles in Hid. cbn in *. unfold boot_tasks in *. destruct (t =? main_task); [done|]. destruct (Z.eqb_spec t (idle_of 0)) as [->|]; [done|].
    by rewrite bool_decide_eq_false_2 in Ha.
  - intros t. destruct (boot_task t) as (_&_&E&_). cbn. by rewrite E.
Qed.

Lemma boot_sleep offset : sleep_ok (boot offset).
Proof.
  split; [intros c t|intros t|intros c..].
  - destruct (boot_quiet offset c) as (_&->&_). by intros ?%elem_of_nil.
  - destruct (boot_task t) as (_&E&_). cbn. rewrite E. lia.
  - destruct (boot_quiet offset c) as (_&->&_). constructor.
  - destruct (boot_quiet offset c) as (_&->&_). constructor.
  - by destruct (boot_quiet offset c) as (_&->&->).
  - by destruct (boot_quiet offset c) as (->&_).
Qed.

(** What holds as long as the system runs. *)
Lemma reachable_ok offset s : rtc step (boot offset) s -> sched_ok s.
Proof. apply (rtc_invariant step sched_ok); [|split; [apply boot_inv|apply boot_sleep]]. intros s1 s2 H Hst. by apply (step_ok s1). Qed.

(** * A run *)

Definition some_reading : reading := mkReading (fun _ => 0) 0 (fun _ => 0) [].
(** [c] performs its next item, if it need not wait. *)
Definition go (c : nat) (s : sched) : sched :=
  match todo (cpu_at c s) with
  | [] => s
  | o :: l => match perform c o l some_reading s with Some (l', s') => set_cpu c (set_todo l') s' | None => s end
  end.
Lemma go_reaches n c s : rtc step s (Nat.iter n (go c) s).
Proof.
  induction n as [|n IH]; [apply rtc_refl|]. etransitivity; [exact IH|]. change (Nat.iter (S n) (go c) s) with (go c (Nat.iter n (go c) s)). set (s1 := Nat.iter n (go c) s). unfold go.
  destruct (todo (cpu_at c s1)) as [|o l] eqn:Ht; [apply rtc_refl|]. destruct (perform c o l some_reading s1) as [[l' s']|] eqn:Hp; [|apply rtc_refl]. apply rtc_once. by eapply step_run.
Qed.
Lemma call_steps s c l : online (cpu_at c s) = true -> todo (cpu_at c s) = [] -> called s c l -> rtc step s (set_cpu c (set_todo l) s).
Proof. intros. by apply rtc_once, step_call. Qed.

(** CPU 1 has come up, and the boot sequence sleeps with CPU 0 idle. *)
Definition two_cpus : sched := set_cpu 1 sched_join_this_cpu (boot 0).
Definition main_sleeps : sched := Nat.iter 9 (go 0) (set_cpu 0 (set_todo (sleep_on (Process_channel 1) 5 0 true)) two_cpus).
Lemma main_sleeps_reached : rtc step (boot 0) main_sleeps.
Proof.
  eapply rtc_l; [by apply (step_online (boot 0) 1)|]. etransitivity; [|apply go_reaches]. apply call_steps; [done|done|]. apply call_task; [done|]. apply call_sleep.
Qed.

(** * Every task in one place *)

Lemma stack_with_cpu X s c k : inv X s -> cpus s !! c = Some k -> online k = true -> stack k ∈ cpu_tasks k.
Proof.
  intros Hi Hk Ho. pose proof (ok_stack _ _ _ (iv_cpus X s Hi c k Hk) Ho) as Hs. destruct (todo k) as [|o l] eqn:Et; [rewrite Hs; by apply in_current|].
  destruct o; try (rewrite Hs; by apply in_current). destruct Hs as [_ [Hs|[[-> Hm]|[Hs|(Hr&_)]]]].
  - by apply in_queue.
  - by apply in_moving.
  - apply in_left. unfold left_behind. rewrite Et, Hs, Z.eqb_refl, orb_true_r. by left.
  - apply in_left. unfold left_behind. rewrite Et, Hr. by left.
Qed.

Lemma apart X s i j t u : inv X s -> i <> j -> is_online s i -> is_online s j -> t ∈ cpu_tasks (cpu_at i s) -> u ∈ cpu_tasks (cpu_at j s) -> t <> u.
Proof.
  intros Hi Hne Hoi Hoj Ht Hu ->. apply Hne. pose proof (iv_nodup X s Hi) as (_&_&Hn)%NoDup_app.
  apply (placed_once s i j (cpu_at i s) (cpu_at j s) u); try done; by apply cpu_at_online.
Qed.

(** C1. However the CPUs' steps interleave, from the moment the scheduler is set up: at most
    one CPU holds the scheduler lock; no two CPUs run the same task, are on the same
    stack, or have in their queue or as their current task one whose stack another CPU is
    on; a queue has no task twice, counts its tasks, and has only tasks of the list that
    are ready and that say they are in it; a task that is ready or running is never lost:
    it is with a CPU; and what a CPU runs or has in its queue has not been freed. *)
Theorem sched_sound offset s : rtc step (boot offset) s ->
  (forall i j, sched_held (cpu_at i s) = true -> sched_held (cpu_at j s) = true -> i = j) /\
  (forall i j, i <> j -> is_online s i -> is_online s j ->
     current (cpu_at i s) <> current (cpu_at j s) /\ stack (cpu_at i s) <> stack (cpu_at j s) /\ stack (cpu_at i s) <> current (cpu_at j s) /\
     stack (cpu_at i s) ∉ queue (cpu_at j s)) /\
  (forall i, NoDup (queue (cpu_at i s)) /\ count (cpu_at i s) = u32 (Z.of_nat (length (queue (cpu_at i s)))) /\
     forall t, t ∈ queue (cpu_at i s) -> t ∈ task_list s /\ state (tasks s t) = TASK_READY /\ queued_on (tasks s t) = Z.of_nat i) /\
  (forall t, t ∈ task_list s -> state (tasks s t) = TASK_READY \/ state (tasks s t) = TASK_RUNNING -> exists i, t ∈ cpu_tasks (cpu_at i s)) /\
  (forall i, is_online s i -> current (cpu_at i s) ∈ allocated s /\ stack (cpu_at i s) ∈ allocated s /\ forall t, t ∈ queue (cpu_at i s) -> t ∈ allocated s).
Proof.
  intros Hr. destruct (reachable_ok offset s Hr) as [Hi _]. assert (forall i t, is_online s i -> t ∈ cpu_tasks (cpu_at i s) -> t ∈ allocated s) as Hall.
  { intros i t Ho Ht. apply (placed_allocated [] s t Hi). apply placed_elem. exists i, (cpu_at i s). split; [by apply cpu_at_online|done]. }
  assert (forall i, is_online s i -> stack (cpu_at i s) ∈ cpu_tasks (cpu_at i s)) as Hst by (intros i Ho; apply (stack_with_cpu [] s i); [done|by apply cpu_at_online|done]).
  split; [apply Hi|]. split; [|split; [|split]].
  - intros i j Hne Hoi Hoj. pose proof (apart [] s i j) as Ha.
    split; [by apply Ha; auto using in_current|]. split; [by apply Ha; auto|]. split; [by apply Ha; auto using in_current|]. intros Hq. by eapply Ha; eauto using in_queue.
  - intros i. destruct (cpus s !! i) as [k|] eqn:Hk; [|unfold cpu_at; rewrite Hk; split; [constructor|]; split; [done|]; by intros t ?%elem_of_nil].
    rewrite (cpu_at_some s i k Hk). pose proof (iv_cpus [] s Hi i k Hk) as Hok. split; [|split; [apply Hok|apply Hok]].
    pose proof (queue_nodup [] s i k Hi Hk) as Hn. destruct (tasks_queue k (queue k) (count k)) as (a&b&E&_). rewrite E in Hn. apply NoDup_app in Hn as (_&_&Hn). by apply NoDup_app in Hn as (?&_&_).
  - intros t Ht Hs. apply (iv_lost [] s Hi t Ht) in Hs. apply placed_elem in Hs as (i&k&Hk&Hin). exists i. by rewrite (cpu_at_some s i k Hk).
  - intros i Ho. split; [by eapply Hall, in_current|]. split; [by eapply Hall, Hst|]. intros t Ht. by eapply Hall, in_queue.
Qed.

Lemma sched_sound_witness : rtc step (boot 0) main_sleeps /\ stack (cpu_at 0 main_sleeps) = 2 /\ stack (cpu_at 1 main_sleeps) = 3 /\
  (forall i j, i <> j -> is_online main_sleeps i -> is_online main_sleeps j -> stack (cpu_at i main_sleeps) <> stack (cpu_at j main_sleeps)).
Proof.
  split; [exact main_sleeps_reached|]. split; [by vm_compute|]. split; [by vm_compute|]. intros i j Hn Hi Hj.
  by apply (proj1 (proj2 (sched_sound 0 main_sleeps main_sleeps_reached)) i j Hn Hi Hj).
Defined.

(** C14. What the CPUs have left to do is well typed at all times, and so is what a task that
    does not run will go on with: every item finds the scheduler lock as it needs it, the
    lock is given back before the end, and nothing that others wait for is put off while a
    task sleeps. So a CPU with nothing left to do in the scheduler does not hold its lock. *)
Theorem sched_typed offset s : rtc step (boot offset) s ->
  (forall c, typed (mode_of (cpu_at c s)) (todo (cpu_at c s)) = true /\ sched_held (cpu_at c s) = negb (bool_decide (mode_of (cpu_at c s) = Unlocked)) /\
     (todo (cpu_at c s) = [] -> sched_held (cpu_at c s) = false)) /\
  (forall t, typed Unlocked (rest (tasks s t)) = true /\ forallb plain (rest (tasks s t)) = true).
Proof.
  intros Hr. destruct (reachable_ok offset s Hr) as [Hi _]. split; [intros c|intros t; by destruct (iv_rest [] s Hi t) as (?&?&_)].
  destruct (cpus s !! c) as [k|] eqn:Hk; [|unfold cpu_at; by rewrite Hk]. rewrite (cpu_at_some s c k Hk). pose proof (iv_cpus [] s Hi c k Hk) as Hok.
  split; [apply Hok|]. split; [by apply (mode_held s c)|]. intros E. unfold sched_held. by rewrite E.
Qed.

Lemma sched_typed_witness : rtc step (boot 0) main_sleeps /\ rest (tasks main_sleeps 1) = [Woken true] /\ typed Unlocked (rest (tasks main_sleeps 1)) = true.
Proof. split; [exact main_sleeps_reached|]. split; [by vm_compute|]. exact (proj1 (proj2 (sched_typed 0 main_sleeps main_sleeps_reached) 1)). Defined.

(** C13. The timed sleepers of a CPU are in the order of their times, are blocked, say that
    they are on that list, and are on no other; and one look at the list for what is due
    wakes its first task if that is due, and ends only when none that is left is. *)
Theorem sleepers_sound offset s : rtc step (boot offset) s -> forall i,
  StronglySorted (earlier (tasks s)) (sleepers (cpu_at i s)) /\ NoDup (sleepers (cpu_at i s)) /\
  sleeper_count (cpu_at i s) = u32 (Z.of_nat (length (sleepers (cpu_at i s)))) /\
  (forall t, t ∈ sleepers (cpu_at i s) <-> sleeping_on (tasks s t) = Z.of_nat i) /\ (forall t, t ∈ sleepers (cpu_at i s) -> state (tasks s t) = TASK_BLOCKED) /\
  (forall c now l x l' s', perform c (Due i now) l x s = Some (l', s') ->
     (l' = l /\ forall t, t ∈ sleepers (cpu_at i s) -> now < sleep_key_ns (tasks s t)) \/
     (exists t, l' = Wake_task t :: Due i now :: l /\ head (sleepers (cpu_at i s)) = Some t /\ sleep_key_ns (tasks s t) <= now)).
Proof.
  intros Hr i. destruct (reachable_ok offset s Hr) as [_ Hs]. split; [apply Hs|]. split; [apply Hs|]. split; [apply Hs|]. split; [|split].
  - intros t. split; [intros Hin; by apply (sl_in s Hs i)|]. intros E. pose proof (sl_on s Hs t) as Hin. rewrite E, Nat2Z.id in Hin. apply Hin. lia.
  - intros t Hin. by apply (sl_in s Hs i).
  - intros c now l x l' s'. cbn. pose proof (sl_order s Hs i) as Ho. destruct (sleepers (cpu_at i s)) as [|t ts]; [intros [= <- <-]; left; split; [done|by intros t ?%elem_of_nil]|].
    apply StronglySorted_inv in Ho as [_ Hall]. rewrite Forall_forall in Hall. destruct (Z.leb_spec (sleep_key_ns (tasks s t)) now) as [|Hlt]; intros [= <- <-]; [right; by exists t|].
    left. split; [done|]. intros u [->|Hu]%elem_of_cons; [done|]. specialize (Hall u Hu). unfold earlier in Hall. lia.
Qed.

Lemma sleepers_sound_witness : rtc step (boot 0) main_sleeps /\ sleepers (cpu_at 0 main_sleeps) = [1] /\ sleeping_on (tasks main_sleeps 1) = 0.
Proof.
  split; [exact main_sleeps_reached|]. assert (sleepers (cpu_at 0 main_sleeps) = [1]) as E by (by vm_compute). split; [exact E|].
  apply (sleepers_sound 0 main_sleeps main_sleeps_reached 0%nat). rewrite E. by left.
Defined.
