(* ===== verification/SchedWake.v ===== *)
(** Waking: once [sched_wakeup] has been through the tasks, those that slept on the channel
    can run and none is left asleep on it, whatever the other CPUs did meanwhile; it always can get through; and the
    scheduler does not deadlock. *)
From stdpp Require Import base tactics numbers list sets gmap relations.
From Stdlib Require Import ZArith Lia.
From S2P Require Import Prelude Sched SchedInv SchedMoves SchedRun SchedStep SchedSleep SchedProps.

Open Scope Z_scope.

Definition asleep_on (ch : channel) (s : sched) (t : Z) : Prop := state (tasks s t) = TASK_BLOCKED /\ wait_channel (waits_for (tasks s t)) = ch.

(** Nobody comes to sleep on [ch]. *)
Definition hushed (ch : channel) (s s' : sched) : Prop := forall t, asleep_on ch s' t -> asleep_on ch s t.

Section hushed.
  Context (ch : channel).
  Notation hush := (hushed ch).

Lemma hushed_refl s : hush s s.
Proof. by intros t. Qed.
Lemma hushed_trans s s' s'' : hush s s' -> hush s' s'' -> hush s s''.
Proof. unfold hushed. auto. Qed.
Lemma hushed_same s s' : tasks s' = tasks s -> hush s s'.
Proof. intros E t. unfold asleep_on. by rewrite E. Qed.
Lemma hushed_task t f s : (forall u, state (f u) = TASK_BLOCKED -> wait_channel (waits_for (f u)) = ch -> state u = TASK_BLOCKED /\ wait_channel (waits_for u) = ch) -> hush s (set_task t f s).
Proof. intros Hf u. unfold asleep_on. cbn. destruct (u =? t); [|done]. intros [? ?]. by apply Hf. Qed.
Lemma hushed_fold {A} (f : sched -> A -> sched) (l : list A) s : (forall s a, hush s (f s a)) -> hush s (fold_left f l s).
Proof. intros Hf. revert s. induction l as [|a l IH]; intros s; [apply hushed_refl|]. eapply hushed_trans; [apply Hf|apply IH]. Qed.
End hushed.

Create HintDb hush.
#[export] Hint Resolve hushed_refl : hush.
#[export] Hint Extern 1 (hushed _ _ (set_cpu _ _ _)) => by apply hushed_same : hush.
#[export] Hint Extern 1 (hushed _ _ (set_process _ _ _)) => by apply hushed_same : hush.
#[export] Hint Extern 1 (hushed _ _ (set_list _ _)) => by apply hushed_same : hush.
#[export] Hint Extern 1 (hushed _ _ (set_init_task _ _)) => by apply hushed_same : hush.
#[export] Hint Extern 1 (hushed _ _ (set_allocated _ _)) => by apply hushed_same : hush.
#[export] Hint Extern 1 (hushed _ _ (set_task _ _ _)) => apply hushed_task; by intros ? : hush.

Ltac hush_then :=
  match goal with
  | |- hushed ?ch ?s (set_task _ _ ?s1) => apply (hushed_trans ch s s1)
  | |- hushed ?ch ?s (set_cpu _ _ ?s1) => apply (hushed_trans ch s s1)
  | |- hushed ?ch ?s (set_process _ _ ?s1) => apply (hushed_trans ch s s1)
  | |- hushed ?ch ?s (rq_push _ _ ?s1) => apply (hushed_trans ch s s1)
  | |- hushed ?ch ?s (kick_an_idle_cpu _ ?s1) => apply (hushed_trans ch s s1)
  end; [|solve [auto with hush]].

Lemma hushed_unlink ch v t s : hushed ch s (rq_unlink v t s).
Proof. unfold rq_unlink. hush_then. auto with hush. Qed.
Lemma hushed_push ch v t s : hushed ch s (rq_push v t s).
Proof. unfold rq_push. hush_then. auto with hush. Qed.
Lemma hushed_kick ch here i s : hushed ch s (kick_cpu here i s).
Proof. unfold kick_cpu. destruct (_ || _); auto with hush. Qed.
Lemma hushed_kick_idle ch here s : hushed ch s (kick_an_idle_cpu here s).
Proof. unfold kick_an_idle_cpu. destruct (first_idle _ _ _); [apply hushed_kick|apply hushed_refl]. Qed.
Lemma hushed_take_pid ch self p s t : hushed ch s (take_pid self p s t).
Proof. unfold take_pid. hush_then. destruct (_ =? _); [|auto with hush]. hush_then. auto with hush. Qed.
Lemma hushed_give_away ch p s t : hushed ch s (give_away p s t).
Proof. unfold give_away. destruct (orphan _ _ _); [|auto with hush]. destruct (negb _); auto with hush. Qed.
Lemma hushed_remove ch t s : hushed ch s (sleeper_remove t s).
Proof. unfold sleeper_remove. destruct (_ <? 0); [auto with hush|]. hush_then. auto with hush. Qed.
#[export] Hint Resolve hushed_unlink hushed_push hushed_kick hushed_kick_idle hushed_take_pid hushed_give_away hushed_remove : hush.

Lemma hushed_end_wait ch t s : ch <> No_channel -> hushed ch s (end_wait t s) /\ ~ asleep_on ch (end_wait t s) t.
Proof.
  intros Hne. unfold end_wait, asleep_on. split; [|cbn; rewrite Z.eqb_refl; by intros [_ <-]].
  eapply hushed_trans; [apply (hushed_remove ch t)|]. apply hushed_task. intros u _ E. by destruct Hne.
Qed.
Lemma hushed_switch ch c hold next ms s : hushed ch s (switch_to c hold next ms s).
Proof.
  unfold switch_to. hush_then. hush_then. unfold leave_old. destruct (is_state _ _ _); [|auto with hush]. destruct (_ =? _); [auto with hush|]. destruct ms; hush_then; auto with hush.
Qed.
Lemma hushed_stop ch self s ops s2 : stop_current self s = (ops, s2) -> hushed ch s s2.
Proof. unfold stop_current. intros [= _ <-]. hush_then. auto with hush. Qed.
Lemma hushed_exit_begin ch self n w s ops s2 : exit_begin self n w s = (ops, s2) -> hushed ch s s2.
Proof. unfold exit_begin. destruct (_ && negb (group_exit _)); intros [= _ <-]; [hush_then|]; auto with hush. Qed.
Lemma hushed_exit_leave ch self n s b s2 : exit_leave self n s = (b, s2) -> hushed ch s s2.
Proof. unfold exit_leave. intros [= _ <-]. destruct (_ && _); [hush_then|]; auto with hush. Qed.
Lemma hushed_exit_last ch s self status last ops s2 : exit_last self status last s = (ops, s2) -> hushed ch s s2.
Proof.
  unfold exit_last. set (s1 := set_task self (fun u => set_state TASK_ZOMBIE (set_fate _ u)) s).
  assert (hushed ch s s1) as H1 by (unfold s1; auto with hush). destruct last; cbn [negb]; [|by intros [= _ <-]].
  set (s3 := fold_left _ _ s1). set (s4 := if _ && _ then set_init_task 0 s3 else s3). intros [= _ <-]. apply (hushed_trans _ _ s1); [done|].
  apply (hushed_trans _ _ s3); [unfold s3; apply hushed_fold; intros s0 a; destruct (leader s0 a); cbn; auto with hush|].
  apply (hushed_trans _ _ s4); [unfold s4; destruct (_ && _); auto with hush|]. apply hushed_fold. auto with hush.
Qed.
Lemma hushed_new ch t p parent prio s : hushed ch s (alloc_task t p parent prio s).
Proof. intros u. unfold asleep_on. cbn. destruct (u =? t); [|done]. by intros [? _]. Qed.
Lemma hushed_rq_take ch v mo s0 s t s' : hushed ch s0 s -> rq_take v mo s = Some (t, s') -> hushed ch s0 s'.
Proof. unfold rq_take. intros H. destruct (first_in _ _ _); [|done]. intros [= _ <-]. eapply hushed_trans; [exact H|apply hushed_unlink]. Qed.

(** Only a task that goes to sleep comes to be asleep on a channel. *)
Lemma perform_hushed ch c o l x s l' s' : ch <> No_channel -> perform c o l x s = Some (l', s') -> match o with Sleep _ _ _ _ _ => False | _ => True end -> hushed ch s s'.
Proof.
  intros Hch Hp Ho. destruct o; cbn [perform] in Hp; try done; try (repeat case_match; simplify_eq; solve [auto with hush]).
  - destruct (rq_busy _ _); simplify_eq. unfold push_ready. hush_then. auto with hush.
  - destruct (rq_take _ _ _) as [[t s1]|] eqn:E; simplify_eq; [eapply hushed_rq_take; [|exact E]|]; auto with hush.
  - destruct order as [|v order]; simplify_eq; [auto with hush|]. destruct (rq_busy _ _); simplify_eq; [auto with hush|].
    destruct (rq_take _ _ _) as [[t s1]|] eqn:E; simplify_eq; [eapply hushed_rq_take; [|exact E]|]; auto with hush.
  - simplify_eq. pose proof (hushed_switch ch c hold next may_stay s). destruct (_ && _); [|done]. by hush_then.
  - simplify_eq. hush_then. auto with hush.
  - simplify_eq. by apply hushed_end_wait.
  - destruct (stop_current _ _) as [ops s2] eqn:E. simplify_eq. by eapply hushed_stop.
  - destruct (exit_begin _ _ _ _) as [ops s2] eqn:E. simplify_eq. by eapply hushed_exit_begin.
  - destruct (exit_leave _ _ _) as [b s2] eqn:E. simplify_eq. by eapply hushed_exit_leave.
  - destruct (exit_last _ _ _ _) as [ops s2] eqn:E. simplify_eq. by eapply hushed_exit_last.
  - destruct (is_idle _); simplify_eq; [auto with hush|]. destruct (least_loaded _ _ _ _ _ _). simplify_eq. hush_then. auto with hush.
  - destruct (rq_busy _ _); simplify_eq; [auto with hush|]. destruct (rq_take _ _ _) as [[t s1]|] eqn:E; simplify_eq; [|auto with hush]. hush_then. eapply hushed_rq_take; [|exact E]. auto with hush.
  - destruct (_ <? _); simplify_eq; [auto with hush|]. eapply hushed_trans; [|apply hushed_fold; auto with hush]. auto with hush.
  - simplify_eq. destruct (bool_decide (t ∈ allocated s)); [auto with hush|apply hushed_new].
  - destruct (_ && _); simplify_eq; [hush_then|]; auto with hush.
  - simplify_eq. destruct (_ =? _); [|hush_then]; auto with hush.
Qed.

(** * Who has been woken stays so *)

Definition awake (s : sched) (t : Z) : Prop := state (tasks s t) = TASK_READY \/ state (tasks s t) = TASK_RUNNING.

(** Who sleeps on [ch] goes on to or can run, and who can run goes on to. *)
Definition stays (ch : channel) (s s' : sched) : Prop :=
  task_list s' = task_list s /\ forall t, asleep_on ch s t \/ awake s t -> asleep_on ch s' t \/ awake s' t.

Section stays.
  Context (ch : channel).

Lemma stays_refl s : stays ch s s.
Proof. done. Qed.
Lemma stays_trans s s' s'' : stays ch s s' -> stays ch s' s'' -> stays ch s s''.
Proof. intros [E H] [E' H']. split; [congruence|auto]. Qed.
Lemma stays_same s s' : tasks s' = tasks s -> task_list s' = task_list s -> stays ch s s'.
Proof. intros E El. split; [done|]. intros t. unfold asleep_on, awake. by rewrite E. Qed.
Lemma stays_task t f s : (forall u, state (f u) = state u /\ wait_channel (waits_for (f u)) = wait_channel (waits_for u) \/ state (f u) = TASK_READY \/ state (f u) = TASK_RUNNING) ->
  stays ch s (set_task t f s).
Proof. intros Hf. split; [done|]. intros u. unfold asleep_on, awake. cbn. destruct (u =? t); [|done]. destruct (Hf (tasks s u)) as [[-> ->]|]; auto. Qed.
End stays.

Create HintDb stays.
#[export] Hint Resolve stays_refl : stays.
#[export] Hint Extern 1 (stays _ _ (set_cpu _ _ _)) => by apply stays_same : stays.
#[export] Hint Extern 1 (stays _ _ (set_allocated _ _)) => by apply stays_same : stays.
#[export] Hint Extern 1 (stays _ _ (set_task _ _ _)) => apply stays_task; intros ?; cbn; solve [auto] : stays.

Ltac stays_then :=
  match goal with
  | |- stays ?ch ?s (set_task _ _ ?s1) => apply (stays_trans ch s s1)
  | |- stays ?ch ?s (set_cpu _ _ ?s1) => apply (stays_trans ch s s1)
  | |- stays ?ch ?s (rq_push _ _ ?s1) => apply (stays_trans ch s s1)
  | |- stays ?ch ?s (kick_an_idle_cpu _ ?s1) => apply (stays_trans ch s s1)
  end; [|solve [auto with stays]].

Lemma stays_unlink ch v t s : stays ch s (rq_unlink v t s).
Proof. unfold rq_unlink. stays_then. auto with stays. Qed.
Lemma stays_push ch v t s : stays ch s (rq_push v t s).
Proof. unfold rq_push. stays_then. auto with stays. Qed.
Lemma stays_kick ch here i s : stays ch s (kick_cpu here i s).
Proof. unfold kick_cpu. destruct (_ || _); auto with stays. Qed.
Lemma stays_kick_idle ch here s : stays ch s (kick_an_idle_cpu here s).
Proof. unfold kick_an_idle_cpu. destruct (first_idle _ _ _); [apply stays_kick|apply stays_refl]. Qed.
#[export] Hint Resolve stays_unlink stays_push stays_kick stays_kick_idle : stays.
Lemma stays_rq_take ch v mo s0 s t s' : stays ch s0 s -> rq_take v mo s = Some (t, s') -> stays ch s0 s'.
Proof. unfold rq_take. intros H. destruct (first_in _ _ _); [|done]. intros [= _ <-]. eapply stays_trans; [exact H|apply stays_unlink]. Qed.
Lemma stays_switch ch c hold next ms s : stays ch s (switch_to c hold next ms s).
Proof.
  unfold switch_to. stays_then. stays_then. unfold leave_old. destruct (is_state _ _ _); [|auto with stays]. destruct (_ =? _); [auto with stays|]. destruct ms; stays_then; auto with stays.
Qed.

(** Without the scheduler lock nobody puts a task to sleep or ends it, and nobody wakes one
    without making it ready. *)
Lemma perform_stays ch c o l x s l' s' : perform c o l x s = Some (l', s') -> needs o Unlocked = true -> stays ch s s'.
Proof.
  intros Hp Ho. destruct o; cbn [perform] in Hp; try done; try (repeat case_match; simplify_eq; solve [auto with stays]).
  - destruct (rq_busy _ _); simplify_eq. unfold push_ready. stays_then. auto with stays.
  - destruct (rq_take _ _ _) as [[t s1]|] eqn:E; simplify_eq; [eapply stays_rq_take; [|exact E]|]; auto with stays.
  - destruct order as [|v order]; simplify_eq; [auto with stays|]. destruct (rq_busy _ _); simplify_eq; [auto with stays|].
    destruct (rq_take _ _ _) as [[t s1]|] eqn:E; simplify_eq; [eapply stays_rq_take; [|exact E]|]; auto with stays.
  - simplify_eq. pose proof (stays_switch ch c hold next may_stay s). destruct (_ && _); [|done]. by stays_then.
  - simplify_eq. stays_then. auto with stays.
  - destruct (is_idle _); simplify_eq; [auto with stays|]. destruct (least_loaded _ _ _ _ _ _). simplify_eq. stays_then. auto with stays.
  - destruct (rq_busy _ _); simplify_eq; [auto with stays|]. destruct (rq_take _ _ _) as [[t s1]|] eqn:E; simplify_eq; [|auto with stays]. stays_then. eapply stays_rq_take; [|exact E]. auto with stays.
Qed.

(** * Going through the list *)

(** Those of [W], who slept on [ch], still do, or can run, or are those of [P]: woken and on
    their way to a queue. *)
Definition accounted (ch : channel) (W : Z -> Prop) (P : list Z) (s : sched) : Prop :=
  forall t, W t -> t ∈ task_list s /\ (t ∈ P \/ asleep_on ch s t \/ awake s t).
Lemma accounted_stays ch W P s s' : stays ch s s' -> accounted ch W P s -> accounted ch W P s'.
Proof. intros [El Hk] Ha t Ht. destruct (Ha t Ht) as [Hl H]. rewrite El. split; [done|]. destruct H; auto. Qed.

(** What [c] still has to do of [Wake ch] before [l], and who may still be asleep. *)
Inductive waking (ch : channel) (W : Z -> Prop) (l : list op) (s : sched) : list op -> Prop :=
| waking_all : accounted ch W [] s -> waking ch W l s (Wake ch :: l)
| waking_in ts : accounted ch W [] s -> (forall t, asleep_on ch s t -> t ∈ ts) -> waking ch W l s (Wake_in ch ts :: l)
| waking_task t ts : accounted ch W [] s -> (forall u, asleep_on ch s u -> u = t \/ u ∈ ts) -> waking ch W l s (Wake_task t :: Wake_in ch ts :: l)
| waking_place o ts : match o with Place _ _ | Push _ _ | Kick _ _ => True | _ => False end -> accounted ch W (op_tasks o) s ->
    (forall u, asleep_on ch s u -> u ∈ ts) -> waking ch W l s (o :: Wake_in ch ts :: l)
| waking_done : accounted ch W [] s -> (forall t, ~ asleep_on ch s t) -> waking ch W l s l.

Lemma waking_hushed ch W l s s' l1 : hushed ch s s' -> stays ch s s' -> waking ch W l s l1 -> waking ch W l s' l1.
Proof. intros Hh Hk Hw. destruct Hw as [Ha|ts Ha H|t ts Ha H|o ts Ho Ha H|Ha H]; apply (accounted_stays ch W _ s s' Hk) in Ha; constructor; auto. intros t Ht. apply (H t), Hh, Ht. Qed.

(** The one that wakes holds the scheduler lock. *)
Lemma waking_held ch W l s m l1 : typed m l1 = true -> l1 <> l -> waking ch W l s l1 -> m <> Unlocked.
Proof.
  intros Ht Hne Hw ->. destruct Hw as [|ts _ _|t ts _ _|o ts Ho _ _|]; try done. apply typed_cons in Ht as (_&_&_&Ht). destruct o; done.
Qed.

(** The task that is woken sets out for a queue, and comes to one. *)
Lemma accounted_end_wait ch W t s : accounted ch W [] s -> accounted ch W [t] (end_wait t s).
Proof.
  intros Ha u Hu. destruct (Ha u Hu) as [Hl H]. assert (task_list (end_wait t s) = task_list s) as -> by (unfold end_wait, sleeper_remove; by destruct (_ <? 0)). split; [done|].
  destruct (decide (u = t)) as [->|Hn]; [left; apply elem_of_cons; by left|right]. destruct H as [H|H]; [by apply elem_of_nil in H|].
  unfold asleep_on, awake, end_wait, sleeper_remove in *. cbn. apply Z.eqb_neq in Hn. rewrite Hn. destruct (_ <? 0); [done|]. cbn. by rewrite Hn.
Qed.
Lemma accounted_push ch W k t s : accounted ch W [t] s -> accounted ch W [] (push_ready k t s).
Proof.
  intros Ha. assert (stays ch s (push_ready k t s)) as Hk by (unfold push_ready; stays_then; auto with stays). apply (accounted_stays ch W [t] _ _ Hk) in Ha.
  intros u Hu. destruct (Ha u Hu) as [Hl H]. split; [done|]. destruct H as [H|H]; [|by right]. apply list_elem_of_singleton in H as ->. right. right. left.
  unfold push_ready, rq_push. cbn. by rewrite Z.eqb_refl.
Qed.

Lemma waking_step ch W c o l1 l x s l' s' : sched_ok s -> ch <> No_channel -> todo (cpu_at c s) = o :: l1 -> o :: l1 <> l -> waking ch W l s (o :: l1) -> perform c o l1 x s = Some (l', s') ->
  waking ch W l s' l'.
Proof.
  intros [Hi _] Hch Ht Hne Hw Hp. assert (hushed ch s s') as Hh.
  { apply (perform_hushed ch c o l1 x s l' s' Hch Hp). inversion Hw; subst; try done. by destruct o. }
  inversion Hw as [Ha|ts Ha H|t ts Ha H|o' ts Ho Ha H|]; subst; try done; cbn in Hp.
  - simplify_eq. constructor; [done|]. intros t [Hb _]. apply (iv_unlisted [] s' Hi). by left.
  - destruct ts as [|t ts]; simplify_eq; [apply waking_done; [done|]; intros t Ht'; apply Hh, H in Ht'; by apply elem_of_nil in Ht'|].
    destruct (_ && _) eqn:E; cbn.
    + constructor; [done|]. intros u Hu. apply H in Hu. by apply elem_of_cons in Hu.
    + constructor; [done|]. intros u Hu. pose proof (H u Hu) as Hin. apply elem_of_cons in Hin as [->|]; [|done]. exfalso. destruct Hu as [H1 H2]. apply andb_false_iff in E as [E|E]; by apply bool_decide_eq_false in E.
  - simplify_eq. apply waking_place; [done|by apply accounted_end_wait|]. intros u Hu. destruct (hushed_end_wait ch t s Hch) as [_ Hn]. apply Hh in Hu as Hu'. destruct (H u Hu') as [->|]; done.
  - destruct o; try done; cbn [perform] in Hp.
    + injection Hp as <- <-. by apply waking_place.
    + destruct (rq_busy _ _); [done|]. injection Hp as <- <-. apply waking_place; [done|by apply accounted_push|auto].
    + pose proof (perform_stays ch c (Kick k t) _ x s l' s' Hp eq_refl) as Hk. injection Hp as <- <-. apply waking_in; [by apply (accounted_stays ch W _ s)|auto].
Qed.

(** A step of another CPU. *)
Lemma begin_wait_todo c t ch tick ns s j : todo (cpu_at j (begin_wait c t ch tick ns s)) = todo (cpu_at j s).
Proof. unfold begin_wait, sleeper_add. destruct (_ || _); [|done]. by rewrite (cpu_at_alter todo). Qed.
Lemma end_wait_todo t s j : todo (cpu_at j (end_wait t s)) = todo (cpu_at j s).
Proof. unfold end_wait, sleeper_remove. destruct (_ <? 0); [done|]. change (todo (cpu_at j (set_cpu (Z.to_nat (sleeping_on (tasks s t))) (fun q => set_sleepers (remove t (sleepers q)) (u32 (sleeper_count q - 1)) q) s)) = todo (cpu_at j s)). by rewrite (cpu_at_alter todo). Qed.
Lemma perform_others s c k o l x l' s' j : sched_ok s -> cpus s !! c = Some k -> todo k = o :: l -> perform c o l x s = Some (l', s') -> todo (cpu_at j s') = todo (cpu_at j s).
Proof.
  intros [Hi Hs] Hk Ht Hp. destruct (perform_sleeping s c k o l x l' s' Hi Hs Hk Ht Hp) as [o l' s' Hsl _|o l' ch tick ns _ _ _|t l']; [apply Hsl|apply begin_wait_todo|apply end_wait_todo].
Qed.

Lemma waking_locked ch W c l s : inv [] s -> todo (cpu_at c s) <> l -> waking ch W l s (todo (cpu_at c s)) -> sched_held (cpu_at c s) = true.
Proof.
  intros Hi Hl Hw. destruct (decide (todo (cpu_at c s) = [])) as [E|Hn]; [rewrite E in *; by inversion Hw; subst|]. pose proof (cpu_at_todo s c Hn) as Hk.
  pose proof (iv_cpus [] s Hi c _ Hk) as Hok. rewrite (mode_held s c _ Hok), negb_true_iff. apply bool_decide_eq_false. by apply (waking_held ch W l s _ (todo (cpu_at c s)) (ok_typed _ _ _ Hok)).
Qed.

Lemma waking_other ch W c c' o l1 x l2 s s' l : sched_ok s -> ch <> No_channel -> c' <> c -> todo (cpu_at c s) <> l -> waking ch W l s (todo (cpu_at c s)) ->
  todo (cpu_at c' s) = o :: l1 -> perform c' o l1 x s = Some (l2, s') -> hushed ch s s' /\ stays ch s s'.
Proof.
  intros [Hi Hs] Hch Hne Hl Hw Ht Hp. pose proof (cpu_at_todo s c' ltac:(by rewrite Ht)) as Hk. destruct (start s c' _ _ _ Hi Hk Ht) as (Hn&_).
  assert (mode_of (cpu_at c' s) = Unlocked) as Hm.
  { destruct (decide (mode_of (cpu_at c' s) = Unlocked)) as [|H]; [done|]. destruct Hne. apply (iv_lock [] s Hi); [|by eapply waking_locked].
    by rewrite (mode_held s c' _ (iv_cpus [] s Hi c' _ Hk)), negb_true_iff, bool_decide_eq_false. }
  rewrite Hm in Hn. split; [|by apply (perform_stays ch c' o l1 x s l2)]. apply (perform_hushed ch c' o l1 x s l2 s' Hch Hp). by destruct o.
Qed.

Lemma todo_other c f s j : c <> j -> todo (cpu_at j (set_cpu c f s)) = todo (cpu_at j s).
Proof. intros Hn. unfold cpu_at. cbn. by rewrite list_lookup_alter_ne. Qed.
Lemma todo_own c l s k : cpus s !! c = Some k -> todo (cpu_at c (set_cpu c (set_todo l) s)) = l.
Proof. intros Hk. unfold cpu_at. cbn. by rewrite list_lookup_alter_eq, Hk. Qed.

(** What a CPU performs is a step, after which it goes on with what that left. *)
Lemma own_step s c o l x l' s' : sched_ok s -> todo (cpu_at c s) = o :: l -> perform c o l x s = Some (l', s') ->
  step s (set_cpu c (set_todo l') s') /\ sched_ok (set_cpu c (set_todo l') s') /\ todo (cpu_at c (set_cpu c (set_todo l') s')) = l' /\
  forall j, j <> c -> todo (cpu_at j (set_cpu c (set_todo l') s')) = todo (cpu_at j s).
Proof.
  intros Hok Ht Hp. pose proof (cpu_at_todo s c ltac:(by rewrite Ht)) as Hk. assert (step s (set_cpu c (set_todo l') s')) as Hst by by eapply step_run.
  split; [done|]. split; [by apply (step_ok s)|]. split.
  - apply (todo_own c l' s' (cpu_at c s')), cpu_at_todo. by rewrite (perform_others s c _ o l x l' s' c Hok Hk Ht Hp), Ht.
  - intros j Hj. rewrite todo_other by done. by apply (perform_others s c _ o l x l' s' j Hok Hk Ht Hp).
Qed.

Lemma waking_stays ch W c l s s' : sched_ok s -> ch <> No_channel -> step s s' -> todo (cpu_at c s) <> l -> waking ch W l s (todo (cpu_at c s)) -> waking ch W l s' (todo (cpu_at c s')).
Proof.
  intros Hok Hch Hst Hl Hw. pose proof (step_ok s s' Hst Hok) as Hok'. destruct Hst as [s c' l0 Ho Ht Hc|s c' o l0 x l' s' Ht Hp|s c' Ht|s c' Ht|s c' Ho|s t b|s t p].
  - destruct (decide (c' = c)) as [->|Hn]; [rewrite Ht in *; by inversion Hw; subst|]. rewrite todo_other by done. eapply waking_hushed; [..|done]; auto with hush stays.
  - pose proof (cpu_at_todo s c' ltac:(by rewrite Ht)) as Hk. destruct (decide (c' = c)) as [->|Hn].
    + rewrite (proj1 (proj2 (proj2 (own_step s c o l0 x l' s' Hok Ht Hp)))). apply (waking_hushed ch W l s'); [auto with hush stays..|]. rewrite Ht in Hl, Hw. by apply (waking_step ch W c o l0 l x s).
    + rewrite todo_other, (perform_others s c' _ o l0 x l' s' c Hok Hk Ht Hp) by done. destruct (waking_other ch W c c' o l0 x l' s s' l) as [Hh Hke]; try done.
      eapply waking_hushed; [hush_then; done|stays_then; done|done].
  - destruct (decide (c' = c)) as [->|Hn]; [rewrite Ht in *; by inversion Hw; subst|]. rewrite todo_other by done. eapply waking_hushed; [..|done]; auto with hush stays.
  - rewrite (cpu_at_alter todo) by done. eapply waking_hushed; [..|done]; auto with hush stays.
  - rewrite (cpu_at_alter todo) by done. eapply waking_hushed; [..|done]; auto with hush stays.
  - eapply waking_hushed; [..|done]; auto with hush stays.
  - eapply waking_hushed; [..|done]; unfold task_set_priority; auto with hush stays.
Qed.

(** * Nothing stays in the way *)

(** The CPUs run, and [c] has not yet come to [l]. *)
Definition until (c : nat) (l : list op) (s s' : sched) : Prop := step s s' /\ todo (cpu_at c s) <> l.

(** The items with which a CPU has its queue locked never wait: so many steps at most. *)
Definition busy_steps (l : list op) : nat :=
  match l with
  | Steal _ order tries :: _ => 5 + length order * S STEAL_TRIES + (STEAL_TRIES - tries)
  | Pick _ _ :: _ => 4
  | Switch _ _ _ :: _ => 3
  | Ctx_switch :: _ => 2
  | Finish :: _ => 1
  | _ => 0
  end%nat.
Lemma busy_none l : existsb prompt l = false -> busy_steps l = 0%nat.
Proof. destruct l as [|[]]; done. Qed.
Lemma busy_goes_on s k x : inv [] s -> rq_busy k s = true -> exists o l l' s', todo (cpu_at k s) = o :: l /\ perform k o l x s = Some (l', s') /\ (busy_steps l' < busy_steps (o :: l))%nat.
Proof.
  unfold rq_busy. intros Hi. destruct (todo (cpu_at k s)) as [|o l] eqn:Ht; [done|]. pose proof (cpu_at_todo s k ltac:(by rewrite Ht)) as Hk.
  destruct (start s k _ o l Hi Hk Ht) as (_&Hpr&_). pose proof (busy_none l Hpr) as Hz. intros Hb. exists o, l. destruct o; try done; cbn [perform].
  - destruct order as [|v order]; [eexists _, _; split; [done|]; split; [done|]; cbn; lia|]. destruct (rq_busy v s).
    + eexists _, _. split; [done|]. split; [done|]. destruct (Nat.ltb_spec (S tries) STEAL_TRIES); cbn [busy_steps length]; lia.
    + destruct (rq_take v true s) as [[t s1]|]; (eexists _, _; split; [done|]; split; [done|]; cbn [busy_steps length]; lia).
  - destruct next as [t|]; [eexists _, _; split; [done|]; split; [done|]; cbn; lia|]. destruct (_ && _); (eexists _, _; split; [done|]; split; [done|]); [|cbn; lia].
    destruct hold; cbn; lia.
  - eexists _, _. split; [done|]. split; [done|]. cbn; lia.
  - eexists _, _. split; [done|]. split; [done|]. cbn; lia.
  - eexists _, _. split; [done|]. split; [done|]. destruct (release_sched _), (moving _ =? 0); cbn [app]; cbn; lia.
Qed.

Lemma unbusy n c l k s : sched_ok s -> (busy_steps (todo (cpu_at k s)) <= n)%nat -> k <> c -> todo (cpu_at c s) <> l ->
  exists s', rtc (until c l) s s' /\ sched_ok s' /\ rq_busy k s' = false /\ todo (cpu_at c s') = todo (cpu_at c s).
Proof.
  revert s. induction n as [|n IH]; intros s Hok Hn Hkc Hl; (destruct (rq_busy k s) eqn:Hb; [|exists s; split; [apply rtc_refl|done]]);
    destruct (busy_goes_on s k some_reading (proj1 Hok) Hb) as (o&l1&l'&s1&Ht&Hp&Hlt); [rewrite Ht in Hn; lia|].
  destruct (own_step s k o l1 _ l' s1 Hok Ht Hp) as (Hst&Hok'&Ho&Hj). specialize (Hj c ltac:(done)).
  destruct (IH _ Hok') as (s'&Hr&?&?&E); [rewrite Ho; rewrite Ht in Hn; lia|done|by rewrite Hj|]. exists s'. split; [by eapply rtc_l|]. split; [done|]. split; [done|congruence].
Qed.

(** [c] comes from [l1] to [l2] on its way to [l]. *)
Definition leads (c : nat) (l l1 l2 : list op) : Prop :=
  forall s, sched_ok s -> todo (cpu_at c s) = l1 -> exists s', rtc (until c l) s s' /\ sched_ok s' /\ todo (cpu_at c s') = l2.
Lemma leads_trans c l l1 l2 l3 : leads c l l1 l2 -> leads c l l2 l3 -> leads c l l1 l3.
Proof.
  intros H1 H2 s Hok Ht. destruct (H1 s Hok Ht) as (s1&Hr1&Hok1&Ht1). destruct (H2 s1 Hok1 Ht1) as (s2&Hr2&Hok2&Ht2). exists s2. split; [by etransitivity|done].
Qed.
Lemma own_leads s c l o l1 x l' s' : sched_ok s -> todo (cpu_at c s) = o :: l1 -> o :: l1 <> l -> perform c o l1 x s = Some (l', s') ->
  exists s', rtc (until c l) s s' /\ sched_ok s' /\ todo (cpu_at c s') = l'.
Proof.
  intros Hok Ht Hne Hp. destruct (own_step s c o l1 x l' s' Hok Ht Hp) as (Hst&Hok'&Ho&_). eexists. split; [|split; [exact Hok'|exact Ho]]. apply rtc_once. split; [done|by rewrite Ht].
Qed.
Lemma longer {A} (a l : list A) : a <> [] -> a ++ l <> l.
Proof. intros Ha E. apply Ha. apply (f_equal length) in E. rewrite length_app in E. destruct a; [done|cbn in E; lia]. Qed.

Lemma kick_leads c l a k t : leads c l (Kick k t :: a ++ l) (a ++ l).
Proof. intros s Hok Ht. eapply (own_leads s c l _ _ some_reading); [done|exact Ht|by apply (longer (Kick k t :: a))|done]. Qed.
Lemma push_leads c l a k t : leads c l (Push k t :: a ++ l) (a ++ l).
Proof.
  intros s Hok Ht. assert (Push k t :: a ++ l <> l) as Hl by by apply (longer (Push k t :: a)). assert (exists s', rtc (until c l) s s' /\ sched_ok s' /\ rq_busy k s' = false /\ todo (cpu_at c s') = todo (cpu_at c s)) as (s1&Hr&Hok1&Hb&Ht1).
  { destruct (decide (k = c)) as [->|Hne]; [exists s; split; [apply rtc_refl|]; split; [done|]; split; [unfold rq_busy; by rewrite Ht|done]|]. eapply (unbusy _ c l k s); auto. by rewrite Ht. }
  rewrite Ht in Ht1. destruct (own_leads s1 c l _ _ some_reading (Kick k t :: a ++ l) (push_ready k t s1) Hok1 Ht1 Hl) as (s2&Hr2&Hok2&Ht2); [cbn; by rewrite Hb|].
  destruct (kick_leads c l a k t s2 Hok2 Ht2) as (s3&?&?&?). exists s3. split; [by do 2 (etransitivity; [done|])|done].
Qed.
Lemma place_leads c l a t b : leads c l (Place t b :: a ++ l) (a ++ l).
Proof.
  intros s Hok Ht. destruct (own_leads s c l _ _ some_reading _ _ Hok Ht ltac:(by apply (longer (Place t b :: a))) eq_refl) as (s1&Hr&Hok1&Ht1).
  destruct (push_leads c l a _ _ s1 Hok1 Ht1) as (s2&?&?&?). exists s2. split; [by etransitivity|done].
Qed.
Lemma wake_task_leads c l a t : leads c l (Wake_task t :: a ++ l) (a ++ l).
Proof.
  intros s Hok Ht. destruct (own_leads s c l _ _ some_reading _ _ Hok Ht ltac:(by apply (longer (Wake_task t :: a))) eq_refl) as (s1&Hr&Hok1&Ht1).
  destruct (place_leads c l a _ _ s1 Hok1 Ht1) as (s2&?&?&?). exists s2. split; [by etransitivity|done].
Qed.
Lemma wake_in_leads c l ch ts : leads c l (Wake_in ch ts :: l) l.
Proof.
  induction ts as [|t ts IH]; intros s Hok Ht.
  - apply (own_leads s c l _ _ some_reading l s Hok Ht); [by apply (longer [Wake_in ch []])|done].
  - destruct (own_leads s c l _ _ some_reading _ _ Hok Ht ltac:(by apply (longer [Wake_in ch (t :: ts)])) eq_refl) as (s1&Hr&Hok1&Ht1).
    assert (leads c l ((if is_state s t TASK_BLOCKED && bool_decide (wait_channel (waits_for (tasks s t)) = ch) then [Wake_task t] else []) ++ Wake_in ch ts :: l) l) as Hle.
    { destruct (_ && _); [|done]. apply (leads_trans c l _ (Wake_in ch ts :: l)); [apply (wake_task_leads c l [Wake_in ch ts])|done]. }
    destruct (Hle s1 Hok1 Ht1) as (s2&?&?&?). exists s2. split; [by etransitivity|done].
Qed.

(** Wherever the waking has come to, it can go on to its end. *)
Lemma waking_leads ch W c l s : sched_ok s -> waking ch W l s (todo (cpu_at c s)) -> exists s', rtc (until c l) s s' /\ sched_ok s' /\ todo (cpu_at c s') = l.
Proof.
  intros Hok Hw. pose proof (wake_in_leads c l ch) as Hin. inversion Hw as [_ E|ts _ _ E|t ts _ _ E|o ts Ho _ _ E|_ H E].
  - destruct (own_leads s c l _ _ some_reading _ _ Hok (eq_sym E) ltac:(by apply (longer [Wake ch])) eq_refl) as (s1&Hr&Hok1&Ht1).
    destruct (Hin _ s1 Hok1 Ht1) as (s2&?&?). exists s2. split; [by etransitivity|done].
  - by apply (Hin ts).
  - eapply leads_trans; [apply (wake_task_leads c l [Wake_in ch ts] t)|apply Hin|done|done].
  - destruct o; try done; (eapply leads_trans; [|apply (Hin ts)|done|symmetry; exact E]); [apply (place_leads c l [Wake_in ch ts])|apply (push_leads c l [Wake_in ch ts])|apply (kick_leads c l [Wake_in ch ts])].
  - exists s. by split; [apply rtc_refl|].
Qed.

Lemma waking_until ch W c l s s' : ch <> No_channel -> sched_ok s -> waking ch W l s (todo (cpu_at c s)) -> rtc (until c l) s s' -> sched_ok s' /\ waking ch W l s' (todo (cpu_at c s')).
Proof.
  intros Hch Hok Hw Hr. revert Hok Hw. induction Hr as [|s s1 s2 [Hst Hl] _ IH]; [done|]. intros Hok Hw. apply IH; [by apply (step_ok s)|by apply (waking_stays ch W c l s)].
Qed.
Lemma waking_over ch W l s : waking ch W l s l -> accounted ch W [] s /\ forall t, ~ asleep_on ch s t.
Proof.
  intros Hw. inversion Hw as [_ E|ts _ _ E|t ts _ _ E|o ts Ho _ _ E|Ha H E]; [..|by split]; exfalso; revert E;
    [apply (longer [Wake ch])|apply (longer [Wake_in ch ts])|apply (longer [Wake_task t; Wake_in ch ts])|apply (longer [o; Wake_in ch ts])]; done.
Qed.
Lemma accounted_start ch s : sched_ok s -> accounted ch (asleep_on ch s) [] s.
Proof. intros [Hi _] t Ht. split; [apply (iv_unlisted [] s Hi); by left; destruct Ht|auto]. Qed.
(** A task that can run is with a CPU. *)
Lemma awake_placed s t : sched_ok s -> t ∈ task_list s -> awake s t -> exists k q, cpus s !! k = Some q /\ t ∈ cpu_tasks q.
Proof. intros [Hi _] Hl Ha. apply placed_elem. by apply (iv_lost [] s Hi). Qed.

(** C2. No wake-up is lost. When [sched_wakeup] is through, every task that slept on the
    channel when it began is ready to run or runs, and is with a CPU: in its queue, on
    it, or on the way between two; and no task sleeps on the channel, not one that did
    before and none that has come to since, whatever the other CPUs did meanwhile. And it
    does come to its end: from every state on its way the CPUs can go on to where it is
    through. *)
Theorem sched_wakeup_complete offset s0 c ch l : rtc step (boot offset) s0 -> ch <> No_channel -> todo (cpu_at c s0) = Wake ch :: l -> forall s1, rtc (until c l) s0 s1 ->
  (todo (cpu_at c s1) = l ->
     (forall t, asleep_on ch s0 t -> (state (tasks s1 t) = TASK_READY \/ state (tasks s1 t) = TASK_RUNNING) /\ exists k q, cpus s1 !! k = Some q /\ t ∈ cpu_tasks q) /\
     (forall t, ~ asleep_on ch s1 t)) /\
  exists s2, rtc (until c l) s1 s2 /\ todo (cpu_at c s2) = l.
Proof.
  intros Hr Hch Ht s1 Hu. pose proof (reachable_ok offset s0 Hr) as Hok0.
  destruct (waking_until ch (asleep_on ch s0) c l s0 s1 Hch Hok0 ltac:(rewrite Ht; constructor; by apply accounted_start) Hu) as [Hok Hw]. split.
  - intros E. rewrite E in Hw. destruct (waking_over ch _ l s1 Hw) as [Ha Hn]. split; [|done]. intros t Hs. destruct (Ha t Hs) as [Hl [H|[H|H]]]; [by apply elem_of_nil in H|by destruct (Hn t)|].
    split; [exact H|by apply awake_placed].
  - destruct (waking_leads ch _ c l s1 Hok Hw) as (s2&?&_&?). by exists s2.
Qed.

(** CPU 1 is about to wake the boot sequence. *)
Definition waker : sched := Nat.iter 1 (go 1) (set_cpu 1 (set_todo (sched_wakeup (Process_channel 1))) main_sleeps).
Lemma waker_reached : rtc step (boot 0) waker.
Proof. etransitivity; [exact main_sleeps_reached|]. unfold waker. etransitivity; [|apply (go_reaches 1 1)]. apply call_steps; [by vm_compute|by vm_compute|]. apply call_wakeup. Qed.

Lemma sched_wakeup_complete_witness : rtc step (boot 0) waker /\ todo (cpu_at 1 waker) = [Wake (Process_channel 1); Sched_unlock] /\ asleep_on (Process_channel 1) waker 1 /\
  exists s2, rtc (until 1 [Sched_unlock]) waker s2 /\ (state (tasks s2 1) = TASK_READY \/ state (tasks s2 1) = TASK_RUNNING) /\ ~ asleep_on (Process_channel 1) s2 1.
Proof.
  assert (todo (cpu_at 1 waker) = [Wake (Process_channel 1); Sched_unlock]) as E by (by vm_compute). split; [exact waker_reached|]. split; [exact E|]. assert (asleep_on (Process_channel 1) waker 1) as Ha by (split; by vm_compute). split; [exact Ha|].
  pose proof (sched_wakeup_complete 0 waker 1 (Process_channel 1) [Sched_unlock] waker_reached ltac:(done) E) as H.
  destruct (H waker (rtc_refl _ _)) as (_&s2&Hr&Ht). exists s2. split; [exact Hr|]. destruct (proj1 (H s2 Hr) Ht) as [H1 H2]. split; [exact (proj1 (H1 1 Ha))|exact (H2 1)].
Defined.

(** * No deadlock *)

(** An item waits only for the scheduler lock or for a queue's. *)
Definition waits_on (o : op) (s : sched) : Prop :=
  match o with
  | Sched_lock => sched_free s = false
  | Push k _ | Move_from _ k => rq_busy k s = true
  | Halt => True
  | _ => False
  end.
Lemma perform_waits c o l x s : waits_on o s \/ is_Some (perform c o l x s).
Proof. destruct o; cbn [perform waits_on]; repeat case_match; eauto. Qed.

(** A CPU that has locked its queue goes on. *)
Lemma busy_runs s k : rq_busy k s = true -> exists o l, todo (cpu_at k s) = o :: l /\ o <> Halt /\ forall x, is_Some (perform k o l x s).
Proof.
  unfold rq_busy. destruct (todo (cpu_at k s)) as [|o l]; [done|]. intros Hb. exists o, l. split; [done|]. split; [by destruct o|]. intros x. destruct (perform_waits k o l x s); by destruct o.
Qed.
(** So does one that does not wait for the scheduler lock, or one that it waits for. *)
Lemma no_lock_runs s c o l : todo (cpu_at c s) = o :: l -> o <> Halt -> o <> Sched_lock -> exists i o' l', todo (cpu_at i s) = o' :: l' /\ o' <> Halt /\ forall x, is_Some (perform i o' l' x s).
Proof.
  intros Ht Hh Hl. assert ((exists k, rq_busy k s = true) \/ ~ waits_on o s) as [[k Hk]|Hw].
  { destruct o; try done; try (right; exact id); cbn; (destruct (rq_busy k s) eqn:E; [left; by exists k|by right]). }
  - exists k. by apply busy_runs.
  - exists c, o, l. split; [done|]. split; [done|]. intros x. by destruct (perform_waits c o l x s).
Qed.
Lemma held_elsewhere s : sched_free s = false -> exists i, sched_held (cpu_at i s) = true.
Proof.
  intros Hf. destruct (existsb sched_held (cpus s)) eqn:E.
  - apply existsb_exists in E as (k&Hk&Hh). apply list_elem_of_In, list_elem_of_lookup in Hk as [i Hi]. exists i. by rewrite (cpu_at_some s i k Hi).
  - unfold sched_free in Hf. rewrite <-not_true_iff_false, forallb_forall in Hf. destruct Hf. intros k Hk. apply negb_true_iff. destruct (sched_held k) eqn:Eh; [|done].
    rewrite <-not_true_iff_false, existsb_exists in E. destruct E. by exists k.
Qed.

(** C12. The scheduler does not deadlock: as long as a CPU has something to do in it other
    than wait for an interrupt, there is one whose next item needs no lock that another
    has. *)
Theorem sched_no_deadlock offset s c o l : rtc step (boot offset) s -> todo (cpu_at c s) = o :: l -> o <> Halt ->
  exists i o' l', todo (cpu_at i s) = o' :: l' /\ o' <> Halt /\ forall x, is_Some (perform i o' l' x s).
Proof.
  intros Hr Ht Hh. destruct (reachable_ok offset s Hr) as [Hi _]. assert (o = Sched_lock \/ o <> Sched_lock) as [->|Hl] by (destruct o; first [by left|by right]); [|by apply (no_lock_runs s c o l)].
  destruct (sched_free s) eqn:Hf; [exists c, Sched_lock, l; split; [done|]; split; [done|]; intros x; cbn; rewrite Hf; eauto|].
  destruct (held_elsewhere s Hf) as [i Hheld]. destruct (todo (cpu_at i s)) as [|o' l'] eqn:Hti; [unfold sched_held in Hheld; by rewrite Hti in Hheld|].
  pose proof (cpu_at_todo s i ltac:(by rewrite Hti)) as Hk. destruct (start s i _ o' l' Hi Hk Hti) as (Hn&_).
  rewrite (mode_held s i _ (iv_cpus [] s Hi i _ Hk)) in Hheld. apply negb_true_iff, bool_decide_eq_false in Hheld.
  apply (no_lock_runs s i o' l' Hti); intros ->; by apply bool_decide_eq_true in Hn.
Qed.

(** CPU 0 waits for the lock that CPU 1 holds. *)
Definition lock_waited : sched := set_cpu 0 (set_todo (sched_wakeup (Process_channel 2))) waker.
Lemma lock_waited_reached : rtc step (boot 0) lock_waited.
Proof. etransitivity; [exact waker_reached|]. apply call_steps; [by vm_compute|by vm_compute|]. apply call_wakeup. Qed.

Lemma sched_no_deadlock_witness : rtc step (boot 0) lock_waited /\ perform 0 Sched_lock [Wake (Process_channel 2); Sched_unlock] some_reading lock_waited = None /\
  exists i o l, todo (cpu_at i lock_waited) = o :: l /\ o <> Halt /\ forall x, is_Some (perform i o l x lock_waited).
Proof.
  split; [exact lock_waited_reached|]. split; [by vm_compute|].
  apply (sched_no_deadlock 0 lock_waited 0 Sched_lock [Wake (Process_channel 2); Sched_unlock] lock_waited_reached); [by vm_compute|done].
Defined.
